(* ===== verification/_CoqProject ===== *)
-Q . S2P
Prelude.v
KList.v
KHlist.v
KListEntry.v
ListDemo.v
HashTables.v
Fifo.v
ClassQueue.v
RingSpsc.v
RteRing.v
Monitor.v
Sync.v
BlockingQueue.v
ThreadPool.v
LogStream.v
LogFile.v
AsyncLogging.v
StockFactory.v
CopyOnWrite.v
CppHeap.v
CppString.v
DeepCopy.v
DeepClasses.v
CopySwap.v
ClassTemplates.v
Algorithms.v
SmallClasses.v
ByteOrder.v
EchoServer.v
ListenSocket.v
AsyncTcpClient.v
Counters.v
AsyncTcpPool.v
Atomics.v
Threads.v
Icmp.v
WordHeap.v
Allocator.v
MallocSingly.v
MallocBoundary.v
MemoryLatency.v
NewHandler.v
AsyncTcpServer.v
IoService.v
Executors.v
SyncServers.v
TcpPeers.v
SocketPrograms.v
EchoPrograms.v
AsyncSocket.v
AsyncEcho.v
SelectEcho.v
NewsFeed.v
VppClient.v
SaiVpp.v
Redis.v
RedisTable.v
StateTables.v
StateTableDemos.v
QueueTables.v
SubscriberTable.v
Double.v
IStream.v
Console.v
Workers.v
Accounts.v
Students.v
Stonewt.v
SpmcQueue.v
Exceptions.v
Asm386.v
Bpf.v
Stl.v
StlDemos.v
StlIterators.v
SmallPrograms.v
Hiredis.v
