(* ===== verification/Prelude.v ===== *)
(** Verification development for the [lolyu/aoi] repository.

    The repository is a collection of programs, most of them in C++, that belong to its
    notes on data planes, the Linux kernel, networking and concurrency. There is no one
    system; the parts below are the programs with state and logic of their own. Each has
    a file here, whose definitions follow the functions of the source one by one and
    keep their names; all paths are under [src/].

    Conventions. A fallible or undefined operation of C++ is [None] (a null or dangling
    pointer, an index outside an array, a failed [assert]); stateful code is written in
    the state monad [ST] of this file or by explicit state passing; machine integers are
    [Z] with [wrap] at their width. A concurrent program is a step relation whose steps
    are the accesses to shared data (or whole critical sections, where the accesses are
    under one lock), and its theorems hold of every state [reachable] from the start by
    rule induction ([invariant_reachable]). Atomics are sequentially consistent. What is
    not in the repository (kernel, network, C library, Boost, VPP, Redis, [sbrk]) is an
    argument of the definitions: an oracle, an environment record, or a class with laws
    that state its documented behaviour.

    ** Kernel data structures
    - [KList]: [books/understanding_linux_networking/kernel_data_structures/list/list.h]
      ([Module ListH]) and [books/understanding_linux_kernel/chapter03_processes/list_head.cpp]
      ([Module ListHeadCpp]). Every operation is correct on a well-formed list and touches
      nothing else (frame); iteration terminates, also when the body deletes.
    - [KListEntry]: the iteration macros of [list.h] over entries, and [ListDemo] its client
      [.../list/list_demo.cpp].
    - [KHlist]: the hash list of [.../hlist/list.h], with [pprev] as an address.
    - [HashTables]: [.../chapter03_processes/hlist_head.cpp] ([PidTable]) and
      [.../hlist/hlist_demo.cpp] ([EHash]), clients of [KHlist].

    ** Queues and rings
    - [Fifo] is the interface [BoundedFifo] and a producer/consumer program proved against
      it; its instances are [ClassQueue] ([cpp/cpp_class/queue.h], [queue.cpp]), [RingSpsc]
      and [RteRing] ([cpp/cpp_coding/ring_buffer]).
    - [RingSpsc] also interleaves producer and consumer access by access: no slot is raced,
      and each access refines at most one step of the abstract queue.
    - [RteRing] has 32-bit wrapping indices; the multi-threaded mode is shown to publish
      slots that are not written.

    ** Monitors
    - [Monitor] is a semantics of mutexes, condition variables and [join] for control-flow
      graphs, with a proof method each for mutual exclusion, invariants by assertions at
      labels, and finite programs by exhaustive computation. Its clients are [Sync],
      [BlockingQueue] (both in [books/ldxcfwqbc/02_thread_synchronization]) and
      [ThreadPool] ([cpp/cpp_coding/thread_pool] and
      [books/ldxcfwqbc/04_cpp_multi_threading_programming/thread_pool.cpp]), and [SpmcQueue],
      the queue of the former that its pool does not use.
    - [Counters] (the lock and counter programs of [books/ldxcfwqbc]), [Atomics] (spin lock
      and lock-free singleton of [books/cpp_concurrency_in_action]) and [Threads]
      ([thread.h], [thread.cpp] of [books/ldxcfwqbc/04...]) are step relations of their own.

    ** Logger ([books/ldxcfwqbc/05_logger/logging])
    - [LogStream] formats into a fixed array: no overrun, and integers read back.
    - [LogFile] rotates files and conserves what is appended; it implements the interface
      [Sink].
    - [AsyncLogging] is the double-buffered back end, proved against [Sink] under every
      interleaving with its clients.

    ** Object lifetimes
    - [StockFactory] and [CopyOnWrite] ([books/ldxcfwqbc/01...], [02...]): reference counts,
      deleters and copies that race with their users.
    - [CppHeap] is the free store of arrays; [CppString] and [SmallClasses]
      ([cpp/cpp_class]) are value types on it, as refinements of a map of values.
    - [DeepCopy] is the interface of classes that own arrays, with its clients;
      [DeepClasses] are five such classes ([strngbad], [strng], [dma], [vegnews],
      [copy_assignment]). [CopySwap] ([cpp/swap.cpp]) is assignment by copy and swap.
    - [ClassTemplates] ([cpp/cpp_class/class_template]): a bounded stack as an interface, the
      array that implements it, and a client that keeps two of them in step.
    - [NewHandler] ([cpp/new_handler.cpp], [cpp/custom_new.cpp]): allocation functions and
      handlers of a class of its own. [MemoryLatency]
      ([books/head_first_DPDK/.../memory_latency.cpp]): the arena of a benchmark.
    - [Exceptions] ([exception], [cpp/cpp_class/cyclic_reference.cpp] and [rtti], under
      [cpp]): stack unwinding, handlers and termination, and shared pointers in a cycle.
    - [Algorithms]: in-place reversal, advancing iterators, an address generator, a class of
      times ([cpp/template], [cpp/demo_codes], [cpp/operator_overloading]).

    ** Allocators ([books/a_heavily_commented_linux_kernel_source_code/chapter05_...])
    - [WordHeap] is the data segment and the first-fit search both programs share;
      [MallocSingly] and [MallocBoundary] are the programs; [Allocator] is the interface
      they implement, with clients that read back what they wrote.

    ** Network programs
    - [EchoServer] ([linux/echo_server] and a client loop), [AsyncEcho] ([books/asio]),
      [SelectEcho] ([sonic/sonic-swss-common/codes]), [AsyncTcpClient] and [AsyncTcpServer]
      ([boost/boost_asio/socket/dummy_application]): event loops whose environment decides
      which operation completes next and how. The theorems are about object lifetimes,
      callbacks that happen once, and what is echoed. [ListenSocket] is how four of the
      servers get their listening socket, and their [main] functions.
    - [AsyncTcpPool] is the client with a pool of threads ([async_tcp_client_threaded.cpp]),
      [SyncServers] the iterative and the threaded synchronous server.
    - [TcpPeers] is a connection with a program at each end, which fragments what is sent;
      [SocketPrograms] and [EchoPrograms] are pairs of programs over it (readers and
      writers, request and response, echo with and without [shutdown]), [AsyncSocket]
      the asynchronous ones.
    - [IoService] is a pool of threads that run the handlers of an [io_service]: what holds
      of every program (no deadlock, a bound of every run, strands one at a time and in
      order); [Executors] are the programs that show [post], [dispatch], strands and
      timers.
    - [ByteOrder]: network byte order, for [ListenSocket] and [VppClient].
    - [Icmp] ([books/asio/examples/icmp]): the header class as bit fields with a round
      trip, the checksum, and the log of [ping].

    ** VPP
    - [SaiVpp] ([VPP/sai_vpp.cpp]): one definition per C function and per table; every slot
      that follows the naming convention makes exactly the request its name announces.
    - [VppClient] ([VPP/examples]): the binary API clients in network byte order; the
      exact requests of the tunnel program on every path, and the equivalence of the two
      programs that list interfaces.

    ** Tables of SONiC ([sonic/sonic-swss-common])
    - [Redis] is the interface of a Redis server, with a server that meets it, and the
      control flow of scripts; [RedisTable] the names of a table and how a script is shown to run.
    - [StateTables]: the quoted scripts of [ProducerStateTable] and [ConsumerStateTable],
      as a refinement of a list of changes that are applied one after the other;
      [StateTableDemos] the demo programs and the traces in the notes.
    - [QueueTables]: [ProducerTable], [ConsumerTable] and the notification channel, which
      keep every message and its order. [SubscriberTable]: keyspace events behind [Select].

    ** Classes with arithmetic and formatted input ([cpp/cpp_class])
    - [Double] is binary64 on the executable [SpecFloat], with the exactness of whole
      numbers; [IStream] is [std::cin] with its state bits, and the loops that skip a line;
      [Console] is a program that uses both [cin] and [cout].
    - [Accounts] ([class_inheritance/brass.cpp], [acctabc.cpp], [usebrass.cpp]): balances
      that are exact for whole amounts and stay solvent, overdrafts, and two hierarchies
      that agree. [Workers] ([virtual_base]): a virtual base, and a menu whose
      answer is read as a character. [Students] ([student.cpp]): two representations of one
      class and the program that reads them. [Stonewt] ([stonewt.cpp], [stone.cpp]): conversions that
      can be out of range.

    ** The standard library in use ([cpp/stl])
    - [Stl]: linked lists, sorted ranges, multimaps and permutations over any total order;
      [StlDemos] the programs that use them: set algorithms compute sets, multimaps keep the
      order of insertions, [next_permutation] runs through all permutations once.
    - [StlIterators]: vectors, insert iterators, streams of numbers and lines, [valarray].
    - [SmallPrograms] ([crtp_counter.cpp], [unique.cpp], [tabtenn0.cpp], [signal_slot.cpp]) and
      [Hiredis] (the programs of [redis/hiredis] and [inserters.cpp]).

    ** Machine code
    - [Asm386]: a subset of the 80386; the inline [strncmp] of
      [books/a_heavily_commented.../chapter03.../strncpy.c] is the comparison of C, and [callee.s] with
      [caller.c] adds and reports overflow.
    - [Bpf] ([linux/bpf.cpp]): classic BPF and the filter, which is shown to accept exactly
      the unfragmented ICMP echo replies from the address 0.0.0.0.

    ** Others
    - [NewsFeed] ([books/system_design_interview/.../tweeter.cpp]): the k-way merge gives
      the ten newest visible posts, as a refinement of a list of all posts.

    ** Bounds and fuel
    Loops over linked structures take fuel, and the theorems ask for more of it than the
    structure has entries, which a well-formed structure always allows; where the program
    knows a bound the definition computes it: the number of items plus one in
    [ClassQueue], one step per word of the heap in [WordHeap.search_fuel], the 20 decimal
    or 16 hexadecimal digits of a 64-bit integer in [LogStream], the [NewsFeedMaxSize] places in [NewsFeed.fill], the ten
    sleeps that use up the second of [VppClient.W]. A theorem about such a loop states its
    result, not only what holds if it returns. [Monitor.verified] checks by
    computation that a set of states has the start and is closed under steps, so that the
    bound with which the set was found does not matter.

    ** Not modelled
    - Programs that show one rule of the language each (templates, overloads, casts,
      layout, initialisation, virtual dispatch): they have no state to be
      invariant, and part of what they print depends on the implementation.
    - Templates that no program instantiates or that do not compile
      ([BoundedBlockingQueue], [pairtp.h]).
    - Clients that print what the SONiC library gives, name resolution and signal handling
      of Boost: what happens is the library's.
    - How [cout] writes out a floating-point number.
    - Benchmarks that only measure time, sockets of packet capture, kernel probes, fonts, build and
      test demos, and the Python, Rust, Go and shell parts of the repository.
    - Within modelled programs: printing (unless it is what the program is for), sleeping,
      thread names after a fork, connecting and resolving. *)

From stdpp Require Export base tactics list gmap strings fin_maps relations.
From Stdlib Require Export ZArith Lia.

#[export] Set Default Goal Selector "!".

(** * Machine integers

    A [w]-bit integer is a [Z] in range; every C++ arithmetic expression is
    written with its wrap-around. *)

Definition wrap (w : Z) (z : Z) : Z := (z mod 2 ^ w)%Z.

(** Two's complement reading of the low [w] bits. *)
Definition swrap (w : Z) (z : Z) : Z :=
  let u := wrap w z in if (u <? 2 ^ (w - 1))%Z then u else (u - 2 ^ w)%Z.

Definition u8 : Z → Z := wrap 8.
Definition u16 : Z → Z := wrap 16.
Definition u32 : Z → Z := wrap 32.
Definition u64 : Z → Z := wrap 64.
Definition i32 : Z → Z := swrap 32.

Definition in_unsigned (w z : Z) : Prop := (0 ≤ z < 2 ^ w)%Z.
Definition in_signed (w z : Z) : Prop := (- 2 ^ (w - 1) ≤ z < 2 ^ (w - 1))%Z.

Lemma wrap_range w z : (0 ≤ w)%Z → in_unsigned w (wrap w z).
Proof. intros Hw. apply Z.mod_pos_bound, Z.pow_pos_nonneg; lia. Qed.

Lemma wrap_id w z : in_unsigned w z → wrap w z = z.
Proof. apply Z.mod_small. Qed.

Lemma wrap_idemp w z : (0 ≤ w)%Z → wrap w (wrap w z) = wrap w z.
Proof. intros Hw. by apply wrap_id, wrap_range. Qed.

Lemma wrap_add_l w a b : (0 ≤ w)%Z → wrap w (wrap w a + b) = wrap w (a + b).
Proof. intros Hw. unfold wrap. by rewrite Z.add_mod_idemp_l by lia. Qed.

Lemma wrap_add_r w a b : (0 ≤ w)%Z → wrap w (a + wrap w b) = wrap w (a + b).
Proof. intros Hw. unfold wrap. by rewrite Z.add_mod_idemp_r by lia. Qed.

(** * A state monad with failure

    [ST S A] threads a state of type [S]; [None] is undefined behaviour or a
    failed assertion of the C++ program. *)

Definition ST (S A : Type) : Type := S → option (A * S).

#[export] Instance st_ret S : MRet (ST S) := λ A a s, Some (a, s).
#[export] Instance st_bind S : MBind (ST S) := λ A B f m s,
  match m s with Some (a, s') => f a s' | None => None end.

Definition st_get {S} : ST S S := λ s, Some (s, s).
Definition st_put {S} (s : S) : ST S unit := λ _, Some (tt, s).
Definition st_modify {S} (f : S → S) : ST S unit := λ s, Some (tt, f s).
Definition st_fail {S A} : ST S A := λ _, None.
Definition st_lift {S A} (o : option A) : ST S A :=
  λ s, match o with Some a => Some (a, s) | None => None end.
Definition st_assert {S} (b : bool) : ST S unit :=
  λ s, if b then Some (tt, s) else None.

(** The state an operation leaves, when it does not fail. *)
Definition st_exec {S A} (m : ST S A) (s : S) : option S := snd <$> m s.

Lemma st_bind_Some {S A B} (m : ST S A) (f : A → ST S B) s r :
  (m ≫= f) s = Some r ↔ ∃ a s', m s = Some (a, s') ∧ f a s' = Some r.
Proof.
  unfold mbind, st_bind. destruct (m s) as [[a s']|]; split; intros H.
  - by exists a, s'.
  - by destruct H as (? & ? & [= <- <-] & ?).
  - done.
  - by destruct H as (? & ? & ? & ?).
Qed.

Lemma st_bind_eq {S A B} (m : ST S A) (f : A → ST S B) s a s' :
  m s = Some (a, s') → (m ≫= f) s = f a s'.
Proof. intros H. unfold mbind, st_bind. by rewrite H. Qed.

Lemma st_exec_Some {S} (m : ST S unit) s s' :
  m s = Some (tt, s') ↔ st_exec m s = Some s'.
Proof.
  unfold st_exec. destruct (m s) as [[[] ?]|]; simpl; naive_solver.
Qed.

(** * Step relations and invariants *)

Section reachability.
Context {St : Type} (init : St → Prop) (step : St → St → Prop).

Definition reachable (s : St) : Prop := ∃ s0, init s0 ∧ rtc step s0 s.

(** Rule induction, packaged: an inductive invariant holds of every
    reachable state. *)
Lemma invariant_reachable (I : St → Prop) :
  (∀ s, init s → I s) →
  (∀ s s', I s → step s s' → I s') →
  ∀ s, reachable s → I s.
Proof.
  intros Hi Hs s (s0 & H0 & Hrtc). apply Hi in H0.
  induction Hrtc as [|x y z Hxy _ IH]; eauto.
Qed.

Lemma reachable_step s s' : reachable s → step s s' → reachable s'.
Proof. intros (s0 & H0 & ?) ?. exists s0. split; [done|]. by eapply rtc_r. Qed.

Lemma reachable_init s : init s → reachable s.
Proof. intros. exists s. split; [done|]. apply rtc_refl. Qed.
End reachability.

(** A simulation: every step of the detailed relation is matched by at most
    one step of the abstract one. *)
Lemma simulation_rtc {C A : Type} (cstep : C → C → Prop) (astep : A → A → Prop)
    (R : C → A → Prop) :
  (∀ c c' a, R c a → cstep c c' → ∃ a', rtc astep a a' ∧ R c' a') →
  ∀ c c' a, R c a → rtc cstep c c' → ∃ a', rtc astep a a' ∧ R c' a'.
Proof.
  intros Hsim c c' a HR Hrtc. revert a HR.
  induction Hrtc as [|x y z Hxy _ IH]; intros a HR.
  - exists a. split; [apply rtc_refl|done].
  - destruct (Hsim _ _ _ HR Hxy) as (a1 & Ha1 & HR1).
    destruct (IH _ HR1) as (a2 & Ha2 & HR2).
    exists a2. split; [by etrans|done].
Qed.

(** * Tactics *)

(** Break a run of the state monad into its steps. *)
Ltac st_inv :=
  repeat match goal with
  | H : (_ ≫= _) _ = Some _ |- _ =>
      let a := fresh "r" in let s := fresh "s" in let H1 := fresh "Hrun" in
      apply st_bind_Some in H as (a & s & H1 & H)
  | H : mret _ _ = Some _ |- _ => unfold mret, st_ret in H; simplify_eq
  end.

Ltac split_all := repeat match goal with |- _ ∧ _ => split end.

(** Closed decidable facts, by evaluation. *)
Ltac by_computation := apply (bool_decide_unpack _); vm_compute; exact I.

Lemma if_same {A} (b : bool) (x : A) : (if b then x else x) = x.
Proof. by destruct b. Qed.

(** * Lists *)

Section lists.
Context {A : Type}.
Implicit Types (l : list A) (x : A).

Lemma take_snoc_lookup l n x :
  l !! n = Some x → take (S n) l = take n l ++ [x].
Proof. apply take_S_r. Qed.

Lemma NoDup_snoc l x : NoDup (l ++ [x]) ↔ x ∉ l ∧ NoDup l.
Proof.
  rewrite NoDup_app. split.
  - intros (? & Hd & ?). split; [|done]. intros Hx. apply (Hd x Hx). set_solver.
  - intros [? ?]. split_all; [done| |apply NoDup_singleton]. set_solver.
Qed.

Lemma forallb_false (f : A → bool) l : forallb f l = false → ∃ x, x ∈ l ∧ f x = false.
Proof.
  induction l as [|x l IH]; simpl; [done|]. intros [Hx|Hl]%andb_false_iff; [by exists x; split; [left|]|].
  destruct (IH Hl) as (y & ? & ?). exists y. by split; [right|].
Qed.

Lemma last_snoc_dec l : l = [] ∨ ∃ l' x, l = l' ++ [x].
Proof. destruct l as [|x l' _] using rev_ind; [by left|right; eauto]. Qed.
End lists.

(** * Output of a run: the lines a program prints *)
Definition output : Type := list string.

Create HintDb aoi.
#[export] Hint Resolve wrap_range reachable_init rtc_refl : aoi.
#[export] Hint Rewrite @length_app @length_take @length_drop : aoi.
