(* ===== verification/KList.v ===== *)
(** The intrusive circular doubly linked list of the Linux kernel.

    [Module ListH] models
    [src/books/understanding_linux_networking/kernel_data_structures/list/list.h]
    (the copy next to the hash-list demo differs only in a [prefetch] macro) and
    [Module ListHeadCpp] the variant of
    [src/books/understanding_linux_kernel/chapter03_processes/list_head.cpp].
    Nodes live in a store indexed by address; dereferencing an address that is
    not in the store fails.  [is_list st h xs] says that the list headed by [h]
    holds exactly the entries [xs], in order. *)

From S2P Require Import Prelude.

Local Open Scope Z_scope.

(** * The store *)

(** [struct list_head { struct list_head *next, *prev; }] *)
Record list_head := mk_list_head { next : Z; prev : Z }.

#[export] Instance list_head_eq_dec : EqDecision list_head.
Proof. solve_decision. Defined.

Abbreviation store := (gmap Z list_head).

Definition load (p : Z) : ST store list_head := λ st,
  match st !! p with Some n => Some (n, st) | None => None end.
Definition get_next (p : Z) : ST store Z := n ← load p; mret (next n).
Definition get_prev (p : Z) : ST store Z := n ← load p; mret (prev n).
Definition set_next (p v : Z) : ST store unit :=
  n ← load p; st_modify <[p := mk_list_head v (prev n)]>.
Definition set_prev (p v : Z) : ST store unit :=
  n ← load p; st_modify <[p := mk_list_head (next n) v]>.

(** * list.h *)

Module ListH.

Definition LIST_POISON1 : Z := 0x00100100.
Definition LIST_POISON2 : Z := 0x00200200.

Definition INIT_LIST_HEAD (ptr : Z) : ST store unit :=
  set_next ptr ptr ;; set_prev ptr ptr.

Definition __list_add (ptr prev next : Z) : ST store unit :=
  set_prev next ptr ;;
  set_next ptr next ;;
  set_prev ptr prev ;;
  set_next prev ptr.

Definition list_add (ptr head : Z) : ST store unit :=
  n ← get_next head; __list_add ptr head n.

Definition list_add_tail (ptr head : Z) : ST store unit :=
  p ← get_prev head; __list_add ptr p head.

Definition __list_del (prev next : Z) : ST store unit :=
  set_prev next prev ;; set_next prev next.

Definition list_del (entry : Z) : ST store unit :=
  p ← get_prev entry; n ← get_next entry;
  __list_del p n ;;
  set_next entry LIST_POISON1 ;;
  set_prev entry LIST_POISON2.

Definition list_del_init (entry : Z) : ST store unit :=
  p ← get_prev entry; n ← get_next entry;
  __list_del p n ;;
  INIT_LIST_HEAD entry.

Definition list_move (list head : Z) : ST store unit :=
  p ← get_prev list; n ← get_next list;
  __list_del p n ;;
  list_add list head.

Definition list_move_tail (list head : Z) : ST store unit :=
  p ← get_prev list; n ← get_next list;
  __list_del p n ;;
  list_add_tail list head.

Definition list_empty (head : Z) : ST store bool :=
  n ← get_next head; mret (n =? head).

Definition __list_splice (list head : Z) : ST store unit :=
  first ← get_next list; last ← get_prev list; at_ ← get_next head;
  set_prev first head ;;
  set_next head first ;;
  set_next last at_ ;;
  set_prev at_ last.

Definition list_splice (list head : Z) : ST store unit :=
  e ← list_empty list;
  if e : bool then mret tt else __list_splice list head.

Definition list_splice_init (list head : Z) : ST store unit :=
  e ← list_empty list;
  if e : bool then mret tt
  else __list_splice list head ;; INIT_LIST_HEAD list.

(** [list_for_each (pos, head) body]: the body runs before [pos->next] is
    read.  The loop is bounded by [fuel]; the result is the list of nodes
    visited. *)
Fixpoint for_each_from (fuel : nat) (head : Z) (body : Z → ST store unit)
    (pos : Z) : ST store (list Z) :=
  match fuel with
  | O => st_fail
  | S f =>
      if pos =? head then mret []
      else body pos ;;
           n ← get_next pos;
           rest ← for_each_from f head body n;
           mret (pos :: rest)
  end.

Definition list_for_each (fuel : nat) (head : Z) (body : Z → ST store unit)
    : ST store (list Z) :=
  pos ← get_next head; for_each_from fuel head body pos.

(** [list_for_each_safe (pos, n, head) body]: [n] is read before the body
    runs, so the body may unlink [pos]. *)
Fixpoint for_each_safe_from (fuel : nat) (head : Z)
    (body : Z → ST store unit) (pos n : Z) : ST store (list Z) :=
  match fuel with
  | O => st_fail
  | S f =>
      if pos =? head then mret []
      else body pos ;;
           n' ← get_next n;
           rest ← for_each_safe_from f head body n n';
           mret (pos :: rest)
  end.

Definition list_for_each_safe (fuel : nat) (head : Z)
    (body : Z → ST store unit) : ST store (list Z) :=
  pos ← get_next head; n ← get_next pos;
  for_each_safe_from fuel head body pos n.
End ListH.

(** * list_head.cpp *)

Module ListHeadCpp.
Definition __list_add (_new _prev _next : Z) : ST store unit :=
  set_next _prev _new ;;
  set_prev _new _prev ;;
  set_next _new _next ;;
  set_prev _next _new.

Definition list_add (_new _head : Z) : ST store unit :=
  n ← get_next _head; __list_add _new _head n.

Definition list_add_tail (_new _head : Z) : ST store unit :=
  p ← get_prev _head; __list_add _new p _head.

Definition __list_del (_prev _next : Z) : ST store unit :=
  set_next _prev _next ;; set_prev _next _prev.

Definition list_del (_entry : Z) : ST store unit :=
  p ← get_prev _entry; n ← get_next _entry; __list_del p n.

Definition list_empty (_head : Z) : ST store bool :=
  n ← get_next _head; mret (n =? _head).

Definition list_is_head (_list _head : Z) : bool := _list =? _head.

Fixpoint for_each_from (fuel : nat) (head pos : Z) : ST store (list Z) :=
  match fuel with
  | O => st_fail
  | S f =>
      if list_is_head pos head then mret []
      else n ← get_next pos;
           rest ← for_each_from f head n;
           mret (pos :: rest)
  end.

Definition list_for_each (fuel : nat) (head : Z) : ST store (list Z) :=
  pos ← get_next head; for_each_from fuel head pos.
End ListHeadCpp.

(** * The representation invariant *)

Notation nxt st p := (next <$> (st : store) !! p).
Notation prv st p := (prev <$> (st : store) !! p).

(** From [a], the [next] pointers go through [xs] to [b], and the [prev]
    pointers go back. *)
Fixpoint seg (st : store) (a : Z) (xs : list Z) (b : Z) : Prop :=
  match xs with
  | [] => nxt st a = Some b ∧ prv st b = Some a
  | x :: xs => nxt st a = Some x ∧ prv st x = Some a ∧ seg st x xs b
  end.

Definition is_list (st : store) (h : Z) (xs : list Z) : Prop :=
  NoDup (h :: xs) ∧ seg st h xs h.

(** The last node of the segment [a], [xs]. *)
Fixpoint lastn (a : Z) (xs : list Z) : Z :=
  match xs with [] => a | x :: xs => lastn x xs end.

Lemma lastn_app a xs x ys : lastn a (xs ++ x :: ys) = lastn x ys.
Proof. revert a; induction xs; simpl; auto. Qed.

Lemma lastn_elem a xs : lastn a xs ∈ a :: xs.
Proof. revert a; induction xs as [|x xs IH]; intros a; simpl; set_solver. Qed.

Lemma hd_elem (b : Z) xs : hd b xs ∈ b :: xs.
Proof. destruct xs; set_solver. Qed.

Lemma seg_app st a xs y ys b :
  seg st a (xs ++ y :: ys) b ↔ seg st a xs y ∧ seg st y ys b.
Proof. revert a; induction xs; intros a'; simpl; naive_solver. Qed.

Lemma seg_frame st st' a xs b :
  (∀ z, z ∈ a :: xs → nxt st' z = nxt st z) →
  (∀ z, z ∈ b :: xs → prv st' z = prv st z) →
  seg st a xs b → seg st' a xs b.
Proof.
  revert a; induction xs as [|x xs IH]; intros a Hn Hp; simpl.
  - intros [? ?]. by rewrite Hn, Hp by set_solver.
  - intros (? & ? & ?). rewrite Hn, Hp by set_solver. split_all; [done..|].
    apply IH; [| |done]; intros; [apply Hn|apply Hp]; set_solver.
Qed.

Lemma seg_first st a xs b : seg st a xs b → nxt st a = Some (hd b xs).
Proof. destruct xs; simpl; naive_solver. Qed.

Lemma seg_last st a xs b : seg st a xs b → prv st b = Some (lastn a xs).
Proof. revert a; induction xs; simpl; naive_solver. Qed.

(** Cutting a segment at any point. *)
Lemma seg_cut st a xs ys b :
  seg st a (xs ++ ys) b ↔ seg st a xs (hd b ys) ∧ seg st (lastn a xs) ys b.
Proof.
  revert a; induction xs as [|x xs IH]; intros a; simpl.
  - destruct ys; simpl; naive_solver.
  - rewrite IH. naive_solver.
Qed.

(** Entering the nodes [xs] from another node. *)
Lemma seg_resource st st' a a' xs b :
  NoDup xs → b ∉ xs →
  nxt st' a' = Some (hd b xs) → prv st' (hd b xs) = Some a' →
  (∀ z, z ∈ xs → nxt st' z = nxt st z) →
  (∀ z, z ∈ b :: xs → z ≠ hd b xs → prv st' z = prv st z) →
  seg st a xs b → seg st' a' xs b.
Proof.
  intros Hnd Hb Hn' Hp' Hn Hp. destruct xs as [|x xs]; simpl in *; [done|].
  intros (_ & _ & Hs). split_all; [done..|].
  apply NoDup_cons in Hnd as [Hx Hnd].
  eapply seg_frame; [| |done]; intros z Hz; [by apply Hn|].
  apply Hp; set_solver.
Qed.

(** Leaving the nodes [a :: xs] to another node. *)
Lemma seg_retarget st st' a xs b b' :
  NoDup (a :: xs) →
  nxt st' (lastn a xs) = Some b' → prv st' b' = Some (lastn a xs) →
  (∀ z, z ∈ a :: xs → z ≠ lastn a xs → nxt st' z = nxt st z) →
  (∀ z, z ∈ xs → prv st' z = prv st z) →
  seg st a xs b → seg st' a xs b'.
Proof.
  revert a; induction xs as [|x xs IH]; intros a Hnd Hn' Hp' Hn Hp; simpl in *;
    [done|].
  intros (Ha & Hx & Hs). apply NoDup_cons in Hnd as [Hax Hnd].
  pose proof (lastn_elem x xs).
  rewrite Hn, Hp by set_solver. split_all; [done..|].
  apply IH; auto; intros; [apply Hn|apply Hp]; set_solver.
Qed.

Lemma seg_next_in st a xs b z : seg st a xs b → z ∈ a :: xs → is_Some (st !! z).
Proof.
  revert a; induction xs as [|x xs IH]; simpl; intros a Hs Hz.
  - assert (z = a) as -> by set_solver. destruct Hs as [Hs _].
    destruct (st !! a); [eauto|done].
  - destruct Hs as (Ha & _ & Hs). apply elem_of_cons in Hz as [->|Hz].
    + destruct (st !! a); [eauto|done].
    + by eapply IH.
Qed.

Lemma is_list_in st h xs z : is_list st h xs → z ∈ h :: xs → is_Some (st !! z).
Proof. intros [_ ?]. by eapply seg_next_in. Qed.

(** ** Stepping the field accessors *)

Lemma get_next_eq st p v : nxt st p = Some v → get_next p st = Some (v, st).
Proof.
  intros (n & Hn & ->)%fmap_Some. unfold get_next, load, mbind, st_bind.
  by rewrite Hn.
Qed.

Lemma get_prev_eq st p v : prv st p = Some v → get_prev p st = Some (v, st).
Proof.
  intros (n & Hn & ->)%fmap_Some. unfold get_prev, load, mbind, st_bind.
  by rewrite Hn.
Qed.

Definition upd_next (st : store) (p v : Z) : store :=
  alter (λ n, mk_list_head v (prev n)) p st.
Definition upd_prev (st : store) (p v : Z) : store :=
  alter (λ n, mk_list_head (next n) v) p st.

Lemma set_next_eq st p v :
  is_Some (st !! p) → set_next p v st = Some (tt, upd_next st p v).
Proof.
  intros [n Hn]. unfold set_next, load, mbind, st_bind, st_modify, upd_next.
  rewrite Hn. do 2 f_equal. apply map_eq; intros i.
  destruct (decide (i = p)) as [->|].
  - by rewrite lookup_insert_eq, lookup_alter_eq, Hn.
  - by rewrite lookup_insert_ne, lookup_alter_ne.
Qed.

Lemma set_prev_eq st p v :
  is_Some (st !! p) → set_prev p v st = Some (tt, upd_prev st p v).
Proof.
  intros [n Hn]. unfold set_prev, load, mbind, st_bind, st_modify, upd_prev.
  rewrite Hn. do 2 f_equal. apply map_eq; intros i.
  destruct (decide (i = p)) as [->|].
  - by rewrite lookup_insert_eq, lookup_alter_eq, Hn.
  - by rewrite lookup_insert_ne, lookup_alter_ne.
Qed.

Lemma upd_next_nxt st p v z :
  is_Some (st !! p) →
  nxt (upd_next st p v) z = if decide (z = p) then Some v else nxt st z.
Proof.
  intros [n Hn]. unfold upd_next. case_decide; subst.
  - by rewrite lookup_alter_eq, Hn.
  - by rewrite lookup_alter_ne.
Qed.
Lemma upd_next_prv st p v z : prv (upd_next st p v) z = prv st z.
Proof.
  unfold upd_next. rewrite lookup_alter. case_decide; [subst|done].
  by destruct (st !! z).
Qed.
Lemma upd_prev_prv st p v z :
  is_Some (st !! p) →
  prv (upd_prev st p v) z = if decide (z = p) then Some v else prv st z.
Proof.
  intros [n Hn]. unfold upd_prev. case_decide; subst.
  - by rewrite lookup_alter_eq, Hn.
  - by rewrite lookup_alter_ne.
Qed.
Lemma upd_prev_nxt st p v z : nxt (upd_prev st p v) z = nxt st z.
Proof.
  unfold upd_prev. rewrite lookup_alter. case_decide; [subst|done].
  by destruct (st !! z).
Qed.
Lemma upd_next_dom st p v z : is_Some (upd_next st p v !! z) ↔ is_Some (st !! z).
Proof.
  unfold upd_next. rewrite lookup_alter. case_decide; [subst|done].
  by rewrite fmap_is_Some.
Qed.
Lemma upd_prev_dom st p v z : is_Some (upd_prev st p v !! z) ↔ is_Some (st !! z).
Proof.
  unfold upd_prev. rewrite lookup_alter. case_decide; [subst|done].
  by rewrite fmap_is_Some.
Qed.

(** [links st st' N P]: the same nodes are allocated, and the fields of [st']
    are given by [N] and [P]. *)
Definition links (st st' : store) (N P : Z → option Z) : Prop :=
  (∀ z, is_Some (st' !! z) ↔ is_Some (st !! z)) ∧
  (∀ z, nxt st' z = N z) ∧ (∀ z, prv st' z = P z).

Lemma node_ext (st st' : store) z :
  nxt st' z = nxt st z → prv st' z = prv st z → st' !! z = st !! z.
Proof.
  destruct (st !! z) as [[]|], (st' !! z) as [[]|]; simpl; naive_solver.
Qed.

Lemma is_list_frame st st' h xs :
  (∀ z, z ∈ h :: xs → st' !! z = st !! z) → is_list st h xs → is_list st' h xs.
Proof.
  intros Hf [Hnd Hs]. split; [done|].
  eapply seg_frame; [| |done]; intros z Hz; by rewrite Hf.
Qed.

Ltac solve_dom :=
  repeat first [rewrite upd_next_dom | rewrite upd_prev_dom]; done.
Ltac run_sets :=
  repeat first
    [ erewrite st_bind_eq
        by first [apply set_next_eq; solve_dom | apply set_prev_eq; solve_dom]
    | rewrite set_next_eq by solve_dom | rewrite set_prev_eq by solve_dom ].
Ltac read_fields :=
  repeat first
    [ rewrite upd_next_prv | rewrite upd_prev_nxt
    | rewrite upd_next_nxt by solve_dom | rewrite upd_prev_prv by solve_dom ].

Lemma list_add_run st e p n :
  is_Some (st !! e) → is_Some (st !! p) → is_Some (st !! n) →
  ∃ st', ListH.__list_add e p n st = Some (tt, st') ∧
    links st st'
      (λ z, if decide (z = p) then Some e
            else if decide (z = e) then Some n else nxt st z)
      (λ z, if decide (z = e) then Some p
            else if decide (z = n) then Some e else prv st z).
Proof.
  intros He Hp Hn. unfold ListH.__list_add. run_sets.
  eexists. split; [done|]. unfold links. split_all; intros z.
  - solve_dom.
  - by read_fields.
  - by read_fields.
Qed.

Lemma list_del_run st p n :
  is_Some (st !! p) → is_Some (st !! n) →
  ∃ st', ListH.__list_del p n st = Some (tt, st') ∧
    links st st'
      (λ z, if decide (z = p) then Some n else nxt st z)
      (λ z, if decide (z = n) then Some p else prv st z).
Proof.
  intros Hp Hn. unfold ListH.__list_del. run_sets.
  eexists. split; [done|]. unfold links. split_all; intros z.
  - solve_dom.
  - by read_fields.
  - by read_fields.
Qed.

(** ** Inserting and unlinking in the representation *)

(** What [NoDup] gives about the neighbours of a cut. *)
Lemma cut_apart (h : Z) xs ys :
  NoDup (h :: xs ++ ys) →
  NoDup (h :: xs) ∧ NoDup xs ∧ NoDup ys ∧ h ∉ xs ∧ h ∉ ys ∧
  (∀ z, z ∈ xs → z ≠ hd h ys) ∧ (∀ z, z ∈ ys → z ≠ lastn h xs).
Proof.
  intros Hnd. pose proof Hnd as [Hh (Nx & Dx & Ny)%NoDup_app]%NoDup_cons.
  rewrite elem_of_app in Hh.
  pose proof (lastn_elem h xs) as Hl. pose proof (hd_elem h ys) as Hd.
  split_all; auto.
  - apply NoDup_cons. auto.
  - intros z Hz ->. apply elem_of_cons in Hd as [E|?]; [rewrite E in Hz; tauto|].
    by apply (Dx _ Hz).
  - intros z Hz ->. apply elem_of_cons in Hl as [E|?]; [rewrite E in Hz; tauto|].
    by apply (Dx (lastn h xs)).
Qed.

Lemma NoDup_insert (h : Z) xs ys e :
  NoDup (h :: xs ++ e :: ys) ↔ e ∉ h :: xs ++ ys ∧ NoDup (h :: xs ++ ys).
Proof.
  rewrite <- NoDup_cons.
  assert (h :: xs ++ e :: ys ≡ₚ e :: h :: xs ++ ys) as -> by solve_Permutation.
  done.
Qed.

Ltac dec :=
  repeat case_decide; try done; try congruence; subst; exfalso;
  first [congruence | solve [eauto] | set_solver].

Section surgery.
Context (st st' : store) (h : Z) (xs ys : list Z) (e : Z).

(** [e] between [xs] and [ys]. *)
Lemma is_list_insert :
  is_list st h (xs ++ ys) → e ∉ h :: xs ++ ys →
  (∀ z, z ∈ h :: xs ++ e :: ys →
     nxt st' z = if decide (z = lastn h xs) then Some e
                 else if decide (z = e) then Some (hd h ys) else nxt st z) →
  (∀ z, z ∈ h :: xs ++ e :: ys →
     prv st' z = if decide (z = e) then Some (lastn h xs)
                 else if decide (z = hd h ys) then Some e else prv st z) →
  is_list st' h (xs ++ e :: ys).
Proof.
  intros [Hnd Hs] He EN EP.
  pose proof (lastn_elem h xs) as Hl. pose proof (hd_elem h ys) as Hd.
  apply seg_cut in Hs as [Hx Hy].
  pose proof (cut_apart _ _ _ Hnd) as (Nhx & Nx & Ny & Hhx & Hhy & Ax & Ay).
  assert (∀ z, z ∈ h :: xs → z ≠ e) as Ex by set_solver.
  assert (∀ z, z ∈ h :: ys → z ≠ e) as Ey by set_solver.
  pose proof (Ex _ Hl). pose proof (Ey _ Hd).
  split; [by apply NoDup_insert|].
  apply seg_app. split.
  - eapply (seg_retarget st); [done| | | | |exact Hx].
    + rewrite EN by set_solver. dec.
    + rewrite EP by set_solver. dec.
    + intros z Hz Hzl. rewrite EN by set_solver. dec.
    + intros z Hz. assert (z ∈ h :: xs) by set_solver.
      rewrite EP by set_solver. dec.
  - eapply (seg_resource st); [done|done| | | | |exact Hy].
    + rewrite EN by set_solver. dec.
    + rewrite EP by set_solver. dec.
    + intros z Hz. assert (z ∈ h :: ys) by set_solver.
      rewrite EN by set_solver. dec.
    + intros z Hz Hzl. rewrite EP by set_solver. dec.
Qed.

(** [e] out of [xs ++ e :: ys]. *)
Lemma is_list_unlink :
  is_list st h (xs ++ e :: ys) →
  (∀ z, z ∈ h :: xs ++ ys →
    nxt st' z = if decide (z = lastn h xs) then Some (hd h ys) else nxt st z) →
  (∀ z, z ∈ h :: xs ++ ys →
    prv st' z = if decide (z = hd h ys) then Some (lastn h xs) else prv st z) →
  is_list st' h (xs ++ ys).
Proof.
  intros [[He Hnd]%NoDup_insert Hs] EN EP.
  pose proof (lastn_elem h xs) as Hl. pose proof (hd_elem h ys) as Hd.
  apply seg_app in Hs as [Hx Hy].
  pose proof (cut_apart _ _ _ Hnd) as (Nhx & Nx & Ny & Hhx & Hhy & Ax & Ay).
  split; [done|].
  assert (nxt st' (lastn h xs) = Some (hd h ys)) as E1.
  { rewrite EN by set_solver. dec. }
  assert (prv st' (hd h ys) = Some (lastn h xs)) as E2.
  { rewrite EP by set_solver. dec. }
  apply seg_cut. split.
  - eapply (seg_retarget st); [done|exact E1|exact E2| | |exact Hx].
    + intros z Hz Hzl. rewrite EN by set_solver. dec.
    + intros z Hz. rewrite EP by set_solver. dec.
  - eapply (seg_resource st); [done|done|exact E1|exact E2| | |exact Hy].
    + intros z Hz. rewrite EN by set_solver. dec.
    + intros z Hz Hzl. rewrite EP by set_solver. dec.
Qed.
End surgery.

(** ** The operations on the representation *)

(** Nothing outside [zs] changes. *)
Definition unchanged_but (zs : list Z) (st st' : store) : Prop :=
  ∀ z, z ∉ zs → st' !! z = st !! z.

Lemma is_list_unchanged st st' zs h xs :
  unchanged_but zs st st' → (∀ z, z ∈ h :: xs → z ∉ zs) →
  is_list st h xs → is_list st' h xs.
Proof. intros Hu Hd. apply is_list_frame. intros z Hz. by apply Hu, Hd. Qed.

Lemma is_list_first st h xs : is_list st h xs → nxt st h = Some (hd h xs).
Proof. intros [_ Hs]. by eapply seg_first. Qed.
Lemma is_list_last st h xs : is_list st h xs → prv st h = Some (lastn h xs).
Proof. intros [_ Hs]. by eapply seg_last. Qed.
Lemma is_list_next st h xs e ys :
  is_list st h (xs ++ e :: ys) → nxt st e = Some (hd h ys).
Proof. intros [_ [_ Hs]%seg_app]. by eapply seg_first. Qed.
Lemma is_list_prev st h xs e ys :
  is_list st h (xs ++ e :: ys) → prv st e = Some (lastn h xs).
Proof. intros [_ [Hs _]%seg_app]. by eapply seg_last. Qed.

Lemma links_unchanged st st' N P zs :
  links st st' N P →
  (∀ z, z ∉ zs → N z = nxt st z) → (∀ z, z ∉ zs → P z = prv st z) →
  unchanged_but zs st st'.
Proof.
  intros (_ & HN & HP) HN' HP' z Hz. apply node_ext.
  - by rewrite HN, HN'.
  - by rewrite HP, HP'.
Qed.

(** The generic insertion: [__list_add] between two adjacent nodes. *)
Lemma __list_add_is_list st h xs ys e :
  is_list st h (xs ++ ys) → is_Some (st !! e) → e ∉ h :: xs ++ ys →
  ∃ st', ListH.__list_add e (lastn h xs) (hd h ys) st = Some (tt, st') ∧
    is_list st' h (xs ++ e :: ys) ∧ unchanged_but (e :: h :: xs ++ ys) st st'.
Proof.
  intros Hl Ha He.
  assert (lastn h xs ∈ h :: xs ++ ys) by (pose proof (lastn_elem h xs); set_solver).
  assert (hd h ys ∈ h :: xs ++ ys) by (pose proof (hd_elem h ys); set_solver).
  destruct (list_add_run st e (lastn h xs) (hd h ys)) as (st' & Hr & HL);
    [done|by eapply is_list_in|by eapply is_list_in|].
  exists st'. split; [done|]. split.
  - eapply is_list_insert; [done|done| |]; intros z _; apply HL.
  - eapply links_unchanged; [done| |]; intros z Hz; simpl.
    + rewrite !decide_False; [done| |]; set_solver.
    + rewrite !decide_False; [done| |]; set_solver.
Qed.

(** The generic removal: [__list_del] around a node. *)
Lemma __list_del_is_list st h xs e ys :
  is_list st h (xs ++ e :: ys) →
  ∃ st', ListH.__list_del (lastn h xs) (hd h ys) st = Some (tt, st') ∧
    is_list st' h (xs ++ ys) ∧ unchanged_but (h :: xs ++ ys) st st' ∧
    (∀ z, is_Some (st' !! z) ↔ is_Some (st !! z)).
Proof.
  intros Hl.
  assert (lastn h xs ∈ h :: xs ++ ys) by (pose proof (lastn_elem h xs); set_solver).
  assert (hd h ys ∈ h :: xs ++ ys) by (pose proof (hd_elem h ys); set_solver).
  destruct (list_del_run st (lastn h xs) (hd h ys)) as (st' & Hr & HL);
    [eapply is_list_in; [done|set_solver]..|].
  exists st'. split; [done|]. split; [|split].
  - eapply is_list_unlink; [done| |]; intros z _; apply HL.
  - eapply links_unchanged; [done| |]; intros z Hz; simpl;
      (rewrite decide_False; [done|set_solver]).
  - apply HL.
Qed.

Lemma unlinked_not_in st h xs e ys :
  is_list st h (xs ++ e :: ys) → e ∉ h :: xs ++ ys.
Proof. by intros [[? _]%NoDup_insert _]. Qed.

Lemma unchanged_weaken zs zs' st st' :
  zs ⊆ zs' → unchanged_but zs st st' → unchanged_but zs' st st'.
Proof. intros Hs Hu z Hz. apply Hu. set_solver. Qed.
Lemma unchanged_trans zs st st1 st2 :
  unchanged_but zs st st1 → unchanged_but zs st1 st2 → unchanged_but zs st st2.
Proof. intros H1 H2 z Hz. by rewrite H2, H1. Qed.

Lemma set_fields_unchanged st e n p :
  is_Some (st !! e) →
  ∃ st', (set_next e n ;; set_prev e p) st = Some (tt, st') ∧
    st' !! e = Some (mk_list_head n p) ∧ unchanged_but [e] st st'.
Proof.
  intros Ha. run_sets. eexists. split; [done|].
  destruct Ha as [nd Hnd]. unfold upd_next, upd_prev. split.
  - rewrite !lookup_alter_eq, Hnd. done.
  - intros z Hz. rewrite !lookup_alter_ne by set_solver. done.
Qed.

(** * Properties *)

(** C1: [list_add] pushes the entry at the front of the list and
    [list_add_tail] at its end, from any well-formed list and any allocated node
    not in it; nodes outside the list keep their fields. *)
Theorem list_add_spec st h xs e :
  is_list st h xs → is_Some (st !! e) → e ∉ h :: xs →
  (∃ st', ListH.list_add e h st = Some (tt, st') ∧
     is_list st' h (e :: xs) ∧ unchanged_but (e :: h :: xs) st st') ∧
  (∃ st', ListH.list_add_tail e h st = Some (tt, st') ∧
     is_list st' h (xs ++ [e]) ∧ unchanged_but (e :: h :: xs) st st').
Proof.
  intros Hl Ha He. unfold ListH.list_add, ListH.list_add_tail. split.
  - erewrite st_bind_eq by (eapply get_next_eq, is_list_first; done).
    by apply (__list_add_is_list st h [] xs).
  - erewrite st_bind_eq by (eapply get_prev_eq, is_list_last; done).
    destruct (__list_add_is_list st h xs [] e) as (st' & Hr & Hl' & Hu);
      [by rewrite ?app_nil_r..|].
    rewrite app_nil_r in Hu. eauto.
Qed.

Lemma __list_del_entry st h xs e ys (k : ST store unit) :
  is_list st h (xs ++ e :: ys) →
  ∃ st1, (p ← get_prev e; n ← get_next e; ListH.__list_del p n ;; k) st = k st1 ∧
    is_list st1 h (xs ++ ys) ∧ unchanged_but (h :: xs ++ ys) st st1 ∧
    is_Some (st1 !! e).
Proof.
  intros Hl. erewrite st_bind_eq by (eapply get_prev_eq, is_list_prev; done).
  erewrite st_bind_eq by (eapply get_next_eq, is_list_next; done).
  destruct (__list_del_is_list _ _ _ _ _ Hl) as (st1 & Hr & Hl1 & Hu & Hd).
  erewrite st_bind_eq by done.
  exists st1. split_all; [done..|]. apply Hd. eapply is_list_in; [done|set_solver].
Qed.

Lemma list_del_is_list st h xs e ys :
  is_list st h (xs ++ e :: ys) →
  ∃ st', ListH.list_del e st = Some (tt, st') ∧ is_list st' h (xs ++ ys) ∧
    st' !! e = Some (mk_list_head ListH.LIST_POISON1 ListH.LIST_POISON2) ∧
    unchanged_but (e :: h :: xs ++ ys) st st'.
Proof.
  intros Hl. pose proof (unlinked_not_in _ _ _ _ _ Hl) as He.
  unfold ListH.list_del.
  edestruct (__list_del_entry st h xs e ys) as (st1 & -> & Hl1 & Hu & Ha); [done|].
  destruct (set_fields_unchanged st1 e ListH.LIST_POISON1 ListH.LIST_POISON2)
    as (st' & Hr & He' & Hu'); [done|].
  exists st'. split_all; [done| |done|].
  - eapply is_list_unchanged; [done|set_solver|done].
  - eapply unchanged_trans; (eapply unchanged_weaken; [|done]); set_solver.
Qed.

(** [list_del] unlinks the entry wherever it stands, leaves the rest of the
    list in order and well formed, poisons the removed node's two fields and
    touches no node of another list; [list_del_init] does the same but leaves
    the node as an empty list of its own. *)
Theorem list_del_spec st h xs e ys :
  is_list st h (xs ++ e :: ys) →
  (∃ st', ListH.list_del e st = Some (tt, st') ∧ is_list st' h (xs ++ ys) ∧
     st' !! e = Some (mk_list_head ListH.LIST_POISON1 ListH.LIST_POISON2) ∧
     unchanged_but (e :: h :: xs ++ ys) st st') ∧
  (∃ st', ListH.list_del_init e st = Some (tt, st') ∧ is_list st' h (xs ++ ys) ∧
     is_list st' e [] ∧ unchanged_but (e :: h :: xs ++ ys) st st').
Proof.
  intros Hl. split; [by apply list_del_is_list|].
  pose proof (unlinked_not_in _ _ _ _ _ Hl) as He.
  unfold ListH.list_del_init, ListH.INIT_LIST_HEAD.
  edestruct (__list_del_entry st h xs e ys) as (st1 & -> & Hl1 & Hu & Ha); [done|].
  destruct (set_fields_unchanged st1 e e e) as (st' & Hr & He' & Hu'); [done|].
  exists st'. split_all; [done| | |].
  - eapply is_list_unchanged; [done|set_solver|done].
  - split; [apply NoDup_singleton|]. simpl. by rewrite He'.
  - eapply unchanged_trans; (eapply unchanged_weaken; [|done]); set_solver.
Qed.

(** [list_move] and [list_move_tail] take an entry out of one list and put it
    at the front, or the end, of another. *)
Theorem list_move_spec st h xs e ys h2 zs :
  is_list st h (xs ++ e :: ys) → is_list st h2 zs →
  (∀ z, z ∈ h2 :: zs → z ∉ h :: xs ++ e :: ys) →
  (∃ st', ListH.list_move e h2 st = Some (tt, st') ∧
     is_list st' h (xs ++ ys) ∧ is_list st' h2 (e :: zs)) ∧
  (∃ st', ListH.list_move_tail e h2 st = Some (tt, st') ∧
     is_list st' h (xs ++ ys) ∧ is_list st' h2 (zs ++ [e])).
Proof.
  intros Hl Hl2 Hd. pose proof (unlinked_not_in _ _ _ _ _ Hl) as He.
  assert (e ∉ h2 :: zs) as He2 by set_solver.
  assert (∀ z, z ∈ h :: xs ++ ys → z ∉ e :: h2 :: zs) as Hd' by set_solver.
  unfold ListH.list_move, ListH.list_move_tail.
  split; (edestruct (__list_del_entry st h xs e ys) as (st1 & -> & Hl1 & Hu & Ha);
    [done|]);
    assert (is_list st1 h2 zs) as Hl3
      by (eapply is_list_unchanged; [done|set_solver|done]).
  - destruct (__list_add_is_list st1 h2 [] zs e) as (st' & Hr & Hl' & Hu');
      [done..|].
    exists st'. unfold ListH.list_add.
    erewrite st_bind_eq by (eapply get_next_eq, is_list_first; done).
    split_all; [done| |done]. by eapply is_list_unchanged.
  - destruct (__list_add_is_list st1 h2 zs [] e) as (st' & Hr & Hl' & Hu');
      [rewrite ?app_nil_r; done..|].
    exists st'. unfold ListH.list_add_tail.
    erewrite st_bind_eq by (eapply get_prev_eq, is_list_last; done).
    split_all; [done| |done]. rewrite app_nil_r in Hu'. by eapply is_list_unchanged.
Qed.

Lemma list_empty_spec st h xs :
  is_list st h xs →
  ListH.list_empty h st = Some (match xs with [] => true | _ => false end, st).
Proof.
  intros Hl. unfold ListH.list_empty.
  erewrite st_bind_eq by (eapply get_next_eq, is_list_first; done).
  destruct Hl as [[Hh _]%NoDup_cons _]. destruct xs as [|x xs]; simpl.
  - by rewrite Z.eqb_refl.
  - replace (x =? h) with false; [done|]. symmetry. apply Z.eqb_neq. set_solver.
Qed.

Lemma hd_snoc (b b' : Z) ys y : hd b (ys ++ [y]) = hd y ys.
Proof. by destruct ys. Qed.

Lemma splice_run st l h xs ys y :
  is_list st l (ys ++ [y]) → is_list st h xs →
  (∀ z, z ∈ l :: ys ++ [y] → z ∉ h :: xs) →
  ∃ st', ListH.__list_splice l h st = Some (tt, st') ∧
    links st st'
      (λ z, if decide (z = y) then Some (hd h xs)
            else if decide (z = h) then Some (hd y ys) else nxt st z)
      (λ z, if decide (z = hd h xs) then Some y
            else if decide (z = hd y ys) then Some h else prv st z).
Proof.
  intros Hl Hh Hd. unfold ListH.__list_splice.
  erewrite st_bind_eq by (eapply get_next_eq, is_list_first; done).
  erewrite st_bind_eq by (eapply get_prev_eq, is_list_last; done).
  erewrite st_bind_eq by (eapply get_next_eq, is_list_first; done).
  rewrite lastn_app, (hd_snoc _ l). simpl.
  pose proof (hd_elem h xs). pose proof (hd_elem y ys).
  assert (is_Some (st !! h)) by (eapply (is_list_in st h xs); [done|set_solver]).
  assert (is_Some (st !! hd h xs)) by (eapply (is_list_in st h xs); done).
  assert (is_Some (st !! y)) by (eapply (is_list_in st l); [done|set_solver]).
  assert (is_Some (st !! hd y ys)) by (eapply (is_list_in st l); [done|set_solver]).
  run_sets. eexists. split; [done|]. unfold links. split_all; intros z.
  - solve_dom.
  - by read_fields.
  - by read_fields.
Qed.

Lemma __list_splice_is_list st l h xs ys y :
  is_list st l (ys ++ [y]) → is_list st h xs →
  (∀ z, z ∈ l :: ys ++ [y] → z ∉ h :: xs) →
  ∃ st', ListH.__list_splice l h st = Some (tt, st') ∧
    is_list st' h ((ys ++ [y]) ++ xs) ∧ is_Some (st' !! l) ∧
    unchanged_but (h :: xs ++ ys ++ [y]) st st'.
Proof.
  intros Hl Hh Hd.
  assert (∀ z, z ∈ y :: ys → z ∉ h :: xs) as Hd'.
  { intros z Hz. apply Hd. rewrite elem_of_cons, elem_of_app, list_elem_of_singleton.
    rewrite elem_of_cons in Hz. tauto. }
  destruct (splice_run _ _ _ _ _ _ Hl Hh Hd) as (st' & Hr & HL).
  exists st'. split; [done|]. pose proof HL as (Hdom & HN & HP).
  pose proof (hd_elem h xs) as Ex. pose proof (hd_elem y ys) as Ey.
  pose proof (Hd' _ Ey) as Hy1.
  assert (y ∉ h :: xs) as Hy2 by (apply Hd'; left).
  pose proof Hl as [Nl Sl]. pose proof Hh as [Nh Sh].
  pose proof (cut_apart _ _ _ Nl) as (_ & Ny & _ & Hly & _ & Ay & _).
  pose proof Nh as [Hhx Nx]%NoDup_cons.
  assert (NoDup (ys ++ [y])) as Nyy by by apply NoDup_cons in Nl as [_ ?].
  assert (∀ z, z ∈ ys → z ≠ h) by (intros z Hz ->; apply (Hd' h); [by right|by left]).
  assert (∀ z, z ∈ xs → z ≠ h) by (intros z Hz ->; done).
  assert (∀ z, z ∈ y :: ys → z ≠ hd h xs) by (intros z Hz ->; by apply (Hd' _ Hz)).
  assert (∀ z, z ∈ h :: xs → z ≠ y) by (intros z Hz ->; done).
  assert (∀ z, z ∈ h :: xs → z ≠ hd y ys) by (intros z Hz ->; done).
  assert (h ≠ y) by (intros ->; apply Hy2; left).
  split_all.
  - split.
    + apply NoDup_cons. split; [set_solver|]. apply NoDup_app. set_solver.
    + rewrite <- app_assoc. simpl. apply seg_app in Sl as [Sl _]. apply seg_app. split.
      * apply (seg_resource st st' l); [done| | | | | |done].
        -- intros ?. by apply (Ay y).
        -- rewrite HN. dec.
        -- rewrite HP. dec.
        -- intros z Hz. rewrite HN. pose proof (Ay _ Hz) as E. simpl in E. dec.
        -- intros z Hz Hne. rewrite HP. dec.
      * apply (seg_resource st st' h); [done|done| | | | |done].
        -- rewrite HN. dec.
        -- rewrite HP. dec.
        -- intros z Hz. assert (z ≠ y) by set_solver. rewrite HN. dec.
        -- intros z Hz Hne. rewrite HP. dec.
  - apply Hdom. eapply is_list_in; [exact Hl|set_solver].
  - eapply links_unchanged; [done| |]; intros z Hz; simpl;
      (rewrite !decide_False; [done| |]); set_solver.
Qed.

(** [list_splice_init] moves all entries of one list, in order, in front of
    the entries of the other and leaves the first list empty; on an empty list
    it changes nothing. *)
Theorem list_splice_init_spec st l h xs ys :
  is_list st l ys → is_list st h xs → (∀ z, z ∈ l :: ys → z ∉ h :: xs) →
  ∃ st', ListH.list_splice_init l h st = Some (tt, st') ∧
    is_list st' h (ys ++ xs) ∧ is_list st' l [] ∧
    (ys = [] → st' = st).
Proof.
  intros Hl Hh Hd. unfold ListH.list_splice_init.
  erewrite st_bind_eq by (by apply list_empty_spec).
  destruct (last_snoc_dec ys) as [->|(ys' & y & ->)]; [by exists st|].
  destruct (__list_splice_is_list _ _ _ _ _ _ Hl Hh Hd)
    as (st1 & Hr & Hl1 & Ha & Hu).
  destruct (set_fields_unchanged st1 l l l) as (st' & Hr' & He & Hu'); [done|].
  exists st'.
  assert (match ys' ++ [y] with [] => true | _ => false end = false) as ->
    by (by destruct ys').
  erewrite st_bind_eq by done.
  destruct Hl as [[Hly _]%NoDup_cons _].
  split_all; [done| | |].
  - eapply is_list_unchanged; [done|set_solver|done].
  - split; [apply NoDup_singleton|]. simpl. by rewrite He.
  - intros [_ ?]%app_nil. done.
Qed.

(** ** Loops *)

Section loops.
Context (h : Z).

(** Walking the rest of a list from any of its positions. *)
Lemma for_each_from_spec st xs ys fuel :
  is_list st h (xs ++ ys) → (length ys < fuel)%nat →
  ListH.for_each_from fuel h (λ _, mret tt) (hd h ys) st = Some (ys, st).
Proof.
  revert xs fuel; induction ys as [|y ys IH]; intros xs [|fuel] Hl Hf;
    simpl in *; [lia| |lia|].
  - by rewrite Z.eqb_refl.
  - assert (y ≠ h) as Hy by (destruct Hl as [[? _]%NoDup_cons _]; set_solver).
    rewrite (proj2 (Z.eqb_neq _ _) Hy).
    erewrite st_bind_eq by done.
    erewrite st_bind_eq by (eapply get_next_eq, is_list_next; done).
    erewrite st_bind_eq; [done|].
    apply (IH (xs ++ [y])); [by rewrite <- app_assoc|lia].
Qed.

(** Unlinking every entry under the safe iteration. *)
Lemma for_each_safe_from_del st y ys fuel :
  is_list st h (y :: ys) → (S (length ys) < fuel)%nat →
  ∃ st', ListH.for_each_safe_from fuel h ListH.list_del y (hd h ys) st
           = Some (y :: ys, st') ∧ is_list st' h [].
Proof.
  revert st y fuel; induction ys as [|y' ys IH]; intros st y [|fuel] Hl Hf;
    simpl in *; try lia;
    (assert (y ≠ h) as Hy by (destruct Hl as [[? _]%NoDup_cons _]; set_solver));
    rewrite (proj2 (Z.eqb_neq _ _) Hy);
    (edestruct (list_del_is_list st h [] y _ Hl) as (st1 & Hr & Hl1 & _));
    (erewrite st_bind_eq by done); simpl in Hl1.
  - erewrite st_bind_eq by (eapply get_next_eq, is_list_first; done).
    destruct fuel as [|fuel]; [lia|]. simpl. rewrite Z.eqb_refl.
    by exists st1.
  - erewrite st_bind_eq
      by (eapply get_next_eq, (is_list_next _ _ []); done).
    destruct (IH st1 y' fuel Hl1) as (st' & Hr' & Hl'); [lia|].
    exists st'. by erewrite st_bind_eq.
Qed.
End loops.

(** With fuel beyond the number of entries, [list_for_each] visits exactly
    the entries of the list, in order, and stops. *)
Theorem list_for_each_spec st h xs fuel :
  is_list st h xs → (length xs < fuel)%nat →
  ListH.list_for_each fuel h (λ _, mret tt) st = Some (xs, st).
Proof.
  intros Hl Hf. unfold ListH.list_for_each.
  erewrite st_bind_eq by (eapply get_next_eq, is_list_first; done).
  by apply (for_each_from_spec h st []).
Qed.

(** [list_for_each_safe] may delete the entry it stands on: with [list_del]
    as its body it terminates, visits every entry in order and leaves the list
    empty (the clean-up loops of list_demo.cpp). *)
Theorem list_for_each_safe_del st h xs fuel :
  is_list st h xs → (length xs < fuel)%nat →
  ∃ st', ListH.list_for_each_safe fuel h ListH.list_del st = Some (xs, st') ∧
    is_list st' h [].
Proof.
  intros Hl Hf. unfold ListH.list_for_each_safe.
  erewrite st_bind_eq by (eapply get_next_eq, is_list_first; done).
  destruct xs as [|x xs]; simpl in Hf.
  - simpl. erewrite st_bind_eq by (eapply get_next_eq, is_list_first; done).
    destruct fuel; [lia|]. simpl. rewrite Z.eqb_refl. by exists st.
  - simpl.
    erewrite st_bind_eq by (eapply get_next_eq, (is_list_next _ _ []); done).
    by apply for_each_safe_from_del.
Qed.

(** ** The two sources agree *)

Lemma store_ext (st st' : store) :
  (∀ z, nxt st z = nxt st' z) → (∀ z, prv st z = prv st' z) → st = st'.
Proof. intros Hn Hp. apply map_eq. intros z. by apply node_ext. Qed.

(** The [__list_add] and [__list_del] of list_head.cpp write the fields in
    another order than those of list.h, and still leave the same store, for
    every choice of allocated nodes (aliased or not, as long as the new node is
    neither neighbour). *)
Theorem list_head_cpp_agrees st e p n :
  is_Some (st !! e) → is_Some (st !! p) → is_Some (st !! n) → e ≠ p → e ≠ n →
  ListHeadCpp.__list_add e p n st = ListH.__list_add e p n st ∧
  ListHeadCpp.__list_del p n st = ListH.__list_del p n st.
Proof.
  intros He Hp Hn Hep Hen.
  unfold ListHeadCpp.__list_add, ListH.__list_add, ListHeadCpp.__list_del,
    ListH.__list_del. run_sets.
  split; do 2 f_equal; apply store_ext; intros z; read_fields; dec.
Qed.

(** ** Concrete runs *)

#[export] Instance seg_dec st a xs b : Decision (seg st a xs b).
Proof. revert a; induction xs; intros a'; simpl; apply _. Defined.
#[export] Instance is_list_dec st h xs : Decision (is_list st h xs).
Proof. unfold is_list. apply _. Defined.

(** A store with the lists 1: 2, 3, 4 and 10: 11, 12, and the free node 20. *)
Definition demo_store : store :=
  let blank := list_to_map ((λ a, (a, mk_list_head 0 0)) <$>
                 [1; 2; 3; 4; 10; 11; 12; 20]) in
  default ∅ (st_exec (
    ListH.INIT_LIST_HEAD 1 ;; ListH.INIT_LIST_HEAD 10 ;;
    ListH.list_add_tail 2 1 ;; ListH.list_add_tail 3 1 ;; ListH.list_add_tail 4 1 ;;
    ListH.list_add 12 10 ;; ListH.list_add 11 10) blank).


Lemma list_add_witness : ∃ st',
  ListH.list_add 20 1 demo_store = Some (tt, st') ∧ is_list st' 1 [20; 2; 3; 4].
Proof.
  destruct (list_add_spec demo_store 1 [2; 3; 4] 20) as [(st' & H1 & H2 & _) _];
    [by_computation..|eauto].
Defined.

Lemma list_del_witness : ∃ st',
  ListH.list_del 3 demo_store = Some (tt, st') ∧ is_list st' 1 [2; 4].
Proof.
  destruct (list_del_spec demo_store 1 [2] 3 [4]) as [(st' & H1 & H2 & _) _];
    [by_computation|eauto].
Defined.

Lemma list_move_witness : ∃ st',
  ListH.list_move 3 10 demo_store = Some (tt, st') ∧
  is_list st' 1 [2; 4] ∧ is_list st' 10 [3; 11; 12].
Proof.
  destruct (list_move_spec demo_store 1 [2] 3 [4] 10 [11; 12])
    as [(st' & H1 & H2) _]; [by_computation..| |eauto].
  intros z Hz Hz'. set_unfold. lia.
Defined.

Lemma list_splice_init_witness : ∃ st',
  ListH.list_splice_init 10 1 demo_store = Some (tt, st') ∧
  is_list st' 1 [11; 12; 2; 3; 4] ∧ is_list st' 10 [].
Proof.
  destruct (list_splice_init_spec demo_store 10 1 [2; 3; 4] [11; 12])
    as (st' & H1 & H2 & H3 & _); [by_computation..| |eauto].
  intros z Hz Hz'. set_unfold. lia.
Defined.

Lemma list_for_each_witness :
  ListH.list_for_each 4 1 (λ _, mret tt) demo_store = Some ([2; 3; 4], demo_store).
Proof. apply list_for_each_spec; [by_computation|simpl; lia]. Defined.

Lemma list_for_each_safe_witness : ∃ st',
  ListH.list_for_each_safe 4 1 ListH.list_del demo_store = Some ([2; 3; 4], st') ∧
  is_list st' 1 [].
Proof. apply list_for_each_safe_del; [by_computation|simpl; lia]. Defined.

Lemma list_head_cpp_witness :
  ListHeadCpp.__list_add 20 1 2 demo_store = ListH.__list_add 20 1 2 demo_store ∧
  ListHeadCpp.__list_del 1 2 demo_store = ListH.__list_del 1 2 demo_store.
Proof. apply list_head_cpp_agrees; [by_computation..|lia|lia]. Defined.
