(* ===== verification/KHlist.v ===== *)
(** The kernel's hash list: doubly linked, with a single-pointer head.

    [Module Hlist] models the second half of
    [src/books/understanding_linux_networking/kernel_data_structures/hlist/list.h]
    and [Module HlistHeadCpp] the two operations of
    [src/books/understanding_linux_kernel/chapter03_processes/hlist_head.cpp];
    the hash tables built on them are in HashTables.v.
    [pprev] is a pointer to a pointer, so the memory is modelled cell by cell:
    a node at address [n] has its [next] in cell [n] and its [pprev] in cell
    [n + 8]; a head at [h] has its [first] in cell [h]; [NULL] is 0.  Reading or
    writing a cell that is not allocated fails. *)

From S2P Require Import Prelude.

Local Open Scope Z_scope.

Abbreviation mem := (gmap Z Z).

Definition ld (a : Z) : ST mem Z := λ m,
  match m !! a with Some v => Some (v, m) | None => None end.
Definition sto (a v : Z) : ST mem unit := λ m,
  match m !! a with Some _ => Some (tt, <[a := v]> m) | None => None end.

(** [&n->next] and [&n->pprev] *)
Definition NEXT (n : Z) : Z := n.
Definition PPREV (n : Z) : Z := n + 8.

Module Hlist.
Definition LIST_POISON1 : Z := 0x00100100.
Definition LIST_POISON2 : Z := 0x00200200.

Definition INIT_HLIST_HEAD (h : Z) : ST mem unit := sto h 0.
Definition INIT_HLIST_NODE (n : Z) : ST mem unit :=
  sto (NEXT n) 0 ;; sto (PPREV n) 0.

Definition hlist_unhashed (n : Z) : ST mem bool :=
  p ← ld (PPREV n); mret (p =? 0).
Definition hlist_empty (h : Z) : ST mem bool :=
  f ← ld h; mret (f =? 0).

Definition __hlist_del (n : Z) : ST mem unit :=
  next ← ld (NEXT n);
  pprev ← ld (PPREV n);
  sto pprev next ;;
  if next =? 0 then mret tt else sto (PPREV next) pprev.

Definition hlist_del (n : Z) : ST mem unit :=
  __hlist_del n ;;
  sto (NEXT n) LIST_POISON1 ;;
  sto (PPREV n) LIST_POISON2.

Definition hlist_del_init (n : Z) : ST mem unit :=
  pprev ← ld (PPREV n);
  if pprev =? 0 then mret tt
  else __hlist_del n ;; INIT_HLIST_NODE n.

Definition hlist_add_head (n h : Z) : ST mem unit :=
  first ← ld h;
  sto (NEXT n) first ;;
  (if first =? 0 then mret tt else sto (PPREV first) (NEXT n)) ;;
  sto h n ;;
  sto (PPREV n) h.

Definition hlist_add_before (n next : Z) : ST mem unit :=
  p ← ld (PPREV next);
  sto (PPREV n) p ;;
  sto (NEXT n) next ;;
  sto (PPREV next) (NEXT n) ;;
  p' ← ld (PPREV n);
  sto p' n.

Definition hlist_add_after (n next : Z) : ST mem unit :=
  nn ← ld (NEXT n);
  sto (NEXT next) nn ;;
  sto (NEXT n) next ;;
  sto (PPREV next) (NEXT n) ;;
  nn' ← ld (NEXT next);
  if nn' =? 0 then mret tt else sto (PPREV nn') (NEXT next).

(** [hlist_for_each (pos, head)] with an empty body: the nodes visited. *)
Fixpoint for_each_from (fuel : nat) (pos : Z) : ST mem (list Z) :=
  match fuel with
  | O => st_fail
  | S f =>
      if pos =? 0 then mret []
      else n ← ld (NEXT pos); rest ← for_each_from f n; mret (pos :: rest)
  end.
Definition hlist_for_each (fuel : nat) (h : Z) : ST mem (list Z) :=
  pos ← ld h; for_each_from fuel pos.
End Hlist.

(** The same operations in hlist_head.cpp: there [hlist_del] does not poison. *)
Module HlistHeadCpp.
Definition hlist_add_head (n h : Z) : ST mem unit :=
  first ← ld h;
  sto (NEXT n) first ;;
  (if first =? 0 then mret tt else sto (PPREV first) (NEXT n)) ;;
  sto h n ;;
  sto (PPREV n) h.

Definition hlist_del (n : Z) : ST mem unit :=
  next ← ld (NEXT n);
  pprev ← ld (PPREV n);
  sto pprev next ;;
  if next =? 0 then mret tt else sto (PPREV next) pprev.
End HlistHeadCpp.

(** * Representation *)

(** [pre m c xs]: from the cell [c], the chain goes through the nodes [xs] and
    reaches the cell [lastc c xs]; [chain m c ys] is such a chain ended by
    [NULL]. *)
Fixpoint pre (m : mem) (c : Z) (xs : list Z) : Prop :=
  match xs with
  | [] => True
  | x :: xs => m !! c = Some x ∧ m !! PPREV x = Some c ∧ pre m (NEXT x) xs
  end.
Fixpoint lastc (c : Z) (xs : list Z) : Z :=
  match xs with [] => c | x :: xs => lastc (NEXT x) xs end.
Definition chain (m : mem) (c : Z) (xs : list Z) : Prop :=
  pre m c xs ∧ m !! lastc c xs = Some 0.

(** The cells of the nodes [xs]. *)
Definition cells (xs : list Z) : list Z := xs ++ (PPREV <$> xs).

(** The list headed by cell [h] holds exactly [xs]: the cells are pairwise
    distinct and no node is [NULL]. *)
Definition is_hlist (m : mem) (h : Z) (xs : list Z) : Prop :=
  NoDup (h :: cells xs) ∧ 0 ∉ xs ∧ chain m h xs.

Lemma pre_app m c xs ys : pre m c (xs ++ ys) ↔ pre m c xs ∧ pre m (lastc c xs) ys.
Proof. revert c; induction xs as [|x xs IH]; intros c; simpl; [tauto|].
  rewrite IH. tauto. Qed.
Lemma lastc_app c xs ys : lastc c (xs ++ ys) = lastc (lastc c xs) ys.
Proof. revert c; induction xs; simpl; auto. Qed.
Lemma lastc_elem c xs : lastc c xs ∈ c :: xs.
Proof. revert c; induction xs as [|x xs IH]; intros c; simpl; set_solver. Qed.

Lemma chain_cut m c xs ys :
  chain m c (xs ++ ys) ↔ pre m c xs ∧ chain m (lastc c xs) ys.
Proof. unfold chain. rewrite pre_app, lastc_app. tauto. Qed.
Lemma chain_hd m c ys : chain m c ys → m !! c = Some (hd 0 ys).
Proof. destruct ys; simpl; [by intros [_ ?]|by intros [(? & _) _]]. Qed.

Lemma elem_of_cells z xs : z ∈ cells xs ↔ z ∈ xs ∨ ∃ x, z = PPREV x ∧ x ∈ xs.
Proof. unfold cells. by rewrite elem_of_app, list_elem_of_fmap. Qed.
Lemma cells_cons_perm x xs : cells (x :: xs) ≡ₚ x :: PPREV x :: cells xs.
Proof. unfold cells. rewrite fmap_cons. solve_Permutation. Qed.
Lemma cells_app_perm xs ys : cells (xs ++ ys) ≡ₚ cells xs ++ cells ys.
Proof. unfold cells. rewrite fmap_app. solve_Permutation. Qed.

(** A new node between [xs] and [ys] brings two fresh cells. *)
Lemma NoDup_cells_insert h xs n ys :
  NoDup (h :: cells (xs ++ n :: ys)) ↔
  n ∉ h :: cells (xs ++ ys) ∧ PPREV n ∉ h :: cells (xs ++ ys) ∧
  NoDup (h :: cells (xs ++ ys)).
Proof.
  assert (h :: cells (xs ++ n :: ys) ≡ₚ n :: PPREV n :: h :: cells (xs ++ ys)) as ->.
  { rewrite !cells_app_perm, cells_cons_perm. solve_Permutation. }
  rewrite !NoDup_cons. assert (n ≠ PPREV n) by (unfold PPREV; lia). set_solver.
Qed.

Lemma NoDup_cells_app h xs ys :
  NoDup (h :: cells (xs ++ ys)) →
  NoDup (h :: cells xs) ∧ NoDup (cells ys) ∧
  (∀ z, z ∈ h :: cells xs → z ∉ cells ys).
Proof.
  rewrite cells_app_perm, app_comm_cons. intros (? & ? & ?)%NoDup_app. auto.
Qed.

Lemma NoDup_cons3 (a b c : Z) l :
  NoDup (a :: b :: c :: l) ↔
  a ≠ b ∧ a ≠ c ∧ b ≠ c ∧ a ∉ l ∧ b ∉ l ∧ c ∉ l ∧ NoDup l.
Proof. rewrite !NoDup_cons, !not_elem_of_cons. tauto. Qed.

Lemma lastc_cells x xs : lastc x xs = x ∨ lastc x xs ∈ cells xs.
Proof.
  pose proof (lastc_elem x xs) as [?|?]%elem_of_cons; [by left|right].
  apply elem_of_cells. by left.
Qed.

Lemma pre_frame m m' c xs :
  NoDup (c :: cells xs) →
  (∀ z, z ∈ c :: cells xs → z ≠ lastc c xs → m' !! z = m !! z) →
  pre m c xs → pre m' c xs.
Proof.
  revert c; induction xs as [|x xs IH]; intros c; simpl; [done|].
  rewrite cells_cons_perm. intros Hnd Hf (E1 & E2 & Hp).
  apply NoDup_cons3 in Hnd as (H1 & H2 & H3 & H4 & H5 & H6 & H7).
  unfold NEXT in *. pose proof (lastc_cells x xs) as Hl.
  assert (∀ z, z ∈ c :: x :: PPREV x :: cells xs ↔ z ∈ c :: cells (x :: xs)) as Hin.
  { intros z. by rewrite cells_cons_perm. }
  assert (c ≠ lastc x xs) by (destruct Hl as [->|Hl]; [done|by intros ->]).
  assert (PPREV x ≠ lastc x xs) by (destruct Hl as [->|Hl]; [done|by intros E; rewrite E in H6]).
  rewrite !Hf; [|apply Hin; set_solver|done|apply Hin; set_solver|done].
  split_all; [done..|]. apply IH; [by apply NoDup_cons| |done].
  intros z Hz Hzl. apply Hf; [|done]. apply Hin. rewrite elem_of_cons in Hz.
  rewrite !elem_of_cons. tauto.
Qed.

(** Entering the nodes [ys] from another cell. *)
Lemma chain_recell m m' c c' ys :
  NoDup (cells ys) →
  m' !! c' = Some (hd 0 ys) → (ys ≠ [] → m' !! PPREV (hd 0 ys) = Some c') →
  (∀ z, z ∈ cells ys → z ≠ PPREV (hd 0 ys) → m' !! z = m !! z) →
  chain m c ys → chain m' c' ys.
Proof.
  destruct ys as [|y ys]; [done|]. rewrite cells_cons_perm.
  intros Hn Hc Hp Hf [(_ & _ & Hpre) Hz]. simpl in *. unfold NEXT in *.
  assert (∀ z, z ∈ y :: cells ys → m' !! z = m !! z) as Hf'.
  { apply NoDup_cons in Hn as [Hy [Hpy _]%NoDup_cons].
    intros z Hz'. apply Hf; [rewrite cells_cons_perm; set_solver|].
    intros ->. set_solver. }
  split; [simpl; split_all; [done|by apply Hp|]|].
  - eapply pre_frame; [|intros; by apply Hf'|done].
    apply NoDup_cons in Hn as [Hy [_ ?]%NoDup_cons]. apply NoDup_cons. set_solver.
  - simpl. unfold NEXT. rewrite Hf'; [done|].
    destruct (lastc_cells y ys) as [->|?]; [by left|by right].
Qed.

(** ** Surgery *)

Section surgery.
Context (m m' : mem) (h : Z) (xs ys : list Z) (n : Z).

Lemma surgery_facts zs :
  NoDup (h :: cells (xs ++ zs)) →
  NoDup (h :: cells xs) ∧ NoDup (cells zs) ∧
  lastc h xs ∈ h :: cells xs ∧
  (∀ z, z ∈ h :: cells xs → z ∈ h :: cells (xs ++ zs)) ∧
  (∀ z, z ∈ cells zs → z ∈ h :: cells (xs ++ zs)) ∧
  (zs ≠ [] → PPREV (hd 0 zs) ∈ cells zs) ∧
  (∀ z, z ∈ h :: cells xs → z ∉ cells zs).
Proof.
  intros (Nx & Ny & Hd)%NoDup_cells_app.
  split_all; [done|done| | | | |done].
  - destruct (lastc_cells h xs) as [->|?]; [by left|by right].
  - intros z. rewrite cells_app_perm. set_solver.
  - intros z. rewrite cells_app_perm. set_solver.
  - intros Hne. apply elem_of_cells. right. eexists. split; [done|].
    destruct zs; [done|left].
Qed.

Lemma is_hlist_insert :
  is_hlist m h (xs ++ ys) → NoDup (h :: cells (xs ++ n :: ys)) → n ≠ 0 →
  m' !! lastc h xs = Some n → m' !! NEXT n = Some (hd 0 ys) →
  m' !! PPREV n = Some (lastc h xs) →
  (ys ≠ [] → m' !! PPREV (hd 0 ys) = Some (NEXT n)) →
  (∀ z, z ∈ h :: cells (xs ++ ys) → z ≠ lastc h xs →
        (ys ≠ [] → z ≠ PPREV (hd 0 ys)) → m' !! z = m !! z) →
  is_hlist m' h (xs ++ n :: ys).
Proof.
  intros (Hnd & H0 & Hc) Hnd' Hn0 E1 E2 E3 E4 Hf.
  split; [done|]. split; [set_solver|].
  apply chain_cut in Hc as [Hpx Hcy].
  apply (surgery_facts ys) in Hnd as (Nx & Ny & Hl & Ix & Iy & Hhd & Hd).
  apply chain_cut. split.
  - apply (pre_frame m); [done| |done]. intros z Hz Hzl. apply Hf; [auto|done|].
    intros Hne ->. by apply (Hd _ Hz), Hhd.
  - assert (chain m' (NEXT n) ys) as [Hp Hz].
    { apply (chain_recell m m' (lastc h xs)); [done|done|done| |done].
      intros z Hz Hzp. apply Hf; [auto| |auto]. intros ->. by apply (Hd _ Hl). }
    split; [by split_all|done].
Qed.

Lemma is_hlist_remove :
  is_hlist m h (xs ++ n :: ys) →
  m' !! lastc h xs = Some (hd 0 ys) →
  (ys ≠ [] → m' !! PPREV (hd 0 ys) = Some (lastc h xs)) →
  (∀ z, z ∈ h :: cells (xs ++ ys) → z ≠ lastc h xs →
        (ys ≠ [] → z ≠ PPREV (hd 0 ys)) → m' !! z = m !! z) →
  is_hlist m' h (xs ++ ys).
Proof.
  intros ((_ & _ & Hnd)%NoDup_cells_insert & H0 & Hc) E1 E2 Hf.
  split; [done|]. split; [set_solver|].
  apply chain_cut in Hc as [Hpx [Hpy Hz]].
  apply (surgery_facts ys) in Hnd as (Nx & Ny & Hl & Ix & Iy & Hhd & Hd).
  apply chain_cut. split.
  - apply (pre_frame m); [done| |done]. intros z Hz' Hzl. apply Hf; [auto|done|].
    intros Hne ->. by apply (Hd _ Hz'), Hhd.
  - apply (chain_recell m m' (NEXT n)); [done|done|done| |].
    + intros z Hz' Hzp. apply Hf; [auto| |auto]. intros ->. by apply (Hd _ Hl).
    + split; [by apply Hpy|done].
Qed.
End surgery.

(** ** Running the accessors *)

Lemma ld_eq (m : mem) a v : m !! a = Some v → ld a m = Some (v, m).
Proof. intros H. unfold ld. by rewrite H. Qed.
Lemma sto_eq (m : mem) a v : is_Some (m !! a) → sto a v m = Some (tt, <[a := v]> m).
Proof. intros [w H]. unfold sto. by rewrite H. Qed.

Lemma insert_is_Some (m : mem) a v z :
  is_Some (m !! z) → is_Some (<[a := v]> m !! z).
Proof. rewrite lookup_insert. case_decide; eauto. Qed.

Lemma chain_alloc m c xs z :
  chain m c xs → z ∈ c :: cells xs → is_Some (m !! z).
Proof.
  revert c; induction xs as [|x xs IH]; intros c [Hp Hz] Hin; simpl in *.
  - assert (z = c) as -> by set_solver. eauto.
  - destruct Hp as (H1 & H2 & Hp). rewrite cells_cons_perm in Hin.
    rewrite !elem_of_cons in Hin. destruct Hin as [->|[->|[->|Hin]]]; eauto.
    + apply (IH (NEXT x)); [by split|left].
    + apply (IH (NEXT x)); [by split|by right].
Qed.

Ltac solve_alloc := repeat apply insert_is_Some; eauto.
Ltac run_cells :=
  repeat first
    [ erewrite st_bind_eq by (apply sto_eq; solve_alloc; done)
    | rewrite sto_eq by (solve_alloc; done) ].
Ltac decl := rewrite ?lookup_insert; repeat case_decide; try done; try congruence.

(** ** What the operations need to know about their neighbourhood *)

Section fresh.
Context (m : mem) (h : Z) (xs ys : list Z) (n : Z).
Hypothesis Hl : is_hlist m h (xs ++ ys).
Hypothesis Hnd : NoDup (h :: cells (xs ++ n :: ys)).
Hypothesis Hn : is_Some (m !! NEXT n).
Hypothesis Hp : is_Some (m !! PPREV n).

Lemma fresh_facts :
  m !! lastc h xs = Some (hd 0 ys) ∧
  (ys ≠ [] → hd 0 ys ≠ 0 ∧ m !! PPREV (hd 0 ys) = Some (lastc h xs) ∧
             PPREV (hd 0 ys) ≠ n ∧ PPREV (hd 0 ys) ≠ lastc h xs ∧
             PPREV (hd 0 ys) ≠ PPREV n) ∧
  n ≠ lastc h xs ∧ PPREV n ≠ lastc h xs ∧ n ≠ PPREV n ∧
  n ∉ h :: cells (xs ++ ys) ∧ PPREV n ∉ h :: cells (xs ++ ys).
Proof.
  pose proof Hl as (Hnd' & H0 & Hc). apply chain_cut in Hc as [_ Hc].
  apply NoDup_cells_insert in Hnd as (H1 & H2 & _).
  apply (surgery_facts h xs ys) in Hnd' as (Nx & Ny & Hla & Ix & Iy & Hhd & Hd).
  assert (n ≠ PPREV n) by (unfold PPREV; lia).
  split_all; [by apply chain_hd| | | |done|done|done].
  - intros Hne. specialize (Hhd Hne).
    destruct ys as [|y ys']; [done|]. simpl in *.
    split_all.
    + intros ->. set_solver.
    + destruct Hc as [(_ & ? & _) _]. done.
    + intros E. rewrite E in Hhd. by apply H1, Iy.
    + intros E. rewrite E in Hhd. by apply (Hd _ Hla).
    + intros E. rewrite E in Hhd. by apply H2, Iy.
  - intros ->. by apply H1, Ix.
  - intros E. apply H2. rewrite E. by apply Ix.
Qed.

(** Any run that leaves these four fields has inserted [n]. *)
Lemma insert_run (run : ST mem unit) :
  n ≠ 0 →
  (let m0 := <[PPREV n := lastc h xs]> (<[lastc h xs := n]> (<[NEXT n := hd 0 ys]> m)) in
   run m = Some (tt, match ys with [] => m0 | y :: _ => <[PPREV y := NEXT n]> m0 end)) →
  ∃ m', run m = Some (tt, m') ∧ is_hlist m' h (xs ++ n :: ys) ∧
    (∀ z, z ∉ h :: cells (xs ++ n :: ys) → m' !! z = m !! z).
Proof.
  intros Hn0 Hr. destruct fresh_facts as (F1 & F2 & F3 & F4 & F5 & F6 & F7).
  assert (lastc h xs ∈ h :: cells (xs ++ n :: ys)) as Hlin.
  { pose proof (lastc_elem h xs) as [->|?]%elem_of_cons; [left|right].
    apply elem_of_cells. left. apply elem_of_app. by left. }
  assert (∀ x, x ∈ n :: ys → x ∈ h :: cells (xs ++ n :: ys) ∧
                             PPREV x ∈ h :: cells (xs ++ n :: ys)) as Hcell.
  { intros x Hx. split; right; apply elem_of_cells; [left|right];
      [|exists x; split; [done|]]; apply elem_of_app; by right. }
  destruct (Hcell n ltac:(left)) as [Hc1 Hc2].
  eexists. split; [exact Hr|]. unfold NEXT in *.
  destruct ys as [|y ys']; cbn [hd] in *.
  - split.
    + eapply (is_hlist_insert m); eauto; try (decl; done).
      intros z Hz Hzl _. decl; by (subst; exfalso; auto).
    + intros z Hz. rewrite !lookup_insert_ne; [done|by intros <-..].
  - destruct (F2 ltac:(done)) as (G1 & G2 & G3 & G4 & G5).
    destruct (Hcell y ltac:(right; left)) as [_ Hc3]. split.
    + eapply (is_hlist_insert m); eauto; cbn [hd]; try (decl; done).
      intros z Hz Hzl Hzy. specialize (Hzy ltac:(done)).
      decl; by (subst; exfalso; auto).
    + intros z Hz. rewrite !lookup_insert_ne; [done|by intros <-..].
Qed.
End fresh.

Lemma cells_perm xs ys : xs ≡ₚ ys → cells xs ≡ₚ cells ys.
Proof. intros H. unfold cells. by rewrite H. Qed.

Lemma NoDup_cells_perm h xs ys :
  xs ≡ₚ ys → NoDup (h :: cells xs) → NoDup (h :: cells ys).
Proof. intros H. by rewrite (cells_perm _ _ H). Qed.

Section runs.
Context (m : mem) (h n : Z).
Hypothesis Hn0 : n ≠ 0.
Hypothesis Hn : is_Some (m !! NEXT n).
Hypothesis Hp : is_Some (m !! PPREV n).

Definition inserted (run : ST mem unit) (zs : list Z) : Prop :=
  ∃ m', run m = Some (tt, m') ∧ is_hlist m' h zs ∧
    (∀ z, z ∉ h :: cells zs → m' !! z = m !! z).

Lemma add_head_run ys :
  is_hlist m h ys → NoDup (h :: cells (n :: ys)) →
  inserted (Hlist.hlist_add_head n h) (n :: ys).
Proof.
  intros Hl Hnd.
  destruct (fresh_facts m h [] ys n Hl Hnd Hn Hp) as (F1 & F2 & F3 & F4 & F5 & _).
  apply (insert_run m h [] ys n); auto. simpl lastc in *. cbv zeta.
  unfold Hlist.hlist_add_head. erewrite st_bind_eq by (by apply ld_eq).
  unfold NEXT in *. destruct ys as [|y ys']; cbn [hd] in *.
  - run_cells. simpl. erewrite st_bind_eq by done. run_cells. done.
  - destruct (F2 ltac:(done)) as (G1 & G2 & G3 & G4 & G5).
    rewrite (proj2 (Z.eqb_neq _ _) G1). run_cells. do 2 f_equal.
    apply map_eq. intros z. decl.
Qed.

Lemma add_before_run xs e ys :
  is_hlist m h (xs ++ e :: ys) → NoDup (h :: cells (xs ++ n :: e :: ys)) →
  inserted (Hlist.hlist_add_before n e) (xs ++ n :: e :: ys).
Proof.
  intros Hl Hnd.
  destruct (fresh_facts m h xs (e :: ys) n Hl Hnd Hn Hp) as (F1 & F2 & F3 & F4 & F5 & _).
  apply (insert_run m h xs (e :: ys) n); auto. cbv zeta. cbn [hd] in *.
  destruct (F2 ltac:(done)) as (G1 & G2 & G3 & G4 & G5).
  unfold Hlist.hlist_add_before. erewrite st_bind_eq by (by apply ld_eq).
  unfold NEXT in *. run_cells.
  erewrite st_bind_eq by (apply ld_eq; rewrite !lookup_insert_ne by done;
    apply lookup_insert_eq).
  run_cells. do 2 f_equal. apply map_eq. intros z. decl.
Qed.

Lemma add_after_run xs e ys :
  is_hlist m h ((xs ++ [e]) ++ ys) → NoDup (h :: cells ((xs ++ [e]) ++ n :: ys)) →
  inserted (Hlist.hlist_add_after e n) ((xs ++ [e]) ++ n :: ys).
Proof.
  intros Hl Hnd.
  destruct (fresh_facts m h (xs ++ [e]) ys n Hl Hnd Hn Hp)
    as (F1 & F2 & F3 & F4 & F5 & _).
  apply (insert_run m h (xs ++ [e]) ys n); auto. cbv zeta.
  rewrite lastc_app in *. simpl lastc in *. unfold NEXT in *.
  unfold Hlist.hlist_add_after, NEXT. erewrite st_bind_eq by (by apply ld_eq).
  run_cells.
  erewrite st_bind_eq by (apply ld_eq; rewrite !lookup_insert_ne by done;
    apply lookup_insert_eq).
  destruct ys as [|y ys']; cbn [hd] in *.
  - done.
  - destruct (F2 ltac:(done)) as (G1 & G2 & G3 & G4 & G5).
    rewrite (proj2 (Z.eqb_neq _ _) G1). run_cells. done.
Qed.
End runs.

Lemma is_hlist_frame m m' h xs :
  (∀ z, z ∈ h :: cells xs → m' !! z = m !! z) → is_hlist m h xs → is_hlist m' h xs.
Proof.
  intros Hf (Hnd & H0 & Hp & Hz). split; [done|]. split; [done|].
  split; [by apply (pre_frame m); [|intros; apply Hf|]|]. rewrite Hf; [done|].
  destruct (lastc_cells h xs) as [->|?]; [by left|by right].
Qed.

Lemma __hlist_del_run m h xs e ys :
  is_hlist m h (xs ++ e :: ys) →
  ∃ m1, Hlist.__hlist_del e m = Some (tt, m1) ∧ is_hlist m1 h (xs ++ ys) ∧
    m !! PPREV e = Some (lastc h xs) ∧
    is_Some (m1 !! NEXT e) ∧ is_Some (m1 !! PPREV e) ∧
    e ∉ h :: cells (xs ++ ys) ∧ PPREV e ∉ h :: cells (xs ++ ys) ∧
    (∀ z, z ∉ h :: cells (xs ++ ys) → m1 !! z = m !! z).
Proof.
  intros Hl. pose proof Hl as (Hnd & H0 & Hc).
  apply NoDup_cells_insert in Hnd as (N1 & N2 & Hnd).
  apply chain_cut in Hc as [_ Hc]. pose proof Hc as [(E1 & E2 & Hcp) Hcz].
  assert (chain m (NEXT e) ys) as Hcy by by split.
  apply (surgery_facts h xs ys) in Hnd as (Nx & Ny & Hla & Ix & Iy & Hhd & Hd).
  assert (e ≠ lastc h xs) by (intros E; apply N1, Ix; by rewrite E).
  assert (PPREV e ≠ lastc h xs) by (intros E; apply N2, Ix; by rewrite E).
  pose proof (Ix _ Hla) as Hla'.
  unfold Hlist.__hlist_del, NEXT in *.
  erewrite st_bind_eq by (by apply ld_eq, chain_hd).
  erewrite st_bind_eq by (by apply ld_eq).
  destruct ys as [|y ys']; cbn [hd] in *.
  - run_cells. eexists. split; [done|].
    split_all; try done; [|decl; eauto..|intros z Hz; decl].
    eapply (is_hlist_remove m); [done|by rewrite lookup_insert_eq|done|].
    intros z Hz Hzl _. by rewrite lookup_insert_ne.
  - specialize (Hhd ltac:(done)).
    assert (y ≠ 0) as Hy by (intros ->; set_solver).
    assert (PPREV y ≠ lastc h xs) by (intros E; rewrite E in Hhd; by apply (Hd _ Hla)).
    rewrite (proj2 (Z.eqb_neq _ _) Hy).
    destruct Hcp as (E3 & E4 & _). run_cells. pose proof (Iy _ Hhd) as Hy'.
    eexists. split; [done|]. split_all; try done; [|decl; eauto..|intros z Hz; decl].
    eapply (is_hlist_remove m); [done| | |]; cbn [hd].
    + decl.
    + intros _. decl.
    + intros z Hz Hzl Hzy. specialize (Hzy ltac:(done)). decl.
Qed.

(** * Properties *)

(** [hlist_add_head], [hlist_add_before] and [hlist_add_after] insert a
    fresh node in front of the list, right before, and right after the given
    entry; every pointer-to-pointer stays consistent and no other cell of the
    memory changes. *)
Theorem hlist_add_spec m h xs e ys n :
  n ≠ 0 → is_Some (m !! NEXT n) → is_Some (m !! PPREV n) →
  NoDup (h :: cells (n :: xs ++ e :: ys)) → is_hlist m h (xs ++ e :: ys) →
  (∃ m', Hlist.hlist_add_head n h m = Some (tt, m') ∧
     is_hlist m' h (n :: xs ++ e :: ys) ∧
     ∀ z, z ∉ h :: cells (n :: xs ++ e :: ys) → m' !! z = m !! z) ∧
  (∃ m', Hlist.hlist_add_before n e m = Some (tt, m') ∧
     is_hlist m' h (xs ++ n :: e :: ys) ∧
     ∀ z, z ∉ h :: cells (xs ++ n :: e :: ys) → m' !! z = m !! z) ∧
  (∃ m', Hlist.hlist_add_after e n m = Some (tt, m') ∧
     is_hlist m' h (xs ++ e :: n :: ys)).
Proof.
  intros Hn0 Hn Hp Hnd Hl.
  assert (NoDup (h :: cells (xs ++ n :: e :: ys))) as Hndb.
  { eapply NoDup_cells_perm; [|exact Hnd]. solve_Permutation. }
  assert (NoDup (h :: cells ((xs ++ [e]) ++ n :: ys))) as Hnda.
  { eapply NoDup_cells_perm; [|exact Hnd]. solve_Permutation. }
  split_all.
  - by apply add_head_run.
  - by apply add_before_run.
  - destruct (add_after_run m h n Hn0 Hn Hp xs e ys) as (m' & Hr & Hl' & _); [|done|].
    + by rewrite <- app_assoc.
    + exists m'. by rewrite <- app_assoc in Hl'.
Qed.


(** [hlist_del] unlinks an entry from any position without knowing the head:
    the cell that pointed to it (a head's [first] or a neighbour's [next]) now
    points past it, and the node is poisoned; [hlist_del_init] instead clears
    the node, after which it reads as unhashed and deleting it again does
    nothing. *)
Theorem hlist_del_spec m h xs e ys :
  is_hlist m h (xs ++ e :: ys) → h ≠ 0 →
  (∃ m', Hlist.hlist_del e m = Some (tt, m') ∧ is_hlist m' h (xs ++ ys) ∧
     m' !! NEXT e = Some Hlist.LIST_POISON1 ∧
     m' !! PPREV e = Some Hlist.LIST_POISON2) ∧
  (∃ m', Hlist.hlist_del_init e m = Some (tt, m') ∧ is_hlist m' h (xs ++ ys) ∧
     Hlist.hlist_unhashed e m' = Some (true, m') ∧
     Hlist.hlist_del_init e m' = Some (tt, m')).
Proof.
  intros Hl Hh.
  destruct (__hlist_del_run m h xs e ys Hl) as (m1 & Hr & Hl1 & Hpp & A1 & A2 & N1 & N2 & _).
  assert (e ≠ PPREV e) by (unfold PPREV; lia).
  assert (lastc h xs ≠ 0) as Hc0.
  { destruct Hl as (_ & H0 & _).
    pose proof (lastc_elem h xs) as [->|?]%elem_of_cons; [done|].
    intros E. rewrite E in *. set_solver. }
  assert (∀ v w, is_hlist (<[PPREV e := w]> (<[NEXT e := v]> m1)) h (xs ++ ys)) as Hfr.
  { intros v w. eapply is_hlist_frame; [|exact Hl1]. unfold NEXT.
    intros z Hz. by rewrite !lookup_insert_ne by (intros <-; done). }
  unfold NEXT in *. split.
  - unfold Hlist.hlist_del. erewrite st_bind_eq by done. unfold NEXT. run_cells.
    eexists. split; [done|]. split_all; [done|decl|decl].
  - unfold Hlist.hlist_del_init. erewrite st_bind_eq by (by apply ld_eq).
    rewrite (proj2 (Z.eqb_neq _ _) Hc0). erewrite st_bind_eq by done.
    unfold Hlist.INIT_HLIST_NODE, Hlist.hlist_unhashed, NEXT. run_cells.
    eexists. split; [done|]. split; [done|].
    split; (erewrite st_bind_eq by (apply ld_eq, lookup_insert_eq); done).
Qed.

Lemma for_each_from_run m c ys fuel :
  chain m c ys → 0 ∉ ys → (length ys < fuel)%nat →
  Hlist.for_each_from fuel (hd 0 ys) m = Some (ys, m).
Proof.
  revert c fuel; induction ys as [|y ys IH]; intros c [|fuel] [Hp Hz] H0 Hf;
    simpl in *; try lia; [done|].
  apply not_elem_of_cons in H0 as [Hy H0].
  rewrite (proj2 (Z.eqb_neq _ _) (not_eq_sym Hy)).
  assert (chain m (NEXT y) ys) as Hc by (split; [apply Hp|done]).
  erewrite st_bind_eq by (by apply ld_eq, chain_hd).
  erewrite st_bind_eq; [done|]. by apply (IH (NEXT y)); [| |lia].
Qed.

(** With fuel beyond the number of nodes, [hlist_for_each] visits exactly
    the nodes of the list, in order, stops at [NULL] and changes nothing. *)
Theorem hlist_for_each_spec m h xs fuel :
  is_hlist m h xs → (length xs < fuel)%nat →
  Hlist.hlist_for_each fuel h m = Some (xs, m).
Proof.
  intros (_ & H0 & Hc) Hf. unfold Hlist.hlist_for_each.
  erewrite st_bind_eq by (by apply ld_eq, chain_hd).
  by apply (for_each_from_run m h).
Qed.

(** ** Concrete runs *)

#[export] Instance pre_dec m c xs : Decision (pre m c xs).
Proof. revert c; induction xs; intros c; simpl; apply _. Defined.
#[export] Instance is_hlist_dec m h xs : Decision (is_hlist m h xs).
Proof. unfold is_hlist, chain. apply _. Defined.

(** A head at 8 with the nodes 100, 200, 300, and the free node 400. *)
Definition demo_mem : mem :=
  let blank := list_to_map ((λ a, (a, 0)) <$>
                 [8; 100; 108; 200; 208; 300; 308; 400; 408]) in
  default ∅ (st_exec (
    Hlist.hlist_add_head 300 8 ;; Hlist.hlist_add_head 200 8 ;;
    Hlist.hlist_add_head 100 8) blank).


Lemma hlist_add_witness : ∃ m',
  Hlist.hlist_add_before 400 200 demo_mem = Some (tt, m') ∧
  is_hlist m' 8 [100; 400; 200; 300].
Proof.
  destruct (hlist_add_spec demo_mem 8 [100] 200 [300] 400)
    as (_ & (m' & H1 & H2 & _) & _); [by_computation..|eauto].
Defined.

Lemma hlist_del_witness : ∃ m',
  Hlist.hlist_del 200 demo_mem = Some (tt, m') ∧ is_hlist m' 8 [100; 300].
Proof.
  destruct (hlist_del_spec demo_mem 8 [100] 200 [300])
    as [(m' & H1 & H2 & _) _]; [by_computation..|eauto].
Defined.

Lemma hlist_for_each_witness :
  Hlist.hlist_for_each 4 8 demo_mem = Some ([100; 200; 300], demo_mem).
Proof. apply hlist_for_each_spec; [by_computation|simpl; lia]. Defined.
