(* ===== verification/KListEntry.v ===== *)
(** The iteration macros of the kernel lists over the structures that embed a node:
    [list_entry], [list_for_each_entry] and its variants, and their counterparts for hash
    lists, in
    [src/books/understanding_linux_networking/kernel_data_structures/list/list.h] and
    [.../hlist/list.h].

    A structure at address [p] has its node at [p + off], where [off] is the
    [offsetof (type, member)] of the macro.  The body of a loop is any program on a state
    in which the nodes of the lists live (class [Nodes], [Cells]); the rules below say what
    it has to keep so that the loop visits the entries of the list in order and ends.  The
    loops without [safe] read the link of an entry behind its body, the safe ones before
    the body, which may then unlink the entry and free it. *)

From S2P Require Import Prelude KList KHlist.

Local Open Scope Z_scope.

(** The nodes of doubly linked lists, and the cells of hash lists, in a larger state. *)
Class Nodes (S : Type) := nodes : S → store.
Class Cells (S : Type) := hcells : S → mem.
#[export] Instance store_nodes : Nodes store := λ st, st.
#[export] Instance mem_cells : Cells mem := λ m, m.

(** [list_entry], that is [container_of]. *)
Definition list_entry (ptr off : Z) : Z := ptr - off.

(** * list.h *)

Section entries.
Context {S : Type} `{Nodes S}.

Definition next_of (p : Z) : ST S Z := λ s, n ← nodes s !! p; Some (next n, s).
Definition prev_of (p : Z) : ST S Z := λ s, n ← nodes s !! p; Some (prev n, s).

(** The loop of the macros without [safe], along [link], which is [next_of] or
    [prev_of]; the result is the list of entries visited. *)
Fixpoint entries_from (link : Z → ST S Z) (fuel : nat) (head off : Z) (body : Z → ST S unit)
    (pos : Z) : ST S (list Z) :=
  match fuel with
  | O => st_fail
  | Datatypes.S f =>
      if pos + off =? head then mret []
      else body pos ;;
           n ← link (pos + off);
           rest ← entries_from link f head off body (list_entry n off);
           mret (pos :: rest)
  end.

(** [list_for_each_prev]: the nodes themselves. *)
Definition list_for_each_prev (fuel : nat) (head : Z) (body : Z → ST S unit) : ST S (list Z) :=
  pos ← prev_of head; entries_from prev_of fuel head 0 body pos.

Definition list_for_each_entry (fuel : nat) (head off : Z) (body : Z → ST S unit) : ST S (list Z) :=
  n ← next_of head; entries_from next_of fuel head off body (list_entry n off).
Definition list_for_each_entry_reverse (fuel : nat) (head off : Z) (body : Z → ST S unit)
    : ST S (list Z) :=
  n ← prev_of head; entries_from prev_of fuel head off body (list_entry n off).

(** [pos] or, when it is [NULL], the entry of the head itself. *)
Definition list_prepare_entry (pos head off : Z) : Z := if pos =? 0 then list_entry head off else pos.
Definition list_for_each_entry_continue (fuel : nat) (pos head off : Z) (body : Z → ST S unit)
    : ST S (list Z) :=
  n ← next_of (pos + off); entries_from next_of fuel head off body (list_entry n off).

(** The loop of the safe macros: [n] is the entry behind [pos], read before the body. *)
Fixpoint safe_from (link : Z → ST S Z) (fuel : nat) (head off : Z) (body : Z → ST S unit)
    (pos n : Z) : ST S (list Z) :=
  match fuel with
  | O => st_fail
  | Datatypes.S f =>
      if pos + off =? head then mret []
      else body pos ;;
           n' ← link (n + off);
           rest ← safe_from link f head off body n (list_entry n' off);
           mret (pos :: rest)
  end.

(** The initialisation they share: [pos] behind the node [start], and [n] behind [pos]. *)
Definition safe_start (link : Z → ST S Z) (fuel : nat) (start head off : Z) (body : Z → ST S unit)
    : ST S (list Z) :=
  p ← link start;
  let pos := list_entry p off in
  n ← link (pos + off);
  safe_from link fuel head off body pos (list_entry n off).

Definition list_for_each_entry_safe (fuel : nat) (head off : Z) (body : Z → ST S unit)
    : ST S (list Z) := safe_start next_of fuel head head off body.
Definition list_for_each_entry_safe_continue (fuel : nat) (pos head off : Z) (body : Z → ST S unit)
    : ST S (list Z) := safe_start next_of fuel (pos + off) head off body.
Definition list_for_each_entry_safe_reverse (fuel : nat) (head off : Z) (body : Z → ST S unit)
    : ST S (list Z) := safe_start prev_of fuel head head off body.
End entries.

(** * The hash list *)

Section hentries.
Context {S : Type} `{Cells S}.

Definition first_of (c : Z) : ST S Z := λ s, v ← hcells s !! c; Some (v, s).
Definition hnext_of (n : Z) : ST S Z := first_of (NEXT n).

(** The loop of [hlist_for_each_entry], [_continue] and [_from]. *)
Fixpoint hentries_from (fuel : nat) (off : Z) (body : Z → ST S unit) (pos : Z) : ST S (list Z) :=
  match fuel with
  | O => st_fail
  | Datatypes.S f =>
      if pos =? 0 then mret []
      else let tpos := list_entry pos off in
           body tpos ;;
           n ← hnext_of pos;
           rest ← hentries_from f off body n;
           mret (tpos :: rest)
  end.
Definition hlist_for_each_entry (fuel : nat) (head off : Z) (body : Z → ST S unit) : ST S (list Z) :=
  pos ← first_of head; hentries_from fuel off body pos.
Definition hlist_for_each_entry_continue (fuel : nat) (pos off : Z) (body : Z → ST S unit)
    : ST S (list Z) :=
  n ← hnext_of pos; hentries_from fuel off body n.
Definition hlist_for_each_entry_from (fuel : nat) (pos off : Z) (body : Z → ST S unit)
    : ST S (list Z) := hentries_from fuel off body pos.

(** The safe loop reads [n] in its test. *)
Fixpoint hsafe_from (fuel : nat) (off : Z) (body : Z → ST S unit) (pos : Z) : ST S (list Z) :=
  match fuel with
  | O => st_fail
  | Datatypes.S f =>
      if pos =? 0 then mret []
      else n ← hnext_of pos;
           let tpos := list_entry pos off in
           body tpos ;;
           rest ← hsafe_from f off body n;
           mret (tpos :: rest)
  end.
Definition hlist_for_each_entry_safe (fuel : nat) (head off : Z) (body : Z → ST S unit)
    : ST S (list Z) := pos ← first_of head; hsafe_from fuel off body pos.
(** [hlist_for_each_safe]: the nodes themselves. *)
Definition hlist_for_each_safe (fuel : nat) (head : Z) (body : Z → ST S unit) : ST S (list Z) :=
  pos ← first_of head; hsafe_from fuel 0 body pos.
End hentries.

(** * Rules for the loops *)

Lemma entry_add (x off : Z) : list_entry x off + off = x.
Proof. unfold list_entry. lia. Qed.

Section rules.
Context {S : Type} `{Nodes S} (link : Z → ST S Z) (head off : Z) (body : Z → ST S unit).
Context (xs : list Z).
Hypothesis Hhead : head ∉ xs.

(** [I ys s] is the invariant of the loop behind the entries [ys]. *)
Lemma entries_rule (I : list Z → S → Prop) :
  (∀ ys x zs s, xs = ys ++ x :: zs → I ys s →
     ∃ s', body (list_entry x off) s = Some (tt, s') ∧ I (ys ++ [x]) s' ∧
       link x s' = Some (hd head zs, s')) →
  ∀ zs ys s fuel, xs = ys ++ zs → I ys s → (length zs < fuel)%nat →
    ∃ s', entries_from link fuel head off body (list_entry (hd head zs) off) s =
            Some ((λ x, list_entry x off) <$> zs, s') ∧ I xs s'.
Proof using Hhead.
  intros Hbody zs. induction zs as [|x zs IH]; intros ys s [|fuel] Hxs HI Hf; simpl in Hf; try lia.
  - simpl. rewrite entry_add, Z.eqb_refl. exists s. split; [done|].
    by rewrite app_nil_r in Hxs; subst.
  - simpl. rewrite entry_add, (proj2 (Z.eqb_neq x head)) by set_solver.
    destruct (Hbody ys x zs s Hxs HI) as (s1 & Hb & HI1 & Hl).
    rewrite (st_bind_eq _ _ _ _ _ Hb), (st_bind_eq _ _ _ _ _ Hl).
    destruct (IH (ys ++ [x]) s1 fuel) as (s' & Hr & HI'); [by rewrite <- app_assoc|done|lia|].
    exists s'. by rewrite (st_bind_eq _ _ _ _ _ Hr).
Qed.

(** [I ys zs s]: behind the entries [ys], with the entries [zs] to come.  The link of the
    entry to come, or of the head, can be read. *)
Lemma safe_rule (I : list Z → list Z → S → Prop) :
  (∀ ys zs s, I ys zs s → ∃ m, link (hd head zs) s = Some (m, s) ∧
     match zs with [] => True | _ :: zs => m = hd head zs end) →
  (∀ ys x zs s, xs = ys ++ x :: zs → I ys (x :: zs) s →
     ∃ s', body (list_entry x off) s = Some (tt, s') ∧ I (ys ++ [x]) zs s') →
  ∀ zs ys s m fuel, xs = ys ++ zs → I ys zs s → (length zs < fuel)%nat →
    match zs with [] => True | _ :: zs => m = hd head zs end →
    ∃ s', safe_from link fuel head off body (list_entry (hd head zs) off) (list_entry m off) s =
            Some ((λ x, list_entry x off) <$> zs, s') ∧ I xs [] s'.
Proof using Hhead.
  intros Hlink Hbody zs. induction zs as [|x zs IH]; intros ys s m [|fuel] Hxs HI Hf Hm; simpl in Hf; try lia.
  - simpl. rewrite entry_add, Z.eqb_refl. exists s. split; [done|].
    by rewrite app_nil_r in Hxs; subst.
  - simpl. rewrite !entry_add, (proj2 (Z.eqb_neq x head)) by set_solver.
    destruct (Hbody ys x zs s Hxs HI) as (s1 & Hb & HI1). rewrite (st_bind_eq _ _ _ _ _ Hb).
    destruct (Hlink _ _ _ HI1) as (m' & Hl & Hm'). rewrite Hm, (st_bind_eq _ _ _ _ _ Hl).
    destruct (IH (ys ++ [x]) s1 m' fuel) as (s' & Hr & HI'); [by rewrite <- app_assoc|done|lia|done|].
    exists s'. by rewrite (st_bind_eq _ _ _ _ _ Hr).
Qed.

(** The same with the initialisation. *)
Lemma safe_start_rule (I : list Z → list Z → S → Prop) start s fuel :
  (∀ ys zs s, I ys zs s → ∃ m, link (hd head zs) s = Some (m, s) ∧
     match zs with [] => True | _ :: zs => m = hd head zs end) →
  (∀ ys x zs s, xs = ys ++ x :: zs → I ys (x :: zs) s →
     ∃ s', body (list_entry x off) s = Some (tt, s') ∧ I (ys ++ [x]) zs s') →
  link start s = Some (hd head xs, s) → I [] xs s → (length xs < fuel)%nat →
  ∃ s', safe_start link fuel start head off body s = Some ((λ x, list_entry x off) <$> xs, s') ∧ I xs [] s'.
Proof using Hhead.
  intros Hlink Hbody Hs HI Hf. unfold safe_start. rewrite (st_bind_eq _ _ _ _ _ Hs). cbv beta zeta.
  rewrite entry_add. destruct (Hlink _ _ _ HI) as (m & Hl & Hm). rewrite (st_bind_eq _ _ _ _ _ Hl).
  by apply (safe_rule I Hlink Hbody xs []).
Qed.
End rules.

(** * The loops over a list *)

Lemma lastn_reverse a xs : lastn a xs = hd a (reverse xs).
Proof.
  destruct (last_snoc_dec xs) as [->|(ys & y & ->)]; [done|].
  by rewrite lastn_app, reverse_snoc.
Qed.

(** The list in the order of a loop: from the front along [next], or from the end along
    [prev]. *)
Definition in_order (fwd : bool) (xs : list Z) : list Z := if fwd then xs else reverse xs.

Section list_loops.
Context {S : Type} `{Nodes S} (fwd : bool) (head off : Z) (body : Z → ST S unit).
Let link : Z → ST S Z := if fwd then next_of else prev_of.

Lemma link_first s xs :
  is_list (nodes s) head xs → link head s = Some (hd head (in_order fwd xs), s).
Proof.
  intros Hl. unfold link, next_of, prev_of. destruct fwd; simpl.
  - pose proof (is_list_first _ _ _ Hl) as Hn. destruct (nodes s !! head); simpl in *; congruence.
  - pose proof (is_list_last _ _ _ Hl) as Hn. rewrite lastn_reverse in Hn.
    destruct (nodes s !! head); simpl in *; congruence.
Qed.

(** The link of an entry leads to what comes behind it in the order of the loop. *)
Lemma link_entry s ys x zs :
  is_list (nodes s) head (in_order fwd (ys ++ x :: zs)) →
  link x s = Some (hd head zs, s).
Proof.
  intros Hl. unfold link, next_of, prev_of. destruct fwd; simpl in *.
  - pose proof (is_list_next _ _ _ _ _ Hl) as Hn. destruct (nodes s !! x); simpl in *; congruence.
  - rewrite reverse_app, reverse_cons, <- app_assoc in Hl. simpl in Hl.
    pose proof (is_list_prev _ _ _ _ _ Hl) as Hn. rewrite lastn_reverse, reverse_involutive in Hn.
    destruct (nodes s !! x); simpl in *; congruence.
Qed.

Lemma in_order_involutive xs : in_order fwd (in_order fwd xs) = xs.
Proof. destruct fwd; [done|apply reverse_involutive]. Qed.
Lemma in_order_length xs : length (in_order fwd xs) = length xs.
Proof. destruct fwd; [done|apply length_reverse]. Qed.
Lemma head_not_in_order st xs : is_list st head xs → head ∉ in_order fwd xs.
Proof.
  intros [[Hh _]%NoDup_cons _]. destruct fwd; simpl; [done|by rewrite elem_of_reverse].
Qed.

(** A loop whose body keeps the list. *)
Lemma list_loop (J : list Z → S → Prop) xs start ys zs s fuel :
  in_order fwd xs = ys ++ zs →
  (∀ ys x zs s, in_order fwd xs = ys ++ x :: zs → is_list (nodes s) head xs → J ys s →
     ∃ s', body (list_entry x off) s = Some (tt, s') ∧ is_list (nodes s') head xs ∧ J (ys ++ [x]) s') →
  is_list (nodes s) head xs → J ys s → link start s = Some (hd head zs, s) → (length zs < fuel)%nat →
  ∃ s', (n ← link start; entries_from link fuel head off body (list_entry n off)) s =
          Some ((λ x, list_entry x off) <$> zs, s') ∧
        is_list (nodes s') head xs ∧ J (in_order fwd xs) s'.
Proof.
  intros Hxs Hbody Hl HJ Hs Hf. rewrite (st_bind_eq _ _ _ _ _ Hs).
  apply (entries_rule link head off body (in_order fwd xs) (head_not_in_order _ _ Hl)
           (λ ys s, is_list (nodes s) head xs ∧ J ys s)) with (ys := ys); [|done|done|done].
  intros ys' x zs' s1 Hx [Hl1 HJ1]. destruct (Hbody ys' x zs' s1 Hx Hl1 HJ1) as (s2 & Hb & Hl2 & HJ2).
  exists s2. split_all; [done|done|done|]. apply (link_entry s2 ys'). by rewrite <- Hx, in_order_involutive.
Qed.

(** A loop whose body may unlink the entry it is called for: behind the entries visited,
    those to come are the end of the list. *)
Definition to_come (zs : list Z) (s : S) : Prop :=
  ∃ ks, is_list (nodes s) head (in_order fwd (ks ++ zs)).

Lemma to_come_link zs s :
  to_come zs s → ∃ m, link (hd head zs) s = Some (m, s) ∧
    match zs with [] => True | _ :: zs => m = hd head zs end.
Proof.
  intros [ks Hl]. destruct zs as [|z zs].
  - simpl. eexists. split; [by apply (link_first s _ Hl)|done].
  - exists (hd head zs). simpl. by rewrite (link_entry s ks z zs).
Qed.

Lemma safe_loop (J : list Z → list Z → S → Prop) xs start s fuel :
  head ∉ xs →
  (∀ ys x zs s, xs = ys ++ x :: zs → to_come (x :: zs) s → J ys (x :: zs) s →
     ∃ s', body (list_entry x off) s = Some (tt, s') ∧ to_come zs s' ∧ J (ys ++ [x]) zs s') →
  to_come xs s → J [] xs s → link start s = Some (hd head xs, s) → (length xs < fuel)%nat →
  ∃ s', safe_start link fuel start head off body s = Some ((λ x, list_entry x off) <$> xs, s') ∧
        to_come [] s' ∧ J xs [] s'.
Proof.
  intros Hh Hbody Hl HJ Hs Hf.
  apply (safe_start_rule link head off body xs Hh (λ ys zs s, to_come zs s ∧ J ys zs s)); try done.
  - intros ys zs s1 [Hc _]. by apply to_come_link.
  - intros ys x zs s1 Hx [Hc HJ1]. destruct (Hbody ys x zs s1 Hx Hc HJ1) as (s2 & ? & ? & ?). by exists s2.
Qed.
End list_loops.

(** The loops over the entries of a list, along [next] or along [prev]. If the body
    keeps the list well formed (it may change everything else), the loop ends, with more
    fuel than there are entries, and calls the body for every structure of the list once,
    in order or in reverse order; an invariant [J] of what the bodies have done so far
    holds in the end. [list_for_each_prev] does the same with the nodes themselves. *)
Theorem list_for_each_entry_spec {S} `{Nodes S} (J : list Z → S → Prop) fwd head off body xs s fuel :
  (∀ ys x zs s, in_order fwd xs = ys ++ x :: zs → is_list (nodes s) head xs → J ys s →
     ∃ s', body (list_entry x off) s = Some (tt, s') ∧ is_list (nodes s') head xs ∧ J (ys ++ [x]) s') →
  is_list (nodes s) head xs → J [] s → (length xs < fuel)%nat →
  ∃ s', (if fwd then list_for_each_entry fuel head off body
         else list_for_each_entry_reverse fuel head off body) s =
          Some ((λ x, list_entry x off) <$> in_order fwd xs, s') ∧
        is_list (nodes s') head xs ∧ J (in_order fwd xs) s' ∧
        (off = 0 → list_for_each_prev fuel head body s =
                   list_for_each_entry_reverse fuel head off body s).
Proof.
  intros Hbody Hl HJ Hf.
  destruct (list_loop fwd head off body J xs head [] (in_order fwd xs) s fuel) as (s' & Hr & Hl' & HJ');
    [done|done|done|done|by apply link_first|by rewrite in_order_length|].
  exists s'. split_all; [by destruct fwd|done|done|].
  intros ->. unfold list_for_each_prev, list_for_each_entry_reverse.
  rewrite !(st_bind_eq _ _ _ _ _ (link_first false head s xs Hl)). unfold list_entry. by rewrite Z.sub_0_r.
Qed.

(** Continuing behind an entry visits the rest; behind what [list_prepare_entry] makes of
    [NULL], everything. *)
Lemma continue_spec {S} `{Nodes S} (J : list Z → S → Prop) head off body xs ys pos zs s fuel :
  (∀ ys x zs s, xs = ys ++ x :: zs → is_list (nodes s) head xs → J ys s →
     ∃ s', body (list_entry x off) s = Some (tt, s') ∧ is_list (nodes s') head xs ∧ J (ys ++ [x]) s') →
  is_list (nodes s) head xs → J ys s → (length zs < fuel)%nat →
  (pos = list_prepare_entry 0 head off ∧ ys = [] ∧ xs = zs) ∨
  (∃ x ks, pos = list_entry x off ∧ ys = ks ++ [x] ∧ xs = ks ++ x :: zs) →
  ∃ s', list_for_each_entry_continue fuel pos head off body s =
          Some ((λ x, list_entry x off) <$> zs, s') ∧ is_list (nodes s') head xs ∧ J xs s'.
Proof.
  intros Hbody Hl HJ Hf Hpos. unfold list_for_each_entry_continue.
  apply (list_loop true head off body J xs (pos + off) ys zs s fuel); try done; simpl.
  - destruct Hpos as [(_ & -> & ->)|(x & ks & _ & -> & ->)]; [done|by rewrite <- app_assoc].
  - destruct Hpos as [(-> & -> & ->)|(x & ks & -> & -> & ->)];
      [unfold list_prepare_entry; simpl|]; rewrite entry_add.
    + by apply (link_first true).
    + by apply (link_entry true head s ks).
Qed.

(** The safe loops, along [next] or [prev]. The body may unlink the entry it is called
    for and free its structure: all it has to keep is that the entries to come are the end
    of the list. The loop then visits every structure that was in the list at its start. *)
Theorem list_for_each_entry_safe_spec {S} `{Nodes S} (J : list Z → list Z → S → Prop) fwd head off body
    xs s fuel :
  (∀ ys x zs s, in_order fwd xs = ys ++ x :: zs → to_come fwd head (x :: zs) s → J ys (x :: zs) s →
     ∃ s', body (list_entry x off) s = Some (tt, s') ∧ to_come fwd head zs s' ∧ J (ys ++ [x]) zs s') →
  is_list (nodes s) head xs → J [] (in_order fwd xs) s → (length xs < fuel)%nat →
  ∃ s', (if fwd then list_for_each_entry_safe fuel head off body
         else list_for_each_entry_safe_reverse fuel head off body) s =
          Some ((λ x, list_entry x off) <$> in_order fwd xs, s') ∧
        to_come fwd head [] s' ∧ J (in_order fwd xs) [] s'.
Proof.
  intros Hbody Hl HJ Hf.
  destruct (safe_loop fwd head off body J (in_order fwd xs) head s fuel) as (s' & Hr & Hc & HJ').
  - by apply (head_not_in_order fwd head (nodes s)).
  - done.
  - exists []. simpl. by rewrite in_order_involutive.
  - done.
  - by apply link_first.
  - by rewrite in_order_length.
  - exists s'. split_all; [by destruct fwd|done|done].
Qed.

(** * The loops over a hash list *)

Lemma hlist_next m c ks x zs : is_hlist m c (ks ++ x :: zs) → m !! NEXT x = Some (hd 0 zs).
Proof.
  intros (_ & _ & Hc). change (x :: zs) with ([x] ++ zs) in Hc. rewrite app_assoc in Hc.
  apply chain_cut in Hc as [_ Hc]. rewrite lastc_app in Hc. simpl in Hc. by apply chain_hd.
Qed.

Section hlist_loops.
Context {S : Type} `{Cells S} (head off : Z) (body : Z → ST S unit).

Lemma first_of_eq c v s : hcells s !! c = Some v → first_of c s = Some (v, s).
Proof. intros Hc. unfold first_of. by rewrite Hc. Qed.

(** The loop without [safe], from any position: the body keeps the list. *)
Lemma hentries_rule (J : list Z → S → Prop) xs :
  (∀ ys x zs s, xs = ys ++ x :: zs → is_hlist (hcells s) head xs → J ys s →
     ∃ s', body (list_entry x off) s = Some (tt, s') ∧ is_hlist (hcells s') head xs ∧ J (ys ++ [x]) s') →
  ∀ zs ys s fuel, xs = ys ++ zs → is_hlist (hcells s) head xs → J ys s → (length zs < fuel)%nat →
    ∃ s', hlist_for_each_entry_from fuel (hd 0 zs) off body s =
            Some ((λ x, list_entry x off) <$> zs, s') ∧ is_hlist (hcells s') head xs ∧ J xs s'.
Proof.
  intros Hbody zs. unfold hlist_for_each_entry_from.
  induction zs as [|x zs IH]; intros ys s [|fuel] Hxs Hl HJ Hf; simpl in Hf; try lia.
  - exists s. rewrite app_nil_r in Hxs. by subst.
  - assert (x ≠ 0) as Hx by (destruct Hl as (_ & H0 & _); set_solver).
    simpl. rewrite (proj2 (Z.eqb_neq x 0) Hx).
    destruct (Hbody ys x zs s Hxs Hl HJ) as (s1 & Hb & Hl1 & HJ1).
    rewrite (st_bind_eq _ _ _ _ _ Hb).
    assert (hnext_of x s1 = Some (hd 0 zs, s1)) as Hn
      by (apply first_of_eq, (hlist_next _ head ys); by rewrite <- Hxs).
    rewrite (st_bind_eq _ _ _ _ _ Hn).
    destruct (IH (ys ++ [x]) s1 fuel) as (s' & Hr & HI'); [by rewrite <- app_assoc|done|done|lia|].
    exists s'. by rewrite (st_bind_eq _ _ _ _ _ Hr).
Qed.

(** The safe loop: the entries to come stay the end of the list. *)
Definition hto_come (zs : list Z) (s : S) : Prop := ∃ ks, is_hlist (hcells s) head (ks ++ zs).

Lemma hsafe_rule (J : list Z → list Z → S → Prop) xs :
  (∀ ys x zs s, xs = ys ++ x :: zs → hto_come (x :: zs) s → J ys (x :: zs) s →
     ∃ s', body (list_entry x off) s = Some (tt, s') ∧ hto_come zs s' ∧ J (ys ++ [x]) zs s') →
  ∀ zs ys s fuel, xs = ys ++ zs → hto_come zs s → J ys zs s → (length zs < fuel)%nat →
    ∃ s', hsafe_from fuel off body (hd 0 zs) s = Some ((λ x, list_entry x off) <$> zs, s') ∧
          hto_come [] s' ∧ J xs [] s'.
Proof.
  intros Hbody zs.
  induction zs as [|x zs IH]; intros ys s [|fuel] Hxs Hl HJ Hf; simpl in Hf; try lia.
  - exists s. rewrite app_nil_r in Hxs. by subst.
  - destruct Hl as [ks Hl]. assert (x ≠ 0) as Hx by (destruct Hl as (_ & H0 & _); set_solver).
    simpl. rewrite (proj2 (Z.eqb_neq x 0) Hx).
    assert (hnext_of x s = Some (hd 0 zs, s)) as Hn by (by apply first_of_eq, (hlist_next _ head ks)).
    rewrite (st_bind_eq _ _ _ _ _ Hn).
    destruct (Hbody ys x zs s Hxs) as (s1 & Hb & Hl1 & HJ1); [by exists ks|done|].
    rewrite (st_bind_eq _ _ _ _ _ Hb).
    destruct (IH (ys ++ [x]) s1 fuel) as (s' & Hr & HI'); [by rewrite <- app_assoc|done|done|lia|].
    exists s'. by rewrite (st_bind_eq _ _ _ _ _ Hr).
Qed.
End hlist_loops.

(** The loops over the structures of a hash list. [hlist_for_each_entry] and its two
    variants that start at a node, or behind it, visit the rest of the list in order when
    the body keeps the list; [hlist_for_each_entry_safe] visits every structure even if
    the body unlinks it, as long as the entries to come stay the end of the list. *)
Theorem hlist_for_each_entry_spec {S} `{Cells S} head off body xs s fuel
    (J : list Z → S → Prop) (K : list Z → list Z → S → Prop) body' :
  (∀ ys x zs s, xs = ys ++ x :: zs → is_hlist (hcells s) head xs → J ys s →
     ∃ s', body (list_entry x off) s = Some (tt, s') ∧ is_hlist (hcells s') head xs ∧ J (ys ++ [x]) s') →
  (∀ ys x zs s, xs = ys ++ x :: zs → hto_come head (x :: zs) s → K ys (x :: zs) s →
     ∃ s', body' (list_entry x off) s = Some (tt, s') ∧ hto_come head zs s' ∧ K (ys ++ [x]) zs s') →
  is_hlist (hcells s) head xs → J [] s → K [] xs s → (length xs < fuel)%nat →
  (∃ s', hlist_for_each_entry fuel head off body s = Some ((λ x, list_entry x off) <$> xs, s') ∧
         is_hlist (hcells s') head xs ∧ J xs s') ∧
  (∀ ys x zs, xs = ys ++ x :: zs → J ys s →
     ∃ s', hlist_for_each_entry_from fuel x off body s =
             Some ((λ x, list_entry x off) <$> x :: zs, s') ∧ is_hlist (hcells s') head xs ∧ J xs s') ∧
  (∀ ys x zs, xs = ys ++ x :: zs → J (ys ++ [x]) s →
     ∃ s', hlist_for_each_entry_continue fuel x off body s =
             Some ((λ x, list_entry x off) <$> zs, s') ∧ is_hlist (hcells s') head xs ∧ J xs s') ∧
  (∃ s', hlist_for_each_entry_safe fuel head off body' s = Some ((λ x, list_entry x off) <$> xs, s') ∧
         hto_come head [] s' ∧ K xs [] s').
Proof.
  intros Hbody Hbody' Hl HJ HK Hf.
  assert (first_of head s = Some (hd 0 xs, s)) as Hfirst
    by (apply first_of_eq; destruct Hl as (_ & _ & Hc); by apply chain_hd).
  split_all.
  - unfold hlist_for_each_entry. rewrite (st_bind_eq _ _ _ _ _ Hfirst).
    by apply (hentries_rule head off body J xs Hbody xs []).
  - intros ys x zs Hxs HJ'. apply (hentries_rule head off body J xs Hbody (x :: zs) ys); try done.
    rewrite Hxs, length_app in Hf. simpl in *. lia.
  - intros ys x zs Hxs HJ'. unfold hlist_for_each_entry_continue.
    assert (hnext_of x s = Some (hd 0 zs, s)) as Hn
      by (apply first_of_eq, (hlist_next _ head ys); by rewrite <- Hxs).
    rewrite (st_bind_eq _ _ _ _ _ Hn).
    apply (hentries_rule head off body J xs Hbody zs (ys ++ [x])); try done.
    + by rewrite <- app_assoc.
    + rewrite Hxs, length_app in Hf. simpl in *. lia.
  - unfold hlist_for_each_entry_safe. rewrite (st_bind_eq _ _ _ _ _ Hfirst).
    apply (hsafe_rule head off body' K xs Hbody' xs []); try done. by exists [].
Qed.

(** * Witnesses *)

(** A body that does nothing. *)
Definition skip {S} (_ : Z) : ST S unit := mret tt.

Lemma list_for_each_entry_witness :
  is_Some (list_for_each_entry_reverse 4 1 8 (skip (S := store)) demo_store) ∧
  is_Some (list_for_each_prev 4 1 (skip (S := store)) demo_store).
Proof.
  assert (is_list demo_store 1 [2; 3; 4]) as Hl by by_computation.
  split.
  - destruct (list_for_each_entry_spec (λ _ _, True) false 1 8 skip [2; 3; 4] demo_store 4)
      as (s' & -> & _); [|done|done|simpl; lia|by eexists].
    intros ys x zs s _ Hs _. by exists s.
  - destruct (list_for_each_entry_spec (λ _ _, True) false 1 0 skip [2; 3; 4] demo_store 4)
      as (s' & Hr & _ & _ & Heq); [|done|done|simpl; lia|rewrite (Heq eq_refl); eexists; exact Hr].
    intros ys x zs s _ Hs _. by exists s.
Defined.

(** Unlinking every entry, from the end. *)
Lemma list_for_each_entry_safe_witness : ∃ s',
  list_for_each_entry_safe_reverse 4 1 8 (λ p, ListH.list_del (p + 8)) demo_store =
    Some ([-4; -5; -6], s') ∧ to_come false 1 [] s'.
Proof.
  destruct (list_for_each_entry_safe_spec (λ _ _ _, True) false 1 8 (λ p, ListH.list_del (p + 8))
    [2; 3; 4] demo_store 4) as (s' & Hr & Hc & _); [|by_computation|done|simpl; lia|by exists s'].
  intros ys x zs s _ [ks Hl] _. rewrite entry_add. simpl in Hl.
  rewrite reverse_app, reverse_cons, <- app_assoc in Hl. simpl in Hl.
  destruct (list_del_is_list _ _ _ _ _ Hl) as (s' & Hr & Hl' & _).
  exists s'. split_all; [done| |done]. exists ks. simpl. by rewrite reverse_app.
Defined.

Lemma hlist_for_each_entry_witness :
  is_Some (hlist_for_each_entry 4 8 16 (skip (S := mem)) demo_mem).
Proof.
  destruct (hlist_for_each_entry_spec 8 16 skip [100; 200; 300] demo_mem 4
    (λ _ _, True) (λ _ _ _, True) skip) as ((s' & -> & _) & _);
    [| |by_computation|done|done|simpl; lia|by eexists].
  - intros ys x zs s _ Hs _. by exists s.
  - intros ys x zs s _ [ks Hs] _. exists s. split_all; [done| |done].
    exists (ks ++ [x]). by rewrite <- app_assoc.
Defined.
