(* ===== verification/ListDemo.v ===== *)
(** The employee list of
    [src/books/understanding_linux_networking/kernel_data_structures/list/list_demo.cpp]: a
    list of persons, each with a list of patents, built with [malloc], printed and deleted
    again; a client of [KList] and [KListEntry]. *)

From S2P Require Import Prelude KList KHlist KListEntry.
From stdpp Require Import pretty.

Local Open Scope Z_scope.

(** * The program *)

(** [struct person]: [name] is behind the start, [list] at 24 and [patent_list] at 40;
    [struct patent]: [id] at the start and [list] at 8. *)
Definition person_list : Z := 24.
Definition patent_list : Z := 40.
Definition patent_node : Z := 8.
Definition sizeof_person : Z := 56.
Definition sizeof_patent : Z := 24.

(** The address of the variable [employees]. *)
Definition employees : Z := 16.

(** The fields that are not nodes; [None] is a field that has not been assigned. *)
Record person := mk_person { p_name : option string; p_age : option Z }.

(** The memory: the nodes, the other fields of the structures that are allocated, and the
    end of the heap; [d_out] are the pieces printed. *)
Record demo := mk_demo {
  d_links : store;
  d_person : gmap Z person;
  d_patent : gmap Z (option Z);
  d_brk : Z;
  d_out : list string
}.
#[export] Instance demo_nodes : Nodes demo := d_links.

Definition on_links {A} (m : ST store A) : ST demo A := λ s,
  match m (d_links s) with
  | Some (a, l) => Some (a, mk_demo l (d_person s) (d_patent s) (d_brk s) (d_out s))
  | None => None
  end.

(** [malloc] gives memory that was never in use; the fields have no value, and the nodes
    point nowhere. *)
Definition raw_node : list_head := mk_list_head 0 0.
Definition malloc_person : ST demo Z := λ s,
  let p := d_brk s in
  Some (p, mk_demo (<[p + person_list := raw_node]> (<[p + patent_list := raw_node]> (d_links s)))
             (<[p := mk_person None None]> (d_person s)) (d_patent s) (p + sizeof_person) (d_out s)).
Definition malloc_patent : ST demo Z := λ s,
  let q := d_brk s in
  Some (q, mk_demo (<[q + patent_node := raw_node]> (d_links s)) (d_person s)
             (<[q := None]> (d_patent s)) (q + sizeof_patent) (d_out s)).

(** [free] needs memory that is allocated. *)
Definition free_person (p : Z) : ST demo unit := λ s,
  _ ← d_person s !! p;
  Some (tt, mk_demo (delete (p + person_list) (delete (p + patent_list) (d_links s)))
              (delete p (d_person s)) (d_patent s) (d_brk s) (d_out s)).
Definition free_patent (q : Z) : ST demo unit := λ s,
  _ ← d_patent s !! q;
  Some (tt, mk_demo (delete (q + patent_node) (d_links s)) (d_person s) (delete q (d_patent s))
              (d_brk s) (d_out s)).

(** [strcpy] into the ten bytes of [name], which have to hold the terminating zero too. *)
Definition set_person (p : Z) (name : string) (age : Z) : ST demo unit := λ s,
  _ ← d_person s !! p;
  if (String.length name <? 10)%nat then
    Some (tt, mk_demo (d_links s) (<[p := mk_person (Some name) (Some age)]> (d_person s))
                (d_patent s) (d_brk s) (d_out s))
  else None.
Definition set_id (q id : Z) : ST demo unit := λ s,
  _ ← d_patent s !! q;
  Some (tt, mk_demo (d_links s) (d_person s) (<[q := Some id]> (d_patent s)) (d_brk s) (d_out s)).

Definition get_name (p : Z) : ST demo string := λ s,
  r ← d_person s !! p; n ← p_name r; Some (n, s).
Definition get_age (p : Z) : ST demo Z := λ s,
  r ← d_person s !! p; a ← p_age r; Some (a, s).
Definition get_id (q : Z) : ST demo Z := λ s,
  r ← d_patent s !! q; i ← r; Some (i, s).
Definition print (l : list string) : ST demo unit :=
  st_modify (λ s, mk_demo (d_links s) (d_person s) (d_patent s) (d_brk s) (d_out s ++ l)).

(** The loops of [main] that build the lists; [age] and [patent_id] are [size_t]. *)
Definition new_patent (p id : Z) : ST demo unit :=
  q ← malloc_patent;
  set_id q id ;;
  on_links (ListH.INIT_LIST_HEAD (q + patent_node)) ;;
  on_links (ListH.list_add_tail (q + patent_node) (p + patent_list)).
Fixpoint new_patents (n : nat) (p patent_id : Z) : ST demo Z :=
  match n with
  | O => mret patent_id
  | S n => new_patent p patent_id ;; new_patents n p (u64 (patent_id + 1))
  end.
Definition new_person (name : string) (age : Z) : ST demo Z :=
  p ← malloc_person;
  set_person p name age ;;
  on_links (ListH.INIT_LIST_HEAD (p + person_list)) ;;
  on_links (ListH.INIT_LIST_HEAD (p + patent_list)) ;;
  on_links (ListH.list_add_tail (p + person_list) employees) ;;
  mret p.
Fixpoint build (names : list string) (age patent_id : Z) : ST demo unit :=
  match names with
  | [] => mret tt
  | name :: names =>
      p ← new_person name age;
      patent_id ← new_patents 10 p patent_id;
      build names (u64 (age + 1)) patent_id
  end.

Definition endl : string := String (Ascii.ascii_of_nat 10) "".

(** The bodies of the printing loops. *)
Definition print_patent (p q : Z) : ST demo unit :=
  id ← get_id q;
  print [pretty id] ;;
  n ← next_of (q + patent_node);
  if n =? p + patent_list then mret tt else print [", "]%string.
Definition print_person (fuel : nat) (p : Z) : ST demo unit :=
  print ["================="; endl]%string ;;
  name ← get_name p;
  age ← get_age p;
  print ["Employee: "; name; ", age "; pretty age; endl]%string ;;
  print ["Patents: "]%string ;;
  list_for_each_entry fuel (p + patent_list) patent_node (print_patent p) ;;
  print [endl].

(** The bodies of the deleting loops. *)
Definition delete_patent (q : Z) : ST demo unit :=
  id ← get_id q;
  print ["Deleting "; pretty id; endl]%string ;;
  on_links (ListH.list_del (q + patent_node)) ;;
  free_patent q.
Definition delete_person (fuel : nat) (p : Z) : ST demo unit :=
  name ← get_name p;
  print ["Deleting "; name; endl]%string ;;
  list_for_each_entry_safe fuel (p + patent_list) patent_node delete_patent ;;
  on_links (ListH.list_del (p + person_list)) ;;
  free_person p.

Definition main (fuel : nat) (names : list string) : ST demo unit :=
  on_links (ListH.INIT_LIST_HEAD employees) ;;
  build names 30 10010 ;;
  list_for_each_entry fuel employees person_list (print_person fuel) ;;
  list_for_each_entry_safe fuel employees person_list (delete_person fuel) ;;
  mret tt.

(** At the start: the variable [employees] and an empty heap behind it. *)
Definition start : demo := mk_demo {[employees := raw_node]} ∅ ∅ 64 [].
Definition names : list string := ["Alice"; "Bob"; "Cat"; "David"].

(** * Disjoint lists in one store *)

Definition members (ls : list (Z * list Z)) : list Z := ls ≫= λ l, l.1 :: l.2.

(** The store consists of the nodes of the lists [ls], each of them well formed. *)
Record family (st : store) (ls : list (Z * list Z)) : Prop := {
  fam_nodup : NoDup (members ls);
  fam_list : ∀ h xs, (h, xs) ∈ ls → is_list st h xs;
  fam_dom : ∀ z, is_Some (st !! z) ↔ z ∈ members ls
}.

#[export] Instance members_perm : Proper ((≡ₚ) ==> (≡ₚ)) members.
Proof. intros l l' Hl. unfold members. by rewrite Hl. Qed.

(** The order of the lists does not matter. *)
#[export] Instance family_perm st : Proper ((≡ₚ) ==> iff) (family st).
Proof.
  assert (∀ l l', l ≡ₚ l' → family st l → family st l') as H.
  { intros l l' Hl [Hn Hs Hd]. split.
    - by rewrite <- Hl.
    - intros h xs. rewrite <- Hl. apply Hs.
    - intros z. rewrite <- Hl. apply Hd. }
  intros l l' Hl. split; by apply H.
Qed.

Lemma members_in ls h xs z : (h, xs) ∈ ls → z ∈ h :: xs → z ∈ members ls.
Proof. intros Hl Hz. apply list_elem_of_bind. by exists (h, xs). Qed.

(** A step that changes only nodes of other lists. *)
Lemma others_kept (st st' : store) (zs : list Z) ls :
  (∀ h xs, (h, xs) ∈ ls → is_list st h xs) → unchanged_but zs st st' →
  (∀ z, z ∈ zs → z ∉ members ls) → ∀ h xs, (h, xs) ∈ ls → is_list st' h xs.
Proof.
  intros Hs Hu Hz h xs Hk. apply (is_list_unchanged st _ zs); [done| |by apply Hs].
  intros z Hin Hzs. by eapply Hz, members_in.
Qed.

(** What has to be shown of a step on one list of a family. *)
Lemma family_step st st' ls h xs h' xs' zs :
  family st ((h, xs) :: ls) → is_list st' h' xs' → unchanged_but zs st st' →
  (∀ z, z ∈ zs → z ∉ members ls) → (∀ z, z ∈ zs ∨ z ∈ h :: xs → is_Some (st' !! z) ↔ z ∈ h' :: xs') →
  (∀ z, z ∈ h' :: xs' → z ∈ zs ∨ z ∈ h :: xs) →
  family st' ((h', xs') :: ls).
Proof.
  intros [Hn Hs Hd] Hl Hu Hz Hdom Hin. simpl in Hn, Hd.
  change (h :: xs ++ members ls) with ((h :: xs) ++ members ls) in Hn.
  apply NoDup_app in Hn as (_ & Hsep & Hn). split.
  - change (members ((h', xs') :: ls)) with ((h' :: xs') ++ members ls). apply NoDup_app.
    split_all; [by destruct Hl| |done]. intros z [Hzs|Hzx]%Hin; [by apply Hz|by apply Hsep].
  - intros k ys [[= -> ->]|Hk]%elem_of_cons; [done|].
    refine (others_kept st st' zs ls _ Hu Hz k ys Hk). intros k' ys' Hk'. by apply Hs, list_elem_of_further.
  - intros z. change (members ((h', xs') :: ls)) with ((h' :: xs') ++ members ls).
    rewrite elem_of_app. destruct (decide (z ∈ zs ∨ z ∈ h :: xs)) as [Hzin|Hzout].
    + rewrite (Hdom z Hzin). split; [by left|]. intros [?|Hzl]; [done|].
      destruct Hzin as [Hzs|Hzx]; [by destruct (Hz z Hzs)|by destruct (Hsep z Hzx)].
    + rewrite (Hu z) by tauto. rewrite Hd, app_comm_cons, elem_of_app. split; [tauto|].
      intros [Hzx|?]; [by destruct Hzout; apply Hin|by right].
Qed.

Lemma init_run (st : store) e :
  is_Some (st !! e) → ListH.INIT_LIST_HEAD e st = Some (tt, <[e := mk_list_head e e]> st).
Proof.
  intros [n Hn]. unfold ListH.INIT_LIST_HEAD. run_sets. do 2 f_equal. unfold upd_prev, upd_next.
  apply map_eq. intros z. destruct (decide (z = e)) as [->|Hne].
  - by rewrite !lookup_alter_eq, Hn, lookup_insert_eq.
  - by rewrite !lookup_alter_ne, lookup_insert_ne by done.
Qed.

Section family.
Context (st : store) (ls : list (Z * list Z)).

(** A new node that is a list of its own. *)
Lemma family_new e :
  family st ls → e ∉ members ls → family (<[e := mk_list_head e e]> st) ((e, []) :: ls).
Proof.
  intros [Hn Hs Hd] He. split.
  - simpl. by apply NoDup_cons.
  - intros h xs [[= -> ->]|Hin]%elem_of_cons.
    + split; [apply NoDup_singleton|]. simpl. by rewrite lookup_insert_eq.
    + apply (is_list_frame st); [|by apply Hs]. intros z Hz. apply lookup_insert_ne. intros <-.
      by eapply He, members_in.
  - intros z. simpl. rewrite elem_of_cons, <- Hd. destruct (decide (z = e)) as [->|Hne].
    + rewrite lookup_insert_eq. naive_solver.
    + rewrite lookup_insert_ne by done. naive_solver.
Qed.

(** [list_add_tail] of such a node. *)
Lemma family_add_tail h xs e :
  family st ((e, []) :: (h, xs) :: ls) →
  ∃ st', ListH.list_add_tail e h st = Some (tt, st') ∧ family st' ((h, xs ++ [e]) :: ls).
Proof.
  intros [Hn Hs Hd]. assert (is_list st h xs) as Hl by (apply Hs; set_solver).
  unfold ListH.list_add_tail.
  assert (get_prev h st = Some (lastn h xs, st)) as Hg by (by apply get_prev_eq, is_list_last).
  rewrite (st_bind_eq _ _ _ _ _ Hg). simpl in Hn, Hd.
  apply NoDup_cons in Hn as [He Hn]. rewrite app_comm_cons in He, Hn, Hd.
  apply NoDup_app in Hn as (Hnl & Hsep & Hnls).
  rewrite not_elem_of_app in He. destruct He as [He Hels].
  destruct (__list_add_is_list st h xs [] e) as (st' & Hr & Hl' & Hu).
  { by rewrite app_nil_r. }
  { apply Hd. left. }
  { by rewrite app_nil_r. }
  rewrite app_nil_r in Hu. exists st'. split; [done|].
  assert (family (delete e st) ((h, xs) :: ls)) as Hf.
  { split.
    - simpl. rewrite app_comm_cons. by apply NoDup_app.
    - intros k ys Hk. apply (is_list_frame st); [|by apply Hs, list_elem_of_further].
      intros z Hz. apply lookup_delete_ne. intros <-. apply (members_in _ _ _ _ Hk) in Hz.
      simpl in Hz. rewrite app_comm_cons, elem_of_app in Hz. tauto.
    - intros z. simpl. rewrite app_comm_cons. destruct (decide (z = e)) as [->|Hne].
      + rewrite lookup_delete_eq, elem_of_app. split; [by intros []|tauto].
      + rewrite lookup_delete_ne by done. rewrite Hd, elem_of_cons. naive_solver. }
  apply (family_step _ st' ls h xs h (xs ++ [e]) (e :: h :: xs) Hf); [done| | | |].
  - intros z Hz. rewrite (Hu z Hz). rewrite lookup_delete_ne; [done|set_solver].
  - intros z [->|Hz]%elem_of_cons; [done|by apply Hsep].
  - intros z Hz. split; [intros _; set_solver|]. intros Hzin. by apply (is_list_in st' h (xs ++ [e])).
  - set_solver.
Qed.

(** [list_del], behind which the node is given back. *)
Lemma family_del h xs e ys :
  family st ((h, xs ++ e :: ys) :: ls) →
  ∃ st', ListH.list_del e st = Some (tt, st') ∧ family (delete e st') ((h, xs ++ ys) :: ls).
Proof.
  intros Hf. assert (is_list st h (xs ++ e :: ys)) as Hl by (apply (fam_list _ _ Hf); left).
  destruct (list_del_is_list st h xs e ys Hl) as (st' & Hr & Hl' & He & Hu).
  pose proof (unlinked_not_in _ _ _ _ _ Hl) as Hnot. exists st'. split; [done|].
  pose proof (fam_nodup _ _ Hf) as Hn. simpl in Hn. rewrite app_comm_cons in Hn.
  apply NoDup_app in Hn as (_ & Hsep & _).
  assert (∀ z, z ∈ e :: h :: xs ++ ys → z ∈ h :: xs ++ e :: ys) as Hin by set_solver.
  apply (family_step st _ ls h (xs ++ e :: ys) h (xs ++ ys) (e :: h :: xs ++ ys) Hf).
  - apply (is_list_frame st'); [|done]. intros z Hz. apply lookup_delete_ne. by intros <-.
  - intros z Hz. rewrite lookup_delete_ne by set_solver. by apply Hu.
  - intros z Hz. by apply Hsep, Hin.
  - intros z Hz. destruct (decide (z = e)) as [->|Hne].
    + rewrite lookup_delete_eq. split; [by intros []|done].
    + rewrite lookup_delete_ne by done. split; [intros _; set_solver|]. by apply is_list_in.
  - intros z Hz. left. set_solver.
Qed.

(** A list that is empty is given back. *)
Lemma family_drop h : family st ((h, []) :: ls) → family (delete h st) ls.
Proof.
  intros [Hn Hs Hd]. simpl in Hn, Hd. apply NoDup_cons in Hn as [Hh Hn]. split; [done| |].
  - intros k ys Hk. apply (is_list_frame st); [|by apply Hs, list_elem_of_further].
    intros z Hz. apply lookup_delete_ne. intros <-. by eapply Hh, members_in.
  - intros z. destruct (decide (z = h)) as [->|Hne].
    + rewrite lookup_delete_eq. split; [by intros []|done].
    + rewrite lookup_delete_ne by done. rewrite Hd, elem_of_cons. naive_solver.
Qed.
End family.

(** * The state between the loops *)

(** A person with its patents, each at its address with its number. *)
Record entry := mk_entry { e_at : Z; e_name : string; e_age : Z; e_patents : list (Z * Z) }.

Definition node_of (r : entry) : Z := e_at r + person_list.
Definition patents_of (r : entry) : Z * list Z :=
  (e_at r + patent_list, (λ q, q.1 + patent_node) <$> e_patents r).
Definition all_lists (db : list entry) : list (Z * list Z) :=
  (employees, node_of <$> db) :: (patents_of <$> db).

Record db_ok (s : demo) (db : list entry) : Prop := {
  db_family : family (d_links s) (all_lists db);
  db_person : ∀ p x, d_person s !! p = Some x ↔
    ∃ r, r ∈ db ∧ p = e_at r ∧ x = mk_person (Some (e_name r)) (Some (e_age r));
  db_patent : ∀ q x, d_patent s !! q = Some x ↔
    ∃ r id, r ∈ db ∧ (q, id) ∈ e_patents r ∧ x = Some id;
  db_brk : ∀ z, z ∈ members (all_lists db) → z < d_brk s
}.

Lemma node_in r db : r ∈ db → node_of r ∈ members (all_lists db).
Proof.
  intros Hr. apply (members_in _ employees (node_of <$> db)); [left|].
  right. by apply list_elem_of_fmap_2.
Qed.
Lemma patent_in r q db : r ∈ db → q ∈ e_patents r → q.1 + patent_node ∈ members (all_lists db).
Proof.
  intros Hr Hq. apply (members_in _ (patents_of r).1 (patents_of r).2).
  - right. by apply list_elem_of_fmap_2 with (f := patents_of) in Hr.
  - right. by apply (list_elem_of_fmap_2 (λ q, q.1 + patent_node)).
Qed.

(** Above the end of the heap nothing is in use. *)
Lemma above_brk s db z : db_ok s db → d_brk s ≤ z → z ∉ members (all_lists db).
Proof. intros Hok Hz Hin. pose proof (db_brk _ _ Hok z Hin). lia. Qed.

Lemma on_links_run {A} (m : ST store A) s a l :
  m (d_links s) = Some (a, l) →
  on_links m s = Some (a, mk_demo l (d_person s) (d_patent s) (d_brk s) (d_out s)).
Proof. intros H. unfold on_links. by rewrite H. Qed.

Lemma all_lists_snoc db r :
  all_lists (db ++ [r]) = (employees, (node_of <$> db) ++ [node_of r]) :: (patents_of <$> db) ++ [patents_of r].
Proof. unfold all_lists. by rewrite !fmap_app. Qed.

Lemma members_snoc db r :
  members (all_lists (db ++ [r])) ≡ₚ
    node_of r :: (patents_of r).1 :: (patents_of r).2 ++ members (all_lists db).
Proof.
  rewrite all_lists_snoc. unfold all_lists, members. simpl. rewrite bind_app. simpl.
  rewrite app_nil_r. solve_Permutation.
Qed.

(** ** Building *)

Lemma new_person_run s db name age :
  db_ok s db → (String.length name < 10)%nat →
  ∃ s', new_person name age s = Some (d_brk s, s') ∧
    db_ok s' (db ++ [mk_entry (d_brk s) name age []]) ∧ d_out s' = d_out s.
Proof.
  intros Hok Hlen. pose proof Hok as [Hf Hper Hpat Hbrk]. destruct s as [l P Q brk out]. simpl in *.
  set (a := brk + person_list). set (b := brk + patent_list).
  assert (a ∉ members (all_lists db)) as Ha by (apply (above_brk _ _ a Hok); unfold a, person_list; simpl; lia).
  assert (b ∉ members (all_lists db)) as Hb by (apply (above_brk _ _ b Hok); unfold b, patent_list; simpl; lia).
  assert (a ≠ b) as Hab by (unfold a, b, person_list, patent_list; lia).
  pose proof (family_new _ _ a Hf Ha) as Hfa.
  apply (family_new _ _ b) in Hfa; [|simpl; rewrite elem_of_cons; naive_solver].
  set (l2 := <[b := mk_list_head b b]> (<[a := mk_list_head a a]> l)) in *.
  assert ((b, []) :: (a, []) :: all_lists db ≡ₚ (a, []) :: all_lists db ++ [(b, [])]) as Hperm
    by solve_Permutation.
  rewrite Hperm in Hfa. unfold all_lists in Hfa. simpl in Hfa.
  destruct (family_add_tail _ _ _ _ _ Hfa) as (l3 & Hr & Hf3).
  exists (mk_demo l3 (<[brk := mk_person (Some name) (Some age)]> P) Q (brk + sizeof_person) out).
  split_all; [| |done].
  - unfold new_person. erewrite st_bind_eq by done. cbv beta. simpl.
    erewrite st_bind_eq; [|unfold set_person; simpl; rewrite lookup_insert_eq; simpl;
      by rewrite (proj2 (Nat.ltb_lt _ _) Hlen)].
    erewrite st_bind_eq; [|apply on_links_run, init_run; simpl; by rewrite lookup_insert_eq]. simpl.
    erewrite st_bind_eq; [|apply on_links_run, init_run; simpl;
      rewrite !lookup_insert_ne by done; by rewrite lookup_insert_eq]. simpl.
    fold a b.
    assert (<[b := mk_list_head b b]> (<[a := mk_list_head a a]> (<[a := raw_node]> (<[b := raw_node]> l))) = l2)
      as ->.
    { unfold l2. apply map_eq. intros z. destruct (decide (z = b)), (decide (z = a)); subst; by simplify_map_eq. }
    erewrite st_bind_eq; [|by apply on_links_run]. simpl. by rewrite insert_insert_eq.
  - split; cbn [d_links d_person d_patent d_brk].
    + by rewrite all_lists_snoc.
    + intros p x. rewrite lookup_insert_Some, Hper. setoid_rewrite elem_of_app.
      setoid_rewrite list_elem_of_singleton. split.
      * intros [[<- <-]|[Hne (r & ? & ? & ?)]]; [|by exists r; auto].
        exists (mk_entry brk name age []). auto.
      * intros (r & [Hr'| ->] & -> & ->); [|by left]. right. split; [|by exists r].
        intros Heq. pose proof (Hbrk _ (node_in r db Hr')). unfold node_of, person_list in *. lia.
    + intros q x. rewrite Hpat. setoid_rewrite elem_of_app. setoid_rewrite list_elem_of_singleton.
      split; [naive_solver|]. intros (r & id & [?| ->] & Hq & ?); [naive_solver|]. by apply not_elem_of_nil in Hq.
    + intros z Hz.
      assert (z = a ∨ z = b ∨ z ∈ members (all_lists db)) as [-> |[-> |Hz']].
      { rewrite members_snoc in Hz. rewrite !elem_of_cons in Hz. exact Hz. }
      * unfold a, person_list, sizeof_person. lia.
      * unfold b, patent_list, sizeof_person. lia.
      * specialize (Hbrk z Hz'). unfold sizeof_person. lia.
Qed.

Lemma new_patent_run s db r id :
  db_ok s (db ++ [r]) →
  let q := d_brk s in
  ∃ s', new_patent (e_at r) id s = Some (tt, s') ∧
    db_ok s' (db ++ [mk_entry (e_at r) (e_name r) (e_age r) (e_patents r ++ [(q, id)])]) ∧
    d_out s' = d_out s.
Proof.
  intros Hok q. pose proof Hok as [Hf Hper Hpat Hbrk]. destruct s as [l P Q brk out].
  cbn [d_links d_person d_patent d_brk d_out] in *.
  set (r' := mk_entry (e_at r) (e_name r) (e_age r) (e_patents r ++ [(q, id)])).
  set (a := q + patent_node).
  assert (a ∉ members (all_lists (db ++ [r]))) as Ha by (apply (above_brk _ _ a Hok); unfold a, q, patent_node; simpl; lia).
  pose proof (family_new _ _ a Hf Ha) as Hfa. rewrite all_lists_snoc in Hfa.
  assert ((a, []) :: (employees, (node_of <$> db) ++ [node_of r]) :: (patents_of <$> db) ++ [patents_of r] ≡ₚ
    (a, []) :: patents_of r :: (employees, (node_of <$> db) ++ [node_of r]) :: (patents_of <$> db)) as Hperm
    by solve_Permutation.
  rewrite Hperm in Hfa. unfold patents_of at 1 in Hfa.
  destruct (family_add_tail _ _ _ _ _ Hfa) as (l3 & Hr & Hf3).
  exists (mk_demo l3 P (<[q := Some id]> Q) (brk + sizeof_patent) out).
  split_all; [| |done].
  - unfold new_patent. erewrite st_bind_eq by done. cbv beta.
    erewrite st_bind_eq; [|unfold set_id; simpl; by rewrite lookup_insert_eq].
    erewrite st_bind_eq; [|apply on_links_run, init_run; simpl; by rewrite lookup_insert_eq]. simpl.
    fold a. rewrite !insert_insert_eq. by apply on_links_run.
  - split; cbn [d_links d_person d_patent d_brk].
    + rewrite all_lists_snoc. change (node_of r') with (node_of r).
      assert (patents_of r' = (e_at r + patent_list, ((λ q, q.1 + patent_node) <$> e_patents r) ++ [a])) as ->
        by (unfold patents_of; simpl; by rewrite fmap_app).
      revert Hf3. apply family_perm. solve_Permutation.
    + intros p x. rewrite Hper. setoid_rewrite elem_of_app. setoid_rewrite list_elem_of_singleton. split.
      * intros (r0 & [?| ->] & -> & ->); [by exists r0; auto|by exists r'; auto].
      * intros (r0 & [?| ->] & -> & ->); [by exists r0; auto|by exists r; auto].
    + intros q0 x. rewrite lookup_insert_Some, Hpat. setoid_rewrite elem_of_app.
      setoid_rewrite list_elem_of_singleton. split.
      * intros [[<- <-]|[Hne (r0 & id0 & [?| ->] & Hq & ->)]].
        -- exists r', id. split_all; [by right| |done]. apply elem_of_app. right. left.
        -- exists r0, id0. auto.
        -- exists r', id0. split_all; [by right| |done]. apply elem_of_app. by left.
      * assert (∀ r0 id0, r0 ∈ db ++ [r] → (q, id0) ∈ e_patents r0 → False) as Hnew.
        { intros r0 id0 Hr0 Hq0. pose proof (Hbrk _ (patent_in r0 (q, id0) _ Hr0 Hq0)) as Hlt.
          simpl in Hlt. unfold q, patent_node in Hlt. lia. }
        intros (r0 & id0 & [Hr0| ->] & Hq & ->).
        -- right. split; [|by exists r0, id0; auto]. intros <-.
           apply (Hnew r0 id0); [|done]. apply elem_of_app. by left.
        -- apply elem_of_app in Hq as [Hq|[= -> ->]%list_elem_of_singleton]; [|by left].
           right. split; [|by exists r, id0; auto]. intros <-.
           apply (Hnew r id0); [|done]. apply elem_of_app. right. left.
    + intros z Hz. rewrite members_snoc in Hz.
      assert (z = a ∨ z ∈ members (all_lists (db ++ [r]))) as [->|Hz'].
      { rewrite members_snoc. unfold patents_of in Hz |- *. cbn [fst snd e_at e_patents r'] in Hz |- *.
        rewrite fmap_app, list_fmap_singleton in Hz. rewrite !elem_of_cons, !elem_of_app in Hz |- *.
        rewrite !elem_of_app, list_elem_of_singleton in Hz. cbn [fst] in Hz. tauto. }
      * unfold a, q, patent_node, sizeof_patent. simpl. lia.
      * specialize (Hbrk z Hz'). unfold sizeof_patent. lia.
Qed.

(** What a person looks like from outside: name, age and the numbers of the patents. *)
Definition content (r : entry) : string * Z * list Z := (e_name r, e_age r, (e_patents r).*2).
Fixpoint ids (n : nat) (id : Z) : list Z := match n with O => [] | S n => id :: ids n (u64 (id + 1)) end.
Fixpoint next_id (n : nat) (id : Z) : Z := match n with O => id | S n => next_id n (u64 (id + 1)) end.
Fixpoint staff (names : list string) (age id : Z) : list (string * Z * list Z) :=
  match names with
  | [] => []
  | name :: names => (name, age, ids 10 id) :: staff names (u64 (age + 1)) (next_id 10 id)
  end.

Lemma new_patents_run n s db r id :
  db_ok s (db ++ [r]) →
  ∃ s' r', new_patents n (e_at r) id s = Some (next_id n id, s') ∧ db_ok s' (db ++ [r']) ∧
    content r' = (e_name r, e_age r, (e_patents r).*2 ++ ids n id) ∧ d_out s' = d_out s.
Proof.
  revert s r id. induction n as [|n IH]; intros s r id Hok.
  - exists s, r. split_all; [done|done| |done]. unfold content. simpl. by rewrite app_nil_r.
  - destruct (new_patent_run s db r id Hok) as (s1 & Hr1 & Hok1 & Hout1).
    destruct (IH s1 _ (u64 (id + 1)) Hok1) as (s' & r' & Hr & Hok' & Hc & Hout).
    exists s', r'. split_all; [|done| |congruence].
    + cbn [new_patents]. by rewrite (st_bind_eq _ _ _ _ _ Hr1).
    + rewrite Hc. simpl. by rewrite fmap_app, <- app_assoc.
Qed.

Lemma build_run names age id s db :
  db_ok s db → Forall (λ n, (String.length n < 10)%nat) names →
  ∃ s' db', build names age id s = Some (tt, s') ∧ db_ok s' (db ++ db') ∧
    content <$> db' = staff names age id ∧ d_out s' = d_out s.
Proof.
  revert age id s db. induction names as [|name names IH]; intros age id s db Hok Hlen.
  - exists s, []. by rewrite app_nil_r.
  - apply Forall_cons in Hlen as [Hname Hlen].
    destruct (new_person_run s db name age Hok Hname) as (s1 & Hr1 & Hok1 & Hout1).
    destruct (new_patents_run 10 s1 db _ id Hok1) as (s2 & r & Hr2 & Hok2 & Hc & Hout2).
    destruct (IH (u64 (age + 1)) (next_id 10 id) s2 _ Hok2 Hlen) as (s' & db' & Hr & Hok' & Hdb' & Hout).
    exists s', (r :: db'). split_all; [| | |congruence].
    + cbn [build]. rewrite (st_bind_eq _ _ _ _ _ Hr1). cbv beta.
      cbn [e_at] in Hr2. rewrite (st_bind_eq _ _ _ _ _ Hr2). exact Hr.
    + by rewrite <- app_assoc in Hok'.
    + rewrite fmap_cons, Hdb', Hc. done.
Qed.

(** ** Printing *)

Definition set_out (o : list string) (s : demo) : demo :=
  mk_demo (d_links s) (d_person s) (d_patent s) (d_brk s) o.

Lemma set_out_ok s db o : db_ok s db → db_ok (set_out o s) db.
Proof. by intros []. Qed.
Lemma set_out_id s : set_out (d_out s) s = s.
Proof. by destruct s. Qed.

Lemma print_run l s : print l s = Some (tt, set_out (d_out s ++ l) s).
Proof. done. Qed.

Section reads.
Context (s : demo) (db : list entry) (r : entry).
Hypothesis Hok : db_ok s db.
Hypothesis Hr : r ∈ db.

Lemma person_run : d_person s !! e_at r = Some (mk_person (Some (e_name r)) (Some (e_age r))).
Proof using Hok Hr. apply (db_person _ _ Hok). by exists r. Qed.
Lemma get_name_run : get_name (e_at r) s = Some (e_name r, s).
Proof using Hok Hr. unfold get_name. by rewrite person_run. Qed.
Lemma get_age_run : get_age (e_at r) s = Some (e_age r, s).
Proof using Hok Hr. unfold get_age. by rewrite person_run. Qed.
Lemma patent_run q id : (q, id) ∈ e_patents r → d_patent s !! q = Some (Some id).
Proof using Hok Hr. intros Hq. apply (db_patent _ _ Hok). by exists r, id. Qed.
Lemma get_id_run q id : (q, id) ∈ e_patents r → get_id q s = Some (id, s).
Proof using Hok Hr. intros Hq. unfold get_id. by rewrite (patent_run q id Hq). Qed.

Lemma patents_list : is_list (nodes s) (e_at r + patent_list) ((λ q, q.1 + patent_node) <$> e_patents r).
Proof using Hok Hr.
  apply (fam_list _ _ (db_family _ _ Hok)). right. by apply (list_elem_of_fmap_2 patents_of).
Qed.
Lemma persons_list : is_list (nodes s) employees (node_of <$> db).
Proof using Hok. apply (fam_list _ _ (db_family _ _ Hok)). left. Qed.
End reads.

(** The text of the patents of a person and of a person. *)
Fixpoint patents_text (l : list Z) : list string :=
  match l with
  | [] => []
  | [id] => [pretty id]
  | id :: l => [pretty id; ", "%string] ++ patents_text l
  end.
Definition person_text (c : string * Z * list Z) : list string :=
  ["================="; endl; "Employee: "; c.1.1; ", age "; pretty c.1.2; endl; "Patents: "]%string ++
  patents_text c.2 ++ [endl].

(** Splitting the nodes of a list of structures splits the structures. *)
Lemma fmap_split {A} (f : A → Z) (l : list A) ys x zs :
  f <$> l = ys ++ x :: zs →
  ∃ l1 a l2, l = l1 ++ a :: l2 ∧ ys = f <$> l1 ∧ x = f a ∧ zs = f <$> l2.
Proof.
  intros H. apply fmap_app_inv in H as (l1 & l2 & -> & H & ->).
  symmetry in H. apply fmap_cons_inv in H as (a & l3 & -> & -> & ->). by exists l1, a, l3.
Qed.

Lemma print_patents_run s db r fuel :
  db_ok s db → r ∈ db → (length (e_patents r) < fuel)%nat →
  ∃ visited, list_for_each_entry fuel (e_at r + patent_list) patent_node (print_patent (e_at r)) s =
    Some (visited, set_out (d_out s ++ patents_text (e_patents r).*2) s).
Proof.
  intros Hok Hr Hf. set (f := λ q : Z * Z, q.1 + patent_node). set (p := e_at r).
  set (T := d_out s ++ patents_text (e_patents r).*2).
  set (J := λ (ys : list Z) (s' : demo), ∃ qs1 qs2 o, e_patents r = qs1 ++ qs2 ∧ ys = f <$> qs1 ∧
    s' = set_out o s ∧ o ++ patents_text qs2.*2 = T).
  pose proof (patents_list s db r Hok Hr) as Hl. fold f p in Hl.
  destruct (list_loop true (p + patent_list) patent_node (print_patent p) J (f <$> e_patents r)
    (p + patent_list) [] (f <$> e_patents r) s fuel) as (s' & Hrun & _ & HJ); [done| |done| | | |].
  - intros ys x zs s1 Hxs Hl1 (qs1 & qs2 & o & Hqs & -> & -> & Ho).
    apply fmap_split in Hxs as (l1 & [q id] & l2 & Hl12 & Heq & -> & ->).
    assert (qs1 = l1 ∧ qs2 = (q, id) :: l2) as [-> ->].
    { apply (f_equal length) in Heq. rewrite !length_fmap in Heq. rewrite Hl12 in Hqs.
      by apply app_inj_1 in Hqs as [-> <-]. }
    assert (list_entry (f (q, id)) patent_node = q) as ->
      by (unfold f, list_entry; simpl; lia).
    pose proof (set_out_ok s db o Hok) as Hok1. unfold print_patent.
    rewrite (st_bind_eq _ _ _ _ _ (get_id_run _ db r Hok1 Hr q id ltac:(rewrite Hl12; set_solver))).
    rewrite (st_bind_eq _ _ _ _ _ (print_run _ _)).
    assert (∀ o o', next_of (q + patent_node) (set_out o (set_out o' s)) =
              Some (hd (p + patent_list) (f <$> l2), set_out o (set_out o' s))) as Hn.
    { intros o1 o2. apply (link_entry true (p + patent_list) (set_out o1 (set_out o2 s)) (f <$> l1) (q + patent_node)).
      simpl. by rewrite Hl12, fmap_app in Hl. }
    rewrite (st_bind_eq _ _ _ _ _ (Hn _ _)). cbv beta. destruct l2 as [|[q2 id2] l2].
    + simpl. rewrite Z.eqb_refl. eexists. split_all; [done|done|].
      exists (e_patents r), [], (o ++ [pretty id]). split_all; [by rewrite app_nil_r| |done|].
      * by rewrite Hl12, fmap_app.
      * simpl in *. by rewrite app_nil_r.
    + assert (f (q2, id2) ≠ p + patent_list) as Hne.
      { destruct Hl as [[Hnot _]%NoDup_cons _]. intros Heq2. apply Hnot. rewrite <- Heq2.
        apply list_elem_of_fmap_2. rewrite Hl12. set_solver. }
      simpl. rewrite (proj2 (Z.eqb_neq _ _) Hne). eexists. split_all; [done|done|].
      exists (l1 ++ [(q, id)]), ((q2, id2) :: l2), ((o ++ [pretty id]) ++ [", "%string]).
      split_all; [by rewrite <- app_assoc|by rewrite fmap_app|done|].
      rewrite <- Ho. by rewrite <- !app_assoc.
  - exists [], (e_patents r), (d_out s). split_all; [done|done|by rewrite set_out_id|done].
  - by apply (link_first true).
  - by rewrite length_fmap.
  - eexists. unfold list_for_each_entry. fold p. rewrite Hrun.
    destruct HJ as (qs1 & qs2 & o & Hqs & Heq & -> & Ho).
    assert (qs2 = []) as ->.
    { simpl in Heq. apply (f_equal length) in Heq. rewrite !length_fmap in Heq.
      apply (f_equal length) in Hqs. rewrite length_app in Hqs. destruct qs2; [done|simpl in *; lia]. }
    simpl in Ho. rewrite app_nil_r in Ho. by rewrite Ho.
Qed.

Lemma print_person_run s db r fuel :
  db_ok s db → r ∈ db → (length (e_patents r) < fuel)%nat →
  print_person fuel (e_at r) s = Some (tt, set_out (d_out s ++ person_text (content r)) s).
Proof.
  intros Hok Hr Hf. unfold print_person. rewrite (st_bind_eq _ _ _ _ _ (print_run _ _)).
  pose proof (λ o, set_out_ok s db o Hok) as Ho.
  rewrite (st_bind_eq _ _ _ _ _ (get_name_run _ db r (Ho _) Hr)).
  rewrite (st_bind_eq _ _ _ _ _ (get_age_run _ db r (Ho _) Hr)).
  rewrite !(st_bind_eq _ _ _ _ _ (print_run _ _)).
  destruct (print_patents_run (set_out (((d_out s ++ ["================="; endl]%string) ++
    ["Employee: "; e_name r; ", age "; pretty (e_age r); endl]%string) ++ ["Patents: "]%string) s) db r fuel
    (Ho _) Hr Hf) as [visited Hv].
  rewrite (st_bind_eq _ _ _ _ _ Hv), print_run. do 2 f_equal. unfold set_out. f_equal. simpl.
  unfold person_text, content. simpl. by rewrite <- !app_assoc.
Qed.

Lemma print_all_run s db fuel :
  db_ok s db → (length db < fuel)%nat → (∀ r, r ∈ db → (length (e_patents r) < fuel)%nat) →
  ∃ visited, list_for_each_entry fuel employees person_list (print_person fuel) s =
    Some (visited, set_out (d_out s ++ ((content <$> db) ≫= person_text)) s).
Proof.
  intros Hok Hf Hfs.
  set (J := λ (ys : list Z) (s' : demo), ∃ db1 db2, db = db1 ++ db2 ∧ ys = node_of <$> db1 ∧
    s' = set_out (d_out s ++ ((content <$> db1) ≫= person_text)) s).
  pose proof (persons_list s db Hok) as Hl.
  destruct (list_loop true employees person_list (print_person fuel) J (node_of <$> db)
    employees [] (node_of <$> db) s fuel) as (s' & Hrun & _ & HJ); [done| |done| | | |].
  - intros ys x zs s1 Hxs Hl1 (db1 & db2 & Hdb & -> & ->).
    apply fmap_split in Hxs as (l1 & r & l2 & Hl12 & Heq & -> & ->).
    assert (db1 = l1 ∧ db2 = r :: l2) as [-> ->].
    { apply (f_equal length) in Heq. rewrite !length_fmap in Heq. rewrite Hl12 in Hdb.
      by apply app_inj_1 in Hdb as [-> <-]. }
    assert (list_entry (node_of r) person_list = e_at r) as -> by (unfold node_of, list_entry; lia).
    assert (r ∈ db) as Hr by (rewrite Hl12; set_solver).
    rewrite (print_person_run _ db r fuel (set_out_ok s db _ Hok) Hr (Hfs r Hr)).
    eexists. split_all; [done|done|]. exists (l1 ++ [r]), l2.
    split_all; [by rewrite <- app_assoc|by rewrite fmap_app|].
    unfold set_out. simpl. f_equal. rewrite fmap_app, bind_app, <- app_assoc. simpl. by rewrite app_nil_r.
  - exists [], db. split_all; [done|done|]. simpl. by rewrite app_nil_r, set_out_id.
  - by apply (link_first true).
  - by rewrite length_fmap.
  - eexists. unfold list_for_each_entry. rewrite Hrun.
    destruct HJ as (db1 & db2 & Hdb & Heq & ->). assert (db1 = db) as ->; [|done].
    simpl in Heq. apply (f_equal length) in Heq. rewrite !length_fmap in Heq.
    rewrite Hdb in Heq. rewrite length_app in Heq. destruct db2; [by rewrite app_nil_r in Hdb|simpl in *; lia].
Qed.

(** ** Deleting *)

Definition set_patents (qs : list (Z * Z)) (r : entry) : entry :=
  mk_entry (e_at r) (e_name r) (e_age r) qs.

Definition delete_patent_text (id : Z) : list string := ["Deleting "; pretty id; endl]%string.
Definition delete_text (c : string * Z * list Z) : list string :=
  ["Deleting "; c.1.1; endl]%string ++ (c.2 ≫= delete_patent_text).

Lemma members_cons r db :
  members (all_lists (r :: db)) ≡ₚ
    node_of r :: (patents_of r).1 :: (patents_of r).2 ++ members (all_lists db).
Proof. unfold all_lists, members. simpl. solve_Permutation. Qed.

(** Deleting the first patent of the first person. *)
Lemma delete_patent_run s r q id qs db :
  db_ok s (set_patents ((q, id) :: qs) r :: db) →
  ∃ s', delete_patent q s = Some (tt, s') ∧ db_ok s' (set_patents qs r :: db) ∧
    d_out s' = d_out s ++ delete_patent_text id.
Proof.
  intros Hok. pose proof Hok as [Hf Hper Hpat Hbrk]. set (r0 := set_patents ((q, id) :: qs) r) in *.
  assert (∀ r1 id1, r1 ∈ set_patents qs r :: db → (q, id1) ∉ e_patents r1) as Honly.
  { pose proof (fam_nodup _ _ Hf) as Hn. rewrite members_cons in Hn.
    intros r1 id1 Hr1 Hq. apply NoDup_cons in Hn as [_ Hn]. apply NoDup_cons in Hn as [_ Hn].
    change (patents_of r0).2 with ((q + patent_node) :: ((λ q, q.1 + patent_node) <$> qs)) in Hn.
    apply NoDup_cons in Hn as [Hn _]. apply Hn. apply elem_of_app.
    apply elem_of_cons in Hr1 as [->|Hr1].
    - left. by apply (list_elem_of_fmap_2 (λ q, q.1 + patent_node) _ (q, id1)).
    - right. by apply (patent_in r1 (q, id1)). }
  assert (family (d_links s) (((patents_of r0).1, [] ++ (q + patent_node) :: ((λ q, q.1 + patent_node) <$> qs)) ::
            (employees, node_of <$> r0 :: db) :: (patents_of <$> db))) as Hf'.
  { revert Hf. apply family_perm. unfold all_lists. simpl. apply perm_swap. }
  destruct (family_del _ _ _ _ _ _ Hf') as (l & Hr & Hf2).
  assert (d_patent s !! q = Some (Some id)) as Hq.
  { apply Hpat. exists r0, id. split_all; [left|left|done]. }
  unfold delete_patent.
  assert (get_id q s = Some (id, s)) as Hid by (unfold get_id; by rewrite Hq).
  rewrite (st_bind_eq _ _ _ _ _ Hid), (st_bind_eq _ _ _ _ _ (print_run _ _)).
  pose proof (on_links_run (ListH.list_del (q + patent_node)) (set_out (d_out s ++ delete_patent_text id) s) tt l Hr) as Hrun.
  rewrite (st_bind_eq _ _ _ _ _ Hrun). unfold free_patent. simpl. rewrite Hq. simpl.
  eexists. split_all; [done| |done]. split; cbn [d_links d_person d_patent d_brk].
  - revert Hf2. apply family_perm. unfold all_lists. simpl. apply perm_swap.
  - intros p x. rewrite Hper. setoid_rewrite elem_of_cons. split.
    + intros (r1 & [->|?] & -> & ->); [by exists (set_patents qs r); auto|by exists r1; auto].
    + intros (r1 & [->|?] & -> & ->); [by exists r0; auto|by exists r1; auto].
  - intros q1 x. rewrite lookup_delete_Some, Hpat. split.
    + intros (Hne & r1 & id1 & [->|Hr1]%elem_of_cons & Hin & ->).
      * exists (set_patents qs r), id1. split_all; [left| |done].
        apply elem_of_cons in Hin as [[= -> ->]|Hin]; [done|done].
      * exists r1, id1. split_all; [by right|done|done].
    + intros (r1 & id1 & Hr1 & Hin & ->). split.
      * intros <-. by apply (Honly r1 id1).
      * apply elem_of_cons in Hr1 as [->|Hr1].
        -- exists r0, id1. split_all; [left|by right|done].
        -- exists r1, id1. split_all; [by right|done|done].
  - intros z Hz. apply Hbrk. rewrite members_cons in Hz |- *.
    change (patents_of r0).2 with ((q + patent_node) :: ((λ q, q.1 + patent_node) <$> qs)).
    change (node_of r0) with (node_of (set_patents qs r)).
    change (patents_of r0).1 with (patents_of (set_patents qs r)).1.
    change (patents_of (set_patents qs r)).2 with ((λ q, q.1 + patent_node) <$> qs) in Hz.
    rewrite !elem_of_cons in Hz |- *. simpl. rewrite elem_of_cons. tauto.
Qed.

Lemma delete_patents_run s r db fuel :
  db_ok s (r :: db) → (length (e_patents r) < fuel)%nat →
  ∃ visited s', list_for_each_entry_safe fuel (e_at r + patent_list) patent_node delete_patent s =
      Some (visited, s') ∧ db_ok s' (set_patents [] r :: db) ∧
    d_out s' = d_out s ++ ((e_patents r).*2 ≫= delete_patent_text).
Proof.
  intros Hok Hf. set (f := λ q : Z * Z, q.1 + patent_node). set (p := e_at r).
  set (T := d_out s ++ ((e_patents r).*2 ≫= delete_patent_text)).
  set (J := λ (ys zs : list Z) (s' : demo), ∃ qs, zs = f <$> qs ∧ db_ok s' (set_patents qs r :: db) ∧
    d_out s' ++ (qs.*2 ≫= delete_patent_text) = T).
  assert (∀ s' qs, db_ok s' (set_patents qs r :: db) → is_list (nodes s') (p + patent_list) (f <$> qs)) as Hlist
    by (intros s' qs Hok'; apply (patents_list s' _ (set_patents qs r) Hok'); left).
  assert (db_ok s (set_patents (e_patents r) r :: db)) as Hok0 by (by destruct r).
  destruct (safe_loop true (p + patent_list) patent_node delete_patent J (f <$> e_patents r)
    (p + patent_list) s fuel) as (s' & Hrun & _ & (qs & Hqs & Hok' & Hout)).
  - destruct (Hlist s _ Hok0) as [[Hnot _]%NoDup_cons _]. done.
  - intros ys x zs s1 _ _ ([|[q id] qs] & Heq & Hok1 & Hout); simplify_eq/=.
    assert (list_entry (f (q, id)) patent_node = q) as -> by (unfold f, list_entry; simpl; lia).
    destruct (delete_patent_run s1 r q id qs db Hok1) as (s2 & Hr & Hok2 & Hout2).
    exists s2. split_all; [done| |].
    + exists []. simpl. by apply Hlist.
    + exists qs. split_all; [done|done|]. by rewrite Hout2, <- app_assoc.
  - exists []. simpl. by apply Hlist.
  - by exists (e_patents r).
  - apply (link_first true). by apply Hlist.
  - by rewrite length_fmap.
  - symmetry in Hqs. apply fmap_nil_inv in Hqs as ->. simpl in Hout. rewrite app_nil_r in Hout.
    eexists _, s'. split_all; [exact Hrun|done|done].
Qed.

Lemma delete_person_run s r db fuel :
  db_ok s (r :: db) → (length (e_patents r) < fuel)%nat →
  ∃ s', delete_person fuel (e_at r) s = Some (tt, s') ∧ db_ok s' db ∧
    d_out s' = d_out s ++ delete_text (content r).
Proof.
  intros Hok Hf. unfold delete_person.
  rewrite (st_bind_eq _ _ _ _ _ (get_name_run s _ r Hok ltac:(left))).
  rewrite (st_bind_eq _ _ _ _ _ (print_run _ _)).
  destruct (delete_patents_run (set_out (d_out s ++ ["Deleting "; e_name r; endl]%string) s) r db fuel)
    as (visited & s1 & Hr1 & Hok1 & Hout1); [by apply set_out_ok|done|].
  rewrite (st_bind_eq _ _ _ _ _ Hr1). pose proof Hok1 as [Hf1 Hper Hpat Hbrk].
  set (r0 := set_patents [] r) in *.
  assert (family (d_links s1) ((employees, [] ++ node_of r0 :: (node_of <$> db)) :: (e_at r + patent_list, []) ::
            (patents_of <$> db))) as Hf' by exact Hf1.
  destruct (family_del _ _ _ _ _ _ Hf') as (l & Hr & Hf2).
  rewrite (st_bind_eq _ _ _ _ _ (on_links_run (ListH.list_del (e_at r + person_list)) s1 tt l Hr)).
  assert (d_person s1 !! e_at r = Some (mk_person (Some (e_name r)) (Some (e_age r)))) as Hp
    by (apply (person_run s1 _ r0 Hok1); left).
  unfold free_person. simpl. rewrite Hp. simpl. eexists. split_all; [done| |].
  - assert (∀ r1, r1 ∈ db → e_at r1 ≠ e_at r) as Honly.
    { pose proof (fam_nodup _ _ Hf1) as Hn. rewrite members_cons in Hn. apply NoDup_cons in Hn as [Hn _].
      intros r1 Hin1 Heq. apply Hn. right. apply elem_of_app. right.
      assert (node_of r0 = node_of r1) as -> by (unfold node_of; simpl; by rewrite Heq). by apply node_in. }
    split; cbn [d_links d_person d_patent d_brk].
    + rewrite delete_delete. simpl in Hf2. rewrite perm_swap in Hf2. by apply family_drop in Hf2.
    + intros p x. rewrite lookup_delete_Some, Hper. setoid_rewrite elem_of_cons. split.
      * intros (Hne & r1 & [->|?] & -> & ->); [done|by exists r1].
      * intros (r1 & Hin & -> & ->). split; [by apply not_eq_sym, Honly|]. exists r1. auto.
    + intros q x. rewrite Hpat. setoid_rewrite elem_of_cons. split.
      * intros (r1 & id & [->|?] & Hin & ->); [by apply not_elem_of_nil in Hin|by exists r1, id].
      * intros (r1 & id & Hin & ? & ->). exists r1, id. auto.
    + intros z Hz. apply Hbrk. rewrite members_cons. right. right. apply elem_of_app. by right.
  - rewrite Hout1. simpl. unfold delete_text, content. simpl. by rewrite <- app_assoc.
Qed.

Lemma delete_all_run s db fuel :
  db_ok s db → (length db < fuel)%nat → (∀ r, r ∈ db → (length (e_patents r) < fuel)%nat) →
  ∃ visited s', list_for_each_entry_safe fuel employees person_list (delete_person fuel) s =
      Some (visited, s') ∧ db_ok s' [] ∧ d_out s' = d_out s ++ ((content <$> db) ≫= delete_text).
Proof.
  intros Hok Hf Hfs. set (T := d_out s ++ ((content <$> db) ≫= delete_text)).
  set (J := λ (ys zs : list Z) (s' : demo), ∃ db', zs = node_of <$> db' ∧ db' ⊆ db ∧ db_ok s' db' ∧
    d_out s' ++ ((content <$> db') ≫= delete_text) = T).
  destruct (safe_loop true employees person_list (delete_person fuel) J (node_of <$> db)
    employees s fuel) as (s' & Hrun & _ & (db' & Hdb' & _ & Hok' & Hout)).
  - destruct (persons_list s db Hok) as [[Hnot _]%NoDup_cons _]. done.
  - intros ys x zs s1 _ _ ([|r db1] & Heq & Hsub & Hok1 & Hout); simplify_eq/=.
    assert (list_entry (node_of r) person_list = e_at r) as -> by (unfold node_of, list_entry; lia).
    destruct (delete_person_run s1 r db1 fuel Hok1) as (s2 & Hr & Hok2 & Hout2); [apply Hfs, Hsub; left|].
    exists s2. split_all; [done| |].
    + exists []. simpl. by apply persons_list.
    + exists db1. split_all; [done| |done|by rewrite Hout2, <- app_assoc].
      intros z Hz. apply Hsub. by right.
  - exists []. simpl. by apply persons_list.
  - by exists db.
  - apply (link_first true). by apply persons_list.
  - by rewrite length_fmap.
  - symmetry in Hdb'. apply fmap_nil_inv in Hdb' as ->. simpl in Hout. rewrite app_nil_r in Hout.
    eexists _, s'. split_all; [exact Hrun|done|done].
Qed.

(** * The program as a whole *)

Lemma length_ids n id : length (ids n id) = n.
Proof. revert id. induction n; intros id; simpl; [done|by rewrite IHn]. Qed.
Lemma staff_ids names age id c : c ∈ staff names age id → length c.2 = 10%nat.
Proof.
  revert age id. induction names as [|n names IH]; intros age id; [by intros ?%not_elem_of_nil|].
  intros [->|Hc]%elem_of_cons; [apply length_ids|by eapply IH].
Qed.
Lemma length_staff names age id : length (staff names age id) = length names.
Proof. revert age id. induction names; intros; simpl; [done|by rewrite IHnames]. Qed.

(** With names that fit into the ten bytes of [name], the program ends, without reading
    or writing memory that is freed or not initialised. It prints every person with its
    patents, and then every deletion, in the order of creation; and in the end nothing is
    allocated any more and [employees] is an empty list again. *)
Theorem list_demo_main names fuel :
  Forall (λ n, (String.length n < 10)%nat) names → (max (length names) 10 < fuel)%nat →
  ∃ s', main fuel names start = Some (tt, s') ∧
    d_out s' = (staff names 30 10010 ≫= person_text) ++ (staff names 30 10010 ≫= delete_text) ∧
    d_links s' = {[employees := mk_list_head employees employees]} ∧
    d_person s' = ∅ ∧ d_patent s' = ∅.
Proof.
  intros Hlen Hfuel. unfold main.
  assert (on_links (ListH.INIT_LIST_HEAD employees) start =
    Some (tt, mk_demo {[employees := mk_list_head employees employees]} ∅ ∅ 64 [])) as Hinit by done.
  rewrite (st_bind_eq _ _ _ _ _ Hinit).
  destruct (build_run names 30 10010 (mk_demo {[employees := mk_list_head employees employees]} ∅ ∅ 64 []) [])
    as (s1 & db & Hr1 & Hok1 & Hdb & Hout1); [|done|].
  { split; simpl.
    - split.
      + apply NoDup_singleton.
      + intros h xs [= -> ->]%list_elem_of_singleton. split; [apply NoDup_singleton|done].
      + intros z. change (members (all_lists [])) with [employees]. rewrite list_elem_of_singleton. destruct (decide (z = employees)) as [->|Hne].
        * rewrite lookup_singleton_eq. naive_solver.
        * rewrite lookup_singleton_ne by done. naive_solver.
    - intros p x. rewrite lookup_empty. split; [done|]. by intros (? & ?%not_elem_of_nil & _).
    - intros q x. rewrite lookup_empty. split; [done|]. by intros (? & ? & ?%not_elem_of_nil & _).
    - intros z ->%list_elem_of_singleton. done. }
  rewrite (st_bind_eq _ _ _ _ _ Hr1). simpl in Hok1, Hout1.
  assert (length db = length names) as Hlendb by (by rewrite <- (length_fmap content), Hdb, length_staff).
  assert (∀ r, r ∈ db → (length (e_patents r) < fuel)%nat) as Hten.
  { intros r Hr. assert (length (content r).2 = 10%nat) as H10.
    { apply (staff_ids names 30 10010). rewrite <- Hdb. by apply list_elem_of_fmap_2. }
    simpl in H10. rewrite length_fmap in H10. lia. }
  destruct (print_all_run s1 db fuel Hok1 ltac:(lia) Hten) as [v1 Hr2].
  rewrite (st_bind_eq _ _ _ _ _ Hr2).
  destruct (delete_all_run _ db fuel
    (set_out_ok _ _ (d_out s1 ++ ((content <$> db) ≫= person_text)) Hok1) ltac:(lia) Hten) as (v2 & s' & Hr3 & Hok' & Hout).
  rewrite (st_bind_eq _ _ _ _ _ Hr3). exists s'. destruct Hok' as [Hf Hper Hpat _].
  split_all; [done| | | |].
  - rewrite Hout. simpl. by rewrite Hout1, Hdb.
  - pose proof (fam_dom _ _ Hf) as Hd. simpl in Hd.
    assert (is_list (d_links s') employees []) as [_ Hl] by (apply (fam_list _ _ Hf); left). simpl in Hl.
    apply map_eq. intros z. destruct (decide (z = employees)) as [->|Hne].
    + rewrite lookup_singleton_eq. destruct (d_links s' !! employees) as [[]|]; naive_solver.
    + rewrite lookup_singleton_ne by done. apply eq_None_not_Some.
      intros Hz%Hd. by apply list_elem_of_singleton in Hz.
  - apply map_empty. intros p. apply eq_None_not_Some. intros [x Hx]. by apply Hper in Hx as (? & ?%not_elem_of_nil & _).
  - apply map_empty. intros q. apply eq_None_not_Some. intros [x Hx]. by apply Hpat in Hx as (? & ? & ?%not_elem_of_nil & _).
Qed.

(** The four employees of the program. *)
Lemma list_demo_main_witness :
  d_out (default start (snd <$> main 11 names start)) =
    (staff names 30 10010 ≫= person_text) ++ (staff names 30 10010 ≫= delete_text) ∧
  d_links (default start (snd <$> main 11 names start)) = {[employees := mk_list_head employees employees]}.
Proof.
  assert (Forall (λ n, (String.length n < 10)%nat) names) as Hn by by_computation.
  destruct (list_demo_main names 11 Hn ltac:(unfold names; simpl; lia)) as (s' & Hr & Ho & Hl & _ & _).
  rewrite Hr. by split.
Defined.
