(* ===== verification/HashTables.v ===== *)
(** Hash tables chained with the kernel's hash list.

    [Module PidTable] models the process table of
    [src/books/understanding_linux_kernel/chapter03_processes/hlist_head.cpp]
    (2048 buckets; [new] and [delete] take nodes from and give them back to a
    heap) and [Module EHash] the employee table of
    [src/books/understanding_linux_networking/kernel_data_structures/hlist/hlist_demo.cpp].
    Both run on the cell memory of KHlist.v.  The process table is stated for an
    arbitrary hash function, since the file's own [hash_long] shifts by more
    than the width of its operand: [hash_long_undefined]. *)

From S2P Require Import Prelude KHlist.
From stdpp Require Import pretty.

Local Open Scope Z_scope.

(** * The process table *)

Module PidTable.
(** [struct process { struct hlist_node node; unsigned int pid; }]: the node is
    the first member, so a process and its node share their address. *)
Record table := mk_table {
  pt_mem : mem;             (* the cells of the nodes and of the heads *)
  pt_procs : gmap Z Z;      (* the live processes' [pid] *)
  pt_brk : Z                (* the next free address of the heap *)
}.

Definition on_mem {A} (m : ST mem A) : ST table A := λ t,
  match m (pt_mem t) with
  | Some (a, c) => Some (a, mk_table c (pt_procs t) (pt_brk t))
  | None => None
  end.

Definition pidhash_shift : Z := 11.
Definition n_buckets : Z := 2048.

(** [unsigned int hash = val * 0x9e370001UL;
     return hash >> (sizeof(hash) - bits);]: [sizeof(hash)] is 4 bytes and the
    difference is a [size_t]; a shift by the operand's width or more is
    undefined. *)
Definition hash_long (val bits : Z) : option Z :=
  let hash := u32 (u32 val * 0x9e370001) in
  let count := u64 (4 - bits) in
  if count <? 32 then Some (Z.shiftr hash count) else None.

Definition pid_hashfn (x : Z) : option Z := hash_long x pidhash_shift.

(** [hash_table[i]] *)
Definition hash_table : Z := 4096.
Definition bucket (i : Z) : Z := hash_table + 8 * i.
Definition heap_base : Z := hash_table + 8 * n_buckets.

(** [new struct process] and [delete p] *)
Definition new_process (pid : Z) : ST table Z := λ t,
  let p := pt_brk t in
  Some (p, mk_table (<[NEXT p := 0]> (<[PPREV p := 0]> (pt_mem t)))
                    (<[p := pid]> (pt_procs t)) (p + 24)).
Definition delete_process (p : Z) : ST table unit := λ t,
  match pt_procs t !! p with
  | Some _ => Some (tt, mk_table (delete (NEXT p) (delete (PPREV p) (pt_mem t)))
                                 (delete p (pt_procs t)) (pt_brk t))
  | None => None
  end.
Definition pid_of (p : Z) : ST table Z := λ t,
  match pt_procs t !! p with Some v => Some (v, t) | None => None end.

Section hash.
Context (hashfn : Z → option Z).

Definition create_process (pid : Z) : ST table unit :=
  p ← new_process pid;
  pid_hash ← st_lift (hashfn pid);
  on_mem (HlistHeadCpp.hlist_add_head p (bucket pid_hash)).

Fixpoint find_from (fuel : nat) (pid n : Z) : ST table Z :=
  match fuel with
  | O => st_fail
  | S f =>
      if n =? 0 then mret 0
      else pid' ← pid_of n;
           if pid' =? pid then mret n
           else n' ← on_mem (ld (NEXT n)); find_from f pid n'
  end.
Definition find_process (fuel : nat) (pid : Z) : ST table Z :=
  pid_hash ← st_lift (hashfn pid);
  n ← on_mem (ld (bucket pid_hash));
  find_from fuel pid n.

Definition del_process (fuel : nat) (pid : Z) : ST table unit :=
  p ← find_process fuel pid;
  if p =? 0 then mret tt
  else on_mem (HlistHeadCpp.hlist_del p) ;; delete_process p.
End hash.

(** One bucket of [view_table]: the pids, in chain order. *)
Fixpoint pids_from (fuel : nat) (n : Z) : ST table (list Z) :=
  match fuel with
  | O => st_fail
  | S f =>
      if n =? 0 then mret []
      else pid ← pid_of n; n' ← on_mem (ld (NEXT n));
           rest ← pids_from f n'; mret (pid :: rest)
  end.
Fixpoint view_from (fuel : nat) (i : Z) (todo : nat) : ST table (list (Z * list Z)) :=
  match todo with
  | O => mret []
  | S k =>
      first ← on_mem (ld (bucket i));
      pids ← pids_from fuel first;
      rest ← view_from fuel (i + 1) k;
      mret (if first =? 0 then rest else (i, pids) :: rest)
  end.
Definition view_table (fuel : nat) : ST table (list (Z * list Z)) :=
  view_from fuel 0 (Z.to_nat n_buckets).

(** [free_table]: [nn] is read before [n] is unlinked and deleted. *)
Fixpoint free_bucket (fuel : nat) (n : Z) : ST table unit :=
  match fuel with
  | O => st_fail
  | S f =>
      if n =? 0 then mret tt
      else nn ← on_mem (ld (NEXT n));
           on_mem (HlistHeadCpp.hlist_del n) ;;
           delete_process n ;;
           free_bucket f nn
  end.
Fixpoint free_from (fuel : nat) (i : Z) (todo : nat) : ST table unit :=
  match todo with
  | O => mret tt
  | S k => n ← on_mem (ld (bucket i));
           free_bucket fuel n ;;
           free_from fuel (i + 1) k
  end.
Definition free_table (fuel : nat) : ST table unit :=
  free_from fuel 0 (Z.to_nat n_buckets).

(** The zero-initialised global array, and an empty heap. *)
Definition initial : table :=
  mk_table (list_to_map ((λ i, (bucket (Z.of_nat i), 0)) <$> seq 0 2048)) ∅ heap_base.
End PidTable.

(** * The employee table *)

Module EHash.
(** [struct employee]: name (10 bytes), age at 16, employee_id at 24 and the
    node at 32; [struct ehash_info]: the size, then the buckets. *)
Record employee := mk_employee { name : string; age : Z; employee_id : Z }.
Record state := mk_state {
  eh_mem : mem; eh_emp : gmap Z employee; eh_brk : Z; eh_out : output
}.

Definition on_mem {A} (m : ST mem A) : ST state A := λ t,
  match m (eh_mem t) with
  | Some (a, c) => Some (a, mk_state c (eh_emp t) (eh_brk t) (eh_out t))
  | None => None
  end.
Definition print (s : string) : ST state unit := λ t,
  Some (tt, mk_state (eh_mem t) (eh_emp t) (eh_brk t) (eh_out t ++ [s])).

Definition ehashfn (employee_id ehash_size : Z) : Z :=
  Z.land employee_id (u64 (ehash_size - 1)).

Definition bucket (info i : Z) : Z := info + 8 + 8 * i.

(** [malloc], then the loop over the heads. *)
Definition malloc_info (ehash_size : Z) : ST state Z := λ t,
  let info := eh_brk t in
  Some (info, mk_state
    (<[info := ehash_size]>
      (foldr (λ i m, <[bucket info (Z.of_nat i) := 0]> m) (eh_mem t)
             (seq 0 (Z.to_nat ehash_size))))
    (eh_emp t) (bucket info ehash_size) (eh_out t)).
Fixpoint init_buckets (info i : Z) (todo : nat) : ST state unit :=
  match todo with
  | O => mret tt
  | S k => on_mem (Hlist.INIT_HLIST_HEAD (bucket info i)) ;; init_buckets info (i + 1) k
  end.
Definition alloc_ehash_info (ehash_size : Z) : ST state Z :=
  info ← malloc_info ehash_size;
  init_buckets info 0 (Z.to_nat ehash_size) ;;
  mret info.

(** [malloc(sizeof(struct employee))], then [strcpy] into a 10 byte array,
    which overflows for a longer name. *)
Definition NODE (e : Z) : Z := e + 32.
Definition employee_of (node : Z) : Z := node - 32.
Definition new_employee (e : employee) : ST state Z := λ t,
  if (String.length (name e) <? 10)%nat then
    let p := eh_brk t in
    Some (p, mk_state (<[NEXT (NODE p) := 0]> (<[PPREV (NODE p) := 0]> (eh_mem t)))
                      (<[p := e]> (eh_emp t)) (p + 48) (eh_out t))
  else None.
Definition get_employee (p : Z) : ST state employee := λ t,
  match eh_emp t !! p with Some e => Some (e, t) | None => None end.
Definition free_employee (p : Z) : ST state unit := λ t,
  match eh_emp t !! p with
  | Some _ => Some (tt, mk_state (delete (NEXT (NODE p)) (delete (PPREV (NODE p)) (eh_mem t)))
                                 (delete p (eh_emp t)) (eh_brk t) (eh_out t))
  | None => None
  end.

Fixpoint bucket_names (fuel : nat) (node : Z) : ST state string :=
  match fuel with
  | O => st_fail
  | S f =>
      if node =? 0 then mret ""
      else e ← get_employee (employee_of node);
           n ← on_mem (ld (NEXT node));
           rest ← bucket_names f n;
           mret (name e +:+ " " +:+ rest)
  end.
Fixpoint print_from (fuel : nat) (info i : Z) (todo : nat) : ST state unit :=
  match todo with
  | O => mret tt
  | S k =>
      first ← on_mem (ld (bucket info i));
      names ← bucket_names fuel first;
      print ("bucket " +:+ pretty i +:+ ": " +:+ names) ;;
      print_from fuel info (i + 1) k
  end.
Definition print_ehash_info (fuel : nat) (info : Z) : ST state unit :=
  ehash_size ← on_mem (ld info);
  print_from fuel info 0 (Z.to_nat ehash_size).

Fixpoint add_employees (info : Z) (employees : list employee) : ST state (list Z) :=
  match employees with
  | [] => mret []
  | e :: employees =>
      eptr ← new_employee e;
      on_mem (Hlist.INIT_HLIST_NODE (NODE eptr)) ;;
      ehash_size ← on_mem (ld info);
      on_mem (Hlist.hlist_add_head (NODE eptr)
                (bucket info (ehashfn (employee_id e) ehash_size))) ;;
      rest ← add_employees info employees;
      mret (eptr :: rest)
  end.
(** The clean-up loop takes employees from the back of [employee_list]. *)
Fixpoint remove_employees (fuel : nat) (info : Z) (from_back : list Z) : ST state unit :=
  match from_back with
  | [] => mret tt
  | eptr :: from_back =>
      e ← get_employee eptr;
      print ("Remove " +:+ name e +:+ " from the employee hash info") ;;
      on_mem (Hlist.hlist_del (NODE eptr)) ;;
      print "The employee hash info:" ;;
      print_ehash_info fuel info ;;
      free_employee eptr ;;
      remove_employees fuel info from_back
  end.
Definition main (fuel : nat) (ehash_size : Z) (employees : list employee)
    : ST state unit :=
  info ← alloc_ehash_info ehash_size;
  employee_list ← add_employees info employees;
  print "The employee hash info:" ;;
  print_ehash_info fuel info ;;
  remove_employees fuel info (rev employee_list).

Definition employees : list employee := [
  mk_employee "Alice" 20 2000; mk_employee "Bob" 20 2001;
  mk_employee "Justin" 31 2002; mk_employee "Cat" 31 2003;
  mk_employee "Selina" 31 2004; mk_employee "Don" 31 2005;
  mk_employee "Xavier" 31 2006].

Definition start : state := mk_state ∅ ∅ 4096 [].
End EHash.

Import PidTable.

(** * The invariant of the process table *)

(** [bs i] are the processes of bucket [i], in chain order. *)
Record table_ok (hashfn : Z → option Z) (t : table) (bs : Z → list Z) : Prop := {
  ok_bucket i : 0 ≤ i < n_buckets → is_hlist (pt_mem t) (bucket i) (bs i);
  ok_proc i p : 0 ≤ i < n_buckets → p ∈ bs i →
    ∃ pid, pt_procs t !! p = Some pid ∧ hashfn pid = Some i;
  ok_live p pid : pt_procs t !! p = Some pid →
    ∃ i, 0 ≤ i < n_buckets ∧ hashfn pid = Some i ∧ p ∈ bs i;
  ok_addr p pid : pt_procs t !! p = Some pid →
    heap_base ≤ p < pt_brk t ∧ (24 | p - heap_base);
  ok_brk : heap_base ≤ pt_brk t ∧ (24 | pt_brk t - heap_base)
}.

Definition upd {A} (f : Z → A) (i : Z) (v : A) : Z → A :=
  λ j, if decide (j = i) then v else f j.

Lemma upd_eq {A} (f : Z → A) i v : upd f i v i = v.
Proof. unfold upd. by rewrite decide_True. Qed.
Lemma upd_ne {A} (f : Z → A) i v j : j ≠ i → upd f i v j = f j.
Proof. intros. unfold upd. by rewrite decide_False. Qed.

Lemma table_ok_ext hashfn t bs bs' :
  (∀ j, 0 ≤ j < n_buckets → bs' j = bs j) →
  table_ok hashfn t bs → table_ok hashfn t bs'.
Proof.
  intros E []. constructor; auto.
  - intros j Hj. rewrite E; auto.
  - intros j p Hj. rewrite E; auto.
  - intros p pid Hp. destruct (ok_live0 p pid Hp) as (j & Hj & ? & ?).
    exists j. by rewrite E.
Qed.

Section table.
Context (hashfn : Z → option Z).
Context (hash_range : ∀ pid i, hashfn pid = Some i → 0 ≤ i < n_buckets).
Implicit Types (t : table) (bs : Z → list Z).

(** A cell of a bucket is its head or belongs to a live node. *)
Lemma bucket_cell t bs i z :
  table_ok hashfn t bs → 0 ≤ i < n_buckets → z ∈ bucket i :: cells (bs i) →
  z = bucket i ∨ ∃ p, p ∈ bs i ∧ (z = p ∨ z = PPREV p) ∧
                      heap_base ≤ p < pt_brk t ∧ (24 | p - heap_base).
Proof.
  intros Hok Hi [->|[Hz|(p & -> & Hp)]%elem_of_cells]%elem_of_cons; [by left| |];
    right; eexists; (split; [eassumption|]); (split; [auto|]);
    edestruct (ok_proc _ _ _ Hok i) as (pid & Hpid & _); eauto using ok_addr.
Qed.

Lemma bucket_range i : 0 ≤ i < n_buckets → 0 < bucket i < heap_base.
Proof. unfold bucket, heap_base, hash_table, n_buckets. lia. Qed.

Lemma buckets_apart t bs i j z :
  table_ok hashfn t bs → 0 ≤ i < n_buckets → 0 ≤ j < n_buckets → i ≠ j →
  z ∈ bucket i :: cells (bs i) → z ∉ bucket j :: cells (bs j).
Proof.
  intros Hok Hi Hj Hij Hz Hz'.
  pose proof (bucket_range i Hi). pose proof (bucket_range j Hj).
  apply (bucket_cell t bs) in Hz; [|done..]. apply (bucket_cell t bs) in Hz'; [|done..].
  destruct Hz as [->|(p & Hp & Ep & Rp & [a Ha])],
    Hz' as [E|(q & Hq & Eq & Rq & [b Hb])]; unfold PPREV in *.
  - unfold bucket in E. lia.
  - lia.
  - lia.
  - assert (p = q) as -> by lia.
    destruct (ok_proc _ _ _ Hok i q) as (pid & E1 & E2); [done..|].
    destruct (ok_proc _ _ _ Hok j q) as (pid' & E3 & E4); [done..|].
    simplify_eq.
Qed.

(** The cells at the break are in no bucket. *)
Lemma brk_fresh t bs i :
  table_ok hashfn t bs → 0 ≤ i < n_buckets →
  pt_brk t ∉ bucket i :: cells (bs i) ∧ PPREV (pt_brk t) ∉ bucket i :: cells (bs i).
Proof.
  intros Hok Hi. pose proof (bucket_range i Hi).
  destruct (ok_brk _ _ _ Hok) as [? [b Hb]].
  split; intros [E|(p & _ & E & Rp & [a Ha])]%(bucket_cell t bs);
    unfold PPREV in *; auto; lia.
Qed.

(** A change of one bucket's cells leaves the others alone. *)
Lemma other_bucket t bs i j (m' : mem) (zs : list Z) :
  table_ok hashfn t bs → 0 ≤ i < n_buckets → 0 ≤ j < n_buckets → j ≠ i →
  (∀ z, z ∈ zs → z ∈ bucket i :: cells (bs i) ∨ z = pt_brk t ∨ z = PPREV (pt_brk t)) →
  (∀ z, z ∉ zs → m' !! z = pt_mem t !! z) →
  is_hlist m' (bucket j) (bs j).
Proof.
  intros Hok Hi Hj Hij Hzs Hf.
  eapply is_hlist_frame; [|by apply (ok_bucket _ _ _ Hok)].
  intros z Hz. apply Hf. intros [Hz'|Hz']%Hzs.
  - by apply (buckets_apart t bs i j z).
  - pose proof (brk_fresh t bs j Hok Hj) as [? ?]. destruct Hz' as [-> | ->]; done.
Qed.

Lemma create_process_run t bs pid i :
  table_ok hashfn t bs → hashfn pid = Some i →
  ∃ t', create_process hashfn pid t = Some (tt, t') ∧
    table_ok hashfn t' (upd bs i (pt_brk t :: bs i)) ∧
    pt_procs t' = <[pt_brk t := pid]> (pt_procs t).
Proof.
  intros Hok Hh. pose proof (hash_range _ _ Hh) as Hi.
  set (p := pt_brk t).
  destruct (brk_fresh t bs i Hok Hi) as [F1 F2].
  pose proof (ok_brk _ _ _ Hok) as [Hb Hd]. fold p in F1, F2, Hb, Hd.
  assert (p ≠ 0) as Hp0 by (pose proof (bucket_range i Hi); lia).
  assert (PPREV p ≠ p) as Hpp by (unfold PPREV; lia).
  set (m1 := <[NEXT p := 0]> (<[PPREV p := 0]> (pt_mem t))).
  assert (is_hlist m1 (bucket i) (bs i)) as Hl.
  { eapply is_hlist_frame; [|by apply (ok_bucket _ _ _ Hok)].
    intros z Hz. unfold m1, NEXT. rewrite !lookup_insert_ne; [done|by intros <-..]. }
  assert (NoDup (bucket i :: cells (p :: bs i))) as Hnd.
  { apply (NoDup_cells_insert _ [] p). split_all; [done|done|]. apply Hl. }
  assert (inserted m1 (bucket i) (Hlist.hlist_add_head p (bucket i)) (p :: bs i))
    as (m' & Hr & Hl' & Hf).
  { apply add_head_run; [done| | |done|done]; unfold m1, NEXT;
      rewrite ?lookup_insert_eq, ?(lookup_insert_ne _ p), ?lookup_insert_eq by done;
      eauto. }
  exists (mk_table m' (<[p := pid]> (pt_procs t)) (p + 24)).
  split; [|split; [|done]].
  - unfold create_process.
    erewrite st_bind_eq by reflexivity. fold p m1.
    erewrite st_bind_eq by (unfold st_lift; by rewrite Hh).
    unfold on_mem. cbn [pt_mem pt_procs pt_brk].
    rewrite (Hr : HlistHeadCpp.hlist_add_head _ _ m1 = _). done.
  - constructor; cbn [pt_mem pt_procs pt_brk].
    + intros j Hj. unfold upd. case_decide as E; [by subst|].
      apply (other_bucket t bs i j m' (bucket i :: cells (p :: bs i))); try done.
      * intros z. rewrite cells_cons_perm, !elem_of_cons. tauto.
      * intros z Hz. rewrite Hf by done. unfold m1, NEXT.
        rewrite cells_cons_perm, !not_elem_of_cons in Hz.
        rewrite !lookup_insert_ne; [done|by intros <-; destruct Hz as (? & ? & ? & ?)..].
    + intros j q Hj. unfold upd. case_decide as E; [subst j|].
      * intros [->|Hq]%elem_of_cons; [exists pid; by rewrite lookup_insert_eq|].
        destruct (ok_proc _ _ _ Hok i q Hi Hq) as (pid' & E1 & E2).
        exists pid'. rewrite lookup_insert_ne; [done|].
        intros <-. apply F1. right. apply elem_of_cells. by left.
      * intros Hq. destruct (ok_proc _ _ _ Hok j q Hj Hq) as (pid' & E1 & E2).
        exists pid'. rewrite lookup_insert_ne; [done|]. intros <-.
        apply (ok_addr _ _ _ Hok) in E1. fold p in E1. lia.
    + intros q pid'. rewrite lookup_insert. case_decide as E.
      * intros [= <-]. subst q. exists i. split; [done|]. split; [done|].
        rewrite upd_eq. left.
      * intros Hq. destruct (ok_live _ _ _ Hok q pid' Hq) as (j & Hj & E1 & E2).
        exists j. split; [done|]. split; [done|]. unfold upd. case_decide; [|done].
        subst. by right.
    + intros q pid'. rewrite lookup_insert. case_decide as E.
      * intros _. subst q. split; [lia|done].
      * intros Hq. destruct (ok_addr _ _ _ Hok q pid' Hq). unfold p. split; [lia|done].
    + split; [lia|]. destruct Hd as [b Hd]. exists (b + 1). lia.
Qed.

Lemma NoDup_bucket t bs i :
  table_ok hashfn t bs → 0 ≤ i < n_buckets → NoDup (bs i).
Proof.
  intros Hok Hi. destruct (ok_bucket _ _ _ Hok i Hi) as ([_ H]%NoDup_cons & _).
  unfold cells in H. by apply NoDup_app in H as (? & _).
Qed.

(** Unlinking and deleting one process of a bucket. *)
Lemma unlink_run t bs i xs p ys :
  table_ok hashfn t bs → 0 ≤ i < n_buckets → bs i = xs ++ p :: ys →
  ∃ t', (on_mem (HlistHeadCpp.hlist_del p) ;; delete_process p) t = Some (tt, t') ∧
    table_ok hashfn t' (upd bs i (xs ++ ys)) ∧
    pt_procs t' = delete p (pt_procs t).
Proof.
  intros Hok Hi Ebs. pose proof (ok_bucket _ _ _ Hok i Hi) as Hl.
  rewrite Ebs in Hl.
  destruct (__hlist_del_run _ _ _ _ _ Hl) as (m1 & Hr & Hl1 & _ & _ & _ & N1 & N2 & Hf).
  assert (p ∈ bs i) as Hp by (rewrite Ebs; apply elem_of_app; right; left).
  destruct (ok_proc _ _ _ Hok i p Hi Hp) as (pid & Hpid & Hh).
  assert (∀ z, z ∈ p :: PPREV p :: bucket i :: cells (xs ++ ys) ↔
               z ∈ bucket i :: cells (bs i)) as Hperm.
  { intros z. rewrite Ebs. assert (bucket i :: cells (xs ++ p :: ys) ≡ₚ
      p :: PPREV p :: bucket i :: cells (xs ++ ys)) as ->; [|done].
    rewrite !cells_app_perm, cells_cons_perm. solve_Permutation. }
  assert (∀ j q, 0 ≤ j < n_buckets → q ∈ upd bs i (xs ++ ys) j → q ∈ bs j ∧ q ≠ p) as Hsub.
  { intros j q Hj. unfold upd. case_decide as E; [subst j|].
    - intros Hq. split; [rewrite Ebs; set_solver|]. intros ->.
      apply N1. right. apply elem_of_cells. by left.
    - intros Hq. split; [done|]. intros ->.
      destruct (ok_proc _ _ _ Hok j p Hj Hq) as (pid' & ? & ?). simplify_eq. }
  exists (mk_table (delete (NEXT p) (delete (PPREV p) m1))
            (delete p (pt_procs t)) (pt_brk t)).
  split; [|split; [|done]].
  - erewrite st_bind_eq
      by (unfold on_mem; rewrite (Hr : HlistHeadCpp.hlist_del _ _ = _); done).
    unfold delete_process. cbn [pt_procs pt_mem pt_brk]. by rewrite Hpid.
  - constructor; cbn [pt_mem pt_procs pt_brk].
    + intros j Hj. unfold upd. case_decide as E; [subst j|].
      * eapply is_hlist_frame; [|exact Hl1]. unfold NEXT.
        intros z Hz. rewrite !lookup_delete_ne; [done|by intros <-..].
      * apply (other_bucket t bs i j _ (p :: PPREV p :: bucket i :: cells (xs ++ ys)));
          [done..|intros z Hz%Hperm; by left|].
        intros z (H1 & H2 & H3)%not_elem_of_cons%(λ H, conj (proj1 H)
          (proj1 (not_elem_of_cons _ _ _) (proj2 H))).
        unfold NEXT. rewrite !lookup_delete_ne by congruence. by apply Hf.
    + intros j q Hj Hq. apply Hsub in Hq as [Hq Hne]; [|done].
      rewrite lookup_delete_ne by done. by apply (ok_proc _ _ _ Hok).
    + intros q pid' [Hne Hq]%lookup_delete_Some.
      destruct (ok_live _ _ _ Hok q pid' Hq) as (j & Hj & E1 & E2).
      exists j. split; [done|]. split; [done|]. unfold upd. case_decide; [|done].
      subst j. rewrite Ebs in E2. set_solver.
    + intros q pid' [Hne Hq]%lookup_delete_Some. by apply (ok_addr _ _ _ Hok) in Hq.
    + apply (ok_brk _ _ _ Hok).
Qed.

(** The walk down a chain returns the first process with the wanted pid. *)
Definition first_with (t : table) (pid : Z) (ps : list Z) : Z :=
  match list_find (λ p, pt_procs t !! p = Some pid) ps with
  | Some (_, p) => p | None => 0 end.

Lemma find_from_run t pid c ys fuel :
  chain (pt_mem t) c ys → 0 ∉ ys → (∀ p, p ∈ ys → is_Some (pt_procs t !! p)) →
  (length ys < fuel)%nat →
  find_from fuel pid (hd 0 ys) t = Some (first_with t pid ys, t).
Proof.
  revert c fuel; induction ys as [|y ys IH]; intros c [|fuel] Hc H0 Hp Hf;
    simpl in *; try lia; [done|].
  apply not_elem_of_cons in H0 as [Hy H0].
  rewrite (proj2 (Z.eqb_neq _ _) (not_eq_sym Hy)).
  destruct (Hp y) as [pid' Ey]; [left|].
  erewrite st_bind_eq by (unfold pid_of; by rewrite Ey).
  unfold first_with. simpl. case_decide as E.
  - rewrite Ey in E. injection E as ->. by rewrite Z.eqb_refl.
  - rewrite (proj2 (Z.eqb_neq _ _)) by congruence.
    destruct Hc as [(_ & _ & Hpre) Hz].
    assert (chain (pt_mem t) (NEXT y) ys) as Hc by by split.
    erewrite st_bind_eq
      by (unfold on_mem; erewrite ld_eq by (by apply chain_hd); by destruct t).
    rewrite (IH (NEXT y) fuel); [|done|done|set_solver|lia].
    unfold first_with. by destruct (list_find _ ys) as [[]|].
Qed.

Lemma find_process_run t bs pid i fuel :
  table_ok hashfn t bs → hashfn pid = Some i → (length (bs i) < fuel)%nat →
  find_process hashfn fuel pid t = Some (first_with t pid (bs i), t).
Proof.
  intros Hok Hh Hf. pose proof (hash_range _ _ Hh) as Hi.
  destruct (ok_bucket _ _ _ Hok i Hi) as (_ & H0 & Hc).
  unfold find_process. erewrite st_bind_eq by (unfold st_lift; by rewrite Hh).
  erewrite st_bind_eq
    by (unfold on_mem; erewrite ld_eq by (by apply chain_hd); by destruct t).
  apply (find_from_run t pid (bucket i)); [done..| |done].
  intros p Hp. destruct (ok_proc _ _ _ Hok i p Hi Hp) as (pid' & -> & _). eauto.
Qed.

Lemma first_with_None t bs pid i :
  table_ok hashfn t bs → hashfn pid = Some i →
  first_with t pid (bs i) = 0 ↔ ∀ p, pt_procs t !! p ≠ Some pid.
Proof.
  intros Hok Hh. pose proof (hash_range _ _ Hh) as Hi.
  destruct (ok_bucket _ _ _ Hok i Hi) as (_ & H0 & _). unfold first_with.
  destruct (list_find _ _) as [[k p]|] eqn:E.
  - apply list_find_Some in E as (E1 & E2 & _). split.
    + intros ->. apply list_elem_of_lookup_2 in E1. done.
    + intros H. by destruct (H p).
  - split; [|done]. intros _ p Hp.
    destruct (ok_live _ _ _ Hok p pid Hp) as (j & _ & E1 & E2). simplify_eq.
    apply list_find_None in E. rewrite Forall_forall in E. by apply (E p).
Qed.
End table.

(** Freeing one bucket, and the rest of the array. *)
Section free.
Context (hashfn : Z → option Z).
Context (hash_range : ∀ pid i, hashfn pid = Some i → 0 ≤ i < n_buckets).

Lemma free_bucket_run t bs i ys fuel :
  table_ok hashfn t bs → 0 ≤ i < n_buckets → bs i = ys → (length ys < fuel)%nat →
  ∃ t', free_bucket fuel (hd 0 ys) t = Some (tt, t') ∧
    table_ok hashfn t' (upd bs i []).
Proof.
  revert t bs fuel; induction ys as [|y ys IH]; intros t bs [|fuel] Hok Hi Ebs Hf;
    simpl in *; try lia.
  - exists t. split; [done|]. eapply table_ok_ext; [|exact Hok].
    intros j _. unfold upd. case_decide; by subst.
  - pose proof (ok_bucket _ _ _ Hok i Hi) as (_ & H0 & Hc). rewrite Ebs in H0, Hc.
    apply not_elem_of_cons in H0 as [Hy H0].
    rewrite (proj2 (Z.eqb_neq _ _) (not_eq_sym Hy)).
    destruct Hc as [(_ & _ & Hpre) Hz].
    assert (chain (pt_mem t) (NEXT y) ys) as Hc by by split.
    erewrite st_bind_eq
      by (unfold on_mem; erewrite ld_eq by (by apply chain_hd); by destruct t).
    destruct (unlink_run hashfn hash_range t bs i [] y ys Hok Hi Ebs) as (t1 & Hr & Hok1 & _).
    apply st_bind_Some in Hr as ([] & t0 & Hr1 & Hr2).
    erewrite st_bind_eq by done. erewrite st_bind_eq by done.
    destruct (IH t1 _ fuel Hok1 Hi) as (t' & Hr' & Hok'); [apply upd_eq|lia|].
    exists t'. split; [done|]. eapply table_ok_ext; [|exact Hok'].
    intros j _. unfold upd. by case_decide.
Qed.

Lemma free_from_run t bs i k fuel :
  table_ok hashfn t bs → 0 ≤ i → i + Z.of_nat k = n_buckets →
  (∀ j, 0 ≤ j < n_buckets → (length (bs j) < fuel)%nat) →
  (∀ j, 0 ≤ j < i → bs j = []) →
  ∃ t', free_from fuel i k t = Some (tt, t') ∧ table_ok hashfn t' (λ _, []).
Proof.
  revert t bs i; induction k as [|k IH]; intros t bs i Hok Hi Hk Hf Hb; simpl.
  - exists t. split; [done|]. eapply table_ok_ext; [|exact Hok].
    intros j Hj. symmetry. apply Hb. lia.
  - assert (0 ≤ i < n_buckets) as Hi' by lia.
    destruct (ok_bucket _ _ _ Hok i Hi') as (_ & _ & Hc).
    erewrite st_bind_eq
      by (unfold on_mem; erewrite ld_eq by (by apply chain_hd); by destruct t).
    destruct (free_bucket_run t bs i (bs i) fuel Hok Hi' eq_refl) as (t1 & Hr & Hok1);
      [auto|].
    erewrite st_bind_eq by done. apply (IH t1 (upd bs i [])); [done|lia|lia| |].
    + intros j Hj. unfold upd. case_decide; [|auto]. subst.
      specialize (Hf i Hj). simpl. lia.
    + intros j Hj. unfold upd. case_decide; [done|]. apply Hb. lia.
Qed.
End free.

(** * The properties of the process table *)


(** [find_process] returns null exactly when no live process has the pid;
    then [del_process] changes nothing, and otherwise it unlinks and deletes one
    live process with that pid, keeping the table well formed and every other
    process. *)
Theorem del_process_spec hashfn t bs pid i fuel :
  (∀ pid i, hashfn pid = Some i → 0 ≤ i < n_buckets) →
  table_ok hashfn t bs → hashfn pid = Some i → (length (bs i) < fuel)%nat →
  (find_process hashfn fuel pid t = Some (0, t) ∧
   (∀ p, pt_procs t !! p ≠ Some pid) ∧
   del_process hashfn fuel pid t = Some (tt, t)) ∨
  (∃ p xs ys t', pt_procs t !! p = Some pid ∧ bs i = xs ++ p :: ys ∧
   find_process hashfn fuel pid t = Some (p, t) ∧
   del_process hashfn fuel pid t = Some (tt, t') ∧
   table_ok hashfn t' (upd bs i (xs ++ ys)) ∧
   pt_procs t' = delete p (pt_procs t)).
Proof.
  intros Hr Hok Hh Hf. pose proof (Hr _ _ Hh) as Hi.
  pose proof (find_process_run _ Hr t bs pid i fuel Hok Hh Hf) as Hfind.
  pose proof (first_with_None _ Hr t bs pid i Hok Hh) as Hnone.
  unfold del_process. destruct (decide (first_with t pid (bs i) = 0)) as [E|E].
  - left. rewrite E in *. split_all; [done|by apply Hnone|].
    by rewrite (st_bind_eq _ _ _ _ _ Hfind).
  - right. rewrite (st_bind_eq _ _ _ _ _ Hfind). rewrite (proj2 (Z.eqb_neq _ _) E).
    rewrite Hfind. unfold first_with in *.
    destruct (list_find _ (bs i)) as [[k p]|] eqn:El; [|done].
    apply list_find_Some in El as (E1 & E2 & _).
    apply list_elem_of_split_length in E1 as (xs & ys & Ebs & _).
    destruct (unlink_run hashfn Hr t bs i xs p ys Hok Hi Ebs) as (t' & ? & ? & ?).
    by exists p, xs, ys, t'.
Qed.

(** [free_table] deletes every live process and leaves every bucket empty,
    in any well-formed table: nothing is leaked, no freed node is read. *)
Theorem free_table_spec hashfn t bs fuel :
  (∀ pid i, hashfn pid = Some i → 0 ≤ i < n_buckets) →
  table_ok hashfn t bs → (∀ j, 0 ≤ j < n_buckets → (length (bs j) < fuel)%nat) →
  ∃ t', free_table fuel t = Some (tt, t') ∧ pt_procs t' = ∅ ∧
    ∀ j, 0 ≤ j < n_buckets → is_hlist (pt_mem t') (bucket j) [].
Proof.
  intros Hr Hok Hf.
  destruct (free_from_run hashfn Hr t bs 0 (Z.to_nat n_buckets) fuel Hok)
    as (t' & Ht & Hok'); [lia|done|done|lia|].
  exists t'. split_all; [done| |by apply Hok'].
  apply map_empty. intros p. destruct (pt_procs t' !! p) as [pid|] eqn:E; [|done].
  apply (ok_live _ _ _ Hok') in E as (j & _ & _ & Hin). by apply not_elem_of_nil in Hin.
Qed.

(** The file's own hash is undefined for every pid: [sizeof(hash) - bits] is
    [4 - 11] in [size_t], far beyond the 32 bits of the operand, so no process
    can be created, found or deleted with defined behaviour. *)
Theorem hash_long_undefined t fuel pid :
  pid_hashfn pid = None ∧
  create_process pid_hashfn pid t = None ∧
  find_process pid_hashfn fuel pid t = None ∧
  del_process pid_hashfn fuel pid t = None.
Proof. split_all; reflexivity. Qed.

(** ** A correct hash, and concrete runs *)

(** The shift the code means: the [bits] top bits of a 32-bit word. *)
Definition shift_hash (pid : Z) : option Z :=
  Some (Z.shiftr (u32 (u32 pid * 0x9e370001)) (32 - pidhash_shift)).

Lemma shift_hash_range pid i : shift_hash pid = Some i → 0 ≤ i < n_buckets.
Proof.
  intros [= <-]. unfold pidhash_shift, n_buckets. rewrite Z.shiftr_div_pow2 by lia.
  pose proof (wrap_range 32 (u32 pid * 0x9e370001) ltac:(lia)) as H.
  unfold u32, in_unsigned in *. split; [apply Z.div_pos; lia|].
  apply Z.div_lt_upper_bound; lia.
Qed.

Lemma initial_cell i : 0 ≤ i < n_buckets → pt_mem initial !! bucket i = Some 0.
Proof.
  intros Hi. unfold initial, pt_mem. apply elem_of_list_to_map_1.
  - rewrite <- list_fmap_compose. apply NoDup_fmap_2_strong; [|apply NoDup_seq].
    intros a b _ _. unfold compose, bucket. simpl fst. lia.
  - apply list_elem_of_fmap. exists (Z.to_nat i). split; [by rewrite Z2Nat.id by lia|].
    apply elem_of_seq. unfold n_buckets in Hi. lia.
Qed.

Lemma initial_ok : table_ok shift_hash initial (λ _, []).
Proof.
  pose proof initial_cell as Hc.
  assert (pt_procs initial = ∅) as Hp by reflexivity.
  assert (pt_brk initial = heap_base) as Hb by reflexivity.
  revert Hc Hp Hb. generalize initial. intros t Hc Hp Hb. constructor.
  - intros i Hi. split; [apply NoDup_singleton|]. split; [apply not_elem_of_nil|].
    split; [done|]. by apply Hc.
  - intros i p _ Hin. by apply not_elem_of_nil in Hin.
  - intros p pid. by rewrite Hp, lookup_empty.
  - intros p pid. by rewrite Hp, lookup_empty.
  - rewrite Hb. split; [done|]. by exists 0.
Qed.


Lemma del_process_witness :
  (∀ p, pt_procs initial !! p ≠ Some 42) ∧
  del_process shift_hash 1 42 initial = Some (tt, initial).
Proof.
  destruct (del_process_spec shift_hash initial (λ _, []) 42
              (default 0 (shift_hash 42)) 1) as [(_ & H1 & H2)|(p & ? & ? & ? & H & _)];
    [apply shift_hash_range|apply initial_ok|reflexivity|simpl; lia|eauto|].
  simpl in H. by rewrite lookup_empty in H.
Defined.

Lemma free_table_witness : ∃ t',
  free_table 1 initial = Some (tt, t') ∧ pt_procs t' = ∅.
Proof.
  destruct (free_table_spec shift_hash initial (λ _, []) 1) as (t' & H1 & H2 & _);
    [apply shift_hash_range|apply initial_ok|simpl; lia|eauto].
Defined.

(** The bucket index of the employee table is the id modulo the size, when the
    size is a power of two. *)
Lemma ehashfn_mod id k :
  0 ≤ k ≤ 63 → EHash.ehashfn id (2 ^ k) = id mod 2 ^ k.
Proof.
  intros Hk. unfold EHash.ehashfn.
  assert (0 < 2 ^ k <= 2 ^ 63).
  { split; [apply Z.pow_pos_nonneg; lia|apply Z.pow_le_mono_r; lia]. }
  unfold u64. rewrite wrap_id by (unfold in_unsigned; lia).
  rewrite <- Z.land_ones by lia. by rewrite Z.ones_equiv, Z.sub_1_r.
Qed.

(** The demo prints the full table first, then empties it from the back, and
    leaves no employee allocated. *)
Example ehash_demo_run :
  option_map (λ '(_, t), (take 5 (EHash.eh_out t), last (EHash.eh_out t),
                          length (EHash.eh_out t), bool_decide (EHash.eh_emp t = ∅)))
    (EHash.main 10 4 EHash.employees EHash.start) =
  Some (["The employee hash info:"; "bucket 0: Selina Alice "; "bucket 1: Don Bob ";
         "bucket 2: Xavier Justin "; "bucket 3: Cat "],
        Some "bucket 3: ", 47%nat, true).
Proof. vm_compute. reflexivity. Qed.
