(* ===== verification/Fifo.v ===== *)
(** What a bounded first-in first-out queue promises to its users.

    [BoundedFifo] is the interface between the queues of the repository and the
    programs that push and pop through them; it is implemented by
    [RingBuffer] of ring_buffer.cpp (RingSpsc.v), the single-threaded mode of
    rte_ring_buffer.cpp (RteRing.v) and [Queue] of cpp/cpp_class/queue.h
    (ClassQueue.v).  The client is the producer/consumer pair of
    [test_threaded] in
    [src/cpp/cpp_coding/ring_buffer/ring_buffer.cpp], with push and pop taken as
    atomic; its theorem is proved once, against the interface. *)

From S2P Require Import Prelude.

(** [push] returns whether it took the element, [pop] the element it took.  [None]
    of the state monad is undefined behaviour. *)
Class BoundedFifo (Q V : Type) := {
  fifo_ok : Q → Prop;
  fifo_elems : Q → list V;
  fifo_room : Q → nat;
  fifo_push : V → ST Q bool;
  fifo_pop : ST Q (option V);
  fifo_bound q : fifo_ok q → length (fifo_elems q) ≤ fifo_room q;
  fifo_push_ok v q : fifo_ok q → length (fifo_elems q) < fifo_room q →
    ∃ q', fifo_push v q = Some (true, q') ∧ fifo_ok q' ∧
      fifo_elems q' = fifo_elems q ++ [v] ∧ fifo_room q' = fifo_room q;
  fifo_push_full v q : fifo_ok q → length (fifo_elems q) = fifo_room q →
    fifo_push v q = Some (false, q);
  fifo_pop_ok v vs q : fifo_ok q → fifo_elems q = v :: vs →
    ∃ q', fifo_pop q = Some (Some v, q') ∧ fifo_ok q' ∧
      fifo_elems q' = vs ∧ fifo_room q' = fifo_room q;
  fifo_pop_empty q : fifo_ok q → fifo_elems q = [] →
    fifo_pop q = Some (None, q)
}.

(** * The producer and the consumer *)

Section client.
Context {Q V : Type} `{BoundedFifo Q V} `{EqDecision V} (item : nat → V).

(** The queue and the two loop counters: the producer has pushed [item 0] to
    [item (cl_i - 1)], the consumer has popped [cl_j] values. *)
Record client := mk_client { cl_q : Q; cl_i : nat; cl_j : nat }.

(** One turn of the producer's loop: [while (!buffer.push(i)) {}] tries once and,
    on success, moves to the next item. *)
Definition producer_turn (c : client) : option client :=
  match fifo_push (item (cl_i c)) (cl_q c) with
  | Some (true, q) => Some (mk_client q (S (cl_i c)) (cl_j c))
  | Some (false, q) => Some (mk_client q (cl_i c) (cl_j c))
  | None => None
  end.

(** One turn of the consumer's loop; a value that is not the expected one
    violates [assert(value == i)]. *)
Definition consumer_turn (c : client) : option client :=
  match fifo_pop (cl_q c) with
  | Some (Some v, q) =>
      if decide (v = item (cl_j c)) then Some (mk_client q (cl_i c) (S (cl_j c)))
      else None
  | Some (None, q) => Some (mk_client q (cl_i c) (cl_j c))
  | None => None
  end.

(** A schedule: [true] lets the producer try, [false] the consumer. *)
Fixpoint run_client (sched : list bool) (c : client) : option client :=
  match sched with
  | [] => Some c
  | b :: sched =>
      c' ← (if b : bool then producer_turn c else consumer_turn c);
      run_client sched c'
  end.

(** The queue holds the items between the two counters. *)
Definition client_ok (c : client) : Prop :=
  fifo_ok (cl_q c) ∧ cl_j c ≤ cl_i c ∧
  fifo_elems (cl_q c) = item <$> seq (cl_j c) (cl_i c - cl_j c).

Lemma producer_turn_ok c :
  client_ok c → ∃ c', producer_turn c = Some c' ∧ client_ok c' ∧
    fifo_room (cl_q c') = fifo_room (cl_q c) ∧ cl_j c' = cl_j c ∧
    cl_i c' = cl_i c + (if decide (cl_i c - cl_j c < fifo_room (cl_q c)) then 1 else 0).
Proof.
  intros (Hok & Hle & He). unfold producer_turn.
  pose proof (fifo_bound _ Hok) as Hb.
  assert (length (fifo_elems (cl_q c)) = cl_i c - cl_j c) as Hl
    by (rewrite He; by rewrite length_fmap, length_seq).
  case_decide as Hlt.
  - destruct (fifo_push_ok (item (cl_i c)) _ Hok) as (q' & -> & Hok' & He' & Hr); [lia|].
    eexists. split; [done|]. split_all; [|done..|simpl; lia].
    unfold client_ok; simpl. split_all; [done|lia|].
    rewrite He', He. rewrite Nat.sub_succ_l by lia. rewrite seq_S, fmap_app. simpl.
    by rewrite Nat.add_sub_assoc, Nat.add_comm, Nat.add_sub by lia.
  - rewrite (fifo_push_full _ _ Hok) by lia. eexists. split; [done|].
    split_all; [|done..|simpl; lia]. done.
Qed.

Lemma consumer_turn_ok c :
  client_ok c → ∃ c', consumer_turn c = Some c' ∧ client_ok c' ∧
    fifo_room (cl_q c') = fifo_room (cl_q c) ∧ cl_i c' = cl_i c ∧
    cl_j c' = cl_j c + (if decide (cl_j c < cl_i c) then 1 else 0).
Proof.
  intros (Hok & Hle & He). unfold consumer_turn. case_decide as Hlt.
  - replace (cl_i c - cl_j c) with (S (cl_i c - S (cl_j c))) in He by lia.
    simpl in He.
    destruct (fifo_pop_ok _ _ _ Hok He) as (q' & -> & Hok' & He' & Hr).
    rewrite decide_True by done. eexists. split; [done|].
    split_all; [|done..|simpl; lia]. unfold client_ok; simpl. split_all; [done|lia|].
    by rewrite He'.
  - rewrite (fifo_pop_empty _ Hok).
    + eexists. split; [done|]. split_all; [|done..|simpl; lia]. done.
    + rewrite He. by replace (cl_i c - cl_j c) with 0 by lia.
Qed.

Lemma run_client_ok sched c :
  client_ok c → ∃ c', run_client sched c = Some c' ∧ client_ok c' ∧
    fifo_room (cl_q c') = fifo_room (cl_q c).
Proof.
  revert c; induction sched as [|b sched IH]; intros c Hok; simpl; [by exists c|].
  assert (∃ c1, (if b then producer_turn c else consumer_turn c) = Some c1 ∧
            client_ok c1 ∧ fifo_room (cl_q c1) = fifo_room (cl_q c))
    as (c1 & -> & Hok1 & Hr1).
  { destruct b; [destruct (producer_turn_ok c Hok) as (c1 & ? & ? & ? & _)
                |destruct (consumer_turn_ok c Hok) as (c1 & ? & ? & ? & _)]; eauto. }
  simpl. destruct (IH c1 Hok1) as (c' & ? & ? & ?). exists c'. split_all; [done..|congruence].
Qed.

(** Alternating turns transfer one item per round. *)
Lemma alternate_progress n c :
  client_ok c → cl_i c = cl_j c → 0 < fifo_room (cl_q c) →
  ∃ c', run_client (concat (replicate n [true; false])) c = Some c' ∧ client_ok c' ∧
    cl_i c' = cl_i c + n ∧ cl_j c' = cl_j c + n.
Proof.
  revert c; induction n as [|n IH]; intros c Hok Hij Hr; simpl.
  - exists c. split_all; [done..|lia|lia].
  - destruct (producer_turn_ok c Hok) as (c1 & -> & Hok1 & Hr1 & Hj1 & Hi1).
    rewrite decide_True in Hi1 by lia. simpl.
    destruct (consumer_turn_ok c1 Hok1) as (c2 & -> & Hok2 & Hr2 & Hi2 & Hj2).
    rewrite decide_True in Hj2 by lia. simpl.
    destruct (IH c2 Hok2) as (c' & ? & ? & ? & ?); [lia|lia|].
    exists c'. split_all; [done..|lia|lia].
Qed.
End client.

Arguments mk_client {Q} _ _ _.
Arguments cl_q {Q} _.
Arguments cl_i {Q} _.
Arguments cl_j {Q} _.
Arguments client Q : clear implicits.

