(* ===== verification/ClassQueue.v ===== *)
(** The linked queue of [src/cpp/cpp_class/queue.h] and [queue.cpp].

    Nodes live in a free store; a pointer of a queue may be null, point to a node or
    have no value at all, which is what the copy constructor leaves in an empty copy.
    The queue implements the interface [BoundedFifo] of [Fifo.v]. *)

From S2P Require Import Prelude Fifo.

Local Open Scope Z_scope.

Record Customer := mk_Customer { arrive : Z; processTime : Z }.
Abbreviation Item := Customer.
Definition Customer_init : Customer := mk_Customer 0 0.
Definition set (when : Z) (c : Customer) : Customer := mk_Customer when (processTime c).

(** [Indet] is a pointer that was never given a value. *)
Inductive Ptr := Indet | Null | Addr (p : nat).
Record Node := mk_Node { item : Item; next : Ptr }.
Abbreviation Store := (gmap nat Node).

Record Queue := mk_Queue { mFront : Ptr; mRear : Ptr; mItems : Z; mSize : Z }.

Definition QSIZE : Z := 10.
Definition Queue_init (qs : Z) : Queue := mk_Queue Null Null 0 qs.

Definition isEmpty (q : Queue) : bool := mItems q =? 0.
Definition isFull (q : Queue) : bool := mItems q =? mSize q.
Definition queueCount (q : Queue) : Z := mItems q.

(** The node behind a pointer; the others cannot be followed. *)
Definition deref (p : Ptr) (h : Store) : option (nat * Node) :=
  match p with Addr a => n ← h !! a; Some (a, n) | _ => None end.

Definition enqueue (x : Item) (q : Queue) (h : Store) : option (bool * Queue * Store) :=
  if isFull q then Some (false, q, h)
  else
    let node := fresh (dom h) in
    let h := <[node := mk_Node x Null]> h in
    '(front, h) ← (if isEmpty q then Some (Addr node, h)
                   else '(a, n) ← deref (mRear q) h;
                        Some (mFront q, <[a := mk_Node (item n) (Addr node)]> h));
    Some (true, mk_Queue front (Addr node) (mItems q + 1) (mSize q), h).

Definition dequeue (q : Queue) (h : Store) : option (option Item * Queue * Store) :=
  if isEmpty q then Some (None, q, h)
  else
    '(a, n) ← deref (mFront q) h;
    let items := mItems q - 1 in
    Some (Some (item n),
          mk_Queue (next n) (if items =? 0 then Null else mRear q) items (mSize q),
          delete a h).

(** The copy constructor sets neither pointer; the loop runs over the nodes of [q]. *)
Fixpoint copy_loop (fuel : nat) (nPtr : Ptr) (c : Queue) (h : Store) : option (Queue * Store) :=
  match fuel with
  | O => None
  | S fuel =>
      match nPtr with
      | Indet => None
      | Null => Some (c, h)
      | Addr a =>
          n ← h !! a;
          '(b, c, h) ← enqueue (item n) c h;
          if b : bool then n ← h !! a; copy_loop fuel (next n) c h else Some (c, h)
      end
  end.
Definition Queue_copy (q : Queue) (h : Store) : option (Queue * Store) :=
  copy_loop (S (Z.to_nat (mItems q))) (mFront q) (mk_Queue Indet Indet 0 (mSize q)) h.

Fixpoint destroy_loop (fuel : nat) (q : Queue) (h : Store) : option Store :=
  match fuel with
  | O => None
  | S fuel =>
      '(x, q, h) ← dequeue q h;
      match x with Some _ => destroy_loop fuel q h | None => Some h end
  end.
Definition Queue_destroy (q : Queue) (h : Store) : option Store :=
  destroy_loop (S (Z.to_nat (mItems q))) q h.

(** The addresses [operator<<] prints. *)
Fixpoint print_loop (fuel : nat) (nPtr : Ptr) (h : Store) : option (list nat) :=
  match fuel with
  | O => None
  | S fuel =>
      match nPtr with
      | Indet => None
      | Null => Some []
      | Addr a => n ← h !! a; l ← print_loop fuel (next n) h; Some (a :: l)
      end
  end.
Definition print (q : Queue) (h : Store) : option (list nat) :=
  print_loop (S (Z.to_nat (mItems q))) (mFront q) h.

(** * The invariant *)

(** The nodes [l] (address and item) linked from a pointer. *)
Fixpoint chain (h : Store) (p : Ptr) (l : list (nat * Item)) : Prop :=
  match l with
  | [] => p = Null
  | (a, x) :: l => p = Addr a ∧ ∃ nx, h !! a = Some (mk_Node x nx) ∧ chain h nx l
  end.

(** An empty queue may have any pointers. *)
Record queue_ok (h : Store) (q : Queue) (l : list (nat * Item)) : Prop := {
  qo_items : mItems q = Z.of_nat (length l);
  qo_bound : mItems q ≤ mSize q;
  qo_nodup : NoDup l.*1;
  qo_front : l ≠ [] → chain h (mFront q) l;
  qo_rear : ∀ a x, last l = Some (a, x) → mRear q = Addr a;
  qo_dom : ∀ a, a ∈ l.*1 → a ∈ dom h
}.

Lemma chain_frame h h' p l :
  chain h p l → (∀ a, a ∈ l.*1 → h' !! a = h !! a) → chain h' p l.
Proof.
  revert p. induction l as [|[a x] l IH]; intros p; [done|]. simpl.
  intros (-> & nx & Ha & Hc) Hsame. split; [done|]. exists nx.
  rewrite Hsame by left. split; [done|]. apply IH; [done|]. intros b Hb. apply Hsame. by right.
Qed.

(** Linking a node behind the last one. *)
Lemma chain_snoc h p l a x b y :
  chain h p (l ++ [(a, x)]) → NoDup (l ++ [(a, x)]).*1 → b ∉ (l ++ [(a, x)]).*1 →
  chain (<[a := mk_Node x (Addr b)]> (<[b := mk_Node y Null]> h)) p ((l ++ [(a, x)]) ++ [(b, y)]).
Proof.
  revert p. induction l as [|[c z] l IH]; intros p; simpl.
  - intros (-> & nx & Ha & _) _ Hb. rewrite list_elem_of_singleton in Hb.
    split; [done|]. exists (Addr b). rewrite lookup_insert_eq. split; [done|]. split; [done|].
    exists Null. by rewrite lookup_insert_ne, lookup_insert_eq by congruence.
  - intros (-> & nx & Hc & Hl) [Hnew Hnd]%NoDup_cons Hb. rewrite not_elem_of_cons in Hb.
    destruct Hb as [Hbc Hb]. split; [done|]. exists nx. split; [|by apply IH].
    rewrite fmap_app in Hnew. rewrite lookup_insert_ne.
    2: { intros ->. apply Hnew, elem_of_app. right. left. }
    by rewrite lookup_insert_ne by congruence.
Qed.

Lemma last_split {A} (l : list A) : l ≠ [] → ∃ l' x, l = l' ++ [x].
Proof. intros Hl. by destruct (last_snoc_dec l) as [->|?]. Qed.

(** [enqueue] on both branches; only the new node and the last one change. *)
Lemma enqueue_spec x q h l :
  queue_ok h q l →
  if isFull q then enqueue x q h = Some (false, q, h)
  else ∃ a q' h', enqueue x q h = Some (true, q', h') ∧ a ∉ dom h ∧
         queue_ok h' q' (l ++ [(a, x)]) ∧ mSize q' = mSize q ∧ dom h' = {[a]} ∪ dom h ∧
         ∀ b, b ≠ a → b ∉ l.*1 → h' !! b = h !! b.
Proof.
  intros [Hi Hb Hnd Hf Hr Hd]. unfold enqueue. destruct (isFull q) eqn:Hfull; [done|].
  apply Z.eqb_neq in Hfull. set (a := fresh (dom h)).
  assert (a ∉ dom h) as Ha by apply is_fresh.
  assert (a ∉ l.*1) as Hal by (intros Hin; by apply Ha, Hd).
  destruct (decide (l = [])) as [->|Hl].
  - simpl in Hi. unfold isEmpty. rewrite Hi. simpl. exists a. eexists _, _. split; [done|].
    split; [done|]. split; [|split; [done|split; [by rewrite dom_insert_L|]]].
    + constructor; simpl; [lia|lia| | | |].
      * apply NoDup_singleton.
      * intros _. split; [done|]. exists Null. by rewrite lookup_insert_eq.
      * by intros b y [= -> _].
      * intros b ->%list_elem_of_singleton. rewrite dom_insert. by apply elem_of_union_l, elem_of_singleton.
    + intros b Hb' _. by rewrite lookup_insert_ne.
  - destruct (last_split l Hl) as (l0 & [r y] & ->).
    assert (isEmpty q = false) as ->.
    { apply Z.eqb_neq. rewrite Hi, length_app. simpl. lia. }
    rewrite (Hr r y) by apply last_snoc. specialize (Hf Hl).
    assert (r ∈ (l0 ++ [(r, y)]).*1) as Hrin by (rewrite fmap_app; apply elem_of_app; right; left).
    assert (r ≠ a) as Hra by (intros ->; by apply Hal).
    assert (∃ nx, h !! r = Some (mk_Node y nx)) as [nx Hnx].
    { clear -Hf. revert Hf. generalize (mFront q). induction l0 as [|[c z] l0 IH]; intros p; simpl.
      - intros (_ & nx & ? & _). eauto.
      - intros (_ & nx & _ & Hc). by apply (IH nx). }
    simpl. rewrite lookup_insert_ne, Hnx by done. simpl. exists a. eexists _, _. split; [done|].
    split; [done|]. split; [|split; [done|split]].
    + constructor; simpl; [rewrite !length_app in *; simpl in *; lia|lia| | | |].
      * rewrite fmap_app. apply NoDup_snoc. done.
      * intros _. by apply chain_snoc.
      * intros b z. rewrite last_snoc. by intros [= -> _].
      * intros b. rewrite fmap_app, elem_of_app, !dom_insert. intros [Hin|Hin].
        -- apply elem_of_union_r, elem_of_union_r. by apply Hd.
        -- apply list_elem_of_singleton in Hin as ->. by apply elem_of_union_r, elem_of_union_l, elem_of_singleton.
    + rewrite !dom_insert_L. specialize (Hd r Hrin). set_solver.
    + intros b Hba Hbl. rewrite !lookup_insert_ne; [done|done|]. intros ->. done.
Qed.

(** [dequeue] on both branches; only the node taken out is freed. *)
Lemma dequeue_spec q h l :
  queue_ok h q l →
  match l with
  | [] => dequeue q h = Some (None, q, h)
  | (a, x) :: l' => ∃ q', dequeue q h = Some (Some x, q', delete a h) ∧
                     queue_ok (delete a h) q' l' ∧ mSize q' = mSize q ∧ (l' = [] → mFront q' = Null)
  end.
Proof.
  intros [Hi Hb Hnd Hf Hr Hd]. unfold dequeue, isEmpty. rewrite Hi.
  destruct l as [|[a x] l]; [done|]. destruct (Hf ltac:(done)) as (-> & nx & Ha & Hc).
  replace (Z.of_nat (length ((a, x) :: l)) =? 0) with false by (symmetry; apply Z.eqb_neq; simpl; lia).
  simpl deref. rewrite Ha. cbn [mbind option_bind]. simpl in Hnd. apply NoDup_cons in Hnd as [Hal Hnd].
  eexists. split; [done|]. split; [|split; [done|]].
  - constructor; simpl in *; [lia|lia|done| | |].
    + intros _. apply (chain_frame h); [done|]. intros b Hbl. apply lookup_delete_ne. by intros ->.
    + intros b y Hlast. destruct l as [|c l]; [done|].
      replace (Z.of_nat (S (length (c :: l))) - 1 =? 0) with false
        by (symmetry; apply Z.eqb_neq; simpl; lia).
      apply (Hr b y). by rewrite last_cons, Hlast.
    + intros b Hbl. rewrite dom_delete, elem_of_difference, elem_of_singleton.
      split; [apply Hd; by right|]. by intros ->.
  - intros ->. simpl in Hc. done.
Qed.

Lemma init_queue_ok h qs : 0 ≤ qs → queue_ok h (Queue_init qs) [].
Proof.
  intros Hqs. constructor; simpl; [done|done|constructor|done|done|]. by intros a ?%not_elem_of_nil.
Qed.

(** ** The interface *)

Definition fifo_state : Type := Queue * Store.
Definition fifo_list (s : fifo_state) (l : list (nat * Item)) : Prop := queue_ok s.2 s.1 l.

(** The items of a queue, read from its nodes. *)
Fixpoint collect (n : nat) (p : Ptr) (h : Store) : list Item :=
  match n with
  | O => []
  | S n => match deref p h with Some (_, nd) => item nd :: collect n (next nd) h | None => [] end
  end.
Definition items (s : fifo_state) : list Item := collect (Z.to_nat (mItems s.1)) (mFront s.1) s.2.

Lemma collect_chain h p l : chain h p l → collect (length l) p h = l.*2.
Proof.
  revert p. induction l as [|[a x] l IH]; intros p; [done|]. simpl.
  intros (-> & nx & Ha & Hc). simpl. rewrite Ha. simpl. by rewrite (IH nx).
Qed.

Lemma items_spec s l : fifo_list s l → items s = l.*2.
Proof.
  intros [Hi _ _ Hf _ _]. unfold items. rewrite Hi, Nat2Z.id.
  destruct l as [|e l]; [done|]. by apply collect_chain, Hf.
Qed.

Definition push (x : Item) : ST fifo_state bool :=
  λ s, '(b, q, h) ← enqueue x s.1 s.2; Some (b, (q, h)).
Definition pop : ST fifo_state (option Item) :=
  λ s, '(o, q, h) ← dequeue s.1 s.2; Some (o, (q, h)).

#[global] Program Instance queue_fifo : BoundedFifo fifo_state Item := {|
  fifo_ok s := ∃ l, fifo_list s l;
  fifo_elems := items;
  fifo_room s := Z.to_nat (mSize s.1);
  fifo_push := push;
  fifo_pop := pop |}.
Next Obligation.
  intros s [l Hl]. rewrite (items_spec s l Hl), length_fmap. destruct Hl as [Hi Hb _ _ _ _]. simpl in *. lia.
Qed.
Next Obligation.
  intros x [q h] [l Hl] Hroom. rewrite (items_spec _ l Hl), length_fmap in Hroom. simpl in Hroom.
  pose proof (enqueue_spec x q h l Hl) as He. pose proof Hl as [Hi Hb _ _ _ _]. simpl in *.
  assert (isFull q = false) as Hfull by (apply Z.eqb_neq; lia). rewrite Hfull in He.
  destruct He as (a & q' & h' & He & _ & Hok & Hs & _). exists (q', h').
  split; [unfold push; simpl; by rewrite He|]. split; [by exists (l ++ [(a, x)])|].
  rewrite (items_spec (q', h') _ Hok), (items_spec (q, h) l Hl), fmap_app. simpl. by rewrite Hs.
Qed.
Next Obligation.
  intros x [q h] [l Hl] Hroom. rewrite (items_spec _ l Hl), length_fmap in Hroom. simpl in Hroom.
  pose proof (enqueue_spec x q h l Hl) as He. pose proof Hl as [Hi Hb _ _ _ _]. simpl in *.
  assert (isFull q = true) as Hfull by (apply Z.eqb_eq; lia). rewrite Hfull in He.
  unfold push. simpl. by rewrite He.
Qed.
Next Obligation.
  intros x xs [q h] [l Hl] Hx. rewrite (items_spec _ l Hl) in Hx.
  destruct l as [|[a y] l]; simplify_eq/=. pose proof (dequeue_spec q h _ Hl) as (q' & Hd & Hok & Hs & _).
  exists (q', delete a h). split; [unfold pop; simpl; by rewrite Hd|]. split; [by exists l|].
  rewrite (items_spec (q', delete a h) l Hok). simpl. by rewrite Hs.
Qed.
Next Obligation.
  intros [q h] [l Hl] Hx. rewrite (items_spec _ l Hl) in Hx.
  destruct l; [|done]. pose proof (dequeue_spec q h _ Hl) as Hd. unfold pop. simpl. by rewrite Hd.
Qed.

(** * Copying, destroying, printing *)

(** Two queues in one store do not share nodes. *)
Definition apart (l l' : list (nat * Item)) : Prop := ∀ a, a ∈ l.*1 → a ∉ l'.*1.

Lemma queue_ok_frame h h' q l :
  queue_ok h q l → (∀ a, a ∈ l.*1 → h' !! a = h !! a) → queue_ok h' q l.
Proof.
  intros [Hi Hb Hnd Hf Hr Hd] Hsame. constructor; try done.
  - intros Hl. apply (chain_frame h); [by apply Hf|done].
  - intros a Ha. apply elem_of_dom. rewrite Hsame by done. by apply elem_of_dom, Hd.
Qed.

(** The loop of the copy constructor: [ld] are the nodes copied, [l] those to come. *)
Lemma copy_loop_spec fuel p l c h ld :
  (length l < fuel)%nat → chain h p l → NoDup l.*1 → queue_ok h c ld → apart l ld →
  (∀ a, a ∈ l.*1 → a ∈ dom h) → Z.of_nat (length ld + length l) ≤ mSize c →
  ∃ c' h' l', copy_loop fuel p c h = Some (c', h') ∧ queue_ok h' c' (ld ++ l') ∧
    l'.*2 = l.*2 ∧ (∀ a, a ∈ l'.*1 → a ∉ dom h) ∧
    (∀ a, a ∈ dom h → a ∉ ld.*1 → h' !! a = h !! a).
Proof.
  revert fuel p c h ld. induction l as [|[a x] l IH];
    intros fuel p c h ld Hfuel Hc Hnd Hok Hap Hdom Hsz; (destruct fuel as [|fuel]; [lia|]); cbn [copy_loop].
  - simpl in Hc. subst p. exists c, h, []. rewrite app_nil_r. split_all; try done.
    intros a. by intros ?%not_elem_of_nil.
  - destruct Hc as (-> & nx & Ha & Hc). rewrite Ha. cbn [mbind option_bind item].
    pose proof (enqueue_spec x c h ld Hok) as He.
    assert (isFull c = false) as Hfull.
    { apply Z.eqb_neq. rewrite (qo_items _ _ _ Hok). simpl in Hsz. lia. }
    rewrite Hfull in He. destruct He as (b & c1 & h1 & -> & Hb & Hok1 & Hs1 & Hdom1 & Hsame1).
    cbn [mbind option_bind].
    assert (∀ d, d ∈ ((a, x) :: l).*1 → h1 !! d = h !! d) as Hsame.
    { intros d Hd. apply Hsame1; [intros ->; by apply Hb, Hdom|by apply Hap]. }
    rewrite (Hsame a) by left. rewrite Ha. cbn [mbind option_bind next].
    simpl in Hnd. apply NoDup_cons in Hnd as [Hal Hnd].
    destruct (IH fuel nx c1 h1 (ld ++ [(b, x)])) as (c' & h' & l' & -> & Hok' & Hl' & Hnew & Hfr).
    + simpl in Hfuel. lia.
    + apply (chain_frame h); [done|]. intros d Hd. apply Hsame. by right.
    + done.
    + done.
    + intros d Hd. rewrite fmap_app, elem_of_app. intros [Hin|Hin].
      * by apply (Hap d); [right|].
      * apply list_elem_of_singleton in Hin as ->. apply Hb, Hdom. by right.
    + intros d Hd. rewrite Hdom1. apply elem_of_union_r, Hdom. by right.
    + rewrite length_app, Hs1. simpl in *. lia.
    + exists c', h', ((b, x) :: l'). rewrite <- app_assoc in Hok'. split_all; [done|done| | |].
      * by rewrite !fmap_cons, Hl'.
      * intros d. simpl. rewrite elem_of_cons. intros [->|Hd]; [done|].
        specialize (Hnew d Hd). rewrite Hdom1 in Hnew. set_solver.
      * intros d Hd Hdl. rewrite Hfr.
        -- apply Hsame1; [by intros ->|done].
        -- rewrite Hdom1. by apply elem_of_union_r.
        -- rewrite fmap_app, elem_of_app. intros [?|Hin]; [done|].
           apply list_elem_of_singleton in Hin. simpl in Hin. by subst.
Qed.

Lemma destroy_loop_spec fuel q h l :
  (length l < fuel)%nat → queue_ok h q l →
  ∃ h', destroy_loop fuel q h = Some h' ∧ (∀ a, h' !! a = if decide (a ∈ l.*1) then None else h !! a).
Proof.
  revert q h l. induction fuel as [|fuel IH]; intros q h l Hfuel Hok; [lia|]. cbn [destroy_loop].
  pose proof (dequeue_spec q h l Hok) as Hd. destruct l as [|[a x] l].
  - rewrite Hd. cbn. exists h. split; [done|]. intros a. by rewrite decide_False by apply not_elem_of_nil.
  - destruct Hd as (q' & -> & Hok' & _). cbn [mbind option_bind]. simpl in Hfuel.
    destruct (IH q' (delete a h) l) as (h' & Hdl & Hh); [lia|done|]. exists h'.
    split; [done|]. intros b. rewrite Hh. simpl.
    destruct (decide (b ∈ l.*1)); [by rewrite decide_True by (by right)|].
    destruct (decide (b = a)) as [->|Hne].
    + rewrite lookup_delete_eq, decide_True; [done|by left].
    + rewrite lookup_delete_ne, decide_False; [done| |done]. rewrite elem_of_cons. tauto.
Qed.

Lemma print_loop_spec fuel p h l :
  (length l < fuel)%nat → chain h p l → print_loop fuel p h = Some l.*1.
Proof.
  revert fuel p. induction l as [|[a x] l IH]; intros [|fuel] p Hf Hc; simpl in *; try lia.
  - by subst.
  - destruct Hc as (-> & nx & Ha & Hc). rewrite Ha. simpl. by rewrite (IH fuel nx) by (done || lia).
Qed.

(** Copying, printing and destroying a queue that holds something: the copy has the
    same items in nodes of its own and the original is untouched, so the two can be
    used and destroyed in any order; destroying frees the nodes of the queue and no
    others. *)
Theorem queue_copy_spec q h l :
  queue_ok h q l → l ≠ [] →
  print q h = Some l.*1 ∧
  (∃ h0, Queue_destroy q h = Some h0 ∧ ∀ a, h0 !! a = if decide (a ∈ l.*1) then None else h !! a) ∧
  ∃ c h' l', Queue_copy q h = Some (c, h') ∧ l'.*2 = l.*2 ∧ apart l l' ∧
    queue_ok h' c l' ∧ queue_ok h' q l ∧ print c h' = Some l'.*1.
Proof.
  intros Hok Hl. pose proof Hok as [Hi Hb Hnd Hf Hr Hd]. specialize (Hf Hl).
  split; [|split].
  - unfold print. rewrite Hi, Nat2Z.id. apply print_loop_spec; [lia|done].
  - unfold Queue_destroy. rewrite Hi, Nat2Z.id. apply destroy_loop_spec; [lia|done].
  - unfold Queue_copy. rewrite Hi, Nat2Z.id.
    destruct (copy_loop_spec (S (length l)) (mFront q) l (mk_Queue Indet Indet 0 (mSize q)) h [])
      as (c & h' & l' & -> & Hok' & Hl' & Hnew & Hfr); simpl; try done; [lia| | |lia|].
    + constructor; simpl; [done|lia|constructor|done|done|]. by intros a ?%not_elem_of_nil.
    + intros a _. apply not_elem_of_nil.
    + assert (l' ≠ []) as Hne by (intros ->; by destruct l).
      exists c, h', l'. split_all; [done|done| |done| |].
      * intros a Ha Ha'. by apply (Hnew a Ha'), Hd.
      * apply (queue_ok_frame h); [done|]. intros a Ha. apply Hfr; [by apply Hd|apply not_elem_of_nil].
      * pose proof Hok' as [Hi' _ _ Hf' _ _]. unfold print. simpl in Hi'. rewrite Hi', Nat2Z.id.
        apply print_loop_spec; [lia|by apply Hf'].
Qed.

(** A copy of an empty queue has pointers without a value: printing it, or copying
    it again, is undefined, while it can be filled and destroyed. *)
Lemma copy_of_empty q h :
  queue_ok h q [] → mFront q = Null →
  ∃ c, Queue_copy q h = Some (c, h) ∧ queue_ok h c [] ∧ print c h = None ∧ Queue_copy c h = None.
Proof.
  intros [Hi Hb _ _ _ _] Hf. unfold Queue_copy. rewrite Hi, Hf. simpl.
  eexists. split; [done|]. split; [|done].
  constructor; simpl; [done|simpl in Hi; lia|constructor|done|done|]. by intros a ?%not_elem_of_nil.
Qed.

(** * Witnesses *)

(** [test_queue.cpp]: three customers in a queue of ten. *)
Definition demo_state : option fifo_state :=
  '(_, s) ← push Customer_init (Queue_init 10, ∅); '(_, s) ← push (set 5 Customer_init) s;
  snd <$> push (set 7 Customer_init) s.

Lemma queue_copy_witness :
  ∃ s l, demo_state = Some s ∧ l.*2 = [Customer_init; set 5 Customer_init; set 7 Customer_init] ∧
    print s.1 s.2 = Some l.*1 ∧
    (∃ h0, Queue_destroy s.1 s.2 = Some h0 ∧
       ∀ a, h0 !! a = if decide (a ∈ l.*1) then None else s.2 !! a) ∧
    ∃ c h' l', Queue_copy s.1 s.2 = Some (c, h') ∧ l'.*2 = l.*2 ∧ apart l l' ∧
      queue_ok h' c l' ∧ queue_ok h' s.1 l ∧ print c h' = Some l'.*1.
Proof.
  eexists _, [(0%nat, Customer_init); (1%nat, set 5 Customer_init); (2%nat, set 7 Customer_init)].
  split; [vm_compute; reflexivity|]. split; [reflexivity|].
  apply queue_copy_spec; [|discriminate].
  constructor; [reflexivity|vm_compute; discriminate|by_computation| | |].
  - intros _. repeat (split; [reflexivity|]; eexists; split; [vm_compute; reflexivity|]). reflexivity.
  - intros a x [= <- <-]. reflexivity.
  - intros a Ha. rewrite !fmap_cons, !elem_of_cons in Ha.
    destruct Ha as [->|[->|[->|Ha%not_elem_of_nil]]]; [by_computation..|done].
Defined.
