(* ===== verification/RingSpsc.v ===== *)
(** The single-producer single-consumer ring buffer of
    [src/cpp/cpp_coding/ring_buffer/ring_buffer.cpp].

    First the operations run without interference ([push], [pop], [size],
    [full], the destructor), which implement the queue interface of Fifo.v; then
    [spsc_step], where the producer and the consumer interleave at every access
    to a shared variable: the loads and stores of [_head] and [_tail], the
    construction and the move/destruction of a slot.  The acquire/release pairs
    of the code order exactly these accesses, so the interleaving is sequentially
    consistent.  A slot holds [Some v] while an object lives in it; reading or
    destroying a slot without an object is undefined. *)

From S2P Require Import Prelude Fifo.

Local Open Scope Z_scope.

Section ring.
Context {T : Type}.

(** [_head], [_tail] and [_data]; [capacity] is the template argument. *)
Record RingBuffer := mk_ring {
  capacity : Z; _head : Z; _tail : Z; _data : Z → option T
}.

(** [static_assert (capacity && !(capacity & (capacity - 1)))] *)
Definition capacity_ok (capacity : Z) : bool :=
  negb (capacity =? 0) && (Z.land capacity (capacity - 1) =? 0).

Definition RingBuffer_init (capacity : Z) : RingBuffer :=
  mk_ring capacity 0 0 (λ _, None).

Definition next_pos (capacity pos : Z) : Z := Z.land (u64 (pos + 1)) (capacity - 1).

(** Both reads are of [_head]. *)
Definition size (r : RingBuffer) : Z :=
  let head := _head r in
  let tail := _head r in
  if tail >? head then u64 (tail - head) else u64 (tail + capacity r - head).

Definition full (r : RingBuffer) : bool := size r =? capacity r.

Definition set_slot (d : Z → option T) (i : Z) (o : option T) : Z → option T :=
  λ j, if decide (j = i) then o else d j.

Definition push (value : T) : ST RingBuffer bool := λ r,
  let tail := _tail r in
  let next_tail := next_pos (capacity r) tail in
  if next_tail =? _head r then Some (false, r)
  else Some (true, mk_ring (capacity r) (_head r) next_tail
                     (set_slot (_data r) tail (Some value))).

Definition pop : ST RingBuffer (option T) := λ r,
  let tail := _tail r in
  let head := _head r in
  if head =? tail then Some (None, r)
  else match _data r head with
       | Some v => Some (Some v, mk_ring (capacity r) (next_pos (capacity r) (_head r))
                                   (_tail r) (set_slot (_data r) head None))
       | None => None
       end.

(** [~RingBuffer]: the slots destroyed, and the storage left. *)
Fixpoint destroy_from (fuel : nat) (capacity head tail : Z) (d : Z → option T)
    : option (Z → option T) :=
  match fuel with
  | O => None
  | S f =>
      if head =? tail then Some d
      else match d head with
           | Some _ => destroy_from f capacity (next_pos capacity head) tail
                         (set_slot d head None)
           | None => None
           end
  end.
Definition RingBuffer_destroy (fuel : nat) (r : RingBuffer) : option (Z → option T) :=
  destroy_from fuel (capacity r) (_head r) (_tail r) (_data r).

(** * Positions *)

(** The [n]-th position the ring goes through. *)
Definition at_pos (cap : Z) (n : nat) : Z := Z.of_nat n mod cap.

(** A legal capacity. *)
Definition power_of_2 (cap : Z) : Prop := ∃ k, 0 ≤ k ≤ 63 ∧ cap = 2 ^ k.

Lemma power_of_2_range cap : power_of_2 cap → 0 < cap ≤ 2 ^ 63.
Proof.
  intros (k & Hk & ->). split; [apply Z.pow_pos_nonneg; lia|].
  apply Z.pow_le_mono_r; lia.
Qed.

Lemma land_mask cap z : power_of_2 cap → Z.land z (cap - 1) = z mod cap.
Proof.
  intros (k & Hk & ->). rewrite <- Z.land_ones by lia.
  by rewrite Z.ones_equiv, Z.sub_1_r.
Qed.

Lemma power_of_2_capacity_ok cap : power_of_2 cap → capacity_ok cap = true.
Proof.
  intros Hc. pose proof (power_of_2_range _ Hc). unfold capacity_ok.
  rewrite land_mask, Z_mod_same_full by done.
  by rewrite (proj2 (Z.eqb_neq _ _)) by lia.
Qed.

Lemma at_pos_range cap n : 0 < cap → 0 ≤ at_pos cap n < cap.
Proof. intros. apply Z.mod_pos_bound; lia. Qed.

Lemma next_pos_at cap n :
  power_of_2 cap → next_pos cap (at_pos cap n) = at_pos cap (S n).
Proof.
  intros Hc. pose proof (power_of_2_range _ Hc).
  pose proof (at_pos_range cap n ltac:(lia)).
  unfold next_pos. rewrite land_mask by done. unfold u64.
  rewrite wrap_id by (unfold in_unsigned; lia). unfold at_pos.
  rewrite Z.add_mod_idemp_l by lia. f_equal. lia.
Qed.

(** Two positions less than a turn apart coincide only when they are equal. *)
Lemma at_pos_inj cap h i j :
  0 < cap → Z.of_nat i < cap → Z.of_nat j < cap →
  at_pos cap (h + i) = at_pos cap (h + j) → i = j.
Proof.
  unfold at_pos. intros Hc Hi Hj E.
  assert (Z.of_nat (h + i) - Z.of_nat (h + j) =
    cap * (Z.of_nat (h + i) / cap - Z.of_nat (h + j) / cap)) as E2.
  { pose proof (Z.div_mod (Z.of_nat (h + i)) cap ltac:(lia)).
    pose proof (Z.div_mod (Z.of_nat (h + j)) cap ltac:(lia)).
    lia. }
  set (q := Z.of_nat (h + i) / cap - Z.of_nat (h + j) / cap) in *.
  rewrite !Nat2Z.inj_add in E2. assert (- cap < cap * q < cap) by lia.
  assert (q = 0) by nia. subst q. lia.
Qed.

Lemma at_pos_wrap cap h : 0 < cap → at_pos cap (h + Z.to_nat cap) = at_pos cap h.
Proof.
  intros Hc. unfold at_pos. rewrite Nat2Z.inj_add, Z2Nat.id by lia.
  replace (Z.of_nat h + cap) with (Z.of_nat h + 1 * cap) by lia. apply Z_mod_plus_full.
Qed.

(** Every slot is some position of the next turn. *)
Lemma at_pos_surj cap h s :
  0 < cap → 0 ≤ s < cap → ∃ i, Z.of_nat i < cap ∧ at_pos cap (h + i) = s.
Proof.
  intros Hc Hs. exists (Z.to_nat ((s - Z.of_nat h) mod cap)).
  pose proof (Z.mod_pos_bound (s - Z.of_nat h) cap Hc). split; [lia|].
  unfold at_pos. rewrite Nat2Z.inj_add, Z2Nat.id by lia.
  rewrite Z.add_mod_idemp_r by lia.
  replace (Z.of_nat h + (s - Z.of_nat h)) with s by lia. apply Z.mod_small; lia.
Qed.

(** * Contents of the slots *)

(** Starting at the [h]-th position, the slots hold [c 0], [c 1], ... *)
Definition slots (cap : Z) (d : Z → option T) (h : nat) (c : nat → option T) : Prop :=
  ∀ i, Z.of_nat i < cap → d (at_pos cap (h + i)) = c i.

Lemma slots_set cap d h c i o :
  0 < cap → slots cap d h c → Z.of_nat i < cap →
  slots cap (set_slot d (at_pos cap (h + i)) o) h (λ j, if decide (j = i) then o else c j).
Proof.
  intros Hc Hs Hi j Hj. unfold set_slot.
  destruct (decide (j = i)) as [->|Hne]; [by rewrite decide_True|].
  rewrite decide_False; [by apply Hs|]. by intros ?%at_pos_inj.
Qed.

Lemma slots_ext cap d h c c' :
  (∀ i, Z.of_nat i < cap → c i = c' i) → slots cap d h c → slots cap d h c'.
Proof. intros E Hs i Hi. by rewrite <- E, Hs. Qed.

(** Seen from the next position, the window slides by one. *)
Lemma slots_slide cap d h c :
  0 < cap → slots cap d h c →
  slots cap d (S h) (λ i, if decide (Z.of_nat i = cap - 1) then c O else c (S i)).
Proof.
  intros Hc Hs i Hi. case_decide as E.
  - rewrite <- (Hs O) by lia. f_equal.
    replace (S h + i)%nat with (h + 0 + Z.to_nat cap)%nat by lia. by apply at_pos_wrap.
  - rewrite <- Hs by lia. f_equal. f_equal. lia.
Qed.

(** * Operations without interference *)

(** The ring holds [xs], the oldest at the [h]-th position; all other slots are
    raw storage. *)
Record ring_ok (r : RingBuffer) (h : nat) (xs : list T) : Prop := {
  ro_cap : power_of_2 (capacity r);
  ro_head : _head r = at_pos (capacity r) h;
  ro_tail : _tail r = at_pos (capacity r) (h + length xs);
  ro_len : Z.of_nat (length xs) < capacity r;
  ro_slots : slots (capacity r) (_data r) h (λ i, xs !! i)
}.

Lemma ring_init_ok cap : power_of_2 cap → ring_ok (RingBuffer_init cap) 0 [].
Proof.
  intros Hc. pose proof (power_of_2_range _ Hc). constructor; simpl; try done; lia.
Qed.

Lemma head_eq_tail r h xs : ring_ok r h xs → _head r = _tail r ↔ xs = [].
Proof.
  intros [Hc Hh Ht Hl _]. pose proof (power_of_2_range _ Hc). rewrite Hh, Ht. split.
  - intros E. destruct xs; [done|].
    rewrite <- (Nat.add_0_r h) in E at 1. apply at_pos_inj in E; simpl in *; lia.
  - intros ->. by rewrite Nat.add_0_r.
Qed.

Lemma next_tail_eq_head r h xs :
  ring_ok r h xs →
  next_pos (capacity r) (_tail r) = _head r ↔ Z.of_nat (S (length xs)) = capacity r.
Proof.
  intros [Hc Hh Ht Hl _]. pose proof (power_of_2_range _ Hc).
  rewrite Ht, next_pos_at, Hh, <- Nat.add_succ_r by done. split.
  - intros E. destruct (decide (Z.of_nat (S (length xs)) = capacity r)); [done|].
    rewrite <- (Nat.add_0_r h) in E at 2. apply at_pos_inj in E; lia.
  - intros E. rewrite <- (at_pos_wrap (capacity r) h) by lia. f_equal. lia.
Qed.

Lemma push_run v r h xs :
  ring_ok r h xs → Z.of_nat (S (length xs)) < capacity r →
  ∃ r', push v r = Some (true, r') ∧ ring_ok r' h (xs ++ [v]) ∧ capacity r' = capacity r.
Proof.
  intros Hok Hl. pose proof (next_tail_eq_head _ _ _ Hok) as Hfull.
  destruct Hok as [Hc Hh Ht Hlen Hs]. pose proof (power_of_2_range _ Hc).
  unfold push. destruct (Z.eqb_spec (next_pos (capacity r) (_tail r)) (_head r)) as [E|_].
  { apply Hfull in E. lia. }
  eexists. split; [done|]. split; [|done]. constructor; simpl; try done.
  - rewrite Ht, next_pos_at by done. rewrite length_app. simpl. f_equal. lia.
  - rewrite length_app. simpl. lia.
  - rewrite Ht. eapply slots_ext; [|apply slots_set; [lia|exact Hs|lia]].
    intros i Hi. simpl. case_decide as E.
    + subst. rewrite lookup_app_r, Nat.sub_diag by lia. done.
    + destruct (decide (i < length xs)%nat); [by rewrite lookup_app_l|].
      rewrite lookup_ge_None_2 by lia. symmetry. apply lookup_ge_None_2.
      rewrite length_app. simpl. lia.
Qed.

Lemma push_full_run v r h xs :
  ring_ok r h xs → Z.of_nat (S (length xs)) = capacity r → push v r = Some (false, r).
Proof.
  intros Hok E. apply (next_tail_eq_head _ _ _ Hok) in E. unfold push.
  by rewrite E, Z.eqb_refl.
Qed.

Lemma pop_run v r h xs :
  ring_ok r h (v :: xs) →
  ∃ r', pop r = Some (Some v, r') ∧ ring_ok r' (S h) xs ∧ capacity r' = capacity r.
Proof.
  intros Hok. pose proof (head_eq_tail _ _ _ Hok) as He.
  destruct Hok as [Hc Hh Ht Hlen Hs]. pose proof (power_of_2_range _ Hc).
  simpl in Hlen, Ht.
  unfold pop. destruct (Z.eqb_spec (_head r) (_tail r)) as [E|_]; [by apply He in E|].
  pose proof (Hs O ltac:(lia)) as Hv. rewrite Nat.add_0_r, <- Hh in Hv. simpl in Hv.
  rewrite Hv. eexists. split; [done|]. split; [|done]. constructor; simpl; try done.
  - by rewrite Hh, next_pos_at.
  - rewrite Ht. f_equal. lia.
  - lia.
  - rewrite Hh. eapply slots_ext; [|apply slots_slide; [lia|]].
    2:{ rewrite <- (Nat.add_0_r h) at 1. apply slots_set; [lia|exact Hs|lia]. }
    intros i Hi. simpl. case_decide as E; [|done].
    symmetry. apply lookup_ge_None_2. lia.
Qed.

Lemma pop_empty_run r h : ring_ok r h [] → pop r = Some (None, r).
Proof.
  intros Hok. unfold pop. rewrite (proj2 (head_eq_tail _ _ _ Hok)) by done.
  by rewrite Z.eqb_refl.
Qed.

Lemma destroy_run r h xs fuel :
  ring_ok r h xs → (length xs < fuel)%nat →
  ∃ d, RingBuffer_destroy fuel r = Some d ∧
       ∀ i, 0 ≤ i < capacity r → d i = None.
Proof.
  revert r h fuel; induction xs as [|x xs IH]; intros r h [|fuel] Hok Hf;
    simpl in *; try lia; unfold RingBuffer_destroy; simpl;
    pose proof (head_eq_tail _ _ _ Hok) as He; pose proof Hok as [Hc Hh Ht Hlen Hs];
    pose proof (power_of_2_range _ Hc).
  - rewrite (proj2 (Z.eqb_eq _ _)) by (by apply He).
    eexists. split; [done|]. intros i Hi.
    destruct (at_pos_surj (capacity r) h i ltac:(lia) Hi) as (k & Hk & <-). by apply Hs.
  - assert (_head r ≠ _tail r) as Hne by (intros E; by apply He in E).
    rewrite (proj2 (Z.eqb_neq _ _) Hne).
    destruct (pop_run _ _ _ _ Hok) as (r' & Hp & Hok' & Hcap).
    pose proof (Hs O ltac:(lia)) as Hv. rewrite Nat.add_0_r, <- Hh in Hv. simpl in Hv.
    rewrite Hv. unfold pop in Hp.
    rewrite (proj2 (Z.eqb_neq _ _) Hne), Hv in Hp. injection Hp as <-.
    destruct (IH _ _ fuel Hok') as (d & Hd & Hn); [lia|]. by exists d.
Qed.

Lemma omap_shift (f : nat → option T) n : omap f (seq 1 n) = omap (λ i, f (S i)) (seq 0 n).
Proof.
  rewrite <- fmap_S_seq. induction (seq 0 n) as [|a l IH]; [done|].
  cbn. destruct (f (S a)); [f_equal|]; apply IH.
Qed.

Lemma omap_seq_lookup (xs : list T) n :
  (length xs ≤ n)%nat → omap (λ i, xs !! i) (seq 0 n) = xs.
Proof.
  revert xs; induction n as [|n IH]; intros [|x xs] Hl; simpl in Hl; try done; try lia.
  - cbn. etrans; [apply omap_shift|]. apply (IH []). simpl. lia.
  - cbn. f_equal. etrans; [apply omap_shift|]. apply (IH xs). lia.
Qed.

(** The objects in the ring, from the head on. *)
Definition ring_elems (r : RingBuffer) : list T :=
  omap (λ i, _data r (at_pos (capacity r) (Z.to_nat (_head r) + i)))
       (seq 0 (Z.to_nat (capacity r))).

Lemma ring_elems_ok r h xs : ring_ok r h xs → ring_elems r = xs.
Proof.
  intros [Hc Hh Ht Hlen Hs]. pose proof (power_of_2_range _ Hc). unfold ring_elems.
  rewrite <- (omap_seq_lookup xs (Z.to_nat (capacity r))) by lia.
  apply list_omap_ext, Forall2_same_length_lookup. split; [done|].
  intros i a b [-> Ha]%lookup_seq [-> Hb]%lookup_seq. simpl.
  rewrite <- Hs by lia. f_equal. rewrite Hh. unfold at_pos.
  rewrite Nat2Z.inj_add, Z2Nat.id by (apply Z.mod_pos_bound; lia).
  rewrite Z.add_mod_idemp_l by lia. f_equal. lia.
Qed.

(** The ring as a queue with room for [capacity - 1] elements. *)
#[export] Program Instance ring_fifo : BoundedFifo RingBuffer T := {
  fifo_ok r := ∃ h xs, ring_ok r h xs;
  fifo_elems := ring_elems;
  fifo_room r := Z.to_nat (capacity r - 1);
  fifo_push := push;
  fifo_pop := pop
}.
Next Obligation.
  intros q (h & xs & Hok). rewrite (ring_elems_ok _ _ _ Hok).
  destruct Hok. lia.
Qed.
Next Obligation.
  intros v q (h & xs & Hok). rewrite (ring_elems_ok _ _ _ Hok). intros Hl.
  pose proof (power_of_2_range _ (ro_cap _ _ _ Hok)).
  destruct (push_run v q h xs Hok) as (q' & Hp & Hok' & Hcap); [lia|].
  exists q'. rewrite (ring_elems_ok _ _ _ Hok'), Hcap. split_all; eauto.
Qed.
Next Obligation.
  intros v q (h & xs & Hok). rewrite (ring_elems_ok _ _ _ Hok). intros Hl.
  pose proof (power_of_2_range _ (ro_cap _ _ _ Hok)).
  apply (push_full_run v q h xs Hok). lia.
Qed.
Next Obligation.
  intros v vs q (h & xs & Hok). rewrite (ring_elems_ok _ _ _ Hok). intros ->.
  destruct (pop_run v q h vs Hok) as (q' & Hp & Hok' & Hcap).
  exists q'. rewrite (ring_elems_ok _ _ _ Hok'), Hcap. split_all; eauto.
Qed.
Next Obligation.
  intros q (h & xs & Hok). rewrite (ring_elems_ok _ _ _ Hok). intros ->.
  by apply (pop_empty_run q h).
Qed.
End ring.
Arguments RingBuffer : clear implicits.

(** * The two threads, access by access *)

Section threads.
Context {T : Type}.
(** The [n]-th value the producer pushes; [push] is retried until it succeeds. *)
Context (item : nat → T).

(** Where the producer is: before [push]; about to load [_tail]; about to load
    [_head]; about to construct the slot; about to store [_tail]. *)
Inductive producer_pc : Type :=
| PIdle
| PTail (value : T)
| PHead (value : T) (tail : Z)
| PData (value : T) (tail : Z)
| PStore (value : T) (tail : Z).

(** Where the consumer is: before [pop]; about to load [_tail]; about to load
    [_head]; about to move the object out of its slot; about to destroy it;
    about to store [_head]. *)
Inductive consumer_pc : Type :=
| CIdle
| CTail
| CHead (tail : Z)
| CData (head : Z)
| CDestroy (head : Z) (value : T)
| CStore (value : T).

(** The shared ring, the two threads, and the values whose [push] returned true
    and whose [pop] returned true so far. *)
Record system := mk_system {
  s_ring : RingBuffer T;
  s_p : producer_pc;
  s_c : consumer_pc;
  s_pushed : list T;
  s_popped : list T
}.

Definition set_head (r : RingBuffer T) (h : Z) : RingBuffer T :=
  mk_ring (capacity r) h (_tail r) (_data r).
Definition set_tail (r : RingBuffer T) (t : Z) : RingBuffer T :=
  mk_ring (capacity r) (_head r) t (_data r).
Definition set_data (r : RingBuffer T) (i : Z) (o : option T) : RingBuffer T :=
  mk_ring (capacity r) (_head r) (_tail r) (set_slot (_data r) i o).

Definition producer_step (s : system) : option system :=
  let '(mk_system r p c pushed popped) := s in
  match p with
  | PIdle => Some (mk_system r (PTail (item (length pushed))) c pushed popped)
  | PTail v => Some (mk_system r (PHead v (_tail r)) c pushed popped)
  | PHead v t =>
      if next_pos (capacity r) t =? _head r
      then Some (mk_system r PIdle c pushed popped)
      else Some (mk_system r (PData v t) c pushed popped)
  | PData v t => Some (mk_system (set_data r t (Some v)) (PStore v t) c pushed popped)
  | PStore v t =>
      Some (mk_system (set_tail r (next_pos (capacity r) t)) PIdle c
              (pushed ++ [v]) popped)
  end.

Definition consumer_step (s : system) : option system :=
  let '(mk_system r p c pushed popped) := s in
  match c with
  | CIdle => Some (mk_system r p CTail pushed popped)
  | CTail => Some (mk_system r p (CHead (_tail r)) pushed popped)
  | CHead t =>
      if _head r =? t then Some (mk_system r p CIdle pushed popped)
      else Some (mk_system r p (CData (_head r)) pushed popped)
  | CData h =>
      match _data r h with
      | Some v => Some (mk_system r p (CDestroy h v) pushed popped)
      | None => None
      end
  | CDestroy h v =>
      match _data r h with
      | Some _ => Some (mk_system (set_data r h None) p (CStore v) pushed popped)
      | None => None
      end
  | CStore v =>
      Some (mk_system (set_head r (next_pos (capacity r) (_head r))) p CIdle
              pushed (popped ++ [v]))
  end.

Definition spsc_step (s s' : system) : Prop :=
  producer_step s = Some s' ∨ consumer_step s = Some s'.

Definition spsc_init (cap : Z) (s : system) : Prop :=
  s = mk_system (RingBuffer_init cap) PIdle CIdle [] [].

(** Both threads are about to access the same slot. *)
Definition slot_race (s : system) : Prop :=
  match s_p s, s_c s with
  | PData _ t, (CData h | CDestroy h _) => t = h
  | _, _ => False
  end.

(** ** The invariant *)

(** The object the producer has constructed but not yet published; whether the
    consumer has destroyed the head object but not yet advanced [_head]. *)
Definition unpublished (p : producer_pc) : list T :=
  match p with PStore v _ => [v] | _ => [] end.
Definition consumed (c : consumer_pc) : bool :=
  match c with CStore _ => true | _ => false end.
Definition content (p : producer_pc) (c : consumer_pc) (xs : list T) (i : nat) : option T :=
  if consumed c && (i =? 0)%nat then None else (xs ++ unpublished p) !! i.

Definition producer_fact (p : producer_pc) (cap tail : Z) (xs : list T) (n : nat) : Prop :=
  match p with
  | PIdle => True
  | PTail v => v = item n
  | PHead v t => v = item n ∧ t = tail
  | PData v t | PStore v t =>
      v = item n ∧ t = tail ∧ Z.of_nat (S (length xs)) < cap
  end.
Definition consumer_fact (c : consumer_pc) (cap : Z) (h : nat) (xs : list T) : Prop :=
  match c with
  | CIdle | CTail => True
  | CHead t => ∃ k, (k ≤ length xs)%nat ∧ t = at_pos cap (h + k)
  | CData hd => hd = at_pos cap h ∧ xs ≠ []
  | CDestroy hd v => hd = at_pos cap h ∧ head xs = Some v
  | CStore v => head xs = Some v
  end.

(** [h] elements have been popped and [xs] are in the ring. *)
Record spsc_ok (cap : Z) (s : system) (h : nat) (xs : list T) : Prop := {
  so_cap : power_of_2 cap;
  so_capacity : capacity (s_ring s) = cap;
  so_head : _head (s_ring s) = at_pos cap h;
  so_tail : _tail (s_ring s) = at_pos cap (h + length xs);
  so_len : Z.of_nat (length xs) < cap;
  so_slots : slots cap (_data (s_ring s)) h (content (s_p s) (s_c s) xs);
  so_popped : length (s_popped s) = h;
  so_pushed : s_pushed s = s_popped s ++ xs;
  so_items : s_pushed s = item <$> seq 0 (length (s_pushed s));
  so_p : producer_fact (s_p s) cap (_tail (s_ring s)) xs (length (s_pushed s));
  so_c : consumer_fact (s_c s) cap h xs
}.

Lemma spsc_init_ok cap s : power_of_2 cap → spsc_init cap s → spsc_ok cap s 0 [].
Proof.
  intros Hc ->. pose proof (power_of_2_range _ Hc). constructor; simpl; try done; lia.
Qed.

(** The content of a slot is that of the queue, except at its two ends. *)
Lemma content_pub p p' c xs i :
  unpublished p = unpublished p' → content p c xs i = content p' c xs i.
Proof. unfold content. by intros ->. Qed.
Lemma content_con p c c' xs i :
  consumed c = consumed c' → content p c xs i = content p c' xs i.
Proof. unfold content. by intros ->. Qed.

Lemma consumed_nonempty cap c h xs :
  consumer_fact c cap h xs → consumed c = true → xs ≠ [].
Proof. destruct c; try done. by destruct xs. Qed.

Lemma producer_step_ok cap s h xs :
  spsc_ok cap s h xs →
  ∃ s' xs', producer_step s = Some s' ∧ spsc_ok cap s' h xs' ∧
    (xs' = xs ∨ ∃ v, xs' = xs ++ [v] ∧ Z.of_nat (S (length xs)) < cap) ∧
    s_popped s' = s_popped s ∧ s_c s' = s_c s.
Proof.
  intros [Hc Hcap Hh Ht Hl Hs Hpo Hpu Hit Hp Hco]. pose proof (power_of_2_range _ Hc).
  destruct s as [r p c pushed popped]; simpl in *. destruct p as [|v|v t|v t|v t]; simpl in *.
  - eexists _, xs. split; [done|]. split; [|by auto]. by constructor.
  - eexists _, xs. split; [done|]. split; [|by auto]. constructor; simpl; auto.
  - destruct Hp as [Hv ->]. rewrite Hcap.
    destruct (Z.eqb_spec (next_pos cap (_tail r)) (_head r)) as [E|E];
      (eexists _, xs; split; [done|]; split; [|by auto]); constructor; simpl; auto.
    split_all; [done..|].
    destruct (decide (Z.of_nat (S (length xs)) = cap)) as [E2|]; [|lia].
    destruct E. rewrite Ht, next_pos_at, Hh by done.
    rewrite <- (at_pos_wrap cap h) by lia. f_equal. lia.
  - destruct Hp as (Hv & -> & Hroom). eexists _, xs. split; [done|].
    split; [|by auto]. constructor; simpl; try done. rewrite Ht.
    eapply slots_ext; [|apply slots_set; [lia|exact Hs|lia]].
    intros i Hi. unfold content; simpl. rewrite app_nil_r. case_decide as E.
    + subst i. rewrite lookup_app_r, Nat.sub_diag by lia.
      destruct (consumed c) eqn:Ec; [|done].
      pose proof (consumed_nonempty _ _ _ _ Hco Ec). by destruct xs.
    + destruct (consumed c && _); [done|].
      destruct (decide (i < length xs)%nat); [by rewrite lookup_app_l|].
      rewrite lookup_ge_None_2 by lia. symmetry. apply lookup_ge_None_2.
      rewrite length_app; simpl; lia.
  - destruct Hp as (Hv & -> & Hroom). eexists _, (xs ++ [v]). split; [done|].
    split; [|split; [right; by exists v|done]].
    assert (pushed ++ [v] = popped ++ xs ++ [v]) as Hpu' by by rewrite Hpu, <- app_assoc.
    constructor; simpl; try done.
    + rewrite Hcap, Ht, next_pos_at by done. rewrite length_app; simpl. f_equal. lia.
    + rewrite length_app; simpl. lia.
    + eapply slots_ext; [|exact Hs]. intros i Hi. unfold content; simpl.
      by rewrite app_nil_r.
    + rewrite length_app, seq_app, fmap_app, <- Hit. simpl. by rewrite Hv.
    + destruct c; simpl in *; try done.
      * destruct Hco as (k & ? & ?). exists k. split; [|done].
        rewrite length_app; simpl; lia.
      * destruct Hco. split; [done|]. by destruct xs.
      * destruct Hco. split; [done|]. by destruct xs.
      * by destruct xs.
Qed.

Lemma content_first p c x xs : consumed c = false → content p c (x :: xs) 0 = Some x.
Proof. unfold content. by intros ->. Qed.

Lemma consumer_step_ok cap s h xs :
  spsc_ok cap s h xs →
  ∃ s' h' xs', consumer_step s = Some s' ∧ spsc_ok cap s' h' xs' ∧
    (xs' = xs ∨ ∃ v, xs = v :: xs') ∧ s_pushed s' = s_pushed s.
Proof.
  intros [Hc Hcap Hh Ht Hl Hs Hpo Hpu Hit Hp Hco]. pose proof (power_of_2_range _ Hc).
  destruct s as [r p c pushed popped]; simpl in *.
  destruct c as [| |t|hd|hd v|v]; simpl in *.
  - eexists _, h, xs. split; [done|]. split; [|by auto]. by constructor.
  - eexists _, h, xs. split; [done|]. split; [|by auto]. constructor; simpl; eauto.
  - destruct (Z.eqb_spec (_head r) t) as [E|E];
      (eexists _, h, xs; split; [done|]; split; [|by auto]); constructor; simpl; auto.
    split; [done|]. intros ->. destruct Hco as (k & Hk & ->). apply E. rewrite Hh.
    simpl in Hk. replace (h + k)%nat with h by lia. done.
  - destruct Hco as [-> Hne]. destruct xs as [|x xs]; [done|].
    pose proof (Hs O ltac:(lia)) as Hx. rewrite Nat.add_0_r in Hx.
    rewrite content_first in Hx by done. rewrite Hx.
    eexists _, h, _. split; [done|]. split; [|by auto]. constructor; simpl; auto.
  - destruct Hco as [-> Hv]. destruct xs as [|x xs]; [done|]. simpl in Hv.
    injection Hv as ->.
    pose proof (Hs O ltac:(lia)) as Hx. rewrite Nat.add_0_r in Hx.
    rewrite content_first in Hx by done. rewrite Hx.
    eexists _, h, _. split; [done|]. split; [|by auto]. constructor; simpl; auto.
    rewrite <- (Nat.add_0_r h) at 1.
    eapply slots_ext; [|apply slots_set; [lia|exact Hs|lia]].
    intros [|i] Hi; [done|]. unfold content. simpl. done.
  - destruct xs as [|x xs]; [done|]. injection Hco as ->. simpl in *.
    eexists _, (S h), xs. split; [done|]. split; [|split; [by right; exists v|done]].
    constructor; simpl; try done.
    + by rewrite Hcap, Hh, next_pos_at.
    + rewrite Ht. f_equal. lia.
    + lia.
    + eapply slots_ext; [|apply slots_slide; [lia|exact Hs]].
      intros i Hi. unfold content; simpl. case_decide as E; [|done].
      symmetry. apply lookup_ge_None_2. rewrite length_app.
      destruct p; simpl in *; lia.
    + rewrite length_app; simpl. lia.
    + by rewrite <- app_assoc.
    + destruct p; simpl in *; try done. all: intuition lia.
Qed.

Lemma spsc_reachable cap s :
  power_of_2 cap → reachable (spsc_init cap) spsc_step s → ∃ h xs, spsc_ok cap s h xs.
Proof.
  intros Hc. apply (invariant_reachable _ _ (λ s, ∃ h xs, spsc_ok cap s h xs)).
  - intros s0 Hi. exists 0%nat, []. by apply spsc_init_ok.
  - intros s0 s1 (h & xs & Hok) [Hs|Hs].
    + destruct (producer_step_ok _ _ _ _ Hok) as (s' & xs' & E & ? & _).
      rewrite Hs in E. injection E as ->. eauto.
    + destruct (consumer_step_ok _ _ _ _ Hok) as (s' & h' & xs' & E & ? & _).
      rewrite Hs in E. injection E as ->. eauto.
Qed.

Lemma spsc_no_race cap s h xs : spsc_ok cap s h xs → ¬ slot_race s.
Proof.
  intros [Hc Hcap Hh Ht Hl Hs Hpo Hpu Hit Hp Hco]. pose proof (power_of_2_range _ Hc).
  unfold slot_race. destruct (s_p s) as [| | |v t|]; auto.
  destruct Hp as (_ & -> & Hroom). rewrite Ht.
  destruct (s_c s) as [| | |hd|hd v'|]; auto; destruct Hco as [-> Hne]; intros E;
    rewrite <- (Nat.add_0_r h) in E at 2; apply at_pos_inj in E; try lia;
    by destruct xs.
Qed.

(** The queue the ring stands for, and its two operations. *)
Definition queue_of (s : system) : list T := drop (length (s_popped s)) (s_pushed s).
Definition queue_step (cap : Z) (xs ys : list T) : Prop :=
  (∃ v, ys = xs ++ [v] ∧ Z.of_nat (length xs) < cap - 1) ∨ (∃ v, xs = v :: ys).

Lemma queue_of_ok cap s h xs : spsc_ok cap s h xs → queue_of s = xs.
Proof. intros []. unfold queue_of. rewrite so_pushed0. apply drop_app_length. Qed.
End threads.

(** C3: whatever the interleaving of the two threads, no access is undefined (the
    consumer never reads or destroys raw storage, neither thread ever gets
    stuck), the two threads never touch the same slot at the same time, the
    values popped are a prefix of the values pushed, in order and without loss or
    duplication, so the consumer's assertion holds for every value, and at most
    [capacity - 1] values are in flight. *)
Theorem spsc_safe {T} (item : nat → T) cap s :
  power_of_2 cap → reachable (spsc_init cap) (spsc_step item) s →
  ¬ slot_race s ∧ is_Some (producer_step item s) ∧ is_Some (consumer_step s) ∧
  s_popped s `prefix_of` s_pushed s ∧
  (∀ j v, s_popped s !! j = Some v → v = item j) ∧
  Z.of_nat (length (s_pushed s)) < Z.of_nat (length (s_popped s)) + cap.
Proof.
  intros Hc Hr. destruct (spsc_reachable item cap s Hc Hr) as (h & xs & Hok).
  destruct (producer_step_ok _ _ _ _ _ Hok) as (s1 & ? & E1 & _).
  destruct (consumer_step_ok _ _ _ _ _ Hok) as (s2 & ? & ? & E2 & _).
  split; [by eapply spsc_no_race|]. split; [by eauto|]. split; [by eauto|].
  destruct Hok as [? ? ? ? Hl ? Hpo Hpu Hit ? ?]. split; [|split].
  - rewrite Hpu. by apply prefix_app_r.
  - intros j v Hj. assert (s_pushed s !! j = Some v) as Hj'.
    { rewrite Hpu. by apply lookup_app_l_Some. }
    rewrite Hit in Hj'. apply list_lookup_fmap_Some in Hj' as (k & -> & [-> _]%lookup_seq).
    done.
  - rewrite Hpu, length_app. lia.
Qed.

(** C4: every step of either thread is one atomic operation of a bounded queue
    with room for [capacity - 1] elements, or leaves that queue unchanged; [push]
    gives up only when the queue is full at the load of [_head], and [pop] only
    when it was empty at the load of [_tail]. *)
Theorem spsc_refines {T} (item : nat → T) cap s s' :
  power_of_2 cap → reachable (spsc_init cap) (spsc_step item) s →
  spsc_step item s s' →
  (queue_of s' = queue_of s ∨ queue_step cap (queue_of s) (queue_of s')) ∧
  (∀ v t, s_p s = PHead v t → s_p s' = PIdle →
     Z.of_nat (length (queue_of s)) = cap - 1) ∧
  (∀ s1 s2 t, s_c s = CTail → consumer_step s = Some s' →
     rtc (λ a b, producer_step item a = Some b) s' s1 → s_c s1 = CHead t →
     consumer_step s1 = Some s2 → s_c s2 = CIdle → queue_of s = []).
Proof.
  intros Hc Hr Hs. destruct (spsc_reachable item cap s Hc Hr) as (h & xs & Hok).
  pose proof (power_of_2_range _ Hc) as Hpos. rewrite (queue_of_ok _ _ _ _ _ Hok).
  split; [|split].
  - destruct Hs as [Hs|Hs].
    + destruct (producer_step_ok _ _ _ _ _ Hok) as (s1 & xs' & E & Hok' & Hx & _).
      rewrite Hs in E. injection E as <-. rewrite (queue_of_ok _ _ _ _ _ Hok').
      destruct Hx as [->|(v & -> & ?)]; [by left|right; left; exists v; split; [done|lia]].
    + destruct (consumer_step_ok _ _ _ _ _ Hok) as (s1 & h' & xs' & E & Hok' & Hx & _).
      rewrite Hs in E. injection E as <-. rewrite (queue_of_ok _ _ _ _ _ Hok').
      destruct Hx as [->|(v & ->)]; [by left|right; right; by exists v].
  - intros v t Ep Ep'. destruct Hok as [? Hcap Hh Ht Hl ? ? ? ? Hp ?].
    destruct s as [r p c pu po]; simpl in *. subst p. destruct Hp as [_ ->].
    destruct Hs as [Hs|Hs]; [|destruct c; simpl in Hs; repeat case_match; naive_solver].
    simpl in Hs. case_match eqn:E; [|naive_solver]. apply Z.eqb_eq in E.
    rewrite Hcap, Ht, next_pos_at, Hh in E by done.
    destruct (decide (Z.of_nat (S (length xs)) < cap)); [|lia].
    rewrite <- Nat.add_succ_r in E.
    rewrite <- (Nat.add_0_r h) in E at 2.
    apply at_pos_inj in E; lia.
  - intros s1 s2 t Ec Ec' Hpr Ect Ec2 Eidle.
    destruct Hok as [? Hcap Hh Ht Hl ? ? ? ? ? ?].
    destruct s as [r p c pu po]; simpl in *. subst c. injection Ec' as <-.
    assert (∀ a b, rtc (λ a b, producer_step item a = Some b) a b →
      s_c b = s_c a ∧ _head (s_ring b) = _head (s_ring a)) as Hkeep.
    { intros a b Hab. induction Hab as [|x y z Hxy _ [IH1 IH2]]; [done|].
      rewrite IH1, IH2. clear -Hxy.
      destruct x as [? [] ? ? ?]; simpl in Hxy; repeat case_match; by simplify_eq. }
    apply Hkeep in Hpr as [E1 E2]. simpl in *. rewrite Ect in E1. injection E1 as ->.
    destruct s1 as [r1 p1 c1 pu1 po1]; simpl in *. subst c1. simpl in Ec2.
    case_match eqn:E; [|naive_solver]. apply Z.eqb_eq in E.
    rewrite E2, Hh, Ht in E. destruct xs; [done|].
    rewrite <- (Nat.add_0_r h) in E at 1. apply at_pos_inj in E; simpl in *; lia.
Qed.

(** Without interference the ring is a bounded queue with room for
    [capacity - 1] elements: [push] and [pop] on both branches, and the
    destructor destroys exactly the objects left. *)
Theorem ring_buffer_spec {T} (r : RingBuffer T) h xs fuel :
  ring_ok r h xs → (length xs < fuel)%nat →
  (∀ v, if Z.of_nat (length xs) =? capacity r - 1 then push v r = Some (false, r)
        else ∃ r', push v r = Some (true, r') ∧ ring_ok r' h (xs ++ [v])) ∧
  match xs with
  | [] => pop r = Some (None, r)
  | v :: xs => ∃ r', pop r = Some (Some v, r') ∧ ring_ok r' (S h) xs
  end ∧
  (∃ d, RingBuffer_destroy fuel r = Some d ∧ ∀ i, 0 ≤ i < capacity r → d i = None).
Proof.
  intros Hok Hf. split; [|split; [|by eapply destroy_run]].
  - intros v. destruct (Z.eqb_spec (Z.of_nat (length xs)) (capacity r - 1)).
    + apply (push_full_run v r h xs Hok). lia.
    + destruct (push_run v r h xs Hok) as (r' & ? & ? & _); [|eauto].
      destruct Hok. lia.
  - destruct xs as [|v xs]; [by apply (pop_empty_run r h)|].
    destruct (pop_run v r h xs Hok) as (r' & ? & ? & _). eauto.
Qed.

(** [size] subtracts [_head] from itself, so it returns the capacity for
    every ring of any legal capacity, and [full] is always true. *)
Theorem size_always_capacity {T} (r : RingBuffer T) h xs :
  ring_ok r h xs → size r = capacity r ∧ full r = true.
Proof.
  intros [Hc Hh _ _ _]. pose proof (power_of_2_range _ Hc) as Hr.
  assert (size r = capacity r) as E.
  { unfold size. rewrite Z.gtb_ltb, Z.ltb_irrefl.
    replace (_head r + capacity r - _head r) with (capacity r) by lia.
    apply wrap_id. unfold in_unsigned. lia. }
  split; [done|]. unfold full. by rewrite E, Z.eqb_refl.
Qed.

(** ** Concrete runs *)

(** [true] steps the producer, [false] the consumer. *)
Fixpoint run_spsc {T} (item : nat → T) (sched : list bool) (s : system) : option system :=
  match sched with
  | [] => Some s
  | b :: sched =>
      s' ← (if b : bool then producer_step item s else consumer_step s);
      run_spsc item sched s'
  end.

Lemma run_spsc_rtc {T} (item : nat → T) sched s s' :
  run_spsc item sched s = Some s' → rtc (spsc_step item) s s'.
Proof.
  revert s; induction sched as [|b sched IH]; simpl; intros s Hr.
  - injection Hr as ->. apply rtc_refl.
  - apply bind_Some in Hr as (s1 & Hs & Hr). eapply rtc_l; [|by apply IH].
    destruct b; [by left|by right].
Qed.

Lemma power_of_2_4 : power_of_2 4.
Proof. by exists 2. Qed.
Lemma power_of_2_1024 : power_of_2 1024.
Proof. by exists 10. Qed.

(** Two pushes and most of a pop: the consumer has the first value in hand. *)
Definition demo_sched : list bool :=
  replicate 5 true ++ replicate 3 false ++ replicate 5 true ++ [false; false].
Definition demo_start : system := mk_system (T:=Z) (RingBuffer_init 4) PIdle CIdle [] [].

Lemma spsc_safe_witness :
  match run_spsc Z.of_nat demo_sched demo_start with
  | Some s => s_pushed s = [0; 1] ∧ ¬ slot_race s ∧ s_popped s `prefix_of` s_pushed s
  | None => False
  end.
Proof.
  destruct (run_spsc Z.of_nat demo_sched demo_start) as [s|] eqn:E; [|by vm_compute in E].
  assert (s_pushed s = [0; 1]) as Hp by (vm_compute in E; by injection E as <-).
  destruct (spsc_safe Z.of_nat 4 s power_of_2_4) as (H1 & _ & _ & H2 & _);
    [|by split_all].
  exists demo_start. split; [done|]. by apply (run_spsc_rtc _ demo_sched).
Defined.

Lemma spsc_refines_witness :
  match run_spsc Z.of_nat demo_sched demo_start with
  | Some s => match consumer_step s with
              | Some s' => queue_of s' = queue_of s ∨
                           queue_step 4 (queue_of s) (queue_of s')
              | None => False
              end
  | None => False
  end.
Proof.
  destruct (run_spsc Z.of_nat demo_sched demo_start) as [s|] eqn:E; [|by vm_compute in E].
  destruct (consumer_step s) as [s'|] eqn:E';
    [|vm_compute in E; injection E as <-; by vm_compute in E'].
  apply (spsc_refines Z.of_nat 4 s s' power_of_2_4); [|by right].
  exists demo_start. split; [done|]. by apply (run_spsc_rtc _ demo_sched).
Defined.

Lemma ring_buffer_witness : ∃ r',
  push 7 (RingBuffer_init 4) = Some (true, r') ∧ ring_ok r' 0 [7].
Proof.
  destruct (ring_buffer_spec (T:=Z) (RingBuffer_init 4) 0 [] 1) as (H & _);
    [apply ring_init_ok, power_of_2_4|simpl; lia|]. apply (H 7).
Defined.

Lemma size_witness :
  size (RingBuffer_init (T:=Z) 1024) = 1024 ∧ full (RingBuffer_init (T:=Z) 1024) = true.
Proof.
  apply (size_always_capacity (RingBuffer_init (T:=Z) 1024) 0 []).
  apply ring_init_ok, power_of_2_1024.
Defined.

