(* ===== verification/RteRing.v ===== *)
(** The ring buffer of [src/cpp/cpp_coding/ring_buffer/rte_ring_buffer.cpp], in
    its single-threaded ([RING_SYNC_ST]) and multi-threaded ([RING_SYNC_MT])
    modes.

    [push_step] and [pop_step] run the two functions access by access, on 32-bit
    indices that wrap; [push] and [pop] run them without interference and
    implement the queue interface of Fifo.v in both modes.  [mt_step] interleaves
    any number of threads: there the multi-threaded mode publishes slots that
    have not been written ([mt_publishes_unwritten_slot]). *)

From S2P Require Import Prelude Fifo RingSpsc.

Local Open Scope Z_scope.

Inductive RING_SYNC_TYPE : Type := RING_SYNC_ST | RING_SYNC_MT.

Section rte.
Context {T : Type}.

(** [_prod], [_cons] and [_data] *)
Record ring := mk_rte {
  rte_capacity : Z;
  prod_head : Z; prod_tail : Z;
  cons_head : Z; cons_tail : Z;
  rte_data : Z → option T
}.

Definition rte_init (capacity : Z) : ring := mk_rte capacity 0 0 0 0 (λ _, None).

Definition set_prod_head (r : ring) (v : Z) : ring :=
  mk_rte (rte_capacity r) v (prod_tail r) (cons_head r) (cons_tail r) (rte_data r).
Definition set_prod_tail (r : ring) (v : Z) : ring :=
  mk_rte (rte_capacity r) (prod_head r) v (cons_head r) (cons_tail r) (rte_data r).
Definition set_cons_head (r : ring) (v : Z) : ring :=
  mk_rte (rte_capacity r) (prod_head r) (prod_tail r) v (cons_tail r) (rte_data r).
Definition set_cons_tail (r : ring) (v : Z) : ring :=
  mk_rte (rte_capacity r) (prod_head r) (prod_tail r) (cons_head r) v (rte_data r).
Definition set_rte_data (r : ring) (i : Z) (o : option T) : ring :=
  mk_rte (rte_capacity r) (prod_head r) (prod_tail r) (cons_head r) (cons_tail r)
    (set_slot (rte_data r) i o).

(** [& (capacity - 1)] *)
Definition slot_of (r : ring) (pos : Z) : Z := Z.land pos (rte_capacity r - 1).

(** ** [push] *)

Inductive push_pc : Type :=
| ULoadHead                              (* load [_prod.head] *)
| ULoadTail (prod_head : Z)              (* load [_cons.tail], test [available] *)
| UReserve (prod_head : Z)               (* store to, or CAS, [_prod.head] *)
| UWrite (prod_head prod_head_next : Z)  (* construct the element *)
| UPublish (prod_head prod_head_next : Z) (* store to, or CAS, [_prod.tail] *)
| UDone (result : bool).

(** [compare_exchange_strong (expected, desired)] stores the value it read into
    [expected] when it fails. *)
Definition push_step (mode : RING_SYNC_TYPE) (value : T) (pc : push_pc) (r : ring)
    : push_pc * ring :=
  match pc with
  | ULoadHead => (ULoadTail (prod_head r), r)
  | ULoadTail ph =>
      let available := u32 (rte_capacity r + cons_tail r - ph) in
      if available =? 0 then (UDone false, r) else (UReserve ph, r)
  | UReserve ph =>
      let next := u32 (ph + 1) in
      match mode with
      | RING_SYNC_ST => (UWrite ph next, set_prod_head r next)
      | RING_SYNC_MT =>
          if prod_head r =? ph then (UWrite ph next, set_prod_head r next)
          else (ULoadHead, r)
      end
  | UWrite ph next => (UPublish ph next, set_rte_data r (slot_of r ph) (Some value))
  | UPublish ph next =>
      match mode with
      | RING_SYNC_ST => (UDone true, set_prod_tail r next)
      | RING_SYNC_MT =>
          if prod_tail r =? ph then (UDone true, set_prod_tail r next)
          else (UPublish (prod_tail r) next, r)
      end
  | UDone b => (UDone b, r)
  end.

(** ** [pop] *)

Inductive pop_pc : Type :=
| OLoadHead
| OLoadTail (cons_head : Z)
| OReserve (cons_head : Z)
| ORead (cons_head cons_head_next : Z)
| ODestroy (cons_head cons_head_next : Z) (value : T)
| OPublish (cons_head cons_head_next : Z) (value : T)
| ODone (result : option T).

(** Moving out of, or destroying, a slot without an object is undefined. *)
Definition pop_step (mode : RING_SYNC_TYPE) (pc : pop_pc) (r : ring)
    : option (pop_pc * ring) :=
  match pc with
  | OLoadHead => Some (OLoadTail (cons_head r), r)
  | OLoadTail ch =>
      let length := u32 (prod_tail r - ch) in
      if length =? 0 then Some (ODone None, r) else Some (OReserve ch, r)
  | OReserve ch =>
      let next := u32 (ch + 1) in
      match mode with
      | RING_SYNC_ST => Some (ORead ch next, set_cons_head r next)
      | RING_SYNC_MT =>
          if cons_head r =? ch then Some (ORead ch next, set_cons_head r next)
          else Some (OLoadHead, r)
      end
  | ORead ch next =>
      match rte_data r (slot_of r ch) with
      | Some v => Some (ODestroy ch next v, r)
      | None => None
      end
  | ODestroy ch next v =>
      match rte_data r (slot_of r ch) with
      | Some _ => Some (OPublish ch next v, set_rte_data r (slot_of r ch) None)
      | None => None
      end
  | OPublish ch next v =>
      match mode with
      | RING_SYNC_ST => Some (ODone (Some v), set_cons_tail r next)
      | RING_SYNC_MT =>
          if cons_tail r =? ch then Some (ODone (Some v), set_cons_tail r next)
          else Some (OPublish (cons_tail r) next v, r)
      end
  | ODone o => Some (ODone o, r)
  end.

(** ** Without interference *)

Fixpoint run_push (fuel : nat) (mode : RING_SYNC_TYPE) (value : T) (pc : push_pc)
    (r : ring) : option (bool * ring) :=
  match pc, fuel with
  | UDone b, _ => Some (b, r)
  | _, O => None
  | _, S f => let '(pc, r) := push_step mode value pc r in run_push f mode value pc r
  end.
Fixpoint run_pop (fuel : nat) (mode : RING_SYNC_TYPE) (pc : pop_pc) (r : ring)
    : option (option T * ring) :=
  match pc, fuel with
  | ODone o, _ => Some (o, r)
  | _, O => None
  | _, S f => '(pc, r) ← pop_step mode pc r; run_pop f mode pc r
  end.

(** Five and six accesses are enough for a thread that runs alone. *)
Definition push (mode : RING_SYNC_TYPE) (value : T) : ST ring bool :=
  run_push 5 mode value ULoadHead.
Definition pop (mode : RING_SYNC_TYPE) : ST ring (option T) :=
  run_pop 6 mode OLoadHead.

(** ** The representation *)

(** The ring holds [xs], [h] elements having been popped before; the indices are
    those positions modulo 2^32. *)
Record rte_ok (r : ring) (h : nat) (xs : list T) : Prop := {
  re_cap : ∃ k, 0 ≤ k ≤ 31 ∧ rte_capacity r = 2 ^ k;
  re_prod : prod_head r = u32 (Z.of_nat (h + length xs)) ∧ prod_tail r = prod_head r;
  re_cons : cons_head r = u32 (Z.of_nat h) ∧ cons_tail r = cons_head r;
  re_len : Z.of_nat (length xs) ≤ rte_capacity r;
  re_slots : slots (rte_capacity r) (rte_data r) h (λ i, xs !! i)
}.

Lemma rte_cap_range r h xs :
  rte_ok r h xs → power_of_2 (rte_capacity r) ∧ 0 < rte_capacity r ≤ 2 ^ 31.
Proof.
  intros [(k & Hk & E) _ _ _ _]. rewrite E. split; [exists k; split; [lia|done]|].
  split; [apply Z.pow_pos_nonneg; lia|apply Z.pow_le_mono_r; lia].
Qed.

Lemma rte_init_ok k : 0 ≤ k ≤ 31 → rte_ok (rte_init (2 ^ k)) 0 [].
Proof.
  intros Hk. constructor; simpl; try done; [by exists k|].
  apply Z.pow_nonneg. lia.
Qed.

(** The slot of a wrapped index is the slot of the position. *)
Lemma slot_of_u32 r h xs n :
  rte_ok r h xs → slot_of r (u32 (Z.of_nat n)) = at_pos (rte_capacity r) n.
Proof.
  intros Hok. destruct (rte_cap_range _ _ _ Hok) as [Hp _].
  destruct (re_cap _ _ _ Hok) as (k & Hk & E).
  unfold slot_of. rewrite land_mask by done. unfold at_pos, u32, wrap. rewrite E.
  replace (2 ^ 32) with (2 ^ k * 2 ^ (32 - k)) by (rewrite <- Z.pow_add_r by lia; f_equal; lia).
  rewrite Z.rem_mul_r by (try apply Z.pow_nonzero; try apply Z.pow_pos_nonneg; lia).
  rewrite Z.mul_comm, Z_mod_plus_full. apply Zmod_mod.
Qed.

Lemma u32_diff a b : 0 ≤ a - b < 2 ^ 32 → u32 (u32 a - u32 b) = a - b.
Proof.
  intros H. unfold u32, wrap. rewrite <- Zminus_mod. by apply Z.mod_small.
Qed.

Lemma available_eq r h xs :
  rte_ok r h xs →
  u32 (rte_capacity r + cons_tail r - prod_head r) =
  rte_capacity r - Z.of_nat (length xs).
Proof.
  intros Hok. destruct (rte_cap_range _ _ _ Hok) as [_ Hr].
  destruct Hok as [_ [Hp _] [Hc Hc2] Hl _].
  rewrite Hc2, Hc, Hp. unfold u32, wrap.
  rewrite Zminus_mod, Z.add_mod_idemp_r, Zmod_mod, <- Zminus_mod by lia.
  rewrite Z.mod_small; lia.
Qed.

Lemma length_eq r h xs :
  rte_ok r h xs → u32 (prod_tail r - cons_head r) = Z.of_nat (length xs).
Proof.
  intros Hok. destruct (rte_cap_range _ _ _ Hok) as [_ Hr].
  destruct Hok as [_ [Hp Hp2] [Hc _] Hl _]. rewrite Hp2, Hp, Hc, u32_diff; lia.
Qed.

Lemma u32_succ n : u32 (u32 (Z.of_nat n) + 1) = u32 (Z.of_nat (S n)).
Proof. unfold u32. rewrite wrap_add_l by lia. f_equal. lia. Qed.

Lemma rte_push_run mode v r h xs :
  rte_ok r h xs → Z.of_nat (length xs) < rte_capacity r →
  ∃ r', push mode v r = Some (true, r') ∧ rte_ok r' h (xs ++ [v]) ∧
    rte_capacity r' = rte_capacity r.
Proof.
  intros Hok Hl. pose proof (available_eq _ _ _ Hok) as Ha.
  pose proof (slot_of_u32 _ _ _ (h + length xs) Hok) as Hsl.
  destruct (rte_cap_range _ _ _ Hok) as [_ Hr].
  destruct Hok as [Hc [Hp Hpt] [Hch Hct] Hlen Hs].
  eexists. split; [|split].
  - unfold push, run_push, push_step. rewrite Ha, (proj2 (Z.eqb_neq _ _)) by lia.
    destruct mode; [reflexivity|]. rewrite Z.eqb_refl. simpl.
    rewrite Hpt, Z.eqb_refl. reflexivity.
  - constructor; simpl; [done| |done| |].
    + rewrite Hp, u32_succ, length_app. simpl. split; [do 2 f_equal; lia|done].
    + rewrite length_app. simpl. lia.
    + rewrite Hp. unfold set_prod_head, slot_of in *. simpl. rewrite Hsl.
      eapply slots_ext; [|apply slots_set; [lia|exact Hs|lia]].
      intros i Hi. simpl. case_decide as E.
      * subst. by rewrite lookup_app_r, Nat.sub_diag by lia.
      * destruct (decide (i < length xs)%nat); [by rewrite lookup_app_l|].
        rewrite lookup_ge_None_2 by lia. symmetry. apply lookup_ge_None_2.
        rewrite length_app. simpl. lia.
  - done.
Qed.

Lemma rte_push_full_run mode v r h xs :
  rte_ok r h xs → Z.of_nat (length xs) = rte_capacity r → push mode v r = Some (false, r).
Proof.
  intros Hok Hl. unfold push, run_push, push_step.
  rewrite (available_eq _ _ _ Hok), (proj2 (Z.eqb_eq _ _)) by lia. done.
Qed.

Lemma rte_pop_run mode v r h xs :
  rte_ok r h (v :: xs) →
  ∃ r', pop mode r = Some (Some v, r') ∧ rte_ok r' (S h) xs ∧
    rte_capacity r' = rte_capacity r.
Proof.
  intros Hok. pose proof (length_eq _ _ _ Hok) as Hlen.
  pose proof (slot_of_u32 _ _ _ h Hok) as Hsl.
  destruct (rte_cap_range _ _ _ Hok) as [_ Hr].
  destruct Hok as [Hc [Hp Hpt] [Hch Hct] Hl Hs]. simpl in Hl, Hp, Hlen.
  assert (rte_data r (slot_of r (cons_head r)) = Some v) as Hv.
  { rewrite Hch, Hsl, <- (Nat.add_0_r h), (Hs O) by lia. done. }
  eexists. split; [|split].
  - unfold pop. cbn [run_pop pop_step mbind option_bind].
    rewrite Hlen, (proj2 (Z.eqb_neq _ _)) by lia. cbn [mbind option_bind pop_step].
    assert (∀ y, rte_data r (slot_of (set_cons_head r y) (cons_head r)) = Some v)
      as Hv' by (intros; exact Hv).
    destruct mode; rewrite ?Z.eqb_refl; simpl; rewrite Hv'; simpl; rewrite Hv'; simpl;
      rewrite ?Hct, ?Z.eqb_refl; reflexivity.
  - constructor; simpl; [done| | | |].
    + rewrite Hp. split; [do 2 f_equal; lia|by rewrite Hpt, Hp].
    + by rewrite Hch, u32_succ.
    + lia.
    + change (slot_of (set_cons_head r _)) with (slot_of r). rewrite Hch, Hsl.
      eapply slots_ext; [|apply slots_slide; [lia|]].
      2:{ rewrite <- (Nat.add_0_r h) at 1. apply slots_set; [lia|exact Hs|lia]. }
      intros i Hi. simpl. case_decide as E; [|done].
      symmetry. apply lookup_ge_None_2. lia.
  - done.
Qed.

Lemma rte_pop_empty_run mode r h : rte_ok r h [] → pop mode r = Some (None, r).
Proof.
  intros Hok. unfold pop. cbn [run_pop pop_step mbind option_bind].
  by rewrite (length_eq _ _ _ Hok).
Qed.

(** The objects in the ring, from the consumer's head on. *)
Definition rte_elems (r : ring) : list T :=
  omap (λ i, rte_data r (slot_of r (u32 (cons_head r + Z.of_nat i))))
       (seq 0 (Z.to_nat (rte_capacity r))).

Lemma rte_elems_ok r h xs : rte_ok r h xs → rte_elems r = xs.
Proof.
  intros Hok. destruct (rte_cap_range _ _ _ Hok) as [_ Hr].
  pose proof (slot_of_u32 r h xs) as Hsl. specialize (Hsl).
  pose proof Hok as [_ _ [Hch _] Hl Hs]. unfold rte_elems.
  rewrite <- (omap_seq_lookup xs (Z.to_nat (rte_capacity r))) by lia.
  apply list_omap_ext, Forall2_same_length_lookup. split; [done|].
  intros i a b [-> Ha]%lookup_seq [-> Hb]%lookup_seq. simpl.
  rewrite Hch. unfold u32. rewrite wrap_add_l by lia. fold u32.
  replace (Z.of_nat h + Z.of_nat i) with (Z.of_nat (h + i)) by lia.
  rewrite (Hsl (h + i)%nat Hok). apply Hs. lia.
Qed.

(** Either mode, used by one thread at a time, is a queue with room for
    [capacity] elements. *)
Program Definition rte_fifo (mode : RING_SYNC_TYPE) : BoundedFifo ring T := {|
  fifo_ok r := ∃ h xs, rte_ok r h xs;
  fifo_elems := rte_elems;
  fifo_room r := Z.to_nat (rte_capacity r);
  fifo_push := push mode;
  fifo_pop := pop mode
|}.
Next Obligation.
  intros _ q (h & xs & Hok). rewrite (rte_elems_ok _ _ _ Hok). destruct Hok. lia.
Qed.
Next Obligation.
  intros mode v q (h & xs & Hok). rewrite (rte_elems_ok _ _ _ Hok). intros Hl.
  destruct (rte_push_run mode v q h xs Hok) as (q' & Hp & Hok' & Hcap); [lia|].
  exists q'. rewrite (rte_elems_ok _ _ _ Hok'), Hcap. split_all; eauto.
Qed.
Next Obligation.
  intros mode v q (h & xs & Hok). rewrite (rte_elems_ok _ _ _ Hok). intros Hl.
  destruct (rte_cap_range _ _ _ Hok).
  apply (rte_push_full_run mode v q h xs Hok). lia.
Qed.
Next Obligation.
  intros mode v vs q (h & xs & Hok). rewrite (rte_elems_ok _ _ _ Hok). intros ->.
  destruct (rte_pop_run mode v q h vs Hok) as (q' & Hp & Hok' & Hcap).
  exists q'. rewrite (rte_elems_ok _ _ _ Hok'), Hcap. split_all; eauto.
Qed.
Next Obligation.
  intros mode q (h & xs & Hok). rewrite (rte_elems_ok _ _ _ Hok). intros ->.
  by apply (rte_pop_empty_run mode q h).
Qed.

(** ** Several threads *)

Inductive thread : Type :=
| Producer (value : T) (pc : push_pc)
| Consumer (pc : pop_pc).

Definition thread_step (mode : RING_SYNC_TYPE) (t : thread) (r : ring)
    : option (thread * ring) :=
  match t with
  | Producer v pc => let '(pc', r') := push_step mode v pc r in Some (Producer v pc', r')
  | Consumer pc => '(pc', r') ← pop_step mode pc r; Some (Consumer pc', r')
  end.

(** The thread [i] makes its next access; [None] is undefined behaviour. *)
Definition mt_step (mode : RING_SYNC_TYPE) (i : nat) (s : list thread * ring)
    : option (list thread * ring) :=
  t ← s.1 !! i; '(t', r') ← thread_step mode t s.2; Some (<[i := t']> s.1, r').

Fixpoint mt_run (mode : RING_SYNC_TYPE) (sched : list nat) (s : list thread * ring)
    : option (list thread * ring) :=
  match sched with
  | [] => Some s
  | i :: sched => s' ← mt_step mode i s; mt_run mode sched s'
  end.
End rte.
Arguments ring : clear implicits.
Arguments pop_pc : clear implicits.
Arguments thread : clear implicits.


(** The multi-threaded mode is unsound.  When the second of two producers
    reaches its publication first, its failing compare-and-swap on [_prod.tail]
    overwrites its expected value with the tail it read, so the retry succeeds
    and publishes the slot that the first producer has reserved but not written;
    a consumer then moves an object out of raw storage.  The schedule below does
    this with the capacity of [test_threaded_mpmc], for any two values. *)
Theorem mt_publishes_unwritten_slot {T} (a b : T) :
  let start := ([Producer a ULoadHead; Producer b ULoadHead; Consumer OLoadHead],
                rte_init 1024) in
  (∃ s, mt_run RING_SYNC_MT [0; 0; 0; 1; 1; 1; 1; 1; 1]%nat start = Some s ∧
     prod_tail s.2 = 2 ∧ rte_data s.2 0 = None ∧
     s.1 !! 0%nat = Some (Producer a (UWrite 0 1)) ∧
     s.1 !! 1%nat = Some (Producer b (UDone true))) ∧
  mt_run RING_SYNC_MT [0; 0; 0; 1; 1; 1; 1; 1; 1; 2; 2; 2; 2]%nat start = None.
Proof.
  intros start. split; [|reflexivity].
  eexists. split; [reflexivity|]. repeat split.
Qed.

(** ** Concrete runs *)


(** The indices wrap around: a ring whose next index is 2^32 - 1. *)
Example rte_wraps :
  let r := mk_rte 4 4294967295 4294967295 4294967295 4294967295 (λ _, None) in
  ('(_, r) ← push RING_SYNC_ST 5 r; '(_, r) ← push RING_SYNC_ST 6 r; '(x, r) ← pop RING_SYNC_ST r;
   '(y, r) ← pop RING_SYNC_ST r; Some (x, y, prod_head r, cons_tail r)) =
  Some (Some 5, Some 6, 1, 1).
Proof. reflexivity. Qed.
