(* ===== verification/Monitor.v ===== *)
(** Threads that synchronise with mutexes and condition variables.

    The concurrent programs of the repository (blocking queues, thread pools,
    latches, ordered printing) are control-flow graphs: a thread is at a label
    and [code i l] is the instruction there.  This file gives the instructions
    their meaning as the C++ standard describes [std::mutex],
    [std::condition_variable] and [std::thread::join]: a wait releases its mutex
    and sleeps atomically, it may wake up spuriously, a notification that finds
    no sleeper is lost, and a woken thread has to reacquire the mutex.  [exec]
    makes one step of one thread; [mon_step] is any such step.

    [exec_lock_ok] derives mutual exclusion from a static annotation of which
    mutexes each label holds, [outline_sound] invariants from assertions at the
    labels, once for all programs; [verified_sound] checks finite programs
    exhaustively by computation. *)

From S2P Require Import Prelude.

Section monitor.
Context {S L : Type}.

(** [Act f] is one access to the shared state, [None] being undefined behaviour or
    a failed assertion; mutexes, condition variables and threads are numbered. *)
Inductive instr : Type :=
| Act (f : S → option (S * L))
| Lock (m : nat) (k : L)
| Unlock (m : nat) (k : L)
| WaitOn (c m : nat) (k : L)
| NotifyOne (c : nat) (k : L)
| NotifyAll (c : nat) (k : L)
| Join (t : nat) (k : L)
| Halt.

(** Running at a label, asleep on a condition variable, or awake again and in
    need of its mutex. *)
Inductive status : Type :=
| Run (l : L)
| Waiting (c m : nat) (l : L)
| Relock (m : nat) (l : L).

Record config := mk_config {
  shared : S; owner : list (option nat); threads : list status
}.

Inductive outcome : Type := Blocked | Undefined | Next (s : config).

(** What the scheduler chooses: the thread to run and, for [notify_one], the
    sleeper to wake; or a spurious wake-up. *)
Inductive choice : Type :=
| Go (i : nat) (sleeper : option nat)
| Spurious (i : nat).

Context (code : nat → L → instr).

Definition sleeps_on (c : nat) (st : status) : bool :=
  match st with Waiting c' _ _ => c =? c' | _ => false end.
Definition wake (st : status) : status :=
  match st with Waiting _ m l => Relock m l | _ => st end.

Definition halted (i : nat) (st : status) : bool :=
  match st with
  | Run l => match code i l with Halt => true | _ => false end
  | _ => false
  end.

Definition goto (i : nat) (l : L) (s : config) : config :=
  mk_config (shared s) (owner s) (<[i := Run l]> (threads s)).
Definition set_owner (m : nat) (o : option nat) (s : config) : config :=
  mk_config (shared s) (<[m := o]> (owner s)) (threads s).

Definition exec_instr (i : nat) (l : L) (sleeper : option nat) (s : config) : outcome :=
  match code i l with
  | Act f =>
      match f (shared s) with
      | Some (s', k) => Next (mk_config s' (owner s) (<[i := Run k]> (threads s)))
      | None => Undefined
      end
  | Lock m k =>
      match owner s !! m with
      | Some None => Next (set_owner m (Some i) (goto i k s))
      | Some (Some j) => if i =? j then Undefined else Blocked
      | None => Undefined
      end
  | Unlock m k =>
      match owner s !! m with
      | Some (Some j) => if i =? j then Next (set_owner m None (goto i k s)) else Undefined
      | _ => Undefined
      end
  | WaitOn c m k =>
      match owner s !! m with
      | Some (Some j) =>
          if i =? j
          then Next (set_owner m None
                 (mk_config (shared s) (owner s) (<[i := Waiting c m k]> (threads s))))
          else Undefined
      | _ => Undefined
      end
  | NotifyOne c k =>
      match sleeper with
      | Some j =>
          match threads s !! j with
          | Some st =>
              if sleeps_on c st
              then Next (goto i k (mk_config (shared s) (owner s)
                                    (<[j := wake st]> (threads s))))
              else Blocked
          | None => Blocked
          end
      | None => if existsb (sleeps_on c) (threads s) then Blocked else Next (goto i k s)
      end
  | NotifyAll c k =>
      Next (goto i k (mk_config (shared s) (owner s)
        ((λ st, if sleeps_on c st then wake st else st) <$> threads s)))
  | Join t k =>
      match threads s !! t with
      | Some st => if halted t st then Next (goto i k s) else Blocked
      | None => Undefined
      end
  | Halt => Blocked
  end.

Definition exec (ch : choice) (s : config) : outcome :=
  match ch with
  | Go i sleeper =>
      match threads s !! i with
      | Some (Run l) => exec_instr i l sleeper s
      | Some (Relock m l) =>
          match owner s !! m with
          | Some None => Next (set_owner m (Some i) (goto i l s))
          | Some (Some _) => Blocked
          | None => Undefined
          end
      | _ => Blocked
      end
  | Spurious i =>
      match threads s !! i with
      | Some (Waiting c m l) =>
          Next (mk_config (shared s) (owner s) (<[i := Relock m l]> (threads s)))
      | _ => Blocked
      end
  end.

Definition mon_step (s s' : config) : Prop := ∃ ch, exec ch s = Next s'.

(** A given schedule. *)
Fixpoint run (sched : list choice) (s : config) : option config :=
  match sched with
  | [] => Some s
  | ch :: sched => match exec ch s with Next s' => run sched s' | _ => None end
  end.

Lemma run_rtc sched s s' : run sched s = Some s' → rtc mon_step s s'.
Proof.
  revert s; induction sched as [|ch sched IH]; simpl; intros s H.
  - injection H as ->. apply rtc_refl.
  - destruct (exec ch s) as [| |s1] eqn:E; try done.
    eapply rtc_l; [by exists ch|auto].
Qed.

Definition started (s0 : S) (n_mutexes : nat) (entry : list L) : config :=
  mk_config s0 (replicate n_mutexes None) (Run <$> entry).

(** * Lock discipline *)

(** [holds i l m]: thread [i] holds the mutex [m] when it is about to execute the
    instruction at [l]. *)
Context (holds : nat → L → nat → bool).

Definition st_holds (i : nat) (st : status) (m : nat) : bool :=
  match st with
  | Run l => holds i l m
  | Waiting _ m' l | Relock m' l => holds i l m && negb (m =? m')
  end.

(** The annotation agrees with every instruction. *)
Definition annotated (n_mutexes : nat) : Prop :=
  ∀ i l, match code i l with
  | Act f => ∀ s s' k, f s = Some (s', k) → ∀ m, holds i k m = holds i l m
  | Lock m k => m < n_mutexes ∧ holds i l m = false ∧
                ∀ m', holds i k m' = (m' =? m) || holds i l m'
  | Unlock m k => holds i l m = true ∧
                ∀ m', holds i k m' = holds i l m' && negb (m' =? m)
  | WaitOn _ m k => holds i l m = true ∧ ∀ m', holds i k m' = holds i l m'
  | NotifyOne _ k | NotifyAll _ k | Join _ k => ∀ m, holds i k m = holds i l m
  | Halt => True
  end.

(** Who owns a mutex is exactly who holds it according to the annotation. *)
Definition lock_ok (n_mutexes : nat) (s : config) : Prop :=
  length (owner s) = n_mutexes ∧
  (∀ m i, owner s !! m = Some (Some i) ↔
     ∃ st, threads s !! i = Some st ∧ st_holds i st m = true) ∧
  (∀ i c m l, threads s !! i = Some (Waiting c m l) → holds i l m = true ∧ m < n_mutexes) ∧
  (∀ i m l, threads s !! i = Some (Relock m l) → holds i l m = true ∧ m < n_mutexes).

Lemma lock_exclusive n s m i j sti stj :
  lock_ok n s → threads s !! i = Some sti → threads s !! j = Some stj →
  st_holds i sti m = true → st_holds j stj m = true → i = j.
Proof.
  intros (_ & H & _) Hi Hj Hhi Hhj.
  assert (owner s !! m = Some (Some i)) as E1 by (apply H; eauto).
  assert (owner s !! m = Some (Some j)) as E2 by (apply H; eauto).
  congruence.
Qed.

Lemma lock_held n s i st m :
  lock_ok n s → threads s !! i = Some st →
  owner s !! m = Some (Some i) ↔ st_holds i st m = true.
Proof.
  intros (_ & H & _) Hi. rewrite H. split; [|eauto].
  intros (st' & Hi' & Hh). by simplify_eq.
Qed.

(** One thread changes its status; the owners follow. *)
Lemma lock_ok_update n s sh i st st' owner' :
  lock_ok n s → threads s !! i = Some st → length owner' = n →
  (∀ m j, j ≠ i → owner' !! m = Some (Some j) ↔ owner s !! m = Some (Some j)) →
  (∀ m, owner' !! m = Some (Some i) ↔ st_holds i st' m = true) →
  match st' with
  | Run _ => True
  | Waiting _ m l | Relock m l => holds i l m = true ∧ m < n
  end →
  lock_ok n (mk_config sh owner' (<[i := st']> (threads s))).
Proof.
  intros (Hlen & Ho & Hw & Hr) Hi Hlen' Hj Hi' Hst. split; [done|].
  pose proof (lookup_lt_Some _ _ _ Hi) as Hlt.
  simpl. split; [|split].
  - intros m j. destruct (decide (j = i)) as [->|Hne].
    + rewrite Hi', list_lookup_insert_eq by done. split; [eauto|].
      by intros (? & [= <-] & ?).
    + rewrite Hj, Ho, list_lookup_insert_ne by done. done.
  - intros j c m l. rewrite list_lookup_insert. case_decide as E; [|apply Hw].
    destruct E as [-> _]. by intros [= ->].
  - intros j m l. rewrite list_lookup_insert. case_decide as E; [|apply Hr].
    destruct E as [-> _]. by intros [= ->].
Qed.

(** Waking sleepers changes no owner. *)
Lemma st_holds_wake i st m : st_holds i (wake st) m = st_holds i st m.
Proof. by destruct st. Qed.

Lemma lock_ok_wake n s ths' :
  lock_ok n s →
  (∀ i, ths' !! i = threads s !! i ∨ ths' !! i = wake <$> threads s !! i) →
  lock_ok n (mk_config (shared s) (owner s) ths').
Proof.
  intros (Hlen & Ho & Hw & Hr) Hth. split; [done|]. simpl.
  split; [|split].
  - intros m i. rewrite Ho. destruct (Hth i) as [->| ->]; [done|].
    destruct (threads s !! i) as [st|]; simpl; [|done]. split.
    + intros (? & [= <-] & ?). exists (wake st). by rewrite st_holds_wake.
    + intros (? & [= <-] & Hh). exists st. by rewrite st_holds_wake in Hh.
  - intros i c m l. destruct (Hth i) as [->| ->]; [apply Hw|].
    destruct (threads s !! i) as [[]|]; simpl; naive_solver.
  - intros i m l. destruct (Hth i) as [->| ->]; [apply Hr|].
    destruct (threads s !! i) as [[]|] eqn:E; simpl; try naive_solver.
Qed.

(** Moving on without touching a mutex. *)
Lemma lock_ok_goto n s sh i l k :
  lock_ok n s → threads s !! i = Some (Run l) → (∀ m, holds i k m = holds i l m) →
  lock_ok n (mk_config sh (owner s) (<[i := Run k]> (threads s))).
Proof.
  intros Hok Hi Hk. eapply lock_ok_update; try done; [apply Hok|].
  intros m. simpl. rewrite Hk. by apply (lock_held n s i (Run l)).
Qed.

Lemma lock_ok_acquire n s i st m k :
  lock_ok n s → threads s !! i = Some st → owner s !! m = Some None →
  (∀ m', holds i k m' = (m' =? m) || st_holds i st m') →
  lock_ok n (set_owner m (Some i) (goto i k s)).
Proof.
  intros Hok Hi Hm Hk. pose proof (lookup_lt_Some _ _ _ Hm).
  eapply lock_ok_update; try done.
  - rewrite length_insert. apply Hok.
  - intros m' j Hne. rewrite list_lookup_insert. case_decide as E; [|done].
    destruct E as [-> _]. split; [congruence|]. rewrite Hm. congruence.
  - intros m'. simpl. rewrite Hk, list_lookup_insert. case_decide as E.
    + destruct E as [-> _]. by rewrite Nat.eqb_refl.
    + rewrite (proj2 (Nat.eqb_neq _ _)) by (intros ->; auto).
      by apply (lock_held n s i st).
Qed.

Lemma lock_ok_release n s i l m st' :
  lock_ok n s → threads s !! i = Some (Run l) → owner s !! m = Some (Some i) →
  (∀ m', st_holds i st' m' = holds i l m' && negb (m' =? m)) →
  match st' with
  | Run _ => True
  | Waiting _ m l | Relock m l => holds i l m = true ∧ m < n
  end →
  lock_ok n (set_owner m None (mk_config (shared s) (owner s) (<[i := st']> (threads s)))).
Proof.
  intros Hok Hi Hm Hk Hst. pose proof (lookup_lt_Some _ _ _ Hm).
  eapply lock_ok_update; try done.
  - rewrite length_insert. apply Hok.
  - intros m' j Hne. rewrite list_lookup_insert. case_decide as E; [|done].
    destruct E as [-> _]. split; [congruence|]. rewrite Hm. congruence.
  - intros m'. rewrite Hk, list_lookup_insert. case_decide as E.
    + destruct E as [-> _]. rewrite Nat.eqb_refl. by rewrite andb_false_r.
    + rewrite (proj2 (Nat.eqb_neq _ _)), andb_true_r by (intros ->; auto).
      by apply (lock_held n s i (Run l)).
Qed.

Lemma exec_lock_ok n ch s s' :
  annotated n → lock_ok n s → exec ch s = Next s' → lock_ok n s'.
Proof.
  intros Han Hok He. pose proof Hok as (Hlen & _ & Hw & Hr).
  destruct ch as [i sl|i]; simpl in He;
    destruct (threads s !! i) as [[l|c m l|m l]|] eqn:Hi; try done.
  - specialize (Han i l). unfold exec_instr in He.
    destruct (code i l) as [f|m k|m k|c m k|c k|c k|t k|].
    + destruct (f (shared s)) as [[sh k]|] eqn:Ef; [|done]. injection He as <-.
      eapply lock_ok_goto; eauto.
    + destruct (owner s !! m) as [[j|]|] eqn:Eo; [by case_match| |done].
      injection He as <-. destruct Han as (_ & _ & Hk). by eapply lock_ok_acquire.
    + destruct (owner s !! m) as [[j|]|] eqn:Eo; try done.
      destruct (Nat.eqb_spec i j) as [<-|]; [|done]. injection He as <-.
      destruct Han as (_ & Hk). by eapply (lock_ok_release _ _ _ _ _ (Run k)).
    + destruct (owner s !! m) as [[j|]|] eqn:Eo; try done.
      destruct (Nat.eqb_spec i j) as [<-|]; [|done]. injection He as <-.
      destruct Han as [Hm Hk]. eapply lock_ok_release; try done.
      * intros m'. simpl. by rewrite Hk.
      * rewrite Hk, <- Hlen. split; [done|by eapply lookup_lt_Some].
    + destruct sl as [j|].
      * destruct (threads s !! j) as [st|] eqn:Ej; [|done].
        destruct (sleeps_on c st) eqn:Es; [|done]. injection He as <-.
        assert (j ≠ i) as Hne by (intros ->; simplify_eq).
        eapply (lock_ok_goto n (mk_config _ _ _)); simpl; [|by rewrite list_lookup_insert_ne|done].
        apply lock_ok_wake; [done|]. intros i'. rewrite list_lookup_insert.
        case_decide as E; [|by left]. destruct E as [-> _]. right. by rewrite Ej.
      * case_match; [done|]. injection He as <-. by eapply lock_ok_goto.
    + injection He as <-.
      eapply (lock_ok_goto n (mk_config _ _ _)); simpl;
        [|by rewrite list_lookup_fmap, Hi|done].
      apply lock_ok_wake; [done|]. intros i'. rewrite list_lookup_fmap.
      destruct (threads s !! i') as [st|]; simpl; [|by left].
      destruct (sleeps_on c st); [by right|by left].
    + destruct (threads s !! t) as [st|]; [|done]. case_match; [|done].
      injection He as <-. by eapply lock_ok_goto.
    + done.
  - destruct (owner s !! m) as [[j|]|] eqn:Eo; try done. injection He as <-.
    eapply lock_ok_acquire; try done. intros m'. simpl.
    destruct (Hr _ _ _ Hi) as [Hh _].
    destruct (Nat.eqb_spec m' m) as [->|]; simpl; [done|by rewrite andb_true_r].
  - injection He as <-. eapply lock_ok_update; try done.
    + intros m'. by apply (lock_held n s i (Waiting c m l)).
    + by eapply Hw.
Qed.

Lemma started_lock_ok s0 n entry :
  (∀ i l m, entry !! i = Some l → holds i l m = false) →
  lock_ok n (started s0 n entry).
Proof.
  intros He. split; [apply length_replicate|]. split; [|split]; simpl.
  - intros m i. split.
    + intros [? ?]%lookup_replicate_1. done.
    + intros (st & Hi & Hh). rewrite list_lookup_fmap in Hi.
      destruct (entry !! i) as [l|] eqn:El; simplify_eq/=. by rewrite (He i l m El) in Hh.
  - intros i c m l. rewrite list_lookup_fmap. by destruct (entry !! i).
  - intros i m l. rewrite list_lookup_fmap. by destruct (entry !! i).
Qed.

(** With a correct annotation a step is undefined only where an access to the
    shared state is, or where a thread that does not exist is joined. *)
Lemma exec_undefined n ch s :
  annotated n → lock_ok n s → exec ch s = Undefined →
  ∃ i l, threads s !! i = Some (Run l) ∧
    ((∃ f, code i l = Act f ∧ f (shared s) = None) ∨
     (∃ t k, code i l = Join t k ∧ threads s !! t = None)).
Proof.
  intros Han Hok He. pose proof Hok as (Hlen & _ & Hw & Hr).
  destruct ch as [i sl|i]; simpl in He;
    destruct (threads s !! i) as [[l|c m l|m l]|] eqn:Hi; try done.
  - exists i, l. split; [done|]. specialize (Han i l). unfold exec_instr in He.
    pose proof (λ m, lock_held n s i (Run l) m Hok Hi) as Hheld. simpl in Hheld.
    destruct (code i l) as [f|m k|m k|c m k|c k|c k|t k|]; try done.
    + left. exists f. split; [done|]. by destruct (f (shared s)) as [[]|].
    + destruct Han as (Hm & Hh & _). exfalso.
      destruct (lookup_lt_is_Some_2 (owner s) m) as [o Eo]; [lia|].
      rewrite Eo in He. destruct o as [j|]; [|done].
      destruct (Nat.eqb_spec i j) as [Eij|]; [subst j|done].
      apply Hheld in Eo. congruence.
    + destruct Han as (Hh & _). apply Hheld in Hh. rewrite Hh, Nat.eqb_refl in He. done.
    + destruct Han as (Hh & _). apply Hheld in Hh. rewrite Hh, Nat.eqb_refl in He. done.
    + destruct sl as [j|]; repeat case_match; done.
    + right. exists t, k. split; [done|]. destruct (threads s !! t); [by case_match|done].
  - destruct (Hr _ _ _ Hi) as [_ Hm]. exfalso.
    destruct (lookup_lt_is_Some_2 (owner s) m) as [o Eo]; [lia|].
    rewrite Eo in He. by destruct o.
Qed.
End monitor.

Arguments instr : clear implicits.
Arguments status : clear implicits.
Arguments config : clear implicits.
Arguments outcome : clear implicits.

(** * Where the threads can be *)

Section status_invariant.
Context {S L : Type} (code : nat → L → instr S L) (P : nat → status L → Prop).

(** Every instruction of a thread leads from statuses in [P] to statuses in [P];
    a join may also lead nowhere, when the thread it waits for cannot halt. *)
Definition status_closed : Prop :=
  (∀ i l, P i (Run l) →
     match code i l with
     | Act f => ∀ s s' k, f s = Some (s', k) → P i (Run k)
     | Lock _ k | Unlock _ k | NotifyOne _ k | NotifyAll _ k => P i (Run k)
     | WaitOn c m k => P i (Waiting c m k)
     | Join t k => (∀ st, P t st → halted code t st = false) ∨ P i (Run k)
     | Halt => True
     end) ∧
  (∀ i c m l, P i (Waiting c m l) → P i (Relock m l)) ∧
  (∀ i m l, P i (Relock m l) → P i (Run l)).

Definition all_in (ths : list (status L)) : Prop := ∀ i st, ths !! i = Some st → P i st.

Lemma all_in_insert ths i st : all_in ths → P i st → all_in (<[i := st]> ths).
Proof.
  intros Ha Hp j stj. rewrite list_lookup_insert. case_decide as E; [|apply Ha].
  destruct E as [-> _]. by intros [= <-].
Qed.

Lemma all_in_step s s' :
  status_closed → all_in (threads s) → mon_step code s s' → all_in (threads s').
Proof.
  intros (Hrun & Hwait & Hrel) Ha [ch He].
  assert (∀ i st, P i st → P i (wake st)) as Hwake by (intros i []; simpl; eauto).
  destruct ch as [i sl|i]; simpl in He;
    destruct (threads s !! i) as [[l|c m l|m l]|] eqn:Hi; try done;
    pose proof (Ha _ _ Hi) as Hp.
  - specialize (Hrun i l Hp). unfold exec_instr in He.
    destruct (code i l) as [f|m k|m k|c m k|c k|c k|t k|].
    + destruct (f (shared s)) as [[sh k]|] eqn:Ef; [|done]. injection He as <-.
      apply all_in_insert; eauto.
    + repeat case_match; try done. injection He as <-. by apply all_in_insert.
    + repeat case_match; try done. injection He as <-. by apply all_in_insert.
    + repeat case_match; try done. injection He as <-. by apply all_in_insert.
    + destruct sl as [j|].
      * destruct (threads s !! j) as [st|] eqn:Ej; [|done]. case_match; [|done].
        injection He as <-. apply all_in_insert; [|done]. apply all_in_insert; eauto.
      * case_match; [done|]. injection He as <-. by apply all_in_insert.
    + injection He as <-. apply all_in_insert; [|done].
      intros j st. cbn [threads]. rewrite list_lookup_fmap.
      intros (st0 & Hj & ->)%fmap_Some. case_match; eauto.
    + destruct (threads s !! t) as [st|] eqn:Et; [|done].
      destruct (halted code t st) eqn:Eh; [|done]. injection He as <-.
      destruct Hrun as [Hn|]; [|by apply all_in_insert].
      rewrite (Hn st) in Eh; [done|]. by apply Ha.
    + done.
  - repeat case_match; try done. injection He as <-. apply all_in_insert; eauto.
  - injection He as <-. apply all_in_insert; eauto.
Qed.

Lemma all_in_reachable s s' :
  status_closed → all_in (threads s) → rtc (mon_step code) s s' → all_in (threads s').
Proof. intros Hc Ha Hr. induction Hr; eauto using all_in_step. Qed.
End status_invariant.

(** * Proof outlines

    The method of Owicki and Gries, once for all programs: an assertion per label,
    a global invariant, and interference freedom, where the threads that hold a
    common mutex need not be considered. *)

Section outline.
Context {S L : Type} (code : nat → L → instr S L) (holds : nat → L → nat → bool).
Context (fact : S → L → Prop) (inv : S → Prop).

Record outline (n_mutexes : nat) : Prop := {
  ol_annotated : annotated code holds n_mutexes;
  (** An access establishes its own postcondition and keeps the invariant. *)
  ol_act i l f s s' k : code i l = Act f → fact s l → inv s → f s = Some (s', k) →
    fact s' k ∧ inv s';
  (** It leaves the assertions of the other threads alone, unless a mutex keeps
      them away. *)
  ol_stable i j l lj f s s' k : i ≠ j → code i l = Act f → fact s l → inv s →
    f s = Some (s', k) → fact s lj → (∀ m, holds i l m && holds j lj m = false) →
    fact s' lj;
  (** The other instructions keep the assertion; after a wait only what holds in
      any state is known. *)
  ol_other i l s : fact s l → inv s →
    match code i l with
    | Lock _ k | Unlock _ k | NotifyOne _ k | NotifyAll _ k | Join _ k => fact s k
    | WaitOn _ _ k => ∀ s', inv s' → fact s' k
    | Act _ | Halt => True
    end
}.

Record outline_ok (n_mutexes : nat) (s : config S L) : Prop := {
  oo_lock : lock_ok holds n_mutexes s;
  oo_inv : inv (shared s);
  oo_fact i l : threads s !! i = Some (Run l) → fact (shared s) l;
  oo_wait i st : threads s !! i = Some st →
    match st with
    | Run _ => True
    | Waiting _ _ k | Relock _ k => ∀ s', inv s' → fact s' k
    end
}.

Lemma outline_goto n s s' i st' :
  outline n → outline_ok n s → lock_ok holds n s' → shared s' = shared s →
  threads s' = <[i := st']> (threads s) →
  match st' with
  | Run k => fact (shared s) k
  | Waiting _ _ k | Relock _ k => ∀ s', inv s' → fact s' k
  end →
  outline_ok n s'.
Proof.
  intros Hol Hok Hl Esh Eth Hst. constructor; [done| | |]; rewrite ?Esh.
  - apply Hok.
  - intros j l. rewrite Eth, list_lookup_insert. case_decide as E; [|apply (oo_fact _ _ Hok)].
    by intros [= ->].
  - intros j st. rewrite Eth, list_lookup_insert. case_decide as E; [|apply (oo_wait _ _ Hok)].
    intros [= ->]. by destruct st.
Qed.

Lemma outline_wake n s ths' :
  outline_ok n s → lock_ok holds n (mk_config (shared s) (owner s) ths') →
  (∀ i, ths' !! i = threads s !! i ∨ ths' !! i = wake <$> threads s !! i) →
  outline_ok n (mk_config (shared s) (owner s) ths').
Proof.
  intros Hok Hl Hth. constructor; simpl; [done|apply Hok| |].
  - intros i l. destruct (Hth i) as [->| ->]; [apply (oo_fact _ _ Hok)|].
    destruct (threads s !! i) as [[]|] eqn:E; simpl; try naive_solver.
    intros [= ->]. by apply (oo_fact _ _ Hok i).
  - intros i st. destruct (Hth i) as [->| ->]; [apply (oo_wait _ _ Hok)|].
    destruct (threads s !! i) as [st0|] eqn:E; [|done]. simpl. intros [= <-].
    apply (oo_wait _ _ Hok) in E. by destruct st0.
Qed.

Lemma outline_act n s i l f sh k :
  outline n → outline_ok n s → threads s !! i = Some (Run l) → code i l = Act f →
  f (shared s) = Some (sh, k) →
  lock_ok holds n (mk_config sh (owner s) (<[i := Run k]> (threads s))) →
  outline_ok n (mk_config sh (owner s) (<[i := Run k]> (threads s))).
Proof.
  intros Hol Hok Hi Hc Hf Hl. pose proof (oo_fact _ _ Hok i l Hi) as Hfact.
  destruct (ol_act _ Hol i l f _ _ _ Hc Hfact (oo_inv _ _ Hok) Hf) as [Hk Hinv].
  constructor; simpl; [done|done| |].
  - intros j lj. rewrite list_lookup_insert. case_decide as E; [by intros [= ->]|].
    destruct (decide (j = i)) as [->|Hne].
    { destruct E. split; [done|by eapply lookup_lt_Some]. }
    intros Hj. apply (ol_stable _ Hol i j l lj f (shared s) sh k); try done;
      [apply (oo_inv _ _ Hok)|by apply (oo_fact _ _ Hok j)|].
    intros m. destruct (holds i l m && holds j lj m) eqn:E2; [|done].
    apply andb_true_iff in E2 as [H1 H2]. destruct Hne.
    by apply (lock_exclusive holds n s m j i (Run lj) (Run l) (oo_lock _ _ Hok)).
  - intros j st. rewrite list_lookup_insert. case_decide as E; [|apply (oo_wait _ _ Hok)].
    by intros [= <-].
Qed.

Lemma outline_step n s s' :
  outline n → outline_ok n s → mon_step code s s' → outline_ok n s'.
Proof.
  intros Hol Hok [ch He].
  pose proof (exec_lock_ok _ _ _ _ _ _ (ol_annotated _ Hol) (oo_lock _ _ Hok) He) as Hl.
  destruct ch as [i sl|i]; simpl in He;
    destruct (threads s !! i) as [[l|c m l|m l]|] eqn:Hi; try done.
  - pose proof (oo_fact _ _ Hok i l Hi) as Hf. unfold exec_instr in He.
    pose proof (ol_other _ Hol i l (shared s) Hf (oo_inv _ _ Hok)) as Ho.
    destruct (code i l) as [f|m k|m k|c m k|c k|c k|t k|] eqn:Ec.
    + destruct (f (shared s)) as [[sh k]|] eqn:Ef; [|done]. injection He as <-.
      by eapply outline_act.
    + destruct (owner s !! m) as [[j|]|]; [by case_match| |done]. injection He as <-.
      by eapply (outline_goto _ _ _ _ (Run k)).
    + destruct (owner s !! m) as [[j|]|]; try done. case_match; [|done].
      injection He as <-. by eapply (outline_goto _ _ _ _ (Run k)).
    + destruct (owner s !! m) as [[j|]|]; try done. case_match; [|done].
      injection He as <-. by eapply (outline_goto _ _ _ _ (Waiting c m k)).
    + destruct sl as [j|].
      * destruct (threads s !! j) as [st|] eqn:Ej; [|done].
        destruct (sleeps_on c st) eqn:Es; [|done]. injection He as <-.
        assert (j ≠ i) as Hne by (intros ->; simplify_eq).
        assert (∀ i', <[j := wake st]> (threads s) !! i' = threads s !! i' ∨
                      <[j := wake st]> (threads s) !! i' = wake <$> threads s !! i') as Hw.
        { intros i'. rewrite list_lookup_insert. case_decide as E; [|by left].
          destruct E as [-> _]. right. by rewrite Ej. }
        apply (outline_goto n (mk_config (shared s) (owner s) (<[j := wake st]> (threads s)))
                 _ i (Run k)); try done.
        apply outline_wake; [done| |done]. apply lock_ok_wake; first [done|apply (oo_lock _ _ Hok)].
      * case_match; [done|]. injection He as <-. by eapply (outline_goto _ _ _ _ (Run k)).
    + injection He as <-.
      set (ths := (λ st, if sleeps_on c st then wake st else st) <$> threads s) in *.
      assert (∀ i', ths !! i' = threads s !! i' ∨ ths !! i' = wake <$> threads s !! i') as Hw.
      { intros i'. unfold ths. rewrite list_lookup_fmap.
        destruct (threads s !! i') as [st|]; simpl; [|by left].
        destruct (sleeps_on c st); [by right|by left]. }
      apply (outline_goto n (mk_config (shared s) (owner s) ths) _ i (Run k)); try done.
      apply outline_wake; [done| |done]. apply lock_ok_wake; first [done|apply (oo_lock _ _ Hok)].
    + destruct (threads s !! t) as [st|]; [|done]. case_match; [|done].
      injection He as <-. by eapply (outline_goto _ _ _ _ (Run k)).
    + done.
  - destruct (owner s !! m) as [[j|]|]; try done. injection He as <-.
    eapply (outline_goto _ _ _ _ (Run l)); try done.
    apply (oo_wait _ _ Hok _ _ Hi), (oo_inv _ _ Hok).
  - injection He as <-. eapply (outline_goto _ _ _ _ (Relock m l)); try done.
    by apply (oo_wait _ _ Hok _ _ Hi).
Qed.

Theorem outline_sound n s0 entry s :
  outline n → inv s0 →
  (∀ i l, entry !! i = Some l → fact s0 l ∧ ∀ m, holds i l m = false) →
  rtc (mon_step code) (started s0 n entry) s → outline_ok n s.
Proof.
  intros Hol Hinv He Hr. assert (outline_ok n (started s0 n entry)) as H0.
  { constructor; simpl; [|done| |].
    - apply started_lock_ok. intros i l m Hi. by apply (He i).
    - intros i l. rewrite list_lookup_fmap. intros (l' & Hi & [= <-])%fmap_Some.
      by apply (He i).
    - intros i st. rewrite list_lookup_fmap. by intros (l' & Hi & ->)%fmap_Some. }
  induction Hr; eauto using outline_step.
Qed.
End outline.

(** * Counting threads *)

(** How many threads are in a status that satisfies [f]. *)
Definition count {A} (f : A → bool) (l : list A) : nat :=
  sum_list_with (λ a, if f a then 1 else 0) l.

Lemma count_insert {A} (f : A → bool) l i x y :
  l !! i = Some x →
  count f (<[i := y]> l) + (if f x then 1 else 0) = count f l + (if f y then 1 else 0).
Proof.
  revert i; induction l as [|z l IH]; intros [|i] Hi; simplify_eq/=; [lia|].
  specialize (IH i Hi). unfold count in *. lia.
Qed.

Lemma count_pos {A} (f : A → bool) l i x :
  l !! i = Some x → f x = true → 0 < count f l.
Proof.
  revert i; induction l as [|z l IH]; intros [|i] Hi Hf; simplify_eq/=.
  - unfold count. simpl. rewrite Hf. lia.
  - specialize (IH i Hi Hf). unfold count in *. simpl. lia.
Qed.

Lemma count_zero {A} (f : A → bool) l :
  (∀ i x, l !! i = Some x → f x = false) → count f l = 0.
Proof.
  induction l as [|z l IH]; intros Hf; [done|]. unfold count in *. simpl.
  rewrite (Hf 0 z), IH; [done| |done]. intros i x. apply (Hf (S i)).
Qed.

(** * Exhaustive checking of finite programs *)

#[export] Instance status_eq_dec {L} `{EqDecision L} : EqDecision (status L).
Proof. solve_decision. Defined.
#[export] Instance config_eq_dec {S L} `{EqDecision S, EqDecision L} :
  EqDecision (config S L).
Proof. solve_decision. Defined.

Section explore.
Context {S L : Type} `{EqDecision S, EqDecision L}.
Context (code : nat → L → instr S L).
Implicit Types s : config S L.

(** All choices that can matter for [n] threads. *)
Definition choices (n : nat) : list choice :=
  concat ((λ i, Spurious i :: Go i None :: (Go i ∘ Some <$> seq 0 n)) <$> seq 0 n).

Definition successors s : list (config S L) :=
  omap (λ ch, match exec code ch s with Next s' => Some s' | _ => None end)
       (choices (length (threads s))).
Definition undefined_free s : bool :=
  forallb (λ ch, match exec code ch s with Undefined => false | _ => true end)
          (choices (length (threads s))).

(** Sets of states, indexed by where the threads are. *)
Context (label_key : L → Z).
Definition status_key (st : status L) : Z :=
  match st with
  | Run l => 3 * label_key l
  | Waiting _ _ l => 3 * label_key l + 1
  | Relock _ l => 3 * label_key l + 2
  end.
Definition key s : Z := foldr (λ st acc, 97 * acc + status_key st)%Z 0%Z (threads s).

Definition states : Type := gmap Z (list (config S L)).
Definition mem_state (R : states) s : bool :=
  match R !! key s with Some l => bool_decide (s ∈ l) | None => false end.
Definition add_state (R : states) s : states :=
  <[key s := s :: default [] (R !! key s)]> R.

(** Search: the states found, [todo] being the ones not yet expanded. *)
Fixpoint search (fuel : nat) (todo : list (config S L)) (R : states) : states :=
  match fuel, todo with
  | O, _ | _, [] => R
  | Datatypes.S fuel, s :: todo =>
      let '(todo', R') :=
        foldr (λ s' '(todo, R), if mem_state R s' then (todo, R)
                                else (s' :: todo, add_state R s'))
              (todo, R) (successors s) in
      search fuel todo' R'
  end.
Definition states_of (fuel : nat) s : states := search fuel [s] (add_state ∅ s).

(** Nothing leaves the set, nothing in it can go wrong, and [P] holds in it. *)
Definition verified (P : config S L → bool) s0 (R : states) : bool :=
  mem_state R s0 &&
  forallb (λ '(_, l), forallb (λ s, forallb (mem_state R) (successors s) &&
                                    undefined_free s && P s) l) (map_to_list R).

Lemma elem_of_choices n ch :
  (∃ i, i < n ∧ (ch = Spurious i ∨ ch = Go i None ∨ ∃ j, j < n ∧ ch = Go i (Some j))) →
  ch ∈ choices n.
Proof.
  intros (i & Hi & H). unfold choices. rewrite list_elem_of_In. apply in_concat.
  exists (Spurious i :: Go i None :: (Go i ∘ Some <$> seq 0 n)). split.
  - apply list_elem_of_In, list_elem_of_fmap. exists i. split; [done|].
    apply elem_of_seq. lia.
  - destruct H as [->|[->|(j & Hj & ->)]]; [by left|by right; left|].
    do 2 right. apply list_elem_of_In, list_elem_of_fmap. exists j. split; [done|].
    apply elem_of_seq. lia.
Qed.

(** Every choice behaves like one of the list, or does nothing. *)
Lemma exec_choice ch s :
  exec code ch s = Blocked ∨
  ∃ ch', ch' ∈ choices (length (threads s)) ∧ exec code ch' s = exec code ch s.
Proof.
  destruct ch as [i sl|i]; simpl;
    (destruct (threads s !! i) as [st|] eqn:Hi; [|by left]);
    pose proof (lookup_lt_Some _ _ _ Hi).
  2:{ right. exists (Spurious i). split; [apply elem_of_choices; eauto|].
      simpl. by rewrite Hi. }
  assert (Go i None ∈ choices (length (threads s))) as Hn by (apply elem_of_choices; eauto).
  destruct sl as [j|]; [|right; exists (Go i None); split; [done|]; simpl; by rewrite Hi].
  destruct (decide (j < length (threads s))) as [Hj|Hj].
  { right. exists (Go i (Some j)). split; [apply elem_of_choices; eauto 10|].
    simpl. by rewrite Hi. }
  assert (threads s !! j = None) as Ej by (apply lookup_ge_None_2; lia).
  destruct st as [l|c m l|m l]; [|by left|].
  - unfold exec_instr. destruct (code i l) eqn:Ec; rewrite ?Ej; try (by left);
      right; exists (Go i None); (split; [done|]); simpl; rewrite Hi;
      unfold exec_instr; by rewrite Ec.
  - right. exists (Go i None). split; [done|]. simpl. by rewrite Hi.
Qed.

Lemma verified_sound P s0 R s :
  verified P s0 R = true → rtc (mon_step code) s0 s →
  P s = true ∧ ∀ ch, exec code ch s ≠ Undefined.
Proof.
  unfold verified. intros [H0 HR]%andb_true_iff Hr. rewrite forallb_forall in HR.
  assert (∀ x, mem_state R x = true →
    forallb (mem_state R) (successors x) = true ∧ undefined_free x = true ∧ P x = true)
    as HR'.
  { intros x Hx. unfold mem_state in Hx. destruct (R !! key x) as [l|] eqn:El; [|done].
    apply bool_decide_eq_true in Hx. apply elem_of_map_to_list in El.
    apply list_elem_of_In, HR in El. rewrite forallb_forall in El.
    apply list_elem_of_In, El in Hx.
    by apply andb_true_iff in Hx as [[? ?]%andb_true_iff ?]. }
  assert (mem_state R s = true) as Hs.
  { induction Hr as [|x y z [ch Hch] _ IH]; [done|]. apply IH.
    destruct (HR' x H0) as (Hsucc & _). rewrite forallb_forall in Hsucc. apply Hsucc.
    apply list_elem_of_In, list_elem_of_omap.
    destruct (exec_choice ch x) as [E|(ch' & Hin & E)]; [congruence|].
    exists ch'. split; [done|]. by rewrite E, Hch. }
  destruct (HR' s Hs) as (_ & Hu & Hp). split; [done|]. intros ch Hch.
  unfold undefined_free in Hu. rewrite forallb_forall in Hu.
  destruct (exec_choice ch s) as [E|(ch' & Hin & E)]; [congruence|].
  apply list_elem_of_In, Hu in Hin. rewrite E, Hch in Hin. done.
Qed.

(** Whether no thread can move, unless a sleeper wakes up spuriously. *)
Definition stuck s : bool :=
  forallb (λ ch, match ch, exec code ch s with
                 | Go _ _, Next _ => false
                 | _, _ => true
                 end) (choices (length (threads s))).
Definition all_halted s : bool :=
  forallb (λ '(i, st), halted code i st) (imap pair (threads s)).
End explore.
