(* ===== verification/Sync.v ===== *)
(** Ordering threads with a mutex and a condition variable.

    [Module OneTwoThree] models
    [src/books/ldxcfwqbc/02_thread_synchronization/onetwothree.cpp] and
    [Module CondVar] [.../condition_variable.cpp], as programs of Monitor.v with
    finitely many states, which are all visited by computation; [Module
    CountDownLatch] models [.../count_down_latch.cpp] in the same way. *)

From S2P Require Import Prelude Monitor.

(** * onetwothree.cpp *)

Module OneTwoThree.
(** The two flags and what was printed; mutex 0 is [m], condition variable 0 is
    [cv]. *)
Record state := mk_state { a_finish : bool; b_finish : bool; out : list nat }.

#[global] Instance state_eq_dec : EqDecision state.
Proof. solve_decision. Defined.

Definition print (n : nat) (k : nat) : instr state nat :=
  Act (λ s, Some (mk_state (a_finish s) (b_finish s) (out s ++ [n]), k)).

(** Thread 0 is [a], 1 is [b], 2 is [c] and 3 is [main], which only joins.
    [cv.wait (ul, p)] is [while (!p()) cv.wait (ul)]. *)
Definition a (l : nat) : instr state nat :=
  match l with
  | 0 => Lock 0 1
  | 1 => print 1 2
  | 2 => Act (λ s, Some (mk_state true (b_finish s) (out s), 3))
  | 3 => Unlock 0 4
  | 4 => NotifyAll 0 5
  | _ => Halt
  end.
Definition b (l : nat) : instr state nat :=
  match l with
  | 0 => Lock 0 1
  | 1 => Act (λ s, Some (s, if a_finish s then 3 else 2))
  | 2 => WaitOn 0 0 1
  | 3 => print 2 4
  | 4 => Act (λ s, Some (mk_state (a_finish s) true (out s), 5))
  | 5 => Unlock 0 6
  | 6 => NotifyAll 0 7
  | _ => Halt
  end.
Definition c (l : nat) : instr state nat :=
  match l with
  | 0 => Lock 0 1
  | 1 => Act (λ s, Some (s, if b_finish s then 3 else 2))
  | 2 => WaitOn 0 0 1
  | 3 => print 3 4
  | 4 => Act (λ s, Some (mk_state (a_finish s) true (out s), 5))
  | 5 => Unlock 0 6
  | 6 => NotifyAll 0 7
  | _ => Halt
  end.
Definition main (l : nat) : instr state nat :=
  match l with
  | 0 => Join 2 1
  | 1 => Join 1 2
  | 2 => Join 0 3
  | _ => Halt
  end.
Definition code (i : nat) : nat → instr state nat :=
  match i with 0 => a | 1 => b | 2 => c | _ => main end.

Definition start : config state nat :=
  started (mk_state false false []) 1 [0; 0; 0; 0].

(** The output so far is a prefix of 1, 2, 3; when nothing moves any more every
    thread has returned and everything is printed. *)
Definition in_order (s : config state nat) : bool :=
  existsb (λ n, bool_decide (out (shared s) = take n [1; 2; 3])) (seq 0 4) &&
  (negb (stuck code s) ||
   (all_halted code s && bool_decide (out (shared s) = [1; 2; 3]))).
End OneTwoThree.

(** * condition_variable.cpp *)

Module CondVar.
Record state := mk_state { data : string; ready : bool; processed : bool }.

#[global] Instance state_eq_dec : EqDecision state.
Proof. solve_decision. Defined.

(** Thread 0 is [main], from the creation of the worker on; thread 1 is
    [worker_thread]. *)
Definition main (l : nat) : instr state nat :=
  match l with
  | 0 => Act (λ s, Some (mk_state "raw data" (ready s) (processed s), 1))
  | 1 => Lock 0 2
  | 2 => Act (λ s, Some (mk_state (data s) true (processed s), 3))
  | 3 => Unlock 0 4
  | 4 => NotifyAll 0 5
  | 5 => Lock 0 6
  | 6 => Act (λ s, Some (s, if processed s then 8 else 7))
  | 7 => WaitOn 0 0 6
  | 8 => Unlock 0 9
  | 9 => Join 1 10
  | _ => Halt
  end.
Definition worker_thread (l : nat) : instr state nat :=
  match l with
  | 0 => Lock 0 1
  | 1 => Act (λ s, Some (s, if ready s then 3 else 2))
  | 2 => WaitOn 0 0 1
  | 3 => Act (λ s, Some (mk_state "processed data" (ready s) (processed s), 4))
  | 4 => Act (λ s, Some (mk_state (data s) (ready s) true, 5))
  | 5 => Unlock 0 6
  | 6 => NotifyAll 0 7
  | _ => Halt
  end.
Definition code (i : nat) : nat → instr state nat :=
  match i with 0 => main | _ => worker_thread end.

Definition start : config state nat :=
  started (mk_state "" false false) 1 [0; 0].

(** The main thread gets past its wait only with the processed data, and when
    nothing moves any more both threads have returned. *)
Definition handed_over (s : config state nat) : bool :=
  match threads s with
  | Run pc :: _ =>
      (pc <? 8) || bool_decide (data (shared s) = "processed data"%string)
  | _ => true
  end && (negb (stuck code s) || all_halted code s).
End CondVar.

(** * count_down_latch.cpp *)

Module CountDownLatch.
Inductive product : Type := NotWorked | Worked | Cleaned.

(** The two latches' [_count], the jobs' products, and the products the main
    thread has printed.  Mutex and condition variable 0 belong to [work_done],
    1 to [start_clean_up]. *)
Record state := mk_state {
  work_done : Z; start_clean_up : Z; products : list product;
  printed : list product
}.

#[global] Instance product_eq_dec : EqDecision product.
Proof. solve_decision. Defined.
#[global] Instance state_eq_dec : EqDecision state.
Proof. solve_decision. Defined.

Definition get_count (latch : nat) (s : state) : Z :=
  match latch with 0 => work_done s | _ => start_clean_up s end.
Definition set_count (latch : nat) (v : Z) (s : state) : state :=
  match latch with
  | 0 => mk_state v (start_clean_up s) (products s) (printed s)
  | _ => mk_state (work_done s) v (products s) (printed s)
  end.
Definition set_product (j : nat) (p : product) (s : state) : state :=
  mk_state (work_done s) (start_clean_up s) (<[j := p]> (products s)) (printed s).
Definition print_product (j : nat) (s : state) : option state :=
  p ← products s !! j;
  Some (mk_state (work_done s) (start_clean_up s) (products s) (printed s ++ [p])).

(** A label is a position in a function and the value of its local variable. *)
Definition label : Type := nat * Z.

(** [Latch::count_down] on [latch], from position [p] to [p + 5]: [--_count] is a
    load and a store of a [size_t]. *)
Definition count_down (latch p : nat) (l : label) : instr state label :=
  match l.1 - p with
  | 0 => Lock latch (1 + p, 0%Z)
  | 1 => Act (λ s, Some (s, (2 + p, get_count latch s)))
  | 2 => let c := u64 (l.2 - 1) in
         Act (λ s, Some (set_count latch c s, (3 + p, 0%Z)))
  | 3 => Act (λ s, Some (s, (if (get_count latch s =? 0)%Z then 4 + p else 5 + p, 0%Z)))
  | 4 => NotifyAll latch (5 + p, 0%Z)
  | _ => Unlock latch (6 + p, 0%Z)
  end.
(** [Latch::wait] on [latch], from position [p] to [p + 3]. *)
Definition wait (latch p : nat) (l : label) : instr state label :=
  match l.1 - p with
  | 0 => Lock latch (1 + p, 0%Z)
  | 1 => Act (λ s, Some (s, (if (get_count latch s >? 0)%Z then 2 + p else 3 + p, 0%Z)))
  | 2 => WaitOn latch latch (1 + p, 0%Z)
  | _ => Unlock latch (4 + p, 0%Z)
  end.

(** [work (jobs[j])] *)
Definition work (j : nat) (l : label) : instr state label :=
  if l.1 <? 1 then Act (λ s, Some (set_product j Worked s, (1, 0%Z)))
  else if l.1 <? 7 then count_down 0 1 l
  else if l.1 <? 11 then wait 1 7 l
  else if l.1 <? 12 then Act (λ s, Some (set_product j Cleaned s, (12, 0%Z)))
  else Halt.

(** [main], from the creation of the jobs on; [n] jobs, numbered from 1. *)
Definition main (n : nat) (l : label) : instr state label :=
  let next := (1 + l.1, 0%Z) in
  let print j := Act (λ s, (λ s', (s', next)) <$> print_product j s) in
  if l.1 <? 4 then wait 0 0 l
  else if l.1 <? 4 + n then print (l.1 - 4)
  else if l.1 <? 10 + n then count_down 1 (4 + n) l
  else if l.1 <? 10 + 2 * n then Join (1 + (l.1 - (10 + n))) next
  else if l.1 <? 10 + 3 * n then print (l.1 - (10 + 2 * n))
  else Halt.

Definition code (n i : nat) : label → instr state label :=
  match i with 0 => main n | S j => work j end.

Definition start (n : nat) : config state label :=
  started (mk_state (Z.of_nat n) 1 (replicate n NotWorked) []) 2
    (replicate (1 + n) (0, 0%Z)).

(** What is printed is first all jobs worked, then all jobs cleaned. *)
Definition in_phases (n : nat) (s : config state label) : bool :=
  let all := replicate n Worked ++ replicate n Cleaned in
  existsb (λ k, bool_decide (printed (shared s) = take k all)) (seq 0 (1 + 2 * n)) &&
  (negb (stuck (code n) s) ||
   (all_halted (code n) s && bool_decide (printed (shared s) = all))).
End CountDownLatch.

(** * Properties *)

(** Whatever the schedule and the spurious wake-ups, onetwothree.cpp prints
    1, 2, 3 in this order, its three threads never deadlock, and when no thread
    can move all have returned with everything printed. *)
Theorem one_two_three_in_order s :
  rtc (mon_step OneTwoThree.code) OneTwoThree.start s →
  OneTwoThree.in_order s = true ∧ ∀ ch, exec OneTwoThree.code ch s ≠ Undefined.
Proof.
  intros Hr.
  apply (verified_sound OneTwoThree.code Z.of_nat OneTwoThree.in_order OneTwoThree.start
           (states_of OneTwoThree.code Z.of_nat 1000 OneTwoThree.start)) in Hr as (? & ?);
    [done|vm_compute; reflexivity].
Qed.

(** In condition_variable.cpp the main thread goes on only after the worker
    has processed the data, no wake-up is lost, and both threads return. *)
Theorem cond_var_hands_over s :
  rtc (mon_step CondVar.code) CondVar.start s →
  CondVar.handed_over s = true ∧ ∀ ch, exec CondVar.code ch s ≠ Undefined.
Proof.
  intros Hr.
  apply (verified_sound CondVar.code Z.of_nat CondVar.handed_over CondVar.start
           (states_of CondVar.code Z.of_nat 1000 CondVar.start)) in Hr as (? & ?);
    [done|vm_compute; reflexivity].
Qed.

(** The position alone indexes the search. *)
Definition label_pos (l : CountDownLatch.label) : Z := Z.of_nat l.1.

(** In count_down_latch.cpp, with its three jobs and for every schedule, the
    main thread prints first all three products worked and none cleaned, then all
    three cleaned; the counters never wrap and no wake-up is lost: when nothing
    moves any more, every thread has returned with all six products printed. *)
Theorem latch_phases s :
  rtc (mon_step (CountDownLatch.code 3)) (CountDownLatch.start 3) s →
  CountDownLatch.in_phases 3 s = true ∧
  ∀ ch, exec (CountDownLatch.code 3) ch s ≠ Undefined.
Proof.
  intros Hr.
  apply (verified_sound (CountDownLatch.code 3) label_pos (CountDownLatch.in_phases 3)
           (CountDownLatch.start 3)
           (states_of (CountDownLatch.code 3) label_pos 10000 (CountDownLatch.start 3)))
    in Hr as (? & ?); [done|vm_compute; reflexivity].
Qed.

(** ** Concrete runs *)

(** Run a thread for some steps, with no [notify_one] to decide. *)
Definition go (i n : nat) : list choice := replicate n (Go i None).

(** The last thread first: [c] sleeps, [b] sleeps, [a] wakes both, [c] finds
    nothing and sleeps again. *)
Definition backwards : list choice :=
  go 2 3 ++ go 1 3 ++ go 0 5 ++ go 2 3 ++ go 1 6 ++ go 2 6 ++ go 3 3.

Lemma one_two_three_witness : ∃ s,
  run OneTwoThree.code backwards OneTwoThree.start = Some s ∧
  OneTwoThree.in_order s = true ∧ OneTwoThree.out (shared s) = [1; 2; 3].
Proof.
  eexists. split; [vm_compute; reflexivity|]. split; [|reflexivity].
  apply one_two_three_in_order, (run_rtc _ backwards). vm_compute. reflexivity.
Defined.

Definition main_first : list choice := go 1 3 ++ go 0 5 ++ go 1 6 ++ go 0 4.

Lemma cond_var_witness : ∃ s,
  run CondVar.code main_first CondVar.start = Some s ∧ CondVar.handed_over s = true.
Proof.
  eexists. split; [vm_compute; reflexivity|].
  apply cond_var_hands_over, (run_rtc _ main_first). vm_compute. reflexivity.
Defined.

(** The main thread sleeps at once; the jobs then count down one by one. *)
Definition latch_run : list choice :=
  go 0 3 ++ go 1 6 ++ go 2 6 ++ go 3 7 ++ go 0 6 ++ go 3 3.

Lemma latch_witness : ∃ s,
  run (CountDownLatch.code 3) latch_run (CountDownLatch.start 3) = Some s ∧
  CountDownLatch.in_phases 3 s = true ∧
  CountDownLatch.printed (shared s) =
    [CountDownLatch.Worked; CountDownLatch.Worked; CountDownLatch.Worked].
Proof.
  eexists. split; [vm_compute; reflexivity|]. split; [|reflexivity].
  apply latch_phases, (run_rtc _ latch_run). vm_compute. reflexivity.
Defined.
