(* ===== verification/BlockingQueue.v ===== *)
(** The blocking queue of
    [src/books/ldxcfwqbc/02_thread_synchronization/blocking_queue.cpp] and the
    worker threads that use it, for any number of threads and items.

    [BlockingQueue::put], [pop] and [size] are programs of Monitor.v, one label
    per access to [_items]; [worker_thread] is the loop around [pop], and a
    client thread is a list of commands ([put], the polling of [size], the store
    to [running], [join]), of which [main] is an instance. *)

From S2P Require Import Prelude Monitor.

Section queue.
Context {T : Type}.

(** [_items] and [running]; [put_log], [got_log] and [ran] record what was pushed,
    popped and executed so far. *)
Record state := mk_state {
  items : list T; running : bool; put_log : list T; got_log : list T; ran : list T
}.

Inductive command : Type :=
| Put (item : T) | PollEmpty | Stop | JoinThread (t : nat).

(** Positions: the client's next command, and inside [put] and [size]; the worker's
    loop, and inside [pop]. *)
Inductive label : Type :=
| Do (cmds : list command)
| PutPush (item : T) (rest : list command)
| PutUnlock (rest : list command)
| PutNotify (rest : list command)
| SizeRead (rest : list command)
| SizeUnlock (n : nat) (rest : list command)
| Loop
| PopLock
| PopTest
| PopWait
| PopFront
| PopPop (t : T)
| PopUnlock (t : T)
| RunTask (t : T)
| Exit.

Definition push_back (x : T) (s : state) : state :=
  mk_state (items s ++ [x]) (running s) (put_log s ++ [x]) (got_log s) (ran s).
(** [pop_front] on an empty deque is undefined. *)
Definition pop_front (t : T) (s : state) : option state :=
  match items s with
  | [] => None
  | _ :: xs => Some (mk_state xs (running s) (put_log s) (got_log s ++ [t]) (ran s))
  end.

(** Mutex 0 is [_mutex] and condition variable 0 is [_cond]. *)
Definition code (_ : nat) (l : label) : instr state label :=
  match l with
  | Do [] => Halt
  | Do (Put x :: rest) => Lock 0 (PutPush x rest)
  | PutPush x rest => Act (λ s, Some (push_back x s, PutUnlock rest))
  | PutUnlock rest => Unlock 0 (PutNotify rest)
  | PutNotify rest => NotifyOne 0 (Do rest)
  | Do (PollEmpty :: rest) => Lock 0 (SizeRead rest)
  | SizeRead rest => Act (λ s, Some (s, SizeUnlock (length (items s)) rest))
  | SizeUnlock n rest => Unlock 0 (if 0 <? n then Do (PollEmpty :: rest) else Do rest)
  | Do (Stop :: rest) =>
      Act (λ s, Some (mk_state (items s) false (put_log s) (got_log s) (ran s), Do rest))
  | Do (JoinThread t :: rest) => Join t (Do rest)
  | Loop => Act (λ s, Some (s, if running s then PopLock else Exit))
  | PopLock => Lock 0 PopTest
  | PopTest => Act (λ s, Some (s, match items s with [] => PopWait | _ => PopFront end))
  | PopWait => WaitOn 0 0 PopTest
  | PopFront =>
      Act (λ s, match items s with [] => None | x :: _ => Some (s, PopPop x) end)
  | PopPop t => Act (λ s, (λ s', (s', PopUnlock t)) <$> pop_front t s)
  | PopUnlock t => Unlock 0 (RunTask t)
  | RunTask t =>
      Act (λ s, Some (mk_state (items s) (running s) (put_log s) (got_log s)
                        (ran s ++ [t]), Loop))
  | Exit => Halt
  end.

(** Clients and workers start together on an empty queue. *)
Definition start (clients : list (list command)) (workers : nat) : config state label :=
  started (mk_state [] true [] [] []) 1 ((Do <$> clients) ++ replicate workers Loop).

(** [main]: ten tasks, wait until they are taken, stop, one more task per worker,
    join; the five workers are the threads 1 to 5. *)
Definition main (task : nat → T) : list command :=
  (Put ∘ task <$> seq 0 10) ++ [PollEmpty; Stop] ++ (Put ∘ task <$> seq 100 5) ++
  (JoinThread <$> seq 1 5).

(** * The invariant *)

Definition locked (l : label) : bool :=
  match l with
  | PutPush _ _ | PutUnlock _ | SizeRead _ | SizeUnlock _ _
  | PopTest | PopWait | PopFront | PopPop _ | PopUnlock _ => true
  | _ => false
  end.
Definition holds (_ : nat) (l : label) (m : nat) : bool := (m =? 0) && locked l.

Lemma code_annotated : annotated code holds 1.
Proof.
  intros i l. unfold holds.
  destruct l as [[|[]]| | | | | | | | | | | | | |]; cbn;
    split_all; try done; try lia; try (intros [|m]; repeat case_match; done);
    intros s s' k H m; unfold pop_front in H; simpl in H;
    repeat case_match; by simplify_eq/=.
Qed.

(** What a thread may rely on at a label. *)
Definition fact (sh : state) (st : status label) : Prop :=
  match st with
  | Run PopWait => items sh = []
  | Run PopFront => items sh ≠ []
  | Run (PopPop t) => head (items sh) = Some t
  | _ => True
  end.

(** Sleeping workers; and the wake-ups still to come: puts that have not notified
    yet, and workers that are awake and will look at the queue. *)
Definition sleeping (st : status label) : bool :=
  match st with Waiting _ _ _ => true | _ => false end.
Definition coming (st : status label) : bool :=
  match st with
  | Run (PutUnlock _) | Run (PutNotify _) => true
  | Run PopTest | Run PopFront | Run (PopPop _) => true
  | Relock _ _ => true
  | _ => false
  end.

Record queue_ok (s : config state label) : Prop := {
  qo_lock : lock_ok holds 1 s;
  qo_fifo : put_log (shared s) = got_log (shared s) ++ items (shared s);
  qo_fact i st : threads s !! i = Some st → fact (shared s) st;
  qo_wake : count sleeping (threads s) = 0 ∨
            length (items (shared s)) ≤ count coming (threads s);
  qo_sleep i c m l : threads s !! i = Some (Waiting c m l) → c = 0 ∧ m = 0 ∧ l = PopTest;
  qo_relock i m l : threads s !! i = Some (Relock m l) → m = 0 ∧ l = PopTest
}.

(** The facts of the other threads survive when the queue does not change or this
    thread holds the mutex. *)
Lemma fact_stable s i st sh' j stj :
  queue_ok s → threads s !! i = Some st → threads s !! j = Some stj → i ≠ j →
  (items sh' = items (shared s) ∨ st_holds holds i st 0 = true) → fact sh' stj.
Proof.
  intros Hok Hi Hj Hne Hsame. pose proof (qo_fact _ Hok _ _ Hj) as Hf.
  destruct Hsame as [E|Hh].
  - destruct stj as [[]| |]; simpl in *; rewrite ?E; done.
  - destruct stj as [l| |]; try done. destruct (locked l) eqn:El.
    + destruct Hne. by apply (lock_exclusive holds 1 s 0 i j st (Run l) (qo_lock _ Hok)).
    + by destruct l.
Qed.

(** One thread moves on: what has to be checked. *)
Lemma queue_ok_update s s' i st st' :
  queue_ok s → lock_ok holds 1 s' → threads s !! i = Some st →
  threads s' = <[i := st']> (threads s) →
  (items (shared s') = items (shared s) ∨ st_holds holds i st 0 = true) →
  put_log (shared s') = got_log (shared s') ++ items (shared s') →
  fact (shared s') st' →
  match st' with
  | Run _ => True
  | Waiting c m l => c = 0 ∧ m = 0 ∧ l = PopTest
  | Relock m l => m = 0 ∧ l = PopTest
  end →
  (count sleeping (threads s') = 0 ∨
   length (items (shared s')) ≤ count coming (threads s')) →
  queue_ok s'.
Proof.
  intros Hok Hlock Hi Eth Hsame Hfifo Hf Hst Hw.
  constructor; try done.
  - intros j stj. rewrite Eth, list_lookup_insert. case_decide as E.
    + destruct E as [-> _]. by intros [= <-].
    + destruct (decide (j = i)) as [->|Hne].
      { exfalso. apply E. split; [done|by eapply lookup_lt_Some]. }
      intros Hj. by apply (fact_stable s i st _ j stj Hok Hi Hj (not_eq_sym Hne)).
  - intros j c m l. rewrite Eth, list_lookup_insert. case_decide as E; [|apply (qo_sleep _ Hok)].
    by intros [= ->].
  - intros j m l. rewrite Eth, list_lookup_insert. case_decide as E; [|apply (qo_relock _ Hok)].
    by intros [= ->].
Qed.

Lemma start_ok clients workers : queue_ok (start clients workers).
Proof.
  assert (∀ i st, threads (start clients workers) !! i = Some st →
    ∃ l, st = Run l ∧ (l = Loop ∨ ∃ cmds, l = Do cmds)) as Hst.
  { intros i st Hi. unfold start in Hi. simpl in Hi. rewrite list_lookup_fmap in Hi.
    apply fmap_Some in Hi as (l & Hl & ->). exists l. split; [done|].
    apply lookup_app_Some in Hl as [Hl|[_ Hl]].
    - apply list_lookup_fmap_Some in Hl as (cmds & -> & _). eauto.
    - apply lookup_replicate_1 in Hl as [-> _]. by left. }
  constructor; simpl; try done.
  - apply started_lock_ok. intros i l m Hl.
    assert (threads (start clients workers) !! i = Some (Run l)) as Hi
      by (simpl; by rewrite list_lookup_fmap, Hl).
    apply Hst in Hi as (l' & [= <-] & [-> | (cmds & ->)]); apply andb_false_r.
  - intros i st Hi. by destruct (Hst i st Hi) as (l & -> & [->|(cmds & ->)]).
  - right. simpl. lia.
  - intros i c m l Hi. by destruct (Hst i _ Hi) as (l' & ? & _).
  - intros i m l Hi. by destruct (Hst i _ Hi) as (l' & ? & _).
Qed.

(** Apply [queue_ok_update] to a step that left a thread in a known status. *)
Ltac update Hok Hl Hi :=
  unfold goto, set_owner in *; cbn [shared owner threads] in *;
  match goal with |- queue_ok (mk_config ?sh ?o (<[?i := ?st']> ?ths)) =>
    let Hs := fresh "Hs" in let Hc := fresh "Hc" in
    pose proof (count_insert sleeping _ _ _ st' Hi) as Hs;
    pose proof (count_insert coming _ _ _ st' Hi) as Hc; simpl in Hs, Hc;
    apply (queue_ok_update _ _ _ _ st' Hok Hl Hi); [reflexivity|simpl..]
  end.

Lemma instr_step_ok s s' i l sl :
  queue_ok s → lock_ok holds 1 s' → threads s !! i = Some (Run l) →
  (∀ rest, l ≠ PutNotify rest) → exec_instr code i l sl s = Next s' → queue_ok s'.
Proof.
  intros Hok Hl Hi Hnn He. pose proof (qo_fact _ Hok _ _ Hi) as Hf.
  pose proof (qo_wake _ Hok) as Hw. pose proof (qo_fifo _ Hok) as Hq.
  unfold exec_instr in He.
  destruct l as [[|[]]| | | | | | | | | | | | | |]; cbn in He; try done;
    try (unfold pop_front in He; destruct (items (shared s)) eqn:Hitems; simpl in He);
    repeat case_match; simplify_eq; try (by destruct (Hnn rest));
    update Hok Hl Hi; rewrite ?Hitems in *; try done; try (by left); try (by right);
    try (rewrite ?length_app; simpl in *; lia); try (simpl in *; congruence).
  - by rewrite Hq, <- app_assoc.
  - by rewrite Hq, <- app_assoc.
  - assert (head (items (shared s)) = Some t) as E by exact Hf.
    rewrite Hitems in E. injection E as ->. by rewrite Hq, <- app_assoc.
Qed.

(** [notify_one]: the item announced may be taken by the thread it wakes. *)
Lemma notify_step_ok s s' i rest sl :
  queue_ok s → lock_ok holds 1 s' → threads s !! i = Some (Run (PutNotify rest)) →
  exec_instr code i (PutNotify rest) sl s = Next s' → queue_ok s'.
Proof.
  intros Hok Hl Hi He. pose proof (qo_wake _ Hok) as Hw. unfold exec_instr in He. cbn in He.
  destruct sl as [j|].
  - destruct (threads s !! j) as [st|] eqn:Hj; [|done].
    destruct (sleeps_on 0 st) eqn:Es; [|done]. injection He as <-.
    destruct st as [|c m l|]; try done.
    destruct (qo_sleep _ Hok _ _ _ _ Hj) as (-> & -> & ->).
    assert (j ≠ i) as Hne by (intros ->; simplify_eq).
    pose proof (count_insert sleeping _ _ _ (Relock 0 PopTest) Hj) as Hs1.
    pose proof (count_insert coming _ _ _ (Relock 0 PopTest) Hj) as Hc1.
    set (ths := <[j := Relock 0 PopTest]> (threads s)) in *.
    assert (ths !! i = Some (Run (PutNotify rest))) as Hi'
      by (unfold ths; by rewrite list_lookup_insert_ne).
    pose proof (count_insert sleeping _ _ _ (Run (Do rest)) Hi') as Hs2.
    pose proof (count_insert coming _ _ _ (Run (Do rest)) Hi') as Hc2.
    simpl in Hs1, Hc1, Hs2, Hc2.
    constructor; cbn [shared threads goto]; simpl; try done.
    + apply (qo_fifo _ Hok).
    + intros k stk. rewrite list_lookup_insert. case_decide; [by intros [= <-]|].
      unfold ths. rewrite list_lookup_insert. case_decide; [by intros [= <-]|].
      apply (qo_fact _ Hok).
    + fold ths. lia.
    + intros k c m l. rewrite list_lookup_insert. case_decide; [done|].
      unfold ths. rewrite list_lookup_insert. case_decide; [done|]. apply (qo_sleep _ Hok).
    + intros k m l. rewrite list_lookup_insert. case_decide; [done|].
      unfold ths. rewrite list_lookup_insert. case_decide; [by intros [= -> ->]|].
      apply (qo_relock _ Hok).
  - destruct (existsb (sleeps_on 0) (threads s)) eqn:Ex; [done|]. injection He as <-.
    assert (count sleeping (threads s) = 0) as Hz.
    { apply count_zero. intros k st Hk. destruct st as [|c m l|]; try done.
      destruct (qo_sleep _ Hok _ _ _ _ Hk) as (-> & -> & ->). exfalso.
      assert (existsb (sleeps_on 0) (threads s) = true) as E; [|congruence].
      apply existsb_exists. exists (Waiting 0 0 PopTest). split; [|done].
      apply list_elem_of_In. by eapply list_elem_of_lookup_2. }
    pose proof (qo_fifo _ Hok).
    update Hok Hl Hi; try done; [by left|]. lia.
Qed.

Lemma blocking_step_ok s s' : queue_ok s → mon_step code s s' → queue_ok s'.
Proof.
  intros Hok [ch He].
  pose proof (exec_lock_ok _ _ _ _ _ _ code_annotated (qo_lock _ Hok) He) as Hl.
  pose proof (qo_wake _ Hok) as Hw. pose proof (qo_fifo _ Hok) as Hq.
  destruct ch as [i sl|i]; simpl in He;
    destruct (threads s !! i) as [[l|c m l|m l]|] eqn:Hi; try done.
  - destruct l; try (by eapply instr_step_ok). by eapply notify_step_ok.
  - destruct (qo_relock _ Hok _ _ _ Hi) as [-> ->].
    destruct (owner s !! 0) as [[]|]; try done. injection He as <-.
    update Hok Hl Hi; try done; [by left|]. lia.
  - destruct (qo_sleep _ Hok _ _ _ _ Hi) as (-> & -> & ->). injection He as <-.
    update Hok Hl Hi; try done; [by left|]. lia.
Qed.

Lemma reachable_ok clients workers s :
  rtc (mon_step code) (start clients workers) s → queue_ok s.
Proof.
  intros Hr. assert (queue_ok (start clients workers)) as H0 by apply start_ok.
  induction Hr; eauto using blocking_step_ok.
Qed.

(** Nothing will happen in this thread unless another one acts. *)
Definition at_rest (st : status label) : Prop :=
  match st with
  | Waiting _ _ _ | Run Exit | Run (Do []) | Run (Do (JoinThread _ :: _)) => True
  | _ => False
  end.
End queue.
Arguments state : clear implicits.
Arguments label : clear implicits.
Arguments command : clear implicits.

(** C7: with any number of clients and workers and any schedule, the queue is
    first-in first-out (what was pushed is what was popped, in order, followed by
    what is still there), at most one thread is between [lock] and [unlock], and
    no access is undefined: [front] and [pop_front] always find the item that the
    wait announced. *)
Theorem blocking_queue_safe {T} (clients : list (list (command T))) workers s :
  rtc (mon_step code) (start clients workers) s →
  put_log (shared s) = got_log (shared s) ++ items (shared s) ∧
  (∀ i j li lj, threads s !! i = Some (Run li) → threads s !! j = Some (Run lj) →
     locked li = true → locked lj = true → i = j) ∧
  (∀ i l f, threads s !! i = Some (Run l) → code i l = Act f → is_Some (f (shared s))).
Proof.
  intros Hr. apply reachable_ok in Hr as Hok. split; [apply Hok|]. split.
  - intros i j li lj Hi Hj Hli Hlj.
    apply (lock_exclusive holds 1 s 0 i j _ _ (qo_lock _ Hok) Hi Hj); simpl;
      unfold holds; by rewrite ?Hli, ?Hlj.
  - intros i l f Hi Hc. pose proof (qo_fact _ Hok _ _ Hi) as Hf.
    destruct l as [[|[]]| | | | | | | | | | | | | |]; simpl in Hc; simplify_eq; eauto.
    + simpl in Hf. destruct (items (shared s)) eqn:E; [done|eauto].
    + simpl in Hf. unfold pop_front. destruct (items (shared s)); [done|]. simpl. eauto.
Qed.

(** C8: no wake-up is lost: when every thread is at rest (asleep, returned, or
    blocked in a join) and some worker sleeps, the queue is empty and every item
    put has been handed to a worker. *)
Theorem blocking_queue_no_lost_wakeup {T} (clients : list (list (command T))) workers s i c m l :
  rtc (mon_step code) (start clients workers) s →
  (∀ j st, threads s !! j = Some st → at_rest st) →
  threads s !! i = Some (Waiting c m l) →
  items (shared s) = [] ∧ got_log (shared s) = put_log (shared s).
Proof.
  intros Hr Hrest Hi. apply reachable_ok in Hr as Hok.
  assert (items (shared s) = []) as He.
  { destruct (qo_wake _ Hok) as [Hz|Hw].
    - pose proof (count_pos sleeping _ _ _ Hi eq_refl). lia.
    - rewrite (count_zero coming) in Hw; [destruct (items (shared s)); [done|simpl in Hw; lia]|].
      intros j st Hj. apply Hrest in Hj. by destruct st as [[[|[]]| | | | | | | | | | | | | |]| |]. }
  split; [done|]. by rewrite (qo_fifo _ Hok), He, app_nil_r.
Qed.

(** ** A concrete run: two workers sleep, two items are put and executed *)

Definition demo_sched : list choice :=
  replicate 4 (Go 1 None) ++ replicate 4 (Go 2 None) ++
  replicate 3 (Go 0 None) ++ [Go 0 (Some 1)] ++ replicate 10 (Go 1 None) ++
  replicate 3 (Go 0 None) ++ [Go 0 (Some 2)] ++ replicate 10 (Go 2 None).

Lemma blocking_queue_safe_witness : ∃ s,
  run code demo_sched (start [[Put 7; Put 8]] 2) = Some s ∧
  put_log (shared s) = got_log (shared s) ++ items (shared s).
Proof.
  eexists. split; [vm_compute; reflexivity|].
  apply (blocking_queue_safe [[Put 7; Put 8]] 2), (run_rtc _ demo_sched).
  vm_compute. reflexivity.
Defined.

Lemma no_lost_wakeup_witness : ∃ s,
  run code demo_sched (start [[Put 7; Put 8]] 2) = Some s ∧
  items (shared s) = [] ∧ got_log (shared s) = put_log (shared s) ∧
  ran (shared s) = [7; 8].
Proof.
  destruct (run code demo_sched (start [[Put 7; Put 8]] 2)) as [s|] eqn:E;
    [|by vm_compute in E].
  exists s. split; [done|].
  assert (threads s = [Run (Do []); Waiting 0 0 PopTest; Waiting 0 0 PopTest] ∧
          ran (shared s) = [7; 8]) as [Et Er]
    by (vm_compute in E; by injection E as <-).
  destruct (blocking_queue_no_lost_wakeup [[Put 7; Put 8]] 2 s 1 0 0 PopTest) as [H1 H2];
    [by apply (run_rtc _ demo_sched)| |by rewrite Et|by split_all].
  intros [|[|[|j]]] st; rewrite Et; by intros [= <-].
Defined.
