(* ===== verification/ThreadPool.v ===== *)
(** The two thread pools of the repository.

    [Module Mpmc] models [MPMCBlockingQUeue] and [ThreadPool] of
    [src/cpp/cpp_coding/thread_pool/thread_pool.cpp] for any number of workers and
    tasks: the queue is first-in first-out ([mpmc_safe]), but [join_all] can never
    return ([join_all_never_returns]) and a wake-up can be lost
    ([mpmc_lost_wakeup]).  [Module Pool] models the bounded pool of
    [src/books/ldxcfwqbc/04_cpp_multi_threading_programming/thread_pool.cpp] with
    a caller like its [main], checked exhaustively ([pool_stops]). *)

From S2P Require Import Prelude Monitor.

Module Mpmc.
Section pool.
Context {T : Type}.

(** The two queues and [_nonblock]; the logs record what was pushed, popped and
    executed. *)
Record state := mk_state {
  producer_queue : list T; consumer_queue : list T; nonblock : bool;
  put_log : list T; got_log : list T; ran : list T
}.

(** [submit], [_tasks.cancel] and the joins of [join_all]. *)
Inductive command : Type := Submit (task : T) | Cancel | JoinThread (t : nat).

Inductive label : Type :=
| Do (cmds : list command)
| PushPush (task : T) (rest : list command)
| PushNotify (rest : list command)
| PushUnlock (rest : list command)
| CancelStore (rest : list command)
| CancelNotify (rest : list command)
| CancelUnlock (rest : list command)
| Worker                            (* about to call [_tasks.pop] *)
| Test                              (* the predicate: [!_consumer_queue.empty()] *)
| SwapLock | Swap | SwapUnlock (size : nat)
| TestNonblock
| Sleep
| PopCheck
| PopFront | PopPop (t : T)
| PopReturn (t : option T)          (* unlock and return *)
| RunTask (t : T).

Definition push (x : T) (s : state) : state :=
  mk_state (producer_queue s ++ [x]) (consumer_queue s) (nonblock s)
    (put_log s ++ [x]) (got_log s) (ran s).
Definition swap (s : state) : state :=
  mk_state (consumer_queue s) (producer_queue s) (nonblock s)
    (put_log s) (got_log s) (ran s).
Definition set_nonblock (s : state) : state :=
  mk_state (producer_queue s) (consumer_queue s) true (put_log s) (got_log s) (ran s).
Definition pop_front (t : T) (s : state) : option state :=
  match consumer_queue s with
  | [] => None
  | _ :: q => Some (mk_state (producer_queue s) q (nonblock s)
                      (put_log s) (got_log s ++ [t]) (ran s))
  end.
Definition run_task (t : T) (s : state) : state :=
  mk_state (producer_queue s) (consumer_queue s) (nonblock s)
    (put_log s) (got_log s) (ran s ++ [t]).

(** Mutex 0 is [_producer_mutex], 1 is [_consumer_mutex]; condition variable 0 is
    [_not_empty]. *)
Definition code (_ : nat) (l : label) : instr state label :=
  match l with
  | Do [] => Halt
  | Do (Submit x :: rest) => Lock 0 (PushPush x rest)
  | PushPush x rest => Act (λ s, Some (push x s, PushNotify rest))
  | PushNotify rest => NotifyOne 0 (PushUnlock rest)
  | PushUnlock rest => Unlock 0 (Do rest)
  | Do (Cancel :: rest) => Lock 0 (CancelStore rest)
  | CancelStore rest => Act (λ s, Some (set_nonblock s, CancelNotify rest))
  | CancelNotify rest => NotifyAll 0 (CancelUnlock rest)
  | CancelUnlock rest => Unlock 0 (Do rest)
  | Do (JoinThread t :: rest) => Join t (Do rest)
  | Worker => Lock 1 Test
  | Test => Act (λ s, Some (s, match consumer_queue s with [] => SwapLock | _ => PopCheck end))
  | SwapLock => Lock 0 Swap
  | Swap => Act (λ s, Some (swap s, SwapUnlock (length (producer_queue s))))
  | SwapUnlock n => Unlock 0 (if n =? 0 then TestNonblock else PopCheck)
  | TestNonblock => Act (λ s, Some (s, if nonblock s then PopCheck else Sleep))
  | Sleep => WaitOn 0 1 Test
  | PopCheck =>
      Act (λ s, Some (s, match consumer_queue s with [] => PopReturn None | _ => PopFront end))
  | PopFront =>
      Act (λ s, match consumer_queue s with [] => None | x :: _ => Some (s, PopPop x) end)
  | PopPop t => Act (λ s, (λ s', (s', PopReturn (Some t))) <$> pop_front t s)
  | PopReturn o => Unlock 1 (match o with Some t => RunTask t | None => Worker end)
  | RunTask t => Act (λ s, Some (run_task t s, Worker))
  end.

Definition start (clients : list (list command)) (workers : nat) : config state label :=
  started (mk_state [] [] false [] [] []) 2 (replicate workers Worker ++ (Do <$> clients)).

(** [join_all]: cancel, then join the workers, which are the threads 0, 1, ... *)
Definition join_all (workers : nat) : list command :=
  Cancel :: (JoinThread <$> seq 0 workers).

(** [main]: submit the tasks, then join. *)
Definition main (tasks : list T) (workers : nat) : list command :=
  (Submit <$> tasks) ++ join_all workers.

(** ** The outline *)

Definition holds0 (l : label) : bool :=
  match l with
  | PushPush _ _ | PushNotify _ | PushUnlock _ | CancelStore _ | CancelNotify _
  | CancelUnlock _ | Swap | SwapUnlock _ => true
  | _ => false
  end.
Definition holds1 (l : label) : bool :=
  match l with
  | Test | SwapLock | Swap | SwapUnlock _ | TestNonblock | Sleep | PopCheck | PopFront
  | PopPop _ | PopReturn _ => true
  | _ => false
  end.
Definition holds (_ : nat) (l : label) (m : nat) : bool :=
  match m with 0 => holds0 l | 1 => holds1 l | _ => false end.

Definition fact (s : state) (l : label) : Prop :=
  match l with
  | SwapLock | Swap => consumer_queue s = []
  | PopFront => consumer_queue s ≠ []
  | PopPop t => head (consumer_queue s) = Some t
  | _ => True
  end.
Definition inv (s : state) : Prop :=
  put_log s = got_log s ++ consumer_queue s ++ producer_queue s.

Lemma mpmc_annotated : annotated code holds 2.
Proof.
  intros i l.
  destruct l as [[|[]]| | | | | | | | | | | | | | | | | |]; cbn;
    split_all; try done; try lia;
    try (intros [|[|m]]; repeat case_match; done);
    intros s s' k H m; unfold pop_front in H; simpl in H;
    repeat case_match; by simplify_eq/=.
Qed.

Lemma mpmc_outline : outline code holds fact inv 2.
Proof.
  constructor; [apply mpmc_annotated| | |].
  - intros i l f s s' k Hc Hf Hi He. unfold inv in *.
    destruct l as [[|[]]| | | | | | | | | | | | | | | | | |]; simpl in Hc; simplify_eq;
      unfold pop_front in *; simpl in *; repeat case_match; simplify_eq/=;
      rewrite ?Hf in *; try done.
    all: try match goal with H : consumer_queue _ = _ |- _ => rewrite ?H end;
      (split; [done|]); rewrite Hi; by rewrite <- ?app_assoc, ?app_nil_r.
  - intros i j l lj f s s' k Hne Hc Hf Hi He Hfj Hm.
    specialize (Hm 1). simpl in Hm.
    destruct lj as [[|[]]| | | | | | | | | | | | | | | | | |]; try done;
      rewrite andb_true_r in Hm;
      destruct l as [[|[]]| | | | | | | | | | | | | | | | | |]; simpl in Hc; simplify_eq;
      unfold pop_front in *; simpl in *; repeat case_match; by simplify_eq/=.
  - intros i l s Hf Hi.
    destruct l as [[|[]]| | | | | | | | | | | | | | | | | |]; simpl in *; try done;
      repeat case_match; done.
Qed.

Lemma start_facts clients workers i l :
  (replicate workers Worker ++ (Do <$> clients)) !! i = Some l →
  l = Worker ∨ ∃ cmds, l = Do cmds.
Proof.
  intros [Hl|[_ Hl]]%lookup_app_Some; [left; by apply lookup_replicate_1 in Hl as [-> _]|].
  apply list_lookup_fmap_Some in Hl as (cmds & -> & _). eauto.
Qed.

Lemma mpmc_reachable clients workers s :
  rtc (mon_step code) (start clients workers) s → outline_ok holds fact inv 2 s.
Proof.
  apply (outline_sound code holds fact inv); [apply mpmc_outline|done|].
  intros i l [->|(cmds & ->)]%start_facts; (split; [done|]); by intros [|[|m]].
Qed.

(** ** Joining *)

(** The positions of a worker. *)
Definition in_worker (l : label) : bool :=
  match l with
  | Worker | Test | SwapLock | Swap | SwapUnlock _ | TestNonblock | Sleep | PopCheck
  | PopFront | PopPop _ | PopReturn _ | RunTask _ => true
  | _ => false
  end.
Definition worker_status (st : status label) : bool :=
  match st with Run l | Waiting _ _ l | Relock _ l => in_worker l end.

(** Whether the thread still has to join one of the first [n] threads. *)
Definition joins (n : nat) (cmds : list command) : bool :=
  existsb (λ c, match c with JoinThread t => t <? n | _ => false end) cmds.
Definition will_join (n : nat) (st : status label) : bool :=
  match st with
  | Run (Do cmds) | Run (PushPush _ cmds) | Run (PushNotify cmds) | Run (PushUnlock cmds)
  | Run (CancelStore cmds) | Run (CancelNotify cmds) | Run (CancelUnlock cmds) =>
      joins n cmds
  | _ => false
  end.

(** The first [n] threads are workers, the next one has to join one of them. *)
Definition pool_status (n i : nat) (st : status label) : Prop :=
  (i < n → worker_status st = true) ∧ (i = n → will_join n st = true).

Lemma worker_never_halts i st : worker_status st = true → halted code i st = false.
Proof. by destruct st as [[[|[]]| | | | | | | | | | | | | | | | | |]| |]. Qed.

Lemma pool_status_closed n : status_closed code (pool_status n).
Proof.
  split; [|split].
  - intros i l [Hw Hj].
    destruct l as [[|[]]| | | | | | | | | | | | | | | | | |]; simpl in *; try done;
      try (split; [exact Hw|exact Hj]);
      try (intros s s' k He; unfold pop_front in He; simpl in He; repeat case_match;
           simplify_eq/=; split; [done|intros E; by apply Hj in E]);
      try (split; intros E; [apply Hw in E|apply Hj in E]; simpl in *;
           repeat case_match; by simplify_eq/=).
    destruct (decide (t < n)) as [Ht|Ht].
    + left. intros st [Hst _]. by apply worker_never_halts, Hst.
    + right. split; [done|]. intros E. apply Hj in E. apply orb_true_iff in E as [E|E]; [|done].
      apply Nat.ltb_lt in E. lia.
  - intros i c m l [Hw Hj]. split; [done|]. intros E. by apply Hj in E.
  - intros i m l [Hw Hj]. split; [done|]. intros E. by apply Hj in E.
Qed.
End pool.
Arguments state : clear implicits.
Arguments label : clear implicits.
Arguments command : clear implicits.
End Mpmc.

(** C9: for any number of producers, workers and tasks and any schedule, the
    two-lock queue hands out exactly the tasks submitted, in order and once each
    (popped, then in the consumers' queue, then in the producers' queue), and no
    access is undefined: a worker that gets past the wait finds the task. *)
Theorem mpmc_safe {T} (clients : list (list (Mpmc.command T))) workers s :
  rtc (mon_step Mpmc.code) (Mpmc.start clients workers) s →
  Mpmc.put_log (shared s) =
    Mpmc.got_log (shared s) ++ Mpmc.consumer_queue (shared s) ++
    Mpmc.producer_queue (shared s) ∧
  (∀ i l f, threads s !! i = Some (Run l) → Mpmc.code i l = Act f →
     is_Some (f (shared s))).
Proof.
  intros Hr. apply Mpmc.mpmc_reachable in Hr as [_ Hinv Hf _]. split; [apply Hinv|].
  intros i l f Hi Hc. specialize (Hf i l Hi).
  destruct l as [[|[]]| | | | | | | | | | | | | | | | | |]; simpl in *; simplify_eq; eauto.
  - destruct (Mpmc.consumer_queue (shared s)); [done|eauto].
  - unfold Mpmc.pop_front. destruct (Mpmc.consumer_queue (shared s)); [done|]. simpl. eauto.
Qed.

(** [ThreadPool::join_all] never returns: a worker whose [pop] fails after the
    cancellation goes back to the top of its loop, so no worker ever halts, and
    whatever the schedule the thread that calls [join_all] (or the destructor)
    on a pool with at least one worker still has a join ahead of it. *)
Theorem join_all_never_returns {T} (tasks : list T) workers s :
  0 < workers → rtc (mon_step Mpmc.code) (Mpmc.start [Mpmc.main tasks workers] workers) s →
  (∀ i st, i < workers → threads s !! i = Some st → halted Mpmc.code i st = false) ∧
  (∀ st, threads s !! workers = Some st → Mpmc.will_join workers st = true ∧
                                          halted Mpmc.code workers st = false).
Proof.
  intros Hw Hr. assert (all_in (Mpmc.pool_status workers) (threads s)) as Ha.
  { eapply all_in_reachable; [apply Mpmc.pool_status_closed| |exact Hr].
    intros i st. simpl. rewrite list_lookup_fmap.
    intros (l & Hl & ->)%fmap_Some. split; intros Hi.
    - rewrite lookup_app_l in Hl by (by rewrite length_replicate).
      by apply lookup_replicate_1 in Hl as [-> _].
    - rewrite lookup_app_r, length_replicate in Hl by (rewrite length_replicate; lia).
      subst. rewrite Nat.sub_diag in Hl. injection Hl as <-. simpl.
      unfold Mpmc.joins, Mpmc.main. rewrite existsb_app. apply orb_true_r || simpl.
      rewrite orb_comm. simpl. destruct workers as [|n]; [lia|]. done. }
  split.
  - intros i st Hi Hst. apply Mpmc.worker_never_halts. by apply (Ha i st Hst).
  - intros st Hst. destruct (Ha _ _ Hst) as [_ Hj]. specialize (Hj eq_refl).
    split; [done|]. by destruct st as [[[|[]]| | | | | | | | | | | | | | | | | |]| |].
Qed.

(** A wake-up can be lost: the producer holds another mutex than the consumer
    waits with, so it may push and notify between the consumer's last look at the
    queue and its going to sleep.  For any task there is a schedule after which
    the task is queued, the client has returned, the only worker sleeps, and no
    thread can take a step any more. *)
Theorem mpmc_lost_wakeup {T} (x : T) :
  ∃ s, rtc (mon_step Mpmc.code) (Mpmc.start [[Mpmc.Submit x]] 1) s ∧
    threads s = [Waiting 0 1 Mpmc.Test; Run (Mpmc.Do [])] ∧
    Mpmc.producer_queue (shared s) = [x] ∧ Mpmc.ran (shared s) = [] ∧
    ∀ i sleeper, exec Mpmc.code (Go i sleeper) s = Blocked.
Proof.
  eexists. split; [|split; [|split; [|split]]].
  - apply (run_rtc Mpmc.code
      (replicate 6 (Go 0 None) ++ replicate 4 (Go 1 None) ++ [Go 0 None])).
    reflexivity.
  - reflexivity.
  - reflexivity.
  - reflexivity.
  - by intros [|[|i]] sleeper.
Qed.

(** * The bounded pool *)

Module Pool.
(** [_tasks] and [_running]; the logs record what was pushed, popped, executed. *)
Record state := mk_state {
  tasks : list nat; running : bool; put_log : list nat; got_log : list nat; ran : list nat
}.

#[global] Instance state_eq_dec : EqDecision state.
Proof. solve_decision. Defined.

Inductive command : Type := RunTask (task : nat) | Stop | JoinThread (t : nat).

#[global] Instance command_eq_dec : EqDecision command.
Proof. solve_decision. Defined.

Inductive label : Type :=
| Do (cmds : list command)
| RunTest (task : nat) (rest : list command)
| RunWait (task : nat) (rest : list command)
| RunCheck (task : nat) (rest : list command)
| RunPush (task : nat) (rest : list command)
| RunUnlock (pushed : bool) (rest : list command)
| RunNotify (rest : list command)
| StopLock (rest : list command)
| StopNotifyEmpty (rest : list command)
| StopNotifyFull (rest : list command)
| StopUnlock (rest : list command)
| Loop
| GetLock
| GetTest
| GetWait
| GetCheck
| GetFront
| GetPop (t : nat)
| GetNotify (t : nat)
| GetUnlock (t : option nat)
| LoopCheck (t : option nat)
| Exec (t : nat)
| Exit.

#[global] Instance label_eq_dec : EqDecision label.
Proof. solve_decision. Defined.

Section size.
Context (max_size : nat).

Definition is_full (s : state) : bool := length (tasks s) =? max_size.
Definition is_empty (s : state) : bool := length (tasks s) =? 0.

(** Mutex 0 is [_mutex]; condition variable 0 is [_not_empty], 1 is [_not_full]. *)
Definition code (_ : nat) (l : label) : instr state label :=
  match l with
  | Do [] => Halt
  | Do (RunTask t :: rest) => Lock 0 (RunTest t rest)
  | RunTest t rest =>
      Act (λ s, Some (s, if is_full s && running s then RunWait t rest else RunCheck t rest))
  | RunWait t rest => WaitOn 1 0 (RunTest t rest)
  | RunCheck t rest =>
      Act (λ s, Some (s, if running s then RunPush t rest else RunUnlock false rest))
  | RunPush t rest =>
      Act (λ s, Some (mk_state (tasks s ++ [t]) (running s) (put_log s ++ [t]) (got_log s)
                        (ran s), RunUnlock true rest))
  | RunUnlock pushed rest =>
      Unlock 0 (if pushed then RunNotify rest else Do rest)
  | RunNotify rest => NotifyOne 0 (Do rest)
  | Do (Stop :: rest) =>
      Act (λ s, Some (mk_state (tasks s) false (put_log s) (got_log s) (ran s), StopLock rest))
  | StopLock rest => Lock 0 (StopNotifyEmpty rest)
  | StopNotifyEmpty rest => NotifyAll 0 (StopNotifyFull rest)
  | StopNotifyFull rest => NotifyAll 1 (StopUnlock rest)
  | StopUnlock rest => Unlock 0 (Do rest)
  | Do (JoinThread t :: rest) => Join t (Do rest)
  | Loop => Act (λ s, Some (s, if running s then GetLock else Exit))
  | GetLock => Lock 0 GetTest
  | GetTest => Act (λ s, Some (s, if is_empty s && running s then GetWait else GetCheck))
  | GetWait => WaitOn 0 0 GetTest
  | GetCheck => Act (λ s, Some (s, if is_empty s then GetUnlock None else GetFront))
  | GetFront => Act (λ s, match tasks s with [] => None | t :: _ => Some (s, GetPop t) end)
  | GetPop t =>
      Act (λ s, match tasks s with
                | [] => None
                | _ :: ts => Some (mk_state ts (running s) (put_log s) (got_log s ++ [t])
                                     (ran s), GetNotify t)
                end)
  | GetNotify t => NotifyOne 1 (GetUnlock (Some t))
  | GetUnlock o => Unlock 0 (LoopCheck o)
  | LoopCheck o =>
      Act (λ s, Some (s, if running s
                         then match o with Some t => Exec t | None => Loop end
                         else Exit))
  | Exec t =>
      Act (λ s, Some (mk_state (tasks s) (running s) (put_log s) (got_log s) (ran s ++ [t]),
                      Loop))
  | Exit => Halt
  end.

(** [start (workers)], the tasks, [stop]; thread 0 is the caller. *)
Definition start (ts : list nat) (workers : nat) : config state label :=
  started (mk_state [] true [] [] []) 1
    (Do ((RunTask <$> ts) ++ Stop :: (JoinThread <$> seq 1 workers)) ::
     replicate workers Loop).

(** First-in first-out, within the bound, nothing executed that was not taken from
    the queue; and when no thread can move, all have returned. *)
Definition good (s : config state label) : bool :=
  let sh := shared s in
  bool_decide (put_log sh = got_log sh ++ tasks sh) &&
  (length (tasks sh) <=? max_size) &&
  forallb (λ t, bool_decide (t ∈ got_log sh)) (ran sh) &&
  (negb (stuck code s) || all_halted code s).
End size.

(** Positions, as numbers. *)
Definition label_key (l : label) : Z :=
  match l with
  | Do cmds => Z.of_nat (length cmds)
  | RunTest _ _ => 10 | RunWait _ _ => 11 | RunCheck _ _ => 12 | RunPush _ _ => 13
  | RunUnlock _ _ => 14 | RunNotify _ => 15 | StopLock _ => 16 | StopNotifyEmpty _ => 17
  | StopNotifyFull _ => 18 | StopUnlock _ => 19 | Loop => 20 | GetLock => 21
  | GetTest => 22 | GetWait => 23 | GetCheck => 24 | GetFront => 25 | GetPop _ => 26
  | GetNotify _ => 27 | GetUnlock _ => 28 | LoopCheck _ => 29 | Exec _ => 30 | Exit => 31
  end.
End Pool.


(** ** Concrete runs *)

Definition steps (i n : nat) : list choice := replicate n (Go i None).

(** One worker takes and executes a task. *)
Definition mpmc_sched : list choice := steps 1 4 ++ steps 0 10.

Lemma mpmc_safe_witness : ∃ s,
  run Mpmc.code mpmc_sched (Mpmc.start [[Mpmc.Submit 7]] 1) = Some s ∧
  Mpmc.put_log (shared s) = Mpmc.got_log (shared s) ++
    Mpmc.consumer_queue (shared s) ++ Mpmc.producer_queue (shared s).
Proof.
  eexists. split; [vm_compute; reflexivity|].
  apply (mpmc_safe [[Mpmc.Submit 7]] 1), (run_rtc _ mpmc_sched). vm_compute. reflexivity.
Defined.

(** The task is executed and the pool cancelled, and still the worker spins. *)
Definition join_sched : list choice := steps 1 4 ++ steps 0 10 ++ steps 1 4 ++ steps 0 9.

Lemma join_all_witness : ∃ s,
  run Mpmc.code join_sched (Mpmc.start [Mpmc.main [7] 1] 1) = Some s ∧
  Mpmc.ran (shared s) = [7] ∧ Mpmc.nonblock (shared s) = true ∧
  ∀ st, threads s !! 1 = Some st → halted Mpmc.code 1 st = false.
Proof.
  eexists. split; [vm_compute; reflexivity|]. split; [reflexivity|]. split; [reflexivity|].
  intros st Hst. eapply (join_all_never_returns [7] 1); [lia| |exact Hst].
  apply (run_rtc _ join_sched). vm_compute. reflexivity.
Defined.

(** [stop] drops the tasks that are still queued. *)
Definition pool_sched : list choice :=
  steps 0 18 ++ steps 1 10 ++ steps 0 5 ++ steps 1 1 ++ steps 2 1 ++ steps 0 2.

