(* ===== verification/LogStream.v ===== *)
(** The formatting stream of
    [src/books/ldxcfwqbc/05_logger/logging/LogStream.h] and [LogStream.cpp].

    [FixedBuffer] is a character array of [SIZE] bytes filled from the front;
    [convert] and [convert_to_hex] write an integer of any width into it;
    [LogStream] sends values to a buffer of 4000 bytes.  An access outside an
    array is undefined and makes the operation [None].  [snprintf] belongs to the
    C library: the texts it produces are parameters. *)

From S2P Require Import Prelude.
From Stdlib Require Import Ascii String.

Local Open Scope Z_scope.

Abbreviation chars := (list ascii).

Definition SMALL_BUFFER_SIZE : nat := 4000.
Definition MAX_NUMERIC_SIZE : Z := 64.

(** * FixedBuffer *)

(** [_curr] is kept as the offset [_curr - _data]; [SIZE] is the length of
    [_data]. *)
Record FixedBuffer := mk_buffer { _data : chars; _curr : nat }.

(** The constructor leaves the array as it finds it. *)
Definition FixedBuffer_init (garbage : chars) : FixedBuffer := mk_buffer garbage 0.
Definition length (b : FixedBuffer) : Z := Z.of_nat (_curr b).
Definition avail (b : FixedBuffer) : Z := Z.of_nat (List.length (_data b)) - Z.of_nat (_curr b).

(** [memcpy] to [_curr]. *)
Definition store (s : chars) (b : FixedBuffer) : option FixedBuffer :=
  if bool_decide (_curr b + List.length s ≤ List.length (_data b))%nat
  then Some (mk_buffer (take (_curr b) (_data b) ++ s ++ drop (_curr b + List.length s) (_data b))
                       (_curr b))
  else None.
Definition add (len : nat) (b : FixedBuffer) : FixedBuffer := mk_buffer (_data b) (_curr b + len).
Definition append (buf : chars) (b : FixedBuffer) : option FixedBuffer :=
  if avail b >? Z.of_nat (List.length buf)
  then b ← store buf b; Some (add (List.length buf) b)
  else Some b.
Definition reset (b : FixedBuffer) : FixedBuffer := mk_buffer (_data b) 0.
Definition bzero (b : FixedBuffer) : FixedBuffer :=
  mk_buffer (replicate (List.length (_data b)) zero) (_curr b).
Definition to_string (b : FixedBuffer) : option chars :=
  if bool_decide (_curr b ≤ List.length (_data b))%nat then Some (take (_curr b) (_data b)) else None.

(** * Integers *)

Definition DIGITS : chars := list_ascii_of_string "9876543210123456789".
(** [ZERO[d]], with [ZERO = DIGITS + 9]; reading outside the array is undefined. *)
Definition ZERO (d : Z) : option ascii :=
  if (-9 <=? d) then DIGITS !! Z.to_nat (9 + d) else None.
Definition DIGITS_HEX : chars := list_ascii_of_string "0123456789abcdef".

(** The digits the loop of [convert] writes, the last one of the number first.
    [%] and [/] of C++ truncate towards zero, so the remainder of a negative number
    is negative or zero and indexes the left half of [DIGITS]. *)
Fixpoint convert_loop (fuel : nat) (i : Z) : option chars :=
  match fuel with
  | O => None
  | S f =>
      c ← ZERO (Z.rem i 10);
      let i := Z.quot i 10 in
      if i =? 0 then Some [c] else rest ← convert_loop f i; Some (c :: rest)
  end.

(** [std::reverse] of the digits and the sign; a 64-bit integer has at most 20
    digits. *)
Definition convert_text (value : Z) : option chars :=
  digits ← convert_loop 20 value;
  Some (rev (digits ++ (if value <? 0 then ["-"%char] else []))).

(** The text and a terminating zero are stored at [current ()]; the value returned
    is the length of the text. *)
Definition convert (value : Z) (b : FixedBuffer) : option (nat * FixedBuffer) :=
  s ← convert_text value;
  b ← store (s ++ [zero]) b;
  Some (List.length s, b).

Fixpoint convert_hex_loop (fuel : nat) (i : Z) : option chars :=
  match fuel with
  | O => None
  | S f =>
      let lsd := i mod 16 in
      let i := i / 16 in
      c ← DIGITS_HEX !! Z.to_nat lsd;
      if i =? 0 then Some [c] else rest ← convert_hex_loop f i; Some (c :: rest)
  end.
Definition convert_to_hex_text (value : Z) : option chars :=
  digits ← convert_hex_loop 16 value; Some (rev digits).

(** * LogStream *)

Definition LogStream_init (garbage : chars) : FixedBuffer := FixedBuffer_init garbage.

Definition format_integer (v : Z) (b : FixedBuffer) : option FixedBuffer :=
  if avail b >=? MAX_NUMERIC_SIZE
  then '(len, b) ← convert v b; Some (add len b)
  else Some b.

(** [operator<< (const void * )]: the prefix is written first, then the digits and
    a zero behind it. *)
Definition format_pointer (v : Z) (b : FixedBuffer) : option FixedBuffer :=
  if avail b >=? MAX_NUMERIC_SIZE
  then s ← convert_to_hex_text v;
       b ← store ("0"%char :: "x"%char :: s ++ [zero]) b;
       Some (add (List.length s + 2) b)
  else Some b.

Section stream.
(** [float] and [double] of C++; [snprintf_12g] is the text [snprintf] makes of a
    number with the format ["%.12g"], and [to_double] the conversion of a [float]. *)
Context {double single : Type} (to_double : single → double) (snprintf_12g : double → chars).

Inductive value : Type :=
| VBool (v : bool)
| VShort (v : Z) | VUShort (v : Z) | VInt (v : Z) | VUInt (v : Z)
| VLong (v : Z) | VULong (v : Z) | VLongLong (v : Z) | VULongLong (v : Z)
| VPtr (v : Z)
| VFloat (v : single) | VDouble (v : double)
| VChar (v : ascii)
| VCStr (v : chars) | VT (v : chars) | VString (v : chars).

(** [snprintf] stores at most 63 characters and a zero, and returns the length of
    the whole text. *)
Definition put_double (v : double) (b : FixedBuffer) : option FixedBuffer :=
  if avail b >=? MAX_NUMERIC_SIZE
  then b' ← store (take 63 (snprintf_12g v) ++ [zero]) b;
       Some (add (List.length (snprintf_12g v)) b')
  else Some b.

(** The overloads of [operator<<]; the casts of the small integers keep their
    value. *)
Definition shift (v : value) (b : FixedBuffer) : option FixedBuffer :=
  match v with
  | VBool v => append [if v then "1"%char else "0"%char] b
  | VShort v | VUShort v | VInt v | VUInt v
  | VLong v | VULong v | VLongLong v | VULongLong v => format_integer v b
  | VPtr v => format_pointer v b
  | VFloat v => put_double (to_double v) b
  | VDouble v => put_double v b
  | VChar c => append [c] b
  | VCStr s | VT s | VString s => append s b
  end.

Fixpoint shifts (vs : list value) (b : FixedBuffer) : option FixedBuffer :=
  match vs with
  | [] => Some b
  | v :: vs => b' ← shift v b; shifts vs b'
  end.

(** The values the C++ types can hold. *)
Definition value_ok (v : value) : Prop :=
  match v with
  | VShort v => in_signed 16 v | VUShort v => in_unsigned 16 v
  | VInt v => in_signed 32 v | VUInt v => in_unsigned 32 v
  | VLong v | VLongLong v => in_signed 64 v
  | VULong v | VULongLong v | VPtr v => in_unsigned 64 v
  | _ => True
  end.

(** [Fmt]: [snprintf] into 32 bytes; [_length] is the length of the whole text. *)
Record Fmt := mk_Fmt { _buf : chars; _length : nat }.
Definition Fmt_init (text : chars) : Fmt :=
  mk_Fmt (take 31 text ++ [zero] ++ replicate (31 - List.length text) zero) (List.length text).
(** [operator<<] for a [Fmt] copies [_length] bytes of [_buf]. *)
Definition shift_Fmt (f : Fmt) (b : FixedBuffer) : option FixedBuffer :=
  if avail b >? Z.of_nat (_length f)
  then if bool_decide (_length f ≤ List.length (_buf f))%nat
       then append (take (_length f) (_buf f)) b
       else None
  else Some b.
End stream.

(** * Reading numbers back *)

(** The value of a list of digits, the least significant first. *)
Fixpoint digits_value (base : Z) (digit : ascii → option Z) (l : chars) : option Z :=
  match l with
  | [] => Some 0
  | c :: l => d ← digit c; v ← digits_value base digit l; Some (d + base * v)
  end.

Definition decimal (c : ascii) : option Z :=
  let n := Z.of_nat (nat_of_ascii c) - 48 in
  if (0 <=? n) && (n <=? 9) then Some n else None.
Definition hexadecimal (c : ascii) : option Z :=
  let n := Z.of_nat (nat_of_ascii c) in
  if (48 <=? n) && (n <=? 57) then Some (n - 48)
  else if (97 <=? n) && (n <=? 102) then Some (n - 87) else None.

(** The usual reading of a number: an optional sign, then digits, the most
    significant first. *)
Definition parse_number (base : Z) (digit : ascii → option Z) (s : chars) : option Z :=
  match s with
  | [] => None
  | c :: s' =>
      if Ascii.eqb c "-" then Z.opp <$> digits_value base digit (rev s')
      else digits_value base digit (rev s)
  end.

(** What a value looks like in the log. *)
Definition prints {double single} (to_double : single → double) (snprintf_12g : double → chars)
    (v : value (double:=double) (single:=single)) (s : chars) : Prop :=
  match v with
  | VBool v => s = [if v then "1"%char else "0"%char]
  | VShort v | VUShort v | VInt v | VUInt v
  | VLong v | VULong v | VLongLong v | VULongLong v =>
      parse_number 10 decimal s = Some v
      ∧ (v ≠ 0 → head s ≠ Some "0"%char) ∧ (v < 0 ↔ head s = Some "-"%char)
      ∧ (0 < List.length s ≤ 21)%nat
  | VPtr v =>
      ∃ h, s = "0"%char :: "x"%char :: h ∧ parse_number 16 hexadecimal h = Some v
           ∧ (v ≠ 0 → head h ≠ Some "0"%char) ∧ (0 < List.length h ≤ 16)%nat
  | VFloat v => s = snprintf_12g (to_double v)
  | VDouble v => s = snprintf_12g v
  | VChar c => s = [c]
  | VCStr t | VT t | VString t => s = t
  end.

(** The room an overload of [operator<<] asks for. *)
Definition room_needed {double single} (v : value (double:=double) (single:=single)) : Z :=
  match v with
  | VBool _ | VChar _ => 2
  | VCStr t | VT t | VString t => Z.of_nat (List.length t) + 1
  | _ => MAX_NUMERIC_SIZE
  end.

(** * Buffers *)

(** The text a buffer holds. *)
Definition content (b : FixedBuffer) : chars := take (_curr b) (_data b).
Definition buffer_ok (size : nat) (b : FixedBuffer) : Prop :=
  List.length (_data b) = size ∧ (_curr b ≤ size)%nat.

(** A store that leaves the first [n] of its bytes in the text. *)
Lemma store_spec size b s n :
  buffer_ok size b → (_curr b + List.length s ≤ size)%nat → (n ≤ List.length s)%nat →
  ∃ b', store s b = Some b' ∧ buffer_ok size (add n b') ∧
        content (add n b') = content b ++ take n s.
Proof.
  intros [Hd Hc] Hs Hn. unfold store. rewrite bool_decide_true by lia.
  eexists. split; [done|]. unfold buffer_ok, content, add; simpl.
  repeat rewrite ?length_app, ?length_take, ?length_drop. split; [lia|].
  rewrite take_app_ge by (rewrite length_take; lia).
  f_equal. rewrite length_take.
  replace (_curr b + n - _curr b `min` List.length (_data b))%nat with n by lia.
  by rewrite take_app_le by lia.
Qed.

Lemma append_spec size b s :
  buffer_ok size b →
  ∃ b', append s b = Some b' ∧ buffer_ok size b' ∧
        content b' = content b ++ (if avail b >? Z.of_nat (List.length s) then s else []).
Proof.
  intros Hok. unfold append. destruct (_ >? _) eqn:Hr.
  - apply Z.gtb_lt in Hr. unfold avail in Hr. pose proof Hok as [Hd _].
    destruct (store_spec size b s (List.length s) Hok ltac:(lia) ltac:(lia)) as (b' & -> & ? & Hc).
    eexists. split; [done|]. split; [done|]. by rewrite Hc, firstn_all.
  - exists b. by rewrite app_nil_r.
Qed.

(** * Decimal and hexadecimal text *)

(** A character that stands for the digit [d]. *)
Definition stands_for (digit : ascii → option Z) (d : Z) (o : option ascii) : bool :=
  match o with
  | Some c => bool_decide (digit c = Some (Z.abs d)) && ((d =? 0) || negb (Ascii.eqb c "0"))
              && negb (Ascii.eqb c "-")
  | None => false
  end.

Lemma stands_for_range digit (o : Z → option ascii) lo n d :
  forallb (λ d, stands_for digit d (o d)) (seqZ lo n) = true → lo ≤ d < lo + n →
  ∃ c, o d = Some c ∧ digit c = Some (Z.abs d) ∧ (d ≠ 0 → c ≠ "0"%char) ∧ c ≠ "-"%char.
Proof.
  intros Hall Hd. rewrite forallb_forall in Hall.
  specialize (Hall d ltac:(rewrite <- list_elem_of_In; apply elem_of_seqZ; lia)).
  unfold stands_for in Hall. destruct (o d) as [c|]; [|done]. exists c.
  rewrite !andb_true_iff, orb_true_iff, !negb_true_iff, bool_decide_eq_true, Z.eqb_eq in Hall.
  rewrite !Ascii.eqb_neq in Hall. naive_solver.
Qed.

Lemma ZERO_decimal d :
  -9 ≤ d ≤ 9 → ∃ c, ZERO d = Some c ∧ decimal c = Some (Z.abs d) ∧ (d ≠ 0 → c ≠ "0"%char) ∧
                    c ≠ "-"%char.
Proof. intros Hd. apply (stands_for_range _ _ (-9) 19); [vm_compute; done|lia]. Qed.

Lemma DIGITS_HEX_hexadecimal d :
  0 ≤ d < 16 → ∃ c, DIGITS_HEX !! Z.to_nat d = Some c ∧ hexadecimal c = Some d ∧
                    (d ≠ 0 → c ≠ "0"%char) ∧ c ≠ "-"%char.
Proof.
  intros Hd.
  destruct (stands_for_range hexadecimal (λ d, DIGITS_HEX !! Z.to_nat d) 0 16 d)
    as (c & ? & Hc & ?); [vm_compute; done|lia|].
  exists c. by rewrite Z.abs_eq in Hc by lia.
Qed.

(** What both digit loops produce: the digits of [v], the least significant
    first, without superfluous ones. *)
Definition digits_of (base : Z) (digit : ascii → option Z) (n : nat) (v : Z) (l : chars) : Prop :=
  digits_value base digit l = Some v ∧ (0 < List.length l ≤ n)%nat ∧
  (v ≠ 0 → last l ≠ Some "0"%char) ∧ "-"%char ∉ l.

Lemma digits_of_last base digit n c v :
  digit c = Some v → (v ≠ 0 → c ≠ "0"%char) → c ≠ "-"%char →
  digits_of base digit (S n) v [c].
Proof.
  intros Hc Hz Hm. unfold digits_of. simpl. rewrite Hc. simpl. split_all.
  - f_equal. lia.
  - lia.
  - lia.
  - intros Hv [= ?]. by apply Hz.
  - rewrite list_elem_of_singleton. congruence.
Qed.

Lemma digits_of_cons base digit n c d v l :
  digit c = Some d → c ≠ "-"%char → v ≠ 0 → digits_of base digit n v l →
  digits_of base digit (S n) (d + base * v) (c :: l).
Proof.
  intros Hc Hm Hv (Hval & Hl & Hlast & Hnm). unfold digits_of. simpl. rewrite Hc, Hval. simpl.
  split_all; [done|lia|lia| |].
  - intros _. rewrite last_cons. destruct (last l) eqn:E; [by apply Hlast|].
    apply last_None in E as ->. simpl in Hl. lia.
  - rewrite elem_of_cons. intros [E|E]; congruence.
Qed.

Lemma convert_loop_spec fuel i :
  Z.abs i < 10 ^ Z.of_nat fuel → fuel ≠ O →
  ∃ l, convert_loop fuel i = Some l ∧ digits_of 10 decimal fuel (Z.abs i) l.
Proof.
  revert i. induction fuel as [|f IH]; [done|]. intros i Hi _. cbn [convert_loop].
  pose proof (Z.rem_bound_abs i 10 ltac:(lia)) as Hrb.
  assert (Z.abs (Z.quot i 10) = Z.abs i / 10) as Hq.
  { rewrite <- Z.quot_abs by lia. by apply Z.quot_div_nonneg; lia. }
  assert (Z.abs (Z.rem i 10) = Z.abs i mod 10) as Hr.
  { rewrite <- Z.rem_abs by lia. by apply Z.rem_mod_nonneg; lia. }
  pose proof (Z.div_mod (Z.abs i) 10 ltac:(lia)) as Hdm.
  destruct (ZERO_decimal (Z.rem i 10) ltac:(lia)) as (c & -> & Hc & Hz & Hm). simpl.
  destruct (Z.quot i 10 =? 0) eqn:E.
  - apply Z.eqb_eq in E. rewrite E in Hq. simpl in Hq.
    replace (Z.abs i) with (Z.abs (Z.rem i 10)) by lia.
    eexists. split; [done|]. apply digits_of_last; [done| |done]. intros ?. apply Hz. lia.
  - apply Z.eqb_neq in E.
    destruct (IH (Z.quot i 10)) as (l & -> & Hl).
    { rewrite Hq. apply Z.div_lt_upper_bound; [lia|].
      by rewrite Nat2Z.inj_succ, Z.pow_succ_r in Hi by lia. }
    { destruct f; [|done]. assert (Z.abs i / 10 = 0) by (apply Z.div_small; simpl in Hi; lia). lia. }
    eexists. split; [done|].
    replace (Z.abs i) with (Z.abs (Z.rem i 10) + 10 * Z.abs (Z.quot i 10)) by lia.
    apply digits_of_cons; [done|done|lia|done].
Qed.

Lemma convert_hex_loop_spec fuel i :
  0 ≤ i < 16 ^ Z.of_nat fuel → fuel ≠ O →
  ∃ l, convert_hex_loop fuel i = Some l ∧ digits_of 16 hexadecimal fuel i l.
Proof.
  revert i. induction fuel as [|f IH]; [done|]. intros i Hi _. cbn [convert_hex_loop].
  pose proof (Z.mod_pos_bound i 16 ltac:(lia)) as Hrb.
  pose proof (Z.div_mod i 16 ltac:(lia)) as Hdm.
  assert (0 ≤ i / 16) by (apply Z.div_pos; lia).
  destruct (DIGITS_HEX_hexadecimal (i mod 16) Hrb) as (c & -> & Hc & Hz & Hm). simpl.
  destruct (i / 16 =? 0) eqn:E.
  - apply Z.eqb_eq in E. replace (i mod 16) with i in Hc, Hz by lia.
    eexists. split; [done|]. by apply digits_of_last.
  - apply Z.eqb_neq in E.
    destruct (IH (i / 16)) as (l & -> & Hl).
    { split; [done|]. apply Z.div_lt_upper_bound; [lia|].
      rewrite Nat2Z.inj_succ, Z.pow_succ_r in Hi; lia. }
    { destruct f; [|done]. assert (i / 16 = 0) by (apply Z.div_small; simpl in Hi; lia). lia. }
    eexists. split; [done|].
    replace i with (i mod 16 + 16 * (i / 16)) at 1 by lia.
    by apply digits_of_cons.
Qed.

Lemma head_rev {A} (l : list A) : head (rev l) = last l.
Proof.
  destruct (last_snoc_dec l) as [->|(l' & x & ->)]; [done|].
  by rewrite rev_app_distr, last_snoc.
Qed.

(** Reading a reversed list of digits. *)
Lemma parse_digits base digit n v l :
  digits_of base digit n v l → parse_number base digit (rev l) = Some v.
Proof.
  intros (Hval & Hl & _ & Hnm). unfold parse_number.
  assert (∀ c, c ∈ rev l → Ascii.eqb c "-" = false) as Hno.
  { intros c Hc. apply Ascii.eqb_neq. intros ->. apply Hnm.
    rewrite list_elem_of_In in *. by apply in_rev. }
  destruct (rev l) as [|c s] eqn:E.
  - apply (f_equal List.length) in E. rewrite length_rev in E. simpl in E. lia.
  - rewrite Hno by set_solver. by rewrite <- E, rev_involutive.
Qed.

Lemma convert_text_spec v :
  - 2 ^ 63 ≤ v < 2 ^ 64 →
  ∃ s, convert_text v = Some s ∧
       parse_number 10 decimal s = Some v ∧ (v ≠ 0 → head s ≠ Some "0"%char) ∧
       (v < 0 ↔ head s = Some "-"%char) ∧ (0 < List.length s ≤ 21)%nat.
Proof.
  intros Hv. unfold convert_text.
  assert (Z.abs v < 10 ^ Z.of_nat 20) as Hb
    by (replace (10 ^ Z.of_nat 20) with 100000000000000000000 by reflexivity; lia).
  destruct (convert_loop_spec 20 v Hb ltac:(lia)) as (l & -> & Hl).
  eexists. split; [done|]. pose proof Hl as (Hval & Hlen & Hlast & Hnm).
  destruct (v <? 0) eqn:E.
  - apply Z.ltb_lt in E. rewrite rev_app_distr. simpl. rewrite rev_involutive, Hval, length_rev.
    simpl. split_all; [f_equal; lia|done|done|lia|lia].
  - apply Z.ltb_ge in E. rewrite app_nil_r, (parse_digits _ _ _ _ _ Hl), length_rev, head_rev.
    rewrite Z.abs_eq in * by lia. split_all; [done|done| |lia|lia].
    split; [lia|]. intros Hh. exfalso. apply Hnm.
    apply last_Some_elem_of in Hh. done.
Qed.

Lemma convert_to_hex_text_spec v :
  in_unsigned 64 v →
  ∃ s, convert_to_hex_text v = Some s ∧
       parse_number 16 hexadecimal s = Some v ∧ (v ≠ 0 → head s ≠ Some "0"%char) ∧
       (0 < List.length s ≤ 16)%nat.
Proof.
  intros Hv. unfold convert_to_hex_text.
  destruct (convert_hex_loop_spec 16 v Hv ltac:(lia)) as (l & -> & Hl).
  eexists. split; [done|]. pose proof Hl as (Hval & Hlen & Hlast & Hnm).
  rewrite (parse_digits _ _ _ _ _ Hl), length_rev, head_rev. split_all; [done|done|lia|lia].
Qed.

(** * The stream *)

Section stream_spec.
Context {double single : Type} (to_double : single → double) (snprintf_12g : double → chars).
(** ["%.12g"] never needs more than 63 characters: a sign, twelve digits, a point
    and an exponent of at most five. *)
Hypothesis snprintf_12g_short : ∀ v, (List.length (snprintf_12g v) ≤ 63)%nat.

Abbreviation value := (value (double:=double) (single:=single)).
Abbreviation shift := (shift to_double snprintf_12g).
Abbreviation prints := (prints to_double snprintf_12g).

(** What every overload promises: the text, when there is room, and nothing
    otherwise. *)
Definition writes (size : nat) (b : FixedBuffer) (room : Z) (s : chars)
    (r : option FixedBuffer) : Prop :=
  ∃ b', r = Some b' ∧ buffer_ok size b' ∧
        content b' = content b ++ (if room <=? avail b then s else []).

Lemma append_writes size b s :
  buffer_ok size b → writes size b (Z.of_nat (List.length s) + 1) s (append s b).
Proof.
  intros Hok. destruct (append_spec size b s Hok) as (b' & ? & ? & Hc).
  exists b'. split_all; [done|done|]. rewrite Hc.
  repeat case_match; try done; lia.
Qed.

(** A number: [s ++ [zero]] is stored and all of [s] is kept. *)
Lemma number_writes size b s :
  buffer_ok size b → (List.length s ≤ 63)%nat →
  writes size b MAX_NUMERIC_SIZE s
    (if avail b >=? MAX_NUMERIC_SIZE
     then b' ← store (s ++ [zero]) b; Some (add (List.length s) b') else Some b).
Proof.
  intros Hok Hs. unfold writes. rewrite Z.geb_leb. destruct (_ <=? _) eqn:Hr.
  - apply Z.leb_le in Hr. unfold avail, MAX_NUMERIC_SIZE in Hr. pose proof Hok as [Hd _].
    destruct (store_spec size b (s ++ [zero]) (List.length s) Hok) as (b' & -> & ? & Hc).
    + rewrite length_app. simpl. lia.
    + rewrite length_app. lia.
    + eexists. split; [done|]. split; [done|]. by rewrite Hc, take_app_length.
  - exists b. by rewrite app_nil_r.
Qed.

Lemma format_integer_writes size b v :
  buffer_ok size b → - 2 ^ 63 ≤ v < 2 ^ 64 →
  ∃ s, prints (VLong v) s ∧ writes size b MAX_NUMERIC_SIZE s (format_integer v b).
Proof.
  intros Hok Hv. destruct (convert_text_spec v Hv) as (s & Ht & Hp). exists s. split; [done|].
  pose proof (number_writes size b s Hok ltac:(lia)) as Hw.
  unfold format_integer, convert. rewrite Ht. simpl.
  destruct (_ >=? _); [|done]. by destruct (store _ _).
Qed.

Lemma format_pointer_writes size b v :
  buffer_ok size b → in_unsigned 64 v →
  ∃ s, prints (VPtr v) s ∧ writes size b MAX_NUMERIC_SIZE s (format_pointer v b).
Proof.
  intros Hok Hv. destruct (convert_to_hex_text_spec v Hv) as (h & Ht & Hp).
  exists ("0"%char :: "x"%char :: h). split; [by exists h|].
  pose proof (number_writes size b ("0"%char :: "x"%char :: h) Hok ltac:(simpl; lia)) as Hw.
  unfold format_pointer. rewrite Ht. simpl in *.
  by rewrite (Nat.add_comm (List.length h) 2).
Qed.

Lemma put_double_writes size b v :
  buffer_ok size b →
  writes size b MAX_NUMERIC_SIZE (snprintf_12g v) (put_double snprintf_12g v b).
Proof.
  intros Hok. unfold put_double. rewrite take_ge by apply snprintf_12g_short.
  apply number_writes; [done|apply snprintf_12g_short].
Qed.

Lemma shift_writes size b v :
  buffer_ok size b → value_ok v →
  ∃ s, prints v s ∧ writes size b (room_needed v) s (shift v b).
Proof.
  intros Hok Hv. unfold in_signed, in_unsigned in *.
  destruct v; simpl in Hv;
    try (apply format_integer_writes; [done|]; unfold in_signed, in_unsigned in *; lia).
  all: try (eexists; split; [reflexivity|]; by apply (append_writes size b)).
  - by apply format_pointer_writes.
  - eexists. split; [reflexivity|]. by apply put_double_writes.
  - eexists. split; [reflexivity|]. by apply put_double_writes.
Qed.

(** The texts that find room, in order. *)
Fixpoint fitting (av : Z) (vs : list value) (ts : list chars) : chars :=
  match vs, ts with
  | v :: vs, t :: ts =>
      if room_needed v <=? av then t ++ fitting (av - Z.of_nat (List.length t)) vs ts
      else fitting av vs ts
  | _, _ => []
  end.

Lemma shifts_writes size vs b :
  buffer_ok size b → Forall value_ok vs →
  ∃ ts b', Forall2 prints vs ts ∧ shifts to_double snprintf_12g vs b = Some b' ∧ buffer_ok size b' ∧
           content b' = content b ++ fitting (avail b) vs ts.
Proof.
  intros Hok Hvs. revert b Hok. induction Hvs as [|v vs Hv _ IH]; intros b Hok.
  - exists [], b. by rewrite app_nil_r.
  - destruct (shift_writes size b v Hok Hv) as (s & Hp & b1 & Hs & Hok1 & Hc1).
    destruct (IH b1 Hok1) as (ts & b' & ? & Hr & ? & Hc). exists (s :: ts), b'.
    split_all; [by constructor|simpl; by rewrite Hs|done|].
    rewrite Hc, Hc1, <- app_assoc. f_equal. simpl.
    assert (avail b1 = avail b - Z.of_nat (List.length (if room_needed v <=? avail b then s else [])))
      as ->.
    { apply (f_equal List.length) in Hc1. destruct Hok, Hok1. unfold avail, content in *.
      rewrite length_app, !length_take in Hc1. lia. }
    destruct (_ <=? _); [done|]. simpl. by rewrite Z.sub_0_r.
Qed.

(** With 64 bytes to spare nothing is left out. *)
Lemma fitting_all vs ts av :
  Forall2 prints vs ts → Z.of_nat (List.length (List.concat ts)) + 64 ≤ av →
  fitting av vs ts = List.concat ts.
Proof.
  intros H. revert av. induction H as [|v t vs ts Hp _ IH]; intros av Hav; [done|].
  simpl in *. rewrite length_app in Hav.
  assert (room_needed v ≤ Z.max (Z.of_nat (List.length t) + 1) 64) as Hr.
  { destruct v; simpl in Hp |- *; unfold MAX_NUMERIC_SIZE; subst; simpl; lia. }
  destruct (_ <=? _) eqn:E; [|apply Z.leb_gt in E; lia].
  f_equal. apply IH. lia.
Qed.

End stream_spec.

(** Inserting a [Fmt] whose text is longer than its 32 bytes reads outside its
    array: [snprintf] returns the length of the whole text, not of what it stored. *)
Theorem Fmt_overread size text b :
  buffer_ok size b → (32 < List.length text)%nat → Z.of_nat (List.length text) < avail b →
  shift_Fmt (Fmt_init text) b = None.
Proof.
  intros _ Ht Hroom. unfold shift_Fmt. simpl.
  destruct (_ >? _) eqn:E; [|lia].
  rewrite bool_decide_false; [done|].
  rewrite length_app, length_take. cbn [List.length]. rewrite length_replicate. lia.
Qed.

(** A short [Fmt] is copied. *)
Lemma Fmt_spec size text b :
  buffer_ok size b → (List.length text ≤ 31)%nat →
  writes size b (Z.of_nat (List.length text) + 1) text (shift_Fmt (Fmt_init text) b).
Proof.
  intros Hok Ht. pose proof (append_writes size b text Hok) as Hw.
  unfold shift_Fmt. simpl. rewrite bool_decide_true.
  2: { rewrite length_app, length_take. cbn [List.length]. rewrite length_replicate. lia. }
  rewrite (take_ge text) by lia. rewrite take_app_length.
  destruct (_ >? _) eqn:E; [done|]. unfold append in Hw. by rewrite E in Hw.
Qed.

(** * Witnesses *)

Definition demo_values : list (value (double:=unit) (single:=unit)) :=
  [VInt (-120); VCStr (list_ascii_of_string " at "); VPtr 48879; VULongLong 18446744073709551615;
   VDouble tt].
Definition demo_12g (_ : unit) : chars := list_ascii_of_string "0.5".


Definition long_text : chars := replicate 40 "7"%char.

Lemma Fmt_overread_witness :
  shift_Fmt (Fmt_init long_text) (LogStream_init (replicate 200 "?"%char)) = None.
Proof. apply (Fmt_overread 200); [split; vm_compute; lia|vm_compute; lia|reflexivity]. Defined.
