(* ===== verification/LogFile.v ===== *)
(** The rotating log file of
    [src/books/ldxcfwqbc/05_logger/logging/LogFile.h] and [LogFile.cpp], and the
    interface [Sink] its client [AsyncLogging] relies on.

    The system clock, the calendar text of [put_time], the process id and [fwrite]
    belong to the platform and are parameters; what has been written is kept as the
    list of the sessions of the file: the name of each file opened and the bytes
    sent to it while it was open. *)

From S2P Require Import Prelude LogStream.
From Stdlib Require Import Ascii String.

Local Open Scope Z_scope.

(** * What a client may expect of a log file *)

Class Sink := {
  sink : Type;
  sink_ok : sink → Prop;
  sink_text : sink → chars;
  sink_append : chars → sink → option sink;
  sink_flush : sink → option sink;
  sink_append_spec s k : sink_ok k →
    ∃ k', sink_append s k = Some k' ∧ sink_ok k' ∧ sink_text k' = sink_text k ++ s;
  sink_flush_spec k : sink_ok k →
    ∃ k', sink_flush k = Some k' ∧ sink_ok k' ∧ sink_text k' = sink_text k
}.

(** * The log file *)

Definition CHECK_TIME_ROTATE : Z := 1024.
Definition ROTATE_PER_SECONDS : Z := 60 * 60 * 24.
(** [system_clock::to_time_t]: whole seconds of a time in nanoseconds. *)
Definition to_time_t (t : Z) : Z := Z.quot t 1000000000.
Definition period (t : Z) : Z := Z.quot (to_time_t t) ROTATE_PER_SECONDS * ROTATE_PER_SECONDS.

(** [File]: the stream [_fp] of the session in [Session], of which [_fp_pending] bytes
    are still in the stream's buffer. *)
Record File := mk_File { _fp : string; _sent : chars; _fp_pending : nat; _bytes_written : Z }.

(** [log] is the console. [ticks] counts the readings of the clock and [writes] the
    calls of [fwrite]. *)
Record LogFile := mk_LogFile {
  _basename : string;
  _rotate_size : Z;
  _flush_interval : Z;
  _count : Z;
  _filename : string;
  _mutex : bool;
  _last_rotate : Z;
  _last_flush : Z;
  _start_of_period : Z;
  _file : option File;
  closed : list (string * chars);
  ticks : nat;
  writes : nat
}.

Section log_file.
(** The [n]-th reading of the clock; the text of [".%Y%m%d-%H%M%S"] for a time; the
    process id; and what the [n]-th [fwrite] of a number of bytes returns, with
    [ferror] after it. *)
Context (clock : nat → Z) (put_time : Z → string) (pid : string)
        (fwrite : nat → nat → nat * bool).

(** ** File *)

Definition File_init (filename : string) : File := mk_File filename [] 0 0.

(** The loop of [File::append]; [n] is the number of the next [fwrite].  It leaves
    the loop when the error flag is set. *)
Fixpoint File_append_loop (fuel : nat) (logline : chars) (n : nat) (f : File)
    : option (File * nat) :=
  match fuel with
  | O => None
  | S fuel =>
      let '(delta, err) := fwrite n (List.length logline) in
      if bool_decide (delta = 0%nat) && err then Some (f, S n)
      else
        let f := mk_File (_fp f) (_sent f ++ take delta logline) (_fp_pending f + delta)
                         (_bytes_written f) in
        let remain := drop delta logline in
        if bool_decide (remain = []) then Some (f, S n)
        else File_append_loop fuel remain (S n) f
  end.
Definition File_append (fuel : nat) (logline : chars) (n : nat) (f : File) : option (File * nat) :=
  '(f, n) ← File_append_loop fuel logline n f;
  Some (mk_File (_fp f) (_sent f) (_fp_pending f) (_bytes_written f + Z.of_nat (List.length logline)), n).
Definition File_flush (f : File) : File := mk_File (_fp f) (_sent f) 0 (_bytes_written f).

(** ** LogFile *)

Definition set_file (o : option File) (l : LogFile) : LogFile :=
  mk_LogFile (_basename l) (_rotate_size l) (_flush_interval l) (_count l) (_filename l) (_mutex l)
    (_last_rotate l) (_last_flush l) (_start_of_period l) o (closed l) (ticks l) (writes l).
Definition set_writes (n : nat) (l : LogFile) : LogFile :=
  mk_LogFile (_basename l) (_rotate_size l) (_flush_interval l) (_count l) (_filename l) (_mutex l)
    (_last_rotate l) (_last_flush l) (_start_of_period l) (_file l) (closed l) (ticks l) n.
Definition set_count (n : Z) (l : LogFile) : LogFile :=
  mk_LogFile (_basename l) (_rotate_size l) (_flush_interval l) n (_filename l) (_mutex l)
    (_last_rotate l) (_last_flush l) (_start_of_period l) (_file l) (closed l) (ticks l) (writes l).
Definition set_last_flush (t : Z) (l : LogFile) : LogFile :=
  mk_LogFile (_basename l) (_rotate_size l) (_flush_interval l) (_count l) (_filename l) (_mutex l)
    (_last_rotate l) t (_start_of_period l) (_file l) (closed l) (ticks l) (writes l).
Definition set_rotated (now start : Z) (l : LogFile) : LogFile :=
  mk_LogFile (_basename l) (_rotate_size l) (_flush_interval l) (_count l) (_filename l) (_mutex l)
    now now start (_file l) (closed l) (ticks l) (writes l).

(** [system_clock::now ()]. *)
Definition now (l : LogFile) : Z * LogFile :=
  (clock (ticks l),
   mk_LogFile (_basename l) (_rotate_size l) (_flush_interval l) (_count l) (_filename l) (_mutex l)
     (_last_rotate l) (_last_flush l) (_start_of_period l) (_file l) (closed l) (S (ticks l)) (writes l)).

Definition get_log_filename (l : LogFile) : string * Z * LogFile :=
  let '(t, l) := now l in
  (_basename l +:+ put_time (to_time_t t) +:+ "." +:+ pid +:+ ".log", t, l)%string.

(** The destructor of the old [File] flushes and closes it. *)
Definition reset_file (filename : string) (l : LogFile) : LogFile :=
  mk_LogFile (_basename l) (_rotate_size l) (_flush_interval l) (_count l) filename (_mutex l)
    (_last_rotate l) (_last_flush l) (_start_of_period l) (Some (File_init filename))
    (closed l ++ match _file l with Some f => [(_fp f, _sent f)] | None => [] end)
    (ticks l) (writes l).

Definition rotate_file (l : LogFile) : LogFile :=
  let '(filename, t, l) := get_log_filename l in
  if (_last_rotate l <? t) && negb (String.eqb filename (_filename l))
  then reset_file filename (set_rotated t (period t) l)
  else l.

Definition append_unlocked (logline : chars) (l : LogFile) : option LogFile :=
  f ← _file l;
  '(f, n) ← File_append (S (List.length logline)) logline (writes l) f;
  let l := set_writes n (set_file (Some f) l) in
  if _rotate_size l <? _bytes_written f then Some (rotate_file l)
  else if CHECK_TIME_ROTATE <? _count l then
    let l := set_count 0 l in
    let '(t, l) := now l in
    if negb (period t =? _start_of_period l) then Some (rotate_file l)
    else if _flush_interval l <? to_time_t t - to_time_t (_last_flush l)
    then Some (set_file (Some (File_flush f)) (set_last_flush t l))
    else Some l
  else Some (set_count (_count l + 1) l).

(** With or without the mutex, one call runs alone. *)
Definition LogFile_append (logline : chars) (l : LogFile) : option LogFile :=
  if _mutex l then append_unlocked logline l else append_unlocked logline l.
Definition LogFile_flush (l : LogFile) : option LogFile :=
  f ← _file l; Some (set_file (Some (File_flush f)) l).

Definition LogFile_init (basename : string) (rotate_size : Z) (thread_safe : bool)
    (flush_interval : Z) : option LogFile :=
  if existsb (Ascii.eqb "/"%char) (list_ascii_of_string basename) then None
  else Some (rotate_file
    (mk_LogFile basename rotate_size flush_interval 0 "" thread_safe 0 0 0 None [] 0 0)).

(** ** What has been written *)

Definition sessions (l : LogFile) : list (string * chars) :=
  closed l ++ match _file l with Some f => [(_fp f, _sent f)] | None => [] end.
Definition log_text (l : LogFile) : chars := List.concat (sessions l).*2.
(** The contents of a file: ["a"] appends to what is there. *)
Definition contents (l : LogFile) (name : string) : chars :=
  List.concat (filter (λ p, p.1 = name) (sessions l)).*2.

(** The log file has an open stream that counts its bytes. *)
Definition log_ok (l : LogFile) : Prop :=
  (∃ f, _file l = Some f ∧ _bytes_written f = Z.of_nat (List.length (_sent f))
        ∧ (_fp_pending f ≤ List.length (_sent f))%nat)
  ∧ 0 ≤ _count l ≤ CHECK_TIME_ROTATE + 1.

(** [fwrite] never writes more than it is given, and makes progress when it is given
    something. *)
Definition fwrite_ok : Prop :=
  ∀ k n, ((fwrite k n).1 ≤ n)%nat ∧ ((0 < n)%nat → (0 < (fwrite k n).1)%nat).
End log_file.

Section log_file_spec.
Context (clock : nat → Z) (put_time : Z → string) (pid : string) (fwrite : nat → nat → nat * bool).
Hypothesis Hfwrite : fwrite_ok fwrite.

Abbreviation rotate_file := (rotate_file clock put_time pid).
Abbreviation append := (LogFile_append clock put_time pid fwrite).

Lemma File_append_loop_spec fuel s n f :
  (List.length s < fuel)%nat →
  ∃ n', File_append_loop fwrite fuel s n f
        = Some (mk_File (_fp f) (_sent f ++ s) (_fp_pending f + List.length s) (_bytes_written f), n').
Proof using Hfwrite.
  revert s n f. induction fuel as [|fuel IH]; intros s n f Hf; [lia|].
  cbn [File_append_loop]. destruct (Hfwrite n (List.length s)) as [Hle Hpos].
  destruct (fwrite n (List.length s)) as [delta err]. cbn [fst] in *.
  destruct (decide (s = [])) as [->|Hs].
  - assert (delta = 0%nat) as -> by (simpl in Hle; lia).
    destruct f as [fp sent p b]; simpl. rewrite app_nil_r, Nat.add_0_r.
    destruct err; eauto.
  - assert (List.length s ≠ 0%nat) by (by destruct s).
    rewrite (bool_decide_false (delta = 0%nat)) by lia. cbn [andb].
    destruct (decide (drop delta s = [])) as [Hd|Hd].
    + rewrite bool_decide_true by done. apply (f_equal List.length) in Hd.
      rewrite length_drop in Hd. simpl in Hd. rewrite take_ge by lia.
      replace delta with (List.length s) by lia. eauto.
    + rewrite bool_decide_false by done.
      destruct (IH (drop delta s) (S n)
        (mk_File (_fp f) (_sent f ++ take delta s) (_fp_pending f + delta) (_bytes_written f)))
        as (n' & ->); [rewrite length_drop; lia|].
      exists n'. cbn [_fp _sent _fp_pending _bytes_written].
      rewrite <- app_assoc, take_drop, length_drop. do 3 f_equal. lia.
Qed.

(** The file a line has been appended to. *)
Definition appended (s : chars) (f : File) : File :=
  mk_File (_fp f) (_sent f ++ s) (_fp_pending f + List.length s)
          (_bytes_written f + Z.of_nat (List.length s)).

Lemma File_append_spec s n f :
  ∃ n', File_append fwrite (S (List.length s)) s n f = Some (appended s f, n').
Proof using Hfwrite.
  unfold File_append. destruct (File_append_loop_spec (S (List.length s)) s n f) as (n' & ->); [lia|].
  by exists n'.
Qed.

(** [rotate_file] opens a new file exactly when the time has moved on and the name
    is another one. *)
Definition rotates (l : LogFile) : bool :=
  (_last_rotate l <? clock (ticks l)) &&
  negb (String.eqb (get_log_filename clock put_time pid l).1.1 (_filename l)).

Lemma rotate_file_spec l :
  sessions (rotate_file l) = sessions l ++ (if rotates l then [(_filename (rotate_file l), [])] else [])
  ∧ _count (rotate_file l) = _count l
  ∧ _file (rotate_file l)
    = (if rotates l then Some (File_init (get_log_filename clock put_time pid l).1.1) else _file l)
  ∧ (rotates l → _last_rotate (rotate_file l) = clock (ticks l)).
Proof.
  unfold rotates, LogFile.rotate_file. cbn. destruct (_ && _); [|by rewrite app_nil_r].
  unfold sessions. cbn. by destruct (_file l).
Qed.

Lemma log_text_rotate l : log_text (rotate_file l) = log_text l.
Proof.
  unfold log_text. rewrite (proj1 (rotate_file_spec l)). destruct (rotates l).
  - by rewrite fmap_app, concat_app, app_nil_r.
  - by rewrite app_nil_r.
Qed.

Lemma log_ok_rotate l : log_ok l → log_ok (rotate_file l).
Proof.
  intros [(f & Hf & Hb & Hp) Hc]. destruct (rotate_file_spec l) as (_ & Hc' & Hf' & _).
  split; [|by rewrite Hc']. rewrite Hf'. destruct (rotates l); [|by exists f].
  by eexists.
Qed.

(** The state after the write and before the decision to rotate. *)
Definition written (s : chars) (n : nat) (f : File) (l : LogFile) : LogFile :=
  set_writes n (set_file (Some (appended s f)) l).

Lemma log_text_written s n f l :
  _file l = Some f → log_text (written s n f l) = log_text l ++ s.
Proof.
  intros Hf. unfold log_text, sessions. cbn. rewrite Hf, !fmap_app, !concat_app. cbn.
  by rewrite !app_nil_r, app_assoc.
Qed.

Lemma log_ok_written s n f l :
  log_ok l → _file l = Some f → log_ok (written s n f l).
Proof.
  intros [(f' & Hf' & Hb & Hp) Hc] Hf. simplify_eq. split; [|done].
  eexists. split; [done|]. unfold appended; simpl. rewrite length_app. lia.
Qed.

(** Every branch of [append]: which of them it takes, and the state it leaves. *)
Lemma append_cases s l f :
  _file l = Some f →
  ∃ n l', append s l = Some l' ∧
    let w := written s n f l in
    let bytes := _bytes_written f + Z.of_nat (List.length s) in
    (_rotate_size l < bytes ∧ l' = rotate_file w) ∨
    (bytes ≤ _rotate_size l ∧ _count l ≤ CHECK_TIME_ROTATE ∧ l' = set_count (_count l + 1) w) ∨
    (bytes ≤ _rotate_size l ∧ CHECK_TIME_ROTATE < _count l ∧
     let '(t, w) := now clock (set_count 0 w) in
     (period t ≠ _start_of_period l ∧ l' = rotate_file w) ∨
     (period t = _start_of_period l ∧
      ((_flush_interval l < to_time_t t - to_time_t (_last_flush l) ∧
        l' = set_file (Some (File_flush (appended s f))) (set_last_flush t w)) ∨
       (to_time_t t - to_time_t (_last_flush l) ≤ _flush_interval l ∧ l' = w)))).
Proof using Hfwrite.
  intros Hf. destruct (File_append_spec s (writes l) f) as (n & Ha). exists n.
  unfold LogFile_append. rewrite if_same. unfold append_unlocked. rewrite Hf.
  cbn [mbind option_bind]. rewrite Ha. cbn.
  destruct (Z.ltb_spec (_rotate_size l) (_bytes_written f + Z.of_nat (List.length s))).
  { eexists. split; [done|]. by left. }
  destruct (Z.ltb_spec CHECK_TIME_ROTATE (_count l)).
  2: { eexists. split; [done|]. right; left. done. }
  destruct (Z.eqb_spec (period (clock (ticks l))) (_start_of_period l)) as [Hp|Hp]; cbn.
  2: { eexists. split; [done|]. right; right. split_all; [done|done|]. by left. }
  destruct (Z.ltb_spec (_flush_interval l) (to_time_t (clock (ticks l)) - to_time_t (_last_flush l)));
    (eexists; split; [done|]; right; right; split_all; [done|done|]; right; split; [done|]).
  - by left.
  - by right.
Qed.

Lemma LogFile_append_spec s l :
  log_ok l → ∃ l', append s l = Some l' ∧ log_ok l' ∧ log_text l' = log_text l ++ s.
Proof using Hfwrite.
  intros Hok. pose proof Hok as [(f & Hf & _) Hcount].
  destruct (append_cases s l f Hf) as (n & l' & -> & Hc).
  pose proof (log_ok_written s n f l Hok Hf) as Hw.
  pose proof (log_text_written s n f l Hf) as Ht.
  exists l'. split; [done|].
  destruct Hc as [(_ & ->)|[(_ & ? & ->)|(_ & _ & [(_ & ->)|(_ & [(_ & ->)|(_ & ->)])])]].
  - split; [by apply log_ok_rotate|by rewrite log_text_rotate].
  - split; [|done]. destruct Hw as [Hw _]. split; [done|]. cbn. lia.
  - destruct Hw as [Hw _]. split; [apply log_ok_rotate; by split|by rewrite log_text_rotate].
  - destruct Hw as [(f' & [= <-] & ? & ?) _]. split; [|done]. split; [|done].
    eexists. split; [done|]. split; [done|]. simpl. lia.
  - destruct Hw as [Hw _]. by split.
Qed.

Lemma LogFile_flush_spec l :
  log_ok l → ∃ l', LogFile_flush l = Some l' ∧ log_ok l' ∧ log_text l' = log_text l ∧
                   _fp_pending <$> _file l' = Some 0%nat.
Proof.
  intros [(f & Hf & Hb & _) Hc]. unfold LogFile_flush. rewrite Hf. cbn.
  eexists. split_all; [done| | |done].
  - split; [|done]. eexists. split; [done|]. split; [done|]. simpl. lia.
  - unfold log_text, sessions. cbn. by rewrite Hf.
Qed.

(** The log file implements the interface. *)
#[global] Program Instance log_sink : Sink := {|
  sink := LogFile; sink_ok := log_ok; sink_text := log_text;
  sink_append := append; sink_flush := LogFile_flush |}.
Next Obligation. intros s l Hl. by apply LogFile_append_spec. Qed.
Next Obligation. intros l Hl. destruct (LogFile_flush_spec l Hl) as (l' & ? & ? & ? & _). eauto. Qed.

Lemma append_nil_inv s1 s2 : (s1 +:+ s2 = "" → s1 = "" ∧ s2 = "")%string.
Proof. by destruct s1. Qed.

Lemma LogFile_init_spec basename rotate_size ts fi :
  "/"%char ∉ list_ascii_of_string basename → 0 < clock 0 →
  ∃ l, LogFile_init clock put_time pid basename rotate_size ts fi = Some l ∧ log_ok l ∧ log_text l = []
       ∧ _rotate_size l = rotate_size.
Proof.
  intros Hb Hclock. unfold LogFile_init. destruct (existsb _ _) eqn:E.
  { apply existsb_exists in E as (c & Hin & Hc%Ascii.eqb_eq). subst c.
    destruct Hb. by rewrite list_elem_of_In. }
  eexists. split; [done|]. unfold LogFile.rotate_file. cbn.
  destruct (Z.ltb_spec 0 (clock 0)); [|lia]. cbn.
  replace (String.eqb _ "") with false.
  { unfold log_ok, log_text, sessions, CHECK_TIME_ROTATE. cbn. split_all; [|lia|lia|done|done].
    by eexists. }
  symmetry. apply String.eqb_neq. intros Hn. do 2 apply append_nil_inv in Hn as [_ Hn]. done.
Qed.

(** The lines appended one after the other. *)
Fixpoint append_all (lines : list chars) (l : LogFile) : option LogFile :=
  match lines with
  | [] => Some l
  | s :: lines => l' ← append s l; append_all lines l'
  end.

Lemma append_all_spec lines l :
  log_ok l →
  ∃ l', append_all lines l = Some l' ∧ log_ok l' ∧ log_text l' = log_text l ++ List.concat lines.
Proof using Hfwrite.
  revert l. induction lines as [|s lines IH]; intros l Hok; cbn [append_all List.concat].
  - exists l. by rewrite app_nil_r.
  - destruct (LogFile_append_spec s l Hok) as (l1 & -> & Hok1 & Ht1).
    destruct (IH l1 Hok1) as (l' & ? & ? & Ht). exists l'.
    by rewrite Ht, Ht1, <- app_assoc.
Qed.


(** Whether an append opens a new file. *)
Definition append_rotates (s : chars) (f : File) (l : LogFile) : bool :=
  if _rotate_size l <? _bytes_written f + Z.of_nat (List.length s) then rotates l
  else (CHECK_TIME_ROTATE <? _count l) && negb (period (clock (ticks l)) =? _start_of_period l)
       && rotates (now clock l).2.

(** A rotation decided on in state [w], in which the line is already written. *)
Lemma rotate_written s f w (b : bool) :
  sessions w = closed w ++ [(_fp f, _sent f ++ s)] → _file w ≠ None → rotates w = b →
  sessions (rotate_file w)
    = closed w ++ (_fp f, _sent f ++ s) :: (if b then [(_filename (rotate_file w), [])] else [])
  ∧ _file (rotate_file w) ≠ None
  ∧ (b = true → _file (rotate_file w) = Some (File_init (_filename (rotate_file w)))).
Proof.
  intros Hs Hf <-. destruct (rotate_file_spec w) as (-> & _ & Hf' & _). rewrite Hs, <- app_assoc.
  split; [done|]. rewrite Hf'. destruct (rotates w) eqn:E; [|done]. split; [done|]. intros _.
  unfold LogFile.rotate_file, rotates in *. cbn in *. by rewrite E.
Qed.

(** When rotation happens.  After an append, a new empty file is opened exactly if
    the clock has moved past the last rotation and gives a new name, and either the
    file has grown past [_rotate_size] or, checked once every 1026 appends, the day
    has changed; otherwise the line is in the file that was open. *)
Theorem log_file_rotation s l f :
  log_ok l → _file l = Some f →
  ∃ l', append s l = Some l' ∧
    sessions l' = closed l ++ (_fp f, _sent f ++ s)
                  :: (if append_rotates s f l then [(_filename l', [])] else []) ∧
    _file l' ≠ None ∧
    (append_rotates s f l = true → _file l' = Some (File_init (_filename l'))).
Proof using Hfwrite.
  intros Hok Hf. destruct (append_cases s l f Hf) as (n & l' & -> & Hc).
  exists l'. split; [done|]. unfold append_rotates.
  destruct Hc as [(Hb & ->)|[(Hb & Hn & ->)|(Hb & Hn & [(Hp & ->)|(Hp & Hc)])]].
  - rewrite (proj2 (Z.ltb_lt _ _) Hb). by apply (rotate_written s f (written s n f l)).
  - rewrite (proj2 (Z.ltb_ge _ _) Hb), (proj2 (Z.ltb_ge _ _) Hn). done.
  - cbn in Hp. rewrite (proj2 (Z.ltb_ge _ _) Hb), (proj2 (Z.ltb_lt _ _) Hn), (proj2 (Z.eqb_neq _ _) Hp).
    by apply (rotate_written s f (now clock (set_count 0 (written s n f l))).2).
  - cbn in Hp. rewrite (proj2 (Z.ltb_ge _ _) Hb), (proj2 (Z.ltb_lt _ _) Hn), (proj2 (Z.eqb_eq _ _) Hp).
    by destruct Hc as [(? & ->)|(? & ->)].
Qed.
End log_file_spec.

(** When [fwrite] fails, the bytes it did not take are counted as written. *)
Lemma File_append_failure fwrite s n f :
  s ≠ [] → fwrite n (List.length s) = (0%nat, true) →
  File_append fwrite (S (List.length s)) s n f
  = Some (mk_File (_fp f) (_sent f) (_fp_pending f)
                  (_bytes_written f + Z.of_nat (List.length s)), S n).
Proof. intros Hs Hw. unfold File_append. cbn. by rewrite Hw. Qed.

(** * Witnesses *)

(** A clock that advances one second per reading, a name with the seconds in it, and
    an [fwrite] that takes at most three bytes at a time. *)
Definition demo_clock (n : nat) : Z := (1 + Z.of_nat n) * 1000000000.
Definition demo_put_time (t : Z) : string :=
  if t =? 1 then ".1" else if t =? 2 then ".2" else ".3".
Definition demo_fwrite (_ n : nat) : nat * bool := (Nat.min n 3, false).

Lemma demo_fwrite_ok : fwrite_ok demo_fwrite.
Proof. intros k n. unfold demo_fwrite. simpl. lia. Qed.

Definition demo_lines : list chars :=
  list_ascii_of_string <$> ["one,"; "two,"; "three,"; "four"]%string.


Definition demo_log : LogFile :=
  mk_LogFile "demo" 7 3 0 "demo.1.7.log" false 1000000000 1000000000 0
    (Some (mk_File "demo.1.7.log" (list_ascii_of_string "one,two") 2 7)) [] 1 3.

Lemma log_file_rotation_witness :
  append_rotates demo_clock demo_put_time "7" [","%char]
    (mk_File "demo.1.7.log" (list_ascii_of_string "one,two") 2 7) demo_log = true ∧
  ∃ l', LogFile_append demo_clock demo_put_time "7" demo_fwrite [","%char] demo_log = Some l' ∧
    sessions l' = [] ++ ("demo.1.7.log"%string, list_ascii_of_string "one,two" ++ [","%char])
                  :: [(_filename l', [])] ∧
    _file l' ≠ None ∧ (true = true → _file l' = Some (File_init (_filename l'))).
Proof.
  split; [vm_compute; reflexivity|].
  apply (log_file_rotation demo_clock demo_put_time "7" _ demo_fwrite_ok [","%char] demo_log
    (mk_File "demo.1.7.log" (list_ascii_of_string "one,two") 2 7)); [|reflexivity].
  split; [|vm_compute; split; congruence].
  eexists. split; [reflexivity|]. split; [reflexivity|]. vm_compute; lia.
Defined.
