(* ===== verification/AsyncLogging.v ===== *)
(** The asynchronous front end of the log,
    [src/books/ldxcfwqbc/05_logger/logging/AsyncLogging.h].

    Client threads append lines to a current buffer under a mutex; a background
    thread exchanges the filled buffers for empty ones under the same mutex and
    writes them to the log file outside it.  The model interleaves the critical
    sections of the clients with the steps of the thread; a null or out-of-bounds
    access, or a failed [assert], leads to the control point [Crash].

    The log file is used through the interface [Sink] of [LogFile.v]. *)

From S2P Require Import Prelude LogStream LogFile.
From Stdlib Require Import Ascii String.

Local Open Scope Z_scope.

(** * The buffers *)

(** A [BufferPtr] is [None] after it has been moved from. *)
Abbreviation BufferPtr := (option FixedBuffer).
Abbreviation BufferVector := (list (option FixedBuffer)).

(** What the clients and the thread share. *)
Record AsyncLogging := mk_Async {
  _running : bool;
  _curr_buff : BufferPtr;
  _next_buff : BufferPtr;
  _buffers : BufferVector
}.

(** The arrays of the 4,000,000 bytes of a [Buffer], as the allocator gives them: the
    proofs need only that they all have one size. *)
Class Memory := { SIZE : nat; garbage : chars; garbage_size : List.length garbage = SIZE }.

Section logging.
Context {M : Memory} {K : Sink}.

Definition new_Buffer : FixedBuffer := FixedBuffer_init garbage.

Definition AsyncLogging_init : AsyncLogging :=
  mk_Async false (Some (bzero new_Buffer)) (Some (bzero new_Buffer)) [].

(** [append]; [None] is an access through a null pointer or outside an array. *)
Definition append (logline : chars) (a : AsyncLogging) : option AsyncLogging :=
  curr ← _curr_buff a;
  if avail curr >? Z.of_nat (List.length logline)
  then curr ← LogStream.append logline curr;
       Some (mk_Async (_running a) (Some curr) (_next_buff a) (_buffers a))
  else
    let buffers := _buffers a ++ [Some curr] in
    let curr := match _next_buff a with Some next => next | None => new_Buffer end in
    curr ← LogStream.append logline curr;
    Some (mk_Async (_running a) (Some curr) None buffers).

Definition set_running (b : bool) (a : AsyncLogging) : AsyncLogging :=
  mk_Async b (_curr_buff a) (_next_buff a) (_buffers a).

(** * The background thread *)

(** The local variables of [thread_func]. *)
Record Thread := mk_Thread {
  output : sink;
  buffer1 : BufferPtr;
  buffer2 : BufferPtr;
  buffers_to_write : BufferVector
}.

Definition thread_start (out : sink) : Thread :=
  mk_Thread out (Some (bzero new_Buffer)) (Some (bzero new_Buffer)) [].

(** The critical section after the wait. *)
Definition collect (a : AsyncLogging) (t : Thread) : AsyncLogging * Thread :=
  let buffers := _buffers a ++ [_curr_buff a] in
  let to_write := buffers_to_write t ++ buffers in
  match _next_buff a with
  | None => (mk_Async (_running a) (buffer1 t) (buffer2 t) [], mk_Thread (output t) None None to_write)
  | Some next => (mk_Async (_running a) (buffer1 t) (Some next) [],
                  mk_Thread (output t) None (buffer2 t) to_write)
  end.

(** [erase (begin, end - 2)]. *)
Definition discard (bs : BufferVector) : BufferVector :=
  if bool_decide (25 < List.length bs)%nat then drop (List.length bs - 2) bs else bs.

Fixpoint write_buffers (bs : BufferVector) (out : sink) : option sink :=
  match bs with
  | [] => Some out
  | b :: bs =>
      b ← b; s ← to_string b; out ← sink_append s out; write_buffers bs out
  end.

(** Taking back the last buffer of [bs] when [p] is null; [None] is the failed
    assertion. *)
Definition recycle (p : BufferPtr) (bs : BufferVector) : option (BufferPtr * BufferVector) :=
  match p with
  | Some b => Some (Some b, bs)
  | None => back ← last bs; b ← back; Some (Some (reset b), take (List.length bs - 1) bs)
  end.

(** The rest of an iteration. *)
Definition write_out (t : Thread) : option Thread :=
  let bs := discard (buffers_to_write t) in
  out ← write_buffers bs (output t);
  let bs := if bool_decide (2 < List.length bs)%nat then take 2 bs else bs in
  '(b1, bs) ← recycle (buffer1 t) bs;
  '(b2, _) ← recycle (buffer2 t) bs;
  out ← sink_flush out;
  Some (mk_Thread out b1 b2 []).

(** * The program *)

(** [Entry] is before the first [assert]; [Lock] before the critical section;
    [Waiting] inside [wait_for]; [Writing] behind the critical section; [Leaving]
    after the loop.  [Aborted] is the failure of the first [assert]. *)
Inductive Pc := Idle | Entry | Test | Lock | Waiting | Writing | Leaving | Done | Aborted | Crash.
#[global] Instance Pc_eq_dec : EqDecision Pc.
Proof. solve_decision. Defined.

(** [lines] and [discarded] are history: the lines given to [append], and whether
    the thread has ever thrown buffers away. *)
Record State := mk_State {
  shared : AsyncLogging;
  thread : Thread;
  pc : Pc;
  lines : list chars;
  discarded : bool
}.

Definition init (out : sink) : State :=
  mk_State AsyncLogging_init (mk_Thread out None None []) Idle [] false.

Definition start (s : State) : State :=
  mk_State (set_running true (shared s)) (thread s) Entry (lines s) (discarded s).
Definition client_append (l : chars) (s : State) : State :=
  match append l (shared s) with
  | Some a => mk_State a (thread s) (pc s) (lines s ++ [l]) (discarded s)
  | None => mk_State (shared s) (thread s) Crash (lines s ++ [l]) (discarded s)
  end.
Definition stop (s : State) : State :=
  mk_State (set_running false (shared s)) (thread s) (pc s) (lines s) (discarded s).

Definition goto (p : Pc) (s : State) : State :=
  mk_State (shared s) (thread s) p (lines s) (discarded s).
Definition set_thread (p : Pc) (o : option Thread) (s : State) : State :=
  match o with
  | Some t => mk_State (shared s) t p (lines s) (discarded s)
  | None => goto Crash s
  end.
Definition collect_step (s : State) : State :=
  let '(a, t) := collect (shared s) (thread s) in
  mk_State a t Writing (lines s) (discarded s).

(** One step of the thread.  [Waiting] ends by a notification, by the timeout or
    spuriously; the code goes on in the same way after each of them. *)
Definition thread_step (s : State) : option State :=
  match pc s with
  | Entry => Some (if _running (shared s)
                   then set_thread Test (Some (thread_start (output (thread s)))) s
                   else goto Aborted s)
  | Test => Some (goto (if _running (shared s) then Lock else Leaving) s)
  | Lock => Some (match _buffers (shared s) with [] => goto Waiting s | _ => collect_step s end)
  | Waiting => Some (collect_step s)
  | Writing =>
      let s' := set_thread Test (write_out (thread s)) s in
      Some (mk_State (shared s') (thread s') (pc s') (lines s')
        (discarded s || bool_decide (25 < List.length (buffers_to_write (thread s)))%nat))
  | Leaving =>
      Some (set_thread Done
        (out ← sink_flush (output (thread s));
         Some (mk_Thread out (buffer1 (thread s)) (buffer2 (thread s)) [])) s)
  | Idle | Done | Aborted | Crash => None
  end.

(** [start] is called once; the clients and [stop] may come at any time after. *)
Inductive step : State → State → Prop :=
| step_start s : pc s = Idle → step s (start s)
| step_append s l : pc s ≠ Crash → step s (client_append l s)
| step_stop s : pc s ≠ Idle → pc s ≠ Crash → step s (stop s)
| step_thread s s' : thread_step s = Some s' → step s s'.

(** Several steps of the thread, for evaluation. *)
Fixpoint thread_steps (n : nat) (s : State) : option State :=
  match n with O => Some s | S n => s ← thread_step s; thread_steps n s end.
End logging.

(** * The invariant *)

Section invariant.
Context {M : Memory} {K : Sink}.

Definition filled (p : BufferPtr) : Prop := ∃ b, p = Some b ∧ buffer_ok SIZE b.
Definition empty (p : BufferPtr) : Prop := ∃ b, p = Some b ∧ buffer_ok SIZE b ∧ content b = [].
Definition text (p : BufferPtr) : chars := match p with Some b => content b | None => [] end.
Definition texts (bs : BufferVector) : chars := List.concat (text <$> bs).

Lemma empty_filled p : empty p → filled p.
Proof. intros (b & ? & ? & _). by exists b. Qed.

Lemma empty_reset b : buffer_ok SIZE b → empty (Some (reset b)).
Proof. intros [Hd _]. exists (reset b). split_all; [done| |done]. split; [done|simpl; lia]. Qed.

Lemma empty_new : empty (Some new_Buffer) ∧ empty (Some (bzero new_Buffer)).
Proof.
  split; (eexists; split_all; [done| |done]); (split; [|simpl; lia]); simpl.
  - apply garbage_size.
  - rewrite length_replicate. apply garbage_size.
Qed.

Lemma texts_app bs bs' : texts (bs ++ bs') = texts bs ++ texts bs'.
Proof. unfold texts. by rewrite fmap_app, concat_app. Qed.

Lemma texts_singleton p : texts [p] = text p.
Proof. apply app_nil_r. Qed.

(** The lines a buffer can hold. *)
Definition fits (l : chars) : chars :=
  if bool_decide (List.length l < SIZE)%nat then l else [].
Definition accepted (ls : list chars) : chars := List.concat (fits <$> ls).

Lemma accepted_snoc ls l : accepted (ls ++ [l]) = accepted ls ++ fits l.
Proof. unfold accepted. rewrite fmap_app, concat_app. simpl. by rewrite app_nil_r. Qed.

(** Appending a line that fits, or leaving the buffer alone. *)
Lemma buffer_append_spec b l :
  buffer_ok SIZE b → avail b > Z.of_nat (List.length l) →
  ∃ b', LogStream.append l b = Some b' ∧ buffer_ok SIZE b' ∧ content b' = content b ++ fits l.
Proof.
  intros Hok Hav. destruct (append_spec SIZE b l Hok) as (b' & ? & ? & Hc). exists b'.
  split_all; [done|done|]. rewrite Hc. f_equal. unfold fits.
  destruct (Z.gtb_spec (avail b) (Z.of_nat (List.length l))); [|lia].
  rewrite bool_decide_true; [done|]. destruct Hok. unfold avail in Hav. lia.
Qed.

Lemma empty_append_spec b l :
  empty (Some b) →
  ∃ b', LogStream.append l b = Some b' ∧ buffer_ok SIZE b' ∧ content b' = fits l.
Proof.
  intros (? & [= <-] & Hok & He). destruct (append_spec SIZE b l Hok) as (b' & ? & ? & Hc).
  exists b'. split_all; [done|done|]. rewrite Hc, He. unfold fits.
  assert (avail b = Z.of_nat SIZE) as ->.
  { destruct Hok as [Hd Hle]. unfold avail, content in *. rewrite Hd.
    apply (f_equal List.length) in He. rewrite length_take in He. simpl in He. lia. }
  destruct (Z.gtb_spec (Z.of_nat SIZE) (Z.of_nat (List.length l))).
  - by rewrite bool_decide_true by lia.
  - by rewrite bool_decide_false by lia.
Qed.

(** The shared part: there is a current buffer, and a spare one unless a filled
    one is waiting for the thread. *)
Record async_ok (a : AsyncLogging) : Prop := {
  ao_curr : filled (_curr_buff a);
  ao_next : empty (_next_buff a) ∨ (_next_buff a = None ∧ _buffers a ≠ []);
  ao_buffers : Forall filled (_buffers a)
}.
Definition async_text (a : AsyncLogging) : chars := texts (_buffers a ++ [_curr_buff a]).

Lemma append_ok l a :
  async_ok a →
  ∃ a', append l a = Some a' ∧ async_ok a' ∧ async_text a' = async_text a ++ fits l.
Proof.
  intros [(b & Hb & Hok) Hnext Hbs]. unfold append. rewrite Hb. cbn [mbind option_bind].
  unfold async_text. rewrite Hb, !texts_app, !texts_singleton.
  destruct (Z.gtb_spec (avail b) (Z.of_nat (List.length l))) as [Hav|Hav].
  - destruct (buffer_append_spec b l Hok ltac:(lia)) as (b' & -> & ? & Hc).
    eexists. split; [done|]. split.
    + constructor; [by exists b'|exact Hnext|done].
    + simpl. rewrite texts_app, texts_singleton. simpl. by rewrite Hc, app_assoc.
  - assert (empty (Some match _next_buff a with Some next => next | None => new_Buffer end)) as He.
    { destruct Hnext as [Hn|[-> _]]; [|apply empty_new]. by destruct Hn as (n & -> & Hn); exists n. }
    destruct (empty_append_spec _ l He) as (b' & -> & ? & Hc).
    eexists. split; [done|]. split.
    + constructor; [by exists b'| |].
      * right. simpl. split; [done|]. by destruct (_buffers a).
      * simpl. apply Forall_app. split; [done|]. constructor; [by exists b|constructor].
    + simpl. rewrite !texts_app, !texts_singleton. simpl. by rewrite Hc.
Qed.

(** The thread outside and inside an iteration. *)
Definition thread_ready (t : Thread) : Prop :=
  sink_ok (output t) ∧ empty (buffer1 t) ∧ empty (buffer2 t) ∧ buffers_to_write t = [].
Definition thread_loaded (t : Thread) : Prop :=
  sink_ok (output t) ∧ buffer1 t = None ∧ Forall filled (buffers_to_write t) ∧
  (1 ≤ List.length (buffers_to_write t))%nat ∧
  (empty (buffer2 t) ∨ (buffer2 t = None ∧ 2 ≤ List.length (buffers_to_write t))%nat).

Lemma collect_ok a t :
  async_ok a → thread_ready t →
  let '(a', t') := collect a t in
  async_ok a' ∧ thread_loaded t' ∧ output t' = output t ∧ async_text a' = [] ∧
  texts (buffers_to_write t') = async_text a.
Proof.
  intros [Hc Hn Hbs] (Ho & H1 & H2 & Hw). unfold collect. rewrite Hw. simpl.
  assert (Forall filled (_buffers a ++ [_curr_buff a])) as Hf
    by (apply Forall_app; split; [done|by constructor]).
  assert (async_text (mk_Async (_running a) (buffer1 t) (buffer2 t) []) = []) as Ht.
  { unfold async_text. simpl. destruct H1 as (b & -> & _ & Hb). simpl. by rewrite texts_singleton. }
  destruct Hn as [(n & Hn & Hnok)|[Hn Hne]]; rewrite Hn.
  - split_all.
    + constructor; [by apply empty_filled|left; by exists n|constructor].
    + unfold thread_loaded. split_all; [done|done|done|simpl; rewrite length_app; simpl; lia|by left].
    + done.
    + exact Ht.
    + done.
  - split_all.
    + constructor; [by apply empty_filled|by left|constructor].
    + assert (List.length (_buffers a) ≠ 0%nat) by (by destruct (_buffers a)).
      unfold thread_loaded. split_all; [done|done|done|simpl; rewrite length_app; simpl; lia|].
      right. split; [done|]. simpl. rewrite length_app. simpl. lia.
    + done.
    + exact Ht.
    + done.
Qed.

Lemma write_buffers_ok bs out :
  sink_ok out → Forall filled bs →
  ∃ out', write_buffers bs out = Some out' ∧ sink_ok out' ∧ sink_text out' = sink_text out ++ texts bs.
Proof.
  intros Ho Hbs. revert out Ho. induction Hbs as [|p bs (b & -> & Hb) _ IH]; intros out Ho.
  - exists out. unfold texts. simpl. by rewrite app_nil_r.
  - cbn. unfold to_string. rewrite bool_decide_true by (destruct Hb; lia). cbn.
    destruct (sink_append_spec (content b) out Ho) as (out1 & Ha & Ho1 & Ht1).
    unfold content in Ha at 1. rewrite Ha. cbn.
    destruct (IH out1 Ho1) as (out' & ? & ? & Ht). exists out'. split_all; [done|done|].
    by rewrite Ht, Ht1, <- app_assoc.
Qed.

Lemma recycle_ok p bs :
  Forall filled bs → empty p ∨ (p = None ∧ 1 ≤ List.length bs)%nat →
  ∃ p' bs', recycle p bs = Some (p', bs') ∧ empty p' ∧ Forall filled bs' ∧
            (List.length bs ≤ S (List.length bs'))%nat.
Proof.
  intros Hbs [(b & -> & He)|[-> Hl]].
  - exists (Some b), bs. split_all; [done|by exists b|done|lia].
  - destruct (last_snoc_dec bs) as [->|(bs' & p & ->)]; [simpl in Hl; lia|].
    apply Forall_app in Hbs as [Hbs' Hp]. apply Forall_singleton in Hp as (b & -> & Hb).
    unfold recycle. rewrite last_snoc. cbn.
    eexists _, _. split; [done|]. split_all; [by apply empty_reset| |].
    + apply Forall_take, Forall_app. split; [done|]. constructor; [by exists b|constructor].
    + rewrite length_take, length_app. simpl. lia.
Qed.

Lemma discard_filled bs : Forall filled bs → Forall filled (discard bs).
Proof. unfold discard. case_bool_decide; [|done]. apply Forall_drop. Qed.

Lemma write_out_ok t :
  thread_loaded t →
  ∃ t', write_out t = Some t' ∧ thread_ready t' ∧
        sink_text (output t') = sink_text (output t) ++ texts (discard (buffers_to_write t)).
Proof.
  intros (Ho & H1 & Hf & Hl & H2). unfold write_out.
  pose proof (discard_filled _ Hf) as Hd.
  destruct (write_buffers_ok (discard (buffers_to_write t)) (output t) Ho Hd) as (out & -> & Ho' & Ht).
  cbn [mbind option_bind].
  set (bs := if bool_decide (2 < _)%nat then _ else _).
  assert (Forall filled bs) as Hbs by (subst bs; case_bool_decide; [by apply Forall_take|done]).
  assert ((1 ≤ List.length bs)%nat ∧ (List.length (buffers_to_write t) = 1%nat ∨ 2 ≤ List.length bs)%nat)
    as [Hl1 Hl2].
  { subst bs. unfold discard. repeat case_bool_decide; rewrite ?length_take, ?length_drop in *; lia. }
  destruct (recycle_ok (buffer1 t) bs Hbs) as (b1 & bs1 & -> & He1 & Hbs1 & Hlen1); [by right|].
  cbn [mbind option_bind].
  destruct (recycle_ok (buffer2 t) bs1 Hbs1) as (b2 & bs2 & -> & He2 & _).
  { destruct H2 as [?|[? ?]]; [by left|right; split; [done|lia]]. }
  cbn [mbind option_bind].
  destruct (sink_flush_spec out Ho') as (out' & -> & ? & Ht'). cbn [mbind option_bind].
  eexists. split; [done|]. split; [by split_all|]. simpl. by rewrite Ht', Ht.
Qed.

(** ** The program *)

(** All the bytes in the log file and on their way to it. *)
Definition logged (s : State) : chars :=
  sink_text (output (thread s)) ++ texts (buffers_to_write (thread s)) ++ async_text (shared s).

Definition thread_inv (s : State) : Prop :=
  match pc s with
  | Crash => False
  | Writing => thread_loaded (thread s)
  | Idle | Entry | Aborted | Done => sink_ok (output (thread s)) ∧ buffers_to_write (thread s) = []
  | _ => thread_ready (thread s)
  end.

Record state_ok (s : State) : Prop := {
  so_async : async_ok (shared s);
  so_thread : thread_inv s;
  so_sub : logged s `sublist_of` accepted (lines s);
  so_all : discarded s = false → logged s = accepted (lines s)
}.

Lemma logging_init_ok out : sink_ok out → sink_text out = [] → state_ok (init out).
Proof.
  intros Ho Ht. assert (logged (init out) = []) as Hl.
  { unfold logged, async_text, init. simpl. by rewrite Ht. }
  constructor.
  - constructor; [apply empty_filled, empty_new|left; apply empty_new|constructor].
  - done.
  - by rewrite Hl.
  - by rewrite Hl.
Qed.

Lemma client_append_ok l s : pc s ≠ Crash → state_ok s → state_ok (client_append l s).
Proof.
  intros _ [Ha Ht Hsub Hall]. unfold client_append.
  destruct (append_ok l (shared s) Ha) as (a' & -> & Ha' & Htext).
  assert (logged (mk_State a' (thread s) (pc s) (lines s ++ [l]) (discarded s)) = logged s ++ fits l) as Hl.
  { unfold logged. simpl. by rewrite Htext, !app_assoc. }
  constructor; [done|done| |].
  - rewrite Hl. simpl. rewrite accepted_snoc. by apply sublist_app.
  - intros Hd. rewrite Hl. simpl. rewrite accepted_snoc. f_equal. by apply Hall.
Qed.

(** A step that moves no text. *)
Lemma same_text_ok s s' :
  state_ok s → async_ok (shared s') → thread_inv s' → logged s' = logged s → lines s' = lines s →
  discarded s' = discarded s → state_ok s'.
Proof.
  intros [_ _ Hsub Hall] Ha Ht Hl Hn Hd. constructor; [done|done| |].
  - by rewrite Hl, Hn.
  - rewrite Hl, Hn, Hd. done.
Qed.

Lemma collect_step_ok s : state_ok s → thread_ready (thread s) → state_ok (collect_step s).
Proof.
  intros Hok Hr. pose proof (collect_ok (shared s) (thread s) (so_async s Hok) Hr) as Hc.
  pose proof Hr as (_ & _ & _ & Hw).
  unfold collect_step. destruct (collect (shared s) (thread s)) as [a t].
  destruct Hc as (Ha & Ht & Ho & Hempty & Htext).
  apply (same_text_ok s); try done. unfold logged. simpl.
  by rewrite Ho, Hempty, Htext, Hw, app_nil_r.
Qed.

Lemma discard_sublist bs : texts (discard bs) `sublist_of` texts bs.
Proof.
  unfold discard. case_bool_decide; [|done].
  rewrite <- (take_drop (List.length bs - 2) bs) at 3. rewrite texts_app.
  by apply sublist_inserts_l.
Qed.

Lemma writing_ok s s' :
  state_ok s → pc s = Writing → thread_step s = Some s' → state_ok s'.
Proof.
  intros [Ha Ht Hsub Hall] Hpc Hs. unfold thread_step in Hs. rewrite Hpc in Hs.
  unfold thread_inv in Ht. rewrite Hpc in Ht.
  destruct (write_out_ok (thread s) Ht) as (t' & Hw & Hr & Htext). rewrite Hw in Hs.
  simpl in Hs. injection Hs as <-. pose proof Hr as (_ & _ & _ & Hnil).
  constructor; [done|exact Hr| |].
  - etrans; [|exact Hsub]. unfold logged. simpl. rewrite Htext, Hnil, <- app_assoc. simpl.
    apply sublist_app; [done|]. apply sublist_app; [apply discard_sublist|done].
  - simpl. intros [Hd Hb]%orb_false_iff. rewrite <- (Hall Hd). unfold logged. simpl.
    rewrite Htext, Hnil, <- app_assoc. simpl. unfold discard. by rewrite Hb.
Qed.

Lemma thread_step_ok s s' : state_ok s → thread_step s = Some s' → state_ok s'.
Proof.
  intros Hok Hs. pose proof Hok as [Ha Ht _ _].
  destruct (pc s) eqn:Hpc; unfold thread_step in Hs; rewrite Hpc in Hs; simplify_eq;
    unfold thread_inv in Ht; rewrite Hpc in Ht.
  - (* Entry *)
    destruct Ht as [Ho Hw]. destruct (_running (shared s)).
    + apply (same_text_ok s); try done; [by repeat split; try apply empty_new|].
      unfold logged. simpl. by rewrite Hw.
    + by apply (same_text_ok s).
  - (* Test *) apply (same_text_ok s); try done. unfold thread_inv, goto. simpl.
    by destruct (_running (shared s)).
  - (* Lock *) destruct (_buffers (shared s)); [|by apply collect_step_ok].
    by apply (same_text_ok s).
  - (* Waiting *) by apply collect_step_ok.
  - (* Writing *) apply (writing_ok s); [done|done|]. unfold thread_step. by rewrite Hpc.
  - (* Leaving *)
    destruct Ht as (Ho & _ & _ & Hw).
    destruct (sink_flush_spec (output (thread s)) Ho) as (out & -> & Ho' & Htext).
    apply (same_text_ok s); try done. unfold logged. simpl. by rewrite Htext, Hw.
Qed.

Lemma logging_step_ok s s' : state_ok s → step s s' → state_ok s'.
Proof.
  intros Hok Hs. pose proof Hok as [[Hc Hn Hb] Ht _ _].
  destruct Hs as [s Hpc|s l Hpc|s Hi Hpc|s s' Hs].
  - apply (same_text_ok s); try done. unfold thread_inv in *. by rewrite Hpc in Ht.
  - by apply client_append_ok.
  - by apply (same_text_ok s).
  - by apply (thread_step_ok s).
Qed.

Lemma reachable_state_ok out s :
  sink_ok out → sink_text out = [] → reachable (eq (init out)) step s → state_ok s.
Proof.
  intros Ho Ht. apply invariant_reachable; [|apply logging_step_ok].
  intros ? <-. by apply logging_init_ok.
Qed.


Lemma test_step s :
  pc s = Test → thread_step s = Some (goto (if _running (shared s) then Lock else Leaving) s).
Proof. intros Hpc. unfold thread_step. by rewrite Hpc. Qed.

Lemma lock_step s :
  thread_step (goto Lock s)
  = Some (match _buffers (shared s) with [] => goto Waiting s | _ => collect_step s end).
Proof. done. Qed.

Lemma wait_step s : thread_step (goto Waiting s) = Some (collect_step s).
Proof. done. Qed.

(** A pass of the thread with nothing between its steps. *)
Definition pass (s : State) : nat := match _buffers (shared s) with [] => 4 | _ => 3 end.

(** A pass of the background thread's loop that no client interrupts returns to
    the loop test with every buffer empty, and the log file then holds all the lines
    accepted so far, unless more than 25 buffers had piled up: then only the last two
    of them are written. *)
Theorem async_logging_pass out s :
  sink_ok out → sink_text out = [] → reachable (eq (init out)) step s →
  pc s = Test → _running (shared s) = true →
  ∃ s', thread_steps (pass s) s = Some s' ∧ pc s' = Test ∧
    async_text (shared s') = [] ∧
    sink_text (output (thread s'))
      = sink_text (output (thread s)) ++ texts (discard (_buffers (shared s) ++ [_curr_buff (shared s)])) ∧
    (discarded s' = false → sink_text (output (thread s')) = accepted (lines s)).
Proof.
  intros Ho Hnil Hr Hpc Hrun. pose proof (reachable_state_ok out s Ho Hnil Hr) as Hok.
  pose proof Hok as [Ha Ht _ _]. unfold thread_inv in Ht. rewrite Hpc in Ht.
  pose proof (collect_ok (shared s) (thread s) Ha Ht) as Hc.
  pose proof Ht as (_ & _ & _ & Hw).
  assert (buffers_to_write (collect (shared s) (thread s)).2 = _buffers (shared s) ++ [_curr_buff (shared s)])
    as Hbw by (unfold collect; rewrite Hw; by destruct (_next_buff (shared s))).
  assert (thread_steps (pass s) s = thread_step (collect_step s)) as ->.
  { unfold pass. destruct (_buffers (shared s)) eqn:Hb; cbn [thread_steps];
      rewrite (test_step s Hpc), Hrun; cbn [mbind option_bind];
      rewrite lock_step, Hb; cbn [mbind option_bind]; [rewrite wait_step; cbn [mbind option_bind]|];
      change (collect_step (goto _ _)) with (collect_step s); by destruct (thread_step _). }
  unfold collect_step. destruct (collect (shared s) (thread s)) as [a t]. simpl in Hbw.
  destruct Hc as (Ha' & Hl & Hout & Hempty & Htext).
  destruct (write_out_ok t Hl) as (t' & Hwo & Hready & Ht').
  unfold thread_step. cbn. rewrite Hwo. eexists. split; [done|]. cbn.
  rewrite Ht', Hout, Hbw. split_all; [done|done|done|].
  intros [Hd Hb]%orb_false_iff. rewrite <- (so_all s Hok Hd). unfold logged. rewrite Hw.
  unfold discard, async_text. by rewrite Hb.
Qed.

(** [stop] does not wait for the lines on their way: a line appended after the
    thread's last pass and before [stop] is never written. *)
Theorem stop_loses_lines out l :
  sink_ok out → sink_text out = [] → (0 < List.length l < SIZE)%nat →
  ∃ s, reachable (eq (init out)) step s ∧ pc s = Done ∧ discarded s = false ∧
       accepted (lines s) = l ∧ sink_text (output (thread s)) = [].
Proof.
  intros Ho Hnil Hl. pose (s1 := set_thread Test (Some (thread_start out)) (start (init out))).
  assert (state_ok s1) as Hok1.
  { apply (thread_step_ok (start (init out))); [|done].
    apply (logging_step_ok (init out)); [by apply logging_init_ok|by apply step_start]. }
  destruct (append_ok l (shared s1) (so_async _ Hok1)) as (a & Ha & _).
  destruct (sink_flush_spec out Ho) as (out' & Hf & _ & Ht').
  eexists. split.
  - exists (init out). split; [done|].
    eapply rtc_l; [by apply step_start|].
    eapply rtc_l; [by apply (step_thread _ s1)|].
    eapply rtc_l; [by apply (step_append s1 l)|]. unfold client_append. rewrite Ha.
    eapply rtc_l; [by apply step_stop|].
    eapply rtc_l; [by apply step_thread, test_step|].
    eapply rtc_l; [|apply rtc_refl]. apply step_thread. cbn. by rewrite Hf.
  - cbn. split_all; [done|done| |by rewrite Ht'].
    unfold accepted, fits. cbn. rewrite bool_decide_true by lia. apply app_nil_r.
Qed.


(** A [stop] that comes before the new thread has run fails its first
    assertion. *)
Theorem early_stop_aborts out :
  ∃ s, reachable (eq (init out)) step s ∧ pc s = Aborted.
Proof.
  exists (goto Aborted (stop (start (init out)))). split; [|done].
  exists (init out). split; [done|].
  eapply rtc_l; [by apply step_start|]. eapply rtc_l; [by apply step_stop|].
  eapply rtc_l; [by apply step_thread|]. apply rtc_refl.
Qed.
End invariant.

(** * Evaluation *)

Section evaluation.
Context {M : Memory} {K : Sink}.

Inductive Action := AStart | AAppend (l : chars) | AStop | AThread.

Definition perform (x : Action) (s : State) : option State :=
  match x with
  | AStart => if decide (pc s = Idle) then Some (start s) else None
  | AAppend l => if decide (pc s = Crash) then None else Some (client_append l s)
  | AStop => if decide (pc s = Idle ∨ pc s = Crash) then None else Some (stop s)
  | AThread => thread_step s
  end.
Fixpoint performs (xs : list Action) (s : State) : option State :=
  match xs with [] => Some s | x :: xs => s ← perform x s; performs xs s end.

Lemma performs_reachable out xs s :
  performs xs (init out) = Some s → reachable (eq (init out)) step s.
Proof.
  intros H. exists (init out). split; [done|]. revert H. generalize (init out).
  induction xs as [|x xs IH]; intros s0 H; cbn in H; simplify_eq; [done|].
  destruct (perform x s0) as [s1|] eqn:Hx; [|done]. eapply rtc_l; [|by apply IH].
  destruct x; cbn in Hx; repeat case_decide; simplify_eq.
  - by apply step_start.
  - by apply step_append.
  - apply step_stop; tauto.
  - by apply step_thread.
Qed.
End evaluation.

(** Buffers of eight bytes, and the log file of [LogFile.v]. *)
Definition demo_memory : Memory := {| SIZE := 8; garbage := replicate 8 "?"%char; garbage_size := eq_refl |}.
Definition demo_sink : Sink := log_sink demo_clock demo_put_time "7" demo_fwrite demo_fwrite_ok.
Definition demo_out : LogFile :=
  default demo_log (LogFile_init demo_clock demo_put_time "7" "demo" 1000 false 3).

Definition demo_actions : list Action :=
  [AStart; AThread; AAppend (list_ascii_of_string "one,"); AAppend (list_ascii_of_string "twelve,")].

(** The program after [demo_actions]: at the loop test, with two buffers filled. *)
Definition demo_state : State (K:=demo_sink) :=
  default (init (M:=demo_memory) (K:=demo_sink) demo_out)
    (performs (M:=demo_memory) (K:=demo_sink) demo_actions (init (M:=demo_memory) (K:=demo_sink) demo_out)).

Lemma demo_out_ok : log_ok demo_out ∧ log_text demo_out = [].
Proof.
  split; [|reflexivity]. split; [|vm_compute; split; congruence].
  eexists. split; [reflexivity|]. split; [reflexivity|]. vm_compute; lia.
Qed.

Lemma demo_state_reachable :
  reachable (eq (init (M:=demo_memory) (K:=demo_sink) demo_out)) (step (M:=demo_memory)) demo_state.
Proof. apply (performs_reachable _ demo_actions). vm_compute. reflexivity. Qed.


Lemma async_pass_witness :
  ∃ s', thread_steps (M:=demo_memory) (pass demo_state) demo_state = Some s' ∧ pc s' = Test ∧
    async_text (shared s') = [] ∧
    log_text (output (thread s'))
      = log_text (output (thread demo_state))
        ++ texts (discard (_buffers (shared demo_state) ++ [_curr_buff (shared demo_state)])) ∧
    (discarded s' = false → log_text (output (thread s')) = accepted (M:=demo_memory) (lines demo_state)).
Proof.
  apply (async_logging_pass (M:=demo_memory) (K:=demo_sink) demo_out);
    [apply demo_out_ok|apply demo_out_ok|apply demo_state_reachable|vm_compute; reflexivity..].
Defined.

Lemma stop_loses_witness :
  ∃ s, reachable (eq (init (M:=demo_memory) (K:=demo_sink) demo_out)) (step (M:=demo_memory)) s ∧
       pc s = Done ∧ discarded s = false ∧
       accepted (M:=demo_memory) (lines s) = list_ascii_of_string "bye" ∧
       log_text (output (thread s)) = [].
Proof.
  apply (stop_loses_lines (M:=demo_memory) (K:=demo_sink) demo_out (list_ascii_of_string "bye"));
    [apply demo_out_ok|apply demo_out_ok|vm_compute; lia].
Defined.
