(* ===== verification/StockFactory.v ===== *)
(** The factories of shared stocks of
    [src/books/ldxcfwqbc/01_thread_safe_object_management/stock_factory.cpp] and
    [stock_factory_weak_ref.cpp].

    [shared_ptr] and [weak_ptr] are modelled by the reference counts of the
    standard library: a strong count per object, a deleter that starts when the count
    reaches zero, and [lock], which succeeds exactly when the count is not zero.  The
    deleter runs outside the mutex of the factory, so its steps interleave with the
    calls of other threads.  [None] is a use of an object that is not there. *)

From S2P Require Import Prelude.

(** A deleter in progress: before it locks the factory, inside [remove_stock] (a
    shared pointer keeps the factory alive), before [delete], and behind it, still
    holding the factory or not. *)
Inductive Phase := DLock | DErase | DDelete (holds : bool) | DRelease.
#[global] Instance Phase_eq_dec : EqDecision Phase.
Proof. solve_decision. Defined.

(** [stocks] are the [Stock] objects that exist and their names, [strong] the
    counts of the control blocks ever made, [factory] the count of the factory and
    [_stocks] its map, in which [None] is an empty weak pointer. *)
Record World := mk_World {
  factory : nat;
  _stocks : gmap string (option nat);
  stocks : gmap nat string;
  strong : gmap nat nat;
  deleters : list (nat * Phase)
}.

Definition use_count (w : World) (p : nat) : nat := default 0 (strong w !! p).

Definition set_strong (p n : nat) (w : World) : World :=
  mk_World (factory w) (_stocks w) (stocks w) (<[p := n]> (strong w)) (deleters w).
Definition set_stocks (m : gmap string (option nat)) (w : World) : World :=
  mk_World (factory w) m (stocks w) (strong w) (deleters w).
Definition set_deleters (l : list (nat * Phase)) (w : World) : World :=
  mk_World (factory w) (_stocks w) (stocks w) (strong w) l.

(** [make_shared<StockFactory> ()]. *)
Definition StockFactory_init : World := mk_World 1 ∅ ∅ ∅ [].

(** [new Stock (key)] with a new control block. *)
Definition new_Stock (key : string) (w : World) : nat * World :=
  let p := fresh (dom (strong w)) in
  (p, mk_World (factory w) (_stocks w) (<[p := key]> (stocks w)) (<[p := 1]> (strong w)) (deleters w)).

(** [weak_ptr::lock]. *)
Definition weak_lock (r : option nat) (w : World) : option (nat * World) :=
  p ← r;
  if decide (use_count w p = 0) then None else Some (p, set_strong p (S (use_count w p)) w).

(** Copying and dropping a [shared_ptr]; the last drop starts the deleter. *)
Definition copy (p : nat) (w : World) : option World :=
  if decide (use_count w p = 0) then None else Some (set_strong p (S (use_count w p)) w).
Definition drop_stock (p : nat) (w : World) : option World :=
  match use_count w p with
  | 0 => None
  | S n =>
      let w := set_strong p n w in
      Some (if decide (n = 0) then set_deleters ((p, DLock) :: deleters w) w else w)
  end.

(** Copying and dropping a pointer to the factory; its map dies with it. *)
Definition hold_factory (w : World) : option World :=
  if decide (factory w = 0) then None
  else Some (mk_World (S (factory w)) (_stocks w) (stocks w) (strong w) (deleters w)).
Definition drop_factory (w : World) : option World :=
  match factory w with
  | 0 => None
  | S n => Some (mk_World n (if decide (n = 0) then ∅ else _stocks w) (stocks w) (strong w) (deleters w))
  end.

Definition stock_count (w : World) : nat := size (_stocks w).
(** The keys [show_stocks] prints. *)
Definition show_stocks (w : World) : list string :=
  omap (λ e, '(p, _) ← weak_lock e.2 w; Some e.1) (map_to_list (_stocks w)).

(** [erase (stock->key ())] in [remove_stock]; reading the key needs the object. *)
Definition erase_key (p : nat) (w : World) : option World :=
  key ← stocks w !! p; Some (set_stocks (delete key (_stocks w)) w).
(** [delete stock]. *)
Definition delete_stock (p : nat) (w : World) : option World :=
  _ ← stocks w !! p;
  Some (mk_World (factory w) (_stocks w) (delete p (stocks w)) (strong w) (deleters w)).

(** * stock_factory_weak_ref.cpp *)

Module WeakRef.
(** [get], under the mutex: [_stocks[key]] makes an empty entry when there is none. *)
Definition get (key : string) (w : World) : option (nat * World) :=
  if decide (factory w = 0) then None
  else
    let stock_ref := default None (_stocks w !! key) in
    let w := set_stocks (<[key := stock_ref]> (_stocks w)) w in
    match weak_lock stock_ref w with
    | Some r => Some r
    | None =>
        let '(p, w) := new_Stock key w in
        Some (p, set_stocks (<[key := Some p]> (_stocks w)) w)
    end.

(** One step of the deleter of [p]: the state and the phase it goes on with. *)
Definition deleter_step (p : nat) (ph : Phase) (w : World) : option (World * option Phase) :=
  match ph with
  | DLock => match hold_factory w with
             | Some w => Some (w, Some DErase)
             | None => Some (w, Some (DDelete false))
             end
  | DErase => w ← erase_key p w; Some (w, Some (DDelete true))
  | DDelete holds =>
      w ← delete_stock p w; Some (w, if holds then Some DRelease else None)
  | DRelease => w ← drop_factory w; Some (w, None)
  end.
End WeakRef.

(** * stock_factory.cpp *)

Module NoAssign.
(** [stock_ref] is not assigned the new stock. *)
Definition get (key : string) (w : World) : option (nat * World) :=
  if decide (factory w = 0) then None
  else
    let stock_ref := default None (_stocks w !! key) in
    let w := set_stocks (<[key := stock_ref]> (_stocks w)) w in
    match weak_lock stock_ref w with
    | Some r => Some r
    | None => Some (new_Stock key w)
    end.

(** [remove_stock_weak] deletes the stock only when the factory still exists. *)
Definition deleter_step (p : nat) (ph : Phase) (w : World) : option (World * option Phase) :=
  match ph with
  | DLock => match hold_factory w with
             | Some w => Some (w, Some DErase)
             | None => Some (w, None)
             end
  | DErase => w ← erase_key p w; Some (w, Some (DDelete true))
  | DDelete holds =>
      w ← delete_stock p w; Some (w, if holds then Some DRelease else None)
  | DRelease => w ← drop_factory w; Some (w, None)
  end.
End NoAssign.

(** * The steps of a program *)

Section program.
Context (get : string → World → option (nat * World))
        (deleter_step : nat → Phase → World → option (World * option Phase)).

(** The [i]-th deleter takes a step. *)
Definition run_deleter (i : nat) (w : World) : option World :=
  '(p, ph) ← deleters w !! i;
  '(w, o) ← deleter_step p ph w;
  Some (set_deleters
          match o with Some ph => <[i := (p, ph)]> (deleters w) | None => delete i (deleters w) end w).

(** A client uses only pointers it holds: the factory while its count, less the
    deleters that hold it, is positive, and a stock while its count is. *)
Definition holding (ph : Phase) : bool :=
  match ph with DErase | DRelease => true | DDelete b => b | DLock => false end.
Definition client_factory (w : World) : nat :=
  factory w - length (filter (λ e, holding e.2 = true) (deleters w)).

(** [None] is undefined behaviour. *)
Inductive step (w : World) : option World → Prop :=
| step_get key : 0 < client_factory w → step w (snd <$> get key w)
| step_copy p : 0 < use_count w p → step w (copy p w)
| step_drop p : 0 < use_count w p → step w (drop_stock p w)
| step_copy_factory : 0 < client_factory w → step w (hold_factory w)
| step_drop_factory : 0 < client_factory w → step w (drop_factory w)
| step_deleter i : i < length (deleters w) → step w (run_deleter i w).

Definition safe_step (w w' : World) : Prop := step w (Some w').
End program.

(** The whole deleter at once, as when no other thread interferes. *)
Fixpoint run_all (ds : nat → Phase → World → option (World * option Phase)) (fuel : nat) (w : World)
    : option World :=
  match fuel, deleters w with
  | _, [] => Some w
  | O, _ => None
  | S f, _ => w ← run_deleter ds 0 w; run_all ds f w
  end.
(** Dropping a pointer and, if it was the last, running the deleter to its end. *)
Definition release (ds : nat → Phase → World → option (World * option Phase)) (p : nat) (w : World)
    : option World :=
  w ← drop_stock p w; run_all ds 4 w.

(** * The invariant of both versions *)

(** The stocks whose deleter has not deleted them yet, and the deleters that keep
    the factory alive. *)
Definition pending (ds : list (nat * Phase)) : list nat :=
  (filter (λ e, e.2 ≠ DRelease) ds).*1.
Definition holders (ds : list (nat * Phase)) : list (nat * Phase) :=
  filter (λ e, holding e.2 = true) ds.

(** [ds] are the deleters; their order does not matter. *)
Record world_ok (w : World) (ds : list (nat * Phase)) : Prop := {
  wo_held p : 0 < use_count w p → is_Some (stocks w !! p) ∧ p ∉ pending ds;
  wo_pending p : p ∈ pending ds → is_Some (stocks w !! p) ∧ use_count w p = 0;
  wo_nodup : NoDup (pending ds);
  wo_dom p : is_Some (stocks w !! p) → p ∈ dom (strong w);
  wo_holders : length (holders ds) ≤ factory w
}.

(** No stock is lost: it is held by somebody or about to be deleted. *)
Definition no_leak (w : World) (ds : list (nat * Phase)) : Prop :=
  ∀ p, is_Some (stocks w !! p) → 0 < use_count w p ∨ p ∈ pending ds.

#[global] Instance pending_perm : Proper ((≡ₚ) ==> (≡ₚ)) pending.
Proof. intros ds ds' H. unfold pending. by rewrite H. Qed.
#[global] Instance holders_perm : Proper ((≡ₚ) ==> (≡ₚ)) holders.
Proof. intros ds ds' H. unfold holders. by rewrite H. Qed.
#[global] Instance world_ok_perm w : Proper ((≡ₚ) ==> iff) (world_ok w).
Proof.
  assert (∀ ds ds', ds ≡ₚ ds' → world_ok w ds → world_ok w ds') as Hone.
  { intros ds ds' H [H1 H2 H3 H4 H5]. constructor; intros *; rewrite <- ?H; auto. }
  intros ds ds' H. split; apply Hone; by rewrite H.
Qed.
#[global] Instance no_leak_perm w : Proper ((≡ₚ) ==> iff) (no_leak w).
Proof. intros ds ds' H. unfold no_leak. by setoid_rewrite H. Qed.

Lemma pending_cons p ph ds :
  pending ((p, ph) :: ds) = if decide (ph = DRelease) then pending ds else p :: pending ds.
Proof. unfold pending. rewrite filter_cons. simpl. repeat case_decide; naive_solver. Qed.
Lemma holders_cons p ph ds :
  length (holders ((p, ph) :: ds)) = (if holding ph then 1 else 0) + length (holders ds).
Proof. unfold holders. rewrite filter_cons. simpl. destruct ph as [| |[]|]; done. Qed.

Lemma use_count_set p n q w :
  use_count (set_strong p n w) q = if decide (q = p) then n else use_count w q.
Proof.
  unfold use_count, set_strong. simpl. case_decide; subst; [by simplify_map_eq|].
  by rewrite lookup_insert_ne.
Qed.

(** Changing a positive count to another positive one. *)
Lemma set_strong_ok p n w ds :
  0 < use_count w p → 0 < n → world_ok w ds →
  world_ok (set_strong p n w) ds ∧ (no_leak w ds → no_leak (set_strong p n w) ds).
Proof.
  intros Hp Hn [H1 H2 H3 H4 H5]. pose proof (H1 p Hp) as [Hs Hnp].
  split.
  - constructor; simpl; [| |done| |done].
    + intros q. rewrite use_count_set. case_decide; [by subst|apply H1].
    + intros q Hq. rewrite use_count_set. case_decide; [by subst|by apply H2].
    + intros q Hq. rewrite dom_insert. apply elem_of_union_r. by apply H4.
  - intros Hl q Hq. rewrite use_count_set. case_decide; [by left|by apply Hl].
Qed.

Lemma drop_stock_ok p w :
  0 < use_count w p → world_ok w (deleters w) →
  ∃ w', drop_stock p w = Some w' ∧ world_ok w' (deleters w') ∧
        (no_leak w (deleters w) → no_leak w' (deleters w')).
Proof.
  intros Hp Hok. unfold drop_stock. destruct (use_count w p) as [|n] eqn:Hu; [lia|].
  eexists. split; [done|]. case_decide as Hn.
  - subst n. pose proof Hok as [H1 H2 H3 H4 H5].
    assert (0 < use_count w p) as Hp' by lia. pose proof (H1 p Hp') as [Hs Hnp].
    unfold set_deleters. cbn [deleters]. split.
    + constructor; unfold use_count in *; cbn [strong stocks factory set_strong deleters];
        rewrite ?pending_cons, ?decide_False by done.
      * intros q. destruct (decide (q = p)) as [->|].
        { rewrite lookup_insert_eq. simpl. lia. }
        rewrite lookup_insert_ne by done. intros Hq. specialize (H1 q Hq) as [? ?].
        split; [done|]. rewrite not_elem_of_cons. done.
      * intros q. rewrite elem_of_cons. intros [->|Hq].
        { split; [done|]. by rewrite lookup_insert_eq. }
        rewrite lookup_insert_ne by (intros ->; done). by apply H2.
      * by constructor.
      * intros q Hq. rewrite dom_insert. apply elem_of_union_r. by apply H4.
      * rewrite holders_cons. simpl. done.
    + intros Hl q Hq. cbn [stocks set_strong] in Hq. unfold use_count. cbn [strong set_strong].
      rewrite pending_cons, decide_False by done.
      destruct (decide (q = p)) as [->|]; [right; left|].
      rewrite lookup_insert_ne by done. destruct (Hl q Hq); [by left|right; by right].
  - apply set_strong_ok; [lia|lia|done].
Qed.

Lemma new_Stock_ok key w :
  world_ok w (deleters w) →
  let '(p, w') := new_Stock key w in
  p ∉ dom (strong w) ∧ world_ok w' (deleters w') ∧
  (no_leak w (deleters w) → no_leak w' (deleters w')).
Proof.
  intros [H1 H2 H3 H4 H5]. unfold new_Stock. set (p := fresh (dom (strong w))).
  assert (p ∉ dom (strong w)) as Hf by apply is_fresh.
  assert (∀ q, is_Some (stocks w !! q) → q ≠ p) as Hne by (intros q Hq ->; auto).
  split; [done|]. split.
  - constructor; unfold use_count in *; cbn [strong stocks factory deleters]; [| |done| |done].
    + intros q. destruct (decide (q = p)) as [->|].
      * intros _. rewrite lookup_insert_eq. split; [by eexists|].
        intros Hp. destruct (H2 p Hp) as [Hs _]. by apply Hf, H4.
      * rewrite !lookup_insert_ne by done. apply H1.
    + intros q Hq. destruct (H2 q Hq) as [Hs Hu]. specialize (Hne q Hs).
      by rewrite !lookup_insert_ne by done.
    + intros q. rewrite dom_insert. intros [?|[_ Hq]]%lookup_insert_is_Some.
      * subst. by apply elem_of_union_l, elem_of_singleton.
      * apply elem_of_union_r. by apply H4.
  - intros Hl q Hq. unfold use_count. cbn [strong stocks deleters] in *.
    destruct (decide (q = p)) as [->|]; [left; rewrite lookup_insert_eq; simpl; lia|].
    rewrite lookup_insert_ne in Hq by done. rewrite lookup_insert_ne by done. by apply Hl.
Qed.

(** The map is not part of the invariant. *)
Lemma set_stocks_ok m w ds :
  world_ok w ds → world_ok (set_stocks m w) ds ∧ (no_leak w ds → no_leak (set_stocks m w) ds).
Proof. intros [H1 H2 H3 H4 H5]. split; [by constructor|done]. Qed.

Lemma weak_lock_ok r w w' p :
  world_ok w (deleters w) → weak_lock r w = Some (p, w') →
  world_ok w' (deleters w') ∧ (no_leak w (deleters w) → no_leak w' (deleters w')).
Proof.
  intros Hok. unfold weak_lock. destruct r as [q|]; simpl; [|done].
  case_decide; intros ?; simplify_eq. apply (set_strong_ok p _ w); [lia|lia|done].
Qed.

Lemma factory_ok n m w ds :
  world_ok w ds → length (holders ds) ≤ n →
  world_ok (mk_World n m (stocks w) (strong w) (deleters w)) ds.
Proof. intros [H1 H2 H3 H4 _] Hn. by constructor. Qed.

(** The deleter of [p] goes on to another phase before [delete]. *)
Lemma move_ok n m p ph ph' w ds :
  ph ≠ DRelease → ph' ≠ DRelease → world_ok w ((p, ph) :: ds) →
  (if holding ph' then 1 else 0) + length (holders ds) ≤ n →
  let w' := mk_World n m (stocks w) (strong w) (deleters w) in
  world_ok w' ((p, ph') :: ds) ∧ (no_leak w ((p, ph) :: ds) → no_leak w' ((p, ph') :: ds)).
Proof.
  intros Hp Hp' [H1 H2 H3 H4 H5] Hn.
  rewrite pending_cons, decide_False in H1, H2, H3 by done.
  split.
  - constructor; rewrite ?pending_cons, ?decide_False, ?holders_cons by done; done.
  - unfold no_leak. by rewrite !pending_cons, !decide_False.
Qed.

(** The deleter of [p] ends without deleting it. *)
Lemma forget_ok p ph w ds : ph ≠ DRelease → world_ok w ((p, ph) :: ds) → world_ok w ds.
Proof.
  intros Hp [H1 H2 H3 H4 H5]. rewrite holders_cons in H5.
  rewrite pending_cons, decide_False in H1, H2, H3 by done. constructor.
  - intros q Hq. destruct (H1 q Hq) as [? Hn]. split; [done|]. intros ?. apply Hn. by right.
  - intros q Hq. apply H2. by right.
  - by apply NoDup_cons in H3 as [_ ?].
  - done.
  - lia.
Qed.

(** [delete] of the pending stock [p]. *)
Lemma delete_ok p b w ds :
  world_ok w ((p, DDelete b) :: ds) →
  let ds' := if b then (p, DRelease) :: ds else ds in
  ∃ w', delete_stock p w = Some w' ∧ deleters w' = deleters w ∧ world_ok w' ds' ∧
        (no_leak w ((p, DDelete b) :: ds) → no_leak w' ds').
Proof.
  intros [H1 H2 H3 H4 H5].
  rewrite pending_cons, decide_False in H1, H2, H3 by done.
  rewrite holders_cons in H5. apply NoDup_cons in H3 as [Hnew H3].
  destruct (H2 p ltac:(by left)) as [[s Hs] Hu].
  assert (pending (if b then (p, DRelease) :: ds else ds) = pending ds) as Hpd.
  { destruct b; [|done]. by rewrite pending_cons, decide_True. }
  unfold delete_stock. rewrite Hs. cbn. eexists. split; [done|]. split; [done|].
  split.
  - constructor; rewrite ?Hpd; unfold use_count in *; cbn [strong stocks factory]; [| |done| |].
    + intros q Hq. assert (q ≠ p) by (intros ->; lia).
      destruct (H1 q Hq) as [? Hn]. rewrite lookup_delete_ne by done.
      split; [done|]. intros ?. apply Hn. by right.
    + intros q Hq. rewrite lookup_delete_ne by (intros ->; done). apply H2. by right.
    + intros q. rewrite lookup_delete_is_Some. intros [_ Hq]. by apply H4.
    + destruct b; rewrite ?holders_cons; simpl in *; lia.
  - intros Hl q. rewrite Hpd. cbn [stocks]. rewrite lookup_delete_is_Some. intros [Hne Hq].
    destruct (Hl q Hq) as [?|Hq']; [by left|right].
    rewrite pending_cons, decide_False in Hq' by done. apply elem_of_cons in Hq' as [->|?]; done.
Qed.

Lemma release_factory_ok p w ds :
  world_ok w ((p, DRelease) :: ds) →
  ∃ w', drop_factory w = Some w' ∧ deleters w' = deleters w ∧ world_ok w' ds ∧
        (no_leak w ((p, DRelease) :: ds) → no_leak w' ds).
Proof.
  intros [H1 H2 H3 H4 H5]. rewrite holders_cons in H5.
  rewrite pending_cons, decide_True in H1, H2, H3 by done. simpl in H5.
  unfold drop_factory. destruct (factory w) as [|n] eqn:Hf; [lia|].
  eexists. split; [done|]. split; [done|]. split.
  - constructor; [done..|]. simpl. lia.
  - intros Hl q Hq. destruct (Hl q Hq) as [?|Hq']; [by left|right].
    by rewrite pending_cons, decide_True in Hq'.
Qed.

(** What is left of the list of deleters after a step of the first. *)
Definition after (p : nat) (o : option Phase) (ds : list (nat * Phase)) : list (nat * Phase) :=
  match o with Some ph => (p, ph) :: ds | None => ds end.

Lemma erase_ok p w ds :
  world_ok w ((p, DErase) :: ds) →
  ∃ w', erase_key p w = Some w' ∧ deleters w' = deleters w ∧ world_ok w' ((p, DDelete true) :: ds) ∧
        (no_leak w ((p, DErase) :: ds) → no_leak w' ((p, DDelete true) :: ds)).
Proof.
  intros Hok. pose proof (wo_pending _ _ Hok p) as Hp. rewrite pending_cons, decide_False in Hp by done.
  destruct (Hp ltac:(by left)) as [[s Hs] _]. unfold erase_key. rewrite Hs. cbn.
  eexists. split; [done|]. split; [done|].
  apply (move_ok _ _ p DErase); [done|done|done|]. pose proof (wo_holders _ _ Hok) as H.
  by rewrite holders_cons in H.
Qed.

Lemma lock_ok p w ds :
  world_ok w ((p, DLock) :: ds) →
  match hold_factory w with
  | Some w' => deleters w' = deleters w ∧ world_ok w' ((p, DErase) :: ds) ∧
               (no_leak w ((p, DLock) :: ds) → no_leak w' ((p, DErase) :: ds))
  | None => world_ok w ((p, DDelete false) :: ds) ∧
            (no_leak w ((p, DLock) :: ds) → no_leak w ((p, DDelete false) :: ds))
  end.
Proof.
  intros Hok. pose proof (wo_holders _ _ Hok) as H. rewrite holders_cons in H. simpl in H.
  unfold hold_factory. case_decide.
  - destruct w. apply (move_ok _ _ p DLock _ (mk_World _ _ _ _ _)); [done|done|done|]. simpl in *. lia.
  - split; [done|]. apply (move_ok _ _ p DLock); [done|done|done|]. simpl. lia.
Qed.

(** Every step of a deleter finds what it needs and keeps the invariant; the version
    that always deletes loses nothing. *)
Lemma weak_ref_deleter_ok p ph w ds :
  world_ok w ((p, ph) :: ds) →
  ∃ w' o, WeakRef.deleter_step p ph w = Some (w', o) ∧ deleters w' = deleters w ∧
    world_ok w' (after p o ds) ∧ (no_leak w ((p, ph) :: ds) → no_leak w' (after p o ds)).
Proof.
  intros Hok. destruct ph as [| |b|]; simpl.
  - pose proof (lock_ok p w ds Hok) as Hl. destruct (hold_factory w) as [w'|].
    + by exists w', (Some DErase).
    + by exists w, (Some (DDelete false)).
  - destruct (erase_ok p w ds Hok) as (w' & -> & ?). by exists w', (Some (DDelete true)).
  - destruct (delete_ok p b w ds Hok) as (w' & -> & ?).
    exists w', (if b then Some DRelease else None). by destruct b.
  - destruct (release_factory_ok p w ds Hok) as (w' & -> & ?). by exists w', None.
Qed.

Lemma no_assign_deleter_ok p ph w ds :
  world_ok w ((p, ph) :: ds) →
  ∃ w' o, NoAssign.deleter_step p ph w = Some (w', o) ∧ deleters w' = deleters w ∧
    world_ok w' (after p o ds).
Proof.
  intros Hok. destruct ph as [| |b|]; simpl.
  - pose proof (lock_ok p w ds Hok) as Hl. destruct (hold_factory w) as [w'|].
    + exists w', (Some DErase). naive_solver.
    + exists w, None. split_all; [done|done|]. by apply (forget_ok p DLock).
  - destruct (erase_ok p w ds Hok) as (w' & -> & ? & ? & _). by exists w', (Some (DDelete true)).
  - destruct (delete_ok p b w ds Hok) as (w' & -> & ? & ? & _).
    exists w', (if b then Some DRelease else None). by destruct b.
  - destruct (release_factory_ok p w ds Hok) as (w' & -> & ? & ? & _). by exists w', None.
Qed.

(** * The steps of a program *)

(** Overwriting an element of a list, up to its order. *)
Lemma insert_delete_perm {A} (l : list A) i x y :
  l !! i = Some y → <[i := x]> l ≡ₚ x :: delete i l.
Proof.
  intros Hi. rewrite (delete_Permutation (<[i := x]> l) i x).
  2: { apply list_lookup_insert_eq. by eapply lookup_lt_Some. }
  constructor. rewrite insert_take_drop by (by eapply lookup_lt_Some).
  rewrite !delete_take_drop. assert (i < length l) by (by eapply lookup_lt_Some).
  rewrite take_app_le, take_take by (rewrite length_take; lia).
  rewrite drop_app_ge, length_take by (rewrite length_take; lia).
  replace (S i - i `min` length l) with 1 by lia. rewrite Nat.min_id. done.
Qed.

Definition good (w : World) : Prop := world_ok w (deleters w).
Definition all_kept (w : World) : Prop := no_leak w (deleters w).

Lemma run_deleter_ok ds i w p ph w1 o :
  deleters w !! i = Some (p, ph) → ds p ph w = Some (w1, o) → deleters w1 = deleters w →
  world_ok w1 (after p o (delete i (deleters w))) →
  ∃ w', run_deleter ds i w = Some w' ∧ good w' ∧ _stocks w' = _stocks w1 ∧
        (no_leak w1 (after p o (delete i (deleters w))) → all_kept w').
Proof.
  intros Hi Hds Hd Hok. unfold run_deleter. rewrite Hi. cbn. rewrite Hds. cbn.
  eexists. split; [done|]. unfold good, all_kept, set_deleters; cbn [deleters]. rewrite Hd.
  set (ds' := match o with Some _ => _ | None => _ end).
  assert (ds' ≡ₚ after p o (delete i (deleters w))) as Hp.
  { subst ds'. destruct o as [ph'|]; [|done]. by apply (insert_delete_perm _ i _ (p, ph)). }
  assert (∀ l, world_ok w1 l →
    world_ok (mk_World (factory w1) (_stocks w1) (stocks w1) (strong w1) ds') l) as Hsame.
  { intros l [? ? ? ? ?]. by constructor. }
  split_all; [|done|intros Hk].
  - apply Hsame. by rewrite Hp.
  - intros q Hq. destruct (Hk q Hq) as [?|Hin]; [by left|right]. by rewrite Hp.
Qed.

Section version.
Context (get : string → World → option (nat * World))
        (ds : nat → Phase → World → option (World * option Phase))
        (keeps : bool).

(** What a version's [get] and deleter must satisfy; [keeps] says whether the
    version deletes every stock. *)
Hypothesis get_ok : ∀ key w, 0 < factory w → good w →
  ∃ p w', get key w = Some (p, w') ∧ good w' ∧ (all_kept w → all_kept w').
Hypothesis ds_ok : ∀ p ph w l, world_ok w ((p, ph) :: l) →
  ∃ w' o, ds p ph w = Some (w', o) ∧ deleters w' = deleters w ∧ world_ok w' (after p o l) ∧
          (keeps = true → no_leak w ((p, ph) :: l) → no_leak w' (after p o l)).

Lemma client_factory_pos w : 0 < client_factory w → 0 < factory w.
Proof. unfold client_factory. lia. Qed.

(** Every step a program can take from a good state is defined. *)
Lemma step_good w o :
  good w → step get ds w o →
  ∃ w', o = Some w' ∧ good w' ∧ (keeps = true → all_kept w → all_kept w').
Proof using get_ok ds_ok.
  intros Hok Hs. destruct Hs as [key Hf|p Hp|p Hp|Hf|Hf|i Hi].
  - destruct (get_ok key w (client_factory_pos w Hf) Hok) as (p & w' & -> & ? & ?). by exists w'.
  - unfold copy. rewrite decide_False by lia. eexists. split; [done|].
    destruct (set_strong_ok p (S (use_count w p)) w (deleters w)) as [? ?]; [lia|lia|done|]. done.
  - destruct (drop_stock_ok p w Hp Hok) as (w' & ? & ? & ?). by exists w'.
  - unfold hold_factory. pose proof (client_factory_pos w Hf). rewrite decide_False by lia.
    eexists. split; [done|]. split; [|done]. apply factory_ok; [done|].
    pose proof (wo_holders _ _ Hok). simpl in *. lia.
  - unfold client_factory in Hf. fold (holders (deleters w)) in Hf. unfold drop_factory.
    destruct (factory w) as [|n] eqn:Hn; [lia|]. eexists. split; [done|]. split; [|done].
    apply factory_ok; [done|]. simpl in *. lia.
  - destruct (lookup_lt_is_Some_2 _ _ Hi) as [[p ph] Hl].
    pose proof (delete_Permutation _ _ _ Hl) as Hp.
    assert (world_ok w ((p, ph) :: delete i (deleters w))) as Hok' by (by rewrite <- Hp).
    destruct (ds_ok _ _ _ _ Hok') as (w1 & o & Hds & Hd & Hok1 & Hk).
    destruct (run_deleter_ok ds i w p ph w1 o Hl Hds Hd Hok1) as (w' & ? & ? & _ & Hk').
    exists w'. split_all; [done|done|]. intros Hkeep Ha. apply Hk', Hk; [done|].
    intros q Hq. destruct (Ha q Hq) as [?|Hin]; [by left|right]. by rewrite <- Hp.
Qed.

Lemma init_good : good StockFactory_init ∧ all_kept StockFactory_init.
Proof.
  split.
  - constructor; unfold use_count; simpl.
    + intros p. rewrite lookup_empty. simpl. lia.
    + intros p. by intros ?%not_elem_of_nil.
    + constructor.
    + intros p. rewrite lookup_empty. by intros [? ?].
    + lia.
  - intros p. simpl. rewrite lookup_empty. by intros [? ?].
Qed.

Lemma reachable_good w :
  reachable (eq StockFactory_init) (safe_step get ds) w → good w ∧ (keeps = true → all_kept w).
Proof using get_ok ds_ok.
  apply (invariant_reachable _ _ (λ w, good w ∧ (keeps = true → all_kept w))).
  - intros ? <-. split; [apply init_good|]. intros _. apply init_good.
  - intros w1 w2 [Hg Hk] Hs. destruct (step_good w1 _ Hg Hs) as (w' & [= <-] & ? & Hk').
    split; [done|]. intros Hkeep. by apply Hk', Hk.
Qed.

Lemma version_safe w o :
  reachable (eq StockFactory_init) (safe_step get ds) w → step get ds w o → o ≠ None.
Proof using get_ok ds_ok.
  intros Hr Hs. destruct (reachable_good w Hr) as [Hg _].
  by destruct (step_good w o Hg Hs) as (? & -> & _).
Qed.
End version.

Lemma weak_ref_get_ok key w :
  0 < factory w → good w →
  ∃ p w', WeakRef.get key w = Some (p, w') ∧ good w' ∧ (all_kept w → all_kept w').
Proof.
  intros Hf Hg. unfold WeakRef.get. rewrite decide_False by lia. cbn zeta.
  set (m := <[key := _]> _). destruct (set_stocks_ok m w _ Hg) as [Hg1 Hk1].
  destruct (weak_lock _ (set_stocks m w)) as [[p w']|] eqn:Hl.
  - destruct (weak_lock_ok _ _ _ _ Hg1 Hl) as [? Hk]. exists p, w'. split_all; [done|done|].
    intros Ha. by apply Hk, Hk1.
  - pose proof (new_Stock_ok key (set_stocks m w) Hg1) as Hn.
    destruct (new_Stock key (set_stocks m w)) as [p w']. destruct Hn as (_ & Hg2 & Hk2).
    destruct (set_stocks_ok (<[key := Some p]> (_stocks w')) w' _ Hg2) as [? Hk].
    eexists _, _. split_all; [done|done|]. intros Ha. by apply Hk, Hk2, Hk1.
Qed.

Lemma no_assign_get_ok key w :
  0 < factory w → good w →
  ∃ p w', NoAssign.get key w = Some (p, w') ∧ good w' ∧ (all_kept w → all_kept w').
Proof.
  intros Hf Hg. unfold NoAssign.get. rewrite decide_False by lia. cbn zeta.
  set (m := <[key := _]> _). destruct (set_stocks_ok m w _ Hg) as [Hg1 Hk1].
  destruct (weak_lock _ (set_stocks m w)) as [[p w']|] eqn:Hl.
  - destruct (weak_lock_ok _ _ _ _ Hg1 Hl) as [? Hk]. exists p, w'. split_all; [done|done|].
    intros Ha. by apply Hk, Hk1.
  - pose proof (new_Stock_ok key (set_stocks m w) Hg1) as Hn.
    destruct (new_Stock key (set_stocks m w)) as [p w']. destruct Hn as (_ & Hg2 & Hk2).
    eexists _, _. split_all; [done|done|]. intros Ha. by apply Hk2, Hk1.
Qed.


Lemma no_assign_safe w o :
  reachable (eq StockFactory_init) (safe_step NoAssign.get NoAssign.deleter_step) w →
  step NoAssign.get NoAssign.deleter_step w o → o ≠ None.
Proof.
  apply (version_safe _ _ false no_assign_get_ok).
  intros p ph v l Hok. destruct (no_assign_deleter_ok p ph v l Hok) as (w' & o' & ?).
  exists w', o'. naive_solver.
Qed.

(** * One thread at a time *)

(** Between the calls of a single thread: the map holds exactly the stocks that
    exist, under their own names. *)
Record seq_ok (w : World) : Prop := {
  sq_good : good w;
  sq_quiet : deleters w = [];
  sq_factory : 0 < factory w;
  sq_held p : is_Some (stocks w !! p) → 0 < use_count w p;
  sq_map key r : _stocks w !! key = Some r ↔ ∃ p, r = Some p ∧ stocks w !! p = Some key
}.

Lemma init_seq_ok : seq_ok StockFactory_init.
Proof.
  constructor; [apply init_good|done|simpl; lia| |].
  - intros p. simpl. rewrite lookup_empty. by intros [? ?].
  - intros key r. simpl. rewrite lookup_empty. split; [done|]. intros (p & _ & Hp).
    by rewrite lookup_empty in Hp.
Qed.

Lemma get_existing key p w :
  seq_ok w → stocks w !! p = Some key →
  WeakRef.get key w = Some (p, set_strong p (S (use_count w p)) w).
Proof.
  intros [_ _ Hf Hh Hm] Hp. unfold WeakRef.get. rewrite decide_False by lia. cbn zeta.
  assert (_stocks w !! key = Some (Some p)) as Hk by (apply Hm; eauto).
  rewrite Hk. cbn [default from_option id]. rewrite insert_id by done.
  assert (0 < use_count w p) by (apply Hh; eauto). destruct w. unfold weak_lock.
  cbn [mbind option_bind set_stocks]. unfold use_count in *. cbn in *.
  rewrite decide_False by lia. done.
Qed.

Lemma get_new key w :
  seq_ok w → (∀ p, stocks w !! p ≠ Some key) →
  ∃ p w', WeakRef.get key w = Some (p, w') ∧ stocks w !! p = None ∧
    stocks w' = <[p := key]> (stocks w) ∧ use_count w' p = 1 ∧
    (∀ q, q ≠ p → use_count w' q = use_count w q) ∧ seq_ok w'.
Proof.
  intros [Hg Hq Hf Hh Hm] Hnone.
  destruct (weak_ref_get_ok key w Hf Hg) as (p & w' & Hget & Hg' & _).
  exists p, w'. split; [done|]. revert Hget. unfold WeakRef.get. rewrite decide_False by lia.
  assert (_stocks w !! key = None) as ->.
  { destruct (_stocks w !! key) eqn:E; [|done]. apply Hm in E as (q & _ & Hq'). by destruct (Hnone q). }
  unfold new_Stock. cbn. intros [= <- <-]. set (p := fresh (dom (strong w))) in *.
  assert (stocks w !! p = None) as Hp.
  { apply eq_None_not_Some. intros Hs. apply (is_fresh (dom (strong w))).
    by apply (wo_dom _ _ Hg). }
  split; [done|]. split; [done|]. unfold use_count; cbn.
  split; [by rewrite lookup_insert_eq|]. split; [intros q Hqp; by rewrite lookup_insert_ne|].
  constructor; [done|done|done| |]; unfold use_count; cbn.
  - intros q. destruct (decide (q = p)) as [->|]; [rewrite !lookup_insert_eq; simpl; intros; lia|].
    rewrite lookup_insert_ne by done. rewrite lookup_insert_ne by done. apply Hh.
  - intros key' r. rewrite insert_insert_eq. destruct (decide (key' = key)) as [->|Hne].
    + rewrite lookup_insert_eq. split.
      * intros [= <-]. exists p. by rewrite lookup_insert_eq.
      * intros (q & -> & Hq'). destruct (decide (q = p)) as [->|]; [done|].
        rewrite lookup_insert_ne in Hq' by done. by destruct (Hnone q).
    + rewrite lookup_insert_ne by done. rewrite Hm. split; intros (q & -> & Hq').
      * exists q. split; [done|]. by rewrite lookup_insert_ne by congruence.
      * exists q. split; [done|]. destruct (decide (q = p)) as [->|].
        { rewrite lookup_insert_eq in Hq'. congruence. }
        by rewrite lookup_insert_ne in Hq'.
Qed.

(** A deleter that runs alone. *)
Lemma run_one ds fuel p ph w w1 o :
  deleters w = [(p, ph)] → ds p ph w = Some (w1, o) → deleters w1 = [(p, ph)] →
  run_all ds (S fuel) w
  = run_all ds fuel (set_deleters match o with Some ph' => [(p, ph')] | None => [] end w1).
Proof.
  intros Hw Hds Hw1. cbn [run_all]. rewrite Hw. unfold run_deleter. rewrite Hw. cbn.
  rewrite Hds. cbn. rewrite Hw1. by destruct o.
Qed.

Lemma release_last p key w :
  deleters w = [] → 0 < factory w → use_count w p = 1 → stocks w !! p = Some key →
  release WeakRef.deleter_step p w
  = Some (mk_World (factory w) (delete key (_stocks w)) (delete p (stocks w))
                   (<[p := 0]> (strong w)) []).
Proof.
  intros Hd Hf Hu Hp.
  assert (release WeakRef.deleter_step p w
          = run_all WeakRef.deleter_step 4 (set_deleters [(p, DLock)] (set_strong p 0 w))) as ->
    by (unfold release, drop_stock; rewrite Hu; cbn [mbind option_bind];
        rewrite decide_True by done; change (deleters (set_strong p 0 w)) with (deleters w); by rewrite Hd).
  destruct w as [f m s c d]. cbn [deleters factory stocks] in *. subst d.
  destruct f as [|f]; [lia|].
  erewrite (run_one _ _ p DLock) by done. erewrite (run_one _ _ p DErase).
  2: done. 2: { cbn. unfold erase_key. cbn. by rewrite Hp. } 2: done.
  erewrite (run_one _ _ p (DDelete true)).
  2: done. 2: { cbn. unfold delete_stock. cbn. by rewrite Hp. } 2: done.
  erewrite (run_one _ _ p DRelease); [|done|cbn; done|done]. done.
Qed.

Lemma release_seq p w :
  seq_ok w → 0 < use_count w p →
  ∃ w', release WeakRef.deleter_step p w = Some w' ∧ seq_ok w' ∧
    use_count w' p = use_count w p - 1 ∧
    stocks w' = (if decide (use_count w p = 1) then delete p (stocks w) else stocks w).
Proof.
  intros [Hg Hq Hf Hh Hm] Hu. destruct (wo_held _ _ Hg p Hu) as [[key Hp] _].
  case_decide as H1.
  - eexists. split; [by apply (release_last p key)|]. pose proof Hg as [G1 G2 G3 G4 G5].
    unfold use_count in *; cbn. rewrite lookup_insert_eq. split; [|split; [simpl; lia|done]].
    constructor; [|done|done| |]; unfold use_count; cbn.
    + constructor; unfold use_count; cbn.
      * intros q. destruct (decide (q = p)) as [->|]; [rewrite lookup_insert_eq; simpl; lia|].
        rewrite lookup_insert_ne by done. rewrite lookup_delete_ne by done. intros Hq'.
        split; [by apply G1|]. apply not_elem_of_nil.
      * intros q. by intros ?%not_elem_of_nil.
      * constructor.
      * intros q. rewrite lookup_delete_is_Some, dom_insert. intros [_ ?].
        apply elem_of_union_r. by apply G4.
      * lia.
    + intros q. rewrite lookup_delete_is_Some. intros [Hne ?].
      rewrite lookup_insert_ne by done. by apply Hh.
    + intros key' r. rewrite lookup_delete_Some, Hm. split.
      * intros [Hne (q & -> & Hq')]. exists q. split; [done|].
        rewrite lookup_delete_ne; [done|]. congruence.
      * intros (q & -> & Hq'). apply lookup_delete_Some in Hq' as [Hne Hq'].
        split; [|eauto]. intros <-.
        assert (_stocks w !! key = Some (Some q)) as E1 by (apply Hm; eauto).
        assert (_stocks w !! key = Some (Some p)) as E2 by (apply Hm; eauto).
        congruence.
  - unfold release, drop_stock. destruct (use_count w p) as [|n] eqn:Hn; [lia|].
    rewrite decide_False by lia. cbn [mbind option_bind].
    assert (run_all WeakRef.deleter_step 4 (set_strong p n w) = Some (set_strong p n w)) as ->
      by (cbn; by rewrite Hq).
    eexists. split; [done|]. rewrite use_count_set, decide_True by done.
    split; [|split; [lia|done]]. constructor; [|done|done| |done].
    + apply (set_strong_ok p n w); [lia|lia|done].
    + intros q Hq'. rewrite use_count_set. case_decide; [lia|by apply Hh].
Qed.

(** Without interference [stock_factory_weak_ref.cpp] shares: [get] of a name
    returns the stock of that name while there is one, raising its count, and a new
    stock otherwise; dropping a pointer deletes the stock and its entry exactly when
    it was the last. *)
Theorem weak_ref_shares w :
  seq_ok w →
  (∀ key p, stocks w !! p = Some key →
     WeakRef.get key w = Some (p, set_strong p (S (use_count w p)) w) ∧
     seq_ok (set_strong p (S (use_count w p)) w)) ∧
  (∀ key, (∀ p, stocks w !! p ≠ Some key) →
     ∃ p w', WeakRef.get key w = Some (p, w') ∧ stocks w !! p = None ∧
       stocks w' = <[p := key]> (stocks w) ∧ use_count w' p = 1 ∧
       (∀ q, q ≠ p → use_count w' q = use_count w q) ∧ seq_ok w') ∧
  (∀ p, 0 < use_count w p →
     ∃ w', release WeakRef.deleter_step p w = Some w' ∧ seq_ok w' ∧
       use_count w' p = use_count w p - 1 ∧
       stocks w' = (if decide (use_count w p = 1) then delete p (stocks w) else stocks w)).
Proof.
  intros Hok. split_all.
  - intros key p Hp. split; [by apply get_existing|]. pose proof Hok as [Hg Hq Hf Hh Hm].
    assert (0 < use_count w p) as Hu by (apply Hh; eauto).
    constructor; [|done|done| |done].
    + apply (set_strong_ok p _ w); [done|lia|done].
    + intros q Hq'. rewrite use_count_set. case_decide; [lia|by apply Hh].
  - intros key Hn. by apply get_new.
  - intros p Hp. by apply release_seq.
Qed.

(** * What goes wrong *)

Section runs.
Context (get : string → World → option (nat * World))
        (ds : nat → Phase → World → option (World * option Phase)).

(** A run given by the calls it makes, for evaluation. *)
Inductive Call := CGet (key : string) | CDrop (p : nat) | CDropFactory | CDeleter (i : nat).
Definition call (c : Call) (w : World) : option World :=
  match c with
  | CGet key => if decide (0 < client_factory w) then snd <$> get key w else None
  | CDrop p => if decide (0 < use_count w p) then drop_stock p w else None
  | CDropFactory => if decide (0 < client_factory w) then drop_factory w else None
  | CDeleter i => if decide (i < length (deleters w)) then run_deleter ds i w else None
  end.
Fixpoint calls (cs : list Call) (w : World) : option World :=
  match cs with [] => Some w | c :: cs => w ← call c w; calls cs w end.

Lemma calls_reachable cs w :
  calls cs StockFactory_init = Some w → reachable (eq StockFactory_init) (safe_step get ds) w.
Proof.
  intros H. exists StockFactory_init. split; [done|]. revert H. generalize StockFactory_init.
  induction cs as [|c cs IH]; intros w0 H; cbn [calls] in H; [by simplify_eq|].
  destruct (call c w0) as [w1|] eqn:Hc; [|done]. eapply rtc_l; [|by apply IH].
  unfold safe_step. rewrite <- Hc. destruct c; unfold call in *; case_decide; try done.
  - by apply step_get.
  - by apply step_drop.
  - by apply step_drop_factory.
  - by apply step_deleter.
Qed.
End runs.

Definition race_calls : list Call :=
  [CGet "MSFT"; CDrop 0; CGet "MSFT"; CDeleter 0; CDeleter 0; CGet "MSFT"].
Definition race_world : World :=
  default StockFactory_init (calls WeakRef.get WeakRef.deleter_step race_calls StockFactory_init).

(** Two threads can end up with two different live stocks of one name.  [erase]
    in [remove_stock] is by name: when a new stock of the name was made between the
    last drop of the old one and its deleter, the entry of the new one is erased. *)
Theorem weak_ref_race :
  ∃ w p q, reachable (eq StockFactory_init) (safe_step WeakRef.get WeakRef.deleter_step) w ∧
    p ≠ q ∧ stocks w !! p = Some "MSFT"%string ∧ stocks w !! q = Some "MSFT"%string ∧
    0 < use_count w p ∧ 0 < use_count w q.
Proof.
  exists race_world, 1, 2. split.
  - apply (calls_reachable _ _ race_calls). vm_compute. reflexivity.
  - vm_compute. repeat split; try discriminate; repeat constructor.
Qed.

(** In [stock_factory.cpp] an entry of the map never points to a stock. *)
Definition never_assigned (w : World) : Prop := ∀ key r, _stocks w !! key = Some r → r = None.

Lemma no_assign_get_new key w p w' :
  never_assigned w → NoAssign.get key w = Some (p, w') →
  p ∉ dom (strong w) ∧ never_assigned w' ∧ strong w' = <[p := 1]> (strong w).
Proof.
  intros Hn. unfold NoAssign.get. case_decide; [done|]. cbn zeta.
  assert (default None (_stocks w !! key) = None) as ->.
  { destruct (_stocks w !! key) eqn:E; [by apply (Hn key)|done]. }
  cbn. intros [= <- <-]. split_all; [apply is_fresh| |done].
  intros k r. cbn. rewrite lookup_insert_Some. intros [[_ <-]|[_ ?]]; [done|by apply (Hn k)].
Qed.

Lemma never_assigned_step w w' :
  never_assigned w → safe_step NoAssign.get NoAssign.deleter_step w w' → never_assigned w'.
Proof.
  intros Hn Hs. unfold safe_step in Hs. inversion Hs as [key _ E|p _ E|p _ E|_ E|_ E|i _ E].
  - destruct (NoAssign.get key w) as [[p v]|] eqn:G; simplify_eq/=.
    by apply (no_assign_get_new key w p).
  - unfold copy in E. case_decide; by simplify_eq.
  - unfold drop_stock in E. destruct (use_count w p) as [|n]; simplify_eq.
    by case_decide.
  - unfold hold_factory in E. case_decide; by simplify_eq.
  - unfold drop_factory in E. destruct (factory w) as [|n]; simplify_eq. intros key r.
    simpl. case_decide; [by rewrite lookup_empty|apply Hn].
  - unfold run_deleter in E. destruct (deleters w !! i) as [[p ph]|]; [|done]. simpl in E.
    destruct (NoAssign.deleter_step p ph w) as [[v o]|] eqn:D; simplify_eq/=.
    destruct ph; simpl in D.
    + unfold hold_factory in D. case_decide; by simplify_eq.
    + unfold erase_key in D. destruct (stocks w !! p) as [key|]; simplify_eq/=.
      intros k r. simpl. rewrite lookup_delete_Some. intros [_ ?]. by apply (Hn k).
    + unfold delete_stock in D. destruct (stocks w !! p); by simplify_eq/=.
    + unfold drop_factory in D. destruct (factory w) as [|n]; simplify_eq/=. intros key r.
      simpl. case_decide; [by rewrite lookup_empty|apply Hn].
Qed.

(** [get] of [stock_factory.cpp] makes a new stock every time, even when there is
    one of that name: the weak pointer in the map is never assigned.  No pointer is
    ever shared by two calls. *)
Theorem no_assign_never_shares w key :
  reachable (eq StockFactory_init) (safe_step NoAssign.get NoAssign.deleter_step) w →
  0 < factory w →
  ∃ p w', NoAssign.get key w = Some (p, w') ∧ p ∉ dom (strong w) ∧ use_count w' p = 1.
Proof.
  intros Hr Hf.
  assert (never_assigned w) as Hn.
  { revert w Hr Hf. intros w Hr _. revert w Hr. apply invariant_reachable.
    - intros ? <- k r. simpl. by rewrite lookup_empty.
    - apply never_assigned_step. }
  destruct (NoAssign.get key w) as [[p w']|] eqn:G.
  - destruct (no_assign_get_new key w p w' Hn G) as (? & _ & Hs). exists p, w'.
    split_all; [done|done|]. unfold use_count. by rewrite Hs, lookup_insert_eq.
  - unfold NoAssign.get in G. rewrite decide_False in G by lia. cbn zeta in G.
    destruct (weak_lock _ _); [done|]. by destruct (new_Stock key _).
Qed.

Definition leak_world : World :=
  default StockFactory_init (calls NoAssign.get NoAssign.deleter_step
    [CGet "MSFT"; CDropFactory; CDrop 0; CDeleter 0] StockFactory_init).

(** A stock that outlives the factory of [stock_factory.cpp] is never deleted: this
    is the end of its [main]. *)
Lemma no_assign_leaks :
  reachable (eq StockFactory_init) (safe_step NoAssign.get NoAssign.deleter_step) leak_world ∧
  stocks leak_world !! 0 = Some "MSFT"%string ∧ use_count leak_world 0 = 0 ∧
  deleters leak_world = [] ∧ factory leak_world = 0.
Proof.
  split; [|vm_compute; repeat split].
  apply (calls_reachable _ _ [CGet "MSFT"; CDropFactory; CDrop 0; CDeleter 0]).
  vm_compute. reflexivity.
Qed.

(** * Witnesses *)


Lemma weak_ref_shares_witness :
  ∃ p w', WeakRef.get "MSFT" StockFactory_init = Some (p, w') ∧
    use_count w' p = 1 ∧ seq_ok w'.
Proof.
  destruct (weak_ref_shares StockFactory_init init_seq_ok) as (_ & Hnew & _).
  destruct (Hnew "MSFT"%string) as (p & w' & ? & _ & _ & ? & _ & ?).
  - intros p. vm_compute. discriminate.
  - exists p, w'. split; [assumption|]. split; assumption.
Defined.

Lemma never_shares_witness :
  ∃ p w', NoAssign.get "MSFT" StockFactory_init = Some (p, w') ∧
    p ∉ dom (strong StockFactory_init) ∧ use_count w' p = 1.
Proof.
  apply no_assign_never_shares; [|vm_compute; lia].
  apply reachable_init. reflexivity.
Defined.
