(* ===== verification/CopyOnWrite.v ===== *)
(** Copy-on-write containers:
    [src/books/ldxcfwqbc/02_thread_synchronization/cow.cpp] (a list of [Foo]s that is
    posted to while it is traversed) and [inventory.cpp] (a set of weak pointers).

    Both keep a [shared_ptr] to the container under a mutex.  A reader copies the
    pointer under the mutex and reads outside it; a writer modifies the container in
    place when the pointer is unique and a copy of it otherwise.  The first section
    models the scheme for any container; the two programs are its instances. *)

From S2P Require Import Prelude.

(** * The scheme *)

Section cow.
Context {C : Type}.

(** [heap] are the containers that exist, [ptr] is the guarded pointer and [views]
    are the copies of it that readers hold. *)
Record Cow := mk_Cow { heap : gmap nat C; ptr : nat; views : list nat }.

Definition Cow_init (c : C) : Cow := mk_Cow {[0 := c]} 0 [].

Definition use_count (w : Cow) (p : nat) : nat :=
  (if decide (ptr w = p) then 1 else 0) + length (filter (p =.) (views w)).
Definition unique (w : Cow) : bool := bool_decide (use_count w (ptr w) = 1).

(** A writer, under the mutex: [f] is the modification.  After [reset] the old
    container loses a reference, and stays because somebody else holds it. *)
Definition modify (f : C → C) (w : Cow) : option Cow :=
  c ← heap w !! ptr w;
  if unique w then Some (mk_Cow (<[ptr w := f c]> (heap w)) (ptr w) (views w))
  else let p := fresh (dom (heap w)) in Some (mk_Cow (<[p := f c]> (heap w)) p (views w)).

(** A reader: copying the pointer under the mutex, with the assertion of [traverse],
    reading through it, and dropping it. *)
Definition take_view (w : Cow) : option (nat * Cow) :=
  let w := mk_Cow (heap w) (ptr w) (ptr w :: views w) in
  if unique w then None else Some (ptr w, w).
Definition read_view (p : nat) (w : Cow) : option C := heap w !! p.

Fixpoint remove_one (p : nat) (l : list nat) : list nat :=
  match l with [] => [] | q :: l => if decide (q = p) then l else q :: remove_one p l end.
Definition drop_view (p : nat) (w : Cow) : Cow :=
  let w := mk_Cow (heap w) (ptr w) (remove_one p (views w)) in
  if decide (use_count w p = 0) then mk_Cow (delete p (heap w)) (ptr w) (views w) else w.

(** The container behind the guarded pointer. *)
Definition current (w : Cow) : option C := heap w !! ptr w.

(** A container is allocated exactly as long as something points to it. *)
Definition cow_ok (w : Cow) : Prop := ∀ p, is_Some (heap w !! p) ↔ p = ptr w ∨ p ∈ views w.

Lemma use_count_zero w p : use_count w p = 0 ↔ p ≠ ptr w ∧ p ∉ views w.
Proof.
  unfold use_count. split.
  - intros H. case_decide as Hp; [lia|]. split; [congruence|]. intros Hin.
    assert (p ∈ filter (p =.) (views w)) as Hf by (by apply list_elem_of_filter).
    destruct (filter _ _); [by apply not_elem_of_nil in Hf|simpl in H; lia].
  - intros [Hp Hv]. rewrite decide_False by congruence.
    destruct (filter _ _) as [|q l] eqn:E; [done|].
    assert (q ∈ filter (p =.) (views w)) as Hf by (rewrite E; left).
    apply list_elem_of_filter in Hf as [-> ?]. done.
Qed.

Lemma unique_spec w : unique w = true ↔ ptr w ∉ views w.
Proof.
  unfold unique, use_count. rewrite bool_decide_eq_true, decide_True by done. split.
  - intros H Hin.
    assert (ptr w ∈ filter (ptr w =.) (views w)) as Hf by (by apply list_elem_of_filter).
    destruct (filter _ _); [by apply not_elem_of_nil in Hf|simpl in H; lia].
  - intros Hn. destruct (filter _ _) as [|q l] eqn:E; [done|].
    assert (q ∈ filter (ptr w =.) (views w)) as Hf by (rewrite E; left).
    apply list_elem_of_filter in Hf as [<- ?]. done.
Qed.

Lemma Cow_init_ok c : cow_ok (Cow_init c).
Proof.
  intros p. simpl. destruct (decide (p = 0)) as [->|Hne].
  - rewrite lookup_singleton_eq. split; [by left|by eexists].
  - rewrite lookup_singleton_ne by done. split; [by intros [? ?]|].
    intros [?|?%not_elem_of_nil]; done.
Qed.

(** A write changes the current container by [f] and none that a reader holds. *)
Lemma modify_spec f w :
  cow_ok w →
  ∃ w' c, current w = Some c ∧ modify f w = Some w' ∧ cow_ok w' ∧ current w' = Some (f c) ∧
    views w' = views w ∧ ∀ p, p ∈ views w → heap w' !! p = heap w !! p.
Proof.
  intros Hok. unfold cow_ok in Hok. destruct (proj2 (Hok (ptr w)) ltac:(by left)) as [c Hc].
  unfold modify, current. rewrite Hc. cbn [mbind option_bind].
  destruct (unique w) eqn:Hu.
  - apply unique_spec in Hu. eexists _, c. do 2 (split; [done|]). split_all.
    + intros p. simpl. rewrite lookup_insert_is_Some, Hok. split.
      * intros [<-|[_ ?]]; [by left|done].
      * intros Hp. destruct (decide (ptr w = p)); [by left|right]. by split.
    + simpl. by rewrite lookup_insert_eq.
    + done.
    + intros p Hp. simpl. rewrite lookup_insert_ne; [done|congruence].
  - assert (ptr w ∈ views w) as Hin.
    { apply dec_stable. intros Hn. apply unique_spec in Hn. congruence. }
    set (p := fresh (dom (heap w))).
    assert (heap w !! p = None) as Hp by (apply not_elem_of_dom, is_fresh).
    eexists _, c. do 2 (split; [done|]). split_all.
    + intros q. simpl. rewrite lookup_insert_is_Some, Hok. split.
      * intros [<-|[_ [->|?]]]; [by left|by right|by right].
      * intros [->|Hq]; [by left|]. destruct (decide (p = q)); [by left|right].
        split; [done|by right].
    + simpl. by rewrite lookup_insert_eq.
    + done.
    + intros q Hq. simpl. rewrite lookup_insert_ne; [done|]. intros <-.
      destruct (proj2 (Hok p) ltac:(by right)). congruence.
Qed.

(** Taking a view never fails its assertion and reads the current container. *)
Lemma take_view_spec w :
  cow_ok w →
  ∃ c w', current w = Some c ∧ take_view w = Some (ptr w, w') ∧ cow_ok w' ∧ heap w' = heap w ∧
    ptr w' = ptr w ∧ views w' = ptr w :: views w ∧ read_view (ptr w) w' = Some c.
Proof.
  intros Hok. unfold cow_ok in Hok. destruct (proj2 (Hok (ptr w)) ltac:(by left)) as [c Hc].
  unfold take_view. cbn zeta. destruct (unique _) eqn:Hu.
  { apply unique_spec in Hu. destruct Hu. simpl. left. }
  eexists c, _. split; [done|]. split; [done|]. split_all; try done.
  intros p. simpl. rewrite elem_of_cons, Hok. tauto.
Qed.

Lemma remove_one_perm p l : p ∈ l → l ≡ₚ p :: remove_one p l.
Proof.
  induction l as [|q l IH]; [by intros ?%not_elem_of_nil|]. simpl.
  rewrite elem_of_cons. case_decide as Hq; [by subst|].
  intros [->|Hp]; [done|]. rewrite Permutation_swap. constructor. by apply IH.
Qed.

Lemma remove_one_other p q l : q ≠ p → q ∈ l ↔ q ∈ remove_one p l.
Proof.
  intros Hne. induction l as [|r l IH]; [done|]. simpl.
  case_decide as Hr; rewrite !elem_of_cons; [|tauto].
  subst r. split; [by intros [?|?]|by right].
Qed.

(** Dropping a view frees the container when it was the last reference, and leaves
    every other one alone. *)
Lemma drop_view_spec p w :
  cow_ok w → p ∈ views w →
  cow_ok (drop_view p w) ∧ current (drop_view p w) = current w ∧
  views w ≡ₚ p :: views (drop_view p w) ∧
  ∀ q, q ∈ views (drop_view p w) → heap (drop_view p w) !! q = heap w !! q.
Proof.
  intros Hok Hp. unfold cow_ok in Hok. pose proof (remove_one_perm p (views w) Hp) as Hperm.
  assert (views (drop_view p w) = remove_one p (views w)) as Hv
    by (unfold drop_view; simpl; by case_decide).
  unfold drop_view, current in *. cbn zeta in *. case_decide as Hz.
  - apply use_count_zero in Hz as [Hz1 Hz2]; simpl in *. split_all; [| |done|].
    + intros q. simpl. rewrite lookup_delete_is_Some, Hok. split.
      * intros [Hne [->|Hq]]; [by left|right]. by apply remove_one_other.
      * intros [->|Hq]; [split; [congruence|by left]|].
        split; [congruence|]. right. rewrite Hperm. by right.
    + simpl. by rewrite lookup_delete_ne by congruence.
    + simpl. intros q Hq. by rewrite lookup_delete_ne by congruence.
  - split_all; [|done|done|done].
    intros q. simpl. rewrite Hok. split.
    + intros [->|Hq]; [by left|]. destruct (decide (q = p)) as [->|].
      * apply dec_stable. intros Hn. apply Hz, use_count_zero. simpl. tauto.
      * right. by apply remove_one_other.
    + intros [->|Hq]; [by left|right]. rewrite Hperm. by right.
Qed.
End cow.
Arguments Cow : clear implicits.

(** * cow.cpp *)

Module Foos.
(** The class has no members. *)
Inductive Foo := mk_Foo.
Abbreviation FooList := (list Foo).

(** A call of [traverse] behind its critical section: the view, the number of
    elements visited, and, as history, what the view held when it was taken. *)
Record Reader := mk_Reader { foos_view : nat; it : nat; snapshot : FooList }.

(** [posted] is history: the arguments of all calls of [post]. *)
Record State := mk_State { g_foos : Cow FooList; readers : list Reader; posted : list Foo }.

Definition init : State := mk_State (Cow_init []) [] [].

Definition post (f : Foo) (s : State) : option State :=
  w ← modify (λ l, l ++ [f]) (g_foos s);
  Some (mk_State w (readers s) (posted s ++ [f])).

Definition traverse_begin (s : State) : option State :=
  '(p, w) ← take_view (g_foos s);
  c ← read_view p w;
  Some (mk_State w (mk_Reader p 0 c :: readers s) (posted s)).

(** [doit] of the next element posts a [Foo]. *)
Definition doit (s : State) : option State := post mk_Foo s.

Inductive Outcome := Undefined | Next (s : State) | Finished (s : State).

(** One round of the loop of the [i]-th reader; at the end the view is dropped. *)
Definition traverse_step (i : nat) (r : Reader) (s : State) : Outcome :=
  match read_view (foos_view r) (g_foos s) with
  | None => Undefined
  | Some c =>
      if bool_decide (it r < length c) then
        match doit s with
        | Some s => Next (mk_State (g_foos s)
            (<[i := mk_Reader (foos_view r) (S (it r)) (snapshot r)]> (readers s)) (posted s))
        | None => Undefined
        end
      else Finished (mk_State (drop_view (foos_view r) (g_foos s)) (delete i (readers s)) (posted s))
  end.

Inductive step (s : State) : option State → Prop :=
| step_post f : step s (post f s)
| step_begin : step s (traverse_begin s)
| step_next i r : readers s !! i = Some r →
    step s match traverse_step i r s with Next s' | Finished s' => Some s' | Undefined => None end.

(** [traverse] and [main] of a single thread. *)
Fixpoint traverse_loop (fuel : nat) (s : State) : option State :=
  match fuel, readers s with
  | S f, r :: _ =>
      match traverse_step 0 r s with
      | Undefined => None | Next s => traverse_loop f s | Finished s => Some s
      end
  | _, _ => None
  end.
Definition traverse (fuel : nat) (s : State) : option State :=
  s ← traverse_begin s; traverse_loop fuel s.
Definition main : option State := s ← post mk_Foo init; traverse 2 s.

(** ** Every interleaving *)

(** What a reader relies on: its view still holds what it held at the start, which
    is a prefix of everything posted. *)
Definition reader_ok (s : State) (r : Reader) : Prop :=
  read_view (foos_view r) (g_foos s) = Some (snapshot r) ∧ it r ≤ length (snapshot r) ∧
  snapshot r `prefix_of` posted s.

Record state_ok (s : State) : Prop := {
  so_cow : cow_ok (g_foos s);
  so_current : current (g_foos s) = Some (posted s);
  so_views : views (g_foos s) ≡ₚ foos_view <$> readers s;
  so_readers : Forall (reader_ok s) (readers s)
}.

Lemma init_state_ok : state_ok init.
Proof. constructor; [apply Cow_init_ok|done|done|constructor]. Qed.

Lemma post_ok f s :
  state_ok s → ∃ s', post f s = Some s' ∧ state_ok s' ∧ readers s' = readers s ∧
                     posted s' = posted s ++ [f].
Proof.
  intros [Hw Hc Hv Hr]. unfold post.
  destruct (modify_spec (λ l, l ++ [f]) (g_foos s) Hw) as (w & c & Hc' & -> & Hw' & Hcur & Hviews & Hsame).
  assert (c = posted s) as -> by congruence.
  eexists. split; [done|]. split; [|done]. constructor; simpl; [done|done|by rewrite Hviews|].
  rewrite Forall_forall in Hr |- *. intros r Hin. destruct (Hr r Hin) as (Hread & Hit & Hpre).
  unfold reader_ok; split_all; simpl; [|done|by apply prefix_app_r].
  unfold read_view in *. rewrite Hsame; [done|]. rewrite Hv. by apply list_elem_of_fmap_2.
Qed.

Lemma begin_ok s : state_ok s → ∃ s', traverse_begin s = Some s' ∧ state_ok s' ∧
  readers s' = mk_Reader (ptr (g_foos s)) 0 (posted s) :: readers s ∧ posted s' = posted s.
Proof.
  intros [Hw Hc Hv Hr]. unfold traverse_begin.
  destruct (take_view_spec (g_foos s) Hw) as (c & w & Hc' & -> & Hw' & Hh & Hp & Hvs & Hread).
  assert (c = posted s) as -> by congruence. cbn [mbind option_bind]. rewrite Hread.
  eexists. split; [done|]. split; [|done]. constructor; simpl; [done| | |].
  - unfold current. by rewrite Hh, Hp.
  - by rewrite Hvs, Hv.
  - constructor; [unfold reader_ok; split_all; simpl; [done|lia|done]|]. eapply Forall_impl; [exact Hr|].
    intros r (Hread' & ? & ?). unfold reader_ok; split_all; simpl; [|done|done]. unfold read_view in *. by rewrite Hh.
Qed.

(** A round of the [i]-th reader: it visits an element of its snapshot, or has
    visited all of them. *)
Lemma traverse_step_ok i r s :
  state_ok s → readers s !! i = Some r →
  if decide (it r < length (snapshot r))
  then ∃ s', traverse_step i r s = Next s' ∧ state_ok s' ∧ posted s' = posted s ++ [mk_Foo] ∧
             readers s' = <[i := mk_Reader (foos_view r) (S (it r)) (snapshot r)]> (readers s)
  else ∃ s', traverse_step i r s = Finished s' ∧ state_ok s' ∧ posted s' = posted s ∧
             readers s' = delete i (readers s).
Proof.
  intros Hok Hi. pose proof Hok as [Hw Hc Hv Hr].
  pose proof (Forall_lookup_1 _ _ _ _ Hr Hi) as (Hread & Hit & Hpre).
  unfold traverse_step. rewrite Hread. case_decide as Hlt.
  - rewrite bool_decide_true by done.
    destruct (post_ok mk_Foo s Hok) as (s1 & Hp & [Hw1 Hc1 Hv1 Hr1] & Hrs & Hps).
    unfold doit. rewrite Hp. eexists. split; [done|]. split; [|by rewrite <- Hrs].
    pose proof Hi as Hi1. rewrite <- Hrs in Hi1.
    pose proof (Forall_lookup_1 _ _ _ _ Hr1 Hi1) as (Hread1 & _ & Hpre1).
    constructor; simpl; [done|done| |].
    + rewrite Hv1, list_fmap_insert. simpl. rewrite list_insert_id; [done|].
      rewrite list_lookup_fmap, Hi1. done.
    + apply Forall_insert; [done|]. unfold reader_ok; split_all; simpl; [done|lia|done].
  - rewrite bool_decide_false by done.
    assert (views (g_foos s) ≡ₚ foos_view r :: (foos_view <$> delete i (readers s))) as Hperm.
    { rewrite Hv. rewrite (delete_Permutation _ _ _ Hi) at 1. done. }
    assert (foos_view r ∈ views (g_foos s)) as Hin by (rewrite Hperm; left).
    destruct (drop_view_spec (foos_view r) (g_foos s) Hw Hin) as (Hw' & Hcur & Hvs & Hsame).
    assert (views (drop_view (foos_view r) (g_foos s)) ≡ₚ foos_view <$> delete i (readers s)) as Hvs'.
    { apply (Permutation_cons_inv (a := foos_view r)). by rewrite <- Hvs. }
    eexists. split; [done|]. split; [|done]. constructor; simpl; [done|by rewrite Hcur|done|].
    rewrite Forall_forall. intros r' Hr'.
    assert (r' ∈ readers s) as Hr'' by (rewrite (delete_Permutation _ _ _ Hi); by right).
    rewrite Forall_forall in Hr. destruct (Hr r' Hr'') as (? & ? & ?). unfold reader_ok; split_all; simpl; [|done|done].
    unfold read_view in *. rewrite Hsame; [done|]. rewrite Hvs'. by apply list_elem_of_fmap_2.
Qed.

Lemma foos_step_ok s o : state_ok s → step s o → ∃ s', o = Some s' ∧ state_ok s'.
Proof.
  intros Hok [f| |i r Hi].
  - destruct (post_ok f s Hok) as (s' & -> & ? & _). eauto.
  - destruct (begin_ok s Hok) as (s' & -> & ? & _). eauto.
  - pose proof (traverse_step_ok i r s Hok Hi) as Ht.
    case_decide; destruct Ht as (s' & -> & ? & _); eauto.
Qed.

(** C16: [post] and [traverse] may run in any number of threads at once: no step uses
    a deleted list and no assertion fails, a list that a traversal has a view of
    never changes while the view is held, and the current list is everything posted,
    in order. *)
Theorem cow_safe s :
  reachable (eq init) (λ s s', step s (Some s')) s →
  (∀ o, step s o → o ≠ None) ∧ current (g_foos s) = Some (posted s) ∧
  ∀ i r, readers s !! i = Some r →
    read_view (foos_view r) (g_foos s) = Some (snapshot r) ∧ it r ≤ length (snapshot r) ∧
    snapshot r `prefix_of` posted s.
Proof.
  intros Hr. assert (state_ok s) as Hok.
  { revert s Hr. apply invariant_reachable; [intros ? <-; apply init_state_ok|].
    intros s s' Hok Hs. by destruct (foos_step_ok s _ Hok Hs) as (? & [= <-] & ?). }
  split_all.
  - intros o Ho. by destruct (foos_step_ok s o Hok Ho) as (? & -> & _).
  - apply Hok.
  - intros i r. apply (Forall_lookup_1 _ _ _ _ (so_readers _ Hok)).
Qed.

Lemma traverse_loop_S f r rs s :
  readers s = r :: rs →
  traverse_loop (S f) s
  = match traverse_step 0 r s with
    | Undefined => None | Next s => traverse_loop f s | Finished s => Some s
    end.
Proof. intros Hrs. cbn. by rewrite Hrs. Qed.

(** The loop of a traversal with [n] elements to go. *)
Lemma traverse_loop_ok n p k c rs s :
  state_ok s → readers s = mk_Reader p k c :: rs → length c = k + n →
  ∃ s', traverse_loop (S n) s = Some s' ∧ state_ok s' ∧ readers s' = rs ∧
        posted s' = posted s ++ replicate n mk_Foo.
Proof.
  revert k s. induction n as [|n IH]; intros k s Hok Hrs Hlen;
    rewrite (traverse_loop_S _ _ _ _ Hrs);
    assert (readers s !! 0 = Some (mk_Reader p k c)) as H0 by (by rewrite Hrs);
    pose proof (traverse_step_ok 0 _ s Hok H0) as Ht; cbn [it snapshot foos_view] in Ht.
  - rewrite decide_False in Ht by lia. destruct Ht as (s' & -> & ? & Hp & Hr).
    exists s'. split_all; [done|done|by rewrite Hr, Hrs|by rewrite Hp, app_nil_r].
  - rewrite decide_True in Ht by lia. destruct Ht as (s1 & -> & Hok1 & Hp & Hr).
    destruct (IH (S k) s1 Hok1) as (s' & -> & ? & ? & Hp').
    + by rewrite Hr, Hrs.
    + lia.
    + exists s'. split_all; [done|done|done|]. by rewrite Hp', Hp, <- app_assoc.
Qed.

(** [traverse] ends although every element it visits posts another one: it visits
    the elements that were there when it started, and leaves the list twice as
    long; no view stays behind. *)
Theorem traverse_doubles s :
  state_ok s →
  ∃ s', traverse (S (length (posted s))) s = Some s' ∧ state_ok s' ∧ readers s' = readers s ∧
        current (g_foos s') = Some (posted s ++ replicate (length (posted s)) mk_Foo).
Proof.
  intros Hok. destruct (begin_ok s Hok) as (s1 & Hb & Hok1 & Hr1 & Hp1).
  unfold traverse. rewrite Hb. cbn [mbind option_bind].
  destruct (traverse_loop_ok (length (posted s)) _ 0 _ _ s1 Hok1 Hr1) as (s' & -> & Hok' & Hr & Hp);
    [done|].
  exists s'. split_all; [done|done|done|]. rewrite (so_current _ Hok'), Hp. by rewrite Hp1.
Qed.
End Foos.

Lemma cow_safe_witness :
  ∃ s, Foos.traverse_begin Foos.init = Some s ∧
  (∀ o, Foos.step s o → o ≠ None) ∧ current (Foos.g_foos s) = Some (Foos.posted s) ∧
  ∀ i r, Foos.readers s !! i = Some r →
    read_view (Foos.foos_view r) (Foos.g_foos s) = Some (Foos.snapshot r) ∧
    Foos.it r ≤ length (Foos.snapshot r) ∧ Foos.snapshot r `prefix_of` Foos.posted s.
Proof.
  eexists. split; [vm_compute; reflexivity|].
  apply Foos.cow_safe. exists Foos.init. split; [reflexivity|].
  apply rtc_once, Foos.step_begin.
Defined.

Lemma traverse_witness :
  (Foos.posted <$> Foos.main) = Some [Foos.mk_Foo; Foos.mk_Foo] ∧
  ∃ s', Foos.traverse 1 Foos.init = Some s' ∧ Foos.state_ok s' ∧
        Foos.readers s' = [] ∧ current (Foos.g_foos s') = Some [].
Proof.
  split; [vm_compute; reflexivity|]. apply (Foos.traverse_doubles Foos.init Foos.init_state_ok).
Defined.

(** * inventory.cpp *)

Module Inventory.
(** A [weak_ptr] to a [Request]: its control block, or none when it is empty.  The
    order of [owner_less] identifies weak pointers with the same control block, and
    all the empty ones. *)
Abbreviation weak_ptr := (option nat).
Abbreviation RequestWeakSet := (gset weak_ptr).

(** [counts] are the strong counts of the control blocks, and [printed] is history:
    the requests [printAll] has printed. *)
Record State := mk_State {
  requests_ : Cow RequestWeakSet;
  counts : gmap nat nat;
  printed : list nat
}.

Definition Inventory_init : State := mk_State (Cow_init ∅) ∅ [].

Definition set_requests (w : Cow RequestWeakSet) (s : State) : State :=
  mk_State w (counts s) (printed s).

Definition add (req : weak_ptr) (s : State) : option State :=
  w ← modify (λ c, {[req]} ∪ c) (requests_ s); Some (set_requests w s).
Definition remove (req : weak_ptr) (s : State) : option State :=
  w ← modify (λ c, c ∖ {[req]}) (requests_ s); Some (set_requests w s).

(** [printAll]: the requests of the view that are still there are printed. *)
Definition alive (s : State) (r : weak_ptr) : option nat :=
  p ← r; if decide (default 0 (counts s !! p) = 0) then None else Some p.
Definition printAll_begin (s : State) : option (nat * State) :=
  '(p, w) ← take_view (requests_ s); Some (p, set_requests w s).
Definition printAll_end (p : nat) (s : State) : option State :=
  c ← read_view p (requests_ s);
  Some (mk_State (drop_view p (requests_ s)) (counts s)
                 (printed s ++ omap (alive s) (elements c))).

(** [new Request] is not owned by a [shared_ptr], so [weak_from_this] is empty;
    [process] adds it to the inventory and the destructor removes it. *)
Definition weak_from_this : weak_ptr := None.
Definition process (s : State) : option State := add weak_from_this s.
Definition Request_destroy (s : State) : option State := remove weak_from_this s.

(** The calls of any number of threads, in the order of their critical sections;
    [VEnd] ends the view [p] of a [printAll]. *)
Inductive Call := Process | Destroy | VBegin | VEnd (p : nat).
Definition call (c : Call) (s : State) : option State :=
  match c with
  | Process => process s
  | Destroy => Request_destroy s
  | VBegin => snd <$> printAll_begin s
  | VEnd p => if decide (p ∈ views (requests_ s)) then printAll_end p s else Some s
  end.
Fixpoint calls (cs : list Call) (s : State) : option State :=
  match cs with [] => Some s | c :: cs => s ← call c s; calls cs s end.

(** Every container holds at most the empty weak pointer. *)
Definition only_empty (w : Cow RequestWeakSet) : Prop :=
  ∀ p c r, p = ptr w ∨ p ∈ views w → heap w !! p = Some c → r ∈ c → r = None.

Lemma modify_only_empty f w w' :
  cow_ok w → only_empty w → modify f w = Some w' →
  (∀ c r, (∀ r, r ∈ c → r = None) → r ∈ f c → r = None) →
  cow_ok w' ∧ only_empty w'.
Proof.
  intros Hok Ho Hm Hf.
  destruct (modify_spec f w Hok) as (w1 & c & Hc & Hm' & Hok' & Hcur & Hv & Hsame).
  simplify_eq. split; [done|]. intros p d r Hp Hd.
  destruct (decide (p = ptr w')) as [->|Hne].
  - unfold current in Hcur. simplify_eq. apply Hf. intros r' Hr'.
    apply (Ho (ptr w) c r'); [by left|done|done].
  - destruct Hp as [?|Hp]; [done|]. rewrite Hv in Hp. rewrite Hsame in Hd by done.
    apply (Ho p d r); [by right|done].
Qed.

Lemma omap_empty s (l : list weak_ptr) : (∀ r, r ∈ l → r = None) → omap (alive s) l = [].
Proof.
  induction l as [|r l IH]; [done|]. intros Hl.
  assert (r = None) as -> by (apply Hl; left). simpl. apply IH. intros q Hq. apply Hl. by right.
Qed.

Lemma call_ok c s :
  cow_ok (requests_ s) → only_empty (requests_ s) → printed s = [] →
  ∃ s', call c s = Some s' ∧ cow_ok (requests_ s') ∧ only_empty (requests_ s') ∧ printed s' = [].
Proof.
  intros Hok Ho Hp. destruct c as [| | |p]; simpl.
  - unfold process, add, weak_from_this.
    destruct (modify_spec (λ c, {[None]} ∪ c) (requests_ s) Hok) as (w & c & _ & Hm & _).
    rewrite Hm. eexists. split; [done|].
    destruct (modify_only_empty _ _ _ Hok Ho Hm) as [? ?]; [|done].
    intros d r Hd. rewrite elem_of_union, elem_of_singleton. intros [->|?]; [done|by apply Hd].
  - unfold Request_destroy, remove, weak_from_this.
    destruct (modify_spec (λ c, c ∖ {[None]}) (requests_ s) Hok) as (w & c & _ & Hm & _).
    rewrite Hm. eexists. split; [done|].
    destruct (modify_only_empty _ _ _ Hok Ho Hm) as [? ?]; [|done].
    intros d r Hd. rewrite elem_of_difference. intros [? _]. by apply Hd.
  - unfold printAll_begin.
    destruct (take_view_spec (requests_ s) Hok) as (c & w & _ & -> & Hok' & Hh & Hpt & Hv & _).
    eexists. split; [done|]. simpl. split_all; [done| |done].
    intros p d r Hp'. rewrite Hh. apply Ho. rewrite Hpt, Hv, elem_of_cons in Hp'. naive_solver.
  - case_decide as Hin; [|by exists s]. unfold printAll_end, read_view.
    destruct (proj2 (Hok p) ltac:(by right)) as [c Hc]. rewrite Hc.
    eexists. split; [done|]. simpl.
    destruct (drop_view_spec p (requests_ s) Hok Hin) as (Hok' & _ & Hperm & Hsame).
    split_all; [done| |].
    + intros q d r [->|Hq] Hd.
      * unfold drop_view in Hd. simpl in Hd. revert Hd. case_decide; simpl.
        { intros Hd%lookup_delete_Some. apply (Ho (ptr (requests_ s)) d r); [by left|]. tauto. }
        { intros Hd. apply (Ho (ptr (requests_ s)) d r); [by left|done]. }
      * rewrite Hsame in Hd by done. apply (Ho q d r); [right|done]. rewrite Hperm. by right.
    + rewrite Hp. simpl. apply omap_empty. intros r Hr%elem_of_elements.
      apply (Ho p c r); [by right|done|done].
Qed.

(** No sequence of calls on the inventory is undefined, and [printAll] never prints
    a request: the requests are not owned by shared pointers, so what they add and
    remove is the empty weak pointer. *)
Theorem inventory_prints_nothing cs :
  ∃ s, calls cs Inventory_init = Some s ∧ printed s = [] ∧ cow_ok (requests_ s).
Proof.
  assert (∀ s, cow_ok (requests_ s) → only_empty (requests_ s) → printed s = [] →
    ∃ s', calls cs s = Some s' ∧ printed s' = [] ∧ cow_ok (requests_ s')) as H.
  { induction cs as [|c cs IH]; intros s Hok Ho Hp; simpl; [by exists s|].
    destruct (call_ok c s Hok Ho Hp) as (s1 & -> & ? & ? & ?). by apply IH. }
  apply H; [apply Cow_init_ok| |done].
  intros p c r _. simpl. rewrite lookup_singleton_Some. intros [_ <-]. by rewrite elem_of_empty.
Qed.
End Inventory.
