(* ===== verification/CppHeap.v ===== *)
(** The free store of the C++ classes that manage arrays of their own: [new[]],
    [delete[]], indexing, and the C strings of the library ([strlen], [strcpy],
    [strcmp]).

    A program that follows a dangling pointer, leaves an array or reads a byte nobody
    wrote is undefined; such an access is [None]. *)

From S2P Require Import Prelude.
From Stdlib Require Import Ascii.

(** * Arrays *)

(** The arrays allocated and not yet deleted; an element is [None] until it is
    written. *)
Abbreviation Heap A := (gmap nat (list (option A))).

Section heap.
Context {A : Type}.
Implicit Types (h : Heap A) (p : nat).

Definition new_array (n : nat) h : nat * Heap A :=
  let p := fresh (dom h) in (p, <[p := replicate n None]> h).
(** [delete[]] of a null pointer does nothing. *)
Definition delete_array (o : option nat) h : option (Heap A) :=
  match o with
  | None => Some h
  | Some p => _ ← h !! p; Some (delete p h)
  end.
Definition read p (i : nat) h : option A := l ← h !! p; c ← l !! i; c.
Definition write p (i : nat) (x : A) h : option (Heap A) :=
  l ← h !! p; if decide (i < length l) then Some (<[p := <[i := Some x]> l]> h) else None.

(** Writing a list of elements from an index on. *)
Fixpoint write_list p (i : nat) (xs : list A) h : option (Heap A) :=
  match xs with
  | [] => Some h
  | x :: xs => h ← write p i x h; write_list p (S i) xs h
  end.
(** Reading [n] elements from an index on. *)
Fixpoint read_list p (i n : nat) h : option (list A) :=
  match n with
  | O => Some []
  | S n => x ← read p i h; xs ← read_list p (S i) n h; Some (x :: xs)
  end.

Lemma new_array_fresh n h : h !! (new_array n h).1 = None.
Proof. apply not_elem_of_dom. simpl. apply is_fresh. Qed.

Lemma write_list_spec p i xs h l1 l2 l3 :
  h !! p = Some (l1 ++ l2 ++ l3) → length l1 = i → length l2 = length xs →
  write_list p i xs h = Some (<[p := l1 ++ (Some <$> xs) ++ l3]> h).
Proof.
  revert i h l1 l2. induction xs as [|x xs IH]; intros i h l1 l2 Hp Hi Hl; simpl.
  - destruct l2; [|done]. simpl in Hp. by rewrite insert_id.
  - destruct l2 as [|y l2]; [done|]. unfold write. rewrite Hp. cbn [mbind option_bind].
    rewrite decide_True by (rewrite !length_app; simpl; lia). cbn [mbind option_bind].
    rewrite insert_app_r_alt, Hi, Nat.sub_diag by lia. simpl.
    rewrite (IH (S i) _ (l1 ++ [Some x]) l2).
    + by rewrite insert_insert_eq, <- app_assoc.
    + by rewrite lookup_insert_eq, <- app_assoc.
    + rewrite length_app. simpl. lia.
    + simpl in Hl. lia.
Qed.

Lemma read_list_spec p i xs h l1 l3 :
  h !! p = Some (l1 ++ (Some <$> xs) ++ l3) → length l1 = i →
  read_list p i (length xs) h = Some xs.
Proof.
  revert i l1. induction xs as [|x xs IH]; intros i l1 Hp Hi; [done|]. simpl in *.
  unfold read at 1. rewrite Hp. cbn [mbind option_bind].
  rewrite lookup_app_r, Hi, Nat.sub_diag by lia. simpl.
  rewrite (IH (S i) (l1 ++ [Some x])); [done| |rewrite length_app; simpl; lia].
  by rewrite <- app_assoc.
Qed.

(** * Objects that own an array *)

(** The pointers of the live objects are distinct and are all that is allocated: no
    array is shared, dangling or leaked. *)
Definition owned (ptrs : gmap nat nat) h : Prop :=
  (∀ x y p, ptrs !! x = Some p → ptrs !! y = Some p → x = y) ∧
  (∀ p, is_Some (h !! p) ↔ ∃ x, ptrs !! x = Some p).

Lemma owned_empty : owned ∅ ∅.
Proof.
  split; [intros x y p; by rewrite lookup_empty|]. intros p. rewrite lookup_empty.
  split; [by intros [? ?]|]. intros [x Hx]. by rewrite lookup_empty in Hx.
Qed.

(** A new object with a new array. *)
Lemma owned_new ptrs h x p l :
  owned ptrs h → ptrs !! x = None → h !! p = None → owned (<[x := p]> ptrs) (<[p := l]> h).
Proof.
  intros [Hinj Hdom] Hx Hp.
  assert (∀ y, ptrs !! y ≠ Some p) as Hfresh.
  { intros y Hy. destruct (proj2 (Hdom p)) as [? ?]; [eauto|congruence]. }
  split.
  - intros y z q. rewrite !lookup_insert_Some.
    intros [[? ?]|[? Hy]] [[? ?]|[? Hz]]; subst; try done; [by destruct (Hfresh z)|by destruct (Hfresh y)|].
    by apply (Hinj y z q).
  - intros q. rewrite lookup_insert_is_Some, Hdom. split.
    + intros [<-|[Hne [y Hy]]]; [exists x; by rewrite lookup_insert_eq|].
      exists y. rewrite lookup_insert_ne; [done|congruence].
    + intros [y Hy]. apply lookup_insert_Some in Hy as [[_ ->]|[Hne Hy]]; [by left|].
      right. split; [intros ->; by destruct (Hfresh y)|eauto].
Qed.

(** An object gone with its array. *)
Lemma owned_delete ptrs h x p :
  owned ptrs h → ptrs !! x = Some p → owned (delete x ptrs) (delete p h).
Proof.
  intros [Hinj Hdom] Hx. split.
  - intros y z q. rewrite !lookup_delete_Some. intros [_ ?] [_ ?]. by apply (Hinj y z q).
  - intros q. rewrite lookup_delete_is_Some, Hdom. split.
    + intros [Hne [y Hy]]. exists y. rewrite lookup_delete_Some. split; [|done]. congruence.
    + intros [y Hy]. apply lookup_delete_Some in Hy as [Hne Hy]. split; [|eauto].
      intros ->. apply Hne. by apply (Hinj x y q).
Qed.

(** Writing to an array that is there. *)
Lemma owned_write ptrs h p l :
  owned ptrs h → is_Some (h !! p) → owned ptrs (<[p := l]> h).
Proof.
  intros [Hinj Hdom] Hp. split; [done|]. intros q. rewrite lookup_insert_is_Some, <- Hdom.
  split; [by intros [<-|[_ ?]]|]. intros Hq. destruct (decide (p = q)); [by left|by right].
Qed.

(** The array of an object has contents nobody else can change. *)
Lemma owned_alloc ptrs h x p : owned ptrs h → ptrs !! x = Some p → is_Some (h !! p).
Proof. intros [_ Hdom] Hx. apply Hdom. eauto. Qed.
End heap.

(** * C strings *)

Abbreviation cstr := (list ascii).
Definition NUL : ascii := zero.

(** The characters before the first zero. *)
Fixpoint c_scan (l : list (option ascii)) : option cstr :=
  match l with
  | Some c :: l => if Ascii.eqb c NUL then Some [] else s ← c_scan l; Some (c :: s)
  | _ => None
  end.
Definition c_str (p : nat) (h : Heap ascii) : option cstr := l ← h !! p; c_scan l.
Definition strcpy (p : nat) (s : cstr) (h : Heap ascii) : option (Heap ascii) :=
  write_list p 0 (s ++ [NUL]) h.

(** Text without a zero byte, which is what a C string can hold. *)
Definition text_ok (s : cstr) : Prop := NUL ∉ s.

Lemma c_scan_text s l : text_ok s → c_scan ((Some <$> s ++ [NUL]) ++ l) = Some s.
Proof.
  unfold text_ok. induction s as [|c s IH]; simpl; [done|]. rewrite not_elem_of_cons. intros [Hc Hs].
  destruct (Ascii.eqb c NUL) eqn:E; [by apply Ascii.eqb_eq in E|]. specialize (IH Hs).
  change (list_fmap _ _ Some (s ++ [NUL])) with (Some <$> s ++ [NUL]). by rewrite IH.
Qed.

(** A new array with a copy of a text. *)
Lemma new_strcpy n s h :
  length s < n →
  let '(p, h1) := new_array n h in
  strcpy p s h1 = Some (<[p := (Some <$> s ++ [NUL]) ++ replicate (n - S (length s)) None]> h).
Proof.
  intros Hn. unfold new_array, strcpy. set (p := fresh _).
  rewrite (write_list_spec p 0 _ _ [] (replicate (S (length s)) None)
             (replicate (n - S (length s)) None)).
  - by rewrite insert_insert_eq.
  - rewrite lookup_insert_eq, app_nil_l, <- replicate_add. do 2 f_equal. lia.
  - done.
  - rewrite length_replicate, length_app. simpl. lia.
Qed.

(** [strcmp]: the sign of the first difference of the characters as unsigned bytes. *)
Fixpoint strcmp (s t : cstr) : Z :=
  match s, t with
  | [], [] => 0
  | [], _ :: _ => -1
  | _ :: _, [] => 1
  | c :: s, d :: t =>
      match Nat.compare (nat_of_ascii c) (nat_of_ascii d) with
      | Lt => -1 | Gt => 1 | Eq => strcmp s t
      end
  end%Z.

Lemma strcmp_eq s t : strcmp s t = 0%Z ↔ s = t.
Proof.
  revert t. induction s as [|c s IH]; intros [|d t]; simpl; try done.
  destruct (Nat.compare_spec (nat_of_ascii c) (nat_of_ascii d)) as [E|E|E].
  - rewrite IH. split; [|congruence]. intros ->. f_equal.
    rewrite <- (ascii_nat_embedding c), <- (ascii_nat_embedding d). by f_equal.
  - split; [done|]. intros [= -> _]. lia.
  - split; [done|]. intros [= -> _]. lia.
Qed.

Lemma strcmp_antisym s t : strcmp t s = (- strcmp s t)%Z.
Proof.
  revert t. induction s as [|c s IH]; intros [|d t]; simpl; try done.
  rewrite Nat.compare_antisym. destruct (Nat.compare _ _); simpl; [apply IH|done|done].
Qed.

Lemma strcmp_trans s t u : (strcmp s t < 0 → strcmp t u < 0 → strcmp s u < 0)%Z.
Proof.
  revert t u. induction s as [|c s IH]; intros [|d t] [|e u]; simpl; try lia.
  destruct (Nat.compare_spec (nat_of_ascii c) (nat_of_ascii d)),
    (Nat.compare_spec (nat_of_ascii d) (nat_of_ascii e)),
    (Nat.compare_spec (nat_of_ascii c) (nat_of_ascii e)); try lia; apply IH.
Qed.
