(* ===== verification/CppString.v ===== *)
(** The string class of [src/cpp/cpp_class/string.h] and [string.cpp].

    Objects are named by numbers; each owns a character array of the free store of
    [CppHeap.v].  The theorems say that the class behaves as a value type: every
    sequence of its operations does to the objects what the same sequence does to a
    map of texts, and neither leaks nor frees twice. *)

From S2P Require Import Prelude CppHeap.
From Stdlib Require Import Ascii.
From Stdlib Require String.

Local Open Scope Z_scope.

Record String := mk_String { mStr : nat; mLength : nat; mStrSize : nat }.

(** [out] are the messages of the constructors, the destructor and the assignments. *)
Record State := mk_State {
  heap : Heap ascii;
  objs : gmap nat String;
  numObjects : Z;
  out : output
}.

Definition init : State := mk_State ∅ ∅ 0 [].

Definition say (m : string) (st : State) : State :=
  mk_State (heap st) (objs st) (numObjects st) (out st ++ [m]).
Definition set_objs (o : gmap nat String) (n : Z) (st : State) : State :=
  mk_State (heap st) o n (out st).
Definition set_heap (h : Heap ascii) (st : State) : State :=
  mk_State h (objs st) (numObjects st) (out st).

(** [initStr (s, allocatedSize)]; with a negative size other than -1, [mLength] would be
    used before it is set. *)
Definition initStr (s : cstr) (allocatedSize : Z) (h : Heap ascii) : option (String * Heap ascii) :=
  let size := length s in
  len ← (if allocatedSize =? -1 then Some (S size)
         else if 0 <=? allocatedSize then Some (Nat.max (Z.to_nat allocatedSize) (S size))
         else None);
  let '(p, h) := new_array len h in
  h ← strcpy p s h;
  Some (mk_String p len size, h).

(** A constructor of the object [x] with text [s]. *)
Definition construct (m : string) (x : nat) (s : cstr) (allocatedSize : Z) (st : State) : option State :=
  let st := say m st in
  '(o, h) ← initStr s allocatedSize (heap st);
  Some (set_heap h (set_objs (<[x := o]> (objs st)) (numObjects st + 1) st)).

Definition String_default (x : nat) (st : State) : option State :=
  construct "Default constructor called" x [] 4 st.
Definition String_cstr (x : nat) (s : cstr) (st : State) : option State :=
  construct "Custom constructor called" x s (-1) st.
Definition String_copy (x y : nat) (st : State) : option State :=
  ss ← objs st !! y;
  s ← c_str (mStr ss) (heap st);
  construct "Copy constructor called" x s (-1) st.
Definition String_destroy (x : nat) (st : State) : option State :=
  let st := say "Destructor called" st in
  o ← objs st !! x;
  h ← delete_array (Some (mStr o)) (heap st);
  Some (set_heap h (set_objs (delete x (objs st)) (numObjects st - 1) st)).

(** [delete[] mStr] and [initStr] with the text the pointer [src] has by then. *)
Definition reassign (x : nat) (src : Heap ascii → option cstr) (st : State) : option State :=
  o ← objs st !! x;
  h ← delete_array (Some (mStr o)) (heap st);
  s ← src h;
  '(o, h) ← initStr s (-1) h;
  Some (set_heap h (set_objs (<[x := o]> (objs st)) (numObjects st) st)).

Definition assign (x y : nat) (st : State) : option State :=
  let st := say "Assignment called" st in
  ss ← objs st !! y;
  if decide (x = y) then Some st else reassign x (c_str (mStr ss)) st.
(** Assignment of a C string outside the objects, and of a pointer into the free
    store, such as the conversion to [charp_t] gives. *)
Definition assign_cstr (x : nat) (s : cstr) (st : State) : option State :=
  reassign x (λ _, Some s) (say "Assignment called" st).
Definition assign_charp (x p : nat) (st : State) : option State :=
  reassign x (c_str p) (say "Assignment called" st).

Definition size (x : nat) (st : State) : option nat := mStrSize <$> objs st !! x.
Definition charp (x : nat) (st : State) : option nat := mStr <$> objs st !! x.
(** What [operator<<] prints. *)
Definition text (x : nat) (st : State) : option cstr := o ← objs st !! x; c_str (mStr o) (heap st).

Definition op_lt (x y : nat) (st : State) : option bool :=
  s ← text x st; t ← text y st; Some (strcmp s t <? 0).
Definition op_gt (x y : nat) (st : State) : option bool := op_lt y x st.
Definition op_eq (x y : nat) (st : State) : option bool :=
  s ← text x st; t ← text y st; Some (strcmp s t =? 0).

(** [operator[]], as a value and as the target of an assignment. *)
Definition get (x : nat) (i : Z) (st : State) : option ascii :=
  o ← objs st !! x; if i <? 0 then None else read (mStr o) (Z.to_nat i) (heap st).
Definition put (x : nat) (i : Z) (c : ascii) (st : State) : option State :=
  o ← objs st !! x;
  if i <? 0 then None else h ← write (mStr o) (Z.to_nat i) c (heap st); Some (set_heap h st).

Definition howMany (st : State) : Z := numObjects st.

(** ** Input *)

Definition CINLIM : nat := 80.
Definition newline : ascii := ascii_of_nat 10.

(** An input stream: the characters to come, and whether it has failed. *)
Record istream := mk_istream { chars : list ascii; good : bool }.

(** The characters before the end of the line, at most [n]. *)
Fixpoint line (n : nat) (l : list ascii) : list ascii :=
  match n, l with
  | S n, c :: l => if Ascii.eqb c newline then [] else c :: line n l
  | _, _ => []
  end.
(** [is.get (CINBUFFER, CINLIM)] fails when it extracts nothing. *)
Definition istream_get (str : istream) : list ascii * istream :=
  let s := line (CINLIM - 1) (chars str) in
  (s, mk_istream (drop (length s) (chars str)) (good str && negb (bool_decide (s = [])))).
(** [while (is && is.get () != '\n')]: reading at the end fails. *)
Fixpoint skip_line (l : list ascii) : istream :=
  match l with
  | [] => mk_istream [] false
  | c :: l => if Ascii.eqb c newline then mk_istream l true else skip_line l
  end.

(** [operator>>]; the text read holds no zero byte because it is cut at one. *)
Definition op_in (x : nat) (str : istream) (st : State) : option (istream * State) :=
  let '(s, str) := if good str then istream_get str else ([], str) in
  if good str
  then st ← reassign x (λ _, c_scan (Some <$> s ++ [NUL])) st; Some (skip_line (chars str), st)
  else Some (str, st).

(** * The class as a value type *)

Inductive Command :=
| Default (x : nat) | Construct (x : nat) (s : cstr) | Copy (x y : nat) | Destroy (x : nat)
| Assign (x y : nat) | AssignStr (x : nat) (s : cstr) | Put (x : nat) (i : Z) (c : ascii).

Definition exec (c : Command) (st : State) : option State :=
  match c with
  | Default x => String_default x st
  | Construct x s => String_cstr x s st
  | Copy x y => String_copy x y st
  | Destroy x => String_destroy x st
  | Assign x y => assign x y st
  | AssignStr x s => assign_cstr x s st
  | Put x i c => put x i c st
  end.
Fixpoint execs (cs : list Command) (st : State) : option State :=
  match cs with [] => Some st | c :: cs => st ← exec c st; execs cs st end.

(** The specification: a map of texts. *)
Definition spec (c : Command) (m : gmap nat cstr) : gmap nat cstr :=
  match c with
  | Default x => <[x := []]> m
  | Construct x s => <[x := s]> m
  | Copy x y | Assign x y => <[x := default [] (m !! y)]> m
  | Destroy x => delete x m
  | AssignStr x s => <[x := s]> m
  | Put x i c => <[x := <[Z.to_nat i := c]> (default [] (m !! x))]> m
  end.

(** What the caller must see to: new objects have new names, other names exist, texts
    are C strings, and a character put in place is one of the text's and not zero. *)
Definition valid (c : Command) (m : gmap nat cstr) : bool :=
  match c with
  | Default x => bool_decide (m !! x = None)
  | Construct x s => bool_decide (m !! x = None ∧ NUL ∉ s)
  | Copy x y => bool_decide (m !! x = None ∧ m !! y ≠ None)
  | Destroy x => bool_decide (m !! x ≠ None)
  | Assign x y => bool_decide (m !! x ≠ None ∧ m !! y ≠ None)
  | AssignStr x s => bool_decide (m !! x ≠ None ∧ NUL ∉ s)
  | Put x i c => bool_decide (m !! x ≠ None ∧ c ≠ NUL ∧ 0 ≤ i < Z.of_nat (length (default [] (m !! x))))
  end.
Fixpoint valids (cs : list Command) (m : gmap nat cstr) : bool :=
  match cs with [] => true | c :: cs => valid c m && valids cs (spec c m) end.
Definition specs (cs : list Command) (m : gmap nat cstr) : gmap nat cstr :=
  foldl (λ m c, spec c m) m cs.

(** ** The relation *)

(** An object and its text. *)
Definition holds (h : Heap ascii) (o : String) (s : cstr) : Prop :=
  text_ok s ∧ mStrSize o = length s ∧
  ∃ rest, h !! mStr o = Some ((Some <$> s ++ [NUL]) ++ rest) ∧
          mLength o = (S (length s) + length rest)%nat.

Record refines (st : State) (m : gmap nat cstr) : Prop := {
  rf_owned : owned (mStr <$> objs st) (heap st);
  rf_dom x : objs st !! x = None ↔ m !! x = None;
  rf_holds x o s : objs st !! x = Some o → m !! x = Some s → holds (heap st) o s;
  rf_count : numObjects st = Z.of_nat (base.size m)
}.

Lemma init_refines : refines init ∅.
Proof.
  constructor; simpl; [rewrite fmap_empty; apply owned_empty| | |done].
  - intros x. by rewrite !lookup_empty.
  - intros x o s. by rewrite lookup_empty.
Qed.

Lemma string_refines_obj st m x s :
  refines st m → m !! x = Some s → ∃ o, objs st !! x = Some o ∧ holds (heap st) o s.
Proof.
  intros Hr Hx. destruct (objs st !! x) as [o|] eqn:Ho.
  - exists o. split; [done|]. by apply (rf_holds _ _ Hr x).
  - apply (rf_dom _ _ Hr) in Ho. congruence.
Qed.

Lemma holds_c_str h o s : holds h o s → c_str (mStr o) h = Some s.
Proof. intros (Ht & _ & rest & Hp & _). unfold c_str. rewrite Hp. by apply c_scan_text. Qed.

(** A new array does not disturb the others. *)
Lemma holds_insert h o s p l : h !! p = None → holds h o s → holds (<[p := l]> h) o s.
Proof.
  intros Hp (? & ? & rest & Ho & ?). unfold holds; split_all; [done|done|]. exists rest.
  rewrite lookup_insert_ne by congruence. done.
Qed.

Lemma initStr_spec s (a : Z) h :
  text_ok s → a = -1 ∨ 0 ≤ a →
  ∃ o h', initStr s a h = Some (o, h') ∧ h !! mStr o = None ∧
          (∃ l, h' = <[mStr o := l]> h) ∧ holds h' o s.
Proof.
  intros Hs Ha. unfold initStr.
  assert (∃ len, (if a =? -1 then Some (S (length s))
                  else if 0 <=? a then Some (Nat.max (Z.to_nat a) (S (length s))) else None) = Some len
                 ∧ (length s < len)%nat) as (len & -> & Hlen).
  { destruct (Z.eqb_spec a (-1)); [eexists; split; [done|lia]|].
    destruct (Z.leb_spec 0 a); [eexists; split; [done|lia]|lia]. }
  cbn [mbind option_bind]. pose proof (new_strcpy len s h Hlen) as Hc.
  pose proof (new_array_fresh len h) as Hf. destruct (new_array len h) as [p h1]. simpl in Hf.
  rewrite Hc. cbn [mbind option_bind]. eexists _, _. split; [done|]. simpl.
  split; [done|]. split; [by eexists|]. unfold holds; split_all; [done|done|].
  eexists. rewrite lookup_insert_eq. split; [done|]. simpl. rewrite length_replicate. lia.
Qed.

(** Giving a name that is free to a new object. *)
Lemma construct_refines st m x s (a : Z) msg :
  refines st m → m !! x = None → text_ok s → a = -1 ∨ 0 ≤ a →
  ∃ st', construct msg x s a st = Some st' ∧ refines st' (<[x := s]> m).
Proof.
  intros [Ho Hd Hh Hn] Hx Hs Ha. unfold construct.
  destruct (initStr_spec s a (heap st) Hs Ha) as (o & h' & Hi & Hf & [l ->] & Hob).
  cbn [heap say]. rewrite Hi. cbn [mbind option_bind]. eexists. split; [done|].
  assert (objs st !! x = None) as Hx' by (by apply Hd).
  constructor; simpl.
  - rewrite fmap_insert. apply owned_new; [done| |done]. by rewrite lookup_fmap, Hx'.
  - intros y. rewrite !lookup_insert_None, Hd. done.
  - intros y o' s'. rewrite !lookup_insert_Some.
    intros [[<- <-]|[Hne Hy]] [[? <-]|[? Hm]]; try done. apply holds_insert; [done|].
    by apply (Hh y).
  - rewrite Hn, map_size_insert_None by done. lia.
Qed.

(** Removing an object. *)
Definition remove (x : nat) (o : String) (st : State) : State :=
  mk_State (delete (mStr o) (heap st)) (delete x (objs st)) (numObjects st - 1) (out st).

Lemma string_remove_refines st m x o :
  refines st m → objs st !! x = Some o → refines (remove x o st) (delete x m).
Proof.
  intros [Ho Hd Hh Hn] Hx.
  assert (is_Some (m !! x)) as [s Hm].
  { apply not_eq_None_Some. rewrite <- Hd. congruence. }
  constructor; simpl.
  - rewrite fmap_delete. apply owned_delete; [done|]. by rewrite lookup_fmap, Hx.
  - intros y. rewrite !lookup_delete_None, Hd. done.
  - intros y o' s'. rewrite !lookup_delete_Some. intros [Hne Hy] [_ Hs'].
    destruct (Hh y o' s' Hy Hs') as (? & ? & rest & Hp & ?). unfold holds; split_all; [done|done|].
    exists rest. rewrite lookup_delete_ne; [done|]. intros He. apply Hne.
    destruct Ho as [Hinj _]. apply (Hinj x y (mStr o')); rewrite lookup_fmap, ?Hx, ?Hy; simpl; congruence.
  - rewrite Hn, map_size_delete_Some by done. pose proof (map_size_ne_0_lookup_2 m x). 
    assert (base.size m ≠ 0%nat) by (apply map_size_ne_0_lookup; eauto). lia.
Qed.

Lemma refines_alloc st m x o :
  refines st m → objs st !! x = Some o → is_Some (heap st !! mStr o).
Proof.
  intros Hr Hx. apply (owned_alloc (mStr <$> objs st) _ x); [apply Hr|].
  by rewrite lookup_fmap, Hx.
Qed.

(** Freeing the array and making a new one for the same object. *)
Lemma reassign_refines st m x o s src :
  refines st m → objs st !! x = Some o → text_ok s → src (delete (mStr o) (heap st)) = Some s →
  ∃ st', reassign x src st = Some st' ∧ refines st' (<[x := s]> m).
Proof.
  intros Hr Hx Hs Hsrc. destruct (refines_alloc st m x o Hr Hx) as [l Hl].
  unfold reassign. rewrite Hx. cbn [mbind option_bind delete_array]. rewrite Hl.
  cbn [mbind option_bind]. rewrite Hsrc. cbn [mbind option_bind].
  pose proof (string_remove_refines st m x o Hr Hx) as Hr1.
  assert (delete x m !! x = None) as Hx1 by apply lookup_delete_eq.
  destruct (construct_refines (remove x o st) (delete x m) x s (-1) "" Hr1 Hx1 Hs ltac:(by left))
    as (st' & Hc & [Ho Hd Hh Hn]).
  unfold construct in Hc. cbn [heap say remove] in Hc.
  destruct (initStr s (-1) (delete (mStr o) (heap st))) as [[o' h']|]; [|done].
  cbn [mbind option_bind] in *. simplify_eq. simpl in *.
  rewrite (insert_delete_eq m) in *. rewrite (insert_delete_eq (objs st)) in *.
  eexists. split; [done|]. constructor; simpl; [done|done|done|lia].
Qed.

(** The messages do not matter. *)
Lemma say_refines st m msg : refines st m → refines (say msg st) m.
Proof. intros [? ? ? ?]. by constructor. Qed.

(** Writing a character of the text in place. *)
Lemma put_refines st m x (i : Z) c s :
  refines st m → m !! x = Some s → c ≠ NUL → 0 ≤ i < Z.of_nat (length s) →
  ∃ st', put x i c st = Some st' ∧ refines st' (<[x := <[Z.to_nat i := c]> s]> m).
Proof.
  intros Hr Hm Hc Hi. destruct (string_refines_obj st m x s Hr Hm) as (o & Hx & Ht & Hsz & rest & Hp & Hl).
  unfold put. rewrite Hx. cbn [mbind option_bind]. rewrite (proj2 (Z.ltb_ge i 0)) by lia.
  unfold write. rewrite Hp. cbn [mbind option_bind].
  assert (Z.to_nat i < length s)%nat as Hi' by lia.
  rewrite decide_True by (rewrite !length_app, length_fmap, length_app; simpl; lia).
  cbn [mbind option_bind]. eexists. split; [done|]. destruct Hr as [Ho Hd Hh Hn].
  constructor; simpl; [by apply owned_write; [|eexists]| | |].
  - intros y. rewrite Hd, lookup_insert_None. split; [|by intros [? _]].
    intros Hy. split; [done|]. congruence.
  - intros y o' s' Hy. rewrite lookup_insert_Some. intros [[<- <-]|[Hne Hm']].
    + assert (o' = o) as -> by congruence. unfold holds; split_all.
      * unfold text_ok. intros [k Hk]%list_elem_of_lookup.
        apply list_lookup_insert_Some in Hk as [(_ & ? & _)|[_ Hk]]; [congruence|].
        by apply Ht, (list_elem_of_lookup_2 _ k).
      * by rewrite length_insert.
      * exists rest. rewrite lookup_insert_eq, length_insert. split; [|done].
        rewrite !insert_app_l by (rewrite ?length_fmap, ?length_app; simpl; lia).
        by rewrite <- list_fmap_insert, insert_app_l.
    + destruct (Hh y o' s' Hy Hm') as (? & ? & rest' & Hp' & ?). unfold holds; split_all; [done|done|].
      exists rest'. rewrite lookup_insert_ne; [done|]. intros He. apply Hne.
      destruct Ho as [Hinj _]. apply (Hinj x y (mStr o')); rewrite lookup_fmap, ?Hx, ?Hy; simpl; congruence.
  - rewrite Hn, map_size_insert_Some; [done|by eexists].
Qed.

Lemma default_text_ok : text_ok [].
Proof. apply not_elem_of_nil. Qed.

Lemma string_exec_refines c st m :
  refines st m → valid c m = true → ∃ st', exec c st = Some st' ∧ refines st' (spec c m).
Proof.
  intros Hr Hv. destruct c as [x|x s|x y|x|x y|x s|x i c]; simpl in Hv;
    apply bool_decide_eq_true in Hv; simpl.
  - apply construct_refines; [done|done|apply default_text_ok|by right].
  - apply construct_refines; [done|apply Hv|apply Hv|by left].
  - destruct Hv as [Hx [s Hy]%not_eq_None_Some].
    destruct (string_refines_obj st m y s Hr Hy) as (o & Ho & Hs). unfold String_copy.
    rewrite Ho. cbn [mbind option_bind]. rewrite (holds_c_str _ _ _ Hs), Hy.
    apply construct_refines; [done|done|apply Hs|by left].
  - apply not_eq_None_Some in Hv as [s Hx].
    destruct (string_refines_obj st m x s Hr Hx) as (o & Ho & Hs). unfold String_destroy.
    cbn [objs say]. rewrite Ho. cbn [mbind option_bind delete_array heap say].
    destruct (refines_alloc st m x o Hr Ho) as [l Hl]. rewrite Hl. eexists. split; [done|].
    apply (say_refines _ _ "Destructor called") in Hr. by apply (string_remove_refines _ _ x o) in Hr.
  - destruct Hv as [[s Hx]%not_eq_None_Some [t Hy]%not_eq_None_Some]. rewrite Hy.
    apply (say_refines _ _ "Assignment called") in Hr. unfold assign.
    destruct (string_refines_obj _ m y t Hr Hy) as (oy & Hoy & Ht). cbn zeta. rewrite Hoy.
    cbn [mbind option_bind default from_option id]. case_decide as Hxy.
    + subst y. eexists. split; [done|]. by rewrite insert_id.
    + destruct (string_refines_obj _ m x s Hr Hx) as (ox & Hox & Hs).
      apply (reassign_refines _ m x ox t); [done|done|apply Ht|].
      rewrite <- (holds_c_str _ _ _ Ht). unfold c_str. rewrite lookup_delete_ne; [done|].
      intros He. apply Hxy. destruct (rf_owned _ _ Hr) as [Hinj _].
      apply (Hinj x y (mStr oy)); rewrite lookup_fmap, ?Hox, ?Hoy; simpl; congruence.
  - destruct Hv as [[t Hx]%not_eq_None_Some Hs].
    apply (say_refines _ _ "Assignment called") in Hr.
    destruct (string_refines_obj _ m x t Hr Hx) as (o & Ho & _).
    by apply (reassign_refines _ m x o s).
  - destruct Hv as ([s Hx]%not_eq_None_Some & Hc & Hi). rewrite Hx in Hi |- *.
    by apply put_refines.
Qed.

Lemma execs_refines cs st m :
  refines st m → valids cs m = true → ∃ st', execs cs st = Some st' ∧ refines st' (specs cs m).
Proof.
  revert st m. induction cs as [|c cs IH]; intros st m Hr Hv; simpl in *; [by exists st|].
  apply andb_true_iff in Hv as [Hc Hcs].
  destruct (string_exec_refines c st m Hr Hc) as (st1 & -> & Hr1). by apply IH.
Qed.

(** C17: [String] is a value type.  Every sequence of constructions, copies,
    assignments (also to itself), character writes and destructions is defined;
    afterwards [operator<<] and [size] give each object the text a map of texts has
    for it, [howMany] counts the objects, [==] and [<] compare the texts, and when no
    object is left neither is any array. *)
Theorem string_value_type cs :
  valids cs ∅ = true →
  ∃ st, execs cs init = Some st ∧
    (∀ x, text x st = specs cs ∅ !! x) ∧
    (∀ x, size x st = length <$> specs cs ∅ !! x) ∧
    howMany st = Z.of_nat (base.size (specs cs ∅)) ∧
    (∀ x y s t, specs cs ∅ !! x = Some s → specs cs ∅ !! y = Some t →
       op_eq x y st = Some (bool_decide (s = t)) ∧ op_lt x y st = Some (strcmp s t <? 0)) ∧
    (specs cs ∅ = ∅ → heap st = ∅).
Proof.
  intros Hv. destruct (execs_refines cs init ∅ init_refines Hv) as (st & Hst & Hr).
  assert (∀ x, text x st = specs cs ∅ !! x) as Htext.
  { intros x. unfold text. destruct (specs cs ∅ !! x) as [s|] eqn:Hx.
    - destruct (string_refines_obj st _ x s Hr Hx) as (o & -> & Ho). cbn. by apply holds_c_str.
    - apply (rf_dom _ _ Hr) in Hx. by rewrite Hx. }
  exists st. split_all; [done|done| |apply Hr| |].
  - intros x. unfold size. destruct (specs cs ∅ !! x) as [s|] eqn:Hx.
    + destruct (string_refines_obj st _ x s Hr Hx) as (o & -> & _ & Hs & _). simpl. by rewrite Hs.
    + apply (rf_dom _ _ Hr) in Hx. by rewrite Hx.
  - intros x y s t Hx Hy. unfold op_eq, op_lt. rewrite !Htext, Hx, Hy. cbn. split; [|done].
    f_equal. destruct (Z.eqb_spec (strcmp s t) 0) as [E|E].
    + rewrite bool_decide_true; [done|]. by apply strcmp_eq.
    + rewrite bool_decide_false; [done|]. intros ?. by apply E, strcmp_eq.
  - intros Hm. apply map_eq. intros p. rewrite lookup_empty.
    apply eq_None_not_Some. intros [x Hx]%(rf_owned _ _ Hr).
    rewrite lookup_fmap in Hx. assert (objs st !! x = None) as Ho
      by (apply (rf_dom _ _ Hr); by rewrite Hm, lookup_empty).
    by rewrite Ho in Hx.
Qed.

(** Assigning an object the pointer its own conversion to [charp_t] gives, as in
    [s = static_cast<charp_t> (s)], reads the array [operator=] has just deleted. *)
Theorem self_assign_charp_undefined st m x s :
  refines st m → m !! x = Some s →
  (p ← charp x st; assign_charp x p st) = None.
Proof.
  intros Hr Hx. destruct (string_refines_obj st m x s Hr Hx) as (o & Ho & _).
  destruct (refines_alloc st m x o Hr Ho) as [l Hl].
  unfold charp, assign_charp, reassign. rewrite Ho. cbn. rewrite Ho. cbn. rewrite Hl. cbn.
  unfold c_str. by rewrite lookup_delete_eq.
Qed.

(** Reading a line: the object gets the line, cut at 79 characters, and what is left
    of the line is skipped; an empty line leaves the object alone and the stream
    failed. *)
Lemma op_in_spec st m x s str :
  refines st m → m !! x = Some s → good str = true → text_ok (line (CINLIM - 1) (chars str)) →
  let l := line (CINLIM - 1) (chars str) in
  ∃ str' st', op_in x str st = Some (str', st') ∧
    if decide (l = []) then st' = st ∧ good str' = false
    else refines st' (<[x := l]> m) ∧ str' = skip_line (drop (length l) (chars str)).
Proof.
  intros Hr Hx Hg Hl. cbn zeta. unfold op_in. rewrite Hg. unfold istream_get.
  rewrite Hg. cbn [andb]. case_decide as He.
  - rewrite He. cbn. by eexists _, _.
  - rewrite bool_decide_false by done. cbn [negb good chars].
    destruct (string_refines_obj st m x s Hr Hx) as (o & Ho & _).
    destruct (reassign_refines st m x o _
      (λ _, c_scan (Some <$> line (CINLIM - 1) (chars str) ++ [NUL])) Hr Ho Hl) as (st' & -> & Hr').
    { pose proof (c_scan_text (line (CINLIM - 1) (chars str)) [] Hl) as Hc. by rewrite app_nil_r in Hc. }
    cbn. by eexists _, _.
Qed.

(** * Witnesses *)

Definition hello : cstr := String.list_ascii_of_string "helloworld".
(** The calls of [string_test.cpp], with the destructors at the end of [main]. *)
Definition string_test : list Command :=
  [Construct 0 hello; Default 1; AssignStr 1 hello; Copy 2 1;
   Copy 3 2; Copy 4 3; Destroy 4; Destroy 3; Assign 1 1; Put 2 0 "j"%char;
   Destroy 2; Destroy 1; Destroy 0].

Lemma string_value_witness :
  specs string_test ∅ = ∅ ∧
  ∃ st, execs string_test init = Some st ∧
    (∀ x, text x st = specs string_test ∅ !! x) ∧
    (∀ x, size x st = length <$> specs string_test ∅ !! x) ∧
    howMany st = Z.of_nat (base.size (specs string_test ∅)) ∧
    (∀ x y s t, specs string_test ∅ !! x = Some s → specs string_test ∅ !! y = Some t →
       op_eq x y st = Some (bool_decide (s = t)) ∧ op_lt x y st = Some (strcmp s t <? 0)) ∧
    (specs string_test ∅ = ∅ → heap st = ∅).
Proof.
  split; [vm_compute; reflexivity|]. apply string_value_type. vm_compute. reflexivity.
Defined.

Lemma self_assign_witness :
  ∃ st, execs [Construct 0 hello] init = Some st ∧ (p ← charp 0 st; assign_charp 0 p st) = None.
Proof.
  destruct (execs_refines [Construct 0 hello] init ∅ init_refines ltac:(vm_compute; reflexivity))
    as (st & Hst & Hr).
  exists st. split; [exact Hst|].
  apply (self_assign_charp_undefined st _ 0 hello Hr). vm_compute. reflexivity.
Defined.
