(* ===== verification/DeepCopy.v ===== *)
(** What a class that owns arrays promises, as an interface, and a client that makes,
    copies, assigns and destroys objects of any such class. The classes of the C++ notes
    that implement it are in [DeepClasses].

    The operations work on the free store of [CppHeap], the static counter of the class and
    the lines printed. The interface says which arrays an object owns, which value it
    holds, and how each operation changes the store: [replaces h h' old new]. Against it
    the client is proved to be a map of values, without leaks or double deletions. *)

From S2P Require Import Prelude CppHeap.
From stdpp Require Import pretty.
From Stdlib Require Import Ascii.

(** * Changes of the store *)

(** The arrays [old] are gone, the arrays [new] are there, nothing else has changed. *)
Definition replaces {A} (h h' : Heap A) (old new : list nat) : Prop :=
  ∀ p, (p ∈ new → is_Some (h' !! p) ∧ (p ∈ old ∨ h !! p = None)) ∧
       (p ∉ new → p ∈ old → h' !! p = None) ∧
       (p ∉ new → p ∉ old → h' !! p = h !! p).

Section replaces.
Context {A : Type}.
Implicit Types (h : Heap A) (old new : list nat).

Lemma replaces_refl h : replaces h h [] [].
Proof. intros p. split_all; [by intros ?%not_elem_of_nil|by intros _ ?%not_elem_of_nil|done]. Qed.

(** Two changes, of which the second does not take back what the first has made. *)
Lemma replaces_app h h1 h2 old new old2 new2 :
  replaces h h1 old new → replaces h1 h2 old2 new2 →
  (∀ p, p ∈ old2 → p ∉ new ∧ p ∉ old) → replaces h h2 (old ++ old2) (new ++ new2).
Proof.
  intros H1 H2 Hd p. destruct (H1 p) as (Hn1 & Ho1 & Hs1). destruct (H2 p) as (Hn2 & Ho2 & Hs2).
  rewrite !elem_of_app. destruct (decide (p ∈ new2)) as [Hin2|Hout2].
  - destruct (Hn2 Hin2) as [Hs Hor]. split; [|tauto]. intros _. split; [done|].
    destruct (decide (p ∈ old)) as [|Ho]; [auto|]. destruct (decide (p ∈ old2)) as [|Ho']; [auto|].
    right. destruct Hor as [?|Hnone]; [done|]. destruct (decide (p ∈ new)) as [Hin|Hin].
    + destruct (Hn1 Hin) as [[x Hx] _]. congruence.
    + rewrite <- Hs1 by done. done.
  - destruct (decide (p ∈ old2)) as [Hin|Hin].
    + destruct (Hd p Hin) as [Hnew Hold]. rewrite (Ho2 Hout2 Hin).
      split; [tauto|]. split; [done|tauto].
    + rewrite (Hs2 Hout2 Hin). split; [|split]; [|tauto|tauto]. intros [?|?]; [|done].
      destruct (Hn1 H) as [? [?|?]]; tauto.
Qed.

Lemma replaces_delete h p l :
  h !! p = Some l → ∃ h', delete_array (Some p) h = Some h' ∧ replaces h h' [p] [].
Proof.
  intros Hp. exists (delete p h). unfold delete_array. rewrite Hp. split; [done|]. intros q.
  split; [by intros ?%not_elem_of_nil|]. rewrite list_elem_of_singleton. split.
  - intros _ ->. apply lookup_delete_eq.
  - intros _ ?. by apply lookup_delete_ne.
Qed.

(** Objects that do not own the deleted array see the same store. *)
Lemma replaces_gone_other h h' p (ps : list nat) :
  replaces h h' [p] [] → p ∉ ps → ∀ q, q ∈ ps → h' !! q = h !! q.
Proof.
  intros Hr Hp q Hq. apply (Hr q); [apply not_elem_of_nil|]. by intros ->%list_elem_of_singleton.
Qed.

Lemma replaces_old (old : list nat) h h' (old' new : list nat) :
  (∀ p, p ∈ old' ↔ p ∈ old) → replaces h h' old new → replaces h h' old' new.
Proof. intros He Hr p. rewrite He. apply Hr. Qed.
End replaces.

(** The array [p] holds a text. *)
Definition has_text (h : Heap ascii) (p : nat) (s : cstr) : Prop :=
  text_ok s ∧ ∃ rest, h !! p = Some ((Some <$> s ++ [NUL]) ++ rest).

Lemma has_text_c_str h p s : has_text h p s → c_str p h = Some s.
Proof. intros [Ht [rest Hp]]. unfold c_str. rewrite Hp. by apply c_scan_text. Qed.
Lemma has_text_alloc h p s : has_text h p s → is_Some (h !! p).
Proof. intros [_ [rest Hp]]. by eexists. Qed.
Lemma has_text_frame h h' p s : has_text h p s → h' !! p = h !! p → has_text h' p s.
Proof. intros [Ht [rest Hp]] Heq. split; [done|]. exists rest. congruence. Qed.
Lemma has_text_kept h h' old new p s :
  has_text h p s → replaces h h' old new → p ∉ old → has_text h' p s.
Proof.
  intros Ht Hr Hp. apply (has_text_frame h); [done|]. destruct (Hr p) as (Hn & _ & Hs).
  apply Hs; [|done]. intros Hin. destruct (Hn Hin) as [_ [?|?]]; [done|].
  destruct (has_text_alloc _ _ _ Ht). congruence.
Qed.

(** [new char[n]] and [strcpy]. *)
Definition new_copy (n : nat) (s : cstr) (h : Heap ascii) : option (nat * Heap ascii) :=
  let '(p, h) := new_array n h in h ← strcpy p s h; Some (p, h).
Lemma new_copy_run n s h :
  text_ok s → length s < n →
  ∃ p h', new_copy n s h = Some (p, h') ∧ replaces h h' [] [p] ∧ has_text h' p s.
Proof.
  intros Hs Hn. unfold new_copy. pose proof (new_strcpy n s h Hn) as Hc.
  pose proof (new_array_fresh n h) as Hf. destruct (new_array n h) as [p h1]. simpl in Hf.
  rewrite Hc. cbn [mbind option_bind]. eexists p, _. split; [done|]. split.
  - intros q. rewrite list_elem_of_singleton. split_all.
    + intros ->. rewrite lookup_insert_eq. split; [by eexists|by right].
    + by intros _ ?%not_elem_of_nil.
    + intros ? _. by apply lookup_insert_ne.
  - split; [done|]. eexists. by rewrite lookup_insert_eq.
Qed.

(** * The interface *)

(** The store, the static counter and the output. *)
Record world := World { w_heap : Heap ascii; w_count : Z; w_out : output }.
(** What the value of an operation tells about counter and output. *)
Definition trace : Type := Z * output.
Definition trace_of (w : world) : trace := (w_count w, w_out w).

(** A class [C] whose objects hold values of type [V]. Every class has all the operations;
    where one is undefined whatever it is called with, [can_assign] or [can_show] is
    false. The first argument of [assign] says whether source and target are one object,
    which is the test every assignment begins with; [show] is what is printed of an
    object. *)
Class OwnsArrays (C V : Type) := {
  arrays : C → list nat;
  holds : Heap ascii → C → V → Prop;
  value_ok : V → Prop;
  construct : V → world → option (C * world);
  copy : C → world → option (C * world);
  destroy : C → world → option world;
  assign : bool → C → C → world → option (C * world);
  show : C → world → option string;
  can_assign : bool;
  can_show : bool;
  tells_new : V → trace → trace;
  tells_gone : V → trace → trace;
  tells_assign : V → V → trace → trace;
  value_text : V → string;
  holds_ok h o v : holds h o v → value_ok v ∧ ∀ p, p ∈ arrays o → is_Some (h !! p);
  holds_frame h h' o v : holds h o v → (∀ p, p ∈ arrays o → h' !! p = h !! p) → holds h' o v;
  construct_spec v w : value_ok v →
    ∃ o w', construct v w = Some (o, w') ∧ replaces (w_heap w) (w_heap w') [] (arrays o) ∧
      holds (w_heap w') o v ∧ trace_of w' = tells_new v (trace_of w);
  copy_spec o v w : holds (w_heap w) o v →
    ∃ o' w', copy o w = Some (o', w') ∧ replaces (w_heap w) (w_heap w') [] (arrays o') ∧
      holds (w_heap w') o' v ∧ trace_of w' = tells_new v (trace_of w);
  destroy_spec o v w : holds (w_heap w) o v →
    ∃ w', destroy o w = Some w' ∧ replaces (w_heap w) (w_heap w') (arrays o) [] ∧
      trace_of w' = tells_gone v (trace_of w);
  assign_self o w : can_assign = true → assign true o o w = Some (o, w);
  assign_spec o o2 v v2 w :
    can_assign = true → holds (w_heap w) o v → holds (w_heap w) o2 v2 →
    (∀ p, p ∈ arrays o → p ∉ arrays o2) →
    ∃ o' w', assign false o o2 w = Some (o', w') ∧
      replaces (w_heap w) (w_heap w') (arrays o) (arrays o') ∧
      holds (w_heap w') o' v2 ∧ trace_of w' = tells_assign v v2 (trace_of w);
  show_spec o v w : can_show = true → holds (w_heap w) o v → show o w = Some (value_text v)
}.

(** * The client *)

Section client.
Context {C V : Type} `{OwnsArrays C V}.

(** The operations on named objects; a line that is printed has fixed parts and texts of
    objects. *)
Inductive part := Text (s : string) | TextOf (x : nat).
Inductive command :=
| New (x : nat) (v : V) | CopyOf (x y : nat) | Assign (x y : nat) | Drop (x : nat)
| Print (line : list part).

Record state := State { world_of : world; objs : gmap nat C }.

Definition render (st : state) (p : part) : option string :=
  match p with Text s => Some s | TextOf x => o ← objs st !! x; show o (world_of st) end.
Definition print (line : string) (w : world) : world := World (w_heap w) (w_count w) (w_out w ++ [line]).

Definition exec (c : command) (st : state) : option state :=
  match c with
  | New x v => '(o, w) ← construct v (world_of st); Some (State w (<[x := o]> (objs st)))
  | CopyOf x y =>
      o ← objs st !! y; '(o', w) ← copy o (world_of st); Some (State w (<[x := o']> (objs st)))
  | Assign x y =>
      o ← objs st !! x; o2 ← objs st !! y;
      '(o', w) ← assign (bool_decide (x = y)) o o2 (world_of st);
      Some (State w (<[x := o']> (objs st)))
  | Drop x => o ← objs st !! x; w ← destroy o (world_of st); Some (State w (delete x (objs st)))
  | Print line =>
      l ← mapM (render st) line; Some (State (print (String.concat "" l) (world_of st)) (objs st))
  end.
Fixpoint execs (cs : list command) (st : state) : option state :=
  match cs with [] => Some st | c :: cs => st ← exec c st; execs cs st end.

(** The specification: a map of values, and the trace. *)
Definition part_text (m : gmap nat V) (p : part) : string :=
  match p with Text s => s | TextOf x => from_option value_text "" (m !! x) end.
Definition spec (c : command) (m : gmap nat V * trace) : gmap nat V * trace :=
  let '(m, t) := m in
  match c with
  | New x v => (<[x := v]> m, tells_new v t)
  | CopyOf x y =>
      match m !! y with Some v => (<[x := v]> m, tells_new v t) | None => (m, t) end
  | Assign x y =>
      match m !! x, m !! y with
      | Some v, Some v2 => (<[x := v2]> m, if decide (x = y) then t else tells_assign v v2 t)
      | _, _ => (m, t)
      end
  | Drop x => match m !! x with Some v => (delete x m, tells_gone v t) | None => (m, t) end
  | Print line => (m, (t.1, t.2 ++ [String.concat "" (part_text m <$> line)]))
  end.

(** What the caller must see to: new names are free, names that are used exist. *)
Definition valid (c : command) (m : gmap nat V) : Prop :=
  match c with
  | New x v => m !! x = None ∧ value_ok v
  | CopyOf x y => m !! x = None ∧ is_Some (m !! y)
  | Assign x y => can_assign = true ∧ is_Some (m !! x) ∧ is_Some (m !! y)
  | Drop x => is_Some (m !! x)
  | Print line => Forall (λ p, match p with Text _ => True | TextOf x => can_show = true ∧ is_Some (m !! x) end) line
  end.
Fixpoint valids (cs : list command) (m : gmap nat V * trace) : Prop :=
  match cs with [] => True | c :: cs => valid c m.1 ∧ valids cs (spec c m) end.
Definition specs (cs : list command) (m : gmap nat V * trace) : gmap nat V * trace :=
  foldl (λ m c, spec c m) m cs.

#[export] Instance valid_dec `{∀ v, Decision (value_ok v)} c m : Decision (valid c m).
Proof.
  destruct c as [x v|x y|x y|x|line]; simpl; try apply _. apply Forall_dec. intros [s|x]; apply _.
Defined.
#[export] Instance valids_dec `{∀ v, Decision (value_ok v)} cs m : Decision (valids cs m).
Proof.
  revert m. induction cs as [|c cs IH]; intros m; simpl; [apply _|].
  destruct (decide (valid c m.1)); [|right; tauto]. destruct (IH (spec c m)); [left|right]; tauto.
Defined.

(** Every object holds its value; no two share an array, and all that is allocated is
    somebody's. *)
Record refines (st : state) (m : gmap nat V * trace) : Prop := {
  rf_dom x : objs st !! x = None ↔ m.1 !! x = None;
  rf_holds x o v : objs st !! x = Some o → m.1 !! x = Some v → holds (w_heap (world_of st)) o v;
  rf_apart x y o o' p : objs st !! x = Some o → objs st !! y = Some o' →
    p ∈ arrays o → p ∈ arrays o' → x = y;
  rf_alloc p : is_Some (w_heap (world_of st) !! p) ↔ ∃ x o, objs st !! x = Some o ∧ p ∈ arrays o;
  rf_trace : trace_of (world_of st) = m.2
}.

Lemma refines_object st m t x v :
  refines st (m, t) → m !! x = Some v → ∃ o, objs st !! x = Some o ∧ holds (w_heap (world_of st)) o v.
Proof.
  intros Hr Hx. destruct (objs st !! x) as [o|] eqn:Ho.
  - exists o. split; [done|]. by apply (rf_holds _ _ Hr x).
  - apply (rf_dom _ _ Hr) in Ho. simpl in Ho. congruence.
Qed.

(** The object called [x], if there is one, is replaced by [o']; [old] are its arrays. *)
Lemma refines_put st m t x o' v w t' old :
  refines st (m, t) → (∀ p, p ∈ old ↔ ∃ o, objs st !! x = Some o ∧ p ∈ arrays o) →
  replaces (w_heap (world_of st)) (w_heap w) old (arrays o') → holds (w_heap w) o' v →
  trace_of w = t' → refines (State w (<[x := o']> (objs st))) (<[x := v]> m, t').
Proof.
  intros [Hd Hh Ha Hl Ht] Hold Hrep Ho' Ht'. simpl in *.
  assert (∀ y o p, y ≠ x → objs st !! y = Some o → p ∈ arrays o → p ∉ old ∧ p ∉ arrays o') as Hother.
  { intros y o p Hne Hy Hp. assert (p ∉ old) as Hno.
    { intros (o2 & Hx & Hp2)%Hold. by apply Hne, (Ha y x o o2 p). }
    split; [done|]. intros Hin. destruct (Hrep p) as (Hn & _). destruct (Hn Hin) as [_ [?|Hnone]]; [done|].
    assert (is_Some (w_heap (world_of st) !! p)) as [? ?] by (apply Hl; eauto). congruence. }
  constructor; simpl.
  - intros y. rewrite !lookup_insert_None, Hd. done.
  - intros y o v'. rewrite !lookup_insert_Some. intros [[<- <-]|[Hne Hy]] [[? <-]|[? Hm]]; try done.
    apply (holds_frame (w_heap (world_of st))); [by apply (Hh y)|]. intros p Hp.
    destruct (Hother y o p (not_eq_sym Hne) Hy Hp). by apply (Hrep p).
  - intros y z o o2 p. rewrite !lookup_insert_Some.
    intros [[<- <-]|[Hy1 Hy]] [[<- <-]|[Hz1 Hz]] Hp Hp2; [done| | |by apply (Ha y z o o2 p)].
    + by destruct (Hother z o2 p (not_eq_sym Hz1) Hz Hp2).
    + by destruct (Hother y o p (not_eq_sym Hy1) Hy Hp).
  - intros p. destruct (Hrep p) as (Hn & Ho & Hs). split.
    + intros Hp. destruct (decide (p ∈ arrays o')) as [|Hp1].
      { exists x, o'. by rewrite lookup_insert_eq. }
      destruct (decide (p ∈ old)) as [Hp2|Hp2].
      { rewrite Ho in Hp by done. by destruct Hp. }
      rewrite Hs in Hp by done. apply Hl in Hp as (y & o & Hy & Hp).
      exists y, o. rewrite lookup_insert_ne; [done|]. intros <-. apply Hp2, Hold. eauto.
    + intros (y & o & [[<- <-]|[Hne Hy]]%lookup_insert_Some & Hp); [by apply Hn|].
      destruct (Hother y o p (not_eq_sym Hne) Hy Hp). rewrite Hs by done. apply Hl. eauto.
  - done.
Qed.

Lemma refines_gone st m t x o w t' :
  refines st (m, t) → objs st !! x = Some o →
  replaces (w_heap (world_of st)) (w_heap w) (arrays o) [] → trace_of w = t' →
  refines (State w (delete x (objs st))) (delete x m, t').
Proof.
  intros [Hd Hh Ha Hl Ht] Hx Hrep Ht'. simpl in *. constructor; simpl.
  - intros y. rewrite !lookup_delete_None, Hd. done.
  - intros y o2 v. rewrite !lookup_delete_Some. intros [Hne Hy] [_ Hm].
    apply (holds_frame (w_heap (world_of st))); [by apply (Hh y)|]. intros p Hp.
    apply (Hrep p); [apply not_elem_of_nil|]. intros Hp2. by apply Hne, (Ha x y o o2 p).
  - intros y z o1 o2 p. rewrite !lookup_delete_Some. intros [_ ?] [_ ?]. by apply Ha.
  - intros p. destruct (Hrep p) as (_ & Ho & Hs). pose proof (not_elem_of_nil p). split.
    + intros Hp. destruct (decide (p ∈ arrays o)) as [Hin|Hin].
      { rewrite Ho in Hp by done. by destruct Hp. }
      rewrite Hs in Hp by done. apply Hl in Hp as (y & o2 & Hy & Hp). exists y, o2.
      rewrite lookup_delete_ne; [done|]. intros <-. congruence.
    + intros (y & o2 & [Hne Hy]%lookup_delete_Some & Hp).
      rewrite Hs; [apply Hl; eauto|done|]. intros Hin. by apply Hne, (Ha x y o o2 p).
  - done.
Qed.

Lemma no_arrays st m t x :
  refines st (m, t) → m !! x = None →
  ∀ p, p ∈ @nil nat ↔ ∃ o, objs st !! x = Some o ∧ p ∈ arrays o.
Proof.
  intros Hr Hx%(rf_dom _ _ Hr) p. split; [by intros ?%not_elem_of_nil|].
  intros (o & Ho & _). congruence.
Qed.
Lemma own_arrays st x o :
  objs st !! x = Some o → ∀ p, p ∈ arrays o ↔ ∃ o', objs st !! x = Some o' ∧ p ∈ arrays o'.
Proof. intros Hx p. split; [eauto|]. intros (o' & Ho & Hp). by simplify_eq. Qed.

Lemma render_line st m t line :
  refines st (m, t) → valid (Print line) m → mapM (render st) line = Some (part_text m <$> line).
Proof.
  intros Hr. simpl. induction 1 as [|p line Hp _ IH]; [done|]. simpl.
  assert (render st p = Some (part_text m p)) as ->.
  { destruct p as [s|x]; [done|]. destruct Hp as [Hcan [v Hx]]. simpl. rewrite Hx.
    destruct (refines_object st m t x v Hr Hx) as (o & -> & Ho). by apply show_spec. }
  simpl. by rewrite IH.
Qed.

Lemma deep_exec_refines c st m t :
  refines st (m, t) → valid c m → ∃ st', exec c st = Some st' ∧ refines st' (spec c (m, t)).
Proof.
  intros Hr Hv. destruct c as [x v|x y|x y|x|line]; simpl in *.
  - destruct Hv as [Hx Hok]. destruct (construct_spec v (world_of st) Hok) as (o & w & -> & Hrep & Ho & Ht).
    eexists. split; [done|]. rewrite (rf_trace _ _ Hr) in Ht.
    by apply (refines_put st m t x o v w _ []); [|apply (no_arrays st m t)| | |].
  - destruct Hv as [Hx [v Hy]]. rewrite Hy. destruct (refines_object st m t y v Hr Hy) as (o & -> & Ho).
    destruct (copy_spec o v (world_of st) Ho) as (o' & w & Hc & Hrep & Ho' & Ht).
    cbn [mbind option_bind]. rewrite Hc. eexists. split; [done|]. rewrite (rf_trace _ _ Hr) in Ht.
    by apply (refines_put st m t x o' v w _ []); [|apply (no_arrays st m t)| | |].
  - destruct Hv as (Hcan & [v Hx] & [v2 Hy]). rewrite Hx, Hy.
    destruct (refines_object st m t x v Hr Hx) as (o & Hox & Ho).
    destruct (refines_object st m t y v2 Hr Hy) as (o2 & Hoy & Ho2).
    rewrite Hox. cbn [mbind option_bind]. rewrite Hoy. cbn [mbind option_bind].
    destruct (decide (x = y)) as [->|Hne].
    + rewrite bool_decide_true by done. assert (o2 = o) as -> by congruence. assert (v2 = v) as -> by congruence.
      rewrite assign_self by done. eexists. split; [done|]. simpl.
      rewrite !insert_id by done. by destruct st.
    + rewrite bool_decide_false by done.
      destruct (assign_spec o o2 v v2 (world_of st) Hcan Ho Ho2) as (o' & w & -> & Hrep & Ho' & Ht).
      { intros p Hp Hp2. by apply Hne, (rf_apart _ _ Hr x y o o2 p). }
      eexists. split; [done|]. rewrite (rf_trace _ _ Hr) in Ht.
      by apply (refines_put st m t x o' v2 w _ (arrays o)); [|apply own_arrays| | |].
  - destruct Hv as [v Hx]. rewrite Hx. destruct (refines_object st m t x v Hr Hx) as (o & Hox & Ho).
    rewrite Hox. cbn [mbind option_bind].
    destruct (destroy_spec o v (world_of st) Ho) as (w & -> & Hrep & Ht).
    eexists. split; [done|]. rewrite (rf_trace _ _ Hr) in Ht. by apply (refines_gone st m t x o).
  - rewrite (render_line st m t line Hr Hv). eexists. split; [done|].
    destruct Hr as [Hd Hh Ha Hl Ht]. constructor; try done. simpl in *. by rewrite <- Ht.
Qed.

Definition init : state := State (World ∅ 0 []) ∅.
Lemma init_object_refines : refines init (∅, (0%Z, [])).
Proof.
  constructor; simpl.
  - intros x. by rewrite !lookup_empty.
  - intros x o v. by rewrite lookup_empty.
  - intros x y o o' p. by rewrite lookup_empty.
  - intros p. rewrite lookup_empty. split; [by intros [? ?]|].
    intros (x & o & Hx & _). by rewrite lookup_empty in Hx.
  - done.
Qed.

Lemma execs_object_refines cs st m :
  refines st m → valids cs m → ∃ st', execs cs st = Some st' ∧ refines st' (specs cs m).
Proof.
  revert st m. induction cs as [|c cs IH]; intros st m Hr Hv; simpl in *; [by exists st|].
  destruct Hv as [Hc Hcs]. destruct m as [m t].
  destruct (deep_exec_refines c st m t Hr Hc) as (st1 & -> & Hr1). by apply IH.
Qed.

(** The objects of any class that meets the interface behave as values. A client that
    makes, copies, assigns (an object to itself too) and destroys objects as C++ allows it
    never reads, writes or deletes an array that is not there; the counter of the class and
    what is printed are those of a map of values; and when no object is left, neither is
    any array. *)
Definition behaves_as_values : Prop :=
  ∀ cs, valids cs (∅, (0%Z, [])) →
    ∃ st, execs cs init = Some st ∧ refines st (specs cs (∅, (0%Z, []))) ∧
      trace_of (world_of st) = (specs cs (∅, (0%Z, []))).2 ∧
      ((specs cs (∅, (0%Z, []))).1 = ∅ → w_heap (world_of st) = ∅).

Lemma objects_are_values : behaves_as_values.
Proof.
  intros cs Hv. destruct (execs_object_refines cs init _ init_object_refines Hv) as (st & Hst & Hr).
  exists st. split_all; [done|done|apply Hr|]. intros Hm. apply map_eq. intros p. rewrite lookup_empty.
  apply eq_None_not_Some. intros (x & o & Hx & _)%(rf_alloc _ _ Hr).
  assert (objs st !! x = None) as Ho by (apply (rf_dom _ _ Hr); by rewrite Hm, lookup_empty). congruence.
Qed.
End client.
Arguments command : clear implicits.
Arguments behaves_as_values C V {_}.

