(* ===== verification/DeepClasses.v ===== *)
(** Classes of the C++ notes that own character arrays, as instances of [OwnsArrays]:
    [StringBad] and the program [vegnews.cpp], [SString], [Demo] and [BaseDMA] with
    [HasDMA] ([src/cpp/cpp_class], files named at each module).  Lengths are [int]s that
    hold the length of a text in memory. *)

From S2P Require Import Prelude CppHeap DeepCopy.
From stdpp Require Import pretty.
From Stdlib Require Import Ascii.

Definition quote : string := String (ascii_of_nat 34) "".
Definition quoted (s : cstr) : string := quote +:+ String.string_of_list_ascii s +:+ quote.

(** * strngbad.h, strngbad.cpp *)

Module StringBad.
Record obj := Obj { str : nat; len : nat }.

(** [num_strings++] and the line the constructors print. *)
Definition created (o : obj) (h : Heap ascii) (w : world) : option (obj * world) :=
  let n := (w_count w + 1)%Z in
  s ← c_str (str o) h;
  Some (o, World h n (w_out w ++ [pretty n +:+ ": " +:+ quoted s +:+ " object created."])).

Definition StringBad_cstr (s : cstr) (w : world) : option (obj * world) :=
  let len := length s in
  '(p, h) ← new_copy (S len) s (w_heap w); created (Obj p len) h w.
Definition StringBad_default (w : world) : option (obj * world) :=
  '(p, h) ← new_copy (S 3) (String.list_ascii_of_string "C++") (w_heap w); created (Obj p 3) h w.
Definition StringBad_copy (sb : obj) (w : world) : option (obj * world) :=
  s ← c_str (str sb) (w_heap w);
  '(p, h) ← new_copy (S (len sb)) s (w_heap w); created (Obj p (len sb)) h w.
Definition StringBad_destroy (o : obj) (w : world) : option world :=
  s ← c_str (str o) (w_heap w);
  let n := (w_count w - 1)%Z in
  h ← delete_array (Some (str o)) (w_heap w);
  Some (World h n (w_out w ++ [quoted s +:+ " object deleted, " +:+ pretty n +:+ " left."])).
Definition StringBad_assign (self : bool) (o sb : obj) (w : world) : option (obj * world) :=
  if self then Some (o, w)
  else h ← delete_array (Some (str o)) (w_heap w);
       s ← c_str (str sb) h;
       '(p, h) ← new_copy (S (len sb)) s h;
       Some (Obj p (len sb), World h (w_count w) (w_out w)).
(** [operator<<]. *)
Definition StringBad_print (o : obj) (w : world) : option string :=
  s ← c_str (str o) (w_heap w); Some (String.string_of_list_ascii s).

Definition holds (h : Heap ascii) (o : obj) (s : cstr) : Prop := has_text h (str o) s ∧ len o = length s.

(** The trace of a constructor and of the destructor. *)
Definition tells_new (s : cstr) (t : trace) : trace :=
  ((t.1 + 1)%Z, t.2 ++ [pretty (t.1 + 1)%Z +:+ ": " +:+ quoted s +:+ " object created."]).
Definition tells_gone (s : cstr) (t : trace) : trace :=
  ((t.1 - 1)%Z, t.2 ++ [quoted s +:+ " object deleted, " +:+ pretty (t.1 - 1)%Z +:+ " left."]).

(** A constructor, from any text. *)
Lemma stringbad_build_run s n w :
  text_ok s → n = length s →
  ∃ o w', ('(p, h) ← new_copy (S n) s (w_heap w); created (Obj p n) h w) = Some (o, w') ∧
    replaces (w_heap w) (w_heap w') [] [str o] ∧ holds (w_heap w') o s ∧
    trace_of w' = tells_new s (trace_of w).
Proof.
  intros Hs ->. destruct (new_copy_run (S (length s)) s (w_heap w) Hs) as (p & h & -> & Hr & Ht); [lia|].
  cbn [mbind option_bind]. unfold created. simpl. rewrite (has_text_c_str _ _ _ Ht).
  eexists _, _. split_all; [done|done|done|done].
Qed.

#[global] Program Instance StringBad_owns : OwnsArrays obj cstr := {|
  arrays o := [str o];
  DeepCopy.holds := holds;
  value_ok := text_ok;
  construct := StringBad_cstr;
  copy := StringBad_copy;
  destroy := StringBad_destroy;
  assign := StringBad_assign;
  show := StringBad_print;
  can_assign := true;
  can_show := true;
  DeepCopy.tells_new := tells_new;
  DeepCopy.tells_gone := tells_gone;
  tells_assign _ _ t := t;
  value_text := String.string_of_list_ascii
|}.
Next Obligation.
  intros h o v [Ht _]. split; [apply Ht|]. intros p ->%list_elem_of_singleton. by eapply has_text_alloc.
Qed.
Next Obligation.
  intros h h' o v [Ht Hl] Hf. split; [|done]. apply (has_text_frame h); [done|]. apply Hf. left.
Qed.
Next Obligation. intros v w Hv. by apply stringbad_build_run. Qed.
Next Obligation.
  intros o v w [Ht Hl]. unfold StringBad_copy. rewrite (has_text_c_str _ _ _ Ht).
  apply stringbad_build_run; [apply Ht|done].
Qed.
Next Obligation.
  intros o v w [Ht Hl]. unfold StringBad_destroy. rewrite (has_text_c_str _ _ _ Ht).
  destruct (has_text_alloc _ _ _ Ht) as [l Hp].
  destruct (replaces_delete _ _ _ Hp) as (h & Hd & Hr). cbn [mbind option_bind]. rewrite Hd.
  eexists. split_all; [done|done|done].
Qed.
Next Obligation. done. Qed.
Next Obligation.
  intros o o2 v v2 w _ [Ht Hl] [Ht2 Hl2] Hd. unfold StringBad_assign.
  destruct (has_text_alloc _ _ _ Ht) as [l Hp].
  destruct (replaces_delete _ _ _ Hp) as (h & -> & Hr). cbn [mbind option_bind].
  assert (has_text h (str o2) v2) as Ht2'.
  { apply (has_text_kept _ _ _ _ _ _ Ht2 Hr). intros He%list_elem_of_singleton.
    apply (Hd (str o)); [left|]. rewrite <- He. left. }
  rewrite (has_text_c_str _ _ _ Ht2'), Hl2. cbn [mbind option_bind].
  destruct (new_copy_run (S (length v2)) v2 h) as (p & h2 & -> & Hr2 & Ht3); [apply Ht2|lia|].
  eexists _, _. split_all; [done| |done|done].
  apply (replaces_app _ _ _ _ _ _ _ Hr Hr2). by intros q ?%not_elem_of_nil.
Qed.
Next Obligation.
  intros o v w _ [Ht _]. unfold StringBad_print. by rewrite (has_text_c_str _ _ _ Ht).
Qed.
End StringBad.

(** * strng.h, strng.cpp *)

Module SString.
Record obj := Obj { mStr : nat; mSize : nat }.

(** The default constructor leaves the array as it is. *)
Definition SString_default (w : world) : option (obj * world) :=
  let '(p, h) := new_array (S 10) (w_heap w) in
  Some (Obj p 10, World h (w_count w + 1) (w_out w)).
Definition SString_cstr (s : cstr) (w : world) : option (obj * world) :=
  let mSize := length s in
  '(p, h) ← new_copy (S mSize) s (w_heap w);
  Some (Obj p mSize, World h (w_count w + 1) (w_out w)).
Definition SString_copy (ss : obj) (w : world) : option (obj * world) :=
  s ← c_str (mStr ss) (w_heap w);
  '(p, h) ← new_copy (S (mSize ss)) s (w_heap w);
  Some (Obj p (mSize ss), World h (w_count w + 1) (w_out w)).
(** The destructor does not count. *)
Definition SString_destroy (o : obj) (w : world) : option world :=
  h ← delete_array (Some (mStr o)) (w_heap w); Some (World h (w_count w) (w_out w)).
(** [delete], not [delete[]], of an array is undefined. *)
Definition delete_scalar (p : nat) (h : Heap ascii) : option (Heap ascii) := None.
Definition SString_assign (self : bool) (o ss : obj) (w : world) : option (obj * world) :=
  if self then Some (o, w)
  else h ← delete_scalar (mStr o) (w_heap w);
       s ← c_str (mStr ss) h;
       '(p, h) ← new_copy (S (mSize ss)) s h;
       Some (Obj p (mSize ss), World h (w_count w) (w_out w)).
(** [operator<<] prints and then flows off its end without a [return]. *)
Definition SString_print (o : obj) (w : world) : option string :=
  s ← c_str (mStr o) (w_heap w); None.

Definition holds (h : Heap ascii) (o : obj) (s : cstr) : Prop := has_text h (mStr o) s ∧ mSize o = length s.
Definition tells_new (s : cstr) (t : trace) : trace := ((t.1 + 1)%Z, t.2).

Lemma sstring_build_run s n w :
  text_ok s → n = length s →
  ∃ o w', ('(p, h) ← new_copy (S n) s (w_heap w); Some (Obj p n, World h (w_count w + 1) (w_out w))) = Some (o, w') ∧
    replaces (w_heap w) (w_heap w') [] [mStr o] ∧ holds (w_heap w') o s ∧
    trace_of w' = tells_new s (trace_of w).
Proof.
  intros Hs ->. destruct (new_copy_run (S (length s)) s (w_heap w) Hs) as (p & h & -> & Hr & Ht); [lia|].
  eexists _, _. by split_all.
Qed.

#[global] Program Instance SString_owns : OwnsArrays obj cstr := {|
  arrays o := [mStr o];
  DeepCopy.holds := holds;
  value_ok := text_ok;
  construct := SString_cstr;
  copy := SString_copy;
  destroy := SString_destroy;
  assign := SString_assign;
  show := SString_print;
  can_assign := false;
  can_show := false;
  DeepCopy.tells_new := tells_new;
  DeepCopy.tells_gone _ t := t;
  tells_assign _ _ t := t;
  value_text := String.string_of_list_ascii
|}.
Next Obligation.
  intros h o v [Ht _]. split; [apply Ht|]. intros p ->%list_elem_of_singleton. by eapply has_text_alloc.
Qed.
Next Obligation.
  intros h h' o v [Ht Hl] Hf. split; [|done]. apply (has_text_frame h); [done|]. apply Hf. left.
Qed.
Next Obligation. intros v w Hv. by apply sstring_build_run. Qed.
Next Obligation.
  intros o v w [Ht Hl]. unfold SString_copy. rewrite (has_text_c_str _ _ _ Ht).
  apply sstring_build_run; [apply Ht|done].
Qed.
Next Obligation.
  intros o v w [Ht Hl]. unfold SString_destroy. destruct (has_text_alloc _ _ _ Ht) as [l Hp].
  destruct (replaces_delete _ _ _ Hp) as (h & -> & Hr). eexists. by split_all.
Qed.
Next Obligation. done. Qed.
Next Obligation. done. Qed.
Next Obligation. done. Qed.

(** What the class gets wrong: an object made by the default constructor cannot be copied,
    because its characters are not initialised; assigning one object to another deletes the
    array with the wrong [delete]; and the counter never goes down. *)
Theorem sstring_defects w :
  (∃ o w', SString_default w = Some (o, w') ∧ SString_copy o w' = None) ∧
  (∀ o ss, SString_assign false o ss w = None) ∧
  (∀ o w', SString_destroy o w = Some w' → w_count w' = w_count w).
Proof.
  split_all.
  - unfold SString_default. destruct (new_array 11 (w_heap w)) as [p h] eqn:Hn.
    eexists _, _. split; [done|]. unfold SString_copy, c_str. simpl.
    unfold new_array in Hn. simplify_eq. by rewrite lookup_insert_eq.
  - done.
  - intros o w'. unfold SString_destroy. intros (h & _ & H)%bind_Some. by simplify_eq.
Qed.
End SString.

(** * copy_assignment.cpp *)

Module Demo.
(** [ps], which is null for the empty text. *)
Abbreviation obj := (option nat).

Definition line (what : string) (s : cstr) : string := what +:+ " string: " +:+ String.string_of_list_ascii s.

Definition Demo_cstr (s : cstr) (w : world) : option (obj * world) :=
  if decide (length s = 0) then None
  else '(p, h) ← new_copy (S (length s)) s (w_heap w);
       t ← c_str p h;
       Some (Some p, World h (w_count w) (w_out w ++ [line "construct" t])).
(** It delegates to the other constructor. *)
Definition Demo_copy (demo : obj) (w : world) : option (obj * world) :=
  ps ← demo; s ← c_str ps (w_heap w); Demo_cstr s w.
Definition Demo_destroy (o : obj) (w : world) : option world :=
  ps ← o; s ← c_str ps (w_heap w);
  h ← delete_array o (w_heap w);
  Some (World h (w_count w) (w_out w ++ [line "delete" s])).
(** Of the two objects, the pointers afterwards. *)
Definition swap (o demo : obj) : obj * obj := (demo, o).
Definition Demo_assign (self : bool) (o demo : obj) (w : world) : option (obj * world) :=
  if self then Some (o, w)
  else '(temp, w) ← Demo_copy demo w;
       let '(o, temp) := swap o temp in
       w ← Demo_destroy temp w; Some (o, w).
Definition show (o : obj) (w : world) : option string :=
  ps ← o; s ← c_str ps (w_heap w); Some (String.string_of_list_ascii s).

Definition holds (h : Heap ascii) (o : obj) (s : cstr) : Prop :=
  s ≠ [] ∧ ∃ p, o = Some p ∧ has_text h p s.
Definition tells_new (s : cstr) (t : trace) : trace := (t.1, t.2 ++ [line "construct" s]).
Definition tells_gone (s : cstr) (t : trace) : trace := (t.1, t.2 ++ [line "delete" s]).

Lemma demo_cstr_run s w :
  text_ok s → s ≠ [] →
  ∃ p w', Demo_cstr s w = Some (Some p, w') ∧ replaces (w_heap w) (w_heap w') [] [p] ∧
    has_text (w_heap w') p s ∧ trace_of w' = tells_new s (trace_of w).
Proof.
  intros Hs Hne. unfold Demo_cstr. rewrite decide_False by (by destruct s).
  destruct (new_copy_run (S (length s)) s (w_heap w) Hs) as (p & h & -> & Hr & Ht); [lia|].
  cbn [mbind option_bind]. rewrite (has_text_c_str _ _ _ Ht). eexists p, _. by split_all.
Qed.
Lemma demo_copy_run p s w :
  has_text (w_heap w) p s → s ≠ [] →
  ∃ q w', Demo_copy (Some p) w = Some (Some q, w') ∧ replaces (w_heap w) (w_heap w') [] [q] ∧
    has_text (w_heap w') q s ∧ trace_of w' = tells_new s (trace_of w).
Proof.
  intros Ht Hne. unfold Demo_copy. cbn [mbind option_bind]. rewrite (has_text_c_str _ _ _ Ht).
  apply demo_cstr_run; [apply Ht|done].
Qed.
Lemma demo_destroy_run p s w :
  has_text (w_heap w) p s →
  ∃ w', Demo_destroy (Some p) w = Some w' ∧ replaces (w_heap w) (w_heap w') [p] [] ∧
    trace_of w' = tells_gone s (trace_of w).
Proof.
  intros Ht. unfold Demo_destroy. cbn [mbind option_bind]. rewrite (has_text_c_str _ _ _ Ht).
  destruct (has_text_alloc _ _ _ Ht) as [l Hp].
  destruct (replaces_delete _ _ _ Hp) as (h & Hd & Hr). cbn [mbind option_bind]. rewrite Hd.
  eexists. by split_all.
Qed.

#[global] Program Instance Demo_owns : OwnsArrays obj cstr := {|
  arrays o := option_list o;
  DeepCopy.holds := holds;
  value_ok s := text_ok s ∧ s ≠ [];
  construct := Demo_cstr;
  copy := Demo_copy;
  destroy := Demo_destroy;
  assign := Demo_assign;
  DeepCopy.show := show;
  can_assign := true;
  can_show := true;
  DeepCopy.tells_new := tells_new;
  DeepCopy.tells_gone := tells_gone;
  tells_assign v v2 t := tells_gone v (tells_new v2 t);
  value_text := String.string_of_list_ascii
|}.
Next Obligation.
  intros h o v (Hne & p & -> & Ht). split; [split; [apply Ht|done]|].
  intros q ->%list_elem_of_singleton. by eapply has_text_alloc.
Qed.
Next Obligation.
  intros h h' o v (Hne & p & -> & Ht) Hf. split; [done|]. exists p. split; [done|].
  apply (has_text_frame h); [done|]. apply Hf. left.
Qed.
Next Obligation.
  intros v w [Hv Hne]. destruct (demo_cstr_run v w Hv Hne) as (p & w' & Hc & Hr & Ht & Htr).
  exists (Some p), w'. split_all; [done|done| |done]. split; [done|]. by exists p.
Qed.
Next Obligation.
  intros o v w (Hne & p & -> & Ht). destruct (demo_copy_run p v w Ht Hne) as (q & w' & Hc & Hr & Ht' & Htr).
  exists (Some q), w'. split_all; [done|done| |done]. split; [done|]. by exists q.
Qed.
Next Obligation. intros o v w (Hne & p & -> & Ht). by apply demo_destroy_run. Qed.
Next Obligation. done. Qed.
Next Obligation.
  intros o o2 v v2 w _ (Hne & p & -> & Ht) (Hne2 & p2 & -> & Ht2) Hd. unfold Demo_assign.
  destruct (demo_copy_run p2 v2 w Ht2 Hne2) as (q & w1 & -> & Hr & Ht' & Htr).
  cbn [mbind option_bind]. unfold swap.
  assert (has_text (w_heap w1) p v) as Ht1 by (apply (has_text_kept _ _ _ _ _ _ Ht Hr), not_elem_of_nil).
  destruct (demo_destroy_run p v w1 Ht1) as (w2 & -> & Hr2 & Htr2). cbn [mbind option_bind].
  destruct (has_text_alloc _ _ _ Ht) as [l Hp].
  assert (q ≠ p) as Hqp.
  { intros ->. destruct (Hr p) as (Hn & _). destruct Hn as [_ [?%not_elem_of_nil|?]]; [left|done|congruence]. }
  exists (Some q), w2. split_all.
  - done.
  - apply (replaces_app _ _ _ [] [q] [p] [] Hr Hr2). intros ? ->%list_elem_of_singleton.
    split; [|apply not_elem_of_nil]. by intros ?%list_elem_of_singleton.
  - split; [done|]. exists q. split; [done|]. apply (has_text_kept _ _ _ _ _ _ Ht' Hr2).
    by intros ?%list_elem_of_singleton.
  - by rewrite Htr2, Htr.
Qed.
Next Obligation.
  intros o v w _ (Hne & p & -> & Ht). unfold show. cbn [mbind option_bind].
  by rewrite (has_text_c_str _ _ _ Ht).
Qed.

(** The null pointer of an empty text is written to. *)
Lemma demo_empty w : Demo_cstr [] w = None.
Proof. done. Qed.
End Demo.

(** * dma.h, dma.cpp *)

Module BaseDMA.
Record obj := Obj { label : nat; rating : Z }.

Definition BaseDMA_cstr (v : cstr * Z) (w : world) : option (obj * world) :=
  let '(l, r) := v in
  '(p, h) ← new_copy (S (length l)) l (w_heap w);
  Some (Obj p r, World h (w_count w) (w_out w)).
Definition BaseDMA_copy (rs : obj) (w : world) : option (obj * world) :=
  l ← c_str (label rs) (w_heap w);
  '(p, h) ← new_copy (S (length l)) l (w_heap w);
  Some (Obj p (rating rs), World h (w_count w) (w_out w)).
Definition BaseDMA_destroy (o : obj) (w : world) : option world :=
  h ← delete_array (Some (label o)) (w_heap w); Some (World h (w_count w) (w_out w)).
Definition BaseDMA_assign (self : bool) (o rs : obj) (w : world) : option (obj * world) :=
  if self then Some (o, w)
  else h ← delete_array (Some (label o)) (w_heap w);
       l ← c_str (label rs) h;
       '(p, h) ← new_copy (S (length l)) l h;
       Some (Obj p (rating rs), World h (w_count w) (w_out w)).
(** [operator<<] prints and then flows off its end without a [return]. *)
Definition BaseDMA_print (rs : obj) (w : world) : option string :=
  l ← c_str (label rs) (w_heap w); None.

Definition holds (h : Heap ascii) (o : obj) (v : cstr * Z) : Prop :=
  has_text h (label o) v.1 ∧ rating o = v.2.

Lemma base_build_run l r w :
  text_ok l →
  ∃ o w', ('(p, h) ← new_copy (S (length l)) l (w_heap w);
           Some (Obj p r, World h (w_count w) (w_out w))) = Some (o, w') ∧
    replaces (w_heap w) (w_heap w') [] [label o] ∧ holds (w_heap w') o (l, r) ∧ trace_of w' = trace_of w.
Proof.
  intros Hs. destruct (new_copy_run (S (length l)) l (w_heap w) Hs) as (p & h & -> & Hr & Ht); [lia|].
  eexists _, _. by split_all.
Qed.

#[global] Program Instance BaseDMA_owns : OwnsArrays obj (cstr * Z) := {|
  arrays o := [label o];
  DeepCopy.holds := holds;
  value_ok v := text_ok v.1;
  construct := BaseDMA_cstr;
  copy := BaseDMA_copy;
  destroy := BaseDMA_destroy;
  assign := BaseDMA_assign;
  show := BaseDMA_print;
  can_assign := true;
  can_show := false;
  tells_new _ t := t;
  tells_gone _ t := t;
  tells_assign _ _ t := t;
  value_text _ := ""
|}.
Next Obligation.
  intros h o v [Ht _]. split; [apply Ht|]. intros p ->%list_elem_of_singleton. by eapply has_text_alloc.
Qed.
Next Obligation.
  intros h h' o v [Ht Hl] Hf. split; [|done]. apply (has_text_frame h); [done|]. apply Hf. left.
Qed.
Next Obligation. intros [l r] w Hv. by apply base_build_run. Qed.
Next Obligation.
  intros o [l r] w [Ht Hr]. unfold BaseDMA_copy. simpl in Ht, Hr. rewrite (has_text_c_str _ _ _ Ht), Hr.
  apply base_build_run, Ht.
Qed.
Next Obligation.
  intros o v w [Ht Hl]. unfold BaseDMA_destroy. destruct (has_text_alloc _ _ _ Ht) as [l Hp].
  destruct (replaces_delete _ _ _ Hp) as (h & -> & Hr). eexists. by split_all.
Qed.
Next Obligation. done. Qed.
Next Obligation.
  intros o o2 v [l2 r2] w _ [Ht Hl] [Ht2 Hr2] Hd. unfold BaseDMA_assign.
  destruct (has_text_alloc _ _ _ Ht) as [l Hp].
  destruct (replaces_delete _ _ _ Hp) as (h & -> & Hr). cbn [mbind option_bind]. simpl in Ht2, Hr2.
  assert (has_text h (label o2) l2) as Ht2'.
  { apply (has_text_kept _ _ _ _ _ _ Ht2 Hr). intros He%list_elem_of_singleton.
    apply (Hd (label o)); [left|]. rewrite <- He. left. }
  rewrite (has_text_c_str _ _ _ Ht2'), Hr2. cbn [mbind option_bind].
  destruct (new_copy_run (S (length l2)) l2 h) as (p & h2 & -> & Hn & Ht3); [apply Ht2|lia|].
  eexists _, _. split_all; [done| |done|done].
  apply (replaces_app _ _ _ _ _ _ _ Hr Hn). by intros q ?%not_elem_of_nil.
Qed.
Next Obligation. done. Qed.
End BaseDMA.

Module HasDMA.
(** The base object and what is added to it. *)
Record obj := Obj { base : BaseDMA.obj; style : nat }.

Definition HasDMA_cstr (v : (cstr * Z) * cstr) (w : world) : option (obj * world) :=
  let '(lr, s) := v in
  '(b, w) ← BaseDMA.BaseDMA_cstr lr w;
  '(p, h) ← new_copy (S (length s)) s (w_heap w);
  Some (Obj b p, World h (w_count w) (w_out w)).
Definition HasDMA_copy (rs : obj) (w : world) : option (obj * world) :=
  '(b, w) ← BaseDMA.BaseDMA_copy (base rs) w;
  s ← c_str (style rs) (w_heap w);
  '(p, h) ← new_copy (S (length s)) s (w_heap w);
  Some (Obj b p, World h (w_count w) (w_out w)).
(** The destructor of the base class runs after the body. *)
Definition HasDMA_destroy (o : obj) (w : world) : option world :=
  h ← delete_array (Some (style o)) (w_heap w);
  BaseDMA.BaseDMA_destroy (base o) (World h (w_count w) (w_out w)).
Definition HasDMA_assign (self : bool) (o rs : obj) (w : world) : option (obj * world) :=
  if self then Some (o, w)
  else '(b, w) ← BaseDMA.BaseDMA_assign self (base o) (base rs) w;
       h ← delete_array (Some (style o)) (w_heap w);
       s ← c_str (style rs) h;
       '(p, h) ← new_copy (S (length s)) s h;
       Some (Obj b p, World h (w_count w) (w_out w)).
(** [operator<<] of the base class is not defined on any object. *)
Definition HasDMA_print (rs : obj) (w : world) : option string :=
  _ ← BaseDMA.BaseDMA_print (base rs) w; s ← c_str (style rs) (w_heap w); None.

Definition holds (h : Heap ascii) (o : obj) (v : (cstr * Z) * cstr) : Prop :=
  DeepCopy.holds h (base o) v.1 ∧ has_text h (style o) v.2 ∧ style o ∉ arrays (base o).

(** Making the derived part, after the base part. *)
Lemma has_build_run b s lr w h0 old :
  text_ok s → DeepCopy.holds (w_heap w) b lr → replaces h0 (w_heap w) old (arrays b) →
  ∃ o w', ('(p, h) ← new_copy (S (length s)) s (w_heap w);
           Some (Obj b p, World h (w_count w) (w_out w))) = Some (o, w') ∧
    replaces h0 (w_heap w') old (arrays (base o) ++ [style o]) ∧ holds (w_heap w') o (lr, s) ∧
    trace_of w' = trace_of w.
Proof.
  intros Hs Hb Hr. destruct (new_copy_run (S (length s)) s (w_heap w) Hs) as (p & h & -> & Hr2 & Ht); [lia|].
  eexists _, _. split; [done|]. destruct (holds_ok _ _ _ Hb) as [_ Hall].
  assert (∀ q, q ∈ arrays b → q ≠ p) as Hne.
  { intros q Hq ->. destruct (Hr2 p) as (Hn & _). destruct Hn as [_ [?%not_elem_of_nil|Hnone]]; [left|done|].
    destruct (Hall p Hq). congruence. }
  split_all; [| |done].
  - rewrite <- (app_nil_r old). apply (replaces_app _ _ _ _ _ _ _ Hr Hr2). by intros q ?%not_elem_of_nil.
  - unfold holds. cbn [base style fst snd w_heap]. split_all; [|done|intros Hp; by apply (Hne p)].
    apply (holds_frame (w_heap w)); [done|]. intros q Hq. destruct (Hr2 q) as (_ & _ & Hs2).
    apply Hs2; [|apply not_elem_of_nil]. intros ->%list_elem_of_singleton. by apply (Hne p).
Qed.

(** Replacing the base part leaves the style text where it is. *)
Lemma style_kept h h' o v b :
  holds h o v → replaces h h' (arrays (base o)) (arrays b) →
  has_text h' (style o) v.2 ∧ style o ∉ arrays b.
Proof.
  intros (_ & Ht & Hn) Hr. split; [by apply (has_text_kept _ _ _ _ _ _ Ht Hr)|].
  intros Hin. destruct (Hr (style o)) as (Hnew & _). destruct (Hnew Hin) as [_ [?|?]]; [done|].
  destruct (has_text_alloc _ _ _ Ht). congruence.
Qed.

#[global] Program Instance HasDMA_owns : OwnsArrays obj ((cstr * Z) * cstr) := {|
  arrays o := arrays (base o) ++ [style o];
  DeepCopy.holds := holds;
  value_ok v := value_ok v.1 ∧ text_ok v.2;
  construct := HasDMA_cstr;
  copy := HasDMA_copy;
  destroy := HasDMA_destroy;
  assign := HasDMA_assign;
  show := HasDMA_print;
  can_assign := true;
  can_show := false;
  tells_new _ t := t;
  tells_gone _ t := t;
  tells_assign _ _ t := t;
  value_text _ := ""
|}.
Next Obligation.
  intros h o v (Hb & Ht & _). destruct (holds_ok _ _ _ Hb) as [Hok Hall].
  split; [split; [done|apply Ht]|]. intros p [Hp| ->%list_elem_of_singleton]%elem_of_app; [by apply Hall|].
  by eapply has_text_alloc.
Qed.
Next Obligation.
  intros h h' o v (Hb & Ht & Hn) Hf. split; [|split; [|done]].
  - apply (holds_frame h); [done|]. intros p Hp. apply Hf, elem_of_app. by left.
  - apply (has_text_frame h); [done|]. apply Hf, elem_of_app. right. left.
Qed.
Next Obligation.
  intros [lr s] w [Hv Hs]. unfold HasDMA_cstr.
  destruct (construct_spec lr w Hv) as (b & w1 & Hc & Hr & Hb & Ht). simpl in Hc. rewrite Hc.
  destruct (has_build_run b s lr w1 (w_heap w) [] Hs Hb Hr) as (o & w2 & Hrun & ? & ? & Ht2).
  exists o, w2. split_all; [done|done|done|]. simpl in Ht. congruence.
Qed.
Next Obligation.
  intros o [lr s] w Ho. pose proof Ho as (Hb & Ht & Hn). unfold HasDMA_copy.
  destruct (copy_spec (base o) lr w Hb) as (b & w1 & Hc & Hr & Hb' & Htr). simpl in Hc. rewrite Hc.
  cbn [mbind option_bind].
  assert (has_text (w_heap w1) (style o) s) as Ht1 by (apply (has_text_kept _ _ _ _ _ _ Ht Hr), not_elem_of_nil).
  rewrite (has_text_c_str _ _ _ Ht1).
  destruct (has_build_run b s lr w1 (w_heap w) [] (proj1 Ht) Hb' Hr) as (o' & w2 & Hrun & ? & ? & Ht2).
  exists o', w2. split_all; [done|done|done|]. simpl in Htr. congruence.
Qed.
Next Obligation.
  intros o [lr s] w (Hb & Ht & Hn). unfold HasDMA_destroy.
  destruct (has_text_alloc _ _ _ Ht) as [l Hp].
  destruct (replaces_delete _ _ _ Hp) as (h & -> & Hr). cbn [mbind option_bind].
  assert (DeepCopy.holds h (base o) lr) as Hb1 by by apply (holds_frame (w_heap w)), (replaces_gone_other _ _ _ _ Hr).
  destruct (destroy_spec (base o) lr (World h (w_count w) (w_out w)) Hb1) as (w2 & Hd & Hr2 & Htr).
  exists w2. split_all; [done| |done]. apply (replaces_old ([style o] ++ arrays (base o))).
  - intros q. rewrite !elem_of_app. tauto.
  - apply (replaces_app _ _ _ _ [] _ [] Hr Hr2). intros q Hq. split; [apply not_elem_of_nil|].
    intros ->%list_elem_of_singleton. done.
Qed.
Next Obligation. done. Qed.
Next Obligation.
  intros o o2 [lr s] [lr2 s2] w _ Ho (Hb2 & Ht2 & Hn2) Hd. pose proof Ho as (Hb & _).
  unfold HasDMA_assign.
  assert (can_assign (OwnsArrays := BaseDMA.BaseDMA_owns) = true) as Hcan by done.
  destruct (assign_spec (base o) (base o2) lr lr2 w Hcan Hb Hb2) as (b & w1 & Ha & Hr & Hb' & Htr).
  { intros p Hp Hp2. apply (Hd p); apply elem_of_app; by left. }
  change (BaseDMA.BaseDMA_assign false (base o) (base o2) w = Some (b, w1)) in Ha. rewrite Ha. cbn [mbind option_bind].
  destruct (style_kept _ _ _ _ _ Ho Hr) as [Ht1 Hnb]. simpl in Ht1.
  destruct (has_text_alloc _ _ _ Ht1) as [l Hp].
  destruct (replaces_delete _ _ _ Hp) as (h & -> & Hr1). cbn [mbind option_bind].
  assert (has_text h (style o2) s2) as Ht2'.
  { apply (has_text_kept (w_heap w1) _ [style o] []); [|done|].
    - apply (has_text_kept _ _ _ _ _ _ Ht2 Hr). intros Hin. apply (Hd (style o2)); apply elem_of_app; [by left|].
      right. left.
    - intros He%list_elem_of_singleton. apply (Hd (style o)); apply elem_of_app; right; [left|].
      rewrite <- He. left. }
  rewrite (has_text_c_str _ _ _ Ht2'). cbn [mbind option_bind].
  assert (DeepCopy.holds h b lr2) as Hbh by by apply (holds_frame (w_heap w1)), (replaces_gone_other _ _ _ _ Hr1).
  destruct (has_build_run b s2 lr2 (World h (w_count w1) (w_out w1)) (w_heap w) (arrays (base o) ++ [style o])
    (proj1 Ht2) Hbh) as (o' & w2 & Hrun & Hr2 & Ho' & Htr2).
  { rewrite <- (app_nil_r (arrays b)). apply (replaces_app _ _ _ _ _ _ _ Hr Hr1).
    intros q ->%list_elem_of_singleton. split; [done|apply Ho]. }
  exists o', w2. split_all; [done|done|done|]. simpl in *. rewrite Htr2. by rewrite <- Htr.
Qed.
Next Obligation. done. Qed.
End HasDMA.

(** The program [usedma.cpp] makes a [BaseDMA] and a [HasDMA] and prints the first. *)
Definition usedma_main (w : world) : option world :=
  '(bd, w) ← BaseDMA.BaseDMA_cstr (String.list_ascii_of_string "helloworld", 20%Z) w;
  '(hd, w) ← HasDMA.HasDMA_cstr ((String.list_ascii_of_string "helloworld", 20%Z), String.list_ascii_of_string "demo") w;
  t ← BaseDMA.BaseDMA_print bd w; let w := print t w in
  t ← HasDMA.HasDMA_print hd w; let w := print t w in
  '(pd, w) ← HasDMA.HasDMA_copy hd w;
  t ← HasDMA.HasDMA_print pd w; let w := print t w in
  w ← HasDMA.HasDMA_destroy pd w;
  w ← HasDMA.HasDMA_destroy hd w;
  BaseDMA.BaseDMA_destroy bd w.

(** The programs that print objects of these classes are undefined. *)
Lemma usedma_undefined : usedma_main (world_of (C := BaseDMA.obj) init) = None.
Proof. vm_compute. reflexivity. Qed.

(** * vegnews.cpp *)

Abbreviation lit := String.list_ascii_of_string.

Lemma StringBad_default_cstr w : StringBad.StringBad_default w = StringBad.StringBad_cstr (lit "C++") w.
Proof. done. Qed.

(** The functions, on the object they are called with; [sb] is the parameter and [ret] the
    value returned, which is a copy. *)
Definition callme1 (rsb : nat) : list (command cstr) :=
  [Print [Text "String passed by reference:"];
   Print [Text (" " +:+ quote); TextOf rsb; Text quote]].
Definition callme2 (arg sb : nat) : list (command cstr) :=
  [CopyOf sb arg; Print [Text "String passed by value:"];
   Print [Text (" " +:+ quote); TextOf sb; Text quote]; Drop sb].
Definition callme3 (arg sb ret : nat) : list (command cstr) :=
  [CopyOf sb arg;
   Print [Text ("String passed by value: " +:+ quote); TextOf sb;
          Text (quote +:+ ", and returned by value: " +:+ quote); TextOf sb; Text quote];
   CopyOf ret sb; Drop ret; Drop sb].

(** The inner block of [main]; its objects go in the reverse order. *)
Definition vegnews_main (headline1 headline2 sports sb ret sailor knot : nat) : list (command cstr) :=
  let say name x := Print [Text (name +:+ ": "); TextOf x] in
  [Print [Text "Starting an inner block."];
   New headline1 (lit "Celery Stalks at Midnight");
   New headline2 (lit "Lettuce Prey");
   New sports (lit "Spinach Leaves Bowl for Dollars");
   say "headline1" headline1; say "headline2" headline2; say "sports" sports] ++
  callme1 headline1 ++ [say "headline1" headline1] ++
  callme2 headline2 sb ++
  [say "headline2" headline2; Print [Text "Initialize one object to another:"]] ++
  callme3 headline2 sb ret ++
  [CopyOf sailor sports; say "sailor" sailor;
   Print [Text "Assign one object to another:"];
   New knot (lit "C++"); Assign knot headline1; say "knot" knot;
   Print [Text "Exiting the block"];
   Drop knot; Drop sailor; Drop sports; Drop headline2; Drop headline1].

(** The end of [main] in [copy_assignment.cpp]. *)
Definition copy_assignment_main (d0 d1 : nat) : list (command cstr) :=
  [New d0 (lit "Beat it!"); New d1 (lit "Never meant");
   Print [TextOf d0]; Print [TextOf d1]; Assign d1 d0; Print [TextOf d0]; Print [TextOf d1];
   Drop d1; Drop d0].

(** What a whole program leaves and prints, if it is defined. *)
Definition outcome {C V} `{OwnsArrays C V} (cs : list (command V)) : option (Heap ascii * trace) :=
  st ← execs (C := C) cs init; Some (w_heap (world_of st), trace_of (world_of st)).

Definition created_line (n : Z) (s : string) : string := pretty n +:+ ": " +:+ quote +:+ s +:+ quote +:+ " object created.".
Definition deleted_line (s : string) (n : Z) : string := quote +:+ s +:+ quote +:+ " object deleted, " +:+ pretty n +:+ " left.".


#[local] Instance string_value_ok_dec (v : cstr) :
  Decision (value_ok (OwnsArrays := StringBad.StringBad_owns) v) := decide (¬ NUL ∈ v).

(** The program [vegnews.cpp] is a client that keeps the rules. *)
Lemma vegnews_valid : valids (C := StringBad.obj) (vegnews_main 0 1 2 3 4 5 6) (∅, (0%Z, [])).
Proof. by_computation. Qed.


(** What it prints, and that it leaves nothing. *)
Lemma vegnews_outcome :
  outcome (C := StringBad.obj) (vegnews_main 0 1 2 3 4 5 6) = Some (∅, (0%Z,
    ["Starting an inner block.";
     created_line 1 "Celery Stalks at Midnight"; created_line 2 "Lettuce Prey";
     created_line 3 "Spinach Leaves Bowl for Dollars";
     "headline1: Celery Stalks at Midnight"; "headline2: Lettuce Prey";
     "sports: Spinach Leaves Bowl for Dollars";
     "String passed by reference:"; " " +:+ quote +:+ "Celery Stalks at Midnight" +:+ quote;
     "headline1: Celery Stalks at Midnight";
     created_line 4 "Lettuce Prey"; "String passed by value:"; " " +:+ quote +:+ "Lettuce Prey" +:+ quote;
     deleted_line "Lettuce Prey" 3;
     "headline2: Lettuce Prey"; "Initialize one object to another:";
     created_line 4 "Lettuce Prey";
     "String passed by value: " +:+ quote +:+ "Lettuce Prey" +:+ quote +:+ ", and returned by value: "
       +:+ quote +:+ "Lettuce Prey" +:+ quote;
     created_line 5 "Lettuce Prey"; deleted_line "Lettuce Prey" 4; deleted_line "Lettuce Prey" 3;
     created_line 4 "Spinach Leaves Bowl for Dollars"; "sailor: Spinach Leaves Bowl for Dollars";
     "Assign one object to another:"; created_line 5 "C++"; "knot: Celery Stalks at Midnight";
     "Exiting the block";
     deleted_line "Celery Stalks at Midnight" 4; deleted_line "Spinach Leaves Bowl for Dollars" 3;
     deleted_line "Spinach Leaves Bowl for Dollars" 2; deleted_line "Lettuce Prey" 1;
     deleted_line "Celery Stalks at Midnight" 0])).
Proof. vm_compute. reflexivity. Qed.

Lemma copy_assignment_outcome :
  outcome (C := Demo.obj) (copy_assignment_main 0 1) = Some (∅, (0%Z,
    ["construct string: Beat it!"; "construct string: Never meant"; "Beat it!"; "Never meant";
     "construct string: Beat it!"; "delete string: Never meant"; "Beat it!"; "Beat it!";
     "delete string: Beat it!"; "delete string: Beat it!"])).
Proof. vm_compute. reflexivity. Qed.

(** [strng_test.cpp] prints its only object. *)
Definition strng_test_main (ss : nat) : list (command cstr) :=
  [New ss (lit "helloworld"); Print [TextOf ss]; Drop ss].
Lemma strng_test_undefined : outcome (C := SString.obj) (strng_test_main 0) = None.
Proof. vm_compute. reflexivity. Qed.
