(* ===== verification/CopySwap.v ===== *)
(** The class [DataManager] of [src/cpp/swap.cpp]: a [unique_ptr] to its data, a copy
    constructor that starts the count of changes again, and the assignment by copy and
    swap. Objects are named by their variables, the data they own by addresses. *)

From S2P Require Import Prelude.
Open Scope Z_scope.

(** * The program *)

(** [ResourceImpl]: eight bytes and the number of changes, a [size_t]. *)
Definition DATA_LEN : nat := 8.
Record ResourceImpl : Type := Impl { mResource : list Z; mResourceChanges : Z }.

(** The free store, the next address of [new], and [pImpl] of each object. *)
Record world : Type := World { heap : gmap nat ResourceImpl; fresh_loc : nat; pImpl : gmap string nat }.

Definition alloc (i : ResourceImpl) (w : world) : nat * world :=
  (fresh_loc w, World (<[fresh_loc w := i]> (heap w)) (S (fresh_loc w)) (pImpl w)).
Definition set_pImpl (x : string) (p : nat) (w : world) : world :=
  World (heap w) (fresh_loc w) (<[x := p]> (pImpl w)).
Definition delete_loc (p : nat) (w : world) : option world :=
  match heap w !! p with
  | Some _ => Some (World (delete p (heap w)) (fresh_loc w) (pImpl w))
  | None => None
  end.

(** [std::make_unique<ResourceImpl>()] and [memset]. *)
Definition construct (x : string) (w : world) : option world :=
  if pImpl w !! x then None
  else let '(p, w) := alloc (Impl (replicate DATA_LEN 0) 0) w in Some (set_pImpl x p w).
(** What the copy constructor allocates: the bytes of the other, and no changes. *)
Definition copy_of (y : string) (w : world) : option (nat * world) :=
  q ← pImpl w !! y; i ← heap w !! q; Some (alloc (Impl (mResource i) 0) w).
Definition copy_construct (x y : string) (w : world) : option world :=
  if pImpl w !! x then None
  else '(p, w) ← copy_of y w; Some (set_pImpl x p w).
(** [operator= (DataManager d)]: [d] is a copy of the right side, the pointers are swapped
    and [d] is destroyed with what the left side had. *)
Definition assign (x y : string) (w : world) : option world :=
  '(d, w) ← copy_of y w;
  old ← pImpl w !! x;
  delete_loc old (set_pImpl x d w).
(** [exchange] finds the specialisation of [std::swap], which calls the member. *)
Definition exchange (x y : string) (w : world) : option world :=
  p ← pImpl w !! x; q ← pImpl w !! y; Some (set_pImpl y p (set_pImpl x q w)).

(** The bytes up to the first zero. *)
Fixpoint c_str (s : list Z) : list Z :=
  match s with [] => [] | b :: s => if b =? 0 then [] else b :: c_str s end.
(** [strcpy] into an array; behind its end it is undefined. *)
Definition strcpy (dst src : list Z) : option (list Z) :=
  if (S (length (c_str src)) <=? length dst)%nat
  then Some (c_str src ++ [0] ++ drop (S (length (c_str src))) dst) else None.

Definition storeData (x : string) (data : list Z) (w : world) : option (bool * world) :=
  p ← pImpl w !! x; i ← heap w !! p;
  if 8 <=? Z.of_nat (length data) then Some (false, w)
  else
    bytes ← strcpy (mResource i) data;
    Some (true, World (<[p := Impl bytes (u64 (mResourceChanges i + 1))]> (heap w)) (fresh_loc w) (pImpl w)).

(** Printing an array of characters goes on to its first zero. *)
Definition print_bytes (l : list Z) : option (list Z) :=
  if bool_decide (0 ∈ l) then Some (c_str l) else None.
Definition printData (x : string) (w : world) : option (list Z) :=
  p ← pImpl w !! x; i ← heap w !! p; print_bytes (mResource i).
Definition getResourceChanges (x : string) (w : world) : option Z :=
  p ← pImpl w !! x; i ← heap w !! p; Some (mResourceChanges i).
Definition destroy (x : string) (w : world) : option world :=
  p ← pImpl w !! x; delete_loc p (World (heap w) (fresh_loc w) (delete x (pImpl w))).

Inductive command : Type :=
  | New (x : string) | CopyOf (x y : string) | Assign (x y : string) | Exchange (x y : string)
  | Store (x : string) (data : list Z) | Print (x : string) | Changes (x : string) | Drop (x : string).
Inductive answer : Type := Done | Stored (b : bool) | Text (s : list Z) | Count (n : Z).

Definition step (c : command) (w : world) : option (answer * world) :=
  match c with
  | New x => w ← construct x w; Some (Done, w)
  | CopyOf x y => w ← copy_construct x y w; Some (Done, w)
  | Assign x y => w ← assign x y w; Some (Done, w)
  | Exchange x y => w ← exchange x y w; Some (Done, w)
  | Store x data => '(b, w) ← storeData x data w; Some (Stored b, w)
  | Print x => t ← printData x w; Some (Text t, w)
  | Changes x => n ← getResourceChanges x w; Some (Count n, w)
  | Drop x => w ← destroy x w; Some (Done, w)
  end.
Fixpoint run (cs : list command) (w : world) : option (list answer * world) :=
  match cs with
  | [] => Some ([], w)
  | c :: cs => '(a, w) ← step c w; '(l, w) ← run cs w; Some (a :: l, w)
  end.

(** [main], with its texts as bytes; the destructors at the end run in reverse order. *)
Definition bytes_of (s : string) : list Z :=
  map (λ c, Z.of_nat (Ascii.nat_of_ascii c)) (String.list_ascii_of_string s).
Definition main_commands : list command :=
  [New "dm"; Print "dm"; Changes "dm"; Store "dm" (bytes_of "hello"); Print "dm"; Changes "dm";
   Store "dm" (bytes_of "aloha"); Print "dm"; Changes "dm"; Store "dm" (bytes_of "helloworld");
   Print "dm"; Changes "dm"; New "dm1"; Store "dm1" (bytes_of "bye"); Assign "dm" "dm1"; Print "dm"; Print "dm1";
   New "dm2"; Store "dm2" (bytes_of "aloha"); Print "dm1"; Print "dm2"; Exchange "dm1" "dm2"; Print "dm1"; Print "dm2";
   Drop "dm2"; Drop "dm1"; Drop "dm"].
Definition empty_world : world := World ∅ 0 ∅.

(** * Values *)

(** An object as a value: its bytes and its count. *)
Abbreviation values := (gmap string ResourceImpl).

Definition spec_step (c : command) (m : values) : option (answer * values) :=
  match c with
  | New x => if m !! x then None else Some (Done, <[x := Impl (replicate DATA_LEN 0) 0]> m)
  | CopyOf x y => if m !! x then None else v ← m !! y; Some (Done, <[x := Impl (mResource v) 0]> m)
  | Assign x y => v ← m !! y; _ ← m !! x; Some (Done, <[x := Impl (mResource v) 0]> m)
  | Exchange x y => v ← m !! x; v' ← m !! y; Some (Done, <[y := v]> (<[x := v']> m))
  | Store x data =>
      v ← m !! x;
      if 8 <=? Z.of_nat (length data) then Some (Stored false, m)
      else
        let s := c_str data in
        Some (Stored true,
          <[x := Impl (s ++ [0] ++ drop (S (length s)) (mResource v)) (u64 (mResourceChanges v + 1))]> m)
  | Print x => v ← m !! x; Some (Text (c_str (mResource v)), m)
  | Changes x => v ← m !! x; Some (Count (mResourceChanges v), m)
  | Drop x => _ ← m !! x; Some (Done, delete x m)
  end.
Fixpoint spec_run (cs : list command) (m : values) : option (list answer * values) :=
  match cs with
  | [] => Some ([], m)
  | c :: cs => '(a, m) ← spec_step c m; '(l, m) ← spec_run cs m; Some (a :: l, m)
  end.

(** Each object owns data of its own, which is its value and fits its array with the zero;
    nothing else is allocated. *)
Definition value_ok (v : ResourceImpl) : Prop := length (mResource v) = DATA_LEN ∧ 0 ∈ mResource v.
Record owns (w : world) (m : values) : Prop := {
  owns_value x p : pImpl w !! x = Some p → is_Some (heap w !! p) ∧ heap w !! p = m !! x;
  owns_none x : pImpl w !! x = None → m !! x = None;
  owns_ok x v : m !! x = Some v → value_ok v;
  owns_inj x y p : pImpl w !! x = Some p → pImpl w !! y = Some p → x = y;
  owns_all p : is_Some (heap w !! p) → ∃ x, pImpl w !! x = Some p;
  owns_fresh p : is_Some (heap w !! p) → (p < fresh_loc w)%nat
}.

Lemma owns_lookup w m x v : owns w m → m !! x = Some v → ∃ p, pImpl w !! x = Some p ∧ heap w !! p = Some v.
Proof.
  intros Ho Hv. destruct (pImpl w !! x) as [p|] eqn:Hp; [|by rewrite (owns_none _ _ Ho x Hp) in Hv].
  destruct (owns_value _ _ Ho x p Hp) as [_ He]. exists p. by rewrite He.
Qed.
Lemma owns_not w m x : owns w m → m !! x = None → pImpl w !! x = None.
Proof.
  intros Ho Hv. destruct (pImpl w !! x) as [p|] eqn:Hp; [|done].
  destruct (owns_value _ _ Ho x p Hp) as [[? Hs] He]. congruence.
Qed.

Lemma owns_fresh_loc w m : owns w m → heap w !! fresh_loc w = None.
Proof.
  intros Ho. apply eq_None_not_Some. intros Hs. pose proof (owns_fresh _ _ Ho _ Hs). lia.
Qed.

Lemma owns_empty : owns empty_world ∅.
Proof. split; intros *; cbn; rewrite ?lookup_empty; try done; by intros [? ?]. Qed.

(** A new object. *)
Lemma owns_new w m x v :
  owns w m → m !! x = None → value_ok v →
  let '(p, w') := alloc v w in owns (set_pImpl x p w') (<[x := v]> m).
Proof.
  intros Ho Hx Hv. pose proof (owns_not _ _ _ Ho Hx) as Hp. pose proof (owns_fresh_loc _ _ Ho) as Hf. cbn.
  split; cbn.
  - intros y q. rewrite !lookup_insert_Some. intros [[<- <-]|[Hy Hq]]; [by rewrite !lookup_insert_eq|].
    destruct (owns_value _ _ Ho y q Hq) as [Hs He].
    rewrite (lookup_insert_ne m), (lookup_insert_ne (heap w)); [done| |done]. intros <-. by rewrite Hf in Hs.
  - intros y. rewrite !lookup_insert_None. intros [Hy Hxy]. by split; [apply (owns_none _ _ Ho)|].
  - intros y u. rewrite lookup_insert_Some. intros [[_ <-]|[_ Hu]]; [done|]. by apply (owns_ok _ _ Ho y).
  - intros y z q. rewrite !lookup_insert_Some.
    intros [[<- <-]|[Hy Hq]] [[<- Hz]|[Hz Hq']]; [done| | |by apply (owns_inj _ _ Ho y z q)].
    + destruct (owns_value _ _ Ho z _ Hq') as [Hs _]. by rewrite Hf in Hs.
    + subst. destruct (owns_value _ _ Ho y _ Hq) as [Hs _]. by rewrite Hf in Hs.
  - intros q. destruct (decide (q = fresh_loc w)) as [->|Hq].
    + intros _. exists x. by rewrite lookup_insert_eq.
    + rewrite lookup_insert_ne by done. intros Hs. destruct (owns_all _ _ Ho q Hs) as [y Hy]. exists y.
      rewrite lookup_insert_ne; [done|]. intros <-. by rewrite Hp in Hy.
  - intros q. destruct (decide (q = fresh_loc w)) as [->|Hq]; [lia|].
    rewrite lookup_insert_ne by done. intros Hs. pose proof (owns_fresh _ _ Ho q Hs). lia.
Qed.

(** An object is gone with what it owned. *)
Lemma owns_destroy w m x p :
  owns w m → pImpl w !! x = Some p →
  owns (World (delete p (heap w)) (fresh_loc w) (delete x (pImpl w))) (delete x m).
Proof.
  intros Ho Hp. split; cbn.
  - intros y q. rewrite lookup_delete_Some. intros [Hxy Hq]. rewrite (lookup_delete_ne m) by done.
    rewrite lookup_delete_ne; [by apply (owns_value _ _ Ho)|]. intros <-. apply Hxy.
    by apply (owns_inj _ _ Ho x y p).
  - intros y. rewrite !lookup_delete_None. intros [->|Hy]; [by left|right; by apply (owns_none _ _ Ho)].
  - intros y u. rewrite lookup_delete_Some. intros [_ Hu]. by apply (owns_ok _ _ Ho y).
  - intros y z q. rewrite !lookup_delete_Some. intros [_ Hy] [_ Hz]. by apply (owns_inj _ _ Ho y z q).
  - intros q [u Hs]. apply lookup_delete_Some in Hs as [Hpq Hs].
    destruct (owns_all _ _ Ho q (mk_is_Some _ _ Hs)) as [y Hy]. exists y.
    rewrite lookup_delete_ne; [done|]. intros <-. congruence.
  - intros q [u Hs]. apply lookup_delete_Some in Hs as [_ Hs]. apply (owns_fresh _ _ Ho). by eexists.
Qed.

(** The data of an object change in place. *)
Lemma owns_update w m x p v :
  owns w m → pImpl w !! x = Some p → value_ok v →
  owns (World (<[p := v]> (heap w)) (fresh_loc w) (pImpl w)) (<[x := v]> m).
Proof.
  intros Ho Hp Hv. destruct (owns_value _ _ Ho x p Hp) as [Hlive _]. split; cbn.
  - intros y q Hq. destruct (decide (x = y)) as [<-|Hxy].
    + assert (q = p) as -> by congruence. by rewrite !lookup_insert_eq.
    + rewrite !lookup_insert_ne; [by apply (owns_value _ _ Ho)|done|].
      intros <-. by apply Hxy, (owns_inj _ _ Ho x y p).
  - intros y Hy. rewrite lookup_insert_ne by congruence. by apply (owns_none _ _ Ho).
  - intros y u. rewrite lookup_insert_Some. intros [[_ <-]|[_ Hu]]; [done|]. by apply (owns_ok _ _ Ho y).
  - apply (owns_inj _ _ Ho).
  - intros q. destruct (decide (q = p)) as [->|]; [by exists x|]. rewrite lookup_insert_ne by done.
    apply (owns_all _ _ Ho).
  - intros q. destruct (decide (q = p)) as [->|]; [intros _; by apply (owns_fresh _ _ Ho)|].
    rewrite lookup_insert_ne by done. apply (owns_fresh _ _ Ho).
Qed.

(** An exchange reads every name as the other one. *)
Definition other (x y z : string) : string := if decide (z = y) then x else if decide (z = x) then y else z.
Lemma other_other x y z : other x y (other x y z) = z.
Proof. unfold other. repeat case_decide; congruence. Qed.
Lemma exchange_lookup {A} (m : gmap string A) x y a b z :
  m !! x = Some a → m !! y = Some b → <[y := a]> (<[x := b]> m) !! z = m !! other x y z.
Proof.
  intros Ha Hb. unfold other. case_decide as Hy; [subst; by rewrite lookup_insert_eq|].
  rewrite lookup_insert_ne by done. case_decide as Hx; [subst; by rewrite lookup_insert_eq|].
  by rewrite lookup_insert_ne by done.
Qed.

(** Two objects exchange what they own. *)
Lemma owns_exchange w m x y p q v u :
  owns w m → pImpl w !! x = Some p → pImpl w !! y = Some q → m !! x = Some v → m !! y = Some u →
  owns (set_pImpl y p (set_pImpl x q w)) (<[y := v]> (<[x := u]> m)).
Proof.
  intros Ho Hp Hq Hv Hu.
  split; cbn; intros *; rewrite ?(exchange_lookup (pImpl w) x y p q _ Hp Hq), ?(exchange_lookup m x y v u _ Hv Hu).
  - apply (owns_value _ _ Ho).
  - apply (owns_none _ _ Ho).
  - apply (owns_ok _ _ Ho).
  - intros Hz Ht. rewrite <- (other_other x y x0), <- (other_other x y y0). f_equal. by eapply (owns_inj _ _ Ho).
  - intros Hr. destruct (owns_all _ _ Ho _ Hr) as [z Hz]. exists (other x y z).
    by rewrite (exchange_lookup (pImpl w) x y p q _ Hp Hq), other_other.
  - apply (owns_fresh _ _ Ho).
Qed.

(** * Refinement *)

Lemma length_c_str l : (length (c_str l) ≤ length l)%nat.
Proof. induction l as [|b l IH]; [done|]. simpl. destruct (b =? 0); simpl; lia. Qed.

Lemma stored_ok s l n :
  length l = DATA_LEN → (length s < 8)%nat →
  strcpy l s = Some (c_str s ++ [0] ++ drop (S (length (c_str s))) l) ∧
  value_ok (Impl (c_str s ++ [0] ++ drop (S (length (c_str s))) l) n).
Proof.
  intros Hl Hs. pose proof (length_c_str s). unfold strcpy, value_ok, DATA_LEN in *. cbn [mResource].
  rewrite Hl. destruct (Nat.leb_spec (S (length (c_str s))) 8); [|lia]. split; [done|].
  rewrite !length_app, length_drop. cbn [length]. split; [lia|]. set_solver.
Qed.

Lemma owns_assign w m x y v u :
  owns w m → m !! y = Some v → m !! x = Some u →
  ∃ w', assign x y w = Some w' ∧ owns w' (<[x := Impl (mResource v) 0]> m).
Proof.
  intros Ho Hv Hu. destruct (owns_lookup _ _ _ _ Ho Hv) as (q & Hq & Hhq).
  destruct (owns_lookup _ _ _ _ Ho Hu) as (p & Hp & Hhp).
  pose proof (owns_fresh_loc _ _ Ho) as Hf. unfold assign, copy_of. rewrite Hq. cbn [mbind option_bind].
  rewrite Hhq. cbn. rewrite Hp. cbn. unfold delete_loc. cbn.
  assert (p ≠ fresh_loc w) as Hpf by congruence. rewrite lookup_insert_ne, Hhp by done.
  eexists. split; [reflexivity|].
  pose proof (owns_new _ _ x (Impl (mResource v) 0) (owns_destroy _ _ _ _ Ho Hp)) as Hn. cbn in Hn.
  rewrite lookup_delete_eq in Hn. specialize (Hn eq_refl).
  unfold set_pImpl in *. cbn in *.
  rewrite (insert_delete_eq (pImpl w)), (insert_delete_eq m) in Hn.
  rewrite delete_insert_ne by done. apply Hn. split; [|apply (owns_ok _ _ Ho y v Hv)].
  apply (owns_ok _ _ Ho y v Hv).
Qed.

Lemma step_ok w m c :
  owns w m →
  match spec_step c m with
  | Some (a, m') => ∃ w', step c w = Some (a, w') ∧ owns w' m'
  | None => True
  end.
Proof.
  intros Ho. destruct c as [x|x y|x y|x y|x s|x|x|x]; cbn [spec_step step].
  - destruct (m !! x) as [?|] eqn:Hx; [done|]. unfold construct. rewrite (owns_not _ _ _ Ho Hx).
    eexists. split; [reflexivity|]. apply owns_new; [done..|].
    split; [done|]. cbn. set_solver.
  - destruct (m !! x) as [?|] eqn:Hx; [done|]. destruct (m !! y) as [v|] eqn:Hy; [|done].
    cbn [mbind option_bind]. unfold copy_construct, copy_of. rewrite (owns_not _ _ _ Ho Hx).
    destruct (owns_lookup _ _ _ _ Ho Hy) as (p & Hp & Hh). rewrite Hp. cbn [mbind option_bind]. rewrite Hh.
    eexists. split; [reflexivity|]. apply (owns_new _ _ _ (Impl (mResource v) 0)); [done..|].
    apply (owns_ok _ _ Ho y v Hy).
  - destruct (m !! y) as [v|] eqn:Hy; [|done]. destruct (m !! x) as [u|] eqn:Hx; [|done].
    cbn [mbind option_bind]. destruct (owns_assign w m x y v u Ho Hy Hx) as (w' & -> & Hw). by exists w'.
  - destruct (m !! x) as [v|] eqn:Hx; [|done]. destruct (m !! y) as [u|] eqn:Hy; [|done].
    cbn [mbind option_bind]. unfold exchange. destruct (owns_lookup _ _ _ _ Ho Hx) as (p & Hp & _).
    destruct (owns_lookup _ _ _ _ Ho Hy) as (q & Hq & _). rewrite Hp, Hq. eexists. split; [reflexivity|].
    by apply owns_exchange.
  - destruct (m !! x) as [v|] eqn:Hx; [|done]. cbn [mbind option_bind]. unfold storeData.
    destruct (owns_lookup _ _ _ _ Ho Hx) as (p & Hp & Hh). rewrite Hp. cbn [mbind option_bind]. rewrite Hh.
    destruct (Z.leb_spec 8 (Z.of_nat (length s))) as [Hs|Hs]; [by exists w|].
    destruct (owns_ok _ _ Ho x v Hx) as [Hl _].
    destruct (stored_ok s (mResource v) (u64 (mResourceChanges v + 1)) Hl) as [He Hok]; [lia|].
    cbn [mbind option_bind]. rewrite He. eexists. split; [reflexivity|]. by apply owns_update.
  - destruct (m !! x) as [v|] eqn:Hx; [|done]. unfold printData, print_bytes.
    destruct (owns_lookup _ _ _ _ Ho Hx) as (p & Hp & Hh). rewrite Hp. cbn [mbind option_bind]. rewrite Hh.
    cbn [mbind option_bind]. rewrite bool_decide_true by apply (owns_ok _ _ Ho x v Hx). by exists w.
  - destruct (m !! x) as [v|] eqn:Hx; [|done]. unfold getResourceChanges.
    destruct (owns_lookup _ _ _ _ Ho Hx) as (p & Hp & Hh). rewrite Hp. cbn [mbind option_bind]. rewrite Hh.
    by exists w.
  - destruct (m !! x) as [v|] eqn:Hx; [|done]. unfold destroy, delete_loc.
    destruct (owns_lookup _ _ _ _ Ho Hx) as (p & Hp & Hh). rewrite Hp. cbn [mbind option_bind heap]. rewrite Hh.
    eexists. split; [reflexivity|]. exact (owns_destroy w m x p Ho Hp).
Qed.

(** [DataManager] behaves as a value of eight bytes and a count. Whatever a program that
    uses only live objects does with constructions, copies, assignments (also of an
    object to itself), exchanges, stores and destructions, the objects give the
    answers of the values; a copy starts the count again; no text overruns its array or
    lacks its zero; and what is allocated is exactly what the live objects own. *)
Theorem data_manager_is_value cs a m :
  spec_run cs ∅ = Some (a, m) → ∃ w, run cs empty_world = Some (a, w) ∧ owns w m.
Proof.
  assert (∀ w0 m0, owns w0 m0 → spec_run cs m0 = Some (a, m) → ∃ w, run cs w0 = Some (a, w) ∧ owns w m) as H.
  { revert a. induction cs as [|c cs IH]; intros a w0 m0 Ho; cbn [spec_run run]; [intros [= <- <-]; by exists w0|].
    pose proof (step_ok w0 m0 c Ho) as Hs. destruct (spec_step c m0) as [[b m1]|]; [|done].
    destruct Hs as (w1 & -> & Ho1). cbn. destruct (spec_run cs m1) as [[l m2]|] eqn:Hr; [|done].
    cbn. intros [= <- <-]. destruct (IH l w1 m1 Ho1 Hr) as (w2 & -> & Ho2). by exists w2. }
  intros Hr. by apply (H empty_world ∅ owns_empty).
Qed.

(** * The program *)

(** The answers of [main] as text. *)
Definition text_of (l : list Z) : string :=
  String.string_of_list_ascii (map (λ b, Ascii.ascii_of_nat (Z.to_nat b)) l).
Definition main_answers : list answer :=
  match run main_commands empty_world with Some (l, _) => l | None => [] end.
Definition main_texts : list string := omap (λ a, match a with Text t => Some (text_of t) | _ => None end) main_answers.
Definition main_counts : list Z := omap (λ a, match a with Count n => Some n | _ => None end) main_answers.
Example data_main_prints :
  main_texts = ["" ; "hello"; "aloha"; "aloha"; "bye"; "bye"; "bye"; "aloha"; "aloha"; "bye"] ∧
  main_counts = [0; 1; 2; 2].
Proof. split; vm_compute; reflexivity. Qed.

Lemma data_manager_is_value_witness :
  ∃ w, run main_commands empty_world = Some (main_answers, w) ∧ owns w ∅.
Proof. apply data_manager_is_value. vm_compute. reflexivity. Defined.

(** Assigned to itself, an object keeps its bytes and loses its count. *)
Example self_assignment :
  ∃ w, run [New "dm"; Store "dm" (bytes_of "hello"); Assign "dm" "dm"; Changes "dm"] empty_world
       = Some ([Done; Stored true; Done; Count 0], w).
Proof. by eexists. Qed.
