(* ===== verification/ClassTemplates.v ===== *)
(** Class templates of [src/cpp/cpp_class/class_template]: the stack of [stacktp.h] with
    its client [stacktem.cpp], the template with a template parameter of [tempparm.cpp],
    the stack with a pointer of [stacktp_pointer.h] and the array of [arraytp.h]. *)

From S2P Require Import Prelude.

(** * What a container promises *)

(** A bounded stack: its elements, the last pushed first. [push] and [pop] say whether they
    did anything; [pop] assigns its argument only if so. [None] is undefined. *)
Class Container (C : Type → Type) : Type := {
  make : ∀ {T}, C T;
  push : ∀ {T}, T → C T → option (bool * C T);
  pop : ∀ {T}, T → C T → option (bool * T * C T);
  elements : ∀ {T}, C T → list T;
  room : nat;
  valid : ∀ {T}, C T → Prop;
  make_valid {T} : valid (make (T:=T)) ∧ elements (make (T:=T)) = [];
  push_law {T} (x : T) c : valid c →
    ∃ c', push x c = Some (bool_decide (length (elements c) < room), c') ∧ valid c' ∧
      elements c' = if bool_decide (length (elements c) < room) then x :: elements c else elements c;
  pop_law {T} (x : T) c : valid c →
    ∃ c', pop x c = Some (bool_decide (elements c ≠ []), from_option id x (head (elements c)), c') ∧
      valid c' ∧ elements c' = tail (elements c)
}.

(** * stacktp.h *)

Module StackTP.
Definition MAX : nat := 10.

(** [Type items[MAX]]: an element that was never assigned is [None]. *)
Record Stack (T : Type) : Type := mk_Stack { items : list (option T); top : nat }.
Arguments mk_Stack {T}. Arguments items {T}. Arguments top {T}.

Section stack.
Context {T : Type}.
Implicit Types s : Stack T.

Definition new_Stack : Stack T := mk_Stack (replicate MAX None) 0.
Definition isempty s : bool := (top s =? 0)%nat.
Definition isfull s : bool := (top s =? MAX)%nat.
(** Writing to [items[i]], inside the array. *)
Definition set_item (i : nat) (x : T) s : option (list (option T)) :=
  if (i <? MAX)%nat then Some (<[i := Some x]> (items s)) else None.
Definition push (x : T) s : option (bool * Stack T) :=
  if isfull s then Some (false, s)
  else l ← set_item (top s) x s; Some (true, mk_Stack l (S (top s))).
(** [pop] of a reference [x]. *)
Definition pop (x : T) s : option (bool * T * Stack T) :=
  if isempty s then Some (false, x, s)
  else y ← mjoin (items s !! pred (top s)); Some (true, y, mk_Stack (items s) (pred (top s))).

(** The array holds what was pushed, upwards from the bottom. *)
Definition stack_valid s : Prop :=
  length (items s) = MAX ∧ top s ≤ MAX ∧ Forall (λ o, is_Some o) (take (top s) (items s)).
Definition stack_elements s : list T := rev (omap id (take (top s) (items s))).

Lemma omap_all_Some (l : list (option T)) : Forall (λ o, is_Some o) l → ∃ xs, l = map Some xs.
Proof. induction 1 as [|o l [x ->] _ [xs ->]]; [by exists []|by exists (x :: xs)]. Qed.
Lemma omap_map_Some (xs : list T) : omap id (map Some xs) = xs.
Proof. induction xs; cbn; congruence. Qed.

Lemma length_elements s : stack_valid s → length (stack_elements s) = top s.
Proof.
  intros (Hl & Ht & Hf). unfold stack_elements. rewrite length_rev.
  destruct (omap_all_Some _ Hf) as [xs Hxs]. pose proof (f_equal length Hxs) as Hn.
  rewrite Hxs, omap_map_Some. rewrite length_map, length_take in Hn. lia.
Qed.

Lemma take_insert_here (l : list (option T)) n o : n < length l → take (S n) (<[n := o]> l) = take n l ++ [o].
Proof.
  intros Hn. rewrite (take_S_r _ _ o) by (by apply list_lookup_insert_eq). by rewrite take_insert_ge by lia.
Qed.

Lemma push_spec x s :
  stack_valid s →
  ∃ s', push x s = Some (bool_decide (length (stack_elements s) < MAX), s') ∧ stack_valid s' ∧
    stack_elements s' = if bool_decide (length (stack_elements s) < MAX) then x :: stack_elements s else stack_elements s.
Proof.
  intros Hs. rewrite length_elements by done. pose proof Hs as (Hl & Ht & Hf). unfold push, isfull, set_item.
  destruct (Nat.eqb_spec (top s) MAX) as [He|He].
  - rewrite bool_decide_false by lia. by exists s.
  - rewrite bool_decide_true by lia. destruct (Nat.ltb_spec (top s) MAX); [|lia].
    eexists. split; [reflexivity|]. unfold stack_valid, stack_elements. cbn [items top].
    rewrite take_insert_here by lia. split_all.
    + by rewrite length_insert.
    + lia.
    + apply Forall_app. split; [done|]. by constructor; [eexists|].
    + rewrite omap_app. cbn. by rewrite rev_app_distr.
Qed.

Lemma pop_spec x s :
  stack_valid s →
  ∃ s', pop x s = Some (bool_decide (stack_elements s ≠ []), from_option id x (head (stack_elements s)), s') ∧
    stack_valid s' ∧ stack_elements s' = tail (stack_elements s).
Proof.
  intros Hs. pose proof (length_elements s Hs) as Hlen. pose proof Hs as (Hl & Ht & Hf). unfold pop, isempty.
  destruct (top s) as [|n] eqn:Hn; cbn [Nat.eqb].
  - destruct (stack_elements s) as [|? ?] eqn:He; [|done]. rewrite bool_decide_false by tauto. exists s.
    split; [done|]. by rewrite He.
  - cbn [pred]. destruct (lookup_lt_is_Some_2 (items s) n) as [o Ho]; [lia|].
    rewrite (take_S_r _ _ o Ho) in Hf. apply Forall_app in Hf as [Hf [[y ->] _]%Forall_cons].
    assert (stack_elements s = y :: rev (omap id (take n (items s)))) as He.
    { unfold stack_elements. rewrite Hn, (take_S_r _ _ _ Ho), omap_app. cbn. by rewrite rev_app_distr. }
    rewrite Ho, He, bool_decide_true by done. cbn. eexists. split; [reflexivity|].
    split; [|done]. unfold stack_valid. cbn. split_all; [done|lia|done].
Qed.
Lemma new_spec : stack_valid new_Stack ∧ stack_elements new_Stack = [].
Proof. split; [|done]. unfold stack_valid. cbn. split_all; [done|lia|done]. Qed.
End stack.
End StackTP.

#[global] Instance Stack_Container : Container StackTP.Stack := {
  make := @StackTP.new_Stack;
  push := @StackTP.push;
  pop := @StackTP.pop;
  elements := @StackTP.stack_elements;
  room := StackTP.MAX;
  valid := @StackTP.stack_valid;
  make_valid := @StackTP.new_spec;
  push_law := @StackTP.push_spec;
  pop_law := @StackTP.pop_spec
}.

(** * stacktem.cpp *)

Module StackTem.
(** [while (!names.isempty()) { names.pop(name); cout << name; }] *)
Fixpoint print_all (fuel : nat) (name : string) (names : StackTP.Stack string) : option output :=
  if StackTP.isempty names then Some []
  else
    match fuel with
    | O => None
    | S fuel =>
        '(_, name, names) ← StackTP.pop name names;
        out ← print_all fuel name names; Some (name :: out)
    end.

Fixpoint push_all {T} (l : list T) (s : StackTP.Stack T) : option (StackTP.Stack T) :=
  match l with
  | [] => Some s
  | x :: l => '(_, s) ← StackTP.push x s; push_all l s
  end.

Definition main : option output :=
  names ← push_all ["Alice Jenson"; "Bob Dylan"; "Catherine Marley"; "Davie John"] StackTP.new_Stack;
  print_all (S StackTP.MAX) "" names.

(** The loop prints the elements from the top and ends. *)
Lemma print_all_spec fuel name s :
  StackTP.stack_valid s → length (StackTP.stack_elements s) < fuel →
  print_all fuel name s = Some (StackTP.stack_elements s).
Proof.
  revert name s. induction fuel as [|fuel IH]; intros name s Hs Hf; [lia|]. cbn [print_all].
  pose proof (StackTP.length_elements s Hs) as Hl. unfold StackTP.isempty.
  destruct (StackTP.stack_elements s) as [|x l] eqn:He.
  - cbn in Hl. by rewrite <- Hl.
  - cbn in Hl. destruct (Nat.eqb_spec (StackTP.top s) 0); [lia|].
    destruct (StackTP.pop_spec name s Hs) as (s' & -> & Hs' & He'). rewrite He in *. cbn in He'.
    cbn. rewrite IH; [by rewrite He'|done|]. rewrite He'. cbn in Hf. lia.
Qed.

Example stacktem_prints : main = Some ["Davie John"; "Catherine Marley"; "Bob Dylan"; "Alice Jenson"].
Proof. reflexivity. Qed.
End StackTem.

(** * tempparm.cpp *)

Module TempParm.
Section crab.
Context {C : Type → Type} `{!Container C} {A B : Type}.

(** [Crab<Container>]: a container of each of two types. *)
Record Crab : Type := mk_Crab { s1 : C A; s2 : C B }.
Definition new_Crab : Crab := mk_Crab make make.

(** [s1.push (a) && s2.push (x)], [s1.pop (a) && s2.pop (x)]. *)
Definition crab_push (a : A) (x : B) (c : Crab) : option (bool * Crab) :=
  '(b, t1) ← push a (s1 c);
  if b : bool then '(b, t2) ← push x (s2 c); Some (b, mk_Crab t1 t2)
  else Some (false, mk_Crab t1 (s2 c)).
Definition crab_pop (a : A) (x : B) (c : Crab) : option (bool * A * B * Crab) :=
  '(b, a, t1) ← pop a (s1 c);
  if b : bool then '(b, x, t2) ← pop x (s2 c); Some (b, a, x, mk_Crab t1 t2)
  else Some (false, a, x, mk_Crab t1 (s2 c)).

Inductive command : Type := Push (a : A) (x : B) | Pop (a : A) (x : B).
Inductive reply : Type := Pushed (b : bool) | Popped (b : bool) (a : A) (x : B).

Fixpoint run (cs : list command) (c : Crab) : option (list reply * Crab) :=
  match cs with
  | [] => Some ([], c)
  | Push a x :: cs =>
      '(b, c) ← crab_push a x c; '(rs, c) ← run cs c; Some (Pushed b :: rs, c)
  | Pop a x :: cs =>
      '(b, a, x, c) ← crab_pop a x c; '(rs, c) ← run cs c; Some (Popped b a x :: rs, c)
  end.

(** One stack of pairs with the same room. *)
Fixpoint pairs_run (cs : list command) (l : list (A * B)) : list reply * list (A * B) :=
  match cs with
  | [] => ([], l)
  | Push a x :: cs =>
      let b := bool_decide (length l < room (C:=C)) in
      let '(rs, l') := pairs_run cs (if b then (a, x) :: l else l) in (Pushed b :: rs, l')
  | Pop a x :: cs =>
      match l with
      | [] => let '(rs, l') := pairs_run cs [] in (Popped false a x :: rs, l')
      | (a, x) :: l => let '(rs, l') := pairs_run cs l in (Popped true a x :: rs, l')
      end
  end.

Definition paired (c : Crab) (l : list (A * B)) : Prop :=
  valid (s1 c) ∧ valid (s2 c) ∧ elements (s1 c) = l.*1 ∧ elements (s2 c) = l.*2.

Lemma new_paired : paired new_Crab [].
Proof. unfold paired. cbn. destruct (make_valid (T:=A)), (make_valid (T:=B)). by split_all. Qed.

Lemma crab_push_paired a x c l :
  paired c l →
  ∃ c', crab_push a x c = Some (bool_decide (length l < room (C:=C)), c') ∧
    paired c' (if bool_decide (length l < room (C:=C)) then (a, x) :: l else l).
Proof.
  intros (Hv1 & Hv2 & He1 & He2). unfold crab_push.
  destruct (push_law a (s1 c) Hv1) as (t1 & -> & Ht1 & Hl1). rewrite He1, length_fmap in *.
  cbn. case_bool_decide as Hr.
  - destruct (push_law x (s2 c) Hv2) as (t2 & -> & Ht2 & Hl2). rewrite He2, length_fmap in *.
    rewrite bool_decide_true in * by done. cbn. eexists. split; [done|]. by unfold paired; split_all.
  - eexists. split; [done|]. by unfold paired; split_all.
Qed.

Lemma crab_pop_paired a x c l :
  paired c l →
  ∃ c', crab_pop a x c =
      Some (match l with [] => (false, a, x, c') | (a, x) :: _ => (true, a, x, c') end) ∧
    paired c' (tail l).
Proof.
  intros (Hv1 & Hv2 & He1 & He2). unfold crab_pop.
  destruct (pop_law a (s1 c) Hv1) as (t1 & -> & Ht1 & Hl1). rewrite He1 in *.
  destruct l as [|[a' x'] l]; cbn in *.
  - eexists. split; [done|]. by unfold paired; split_all.
  - destruct (pop_law x (s2 c) Hv2) as (t2 & -> & Ht2 & Hl2). rewrite He2 in *. cbn in *.
    eexists. split; [done|]. by unfold paired; split_all.
Qed.

(** Two containers of one template in step: for any container that keeps the interface,
    every sequence of [push] and [pop] of a [Crab] answers as one bounded stack of pairs
    does; the two parts never come apart, although the second call of each [&&] is left
    out when the first fails. *)
Theorem crab_is_stack_of_pairs cs :
  ∃ c, run cs new_Crab = Some ((pairs_run cs []).1, c) ∧ paired c (pairs_run cs []).2.
Proof.
  assert (∀ c l, paired c l → ∃ c', run cs c = Some ((pairs_run cs l).1, c') ∧ paired c' (pairs_run cs l).2) as H.
  { induction cs as [|[a x|a x] cs IH]; intros c l Hc; cbn [run pairs_run]; [by exists c|..].
    - destruct (crab_push_paired a x c l Hc) as (c1 & -> & Hc1). cbn. destruct (IH c1 _ Hc1) as (c2 & -> & Hc2).
      cbn. destruct (pairs_run cs _) as [rs l']. by exists c2.
    - destruct (crab_pop_paired a x c l Hc) as (c1 & -> & Hc1). destruct l as [|[a' x'] l]; cbn in *;
        destruct (IH c1 _ Hc1) as (c2 & -> & Hc2); cbn; destruct (pairs_run cs _) as [rs l']; by exists c2. }
  apply H, new_paired.
Qed.
End crab.
Arguments Crab : clear implicits.
Arguments command : clear implicits.
Arguments reply : clear implicits.

(** [main]: three pushes on a [Crab<Stack>] and a pop. *)
Definition main : option (list (reply Z Z)) :=
  fst <$> run (C:=StackTP.Stack) [Push 10 10; Push 20 20; Push 30 30; Pop 0 0]%Z new_Crab.
Example main_replies : main = Some [Pushed true; Pushed true; Pushed true; Popped true 30 30]%Z.
Proof. reflexivity. Qed.
End TempParm.

(** * stacktp_pointer.h *)

Module StackPointer.
(** A member that was never given a value is [None]; the array is the object's own. *)
Record Stack (T : Type) : Type := mk_Stack { stacksize : nat; items : list (option T); top : option nat }.
Arguments mk_Stack {T}. Arguments stacksize {T}. Arguments items {T}. Arguments top {T}.

Section stack.
Context {T : Type}.
Implicit Types s st : Stack T.

(** The constructor gives [stacksize] and [items] their values, and [top] none. *)
Definition new_Stack (ss : nat) : Stack T := mk_Stack ss (replicate ss None) None.

Definition isempty s : option bool := t ← top s; Some (t =? 0)%nat.
Definition isfull s : option bool := t ← top s; Some (t =? stacksize s)%nat.
Definition push (x : T) s : option (bool * Stack T) :=
  full ← isfull s;
  if full : bool then Some (false, s)
  else
    t ← top s;
    if (t <? length (items s))%nat then Some (true, mk_Stack (stacksize s) (<[t := Some x]> (items s)) (Some (S t)))
    else None.

(** [for (top = 0; top < st.top; ++top) items[top] = st.items[top];] *)
Definition copy_items (st : Stack T) : option (Stack T) :=
  t ← top st;
  if (t <=? stacksize st)%nat then
    Some (mk_Stack (stacksize st) (take t (items st) ++ replicate (stacksize st - t) None) (Some t))
  else None.
(** The copy constructor, and the assignment of another object. *)
Definition copy st : option (Stack T) := copy_items st.
Definition assign (same : bool) s st : option (Stack T) := if same then Some s else copy_items st.

(** No stack can be used: [top] has no value after the only constructor that makes one from
    nothing, and every member that looks at it, or copies from it, is undefined. *)
Lemma fresh_stack_unusable ss x s :
  isempty (new_Stack ss) = None ∧ isfull (new_Stack ss) = None ∧ push x (new_Stack ss) = None ∧
  copy (new_Stack ss) = None ∧ assign false s (new_Stack ss) = None.
Proof. done. Qed.

(** A copy of a stack whose [top] has a value has the same elements. *)
Lemma copy_same st t :
  top st = Some t → (t ≤ stacksize st)%nat → length (items st) = stacksize st →
  ∃ s, copy st = Some s ∧ top s = Some t ∧ take t (items s) = take t (items st) ∧ length (items s) = stacksize s.
Proof.
  intros Ht Hle Hl. unfold copy, copy_items. rewrite Ht. cbn [mbind option_bind].
  destruct (Nat.leb_spec t (stacksize st)); [|lia]. eexists. split; [done|]. cbn [top items stacksize].
  split; [done|]. split; [|rewrite length_app, length_take, length_replicate; lia].
  rewrite take_app_le by (rewrite length_take; lia). by rewrite take_take, Nat.min_id.
Qed.
End stack.
End StackPointer.

(** * arraytp.h *)

Module ArrayTP.
Section array.
Context {T : Type} (n : nat).

Inductive result (R : Type) : Type := Throws (i : Z) | Uninit | Gives (r : R).
Arguments Throws {R}. Arguments Uninit {R}. Arguments Gives {R}.

(** The two constructors. *)
Definition default_array : list (option T) := replicate n None.
Definition fill_loop (v : T) (ar : list (option T)) : list (option T) :=
  foldl (λ ar i, <[i := Some v]> ar) ar (seq 0 n).
Definition array_of (v : T) : list (option T) := fill_loop v default_array.

(** [operator[]]: the place of an index, or the exception with its number in the text. *)
Definition place (i : Z) : result nat :=
  if ((i <? 0) || (Z.of_nat n <=? i))%Z then Throws i else Gives (Z.to_nat i).
(** Reading through it, and assigning through the reference. *)
Definition get (ar : list (option T)) (i : Z) : result T :=
  match place i with
  | Throws i => Throws i | Uninit => Uninit
  | Gives k => match mjoin (ar !! k) with Some x => Gives x | None => Uninit end
  end.
Definition set (ar : list (option T)) (i : Z) (x : T) : result (list (option T)) :=
  match place i with
  | Throws i => Throws i | Uninit => Uninit | Gives k => Gives (<[k := Some x]> ar)
  end.

Lemma fill_loop_prefix v (ar : list (option T)) k :
  (k ≤ length ar)%nat → foldl (λ ar i, <[i := Some v]> ar) ar (seq 0 k) = replicate k (Some v) ++ drop k ar.
Proof.
  intros Hk. induction k as [|k IH]; [done|]. rewrite seq_S, foldl_app. cbn [foldl].
  rewrite IH by lia. destruct (lookup_lt_is_Some_2 ar k) as [o Ho]; [lia|].
  rewrite (drop_S _ _ _ Ho). rewrite insert_app_r_alt by (rewrite length_replicate; lia).
  rewrite length_replicate. cbn [Nat.add]. rewrite Nat.sub_diag, replicate_S_end.
  by rewrite <- app_assoc.
Qed.

Lemma array_of_spec v : array_of v = replicate n (Some v).
Proof.
  unfold array_of, fill_loop, default_array.
  rewrite fill_loop_prefix by (by rewrite length_replicate).
  rewrite drop_ge by (by rewrite length_replicate). by rewrite app_nil_r.
Qed.

(** An index is inside the array or gives the exception; a value that is assigned is
    the one read back, at this place and no other. *)
Lemma get_set ar i j x :
  length ar = n →
  match set ar i x with
  | Gives ar' => (0 ≤ i < Z.of_nat n)%Z ∧ length ar' = n ∧ get ar' i = Gives x ∧ (i ≠ j → get ar' j = get ar j)
  | Throws k => k = i ∧ ¬ (0 ≤ i < Z.of_nat n)%Z
  | Uninit => False
  end.
Proof.
  intros Hl. unfold set, get, place.
  destruct (Z.ltb_spec i 0), (Z.leb_spec (Z.of_nat n) i); cbn [orb]; try (split; [done|lia]).
  split; [lia|]. split; [by rewrite length_insert|].
  rewrite list_lookup_insert_eq by lia. split; [done|]. intros Hij.
  destruct (Z.ltb_spec j 0), (Z.leb_spec (Z.of_nat n) j); cbn [orb]; try done.
  by rewrite list_lookup_insert_ne by lia.
Qed.
End array.
Arguments Throws {R}. Arguments Uninit {R}. Arguments Gives {R}.

(** [main] of [use_arraytp.cpp]: the first index is read, the second ends the program. *)
Example main_reads : get 10 (array_of 10 100%Z) 9 = Gives 100%Z ∧ get 10 (array_of 10 100%Z) 10 = Throws 10.
Proof. split; reflexivity. Qed.
End ArrayTP.
