(* ===== verification/Algorithms.v ===== *)
(** Small algorithms of the C++ notes: [src/cpp/template/reverse.cpp], [advance.cpp] and
    [factorial.cpp], the address generator [src/cpp/demo_codes/mac_gen.cpp] and the class
    [Time] of [src/cpp/operator_overloading]. *)

From stdpp Require Import pretty.
From S2P Require Import Prelude.
Open Scope Z_scope.

(** * reverse.cpp *)

Module Reverse.
Section reverse.
Context {A : Type}.
Implicit Types v : list A.

(** Reading and writing through an iterator, a position; outside the vector it is
    undefined. *)
Definition deref (v : list A) (i : Z) : option A := if 0 <=? i then v !! Z.to_nat i else None.
Definition store (v : list A) (i : Z) (x : A) : option (list A) :=
  if (0 <=? i) && (i <? Z.of_nat (length v)) then Some (<[Z.to_nat i := x]> v) else None.

(** The loop of [reverse] with the counter [n]. *)
Fixpoint loop (fuel : nat) (n first last : Z) (v : list A) : option (list A) :=
  if 0 <? n then
    match fuel with
    | O => None
    | S fuel =>
        tmp ← deref v first;
        let last := last - 1 in
        x ← deref v last;
        v ← store v first x;
        v ← store v last tmp;
        loop fuel (n - 2) (first + 1) last v
    end
  else Some v.

(** [reverse (first, last)]. *)
Definition reverse (first last : Z) (v : list A) : option (list A) :=
  let n := last - first in loop (Z.to_nat n) (n - 1) first last v.

Lemma deref_middle p x q : deref (p ++ x :: q) (Z.of_nat (length p)) = Some x.
Proof.
  unfold deref. destruct (Z.leb_spec 0 (Z.of_nat (length p))); [|lia]. rewrite Nat2Z.id.
  by apply list_lookup_middle.
Qed.
Lemma store_middle p x q y : store (p ++ x :: q) (Z.of_nat (length p)) y = Some (p ++ y :: q).
Proof.
  unfold store. rewrite length_app. simpl. destruct (Z.leb_spec 0 (Z.of_nat (length p))); [|lia].
  destruct (Z.ltb_spec (Z.of_nat (length p)) (Z.of_nat (length p + S (length q)))); [|lia].
  rewrite Nat2Z.id. cbn [andb]. f_equal. by rewrite insert_app_r_alt, Nat.sub_diag by lia.
Qed.

(** The elements between the iterators are turned round, the others stay. *)
Lemma loop_spec fuel p m q :
  (length m ≤ fuel)%nat →
  loop fuel (Z.of_nat (length m) - 1) (Z.of_nat (length p)) (Z.of_nat (length p + length m)) (p ++ m ++ q)
  = Some (p ++ rev m ++ q).
Proof.
  revert p m q. induction fuel as [|fuel IH]; intros p m q Hf.
  { destruct m; [done|simpl in Hf; lia]. }
  destruct m as [|x m]; [done|]. destruct (last_snoc_dec m) as [->|(m' & y & ->)]; [done|].
  cbn [loop]. simpl length. rewrite length_app. simpl length.
  destruct (Z.ltb_spec 0 (Z.of_nat (S (length m' + 1)) - 1)); [|lia].
  assert (∀ z, p ++ z :: m' ++ y :: q = (p ++ z :: m') ++ y :: q) as Hcons by (intros; by rewrite <- app_assoc).
  assert (∀ z, Z.of_nat (length (p ++ z :: m')) = Z.of_nat (length p + S (length m' + 1)) - 1) as Hlen
    by (intros; rewrite length_app; simpl; lia).
  replace (p ++ (x :: m' ++ [y]) ++ q) with (p ++ x :: m' ++ y :: q) by (simpl; by rewrite <- app_assoc).
  rewrite deref_middle. cbn [mbind option_bind]. rewrite Hcons, <- (Hlen x), deref_middle.
  cbn [mbind option_bind]. rewrite <- Hcons, store_middle. cbn [mbind option_bind].
  rewrite Hcons, (Hlen x), <- (Hlen y), store_middle. cbn [mbind option_bind].
  replace (Z.of_nat (S (length m' + 1)) - 1 - 2) with (Z.of_nat (length m') - 1) by lia.
  replace (Z.of_nat (length p) + 1) with (Z.of_nat (length (p ++ [y]))) by (rewrite length_app; simpl; lia).
  replace (Z.of_nat (length (p ++ y :: m'))) with (Z.of_nat (length (p ++ [y]) + length m'))
    by (rewrite !length_app; simpl; lia).
  replace ((p ++ y :: m') ++ x :: q) with ((p ++ [y]) ++ m' ++ (x :: q)) by (rewrite <- !app_assoc; done).
  rewrite IH by (simpl in Hf; rewrite length_app in Hf; lia).
  simpl rev. rewrite rev_app_distr. simpl. by rewrite <- !app_assoc.
Qed.

(** [reverse] ends, touches nothing outside its range and turns the range round. *)
Theorem reverse_range p m q :
  reverse (Z.of_nat (length p)) (Z.of_nat (length p + length m)) (p ++ m ++ q) = Some (p ++ rev m ++ q).
Proof.
  unfold reverse. replace (Z.of_nat (length p + length m) - Z.of_nat (length p)) with (Z.of_nat (length m)) by lia.
  by apply loop_spec; rewrite Nat2Z.id.
Qed.
End reverse.

(** [main]: the vector is printed an element a line. *)
Definition main : option output :=
  let vi := [0; 1; 2; 3; 5] in
  v ← reverse 0 (Z.of_nat (length vi)) vi; Some (map pretty v).
Example reverse_prints : main = Some ["5"; "3"; "2"; "1"; "0"].
Proof. reflexivity. Qed.
End Reverse.

(** * advance.cpp *)

Module Advance.

Inductive iterator_tag : Type := input_iterator_tag | bidirectional_iterator_tag | random_access_iterator_tag.

(** An iterator over a range of [size] elements is a position from 0 to [size]; leaving
    the range is undefined. The result of a call is an exception or the new position. *)
Inductive result : Type := out_of_range (what : string) | Undefined | At (iter : Z).

Section range.
Context (size : Z).

Definition inside (i : Z) : bool := (0 <=? i) && (i <=? size).

(** [for (; d >= 0; ++iter, --d);] *)
Fixpoint forward_while_nonneg (fuel : nat) (iter d : Z) : result :=
  if 0 <=? d then
    match fuel with
    | O => Undefined
    | S fuel => if inside (iter + 1) then forward_while_nonneg fuel (iter + 1) (d - 1) else Undefined
    end
  else At iter.
(** [for (; d != 0; iter += step, d -= step);] with [step] 1 or -1. *)
Fixpoint move_until_zero (fuel : nat) (step iter d : Z) : result :=
  if d =? 0 then At iter
  else
    match fuel with
    | O => Undefined
    | S fuel => if inside (iter + step) then move_until_zero fuel step (iter + step) (d - step) else Undefined
    end.

(** The three overloads of [do_advance]. *)
Definition do_advance (tag : iterator_tag) (iter d : Z) : result :=
  match tag with
  | input_iterator_tag =>
      if d <? 0 then out_of_range "Negative distance" else forward_while_nonneg (S (Z.to_nat d)) iter d
  | bidirectional_iterator_tag =>
      if 0 <=? d then move_until_zero (Z.to_nat d) 1 iter d else move_until_zero (Z.to_nat (- d)) (-1) iter d
  | random_access_iterator_tag => if inside (iter + d) then At (iter + d) else Undefined
  end.

(** [my_advance] picks the overload by the category of the iterator. *)
Definition my_advance (tag : iterator_tag) (iter d : Z) : result := do_advance tag iter d.

Lemma inside_spec i : inside i = true ↔ 0 ≤ i ≤ size.
Proof. unfold inside. rewrite andb_true_iff, !Z.leb_le. done. Qed.

Lemma forward_spec fuel iter d :
  -1 ≤ d → (Z.to_nat (d + 1) ≤ fuel)%nat → 0 ≤ iter ≤ size →
  forward_while_nonneg fuel iter d = if inside (iter + d + 1) then At (iter + d + 1) else Undefined.
Proof.
  revert iter d. induction fuel as [|fuel IH]; intros iter d Hd Hf Hi; cbn [forward_while_nonneg];
    (destruct (Z.leb_spec 0 d); [|replace (iter + d + 1) with iter by lia; by rewrite (proj2 (inside_spec _))]); [lia|].
  destruct (inside (iter + 1)) eqn:Hin.
  - apply inside_spec in Hin. rewrite IH by lia. by replace (iter + 1 + (d - 1) + 1) with (iter + d + 1) by lia.
  - destruct (inside (iter + d + 1)) eqn:Hin'; [|done]. apply inside_spec in Hin'.
    rewrite (proj2 (inside_spec _)) in Hin by lia. done.
Qed.

Lemma move_spec step n iter :
  step = 1 ∨ step = -1 → 0 ≤ iter ≤ size →
  move_until_zero n step iter (step * Z.of_nat n)
  = if inside (iter + step * Z.of_nat n) then At (iter + step * Z.of_nat n) else Undefined.
Proof.
  intros Hs. revert iter. induction n as [|n IH]; intros iter Hi; cbn [move_until_zero].
  { rewrite Z.mul_0_r, Z.add_0_r. cbn. by rewrite (proj2 (inside_spec _)). }
  destruct (Z.eqb_spec (step * Z.of_nat (S n)) 0); [lia|].
  destruct (inside (iter + step)) eqn:Hin.
  - apply inside_spec in Hin. replace (step * Z.of_nat (S n) - step) with (step * Z.of_nat n) by lia.
    rewrite IH by lia. by replace (iter + step + step * Z.of_nat n) with (iter + step * Z.of_nat (S n)) by lia.
  - destruct (inside (iter + step * Z.of_nat (S n))) eqn:Hin'; [|done]. apply inside_spec in Hin'.
    rewrite (proj2 (inside_spec _)) in Hin; [done|]. destruct Hs; subst; lia.
Qed.

(** From a position of the range the bidirectional overload, step by step, does what
    the random access overload does at once. The one for input iterators refuses negative
    distances and otherwise goes one element too far: by [d + 1]. *)
Theorem advance_overloads iter d :
  0 ≤ iter ≤ size →
  my_advance bidirectional_iterator_tag iter d = my_advance random_access_iterator_tag iter d ∧
  my_advance input_iterator_tag iter d =
    if d <? 0 then out_of_range "Negative distance" else my_advance random_access_iterator_tag iter (d + 1).
Proof.
  intros Hi. unfold my_advance, do_advance. split.
  - destruct (Z.leb_spec 0 d) as [Hd|Hd].
    + pose proof (move_spec 1 (Z.to_nat d) iter (or_introl eq_refl) Hi) as H.
      by rewrite Z2Nat.id, Z.mul_1_l in H by lia.
    + pose proof (move_spec (-1) (Z.to_nat (- d)) iter (or_intror eq_refl) Hi) as H.
      rewrite Z2Nat.id in H by lia. by replace (-1 * - d) with d in H by lia.
  - destruct (Z.ltb_spec d 0); [done|]. rewrite forward_spec by lia. by rewrite Z.add_assoc.
Qed.
End range.
End Advance.

(** * factorial.cpp *)

(** The value of the enumerator: [size_t] arithmetic, by recursion on the argument. *)
Fixpoint factorial (n : nat) : Z :=
  match n with
  | O => 1
  | S m => u64 (factorial m * Z.of_nat n)
  end.

Fixpoint fact (n : nat) : Z := match n with O => 1 | S m => fact m * Z.of_nat n end.

(** The recursion gives n! modulo 2^64; it is n! itself up to 20. *)
Lemma factorial_mod n : factorial n = u64 (fact n).
Proof.
  induction n as [|n IH]; [done|]. cbn [factorial fact]. rewrite IH. unfold u64, wrap.
  by rewrite Z.mul_mod_idemp_l by lia.
Qed.

Lemma factorial_exact n : (n ≤ 20)%nat → factorial n = fact n.
Proof.
  intros Hn. rewrite factorial_mod. apply wrap_id.
  do 21 (destruct n as [|n]; [vm_compute; split; [discriminate|reflexivity]|]). lia.
Qed.

Example factorial_wraps : factorial 21 ≠ fact 21.
Proof. vm_compute. discriminate. Qed.

(** * mac_gen.cpp *)

Module MacGen.
Definition ETHER_ADDR_LEN : nat := 6.
Definition KNOWN_MAC_START : list Z := [0x04; 0x27; 0x28; 0x7a; 0x00; 0x00].
Definition KNOWN_MAC_COUNT : Z := 1024.

(** [while (offset && index >= 0)]; each turn lowers [index]. *)
Fixpoint fill (fuel : nat) (index offset : Z) (address : list Z) : list Z :=
  if negb (offset =? 0) && (0 <=? index) then
    match fuel with
    | O => address
    | S fuel =>
        fill fuel (index - 1) (u32 (offset / 0xff)) (<[Z.to_nat index := u8 (offset mod 0xff)]> address)
    end
  else address.

(** [generateServerMac]; [None] is the exception. *)
Definition generateServerMac (serverId : Z) : option (list Z) :=
  if KNOWN_MAC_COUNT <=? serverId then None
  else
    let index := Z.of_nat ETHER_ADDR_LEN - 1 in
    let offset := u32 (nth (Z.to_nat index) KNOWN_MAC_START 0 + serverId) in
    Some (fill ETHER_ADDR_LEN index offset KNOWN_MAC_START).

(** The identifiers for which an address is made. *)
Definition servers : list Z := seqZ 0 KNOWN_MAC_COUNT.

Lemma elem_of_servers i : i ∈ servers ↔ 0 ≤ i < KNOWN_MAC_COUNT.
Proof. unfold servers. rewrite elem_of_seqZ. lia. Qed.

(** The last two bytes of an address, as digits of base 255 and of base 256. *)
Definition digits_of (base : Z) (m : list Z) : Z := nth 4 m 0 * base + nth 5 m 0.

Definition address_ok (i : Z) : bool :=
  match generateServerMac i with
  | Some m =>
      bool_decide (take 4 m = take 4 KNOWN_MAC_START) && (length m =? 6)%nat &&
      forallb (λ b, (0 <=? b) && (b <? 255)) m && (digits_of 255 m =? i)
  | None => false
  end.

Lemma addresses_ok i : 0 ≤ i < KNOWN_MAC_COUNT → address_ok i = true.
Proof.
  intros Hi. assert (forallb address_ok servers = true) as H by (vm_compute; reflexivity).
  rewrite forallb_forall in H. apply H, list_elem_of_In, elem_of_servers, Hi.
Qed.

(** Every identifier below 1024 has an address of six bytes that begins like the known
    one, and no two share an address; no byte is ever 255, since the digits are taken in
    base 255. An address is the known one plus the identifier exactly below 255, and
    the others are refused. *)
Theorem server_macs i :
  0 ≤ i →
  match generateServerMac i with
  | None => KNOWN_MAC_COUNT ≤ i
  | Some m =>
      i < KNOWN_MAC_COUNT ∧ length m = 6%nat ∧ take 4 m = take 4 KNOWN_MAC_START ∧
      Forall (λ b, 0 ≤ b < 255) m ∧
      (∀ j, 0 ≤ j → generateServerMac j = Some m → i = j) ∧
      (digits_of 256 m = i ↔ i < 255)
  end.
Proof.
  intros Hi. destruct (generateServerMac i) as [m|] eqn:Hm.
  - assert (∀ j, 0 ≤ j → generateServerMac j = Some m → j < KNOWN_MAC_COUNT ∧
      take 4 m = take 4 KNOWN_MAC_START ∧ length m = 6%nat ∧ Forall (λ b, 0 ≤ b < 255) m ∧ digits_of 255 m = j) as H.
    { intros j Hj Hjm. assert (j < KNOWN_MAC_COUNT) as Hlt.
      { unfold generateServerMac in Hjm. by destruct (Z.leb_spec KNOWN_MAC_COUNT j). }
      pose proof (addresses_ok j (conj Hj Hlt)) as Hok. unfold address_ok in Hok. rewrite Hjm in Hok.
      rewrite !andb_true_iff, bool_decide_eq_true, Nat.eqb_eq, Z.eqb_eq, forallb_forall in Hok.
      destruct Hok as (((? & ?) & Hb) & ?). split_all; try done.
      apply Forall_forall. intros b Hin. apply list_elem_of_In, Hb in Hin.
      apply andb_true_iff in Hin as [?%Z.leb_le ?%Z.ltb_lt]. done. }
    destruct (H i Hi Hm) as (Hlt & Ht & Hlen & Hb & Hd). split_all; try done.
    + intros j Hj Hjm. by destruct (H j Hj Hjm) as (_ & _ & _ & _ & <-).
    + unfold digits_of in *.
      assert (0 ≤ nth 4 m 0 ∧ 0 ≤ nth 5 m 0 < 255) as Hn.
      { do 7 (destruct m as [|? m]; try discriminate). rewrite !Forall_cons in Hb. simpl. lia. }
      lia.
  - unfold generateServerMac in Hm. by destruct (Z.leb_spec KNOWN_MAC_COUNT i).
Qed.

(** [main] asks for the address of server 2000 and ends by the exception. *)
Example main_throws : generateServerMac 2000 = None.
Proof. reflexivity. Qed.
End MacGen.

(** * The class Time *)

Module TimeClass.

(** Hours and minutes, two [int]s; [None] is undefined behaviour. *)
Record Time : Type := mk_Time { m_hours : Z; m_minutes : Z }.

Definition int (z : Z) : option Z := if (- 2 ^ 31 <=? z) && (z <? 2 ^ 31) then Some z else None.

Definition addMin (m : Z) (t : Time) : option Time :=
  minutes ← int (m_minutes t + m);
  hours ← int (m_hours t + Z.quot minutes 60);
  Some (mk_Time hours (Z.rem minutes 60)).
Definition addHr (h : Z) (t : Time) : option Time :=
  hours ← int (m_hours t + h); Some (mk_Time hours (m_minutes t)).
Definition reset (h m : Z) (_ : Time) : Time := mk_Time h m.

(** [getTotalMins] computes and does not return: control leaves it without a value. *)
Definition getTotalMins (_ : Time) : option Z := None.

Definition operator_plus (t u : Time) : option Time :=
  sum ← addMin (m_minutes u) t; addHr (m_hours u) sum.
Definition operator_minus (t u : Time) : option Time :=
  a ← getTotalMins t; b ← getTotalMins u; diffMins ← int (a - b);
  Some (mk_Time (Z.quot diffMins 60) (Z.rem diffMins 60)).

Definition show (t : Time) : string :=
  pretty (m_hours t) +:+ " hours, " +:+ pretty (m_minutes t) +:+ " minutes.".

(** [main] of [usetime2.cpp] up to the first undefined step: its lines, and whether it got
    to the product behind the difference. *)
Definition main : output * bool :=
  let weeding := mk_Time 4 35 in
  let waxing := mk_Time 2 47 in
  match operator_plus weeding waxing with
  | None => ([show weeding; show waxing], false)
  | Some total =>
      match operator_minus weeding waxing with
      | None => ([show weeding; show waxing; show total], false)
      | Some diff => ([show weeding; show waxing; show total; show diff], true)
      end
  end.

Definition total (t : Time) : Z := m_minutes t + m_hours t * 60.

Lemma int_id z : - 2 ^ 31 ≤ z < 2 ^ 31 → int z = Some z.
Proof.
  intros [Hl Hu]. unfold int. destruct (Z.leb_spec (- 2 ^ 31) z); [|lia].
  by destruct (Z.ltb_spec z (2 ^ 31)); [|lia].
Qed.

(** Times that are not negative and whose hours stay below 2^30 are added: the sum has
    the minutes of both, less than an hour of them in [m_minutes]. *)
Theorem time_plus t u :
  0 ≤ m_hours t < 2 ^ 30 → 0 ≤ m_hours u < 2 ^ 29 → 0 ≤ m_minutes t < 60 → 0 ≤ m_minutes u < 60 →
  ∃ s, operator_plus t u = Some s ∧ total s = total t + total u ∧ 0 ≤ m_minutes s < 60.
Proof.
  intros Ht Hu Hmt Hmu. unfold operator_plus, addMin, addHr, total.
  pose proof (Z.quot_rem' (m_minutes t + m_minutes u) 60) as Hq.
  pose proof (Z.rem_bound_pos (m_minutes t + m_minutes u) 60) as Hr.
  assert (0 ≤ Z.quot (m_minutes t + m_minutes u) 60 ≤ 1) as Hqb by (split; nia).
  rewrite int_id by lia. cbn [mbind option_bind]. rewrite int_id by lia.
  cbn [mbind option_bind m_hours m_minutes].
  rewrite int_id by lia. cbn [mbind option_bind]. eexists. split; [done|]. cbn. lia.
Qed.

(** The difference is undefined for every two times, and the program ends there. *)
Lemma time_minus_undefined t u : operator_minus t u = None.
Proof. done. Qed.
Example main_undefined :
  main = (["4 hours, 35 minutes."; "2 hours, 47 minutes."; "7 hours, 22 minutes."], false).
Proof. vm_compute. reflexivity. Qed.
End TimeClass.
