(* ===== verification/SmallClasses.v ===== *)
(** Two small classes of [src/cpp/cpp_class]: the television and its remote control
    ([friend/tv.h], [friend/tv.cpp]) and [Useless] with its move operations
    ([useless.h], [useless.cpp]). *)

From S2P Require Import Prelude CppHeap.
From Stdlib Require Import Ascii.

Local Open Scope Z_scope.

(** * friend/tv.h, friend/tv.cpp *)

Module Television.
(** [Off], [On]; [MinVal], [MaxVal]; [Antenna], [Cable]; [TV], [DVD]. *)
Definition Off : Z := 0.
Definition On : Z := 1.
Definition MinVal : Z := 0.
Definition MaxVal : Z := 20.
Definition Antenna : Z := 0.
Definition Cable : Z := 1.
Definition TV : Z := 0.
Definition DVD : Z := 1.

Record Tv := mk_Tv {
  state : Z; volume : Z; maxchannel : Z; channel : Z; mode : Z; input : Z
}.

(** The arguments are [unsigned char]. *)
Definition Tv_init (s mc : Z) : Tv := mk_Tv (u8 s) 5 (u8 mc) 1 Cable TV.

Definition set_state (v : Z) (t : Tv) : Tv :=
  mk_Tv v (volume t) (maxchannel t) (channel t) (mode t) (input t).
Definition set_volume (v : Z) (t : Tv) : Tv :=
  mk_Tv (state t) v (maxchannel t) (channel t) (mode t) (input t).
Definition set_channel (v : Z) (t : Tv) : Tv :=
  mk_Tv (state t) (volume t) (maxchannel t) v (mode t) (input t).
Definition put_mode (v : Z) (t : Tv) : Tv :=
  mk_Tv (state t) (volume t) (maxchannel t) (channel t) v (input t).
Definition put_input (v : Z) (t : Tv) : Tv :=
  mk_Tv (state t) (volume t) (maxchannel t) (channel t) (mode t) v.

(** [state = (state = On) ? Off : On]: the condition is the assignment's value. *)
Definition onoff (t : Tv) : Tv :=
  let t := set_state On t in set_state (if state t =? 0 then On else Off) t.
Definition ison (t : Tv) : bool := state t =? On.
Definition volup (t : Tv) : bool * Tv :=
  if volume t <? MaxVal then (true, set_volume (volume t + 1) t) else (false, t).
Definition voldown (t : Tv) : bool * Tv :=
  if volume t >? MinVal then (true, set_volume (volume t - 1) t) else (false, t).
Definition chanup (t : Tv) : Tv :=
  if channel t <? maxchannel t then set_channel (channel t + 1) t else set_channel 1 t.
Definition chandown (t : Tv) : Tv :=
  if channel t >? 1 then set_channel (channel t - 1) t else set_channel (maxchannel t) t.
Definition set_mode (t : Tv) : Tv := put_mode (if mode t =? Antenna then Cable else Antenna) t.
(** [input = (input = TV) ? DVD : TV]. *)
Definition set_input (t : Tv) : Tv :=
  let t := put_input TV t in put_input (if input t =? 0 then TV else DVD) t.

(** What [settings] prints: nothing but the first line while the set is off. *)
Definition settings (t : Tv) : list (string * Z) :=
  ("TV is"%string, if state t =? Off then Off else On)
  :: (if state t =? On then
        [("Volume setting"%string, volume t); ("Channel setting"%string, channel t);
         ("Mode"%string, if mode t =? Antenna then Antenna else Cable);
         ("Input"%string, if input t =? TV then TV else DVD)]
      else []).

(** The buttons of [Remote]; [set_chan] writes the channel as it is given. *)
Inductive Button :=
| BVolup | BVoldown | BOnoff | BChanup | BChandown | BSet_mode | BSet_input | BSet_chan (c : Z).
Definition press (b : Button) (t : Tv) : Tv :=
  match b with
  | BVolup => (volup t).2 | BVoldown => (voldown t).2 | BOnoff => onoff t
  | BChanup => chanup t | BChandown => chandown t | BSet_mode => set_mode t
  | BSet_input => set_input t | BSet_chan c => set_channel (u8 c) t
  end.
Definition presses (bs : list Button) (t : Tv) : Tv := foldl (λ t b, press b t) t bs.

(** What every press keeps: the volume in its range, the channel that of an
    [unsigned char], the mode one of the two. *)
Definition tv_ok (t : Tv) : Prop :=
  MinVal ≤ volume t ≤ MaxVal ∧ 0 ≤ channel t ≤ 255 ∧ 0 ≤ maxchannel t ≤ 255 ∧
  (mode t = Antenna ∨ mode t = Cable) ∧ input t = TV.

Lemma Tv_init_ok s mc : tv_ok (Tv_init s mc).
Proof.
  unfold tv_ok, MinVal, MaxVal; simpl. pose proof (wrap_range 8 mc ltac:(lia)) as H.
  unfold in_unsigned in H. unfold u8. split_all; (lia || done || by right).
Qed.

Lemma press_ok b t : tv_ok t → tv_ok (press b t) ∧ (state t = Off → state (press b t) = Off).
Proof.
  unfold tv_ok, MinVal, MaxVal. intros (Hv & Hc & Hm & Hmode & Hi).
  destruct b; simpl; unfold volup, voldown, chanup, chandown, set_mode, MinVal, MaxVal;
    repeat case_match; simpl; try (split_all; (lia || done || by left || by right)).
  all: try (split; [|done]; split_all; (lia || done || tauto)).
  pose proof (wrap_range 8 c ltac:(lia)) as H. unfold in_unsigned in H. unfold u8.
  split; [|done]. split_all; (lia || done || tauto).
Qed.

(** The set can never be switched on with [onoff], and the input is never the DVD:
    both assign where they should compare. *)
Lemma never_on bs mc :
  let t := presses bs (Tv_init Off mc) in ison t = false ∧ input t = TV ∧ tv_ok t.
Proof.
  cbn zeta.
  assert (∀ t, tv_ok t ∧ state t = Off → tv_ok (presses bs t) ∧ state (presses bs t) = Off) as H.
  { induction bs as [|b bs IH]; intros t [Hok Hs]; [done|]. simpl. apply IH.
    destruct (press_ok b t Hok) as [? Hs']. auto. }
  destruct (H (Tv_init Off mc)) as [Hok Hs]; [split; [apply Tv_init_ok|done]|].
  unfold ison. rewrite Hs. split; [done|]. split; [apply Hok|done].
Qed.

(** Going up and down through the channels are inverses of each other. *)
Lemma channels_cycle t :
  1 ≤ channel t ≤ maxchannel t → chandown (chanup t) = t ∧ chanup (chandown t) = t.
Proof.
  intros Hc. destruct t as [st v m ch md i]. unfold chanup, chandown, set_channel. simpl in *.
  split.
  - destruct (Z.ltb_spec ch m); simpl.
    + destruct (Z.gtb_spec (ch + 1) 1); [|lia]. f_equal. lia.
    + f_equal. lia.
  - destruct (Z.gtb_spec ch 1); simpl.
    + destruct (Z.ltb_spec (ch - 1) m); [|lia]. f_equal. lia.
    + rewrite Z.ltb_irrefl. f_equal. lia.
Qed.
End Television.

(** * useless.h, useless.cpp *)

Module Useless.
(** [pc] is [None] when it is null. *)
Record Obj := mk_Obj { n : nat; pc : option nat }.
Record State := mk_State { heap : Heap ascii; objs : gmap nat Obj; ct : Z }.

Definition init : State := mk_State ∅ ∅ 0.

Definition set (h : Heap ascii) (o : gmap nat Obj) (c : Z) : State := mk_State h o c.

(** Reading and writing through [pc]. *)
Definition read_pc (o : Obj) (i : nat) (h : Heap ascii) : option ascii := p ← pc o; read p i h.
Definition write_pc (o : Obj) (i : nat) (c : ascii) (h : Heap ascii) : option (Heap ascii) :=
  p ← pc o; write p i c h.

(** [for (i = 0; i < k; ++i) dst[d + i] = src (i)]. *)
Fixpoint fill_loop (k i : nat) (dst : Obj) (d : nat) (src : nat → Heap ascii → option ascii)
    (h : Heap ascii) : option (Heap ascii) :=
  match k with
  | O => Some h
  | S k => c ← src i h; h ← write_pc dst (d + i) c h; fill_loop k (S i) dst d src h
  end.

(** The constructors of a new object [x]. *)
Definition Useless_default (x : nat) (s : State) : State :=
  set (heap s) (<[x := mk_Obj 0 None]> (objs s)) (ct s + 1).
Definition Useless_int (x k : nat) (s : State) : State :=
  let '(p, h) := new_array k (heap s) in
  set h (<[x := mk_Obj k (Some p)]> (objs s)) (ct s + 1).
Definition Useless_fill (x k : nat) (ch : ascii) (s : State) : option State :=
  let '(p, h) := new_array k (heap s) in
  let o := mk_Obj k (Some p) in
  h ← fill_loop k 0 o 0 (λ _ _, Some ch) h;
  Some (set h (<[x := o]> (objs s)) (ct s + 1)).
Definition Useless_copy (x y : nat) (s : State) : option State :=
  f ← objs s !! y;
  let '(p, h) := new_array (n f) (heap s) in
  let o := mk_Obj (n f) (Some p) in
  h ← fill_loop (n f) 0 o 0 (read_pc f) h;
  Some (set h (<[x := o]> (objs s)) (ct s + 1)).
Definition Useless_move (x y : nat) (s : State) : option State :=
  f ← objs s !! y;
  Some (set (heap s) (<[y := mk_Obj 0 None]> (<[x := mk_Obj (n f) (pc f)]> (objs s))) (ct s + 1)).
Definition Useless_destroy (x : nat) (s : State) : option State :=
  o ← objs s !! x; h ← delete_array (pc o) (heap s);
  Some (set h (delete x (objs s)) (ct s - 1)).

Definition assign (x y : nat) (s : State) : option State :=
  o ← objs s !! x; f ← objs s !! y;
  if decide (x = y) then Some s
  else
    h ← delete_array (pc o) (heap s);
    let '(p, h) := new_array (n f) h in
    let o := mk_Obj (n f) (Some p) in
    h ← fill_loop (n f) 0 o 0 (read_pc f) h;
    Some (set h (<[x := o]> (objs s)) (ct s)).
Definition move_assign (x y : nat) (s : State) : option State :=
  o ← objs s !! x; f ← objs s !! y;
  if decide (x = y) then Some s
  else
    h ← delete_array (pc o) (heap s);
    Some (set h (<[y := mk_Obj 0 None]> (<[x := mk_Obj (n f) (pc f)]> (objs s))) (ct s)).

(** [operator+]: the second loop runs to [temp.n], not to [f.n]. *)
Definition plus (x y z : nat) (s : State) : option State :=
  o ← objs s !! x; f ← objs s !! y;
  let s := Useless_int z (n o + n f) s in
  temp ← objs s !! z;
  h ← fill_loop (n o) 0 temp 0 (read_pc o) (heap s);
  h ← fill_loop (n temp) 0 temp (n o) (read_pc f) h;
  Some (set h (objs s) (ct s)).

(** The characters [showData] prints. *)
Fixpoint show_loop (k i : nat) (o : Obj) (h : Heap ascii) : option (list ascii) :=
  match k with O => Some [] | S k => c ← read_pc o i h; l ← show_loop k (S i) o h; Some (c :: l) end.
Definition showData (x : nat) (s : State) : option (list ascii) :=
  o ← objs s !! x; if decide (n o = 0)%nat then Some [] else show_loop (n o) 0 o (heap s).

(** ** Values *)

(** An object holds a text in an array of its own, or nothing. *)
Definition holds (h : Heap ascii) (o : Obj) (s : list ascii) : Prop :=
  n o = length s ∧
  match pc o with None => s = [] | Some p => h !! p = Some (Some <$> s) end.

Record refines (s : State) (m : gmap nat (list ascii)) : Prop := {
  rf_owned : owned (omap pc (objs s)) (heap s);
  rf_dom x : objs s !! x = None ↔ m !! x = None;
  rf_holds x o t : objs s !! x = Some o → m !! x = Some t → holds (heap s) o t;
  rf_count : ct s = Z.of_nat (size m)
}.

(** Filling a fresh array with the characters a source gives. *)
Lemma fill_loop_spec t o p d src h l1 l2 l3 i :
  pc o = Some p → h !! p = Some (l1 ++ l2 ++ l3) → length l1 = (d + i)%nat → length l2 = length t →
  (∀ j l, src j (<[p := l]> h) = src j h) → (∀ j, (i ≤ j < i + length t)%nat → src j h = t !! (j - i)%nat) →
  fill_loop (length t) i o d src h = Some (<[p := l1 ++ (Some <$> t) ++ l3]> h).
Proof.
  revert h l1 l2 i. induction t as [|c t IH]; intros h l1 l2 i Hp Hh H1 H2 Hsrc Ht; cbn [fill_loop length].
  - destruct l2; [|done]. simpl in Hh. by rewrite insert_id.
  - destruct l2 as [|y l2]; [done|]. rewrite Ht by (simpl; lia). rewrite Nat.sub_diag. simpl.
    unfold write_pc. rewrite Hp. cbn [mbind option_bind]. unfold write. rewrite Hh.
    cbn [mbind option_bind]. rewrite decide_True by (rewrite !length_app; simpl; lia).
    cbn [mbind option_bind]. rewrite insert_app_r_alt, H1, Nat.sub_diag by lia. simpl.
    rewrite (IH _ (l1 ++ [Some c]) l2).
    + by rewrite insert_insert_eq, <- app_assoc.
    + done.
    + by rewrite lookup_insert_eq, <- app_assoc.
    + rewrite length_app. simpl. lia.
    + simpl in H2. lia.
    + intros j l. by rewrite insert_insert_eq, !Hsrc.
    + intros j Hj. rewrite Hsrc, Ht by (simpl; lia). by replace (j - i)%nat with (S (j - S i)) by lia.
Qed.

Lemma read_holds h o t j : holds h o t → (j < length t)%nat → read_pc o j h = t !! j.
Proof.
  intros [Hn Hp] Hj. unfold read_pc. destruct (pc o) as [p|]; [|by subst; simpl in Hj; lia].
  cbn. unfold read. rewrite Hp. cbn. rewrite list_lookup_fmap. by destruct (t !! j).
Qed.

Lemma holds_frame h o t p l : h !! p = None → holds h o t → holds (<[p := l]> h) o t.
Proof.
  intros Hf [Hn Hp]. split; [done|]. destruct (pc o) as [q|]; [|done].
  rewrite lookup_insert_ne by congruence. done.
Qed.

(** A new array of [length t] filled from a source that does not read it. *)
Lemma new_fill t src h :
  (∀ j l, src j (<[fresh (dom h) := l]> h) = src j h) → (∀ j, (j < length t)%nat → src j h = t !! j) →
  let '(p, h1) := new_array (length t) h in
  h !! p = None ∧ fill_loop (length t) 0 (mk_Obj (length t) (Some p)) 0 src h1
                  = Some (<[p := Some <$> t]> h).
Proof.
  intros Hsrc Ht. unfold new_array. set (p := fresh (dom h)).
  assert (h !! p = None) as Hp by (apply not_elem_of_dom, is_fresh). split; [done|].
  rewrite (fill_loop_spec t _ p 0 src _ [] (replicate (length t) None) []).
  - by rewrite insert_insert_eq, app_nil_r.
  - done.
  - by rewrite lookup_insert_eq, app_nil_r.
  - done.
  - apply length_replicate.
  - intros j l. by rewrite insert_insert_eq, !Hsrc.
  - intros j Hj. rewrite Hsrc, Nat.sub_0_r. apply Ht. lia.
Qed.

Lemma copy_source h f t :
  holds h f t →
  (∀ j l, read_pc f j (<[fresh (dom h) := l]> h) = read_pc f j h) ∧
  (∀ j, (j < length t)%nat → read_pc f j h = t !! j).
Proof.
  intros Hf. assert (h !! fresh (dom h) = None) as Hp by (apply not_elem_of_dom, is_fresh).
  split; [|intros j; by apply read_holds].
  intros j l. unfold read_pc. destruct Hf as [_ Hf]. destruct (pc f) as [q|]; [|done]. cbn.
  unfold read. rewrite lookup_insert_ne; [done|congruence].
Qed.

(** A constructor: a free name, a fresh array or none. *)
Lemma add_refines s m x t o h :
  refines s m → m !! x = None → holds h o t →
  (pc o = None ∧ h = heap s ∨ ∃ p l, pc o = Some p ∧ heap s !! p = None ∧ h = <[p := l]> (heap s)) →
  refines (set h (<[x := o]> (objs s)) (ct s + 1)) (<[x := t]> m).
Proof.
  intros [Ho Hd Hh Hc] Hx Hob Hcase.
  assert (objs s !! x = None) as Hx' by (by apply Hd).
  assert (omap pc (objs s) !! x = None) as Hx'' by (by rewrite lookup_omap, Hx').
  constructor; simpl.
  - destruct Hcase as [[Hp ->]|(p & l & Hp & Hf & ->)].
    + rewrite omap_insert_None by done. by rewrite delete_id.
    + rewrite (omap_insert_Some _ _ _ _ p) by done. by apply owned_new.
  - intros y. by rewrite !lookup_insert_None, Hd.
  - intros y o' t'. rewrite !lookup_insert_Some.
    intros [[<- <-]|[Hne Hy]] [[? <-]|[? Hm]]; try done.
    destruct Hcase as [[_ ->]|(p & l & _ & Hf & ->)]; [by apply (Hh y)|].
    apply holds_frame; [done|by apply (Hh y)].
  - rewrite Hc, map_size_insert_None by done. lia.
Qed.

Lemma useless_refines_obj s m x t :
  refines s m → m !! x = Some t → ∃ o, objs s !! x = Some o ∧ holds (heap s) o t.
Proof.
  intros Hr Hx. destruct (objs s !! x) as [o|] eqn:Ho.
  - exists o. split; [done|]. by apply (rf_holds _ _ Hr x).
  - apply (rf_dom _ _ Hr) in Ho. congruence.
Qed.

(** [delete[] pc] of an object that goes away. *)
Lemma useless_remove_refines s m x o :
  refines s m → objs s !! x = Some o →
  ∃ h, delete_array (pc o) (heap s) = Some h ∧ refines (set h (delete x (objs s)) (ct s - 1)) (delete x m) ∧
       ∀ y f t, y ≠ x → objs s !! y = Some f → m !! y = Some t → holds h f t.
Proof.
  intros [Ho Hd Hh Hc] Hx.
  assert (is_Some (m !! x)) as [t0 Hm] by (apply not_eq_None_Some; rewrite <- Hd; congruence).
  assert (∃ h, delete_array (pc o) (heap s) = Some h ∧ owned (delete x (omap pc (objs s))) h ∧
    ∀ y f t, y ≠ x → objs s !! y = Some f → m !! y = Some t → holds h f t) as (h & Hdel & Hown & Hhold).
  { destruct (pc o) as [p|] eqn:Hp; simpl.
    - assert (omap pc (objs s) !! x = Some p) as Hpx by (by rewrite lookup_omap, Hx).
      destruct (owned_alloc _ _ x p Ho Hpx) as [l Hl]. rewrite Hl. eexists. split; [done|].
      split; [by apply owned_delete|]. intros y f t Hne Hy Ht.
      destruct (Hh y f t Hy Ht) as [Hn Hq]. split; [done|]. destruct (pc f) as [q|] eqn:Hqf; [|done].
      rewrite lookup_delete_ne; [done|]. intros <-. apply Hne. destruct Ho as [Hinj _].
      apply (Hinj y x p); [by rewrite lookup_omap, Hy|done].
    - eexists. split; [done|]. rewrite delete_id by (by rewrite lookup_omap, Hx; simpl).
      split; [done|]. intros y f t _ Hy Ht. by apply (Hh y). }
  exists h. split; [done|]. split; [|done]. constructor; simpl.
  - by rewrite omap_delete.
  - intros y. by rewrite !lookup_delete_None, Hd.
  - intros y f t. rewrite !lookup_delete_Some. intros [? Hy] [_ Ht]. by apply (Hhold y).
  - rewrite Hc, map_size_delete_Some by done.
    assert (size m ≠ 0%nat) by (apply map_size_ne_0_lookup; eauto). lia.
Qed.

(** Moving the array of [y], which is left empty, to the name [x]. *)
Lemma move_refines s m x y f t c :
  refines s m → m !! x = None → x ≠ y → objs s !! y = Some f → m !! y = Some t →
  c = ct s + 1 →
  refines (set (heap s) (<[y := mk_Obj 0 None]> (<[x := mk_Obj (n f) (pc f)]> (objs s))) c)
          (<[y := []]> (<[x := t]> m)).
Proof.
  intros [Ho Hd Hh Hc] Hx Hne Hy Ht ->.
  assert (objs s !! x = None) as Hx' by (by apply Hd). constructor; simpl.
  - split.
    + intros a b p. rewrite !lookup_omap. destruct Ho as [Hinj _].
      assert (∀ a p, (<[y:=mk_Obj 0 None]> (<[x:=mk_Obj (n f) (pc f)]> (objs s)) !! a ≫= pc) = Some p →
        omap pc (objs s) !! (if decide (a = x) then y else a) = Some p ∧ a ≠ y) as Hback.
      { intros a' p' Ha. destruct (decide (a' = y)) as [->|]; [by rewrite lookup_insert_eq in Ha|].
        rewrite lookup_insert_ne in Ha by done. split; [|done]. rewrite lookup_omap.
        case_decide; [subst; rewrite lookup_insert_eq in Ha; by rewrite Hy|by rewrite lookup_insert_ne in Ha]. }
      intros [Ha Hay]%Hback [Hb Hby]%Hback. specialize (Hinj _ _ p Ha Hb).
      repeat case_decide; congruence.
    + intros p. rewrite (proj2 Ho). split; intros [a Ha].
      * rewrite lookup_omap in Ha. destruct (decide (a = y)) as [->|].
        -- exists x. rewrite lookup_omap, lookup_insert_ne, lookup_insert_eq by done.
           by rewrite Hy in Ha.
        -- exists a. assert (a ≠ x) by (intros ->; by rewrite Hx' in Ha).
           by rewrite lookup_omap, !lookup_insert_ne.
      * rewrite lookup_omap in Ha. destruct (decide (a = y)) as [->|]; [by rewrite lookup_insert_eq in Ha|].
        rewrite lookup_insert_ne in Ha by done. destruct (decide (a = x)) as [->|].
        -- rewrite lookup_insert_eq in Ha. exists y. by rewrite lookup_omap, Hy.
        -- rewrite lookup_insert_ne in Ha by done. exists a. by rewrite lookup_omap.
  - intros z. rewrite !lookup_insert_None, Hd. done.
  - intros z o u. rewrite !lookup_insert_Some.
    intros [[<- <-]|[? [[<- <-]|[? Hz]]]] [[? <-]|[? [[? <-]|[? Hu]]]]; try done.
    + destruct (Hh y f t Hy Ht) as [? ?]. by split.
    + by apply (Hh z).
  - rewrite Hc. rewrite map_size_insert_Some by (exists t; by rewrite lookup_insert_ne).
    rewrite map_size_insert_None by done. lia.
Qed.

(** ** The class as a value type with moves *)

Inductive Command :=
| Default (x : nat) | Fill (x k : nat) (ch : ascii) | Copy (x y : nat) | Move (x y : nat)
| Destroy (x : nat) | Assign (x y : nat) | MoveAssign (x y : nat).

Definition exec (c : Command) (s : State) : option State :=
  match c with
  | Default x => Some (Useless_default x s)
  | Fill x k ch => Useless_fill x k ch s
  | Copy x y => Useless_copy x y s
  | Move x y => Useless_move x y s
  | Destroy x => Useless_destroy x s
  | Assign x y => assign x y s
  | MoveAssign x y => move_assign x y s
  end.
Fixpoint execs (cs : list Command) (s : State) : option State :=
  match cs with [] => Some s | c :: cs => s ← exec c s; execs cs s end.

Abbreviation Texts := (gmap nat (list ascii)).
Definition value (m : Texts) (x : nat) : list ascii := default [] (m !! x).
Definition spec (c : Command) (m : Texts) : Texts :=
  match c with
  | Default x => <[x := []]> m
  | Fill x k ch => <[x := replicate k ch]> m
  | Copy x y | Assign x y => <[x := value m y]> m
  | Move x y => <[y := []]> (<[x := value m y]> m)
  | Destroy x => delete x m
  | MoveAssign x y => if decide (x = y) then m else <[y := []]> (<[x := value m y]> m)
  end.
Definition valid (c : Command) (m : Texts) : bool :=
  match c with
  | Default x | Fill x _ _ => bool_decide (m !! x = None)
  | Copy x y | Move x y => bool_decide (m !! x = None ∧ is_Some (m !! y))
  | Destroy x => bool_decide (is_Some (m !! x))
  | Assign x y | MoveAssign x y => bool_decide (is_Some (m !! x) ∧ is_Some (m !! y))
  end.
Fixpoint valids (cs : list Command) (m : Texts) : bool :=
  match cs with [] => true | c :: cs => valid c m && valids cs (spec c m) end.
Definition specs (cs : list Command) (m : Texts) : Texts := foldl (λ m c, spec c m) m cs.

(** An array made for [x] with the text of [y] by the copying loop, in a store where
    [y] still has it. *)
Lemma copy_refines s m x f t :
  refines s m → m !! x = None → holds (heap s) f t →
  let '(p, h1) := new_array (n f) (heap s) in
  ∃ h, fill_loop (n f) 0 (mk_Obj (n f) (Some p)) 0 (read_pc f) h1 = Some h ∧
       refines (set h (<[x := mk_Obj (n f) (Some p)]> (objs s)) (ct s + 1)) (<[x := t]> m).
Proof.
  intros Hr Hx Hf. destruct (copy_source (heap s) f t Hf) as [Hs1 Hs2].
  pose proof Hf as [Hn _]. rewrite Hn.
  pose proof (new_fill t (read_pc f) (heap s) Hs1 Hs2) as Hfill.
  destruct (new_array (length t) (heap s)) as [p h1]. destruct Hfill as [Hfr ->].
  eexists. split; [done|]. apply add_refines; [done|done| |right; by eexists _, _].
  split; [done|]. simpl. apply lookup_insert_eq.
Qed.

(** The states differ only in how they are written. *)
Lemma set_delete_insert s h h' c x o :
  set h' (<[x := o]> (objs (set h (delete x (objs s)) (c - 1)))) (ct (set h (delete x (objs s)) (c - 1)) + 1)
  = set h' (<[x := o]> (objs s)) c.
Proof. unfold set. simpl. rewrite insert_delete_eq. f_equal. lia. Qed.

Lemma useless_exec_refines c s m :
  refines s m → valid c m = true → ∃ s', exec c s = Some s' ∧ refines s' (spec c m).
Proof.
  intros Hr Hv. destruct c as [x|x k ch|x y|x y|x|x y|x y]; simpl in Hv;
    apply bool_decide_eq_true in Hv; cbn [exec spec].
  - eexists. split; [done|]. apply add_refines; [done|done|done|by left].
  - unfold Useless_fill.
    pose proof (new_fill (replicate k ch) (λ _ _, Some ch) (heap s)) as Hf. rewrite length_replicate in Hf.
    destruct (new_array k (heap s)) as [p h1]. destruct Hf as [Hfr ->]; [done| |].
    { intros j Hj. symmetry. by apply lookup_replicate_2. }
    eexists. split; [done|]. apply add_refines; [done|done| |right; by eexists _, _].
    split; [by rewrite length_replicate|]. simpl. apply lookup_insert_eq.
  - destruct Hv as [Hx [t Hy]]. destruct (useless_refines_obj s m y t Hr Hy) as (f & Hf & Hft).
    unfold Useless_copy, value. rewrite Hf, Hy. cbn [mbind option_bind default from_option id].
    pose proof (copy_refines s m x f t Hr Hx Hft) as Hc.
    destruct (new_array (n f) (heap s)) as [p h1]. destruct Hc as (h & -> & ?). by eexists.
  - destruct Hv as [Hx [t Hy]]. destruct (useless_refines_obj s m y t Hr Hy) as (f & Hf & Hft).
    unfold Useless_move, value. rewrite Hf, Hy. eexists. split; [done|].
    apply (move_refines s m x y f t); try done. congruence.
  - destruct Hv as [t Hx]. destruct (useless_refines_obj s m x t Hr Hx) as (o & Ho & _).
    destruct (useless_remove_refines s m x o Hr Ho) as (h & Hd & ? & _).
    unfold Useless_destroy. rewrite Ho. cbn [mbind option_bind]. rewrite Hd. by eexists.
  - destruct Hv as [[u Hx] [t Hy]].
    destruct (useless_refines_obj s m x u Hr Hx) as (o & Ho & _), (useless_refines_obj s m y t Hr Hy) as (f & Hf & Hft).
    unfold assign, value. rewrite Ho, Hf, Hy. cbn [mbind option_bind default from_option id].
    case_decide as Hxy; [subst; eexists; split; [done|]; by rewrite insert_id|].
    destruct (useless_remove_refines s m x o Hr Ho) as (h & -> & Hr1 & Hhold). cbn [mbind option_bind].
    assert (holds h f t) as Hft1 by (by apply (Hhold y); [congruence|..]).
    pose proof (copy_refines _ _ x f t Hr1 (lookup_delete_eq m x) Hft1) as Hc. cbn [heap set] in Hc.
    destruct (new_array (n f) h) as [p h1]. destruct Hc as (h2 & -> & Hr2).
    eexists. split; [done|]. by rewrite set_delete_insert, insert_delete_eq in Hr2.
  - destruct Hv as [[u Hx] [t Hy]].
    destruct (useless_refines_obj s m x u Hr Hx) as (o & Ho & _), (useless_refines_obj s m y t Hr Hy) as (f & Hf & Hft).
    unfold move_assign, value. rewrite Ho, Hf. cbn [mbind option_bind].
    case_decide as Hxy; [by eexists|]. rewrite Hy. cbn [default from_option id].
    destruct (useless_remove_refines s m x o Hr Ho) as (h & -> & Hr1 & _).
    eexists. split; [done|].
    assert (refines (set h (<[y := mk_Obj 0 None]> (<[x := mk_Obj (n f) (pc f)]> (delete x (objs s)))) (ct s))
              (<[y := []]> (<[x := t]> (delete x m)))) as Hr2.
    { pose proof (move_refines _ (delete x m) x y f t (ct s) Hr1) as Hmove. simpl in Hmove.
      apply Hmove; [apply lookup_delete_eq|done|by rewrite lookup_delete_ne|by rewrite lookup_delete_ne|lia]. }
    by rewrite !insert_delete_eq in Hr2.
Qed.

Lemma show_loop_spec h o t i t0 :
  holds h o (t0 ++ t) → length t0 = i → show_loop (length t) i o h = Some t.
Proof.
  revert i t0. induction t as [|c t IH]; intros i t0 Ho Hi; [done|]. cbn [show_loop length].
  rewrite (read_holds h o (t0 ++ c :: t)); [|done|rewrite length_app; simpl; lia].
  rewrite lookup_app_r, Hi, Nat.sub_diag by lia. simpl.
  rewrite (IH (S i) (t0 ++ [c])); [done|by rewrite <- app_assoc|]. rewrite length_app. simpl. lia.
Qed.

(** [Useless] is a value type with moves: every sequence of its constructors,
    copies, moves (also of an object to itself), assignments and destructions is
    defined, gives each object the text the same sequence gives in a map of texts,
    where moving empties the source, counts the objects, and leaves no array when
    no object is left. *)
Theorem useless_value_type cs :
  valids cs ∅ = true →
  ∃ s, execs cs init = Some s ∧ (∀ x, showData x s = specs cs ∅ !! x) ∧
    ct s = Z.of_nat (size (specs cs ∅)) ∧ (specs cs ∅ = ∅ → heap s = ∅).
Proof.
  intros Hv.
  assert (∀ s m, refines s m → valids cs m = true →
    ∃ s', execs cs s = Some s' ∧ refines s' (specs cs m)) as Hall.
  { clear Hv. induction cs as [|c cs IH]; intros s m Hr Hv; simpl in *; [by exists s|].
    apply andb_true_iff in Hv as [Hc Hcs].
    destruct (useless_exec_refines c s m Hr Hc) as (s1 & -> & Hr1). by apply IH. }
  destruct (Hall init ∅) as (s & Hs & Hr); [|done|].
  { constructor; simpl; [rewrite omap_empty; apply owned_empty| | |done].
    - intros x. by rewrite !lookup_empty.
    - intros x o t. by rewrite lookup_empty. }
  exists s. split_all; [done| |apply Hr|].
  - intros x. unfold showData. destruct (specs cs ∅ !! x) as [t|] eqn:Hx.
    + destruct (useless_refines_obj s _ x t Hr Hx) as (o & -> & Ho). cbn. pose proof Ho as [Hn _].
      case_decide as Hz; [by destruct t; [|rewrite Hn in Hz]|].
      rewrite Hn. by apply (show_loop_spec _ o t 0 []).
    + apply (rf_dom _ _ Hr) in Hx. by rewrite Hx.
  - intros Hm. apply map_eq. intros p. rewrite lookup_empty.
    apply eq_None_not_Some. intros [x Hx]%(rf_owned _ _ Hr).
    rewrite lookup_omap in Hx. assert (objs s !! x = None) as Ho
      by (apply (rf_dom _ _ Hr); by rewrite Hm, lookup_empty).
    by rewrite Ho in Hx.
Qed.
End Useless.

(** * Witnesses *)

Definition useless_test : list Useless.Command :=
  [Useless.Fill 0 3 "x"; Useless.Copy 1 0; Useless.Move 2 1; Useless.MoveAssign 1 0;
   Useless.Assign 0 2; Useless.MoveAssign 2 2]%char.

Lemma useless_value_witness :
  Useless.specs useless_test ∅ !! 0%nat = Some ["x"; "x"; "x"]%char ∧
  ∃ s, Useless.execs useless_test Useless.init = Some s ∧
    (∀ x, Useless.showData x s = Useless.specs useless_test ∅ !! x) ∧
    Useless.ct s = Z.of_nat (size (Useless.specs useless_test ∅)) ∧
    (Useless.specs useless_test ∅ = ∅ → Useless.heap s = ∅).
Proof.
  split; [vm_compute; reflexivity|]. apply Useless.useless_value_type. vm_compute. reflexivity.
Defined.

(** [operator+] of two objects of one character writes behind the sum. *)
Lemma plus_overruns :
  (s ← Useless.execs [Useless.Fill 0 1 "a"; Useless.Fill 1 1 "b"]%char Useless.init; Useless.plus 0 1 2 s)
  = None.
Proof. vm_compute. reflexivity. Qed.
