(* ===== verification/ByteOrder.v ===== *)
(** Numbers in network byte order, for the programs that put them into messages and
    socket addresses: [htonl], [htons] and their inverses [ntohl], [ntohs] of the C
    library, on a little-endian host. *)

From S2P Require Import Prelude.
Open Scope Z_scope.

(** [htonl] and [ntohl], [htons] and [ntohs]: the bytes in the other order. *)
Definition htonl (x : Z) : Z :=
  let b k := Z.land (Z.shiftr x (8 * k)) 255 in
  Z.shiftl (b 0) 24 + Z.shiftl (b 1) 16 + Z.shiftl (b 2) 8 + b 3.
Definition htons (x : Z) : Z :=
  Z.shiftl (Z.land x 255) 8 + Z.land (Z.shiftr x 8) 255.

Lemma byte_at x k : 0 ≤ k → Z.land (Z.shiftr x (8 * k)) 255 = (x / 2 ^ (8 * k)) mod 256.
Proof. intros Hk. rewrite (Z.land_ones _ 8), Z.shiftr_div_pow2 by lia. done. Qed.

Lemma htonl_bytes x :
  htonl x = (x mod 256) * 2 ^ 24 + (x / 2 ^ 8 mod 256) * 2 ^ 16 + (x / 2 ^ 16 mod 256) * 2 ^ 8 + x / 2 ^ 24 mod 256.
Proof.
  unfold htonl. rewrite !byte_at, !Z.shiftl_mul_pow2 by lia.
  change (8 * 0) with 0. change (2 ^ 0) with 1. by rewrite Z.div_1_r.
Qed.

Lemma htonl_range x : in_unsigned 32 (htonl x).
Proof.
  rewrite htonl_bytes. unfold in_unsigned.
  pose proof (Z.mod_pos_bound x 256). pose proof (Z.mod_pos_bound (x / 2 ^ 8) 256).
  pose proof (Z.mod_pos_bound (x / 2 ^ 16) 256). pose proof (Z.mod_pos_bound (x / 2 ^ 24) 256). lia.
Qed.

(** Swapping twice gives the number back. *)
Lemma htonl_htonl x : in_unsigned 32 x → htonl (htonl x) = x.
Proof.
  unfold in_unsigned. intros Hx. rewrite (htonl_bytes (htonl x)), htonl_bytes.
  pose proof (Z.mod_pos_bound x 256). pose proof (Z.mod_pos_bound (x / 2 ^ 8) 256).
  pose proof (Z.mod_pos_bound (x / 2 ^ 16) 256). pose proof (Z.mod_pos_bound (x / 2 ^ 24) 256).
  Z.to_euclidean_division_equations. lia.
Qed.

Lemma htons_htons x : in_unsigned 16 x → htons (htons x) = x.
Proof.
  unfold in_unsigned, htons. intros Hx.
  rewrite !(Z.land_ones _ 8), !Z.shiftr_div_pow2, !Z.shiftl_mul_pow2 by lia.
  Z.to_euclidean_division_equations. lia.
Qed.
