(* ===== verification/EchoServer.v ===== *)
(** The echo servers of [src/linux/echo_server/echo_server_select.cpp] and
    [echo_server_epoll.cpp], and the client loop of
    [src/books/high_perf_linux_server_programming/socket_api/echo_server.cpp].

    The kernel is the environment: a round of a server is given what the system
    calls of that round return.  What the program does with the answers, the
    descriptors it keeps and the bytes it sends are the model.  [throw_error] ends the
    program. *)

From S2P Require Import Prelude.
From Stdlib Require Import Sorted.

Local Open Scope Z_scope.

Abbreviation fd := Z.
Abbreviation bytes := (list Z).

Definition BUFFLEN : nat := 1024.

(** What [recv] returns: some bytes, 0 or -1. *)
Inductive Recv := Data (s : bytes) | Eof | Failed.
Definition recv_ret (r : Recv) : Z :=
  match r with Data s => Z.of_nat (length s) | Eof => 0 | Failed => -1 end.
(** [recv] into a buffer of [BUFFLEN] bytes returns at least one byte of data and no
    more than fit. *)
Definition recv_ok (r : Recv) : Prop :=
  match r with Data s => (0 < length s ≤ BUFFLEN)%nat | _ => True end.

(** A [std::set<int>]: its elements in ascending order. *)
Fixpoint set_insert (x : fd) (l : list fd) : list fd :=
  match l with
  | [] => [x]
  | y :: l' => if x <? y then x :: l else if x =? y then l else y :: set_insert x l'
  end.
Definition set_erase (x : fd) (l : list fd) : list fd := filter (λ y, y ≠ x) l.
Definition ascending (l : list fd) : Prop := StronglySorted Z.lt l.

Lemma elem_of_set_insert x y l : y ∈ set_insert x l ↔ y = x ∨ y ∈ l.
Proof.
  induction l as [|z l IH]; simpl; [by rewrite list_elem_of_singleton, elem_of_nil; tauto|].
  destruct (Z.ltb_spec x z); [by rewrite !elem_of_cons|].
  destruct (Z.eqb_spec x z) as [->|]; rewrite ?elem_of_cons, ?IH; tauto.
Qed.

Lemma ascending_insert x l : ascending l → ascending (set_insert x l).
Proof.
  unfold ascending. induction 1 as [|z l Hl IH Hz]; simpl; [repeat constructor|].
  destruct (Z.ltb_spec x z).
  - constructor; [by constructor|]. constructor; [done|].
    eapply Forall_impl; [exact Hz|]. intros y ?. lia.
  - destruct (Z.eqb_spec x z); [by constructor|]. constructor; [done|].
    apply Forall_forall. intros y [->|Hy]%elem_of_set_insert; [lia|].
    rewrite Forall_forall in Hz. by apply Hz.
Qed.

Lemma ascending_NoDup l : ascending l → NoDup l.
Proof.
  induction 1 as [|z l Hl IH Hz]; constructor; [|done].
  intros Hin. rewrite Forall_forall in Hz. specialize (Hz z Hin). lia.
Qed.

Lemma ascending_erase x l : ascending l → ascending (set_erase x l).
Proof.
  unfold ascending, set_erase. induction 1 as [|z l Hl IH Hz]; [constructor|].
  rewrite filter_cons. case_decide; [|done]. constructor; [done|].
  rewrite Forall_forall in Hz |- *. intros y [_ Hy]%list_elem_of_filter. by apply Hz.
Qed.

Lemma set_erase_notin x l : x ∉ l → set_erase x l = l.
Proof.
  unfold set_erase. induction l as [|y l IH]; [done|]. rewrite not_elem_of_cons. intros [Hx Hl].
  rewrite filter_cons, decide_True by congruence. by rewrite IH.
Qed.

(** What has gone over the connections: the bytes received and sent, by descriptor,
    and the descriptors that are open. *)
Record Net := mk_Net { received : gmap fd bytes; sent : gmap fd bytes; open : list fd }.

Definition got (m : gmap fd bytes) (c : fd) : bytes := default [] (m !! c).
Definition more (c : fd) (s : bytes) (m : gmap fd bytes) : gmap fd bytes := <[c := got m c ++ s]> m.

Definition do_recv (c : fd) (r : Recv) (n : Net) : Net :=
  match r with Data s => mk_Net (more c s (received n)) (sent n) (open n) | _ => n end.
Definition do_send (c : fd) (s : bytes) (n : Net) : Net :=
  mk_Net (received n) (more c s (sent n)) (open n).
(** The connection of a closed descriptor is over; the descriptor may be given out
    again. *)
Definition do_close (c : fd) (n : Net) : Net :=
  mk_Net (delete c (received n)) (delete c (sent n)) (filter (λ y, y ≠ c) (open n)).
Definition do_accept (c : fd) (n : Net) : Net := mk_Net (received n) (sent n) (c :: open n).

(** An exception, undefined behaviour, or the next state. *)
Inductive Result (S : Type) := Throw (error : string) | Undefined | Ok (s : S).
Arguments Throw {S}. Arguments Undefined {S}. Arguments Ok {S}.

(** * echo_server_select.cpp *)

Module Select.

Record Server := mk_Server { listen_fd : fd; client_fds : list fd; net : Net }.

Definition init (s : fd) : Server := mk_Server s [] (mk_Net ∅ ∅ []).

(** The answers of the system calls of a round: whether [select] fails, the
    descriptors that are ready, what [recv] gives for each of them, and the
    descriptor of [accept]. *)
Record Round := mk_Round { select_ok : bool; ready : fd → bool; recv : fd → Recv; accept : fd }.

Definition find_max_fd (server_fd : fd) (client_fds : list fd) : fd :=
  foldl (λ max_fd client_fd, Z.max max_fd client_fd) server_fd client_fds.

(** [fd_set]: [FD_SET] writes outside it from [FD_SETSIZE] on. *)
Definition FD_SETSIZE : Z := 1024.
Definition fd_settable (c : fd) : bool := (0 <=? c) && (c <? FD_SETSIZE).

(** One client in the loop over [client_fds]; the flag says whether it is erased. *)
Definition serve (r : Round) (c : fd) (n : Net) : Result (bool * Net) :=
  if ready r c then
    match recv r c with
    | Eof => Ok (true, do_close c n)
    | Failed => Throw "Recv"
    | Data s => Ok (false, do_send c s (do_recv c (Data s) n))
    end
  else Ok (false, n).

(** The loop: what is left of the set, and the state of the connections. *)
Fixpoint serve_all (r : Round) (l : list fd) (n : Net) : Result (list fd * Net) :=
  match l with
  | [] => Ok ([], n)
  | c :: l =>
      match serve r c n with
      | Ok (erased, n) =>
          match serve_all r l n with
          | Ok (l, n) => Ok ((if erased : bool then l else c :: l), n)
          | Throw e => Throw e | Undefined => Undefined
          end
      | Throw e => Throw e | Undefined => Undefined
      end
  end.

(** One iteration of [while (true)]. *)
Definition round (r : Round) (s : Server) : Result Server :=
  if forallb fd_settable (listen_fd s :: client_fds s) then
    if select_ok r then
      match serve_all r (client_fds s) (net s) with
      | Ok (l, n) =>
          if ready r (listen_fd s) then
            if accept r =? -1 then Throw "Accept"
            else Ok (mk_Server (listen_fd s) (set_insert (accept r) l) (do_accept (accept r) n))
          else Ok (mk_Server (listen_fd s) l n)
      | Throw e => Throw e | Undefined => Undefined
      end
    else Throw "Select"
  else Undefined.

Fixpoint rounds (rs : list Round) (s : Server) : Result Server :=
  match rs with
  | [] => Ok s
  | r :: rs => match round r s with Ok s => rounds rs s | Throw e => Throw e | Undefined => Undefined end
  end.

(** The kernel hands out a descriptor that is not open. *)
Fixpoint kernel_ok (rs : list Round) (s : Server) : Prop :=
  match rs with
  | [] => True
  | r :: rs =>
      (∀ c, recv_ok (recv r c)) ∧ accept r ∉ open (net s) ∧ accept r ≠ listen_fd s ∧
      match round r s with Ok s => kernel_ok rs s | _ => True end
  end.

Definition net_ok (l : list fd) (n : Net) : Prop :=
  (∀ c, c ∈ open n ↔ c ∈ l) ∧ (∀ c, got (sent n) c = got (received n) c) ∧
  (∀ c, c ∉ l → got (received n) c = []).

Definition server_ok (s : Server) : Prop :=
  ascending (client_fds s) ∧ listen_fd s ∉ client_fds s ∧ net_ok (client_fds s) (net s).

Lemma got_more c d s m : got (more c s m) d = if decide (d = c) then got m c ++ s else got m d.
Proof.
  unfold got at 1, more. case_decide as Hd; [subst; by rewrite lookup_insert_eq|].
  by rewrite lookup_insert_ne by done.
Qed.
Lemma got_delete c d (m : gmap fd bytes) : got (delete c m) d = if decide (d = c) then [] else got m d.
Proof.
  unfold got. case_decide as Hd; [subst; by rewrite lookup_delete_eq|].
  by rewrite lookup_delete_ne by done.
Qed.

(** Serving a client that is in the set [p ++ c :: l] and stays, or goes. *)
Lemma serve_ok r c n l erased n' :
  net_ok l n → c ∈ l → serve r c n = Ok (erased, n') →
  net_ok (if erased then set_erase c l else l) n'.
Proof.
  intros (Hopen & Hecho & Hnew) Hin. unfold serve. destruct (ready r c).
  2: { by intros [= <- <-]. }
  destruct (recv r c) as [s| |]; intros [= <- <-].
  - unfold net_ok; split_all; simpl; [done| |].
    + intros d. rewrite !got_more. case_decide; [|done]. f_equal. apply Hecho.
    + intros d Hd. rewrite got_more, decide_False by congruence. by apply Hnew.
  - unfold net_ok; split_all; simpl.
    + intros d. unfold set_erase. rewrite !list_elem_of_filter, Hopen. done.
    + intros d. rewrite !got_delete. by case_decide.
    + intros d Hd. rewrite got_delete. case_decide as Hdc; [done|]. apply Hnew.
      intros ?. apply Hd. unfold set_erase. by rewrite list_elem_of_filter.
Qed.

Lemma set_erase_app c p l :
  NoDup (p ++ c :: l) → set_erase c (p ++ c :: l) = p ++ l.
Proof.
  intros Hnd. unfold set_erase. rewrite filter_app, filter_cons, decide_False by tauto.
  apply NoDup_app in Hnd as (_ & Hd & Hnd). apply NoDup_cons in Hnd as [Hc _].
  f_equal; apply set_erase_notin; [|done]. intros Hp. apply (Hd c Hp). left.
Qed.

Lemma serve_all_ok r l p n l' n' :
  NoDup (p ++ l) → net_ok (p ++ l) n → serve_all r l n = Ok (l', n') →
  net_ok (p ++ l') n' ∧ l' `sublist_of` l.
Proof.
  revert p n l' n'. induction l as [|c l IH]; intros p n l' n' Hnd Hok; simpl.
  { by intros [= <- <-]. }
  destruct (serve r c n) as [| |[erased n1]] eqn:Hs; [done|done|].
  assert (c ∈ p ++ c :: l) as Hin by (apply elem_of_app; right; left).
  pose proof (serve_ok r c n _ erased n1 Hok Hin Hs) as Hok1.
  destruct (serve_all r l n1) as [| |[l1 n2]] eqn:Ha; [done|done|]. intros [= <- <-].
  destruct erased.
  - rewrite set_erase_app in Hok1 by done.
    destruct (IH p n1 l1 n2) as [? ?]; [|done|done|split; [done|by apply sublist_cons]].
    apply NoDup_app in Hnd as (? & Hd & Hnd). apply NoDup_cons in Hnd as [_ ?].
    apply NoDup_app. split_all; [done| |done]. intros x Hx Hx'. apply (Hd x Hx). by right.
  - destruct (IH (p ++ [c]) n1 l1 n2) as [Hok2 ?]; rewrite <- ?app_assoc; try done.
    rewrite <- app_assoc in Hok2. split; [done|by apply sublist_skip].
Qed.

Lemma ascending_sublist l l' : ascending l' → l `sublist_of` l' → ascending l.
Proof.
  intros Ha Hs. revert Ha. unfold ascending.
  induction Hs as [|x l l' Hs IH|x l l' Hs IH]; intros Ha; [done| |];
    apply StronglySorted_inv in Ha as [Ha Hx]; [|by apply IH].
  constructor; [by apply IH|]. rewrite Forall_forall in Hx |- *. intros y Hy.
  by apply Hx, (elem_of_sublist l).
Qed.

Lemma round_ok r s s' :
  server_ok s → (∀ c, recv_ok (recv r c)) → accept r ∉ open (net s) → accept r ≠ listen_fd s →
  round r s = Ok s' → server_ok s' ∧ listen_fd s' = listen_fd s.
Proof.
  intros (Ha & Hl & Hok) _ Hacc Hlisten. unfold round.
  destruct (forallb _ _); [|done]. destruct (select_ok r); [|done].
  destruct (serve_all r (client_fds s) (net s)) as [| |[l n]] eqn:Hs; [done|done|].
  destruct (serve_all_ok r _ [] _ l n (ascending_NoDup _ Ha) Hok Hs) as [Hok' Hsub].
  simpl in Hok'. pose proof (ascending_sublist _ _ Ha Hsub) as Ha'.
  assert (listen_fd s ∉ l) as Hl' by (intros ?; apply Hl; by apply (elem_of_sublist l)).
  destruct (ready r (listen_fd s)); [|by intros [= <-]].
  destruct (accept r =? -1); [done|]. intros [= <-]. split; [|done].
  assert (accept r ∉ l) as Hnew.
  { intros Hin. apply Hacc. destruct Hok as [Ho _]. apply Ho.
    by apply (elem_of_sublist l). }
  unfold server_ok; split_all; simpl.
  - by apply ascending_insert.
  - rewrite elem_of_set_insert. intros [?|?]; congruence.
  - destruct Hok' as (Ho & He & Hn). unfold net_ok; split_all; simpl; [|done|].
    + intros c. rewrite elem_of_cons, elem_of_set_insert, Ho. done.
    + intros c Hc. apply Hn. intros ?. apply Hc. rewrite elem_of_set_insert. by right.
Qed.

Lemma init_ok listen : server_ok (init listen).
Proof.
  unfold server_ok; split_all; [constructor|apply not_elem_of_nil|].
  unfold net_ok; split_all; simpl; [done|done|]. intros c _. unfold got. simpl. by rewrite lookup_empty.
Qed.

Lemma rounds_ok rs s0 s :
  server_ok s0 → kernel_ok rs s0 → rounds rs s0 = Ok s → server_ok s ∧ listen_fd s = listen_fd s0.
Proof.
  revert s0. induction rs as [|r rs IH]; intros s0 Hok Hk; simpl in *; [by intros [= <-]|].
  destruct Hk as (Hr & Ha & Hne & Hk). destruct (round r s0) as [| |s1] eqn:Hs; [done|done|].
  destruct (round_ok r s0 s1 Hok Hr Ha Hne Hs) as [? <-]. by apply IH.
Qed.

(** Whatever the clients do, a server that has not ended by an exception keeps in
    [client_fds] exactly the descriptors of its open connections, in ascending
    order, and has sent back on each of them exactly the bytes received on it, in
    order. *)
Theorem select_echo listen rs s :
  kernel_ok rs (init listen) → rounds rs (init listen) = Ok s →
  ascending (client_fds s) ∧ listen ∉ client_fds s ∧
  (∀ c, c ∈ open (net s) ↔ c ∈ client_fds s) ∧
  (∀ c, got (sent (net s)) c = got (received (net s)) c).
Proof.
  intros Hk Hr. destruct (rounds_ok rs _ s (init_ok listen) Hk Hr) as [(Ha & Hl & Ho & He & _) Heq].
  change listen with (listen_fd (init listen)) at 1. rewrite <- Heq. by split_all.
Qed.
End Select.

(** * echo_server_epoll.cpp *)

Module Epoll.

Record Server := mk_Server { server_fd : fd; all_fds : list fd; registered : list fd; net : Net }.

(** [epoll_register_fd (epoll_fd, server_fd)] and [all_fds.insert (server_fd)]. *)
Definition init (s : fd) : Server := mk_Server s [s] [s] (mk_Net ∅ ∅ []).

(** A round: whether [epoll_wait] fails, the descriptors of the events it stores, and
    the answers of [accept] and [recv]. *)
Record Round := mk_Round { wait_ok : bool; events : list fd; accept : fd; recv : fd → Recv }.

Definition epoll_register_fd (c : fd) (s : Server) : Result Server :=
  if c <? 0 then Throw "Error: invalid fd"
  else Ok (mk_Server (server_fd s) (all_fds s) (c :: registered s) (net s)).

(** The body of the loop for one event: the new state and the value of [ret], which
    [recv] overwrites. *)
Definition handle (r : Round) (poll_fd : fd) (ret : Z) (s : Server) : Result (Z * Server) :=
  if poll_fd =? server_fd s then
    if accept r =? -1 then Throw "Error: Accept"
    else
      match epoll_register_fd (accept r)
              (mk_Server (server_fd s) (all_fds s) (registered s) (do_accept (accept r) (net s))) with
      | Ok s => Ok (ret, mk_Server (server_fd s) (set_insert (server_fd s) (all_fds s)) (registered s) (net s))
      | Throw e => Throw e | Undefined => Undefined
      end
  else
    let ret := recv_ret (recv r poll_fd) in
    match recv r poll_fd with
    | Data m =>
        Ok (ret, mk_Server (server_fd s) (all_fds s) (registered s)
                   (do_send poll_fd m (do_recv poll_fd (Data m) (net s))))
    | _ =>
        Ok (ret, mk_Server (server_fd s) (set_erase poll_fd (all_fds s))
                   (set_erase poll_fd (registered s)) (do_close poll_fd (net s)))
    end.

(** [for (i = 0; i < ret; ++i)] over the vector [evs]; an index behind its end is
    undefined. *)
Fixpoint loop (fuel : nat) (r : Round) (evs : list fd) (i ret : Z) (s : Server) : Result Server :=
  if i <? ret then
    match fuel with
    | O => Undefined
    | S fuel =>
        match evs !! Z.to_nat i with
        | None => Undefined
        | Some poll_fd =>
            match handle r poll_fd ret s with
            | Ok (ret, s) => loop fuel r evs (i + 1) ret s
            | Throw e => Throw e | Undefined => Undefined
            end
        end
    end
  else Ok s.

(** [std::vector<epoll_event> events (all_fds.size ())] holds the events stored and
    zeros behind them; the loop visits each index of it at most once. *)
Definition round (r : Round) (s : Server) : Result Server :=
  if wait_ok r then
    let size := length (all_fds s) in
    let evs := events r ++ replicate (size - length (events r)) 0 in
    loop (S size) r evs 0 (Z.of_nat (length (events r))) s
  else Throw "Error: Epoll".

(** [epoll_wait] stores at least one event and no more than asked for, of registered
    descriptors. *)
Definition kernel_ok (r : Round) (s : Server) : Prop :=
  (0 < length (events r) ≤ length (all_fds s))%nat ∧ (∀ c, c ∈ events r → c ∈ registered s) ∧
  (∀ c, recv_ok (recv r c)).

Lemma set_insert_same x : set_insert x [x] = [x].
Proof. simpl. rewrite Z.ltb_irrefl. by rewrite Z.eqb_refl. Qed.

(** The set of descriptors is never anything but the listening one. *)
Definition alone (s : Server) : Prop := all_fds s = [server_fd s].

Lemma handle_alone r c ret s :
  alone s →
  match handle r c ret s with Ok (_, s') => alone s' ∧ server_fd s' = server_fd s | _ => True end.
Proof.
  unfold alone, handle. intros Ha. destruct (Z.eqb_spec c (server_fd s)) as [Hc|Hc].
  - destruct (accept r =? -1); [done|]. unfold epoll_register_fd.
    destruct (accept r <? 0); [done|]. simpl. by rewrite Ha, set_insert_same.
  - destruct (recv r c); simpl; rewrite Ha; [done| |];
      unfold set_erase; by rewrite filter_cons, decide_True.
Qed.

Lemma loop_alone fuel r evs i ret s s' :
  alone s → loop fuel r evs i ret s = Ok s' → alone s' ∧ server_fd s' = server_fd s.
Proof.
  revert i ret s. induction fuel as [|fuel IH]; intros i ret s Ha; simpl; (destruct (i <? ret); [|by intros [= <-]]);
    [done|]. destruct (evs !! _) as [c|]; [|done]. pose proof (handle_alone r c ret s Ha) as Hh.
  destruct (handle r c ret s) as [| |[ret' s1]]; [done..|]. destruct Hh as [Ha1 <-]. by apply IH.
Qed.

Lemma round_alone r s s' : alone s → round r s = Ok s' → alone s' ∧ server_fd s' = server_fd s.
Proof. unfold round. destruct (wait_ok r); [|done]. intros. by eapply loop_alone. Qed.

Lemma round_one r s c :
  alone s → wait_ok r = true → events r = [c] →
  round r s = match handle r c 1 s with
    | Ok (ret, s) => loop 1 r [c] 1 ret s | Throw e => Throw e | Undefined => Undefined end.
Proof. intros Ha Hw He. unfold alone in Ha. unfold round. rewrite Hw, He, Ha. done. Qed.

Lemma loop_end r c ret s :
  loop 1 r [c] 1 ret s = if 1 <? ret then Undefined else Ok s.
Proof. cbn [loop]. by destruct (1 <? ret). Qed.

(** [echo_server_epoll.cpp] always has one descriptor in [all_fds], since [accept]
    inserts the listening one instead of the new one, so a round handles one event;
    and the round is undefined exactly when that event is a message of two bytes or
    more: [recv] overwrites the bound of the loop over the events, which goes on
    behind the end of the vector. *)
Theorem epoll_overrun r s :
  alone s → wait_ok r = true → kernel_ok r s →
  ∃ c, events r = [c] ∧
    (round r s = Undefined ↔ c ≠ server_fd s ∧ ∃ m, recv r c = Data m ∧ (2 ≤ length m)%nat) ∧
    (∀ s', round r s = Ok s' → alone s').
Proof.
  intros Ha Hw (Hlen & Hreg & Hrecv). pose proof Ha as Ha'. unfold alone in Ha. rewrite Ha in Hlen.
  destruct (events r) as [|c [|d l]] eqn:He; simpl in Hlen; [lia| |lia].
  exists c. split; [done|]. rewrite (round_one r s c Ha' Hw He).
  pose proof (handle_alone r c 1 s Ha') as Hh. unfold handle in *.
  destruct (Z.eqb_spec c (server_fd s)) as [Hc|Hc].
  - destruct (accept r =? -1); [split; [split; [done|by intros [? _]]|done]|].
    unfold epoll_register_fd in *. destruct (accept r <? 0); [split; [split; [done|by intros [? _]]|done]|].
    rewrite loop_end. simpl. split; [split; [done|by intros [? _]]|]. intros s' [= <-]. apply Hh.
  - destruct (recv r c) as [m| |] eqn:Hr; rewrite loop_end; simpl recv_ret in *.
    + destruct (Z.ltb_spec 1 (Z.of_nat (length m))) as [Hm|Hm].
      * split; [|done]. split; [|done]. intros _. split; [done|]. exists m. split; [done|lia].
      * split; [split; [done|]|]; [|intros s' [= <-]; apply Hh].
        intros (_ & m' & [= <-] & ?). lia.
    + split; [split; [done|by intros (_ & m & ? & _)]|]. intros s' [= <-]. apply Hh.
    + split; [split; [done|by intros (_ & m & ? & _)]|]. intros s' [= <-]. apply Hh.
Qed.
End Epoll.

(** * The client loop of socket_api/echo_server.cpp *)

Module Blocking.
Definition BUFFSIZE : nat := 4096.

(** How [handle_client] ends: the client has disconnected, a call has failed and
    the program exits, or the answers given are used up. *)
Inductive End := Disconnected | ExitFailure | Waiting.

(** The answers of [recvmsg] and whether the [sendmsg] after it succeeds; the result
    is what has been sent. *)
Fixpoint handle_client (answers : list (Recv * bool)) : bytes * End :=
  match answers with
  | [] => ([], Waiting)
  | (Failed, _) :: _ => ([], ExitFailure)
  | (Eof, _) :: _ => ([], Disconnected)
  | (Data s, false) :: _ => ([], ExitFailure)
  | (Data s, true) :: answers => let '(out, e) := handle_client answers in (s ++ out, e)
  end.

(** The bytes received before the first answer that ends the loop. *)
Fixpoint taken (answers : list (Recv * bool)) : bytes :=
  match answers with
  | (Data s, true) :: answers => s ++ taken answers
  | _ => []
  end.

(** Everything received is sent back, up to the first failure or the end. *)
Lemma handle_client_echo answers : (handle_client answers).1 = taken answers.
Proof.
  induction answers as [|[[s| |] []] answers IH]; try done.
  simpl. rewrite <- IH. by destruct (handle_client answers).
Qed.
End Blocking.

(** * Witnesses *)

(** A client connects, sends three bytes and then two, and leaves. *)
Definition demo_rounds : list Select.Round :=
  [Select.mk_Round true (λ c, c =? 3) (λ _, Eof) 5;
   Select.mk_Round true (λ c, c =? 5) (λ _, Data [104; 105; 10]) 6;
   Select.mk_Round true (λ _, true) (λ _, Data [33; 10]) 4].

Definition demo_server : Select.Server :=
  Select.mk_Server 3 [4; 5]
    (mk_Net {[5 := [104; 105; 10; 33; 10]]} {[5 := [104; 105; 10; 33; 10]]} [4; 5]).

Lemma select_echo_witness :
  Select.rounds demo_rounds (Select.init 3) = Ok demo_server ∧
  ascending (Select.client_fds demo_server) ∧ 3 ∉ Select.client_fds demo_server ∧
  (∀ c, c ∈ open (Select.net demo_server) ↔ c ∈ Select.client_fds demo_server) ∧
  (∀ c, got (sent (Select.net demo_server)) c = got (received (Select.net demo_server)) c).
Proof.
  split; [vm_compute; reflexivity|].
  apply (Select.select_echo 3 demo_rounds demo_server); [|vm_compute; reflexivity].
  repeat (split; [intros c; vm_compute; lia|]; split; [by_computation|]; split; [by_computation|];
          match goal with |- context [Select.round ?r ?s] =>
            let v := eval vm_compute in (Select.round r s) in change (Select.round r s) with v end;
          cbv beta iota).
  exact I.
Defined.

Definition demo_epoll : Epoll.Server := Epoll.mk_Server 3 [3] [5; 3] (mk_Net ∅ ∅ [5]).
Definition demo_message : Epoll.Round := Epoll.mk_Round true [5] (-1) (λ _, Data [104; 105]).

Lemma epoll_overrun_witness :
  Epoll.round demo_message demo_epoll = Undefined ∧
  ∃ c, Epoll.events demo_message = [c] ∧
    (Epoll.round demo_message demo_epoll = Undefined ↔
     c ≠ Epoll.server_fd demo_epoll ∧ ∃ m, Epoll.recv demo_message c = Data m ∧ (2 ≤ length m)%nat) ∧
    (∀ s', Epoll.round demo_message demo_epoll = Ok s' → Epoll.alone s').
Proof.
  split; [vm_compute; reflexivity|].
  apply Epoll.epoll_overrun; [reflexivity|reflexivity|].
  split; [vm_compute; lia|]. split; [intros c; vm_compute; set_solver|intros c; vm_compute; lia].
Defined.
