(* ===== verification/ListenSocket.v ===== *)
(** How four servers get their listening socket: the set-up in [main] of
    [src/linux/echo_server/echo_server_select.cpp], [echo_server_epoll.cpp] and
    [src/books/high_perf_linux_server_programming/socket_api/echo_server.cpp], and the
    constructor of [Acceptor] in
    [src/sonic/sonic-swss-common/codes/tcp_echo_server_with_selectable_demo.cpp]; then the
    [main] functions as the set-up followed by the loops of [EchoServer].

    The kernel is a table of sockets and [errno]. Each system call succeeds or fails as
    the environment says, and fails by itself on a descriptor that is not in the table.
    [strerror], [inet_pton] and [inet_ntop] are parameters. *)

From stdpp Require Import pretty.
From Stdlib Require Import Ascii.
From S2P Require Import Prelude ByteOrder EchoServer.
Open Scope Z_scope.

(** * System calls *)

(** A socket: its file status flags, [SO_REUSEADDR], the address and port it is bound
    to (in host order), and the backlog once it is listening. *)
Record sock : Type := Sock {
  sk_flags : Z; sk_reuse : bool; sk_addr : option (Z * Z); sk_backlog : option Z }.
Record kernel : Type := Kernel { socks : gmap Z sock; errno : Z }.

(** [struct sockaddr_in]: port and address in network order. *)
Record sockaddr_in : Type := SockAddr { sin_family : Z; sin_port : Z; sin_addr : Z }.
Definition AF_INET : Z := 2.
Definition INADDR_ANY : Z := 0.
Definition O_RDWR : Z := 2.
Definition O_NONBLOCK : Z := 2048.
Definition SOMAXCONN : Z := 4096.
Definition EBADF : Z := 9.
Definition EINVAL : Z := 22.

Inductive call : Type := CSocket | CGetfl | CSetfl | CSetsockopt | CBind | CListen | CAccept | CEpollCreate | CEpollCtl.
#[global] Instance call_eq_dec : EqDecision call.
Proof. solve_decision. Defined.

(** Which calls fail, with what [errno], and the descriptors that the others hand out. *)
Record answers : Type := Answers { fails : call → option Z; newfd : call → Z }.

(** How a program ends before its loop: an exception with its text, or [exit] after a
    complaint on the standard error. *)
Inductive stop : Type := RuntimeError (what : string) | ExitFailure (complaint : string).

(** A program over the kernel, which may stop. *)
Definition Sys (A : Type) : Type := answers → kernel → (stop + A) * kernel.
#[export] Instance sys_ret : MRet Sys := λ A x _ k, (inr x, k).
#[export] Instance sys_bind : MBind Sys := λ A B f p a k,
  match p a k with (inr x, k) => f x a k | (inl e, k) => (inl e, k) end.

Definition stop_with {A} (f : Z → stop) : Sys A := λ _ k, (inl (f (errno k)), k).
Definition stop_if (b : bool) (f : Z → stop) : Sys unit := if b then stop_with f else mret tt.

(** A call that fails sets [errno] and gives -1. *)
Definition failing (e : Z) : Sys Z := λ _ k, (inr (-1), Kernel (socks k) e).
Definition syscall (c : call) (p : Sys Z) : Sys Z :=
  λ a k, match fails a c with Some e => failing e a k | None => p a k end.
(** A call on the socket [fd]. *)
Definition on_socket (c : call) (fd : Z) (act : sock → Z * sock) : Sys Z :=
  syscall c (λ a k,
    match socks k !! fd with
    | Some s => (inr (act s).1, Kernel (<[fd := (act s).2]> (socks k)) (errno k))
    | None => failing EBADF a k
    end).

Definition socket : Sys Z :=
  syscall CSocket (λ a k,
    (inr (newfd a CSocket), Kernel (<[newfd a CSocket := Sock O_RDWR false None None]> (socks k)) (errno k))).
Definition fcntl_getfl (fd : Z) : Sys Z := on_socket CGetfl fd (λ s, (sk_flags s, s)).
Definition fcntl_setfl (fd flags : Z) : Sys Z :=
  on_socket CSetfl fd (λ s, (0, Sock flags (sk_reuse s) (sk_addr s) (sk_backlog s))).
Definition set_reuseaddr (fd enable : Z) : Sys Z :=
  on_socket CSetsockopt fd (λ s, (0, Sock (sk_flags s) (negb (enable =? 0)) (sk_addr s) (sk_backlog s))).
Definition bind (fd : Z) (addr : sockaddr_in) : Sys Z :=
  on_socket CBind fd (λ s,
    (0, Sock (sk_flags s) (sk_reuse s) (Some (htonl (sin_addr addr), htons (sin_port addr))) (sk_backlog s))).
Definition listen (fd backlog : Z) : Sys Z :=
  on_socket CListen fd (λ s, (0, Sock (sk_flags s) (sk_reuse s) (sk_addr s) (Some backlog))).
(** [accept] hands out a descriptor if the socket is listening. *)
Definition accept (fd : Z) : Sys Z :=
  syscall CAccept (λ a k,
    match socks k !! fd ≫= sk_backlog with
    | Some _ => (inr (newfd a CAccept), k)
    | None => failing EINVAL a k
    end).
Definition epoll_create1 : Sys Z := syscall CEpollCreate (λ a k, (inr (newfd a CEpollCreate), k)).
Definition epoll_ctl_add (epoll_fd fd : Z) : Sys Z :=
  syscall CEpollCtl (λ a k, if epoll_fd <? 0 then failing EBADF a k else (inr 0, k)).

(** * The programs *)

Section servers.
Context (strerror : Z → string) (inet_pton : string → option Z) (inet_ntop : Z → string).

(** [throw_error] formats into [ERROR_STR], an array of 100 bytes. The formats used end
    in one or two numbers. *)
Definition throw_error (message : string) : stop := RuntimeError (String.substring 0 99 message).
Definition throw_errno (prefix : string) (e : Z) : stop := throw_error (prefix +:+ pretty e +:+ ")").

Definition set_socket_blocking (fd : Z) (blocking : bool) : Sys bool :=
  if fd <? 0 then mret false
  else
    flags ← fcntl_getfl fd;
    if flags =? -1 then mret false
    else
      ret ← fcntl_setfl fd (if blocking then Z.land flags (Z.lnot O_NONBLOCK) else Z.lor flags O_NONBLOCK);
      mret (ret =? 0).

Definition PORTNUM : Z := 8900.

(** [main] of [echo_server_select.cpp] up to its loop. *)
Definition select_setup : Sys Z :=
  fd ← socket;
  _ ← stop_if (fd =? -1) (throw_errno "Error: Open socket(");
  _ ← set_socket_blocking fd true;
  ret ← set_reuseaddr fd 1;
  _ ← stop_if (ret =? -1) (throw_errno "Error: Set socket(");
  ret ← bind fd (SockAddr AF_INET (htons PORTNUM) INADDR_ANY);
  _ ← stop_if (ret =? -1) (throw_errno "Error: Bind socket(");
  ret ← listen fd SOMAXCONN;
  _ ← stop_if (ret =? -1) (throw_errno "Error: Listen socket(");
  mret fd.

(** The text of a failed [epoll_ctl], which has [errno] in the place of [epoll_fd]. *)
Definition add_complaint (fd e : Z) : stop :=
  throw_error ("Error: Failed to add fd(" +:+ pretty fd +:+ ") to epoll(" +:+ pretty e +:+ ")").

(** [epoll_register_fd] of [echo_server_epoll.cpp]. *)
Definition epoll_register_fd (epoll_fd fd : Z) : Sys unit :=
  _ ← stop_if (fd <? 0) (λ _, throw_errno "Error: invalid fd(" fd);
  ret ← epoll_ctl_add epoll_fd fd;
  stop_if (ret =? -1) (add_complaint fd).

(** [main] of [echo_server_epoll.cpp] up to its loop: the same calls, then the epoll
    instance. *)
Definition epoll_setup : Sys Z :=
  server_fd ← socket;
  _ ← stop_if (server_fd =? -1) (throw_errno "Error: Open socket(");
  _ ← set_socket_blocking server_fd true;
  ret ← set_reuseaddr server_fd 1;
  _ ← stop_if (ret =? -1) (throw_errno "Error: Set socket(");
  ret ← bind server_fd (SockAddr AF_INET (htons PORTNUM) INADDR_ANY);
  _ ← stop_if (ret =? -1) (throw_errno "Error: Bind socket(");
  ret ← listen server_fd SOMAXCONN;
  _ ← stop_if (ret =? -1) (throw_errno "Error: Listen socket(");
  epoll_fd ← epoll_create1;
  _ ← epoll_register_fd epoll_fd server_fd;
  mret server_fd.

(** [ERROR_THROW] of the server on selectable objects. *)
Definition ERROR_THROW (msg : string) (e : Z) : stop :=
  RuntimeError (msg +:+ "[" +:+ pretty e +:+ "]" +:+ ": " +:+ strerror e).
Definition MAX_QUEUED_REQUESTS : Z := 100.

Definition Acceptor (port : Z) : Sys Z :=
  serverfd ← socket;
  _ ← stop_if (serverfd =? -1) (ERROR_THROW "socket");
  ret ← set_reuseaddr serverfd 1;
  _ ← stop_if (ret <? 0) (ERROR_THROW "setsockopt");
  ret ← bind serverfd (SockAddr AF_INET (htons (u16 port)) (htonl INADDR_ANY));
  _ ← stop_if (ret <? 0) (ERROR_THROW "bind");
  ret ← listen serverfd MAX_QUEUED_REQUESTS;
  _ ← stop_if (ret <? 0) (ERROR_THROW "listen");
  mret serverfd.

(** [check_sock_op] of [socket_api/echo_server.cpp], with the text of [perror]. *)
Definition check_sock_op (ret : Z) (msg : string) : Sys unit :=
  stop_if (ret <? 0) (λ e, ExitFailure (msg +:+ ": " +:+ strerror e)).

(** [std::tuple<std::string, short>]: the port is a signed 16-bit number. *)
Definition get_sockaddr (addr : sockaddr_in) : string * Z :=
  (inet_ntop (sin_addr addr), swrap 16 (htons (sin_port addr))).

(** [main] of [socket_api/echo_server.cpp] up to [listen]; [port] is what [atoi] gives. *)
Definition blocking_setup (prog addr : string) (port : Z) : Sys Z :=
  match inet_pton addr with
  | None => stop_with (λ _, ExitFailure (prog +:+ ": invalid ip address!"))
  | Some ip =>
      sock ← socket;
      _ ← check_sock_op sock "socket";
      ret ← bind sock (SockAddr AF_INET (htons (u16 port)) ip);
      _ ← check_sock_op ret "bind";
      ret ← listen sock 5;
      _ ← check_sock_op ret "listen";
      mret sock
  end.

(** [accept] and the check behind it, which looks at the [ret] of [listen]: it was not
    negative, or the program would have ended. *)
Definition blocking_accept (sock ret : Z) : Sys Z :=
  clientfd ← accept sock;
  _ ← check_sock_op ret "accept";
  mret clientfd.

(** [atoi]: blanks, a sign, digits; [None] when the number leaves [int]. *)
Definition digit (c : Ascii.ascii) : option Z :=
  let n := Z.of_nat (Ascii.nat_of_ascii c) in
  if (48 <=? n) && (n <=? 57) then Some (n - 48) else None.
Definition isspace (c : Ascii.ascii) : bool :=
  let n := Z.of_nat (Ascii.nat_of_ascii c) in (n =? 32) || ((9 <=? n) && (n <=? 13)).
Fixpoint digits (acc : Z) (s : string) : Z :=
  match s with
  | String c s => match digit c with Some d => digits (10 * acc + d) s | None => acc end
  | EmptyString => acc
  end.
Fixpoint skip_space (s : string) : string :=
  match s with String c s' => if isspace c then skip_space s' else s | EmptyString => s end.
Definition atoi (s : string) : option Z :=
  let n :=
    match skip_space s with
    | String "-"%char s => - digits 0 s
    | String "+"%char s => digits 0 s
    | s => digits 0 s
    end in
  if (- 2 ^ 31 <=? n) && (n <? 2 ^ 31) then Some n else None.

(** * The main functions *)

(** [main] of [echo_server_select.cpp]: the set-up, then the loop with the answers [rs]. *)
Definition select_main (rs : list Select.Round) (a : answers) (k : kernel) : stop + Result Select.Server :=
  match (select_setup a k).1 with
  | inl e => inl e
  | inr fd => inr (Select.rounds rs (Select.init fd))
  end.

(** The loop of [echo_server_epoll.cpp], [while (all_fds.size() > 0)]; the flag says that
    it has ended. *)
Fixpoint epoll_rounds (rs : list Epoll.Round) (s : Epoll.Server) : Result (bool * Epoll.Server) :=
  match Epoll.all_fds s, rs with
  | [], _ => Ok (true, s)
  | _, [] => Ok (false, s)
  | _, r :: rs =>
      match Epoll.round r s with
      | Ok s => epoll_rounds rs s | Throw e => Throw e | Undefined => Undefined
      end
  end.
Definition epoll_main (rs : list Epoll.Round) (a : answers) (k : kernel) : stop + Result (bool * Epoll.Server) :=
  match (epoll_setup a k).1 with
  | inl e => inl e
  | inr fd => inr (epoll_rounds rs (Epoll.init fd))
  end.

(** [main] of [socket_api/echo_server.cpp], with the answers of [recvmsg] and [sendmsg] on
    a good descriptor; on -1 [recvmsg] fails. [None] is a port that [atoi] cannot hold. The
    result is how the program stops, or what it has sent and how its loop stands. *)
Definition blocking_main (argv : list string) (msgs : list (Recv * bool)) (a : answers) (k : kernel) :
    option (stop + bytes * Blocking.End) :=
  match argv with
  | [prog; addr; port] =>
      port ← atoi port;
      Some match ((sock ← blocking_setup prog addr port; blocking_accept sock 0) a k).1 with
           | inl e => inl e
           | inr clientfd =>
               inr (Blocking.handle_client (if clientfd <? 0 then [(Failed, true)] else msgs))
           end
  | prog :: _ => Some (inl (ExitFailure (prog +:+ " ip_address port")))
  | [] => Some (inl (ExitFailure " ip_address port"))
  end.

(** * The contract of a set-up *)

(** The calls whose failure counts, the socket that is wanted, and what is said when a
    call fails. *)
Record config : Type := Config {
  c_calls : list call; c_reuse : bool; c_ip : Z; c_port : Z; c_backlog : Z;
  c_complaint : call → Z → stop }.

Fixpoint first_failure (cs : list call) (a : answers) : option (call * Z) :=
  match cs with
  | [] => None
  | c :: cs => match fails a c with Some e => Some (c, e) | None => first_failure cs a end
  end.

Definition sets_up (p : Sys Z) (c : config) (a : answers) (k : kernel) : Prop :=
  let fd := newfd a CSocket in
  let s := Sock O_RDWR (c_reuse c) (Some (c_ip c, c_port c)) (Some (c_backlog c)) in
  match first_failure (c_calls c) a with
  | None => ∃ e', p a k = (inr fd, Kernel (<[fd := s]> (socks k)) e')
  | Some (call, e) =>
      ∃ K' e', p a k = (inl (c_complaint c call e), Kernel K' e') ∧ delete fd K' = socks k
  end.

Definition plain_complaint (c : call) : Z → stop :=
  match c with
  | CSocket => throw_errno "Error: Open socket("
  | CSetsockopt => throw_errno "Error: Set socket("
  | CBind => throw_errno "Error: Bind socket("
  | _ => throw_errno "Error: Listen socket("
  end.
Definition name_of (c : call) : string :=
  match c with CSocket => "socket" | CSetsockopt => "setsockopt" | CBind => "bind" | _ => "listen" end.

Definition select_config : config :=
  Config [CSocket; CSetsockopt; CBind; CListen] true INADDR_ANY PORTNUM SOMAXCONN plain_complaint.
(** [epoll_create1] is not checked: its failure is seen, with another number, by
    [epoll_register_fd]. *)
Definition epoll_config (a : answers) : config :=
  Config [CSocket; CSetsockopt; CBind; CListen; CEpollCreate; CEpollCtl] true INADDR_ANY PORTNUM SOMAXCONN
    (λ c e, match c with
            | CEpollCreate => add_complaint (newfd a CSocket) (default EBADF (fails a CEpollCtl))
            | CEpollCtl => add_complaint (newfd a CSocket) e
            | _ => plain_complaint c e
            end).
Definition Acceptor_config (port : Z) : config :=
  Config [CSocket; CSetsockopt; CBind; CListen] true INADDR_ANY (u16 port) MAX_QUEUED_REQUESTS
    (λ c, ERROR_THROW (name_of c)).
Definition blocking_config (ip port : Z) : config :=
  Config [CSocket; CBind; CListen] false (htonl ip) (u16 port) 5
    (λ c e, ExitFailure (name_of c +:+ ": " +:+ strerror e)).

(** The descriptor of [socket] is new and not negative, as is that of [epoll_create1]. *)
Definition fresh (a : answers) (k : kernel) : Prop :=
  0 ≤ newfd a CSocket ∧ socks k !! newfd a CSocket = None ∧ 0 ≤ newfd a CEpollCreate.

(** Running a set-up: each call by the answer it gets. *)
Lemma syscall_eq c p a k :
  syscall c p a k = match fails a c with Some e => (inr (-1), Kernel (socks k) e) | None => p a k end.
Proof. done. Qed.

Lemma on_socket_eq c fd act a K e s :
  K !! fd = Some s →
  on_socket c fd act a (Kernel K e) =
    match fails a c with
    | Some e => (inr (-1), Kernel K e)
    | None => (inr (act s).1, Kernel (<[fd := (act s).2]> K) e)
    end.
Proof. intros Hs. unfold on_socket. rewrite syscall_eq. cbn [socks]. by rewrite Hs. Qed.

Lemma bind_eq {A B} (p : Sys A) (f : A → Sys B) a k :
  (p ≫= f) a k = match p a k with (inr x, k) => f x a k | (inl e, k) => (inl e, k) end.
Proof. done. Qed.

Lemma stop_if_eq b f a k : stop_if b f a k = if b then (inl (f (errno k)), k) else (inr (), k).
Proof. by destruct b. Qed.

(** Making a blocking socket blocking changes nothing but [errno]. *)
Lemma set_socket_blocking_true fd a K e s :
  K !! fd = Some s → 0 ≤ fd → sk_flags s = O_RDWR →
  ∃ r e', set_socket_blocking fd true a (Kernel K e) = (inr r, Kernel K e').
Proof.
  intros Hs Hfd Hf. unfold set_socket_blocking. destruct (Z.ltb_spec fd 0); [lia|].
  rewrite bind_eq. unfold fcntl_getfl. rewrite (on_socket_eq _ _ _ _ _ _ s Hs).
  destruct (fails a CGetfl); [by do 2 eexists|]. cbn [fst snd]. rewrite Hf.
  change (O_RDWR =? -1) with false. cbv iota. rewrite (insert_id _ _ _ Hs), bind_eq.
  unfold fcntl_setfl. rewrite (on_socket_eq _ _ _ _ _ _ s Hs).
  destruct (fails a CSetfl); [by do 2 eexists|]. do 2 eexists. cbn [fst snd].
  destruct s as [fl r ad b]; cbn in *. subst. by rewrite insert_id.
Qed.

End servers.

(** Running a set-up on the new socket: the tests decide themselves, each call is split by
    the answer it gets. *)
Ltac sys_test :=
  match goal with |- context [if ?b then _ else _] =>
    lazymatch b with _ =? _ => idtac | _ <? _ => idtac end;
    first [change b with true | change b with false | replace b with false by (symmetry; lia)]
  end; cbv iota.
Ltac sys_call :=
  match goal with |- context [on_socket ?c ?fd ?act ?a (Kernel ?K ?e)] =>
    rewrite (on_socket_eq c fd act a K e _ (lookup_insert_eq _ _ _));
    destruct (fails a c) eqn:?
  | |- context [syscall ?c ?p ?a ?k] => rewrite (syscall_eq c p a k); destruct (fails a c) eqn:?
  end.
Ltac sys_step :=
  first [rewrite bind_eq | rewrite stop_if_eq | sys_test | sys_call];
  cbn [fst snd sk_flags sk_reuse sk_addr sk_backlog sin_addr sin_port errno socks]; rewrite ?insert_insert_eq.
Ltac sys_run := unfold set_reuseaddr, bind, listen, epoll_create1, epoll_register_fd, epoll_ctl_add; repeat sys_step.

(** The end of a run, stopped or not. *)
Ltac sys_end :=
  cbn [c_complaint select_config epoll_config Acceptor_config blocking_config];
  repeat match goal with H : fails _ _ = _ |- _ => rewrite H end; cbn [default];
  repeat eexists; cbn [socks]; rewrite ?delete_insert_eq; rewrite ?delete_id by done; reflexivity.

Ltac sys_blocking :=
  match goal with |- context [set_socket_blocking ?fd true ?a (Kernel ?K ?e)] =>
    destruct (set_socket_blocking_true fd a K e _ (lookup_insert_eq _ _ _)) as (? & ? & ->); [done|done|]
  end; cbv iota.
(** The first call of a set-up. *)
Ltac sys_socket a :=
  rewrite bind_eq; unfold socket; rewrite syscall_eq;
  destruct (fails a CSocket) eqn:?; cbn [fst snd socks errno default]; [sys_run; sys_end|].

Lemma select_setup_ok a k : fresh a k → sets_up select_setup select_config a k.
Proof.
  destruct k as [K e]. intros (Hfd & HK & _). cbn [socks] in HK. unfold sets_up, select_setup.
  cbn [first_failure c_calls select_config]. sys_socket a.
  do 4 sys_step. sys_blocking. sys_run; sys_end.
Qed.

Lemma epoll_setup_ok a k : fresh a k → sets_up epoll_setup (epoll_config a) a k.
Proof.
  destruct k as [K e]. intros (Hfd & HK & Hep). cbn [socks] in HK. unfold sets_up, epoll_setup.
  cbn [first_failure c_calls epoll_config]. sys_socket a.
  do 4 sys_step. sys_blocking. sys_run; sys_end.
Qed.

Lemma Acceptor_ok strerror port a k :
  fresh a k → sets_up (Acceptor strerror port) (Acceptor_config strerror port) a k.
Proof.
  destruct k as [K e]. intros (Hfd & HK & _). cbn [socks] in HK. unfold sets_up, Acceptor.
  cbn [first_failure c_calls Acceptor_config]. sys_socket a. sys_run;
    rewrite ?htons_htons by (apply wrap_range; lia); sys_end.
Qed.

Lemma blocking_setup_ok strerror inet_pton prog addr port ip a k :
  inet_pton addr = Some ip → fresh a k →
  sets_up (blocking_setup strerror inet_pton prog addr port) (blocking_config strerror ip port) a k.
Proof.
  intros Hip. destruct k as [K e]. intros (Hfd & HK & _). cbn [socks] in HK.
  unfold sets_up, blocking_setup. rewrite Hip.
  cbn [first_failure c_calls blocking_config]. unfold check_sock_op. sys_socket a. sys_run;
    rewrite ?htons_htons by (apply wrap_range; lia); sys_end.
Qed.

(** * Theorems *)

(** [set_socket_blocking] sets the one flag and keeps the others. *)
Lemma set_socket_blocking_flag fd b a K e s :
  K !! fd = Some s → 0 ≤ fd → sk_flags s ≠ -1 → fails a CGetfl = None → fails a CSetfl = None →
  ∃ s', set_socket_blocking fd b a (Kernel K e) = (inr true, Kernel (<[fd := s']> K) e) ∧
    Z.testbit (sk_flags s') 11 = negb b ∧
    (∀ i, 0 ≤ i → i ≠ 11 → Z.testbit (sk_flags s') i = Z.testbit (sk_flags s) i) ∧
    sk_reuse s' = sk_reuse s ∧ sk_addr s' = sk_addr s ∧ sk_backlog s' = sk_backlog s.
Proof.
  intros Hs Hfd Hf Hg Hset. unfold set_socket_blocking, fcntl_getfl, fcntl_setfl.
  destruct (Z.ltb_spec fd 0); [lia|]. rewrite bind_eq, (on_socket_eq _ _ _ _ _ _ s Hs), Hg.
  cbn [fst snd]. destruct (Z.eqb_spec (sk_flags s) (-1)); [done|]. rewrite (insert_id _ _ _ Hs), bind_eq.
  rewrite (on_socket_eq _ _ _ _ _ _ s Hs), Hset. cbn [fst snd]. eexists. split; [reflexivity|].
  assert (∀ i, 0 ≤ i → Z.testbit O_NONBLOCK i = bool_decide (i = 11)) as Hbit.
  { intros i Hi. change O_NONBLOCK with (2 ^ 11). rewrite Z.pow2_bits_eqb by lia.
    by destruct (Z.eqb_spec 11 i); case_bool_decide; try lia. }
  cbn [sk_flags sk_reuse sk_addr sk_backlog]. split_all; [| |done..].
  - destruct b; rewrite ?Z.land_spec, ?Z.lnot_spec, ?Z.lor_spec, Hbit by lia; cbn [bool_decide negb];
      by rewrite ?andb_false_r, ?orb_true_r.
  - intros i Hi Hi11. destruct b; rewrite ?Z.land_spec, ?Z.lnot_spec, ?Z.lor_spec, Hbit by lia;
      rewrite bool_decide_false by done; by rewrite ?andb_true_r, ?orb_false_r.
Qed.

(** The set-up of each of the four servers does what it is for or says what failed. When
    the calls it depends on succeed it ends with one new socket, blocking, bound to the
    port it was given on the wanted address and listening with the wanted backlog, and
    nothing else in the kernel has changed; when one fails, the first to fail
    ends the program with its own message and number. *)
Theorem servers_listen strerror inet_pton prog addr port ip a k :
  fresh a k → inet_pton addr = Some ip →
  sets_up select_setup select_config a k ∧
  sets_up epoll_setup (epoll_config a) a k ∧
  sets_up (Acceptor strerror port) (Acceptor_config strerror port) a k ∧
  sets_up (blocking_setup strerror inet_pton prog addr port) (blocking_config strerror ip port) a k.
Proof.
  intros Hf Hip. split_all; [by apply select_setup_ok|by apply epoll_setup_ok|by apply Acceptor_ok|].
  by apply blocking_setup_ok.
Qed.

(** The select server from its first line on. It stops before its loop exactly when one
    of its four calls fails; otherwise, as long as it runs, it keeps exactly its
    open connections and has sent back on each what it received. *)
Theorem select_main_echo rs a k :
  fresh a k → EchoServer.Select.kernel_ok rs (Select.init (newfd a CSocket)) →
  match select_main rs a k with
  | inl e => ∃ c n, first_failure (c_calls select_config) a = Some (c, n) ∧ e = c_complaint select_config c n
  | inr (Ok s) =>
      first_failure (c_calls select_config) a = None ∧
      Select.listen_fd s = newfd a CSocket ∧ ascending (Select.client_fds s) ∧
      (∀ c, c ∈ open (Select.net s) ↔ c ∈ Select.client_fds s) ∧
      (∀ c, got (sent (Select.net s)) c = got (received (Select.net s)) c)
  | inr _ => first_failure (c_calls select_config) a = None
  end.
Proof.
  intros Hf Hk. pose proof (select_setup_ok a k Hf) as Hs. unfold sets_up, select_main in *.
  destruct (first_failure _ a) as [[c n]|].
  - destruct Hs as (K' & e' & -> & _). by exists c, n.
  - destruct Hs as (e' & ->). cbn [fst]. destruct (Select.rounds _ _) as [| |s] eqn:Hr; [done..|].
    destruct (Select.rounds_ok rs _ s (Select.init_ok _) Hk Hr) as [(Ha & _ & Ho & He & _) Hl].
    by split_all.
Qed.

(** [socket_api/echo_server.cpp] checks [accept] with the result of [listen], so a failed
    [accept] is never reported as such: the program goes on with the descriptor -1 and ends
    as if [recvmsg] had failed, having sent nothing. *)
Theorem accept_failure_missed strerror inet_pton prog addr port p ip msgs a k e :
  fresh a k → atoi port = Some p → inet_pton addr = Some ip →
  first_failure (c_calls (blocking_config strerror ip p)) a = None → fails a CAccept = Some e →
  blocking_main strerror inet_pton [prog; addr; port] msgs a k = Some (inr ([], Blocking.ExitFailure)).
Proof.
  intros Hf Hp Hip Hn Ha. pose proof (blocking_setup_ok strerror inet_pton prog addr p ip a k Hip Hf) as Hs.
  unfold sets_up in Hs. rewrite Hn in Hs. destruct Hs as [e' Hs].
  unfold blocking_main. rewrite Hp. cbn [mbind option_bind]. rewrite bind_eq, Hs.
  unfold blocking_accept, accept. by rewrite bind_eq, syscall_eq, Ha.
Qed.

(** The loop of the epoll server never ends by its condition: its set of descriptors
    always has the listening one. *)
Lemma epoll_rounds_alone rs s b s' :
  Epoll.alone s → epoll_rounds rs s = Ok (b, s') →
  b = false ∧ Epoll.alone s' ∧ Epoll.server_fd s' = Epoll.server_fd s.
Proof.
  revert s. induction rs as [|r rs IH]; intros s Ha; pose proof Ha as Ha'; unfold Epoll.alone in Ha';
    cbn [epoll_rounds]; rewrite Ha'; [by intros [= <- <-]|].
  destruct (Epoll.round r s) as [| |s1] eqn:Hr1; [done..|].
  destruct (Epoll.round_alone r s s1 Ha Hr1) as [Ha1 <-]. by apply IH.
Qed.

(** The port of a connection is shown as it is below 2^15, and as a negative number from
    there on. *)
Lemma get_sockaddr_port inet_ntop addr port :
  in_unsigned 16 port →
  (get_sockaddr inet_ntop (SockAddr AF_INET (htons port) addr)).2 = if port <? 2 ^ 15 then port else port - 2 ^ 16.
Proof.
  intros Hp. unfold get_sockaddr. cbn [fst snd sin_port]. rewrite htons_htons by done.
  unfold swrap. by rewrite wrap_id.
Qed.

(** * Witnesses *)

(** The descriptor 3 is free; [bind] finds the address in use, or [accept] the table of
    descriptors full, or nothing fails. *)
Definition demo_kernel : kernel := Kernel ∅ 0.
Definition demo_answers (c : option (call * Z)) : answers :=
  Answers (λ c', match c with Some (c, e) => if decide (c = c') then Some e else None | None => None end)
    (λ c, match c with CAccept => 4 | CEpollCreate => 5 | _ => 3 end).
Definition demo_strerror (e : Z) : string := if e =? 98 then "Address already in use" else "?".
Definition demo_pton (s : string) : option Z := if String.eqb s "127.0.0.1" then Some (htonl 2130706433) else None.

Lemma demo_fresh c : fresh (demo_answers c) demo_kernel.
Proof. split; [done|]. split; [reflexivity|done]. Qed.

Example demo_select_bind :
  (select_setup (demo_answers (Some (CBind, 98))) demo_kernel).1 = inl (RuntimeError "Error: Bind socket(98)").
Proof. vm_compute. reflexivity. Qed.
Example demo_blocking_bind :
  (blocking_setup demo_strerror demo_pton "echo_server" "127.0.0.1" 9000 (demo_answers (Some (CBind, 98))) demo_kernel).1
  = inl (ExitFailure "bind: Address already in use").
Proof. vm_compute. reflexivity. Qed.
Example demo_acceptor :
  socks (Acceptor demo_strerror 9000 (demo_answers None) demo_kernel).2
  = {[ 3 := Sock O_RDWR true (Some (0, 9000)) (Some 100) ]}.
Proof. vm_compute. reflexivity. Qed.
Example demo_port : get_sockaddr (λ _, "127.0.0.1") (SockAddr AF_INET (htons 40000) 0) = ("127.0.0.1", -25536).
Proof. vm_compute. reflexivity. Qed.

Lemma servers_listen_witness :
  sets_up select_setup select_config (demo_answers (Some (CBind, 98))) demo_kernel ∧
  sets_up epoll_setup (epoll_config (demo_answers (Some (CBind, 98)))) (demo_answers (Some (CBind, 98))) demo_kernel ∧
  sets_up (Acceptor demo_strerror 9000) (Acceptor_config demo_strerror 9000) (demo_answers (Some (CBind, 98))) demo_kernel ∧
  sets_up (blocking_setup demo_strerror demo_pton "echo_server" "127.0.0.1" 9000)
    (blocking_config demo_strerror (htonl 2130706433) 9000) (demo_answers (Some (CBind, 98))) demo_kernel.
Proof. apply servers_listen; [apply demo_fresh|reflexivity]. Defined.

(** A client connects as 5, sends a byte and has it echoed. *)
Definition demo_main_rounds : list Select.Round :=
  [Select.mk_Round true (λ c, c =? 3) (λ _, Eof) 5; Select.mk_Round true (λ c, c =? 5) (λ _, Data [7]) 6].

Lemma select_main_echo_witness :
  match select_main demo_main_rounds (demo_answers None) demo_kernel with
  | inl e => ∃ c n, first_failure (c_calls select_config) (demo_answers None) = Some (c, n) ∧ e = c_complaint select_config c n
  | inr (Ok s) =>
      first_failure (c_calls select_config) (demo_answers None) = None ∧
      Select.listen_fd s = newfd (demo_answers None) CSocket ∧ ascending (Select.client_fds s) ∧
      (∀ c, c ∈ open (Select.net s) ↔ c ∈ Select.client_fds s) ∧
      (∀ c, got (sent (Select.net s)) c = got (received (Select.net s)) c)
  | inr _ => first_failure (c_calls select_config) (demo_answers None) = None
  end.
Proof.
  apply select_main_echo; [apply demo_fresh|].
  repeat (split; [intros c; vm_compute; lia|]; split; [by_computation|]; split; [by_computation|];
          match goal with |- context [Select.round ?r ?s] =>
            let v := eval vm_compute in (Select.round r s) in change (Select.round r s) with v end;
          cbv beta iota).
  exact I.
Defined.

Lemma accept_failure_missed_witness :
  blocking_main demo_strerror demo_pton ["echo_server"; "127.0.0.1"; " 9000"] [(Data [7], true)]
    (demo_answers (Some (CAccept, 24))) demo_kernel = Some (inr ([], Blocking.ExitFailure)).
Proof.
  apply (accept_failure_missed demo_strerror demo_pton "echo_server" "127.0.0.1" " 9000" 9000
           (htonl 2130706433) _ _ _ 24); [apply demo_fresh|reflexivity..].
Defined.
