(* ===== verification/AsyncTcpClient.v ===== *)
(** The asynchronous client of
    [src/boost/boost_asio/socket/dummy_application/async_tcp_client.cpp].

    One I/O thread runs the handlers of connect, write and read of every session;
    user threads start requests and cancel them.  Two kinds of locks are involved, one
    for the map of active sessions and one per session.  The model splits the code at
    the points where a thread may have to wait for a lock, and leaves to the network
    when an operation completes and with which error code. *)

From S2P Require Import Prelude.

Local Open Scope Z_scope.

(** [boost::asio::error::operation_aborted] is some error code, not 0. *)
Definition operation_aborted : Z := 125.

(** The chain of operations of a session. *)
Inductive Op := Connect | Write | Read.
(** [Created]: no operation started; [Waiting]: one in progress; [Queued]: completed,
    its handler not yet run; [Handling]: the I/O thread is in a handler;
    [Finished]: the callback has been called. *)
Inductive Stage :=
| Created | Waiting (op : Op) | Queued (op : Op) (ec : Z) (line : string) | Handling | Finished.

(** [m_cancel_held] says whether the I/O thread holds [m_cancel_guard]; a user thread
    that takes it releases it in the same step. *)
Record Session := mk_Session {
  m_id : Z;
  m_request : string;
  m_response : string;
  m_ec : Z;
  m_was_cancelled : bool;
  m_cancel_held : bool;
  stage : Stage
}.

(** Where the I/O thread is: in its event loop, before or behind the lock of the
    session in the handler of an operation, or in [onRequestComplete] before the erasure
    and before the callback; [held] says that it was called with the session's lock. *)
Inductive Io :=
| IoIdle | IoLock (k : nat) (op : Op) | IoBody (k : nat) (op : Op)
| IoErase (k : nat) (held : bool) | IoReport (k : nat) (held : bool).

(** A user thread: outside, before [async_connect] of its new session, or in
    [cancelRequest] with [m_active_sessions_guard] and before the session's lock. *)
Inductive User := UIdle | UConnect (k : nat) | UHold (k : nat).

(** [guard] is the user thread that holds [m_active_sessions_guard] across a wait.
    [reports] are the calls of the callback: session, id, response, error code. *)
Record Client := mk_Client {
  sessions : gmap nat Session;
  m_active_sessions : gmap Z nat;
  guard : option nat;
  users : list User;
  io : Io;
  reports : list (nat * Z * string * Z)
}.

Definition init (threads : nat) : Client := mk_Client ∅ ∅ None (replicate threads UIdle) IoIdle [].

(** ** Updates *)

Definition set_stage (g : Stage) (s : Session) : Session :=
  mk_Session (m_id s) (m_request s) (m_response s) (m_ec s) (m_was_cancelled s) (m_cancel_held s) g.
Definition set_held (b : bool) (s : Session) : Session :=
  mk_Session (m_id s) (m_request s) (m_response s) (m_ec s) (m_was_cancelled s) b (stage s).
Definition set_ec (ec : Z) (s : Session) : Session :=
  mk_Session (m_id s) (m_request s) (m_response s) ec (m_was_cancelled s) (m_cancel_held s) (stage s).
Definition set_response (line : string) (s : Session) : Session :=
  mk_Session (m_id s) (m_request s) line (m_ec s) (m_was_cancelled s) (m_cancel_held s) (stage s).
(** [m_was_cancelled = true] and [m_sock.cancel ()]: an operation in progress completes
    with [operation_aborted], one that has completed already is left as it is. *)
Definition cancel (s : Session) : Session :=
  mk_Session (m_id s) (m_request s) (m_response s) (m_ec s) true (m_cancel_held s)
    match stage s with Waiting op => Queued op operation_aborted "" | g => g end.

Definition put (k : nat) (s : Session) (c : Client) : Client :=
  mk_Client (<[k := s]> (sessions c)) (m_active_sessions c) (guard c) (users c) (io c) (reports c).
Definition set_user (u : nat) (p : User) (c : Client) : Client :=
  mk_Client (sessions c) (m_active_sessions c) (guard c) (<[u := p]> (users c)) (io c) (reports c).
Definition set_guard (g : option nat) (c : Client) : Client :=
  mk_Client (sessions c) (m_active_sessions c) g (users c) (io c) (reports c).
Definition set_active (m : gmap Z nat) (c : Client) : Client :=
  mk_Client (sessions c) m (guard c) (users c) (io c) (reports c).
Definition set_io (p : Io) (c : Client) : Client :=
  mk_Client (sessions c) (m_active_sessions c) (guard c) (users c) p (reports c).
Definition add_report (r : nat * Z * string * Z) (c : Client) : Client :=
  mk_Client (sessions c) (m_active_sessions c) (guard c) (users c) (io c) (reports c ++ [r]).

(** ** The code *)

Definition Session_init (id : Z) (request : string) : Session :=
  mk_Session id request "" 0 false false Created.

(** [emulateLongComputationOp] up to the release of the lock, and [async_connect]. *)
Definition open_session (u : nat) (id : Z) (request : string) (c : Client) : option Client :=
  match users c !! u, guard c with
  | Some UIdle, None =>
      let k := fresh (dom (sessions c)) in
      Some (set_user u (UConnect k)
             (set_active (<[id := k]> (m_active_sessions c)) (put k (Session_init id request) c)))
  | _, _ => None
  end.
Definition async_connect (u : nat) (c : Client) : option Client :=
  match users c !! u with
  | Some (UConnect k) =>
      s ← sessions c !! k; Some (set_user u UIdle (put k (set_stage (Waiting Connect) s) c))
  | _ => None
  end.

(** [cancelRequest]: finding the session under the first lock, and the rest under the
    second. *)
Definition cancel_find (u : nat) (id : Z) (c : Client) : option Client :=
  match users c !! u, guard c with
  | Some UIdle, None =>
      Some match m_active_sessions c !! id with
           | Some k => set_user u (UHold k) (set_guard (Some u) c)
           | None => c
           end
  | _, _ => None
  end.
Definition cancel_do (u : nat) (c : Client) : option Client :=
  match users c !! u with
  | Some (UHold k) =>
      s ← sessions c !! k;
      if m_cancel_held s then None
      else Some (set_user u UIdle (set_guard None (put k (cancel s) c)))
  | _ => None
  end.

(** The network completes the operation in progress. *)
Definition complete (k : nat) (ec : Z) (line : string) (c : Client) : option Client :=
  s ← sessions c !! k;
  match stage s with
  | Waiting op => Some (put k (set_stage (Queued op ec line) s) c)
  | _ => None
  end.

(** The event loop calls the handler of a completed operation.  After an error, and
    after the read, [onRequestComplete] is called without the session's lock. *)
Definition dispatch (k : nat) (c : Client) : option Client :=
  match io c with
  | IoIdle =>
      s ← sessions c !! k;
      match stage s with
      | Queued op ec line =>
          let s := set_stage Handling s in
          Some (if negb (ec =? 0) then set_io (IoErase k false) (put k (set_ec ec s) c)
                else match op with
                     | Read => set_io (IoErase k false) (put k (set_response line s) c)
                     | _ => set_io (IoLock k op) (put k s c)
                     end)
      | _ => None
      end
  | _ => None
  end.

Definition next_op (op : Op) : Op := match op with Connect => Write | _ => Read end.

(** A step of the I/O thread inside a handler. *)
Definition io_step (c : Client) : option Client :=
  match io c with
  | IoIdle => None
  | IoLock k op =>
      s ← sessions c !! k; Some (set_io (IoBody k op) (put k (set_held true s) c))
  | IoBody k op =>
      s ← sessions c !! k;
      Some (if m_was_cancelled s then set_io (IoErase k true) c
            else set_io IoIdle (put k (set_held false (set_stage (Waiting (next_op op)) s)) c))
  | IoErase k held =>
      s ← sessions c !! k;
      match guard c with
      | Some _ => None
      | None => Some (set_io (IoReport k held) (set_active (delete (m_id s) (m_active_sessions c)) c))
      end
  | IoReport k held =>
      s ← sessions c !! k;
      let ec := if (m_ec s =? 0) && m_was_cancelled s then operation_aborted else m_ec s in
      Some (set_io IoIdle (put k (set_held false (set_stage Finished s))
             (add_report (k, m_id s, m_response s, ec) c)))
  end.

Inductive Event :=
| EOpen (u : nat) (id : Z) (request : string) | EConnect (u : nat)
| ECancel (u : nat) (id : Z) | ECancelDo (u : nat)
| EComplete (k : nat) (ec : Z) (line : string) | EDispatch (k : nat) | EIo.

Definition react (e : Event) (c : Client) : option Client :=
  match e with
  | EOpen u id request => open_session u id request c
  | EConnect u => async_connect u c
  | ECancel u id => cancel_find u id c
  | ECancelDo u => cancel_do u c
  | EComplete k ec line => complete k ec line c
  | EDispatch k => dispatch k c
  | EIo => io_step c
  end.
Fixpoint reacts (es : list Event) (c : Client) : option Client :=
  match es with [] => Some c | e :: es => c ← react e c; reacts es c end.

Definition step (c c' : Client) : Prop := ∃ e, react e c = Some c'.

Lemma reacts_reachable n es c : reacts es (init n) = Some c → reachable (eq (init n)) step c.
Proof.
  intros H. exists (init n). split; [done|]. revert H. generalize (init n).
  induction es as [|e es IH]; intros c0 H; simpl in H; [by simplify_eq|].
  destruct (react e c0) as [c1|] eqn:He; [|done]. eapply rtc_l; [by exists e|]. by apply IH.
Qed.

(** * The invariant *)

Definition finished (s : Session) : bool := match stage s with Finished => true | _ => false end.
Definition reported (k : nat) (rs : list (nat * Z * string * Z)) : nat :=
  length (filter (λ r, r.1.1.1 = k) rs).
Definition io_session (p : Io) : option nat :=
  match p with IoIdle => None | IoLock k _ | IoBody k _ | IoErase k _ | IoReport k _ => Some k end.
Definition reporting (p : Io) (k : nat) : bool :=
  match p with IoReport k' _ => bool_decide (k = k') | _ => false end.

(** Each callback is called once, at the end. *)
Definition once (ss : gmap nat Session) (rs : list (nat * Z * string * Z)) : Prop :=
  ∀ k, reported k rs = match ss !! k with Some s => if finished s then 1%nat else 0%nat | None => 0%nat end.
(** No report of a cancelled session says that it succeeded. *)
Definition honest (ss : gmap nat Session) (rs : list (nat * Z * string * Z)) : Prop :=
  ∀ k id line ec s, (k, id, line, ec) ∈ rs → ss !! k = Some s → m_was_cancelled s = true → ec ≠ 0.
Definition io_ok (ss : gmap nat Session) (p : Io) : Prop :=
  ∀ k, io_session p = Some k → ∃ s, ss !! k = Some s ∧ stage s = Handling.
Definition connect_ok (ss : gmap nat Session) (us : list User) : Prop :=
  (∀ u k, us !! u = Some (UConnect k) → ∃ s, ss !! k = Some s ∧ stage s = Created) ∧
  (∀ u v k, us !! u = Some (UConnect k) → us !! v = Some (UConnect k) → u = v).
(** A session found in the map has not been reported, and will not be before it is
    erased. *)
Definition active_ok (ss : gmap nat Session) (m : gmap Z nat) (p : Io) : Prop :=
  ∀ id k, m !! id = Some k →
    ∃ s, ss !! k = Some s ∧ m_id s = id ∧ finished s = false ∧ reporting p k = false.
Definition hold_ok (us : list User) (g : option nat) (m : gmap Z nat) : Prop :=
  ∀ u k, us !! u = Some (UHold k) → g = Some u ∧ ∃ id, m !! id = Some k.

Record client_ok (c : Client) : Prop := {
  co_once : once (sessions c) (reports c);
  co_honest : honest (sessions c) (reports c);
  co_io : io_ok (sessions c) (io c);
  co_connect : connect_ok (sessions c) (users c);
  co_active : active_ok (sessions c) (m_active_sessions c) (io c);
  co_hold : hold_ok (users c) (guard c) (m_active_sessions c)
}.

Lemma init_client_ok n : client_ok (init n).
Proof.
  assert (∀ u p, replicate n UIdle !! u = Some p → p = UIdle) as Hu
    by (intros u p ?%lookup_replicate; naive_solver).
  constructor; simpl.
  - intros k. by rewrite lookup_empty.
  - intros k id line ec s. by intros ?%not_elem_of_nil.
  - by intros k.
  - split; intros u; [intros k Hk|intros v k Hk]; by apply Hu in Hk.
  - intros id k. by rewrite lookup_empty.
  - intros u k Hk. by apply Hu in Hk.
Qed.

(** Reports exist only of finished sessions. *)
Lemma reported_finished ss rs k id line ec s :
  once ss rs → (k, id, line, ec) ∈ rs → ss !! k = Some s → finished s = true.
Proof.
  intros Ho Hin Hk. specialize (Ho k). rewrite Hk in Ho. destruct (finished s); [done|].
  assert ((k, id, line, ec) ∈ filter (λ r, r.1.1.1 = k) rs) as Hf by (by apply list_elem_of_filter).
  unfold reported in Ho. destruct (filter _ rs); [by apply not_elem_of_nil in Hf|done].
Qed.

(** Changing a session that stays unfinished: what has to be seen to is the I/O thread
    and the users. *)
Section update.
Context (ss : gmap nat Session) (k : nat) (s s' : Session).
Hypothesis Hk : ss !! k = Some s.
Hypothesis Hfin : finished s = false ∧ finished s' = false.

Lemma once_update rs : once ss rs → once (<[k := s']> ss) rs.
Proof using Hk Hfin.
  intros Ho j. rewrite Ho. destruct (decide (j = k)) as [->|]; [|by rewrite lookup_insert_ne].
  rewrite Hk, lookup_insert_eq. by destruct Hfin as [-> ->].
Qed.

Lemma honest_update rs : once ss rs → honest ss rs → honest (<[k := s']> ss) rs.
Proof using Hk Hfin.
  intros Ho Hh j id line ec t Hin. destruct (decide (j = k)) as [->|].
  - pose proof (reported_finished ss rs k id line ec s Ho Hin Hk). destruct Hfin. congruence.
  - rewrite lookup_insert_ne by done. by apply (Hh j id line ec t).
Qed.

Lemma active_update m p : m_id s' = m_id s → active_ok ss m p → active_ok (<[k := s']> ss) m p.
Proof using Hk Hfin.
  intros Hid Ha id j Hj. destruct (Ha id j Hj) as (t & Ht & ? & ? & ?).
  destruct (decide (j = k)) as [->|]; [|exists t; by rewrite lookup_insert_ne].
  exists s'. rewrite lookup_insert_eq. destruct Hfin. split_all; [done|congruence|done|done].
Qed.

Lemma io_update p :
  (io_session p = Some k → stage s' = Handling) → io_ok ss p → io_ok (<[k := s']> ss) p.
Proof using.
  intros Hs Hi j Hj. destruct (decide (j = k)) as [->|].
  - exists s'. rewrite lookup_insert_eq. auto.
  - rewrite lookup_insert_ne by done. by apply Hi.
Qed.

Lemma connect_update us :
  (∀ u, us !! u ≠ Some (UConnect k)) → connect_ok ss us → connect_ok (<[k := s']> ss) us.
Proof using.
  intros Hn [Hc Hinj]. split; [|done]. intros u j Hj.
  destruct (decide (j = k)) as [->|]; [by destruct (Hn u)|].
  rewrite lookup_insert_ne by done. by apply (Hc u).
Qed.
End update.

(** Moving a user to a place where it waits for nothing. *)
Lemma connect_idle ss us u : connect_ok ss us → connect_ok ss (<[u := UIdle]> us).
Proof.
  intros [Hc Hinj]. split.
  - intros v k Hv. apply list_lookup_insert_Some in Hv as [(_ & ? & _)|[_ Hv]]; [done|by apply (Hc v)].
  - intros v w k Hv Hw. apply list_lookup_insert_Some in Hv as [(_ & ? & _)|[_ Hv]]; [done|].
    apply list_lookup_insert_Some in Hw as [(_ & ? & _)|[_ Hw]]; [done|by apply (Hinj v w k)].
Qed.

(** A session in another stage than [Created] is not waited for by [async_connect]. *)
Lemma not_connecting ss us k s :
  connect_ok ss us → ss !! k = Some s → stage s ≠ Created → ∀ u, us !! u ≠ Some (UConnect k).
Proof. intros [Hc _] Hk Hs u Hu. destruct (Hc u k Hu) as (? & ? & ?). congruence. Qed.

Lemma io_other ss p k s :
  io_ok ss p → ss !! k = Some s → stage s ≠ Handling → io_session p ≠ Some k.
Proof. intros Hi Hk Hs Hp. destruct (Hi k Hp) as (? & ? & ?). congruence. Qed.

Lemma finished_stage s : stage s ≠ Finished → finished s = false.
Proof. unfold finished. by destruct (stage s). Qed.

Lemma open_ok u id request c c' :
  client_ok c → open_session u id request c = Some c' → client_ok c'.
Proof.
  intros [Ho Hh Hi Hc Ha Hu]. unfold open_session.
  destruct (users c !! u) as [[| |]|] eqn:Eu; try done. destruct (guard c) eqn:Eg; [done|].
  intros [= <-]. set (k := fresh (dom (sessions c))).
  assert (sessions c !! k = None) as Hk by (apply not_elem_of_dom, is_fresh).
  constructor; simpl.
  - intros j. rewrite Ho. destruct (decide (j = k)) as [->|]; [|by rewrite lookup_insert_ne].
    by rewrite Hk, lookup_insert_eq.
  - intros j i line ec s Hin. destruct (decide (j = k)) as [->|].
    + rewrite lookup_insert_eq. by intros [= <-].
    + rewrite lookup_insert_ne by done. by apply (Hh j i line ec s).
  - intros j Hj. destruct (Hi j Hj) as (s & Hs & ?). exists s.
    rewrite lookup_insert_ne by congruence. done.
  - destruct Hc as [Hc Hinj]. split.
    + intros v j Hv. apply list_lookup_insert_Some in Hv as [(-> & [= ->] & _)|[_ Hv]].
      * eexists. by rewrite lookup_insert_eq.
      * destruct (Hc v j Hv) as (s & Hs & ?). exists s. by rewrite lookup_insert_ne by congruence.
    + assert (∀ v, users c !! v ≠ Some (UConnect k)) as Hnew.
      { intros v Hv. destruct (Hc v k Hv) as (? & ? & _). congruence. }
      intros v w j Hv Hw.
      apply list_lookup_insert_Some in Hv as [(? & [= ?] & _)|[? Hv]];
        apply list_lookup_insert_Some in Hw as [(? & [= ?] & _)|[? Hw]]; subst; try done;
        [by destruct (Hnew w)|by destruct (Hnew v)|by apply (Hinj v w j)].
  - intros i j. rewrite lookup_insert_Some. intros [[<- <-]|[Hne Hj]].
    + eexists. rewrite lookup_insert_eq. split_all; [done|done|done|].
      unfold reporting. destruct (io c) eqn:Ep; try done. apply bool_decide_false. intros <-.
      destruct (Hi k) as (? & ? & _); [first [done|by rewrite Ep]|congruence].
    + destruct (Ha i j Hj) as (s & Hs & ?). exists s. by rewrite lookup_insert_ne by congruence.
  - intros v j Hv. apply list_lookup_insert_Some in Hv as [(_ & ? & _)|[_ Hv]]; [done|].
    destruct (Hu v j Hv). congruence.
Qed.

Lemma hold_idle us u g m :
  hold_ok us g m → (∀ k, us !! u ≠ Some (UHold k)) → ∀ p, (∀ k, p ≠ UHold k) →
  hold_ok (<[u := p]> us) g m.
Proof.
  intros Hh _ p Hp v k Hv. apply list_lookup_insert_Some in Hv as [(_ & -> & _)|[_ Hv]].
  - by destruct (Hp k).
  - by apply Hh.
Qed.

Lemma async_connect_ok u c c' : client_ok c → async_connect u c = Some c' → client_ok c'.
Proof.
  intros [Ho Hh Hi Hc Ha Hu]. unfold async_connect.
  destruct (users c !! u) as [[|k|]|] eqn:Eu; try done. pose proof Hc as [Hcr Hinj].
  destruct (Hcr u k Eu) as (s & Hs & Hst). rewrite Hs. intros [= <-].
  assert (finished s = false ∧ finished (set_stage (Waiting Connect) s) = false) as Hfin
    by (split; [apply finished_stage; congruence|done]).
  constructor; simpl.
  - by apply (once_update _ _ s).
  - by apply (honest_update _ _ s).
  - apply io_update; [|done]. intros Hp. by destruct (io_other _ _ _ _ Hi Hs ltac:(congruence)).
  - apply connect_update; [|by apply connect_idle]. intros v Hv.
    apply list_lookup_insert_Some in Hv as [(_ & ? & _)|[Hne Hv]]; [done|]. by apply Hne, (Hinj u v k).
  - by apply (active_update _ _ s).
  - apply hold_idle; [done|by rewrite Eu|done].
Qed.

Lemma cancel_find_ok u id c c' : client_ok c → cancel_find u id c = Some c' → client_ok c'.
Proof.
  intros Hok. pose proof Hok as [Ho Hh Hi [Hc Hinj] Ha Hu]. unfold cancel_find.
  destruct (users c !! u) as [[| |]|] eqn:Eu; try done. destruct (guard c) eqn:Eg; [done|].
  intros [= <-]. destruct (m_active_sessions c !! id) as [k|] eqn:Ek; [|done].
  constructor; simpl; try done.
  - split.
    + intros v j Hv. apply list_lookup_insert_Some in Hv as [(_ & ? & _)|[_ Hv]]; [done|by apply (Hc v)].
    + intros v w j Hv Hw. apply list_lookup_insert_Some in Hv as [(_ & ? & _)|[_ Hv]]; [done|].
      apply list_lookup_insert_Some in Hw as [(_ & ? & _)|[_ Hw]]; [done|by apply (Hinj v w j)].
  - intros v j Hv. apply list_lookup_insert_Some in Hv as [(-> & [= ->] & _)|[_ Hv]]; [eauto|].
    destruct (Hu v j Hv). congruence.
Qed.

Lemma cancel_do_ok u c c' : client_ok c → cancel_do u c = Some c' → client_ok c'.
Proof.
  intros [Ho Hh Hi Hc Ha Hu]. unfold cancel_do.
  destruct (users c !! u) as [[| |k]|] eqn:Eu; try done.
  destruct (Hu u k Eu) as [Hg [id Hid]]. destruct (Ha id k Hid) as (s & Hs & Hids & Hf & Hr).
  rewrite Hs. cbn [mbind option_bind]. destruct (m_cancel_held s); [done|]. intros [= <-].
  assert (finished s = false ∧ finished (cancel s) = false) as Hfin.
  { split; [done|]. unfold finished, cancel in *. simpl. by destruct (stage s). }
  constructor; simpl.
  - by apply (once_update _ _ s).
  - by apply (honest_update _ _ s).
  - apply io_update; [|done]. intros Hp. destruct (Hi k Hp) as (s1 & Hs1 & Hst).
    simplify_eq. unfold cancel. simpl. by rewrite Hst.
  - pose proof (connect_idle _ _ u Hc) as [Hc' Hinj']. split; [|done]. intros v j Hv.
    destruct (Hc' v j Hv) as (t & Ht & Hst). destruct (decide (j = k)) as [->|].
    + exists (cancel s). rewrite lookup_insert_eq. split; [done|]. simplify_eq.
      unfold cancel. simpl. by rewrite Hst.
    + exists t. by rewrite lookup_insert_ne.
  - by apply (active_update _ _ s).
  - intros v j Hv. apply list_lookup_insert_Some in Hv as [(_ & ? & _)|[Hne Hv]]; [done|].
    destruct (Hu v j Hv). congruence.
Qed.

Lemma complete_ok k ec line c c' : client_ok c → complete k ec line c = Some c' → client_ok c'.
Proof.
  intros [Ho Hh Hi Hc Ha Hu]. unfold complete.
  destruct (sessions c !! k) as [s|] eqn:Hs; [|done]. simpl.
  destruct (stage s) eqn:Hst; try done. intros [= <-].
  assert (finished s = false ∧ finished (set_stage (Queued op ec line) s) = false) as Hfin
    by (split; [apply finished_stage; congruence|done]).
  constructor; simpl.
  - by apply (once_update _ _ s).
  - by apply (honest_update _ _ s).
  - apply io_update; [|done]. intros Hp. by destruct (io_other _ _ _ _ Hi Hs ltac:(congruence)).
  - apply connect_update; [|done]. by apply (not_connecting _ _ _ s Hc Hs); congruence.
  - by apply (active_update _ _ s).
  - done.
Qed.

(** The I/O thread goes to a place in the handler of session [k], which it has
    updated. *)
Lemma handler_ok c k s s' p :
  client_ok c → sessions c !! k = Some s → finished s = false → stage s ≠ Created →
  stage s' = Handling → m_id s' = m_id s → (∀ j h, p ≠ IoReport j h) → io_session p = Some k →
  client_ok (set_io p (put k s' c)).
Proof.
  intros [Ho Hh Hi Hc Ha Hu] Hs Hf Hst Hst' Hid Hp Hpk.
  assert (finished s = false ∧ finished s' = false) as Hfin
    by (split; [done|apply finished_stage; congruence]).
  constructor; simpl.
  - by apply (once_update _ _ s).
  - by apply (honest_update _ _ s).
  - intros j Hj. assert (j = k) as -> by congruence. exists s'. by rewrite lookup_insert_eq.
  - apply connect_update; [|done]. by apply (not_connecting _ _ _ s Hc Hs).
  - intros id j Hj. destruct (active_update _ k s s' Hs Hfin _ _ Hid Ha id j Hj) as (t & ? & ? & ? & _).
    exists t. split_all; [done|done|done|]. destruct p; try done. by destruct (Hp k0 held).
  - done.
Qed.

Lemma dispatch_ok k c c' : client_ok c → dispatch k c = Some c' → client_ok c'.
Proof.
  intros Hok. unfold dispatch. destruct (io c); try done.
  destruct (sessions c !! k) as [s|] eqn:Hs; [|done]. simpl.
  destruct (stage s) eqn:Hst; try done. intros [= <-].
  assert (finished s = false) by (apply finished_stage; congruence).
  destruct (ec =? 0); simpl; [|apply (handler_ok c k s); congruence || done].
  destruct op; apply (handler_ok c k s); congruence || done.
Qed.

Lemma reported_app k rs r :
  reported k (rs ++ [r]) = (reported k rs + if decide (r.1.1.1 = k) then 1 else 0)%nat.
Proof.
  unfold reported. rewrite filter_app, length_app, filter_cons. by case_decide.
Qed.

(** Erasing the session and calling its callback. *)
Lemma report_ok k held c c' :
  client_ok c → io c = IoReport k held → io_step c = Some c' → client_ok c'.
Proof.
  intros [Ho Hh Hi Hc Ha Hu] Hio. unfold io_step. rewrite Hio. rewrite Hio in Hi, Ha.
  destruct (Hi k eq_refl) as (s & Hs & Hst). rewrite Hs. cbn [mbind option_bind]. intros [= <-].
  set (s' := set_held false (set_stage Finished s)).
  assert (finished s = false) as Hf by (apply finished_stage; congruence).
  constructor; simpl.
  - intros j. rewrite reported_app, Ho. simpl. destruct (decide (k = j)) as [<-|].
    + by rewrite Hs, lookup_insert_eq, Hf.
    + rewrite lookup_insert_ne by done. by rewrite Nat.add_0_r.
  - intros j id line ec t Hin Ht Hcan. apply elem_of_app in Hin as [Hin|Hin].
    + destruct (decide (j = k)) as [->|]; [|rewrite lookup_insert_ne in Ht by done; by apply (Hh j id line ec t)].
      pose proof (reported_finished _ _ _ _ _ _ s Ho Hin Hs). congruence.
    + apply list_elem_of_singleton in Hin. simplify_eq. rewrite lookup_insert_eq in Ht.
      simplify_eq. simpl in Hcan. rewrite Hcan, andb_true_r.
      destruct (Z.eqb_spec (m_ec s) 0); [done|done].
  - by intros j.
  - apply connect_update; [|done]. by apply (not_connecting _ _ _ s Hc Hs); congruence.
  - intros id j Hj. destruct (Ha id j Hj) as (t & Ht & ? & ? & Hr). simpl in Hr.
    apply bool_decide_eq_false in Hr. exists t. by rewrite lookup_insert_ne by congruence.
  - done.
Qed.

Lemma io_step_ok c c' : client_ok c → io_step c = Some c' → client_ok c'.
Proof.
  intros Hok Hstep. pose proof Hok as [Ho Hh Hi Hc Ha Hu].
  destruct (io c) as [|k op|k op|k held|k held] eqn:Hio;
    [|destruct (Hi k) as (s & Hs & Hst); [first [done|by rewrite Hio]|]..];
    [unfold io_step in Hstep; by rewrite Hio in Hstep| | | |].
  - unfold io_step in Hstep. rewrite Hio, Hs in Hstep. simplify_eq/=.
    apply (handler_ok c k s); try done; first [by apply finished_stage; congruence|congruence].
  - unfold io_step in Hstep. rewrite Hio, Hs in Hstep. simplify_eq/=.
    destruct (m_was_cancelled s).
    + assert (c = put k s c) as -> by (destruct c; unfold put; simpl in *; by rewrite insert_id).
      apply (handler_ok c k s); try done; first [by apply finished_stage; congruence|congruence].
    + assert (finished s = false ∧
        finished (set_held false (set_stage (Waiting (next_op op)) s)) = false) as Hfin
        by (split; [apply finished_stage; congruence|done]).
      constructor; simpl.
      * by apply (once_update _ _ s).
      * by apply (honest_update _ _ s).
      * by intros j.
      * apply connect_update; [|done]. apply (not_connecting _ _ _ s Hc Hs). congruence.
      * apply (active_update _ k s _ Hs Hfin); [done|]. intros id j Hj.
        destruct (Ha id j Hj) as (t & ? & ? & ? & _). by exists t.
      * done.
  - unfold io_step in Hstep. rewrite Hio, Hs in Hstep. cbn [mbind option_bind] in Hstep.
    destruct (guard c) eqn:Hg; [done|]. simplify_eq. constructor; simpl; try done.
    + intros id j [Hne Hj]%lookup_delete_Some. destruct (Ha id j Hj) as (t & ? & ? & ? & _).
      exists t. split_all; [done|done|done|]. simpl. apply bool_decide_false. intros ->. congruence.
    + intros v j Hv. destruct (Hu v j Hv). congruence.
  - by apply (report_ok k held c).
Qed.

Lemma step_client_ok c1 c2 : client_ok c1 → step c1 c2 → client_ok c2.
Proof.
  intros Hok [e He]. destruct e; simpl in He.
  - by apply (open_ok u id request c1).
  - by apply (async_connect_ok u c1).
  - by apply (cancel_find_ok u id c1).
  - by apply (cancel_do_ok u c1).
  - by apply (complete_ok k ec line c1).
  - by apply (dispatch_ok k c1).
  - by apply (io_step_ok c1).
Qed.

Lemma reachable_client_ok n c : reachable (eq (init n)) step c → client_ok c.
Proof. apply invariant_reachable; [intros ? <-; apply init_client_ok|apply step_client_ok]. Qed.

(** * Theorems *)

(** The callback of a request is called exactly once if the session has finished and
    not at all before, whatever the network does and whenever requests are
    cancelled; and no request that was cancelled is ever reported as successful. *)
Theorem callback_once n c :
  reachable (eq (init n)) step c →
  (∀ k s, sessions c !! k = Some s →
     reported k (reports c) = match stage s with Finished => 1%nat | _ => 0%nat end) ∧
  (∀ k id line ec s, (k, id, line, ec) ∈ reports c → sessions c !! k = Some s →
     m_was_cancelled s = true → ec ≠ 0).
Proof.
  intros Hr. apply reachable_client_ok in Hr as [Ho Hh _ _ _ _]. split; [|exact Hh].
  intros k s Hs. rewrite (Ho k), Hs. unfold finished. by destruct (stage s).
Qed.

(** The I/O thread holds the lock of a session and waits for the map's; a user thread
    holds the map's and waits for the session's. *)
Definition locked_up (u k : nat) (c : Client) : Prop :=
  io c = IoErase k true ∧ users c !! u = Some (UHold k) ∧ guard c = Some u ∧
  ∃ s, sessions c !! k = Some s ∧ m_cancel_held s = true ∧ stage s = Handling.

(** Nobody else can change that. *)
Lemma locked_up_step u k c c' : client_ok c → locked_up u k c → step c c' → locked_up u k c'.
Proof.
  intros Hok (Hio & Hu & Hg & s & Hs & Hheld & Hst) [e He].
  assert (∀ v, users c !! v ≠ Some (UConnect k)) as Hnot
    by (apply (not_connecting _ _ _ s (co_connect _ Hok) Hs); congruence).
  destruct e as [v id r|v|v id|v|j ec line|j|]; simpl in He.
  - unfold open_session in He. rewrite Hg in He. by repeat case_match.
  - unfold async_connect in He. destruct (users c !! v) as [[|j|]|] eqn:Ev; try done.
    destruct (sessions c !! j) as [t|] eqn:Ej; [|done]. simplify_eq/=.
    assert (v ≠ u) by congruence. assert (j ≠ k) by (intros ->; by apply (Hnot v)).
    unfold locked_up; split_all; simpl; [done|by rewrite list_lookup_insert_ne|done|].
    exists s. by rewrite lookup_insert_ne.
  - unfold cancel_find in He. rewrite Hg in He. by repeat case_match.
  - unfold cancel_do in He. destruct (users c !! v) as [[| |j]|] eqn:Ev; try done.
    destruct (co_hold _ Hok v j Ev) as [Hgv _]. assert (v = u) as -> by congruence.
    assert (j = k) as -> by congruence. rewrite Hs in He. simpl in He. by rewrite Hheld in He.
  - unfold complete in He. destruct (sessions c !! j) as [t|] eqn:Ej; [|done]. simpl in He.
    destruct (stage t) eqn:Et; try done. simplify_eq. assert (j ≠ k) by congruence.
    unfold locked_up; split_all; simpl; [done|done|done|]. exists s. by rewrite lookup_insert_ne.
  - unfold dispatch in He. by rewrite Hio in He.
  - unfold io_step in He. rewrite Hio, Hs in He. simpl in He. by rewrite Hg in He.
Qed.

(** A request is cancelled when its connection has just been made, and cancelled again
    while the I/O thread is in [onRequestComplete]. *)
Definition deadlock_events : list Event :=
  [EOpen 0 1 "EMULATE_LONG_CALC_OP 10"; EConnect 0; EComplete 0 0 ""; ECancel 0 1; ECancelDo 0;
   EDispatch 0; EIo; EIo; ECancel 0 1].
Definition deadlocked : Client := default (init 1) (reacts deadlock_events (init 1)).

(** The client can deadlock.  [cancelRequest] takes the lock of the map and then
    that of the session; [onRequestComplete], called for a cancelled session with the
    session's lock held, takes that of the map.  Once a second cancellation meets it
    there, both threads wait for ever, whatever happens. *)
Theorem cancel_deadlock :
  ∃ c, reachable (eq (init 1)) step c ∧
    ∀ c', rtc step c c' →
      io c' = IoErase 0 true ∧ users c' !! 0%nat = Some (UHold 0) ∧
      io_step c' = None ∧ cancel_do 0 c' = None.
Proof.
  exists deadlocked.
  assert (reachable (eq (init 1)) step deadlocked) as Hr
    by (apply (reacts_reachable 1 deadlock_events); vm_compute; reflexivity).
  split; [done|]. intros c' Hrtc.
  assert (client_ok c' ∧ locked_up 0 0 c') as [_ (Hio & Hu & Hg & s & Hs & Hheld & _)].
  { assert (client_ok deadlocked ∧ locked_up 0 0 deadlocked) as H0.
    { split; [by apply (reachable_client_ok 1)|]. vm_compute. repeat split. by eexists. }
    clear Hr. revert H0. induction Hrtc as [c|c c1 c2 Hstep _ IH]; intros [Hok Hl]; [done|].
    apply IH. split; [by apply (step_client_ok c)|by apply (locked_up_step 0 0 c)]. }
  split_all; [done|done| |].
  - unfold io_step. rewrite Hio, Hs. simpl. by rewrite Hg.
  - unfold cancel_do. rewrite Hu, Hs. simpl. by rewrite Hheld.
Qed.

(** * Witnesses *)

(** A request that succeeds and one that is cancelled while it waits for its answer. *)
Definition demo_events : list Event :=
  [EOpen 0 1 "EMULATE_LONG_CALC_OP 10"; EConnect 0; EOpen 0 2 "EMULATE_LONG_CALC_OP 11"; EConnect 0;
   EComplete 0 0 ""; EDispatch 0; EIo; EIo; ECancel 0 2; ECancelDo 0; EComplete 0 0 "";
   EDispatch 1; EIo; EIo; EDispatch 0; EIo; EIo; EComplete 0 0 "OK"; EDispatch 0; EIo; EIo].
Definition demo_client : Client := default (init 1) (reacts demo_events (init 1)).

Lemma callback_once_witness :
  reports demo_client = [(1%nat, 2, "", operation_aborted); (0%nat, 1, "OK", 0)]%string ∧
  (∀ k s, sessions demo_client !! k = Some s →
     reported k (reports demo_client) = match stage s with Finished => 1%nat | _ => 0%nat end) ∧
  (∀ k id line ec s, (k, id, line, ec) ∈ reports demo_client → sessions demo_client !! k = Some s →
     m_was_cancelled s = true → ec ≠ 0).
Proof.
  split; [vm_compute; reflexivity|]. apply (callback_once 1).
  apply (reacts_reachable 1 demo_events). vm_compute. reflexivity.
Defined.
