(* ===== verification/Counters.v ===== *)
(** Counters and locks shared by plain threads:
    [src/books/ldxcfwqbc/01_thread_safe_object_management/counter.cpp] (no lock),
    [02_thread_synchronization/thread_safe_counter.cpp] (a shared mutex, and a vector
    without one) and [02_thread_synchronization/scoped_lock.cpp] (two mutexes taken
    together). *)

From S2P Require Import Prelude.

(** The sum of a quantity over the threads, and what updating one thread does to it. *)
Section total.
Context {A : Type} (f : A → nat).

Definition total (l : list A) : nat := sum_list (f <$> l).

Lemma total_insert l i x y : l !! i = Some x → total (<[i := y]> l) + f x = total l + f y.
Proof.
  unfold total. revert i. induction l as [|z l IH]; intros [|i] Hi; simplify_eq/=; [lia|].
  specialize (IH i Hi). lia.
Qed.

Lemma total_replicate n x : total (replicate n x) = n * f x.
Proof. unfold total. rewrite fmap_replicate, sum_list_replicate. lia. Qed.

Lemma total_all_zero l : Forall (λ x, f x = 0) l → total l = 0.
Proof. unfold total. induction 1 as [|x l Hx _ IH]; [done|]. rewrite fmap_cons. simpl. lia. Qed.
End total.

(** * counter.cpp *)

Module Counter.
Local Open Scope Z_scope.

(** A thread in [f]: the calls of [increase] still to make, and the value loaded
    by the one in progress. *)
Record Thread := mk_Thread { todo : nat; loaded : option Z }.
Record State := mk_State { m_value : Z; threads : list Thread }.

Definition init (k n : nat) : State := mk_State 0 (replicate k (mk_Thread n None)).

(** [m_value = m_value + 1] without the lock is a load and a store. *)
Definition load (i : nat) (s : State) : option State :=
  t ← threads s !! i;
  match todo t, loaded t with
  | S _, None => Some (mk_State (m_value s) (<[i := mk_Thread (todo t) (Some (m_value s))]> (threads s)))
  | _, _ => None
  end.
Definition store (i : nat) (s : State) : option State :=
  t ← threads s !! i;
  match todo t, loaded t with
  | S n, Some v => Some (mk_State (v + 1) (<[i := mk_Thread n None]> (threads s)))
  | _, _ => None
  end.
Definition step (s s' : State) : Prop := ∃ i, load i s = Some s' ∨ store i s = Some s'.

Definition done (s : State) : Prop := Forall (λ t, todo t = 0%nat) (threads s).

(** The calls that have been completed bound the counter and what has been loaded. *)
Record counter_ok (k n : nat) (s : State) : Prop := {
  ct_todo : (total todo (threads s) ≤ k * n)%nat;
  ct_value : 0 ≤ m_value s ≤ Z.of_nat (k * n - total todo (threads s));
  ct_loaded i t v : threads s !! i = Some t → loaded t = Some v →
    0 ≤ v ≤ Z.of_nat (k * n - total todo (threads s)) ∧ (0 < todo t)%nat
}.

Lemma init_counter_ok k n : counter_ok k n (init k n).
Proof.
  constructor; simpl; rewrite ?total_replicate; simpl; [lia|lia|].
  intros i t v Ht Hv. apply lookup_replicate in Ht as [-> _]. done.
Qed.

Lemma step_counter_ok k n s s' : counter_ok k n s → step s s' → counter_ok k n s'.
Proof.
  intros [Ht Hv Hl] [i [Hs|Hs]]; [unfold load in Hs|unfold store in Hs];
    destruct (threads s !! i) as [t|] eqn:Hi; try done; simpl in Hs;
    destruct (todo t) as [|m] eqn:Hm; try done; destruct (loaded t) as [v|] eqn:Hlv; try done;
    simplify_eq; simpl.
  - pose proof (total_insert todo (threads s) i t (mk_Thread (S m) (Some (m_value s))) Hi) as He.
    simpl in He. rewrite Hm in He.
    constructor; simpl; [lia|lia|]. intros j u w Hj Hw.
    apply list_lookup_insert_Some in Hj as [(<- & <- & _)|[_ Hj]]; simplify_eq/=; [lia|].
    specialize (Hl j u w Hj Hw). lia.
  - pose proof (total_insert todo (threads s) i t (mk_Thread m None) Hi) as He.
    simpl in He. rewrite Hm in He. destruct (Hl i t v Hi Hlv) as [Hb _].
    constructor; simpl; [lia|lia|]. intros j u w Hj Hw.
    apply list_lookup_insert_Some in Hj as [(<- & <- & _)|[_ Hj]]; simplify_eq/=.
    specialize (Hl j u w Hj Hw). lia.
Qed.

(** [k] threads of [n] calls each leave a counter of at most [k * n]. *)
Lemma counter_at_most k n s :
  reachable (eq (init k n)) step s → 0 ≤ m_value s ≤ Z.of_nat (k * n).
Proof.
  intros Hr. assert (counter_ok k n s) as [? ? _]; [|lia]. revert s Hr.
  apply invariant_reachable; [intros ? <-; apply init_counter_ok|apply step_counter_ok].
Qed.
End Counter.

(** Updates are lost: two threads can both load 0. *)
Lemma counter_loses_updates :
  ∃ s, reachable (eq (Counter.init 2 1)) Counter.step s ∧ Counter.done s ∧ Counter.m_value s = 1%Z.
Proof.
  eexists. split; [|split].
  - exists (Counter.init 2 1). split; [done|].
    eapply rtc_l; [exists 0; left; vm_compute; reflexivity|].
    eapply rtc_l; [exists 1; left; vm_compute; reflexivity|].
    eapply rtc_l; [exists 0; right; vm_compute; reflexivity|].
    eapply rtc_l; [exists 1; right; vm_compute; reflexivity|]. apply rtc_refl.
  - repeat constructor.
  - reflexivity.
Qed.

(** * thread_safe_counter.cpp *)

Module SafeCounter.
Local Open Scope Z_scope.

(** A thread of [increment_and_get]: the rounds left, and where it is in one. *)
Inductive Phase := Increment | Get | Emplace (v : Z) | Emplacing (v : Z).
Record Thread := mk_Thread { rounds : nat; phase : Phase }.
(** [incremented] is history: how often [increment] has run. *)
Record State := mk_State {
  _value : Z;
  vs : list (nat * Z);
  threads : list Thread;
  incremented : nat
}.

Definition init (k n : nat) : State := mk_State 0 [] (replicate k (mk_Thread n Increment)) 0.

(** The methods, each under its lock. *)
Definition increment (v : Z) : Z := u32 (v + 1).
Definition reset (v : Z) : Z := 0.

(** [emplace_back] is not protected; it takes two steps so that two of them can
    overlap. *)
Definition thread_step (i : nat) (s : State) : option State :=
  t ← threads s !! i;
  match rounds t with
  | O => None
  | S n =>
      match phase t with
      | Increment => Some (mk_State (increment (_value s)) (vs s)
          (<[i := mk_Thread (S n) Get]> (threads s)) (S (incremented s)))
      | Get => Some (mk_State (_value s) (vs s)
          (<[i := mk_Thread (S n) (Emplace (_value s))]> (threads s)) (incremented s))
      | Emplace v => Some (mk_State (_value s) (vs s)
          (<[i := mk_Thread (S n) (Emplacing v)]> (threads s)) (incremented s))
      | Emplacing v => Some (mk_State (_value s) (vs s ++ [(i, v)])
          (<[i := mk_Thread n Increment]> (threads s)) (incremented s))
      end
  end.
Definition step (s s' : State) : Prop := ∃ i, thread_step i s = Some s'.

(** Two threads inside [emplace_back] of the same vector. *)
Definition race (s : State) : Prop :=
  ∃ i j t u v w, i ≠ j ∧ threads s !! i = Some t ∧ threads s !! j = Some u ∧
    phase t = Emplacing v ∧ phase u = Emplacing w.

(** The increments a thread has still to make. *)
Definition left_over (t : Thread) : nat :=
  match phase t with Increment => rounds t | _ => rounds t - 1 end.

Record safe_ok (k n : nat) (s : State) : Prop := {
  sf_value : _value s = wrap 32 (Z.of_nat (incremented s));
  sf_count : (incremented s + total left_over (threads s) = k * n)%nat;
  sf_phase i t : threads s !! i = Some t → phase t ≠ Increment → (0 < rounds t)%nat
}.

Lemma step_safe_ok k n s s' : safe_ok k n s → step s s' → safe_ok k n s'.
Proof.
  intros [Hv Hc Hp] [i Hs]. unfold thread_step in Hs.
  destruct (threads s !! i) as [t|] eqn:Hi; [|done]. simpl in Hs.
  destruct (rounds t) as [|m] eqn:Hm; [done|].
  assert (∀ y, total left_over (<[i := y]> (threads s)) + left_over t
               = total left_over (threads s) + left_over y)%nat as Ht
    by (intros y; by apply total_insert).
  assert (∀ y j u, <[i := y]> (threads s) !! j = Some u → phase u ≠ Increment →
    (phase y ≠ Increment → 0 < rounds y)%nat → (0 < rounds u)%nat) as Hph.
  { intros y j u Hj Hu Hy. apply list_lookup_insert_Some in Hj as [(_ & -> & _)|[_ Hj]]; [by apply Hy|].
    by apply (Hp j u). }
  unfold left_over in Ht at 2. rewrite Hm in Ht.
  destruct (phase t) eqn:Hpt; simplify_eq; constructor; simpl;
    try (intros j u Hj Hu; eapply Hph; [exact Hj|exact Hu|simpl; by (lia || intros)]);
    try exact Hv;
    match goal with |- context [<[i := ?y]> (threads s)] => specialize (Ht y); cbn in Ht | _ => idtac end;
    try lia.
  unfold increment, u32. rewrite Hv, wrap_add_l by lia. f_equal. lia.
Qed.

(** No increment is lost: under every interleaving the counter is, modulo 2^32, the
    number of increments made, and [k * n] when [k] threads of [n] rounds are done. *)
Theorem safe_counter_exact k n s :
  reachable (eq (init k n)) step s →
  _value s = wrap 32 (Z.of_nat (incremented s)) ∧
  (Forall (λ t, rounds t = 0%nat) (threads s) → _value s = wrap 32 (Z.of_nat (k * n))).
Proof.
  intros Hr. assert (safe_ok k n s) as [Hv Hc Hp].
  { revert s Hr. apply invariant_reachable; [intros ? <-|apply step_safe_ok].
    constructor; simpl; [done|by rewrite total_replicate|].
    intros i t Ht. by apply lookup_replicate in Ht as [-> _]. }
  split; [done|]. intros Hdone. rewrite Hv. do 2 f_equal.
  assert (total left_over (threads s) = 0%nat) as Hz; [|lia].
  apply total_all_zero. eapply Forall_impl; [exact Hdone|]. intros t Ht.
  simpl in Ht. unfold left_over. destruct (phase t); lia.
Qed.
End SafeCounter.

(** The vector is not protected: the two threads of [main] can be inside
    [emplace_back] at once. *)
Lemma emplace_race :
  ∃ s, reachable (eq (SafeCounter.init 2 3)) SafeCounter.step s ∧ SafeCounter.race s.
Proof.
  eexists. split.
  - exists (SafeCounter.init 2 3). split; [done|].
    do 3 (eapply rtc_l; [exists 0; vm_compute; reflexivity|]).
    do 3 (eapply rtc_l; [exists 1; vm_compute; reflexivity|]). apply rtc_refl.
  - exists 0, 1. eexists _, _, _, _. split; [lia|]. repeat split.
Qed.

(** * scoped_lock.cpp *)

Module ScopedLock.
(** A call of [assign_lunch_partner]: before the locks, behind them, after the first
    and the second [push_back], and after their release. *)
Inductive Phase := Waiting | Locked | Pushed1 | Pushed2 | Released.
#[global] Instance Phase_eq_dec : EqDecision Phase.
Proof. solve_decision. Defined.
Record Task := mk_Task { e1 : nat; e2 : nat; phase : Phase }.

(** The lunch partners of each employee, and the threads. *)
Record State := mk_State { lunch_partners : gmap nat (list nat); tasks : list Task }.

Definition partners (s : State) (e : nat) : list nat := default [] (lunch_partners s !! e).
Definition init (ps : list (nat * nat)) : State :=
  mk_State ∅ ((λ p, mk_Task p.1 p.2 Waiting) <$> ps).

(** The mutexes a task holds. *)
Definition holds (t : Task) (e : nat) : bool :=
  match phase t with
  | Waiting | Released => false
  | _ => bool_decide (e = e1 t ∨ e = e2 t)
  end.
Definition free (s : State) (e : nat) : bool := forallb (λ t, negb (holds t e)) (tasks s).

Definition add_partner (e p : nat) (s : State) : gmap nat (list nat) :=
  <[e := partners s e ++ [p]]> (lunch_partners s).

(** [std::scoped_lock lock (e1.m, e2.m)] gets both mutexes when both are free and
    keeps neither while it waits; locking one mutex twice is undefined. *)
Definition task_step (i : nat) (s : State) : option State :=
  t ← tasks s !! i;
  let move ph m := Some (mk_State m (<[i := mk_Task (e1 t) (e2 t) ph]> (tasks s))) in
  match phase t with
  | Waiting =>
      if bool_decide (e1 t = e2 t) then None
      else if free s (e1 t) && free s (e2 t) then move Locked (lunch_partners s) else None
  | Locked => move Pushed1 (add_partner (e1 t) (e2 t) s)
  | Pushed1 => move Pushed2 (add_partner (e2 t) (e1 t) s)
  | Pushed2 => move Released (lunch_partners s)
  | Released => None
  end.
Definition step (s s' : State) : Prop := ∃ i, task_step i s = Some s'.

(** What a task has added to the partners of [e]. *)
Definition contribution (e : nat) (t : Task) : list nat :=
  match phase t with
  | Waiting | Locked => []
  | Pushed1 => if decide (e = e1 t) then [e2 t] else []
  | Pushed2 | Released =>
      (if decide (e = e1 t) then [e2 t] else []) ++ (if decide (e = e2 t) then [e1 t] else [])
  end.
Definition contributions (e : nat) (l : list Task) : list nat := l ≫= contribution e.

(** Two tasks never hold the same mutex; the lists are what the tasks added. *)
Record lunch_ok (ps : list (nat * nat)) (s : State) : Prop := {
  ln_pairs : (λ t, (e1 t, e2 t)) <$> tasks s = ps;
  ln_excl i j t u e : tasks s !! i = Some t → tasks s !! j = Some u →
    holds t e = true → holds u e = true → i = j;
  ln_partners e : partners s e ≡ₚ contributions e (tasks s)
}.

Lemma contributions_insert e l i t u :
  l !! i = Some t → contributions e (<[i := u]> l) ++ contribution e t
                    ≡ₚ contributions e l ++ contribution e u.
Proof.
  unfold contributions. revert i. induction l as [|v l IH]; intros [|i] Hi; simplify_eq/=.
  - rewrite <- !app_assoc. rewrite (Permutation_app_comm (l ≫= _)), (Permutation_app_comm (l ≫= _)).
    rewrite !app_assoc. f_equiv. apply Permutation_app_comm.
  - rewrite <- !app_assoc. f_equiv. by apply IH.
Qed.

Lemma partners_add s e p d :
  default [] (add_partner e p s !! d) = partners s d ++ (if decide (d = e) then [p] else []).
Proof.
  unfold add_partner, partners. case_decide as Hd.
  - subst. by rewrite lookup_insert_eq.
  - by rewrite lookup_insert_ne, app_nil_r by done.
Qed.

Lemma free_spec s e : free s e = true ↔ ∀ t, t ∈ tasks s → holds t e = false.
Proof.
  unfold free. rewrite forallb_forall. setoid_rewrite list_elem_of_In.
  split; intros H t Ht; specialize (H t Ht); by destruct (holds t e).
Qed.

(** A task that moves on holding no more than before. *)
Lemma excl_keep s i t u :
  (∀ i j t u e, tasks s !! i = Some t → tasks s !! j = Some u →
     holds t e = true → holds u e = true → i = j) →
  tasks s !! i = Some t → (∀ e, holds u e = true → holds t e = true) →
  ∀ j k v w e, <[i := u]> (tasks s) !! j = Some v → <[i := u]> (tasks s) !! k = Some w →
    holds v e = true → holds w e = true → j = k.
Proof.
  intros Hex Hi Hle j k v w e Hj Hk Hv Hw.
  apply list_lookup_insert_Some in Hj as [(-> & -> & _)|[? Hj]];
    apply list_lookup_insert_Some in Hk as [(-> & -> & _)|[? Hk]]; [done|..].
  - apply (Hex _ _ t w e); auto.
  - apply (Hex _ _ v t e); auto.
  - by apply (Hex _ _ v w e).
Qed.

Lemma step_lunch_ok ps s s' : Forall (λ p, p.1 ≠ p.2) ps → lunch_ok ps s → step s s' → lunch_ok ps s'.
Proof.
  intros Hne [Hp Hex Hc] [i Hs]. unfold task_step in Hs.
  destruct (tasks s !! i) as [t|] eqn:Hi; [|done]. simpl in Hs.
  assert (∀ ph, (λ t, (e1 t, e2 t)) <$> <[i := mk_Task (e1 t) (e2 t) ph]> (tasks s) = ps) as Hpairs.
  { intros ph. rewrite list_fmap_insert. simpl. rewrite list_insert_id; [done|].
    by rewrite list_lookup_fmap, Hi. }
  pose proof (λ e ph, contributions_insert e _ i t (mk_Task (e1 t) (e2 t) ph) Hi) as Hins.
  destruct (phase t) eqn:Hph.
  - case_bool_decide as Hd; [done|]. destruct (_ && _) eqn:Hf; [|done]. simplify_eq.
    apply andb_true_iff in Hf as [Hf1 Hf2]. constructor; simpl; [apply Hpairs| |].
    + rewrite free_spec in Hf1, Hf2.
      assert (∀ j w e, tasks s !! j = Some w → holds w e = true →
        holds (mk_Task (e1 t) (e2 t) Locked) e = true → False) as Hno.
      { intros j w e Hj Hw Hh. apply list_elem_of_lookup_2 in Hj. unfold holds in Hh. simpl in Hh.
        apply bool_decide_eq_true in Hh as [Hh|Hh]; rewrite Hh in Hw; [specialize (Hf1 w Hj)|specialize (Hf2 w Hj)]; congruence. }
      intros j k v w e Hj Hk Hv Hw.
      apply list_lookup_insert_Some in Hj as [(<- & <- & _)|[? Hj]];
        apply list_lookup_insert_Some in Hk as [(<- & <- & _)|[? Hk]]; [done|..].
      * by destruct (Hno k w e).
      * by destruct (Hno j v e).
      * by apply (Hex j k v w e).
    + intros e. specialize (Hins e Locked). unfold contribution in Hins.
      rewrite Hph in Hins. simpl in Hins. rewrite !app_nil_r in Hins. rewrite Hins. exact (Hc e).
  - simplify_eq. constructor; simpl; [apply Hpairs| |].
    + apply (excl_keep s i t); [done|done|]. intros e. unfold holds. by rewrite Hph.
    + intros e. specialize (Hins e Pushed1). unfold contribution in Hins.
      rewrite Hph in Hins. simpl in Hins. rewrite app_nil_r in Hins.
      unfold partners at 1. simpl. by rewrite partners_add, Hc, Hins.
  - simplify_eq. constructor; simpl; [apply Hpairs| |].
    + apply (excl_keep s i t); [done|done|]. intros e. unfold holds. by rewrite Hph.
    + intros e. specialize (Hins e Pushed2). unfold contribution in Hins.
      rewrite Hph in Hins. simpl in Hins.
      unfold partners at 1. simpl. rewrite partners_add, Hc.
      apply (Permutation_app_inv_r (if decide (e = e1 t) then [e2 t] else [])).
      rewrite Hins, <- app_assoc. f_equiv. apply Permutation_app_comm.
  - simplify_eq. constructor; simpl; [apply Hpairs| |].
    + apply (excl_keep s i t); [done|done|]. intros e. unfold holds. simpl. done.
    + intros e. specialize (Hins e Released). unfold contribution in Hins.
      rewrite Hph in Hins. simpl in Hins. unfold partners at 1. simpl. fold (partners s e).
      rewrite Hc. by apply Permutation_app_inv_r in Hins.
  - done.
Qed.

(** The partners the calls [ps] give to [e]. *)
Definition assigned (e : nat) (ps : list (nat * nat)) : list nat :=
  ps ≫= λ p, (if decide (e = p.1) then [p.2] else []) ++ (if decide (e = p.2) then [p.1] else []).

Lemma assigned_contributions e l :
  Forall (λ t, phase t = Released) l →
  contributions e l = assigned e ((λ t, (e1 t, e2 t)) <$> l).
Proof.
  unfold contributions, assigned. induction 1 as [|t l Ht _ IH]; [done|].
  rewrite fmap_cons, !bind_cons, IH. unfold contribution. by rewrite Ht.
Qed.

(** Somebody can always go on: whoever holds mutexes, or else whoever waits. *)
Lemma progress ps s :
  Forall (λ p, p.1 ≠ p.2) ps → lunch_ok ps s →
  ¬ Forall (λ t, phase t = Released) (tasks s) → ∃ i s', task_step i s = Some s'.
Proof.
  intros Hne [Hp _ _] Hn.
  destruct (decide (Exists (λ t, phase t ≠ Released ∧ phase t ≠ Waiting) (tasks s))) as [He|He].
  - apply Exists_exists in He as (t & [i Hi]%list_elem_of_lookup & Hr & Hw).
    exists i. unfold task_step. rewrite Hi. simpl. destruct (phase t); by eauto.
  - assert (∀ t e, t ∈ tasks s → holds t e = false) as Hfree.
    { intros t e Ht. unfold holds. destruct (phase t) eqn:Hph; try done; destruct He;
        apply Exists_exists; exists t; by rewrite Hph. }
    apply not_Forall_Exists in Hn; [|intros ?; apply _].
    apply Exists_exists in Hn as (t & Ht & Hr). pose proof Ht as [i Hi]%list_elem_of_lookup.
    assert (phase t = Waiting) as Hph.
    { apply dec_stable. intros Hw. apply He, Exists_exists. by exists t. }
    exists i. unfold task_step. rewrite Hi. simpl. rewrite Hph.
    assert (e1 t ≠ e2 t) as Hd.
    { rewrite Forall_forall in Hne. apply (Hne (e1 t, e2 t)). rewrite <- Hp.
      by apply (list_elem_of_fmap_2 (λ t, (e1 t, e2 t))). }
    rewrite bool_decide_false by done.
    rewrite !(proj2 (free_spec s _)) by (intros u Hu; by apply Hfree). simpl. eauto.
Qed.

(** Any number of concurrent calls for pairs of different employees never deadlock:
    as long as one has not finished, one can take a step; no two of them modify an
    employee at once; and when all have finished everybody has exactly the partners
    assigned, each as often as assigned. *)
Theorem lunch_complete ps s :
  Forall (λ p, p.1 ≠ p.2) ps → reachable (eq (init ps)) step s →
  (¬ Forall (λ t, phase t = Released) (tasks s) → ∃ i s', task_step i s = Some s') ∧
  (∀ i j t u e, tasks s !! i = Some t → tasks s !! j = Some u →
     holds t e = true → holds u e = true → i = j) ∧
  (Forall (λ t, phase t = Released) (tasks s) → ∀ e, partners s e ≡ₚ assigned e ps).
Proof.
  intros Hne Hr. assert (lunch_ok ps s) as [Hp Hex Hc].
  { revert s Hr. apply invariant_reachable; [intros ? <-|by intros ? ?; apply step_lunch_ok].
    constructor; simpl.
    - clear Hne. induction ps as [|[a b] ps IH]; [done|]. by rewrite !fmap_cons, IH.
    - intros i j t u e. rewrite list_lookup_fmap. destruct (ps !! i); [|done]. by intros [= <-].
    - intros e. unfold partners. simpl. rewrite lookup_empty. simpl. clear Hne.
      induction ps as [|p ps IH]; [done|]. by rewrite fmap_cons. }
  split; [|split; [done|]].
  - apply (progress ps); [done|by constructor].
  - intros Hdone e. by rewrite Hc, (assigned_contributions e _ Hdone), Hp.
Qed.
End ScopedLock.

(** * Witnesses *)

Lemma safe_counter_witness :
  SafeCounter._value (SafeCounter.init 2 3) = wrap 32 0 ∧
  (Forall (λ t, SafeCounter.rounds t = 0) (SafeCounter.threads (SafeCounter.init 2 3)) →
   SafeCounter._value (SafeCounter.init 2 3) = wrap 32 6).
Proof. apply (SafeCounter.safe_counter_exact 2 3). apply reachable_init. reflexivity. Defined.

(** Alice, Bob, Christina and Dave are 0 to 3. *)
Definition lunch_pairs : list (nat * nat) := [(0, 1); (2, 1); (2, 0); (3, 1)].

Lemma lunch_witness :
  ScopedLock.assigned 1 lunch_pairs = [0; 2; 3] ∧
  (¬ Forall (λ t, ScopedLock.phase t = ScopedLock.Released)
       (ScopedLock.tasks (ScopedLock.init lunch_pairs)) →
   ∃ i s', ScopedLock.task_step i (ScopedLock.init lunch_pairs) = Some s').
Proof.
  split; [reflexivity|].
  apply (ScopedLock.lunch_complete lunch_pairs).
  - repeat constructor; discriminate.
  - apply reachable_init. reflexivity.
Defined.
