(* ===== verification/AsyncTcpPool.v ===== *)
(** The asynchronous client with a pool of I/O threads,
    [src/boost/boost_asio/socket/dummy_application/async_tcp_client_threaded.cpp].

    Sessions, their operations and the user threads are those of [AsyncTcpClient].
    Here any thread of the pool may run the handler of any completed operation.  A
    handler starts the next operation while it still holds the lock of the session, so
    that the next handler can meet the lock on another thread; [close] gives up the
    work object and joins the pool. *)

From S2P Require Import Prelude Counters AsyncTcpClient.

Local Open Scope Z_scope.

(** * The program *)

(** Where a thread of the pool is: in [m_ios.run], before or behind the lock of a
    session in a handler, behind the start of the next operation with the lock to be
    released, in [onRequestComplete] before the erasure and before the callback (called
    with the lock [held] or not), or behind [m_ios.run]. *)
Inductive Thread :=
| TRun | TLock (k : nat) (op : Op) | TBody (k : nat) (op : Op) | TUnlock (k : nat)
| TErase (k : nat) (held : bool) | TReport (k : nat) (held : bool) | TExit.

(** [m_work] says that the work object exists, [stopped] that the service has run out
    of work. *)
Record Pool := mk_Pool {
  p_sessions : gmap nat Session;
  p_active_sessions : gmap Z nat;
  p_guard : option nat;
  p_users : list User;
  m_threads : list Thread;
  m_work : bool;
  stopped : bool;
  p_reports : list (nat * Z * string * Z)
}.

(** The constructor starts the threads of the pool. *)
Definition AsyncTCPClient_init (num_of_threads users : nat) : Pool :=
  mk_Pool ∅ ∅ None (replicate users UIdle) (replicate num_of_threads TRun) true false [].

(** ** Updates *)

Definition p_put (k : nat) (s : Session) (c : Pool) : Pool :=
  mk_Pool (<[k := s]> (p_sessions c)) (p_active_sessions c) (p_guard c) (p_users c) (m_threads c)
    (m_work c) (stopped c) (p_reports c).
Definition p_set_user (u : nat) (p : User) (c : Pool) : Pool :=
  mk_Pool (p_sessions c) (p_active_sessions c) (p_guard c) (<[u := p]> (p_users c)) (m_threads c)
    (m_work c) (stopped c) (p_reports c).
Definition p_set_guard (g : option nat) (c : Pool) : Pool :=
  mk_Pool (p_sessions c) (p_active_sessions c) g (p_users c) (m_threads c)
    (m_work c) (stopped c) (p_reports c).
Definition p_set_active (m : gmap Z nat) (c : Pool) : Pool :=
  mk_Pool (p_sessions c) m (p_guard c) (p_users c) (m_threads c)
    (m_work c) (stopped c) (p_reports c).
Definition set_thread (t : nat) (p : Thread) (c : Pool) : Pool :=
  mk_Pool (p_sessions c) (p_active_sessions c) (p_guard c) (p_users c) (<[t := p]> (m_threads c))
    (m_work c) (stopped c) (p_reports c).
Definition set_service (work stop : bool) (c : Pool) : Pool :=
  mk_Pool (p_sessions c) (p_active_sessions c) (p_guard c) (p_users c) (m_threads c)
    work stop (p_reports c).
Definition p_add_report (r : nat * Z * string * Z) (c : Pool) : Pool :=
  mk_Pool (p_sessions c) (p_active_sessions c) (p_guard c) (p_users c) (m_threads c)
    (m_work c) (stopped c) (p_reports c ++ [r]).

(** ** The user threads *)

(** [emulateLongComputationOp]: the new session is entered under the lock of the map;
    then its connection is started. *)
Definition p_open_session (u : nat) (id : Z) (request : string) (c : Pool) : option Pool :=
  match p_users c !! u, p_guard c with
  | Some UIdle, None =>
      let k := fresh (dom (p_sessions c)) in
      Some (p_set_user u (UConnect k)
             (p_set_active (<[id := k]> (p_active_sessions c)) (p_put k (Session_init id request) c)))
  | _, _ => None
  end.
Definition p_async_connect (u : nat) (c : Pool) : option Pool :=
  match p_users c !! u with
  | Some (UConnect k) =>
      s ← p_sessions c !! k; Some (p_set_user u UIdle (p_put k (set_stage (Waiting Connect) s) c))
  | _ => None
  end.

(** [cancelRequest]: the session is found under the lock of the map, which is kept while
    the thread waits for that of the session. *)
Definition p_cancel_find (u : nat) (id : Z) (c : Pool) : option Pool :=
  match p_users c !! u, p_guard c with
  | Some UIdle, None =>
      Some match p_active_sessions c !! id with
           | Some k => p_set_user u (UHold k) (p_set_guard (Some u) c)
           | None => c
           end
  | _, _ => None
  end.
Definition p_cancel_do (u : nat) (c : Pool) : option Pool :=
  match p_users c !! u with
  | Some (UHold k) =>
      s ← p_sessions c !! k;
      if m_cancel_held s then None
      else Some (p_set_user u UIdle (p_set_guard None (p_put k (cancel s) c)))
  | _ => None
  end.

(** [close] resets the work object; it returns when every thread of the pool has been
    joined. *)
Definition p_close (c : Pool) : option Pool := Some (set_service false (stopped c) c).
Definition joined (c : Pool) : bool :=
  negb (m_work c) && forallb (λ p, match p with TExit => true | _ => false end) (m_threads c).

(** ** The pool *)

(** The network completes the operation in progress. *)
Definition p_complete (k : nat) (ec : Z) (line : string) (c : Pool) : option Pool :=
  s ← p_sessions c !! k;
  match stage s with
  | Waiting op => Some (p_put k (set_stage (Queued op ec line) s) c)
  | _ => None
  end.

(** Thread [t] calls the handler of a completed operation. *)
Definition p_dispatch (t k : nat) (c : Pool) : option Pool :=
  match m_threads c !! t with
  | Some TRun =>
      if stopped c then None else
      s ← p_sessions c !! k;
      match stage s with
      | Queued op ec line =>
          let s := set_stage Handling s in
          Some (if negb (ec =? 0) then set_thread t (TErase k false) (p_put k (set_ec ec s) c)
                else match op with
                     | Read => set_thread t (TErase k false) (p_put k (set_response line s) c)
                     | _ => set_thread t (TLock k op) (p_put k s c)
                     end)
      | _ => None
      end
  | _ => None
  end.

(** [async_write] and [async_read_until], called with the lock held. *)
Definition start_next (t k : nat) (op : Op) (s : Session) (c : Pool) : Pool :=
  set_thread t (TUnlock k) (p_put k (set_stage (Waiting (next_op op)) s) c).

(** [onRequestComplete]: the erasure under the lock of the map, then the callback; the
    caller's lock, if it has it, is released behind the return. *)
Definition onRequestComplete_erase (t k : nat) (held : bool) (s : Session) (c : Pool) : option Pool :=
  match p_guard c with
  | Some _ => None
  | None => Some (set_thread t (TReport k held)
                   (p_set_active (delete (m_id s) (p_active_sessions c)) c))
  end.
Definition onRequestComplete_report (t k : nat) (held : bool) (s : Session) (c : Pool) : Pool :=
  let ec := if (m_ec s =? 0) && m_was_cancelled s then operation_aborted else m_ec s in
  set_thread t (if held then TUnlock k else TRun)
    (p_put k (set_stage Finished s) (p_add_report (k, m_id s, m_response s, ec) c)).

(** A step of thread [t] inside a handler. *)
Definition thread_step (t : nat) (c : Pool) : option Pool :=
  match m_threads c !! t with
  | Some (TLock k op) =>
      s ← p_sessions c !! k;
      if m_cancel_held s then None
      else Some (set_thread t (TBody k op) (p_put k (set_held true s) c))
  | Some (TBody k op) =>
      s ← p_sessions c !! k;
      Some (if m_was_cancelled s then set_thread t (TErase k true) c else start_next t k op s c)
  | Some (TUnlock k) =>
      s ← p_sessions c !! k; Some (set_thread t TRun (p_put k (set_held false s) c))
  | Some (TErase k held) => s ← p_sessions c !! k; onRequestComplete_erase t k held s c
  | Some (TReport k held) => s ← p_sessions c !! k; Some (onRequestComplete_report t k held s c)
  | _ => None
  end.

(** [m_ios.run] returns when there is no work: no work object, no operation in progress
    or completed, and no handler running. *)
Definition idle_thread (p : Thread) : bool := match p with TRun | TExit => true | _ => false end.
Definition no_operation (s : Session) : bool :=
  match stage s with Waiting _ | Queued _ _ _ => false | _ => true end.
Definition out_of_work (c : Pool) : bool :=
  negb (m_work c) && forallb idle_thread (m_threads c) &&
  forallb (λ ks, no_operation ks.2) (map_to_list (p_sessions c)).
Definition run_returns (t : nat) (c : Pool) : option Pool :=
  match m_threads c !! t with
  | Some TRun =>
      if stopped c || out_of_work c then Some (set_thread t TExit (set_service (m_work c) true c))
      else None
  | _ => None
  end.

Inductive PoolEvent :=
| POpen (u : nat) (id : Z) (request : string) | PConnect (u : nat)
| PCancel (u : nat) (id : Z) | PCancelDo (u : nat) | PClose
| PComplete (k : nat) (ec : Z) (line : string) | PDispatch (t k : nat) | PThread (t : nat)
| PReturn (t : nat).

Definition pool_react (e : PoolEvent) (c : Pool) : option Pool :=
  match e with
  | POpen u id request => p_open_session u id request c
  | PConnect u => p_async_connect u c
  | PCancel u id => p_cancel_find u id c
  | PCancelDo u => p_cancel_do u c
  | PClose => p_close c
  | PComplete k ec line => p_complete k ec line c
  | PDispatch t k => p_dispatch t k c
  | PThread t => thread_step t c
  | PReturn t => run_returns t c
  end.
Fixpoint pool_reacts (es : list PoolEvent) (c : Pool) : option Pool :=
  match es with [] => Some c | e :: es => c ← pool_react e c; pool_reacts es c end.

Definition pool_step (c c' : Pool) : Prop := ∃ e, pool_react e c = Some c'.

Lemma pool_reacts_reachable n m es c :
  pool_reacts es (AsyncTCPClient_init n m) = Some c → reachable (eq (AsyncTCPClient_init n m)) pool_step c.
Proof.
  intros H. eexists. split; [done|]. revert H. generalize (AsyncTCPClient_init n m).
  induction es as [|e es IH]; intros c0 H; simpl in H; [by simplify_eq|].
  destruct (pool_react e c0) as [c1|] eqn:He; [|done]. eapply rtc_l; [by exists e|]. by apply IH.
Qed.

(** * Threads and what they have *)

(** The session a thread runs a handler of, and the session whose lock it holds. *)
Definition handling (p : Thread) : option nat :=
  match p with TLock k _ | TBody k _ | TErase k _ | TReport k _ => Some k | _ => None end.
Definition holding (p : Thread) : option nat :=
  match p with
  | TBody k _ | TUnlock k | TErase k true | TReport k true => Some k
  | _ => None
  end.
Definition handled (s : Session) : bool := match stage s with Handling => true | _ => false end.

(** The threads at which [f] gives a session are in bijection with the sessions at which
    [g] is true. *)
Record owns (f : Thread → option nat) (g : Session → bool) (ss : gmap nat Session)
    (ts : list Thread) : Prop := {
  owns_true : ∀ t p k, ts !! t = Some p → f p = Some k → ∃ s, ss !! k = Some s ∧ g s = true;
  owns_thread : ∀ k s, ss !! k = Some s → g s = true → ∃ t p, ts !! t = Some p ∧ f p = Some k;
  owns_one : ∀ t t' p p' k, ts !! t = Some p → ts !! t' = Some p' →
    f p = Some k → f p' = Some k → t = t'
}.

Section owns.
Context (f : Thread → option nat) (g : Session → bool).
Context (ss : gmap nat Session) (ts : list Thread).
Hypothesis Ho : owns f g ss ts.

(** Nobody has a session at which [g] is false. *)
Lemma not_owned k : (∀ s, ss !! k = Some s → g s = false) → ∀ t p, ts !! t = Some p → f p ≠ Some k.
Proof using Ho.
  intros Hk t p Ht Hf. destruct (owns_true _ _ _ _ Ho t p k Ht Hf) as (s & Hs & Hg).
  rewrite (Hk s Hs) in Hg. done.
Qed.

Lemma owns_insert k s' :
  g s' = match ss !! k with Some s => g s | None => false end → owns f g (<[k := s']> ss) ts.
Proof using Ho.
  intros Hg. split.
  - intros t p j Ht Hf. destruct (owns_true _ _ _ _ Ho t p j Ht Hf) as (s & Hs & Hgs).
    destruct (decide (j = k)) as [->|]; [|exists s; by rewrite lookup_insert_ne].
    exists s'. rewrite lookup_insert_eq. split; [done|]. by rewrite Hg, Hs.
  - intros j s. destruct (decide (j = k)) as [->|].
    + rewrite lookup_insert_eq. intros [= <-] Ht. rewrite Hg in Ht.
      destruct (ss !! k) as [s|] eqn:Hk; [|done]. by apply (owns_thread _ _ _ _ Ho k s).
    + rewrite lookup_insert_ne by done. by apply (owns_thread _ _ _ _ Ho).
  - apply (owns_one _ _ _ _ Ho).
Qed.

Context (t : nat) (p p' : Thread).
Hypothesis Ht : ts !! t = Some p.

(** The thread moves without taking or giving up anything. *)
Lemma owns_move : f p' = f p → owns f g ss (<[t := p']> ts).
Proof using Ho Ht.
  assert (t < length ts)%nat as Hlen by (by apply lookup_lt_Some in Ht). intros Hf. split.
  - intros u q j [(-> & -> & _)|[_ Hu]]%list_lookup_insert_Some Hq;
      [rewrite Hf in Hq; by apply (owns_true _ _ _ _ Ho _ _ j Ht)|by apply (owns_true _ _ _ _ Ho u q j)].
  - intros j s Hj Hg. destruct (owns_thread _ _ _ _ Ho j s Hj Hg) as (u & q & Hu & Hq).
    destruct (decide (u = t)) as [->|].
    + exists t, p'. rewrite list_lookup_insert_eq by done. split; [done|congruence].
    + exists u, q. by rewrite list_lookup_insert_ne.
  - intros u v q r j [(-> & -> & _)|[? Hu]]%list_lookup_insert_Some
      [(-> & -> & _)|[? Hv]]%list_lookup_insert_Some Hq Hr;
      [done| | |by apply (owns_one _ _ _ _ Ho u v q r j)].
    + rewrite Hf in Hq. by apply (owns_one _ _ _ _ Ho _ v p r j).
    + rewrite Hf in Hr. by apply (owns_one _ _ _ _ Ho u _ q p j).
Qed.

(** The thread takes session [k]. *)
Lemma owns_take k s s' :
  ss !! k = Some s → g s = false → g s' = true → f p = None → f p' = Some k →
  owns f g (<[k := s']> ss) (<[t := p']> ts).
Proof using Ho Ht.
  assert (t < length ts)%nat as Hlen by (by apply lookup_lt_Some in Ht).
  intros Hk Hg Hg' Hp Hp'.
  assert (∀ u q, ts !! u = Some q → f q ≠ Some k) as Hn
    by (apply not_owned; intros; simplify_eq; done). split.
  - intros u q j [(-> & -> & _)|[_ Hu]]%list_lookup_insert_Some Hq.
    + assert (j = k) as -> by congruence. exists s'. by rewrite lookup_insert_eq.
    + assert (j ≠ k) by (intros ->; by apply (Hn u q)). rewrite lookup_insert_ne by done.
      by apply (owns_true _ _ _ _ Ho u q).
  - intros j s0. destruct (decide (j = k)) as [->|].
    + intros _ _. exists t, p'. by rewrite list_lookup_insert_eq.
    + rewrite lookup_insert_ne by done. intros Hj Hgj.
      destruct (owns_thread _ _ _ _ Ho j s0 Hj Hgj) as (u & q & Hu & Hq).
      assert (u ≠ t) by congruence. exists u, q. by rewrite list_lookup_insert_ne.
  - intros u v q r j [(-> & -> & _)|[? Hu]]%list_lookup_insert_Some
      [(-> & -> & _)|[? Hv]]%list_lookup_insert_Some Hq Hr;
      [done| | |by apply (owns_one _ _ _ _ Ho u v q r j)].
    + assert (j = k) as -> by congruence. by destruct (Hn v r).
    + assert (j = k) as -> by congruence. by destruct (Hn u q).
Qed.

(** The thread gives up session [k]. *)
Lemma owns_drop k s' :
  g s' = false → f p = Some k → f p' = None → owns f g (<[k := s']> ss) (<[t := p']> ts).
Proof using Ho Ht.
  intros Hg' Hp Hp'. split.
  - intros u q j [(-> & -> & _)|[Hne Hu]]%list_lookup_insert_Some Hq; [congruence|].
    assert (j ≠ k) by (intros ->; by apply Hne, (owns_one _ _ _ _ Ho t u p q k)).
    rewrite lookup_insert_ne by done. by apply (owns_true _ _ _ _ Ho u q).
  - intros j s0. destruct (decide (j = k)) as [->|].
    + rewrite lookup_insert_eq. intros [= <-] ?. congruence.
    + rewrite lookup_insert_ne by done. intros Hj Hgj.
      destruct (owns_thread _ _ _ _ Ho j s0 Hj Hgj) as (u & q & Hu & Hq).
      assert (u ≠ t) by congruence. exists u, q. by rewrite list_lookup_insert_ne.
  - intros u v q r j [(-> & -> & _)|[? Hu]]%list_lookup_insert_Some
      [(-> & -> & _)|[? Hv]]%list_lookup_insert_Some Hq Hr; [done|congruence|congruence|].
    by apply (owns_one _ _ _ _ Ho u v q r j).
Qed.
End owns.

(** * The invariant *)

(** A session that has not been connected is nobody's. *)
Definition untouched (ss : gmap nat Session) : Prop :=
  ∀ k s, ss !! k = Some s → stage s = Created → m_cancel_held s = false.

Record data_ok (ss : gmap nat Session) (m : gmap Z nat) (us : list User)
    (rs : list (nat * Z * string * Z)) : Prop := {
  da_once : once ss rs;
  da_honest : honest ss rs;
  da_connect : connect_ok ss us;
  da_active : active_ok ss m IoIdle;
  da_untouched : untouched ss
}.
(** A session in the map is not about to be reported, [run] does not return before the
    service has stopped, and a stopped service has no handler running. *)
Record threads_ok (m : gmap Z nat) (ts : list Thread) (stop : bool) : Prop := {
  th_report : ∀ id k t h, m !! id = Some k → ts !! t ≠ Some (TReport k h);
  th_exit : ∀ t, ts !! t = Some TExit → stop = true;
  th_idle : stop = true → ∀ t p, ts !! t = Some p → idle_thread p = true
}.
Record pool_ok (c : Pool) : Prop := {
  po_data : data_ok (p_sessions c) (p_active_sessions c) (p_users c) (p_reports c);
  po_handled : owns handling handled (p_sessions c) (m_threads c);
  po_held : owns holding m_cancel_held (p_sessions c) (m_threads c);
  po_threads : threads_ok (p_active_sessions c) (m_threads c) (stopped c);
  po_hold : hold_ok (p_users c) (p_guard c) (p_active_sessions c)
}.

Lemma init_pool_ok n m : pool_ok (AsyncTCPClient_init n m).
Proof.
  pose proof (init_client_ok m) as [? ? ? ? ? ?].
  assert (∀ t p, replicate n TRun !! t = Some p → p = TRun) as Hn
    by (intros t p ?%lookup_replicate; naive_solver).
  constructor; simpl; [by constructor| | | |done].
  - split; [intros t p k ->%Hn|intros k s; by rewrite lookup_empty|intros t t' p p' k ->%Hn]; done.
  - split; [intros t p k ->%Hn|intros k s; by rewrite lookup_empty|intros t t' p p' k ->%Hn]; done.
  - split; [intros id k t h _ ?%Hn| intros t ?%Hn | intros ?]; done.
Qed.

(** Updates of a session that stays unfinished, and stays connected if it was. *)
Lemma data_update ss m us rs k s s' :
  data_ok ss m us rs → ss !! k = Some s → finished s = false → finished s' = false →
  m_id s' = m_id s → (∀ u, us !! u ≠ Some (UConnect k)) ∨ stage s' = stage s →
  (stage s' = Created → m_cancel_held s' = false) →
  data_ok (<[k := s']> ss) m us rs.
Proof.
  intros [Ho Hh Hc Ha Hu] Hk Hf Hf' Hid Hst Hun.
  assert (finished s = false ∧ finished s' = false) as Hfin by done. constructor.
  - by apply (once_update _ _ s).
  - by apply (honest_update _ _ s).
  - destruct Hst as [Hn|Hst]; [by apply connect_update|]. destruct Hc as [Hc Hinj]. split; [|done].
    intros u j Hj. destruct (Hc u j Hj) as (t & Ht & Hts). destruct (decide (j = k)) as [->|].
    + exists s'. rewrite lookup_insert_eq. split; [done|congruence].
    + exists t. by rewrite lookup_insert_ne.
  - by apply (active_update _ _ s).
  - intros j t. destruct (decide (j = k)) as [->|].
    + rewrite lookup_insert_eq. by intros [= <-].
    + rewrite lookup_insert_ne by done. apply Hu.
Qed.

Lemma data_users ss m us rs u p :
  data_ok ss m us rs → (∀ k, p ≠ UConnect k) → data_ok ss m (<[u := p]> us) rs.
Proof.
  intros [Ho Hh [Hc Hinj] Ha Hu] Hp. constructor; try done. split.
  - intros v k [(_ & ? & _)|[_ Hv]]%list_lookup_insert_Some; [by destruct (Hp k)|by apply (Hc v)].
  - intros v w k [(_ & ? & _)|[_ Hv]]%list_lookup_insert_Some Hw; [by destruct (Hp k)|].
    apply list_lookup_insert_Some in Hw as [(_ & ? & _)|[_ Hw]]; [by destruct (Hp k)|].
    by apply (Hinj v w k).
Qed.

(** ** The user threads *)

Lemma p_open_ok u id request c c' :
  pool_ok c → p_open_session u id request c = Some c' → pool_ok c'.
Proof.
  intros [[Ho Hh Hc Ha Hu] Hd Hl Ht Hw]. unfold p_open_session.
  destruct (p_users c !! u) as [[| |]|] eqn:Eu; try done. destruct (p_guard c) eqn:Eg; [done|].
  intros [= <-]. set (k := fresh (dom (p_sessions c))).
  assert (p_sessions c !! k = None) as Hk by (apply not_elem_of_dom, is_fresh).
  assert (client_ok (mk_Client (p_sessions c) (p_active_sessions c) None (p_users c) IoIdle
            (p_reports c))) as Hok by (constructor; simpl; [done|done|by intros j|done|done|done]).
  eapply (open_ok u id request) in Hok; [|unfold open_session; simpl; by rewrite Eu].
  destruct Hok as [Ho' Hh' _ Hc' Ha' Hw']. constructor; simpl in *.
  - constructor; try done. intros j s. destruct (decide (j = k)) as [->|].
    + rewrite lookup_insert_eq. by intros [= <-].
    + rewrite lookup_insert_ne by done. apply Hu.
  - apply owns_insert; [done|]. by rewrite Hk.
  - apply owns_insert; [done|]. by rewrite Hk.
  - destruct Ht as [Hr He Hi]. split; try done. intros i j t h.
    intros [[<- <-]|[_ Hj]]%lookup_insert_Some; [|by apply (Hr i)]. intros Hp.
    destruct (owns_true _ _ _ _ Hd t _ k Hp eq_refl) as (s & Hs & _). congruence.
  - by rewrite Eg.
Qed.

Lemma p_connect_ok u c c' : pool_ok c → p_async_connect u c = Some c' → pool_ok c'.
Proof.
  intros [Hda Hd Hl Ht Hw]. unfold p_async_connect.
  destruct (p_users c !! u) as [[|k|]|] eqn:Eu; try done.
  pose proof (da_connect _ _ _ _ Hda) as [Hcr Hinj]. destruct (Hcr u k Eu) as (s & Hs & Hst).
  rewrite Hs. intros [= <-]. constructor; simpl; try done.
  - apply (data_update _ _ _ _ k s); try done.
    + by apply data_users.
    + apply finished_stage. congruence.
    + left. intros v [(_ & ? & _)|[Hne Hv]]%list_lookup_insert_Some; [done|]. by apply Hne, (Hinj u v k).
  - apply owns_insert; [done|]. rewrite Hs. unfold handled. by rewrite Hst.
  - apply owns_insert; [done|]. by rewrite Hs.
  - apply hold_idle; [done|by rewrite Eu|done].
Qed.

Lemma p_cancel_find_ok u id c c' : pool_ok c → p_cancel_find u id c = Some c' → pool_ok c'.
Proof.
  intros [Hda Hd Hl Ht Hw]. unfold p_cancel_find.
  destruct (p_users c !! u) as [[| |]|] eqn:Eu; try done. destruct (p_guard c) eqn:Eg; [done|].
  intros [= <-]. destruct (p_active_sessions c !! id) as [k|] eqn:Ek; [|by constructor; rewrite ?Eg].
  constructor; simpl; try done.
  - by apply data_users.
  - intros v j Hv. apply list_lookup_insert_Some in Hv as [(-> & [= ->] & _)|[_ Hv]]; [eauto|].
    destruct (Hw v j Hv). congruence.
Qed.

Lemma p_cancel_do_ok u c c' : pool_ok c → p_cancel_do u c = Some c' → pool_ok c'.
Proof.
  intros [Hda Hd Hl Ht Hw]. unfold p_cancel_do.
  destruct (p_users c !! u) as [[| |k]|] eqn:Eu; try done.
  destruct (Hw u k Eu) as [Hg [id Hid]].
  destruct (da_active _ _ _ _ Hda id k Hid) as (s & Hs & Hids & Hf & _).
  rewrite Hs. cbn [mbind option_bind]. destruct (m_cancel_held s) eqn:Eh; [done|]. intros [= <-].
  assert (finished (cancel s) = false) as Hf'
    by (unfold finished, cancel in *; simpl; by destruct (stage s)).
  constructor; simpl; try done.
  - apply data_users; [|done]. apply (data_update _ _ _ _ k s); try done.
    assert (stage s = Created ∨ stage s ≠ Created) as [Hst|Hst] by (destruct (stage s); auto).
    + right. unfold cancel. simpl. by rewrite Hst.
    + left. by apply (not_connecting _ _ _ s (da_connect _ _ _ _ Hda)).
  - apply owns_insert; [done|]. rewrite Hs. unfold handled, cancel. simpl. by destruct (stage s).
  - apply owns_insert; [done|]. by rewrite Hs.
  - intros v j Hv. apply list_lookup_insert_Some in Hv as [(_ & ? & _)|[Hne Hv]]; [done|].
    destruct (Hw v j Hv). congruence.
Qed.

(** ** The pool *)

Lemma p_complete_ok k ec line c c' : pool_ok c → p_complete k ec line c = Some c' → pool_ok c'.
Proof.
  intros [Hda Hd Hl Ht Hw]. unfold p_complete.
  destruct (p_sessions c !! k) as [s|] eqn:Hs; [|done]. simpl.
  destruct (stage s) eqn:Hst; try done. intros [= <-]. constructor; simpl; try done.
  - apply (data_update _ _ _ _ k s); try done; [apply finished_stage; congruence|].
    left. apply (not_connecting _ _ _ s (da_connect _ _ _ _ Hda)); [done|congruence].
  - apply owns_insert; [done|]. rewrite Hs. unfold handled. by rewrite Hst.
  - apply owns_insert; [done|]. by rewrite Hs.
Qed.

(** A thread of a service that has not stopped moves to a place before the report. *)
Lemma threads_move m ts stop t p p' :
  threads_ok m ts stop → ts !! t = Some p → (∀ k h, p' ≠ TReport k h) → p' ≠ TExit →
  idle_thread p' = true ∨ stop = false → threads_ok m (<[t := p']> ts) stop.
Proof.
  intros [Hr He Hi] Ht Hp Hx Hs. split.
  - intros id k u h Hid [(_ & Hq & _)|[_ Hu]]%list_lookup_insert_Some; [by destruct (Hp k h)|].
    by apply (Hr id k u h).
  - intros u [(_ & Hq & _)|[_ Hu]]%list_lookup_insert_Some; [done|by apply (He u)].
  - intros Hstop u q [(_ & <- & _)|[_ Hu]]%list_lookup_insert_Some; [|by apply (Hi Hstop u)].
    destruct Hs; [done|congruence].
Qed.
(** A thread inside a handler shows that the service is running. *)
Lemma running m ts stop t p :
  threads_ok m ts stop → ts !! t = Some p → idle_thread p = false → stop = false.
Proof. intros [_ _ Hi] Ht Hp. destruct stop; [|done]. by rewrite (Hi eq_refl t p Ht) in Hp. Qed.

(** Thread [t] moves and changes session [k]: what has to be shown about it. *)
Lemma pool_move_ok c t k p p' s s' :
  pool_ok c → m_threads c !! t = Some p → p_sessions c !! k = Some s → stage s ≠ Created →
  finished s = false → finished s' = false → stage s' ≠ Created → m_id s' = m_id s →
  owns handling handled (<[k := s']> (p_sessions c)) (<[t := p']> (m_threads c)) →
  owns holding m_cancel_held (<[k := s']> (p_sessions c)) (<[t := p']> (m_threads c)) →
  (∀ j h, p' ≠ TReport j h) → p' ≠ TExit → idle_thread p' = true ∨ stopped c = false →
  pool_ok (set_thread t p' (p_put k s' c)).
Proof.
  intros [Hda Hd Hl Ht Hw] Hp Hs Hst Hf Hf' Hst' Hid Hd' Hl' Hr Hx Hi.
  constructor; simpl; try done.
  - apply (data_update _ _ _ _ k s); try done. left.
    by apply (not_connecting _ _ _ s (da_connect _ _ _ _ Hda)).
  - by apply (threads_move _ _ _ t p).
Qed.

Lemma p_dispatch_ok t k c c' : pool_ok c → p_dispatch t k c = Some c' → pool_ok c'.
Proof.
  intros Hok. pose proof Hok as [Hda Hd Hl Ht Hw]. unfold p_dispatch.
  destruct (m_threads c !! t) as [[]|] eqn:Et; try done. destruct (stopped c) eqn:Eo; [done|].
  destruct (p_sessions c !! k) as [s|] eqn:Hs; [|done]. cbn [mbind option_bind].
  destruct (stage s) eqn:Hst; try done. intros [= <-].
  assert (finished s = false) as Hf by (apply finished_stage; congruence).
  assert (∀ s' p', handled s' = true → finished s' = false → stage s' ≠ Created → m_id s' = m_id s →
    m_cancel_held s' = m_cancel_held s → handling p' = Some k → holding p' = None →
    (∀ j h, p' ≠ TReport j h) → pool_ok (set_thread t p' (p_put k s' c))) as Hmove.
  { intros s' p' Hh Hf' Hst' Hid Hheld Hp' Hq' Hr.
    apply (pool_move_ok c t k TRun p' s); try done; [congruence| | |by destruct p'|by right].
    - apply (owns_take _ _ _ _ Hd t TRun p' Et k s); try done. unfold handled. by rewrite Hst.
    - apply owns_move with TRun; [|done|done]. apply owns_insert; [done|by rewrite Hs]. }
  destruct (ec =? 0); simpl; [destruct op|]; by apply Hmove.
Qed.

Lemma start_next_ok t k op s c :
  pool_ok c → m_threads c !! t = Some (TBody k op) → p_sessions c !! k = Some s →
  stage s = Handling → pool_ok (start_next t k op s c).
Proof.
  intros Hok Et Hs Hst. pose proof Hok as [Hda Hd Hl Ht Hw]. unfold start_next.
  apply (pool_move_ok c t k (TBody k op) _ s); try done; [congruence|by apply finished_stage; congruence| | |].
  - by apply (owns_drop _ _ _ _ Hd t (TBody k op) _ Et).
  - apply owns_move with (TBody k op); [|done|done]. apply owns_insert; [done|by rewrite Hs].
  - right. by apply (running _ _ _ t _ Ht Et).
Qed.

Lemma pool_erase_ok t k held s c c' :
  pool_ok c → m_threads c !! t = Some (TErase k held) → p_sessions c !! k = Some s →
  onRequestComplete_erase t k held s c = Some c' → pool_ok c'.
Proof.
  intros [[Ho Hh Hc Ha Hu] Hd Hl Ht Hw] Et Hs. unfold onRequestComplete_erase.
  destruct (p_guard c) eqn:Hg; [done|]. intros [= <-]. constructor; simpl.
  - constructor; try done. intros id j [_ Hj]%lookup_delete_Some. by apply Ha.
  - by apply (owns_move _ _ _ _ Hd t (TErase k held) _ Et).
  - apply (owns_move _ _ _ _ Hl t (TErase k held) _ Et). by destruct held.
  - pose proof (running _ _ _ t _ Ht Et eq_refl) as Hrun. destruct Ht as [Hr He Hi]. split.
    + intros id j u h [Hne Hj]%lookup_delete_Some [(_ & Hq & _)|[_ Hv]]%list_lookup_insert_Some;
        [|by apply (Hr id j u h)].
      simplify_eq. destruct (Ha id _ Hj) as (s' & Hs' & Hid & _). congruence.
    + intros u [(_ & Hq & _)|[_ Hv]]%list_lookup_insert_Some; [done|by apply (He u)].
    + congruence.
  - intros v j Hv. destruct (Hw v j Hv). congruence.
Qed.

(** The callback: it is called for a session that is not in the map any more. *)
Lemma data_report ss m us rs k s ec :
  data_ok ss m us rs → ss !! k = Some s → stage s = Handling → (∀ id, m !! id ≠ Some k) →
  (m_was_cancelled s = true → ec ≠ 0) →
  data_ok (<[k := set_stage Finished s]> ss) m us (rs ++ [(k, m_id s, m_response s, ec)]).
Proof.
  intros [Ho Hh Hc Ha Hu] Hs Hst Hm Hec.
  assert (finished s = false) as Hf by (apply finished_stage; congruence). constructor.
  - intros j. rewrite reported_app, Ho. simpl. destruct (decide (k = j)) as [<-|].
    + by rewrite Hs, lookup_insert_eq, Hf.
    + rewrite lookup_insert_ne by done. by rewrite Nat.add_0_r.
  - intros j id line e t Hin Ht Hcan. apply elem_of_app in Hin as [Hin|Hin].
    + destruct (decide (j = k)) as [->|]; [|rewrite lookup_insert_ne in Ht by done; by apply (Hh j id line e t)].
      pose proof (reported_finished _ _ _ _ _ _ s Ho Hin Hs). congruence.
    + apply list_elem_of_singleton in Hin. simplify_eq. rewrite lookup_insert_eq in Ht.
      simplify_eq. by apply Hec.
  - apply connect_update; [|done]. by apply (not_connecting _ _ _ s Hc Hs); congruence.
  - intros id j Hj. destruct (Ha id j Hj) as (t & Ht & ? & ? & _). exists t.
    rewrite lookup_insert_ne; [done|]. intros ->. by apply (Hm id).
  - intros j t. destruct (decide (j = k)) as [->|].
    + rewrite lookup_insert_eq. by intros [= <-].
    + rewrite lookup_insert_ne by done. apply Hu.
Qed.

(** Releasing the lock, which may happen behind the report. *)
Lemma data_release ss m us rs k s :
  data_ok ss m us rs → ss !! k = Some s → stage s ≠ Created →
  data_ok (<[k := set_held false s]> ss) m us rs.
Proof.
  intros [Ho Hh Hc Ha Hu] Hs Hst. constructor.
  - intros j. rewrite Ho. destruct (decide (j = k)) as [->|]; [|by rewrite lookup_insert_ne].
    by rewrite Hs, lookup_insert_eq.
  - intros j id line e t Hin Ht Hcan. destruct (decide (j = k)) as [->|].
    + rewrite lookup_insert_eq in Ht. simplify_eq. by apply (Hh k id line e s).
    + rewrite lookup_insert_ne in Ht by done. by apply (Hh j id line e t).
  - apply connect_update; [|done]. by apply (not_connecting _ _ _ s Hc Hs).
  - intros id j Hj. destruct (Ha id j Hj) as (t & Ht & ? & ? & _).
    destruct (decide (j = k)) as [->|]; [|exists t; by rewrite lookup_insert_ne].
    exists (set_held false s). rewrite lookup_insert_eq. by simplify_eq.
  - intros j t. destruct (decide (j = k)) as [->|].
    + rewrite lookup_insert_eq. by intros [= <-].
    + rewrite lookup_insert_ne by done. apply Hu.
Qed.

Lemma report_step_ok t k held s c :
  pool_ok c → m_threads c !! t = Some (TReport k held) → p_sessions c !! k = Some s →
  stage s = Handling → pool_ok (onRequestComplete_report t k held s c).
Proof.
  intros [Hda Hd Hl Ht Hw] Et Hs Hst. unfold onRequestComplete_report. constructor; simpl; try done.
  - apply data_report; try done.
    + intros id Hid. by apply (th_report _ _ _ Ht id k t held Hid).
    + intros ->. rewrite andb_true_r. by destruct (Z.eqb_spec (m_ec s) 0).
  - apply (owns_drop _ _ _ _ Hd t _ _ Et k); [done|done|by destruct held].
  - apply owns_move with (TReport k held); [|done|by destruct held].
    apply owns_insert; [done|by rewrite Hs].
  - apply (threads_move _ _ _ t (TReport k held)); [done|done|by destruct held..|].
    right. by apply (running _ _ _ t _ Ht Et).
Qed.

Lemma pool_thread_step_ok t c c' : pool_ok c → thread_step t c = Some c' → pool_ok c'.
Proof.
  intros Hok. pose proof Hok as [Hda Hd Hl Ht Hw]. unfold thread_step.
  destruct (m_threads c !! t) as [p|] eqn:Et; [|done].
  assert (∀ k, handling p = Some k → ∃ s, p_sessions c !! k = Some s ∧ stage s = Handling) as Hk.
  { intros k Hk. destruct (owns_true _ _ _ _ Hd t p k Et Hk) as (s & Hs & Hh). exists s.
    split; [done|]. unfold handled in Hh. by destruct (stage s). }
  destruct p as [|k op|k op|k|k held|k held|]; try done.
  - destruct (Hk k eq_refl) as (s & Hs & Hst). rewrite Hs. cbn [mbind option_bind].
    destruct (m_cancel_held s) eqn:Hheld; [done|]. intros [= <-].
    assert (finished s = false) by (apply finished_stage; congruence).
    apply (pool_move_ok c t k (TLock k op) _ s); try done; [congruence|simpl; congruence| | |].
    + apply owns_move with (TLock k op); [|done|done]. apply owns_insert; [done|by rewrite Hs].
    + by apply (owns_take _ _ _ _ Hl t _ _ Et k s).
    + right. by apply (running _ _ _ t _ Ht Et).
  - destruct (Hk k eq_refl) as (s & Hs & Hst). rewrite Hs. cbn [mbind option_bind]. intros [= <-].
    destruct (m_was_cancelled s) eqn:Ecan; [|by apply start_next_ok]. constructor; simpl; try done.
    + by apply (owns_move _ _ _ _ Hd t _ _ Et).
    + by apply (owns_move _ _ _ _ Hl t _ _ Et).
    + apply (threads_move _ _ _ t (TBody k op)); try done. right. by apply (running _ _ _ t _ Ht Et).
  - destruct (owns_true _ _ _ _ Hl t _ k Et eq_refl) as (s & Hs & Hheld). rewrite Hs.
    cbn [mbind option_bind]. intros [= <-].
    assert (stage s ≠ Created) as Hst
      by (intros Hst; rewrite (da_untouched _ _ _ _ Hda k s Hs Hst) in Hheld; done).
    constructor; simpl; try done.
    + by apply (data_release _ _ _ _ k s).
    + apply owns_move with (TUnlock k); [|done|done]. apply owns_insert; [done|by rewrite Hs].
    + by apply (owns_drop _ _ _ _ Hl t (TUnlock k) _ Et).
    + apply (threads_move _ _ _ t (TUnlock k)); try done. by left.
  - destruct (Hk k eq_refl) as (s & Hs & Hst). rewrite Hs. by apply (pool_erase_ok t k held s).
  - destruct (Hk k eq_refl) as (s & Hs & Hst). rewrite Hs. intros [= <-]. by apply report_step_ok.
Qed.

Lemma run_returns_ok t c c' : pool_ok c → run_returns t c = Some c' → pool_ok c'.
Proof.
  intros [Hda Hd Hl Ht Hw]. unfold run_returns.
  destruct (m_threads c !! t) as [[]|] eqn:Et; try done.
  destruct (stopped c || out_of_work c) eqn:Estop; [|done]. intros [= <-]. constructor; simpl; try done.
  - by apply (owns_move _ _ _ _ Hd t _ _ Et).
  - by apply (owns_move _ _ _ _ Hl t _ _ Et).
  - assert (∀ u p, m_threads c !! u = Some p → idle_thread p = true) as Hidle.
    { intros u p Hu. apply orb_true_iff in Estop as [Hs|Hs]; [by apply (th_idle _ _ _ Ht Hs u)|].
      unfold out_of_work in Hs. apply andb_prop in Hs as [[_ Hs]%andb_prop _].
      rewrite forallb_forall in Hs. apply Hs, list_elem_of_In, list_elem_of_lookup. by exists u. }
    destruct Ht as [Hr He Hi]. split; [|done|].
    + intros id k u h Hid [(_ & Hq & _)|[_ Hu]]%list_lookup_insert_Some; [done|by apply (Hr id k u h)].
    + intros _ u p [(_ & <- & _)|[_ Hu]]%list_lookup_insert_Some; [done|by apply (Hidle u)].
Qed.

Lemma pool_step_ok c c' : pool_ok c → pool_step c c' → pool_ok c'.
Proof.
  intros Hok [e He]. destruct e; simpl in He.
  - by apply (p_open_ok u id request c).
  - by apply (p_connect_ok u c).
  - by apply (p_cancel_find_ok u id c).
  - by apply (p_cancel_do_ok u c).
  - destruct Hok. unfold p_close in He. simplify_eq. by constructor.
  - by apply (p_complete_ok k ec line c).
  - by apply (p_dispatch_ok t k c).
  - by apply (pool_thread_step_ok t c).
  - by apply (run_returns_ok t c).
Qed.

Lemma reachable_pool_ok n m c : reachable (eq (AsyncTCPClient_init n m)) pool_step c → pool_ok c.
Proof. apply invariant_reachable; [intros ? <-; apply init_pool_ok|apply pool_step_ok]. Qed.

(** * What happens without the users *)

(** The steps of the network and of the pool. *)
Definition internal (e : PoolEvent) : bool :=
  match e with PComplete _ _ _ | PDispatch _ _ | PThread _ | PReturn _ => true | _ => false end.
Definition pool_only (c c' : Pool) : Prop := ∃ e, internal e = true ∧ pool_react e c = Some c'.

Lemma pool_only_step c c' : pool_only c c' → pool_step c c'.
Proof. intros (e & _ & He). by exists e. Qed.

(** The number of steps that are left of a chain of operations. *)
Definition body_weight (op : Op) : nat := match op with Connect => 11 | _ => 6 end.
Definition queued_weight (op : Op) : nat := match op with Connect => 13 | Write => 8 | Read => 3 end.
Definition session_weight (s : Session) : nat :=
  match stage s with
  | Waiting op => S (queued_weight op)
  | Queued op _ _ => queued_weight op
  | _ => 0
  end.
Definition thread_weight (p : Thread) : nat :=
  match p with
  | TExit => 0 | TRun => 1 | TUnlock _ => 2
  | TReport _ held => if held then 3 else 2
  | TErase _ held => if held then 4 else 3
  | TBody _ op => S (body_weight op)
  | TLock _ op => S (S (body_weight op))
  end.
Definition weight (c : Pool) : nat :=
  sum_list (session_weight <$> (map_to_list (p_sessions c)).*2) +
  total thread_weight (m_threads c).

Lemma sessions_weight (ss : gmap nat Session) k s s' :
  ss !! k = Some s →
  (sum_list (session_weight <$> (map_to_list (<[k := s']> ss)).*2) + session_weight s =
   sum_list (session_weight <$> (map_to_list ss).*2) + session_weight s')%nat.
Proof.
  intros Hk. rewrite <- (insert_delete_id ss k s Hk) at 2. rewrite <- insert_delete_eq.
  rewrite !map_to_list_insert by apply lookup_delete_eq. simpl. lia.
Qed.

(** Each step of the pool uses up weight. *)
Lemma pool_only_weight c c' : pool_ok c → pool_only c c' → (weight c' < weight c)%nat.
Proof.
  intros [_ Hd _ _ _] ([] & He & Hr); try done; simpl in Hr; unfold weight.
  - unfold p_complete in Hr. destruct (p_sessions c !! k) as [s|] eqn:Hs; [|done]. simpl in Hr.
    destruct (stage s) as [|op0|op0 ec0 line0| |] eqn:Hst; try done. injection Hr as <-. simpl.
    pose proof (sessions_weight _ k s (set_stage (Queued op0 ec line) s) Hs) as Hw.
    unfold session_weight in Hw at 2 4. rewrite Hst in Hw. simpl in Hw. lia.
  - unfold p_dispatch in Hr. destruct (m_threads c !! t) as [[]|] eqn:Et; try done.
    destruct (stopped c); [done|]. destruct (p_sessions c !! k) as [s|] eqn:Hs; [|done]. simpl in Hr.
    destruct (stage s) as [|op0|op0 ec0 line0| |] eqn:Hst; try done. injection Hr as <-.
    pose proof (λ s', sessions_weight _ k s s' Hs) as Hw. unfold session_weight in Hw at 2.
    rewrite Hst in Hw. pose proof (λ p', total_insert thread_weight _ t _ p' Et) as Hv.
    destruct (ec0 =? 0); [destruct op0|]; simpl;
      [specialize (Hw (set_stage Handling s)); specialize (Hv (TLock k Connect))
      |specialize (Hw (set_stage Handling s)); specialize (Hv (TLock k Write))
      |specialize (Hw (set_response line0 (set_stage Handling s))); specialize (Hv (TErase k false))
      |specialize (Hw (set_ec ec0 (set_stage Handling s))); specialize (Hv (TErase k false))];
      unfold session_weight in Hw at 3; simpl in *; try destruct op0; simpl in *; lia.
  - unfold thread_step in Hr. destruct (m_threads c !! t) as [p|] eqn:Et; [|done].
    pose proof (λ p', total_insert thread_weight _ t _ p' Et) as Hv.
    assert (∀ k s, handling p = Some k → p_sessions c !! k = Some s → session_weight s = 0%nat) as Hz.
    { intros k s Hk Hs. destruct (owns_true _ _ _ _ Hd t p k Et Hk) as (s0 & Hs0 & Hh). simplify_eq.
      unfold handled, session_weight in *. by destruct (stage s). }
    destruct p as [|k op|k op|k|k held|k held|]; try done;
      (destruct (p_sessions c !! k) as [s|] eqn:Hs; [|done]); cbn [mbind option_bind] in Hr;
      pose proof (λ s', sessions_weight _ k s s' Hs) as Hw; try rewrite (Hz k s eq_refl Hs) in Hw.
    + destruct (m_cancel_held s); [done|]. injection Hr as <-. simpl. specialize (Hw (set_held true s)).
      specialize (Hv (TBody k op)). change (session_weight (set_held true s)) with (session_weight s) in Hw.
      rewrite (Hz k s eq_refl Hs) in Hw. simpl in Hv. lia.
    + destruct (m_was_cancelled s); injection Hr as <-; simpl.
      * specialize (Hv (TErase k true)). destruct op; simpl in *; lia.
      * specialize (Hv (TUnlock k)). specialize (Hw (set_stage (Waiting (next_op op)) s)).
        unfold session_weight in Hw at 3. destruct op; simpl in *; lia.
    + injection Hr as <-. simpl. specialize (Hv TRun). specialize (Hw (set_held false s)).
      change (session_weight (set_held false s)) with (session_weight s) in Hw. simpl in Hv. lia.
    + unfold onRequestComplete_erase in Hr. destruct (p_guard c); [done|]. injection Hr as <-. simpl.
      specialize (Hv (TReport k held)). destruct held; simpl in *; lia.
    + unfold onRequestComplete_report in Hr. injection Hr as <-. simpl. specialize (Hw (set_stage Finished s)).
      unfold session_weight in Hw at 3. simpl in Hw.
      specialize (Hv (if held then TUnlock k else TRun)). destruct held; simpl in *; lia.
  - unfold run_returns in Hr. destruct (m_threads c !! t) as [[]|] eqn:Et; try done.
    destruct (stopped c || out_of_work c); [|done]. simplify_eq/=.
    pose proof (total_insert thread_weight _ t _ TExit Et). simpl in *. lia.
Qed.

(** As long as the pool has not been joined somebody can make a step, if no user keeps the
    map. *)
Lemma pool_progress c :
  pool_ok c → m_work c = false → p_guard c = None → joined c = false → ∃ c', pool_only c c'.
Proof.
  intros [Hda Hd Hl Ht Hw] Hwork Hg Hj.
  assert (∀ t p k, m_threads c !! t = Some p → holding p = Some k → ∃ c', pool_only c c') as Hholder.
  { intros t p k Hp Hk. destruct (owns_true _ _ _ _ Hl t p k Hp Hk) as (s & Hs & _).
    assert (∃ c', thread_step t c = Some c') as [c' Hc'].
    { unfold thread_step. rewrite Hp. destruct p as [| | | |? []|? []|]; simplify_eq/=; rewrite Hs;
        cbn [mbind option_bind]; [eauto|eauto| |eauto].
      unfold onRequestComplete_erase. rewrite Hg. eauto. }
    exists c', (PThread t). done. }
  destruct (forallb idle_thread (m_threads c)) eqn:Hidle.
  - assert (∃ t, m_threads c !! t = Some TRun) as [t Et].
    { unfold joined in Hj. rewrite Hwork in Hj. apply forallb_false in Hj as (p & Hp & Hnot).
      rewrite forallb_forall in Hidle. specialize (Hidle p (proj1 (list_elem_of_In _ _) Hp)).
      apply list_elem_of_lookup in Hp as [t Ht']. exists t. by destruct p. }
    destruct (stopped c || out_of_work c) eqn:Estop.
    { eexists. exists (PReturn t). split; [done|]. simpl. unfold run_returns. by rewrite Et, Estop. }
    apply orb_false_iff in Estop as [Hs Ho]. unfold out_of_work in Ho.
    rewrite Hwork, Hidle in Ho. simpl in Ho. apply forallb_false in Ho as ([k s] & Hks & Hop).
    apply elem_of_map_to_list in Hks. simpl in Hop. unfold no_operation in Hop.
    destruct (stage s) eqn:Hst; try done.
    + eexists. exists (PComplete k 0 ""). split; [done|]. simpl. unfold p_complete. by rewrite Hks; simpl; rewrite Hst.
    + eexists. exists (PDispatch t k). split; [done|]. simpl. unfold p_dispatch.
      rewrite Et, Hs, Hks. cbn [mbind option_bind]. by rewrite Hst.
  - apply forallb_false in Hidle as (p & Hp & Hbusy).
    apply list_elem_of_lookup in Hp as [t Et].
    destruct p as [|k op|k op|k|k held|k held|]; try done; try by eapply (Hholder t).
    + destruct (owns_true _ _ _ _ Hd t _ k Et eq_refl) as (s & Hs & _).
      destruct (m_cancel_held s) eqn:Hheld.
      * destruct (owns_thread _ _ _ _ Hl k s Hs Hheld) as (t' & p' & Ht' & Hp'). by apply (Hholder t' p' k).
      * eexists. exists (PThread t). split; [done|]. simpl. unfold thread_step.
        rewrite Et, Hs. cbn [mbind option_bind]. by rewrite Hheld.
    + destruct (owns_true _ _ _ _ Hd t _ k Et eq_refl) as (s & Hs & _).
      eexists. exists (PThread t). split; [done|]. simpl. unfold thread_step. rewrite Et, Hs.
      cbn [mbind option_bind]. unfold onRequestComplete_erase. by rewrite Hg.
    + destruct (owns_true _ _ _ _ Hd t _ k Et eq_refl) as (s & Hs & _).
      eexists. exists (PThread t). split; [done|]. simpl. unfold thread_step. by rewrite Et, Hs.
Qed.

(** A session that has been connected stays so, a finished one stays finished, and when the
    service has run out of work every connected session is finished. *)
Definition settled (k : nat) (c : Pool) : Prop :=
  ∃ s, p_sessions c !! k = Some s ∧ stage s ≠ Created ∧ (stopped c = true → stage s = Finished).

Lemma settled_put k c j s s' :
  settled k c → p_sessions c !! j = Some s → (stage s ≠ Created → stage s' ≠ Created) →
  (stage s = Finished → stage s' = Finished) → settled k (p_put j s' c).
Proof.
  intros (t & Ht & Hst & Hf) Hj Hc Hfin. destruct (decide (k = j)) as [->|].
  - simplify_eq. exists s'. simpl. rewrite lookup_insert_eq. auto.
  - exists t. simpl. by rewrite lookup_insert_ne.
Qed.

Lemma settled_step k c c' : pool_ok c → settled k c → pool_only c c' → settled k c'.
Proof.
  intros [_ Hd _ Hth _] Hk ([] & He & Hr); try done; simpl in Hr.
  - unfold p_complete in Hr. destruct (p_sessions c !! k0) as [s|] eqn:Hs; [|done]. simpl in Hr.
    destruct (stage s) eqn:Hst; try done. injection Hr as <-.
    apply (settled_put k c k0 s); [done|done|done|congruence].
  - unfold p_dispatch in Hr. destruct (m_threads c !! t) as [[]|]; try done.
    destruct (stopped c); [done|]. destruct (p_sessions c !! k0) as [s|] eqn:Hs; [|done]. simpl in Hr.
    destruct (stage s) as [|op|op e l| |] eqn:Hst; try done. injection Hr as <-.
    assert (∀ s', stage s' = Handling → settled k (p_put k0 s' c)) as Hp
      by (intros s' Hs'; apply (settled_put k c k0 s); [done|done|congruence|congruence]).
    destruct (e =? 0); [destruct op|]; by apply Hp.
  - unfold thread_step in Hr. destruct (m_threads c !! t) as [p|] eqn:Et; [|done].
    destruct p as [|j op|j op|j|j held|j held|]; try done;
      (destruct (p_sessions c !! j) as [s|] eqn:Hs; [|done]); cbn [mbind option_bind] in Hr.
    + destruct (m_cancel_held s); [done|]. injection Hr as <-. by apply (settled_put k c j s).
    + destruct (owns_true _ _ _ _ Hd t _ j Et eq_refl) as (s0 & Hs0 & Hh).
      assert (s0 = s) as -> by congruence. injection Hr as <-.
      destruct (m_was_cancelled s); [done|]. apply (settled_put k c j s); [done|done|done|].
      unfold handled in Hh. by destruct (stage s).
    + injection Hr as <-. by apply (settled_put k c j s).
    + unfold onRequestComplete_erase in Hr. destruct (p_guard c); [done|]. by injection Hr as <-.
    + injection Hr as <-. by apply (settled_put k c j s).
  - unfold run_returns in Hr. destruct (m_threads c !! t) as [[]|] eqn:Et; try done.
    destruct (stopped c) eqn:Estop; simpl in Hr.
    + injection Hr as <-. destruct Hk as (s & ? & ? & Hf). exists s. by rewrite <- Estop in *.
    + destruct (out_of_work c) eqn:Ho; [|done]. injection Hr as <-. destruct Hk as (s & Hs & Hst & _).
      exists s. split; [done|]. split; [done|]. intros _. unfold out_of_work in Ho.
      apply andb_prop in Ho as [[_ Hidle]%andb_prop Hno]. rewrite forallb_forall in Hidle, Hno.
      specialize (Hno (k, s)). rewrite <- list_elem_of_In, elem_of_map_to_list in Hno. specialize (Hno Hs).
      unfold no_operation in Hno. simpl in Hno. destruct (stage s) eqn:Es; try done.
      destruct (owns_thread _ _ _ _ Hd k s Hs) as (u & q & Hu & Hq); [unfold handled; by rewrite Es|].
      specialize (Hidle q). rewrite <- list_elem_of_In in Hidle.
      assert (q ∈ m_threads c) as Hin by (apply list_elem_of_lookup; by exists u).
      specialize (Hidle Hin). by destruct q.
Qed.

Lemma pool_only_keeps c c' :
  pool_only c c' → m_work c' = m_work c ∧ p_guard c' = p_guard c ∧ length (m_threads c') = length (m_threads c).
Proof.
  intros ([] & He & Hr); try done; simpl in Hr;
    unfold p_complete, p_dispatch, thread_step, onRequestComplete_erase, run_returns in Hr;
    repeat (case_match || apply bind_Some in Hr as (? & ? & Hr)); simplify_eq/=;
    by rewrite ?length_insert.
Qed.

Lemma pool_only_run i c c' :
  pool_ok c → nsteps pool_only i c c' →
  pool_ok c' ∧ (i + weight c' ≤ weight c)%nat ∧ m_work c' = m_work c ∧ p_guard c' = p_guard c ∧
  length (m_threads c') = length (m_threads c) ∧ ∀ k, settled k c → settled k c'.
Proof.
  intros Hok Hsteps. induction Hsteps as [c|i c c1 c' Hstep _ IH]; [by split_all|].
  assert (pool_ok c1) as Hok1 by (by eapply pool_step_ok, pool_only_step).
  destruct (IH Hok1) as (? & ? & ? & ? & ? & Hset).
  pose proof (pool_only_weight c c1 Hok Hstep). pose proof (pool_only_keeps c c1 Hstep) as (? & ? & ?).
  split_all; [done|lia|congruence|congruence|congruence|].
  intros k Hk. by apply Hset, (settled_step k c).
Qed.

(** The size of the pool does not change. *)
Lemma reachable_threads n m c :
  reachable (eq (AsyncTCPClient_init n m)) pool_step c → length (m_threads c) = n.
Proof.
  apply (invariant_reachable _ _ (λ c, length (m_threads c) = n)).
  - intros ? <-. simpl. by rewrite length_replicate.
  - intros c1 c2 Hlen [e He]. rewrite <- Hlen. destruct (internal e) eqn:Hi.
    + apply pool_only_keeps. by exists e.
    + destruct e; try done; simpl in He;
        unfold p_open_session, p_async_connect, p_cancel_find, p_cancel_do, p_close in He;
        repeat (case_match || apply bind_Some in He as (? & ? & He)); by simplify_eq/=.
Qed.

Lemma joined_stopped c : pool_ok c → (0 < length (m_threads c))%nat → joined c = true → stopped c = true.
Proof.
  intros [_ _ _ Ht _] Hlen [_ Hall]%andb_prop. destruct (m_threads c) as [|p ts] eqn:Ets; [simpl in Hlen; lia|].
  apply (th_exit _ _ _ Ht 0). simpl in *. by destruct p.
Qed.

(** * Theorems *)

(** Whatever the network does, however the handlers are spread over the threads of the
    pool and whenever requests are cancelled, at most one thread runs a handler of a
    session and at most one has its lock; the callback of a request is called exactly once
    when the session has finished and not at all before; and no cancelled request is
    reported as successful. *)
Theorem pool_callback_once n m c :
  reachable (eq (AsyncTCPClient_init n m)) pool_step c →
  (∀ t t' p p' k, m_threads c !! t = Some p → m_threads c !! t' = Some p' →
     (handling p = Some k ∧ handling p' = Some k) ∨ (holding p = Some k ∧ holding p' = Some k) →
     t = t') ∧
  (∀ k s, p_sessions c !! k = Some s →
     reported k (p_reports c) = match stage s with Finished => 1%nat | _ => 0%nat end) ∧
  (∀ k id line ec s, (k, id, line, ec) ∈ p_reports c → p_sessions c !! k = Some s →
     m_was_cancelled s = true → ec ≠ 0).
Proof.
  intros Hr. apply reachable_pool_ok in Hr as [[Ho Hh _ _ _] Hd Hl _ _]. split_all; [| |exact Hh].
  - intros t t' p p' k Hp Hp' [[H H']|[H H']];
      [by apply (owns_one _ _ _ _ Hd t t' p p' k)|by apply (owns_one _ _ _ _ Hl t t' p p' k)].
  - intros k s Hs. rewrite (Ho k), Hs. unfold finished. by destruct (stage s).
Qed.

(** C27: [close] returns when nobody starts or cancels requests any more.  From any
    reachable state in which the work object is gone and no user is inside
    [cancelRequest], the network and the pool can make at most [weight c] steps; and where
    no step is left, every thread of the pool has been joined and every request that was
    started before the service stopped has been reported exactly once. *)
Theorem close_returns n m c i c' :
  reachable (eq (AsyncTCPClient_init n m)) pool_step c →
  m_work c = false → p_guard c = None → stopped c = false → (0 < n)%nat →
  nsteps pool_only i c c' →
  (i ≤ weight c)%nat ∧
  ((∀ c'', ¬ pool_only c' c'') →
     joined c' = true ∧
     ∀ k s, p_sessions c !! k = Some s → stage s ≠ Created →
       ∃ s', p_sessions c' !! k = Some s' ∧ stage s' = Finished ∧ reported k (p_reports c') = 1%nat).
Proof.
  intros Hr Hwork Hg Hrun Hn Hsteps. pose proof (reachable_threads n m c Hr) as Hlen.
  apply reachable_pool_ok in Hr as Hok.
  destruct (pool_only_run i c c' Hok Hsteps) as (Hok' & Hweight & Hw' & Hg' & Hlen' & Hset).
  split; [lia|]. intros Hend. assert (joined c' = true) as Hj.
  { apply not_false_iff_true. intros Hj.
    destruct (pool_progress c' Hok') as [c'' Hc'']; [congruence|congruence|done|by apply (Hend c'')]. }
  split; [done|]. intros k s Hs Hst. destruct (Hset k) as (s' & Hs' & _ & Hf).
  { exists s. by rewrite Hrun. }
  specialize (Hf (joined_stopped c' Hok' ltac:(lia) Hj)). exists s'. split_all; [done|done|].
  rewrite (da_once _ _ _ _ (po_data _ Hok') k), Hs'. unfold finished. by rewrite Hf.
Qed.

(** Thread [t] holds the lock of session [k] and waits for the map's, which user [u] holds
    while it waits for the session's; and no other thread is beyond the erasure. *)
Record pool_locked (t u k : nat) (c : Pool) : Prop := {
  lk_thread : m_threads c !! t = Some (TErase k true);
  lk_user : p_users c !! u = Some (UHold k);
  lk_guard : p_guard c = Some u;
  lk_report : ∀ v j h, m_threads c !! v ≠ Some (TReport j h);
  lk_none : p_reports c = []
}.

Lemma lock_taken t u k c :
  pool_ok c → pool_locked t u k c → ∃ s, p_sessions c !! k = Some s ∧ m_cancel_held s = true.
Proof. intros [_ _ Hl _ _] [Ht _ _ _ _]. by apply (owns_true _ _ _ _ Hl t _ k Ht). Qed.

(** Another thread of the pool moves. *)
Lemma pool_locked_thread t u k v p c ss stop :
  pool_locked t u k c → v ≠ t → (∀ j h, p ≠ TReport j h) →
  pool_locked t u k (mk_Pool ss (p_active_sessions c) (p_guard c) (p_users c) (<[v := p]> (m_threads c))
    (m_work c) stop (p_reports c)).
Proof.
  intros [Ht Hu Hg Hr Hn] Hv Hp. constructor; simpl; try done.
  - by rewrite list_lookup_insert_ne.
  - intros w j h [(_ & ? & _)|[_ Hw]]%list_lookup_insert_Some; [by destruct (Hp j h)|by apply (Hr w j h)].
Qed.

Lemma pool_locked_step t u k c c' :
  pool_ok c → pool_locked t u k c → pool_step c c' → pool_locked t u k c'.
Proof.
  intros Hok Hlk [e He]. pose proof Hlk as [Ht Hu Hg Hr Hn].
  destruct (lock_taken t u k c Hok Hlk) as (s0 & Hs0 & Hheld).
  destruct e as [v id r|v|v id|v| |j ec line|v j|v|v]; simpl in He.
  - unfold p_open_session in He. rewrite Hg in He. by repeat case_match.
  - unfold p_async_connect in He. destruct (p_users c !! v) as [[|j|]|] eqn:Ev; try done.
    destruct (p_sessions c !! j) as [s|]; [|done]. injection He as <-.
    assert (v ≠ u) by congruence. constructor; simpl; try done. by rewrite list_lookup_insert_ne.
  - unfold p_cancel_find in He. rewrite Hg in He. by repeat case_match.
  - unfold p_cancel_do in He. destruct (p_users c !! v) as [[| |j]|] eqn:Ev; try done.
    destruct (po_hold _ Hok v j Ev) as [Hgv _]. assert (v = u) as -> by congruence.
    assert (j = k) as -> by congruence. rewrite Hs0 in He. simpl in He. by rewrite Hheld in He.
  - injection He as <-. by constructor.
  - unfold p_complete in He. apply bind_Some in He as (s & _ & He).
    destruct (stage s); simplify_eq; by constructor.
  - unfold p_dispatch in He. destruct (m_threads c !! v) as [[]|] eqn:Ev; try done.
    destruct (stopped c); [done|]. apply bind_Some in He as (s & _ & He).
    assert (v ≠ t) by congruence. destruct (stage s); simplify_eq.
    destruct (ec =? 0); [destruct op|]; by apply pool_locked_thread.
  - unfold thread_step in He. destruct (m_threads c !! v) as [p|] eqn:Ev; [|done].
    destruct p as [|j op|j op|j|j held|j held|]; try done; apply bind_Some in He as (s & Hs & He).
    + assert (v ≠ t) by congruence. destruct (m_cancel_held s); simplify_eq. by apply pool_locked_thread.
    + assert (v ≠ t) by congruence. simplify_eq. destruct (m_was_cancelled s); by apply pool_locked_thread.
    + assert (v ≠ t) by congruence. simplify_eq. by apply pool_locked_thread.
    + unfold onRequestComplete_erase in He. by rewrite Hg in He.
    + by destruct (Hr v j held).
  - unfold run_returns in He. destruct (m_threads c !! v) as [[]|] eqn:Ev; try done.
    assert (v ≠ t) by congruence. destruct (stopped c || out_of_work c); simplify_eq.
    by apply pool_locked_thread.
Qed.

(** A request is cancelled when its connection has been made, and cancelled again while a
    thread of the pool is in [onRequestComplete]. *)
Definition pool_deadlock_events : list PoolEvent :=
  [POpen 0 1 "EMULATE_LONG_CALC_OP 10"; PConnect 0; PComplete 0 0 ""; PCancel 0 1; PCancelDo 0;
   PDispatch 0 0; PThread 0; PThread 0; PCancel 0 1].
Definition pool_deadlocked : Pool :=
  default (AsyncTCPClient_init 4 1) (pool_reacts pool_deadlock_events (AsyncTCPClient_init 4 1)).

(** The order of the locks is wrong here too, and more threads do not help: with the
    four threads of [main] a second cancellation can meet [onRequestComplete], and from
    then on that thread and the user wait for each other, no request of the client is
    ever reported, and [close] never returns. *)
Theorem pool_deadlock :
  ∃ c, reachable (eq (AsyncTCPClient_init 4 1)) pool_step c ∧
    ∀ c', rtc pool_step c c' →
      thread_step 0 c' = None ∧ p_cancel_do 0 c' = None ∧ p_reports c' = [] ∧ joined c' = false.
Proof.
  exists pool_deadlocked.
  assert (reachable (eq (AsyncTCPClient_init 4 1)) pool_step pool_deadlocked) as Hr
    by (apply (pool_reacts_reachable 4 1 pool_deadlock_events); vm_compute; reflexivity).
  split; [done|]. intros c' Hrtc.
  assert (pool_ok c' ∧ pool_locked 0 0 0 c') as [Hok Hlk].
  { assert (pool_ok pool_deadlocked ∧ pool_locked 0 0 0 pool_deadlocked) as H0.
    { split; [by apply (reachable_pool_ok 4 1)|]. constructor; try (vm_compute; reflexivity).
      by intros [|[|[|[|v]]]] j h. }
    clear Hr. revert H0. induction Hrtc as [c|c c1 c2 Hstep _ IH]; intros [Hok Hl]; [done|].
    apply IH. split; [by apply (pool_step_ok c)|by apply (pool_locked_step 0 0 0 c)]. }
  destruct (lock_taken _ _ _ _ Hok Hlk) as (s & Hs & Hheld). destruct Hlk as [Ht Hu Hg _ Hn].
  split_all; [| |done|].
  - unfold thread_step. rewrite Ht, Hs. simpl. unfold onRequestComplete_erase. by rewrite Hg.
  - unfold p_cancel_do. rewrite Hu, Hs. simpl. by rewrite Hheld.
  - unfold joined. destruct (m_threads c') as [|p ts]; [done|]. simplify_eq/=. apply andb_false_r.
Qed.

(** * Witnesses *)

(** [main] with its four threads: the write handler of the first request is dispatched by
    another thread while the connect handler still has the lock. *)
Definition pool_demo_events : list PoolEvent :=
  [POpen 0 1 "EMULATE_LONG_CALC_OP 10"; PConnect 0; PComplete 0 0 ""; PDispatch 2 0; PThread 2; PThread 2;
   PComplete 0 0 ""; PDispatch 1 0; PThread 2; POpen 0 2 "EMULATE_LONG_CALC_OP 11"; PConnect 0; PClose].
Definition pool_demo : Pool :=
  default (AsyncTCPClient_init 4 1) (pool_reacts pool_demo_events (AsyncTCPClient_init 4 1)).
Definition pool_rest : list PoolEvent :=
  [PThread 1; PThread 1; PThread 1; PComplete 1 111 ""; PDispatch 3 1; PComplete 0 0 "OK"; PThread 3;
   PThread 3; PDispatch 0 0; PThread 0; PThread 0; PReturn 0; PReturn 1; PReturn 2; PReturn 3].
Definition pool_end : Pool := default pool_demo (pool_reacts pool_rest pool_demo).

Lemma pool_runs es c c' :
  forallb internal es = true → pool_reacts es c = Some c' → nsteps pool_only (length es) c c'.
Proof.
  revert c. induction es as [|e es IH]; intros c Hint H; simpl in *; [simplify_eq; constructor|].
  apply andb_prop in Hint as [He Hint]. apply bind_Some in H as (c1 & H1 & H).
  eapply nsteps_l; [by exists e|by apply IH].
Qed.

Lemma pool_callback_once_witness :
  p_reports pool_end = [(1%nat, 2, "", 111); (0%nat, 1, "OK", 0)]%string ∧
  (∀ k s, p_sessions pool_end !! k = Some s →
     reported k (p_reports pool_end) = match stage s with Finished => 1%nat | _ => 0%nat end).
Proof.
  split; [vm_compute; reflexivity|]. apply (pool_callback_once 4 1).
  apply (pool_reacts_reachable 4 1 (pool_demo_events ++ pool_rest)). vm_compute. reflexivity.
Defined.

Lemma close_returns_witness :
  joined pool_end = true ∧ (length pool_rest ≤ weight pool_demo)%nat.
Proof.
  split; [vm_compute; reflexivity|].
  apply (close_returns 4 1 pool_demo (length pool_rest) pool_end);
    [|vm_compute; reflexivity..|lia|].
  - apply (pool_reacts_reachable 4 1 pool_demo_events). vm_compute. reflexivity.
  - apply pool_runs; vm_compute; reflexivity.
Defined.
