(* ===== verification/Atomics.v ===== *)
(** Programs built on atomic read-modify-write operations:
    [src/books/cpp_concurrency_in_action/05_synchronizing_concurrent_operations/spinlock.cpp]
    and [lockfree_singleton.cpp] of the same directory.

    A step is one access of one thread; the accesses to atomics are sequentially
    consistent here (the first program orders them with acquire and release, the second
    uses the default order). *)

From S2P Require Import Prelude Counters.

(** * spinlock.cpp *)

Module Spin.

(** A thread in [f_with_slock], with the iterations behind it: before [lock], then at
    the load and the store of [++out], at the output, and at [unlock]. *)
Inductive pc : Type :=
  | Acquire (cnt : nat) | LoadOut (cnt : nat) | StoreOut (cnt : nat) (v : Z) | Output (cnt : nat) (v : Z)
  | Release (cnt : nat) | Finished.

(** The flag of the lock, the static counter, and what was printed: the number and
    whether a line ends behind it. *)
Record state : Type := State { flag : bool; out : Z; printed : list (nat * bool); threads : list pc }.

Definition rounds : nat := 40.
Definition init (n : nat) : state := State false 0 [] (replicate n (Acquire 0)).

Definition set_thread (i : nat) (t : pc) (s : state) : state :=
  State (flag s) (out s) (printed s) (<[i := t]> (threads s)).

(** [test_and_set] gives the old value; [lock] repeats it while that is true. *)
Definition test_and_set (s : state) : bool * state := (flag s, State true (out s) (printed s) (threads s)).
Definition clear (s : state) : state := State false (out s) (printed s) (threads s).

Definition next (cnt : nat) : pc := if S cnt <? rounds then Acquire (S cnt) else Finished.

Definition thread_step (i : nat) (s : state) : option state :=
  t ← threads s !! i;
  match t with
  | Acquire c => let '(old, s) := test_and_set s in Some (if old then s else set_thread i (LoadOut c) s)
  | LoadOut c => Some (set_thread i (StoreOut c (out s)) s)
  | StoreOut c v => Some (set_thread i (Output c (v + 1)%Z) (State (flag s) (v + 1)%Z (printed s) (threads s)))
  | Output c v =>
      Some (set_thread i (Release c) (State (flag s) (out s) (printed s ++ [(i, (v mod 40 =? 0)%Z)]) (threads s)))
  | Release c => Some (set_thread i (next c) (clear s))
  | Finished => None
  end.
Definition step (s s' : state) : Prop := ∃ i, thread_step i s = Some s'.

(** ** The invariant *)

Definition inside (t : pc) : nat := match t with Acquire _ | Finished => 0 | _ => 1 end.
Definition counted (t : pc) : nat := match t with Output _ _ => 1 | _ => 0 end.
(** The numbers a thread has still to print. *)
Definition todo (t : pc) : nat :=
  match t with
  | Acquire c | LoadOut c | StoreOut c _ | Output c _ => rounds - c
  | Release c => rounds - c - 1
  | Finished => 0
  end.
Definition round_ok (t : pc) : Prop :=
  match t with Acquire c | LoadOut c | StoreOut c _ | Output c _ | Release c => c < rounds | Finished => True end.
Definition outputs (i : nat) (l : list (nat * bool)) : nat := length (filter (λ p, p.1 = i) l).

Record spin_ok (n : nat) (s : state) : Prop := {
  sp_threads : length (threads s) = n;
  sp_flag : total inside (threads s) = if flag s then 1 else 0;
  sp_out : out s = Z.of_nat (length (printed s) + total counted (threads s));
  sp_load i c v : threads s !! i = Some (StoreOut c v) ∨ threads s !! i = Some (Output c v) → v = out s;
  sp_todo : length (printed s) + total todo (threads s) = rounds * n;
  sp_each i t : threads s !! i = Some t → outputs i (printed s) + todo t = rounds ∧ round_ok t;
  sp_lines k p : printed s !! k = Some p → p.2 = (Z.of_nat (S k) mod 40 =? 0)%Z
}.

Lemma total_ge {A} (f : A → nat) l i x : l !! i = Some x → f x ≤ total f l.
Proof. intros Hi. pose proof (total_insert f l i x x Hi). rewrite list_insert_id in H by done.
  revert i Hi H. unfold total. induction l as [|y l IH]; intros [|i] Hi _; simplify_eq/=; [lia|].
  specialize (IH i Hi eq_refl). lia. Qed.

Lemma total_two {A} (f : A → nat) l i j x y : i ≠ j → l !! i = Some x → l !! j = Some y → f x + f y ≤ total f l.
Proof.
  unfold total. revert i j. induction l as [|z l IH]; intros [|i] [|j] Hne Hi Hj; simplify_eq/=; try done.
  - pose proof (total_ge f l j y Hj). unfold total in *. lia.
  - pose proof (total_ge f l i x Hi). unfold total in *. lia.
  - specialize (IH i j). assert (i ≠ j) as Hij by lia. specialize (IH Hij Hi Hj). lia.
Qed.

Lemma spin_init n : spin_ok n (init n).
Proof.
  constructor; simpl.
  - by rewrite length_replicate.
  - rewrite total_replicate. simpl. lia.
  - rewrite total_replicate. simpl. lia.
  - intros i c v [H|H]; apply lookup_replicate in H as [? _]; done.
  - rewrite total_replicate. cbn [todo]. unfold rounds. lia.
  - intros i t [-> _]%lookup_replicate. cbn. unfold rounds. lia.
  - done.
Qed.

(** At most one thread is inside. *)
Lemma spin_exclusive n s i j t u :
  spin_ok n s → threads s !! i = Some t → threads s !! j = Some u → inside t = 1 → inside u = 1 → i = j.
Proof.
  intros Hok Hi Hj Ht Hu. destruct (decide (i = j)) as [|Hne]; [done|].
  pose proof (total_two inside _ i j t u Hne Hi Hj) as Htwo. rewrite (sp_flag _ _ Hok) in Htwo.
  destruct (flag s); lia.
Qed.

(** A step that prints nothing. *)
Lemma quiet_ok n s i t y (fl : bool) (o : Z) :
  spin_ok n s → threads s !! i = Some t → todo y = todo t → (round_ok t → round_ok y) →
  inside y + (if flag s then 1 else 0) = inside t + (if fl then 1 else 0) →
  (o + Z.of_nat (counted t) = out s + Z.of_nat (counted y))%Z →
  (∀ c v, y = StoreOut c v ∨ y = Output c v → v = o) → o = out s ∨ inside t = 1 →
  spin_ok n (State fl o (printed s) (<[i := y]> (threads s))).
Proof.
  intros Hok Hi Htodo Hr Hfl Ho Hload Hout. pose proof Hok as [Hn Hf Hc Hl Ht He Hp].
  pose proof (total_insert inside _ i t y Hi) as H1. pose proof (total_insert counted _ i t y Hi) as H2.
  pose proof (total_insert todo _ i t y Hi) as H3. rewrite Hf in H1.
  constructor; cbn [threads flag out printed].
  - by rewrite length_insert.
  - destruct (flag s), fl; lia.
  - lia.
  - intros j c v Hj. destruct (decide (i = j)) as [<-|Hne].
    + rewrite list_lookup_insert_eq in Hj by (by eapply lookup_lt_Some). apply (Hload c). naive_solver.
    + rewrite list_lookup_insert_ne in Hj by done. destruct Hout as [->|Hin]; [by eapply Hl|].
      destruct Hne. destruct Hj as [Hj|Hj]; by eapply (spin_exclusive n s i j).
  - lia.
  - intros j u Hj. apply list_lookup_insert_Some in Hj as [(<- & <- & _)|[_ Hj]]; [|by apply He].
    rewrite Htodo. destruct (He i t Hi). by split; [|apply Hr].
  - done.
Qed.

Lemma outputs_snoc i l j b : outputs i (l ++ [(j, b)]) = outputs i l + if decide (j = i) then 1 else 0.
Proof.
  unfold outputs. rewrite filter_app, length_app, filter_cons. cbn [fst]. by destruct (decide (j = i)).
Qed.

(** The step that prints. *)
Lemma output_ok n s i c v :
  spin_ok n s → threads s !! i = Some (Output c v) →
  spin_ok n (State (flag s) (out s) (printed s ++ [(i, (v mod 40 =? 0)%Z)]) (<[i := Release c]> (threads s))).
Proof.
  intros Hok Hi. pose proof Hok as [Hn Hf Hc Hl Ht He Hp]. pose proof (He i _ Hi) as [Hei Hri].
  pose proof (total_insert inside _ i _ (Release c) Hi) as H1. pose proof (total_insert counted _ i _ (Release c) Hi) as H2.
  pose proof (total_insert todo _ i _ (Release c) Hi) as H3. cbn [inside counted todo round_ok] in *.
  assert (v = out s) as -> by (eapply Hl; eauto).
  assert (total counted (threads s) = 1) as Hone.
  { pose proof (total_ge counted _ i _ Hi) as Hge. cbn [counted] in Hge.
    enough (total counted (threads s) ≤ total inside (threads s)) by (rewrite Hf in *; destruct (flag s); lia).
    unfold total. clear. induction (threads s) as [|u l IH]; [done|]. rewrite !fmap_cons. simpl. destruct u; simpl; lia. }
  constructor; cbn [threads flag out printed]; rewrite ?length_insert, ?length_app; cbn [length]; try done; try lia.
  - intros j c' v' Hj. destruct (decide (i = j)) as [<-|Hne].
    + rewrite list_lookup_insert_eq in Hj by (by eapply lookup_lt_Some). naive_solver.
    + rewrite list_lookup_insert_ne in Hj by done. by eapply Hl.
  - intros j u Hj. rewrite outputs_snoc. apply list_lookup_insert_Some in Hj as [(<- & <- & _)|[Hne Hj]].
    + rewrite decide_True by done. cbn [todo round_ok]. lia.
    + rewrite decide_False by done. rewrite Nat.add_0_r. by apply He.
  - intros k p Hk. apply lookup_app_Some in Hk as [Hk|[Hk1 Hk2]]; [by apply (Hp k)|].
    apply list_lookup_singleton_Some in Hk2 as [Hk2 <-]. cbn [snd]. rewrite Hc, Hone. do 2 f_equal. lia.
Qed.

Lemma next_todo c : c < rounds → todo (next c) = rounds - c - 1 ∧ round_ok (next c) ∧ inside (next c) = 0 ∧ counted (next c) = 0.
Proof.
  intros Hc. unfold next. destruct (Nat.ltb_spec (S c) rounds); cbn [todo round_ok inside counted]; [|split_all]; lia || done.
Qed.

Lemma spin_step n s s' : spin_ok n s → step s s' → spin_ok n s'.
Proof.
  intros Hok [i Hs]. unfold thread_step in Hs. destruct (threads s !! i) as [t|] eqn:Hi; [|done]. simpl in Hs.
  destruct (sp_each _ _ Hok i t Hi) as [_ Hround].
  assert (inside t = 1 → flag s = true) as Hhold.
  { intros Hin. pose proof (total_ge inside _ i _ Hi) as Hge. rewrite (sp_flag _ _ Hok) in Hge. destruct (flag s); [done|lia]. }
  destruct t as [c|c|c v|c v|c|]; cbn [inside] in Hhold; try (injection Hs as <-); [| | | | |done].
  - destruct (flag s) eqn:Hf; [destruct s; simpl in *; by subst|].
    eapply (quiet_ok n s i _ (LoadOut c) true (out s)); eauto; rewrite ?Hf; simpl; try lia; naive_solver.
  - eapply (quiet_ok n s i _ (StoreOut c (out s)) (flag s) (out s)); eauto; naive_solver.
  - assert (v = out s) as -> by (eapply (sp_load _ _ Hok); eauto).
    eapply (quiet_ok n s i _ (Output c (out s + 1)%Z) (flag s)); eauto; simpl; try lia; naive_solver.
  - exact (output_ok n s i c v Hok Hi).
  - destruct (next_todo c Hround) as (E1 & E2 & E3 & E4).
    eapply (quiet_ok n s i _ (next c) false (out s)); eauto; rewrite ?E1, ?E3, ?E4, ?Hhold by done; simpl; try done.
    intros c' v'. unfold next. destruct (S c <? rounds); naive_solver.
Qed.

Lemma spin_reachable n s : reachable (eq (init n)) step s → spin_ok n s.
Proof. apply invariant_reachable; [intros ? <-; apply spin_init|intros; by eapply spin_step]. Qed.

Lemma all_zero {A} (f : A → nat) l : total f l = 0 → Forall (λ x, f x = 0) l.
Proof. unfold total. induction l as [|x l IH]; [constructor|]. rewrite fmap_cons. simpl. intros H. constructor; [lia|apply IH; lia]. Qed.

(** Somebody can go on while not all have finished: the one inside, or any one when
    nobody is. *)
Lemma spin_progress n s :
  spin_ok n s → ¬ Forall (eq Finished) (threads s) → ∃ i s', thread_step i s = Some s' ∧ s' ≠ s.
Proof.
  intros Hok Hnot. pose proof (sp_flag _ _ Hok) as Hf. destruct (flag s) eqn:Hflag.
  - destruct (decide (Forall (λ t, inside t = 0) (threads s))) as [Hz|Hz].
    { apply total_all_zero in Hz. lia. }
    apply not_Forall_Exists, Exists_exists in Hz as (t & [i Hi]%list_elem_of_lookup & Ht); [|apply _].
    exists i. unfold thread_step. rewrite Hi. cbn [mbind option_bind].
    assert (∀ u, u ≠ t → <[i := u]> (threads s) ≠ threads s) as Hne.
    { intros u Hu Heq. assert (<[i := u]> (threads s) !! i = Some u) as Hl by (apply list_lookup_insert_eq; by eapply lookup_lt_Some).
      rewrite Heq, Hi in Hl. congruence. }
    destruct t as [c|c|c v|c v|c|]; simpl in Ht; try (by destruct Ht);
      (eexists; split; [reflexivity|]; intros Heq; apply (f_equal threads) in Heq; revert Heq; apply Hne; try done).
    unfold next. by destruct (S c <? rounds).
  - apply all_zero in Hf. apply not_Forall_Exists, Exists_exists in Hnot as (t & [i Hi]%list_elem_of_lookup & Ht);
      [|intros []; solve_decision].
    rewrite Forall_forall in Hf. assert (inside t = 0) as Hin by (apply Hf, list_elem_of_lookup; eauto).
    destruct t as [c|c|c v|c v|c|]; cbn [inside] in Hin; try done. exists i. unfold thread_step. rewrite Hi. simpl. rewrite Hflag.
    eexists. split; [reflexivity|]. intros Heq. apply (f_equal flag) in Heq. simpl in Heq. congruence.
Qed.

Lemma outputs_all i n s : spin_ok n s → Forall (eq Finished) (threads s) → i < n → outputs i (printed s) = rounds.
Proof.
  intros Hok Hfin Hi. rewrite <- (sp_threads _ _ Hok) in Hi. apply lookup_lt_is_Some in Hi as [t Ht].
  rewrite Forall_forall in Hfin. assert (Finished = t) as <- by (apply Hfin, list_elem_of_lookup; eauto).
  destruct (sp_each _ _ Hok i _ Ht) as [He _]. cbn [todo] in He. lia.
Qed.
End Spin.

(** The spin lock admits one thread at a time, so that no increment of the static
    counter is lost: it is never more than 40 per thread, every fortieth number ends a
    line, and when all threads are done each has printed its number 40 times. As long as
    they are not, some thread can move. *)
Theorem spin_lock_safe n s :
  reachable (eq (Spin.init n)) Spin.step s →
  (∀ i j t u, Spin.threads s !! i = Some t → Spin.threads s !! j = Some u →
     Spin.inside t = 1 → Spin.inside u = 1 → i = j) ∧
  (0 ≤ Spin.out s ≤ Z.of_nat (40 * n))%Z ∧
  (∀ k p, Spin.printed s !! k = Some p → p.2 = (Z.of_nat (S k) mod 40 =? 0)%Z) ∧
  (Forall (eq Spin.Finished) (Spin.threads s) →
     Spin.out s = Z.of_nat (40 * n) ∧ ∀ i, i < n → Spin.outputs i (Spin.printed s) = 40) ∧
  (¬ Forall (eq Spin.Finished) (Spin.threads s) → ∃ i s', Spin.thread_step i s = Some s' ∧ s' ≠ s).
Proof.
  intros Hr%Spin.spin_reachable. pose proof Hr as [Hn Hf Hc Hl Ht He Hp]. unfold Spin.rounds in Ht.
  assert (total Spin.counted (Spin.threads s) ≤ total Spin.todo (Spin.threads s)) as Hle.
  { assert (∀ t, t ∈ Spin.threads s → Spin.counted t ≤ Spin.todo t) as Hall.
    { intros t [i Hi]%list_elem_of_lookup. destruct (He i t Hi) as [_ Hround]. destruct t; simpl in *; lia. }
    unfold total. revert Hall. clear. induction (Spin.threads s) as [|t l IH]; intros Hall; [done|]. rewrite !fmap_cons. simpl.
    pose proof (Hall t ltac:(by left)). assert (∀ u, u ∈ l → Spin.counted u ≤ Spin.todo u) as Hl by (intros u Hu; apply Hall; by right).
    specialize (IH Hl). lia. }
  split_all.
  - intros i j t u Hi Hj. by eapply Spin.spin_exclusive.
  - lia.
  - lia.
  - exact Hp.
  - intros Hfin. split; [|intros i Hi; by apply (Spin.outputs_all i n s)].
    assert (total Spin.counted (Spin.threads s) = 0 ∧ total Spin.todo (Spin.threads s) = 0) as [E1 E2].
    { split; apply total_all_zero; (eapply Forall_impl; [exact Hfin|]); by intros ? <-. }
    lia.
  - by apply (Spin.spin_progress n).
Qed.

(** * lockfree_singleton.cpp *)

Module LockFree.
Local Open Scope Z_scope.

(** A thread in [f]: before the load of [cached_object]; at the load and the store of
    [++count] in the constructor; in the loop of [compare_exchange_weak] with its new
    object; at [delete obj] with the object another thread has cached; at
    [obj->get_data()]; and done. *)
Inductive pc : Type :=
  | Load | LoadCount | StoreCount (c : Z) | Exchange (obj : nat) | Delete (obj cached : nat)
  | GetData (obj : nat) | Done (obj : nat).

(** The cached pointer, the live objects with their [data], the next address, the static
    counter, and what was printed. *)
Record state : Type := State {
  cached_object : option nat; objects : gmap nat Z; fresh_id : nat; count : Z; printed : list Z; threads : list pc
}.

Definition init (n : nat) : state := State None ∅ 0 0 [] (replicate n Load).

Definition set_thread (i : nat) (t : pc) (s : state) : state :=
  State (cached_object s) (objects s) (fresh_id s) (count s) (printed s) (<[i := t]> (threads s)).

(** [new Singleton()] with the counter's new value. *)
Definition new_Singleton (c : Z) (s : state) : state :=
  State (cached_object s) (<[fresh_id s := c]> (objects s)) (S (fresh_id s)) c (printed s) (threads s).

(** The exchange may fail although the pointer is null; then the loop goes on. *)
Definition compare_exchange_weak (spurious : bool) (obj : nat) (s : state) : option nat * bool * state :=
  match cached_object s with
  | None => if spurious then (None, false, s)
            else (None, true, State (Some obj) (objects s) (fresh_id s) (count s) (printed s) (threads s))
  | Some o => (Some o, false, s)
  end.

(** [None] is undefined behaviour; a thread that is done has no step. *)
Definition thread_step (spurious : bool) (i : nat) (t : pc) (s : state) : option state :=
  match t with
  | Load => Some (set_thread i (match cached_object s with Some o => GetData o | None => LoadCount end) s)
  | LoadCount => Some (set_thread i (StoreCount (count s)) s)
  | StoreCount c => Some (set_thread i (Exchange (fresh_id s)) (new_Singleton (c + 1) s))
  | Exchange obj =>
      let '(cached, ok, s) := compare_exchange_weak spurious obj s in
      Some (if ok then set_thread i (GetData obj) s
            else match cached with Some o => set_thread i (Delete obj o) s | None => s end)
  | Delete obj o =>
      _ ← objects s !! obj;
      Some (set_thread i (GetData o)
        (State (cached_object s) (delete obj (objects s)) (fresh_id s) (count s) (printed s) (threads s)))
  | GetData obj =>
      d ← objects s !! obj;
      Some (set_thread i (Done obj)
        (State (cached_object s) (objects s) (fresh_id s) (count s) (printed s ++ [d]) (threads s)))
  | Done _ => Some s
  end.
Definition step (s s' : state) : Prop :=
  ∃ spurious i t, threads s !! i = Some t ∧ thread_step spurious i t s = Some s'.

(** ** The invariant *)

(** The object a thread owns, until it is cached or deleted. *)
Definition owns (t : pc) : option nat :=
  match t with Exchange o | Delete o _ => Some o | _ => None end.
(** The object a thread has taken from the cache. *)
Definition took (t : pc) : option nat :=
  match t with Delete _ o | GetData o | Done o => Some o | _ => None end.

(** Every live object is the cached one or owned by one thread; what was taken is what is
    cached. *)
Record single_ok (s : state) : Prop := {
  si_live o : is_Some (objects s !! o) ↔ cached_object s = Some o ∨ ∃ i t, threads s !! i = Some t ∧ owns t = Some o;
  si_owner i j t u o : threads s !! i = Some t → threads s !! j = Some u → owns t = Some o → owns u = Some o → i = j;
  si_cached i t o : threads s !! i = Some t → owns t = Some o → cached_object s ≠ Some o;
  si_took i t o : threads s !! i = Some t → took t = Some o → cached_object s = Some o;
  si_fresh o : is_Some (objects s !! o) → (o < fresh_id s)%nat;
  si_printed d : d ∈ printed s → ∃ o, cached_object s = Some o ∧ objects s !! o = Some d
}.

Lemma single_init n : single_ok (init n).
Proof.
  constructor; simpl; try done.
  - intros o. split; [by rewrite lookup_empty; intros []|]. intros [?|(i & t & Ht & Ho)]; [done|].
    by apply lookup_replicate in Ht as [-> _].
  - intros i j t u o [-> _]%lookup_replicate _ Ho. done.
  - intros i t o [-> _]%lookup_replicate Ho. done.
  - intros o. by rewrite lookup_empty; intros [].
  - by intros d ?%elem_of_nil.
Qed.

Lemma thread_cases {A} (l : list A) i j t y u :
  l !! i = Some t → <[i := y]> l !! j = Some u → (j = i ∧ u = y) ∨ (j ≠ i ∧ l !! j = Some u).
Proof. intros Hi [(<- & <- & _)|[? ?]]%list_lookup_insert_Some; [by left|by right]. Qed.

Lemma thread_at {A} (l : list A) i t y : l !! i = Some t → <[i := y]> l !! i = Some y.
Proof. intros Hi. apply list_lookup_insert_eq. by eapply lookup_lt_Some. Qed.

(** A step that neither makes nor deletes nor caches an object. *)
Lemma same_ok s i t y c pr :
  single_ok s → threads s !! i = Some t → owns y = owns t →
  (∀ o, took y = Some o → cached_object s = Some o) →
  (∀ d, d ∈ pr → d ∈ printed s ∨ ∃ o, cached_object s = Some o ∧ objects s !! o = Some d) →
  single_ok (State (cached_object s) (objects s) (fresh_id s) c pr (<[i := y]> (threads s))).
Proof.
  intros [Hl Ho Hc Ht Hf Hp] Hi Hown Htook Hpr.
  assert (∀ j u, <[i := y]> (threads s) !! j = Some u → ∃ u', threads s !! j = Some u' ∧ owns u' = owns u) as Hback.
  { intros j u [[-> ->]|[_ Hj]]%(thread_cases _ _ _ _ _ _ Hi); eauto. }
  constructor; cbn [objects cached_object threads fresh_id printed].
  - intros o. rewrite Hl. f_equiv. split; intros (j & u & Hj & Hu).
    + destruct (decide (j = i)) as [->|Hne]; [|exists j, u; by rewrite list_lookup_insert_ne].
      exists i, y. rewrite (thread_at _ _ _ _ Hi). split; [done|]. rewrite Hi in Hj. injection Hj as <-. congruence.
    + destruct (Hback j u Hj) as (u' & ? & ?). exists j, u'. split; [done|congruence].
  - intros j k u w o (u' & Hu & Eu)%Hback (w' & Hw & Ew)%Hback ? ?. eapply (Ho j k u' w' o); congruence.
  - intros j u o (u' & Hu & Eu)%Hback Hou. eapply Hc; [exact Hu|congruence].
  - intros j u o [[-> ->]|[_ Hj]]%(thread_cases _ _ _ _ _ _ Hi) Hu; [by apply Htook|by eapply Ht].
  - exact Hf.
  - intros d [Hd|Hd]%Hpr; [by apply Hp|done].
Qed.

(** A new object belongs to its thread. *)
Lemma new_ok s i c :
  single_ok s → threads s !! i = Some (StoreCount c) →
  single_ok (set_thread i (Exchange (fresh_id s)) (new_Singleton (c + 1) s)).
Proof.
  intros [Hl Ho Hc Ht Hf Hp] Hi. unfold set_thread, new_Singleton. cbn [objects cached_object threads fresh_id printed count].
  assert (objects s !! fresh_id s = None) as Hnew.
  { destruct (objects s !! fresh_id s) eqn:E; [|done]. assert (fresh_id s < fresh_id s)%nat by (apply Hf; eauto). lia. }
  assert (∀ o, cached_object s = Some o ∨ (∃ i t, threads s !! i = Some t ∧ owns t = Some o) → o ≠ fresh_id s) as Hother.
  { intros o Hlive%Hl ->. rewrite Hnew in Hlive. by destruct Hlive. }
  constructor; cbn [objects cached_object threads fresh_id printed].
  - intros o. destruct (decide (o = fresh_id s)) as [->|Hne].
    + rewrite lookup_insert_eq. split; [|eauto]. intros _. right. exists i, (Exchange (fresh_id s)).
      by rewrite (thread_at _ _ _ _ Hi).
    + rewrite lookup_insert_ne, Hl by done. f_equiv. split; intros (j & u & Hj & Hu).
      * exists j, u. rewrite list_lookup_insert_ne; [done|]. intros <-. by rewrite Hi in Hj; simplify_eq.
      * apply (thread_cases _ _ _ _ _ _ Hi) in Hj as [[-> ->]|[_ Hj]]; [simpl in Hu; congruence|eauto].
  - intros j k u w o [[-> ->]|[Hj' Hj]]%(thread_cases _ _ _ _ _ _ Hi) [[-> ->]|[Hk' Hk]]%(thread_cases _ _ _ _ _ _ Hi) Hu Hw.
    + done.
    + simpl in Hu. injection Hu as <-. destruct (Hother (fresh_id s)); [right; eauto|done].
    + simpl in Hw. injection Hw as <-. destruct (Hother (fresh_id s)); [right; eauto|done].
    + by eapply Ho.
  - intros j u o [[-> ->]|[_ Hj]]%(thread_cases _ _ _ _ _ _ Hi) Hu; [|by eapply Hc].
    simpl in Hu. injection Hu as <-. intros Hcached. by apply (Hother (fresh_id s)); [left|].
  - intros j u o [[-> ->]|[_ Hj]]%(thread_cases _ _ _ _ _ _ Hi) Hu; [done|by eapply Ht].
  - intros o. destruct (decide (o = fresh_id s)) as [->|Hne]; [lia|]. rewrite lookup_insert_ne by done. intros ?%Hf. lia.
  - intros d (o & E1 & E2)%Hp. exists o. split; [done|]. rewrite lookup_insert_ne; [done|]. intros <-. congruence.
Qed.

(** The first exchange that succeeds hands the object over to the cache. *)
Lemma exchange_ok s i o :
  single_ok s → threads s !! i = Some (Exchange o) → cached_object s = None →
  single_ok (State (Some o) (objects s) (fresh_id s) (count s) (printed s) (<[i := GetData o]> (threads s))).
Proof.
  intros [Hl Ho Hc Ht Hf Hp] Hi Hnone. constructor; cbn [objects cached_object threads fresh_id printed].
  - intros o'. rewrite Hl, Hnone. split.
    + intros [?|(j & u & Hj & Hu)]; [done|]. destruct (decide (j = i)) as [->|Hne].
      * rewrite Hi in Hj. injection Hj as <-. left. by injection Hu as <-.
      * right. exists j, u. by rewrite list_lookup_insert_ne.
    + intros [[= <-]|(j & u & Hj & Hu)]; right; [by exists i, (Exchange o)|].
      apply (thread_cases _ _ _ _ _ _ Hi) in Hj as [[-> ->]|[_ Hj]]; [done|eauto].
  - intros j k u w o' [[-> ->]|[_ Hj]]%(thread_cases _ _ _ _ _ _ Hi) [[-> ->]|[_ Hk]]%(thread_cases _ _ _ _ _ _ Hi) Hu Hw;
      try done. by eapply Ho.
  - intros j u o' [[-> ->]|[Hne Hj]]%(thread_cases _ _ _ _ _ _ Hi) Hu; [done|]. intros [= <-].
    apply Hne. by eapply (Ho j i u (Exchange o)).
  - intros j u o' [[-> ->]|[_ Hj]]%(thread_cases _ _ _ _ _ _ Hi) Hu; [done|]. specialize (Ht j u o' Hj Hu). congruence.
  - exact Hf.
  - intros d (o' & E & _)%Hp. congruence.
Qed.

(** The loser deletes its own object. *)
Lemma loser_deletes_ok s i o o' :
  single_ok s → threads s !! i = Some (Delete o o') →
  single_ok (State (cached_object s) (delete o (objects s)) (fresh_id s) (count s) (printed s) (<[i := GetData o']> (threads s))).
Proof.
  intros [Hl Ho Hc Ht Hf Hp] Hi. pose proof (Hc i _ o Hi eq_refl) as Hnc.
  constructor; cbn [objects cached_object threads fresh_id printed].
  - intros o1. destruct (decide (o1 = o)) as [->|Hne].
    + rewrite lookup_delete_eq. split; [by intros []|]. intros [?|(j & u & Hj & Hu)]; [done|].
      apply (thread_cases _ _ _ _ _ _ Hi) in Hj as [[-> ->]|[Hji Hj]]; [done|]. destruct Hji. by eapply (Ho j i u (Delete o o')).
    + rewrite lookup_delete_ne, Hl by done. f_equiv. split; intros (j & u & Hj & Hu).
      * exists j, u. rewrite list_lookup_insert_ne; [done|]. intros <-. rewrite Hi in Hj. simplify_eq. by injection Hu as <-.
      * apply (thread_cases _ _ _ _ _ _ Hi) in Hj as [[-> ->]|[_ Hj]]; [done|eauto].
  - intros j k u w o1 [[-> ->]|[_ Hj]]%(thread_cases _ _ _ _ _ _ Hi) [[-> ->]|[_ Hk]]%(thread_cases _ _ _ _ _ _ Hi) Hu Hw;
      try done. by eapply Ho.
  - intros j u o1 [[-> ->]|[_ Hj]]%(thread_cases _ _ _ _ _ _ Hi) Hu; [done|by eapply Hc].
  - intros j u o1 [[-> ->]|[_ Hj]]%(thread_cases _ _ _ _ _ _ Hi) Hu; [|by eapply Ht]. injection Hu as <-. by eapply Ht.
  - intros o1. destruct (decide (o1 = o)) as [->|Hne]; [rewrite lookup_delete_eq; by intros []|].
    rewrite lookup_delete_ne by done. apply Hf.
  - intros d (o1 & E1 & E2)%Hp. exists o1. split; [done|]. rewrite lookup_delete_ne; [done|]. congruence.
Qed.

Definition rank (t : pc) : nat :=
  match t with
  | Load => 6 | LoadCount => 5 | StoreCount _ => 4 | Exchange _ => 3 | Delete _ _ => 2 | GetData _ => 1 | Done _ => 0
  end.

(** No step is undefined, every step keeps the invariant, and it brings its thread nearer
    the end, unless the exchange failed spuriously or the thread is done. *)
Lemma single_step s i t spurious :
  single_ok s → threads s !! i = Some t →
  ∃ s', thread_step spurious i t s = Some s' ∧ single_ok s' ∧
    ((spurious = true ∨ rank t = 0%nat) ∧ s' = s ∨ (total rank (threads s') < total rank (threads s))%nat).
Proof.
  intros Hok Hi.
  assert (∀ y s', threads s' = <[i := y]> (threads s) → (rank y < rank t)%nat →
    (total rank (threads s') < total rank (threads s))%nat) as Hrank.
  { intros y s' -> Hlt. pose proof (total_insert rank _ i t y Hi). lia. }
  destruct t as [| |c|o|o o'|o|o]; cbn [thread_step rank] in *.
  - eexists. split; [reflexivity|]. split; [|right; eapply Hrank; [reflexivity|by destruct (cached_object s); simpl; lia]].
    apply (same_ok s i Load); [done..| | |by left]; [by destruct (cached_object s)|].
    intros o. destruct (cached_object s); simpl; congruence.
  - eexists. split; [reflexivity|]. split; [|right; eapply Hrank; [reflexivity|simpl; lia]].
    apply (same_ok s i LoadCount); [done..| |by left]. done.
  - eexists. split; [reflexivity|]. split; [by apply new_ok|right; eapply Hrank; [reflexivity|simpl; lia]].
  - unfold compare_exchange_weak. destruct (cached_object s) as [o'|] eqn:Hc; cbn -[total].
    + eexists. split; [reflexivity|]. split; [|right; eapply Hrank; [reflexivity|simpl; lia]].
      unfold set_thread. apply (same_ok s i (Exchange o)); [done..| |by left]. intros o1 [= <-]. exact Hc.
    + destruct spurious; cbn -[total]; (eexists; split; [reflexivity|]).
      * split; [done|]. left. by split; [left|].
      * split; [exact (exchange_ok s i o Hok Hi Hc)|right; eapply Hrank; [reflexivity|simpl; lia]].
  - assert (is_Some (objects s !! o)) as [d Hd] by (apply (si_live _ Hok); right; eauto). rewrite Hd. cbn -[total].
    eexists. split; [reflexivity|]. split; [exact (loser_deletes_ok s i o o' Hok Hi)|right; eapply Hrank; [reflexivity|simpl; lia]].
  - pose proof (si_took _ Hok i _ o Hi eq_refl) as Hc.
    assert (is_Some (objects s !! o)) as [d Hd] by (apply (si_live _ Hok); by left). rewrite Hd. cbn -[total].
    eexists. split; [reflexivity|]. split; [|right; eapply Hrank; [reflexivity|simpl; lia]].
    apply (same_ok s i (GetData o)); [done..| |].
    + intros o1 [= <-]. exact Hc.
    + intros d' [Hd'|Hd']%elem_of_app; [by left|]. apply list_elem_of_singleton in Hd' as ->. right. eauto.
  - eexists. split; [reflexivity|]. split; [done|]. left. by split; [right|].
Qed.

Lemma single_reachable n s : reachable (eq (init n)) step s → single_ok s ∧ length (threads s) = n.
Proof.
  apply (invariant_reachable _ _ (λ s, single_ok s ∧ length (threads s) = n)).
  - intros ? <-. split; [apply single_init|apply length_replicate].
  - intros s1 s2 [Hok Hn] (spurious & i & t & Hi & Hs).
    destruct (single_step s1 i t spurious Hok Hi) as (s3 & Hs' & Hok' & _). rewrite Hs in Hs'. injection Hs' as <-.
    split; [done|]. destruct t; simpl in Hs;
      try (destruct (objects s1 !! obj); [|done]; simpl in Hs);
      try (unfold compare_exchange_weak in Hs; destruct (cached_object s1), spurious);
      simplify_eq/=; try done; by rewrite length_insert.
Qed.
End LockFree.

(** C25: [get_object] under every interleaving and every spurious failure of the exchange: no
    object is used or deleted after its end; all threads that have an object have the
    same one, and all that printed printed its number; when all are done that object is
    the only one left. *)
Theorem singleton_unique n s :
  reachable (eq (LockFree.init n)) LockFree.step s →
  (∀ i t spurious, LockFree.threads s !! i = Some t → is_Some (LockFree.thread_step spurious i t s)) ∧
  (∀ i j t u o o', LockFree.threads s !! i = Some t → LockFree.threads s !! j = Some u →
     LockFree.took t = Some o → LockFree.took u = Some o' → o = o' ∧ is_Some (LockFree.objects s !! o)) ∧
  (∀ d d', d ∈ LockFree.printed s → d' ∈ LockFree.printed s → d = d') ∧
  (n ≠ 0%nat → Forall (λ t, LockFree.rank t = 0%nat) (LockFree.threads s) → ∃ o d, LockFree.objects s = {[o := d]}).
Proof.
  intros [Hok Hn]%LockFree.single_reachable. split_all.
  - intros i t spurious Hi. destruct (LockFree.single_step s i t spurious Hok Hi) as (s' & -> & _). eauto.
  - intros i j t u o o' Hi Hj Ht Hu. pose proof (LockFree.si_took _ Hok i t o Hi Ht) as E1.
    pose proof (LockFree.si_took _ Hok j u o' Hj Hu) as E2. split; [congruence|]. apply (LockFree.si_live _ Hok). by left.
  - intros d d' (o & E1 & E2)%(LockFree.si_printed _ Hok) (o' & E3 & E4)%(LockFree.si_printed _ Hok). congruence.
  - intros Hne Hdone. assert (is_Some (LockFree.threads s !! 0%nat)) as [t Ht] by (apply lookup_lt_is_Some; lia).
    rewrite Forall_forall in Hdone.
    assert (∀ i u, LockFree.threads s !! i = Some u → ∃ o, u = LockFree.Done o) as Hall.
    { intros i u Hu. assert (LockFree.rank u = 0%nat) as Hr by (apply Hdone, list_elem_of_lookup; eauto).
      destruct u; try done; eauto. }
    destruct (Hall _ _ Ht) as [o ->]. pose proof (LockFree.si_took _ Hok _ _ o Ht eq_refl) as Hc.
    assert (is_Some (LockFree.objects s !! o)) as [d Hd] by (apply (LockFree.si_live _ Hok); by left).
    exists o, d. apply map_eq. intros o'. destruct (decide (o' = o)) as [->|Hoo].
    + by rewrite lookup_singleton_eq.
    + rewrite lookup_singleton_ne by done. destruct (LockFree.objects s !! o') as [d'|] eqn:E; [|done].
      assert (is_Some (LockFree.objects s !! o')) as Hlive by eauto. apply (LockFree.si_live _ Hok) in Hlive.
      destruct Hlive as [Hlive|(i & u & Hu & Ho)]; [congruence|]. destruct (Hall _ _ Hu) as [o2 ->]. done.
Qed.

(** Only spurious failures can keep [get_object] from ending: every other step of a
    thread that is not done brings it nearer the end. *)
Theorem singleton_ends n s i t :
  reachable (eq (LockFree.init n)) LockFree.step s → LockFree.threads s !! i = Some t → LockFree.rank t ≠ 0%nat →
  ∃ s', LockFree.thread_step false i t s = Some s' ∧
    total LockFree.rank (LockFree.threads s') < total LockFree.rank (LockFree.threads s).
Proof.
  intros [Hok _]%LockFree.single_reachable Hi Ht.
  destruct (LockFree.single_step s i t false Hok Hi) as (s' & Hs & _ & [[[?|?] _]|Hlt]); [done..|eauto].
Qed.

(** Runs of [get_object], for examples: the threads that step, and whether an exchange
    fails spuriously. *)
Fixpoint lockfree_run (l : list (bool * nat)) (s : LockFree.state) : option LockFree.state :=
  match l with
  | [] => Some s
  | (spurious, i) :: l =>
      t ← LockFree.threads s !! i; s ← LockFree.thread_step spurious i t s; lockfree_run l s
  end.

Lemma lockfree_run_reachable l s0 s s' :
  lockfree_run l s = Some s' → reachable (eq s0) LockFree.step s → reachable (eq s0) LockFree.step s'.
Proof.
  revert s. induction l as [|[spurious i] l IH]; intros s Hrun Hr; [by injection Hrun as <-|]. simpl in Hrun.
  destruct (LockFree.threads s !! i) as [t|] eqn:Ht; [|done]. simpl in Hrun.
  destruct (LockFree.thread_step spurious i t s) as [s1|] eqn:Hs; [|done]. simpl in Hrun.
  eapply IH; [exact Hrun|]. eapply reachable_step; [exact Hr|]. by exists spurious, i, t.
Qed.

(** The constructor increments [count] without any protection: two threads can both be
    about to store it, which is a data race, and their objects get the same number. *)
Theorem count_race :
  ∃ s, reachable (eq (LockFree.init 2)) LockFree.step s ∧
    LockFree.threads s = [LockFree.StoreCount 0; LockFree.StoreCount 0].
Proof.
  eexists. split; [eapply (lockfree_run_reachable [(false, 0); (false, 0); (false, 1); (false, 1)] _ (LockFree.init 2));
    [vm_compute; reflexivity|by apply reachable_init]|reflexivity].
Qed.

(** ** Witnesses *)

(** Two threads race to the end, with a spurious failure: one object is left, and both
    print its number. *)
Definition race_end : LockFree.state :=
  LockFree.State (Some 0) {[0 := 1%Z]} 2 1%Z [1%Z; 1%Z] [LockFree.Done 0; LockFree.Done 0].

Lemma singleton_witness :
  reachable (eq (LockFree.init 2)) LockFree.step race_end ∧ ∃ o d, LockFree.objects race_end = {[o := d]}.
Proof.
  assert (reachable (eq (LockFree.init 2)) LockFree.step race_end) as Hr.
  { eapply (lockfree_run_reachable
      [(false, 0); (false, 0); (false, 1); (false, 1); (false, 0); (false, 1); (true, 0); (false, 0); (false, 1);
       (false, 1); (false, 1); (false, 0)] _ (LockFree.init 2)); [vm_compute; reflexivity|by apply reachable_init]. }
  split; [exact Hr|]. destruct (singleton_unique 2 race_end Hr) as (_ & _ & _ & Hend).
  apply Hend; [done|]. repeat constructor.
Defined.

Lemma spin_witness :
  ∃ s, reachable (eq (Spin.init 2)) Spin.step s ∧ (0 ≤ Spin.out s ≤ 80)%Z ∧ Spin.flag s = true.
Proof.
  exists (Spin.State true 0 [] [Spin.LoadOut 0; Spin.Acquire 0]).
  assert (reachable (eq (Spin.init 2)) Spin.step (Spin.State true 0 [] [Spin.LoadOut 0; Spin.Acquire 0])) as Hr.
  { eapply reachable_step; [by apply reachable_init|]. exists 0. vm_compute. reflexivity. }
  split; [exact Hr|]. split; [|done]. by destruct (spin_lock_safe 2 _ Hr) as (_ & Hout & _).
Defined.
