(* ===== verification/Threads.v ===== *)
(** [src/books/ldxcfwqbc/04_cpp_multi_threading_programming/thread.h] and [thread.cpp]: a
    [Thread] object, the POSIX thread it starts, and what they share: the [ThreadData]
    handed over to the new thread and the cell for its id, which the object holds by a
    [shared_ptr] and the data by a [weak_ptr].

    The client calls the members of one object from one thread, in any order the class
    allows; the started thread runs beside it, access by access. *)

From S2P Require Import Prelude.
Open Scope Z_scope.

(** * State *)

(** Where the started thread is in [start_thread] and [ThreadData::run]: at [_pid.lock()],
    at the store to [*ptid], at the thread's name, in [_func], at the name [finished], at
    the end of [run], at [delete data], and gone. *)
Inductive pc : Type := AtLock | AtStore | AtName | InFunc | AtFinished | AtReturn | AtDelete | Gone.
#[export] Instance pc_eq_dec : EqDecision pc.
Proof. solve_decision. Defined.

(** The POSIX thread, with the local [ptid] of [run] (whether it holds the cell) and its
    thread-local name; and what became of its handle. *)
Record posix : Type := Posix { at_pc : pc; ptid : bool; thread_name : string }.
Inductive handle : Type := Joinable | Joined | Detached.

(** The client's view of the object: before its constructor, alive, inside [join], gone. *)
Inductive life : Type := Unborn | Alive | Joining | Dead.

(** [tid_cell] is the cell's content while it is allocated, with the number of
    [shared_ptr]s to it. *)
Record state : Type := State {
  object : life;
  _started : bool;
  _joined : bool;
  _name : string;
  tid_cell : option (Z * nat);
  data : bool;
  posix_thread : option posix;
  pthread_id : option handle;
  _threads_created : Z;
  runs : nat
}.

Definition initial (created : Z) (name : string) : state :=
  State Unborn false false name None false None None created 0.

(** The result of a call: a failed assertion, [abort], or undefined behaviour. *)
Inductive outcome : Type := Next (s : state) | Abort | Undefined.

(** * The class *)

Definition set_object (l : life) (s : state) : state :=
  State l (_started s) (_joined s) (_name s) (tid_cell s) (data s) (posix_thread s) (pthread_id s)
    (_threads_created s) (runs s).

(** The constructor makes the cell. *)
Definition Thread (s : state) : state :=
  State Alive false false (_name s) (Some (0, 1%nat)) (data s) (posix_thread s) (pthread_id s)
    (i32 (_threads_created s + 1)) (runs s).

(** One [shared_ptr] to the cell less. *)
Definition release (c : option (Z * nat)) : option (Z * nat) :=
  match c with Some (v, S (S n)) => Some (v, S n) | _ => None end.

(** [start], with the answer of [pthread_create]. *)
Definition start (created : bool) (s : state) : outcome :=
  if _started s then Abort
  else if created then
    Next (State (object s) true (_joined s) (_name s) (tid_cell s) true (Some (Posix AtLock false "UnnamedThread"))
            (Some Joinable) (_threads_created s) (runs s))
  else Abort.

(** [join] up to the call of [pthread_join], and its return. *)
Definition join (s : state) : outcome :=
  if negb (_started s) then Abort else if _joined s then Abort
  else Next (State Joining (_started s) true (_name s) (tid_cell s) (data s) (posix_thread s) (pthread_id s)
               (_threads_created s) (runs s)).
Definition pthread_join (s : state) : outcome :=
  match pthread_id s with
  | Some Joinable =>
      Next (State Alive (_started s) (_joined s) (_name s) (tid_cell s) (data s) (posix_thread s) (Some Joined)
              (_threads_created s) (runs s))
  | _ => Undefined
  end.

(** The destructor: detaches a thread that runs unjoined, and the members go. *)
Definition Thread_destroy (s : state) : outcome :=
  if _started s && negb (_joined s) then
    match pthread_id s with
    | Some Joinable =>
        Next (State Dead (_started s) (_joined s) (_name s) (release (tid_cell s)) (data s) (posix_thread s)
                (Some Detached) (_threads_created s) (runs s))
    | _ => Undefined
    end
  else Next (State Dead (_started s) (_joined s) (_name s) (release (tid_cell s)) (data s) (posix_thread s)
               (pthread_id s) (_threads_created s) (runs s)).

(** [tid()]. *)
Definition tid (s : state) : option Z := fst <$> tid_cell s.

(** * The started thread *)

Definition set_posix (p : posix) (s : state) : state :=
  State (object s) (_started s) (_joined s) (_name s) (tid_cell s) (data s) (Some p) (pthread_id s)
    (_threads_created s) (runs s).
Definition set_cell (c : option (Z * nat)) (s : state) : state :=
  State (object s) (_started s) (_joined s) (_name s) c (data s) (posix_thread s) (pthread_id s) (_threads_created s) (runs s).
Definition delete_data (s : state) : state :=
  State (object s) (_started s) (_joined s) (_name s) (tid_cell s) false (posix_thread s) (pthread_id s)
    (_threads_created s) (runs s).
Definition run_func (s : state) : state :=
  State (object s) (_started s) (_joined s) (_name s) (tid_cell s) (data s) (posix_thread s) (pthread_id s)
    (_threads_created s) (S (runs s)).

(** One access of the thread whose id is [id]; the members of [ThreadData] need the data. *)
Definition thread_step (id : Z) (p : posix) (s : state) : outcome :=
  let move c s := Next (set_posix (Posix c (ptid p) (thread_name p)) s) in
  match at_pc p with
  | AtLock =>
      if data s then
        match tid_cell s with
        | Some (v, n) => Next (set_posix (Posix AtStore true (thread_name p)) (set_cell (Some (v, S n)) s))
        | None => move AtName s
        end
      else Undefined
  | AtStore =>
      match tid_cell s with
      | Some (v, n) => move AtName (set_cell (Some (id, n)) s)
      | None => Undefined
      end
  | AtName =>
      if data s then
        Next (set_posix (Posix InFunc (ptid p) (if String.eqb (_name s) "" then thread_name p else _name s)) s)
      else Undefined
  | InFunc => if data s then move AtFinished (run_func s) else Undefined
  | AtFinished => Next (set_posix (Posix AtReturn (ptid p) "finished") s)
  | AtReturn =>
      Next (set_posix (Posix AtDelete false (thread_name p))
        (if ptid p then set_cell (release (tid_cell s)) s else s))
  | AtDelete => if data s then move Gone (delete_data s) else Undefined
  | Gone => Next s
  end.

(** * Steps *)

Section steps.
Context (id : Z).

(** What can happen next; [created] is the answer of [pthread_create]. *)
Inductive outcome_of (s : state) : outcome → Prop :=
  | DoConstruct : object s = Unborn → outcome_of s (Next (Thread s))
  | DoStart created : object s = Alive → outcome_of s (start created s)
  | DoJoin : object s = Alive → outcome_of s (join s)
  | DoPthreadJoin p :
      object s = Joining → posix_thread s = Some p → at_pc p = Gone → outcome_of s (pthread_join s)
  | DoDestroy : object s = Alive → outcome_of s (Thread_destroy s)
  | DoThread p : posix_thread s = Some p → at_pc p ≠ Gone → outcome_of s (thread_step id p s).
Definition step (s s' : state) : Prop := outcome_of s (Next s').

(** ** The invariant *)

Definition holds (l : life) : bool := match l with Alive | Joining => true | _ => false end.
Definition has_ptid (s : state) : bool := from_option ptid false (posix_thread s).
Definition users (s : state) : nat := ((if holds (object s) then 1 else 0) + (if has_ptid s then 1 else 0))%nat.

(** The positions at which the thread has its [ptid], and those behind the store and
    behind [_func]. *)
Definition may_hold (c : pc) : bool := match c with AtLock | AtDelete | Gone => false | _ => true end.
Definition stored (c : pc) : bool := match c with AtLock | AtStore => false | _ => true end.
Definition ran (c : pc) : bool := match c with AtFinished | AtReturn | AtDelete | Gone => true | _ => false end.

Definition cell_ok (s : state) : Prop :=
  match tid_cell s with
  | Some (v, n) => n = users s ∧ n ≠ 0%nat ∧ (v = 0 ∨ v = id)
  | None => users s = 0%nat
  end.

Definition started_ok (p : posix) (s : state) : Prop :=
  data s = negb (bool_decide (at_pc p = Gone)) ∧
  (ptid p = true → may_hold (at_pc p) = true) ∧ (at_pc p = AtStore → ptid p = true) ∧
  (stored (at_pc p) = true → holds (object s) = true → tid s = Some id) ∧
  runs s = (if ran (at_pc p) then 1 else 0)%nat ∧ object s ≠ Unborn ∧
  match pthread_id s with
  | Some Joinable => (object s = Alive ∧ _joined s = false) ∨ (object s = Joining ∧ _joined s = true)
  | Some Joined => at_pc p = Gone ∧ _joined s = true ∧ object s ≠ Joining
  | Some Detached => object s = Dead ∧ _joined s = false
  | None => False
  end.

Definition thread_ok (s : state) : Prop :=
  cell_ok s ∧
  match posix_thread s with
  | None => _started s = false ∧ _joined s = false ∧ pthread_id s = None ∧ data s = false ∧ runs s = 0%nat ∧ object s ≠ Joining
  | Some p => _started s = true ∧ started_ok p s
  end.

(** The outcomes that a client may meet: a state that is again all right, or [abort]. *)
Definition fine (o : outcome) : Prop :=
  match o with Next s => thread_ok s | Abort => True | Undefined => False end.

(** The accesses of the thread. *)
Lemma posix_fine s p : thread_ok s → posix_thread s = Some p → at_pc p ≠ Gone → fine (thread_step id p s).
Proof.
  intros [Hc Hp] Hpt Hg. destruct s as [ob st jn nm cell dt pt ph cr rn]. simpl in Hpt. subst pt.
  unfold cell_ok, users, has_ptid in Hc. unfold started_ok, tid in Hp. destruct p as [c hold name]. simpl in *.
  destruct Hp as (-> & -> & Hm & Hst & Hv & -> & Hob & Hh).
  assert (∀ c', match ph with
    | Some Joinable => (ob = Alive ∧ jn = false) ∨ (ob = Joining ∧ jn = true)
    | Some Joined => c' = Gone ∧ jn = true ∧ ob ≠ Joining
    | Some Detached => ob = Dead ∧ jn = false
    | None => False end) as Hh'
    by (intros c'; destruct ph as [[| |]|]; [exact Hh|by destruct Hh|exact Hh|exact Hh]).
  clear Hh. destruct c; simpl in *; try done;
    unfold fine, thread_ok, cell_ok, users, has_ptid, started_ok, tid; simpl.
  - destruct hold; [by specialize (Hm eq_refl)|]. destruct cell as [[v n]|]; simpl.
    + destruct Hc as (-> & _ & Hval). rewrite Nat.add_0_r. split_all; try done; try apply Hh'; try lia.
    + split_all; try done; try apply Hh'. destruct (holds ob); done.
  - rewrite (Hst eq_refl) in *. destruct cell as [[v n]|]; simpl; [|lia].
    destruct Hc as (-> & Hn & _). split_all; try done; try apply Hh'. by right.
  - split_all; try done; try apply Hh'.
  - split_all; try done; try apply Hh'.
  - split_all; try done; try apply Hh'.
  - assert (match (if hold then release cell else cell) with
      | Some (v, n) => n = ((if holds ob then 1 else 0) + 0)%nat ∧ n ≠ 0%nat ∧ (v = 0 ∨ v = id) ∧
          (holds ob = true → (fst <$> cell) = Some v)
      | None => ((if holds ob then 1 else 0) + 0)%nat = 0%nat end) as Hrel.
    { destruct hold; destruct cell as [[v [|[|n]]]|]; destruct (holds ob); simpl in *; naive_solver lia. }
    specialize (Hv eq_refl). destruct hold; simpl.
    + destruct (release cell) as [[v n]|]; split_all; try done; try apply Hh'; try apply Hrel.
      * intros _ Ho. destruct Hrel as (_ & _ & _ & Hrel). simpl. rewrite <- Hrel by done. by apply Hv.
      * intros _ Ho. rewrite Ho in Hrel. done.
    + split_all; try done; try apply Hh'.
  - split_all; try done; try apply Hh'.
Qed.

(** No call of the client and no access of the thread is undefined. *)
Lemma outcome_fine s o : thread_ok s → outcome_of s o → fine o.
Proof.
  intros Hok Ho. destruct Ho as [Hl|created Hl|Hl|p Hl Hpt Hg|Hl|p Hpt Hg]; [..|by apply posix_fine];
    destruct Hok as [Hc Hp]; destruct s as [ob st jn nm cell dt pt ph cr rn];
    unfold cell_ok, users, has_ptid in Hc; unfold started_ok, tid in Hp;
    simpl in *; subst; unfold fine, thread_ok, start, join, pthread_join, Thread_destroy, cell_ok, users, has_ptid, started_ok, tid;
    simpl in *.
  - destruct pt as [p|]; [by destruct Hp as (_ & _ & _ & _ & _ & _ & ? & _)|]. naive_solver.
  - destruct st; [done|]. destruct created; [|done]. destruct pt as [p|]; [by destruct Hp|].
    destruct cell as [[v n]|]; naive_solver.
  - destruct st; [|done]. destruct jn; [done|]. destruct pt as [p|]; [|by destruct Hp].
    destruct ph as [[| |]|]; naive_solver.
  - destruct ph as [[| |]|]; naive_solver.
  - assert (∀ p : bool, match release cell with
      | Some (v, n) => n = (if p then 1 else 0)%nat ∧ n ≠ 0%nat ∧ (v = 0 ∨ v = id)
      | None => (if p then 1 else 0)%nat = 0%nat end ↔
      match cell with
      | Some (v, n) => n = (1 + if p then 1 else 0)%nat ∧ n ≠ 0%nat ∧ (v = 0 ∨ v = id)
      | None => (1 + if p then 1 else 0)%nat = 0%nat end) as Hrel.
    { intros q. destruct cell as [[v [|[|n]]]|], q; simpl; naive_solver lia. }
    destruct pt as [p|]; simpl in *.
    + destruct Hp as (-> & Hp). destruct jn; simpl; rewrite <- Hrel in Hc; destruct ph as [[| |]|]; naive_solver.
    + destruct Hp as (-> & Hp). simpl. apply (Hrel false) in Hc. naive_solver.
Qed.


Lemma life_step_ok s s' : thread_ok s → step s s' → thread_ok s'.
Proof. intros Hok Hs. exact (outcome_fine s (Next s') Hok Hs). Qed.

Lemma thread_initial_ok created name : thread_ok (initial created name).
Proof. unfold thread_ok, cell_ok, users, has_ptid. simpl. naive_solver. Qed.
End steps.

(** A [Thread] object and the thread it starts, however their accesses interleave: no
    access meets anything that is gone, and no handle is joined or detached twice; the
    function runs at most once; once [join] has returned it has run and [tid] gives the
    thread's id; and when both are gone, so are the data, the cell and the handle. *)
Theorem thread_life id created name s :
  reachable (eq (initial created name)) (step id) s →
  (∀ o, outcome_of id s o → o ≠ Undefined) ∧ (runs s ≤ 1)%nat ∧
  (object s = Alive → _joined s = true → runs s = 1%nat ∧ tid s = Some id) ∧
  (object s = Dead → from_option (λ p, at_pc p = Gone) True (posix_thread s) →
     tid_cell s = None ∧ data s = false ∧ pthread_id s ≠ Some Joinable).
Proof.
  intros Hr. assert (thread_ok id s) as Hok.
  { revert s Hr. apply invariant_reachable; [intros ? <-; apply thread_initial_ok|apply life_step_ok]. }
  split; [|destruct Hok as [Hc Hp]; destruct s as [ob st jn nm cell dt pt ph cr rn];
    unfold cell_ok, users, has_ptid in Hc; unfold started_ok, tid in *; simpl in *].
  - intros o Ho ->. exact (outcome_fine id s Undefined Hok Ho).
  - destruct pt as [[c hold tn]|]; simpl in *.
    + destruct Hp as (-> & -> & Hm & Hst & Hv & -> & Hob & Hh). split_all.
      * destruct (ran c); lia.
      * intros -> ->. destruct ph as [[| |]|]; naive_solver.
      * intros -> ->. destruct hold; [by specialize (Hm eq_refl)|]. simpl in Hc. destruct cell as [[v n]|]; [naive_solver|].
        split_all; [done|done|]. destruct ph as [[| |]|]; naive_solver.
    + destruct Hp as (-> & -> & -> & -> & -> & Hob). split_all; [lia|done|]. intros -> _.
      destruct cell as [[v n]|]; [naive_solver|]. by split_all.
Qed.

(** ** Examples *)

(** The client's calls and the thread's accesses, for example runs. *)
Inductive event : Type := Construct | Start | Join | PthreadJoin | Destroy | Run.
Definition next (id : Z) (ev : event) (s : state) : option state :=
  let ok b o := match o with Next s' => if b : bool then Some s' else None | _ => None end in
  match ev, object s, posix_thread s with
  | Construct, Unborn, _ => Some (Thread s)
  | Start, Alive, _ => ok true (start true s)
  | Join, Alive, _ => ok true (join s)
  | PthreadJoin, Joining, Some p => ok (bool_decide (at_pc p = Gone)) (pthread_join s)
  | Destroy, Alive, _ => ok true (Thread_destroy s)
  | Run, _, Some p => ok (negb (bool_decide (at_pc p = Gone))) (thread_step id p s)
  | _, _, _ => None
  end.

Lemma next_step id ev s s' : next id ev s = Some s' → step id s s'.
Proof.
  assert (∀ b o, (match o with Next s' => if b : bool then Some s' else None | _ => None end) = Some s' →
    b = true ∧ o = Next s') as Hok by (intros b []; try done; destruct b; naive_solver).
  unfold next, step. intros Hs. destruct ev, (object s) eqn:Ho; try done.
  1: injection Hs as <-; by constructor.
  all: try (apply (Hok true) in Hs as [_ <-]; by constructor).
  all: destruct (posix_thread s) as [p|] eqn:Hp; [|done]; apply Hok in Hs as [Hb <-];
    try (apply bool_decide_eq_true in Hb); try (apply negb_true_iff, bool_decide_eq_false in Hb); by econstructor.
Qed.

Fixpoint run (id : Z) (evs : list event) (s : state) : option state :=
  match evs with
  | [] => Some s
  | ev :: evs => next id ev s ≫= run id evs
  end.

Lemma run_reachable id init evs s s' :
  run id evs s = Some s' → reachable init (step id) s → reachable init (step id) s'.
Proof.
  revert s. induction evs as [|ev evs IH]; intros s Hrun Hr; [by injection Hrun as <-|]. simpl in Hrun.
  destruct (next id ev s) as [s1|] eqn:Hs; [|done]. simpl in Hrun.
  eapply IH; [exact Hrun|]. eapply reachable_step; [exact Hr|]. by eapply next_step.
Qed.

(** [tid] reads the cell while the new thread is about to write it, without any
    synchronisation: directly after [start] it gives 0, or is a data race. *)
Theorem tid_races :
  ∃ s, reachable (eq (initial 0 "worker")) (step 4711) s ∧
    object s = Alive ∧ _started s = true ∧ tid s = Some 0 ∧ at_pc <$> posix_thread s = Some AtStore.
Proof.
  exists (State Alive true false "worker" (Some (0, 2%nat)) true (Some (Posix AtStore true "UnnamedThread")) (Some Joinable) 1 0).
  split; [|by split_all].
  apply (run_reachable 4711 _ [Construct; Start; Run] (initial 0 "worker")); [vm_compute; reflexivity|by apply reachable_init].
Qed.

(** ** Witness *)

(** A thread that has been started and joined. *)
Definition joined_thread : state :=
  State Alive true true "worker" (Some (4711, 1%nat)) false (Some (Posix Gone false "finished")) (Some Joined) 1 1.

Lemma thread_life_witness :
  reachable (eq (initial 0 "worker")) (step 4711) joined_thread ∧ runs joined_thread = 1%nat ∧ tid joined_thread = Some 4711.
Proof.
  assert (reachable (eq (initial 0 "worker")) (step 4711) joined_thread) as Hr.
  { apply (run_reachable 4711 _ [Construct; Start; Join; Run; Run; Run; Run; Run; Run; Run; PthreadJoin] (initial 0 "worker"));
      [vm_compute; reflexivity|by apply reachable_init]. }
  split; [exact Hr|]. destruct (thread_life 4711 0 "worker" joined_thread Hr) as (_ & _ & H & _). by apply H.
Defined.
