(* ===== verification/Icmp.v ===== *)
(** [src/books/asio/examples/icmp]: the header class and the checksum of
    [icmp_header.h], and the [pinger] of [ping.cpp].

    A header is its array of eight bytes. [ipv4_header.h] is a copy of [icmp_header.h]
    (guard and class included), so the class [ipv4_header] that [ping.cpp] reads is
    nowhere in the repository: what reading it does to the received bytes is a
    parameter. *)

From S2P Require Import Prelude.
#[local] Open Scope Z_scope.

(** * [icmp_header] *)

Definition echo_reply : Z := 0.
Definition echo_request : Z := 8.

Abbreviation icmp_header := (list Z).

(** [std::array<unsigned char, 8> data{0}] *)
Definition icmp_init : icmp_header := replicate 8 0.
Definition byte_at (h : icmp_header) (i : nat) : Z := default 0 (h !! i).

(** [encode] and [decode]: two bytes, the high one first. *)
Definition encode (a b : nat) (n : Z) (h : icmp_header) : icmp_header :=
  <[b := u8 (Z.land n 0xff)]> (<[a := u8 (Z.shiftr n 8)]> h).
Definition decode (a b : nat) (h : icmp_header) : Z :=
  u16 (Z.shiftl (byte_at h a) 8 + byte_at h b).

Definition type (h : icmp_header) : Z := byte_at h 0.
Definition set_type (n : Z) (h : icmp_header) : icmp_header := <[0%nat := n]> h.
Definition code (h : icmp_header) : Z := byte_at h 1.
Definition set_code (n : Z) (h : icmp_header) : icmp_header := <[1%nat := n]> h.
Definition checksum (h : icmp_header) : Z := decode 2 3 h.
Definition set_checksum (n : Z) (h : icmp_header) : icmp_header := encode 2 3 n h.
Definition identifier (h : icmp_header) : Z := decode 4 5 h.
Definition set_identifier (n : Z) (h : icmp_header) : icmp_header := encode 4 5 n h.
Definition sequence_number (h : icmp_header) : Z := decode 6 7 h.
Definition set_sequence_number (n : Z) (h : icmp_header) : icmp_header := encode 6 7 n h.

(** [operator<<] writes the eight bytes; [operator>>] reads eight, or fails. *)
Definition write_header (h : icmp_header) (out : list Z) : list Z := out ++ h.
Definition read_header (inp : list Z) : option (icmp_header * list Z) :=
  if decide (8 ≤ length inp)%nat then Some (take 8 inp, drop 8 inp) else None.

(** * [compute_checksum] *)

(** The loop over the body, two bytes at a time. *)
Fixpoint add_body (sum : Z) (body : list Z) : Z :=
  match body with
  | [] => sum
  | [b] => u32 (sum + Z.shiftl (u8 b) 8)
  | b :: c :: body => add_body (u32 (u32 (sum + Z.shiftl (u8 b) 8) + u8 c)) body
  end.

(** The carries are added back, twice, and the bits inverted. *)
Definition fold_sum (sum : Z) : Z :=
  let sum := u32 (Z.shiftr sum 16 + Z.land sum 0xffff) in
  let sum := u32 (sum + Z.shiftr sum 16) in
  u16 (Z.lnot sum).

Definition compute_checksum (h : icmp_header) (body : list Z) : icmp_header :=
  let sum := u32 (Z.shiftl (type h) 8 + code h + identifier h + sequence_number h) in
  set_checksum (fold_sum (add_body sum body)) h.

(** * The fields *)

(** What the class stands for: five numbers of 8 and 16 bits. *)
Record fields : Type := Fields { f_type : Z; f_code : Z; f_checksum : Z; f_identifier : Z; f_sequence : Z }.

Inductive setter : Type :=
  | SetType (n : Z) | SetCode (n : Z) | SetChecksum (n : Z) | SetIdentifier (n : Z) | SetSequence (n : Z).

(** The argument has the type of the setter's parameter. *)
Definition well_typed (c : setter) : Prop :=
  match c with
  | SetType n | SetCode n => in_unsigned 8 n
  | SetChecksum n | SetIdentifier n | SetSequence n => in_unsigned 16 n
  end.

Definition run_setter (c : setter) (h : icmp_header) : icmp_header :=
  match c with
  | SetType n => set_type n h
  | SetCode n => set_code n h
  | SetChecksum n => set_checksum n h
  | SetIdentifier n => set_identifier n h
  | SetSequence n => set_sequence_number n h
  end.

Definition set_field (c : setter) (f : fields) : fields :=
  match c, f with
  | SetType n, Fields _ b c d e => Fields n b c d e
  | SetCode n, Fields a _ c d e => Fields a n c d e
  | SetChecksum n, Fields a b _ d e => Fields a b n d e
  | SetIdentifier n, Fields a b c _ e => Fields a b c n e
  | SetSequence n, Fields a b c d _ => Fields a b c d n
  end.

Definition view (h : icmp_header) : fields :=
  Fields (type h) (code h) (checksum h) (identifier h) (sequence_number h).

(** A header is eight bytes. *)
Definition header_ok (h : icmp_header) : Prop := length h = 8%nat ∧ Forall (in_unsigned 8) h.

Lemma header_bytes h :
  header_ok h -> ∃ a b c d e f g i, h = [a; b; c; d; e; f; g; i] ∧ Forall (in_unsigned 8) h.
Proof.
  intros [Hl Hf]. do 8 (destruct h as [|? h]; [done|]). destruct h; [|done].
  do 8 eexists. by split.
Qed.

Lemma u8_range z : in_unsigned 8 (u8 z).
Proof. by apply wrap_range. Qed.

(** Two bytes and the number they make. *)
Lemma join_split n : in_unsigned 16 n -> u16 (Z.shiftl (u8 (Z.shiftr n 8)) 8 + u8 (Z.land n 0xff)) = n.
Proof.
  unfold in_unsigned. intros ?. change 0xff with (Z.ones 8).
  rewrite Z.land_ones, Z.shiftr_div_pow2, Z.shiftl_mul_pow2 by lia. unfold u16, u8, wrap.
  change (2 ^ 8) with 256 in *. change (2 ^ 16) with 65536 in *.
  rewrite (Z.mod_small (n / 256)), Z.mod_mod, Z.mod_small by (Z.to_euclidean_division_equations; lia).
  Z.to_euclidean_division_equations. lia.
Qed.

Lemma setter_ok c h :
  header_ok h -> well_typed c -> header_ok (run_setter c h) ∧ view (run_setter c h) = set_field c (view h).
Proof.
  intros (a & b & d & e & f & g & i & j & -> & Hf)%header_bytes Hc. rewrite !Forall_cons in Hf.
  destruct c as [n|n|n|n|n]; simpl in Hc; unfold run_setter, set_type, set_code, set_checksum, set_identifier,
    set_sequence_number, encode; simpl;
    (split; [split; [done|]; rewrite !Forall_cons; split_all; try apply u8_range; tauto|]);
    unfold view, type, code, checksum, identifier, sequence_number, decode, byte_at; simpl;
    try (f_equal; by apply join_split); done.
Qed.

Lemma read_write h rest : header_ok h -> read_header (write_header h [] ++ rest) = Some (h, rest).
Proof.
  intros [Hl _]. unfold write_header, read_header. simpl app.
  rewrite decide_True by (rewrite length_app, Hl; lia). by rewrite take_app_length', drop_app_length' by done.
Qed.

(** C20: The class is a record of numbers: whatever is set, in any order, the array stays
    eight bytes, each field reads as it was last set and setting one leaves the others;
    written and read back it is the same header. *)
Theorem icmp_header_is_fields cs h rest :
  header_ok h -> Forall well_typed cs ->
  let h' := foldl (λ h c, run_setter c h) h cs in
  header_ok h' ∧ view h' = foldl (λ f c, set_field c f) (view h) cs ∧
  read_header (write_header h' [] ++ rest) = Some (h', rest).
Proof.
  intros Hh Hcs h'. assert (header_ok h' ∧ view h' = foldl (λ f c, set_field c f) (view h) cs) as [Hok Hv].
  { subst h'. revert h Hh. induction Hcs as [|c cs Hc _ IH]; intros h Hh; [done|]. simpl.
    destruct (setter_ok c h Hh Hc) as [Hh' <-]. by apply IH. }
  split_all; [done|done|]. by apply read_write.
Qed.

(** * The checksum *)

(** The 16-bit words of a message; an odd byte at the end is padded with zero. *)
Fixpoint words16 (l : list Z) : list Z :=
  match l with
  | [] => []
  | [b] => [256 * b]
  | b :: c :: l => 256 * b + c :: words16 l
  end.

(** The ones' complement sum a receiver computes: a carry is added back. *)
Definition oc_add (a b : Z) : Z := if a + b <? 65536 then a + b else a + b - 65535.
Definition oc_sum (l : list Z) : Z := foldl oc_add 0 l.

Definition sum (l : list Z) : Z := foldr Z.add 0 l.

Lemma sum_app l1 l2 : sum (l1 ++ l2) = sum l1 + sum l2.
Proof. induction l1; simpl in *; lia. Qed.

(** Induction two elements at a time. *)
Lemma two_ind {A} (P : list A -> Prop) :
  P [] -> (∀ x, P [x]) -> (∀ x y l, P l -> P (x :: y :: l)) -> ∀ l, P l.
Proof.
  intros H0 H1 H2 l. enough (P l ∧ ∀ x, P (x :: l)) by tauto.
  induction l as [|y l [? ?]]; [auto|]. split; auto.
Qed.

Lemma words16_range l : Forall (in_unsigned 8) l -> Forall (in_unsigned 16) (words16 l).
Proof.
  induction l as [|b|b c l IH] using two_ind; rewrite ?Forall_cons; unfold in_unsigned in *; simpl; intros H;
    repeat constructor; try lia. apply IH. tauto.
Qed.

Lemma words16_sum l :
  Forall (in_unsigned 8) l -> 0 <= sum (words16 l) /\ 2 * sum (words16 l) <= 65535 * (Z.of_nat (length l) + 1).
Proof.
  induction l as [|b|b c l IH] using two_ind; rewrite ?Forall_cons; unfold in_unsigned in *; simpl; intros H; [lia..|].
  fold (sum (words16 l)). destruct IH; [tauto|]. lia.
Qed.

Lemma u8_id z : in_unsigned 8 z -> u8 z = z.
Proof. apply (wrap_id 8). Qed.

(** The loop adds up the words, modulo [2^32]. *)
Lemma add_body_sum body s :
  Forall (in_unsigned 8) body -> in_unsigned 32 s -> add_body s body = u32 (s + sum (words16 body)).
Proof.
  revert s. induction body as [|b|b c body IH] using two_ind; intros s Hb Hs; rewrite ?Forall_cons in Hb; simpl.
  - unfold u32. rewrite wrap_id; [lia|]. by rewrite Z.add_0_r.
  - rewrite u8_id, Z.shiftl_mul_pow2 by (tauto || lia). f_equal. lia.
  - fold (sum (words16 body)). rewrite !u8_id, Z.shiftl_mul_pow2 by (tauto || lia).
    rewrite IH; [|tauto|by apply wrap_range]. unfold u32. rewrite wrap_add_l, <- (Z.add_assoc _ (c : Z)), wrap_add_l by lia. f_equal. lia.
Qed.

Lemma oc_sum_spec l :
  Forall (in_unsigned 16) l ->
  0 <= oc_sum l <= 65535 ∧ (oc_sum l) mod 65535 = sum l mod 65535 ∧ (0 < sum l -> 0 < oc_sum l).
Proof.
  unfold oc_sum. intros Hl.
  enough (∀ a, 0 <= a <= 65535 -> 0 <= foldl oc_add a l <= 65535 ∧
    (foldl oc_add a l) mod 65535 = (a + sum l) mod 65535 ∧ (0 < a + sum l -> 0 < foldl oc_add a l)) as H.
  { apply (H 0). lia. }
  induction Hl as [|x l Hx Hl IH]; intros a Ha; simpl; [by rewrite Z.add_0_r|].
  fold (sum l). unfold in_unsigned in Hx.
  assert (0 <= sum l) as Hs.
  { clear IH. induction Hl as [|y l Hy _ IHl]; simpl; [lia|]. unfold in_unsigned in Hy. fold (sum l). lia. }
  assert (0 <= oc_add a x <= 65535 ∧ (oc_add a x) mod 65535 = (a + x) mod 65535 ∧ (0 < a + x -> 0 < oc_add a x))
    as (Hr & Hm & Hp).
  { unfold oc_add. destruct (a + x <? 65536) eqn:E; [apply Z.ltb_lt in E|apply Z.ltb_ge in E]; split_all; try lia.
    replace (a + x - 65535) with (a + x + (-1) * 65535) by lia. apply Z_mod_plus_full. }
  destruct (IH _ Hr) as (? & Hm' & ?). split_all; [lia|lia| |lia].
  rewrite Hm', <- Zplus_mod_idemp_l, Hm, Zplus_mod_idemp_l. f_equal. lia.
Qed.

(** Folding twice and inverting completes the sum to a multiple of 65535. *)
Lemma fold_checksum s :
  in_unsigned 32 s ->
  in_unsigned 16 (fold_sum s) ∧ (s + fold_sum s) mod 65535 = 0 ∧ 0 < s + fold_sum s.
Proof.
  unfold in_unsigned, fold_sum. intros Hs. change 0xffff with (Z.ones 16).
  set (s1 := u32 (Z.shiftr s 16 + Z.land s (Z.ones 16))).
  assert (s1 = s / 65536 + s mod 65536 ∧ 0 <= s1 <= 131070) as [E1 R1].
  { subst s1. rewrite Z.land_ones, Z.shiftr_div_pow2 by lia. change (2 ^ 16) with 65536.
    unfold u32. rewrite wrap_id; unfold in_unsigned; change (2 ^ 32) with 4294967296 in *;
      Z.to_euclidean_division_equations; lia. }
  rewrite (Z.shiftr_div_pow2 s1) by lia. change (2 ^ 16) with 65536. clearbody s1.
  assert (0 <= s1 / 65536 <= 1) as Hq by (Z.to_euclidean_division_equations; lia).
  unfold u32. rewrite (wrap_id 32) by (unfold in_unsigned; lia). unfold u16, wrap.
  replace (Z.lnot (s1 + s1 / 65536)) with (- (s1 + s1 / 65536) - 1) by (unfold Z.lnot; lia).
  change (2 ^ 16) with 65536. change (2 ^ 32) with 4294967296 in *. set (q1 := s1 / 65536) in *.
  assert ((- (s1 + q1) - 1) mod 65536 = if q1 =? 0 then 65535 - s1 else 131070 - s1) as ->.
  { assert (q1 = 0 ∨ q1 = 1) as [E|E] by lia; rewrite E; simpl; subst q1.
    - rewrite <- (Z_mod_plus_full _ 1), Z.mod_small; Z.to_euclidean_division_equations; lia.
    - rewrite <- (Z_mod_plus_full _ 2), Z.mod_small; Z.to_euclidean_division_equations; lia. }
  assert (s = 65536 * (s / 65536) + s mod 65536) as Hdiv by (Z.to_euclidean_division_equations; lia).
  assert (q1 = 0 ∨ q1 = 1) as [E|E] by lia; rewrite E; cbv iota; unfold Z.eqb;
    (assert (0 <= s / 65536 ∧ 0 <= s mod 65536) as [? ?] by (Z.to_euclidean_division_equations; lia)).
  - assert (0 <= s1 < 65536) by (subst q1; Z.to_euclidean_division_equations; lia). split_all; [lia..| |lia].
    replace (s + (65535 - s1)) with ((s / 65536 + 1) * 65535) by lia. apply Z_mod_mult.
  - assert (65536 <= s1) by (subst q1; Z.to_euclidean_division_equations; lia). split_all; [lia..| |lia].
    replace (s + (131070 - s1)) with ((s / 65536 + 2) * 65535) by lia. apply Z_mod_mult.
Qed.

Lemma u16_id z : in_unsigned 16 z -> u16 z = z.
Proof. apply (wrap_id 16). Qed.

Lemma decode_word a b x y h :
  h !! a = Some x -> h !! b = Some y -> in_unsigned 8 x -> in_unsigned 8 y -> decode a b h = 256 * x + y.
Proof.
  unfold decode, byte_at, in_unsigned. intros -> -> ? ?. simpl. rewrite Z.shiftl_mul_pow2 by lia.
  rewrite u16_id by (unfold in_unsigned; lia). lia.
Qed.

(** C21: [compute_checksum] is the Internet checksum: the 16-bit words of the message with
    the checksum in its place, odd end padded, have the ones' complement sum [0xffff].
    The other fields are not touched. A body of 131,000 bytes or less cannot make the
    32-bit sum overflow. *)
Theorem checksum_verifies h body :
  header_ok h -> Forall (in_unsigned 8) body -> Z.of_nat (length body) <= 131000 ->
  let h' := compute_checksum h body in
  oc_sum (words16 (write_header h' [] ++ body)) = 65535 ∧
  header_ok h' ∧ view h' = set_field (SetChecksum (checksum h')) (view h).
Proof.
  intros Hh Hb Hlen h'.
  pose proof Hh as (b0 & b1 & b2 & b3 & b4 & b5 & b6 & b7 & -> & Hf)%header_bytes.
  rewrite !Forall_cons in Hf. destruct Hf as (?&?&?&?&?&?&?&?&_).
  destruct (words16_sum body Hb) as [? ?].
  set (s0 := 256 * b0 + b1 + (256 * b4 + b5) + (256 * b6 + b7)). set (s := s0 + sum (words16 body)).
  assert (in_unsigned 32 s0 ∧ in_unsigned 32 s) as [Hs0 Hs].
  { unfold in_unsigned in *. change (2 ^ 32) with 4294967296 in *. subst s s0. lia. }
  destruct (fold_checksum s Hs) as (Hck & Hmod & Hpos).
  assert (h' = set_checksum (fold_sum s) [b0; b1; b2; b3; b4; b5; b6; b7]) as Hh'.
  { subst h'. unfold compute_checksum, type, code, identifier, sequence_number.
    rewrite (decode_word 4 5 b4 b5), (decode_word 6 7 b6 b7), Z.shiftl_mul_pow2 by (done || lia).
    unfold byte_at. simpl. replace (b0 * 2 ^ 8 + b1 + (256 * b4 + b5) + (256 * b6 + b7)) with s0 by (subst s0; lia).
    unfold u32. rewrite (wrap_id 32 s0) by done. rewrite add_body_sum by done.
    unfold u32. by rewrite (wrap_id 32 (s0 + _)) by done. }
  clearbody h'. destruct (setter_ok (SetChecksum (fold_sum s)) _ Hh Hck) as [Hok Hview]. simpl run_setter in Hok, Hview.
  rewrite <- Hh' in Hok, Hview. split_all; [|done|].
  2: { rewrite Hview. f_equal. f_equal. by injection Hview. }
  assert (Forall (in_unsigned 8) (h' ++ body)) as Hall by (apply Forall_app; split; [apply Hok|done]).
  assert (sum (words16 (h' ++ body)) = s + fold_sum s) as Hsum.
  { rewrite Hh'. unfold set_checksum, encode. simpl. fold (sum (words16 body)).
    pose proof (join_split _ Hck) as Hj. rewrite Z.shiftl_mul_pow2 in Hj by lia.
    pose proof (u8_range (Z.shiftr (fold_sum s) 8)). pose proof (u8_range (Z.land (fold_sum s) 255)).
    unfold in_unsigned in *. rewrite u16_id in Hj by (unfold in_unsigned; lia). subst s s0. lia. }
  destruct (oc_sum_spec (words16 (h' ++ body))) as (Hr & Hm & Hp); [by apply words16_range|].
  rewrite Hsum in Hm, Hp. unfold write_header. simpl. rewrite Hmod in Hm. specialize (Hp Hpos).
  apply Z_div_exact_full_2 in Hm; [|lia]. assert (oc_sum (words16 (h' ++ body)) / 65535 = 1) by lia. lia.
Qed.

(** The header and body of [ping.cpp]'s first request. *)
Definition hello : list Z := [34; 72; 101; 108; 108; 111; 33; 34].

Lemma checksum_verifies_witness :
  let h := set_type echo_request (set_sequence_number 1 (set_identifier 4660 icmp_init)) in
  oc_sum (words16 (write_header (compute_checksum h hello) [] ++ hello)) = 65535.
Proof.
  apply checksum_verifies; [split; [done|by_computation]|by_computation|vm_compute; discriminate].
Defined.

Lemma icmp_header_witness :
  view (set_code 1 (set_checksum 513 (set_type 8 icmp_init))) = Fields 8 1 513 0 0.
Proof.
  apply (icmp_header_is_fields [SetType 8; SetChecksum 513; SetCode 1] icmp_init []).
  - split; [done|]. repeat constructor; done.
  - repeat constructor; done.
Defined.

(** * [ping.cpp] *)

(** The body of a request, the text ["Hello!" from Asio ping.] with its quotes. *)
Definition ping_body : list Z :=
  [34; 72; 101; 108; 108; 111; 33; 34; 32; 102; 114; 111; 109; 32; 65; 115; 105; 111; 32; 112; 105; 110; 103; 46].

Section pinger.
(** The process identifier, and what reading an [ipv4_header] leaves of the bytes
    received. *)
Context (getpid : Z) (read_ipv4 : list Z -> option (list Z)).

Definition get_identifier : Z := u16 getpid.

(** What the program does that can be seen: packets sent and lines printed. *)
Inductive event : Type :=
  | Sent (seq : Z) (packet : list Z)
  | TimedOut
  | Reply (seq : Z) (received : list Z).

Record pinger : Type := Pinger { p_sequence : Z; p_replies : Z; p_log : list event }.

(** A request, as it is built and sent. *)
Definition request (seq : Z) : list Z :=
  let h := set_type echo_request icmp_init in
  let h := set_code 0 h in
  let h := set_identifier get_identifier h in
  let h := set_sequence_number seq h in
  let h := compute_checksum h ping_body in
  write_header h [] ++ ping_body.

Definition start_send (p : pinger) : pinger :=
  let seq := u16 (p_sequence p + 1) in
  Pinger seq 0 (p_log p ++ [Sent seq (request seq)]).

(** The timer calls this when it expires and when it is cancelled. *)
Definition handle_timeout (p : pinger) : pinger :=
  start_send (if p_replies p =? 0 then Pinger (p_sequence p) (p_replies p) (p_log p ++ [TimedOut]) else p).

(** Whether the bytes received are a reply to request [seq]. *)
Definition is_reply (seq : Z) (received : list Z) : bool :=
  match read_ipv4 received ≫= read_header with
  | Some (h, _) =>
      (type h =? echo_reply) && (identifier h =? get_identifier) && (sequence_number h =? seq)
  | None => false
  end.

Definition handle_receive (received : list Z) (p : pinger) : pinger :=
  if is_reply (p_sequence p) received
  then Pinger (p_sequence p) (u64 (p_replies p + 1)) (p_log p ++ [Reply (p_sequence p) received])
  else p.

Definition pinger_init (p : pinger) : Prop := p = start_send (Pinger 0 0 []).
Definition pinger_step (p p' : pinger) : Prop :=
  p' = handle_timeout p ∨ ∃ received, p' = handle_receive received p.

(** Reading a log: the request that is open and the replies to it so far, or that it
    has been given up. Requests are numbered without gaps, a reply is a reply to the
    open request, and exactly the requests without a reply are reported as timed out
    before the next one is sent. *)
Inductive phase : Type := Open (seq replies : Z) | GivenUp (seq : Z).

Definition scan_event (st : option phase) (e : event) : option phase :=
  match st, e with
  | Some (Open k n), Sent j packet =>
      if (j =? u16 (k + 1)) && negb (n =? 0) && bool_decide (packet = request j) then Some (Open j 0) else None
  | Some (GivenUp k), Sent j packet =>
      if (j =? u16 (k + 1)) && bool_decide (packet = request j) then Some (Open j 0) else None
  | Some (Open k n), TimedOut => if n =? 0 then Some (GivenUp k) else None
  | Some (Open k n), Reply j received =>
      if (j =? k) && is_reply k received then Some (Open k (u64 (n + 1))) else None
  | _, _ => None
  end.
(** Nothing has been sent at first. *)
Definition scan (log : list event) : option phase := foldl scan_event (Some (GivenUp 0)) log.

Lemma scan_snoc log e : scan (log ++ [e]) = scan_event (scan log) e.
Proof. unfold scan. by rewrite foldl_app. Qed.

Definition pinger_ok (p : pinger) : Prop := scan (p_log p) = Some (Open (p_sequence p) (p_replies p)).

Lemma start_send_ok p :
  scan (p_log p) = Some (GivenUp (p_sequence p)) ∨ pinger_ok p ∧ p_replies p ≠ 0 -> pinger_ok (start_send p).
Proof.
  unfold pinger_ok, start_send. cbn [p_log p_sequence p_replies]. rewrite scan_snoc.
  intros [->|[-> Hn]]; cbn [scan_event]; rewrite Z.eqb_refl.
  - by rewrite bool_decide_true.
  - by rewrite (proj2 (Z.eqb_neq _ _) Hn), bool_decide_true.
Qed.

Lemma pinger_step_ok p p' : pinger_ok p -> pinger_step p p' -> pinger_ok p'.
Proof.
  intros Hp [->|[received ->]].
  - unfold handle_timeout. apply start_send_ok. destruct (p_replies p =? 0) eqn:E.
    + left. unfold pinger_ok in Hp. cbn [p_log p_sequence]. rewrite scan_snoc, Hp. cbn [scan_event]. by rewrite E.
    + right. split; [done|]. by apply Z.eqb_neq.
  - unfold handle_receive. destruct (is_reply (p_sequence p) received) eqn:E; [|done].
    unfold pinger_ok in *. cbn [p_log p_sequence p_replies]. rewrite scan_snoc, Hp. cbn [scan_event].
    by rewrite Z.eqb_refl, E.
Qed.

(** The header of a request, before the checksum. *)
Lemma request_fields seq :
  in_unsigned 16 seq ->
  let h := set_sequence_number seq (set_identifier get_identifier (set_code 0 (set_type echo_request icmp_init))) in
  header_ok h ∧ view h = Fields echo_request 0 0 get_identifier seq.
Proof.
  intros Hseq h.
  assert (header_ok icmp_init) as H0 by (split; [done|by apply Forall_replicate]).
  destruct (setter_ok (SetType echo_request) icmp_init) as [H1 V1]; [done..|].
  destruct (setter_ok (SetCode 0) _ H1) as [H2 V2]; [done|].
  destruct (setter_ok (SetIdentifier get_identifier) _ H2) as [H3 V3]; [by apply wrap_range|].
  destruct (setter_ok (SetSequence seq) _ H3 Hseq) as [H4 V4].
  split; [exact H4|]. etrans; [exact V4|]. by rewrite V3, V2, V1.
Qed.

(** Every request [ping] sends is an echo request with its identifier and the next
    sequence number, whose checksum verifies; a reply is printed only for the open
    request and only if it carries its identifier and number; and a request is
    reported as timed out exactly when no reply to it was printed before the next one
    is sent. *)
Theorem ping_log p :
  reachable pinger_init pinger_step p ->
  scan (p_log p) = Some (Open (p_sequence p) (p_replies p)) ∧
  ∀ seq, in_unsigned 16 seq -> ∃ h,
    read_header (request seq) = Some (h, ping_body) ∧ oc_sum (words16 (request seq)) = 65535 ∧
    view h = Fields echo_request 0 (checksum h) get_identifier seq.
Proof.
  intros Hp. split.
  - revert p Hp. apply invariant_reachable; [|by apply pinger_step_ok].
    intros p ->. apply start_send_ok. by left.
  - intros seq Hseq. destruct (request_fields seq Hseq) as [Hok Hview].
    destruct (checksum_verifies _ ping_body Hok) as (Hsum & Hok' & Hview');
      [by_computation|vm_compute; discriminate|]. rewrite Hview in Hview'.
    eexists. split_all; [exact (read_write _ ping_body Hok')|exact Hsum|exact Hview'].
Qed.
End pinger.

(** A run with a receiver that strips twenty bytes: request 1 is answered, request 2 is
    not. *)
Definition strip20 (l : list Z) : option (list Z) := if decide (20 ≤ length l)%nat then Some (drop 20 l) else None.
Definition answer (seq : Z) : list Z :=
  replicate 20 0 ++ set_sequence_number seq (set_identifier 4660 icmp_init) ++ ping_body.

Lemma ping_witness :
  let p := handle_timeout 4660 (handle_timeout 4660 (handle_receive 4660 strip20 (answer 1)
    (start_send 4660 (Pinger 0 0 [])))) in
  scan 4660 strip20 (p_log p) = Some (Open 3 0) ∧ length (p_log p) = 5%nat.
Proof.
  split; [|by vm_compute]. apply (ping_log 4660 strip20).
  eapply reachable_step; [|by left]. eapply reachable_step; [|by left].
  eapply reachable_step; [|right; by exists (answer 1)]. by apply reachable_init.
Defined.
