(* ===== verification/WordHeap.v ===== *)
(** The data segment the two [malloc] programs of
    [src/books/a_heavily_commented_linux_kernel_source_code/chapter05_linux_kernel_architecture]
    work on: 64-bit words at 8-byte aligned addresses, the program break that [sbrk]
    moves, the macros both files share ([ALIGN], [SIZE_T_SIZE], the masks of the
    allocated bit) and the view of a heap as a list of adjacent blocks.

    A load or store outside the memory obtained from [sbrk], or at an address that is
    not aligned, is undefined: [None]. *)

From S2P Require Import Prelude.
#[local] Open Scope Z_scope.

(** * The data segment *)

(** [seg_start] is the break when the program starts and [seg_limit] the highest break
    the system grants; [break_start] and [break_end] are the two globals of the
    programs, 0 being NULL. *)
Record arena : Type := Arena {
  words : gmap Z Z;
  seg_start : Z;
  brk : Z;
  seg_limit : Z;
  break_start : Z;
  break_end : Z
}.

Definition word (s : arena) (a : Z) : Z := default 0 (words s !! a).
Definition set_word (a v : Z) (s : arena) : arena :=
  Arena (<[a := v]> (words s)) (seg_start s) (brk s) (seg_limit s) (break_start s) (break_end s).
Definition set_break_start (a : Z) (s : arena) : arena :=
  Arena (words s) (seg_start s) (brk s) (seg_limit s) a (break_end s).
Definition set_break_end (a : Z) (s : arena) : arena :=
  Arena (words s) (seg_start s) (brk s) (seg_limit s) (break_start s) a.
Definition set_brk (a : Z) (s : arena) : arena :=
  Arena (words s) (seg_start s) a (seg_limit s) (break_start s) (break_end s).

Definition accessible (s : arena) (a : Z) : bool :=
  (a mod 8 =? 0) && (seg_start s <=? a) && (a + 8 <=? brk s).

Definition load (a : Z) : ST arena Z := λ s, if accessible s a then Some (word s a, s) else None.
Definition store (a v : Z) : ST arena unit :=
  λ s, if accessible s a then Some (tt, set_word a v s) else None.

(** [sbrk] takes a signed increment; when the system refuses it returns [(void * )-1]. *)
Definition sbrk (n : Z) : ST arena Z := λ s,
  let b := brk s + swrap 64 n in
  if (seg_start s <=? b) && (b <=? seg_limit s) then Some (brk s, set_brk b s)
  else Some (2 ^ 64 - 1, s).

(** * The macros *)

Definition ALIGN (size : Z) : Z := Z.land (u64 (size + (8 - 1))) (2 ^ 64 - 8).
Definition SIZE_T_SIZE : Z := ALIGN 8.
(** [h & 0x1] and [h & ~0x1]. *)
Definition tag (h : Z) : Z := Z.land h 1.
Definition untag (h : Z) : Z := Z.land h (2 ^ 64 - 2).

(** * Blocks *)

Record block : Type := Block { bsize : Z; busy : bool }.

#[export] Instance block_eq_dec : EqDecision block.
Proof. solve_decision. Defined.

(** The header word of a block: its size with the allocated bit. *)
Definition header_word (b : block) : Z := bsize b + (if busy b then 1 else 0).

Definition total (bl : list block) : Z := foldr (λ b n, bsize b + n) 0 bl.

(** Two neighbours made one. *)
Definition merge (b c : block) : block := Block (bsize b + bsize c) (busy b).

(** The address and size of the allocated blocks of a list that starts at [a]. *)
Fixpoint live (a : Z) (bl : list block) : list (Z * Z) :=
  match bl with
  | [] => []
  | b :: bl => (if busy b then [(a, bsize b)] else []) ++ live (a + bsize b) bl
  end.

(** First fit with deferred coalescing, as both [find_fit] do it, on the list of
    blocks: a free block that is too small is merged with its free successors until it
    fits; [b] is the block looked at and [bl] those behind it. The result is what has
    been passed, and the block that fits with those behind it. *)
Fixpoint fit (size : Z) (b : block) (bl : list block) : list block * option (block * list block) :=
  if negb (busy b) && (size <=? bsize b) then ([], Some (b, bl)) else
  match bl with
  | [] => ([b], None)
  | c :: bl' =>
      if busy b || busy c then let '(pre, r) := fit size c bl' in (b :: pre, r)
      else fit size (merge b c) bl'
  end.
Definition fit_list (size : Z) (bl : list block) : list block * option (block * list block) :=
  match bl with [] => ([], None) | b :: bl => fit size b bl end.

(** The blocks [fit] leaves. *)
Definition blocks_of (r : list block * option (block * list block)) : list block :=
  match r with (pre, Some (b, post)) => pre ++ b :: post | (pre, None) => pre end.

(** * Arithmetic of the macros *)

Lemma land_high_mask x k :
  0 <= k -> 0 <= x < 2 ^ 64 -> Z.land x (Z.ldiff (Z.ones 64) (Z.ones k)) = x - x mod 2 ^ k.
Proof.
  intros Hk Hx. rewrite Z.ldiff_land, Z.land_assoc, (Z.land_ones x 64), Z.mod_small by lia.
  rewrite <- Z.ldiff_land, Z.ldiff_ones_r, Z.shiftl_mul_pow2, Z.shiftr_div_pow2 by lia.
  pose proof (Z.div_mod x (2 ^ k) (Z.pow_nonzero 2 k ltac:(lia) Hk)). lia.
Qed.

Lemma untag_eq h : 0 <= h < 2 ^ 64 -> untag h = h - h mod 2.
Proof. apply (land_high_mask h 1). lia. Qed.

Lemma tag_eq h : tag h = h mod 2.
Proof. apply (Z.land_ones h 1). lia. Qed.

Lemma ALIGN_eq size : 0 <= size -> size + 7 < 2 ^ 64 -> ALIGN size = 8 * ((size + 7) / 8).
Proof.
  intros ??. unfold ALIGN, u64.
  rewrite (wrap_id 64 (size + (8 - 1))) by (unfold in_unsigned; lia).
  rewrite (land_high_mask _ 3) by lia. change (2 ^ 3) with 8.
  replace (size + (8 - 1)) with (size + 7) by lia. pose proof (Z.div_mod (size + 7) 8). lia.
Qed.

Lemma SIZE_T_SIZE_eq : SIZE_T_SIZE = 8.
Proof. done. Qed.

Lemma lor_one z : 0 <= z -> z mod 2 = 0 -> Z.lor z 1 = z + 1.
Proof.
  intros ? ?. destruct z as [|[p|p|]|p]; try done.
  rewrite Pos2Z.inj_xI, Z.mul_comm, Z.add_comm, Z_mod_plus_full in *. done.
Qed.

Lemma even_of_8 z : z mod 8 = 0 -> z mod 2 = 0.
Proof. intros. Z.to_euclidean_division_equations. lia. Qed.

Lemma u64_id z : 0 <= z < 2 ^ 64 -> u64 z = z.
Proof. apply (wrap_id 64). Qed.

Lemma mod_sub_8 a b : a mod 8 = 0 -> b mod 8 = 0 -> (a - b) mod 8 = 0.
Proof. intros. Z.to_euclidean_division_equations. lia. Qed.

Lemma mod_add_8 a b : a mod 8 = 0 -> b mod 8 = 0 -> (a + b) mod 8 = 0.
Proof. intros. Z.to_euclidean_division_equations. lia. Qed.

Lemma ALIGN_bounds size :
  0 <= size -> size + 7 < 2 ^ 64 -> size <= ALIGN size <= size + 7 ∧ ALIGN size mod 8 = 0.
Proof.
  intros ? ?. rewrite ALIGN_eq by done. split; [|by rewrite Z.mul_comm, Z_mod_mult].
  Z.to_euclidean_division_equations. lia.
Qed.

(** * Running the accesses *)

Lemma accessible_spec s a :
  accessible s a = true ↔ a mod 8 = 0 ∧ seg_start s <= a ∧ a + 8 <= brk s.
Proof. unfold accessible. rewrite !andb_true_iff, Z.eqb_eq, !Z.leb_le. tauto. Qed.

Lemma load_run s a :
  a mod 8 = 0 -> seg_start s <= a -> a + 8 <= brk s -> load a s = Some (word s a, s).
Proof. intros. unfold load. by rewrite (proj2 (accessible_spec s a)). Qed.

Lemma store_run s a v :
  a mod 8 = 0 -> seg_start s <= a -> a + 8 <= brk s -> store a v s = Some (tt, set_word a v s).
Proof. intros. unfold store. by rewrite (proj2 (accessible_spec s a)). Qed.

Lemma sbrk_run s n :
  0 <= n < 2 ^ 63 -> seg_start s <= brk s -> brk s + n <= seg_limit s ->
  sbrk n s = Some (brk s, set_brk (brk s + n) s).
Proof.
  intros. unfold sbrk, swrap, wrap. change (2 ^ (64 - 1)) with (2 ^ 63).
  rewrite Z.mod_small, (proj2 (Z.ltb_lt _ _)) by lia.
  by rewrite !(proj2 (Z.leb_le _ _)) by lia.
Qed.

Lemma word_set s a v x : word (set_word a v s) x = if decide (x = a) then v else word s x.
Proof.
  unfold word, set_word. simpl. destruct (decide (x = a)) as [->|].
  - by rewrite lookup_insert_eq.
  - by rewrite lookup_insert_ne.
Qed.

Lemma word_set_eq s a v : word (set_word a v s) a = v.
Proof. rewrite word_set. by rewrite decide_True. Qed.

Lemma word_set_ne s a v x : x ≠ a -> word (set_word a v s) x = word s x.
Proof. intros. rewrite word_set. by rewrite decide_False. Qed.

(** * Lists of blocks *)

Lemma total_app l1 l2 : total (l1 ++ l2) = total l1 + total l2.
Proof. induction l1; simpl in *; lia. Qed.

Lemma live_app a l1 l2 : live a (l1 ++ l2) = live a l1 ++ live (a + total l1) l2.
Proof.
  revert a. induction l1 as [|b l1 IH]; intros a; simpl; [f_equal; lia|].
  rewrite IH, <- app_assoc. do 3 f_equal. lia.
Qed.

Definition sized (least : Z) (b : block) : Prop := bsize b mod 8 = 0 ∧ least <= bsize b.

Lemma total_nonneg least bl : 0 <= least -> Forall (sized least) bl -> 0 <= total bl.
Proof. intros ?. induction 1 as [|b bl [??] _ IH]; simpl; lia. Qed.

Lemma total_mod least bl : Forall (sized least) bl -> total bl mod 8 = 0.
Proof.
  induction 1 as [|b bl [??] _ IH]; [done|]. simpl. fold (total bl).
  Z.to_euclidean_division_equations. lia.
Qed.

Lemma sized_merge least b c : 0 <= least -> sized least b -> sized least c -> sized least (merge b c).
Proof. intros ? [??] [??]. split; simpl; [Z.to_euclidean_division_equations|]; lia. Qed.

Lemma live_split a bl x n :
  (x, n) ∈ live a bl ↔ ∃ pre post, bl = pre ++ Block n true :: post ∧ x = a + total pre.
Proof.
  revert a. induction bl as [|b bl IH]; intros a; simpl.
  - split; [by intros ?%elem_of_nil|]. by intros ([|??] & ? & ? & ?).
  - rewrite elem_of_app, IH. split.
    + intros [Hb|(pre & post & -> & ->)].
      * destruct b as [k []]; simpl in Hb; [|by apply elem_of_nil in Hb].
        apply list_elem_of_singleton in Hb as [= -> ->]. exists [], bl. simpl. split; [done|lia].
      * exists (b :: pre), post. simpl. split; [done|lia].
    + intros ([|c pre] & post & [= -> ->] & ->); simpl; [left|right].
      * apply list_elem_of_singleton. f_equal. lia.
      * exists pre, post. split; [done|lia].
Qed.

Lemma live_bounds least a bl x n :
  0 < least -> Forall (sized least) bl -> (x, n) ∈ live a bl ->
  a <= x ∧ x + n <= a + total bl ∧ least <= n.
Proof.
  intros Hl Hs (pre & post & -> & ->)%live_split.
  apply Forall_app in Hs as [Hpre Hpost]. apply Forall_cons in Hpost as [[??] Hpost].
  rewrite total_app. simpl in *. fold (total post).
  pose proof (total_nonneg least pre ltac:(lia) Hpre).
  pose proof (total_nonneg least post ltac:(lia) Hpost). lia.
Qed.

(** Allocated blocks do not overlap. *)
Lemma live_disjoint least a bl x n y m :
  0 < least -> Forall (sized least) bl -> (x, n) ∈ live a bl -> (y, m) ∈ live a bl ->
  (x = y ∧ n = m) ∨ x + n <= y ∨ y + m <= x.
Proof.
  intros Hl. revert a. induction bl as [|b bl IH]; intros a Hs; [by intros ?%elem_of_nil|].
  apply Forall_cons in Hs as [Hb Hs]. simpl. rewrite !elem_of_app.
  assert (∀ z k, (z, k) ∈ (if busy b then [(a, bsize b)] else []) -> z = a ∧ k = bsize b) as Hh.
  { intros z k. destruct (busy b); [|by intros ?%elem_of_nil].
    by intros [= -> ->]%list_elem_of_singleton. }
  intros [H1|H1] [H2|H2].
  - apply Hh in H1 as [-> ->], H2 as [-> ->]. by left.
  - apply Hh in H1 as [-> ->]. apply (live_bounds least) in H2; [lia..|done].
  - apply Hh in H2 as [-> ->]. apply (live_bounds least) in H1; [lia..|done].
  - by apply (IH (a + bsize b)).
Qed.

Lemma live_merge_free a b c bl :
  busy b = false -> busy c = false -> live a (merge b c :: bl) = live a (b :: c :: bl).
Proof. intros Hb Hc. simpl. rewrite Hb, Hc. simpl. f_equal. lia. Qed.

(** * First fit *)

(** The largest number of bytes in consecutive free blocks, [acc] of which have been
    counted. *)
Fixpoint longest_run (acc : Z) (bl : list block) : Z :=
  match bl with
  | [] => acc
  | b :: bl => if busy b then Z.max acc (longest_run 0 bl) else longest_run (acc + bsize b) bl
  end.

(** No two neighbours are free. *)
Fixpoint coalesced (bl : list block) : Prop :=
  match bl with
  | b :: (c :: _) as bl' => (busy b = true ∨ busy c = true) ∧ coalesced bl'
  | _ => True
  end.

Lemma coalesced_app l1 b l2 :
  coalesced (l1 ++ b :: l2) ↔ coalesced (l1 ++ [b]) ∧ coalesced (b :: l2).
Proof.
  induction l1 as [|c l1 IH]; [by split; [split|intros [_ ?]]|]. cbn [app].
  destruct l1 as [|d l1]; cbn [app] in IH |- *.
  - split; [intros [? ?]; by split_all|]. intros [[? _] ?]. by split.
  - split; [intros [? H%IH]|intros [[? ?] ?]].
    + destruct H. by split_all.
    + split; [done|]. apply IH. by split.
Qed.

(** A block may become allocated. *)
Lemma coalesced_busy_last l b n : coalesced (l ++ [b]) -> coalesced (l ++ [Block n true]).
Proof.
  induction l as [|c l IH]; [done|]. cbn [app].
  destruct l as [|d l]; cbn [app] in IH |- *; intros [? ?]; split; auto.
Qed.

Lemma coalesced_prefix l1 l2 : coalesced (l1 ++ l2) -> coalesced l1.
Proof.
  induction l1 as [|c l1 IH]; [done|]. cbn [app].
  destruct l1 as [|d l1]; [done|]. cbn [app] in IH |- *. intros [? ?]. split; auto.
Qed.

(** Only the state of a block counts. *)
Lemma coalesced_resize l1 b c l2 :
  busy b = busy c -> coalesced (l1 ++ b :: l2) -> coalesced (l1 ++ c :: l2).
Proof.
  intros Hbc. rewrite (coalesced_app l1 b), (coalesced_app l1 c). intros [H1 H2]. split.
  - clear H2. induction l1 as [|d l1 IH]; [done|]. cbn [app] in *.
    destruct l1 as [|e l1]; cbn [app] in IH, H1 |- *; destruct H1 as [? H1]; split; auto. by rewrite <- Hbc.
  - destruct l2; [done|]. destruct H2. split; [by rewrite <- Hbc|done].
Qed.

Section fit.
Context (least : Z) (Hleast : 0 <= least).

(** Induction on the iterations of [fit]. *)
Lemma fit_ind (size : Z) (P : block -> list block -> list block * option (block * list block) -> Prop) :
  (∀ b bl, busy b = false -> size <= bsize b -> P b bl ([], Some (b, bl))) ->
  (∀ b, busy b = true ∨ bsize b < size -> P b [] ([b], None)) ->
  (∀ b c bl pre r, busy b = true ∨ bsize b < size -> busy b = true ∨ busy c = true ->
    P c bl (pre, r) -> P b (c :: bl) (b :: pre, r)) ->
  (∀ b c bl r, busy b = false -> busy c = false -> bsize b < size ->
    P (merge b c) bl r -> P b (c :: bl) r) ->
  ∀ bl b, P b bl (fit size b bl).
Proof.
  intros Hfit Hend Hpass Hmerge. induction bl as [|c bl IH]; intros b; simpl;
    (destruct (negb (busy b) && (size <=? bsize b)) eqn:Hb;
     [apply andb_true_iff in Hb as [?%negb_true_iff ?%Z.leb_le]; auto|]);
    (assert (busy b = true ∨ bsize b < size)
      by (apply andb_false_iff in Hb as [?%negb_false_iff|?%Z.leb_gt]; auto)); [auto|].
  destruct (busy b || busy c) eqn:Hbc.
  - apply orb_true_iff in Hbc. specialize (IH c). destruct (fit size c bl). auto.
  - apply orb_false_iff in Hbc as [Hb' Hc]. apply Hmerge; auto. naive_solver congruence.
Qed.

Lemma fit_blocks size b bl :
  total (blocks_of (fit size b bl)) = bsize b + total bl ∧
  (∀ a, live a (blocks_of (fit size b bl)) = live a (b :: bl)) ∧
  (Forall (sized least) (b :: bl) -> Forall (sized least) (blocks_of (fit size b bl))).
Proof.
  apply (fit_ind size (λ b bl r, total (blocks_of r) = bsize b + total bl ∧
    (∀ a, live a (blocks_of r) = live a (b :: bl)) ∧
    (Forall (sized least) (b :: bl) -> Forall (sized least) (blocks_of r)))); clear b bl.
  - done.
  - done.
  - intros b c bl pre r _ _ (Ht & Hlv & Hs).
    assert (blocks_of (b :: pre, r) = b :: blocks_of (pre, r)) as -> by by destruct r as [[]|].
    split_all; [simpl in *; lia| |].
    + intros a. change (live a (b :: ?l)) with
        ((if busy b then [(a, bsize b)] else []) ++ live (a + bsize b) l). by rewrite Hlv.
    + intros [??]%Forall_cons. auto.
  - intros b c bl r Hb Hc _ (Ht & Hlv & Hs). split_all; [simpl in *; lia| |].
    + intros a. by rewrite Hlv, live_merge_free.
    + intros [Hsb [Hsc ?]%Forall_cons]%Forall_cons. apply Hs.
      apply Forall_cons. split; [by apply sized_merge|done].
Qed.

Lemma fit_free size b bl pre c post : fit size b bl = (pre, Some (c, post)) -> busy c = false.
Proof.
  revert pre c post. apply (fit_ind size (λ _ _ r, ∀ pre c post, r = (pre, Some (c, post)) -> busy c = false)).
  - by intros ? ? ? ? ? ? ? [= _ <- _].
  - done.
  - intros ? ? ? pre' r _ _ IH pre c post [= _ ->]. by eapply IH.
  - auto.
Qed.

Lemma longest_run_ge acc bl : Forall (sized least) bl -> acc <= longest_run acc bl.
Proof.
  intros Hs. revert acc. induction Hs as [|b bl [? ?] _ IH]; intros acc; simpl; [lia|].
  destruct (busy b); [lia|]. specialize (IH (acc + bsize b)). lia.
Qed.

(** A block is found exactly when some run of consecutive free blocks is large enough,
    and the block found is free and large enough. *)
Lemma fit_complete size b bl :
  0 < size -> Forall (sized least) (b :: bl) ->
  match (fit size b bl).2 with
  | Some (c, _) => busy c = false ∧ size <= bsize c ∧ size <= longest_run 0 (b :: bl)
  | None => longest_run 0 (b :: bl) < size
  end.
Proof.
  intros Hsize. apply (fit_ind size (λ b bl r, Forall (sized least) (b :: bl) ->
    match r.2 with
    | Some (c, _) => busy c = false ∧ size <= bsize c ∧ size <= longest_run 0 (b :: bl)
    | None => longest_run 0 (b :: bl) < size
    end)); clear b bl.
  - intros b bl Hb ? [? Hs]%Forall_cons. simpl. rewrite Hb.
    pose proof (longest_run_ge (0 + bsize b) bl Hs). split_all; [done|lia..].
  - intros b Hb [[? ?] _]%Forall_cons. simpl. destruct (busy b); [lia|]. naive_solver lia.
  - intros b c bl pre r Hb Hbc IH [[? ?] Hs]%Forall_cons. specialize (IH Hs). simpl in IH |- *.
    pose proof Hs as [[? ?] Hs']%Forall_cons. pose proof (longest_run_ge 0 bl Hs').
    destruct (busy b) eqn:Eb.
    + destruct r as [[d ?]|]; [|lia]. destruct IH as (?&?&?). split_all; [done|done|lia].
    + destruct Hb as [|Hb]; [done|]. destruct Hbc as [|Hc]; [done|]. rewrite Hc in IH |- *.
      destruct r as [[d ?]|]; [|lia]. destruct IH as (?&?&?). split_all; [done|done|lia].
  - intros b c bl r Hb Hc ? IH [Hsb [Hsc Hs]%Forall_cons]%Forall_cons.
    assert (longest_run 0 (merge b c :: bl) = longest_run 0 (b :: c :: bl)) as Hrun.
    { simpl. rewrite Hb, Hc. done. }
    rewrite Hrun in IH. apply IH. apply Forall_cons. split; [by apply sized_merge|done].
Qed.

(** Without free neighbours there is nothing to coalesce. *)
Lemma fit_coalesced size b bl : coalesced (b :: bl) -> blocks_of (fit size b bl) = b :: bl.
Proof.
  apply (fit_ind size (λ b bl r, coalesced (b :: bl) -> blocks_of r = b :: bl)); clear b bl.
  - done.
  - done.
  - intros b c bl pre r _ _ IH [_ Hc].
    assert (blocks_of (b :: pre, r) = b :: blocks_of (pre, r)) as -> by by destruct r as [[]|].
    by rewrite IH.
  - intros b c bl r Hb Hc _ _ [[?|?] _]; congruence.
Qed.
End fit.

(** * Heaps of adjacent blocks *)

(** The memory of the process is where it should be: addresses do not reach [2^63]. *)
Definition arena_ok (s : arena) : Prop :=
  0 < seg_start s ∧ seg_start s mod 8 = 0 ∧ seg_start s <= brk s ∧ brk s <= seg_limit s ∧
  seg_limit s < 2 ^ 63 ∧ brk s mod 8 = 0.

(** [s'] differs from [s] only in words at addresses of [P]. *)
Definition writes_in (P : Z -> Prop) (s s' : arena) : Prop :=
  seg_start s' = seg_start s ∧ brk s' = brk s ∧ seg_limit s' = seg_limit s ∧
  break_start s' = break_start s ∧ break_end s' = break_end s ∧
  (∀ x, ¬ P x -> word s' x = word s x).

(** [x] is an address of a free block. *)
Fixpoint free_at (a : Z) (bl : list block) (x : Z) : Prop :=
  match bl with
  | [] => False
  | b :: bl => (busy b = false ∧ a <= x < a + bsize b) ∨ free_at (a + bsize b) bl x
  end.

Lemma writes_in_refl P s : writes_in P s s.
Proof. by split_all. Qed.

Lemma writes_in_trans P s1 s2 s3 : writes_in P s1 s2 -> writes_in P s2 s3 -> writes_in P s1 s3.
Proof.
  intros (?&?&?&?&?&Hw) (?&?&?&?&?&Hw'). unfold writes_in. split_all; try congruence.
  intros x Hx. by rewrite Hw', Hw.
Qed.

Lemma writes_in_mono (P Q : Z -> Prop) s s' :
  (∀ x, P x -> Q x) -> writes_in P s s' -> writes_in Q s s'.
Proof. unfold writes_in. naive_solver. Qed.

Lemma writes_in_set (P : Z -> Prop) s a v : P a -> writes_in P s (set_word a v s).
Proof. intros. unfold writes_in. split_all; try done. intros x Hx. apply word_set_ne. by intros ->. Qed.

Lemma writes_in_arena_ok P s s' : writes_in P s s' -> arena_ok s -> arena_ok s'.
Proof. unfold writes_in, arena_ok. intros (->&->&->&_) ?. done. Qed.

Lemma free_at_app a l1 l2 x : free_at a (l1 ++ l2) x ↔ free_at a l1 x ∨ free_at (a + total l1) l2 x.
Proof.
  revert a. induction l1 as [|b l1 IH]; intros a; simpl.
  - replace (a + 0) with a by lia. tauto.
  - rewrite IH. fold (total l1). replace (a + bsize b + total l1) with (a + (bsize b + total l1)) by lia. tauto.
Qed.

Lemma free_at_bounds least a bl x :
  0 <= least -> Forall (sized least) bl -> free_at a bl x -> a <= x < a + total bl.
Proof.
  intros ? Hs. revert a. induction Hs as [|b bl [? ?] Hs IH]; intros a; simpl; [done|].
  fold (total bl). pose proof (total_nonneg least bl ltac:(lia) Hs).
  intros [[_ ?]|Hx]; [lia|]. apply IH in Hx. lia.
Qed.

(** No allocated block holds an address of a free one. *)
Lemma free_at_not_live least a bl x y n :
  0 < least -> Forall (sized least) bl -> free_at a bl x -> (y, n) ∈ live a bl -> x < y ∨ y + n <= x.
Proof.
  intros ? Hs. revert a. induction Hs as [|b bl [? ?] Hs IH]; intros a; simpl; [done|].
  rewrite elem_of_app. intros [[Hb ?]|Hx] Hy.
  - rewrite Hb in Hy. destruct Hy as [Hy|Hy]; [by apply elem_of_nil in Hy|].
    apply (live_bounds least) in Hy; [lia..|done].
  - apply (free_at_bounds least) in Hx as ?; [|lia|done].
    destruct Hy as [Hy|Hy]; [|by apply (IH (a + bsize b))].
    destruct (busy b); [|by apply elem_of_nil in Hy].
    apply list_elem_of_singleton in Hy as [= -> ->]. lia.
Qed.

Section tiles.
(** How a block is marked in memory; the marks lie inside the block. *)
Context (tagged : arena -> Z -> block -> Prop).
Context (tagged_frame : ∀ s s' a b, tagged s a b ->
  (∀ x, a <= x < a + bsize b -> word s' x = word s x) -> tagged s' a b).

(** The blocks of [bl] lie one behind the other from [a] on. *)
Fixpoint tiles (s : arena) (a : Z) (bl : list block) : Prop :=
  match bl with
  | [] => True
  | b :: bl => tagged s a b ∧ tiles s (a + bsize b) bl
  end.

Lemma tiles_app s a l1 l2 : tiles s a (l1 ++ l2) ↔ tiles s a l1 ∧ tiles s (a + total l1) l2.
Proof.
  revert a. induction l1 as [|b l1 IH]; intros a; simpl.
  - replace (a + 0) with a by lia. tauto.
  - rewrite IH. fold (total l1). replace (a + bsize b + total l1) with (a + (bsize b + total l1)) by lia. tauto.
Qed.

Lemma tiles_frame least s s' a bl :
  0 <= least -> Forall (sized least) bl -> tiles s a bl ->
  (∀ x, a <= x < a + total bl -> word s' x = word s x) -> tiles s' a bl.
Proof.
  intros ? Hs. revert a. induction Hs as [|b bl [? ?] Hs IH]; intros a; simpl; [done|].
  fold (total bl). pose proof (total_nonneg least bl ltac:(lia) Hs). intros [Hb Hbl] Hx. split.
  - apply (tagged_frame s); [done|]. intros. apply Hx. lia.
  - apply IH; [done|]. intros. apply Hx. lia.
Qed.

(** Rewriting some neighbouring blocks leaves the others alone. *)
Lemma tiles_hole least s s' a pre old new post :
  0 <= least -> Forall (sized least) (pre ++ old ++ post) ->
  tiles s a (pre ++ old ++ post) ->
  (∀ x, x < a + total pre ∨ a + total pre + total old <= x -> word s' x = word s x) ->
  total new = total old -> tiles s' (a + total pre) new ->
  tiles s' a (pre ++ new ++ post).
Proof.
  intros ? [Hpre [Hold Hpost]%Forall_app]%Forall_app. rewrite !tiles_app.
  intros (H1 & _ & H2) Hx Ht Hnew. pose proof (total_nonneg least old ltac:(lia) Hold). split_all.
  - apply (tiles_frame least s); [done..|]. intros. apply Hx. lia.
  - done.
  - rewrite Ht. apply (tiles_frame least s); [done..|]. intros. apply Hx. lia.
Qed.
End tiles.

(** The allocated blocks before and behind [n] bytes in the middle. *)
Definition others (a : Z) (pre : list block) (n : Z) (post : list block) : list (Z * Z) :=
  live a pre ++ live (a + total pre + n) post.

Lemma live_middle a pre mid post x n :
  (x, n) ∈ live a (pre ++ mid ++ post) ↔
  (x, n) ∈ live (a + total pre) mid ∨ (x, n) ∈ others a pre (total mid) post.
Proof. unfold others. rewrite !live_app, !elem_of_app. tauto. Qed.

Lemma others_outside least a pre mid post x n :
  0 < least -> Forall (sized least) (pre ++ mid ++ post) -> (x, n) ∈ others a pre (total mid) post ->
  0 < n ∧ (x + n <= a + total pre ∨ a + total pre + total mid <= x).
Proof.
  intros ? [Hpre [Hb Hpost]%Forall_app]%Forall_app [Hx|Hx]%elem_of_app;
    apply (live_bounds least) in Hx; [lia..|done|lia|lia|done].
Qed.

(** * Header words *)

Lemma header_word_tag least b : sized least b -> tag (header_word b) = (if busy b then 1 else 0).
Proof.
  intros [? _]. rewrite tag_eq. unfold header_word.
  destruct (busy b); Z.to_euclidean_division_equations; lia.
Qed.

Lemma header_word_untag least b :
  sized least b -> 0 <= bsize b < 2 ^ 63 -> untag (header_word b) = bsize b.
Proof.
  intros [? _] ?. rewrite untag_eq by (unfold header_word; destruct (busy b); lia).
  unfold header_word. destruct (busy b); Z.to_euclidean_division_equations; lia.
Qed.

Lemma header_word_busy n : 0 <= n -> n mod 8 = 0 -> Z.lor n 1 = header_word (Block n true).
Proof. intros. unfold header_word. simpl. apply lor_one; [done|]. by apply even_of_8. Qed.

Lemma header_word_free n : header_word (Block n false) = n.
Proof. unfold header_word. simpl. lia. Qed.

(** * The search loop *)

(** [while (header < break_end) body]: the body returns a result, or the next header.
    Without fuel the loop does not end. *)
Fixpoint search (fuel : nat) (body : Z -> ST arena (Z + Z)) (header : Z) : ST arena Z :=
  match fuel with
  | O => st_fail
  | S fuel =>
      s ← st_get;
      if header <? break_end s then
        r ← body header;
        match r with inl p => mret p | inr next => search fuel body next end
      else mret 0
  end.

(** A word for each block, and one more look at the end, is enough for a heap of
    adjacent blocks. *)
Definition search_fuel (s : arena) : nat := S (Z.to_nat ((break_end s - break_start s) / 8)).

Lemma search_S fuel body header s :
  search (S fuel) body header s =
    if header <? break_end s then
      (r ← body header; match r with inl p => mret p | inr next => search fuel body next end) s
    else Some (0, s).
Proof. simpl. unfold mbind, st_bind, st_get. by destruct (header <? break_end s). Qed.

Section search.
Context (tagged : arena -> Z -> block -> Prop) (least : Z) (Hleast : 0 < least).

(** The blocks of [bl] fill the memory from [h] to [break_end]. *)
Definition region (s : arena) (h : Z) (bl : list block) : Prop :=
  arena_ok s ∧ seg_start s <= h ∧ h mod 8 = 0 ∧ tiles tagged s h bl ∧
  Forall (sized least) bl ∧ h + total bl = break_end s ∧ break_end s <= brk s.

Lemma region_tail s h b bl : region s h (b :: bl) -> region s (h + bsize b) bl.
Proof.
  intros (? & ? & ? & [? ?] & [[? ?] Hs]%Forall_cons & Ht & ?). simpl in Ht. fold (total bl) in Ht.
  unfold region. split_all; try done; try lia. Z.to_euclidean_division_equations. lia.
Qed.

Lemma region_app s h pre bl : region s h (pre ++ bl) -> region s (h + total pre) bl.
Proof.
  revert h. induction pre as [|b pre IH]; intros h Hr; simpl; [by rewrite Z.add_0_r|].
  apply region_tail, IH in Hr. fold (total pre). by rewrite Z.add_assoc.
Qed.

Lemma region_head s h b bl :
  region s h (b :: bl) -> least <= bsize b ∧ h + bsize b <= break_end s ∧ bsize b < 2 ^ 63.
Proof.
  intros (Ha & ? & ? & _ & [[? ?] Hs]%Forall_cons & Ht & ?). simpl in Ht. fold (total bl) in Ht.
  pose proof (total_nonneg least bl ltac:(lia) Hs). destruct Ha as (?&?&?&?&?&?). lia.
Qed.

Context (body : Z -> ST arena (Z + Z)) (size : Z).
Context (body_found : ∀ s h b bl, region s h (b :: bl) -> busy b = false -> size <= bsize b ->
  body h s = Some (inl h, s)).
Context (body_pass : ∀ s h b bl, region s h (b :: bl) -> busy b = true ∨ bsize b < size ->
  busy b = true ∨ (∀ c, head bl = Some c -> busy c = true) -> body h s = Some (inr (h + bsize b), s)).
Context (body_merge : ∀ s h b c bl, region s h (b :: c :: bl) -> busy b = false -> busy c = false ->
  bsize b < size ->
  ∃ s', body h s = Some (inr h, s') ∧ tiles tagged s' h (merge b c :: bl) ∧
    writes_in (free_at h (b :: c :: bl)) s s').

Context (tagged_frame : ∀ s s' a b, tagged s a b ->
  (∀ x, a <= x < a + bsize b -> word s' x = word s x) -> tagged s' a b).

Lemma region_writes P s s' h bl bl' :
  region s h bl -> writes_in P s s' -> tiles tagged s' h bl' -> Forall (sized least) bl' ->
  total bl' = total bl -> region s' h bl'.
Proof.
  intros (Ha & ? & ? & _ & _ & ? & ?) Hw Ht Hs Htot.
  pose proof (writes_in_arena_ok _ _ _ Hw Ha) as Ha'. destruct Hw as (?&?&?&?&?&_).
  unfold region. split_all; try done; lia.
Qed.

(** What the loop does, as a property of where it starts. *)
Definition search_ok (s : arena) (h : Z) (bl : list block) (o : option (Z * arena))
    (r : list block * option (block * list block)) : Prop :=
  ∃ s', o = Some (match r.2 with Some _ => h + total r.1 | None => 0 end, s') ∧
    tiles tagged s' h (blocks_of r) ∧ writes_in (free_at h bl) s s'.

Lemma search_here fuel s h b bl :
  region s h (b :: bl) -> busy b = false -> size <= bsize b ->
  search_ok s h (b :: bl) (search (S fuel) body h s) ([], Some (b, bl)).
Proof.
  intros Hreg Hb Hsize. rewrite search_S. pose proof (region_head _ _ _ _ Hreg) as (? & ? & _).
  rewrite (proj2 (Z.ltb_lt _ _)), (st_bind_eq _ _ _ _ _ (body_found _ _ _ _ Hreg Hb Hsize)) by lia.
  exists s. split_all; [simpl; by rewrite Z.add_0_r|by apply Hreg|apply writes_in_refl].
Qed.

Lemma search_end fuel s h b :
  region s h [b] -> busy b = true ∨ bsize b < size ->
  search_ok s h [b] (search (S (S fuel)) body h s) ([b], None).
Proof.
  intros Hreg Hb. rewrite search_S. pose proof (region_head _ _ _ _ Hreg) as (? & ? & _).
  rewrite (proj2 (Z.ltb_lt _ _)), (st_bind_eq _ _ _ _ _ (body_pass _ _ _ _ Hreg Hb ltac:(by right))),
    search_S by lia.
  assert (h + bsize b = break_end s) as Hend by (destruct Hreg as (_&_&_&_&_&Ht&_); simpl in Ht; lia).
  rewrite (proj2 (Z.ltb_ge _ _)) by lia.
  exists s. split_all; [done|by apply Hreg|apply writes_in_refl].
Qed.

(** The loop goes on behind an allocated block, or behind a free one that is too small
    and not followed by a free one. *)
Lemma search_pass fuel s h b c bl r :
  region s h (b :: c :: bl) -> busy b = true ∨ bsize b < size -> busy b = true ∨ busy c = true ->
  search_ok s (h + bsize b) (c :: bl) (search fuel body (h + bsize b) s) r ->
  search_ok s h (b :: c :: bl) (search (S fuel) body h s) (b :: r.1, r.2).
Proof.
  intros Hreg Hb Hbc (s' & Hrun & Ht & Hw). rewrite search_S.
  pose proof (region_head _ _ _ _ Hreg) as (? & ? & _). pose proof Hreg as (_&_&_&[Htag _]&Hs&_).
  apply Forall_cons in Hs as [_ Hs].
  rewrite (proj2 (Z.ltb_lt _ _)), (st_bind_eq _ _ _ _ _ (body_pass _ _ _ _ Hreg Hb
    ltac:(destruct Hbc; [by left|right; by intros ? [= <-]]))), Hrun by lia.
  exists s'. split_all.
  - simpl. fold (total r.1). destruct r.2; do 2 f_equal; lia.
  - assert (tagged s' h b) as Htag'.
    { apply (tagged_frame s); [done|]. intros x Hx. destruct Hw as (_&_&_&_&_&Hw). apply Hw.
      intros Hf%(free_at_bounds least); [lia..|done]. }
    destruct r as [pre [[d post]|]]; done.
  - by apply (writes_in_mono (free_at (h + bsize b) (c :: bl))); [right|].
Qed.

(** A free block that is too small takes in a free neighbour. *)
Lemma search_merge fuel s h b c bl r :
  region s h (b :: c :: bl) -> busy b = false -> busy c = false -> bsize b < size ->
  (∀ s', region s' h (merge b c :: bl) -> search_ok s' h (merge b c :: bl) (search fuel body h s') r) ->
  search_ok s h (b :: c :: bl) (search (S fuel) body h s) r.
Proof.
  intros Hreg Hb Hc Hsize IH. rewrite search_S. pose proof (region_head _ _ _ _ Hreg) as (? & ? & _).
  destruct (body_merge s h b c bl) as (s1 & Hrun & Ht & Hw); [done..|].
  rewrite (proj2 (Z.ltb_lt _ _)), (st_bind_eq _ _ _ _ _ Hrun) by lia.
  pose proof Hreg as (_ & _ & _ & _ & [Hsb [Hsc Hs]%Forall_cons]%Forall_cons & _).
  destruct (IH s1) as (s2 & Hrun2 & Ht2 & Hw2).
  { apply (region_writes _ _ _ _ _ _ Hreg Hw Ht); [|simpl; lia].
    apply Forall_cons. split; [apply sized_merge; [lia|done..]|done]. }
  exists s2. split_all; [done|done|]. apply (writes_in_trans _ s s1); [done|].
  apply (writes_in_mono (free_at h (merge b c :: bl))); [|done].
  intros x. simpl. rewrite Hb, Hc. replace (h + (bsize b + bsize c)) with (h + bsize b + bsize c) by lia.
  intros [[_ ?]|?]; [|by right; right]. destruct (decide (x < h + bsize b)); [left|right; left]; split; [done|lia|done|lia].
Qed.

(** The loop ends, and does on the memory what [fit] does on the blocks; it writes to
    free blocks only. *)
Lemma search_run bl b s h fuel :
  region s h (b :: bl) -> (length bl + 1 < fuel)%nat ->
  search_ok s h (b :: bl) (search fuel body h s) (fit size b bl).
Proof.
  revert b s h fuel. induction bl as [|c bl IH]; intros b s h fuel Hreg Hfuel;
    (destruct fuel as [|[|fuel]]; [simpl in Hfuel; lia..|]); simpl fit;
    (destruct (negb (busy b) && (size <=? bsize b)) eqn:Hb;
     [apply andb_true_iff in Hb as [?%negb_true_iff ?%Z.leb_le]; by apply search_here|]);
    (assert (busy b = true ∨ bsize b < size)
        by (apply andb_false_iff in Hb as [?%negb_false_iff|?%Z.leb_gt]; auto)).
  - by apply search_end.
  - simpl in Hfuel. destruct (busy b || busy c) eqn:Hbc.
    + apply orb_true_iff in Hbc. pose proof (IH c s (h + bsize b) (S fuel)) as IHc.
      assert (fit size c bl = ((fit size c bl).1, (fit size c bl).2)) as E by by destruct (fit size c bl).
      rewrite E. apply search_pass; [done..|]. apply IHc; [by apply region_tail|lia].
    + apply orb_false_iff in Hbc as [Hb' Hc].
      apply search_merge; [done..|naive_solver congruence|]. intros s' Hs'. apply IH; [done|lia].
Qed.

(** [find_fit] has the fuel it needs. *)
Lemma search_fuel_enough s bl :
  region s (break_start s) bl -> 8 <= least -> (length bl < search_fuel s)%nat.
Proof.
  intros (_ & _ & _ & _ & Hs & Ht & _) H8. unfold search_fuel.
  assert (8 * Z.of_nat (length bl) <= total bl) as Hlen.
  { clear Ht. induction Hs as [|b bl [? ?] _ IH]; simpl; [lia|]. fold (total bl). lia. }
  assert (Z.of_nat (length bl) <= (break_end s - break_start s) / 8); [|lia].
  apply Z.div_le_lower_bound; lia.
Qed.
End search.

(** Reading the header of the first block of a region. *)
Section headers.
Context (tagged : arena -> Z -> block -> Prop) (least : Z) (Hleast : 8 <= least).
Context (tagged_header : ∀ s a b, tagged s a b -> word s a = header_word b).

Lemma region_load s h b bl : region tagged least s h (b :: bl) -> load h s = Some (header_word b, s).
Proof.
  intros Hr. pose proof (region_head tagged least ltac:(lia) _ _ _ _ Hr) as (? & ? & ?).
  destruct Hr as (_ & ? & ? & [Ht _] & _ & _ & ?). rewrite <- (tagged_header _ _ _ Ht).
  apply load_run; [done|lia..].
Qed.

Lemma region_facts s h b bl :
  region tagged least s h (b :: bl) ->
  tag (header_word b) = (if busy b then 1 else 0) ∧ untag (header_word b) = bsize b ∧
  u64 (h + bsize b) = h + bsize b ∧ (busy b = false -> header_word b = bsize b) ∧
  h + bsize b <= break_end s ∧ least <= bsize b ∧ h < 2 ^ 63 ∧ 0 <= h ∧ bsize b < 2 ^ 63.
Proof.
  intros Hr. pose proof (region_head tagged least ltac:(lia) _ _ _ _ Hr) as (? & ? & ?).
  destruct Hr as ((?&?&?&?&?&?) & ? & ? & _ & [? _]%Forall_cons & _ & ?).
  split_all; try lia.
  - by apply (header_word_tag least).
  - apply (header_word_untag least); [done|lia].
  - apply u64_id. lia.
  - intros Hb. unfold header_word. rewrite Hb. lia.
Qed.
End headers.

(** * The state of an allocator *)

Section heap.
Context (tagged : arena -> Z -> block -> Prop) (least : Z) (Hleast : 0 < least).
(** What lies before the first block. *)
Context (fence : arena -> Prop).

(** Before the first call both globals are NULL; afterwards the blocks fill the memory
    from [break_start] to the break. *)
Definition heap_ok (s : arena) (bl : list block) : Prop :=
  arena_ok s ∧
  ((break_start s = 0 ∧ break_end s = 0 ∧ bl = []) ∨
   (bl ≠ [] ∧ fence s ∧ break_end s = brk s ∧ region tagged least s (break_start s) bl)).

(** The addresses and sizes of the allocated blocks. *)
Definition live_blocks (s : arena) (bl : list block) : list (Z * Z) := live (break_start s) bl.

Lemma heap_ok_sized s bl : heap_ok s bl -> Forall (sized least) bl.
Proof. intros [_ [(_&_&->)|(_&_&_&Hr)]]; [constructor|apply Hr]. Qed.

(** An allocated block is inside the memory of the process, and aligned. *)
Lemma heap_ok_live s bl x n :
  heap_ok s bl -> (x, n) ∈ live_blocks s bl ->
  seg_start s <= x ∧ x + n <= brk s ∧ x mod 8 = 0 ∧ n mod 8 = 0 ∧ least <= n.
Proof.
  intros [_ [(_&_&->)|(_&_&_&Hr)]] Hx; [by apply elem_of_nil in Hx|].
  destruct Hr as (_ & ? & ? & _ & Hs & ? & ?).
  pose proof (live_bounds _ _ _ _ _ Hleast Hs Hx). apply live_split in Hx as (pre & post & -> & ->).
  apply Forall_app in Hs as [Hpre [[? ?] _]%Forall_cons]. simpl in *.
  pose proof (total_mod _ _ Hpre). split_all; try lia. Z.to_euclidean_division_equations. lia.
Qed.

(** Rewriting some neighbouring blocks. *)
Context (tagged_frame : ∀ s s' a b, tagged s a b ->
  (∀ x, a <= x < a + bsize b -> word s' x = word s x) -> tagged s' a b).
Context (fence_frame : ∀ s s', fence s -> seg_start s' = seg_start s -> break_start s' = break_start s ->
  (∀ x, x < break_start s -> word s' x = word s x) -> fence s').

Lemma heap_replace s s' pre old new post :
  heap_ok s (pre ++ old ++ post) -> old ≠ [] ->
  writes_in (λ x, break_start s + total pre <= x < break_start s + total pre + total old) s s' ->
  total new = total old -> Forall (sized least) new -> tiles tagged s' (break_start s + total pre) new ->
  heap_ok s' (pre ++ new ++ post).
Proof.
  intros Hok Hne Hw Htot Hnew Ht. pose proof (heap_ok_sized _ _ Hok) as Hs.
  destruct Hok as [Ha [(_&_&Hnil)|(_&Hf&He&Hr)]]; [by destruct pre, old|].
  pose proof Hs as [Hpre [Hold Hpost]%Forall_app]%Forall_app.
  assert (least <= total old) as Hpos.
  { destruct Hold as [|b old [? ?] Hold]; [done|]. simpl. pose proof (total_nonneg least old ltac:(lia) Hold). 
    fold (total old). lia. }
  assert (Forall (sized least) (pre ++ new ++ post)) as Hs' by (by rewrite !Forall_app).
  pose proof (total_nonneg least pre ltac:(lia) Hpre).
  split; [by apply (writes_in_arena_ok _ _ _ Hw)|]. right. split_all.
  - intros Hnil. destruct pre, new; try done. simpl in Htot. lia.
  - apply (fence_frame s _ Hf); [apply Hw..|]. intros x Hx. apply Hw. lia.
  - destruct Hw as (_&->&_&_&->&_). done.
  - assert (break_start s' = break_start s) as -> by apply Hw.
    apply (region_writes tagged least _ s _ _ (pre ++ old ++ post) _ Hr Hw); [|done|].
    + destruct Hr as (_&_&_&Hrt&_). apply (tiles_hole tagged tagged_frame least s s' _ pre old);
        [lia|done..| |done|done]. intros x Hx. destruct Hw as (_&_&_&_&_&Hw). apply Hw. lia.
    + rewrite !total_app. lia.
Qed.

(** A block is added at the end of the memory. *)
Lemma heap_grow s s' bl n :
  arena_ok s -> fence s -> break_start s mod 8 = 0 -> seg_start s <= break_start s ->
  Forall (sized least) bl -> tiles tagged s (break_start s) bl -> break_start s + total bl = brk s ->
  sized least (Block n true) -> brk s + n <= seg_limit s ->
  seg_start s' = seg_start s -> seg_limit s' = seg_limit s -> break_start s' = break_start s ->
  brk s' = brk s + n -> break_end s' = brk s + n -> (∀ x, x < brk s -> word s' x = word s x) ->
  tagged s' (brk s) (Block n true) ->
  heap_ok s' (bl ++ [Block n true]).
Proof.
  intros (?&?&?&?&?&?) Hf ? ? Hs Ht ? [? ?] ? Es El Eb Ek Ee Hw Hnew. simpl in *.
  assert (arena_ok s') as Ha'.
  { unfold arena_ok. rewrite Es, El, Ek. split_all; try lia. Z.to_euclidean_division_equations. lia. }
  pose proof (total_nonneg least bl ltac:(lia) Hs).
  split; [done|]. right. split_all.
  - by destruct bl.
  - apply (fence_frame s); [done..|]. intros. apply Hw. lia.
  - congruence.
  - unfold region. rewrite Eb, Ee, Ek, Es, total_app, tiles_app. simpl. split_all; try done; try lia.
    + apply (tiles_frame tagged tagged_frame least s); [lia|done..|]. intros. apply Hw. lia.
    + by replace (break_start s + total bl) with (brk s) by lia.
    + apply Forall_app. by repeat constructor.
Qed.
End heap.

(** * What the calls do to the allocated blocks *)

(** The blocks are arranged differently, but the allocated ones and their contents are
    what they were. *)
Definition rearranged (s : arena) (bl : list block) (s' : arena) (bl' : list block) : Prop :=
  (∀ y m, (y, m) ∈ live_blocks s' bl' ↔ (y, m) ∈ live_blocks s bl) ∧
  (∀ y m z, (y, m) ∈ live_blocks s bl -> y <= z < y + m -> word s' z = word s z) ∧
  seg_start s' = seg_start s ∧ seg_limit s' = seg_limit s ∧ brk s' = brk s.

(** The block of [n] bytes at [x] is allocated: it was no part of an allocated block,
    and the others keep their place and contents. *)
Definition allocates (s : arena) (bl : list block) (s' : arena) (bl' : list block) (x n : Z) : Prop :=
  (∀ y m, (y, m) ∈ live_blocks s' bl' ↔ (y = x ∧ m = n) ∨ (y, m) ∈ live_blocks s bl) ∧
  (∀ y m, (y, m) ∈ live_blocks s bl -> y + m <= x ∨ x + n <= y) ∧
  (∀ y m z, (y, m) ∈ live_blocks s bl -> y <= z < y + m -> word s' z = word s z) ∧
  seg_start s' = seg_start s ∧ seg_limit s' = seg_limit s.

(** The block at [x] is given back, and the others keep their place and contents. *)
Definition releases (s : arena) (bl : list block) (s' : arena) (bl' : list block) (x n : Z) : Prop :=
  (∀ y m, (y, m) ∈ live_blocks s bl ↔ (y = x ∧ m = n) ∨ (y, m) ∈ live_blocks s' bl') ∧
  (∀ y m, (y, m) ∈ live_blocks s' bl' -> y + m <= x ∨ x + n <= y) ∧
  (∀ y m z, (y, m) ∈ live_blocks s' bl' -> y <= z < y + m -> word s' z = word s z) ∧
  seg_start s' = seg_start s ∧ seg_limit s' = seg_limit s ∧ brk s' = brk s.

Lemma allocates_rearranged s bl s1 bl1 s' bl' x n :
  rearranged s bl s1 bl1 -> allocates s1 bl1 s' bl' x n -> allocates s bl s' bl' x n.
Proof.
  intros (Hl & Hk & ? & ? & ?) (Hl' & Ha & Hk' & ? & ?). unfold allocates. split_all; try congruence.
  - intros y m. by rewrite Hl', Hl.
  - intros y m Hy. apply Ha. by apply Hl.
  - intros y m z Hy Hz. rewrite (Hk' y m), (Hk y m); [done..|by apply Hl|done].
Qed.

Definition all_free (bl : list block) : Prop := Forall (λ b, busy b = false) bl.

Lemma live_all_free a bl : all_free bl -> live a bl = [].
Proof.
  intros H. revert a. induction H as [|b bl Hb _ IH]; intros a; simpl; [done|]. by rewrite Hb, IH.
Qed.

(** Cutting an allocated block from free ones. *)
Lemma allocates_hole least s s' pre old new n post :
  0 < least -> Forall (sized least) (pre ++ old ++ post) -> all_free old -> all_free new ->
  total (Block n true :: new) = total old -> Forall (sized least) new ->
  writes_in (λ x, break_start s + total pre <= x < break_start s + total pre + total old) s s' ->
  allocates s (pre ++ old ++ post) s' (pre ++ (Block n true :: new) ++ post) (break_start s + total pre) n.
Proof.
  intros Hl Hs Hold Hnew Htot Hns (E1&E2&E3&E4&E5&Hw). simpl in Htot. fold (total new) in Htot.
  pose proof (total_nonneg least new ltac:(lia) Hns).
  assert (∀ y m, (y, m) ∈ live_blocks s (pre ++ old ++ post) ->
    (y, m) ∈ others (break_start s) pre (total old) post) as Hoth.
  { intros y m [Hy|Hy]%live_middle; [|done]. rewrite live_all_free in Hy by done. by apply elem_of_nil in Hy. }
  unfold allocates. split_all; [..|done|done].
  - intros y m. unfold live_blocks. rewrite E4, !live_middle.
    rewrite (live_all_free _ old), elem_of_nil by done. simpl.
    rewrite (live_all_free _ new), list_elem_of_singleton by done. fold (total new). rewrite Htot. naive_solver.
  - intros y m Hy%Hoth. apply (others_outside least) in Hy; [lia|done..].
  - intros y m z Hy%Hoth Hz. apply Hw. apply (others_outside least) in Hy; [lia|done..].
Qed.

(** Giving a block back, with free neighbours or without. *)
Lemma releases_hole least s s' pre old1 n old2 new post :
  0 < least -> Forall (sized least) (pre ++ (old1 ++ Block n true :: old2) ++ post) ->
  all_free old1 -> all_free old2 -> all_free new -> total new = total (old1 ++ Block n true :: old2) ->
  writes_in (λ x, break_start s + total pre <= x <
    break_start s + total pre + total (old1 ++ Block n true :: old2)) s s' ->
  releases s (pre ++ (old1 ++ Block n true :: old2) ++ post) s' (pre ++ new ++ post)
    (break_start s + total pre + total old1) n.
Proof.
  intros Hl Hs H1 H2 Hnew Htot (E1&E2&E3&E4&E5&Hw).
  assert (∀ y m, (y, m) ∈ live_blocks s' (pre ++ new ++ post) ->
    (y, m) ∈ others (break_start s) pre (total (old1 ++ Block n true :: old2)) post) as Hoth.
  { intros y m. unfold live_blocks. rewrite E4, live_middle, Htot, live_all_free, elem_of_nil by done. tauto. }
  pose proof Hs as [_ [[Ho1 [[? ?] Ho2]%Forall_cons]%Forall_app _]%Forall_app]%Forall_app. simpl in *.
  pose proof (total_nonneg least old1 ltac:(lia) Ho1). pose proof (total_nonneg least old2 ltac:(lia) Ho2).
  assert (total (old1 ++ Block n true :: old2) = total old1 + n + total old2) as Ht.
  { rewrite total_app. simpl. fold (total old2). lia. }
  unfold releases. split_all; [..|done|done|done].
  - intros y m. unfold live_blocks. rewrite E4, !live_middle, Htot, live_app. simpl.
    rewrite (live_all_free _ old1), (live_all_free _ old2), (live_all_free _ new) by done. simpl.
    rewrite list_elem_of_singleton, elem_of_nil. naive_solver.
  - intros y m Hy%Hoth. apply (others_outside least) in Hy; [lia|done..].
  - intros y m z Hy%Hoth Hz. apply Hw. apply (others_outside least) in Hy; [lia|done..].
Qed.

(** Allocating at the end of the memory. *)
Lemma allocates_grown least s s' bl n :
  0 < least -> 0 < n -> Forall (sized least) bl -> break_start s + total bl = brk s ->
  seg_start s' = seg_start s -> seg_limit s' = seg_limit s -> break_start s' = break_start s ->
  (∀ x, x < brk s -> word s' x = word s x) ->
  allocates s bl s' (bl ++ [Block n true]) (brk s) n.
Proof.
  intros ? ? Hs Htot E1 E2 E3 Hw. unfold allocates, live_blocks. rewrite E3.
  assert (∀ y m, (y, m) ∈ live (break_start s) bl -> y + m <= brk s) as Hb.
  { intros y m Hy. apply (live_bounds least) in Hy; [lia..|done]. }
  split_all; [..|done|done].
  - intros y m. rewrite live_app, elem_of_app. simpl. rewrite list_elem_of_singleton, Htot. naive_solver.
  - intros y m Hy%Hb. by left.
  - intros y m z Hy%Hb Hz. apply Hw. lia.
Qed.

(** The search only rearranges. *)
Lemma fit_rearranged least size s s' b bl :
  0 < least -> Forall (sized least) (b :: bl) -> writes_in (free_at (break_start s) (b :: bl)) s s' ->
  rearranged s (b :: bl) s' (blocks_of (fit size b bl)).
Proof.
  intros Hl Hs (E1&E2&E3&E4&E5&Hw). unfold rearranged, live_blocks. rewrite E4.
  split_all; [|..|done|done|done].
  - intros y m. by rewrite (proj1 (proj2 (fit_blocks least ltac:(lia) size b bl))).
  - intros y m z Hy Hz. apply Hw. intros Hf.
    apply (free_at_not_live least _ _ _ y m) in Hf; [lia|done..].
Qed.

(** One access of a sequence, with its side conditions. *)
Ltac in_memory := simpl; first [done | lia | by apply mod_add_8 | by apply mod_sub_8].
Ltac run_load := erewrite st_bind_eq; [|by apply load_run; in_memory].
Ltac run_store := erewrite st_bind_eq; [|by apply store_run; in_memory].
(** The words after some stores. *)
Ltac solve_words := repeat (rewrite word_set; case_decide); first [done | lia | idtac].
Ltac solve_writes := unfold writes_in;
  split_all; try done; let x := fresh "x" in let Hx := fresh "Hx" in
  intros x Hx; solve_words.
