(* ===== verification/Allocator.v ===== *)
(** What the two [malloc] programs promise to their clients: an interface over the data
    segment of [WordHeap], and a client that allocates, writes, reads and frees. The
    client's theorem is proved against the interface. *)

From S2P Require Import Prelude WordHeap.
#[local] Open Scope Z_scope.

(** A block is [(x, n)]: its payload starts eight bytes behind [x] and ends [al_tail]
    bytes before its end. *)
Class Allocator : Type := {
  al_malloc : Z -> ST arena Z;
  al_free : Z -> ST arena unit;
  al_tail : Z;
  (** How far a call may move the break. *)
  al_cost : Z -> Z;
  al_heap : arena -> list block -> Prop;
  al_heap_live : ∀ s bl x n, al_heap s bl -> (x, n) ∈ live_blocks s bl ->
    seg_start s <= x ∧ x + n <= brk s ∧ x mod 8 = 0 ∧ 0 <= al_tail;
  al_heap_apart : ∀ s bl x n y m, al_heap s bl ->
    (x, n) ∈ live_blocks s bl -> (y, m) ∈ live_blocks s bl -> (x = y ∧ n = m) ∨ x + n <= y ∨ y + m <= x;
  al_cost_nonneg : ∀ size, 0 <= size -> 0 <= al_cost size;
  al_malloc_ok : ∀ s bl size, al_heap s bl -> 0 <= size -> brk s + al_cost size <= seg_limit s ->
    ∃ p s' bl' n, al_malloc size s = Some (p, s') ∧ al_heap s' bl' ∧
      allocates s bl s' bl' (p - 8) n ∧ size + 8 + al_tail <= n ∧ brk s' <= brk s + al_cost size;
  al_free_ok : ∀ s bl x n, al_heap s bl -> (x, n) ∈ live_blocks s bl ->
    ∃ s' bl', al_free (x + 8) s = Some (tt, s') ∧ al_heap s' bl' ∧ releases s bl s' bl' x n;
  al_store_ok : ∀ s bl x n a v, al_heap s bl -> (x, n) ∈ live_blocks s bl ->
    x + 8 <= a -> a + 8 <= x + n - al_tail -> al_heap (set_word a v s) bl
}.

(** * A client *)

(** Its variables hold pointers; [Put v i x] writes the [i]-th word of a block and
    [Get v i] prints it. *)
Inductive cmd : Type :=
  | Malloc (v : nat) (size : Z)
  | Free (v : nat)
  | Put (v : nat) (i x : Z)
  | Get (v : nat) (i : Z).

Section client.
Context `{Allocator}.

(** A command on the memory of the process, with the pointers of the variables. *)
Definition run_cmd (c : cmd) (vars : gmap nat Z) : ST arena (gmap nat Z * list Z) :=
  match c with
  | Malloc v size => p ← al_malloc size; mret (<[v := p]> vars, [])
  | Free v => p ← st_lift (vars !! v); al_free p;; mret (delete v vars, [])
  | Put v i x => p ← st_lift (vars !! v); store (p + 8 * i) x;; mret (vars, [])
  | Get v i => p ← st_lift (vars !! v); x ← load (p + 8 * i); mret (vars, [x])
  end.
Fixpoint run_client (cs : list cmd) (vars : gmap nat Z) : ST arena (list Z) :=
  match cs with
  | [] => mret []
  | c :: cs =>
      r ← run_cmd c vars;
      out ← run_client cs r.1;
      mret (r.2 ++ out)
  end.

(** The specification: each variable owns an object of its own, with its size and the
    words written. A command is defined if it stays inside its object and reads only
    what was written. *)
Record object : Type := Object { obj_size : Z; obj_words : gmap Z Z }.
Definition in_object (o : object) (i : Z) : Prop := 0 <= i ∧ 8 * i + 8 <= obj_size o.
#[export] Instance in_object_dec o i : Decision (in_object o i).
Proof. unfold in_object. apply _. Defined.

Definition spec_cmd (c : cmd) (objs : gmap nat object) : option (gmap nat object * list Z) :=
  match c with
  | Malloc v size =>
      if decide (objs !! v = None ∧ 0 <= size) then Some (<[v := Object size ∅]> objs, []) else None
  | Free v => _ ← objs !! v; Some (delete v objs, [])
  | Put v i x =>
      o ← objs !! v;
      if decide (in_object o i) then Some (<[v := Object (obj_size o) (<[i := x]> (obj_words o))]> objs, [])
      else None
  | Get v i =>
      o ← objs !! v; x ← obj_words o !! i;
      if decide (in_object o i) then Some (objs, [x]) else None
  end.
Fixpoint spec_client (cs : list cmd) (objs : gmap nat object) : option (list Z) :=
  match cs with
  | [] => Some []
  | c :: cs => r ← spec_cmd c objs; out ← spec_client cs r.1; Some (r.2 ++ out)
  end.

Definition cmd_cost (c : cmd) : Z := match c with Malloc _ size => al_cost size | _ => 0 end.
Definition client_cost (cs : list cmd) : Z := foldr (λ c n, cmd_cost c + n) 0 cs.

(** Each variable's pointer is the payload of an allocated block of its own, which
    holds the words written. *)
Definition represents (s : arena) (bl : list block) (vars : gmap nat Z) (objs : gmap nat object) : Prop :=
  (∀ v, vars !! v = None ↔ objs !! v = None) ∧
  (∀ v p o, vars !! v = Some p -> objs !! v = Some o ->
    (∃ n, (p - 8, n) ∈ live_blocks s bl ∧ 0 <= obj_size o ∧ obj_size o + 8 + al_tail <= n) ∧
    (∀ i x, obj_words o !! i = Some x -> in_object o i ∧ word s (p + 8 * i) = x)) ∧
  (∀ v w p, vars !! v = Some p -> vars !! w = Some p -> v = w).

Lemma represents_lookup s bl vars objs v o :
  represents s bl vars objs -> objs !! v = Some o -> ∃ p, vars !! v = Some p.
Proof.
  intros (Hd & _) Ho. destruct (vars !! v) as [p|] eqn:E; [eauto|].
  apply Hd in E. congruence.
Qed.

Lemma represents_block s bl vars objs v p :
  al_heap s bl -> represents s bl vars objs -> vars !! v = Some p ->
  ∃ o n, objs !! v = Some o ∧ (p - 8, n) ∈ live_blocks s bl ∧ 8 + al_tail <= n ∧ 0 <= al_tail.
Proof.
  intros Hh (Hd & Hr & _) Hv. destruct (objs !! v) as [o|] eqn:Ho; [|apply Hd in Ho; congruence].
  destruct (Hr v p o Hv Ho) as [(n & Hn & ? & ?) _]. destruct (al_heap_live _ _ _ _ Hh Hn) as (?&?&?&?).
  exists o, n. split_all; (done || lia).
Qed.

(** The address of a word of an object. *)
Lemma represents_address s bl vars objs v p o i :
  al_heap s bl -> represents s bl vars objs -> vars !! v = Some p -> objs !! v = Some o -> in_object o i ->
  ∃ n, (p - 8, n) ∈ live_blocks s bl ∧ p <= p + 8 * i ∧ p + 8 * i + 8 <= p - 8 + n - al_tail ∧
    accessible s (p + 8 * i) = true.
Proof.
  intros Hh (_ & Hr & _) Hv Ho [? ?]. destruct (Hr v p o Hv Ho) as [(n & Hn & ? & ?) _].
  destruct (al_heap_live _ _ _ _ Hh Hn) as (? & ? & ? & ?). exists n. split_all; [done|lia|lia|].
  apply accessible_spec. split_all; [Z.to_euclidean_division_equations|..]; lia.
Qed.

(** What a command does keeps the other variables' objects. *)
Definition cmd_ok (c : cmd) (s : arena) (vars : gmap nat Z) (objs : gmap nat object) : Prop :=
  ∀ objs' out, spec_cmd c objs = Some (objs', out) ->
  ∃ vars' s' bl', run_cmd c vars s = Some ((vars', out), s') ∧ al_heap s' bl' ∧
    represents s' bl' vars' objs' ∧ brk s' <= brk s + cmd_cost c ∧ seg_limit s' = seg_limit s.

Lemma malloc_cmd_ok v size s bl vars objs :
  al_heap s bl -> represents s bl vars objs -> brk s + cmd_cost (Malloc v size) <= seg_limit s ->
  cmd_ok (Malloc v size) s vars objs.
Proof.
  intros Hh Hrep Hroom objs' out. simpl. destruct (decide _) as [[Hv ?]|]; [|done]. intros [= <- <-].
  destruct (al_malloc_ok s bl size Hh) as (p & s' & bl' & n & Hrun & Hh' & (Hl&Ha&Hk&_&?) & ? & ?); [done..|].
  rewrite (st_bind_eq _ _ _ _ _ Hrun). exists (<[v := p]> vars), s', bl'.
  assert (∀ w, vars !! w ≠ Some p) as Hnew.
  { intros w Hw. destruct (represents_block s bl vars objs w p Hh Hrep Hw) as (o & m & _ & Hm & ? & ?).
    apply Ha in Hm. lia. }
  destruct Hrep as (Hd & Hr & Hinj). split_all; try done; unfold represents; split_all.
  - intros w. rewrite !lookup_insert_None, Hd. tauto.
  - intros w q o. rewrite !lookup_insert_Some. intros [[<- <-]|[Hne Hq]] [[? Ho]|[? Ho]]; try done.
    + subst o. split; [|intros i x Hx; simpl in Hx; by rewrite lookup_empty in Hx]. exists n. simpl.
      split; [apply Hl; by left|lia].
    + destruct (Hr w q o Hq Ho) as [(m & Hm & ?) Hw]. split; [exists m; split; [apply Hl; by right|done]|].
      intros i x Hx. destruct (Hw i x Hx) as [Hi <-]. split; [done|]. apply (Hk (q - 8) m); [done|].
      destruct (al_heap_live _ _ _ _ Hh Hm) as (? & ? & ? & ?). destruct Hi. lia.
  - intros w w' q. rewrite !lookup_insert_Some.
    intros [[<- <-]|[? Hw]] [[<- Heq]|[? Hw']]; try done; [by destruct (Hnew w')| |by apply (Hinj w w' q)].
    subst q. by destruct (Hnew w).
Qed.

Lemma free_cmd_ok v s bl vars objs :
  al_heap s bl -> represents s bl vars objs -> cmd_ok (Free v) s vars objs.
Proof.
  intros Hh Hrep objs' out. simpl. destruct (objs !! v) as [o|] eqn:Ho; [|done]. intros [= <- <-].
  destruct (represents_lookup _ _ _ _ _ _ Hrep Ho) as [p Hp]. rewrite Hp.
  destruct (represents_block _ _ _ _ _ _ Hh Hrep Hp) as (o' & n & _ & Hn & ? & ?).
  destruct (al_free_ok s bl (p - 8) n Hh Hn) as (s' & bl' & Hrun & Hh' & (Hl&Ha&Hk&_&?&?)).
  rewrite Z.sub_add in Hrun. rewrite (st_bind_eq _ _ s p s) by done. rewrite (st_bind_eq _ _ _ _ _ Hrun).
  exists (delete v vars), s', bl'.
  assert (∀ w q m, w ≠ v -> vars !! w = Some q -> (q - 8, m) ∈ live_blocks s bl ->
    (q - 8, m) ∈ live_blocks s' bl') as Hother.
  { intros w q m Hne Hq Hm. apply Hl in Hm as [[Heq _]|]; [|done]. destruct Hne.
    destruct Hrep as (_ & _ & Hinj). apply (Hinj w v p); [|done]. by replace p with q by lia. }
  destruct Hrep as (Hd & Hr & Hinj). split_all; try done; unfold represents; split_all; [..|lia].
  - intros w. rewrite !lookup_delete_None, Hd. tauto.
  - intros w q o1. rewrite !lookup_delete_Some. intros [Hne Hq] [_ Ho1].
    destruct (Hr w q o1 Hq Ho1) as [(m & Hm & ?) Hw]. split; [exists m; split; [by apply (Hother w)|done]|].
    intros i x Hx. destruct (Hw i x Hx) as [Hi <-]. split; [done|].
    apply (Hk (q - 8) m); [by apply (Hother w)|]. destruct Hi. lia.
  - intros w w' q. rewrite !lookup_delete_Some. intros [_ ?] [_ ?]. by apply (Hinj w w' q).
Qed.

Lemma put_cmd_ok v i x s bl vars objs :
  al_heap s bl -> represents s bl vars objs -> cmd_ok (Put v i x) s vars objs.
Proof.
  intros Hh Hrep objs' out. simpl. destruct (objs !! v) as [o|] eqn:Ho; [|done]. simpl.
  destruct (decide _) as [Hi|]; [|done]. intros [= <- <-].
  destruct (represents_lookup _ _ _ _ _ _ Hrep Ho) as [p Hp]. rewrite Hp.
  destruct (represents_address _ _ _ _ _ _ _ _ Hh Hrep Hp Ho Hi) as (n & Hn & ? & ? & Hacc).
  destruct (al_heap_live _ _ _ _ Hh Hn) as (? & ? & ? & ?).
  rewrite (st_bind_eq _ _ s p s) by done.
  rewrite (st_bind_eq _ _ s tt (set_word (p + 8 * i) x s)) by (unfold store; by rewrite Hacc).
  exists vars, (set_word (p + 8 * i) x s), bl.
  destruct Hrep as (Hd & Hr & Hinj). unfold represents. split_all; try done; [..|simpl; lia].
  - apply (al_store_ok _ _ (p - 8) n); (done || lia).
  - intros w. rewrite lookup_insert_None, Hd. split; [intros Hw; split; [done|congruence]|tauto].
  - intros w q o1 Hq. rewrite lookup_insert_Some. intros [[<- <-]|[Hne Ho1]].
    + assert (q = p) as -> by congruence. destruct (Hr v p o Hp Ho) as [? Hw]. split; [done|]. simpl.
      intros k y. rewrite lookup_insert_Some. intros [[<- <-]|[Hk Hy]]; [split; [done|apply word_set_eq]|].
      destruct (Hw k y Hy) as [? <-]. split; [done|]. apply word_set_ne. lia.
    + destruct (Hr w q o1 Hq Ho1) as [(m & Hm & ?) Hw]. split; [by exists m|]. intros k y Hy.
      destruct (Hw k y Hy) as [Hk <-]. split; [done|]. apply word_set_ne. destruct Hk.
      destruct (al_heap_apart _ _ _ _ _ _ Hh Hn Hm) as [[Heq _]|[?|?]]; [|lia..].
      destruct Hne. apply (Hinj v w p); [done|]. by replace p with q by lia.
Qed.

Lemma get_cmd_ok v i s bl vars objs :
  al_heap s bl -> represents s bl vars objs -> cmd_ok (Get v i) s vars objs.
Proof.
  intros Hh Hrep objs' out. simpl. destruct (objs !! v) as [o|] eqn:Ho; [|done]. simpl.
  destruct (obj_words o !! i) as [x|] eqn:Hx; [|done]. simpl.
  destruct (decide _) as [Hi|]; [|done]. intros [= <- <-].
  destruct (represents_lookup _ _ _ _ _ _ Hrep Ho) as [p Hp]. rewrite Hp.
  destruct (represents_address _ _ _ _ _ _ _ _ Hh Hrep Hp Ho Hi) as (n & Hn & ? & ? & Hacc).
  pose proof Hrep as (_ & Hr & _). destruct (Hr v p o Hp Ho) as [_ Hw]. destruct (Hw i x Hx) as [_ Hword].
  rewrite (st_bind_eq _ _ s p s) by done.
  rewrite (st_bind_eq _ _ s x s) by (unfold load; by rewrite Hacc, Hword).
  exists vars, s, bl. split_all; (done || simpl; lia).
Qed.

Lemma spec_cost_nonneg cs objs out : spec_client cs objs = Some out -> 0 <= client_cost cs.
Proof.
  revert objs out. induction cs as [|c cs IH]; intros objs out; simpl; [lia|]. fold (client_cost cs).
  destruct (spec_cmd c objs) as [[objs' o1]|] eqn:Hc; [|done]. simpl.
  destruct (spec_client cs objs') as [o2|] eqn:Hcs; [|done]. intros _. apply IH in Hcs.
  assert (0 <= cmd_cost c); [|lia]. destruct c; simpl in *; try lia.
  destruct (decide _) as [[_ ?]|]; [by apply al_cost_nonneg|done].
Qed.

Lemma client_refines_from cs s bl vars objs out :
  al_heap s bl -> represents s bl vars objs -> spec_client cs objs = Some out ->
  brk s + client_cost cs <= seg_limit s ->
  ∃ s', run_client cs vars s = Some (out, s').
Proof.
  revert s bl vars objs out. induction cs as [|c cs IH]; intros s bl vars objs out Hh Hrep Hspec Hroom.
  { injection Hspec as <-. by exists s. }
  simpl in Hspec, Hroom. fold (client_cost cs) in Hroom.
  destruct (spec_cmd c objs) as [[objs' o1]|] eqn:Hs1; [|done]. simpl in Hspec.
  destruct (spec_client cs objs') as [o2|] eqn:Hs2; [|done]. injection Hspec as <-.
  pose proof (spec_cost_nonneg _ _ _ Hs2).
  assert (cmd_ok c s vars objs) as Hc.
  { destruct c; [apply (malloc_cmd_ok _ _ s bl); done || lia|by apply (free_cmd_ok _ s bl)
      |by apply (put_cmd_ok _ _ _ s bl)|by apply (get_cmd_ok _ _ s bl)]. }
  destruct (Hc _ _ Hs1) as (vars' & s' & bl' & Hrun & Hh' & Hrep' & ? & ?).
  destruct (IH s' bl' vars' objs' o2) as (s2 & Hrun2); [done..|lia|].
  exists s2. simpl. by rewrite (st_bind_eq _ _ _ _ _ Hrun), (st_bind_eq _ _ _ _ _ Hrun2).
Qed.

Lemma represents_empty s bl : represents s bl ∅ ∅.
Proof. unfold represents. split_all; [done|by intros v p o Hp; rewrite lookup_empty in Hp..]. Qed.

End client.
