(* ===== verification/MallocSingly.v ===== *)
(** [malloc_singly_linked_list.c]: an allocator whose blocks carry a header word, with
    first fit and deferred coalescing. The globals and the memory are those of
    [WordHeap]; [mrealloc] has an empty body. *)

From S2P Require Import Prelude WordHeap Allocator.
#[local] Open Scope Z_scope.

Module Singly.

(** * The program *)

(** One iteration of the loop of [find_fit]. *)
Definition find_fit_body (size header : Z) : ST arena (Z + Z) :=
  h ← load header;
  if tag h =? 0 then
    if size <=? h then mret (inl header) else
    let next := u64 (header + h) in
    s ← st_get;
    free_next ← (if next <? break_end s then n ← load next; mret (tag n =? 0) else mret false);
    if free_next : bool then
      n ← load next;
      store header (u64 (h + n));;
      mret (inr header)
    else mret (inr (u64 (header + untag h)))
  else mret (inr (u64 (header + untag h))).

Definition find_fit (size : Z) : ST arena Z :=
  s ← st_get; search (search_fuel s) (find_fit_body size) (break_start s).

(** The first call looks up the break. *)
Definition init_heap : ST arena unit :=
  s ← st_get;
  if break_start s =? 0 then b ← sbrk 0; st_modify (set_break_start b) else mret tt.

(** The block found is cut if it is larger than needed, and marked. *)
Definition take_block (header blk_size : Z) : ST arena unit :=
  h ← load header;
  (if blk_size <? h then
     r ← load header;
     store (u64 (header + blk_size)) (u64 (r - blk_size));;
     store header blk_size
   else mret tt);;
  h ← load header;
  store header (Z.lor h 1).

(** Without a block that fits the data segment grows. *)
Definition grow_heap (blk_size : Z) : ST arena Z :=
  header ← sbrk blk_size;
  store header (Z.lor blk_size 1);;
  st_modify (set_break_end (u64 (header + blk_size)));;
  mret header.

Definition mmalloc (size : Z) : ST arena Z :=
  init_heap;;
  let blk_size := ALIGN (u64 (size + SIZE_T_SIZE)) in
  header ← find_fit blk_size;
  header ← (if negb (header =? 0) then take_block header blk_size;; mret header
            else grow_heap blk_size);
  mret (u64 (header + SIZE_T_SIZE)).

Definition mfree (ptr : Z) : ST arena unit :=
  let header := u64 (ptr - SIZE_T_SIZE) in
  h ← load header;
  store header (untag h).

(** [walk_heap] asserts that the heap is initialised and prints size and state of each
    block. *)
Fixpoint walk_from (fuel : nat) (p : Z) : ST arena (list (Z * Z)) :=
  match fuel with
  | O => st_fail
  | S fuel =>
      s ← st_get;
      if p <? break_end s then
        header ← load p;
        let blk_size := untag header in
        let allocated := tag header in
        rest ← walk_from fuel (u64 (p + blk_size));
        mret ((blk_size, allocated) :: rest)
      else mret []
  end.
Definition walk_heap : ST arena (list (Z * Z)) :=
  s ← st_get;
  st_assert (negb (break_start s =? 0));;
  walk_from (search_fuel s) (break_start s).

(** [test_implementation] and what [walk_heap] prints in it. *)
Definition test_implementation : ST arena (list (Z * Z)) :=
  ptr0 ← mmalloc 10;
  ptr1 ← mmalloc 20;
  ptr2 ← mmalloc 30;
  ptr4 ← mmalloc 40;
  mfree ptr1;;
  mfree ptr2;;
  ptr3 ← mmalloc 40;
  ptr5 ← mmalloc 40;
  out ← walk_heap;
  mfree ptr0;;
  mfree ptr3;;
  mfree ptr4;;
  mfree ptr5;;
  mret out.
End Singly.

(** * How a heap looks in memory *)

Module SinglyHeap.
Import Singly.

Definition tagged (s : arena) (a : Z) (b : block) : Prop :=
  0 < bsize b ∧ word s a = header_word b.
Definition fence (s : arena) : Prop := 0 < break_start s.

(** A heap in the middle of a run: sizes are multiples of eight bytes, and not 0. *)
Abbreviation heap_ok := (WordHeap.heap_ok tagged 8 fence).
Abbreviation region := (WordHeap.region tagged 8).

Lemma singly_tagged_frame s s' a b :
  tagged s a b -> (∀ x, a <= x < a + bsize b -> word s' x = word s x) -> tagged s' a b.
Proof. intros [? ?] Hx. split; [done|]. rewrite Hx; [done|lia]. Qed.

Lemma singly_fence_frame s s' :
  fence s -> seg_start s' = seg_start s -> break_start s' = break_start s ->
  (∀ x, x < break_start s -> word s' x = word s x) -> fence s'.
Proof. unfold fence. intros ? _ -> _. done. Qed.

Lemma singly_tagged_header s a b : tagged s a b -> word s a = header_word b.
Proof. by intros [_ ?]. Qed.

Definition load_header := region_load tagged 8 ltac:(lia) singly_tagged_header.
Definition header_facts := region_facts tagged 8 ltac:(lia).

(** * [find_fit] *)

Lemma singly_body_found size s h b bl :
  region s h (b :: bl) -> busy b = false -> size <= bsize b ->
  find_fit_body size h s = Some (inl h, s).
Proof.
  intros Hr Hb Hs. unfold find_fit_body. rewrite (st_bind_eq _ _ _ _ _ (load_header _ _ _ _ Hr)).
  destruct (header_facts _ _ _ _ Hr) as (-> & _ & _ & Hw & _). rewrite Hw, Hb by done. simpl.
  by rewrite (proj2 (Z.leb_le _ _)).
Qed.

Lemma singly_body_pass size s h b bl :
  region s h (b :: bl) -> busy b = true ∨ bsize b < size ->
  busy b = true ∨ (∀ c, head bl = Some c -> busy c = true) ->
  find_fit_body size h s = Some (inr (h + bsize b), s).
Proof.
  intros Hr Hb Hbc. unfold find_fit_body. rewrite (st_bind_eq _ _ _ _ _ (load_header _ _ _ _ Hr)).
  destruct (header_facts _ _ _ _ Hr) as (-> & -> & -> & Hw & ?).
  destruct (busy b) eqn:Eb; [done|]. rewrite Hw by done. destruct Hb as [|Hb]; [done|].
  destruct Hbc as [|Hbc]; [done|]. simpl. rewrite (proj2 (Z.leb_gt _ _)) by lia.
  pose proof (region_tail tagged 8 ltac:(lia) _ _ _ _ Hr) as Ht.
  destruct (header_facts _ _ _ _ Hr) as (_ & _ & Hu & _). rewrite Hu.
  unfold mbind, st_bind, st_get. destruct (h + bsize b <? break_end s) eqn:E; [|done].
  apply Z.ltb_lt in E. destruct bl as [|c bl].
  { destruct Ht as (_&_&_&_&_&Ht&_). simpl in Ht. lia. }
  rewrite (load_header _ _ _ _ Ht). destruct (header_facts _ _ _ _ Ht) as (-> & _).
  by rewrite (Hbc c).
Qed.

Lemma singly_body_merge size s h b c bl :
  region s h (b :: c :: bl) -> busy b = false -> busy c = false -> bsize b < size ->
  ∃ s', find_fit_body size h s = Some (inr h, s') ∧ tiles tagged s' h (merge b c :: bl) ∧
    writes_in (free_at h (b :: c :: bl)) s s'.
Proof.
  intros Hr Hb Hc Hs. pose proof (region_tail tagged 8 ltac:(lia) _ _ _ _ Hr) as Ht.
  destruct (header_facts _ _ _ _ Hr) as (Htag & _ & Hu & Hw & ?).
  destruct (header_facts _ _ _ _ Ht) as (Htag' & _ & Hu' & Hw' & ?).
  exists (set_word h (bsize b + bsize c) s). unfold find_fit_body.
  rewrite (st_bind_eq _ _ _ _ _ (load_header _ _ _ _ Hr)), Htag, Hb, Hw by done. simpl.
  rewrite (proj2 (Z.leb_gt _ _)), Hu by lia. unfold mbind, st_bind, st_get.
  rewrite (proj2 (Z.ltb_lt _ _)), (load_header _ _ _ _ Ht), Htag', Hc by lia. simpl.
  rewrite (load_header _ _ _ _ Ht), Hw' by done.
  assert (u64 (bsize b + bsize c) = bsize b + bsize c) as ->.
  { destruct Hr as ((?&?&?&?&?&?)&?&_&_&_&_&?). apply wrap_id. unfold in_unsigned. lia. }
  pose proof Hr as (_&?&?&[_ [_ Hbl]]&[_ [_ Hsz]%Forall_cons]%Forall_cons&Htot&?). simpl in Htot.
  rewrite (store_run s h) by (done || lia). split_all; [done| |..].
  - split; [simpl; lia|]. rewrite word_set_eq. unfold header_word. simpl. rewrite Hb. lia.
  - rewrite Z.add_assoc. apply (tiles_frame tagged singly_tagged_frame 8 s); [lia|done..|].
    intros. apply word_set_ne. lia.
  - apply writes_in_set. simpl. left. split; [done|lia].
Qed.

(** [find_fit] always ends; it finds a block exactly when some run of free neighbours
    is large enough, and does not touch an allocated block. *)
Lemma singly_find_fit_run size s b bl :
  region s (break_start s) (b :: bl) ->
  search_ok tagged s (break_start s) (b :: bl) (find_fit size s) (fit size b bl).
Proof.
  intros Hr. unfold find_fit. rewrite (st_bind_eq _ _ s s s) by done.
  apply (search_run tagged 8 ltac:(lia) (find_fit_body size) size).
  - apply singly_body_found.
  - apply singly_body_pass.
  - intros. by apply singly_body_merge.
  - apply singly_tagged_frame.
  - done.
  - pose proof (search_fuel_enough tagged 8 _ _ Hr ltac:(lia)). simpl in *. lia.
Qed.

Lemma singly_find_fit_empty size s : break_end s = 0 -> 0 <= break_start s -> find_fit size s = Some (0, s).
Proof.
  intros He ?. unfold find_fit, search_fuel. rewrite (st_bind_eq _ _ s s s) by done.
  rewrite search_S, He. by rewrite (proj2 (Z.ltb_ge _ _)) by lia.
Qed.
(** * [mmalloc] *)

Lemma singly_take_block_run s h c bl n :
  region s h (c :: bl) -> busy c = false -> n <= bsize c -> sized 8 (Block n true) ->
  ∃ s' m new, take_block h n s = Some (tt, s') ∧
    writes_in (λ x, h <= x < h + bsize c) s s' ∧ tiles tagged s' h (Block m true :: new) ∧
    total (Block m true :: new) = bsize c ∧ all_free new ∧ Forall (sized 8) new ∧ n <= m ∧ sized 8 (Block m true).
Proof.
  intros Hr Hc Hn [Hn8 ?]. simpl in *.
  destruct (header_facts _ _ _ _ Hr) as (_ & _ & Hu & Hw & ? & ? & ? & ? & ?). specialize (Hw Hc).
  pose proof Hr as (_ & ? & ? & _ & [[Hc8 ?] _]%Forall_cons & _ & ?).
  unfold take_block. rewrite (st_bind_eq _ _ _ _ _ (load_header _ _ _ _ Hr)), Hw.
  destruct (n <? bsize c) eqn:E.
  - apply Z.ltb_lt in E. pose proof (mod_sub_8 (bsize c) n Hc8 Hn8).
    assert (n + 8 <= bsize c) by (Z.to_euclidean_division_equations; lia).
    rewrite (st_bind_eq _ _ s tt (set_word h n (set_word (h + n) (bsize c - n) s))).
    2: { rewrite (st_bind_eq _ _ _ _ _ (load_header _ _ _ _ Hr)), Hw.
         rewrite (u64_id (h + n)), (u64_id (bsize c - n)) by lia. run_store. apply store_run; in_memory. }
    run_load. rewrite store_run by in_memory. rewrite word_set_eq, header_word_busy by lia.
    eexists _, n, [Block (bsize c - n) false]. split_all; [done|..]; simpl; try done; try lia.
    + solve_writes.
    + split; [simpl; lia|]. by rewrite word_set_eq.
    + split; [|done]. split; [simpl; lia|]. rewrite header_word_free. solve_words.
    + by repeat constructor.
    + constructor; [|done]. split; [done|]. simpl. Z.to_euclidean_division_equations. lia.
  - apply Z.ltb_ge in E. rewrite (st_bind_eq _ _ s tt s) by done. rewrite (st_bind_eq _ _ _ _ _ (load_header _ _ _ _ Hr)), Hw.
    rewrite store_run by in_memory. rewrite header_word_busy by lia.
    eexists _, (bsize c), []. split_all; [done|..]; simpl; try done; try lia.
    + solve_writes.
    + split; [simpl; lia|]. by rewrite word_set_eq.
    + by constructor.
Qed.

Lemma singly_grow_heap_run s bl n :
  arena_ok s -> fence s -> break_start s mod 8 = 0 -> seg_start s <= break_start s ->
  Forall (sized 8) bl -> tiles tagged s (break_start s) bl -> break_start s + total bl = brk s ->
  sized 8 (Block n true) -> brk s + n <= seg_limit s ->
  ∃ s', grow_heap n s = Some (brk s, s') ∧ heap_ok s' (bl ++ [Block n true]) ∧
    allocates s bl s' (bl ++ [Block n true]) (brk s) n ∧ brk s' = brk s + n.
Proof.
  intros Ha Hf ? ? Hs Ht Htot Hn ?. pose proof Ha as (?&?&?&?&?&?). pose proof Hn as [? ?]. simpl in *.
  unfold grow_heap. rewrite (st_bind_eq _ _ _ _ _ (sbrk_run s n ltac:(lia) ltac:(lia) ltac:(lia))).
  run_store. rewrite header_word_busy, u64_id by lia.
  eexists. split; [reflexivity|]. set (s' := set_break_end _ _).
  assert (∀ x, x < brk s -> word s' x = word s x) as Hw.
  { intros x Hx. apply (word_set_ne s (brk s) (header_word (Block n true))). lia. }
  assert (word s' (brk s) = header_word (Block n true)) as Hnew.
  { apply (word_set_eq s (brk s)). }
  split_all; [|apply (allocates_grown 8); done || lia|done].
  apply (heap_grow tagged 8 ltac:(lia) fence singly_tagged_frame singly_fence_frame s); try done. split; [simpl; lia|done].
Qed.

(** The state after the first call has looked up the break. *)
Definition started (s : arena) (bl : list block) : Prop :=
  arena_ok s ∧ fence s ∧ break_start s mod 8 = 0 ∧ seg_start s <= break_start s ∧
  Forall (sized 8) bl ∧ tiles tagged s (break_start s) bl ∧ break_start s + total bl = brk s ∧
  ((bl = [] ∧ break_end s = 0) ∨ (bl ≠ [] ∧ break_end s = brk s)).

Lemma singly_init_heap_run s bl :
  heap_ok s bl -> ∃ s', init_heap s = Some (tt, s') ∧ started s' bl ∧ rearranged s bl s' bl.
Proof.
  intros [Ha [(Hb & He & ->)|(Hne & Hf & He & Hr)]]; unfold init_heap;
    rewrite (st_bind_eq _ _ s s s) by done; pose proof Ha as (?&?&?&?&?&?).
  - rewrite Hb. simpl. rewrite (st_bind_eq _ _ _ _ _ (sbrk_run s 0 ltac:(lia) ltac:(lia) ltac:(lia))).
    rewrite Z.add_0_r. eexists. split; [reflexivity|]. split.
    + unfold started, fence, arena_ok. simpl. split_all; try done; try lia. by left.
    + unfold rearranged, live_blocks. simpl. by split_all.
  - unfold fence in Hf. rewrite (proj2 (Z.eqb_neq _ _)) by lia. exists s. split; [done|].
    destruct Hr as (_&?&?&?&?&?&?). split; [|done].
    unfold started. split_all; try done; [lia|by right].
Qed.

(** A block that was found is taken. *)
Lemma singly_take_found s pre c post n :
  region s (break_start s) (pre ++ c :: post) -> fence s -> break_end s = brk s ->
  busy c = false -> n <= bsize c -> sized 8 (Block n true) ->
  ∃ s' bl' m, take_block (break_start s + total pre) n s = Some (tt, s') ∧ heap_ok s' bl' ∧
    allocates s (pre ++ c :: post) s' bl' (break_start s + total pre) m ∧ n <= m ∧ brk s' = brk s.
Proof.
  intros Hr Hf He Hc Hn Hs. pose proof (region_app tagged 8 ltac:(lia) _ _ _ _ Hr) as Hrc.
  destruct (singly_take_block_run _ _ _ _ n Hrc) as (s' & m & new & Hrun & Hw & Ht & Htot & Hfree & Hnew & ? & ?);
    [done..|]. pose proof Hr as (Ha & _ & _ & _ & Hsz & _).
  exists s', (pre ++ (Block m true :: new) ++ post), m.
  assert (total [c] = bsize c) as Hc1 by (simpl; lia). rewrite <- Hc1 in Hw, Htot.
  split_all; [done|..|done|apply Hw].
  - apply (heap_replace tagged 8 ltac:(lia) fence singly_tagged_frame singly_fence_frame s _ _ [c]); try done; [|by constructor].
    split; [done|]. right. split_all; try done. by destruct pre.
  - apply (allocates_hole 8 _ _ _ [c]); try done. by constructor.
Qed.

(** The first block that fits is taken, or the memory grows. *)
Lemma singly_place_run s bl n :
  started s bl -> sized 8 (Block n true) -> brk s + n <= seg_limit s ->
  ∃ x s' bl' m, (header ← find_fit n;
      if negb (header =? 0) then take_block header n;; mret header else grow_heap n) s = Some (x, s') ∧
    heap_ok s' bl' ∧ allocates s bl s' bl' x m ∧ n <= m ∧
    brk s' = if longest_run 0 bl <? n then brk s + n else brk s.
Proof.
  intros (Ha&Hf&?&?&Hs&Ht&Htot&Hcase) Hn ?. pose proof Ha as (?&?&?&?&?&?). pose proof Hn as [? ?]. simpl in *.
  destruct Hcase as [[-> He]|[Hne He]].
  { rewrite (st_bind_eq _ _ _ _ _ (singly_find_fit_empty n s He ltac:(lia))). simpl.
    destruct (singly_grow_heap_run s [] n) as (s' & -> & ? & ? & ?); [done..|].
    exists (brk s), s', [Block n true], n. split_all; try done; try lia.
    by rewrite (proj2 (Z.ltb_lt _ _)) by lia. }
  destruct bl as [|b bl]; [done|].
  assert (region s (break_start s) (b :: bl)) as Hr by (unfold WordHeap.region; split_all; (done || lia)).
  destruct (singly_find_fit_run n _ _ _ Hr) as (s1 & Hrun & Ht1 & Hw1). rewrite (st_bind_eq _ _ _ _ _ Hrun).
  pose proof (fit_rearranged 8 n s s1 b bl ltac:(lia) Hs Hw1) as Hre.
  pose proof (fit_complete 8 ltac:(lia) n b bl ltac:(lia) Hs) as Hcomp.
  destruct (fit_blocks 8 ltac:(lia) n b bl) as (Htot1 & _ & Hs1). specialize (Hs1 Hs).
  assert (region s1 (break_start s) (blocks_of (fit n b bl))) as Hr1
    by by apply (region_writes tagged 8 _ _ _ _ _ _ Hr Hw1).
  pose proof (writes_in_arena_ok _ _ _ Hw1 Ha) as Ha1. destruct Hw1 as (E1&E2&E3&E4&E5&_).
  unfold fence in Hf. rewrite <- E4, <- E2, <- E3, <- E1 in *.
  destruct (fit n b bl) as [pre [[c post]|]]; simpl in *.
  - destruct Hcomp as (Hc & Hnc & Hlong).
    pose proof Hs1 as [Hpre _]%Forall_app. pose proof (total_nonneg 8 pre ltac:(lia) Hpre).
    rewrite (proj2 (Z.eqb_neq _ _)), (proj2 (Z.ltb_ge _ _)) by lia. simpl.
    destruct (singly_take_found s1 pre c post n Hr1) as (s' & bl' & m & Hrun' & ? & ? & ? & ?); [done|congruence|done..|].
    rewrite (st_bind_eq _ _ _ _ _ Hrun'). exists (break_start s1 + total pre), s', bl', m.
    split_all; try done. by apply (allocates_rearranged s (b :: bl) s1 (pre ++ c :: post)).
  - rewrite (proj2 (Z.ltb_lt _ _)) by lia. pose proof Hr1 as (_&_&_&?&_&?&_).
    destruct (singly_grow_heap_run s1 pre n) as (s' & -> & ? & ? & ?); try done; [simpl in *; lia|].
    exists (brk s1), s', (pre ++ [Block n true]), n. split_all; [done|done| |lia|done].
    by apply (allocates_rearranged s (b :: bl) s1 pre).
Qed.

(** [mmalloc] succeeds when the memory can grow by what it may need. It returns the
    payload of a block that is large enough and was no part of an allocated one, and
    leaves the allocated blocks alone; the memory grows only when no run of free
    neighbours is large enough. *)
Lemma singly_mmalloc_ok s bl size :
  heap_ok s bl -> 0 <= size -> brk s + size + 15 <= seg_limit s ->
  ∃ p s' bl' n, mmalloc size s = Some (p, s') ∧ heap_ok s' bl' ∧
    allocates s bl s' bl' (p - 8) n ∧ size + 8 <= n ∧
    brk s' = if longest_run 0 bl <? ALIGN (size + 8) then brk s + ALIGN (size + 8) else brk s.
Proof.
  intros Hok ? ?. pose proof Hok as [(?&?&?&?&?&?) _].
  destruct (singly_init_heap_run s bl Hok) as (s1 & Hrun & Hst & Hre). pose proof Hre as (_&_&E1&E2&E3).
  unfold mmalloc. rewrite (st_bind_eq _ _ _ _ _ Hrun). rewrite SIZE_T_SIZE_eq, (u64_id (size + 8)) by lia.
  destruct (ALIGN_bounds (size + 8)) as [? ?]; [lia..|].
  destruct (singly_place_run s1 bl (ALIGN (size + 8)) Hst) as (x & s' & bl' & m & Hplace & Hok' & Hal & ? & Hbrk);
    [split; simpl; [done|lia]|lia|].
  unfold mbind, st_bind in Hplace |- *. destruct (find_fit _ s1) as [[h s2]|]; [|done].
  rewrite Hplace.
  destruct (heap_ok_live tagged 8 ltac:(lia) fence s' bl' x m Hok') as (?&?&_); [by apply Hal; left|].
  assert (arena_ok s') as (?&?&?&?&?&?) by apply Hok'.
  exists (x + 8), s', bl', m. replace (x + 8 - 8) with x by lia. split_all; [|done|..|lia|].
  - unfold mret, st_ret. rewrite u64_id by lia. done.
  - by apply (allocates_rearranged s bl s1 bl).
  - by rewrite Hbrk, E3.
Qed.

(** * [mfree] and [walk_heap] *)

Lemma middle_region s pre b post :
  heap_ok s (pre ++ b :: post) -> region s (break_start s + total pre) (b :: post).
Proof.
  intros [_ [(_&_&Hnil)|(_&_&_&Hr)]]; [by destruct pre|]. by apply (region_app tagged 8).
Qed.

(** [mfree] marks the block free and does nothing else. *)
Lemma singly_mfree_ok s pre n post :
  heap_ok s (pre ++ Block n true :: post) ->
  let x := break_start s + total pre in
  let bl' := pre ++ Block n false :: post in
  ∃ s', mfree (x + 8) s = Some (tt, s') ∧ heap_ok s' bl' ∧
    releases s (pre ++ Block n true :: post) s' bl' x n.
Proof.
  intros Hok x bl'. pose proof (middle_region _ _ _ _ Hok) as Hr. fold x in Hr.
  destruct (header_facts _ _ _ _ Hr) as (_ & Hun & _ & _ & ? & ? & ? & ? & _).
  pose proof (heap_ok_sized _ _ _ _ _ Hok) as Hs.
  pose proof Hs as [_ [Hn _]%Forall_cons]%Forall_app.
  pose proof Hr as (_ & ? & ? & _ & _ & _ & ?). simpl in *.
  unfold mfree. rewrite SIZE_T_SIZE_eq, u64_id by lia. replace (x + 8 - 8) with x by lia.
  rewrite (st_bind_eq _ _ _ _ _ (load_header _ _ _ _ Hr)), Hun, store_run by (done || lia).
  exists (set_word x n s). split; [done|].
  assert (writes_in (λ y, x <= y < x + total [Block n true]) s (set_word x n s)) as Hw
    by (apply writes_in_set; simpl; lia).
  split.
  - apply (heap_replace tagged 8 ltac:(lia) fence singly_tagged_frame singly_fence_frame s _ pre [Block n true] [Block n false]);
      try done; [by constructor|].
    split; [|done]. split; [simpl; lia|]. by rewrite header_word_free, word_set_eq.
  - pose proof (releases_hole 8 s (set_word x n s) pre [] n [] [Block n false] post) as Hrel.
    simpl in Hrel, Hw. fold x in Hrel. rewrite (Z.add_0_r x) in Hrel.
    apply Hrel; first [done|lia|by apply Forall_nil|by apply Forall_singleton].
Qed.

Lemma singly_walk_from_run s h bl fuel :
  region s h bl -> (length bl < fuel)%nat ->
  walk_from fuel h s = Some (map (λ b, (bsize b, if busy b then 1 else 0)) bl, s).
Proof.
  revert h fuel. induction bl as [|b bl IH]; intros h fuel Hr Hfuel; (destruct fuel as [|fuel]; [lia|]); simpl;
    rewrite (st_bind_eq _ _ s s s) by done.
  - destruct Hr as (_&_&_&_&_&?&_). simpl in *. by rewrite (proj2 (Z.ltb_ge _ _)) by lia.
  - destruct (header_facts _ _ _ _ Hr) as (Htag & Hun & Hu & _ & ? & ? & _).
    rewrite (proj2 (Z.ltb_lt _ _)) by lia. rewrite (st_bind_eq _ _ _ _ _ (load_header _ _ _ _ Hr)), Htag, Hun, Hu.
    erewrite st_bind_eq; [|apply IH; [by apply (region_tail tagged 8)|simpl in Hfuel; lia]]. done.
Qed.

(** [walk_heap] ends and prints every block in order, with its size and state. *)
Lemma singly_walk_heap_spec s bl :
  heap_ok s bl -> bl ≠ [] ->
  walk_heap s = Some (map (λ b, (bsize b, if busy b then 1 else 0)) bl, s).
Proof.
  intros [_ [(_&_&->)|(_&Hf&_&Hr)]] Hne; [done|]. unfold walk_heap, fence in *.
  rewrite (st_bind_eq _ _ s s s) by done.
  rewrite (st_bind_eq _ _ s tt s) by (unfold st_assert; by rewrite (proj2 (Z.eqb_neq _ _)) by lia).
  apply singly_walk_from_run; [done|]. by apply (search_fuel_enough tagged 8).
Qed.

(** * Sizes near the top of [size_t] *)

Lemma walk_from_zero fuel s a :
  word s a = 1 -> accessible s a = true -> a < break_end s -> 0 <= a < 2 ^ 64 -> walk_from fuel a s = None.
Proof.
  intros Hw Ha ? ?. induction fuel as [|fuel IH]; [done|]. simpl. rewrite (st_bind_eq _ _ s s s) by done.
  rewrite (proj2 (Z.ltb_lt _ _)) by lia.
  rewrite (st_bind_eq _ _ s 1 s) by (unfold load; by rewrite Ha, Hw).
  assert (u64 (a + untag 1) = a) as ->. { change (untag 1) with 0. rewrite Z.add_0_r. by apply u64_id. }
  unfold mbind, st_bind. by rewrite IH.
Qed.

Lemma mmalloc_wraps s n bl size :
  heap_ok s (Block n false :: bl) -> 2 ^ 64 - 15 <= size < 2 ^ 64 - 7 ->
  ∃ s', mmalloc size s = Some (break_start s + 8, s') ∧ word s' (break_start s) = 1 ∧
    ∀ fuel, walk_from fuel (break_start s') s' = None.
Proof.
  intros Hok Hsize. pose proof (middle_region s [] _ _ Hok) as Hr. simpl in Hr. rewrite Z.add_0_r in Hr.
  destruct (header_facts _ _ _ _ Hr) as (Htag & _ & Hu & Hw & ? & ? & ? & ? & ?). specialize (Hw eq_refl). simpl in *.
  destruct Hok as [Ha [(_&_&?)|(_&Hf&He&_)]]; [done|]. unfold fence in Hf.
  pose proof Ha as (?&?&?&?&?&?). pose proof Hr as (_ & ? & ? & _ & _ & _ & ?).
  set (h := break_start s) in *.
  assert (ALIGN (u64 (size + SIZE_T_SIZE)) = 0) as Hneed.
  { rewrite SIZE_T_SIZE_eq. unfold ALIGN, u64. rewrite wrap_add_l by lia. unfold wrap.
    replace (size + 8 + (8 - 1)) with ((size + 15 - 2 ^ 64) + 1 * 2 ^ 64) by lia.
    rewrite Z_mod_plus_full, Z.mod_small by lia.
    rewrite (land_high_mask _ 3) by lia. change (2 ^ 3) with 8. rewrite Z.mod_small; lia. }
  assert (find_fit 0 s = Some (h, s)) as Hfind.
  { unfold find_fit, search_fuel. rewrite (st_bind_eq _ _ s s s), search_S, (proj2 (Z.ltb_lt _ _)) by (done || lia).
    by rewrite (st_bind_eq _ _ _ _ _ (singly_body_found 0 s h _ _ Hr ltac:(done) ltac:(simpl; lia))). }
  exists (set_word h 1 (set_word h 0 (set_word h n s))).
  assert (mmalloc size s = Some (h + 8, set_word h 1 (set_word h 0 (set_word h n s)))) as Hrun.
  { unfold mmalloc, init_heap. rewrite (st_bind_eq _ _ s tt s).
    2: { rewrite (st_bind_eq _ _ s s s) by done. by rewrite (proj2 (Z.eqb_neq _ _)) by (subst h; lia). }
    rewrite Hneed, (st_bind_eq _ _ _ _ _ Hfind), (proj2 (Z.eqb_neq _ _)) by lia. simpl negb. cbv iota.
    rewrite (st_bind_eq _ _ s h (set_word h 1 (set_word h 0 (set_word h n s)))).
    { unfold mret, st_ret. by rewrite SIZE_T_SIZE_eq, u64_id by lia. }
    rewrite (st_bind_eq _ _ s tt (set_word h 1 (set_word h 0 (set_word h n s)))); [done|].
    unfold take_block. rewrite (st_bind_eq _ _ _ _ _ (load_header _ _ _ _ Hr)), Hw, (proj2 (Z.ltb_lt _ _)) by lia.
    rewrite (st_bind_eq _ _ s tt (set_word h 0 (set_word h n s))).
    - run_load. rewrite word_set_eq. by rewrite store_run by in_memory.
    - rewrite (st_bind_eq _ _ _ _ _ (load_header _ _ _ _ Hr)), Hw, Z.add_0_r, Z.sub_0_r, !u64_id by lia.
      run_store. by rewrite store_run by in_memory. }
  split_all; [done|apply word_set_eq|]. intros fuel.
  apply walk_from_zero; [apply word_set_eq|apply accessible_spec; simpl; fold h; split_all; done || lia
    |simpl; fold h; lia..].
Qed.

(** When the system refuses to move the break, [sbrk] returns -1, which is not checked:
    [mmalloc] writes the header there. *)
Lemma singly_grow_refused n s :
  0 <= n < 2 ^ 63 -> 0 < seg_start s <= brk s -> seg_limit s < brk s + n -> grow_heap n s = None.
Proof.
  intros ? ? ?. unfold grow_heap. rewrite (st_bind_eq _ _ s (2 ^ 64 - 1) s).
  - unfold mbind, st_bind, store. by replace (accessible s (2 ^ 64 - 1)) with false by done.
  - unfold sbrk, swrap, wrap. change (2 ^ (64 - 1)) with (2 ^ 63).
    rewrite Z.mod_small, (proj2 (Z.ltb_lt _ _)) by lia.
    by rewrite (proj2 (Z.leb_gt _ (seg_limit s))), andb_false_r by lia.
Qed.

(** * The interface *)

(** Writing to the payload of an allocated block. *)
Lemma singly_store_payload s bl x n a v :
  heap_ok s bl -> (x, n) ∈ live_blocks s bl -> x + 8 <= a -> a + 8 <= x + n -> heap_ok (set_word a v s) bl.
Proof.
  intros Hok (pre & post & -> & ->)%live_split ? ?. pose proof (middle_region _ _ _ _ Hok) as Hr.
  pose proof (heap_ok_sized _ _ _ _ _ Hok) as [_ [Hn _]%Forall_cons]%Forall_app.
  apply (heap_replace tagged 8 ltac:(lia) fence singly_tagged_frame singly_fence_frame s _ pre [Block n true] [Block n true]);
    try done; [apply writes_in_set; simpl; lia|by apply Forall_singleton|].
  destruct Hr as (_&_&_&[[? Hw] _]&_). split; [|done]. split; [done|]. rewrite word_set_ne; [done|lia].
Qed.

#[export] Program Instance singly_allocator : Allocator := {|
  al_malloc := mmalloc;
  al_free := mfree;
  al_tail := 0;
  al_cost size := size + 15;
  al_heap := heap_ok
|}.
Next Obligation.
  intros s bl x n Hok Hx. destruct (heap_ok_live tagged 8 ltac:(lia) fence _ _ _ _ Hok Hx) as (?&?&?&?&?).
  split_all; done.
Qed.
Next Obligation.
  intros s bl x n y m Hok. apply (live_disjoint 8); [lia|]. by eapply heap_ok_sized.
Qed.
Next Obligation. simpl. lia. Qed.
Next Obligation.
  simpl. intros s bl size Hok ? ?. pose proof Hok as [(?&?&?&?&?&?) _].
  destruct (singly_mmalloc_ok s bl size Hok) as (p & s' & bl' & n & ? & ? & ? & ? & Hb); [lia..|].
  exists p, s', bl', n. split_all; [done..|lia|]. destruct (ALIGN_bounds (size + 8)) as [? _]; [lia..|].
  rewrite Hb. destruct (_ <? _); lia.
Qed.
Next Obligation.
  simpl. intros s bl x n Hok (pre & post & -> & ->)%live_split.
  destruct (singly_mfree_ok s pre n post Hok) as (s' & ? & ? & ?). eauto.
Qed.
Next Obligation.
  simpl. intros s bl x n a v Hok Hx ? ?. apply (singly_store_payload _ _ x n); (done || lia).
Qed.
End SinglyHeap.

(** * The properties *)

Import Singly SinglyHeap.

(** [mmalloc] succeeds when the memory can grow by what it may need. It returns the
    payload of a block that is large enough and was no part of an allocated one, and
    leaves the allocated blocks alone; the memory grows only when no run of free
    neighbours is large enough. *)
Theorem singly_mmalloc_spec s bl size :
  heap_ok s bl -> 0 <= size -> brk s + size + 15 <= seg_limit s ->
  ∃ p s' bl' n, mmalloc size s = Some (p, s') ∧ heap_ok s' bl' ∧
    allocates s bl s' bl' (p - 8) n ∧ size + 8 <= n ∧
    brk s' = if longest_run 0 bl <? ALIGN (size + 8) then brk s + ALIGN (size + 8) else brk s.
Proof. apply singly_mmalloc_ok. Qed.

(** Before the first call. *)
Definition fresh_arena (start limit : Z) : arena := Arena ∅ start start limit 0 0.

Lemma fresh_heap start limit :
  0 < start -> start mod 8 = 0 -> start <= limit < 2 ^ 63 -> heap_ok (fresh_arena start limit) [].
Proof. intros. split; [unfold arena_ok; simpl; split_all; (done || lia)|by left]. Qed.

(** For a size within 15 bytes of [2^64] the block size wraps to 0: when the first
    block is free, [mmalloc] returns its payload and leaves a block of 0 bytes there,
    over which [walk_heap] never ends. *)
Theorem singly_mmalloc_wraps s n bl size :
  heap_ok s (Block n false :: bl) -> 2 ^ 64 - 15 <= size < 2 ^ 64 - 7 ->
  ∃ s', mmalloc size s = Some (break_start s + 8, s') ∧ word s' (break_start s) = 1 ∧
    ∀ fuel, walk_from fuel (break_start s') s' = None.
Proof. apply mmalloc_wraps. Qed.

(** ** Witnesses *)

Example singly_test_implementation :
  fst <$> test_implementation (fresh_arena 4096 65536) = Some [(24, 1); (48, 1); (24, 0); (48, 1); (48, 1)].
Proof. by vm_compute. Qed.

Lemma singly_mmalloc_witness :
  ∃ p s' bl' n, mmalloc 10 (fresh_arena 4096 65536) = Some (p, s') ∧ heap_ok s' bl' ∧
    allocates (fresh_arena 4096 65536) [] s' bl' (p - 8) n ∧ 10 + 8 <= n ∧ brk s' = 4096 + 24.
Proof.
  apply (singly_mmalloc_spec (fresh_arena 4096 65536) [] 10); [|lia|simpl; lia].
  apply fresh_heap; [lia|done|lia].
Defined.

(** One free block of 24 bytes. *)
Definition one_block : arena := Arena {[4096 := 24]} 4096 4120 65536 4096 4120.

Lemma one_block_ok : heap_ok one_block [Block 24 false].
Proof.
  split; [unfold arena_ok; simpl; split_all; (done || lia)|]. right.
  unfold fence, WordHeap.region, tagged, sized, arena_ok, one_block, word, total, header_word. simpl.
  rewrite !Forall_cons, Forall_nil. simpl. split_all; try done; try lia; by vm_compute.
Qed.

Lemma singly_wraps_witness :
  ∃ s', mmalloc (2 ^ 64 - 8) one_block = Some (4104, s') ∧ word s' 4096 = 1 ∧
    ∀ fuel, walk_from fuel (break_start s') s' = None.
Proof. apply (singly_mmalloc_wraps one_block 24 [] (2 ^ 64 - 8) one_block_ok). lia. Defined.

Import Allocator.

(** The program of a client. *)
Definition client : list cmd :=
  [Malloc 0 16; Malloc 1 24; Put 0 0 7; Put 1 2 9; Free 0; Malloc 2 8; Put 2 0 5; Get 1 2; Get 2 0].

Example client_on_singly :
  ∃ s', run_client client ∅ (fresh_arena 4096 65536) = Some ([9; 5], s').
Proof.
  apply (client_refines_from client (fresh_arena 4096 65536) [] ∅ ∅);
    [by apply fresh_heap|apply represents_empty|by vm_compute|vm_compute; discriminate].
Qed.
