(* ===== verification/MallocBoundary.v ===== *)
(** [malloc_implicit_list_biredirectional.c]: blocks with a header and a footer word
    (boundary tags), a prologue block before the first one, first fit, and [mfree] that
    merges a block with its free neighbours at once. The globals and the memory are
    those of [WordHeap]. *)

From S2P Require Import Prelude WordHeap Allocator.
#[local] Open Scope Z_scope.

Module Boundary.

(** * The macros *)

Definition MIN_BLOCK_SIZE : Z := ALIGN (SIZE_T_SIZE + SIZE_T_SIZE + 1).

Definition BLOCK_SIZE (ptr : Z) : ST arena Z := h ← load ptr; mret (untag h).
Definition IS_BLOCK_ALLOCATED (ptr : Z) : ST arena bool := h ← load ptr; mret (negb (tag h =? 0)).
Definition NEXT_BLOCK (ptr : Z) : ST arena Z := h ← load ptr; mret (u64 (ptr + untag h)).
Definition PREV_BLOCK (ptr : Z) : ST arena Z :=
  f ← load (u64 (ptr - SIZE_T_SIZE)); mret (u64 (ptr - untag f)).
Definition FOOTER (ptr : Z) : ST arena Z := h ← load ptr; mret (u64 (ptr + untag h - SIZE_T_SIZE)).
Definition HEADER_FROM_BLK_P (ptr : Z) : Z := u64 (ptr - SIZE_T_SIZE).

Definition ALLOCATE_BLOCK (ptr blk_size : Z) : ST arena unit :=
  store ptr (Z.lor blk_size 1);;
  f ← FOOTER ptr;
  store f (Z.lor blk_size 1).

Definition DEALLOCATE_BLOCK (ptr : Z) : ST arena unit :=
  h ← load ptr;
  store ptr (untag h);;
  f ← FOOTER ptr;
  h ← load f;
  store f (untag h).

(** * The program *)

(** One iteration of the loop of [find_fit]. *)
Definition find_fit_body (size header : Z) : ST arena (Z + Z) :=
  next ← NEXT_BLOCK header;
  allocated ← IS_BLOCK_ALLOCATED header;
  if negb allocated then
    h ← load header;
    if size <=? h then mret (inl header) else
    s ← st_get;
    free_next ← (if next <? break_end s then a ← IS_BLOCK_ALLOCATED next; mret (negb a) else mret false);
    if free_next : bool then
      h ← load header;
      n ← BLOCK_SIZE next;
      store header (u64 (h + n));;
      f ← FOOTER header;
      h ← load header;
      store f h;;
      mret (inr header)
    else mret (inr next)
  else mret (inr next).

Definition find_fit (size : Z) : ST arena Z :=
  s ← st_get; search (search_fuel s) (find_fit_body size) (break_start s).

(** The first call puts a prologue block before the heap. *)
Definition init_heap : ST arena unit :=
  s ← st_get;
  if break_start s =? 0 then
    prologue ← sbrk (ALIGN (SIZE_T_SIZE + SIZE_T_SIZE));
    ALLOCATE_BLOCK prologue (ALIGN (SIZE_T_SIZE + SIZE_T_SIZE));;
    b ← NEXT_BLOCK prologue;
    st_modify (set_break_start b)
  else mret tt.

(** The block found is cut if the rest can hold a block, and marked. *)
Definition take_block (header blk_size : Z) : ST arena unit :=
  allocated_size ← BLOCK_SIZE header;
  (if u64 (blk_size + MIN_BLOCK_SIZE) <=? allocated_size then
     store header blk_size;;
     n ← NEXT_BLOCK header;
     store n (u64 (allocated_size - blk_size));;
     n ← NEXT_BLOCK header;
     f ← FOOTER n;
     store f (u64 (allocated_size - blk_size))
   else mret tt);;
  blk_size ← BLOCK_SIZE header;
  ALLOCATE_BLOCK header blk_size.

(** Without a block that fits the data segment grows. *)
Definition grow_heap (blk_size : Z) : ST arena Z :=
  header ← sbrk blk_size;
  ALLOCATE_BLOCK header blk_size;;
  st_modify (set_break_end (u64 (header + blk_size)));;
  mret header.

Definition mmalloc (size : Z) : ST arena Z :=
  init_heap;;
  let blk_size := ALIGN (u64 (u64 (size + SIZE_T_SIZE) + SIZE_T_SIZE)) in
  header ← find_fit blk_size;
  header ← (if negb (header =? 0) then take_block header blk_size;; mret header
            else grow_heap blk_size);
  mret (u64 (header + SIZE_T_SIZE)).

(** The four cases of [mfree]. *)
Definition coalesce (header blk_size prev next : Z) (prev_allocated next_allocated : bool) : ST arena unit :=
  match prev_allocated, next_allocated with
  | true, true => DEALLOCATE_BLOCK header
  | true, false =>
      DEALLOCATE_BLOCK header;;
      n ← BLOCK_SIZE next;
      let blk_size := u64 (blk_size + n) in
      f ← FOOTER next;
      store f blk_size;;
      store header blk_size
  | false, true =>
      n ← BLOCK_SIZE prev;
      let blk_size := u64 (blk_size + n) in
      f ← FOOTER header;
      store f blk_size;;
      store prev blk_size
  | false, false =>
      n ← BLOCK_SIZE prev;
      m ← BLOCK_SIZE next;
      let blk_size := u64 (blk_size + u64 (n + m)) in
      f ← FOOTER next;
      store f blk_size;;
      store prev blk_size
  end.

Definition mfree (ptr : Z) : ST arena unit :=
  let header := HEADER_FROM_BLK_P ptr in
  blk_size ← BLOCK_SIZE header;
  prev ← PREV_BLOCK header;
  next ← NEXT_BLOCK header;
  s ← st_get;
  prev_allocated ← (if prev <? break_start s then mret true else IS_BLOCK_ALLOCATED prev);
  next_allocated ← (if break_end s <=? next then mret true else IS_BLOCK_ALLOCATED next);
  coalesce header blk_size prev next prev_allocated next_allocated.

(** [memcpy] on the bytes of the words. More bytes than the process has cannot be
    copied, and areas that overlap are undefined. *)
Definition load_byte (a : Z) : ST arena Z :=
  w ← load (8 * (a / 8)); mret (Z.shiftr w (8 * (a mod 8)) mod 256).
Definition store_byte (a b : Z) : ST arena unit :=
  w ← load (8 * (a / 8));
  let sh := 8 * (a mod 8) in
  store (8 * (a / 8)) (Z.lor (Z.ldiff w (Z.shiftl 255 sh)) (Z.shiftl b sh)).
Fixpoint copy_bytes (n : nat) (dst src : Z) : ST arena unit :=
  match n with
  | O => mret tt
  | S n => b ← load_byte src; store_byte dst b;; copy_bytes n (dst + 1) (src + 1)
  end.
Definition memcpy (dst src n : Z) : ST arena unit :=
  s ← st_get;
  st_assert ((n <=? brk s - seg_start s) && ((n =? 0) || (dst + n <=? src) || (src + n <=? dst)));;
  copy_bytes (Z.to_nat n) dst src.

Definition mrealloc (ptr size : Z) : ST arena Z :=
  old_size ← BLOCK_SIZE ptr;
  let new_size := ALIGN (u64 (u64 (size + SIZE_T_SIZE) + SIZE_T_SIZE)) in
  if new_size <=? old_size then mret ptr
  else
    mfree ptr;;
    newptr ← mmalloc new_size;
    (if newptr =? ptr then mret tt
     else memcpy newptr ptr (u64 (u64 (old_size - SIZE_T_SIZE) - SIZE_T_SIZE)));;
    mret newptr.

(** [walk_heap] asserts that the heap is initialised and that header and footer of each
    block agree, and prints size and state of each block. *)
Fixpoint walk_from (fuel : nat) (p : Z) : ST arena (list (Z * bool)) :=
  match fuel with
  | O => st_fail
  | S fuel =>
      s ← st_get;
      if p <? break_end s then
        footer ← FOOTER p;
        h ← load p;
        f ← load footer;
        st_assert (h =? f);;
        n ← BLOCK_SIZE p;
        a ← IS_BLOCK_ALLOCATED p;
        next ← NEXT_BLOCK p;
        rest ← walk_from fuel next;
        mret ((n, a) :: rest)
      else mret []
  end.
Definition walk_heap : ST arena (list (Z * bool)) :=
  s ← st_get;
  st_assert (negb (break_start s =? 0));;
  walk_from (search_fuel s) (break_start s).

(** [test_implementation] and what [walk_heap] prints in it. *)
Definition test_implementation : ST arena (list (Z * bool)) :=
  ptr0 ← mmalloc 10;
  ptr1 ← mmalloc 20;
  ptr2 ← mmalloc 30;
  ptr3 ← mmalloc 40;
  ptr4 ← mmalloc 50;
  ptr5 ← mmalloc 60;
  mfree ptr2;;
  mfree ptr3;;
  mfree ptr0;;
  mfree ptr1;;
  mfree ptr4;;
  mfree ptr5;;
  ptr6 ← mmalloc 15;
  walk_heap.
End Boundary.

(** * How a heap looks in memory *)

Module BoundaryHeap.
Import Boundary.

Definition tagged (s : arena) (a : Z) (b : block) : Prop :=
  16 <= bsize b ∧ word s a = header_word b ∧ word s (a + bsize b - 8) = header_word b.
(** The footer of the prologue is before the first block. *)
Definition fence (s : arena) : Prop :=
  seg_start s + 16 <= break_start s ∧ word s (break_start s - 8) = header_word (Block 16 true).

Abbreviation heap_ok := (WordHeap.heap_ok tagged 16 fence).
Abbreviation region := (WordHeap.region tagged 16).

Lemma boundary_tagged_frame s s' a b :
  tagged s a b -> (∀ x, a <= x < a + bsize b -> word s' x = word s x) -> tagged s' a b.
Proof. intros (? & ? & ?) Hx. unfold tagged. rewrite !Hx by lia. done. Qed.

Lemma boundary_fence_frame s s' :
  fence s -> seg_start s' = seg_start s -> break_start s' = break_start s ->
  (∀ x, x < break_start s -> word s' x = word s x) -> fence s'.
Proof. unfold fence. intros [? ?] -> -> Hx. rewrite Hx by lia. done. Qed.

Lemma boundary_tagged_header s a b : tagged s a b -> word s a = header_word b.
Proof. by intros (_ & ? & _). Qed.

Definition load_header := region_load tagged 16 ltac:(lia) boundary_tagged_header.
Definition header_facts := region_facts tagged 16 ltac:(lia).

(** ** The macros at a word that marks a block *)

(** The word at [p] is the header of the block [b], or could be. *)
Definition marked (s : arena) (p : Z) (b : block) : Prop :=
  (p mod 8 = 0 ∧ seg_start s <= p ∧ p + 8 <= brk s) ∧ 0 <= p ∧ word s p = header_word b ∧
  sized 8 b ∧ p + bsize b < 2 ^ 63.

Lemma marked_facts s p b :
  marked s p b ->
  load p s = Some (header_word b, s) ∧ BLOCK_SIZE p s = Some (bsize b, s) ∧
  IS_BLOCK_ALLOCATED p s = Some (busy b, s) ∧ NEXT_BLOCK p s = Some (p + bsize b, s) ∧
  FOOTER p s = Some (p + bsize b - 8, s) ∧ untag (header_word b) = bsize b.
Proof.
  intros ((? & ? & ?) & ? & Hw & Hs & ?). pose proof Hs as [? ?].
  assert (load p s = Some (header_word b, s)) as Hl by (rewrite <- Hw; by apply load_run).
  pose proof (header_word_untag 8 b Hs ltac:(lia)) as Hu. pose proof (header_word_tag 8 b Hs) as Ht.
  unfold BLOCK_SIZE, IS_BLOCK_ALLOCATED, NEXT_BLOCK, FOOTER. rewrite !(st_bind_eq _ _ _ _ _ Hl), Hu, Ht.
  rewrite SIZE_T_SIZE_eq, !u64_id by lia. split_all; try done. by destruct (busy b).
Qed.

Lemma marked_frame s s' p b :
  marked s p b -> seg_start s' = seg_start s -> brk s' = brk s -> word s' p = word s p -> marked s' p b.
Proof. unfold marked. by intros ? -> -> ->. Qed.

(** Proves that a word just written marks a block. *)
Ltac solve_marked :=
  unfold marked, sized; simpl; rewrite ?header_word_free; split_all; first [done | lia | solve_words].

Lemma region_marked s h b bl : region s h (b :: bl) -> marked s h b.
Proof.
  intros Hr. destruct (header_facts _ _ _ _ Hr) as (_ & _ & _ & _ & ? & ? & ? & ? & _).
  destruct Hr as ((?&?&?&?&?&?) & ? & ? & [Ht _] & [[? ?] _]%Forall_cons & _ & ?).
  unfold marked, sized. split_all; try done; try lia. by apply boundary_tagged_header.
Qed.

Lemma region_footer s h b bl :
  region s h (b :: bl) -> load (h + bsize b - 8) s = Some (header_word b, s).
Proof.
  intros Hr. destruct (header_facts _ _ _ _ Hr) as (_ & _ & _ & _ & ? & ? & ? & ? & _).
  destruct Hr as (_ & ? & ? & [(? & _ & <-) _] & [[? ?] _]%Forall_cons & _ & ?).
  apply load_run; [apply mod_sub_8; [by apply mod_add_8|done]|lia..].
Qed.

Lemma ALLOCATE_BLOCK_run s p n :
  p mod 8 = 0 -> seg_start s <= p -> p + n <= brk s -> 0 <= p -> brk s < 2 ^ 63 -> sized 16 (Block n true) ->
  let w := header_word (Block n true) in
  ALLOCATE_BLOCK p n s = Some (tt, set_word (p + n - 8) w (set_word p w s)).
Proof.
  intros ? ? ? ? ? [? ?] w. simpl in *. unfold ALLOCATE_BLOCK. rewrite header_word_busy by lia. fold w.
  run_store. destruct (marked_facts (set_word p w s) p (Block n true)) as (_ & _ & _ & _ & Hf & _).
  { unfold marked, sized. simpl. rewrite word_set_eq. split_all; (done || lia). }
  rewrite (st_bind_eq _ _ _ _ _ Hf). simpl. apply store_run; simpl; [|lia..].
  apply mod_sub_8; [by apply mod_add_8|done].
Qed.

Lemma DEALLOCATE_BLOCK_run s p n bl :
  region s p (Block n true :: bl) ->
  DEALLOCATE_BLOCK p s = Some (tt, set_word (p + n - 8) n (set_word p n s)).
Proof.
  intros Hr. pose proof (region_marked _ _ _ _ Hr) as Hm.
  destruct (header_facts _ _ _ _ Hr) as (_ & Hu & _ & _ & ? & ? & ? & ? & _). simpl in *.
  pose proof Hr as (_ & ? & ? & [(? & _ & Hf) _] & [[? ?] _]%Forall_cons & _ & ?). simpl in *.
  unfold DEALLOCATE_BLOCK. rewrite (st_bind_eq _ _ _ _ _ (load_header _ _ _ _ Hr)), Hu. run_store.
  destruct (marked_facts (set_word p n s) p (Block n false)) as (_ & _ & _ & _ & Hf' & _).
  { destruct Hm as (?&?&_&[? ?]&?). simpl in *. unfold marked, sized. simpl.
    rewrite header_word_free, word_set_eq. split_all; (done || lia). }
  rewrite (st_bind_eq _ _ _ _ _ Hf'). simpl.
  assert ((p + n - 8) mod 8 = 0) by (apply mod_sub_8; [by apply mod_add_8|done]).
  run_load. rewrite word_set_ne, Hf, Hu by lia. by apply store_run; simpl; [|lia..].
Qed.

(** * [find_fit] *)

Lemma boundary_body_found size s h b bl :
  region s h (b :: bl) -> busy b = false -> size <= bsize b ->
  find_fit_body size h s = Some (inl h, s).
Proof.
  intros Hr Hb Hs. destruct (marked_facts _ _ _ (region_marked _ _ _ _ Hr)) as (Hl & _ & Ha & Hn & _ & _).
  destruct (header_facts _ _ _ _ Hr) as (_ & _ & _ & Hw & _). unfold find_fit_body.
  rewrite (st_bind_eq _ _ _ _ _ Hn), (st_bind_eq _ _ _ _ _ Ha), Hb. simpl.
  by rewrite (st_bind_eq _ _ _ _ _ Hl), Hw, (proj2 (Z.leb_le _ _)).
Qed.

Lemma boundary_body_pass size s h b bl :
  region s h (b :: bl) -> busy b = true ∨ bsize b < size ->
  busy b = true ∨ (∀ c, head bl = Some c -> busy c = true) ->
  find_fit_body size h s = Some (inr (h + bsize b), s).
Proof.
  intros Hr Hb Hbc. destruct (marked_facts _ _ _ (region_marked _ _ _ _ Hr)) as (Hl & _ & Ha & Hn & _ & _).
  destruct (header_facts _ _ _ _ Hr) as (_ & _ & _ & Hw & _). unfold find_fit_body.
  rewrite (st_bind_eq _ _ _ _ _ Hn), (st_bind_eq _ _ _ _ _ Ha).
  destruct (busy b) eqn:Eb; [done|]. destruct Hb as [|Hb]; [done|]. destruct Hbc as [|Hbc]; [done|]. simpl.
  rewrite (st_bind_eq _ _ _ _ _ Hl), Hw, (proj2 (Z.leb_gt _ _)) by (done || lia).
  pose proof (region_tail tagged 16 ltac:(lia) _ _ _ _ Hr) as Ht.
  unfold mbind, st_bind, st_get. destruct (h + bsize b <? break_end s) eqn:E; [|done].
  apply Z.ltb_lt in E. destruct bl as [|c bl].
  { destruct Ht as (_&_&_&_&_&Ht&_). simpl in Ht. lia. }
  destruct (marked_facts _ _ _ (region_marked _ _ _ _ Ht)) as (_ & _ & -> & _). by rewrite (Hbc c).
Qed.

Lemma boundary_body_merge size s h b c bl :
  region s h (b :: c :: bl) -> busy b = false -> busy c = false -> bsize b < size ->
  ∃ s', find_fit_body size h s = Some (inr h, s') ∧ tiles tagged s' h (merge b c :: bl) ∧
    writes_in (free_at h (b :: c :: bl)) s s'.
Proof.
  intros Hr Hb Hc Hs. pose proof (region_tail tagged 16 ltac:(lia) _ _ _ _ Hr) as Ht.
  destruct (marked_facts _ _ _ (region_marked _ _ _ _ Hr)) as (Hl & _ & Ha & Hn & _ & _).
  destruct (marked_facts _ _ _ (region_marked _ _ _ _ Ht)) as (_ & Hsz & Ha' & _).
  destruct (header_facts _ _ _ _ Hr) as (_ & _ & _ & Hw & ?).
  destruct (header_facts _ _ _ _ Ht) as (_ & _ & Hu' & _ & ?).
  pose proof Hr as ((?&?&?&?&?&?)&?&?&[_ [_ Hbl]]&[[Hb8 ?] [[Hc8 ?] Hsz']%Forall_cons]%Forall_cons&Htot&?).
  simpl in Htot. set (n := bsize b + bsize c) in *.
  assert (n mod 8 = 0) by by apply mod_add_8.
  assert ((h + n - 8) mod 8 = 0) by (apply mod_sub_8; [by apply mod_add_8|done]).
  assert (marked (set_word h n s) h (Block n false)) as Hm.
  { unfold marked, sized. simpl. rewrite header_word_free, word_set_eq. split_all; (done || lia). }
  destruct (marked_facts _ _ _ Hm) as (Hl1 & _ & _ & _ & Hf1 & _). rewrite header_word_free in Hl1. simpl in Hf1.
  exists (set_word (h + n - 8) n (set_word h n s)). split_all.
  - unfold find_fit_body. rewrite (st_bind_eq _ _ _ _ _ Hn), (st_bind_eq _ _ _ _ _ Ha), Hb. simpl.
    rewrite (st_bind_eq _ _ _ _ _ Hl), Hw, (proj2 (Z.leb_gt _ _)) by (done || lia).
    rewrite (st_bind_eq _ _ s s s), (proj2 (Z.ltb_lt _ _)) by (done || lia).
    rewrite (st_bind_eq _ _ s true s) by (by rewrite (st_bind_eq _ _ _ _ _ Ha'), Hc).
    rewrite (st_bind_eq _ _ _ _ _ Hl), (st_bind_eq _ _ _ _ _ Hsz), Hw, u64_id by (done || lia). fold n.
    run_store. rewrite (st_bind_eq _ _ _ _ _ Hf1), (st_bind_eq _ _ _ _ _ Hl1). by run_store.
  - simpl. fold n. unfold tagged. unfold header_word. simpl. fold n. rewrite Hb. split_all; [lia| | |].
    + rewrite word_set_ne, word_set_eq; lia.
    + rewrite word_set_eq. lia.
    + replace (h + n) with (h + bsize b + bsize c) by lia.
      apply (tiles_frame tagged boundary_tagged_frame 16 s); [lia|done..|]. intros. solve_words.
  - apply (writes_in_trans _ _ (set_word h n s)); apply writes_in_set; simpl; [left|right; left]; split; done || lia.
Qed.

Lemma boundary_find_fit_run size s b bl :
  region s (break_start s) (b :: bl) ->
  search_ok tagged s (break_start s) (b :: bl) (find_fit size s) (fit size b bl).
Proof.
  intros Hr. unfold find_fit. rewrite (st_bind_eq _ _ s s s) by done.
  apply (search_run tagged 16 ltac:(lia) (find_fit_body size) size).
  - apply boundary_body_found.
  - apply boundary_body_pass.
  - intros. by apply boundary_body_merge.
  - apply boundary_tagged_frame.
  - done.
  - pose proof (search_fuel_enough tagged 16 _ _ Hr ltac:(lia)). simpl in *. lia.
Qed.

Lemma boundary_find_fit_empty size s : break_end s = 0 -> 0 <= break_start s -> find_fit size s = Some (0, s).
Proof.
  intros He ?. unfold find_fit, search_fuel. rewrite (st_bind_eq _ _ s s s) by done.
  rewrite search_S, He. by rewrite (proj2 (Z.ltb_ge _ _)) by lia.
Qed.

(** * [mmalloc] *)

(** A block of [m] bytes is cut when the rest can hold 24 bytes. *)
Definition carve (n m : Z) : list block :=
  if n + 24 <=? m then [Block (m - n) false] else [].
Definition carved (n m : Z) : Z := if n + 24 <=? m then n else m.

Lemma boundary_take_block_run s h c bl n :
  region s h (c :: bl) -> busy c = false -> n <= bsize c -> sized 16 (Block n true) ->
  ∃ s', take_block h n s = Some (tt, s') ∧ writes_in (λ x, h <= x < h + bsize c) s s' ∧
    tiles tagged s' h (Block (carved n (bsize c)) true :: carve n (bsize c)).
Proof.
  intros Hr Hc Hn [Hn8 ?]. simpl in *.
  destruct (marked_facts _ _ _ (region_marked _ _ _ _ Hr)) as (Hl & Hsz & _ & _).
  destruct (header_facts _ _ _ _ Hr) as (_ & _ & Hu & Hw & ? & ? & ? & ? & ?).
  pose proof Hr as ((?&?&?&?&?&?) & ? & ? & _ & [[Hc8 ?] _]%Forall_cons & _ & ?).
  unfold take_block. change MIN_BLOCK_SIZE with 24. rewrite (st_bind_eq _ _ _ _ _ Hsz), u64_id by lia.
  unfold carve, carved. destruct (n + 24 <=? bsize c) eqn:E.
  - apply Z.leb_le in E. set (m := bsize c - n).
    assert (m mod 8 = 0) by by apply mod_sub_8. assert ((h + n) mod 8 = 0) by by apply mod_add_8.
    assert ((h + n + m - 8) mod 8 = 0) by (apply mod_sub_8; [by apply mod_add_8|done]).
    set (s1 := set_word h n s). set (s2 := set_word (h + n) m s1). set (s3 := set_word (h + n + m - 8) m s2).
    assert (marked s1 h (Block n false)) as (_ & _ & _ & Hn1 & _)%marked_facts by (subst s1; solve_marked).
    assert (marked s2 h (Block n false)) as (_ & _ & _ & Hn2 & _)%marked_facts by (subst s1 s2; solve_marked).
    assert (marked s2 (h + n) (Block m false)) as (_ & _ & _ & _ & Hf2 & _)%marked_facts by (subst s1 s2; solve_marked).
    assert (marked s3 h (Block n false)) as (_ & Hs3 & _)%marked_facts by (subst s1 s2 s3; solve_marked).
    simpl in Hn1, Hn2, Hf2, Hs3.
    rewrite (st_bind_eq _ _ s tt s3).
    2: { rewrite u64_id by lia. fold m. run_store. fold s1. rewrite (st_bind_eq _ _ _ _ _ Hn1). run_store. fold s2.
         rewrite (st_bind_eq _ _ _ _ _ Hn2), (st_bind_eq _ _ _ _ _ Hf2). by apply store_run; subst s2 s1; simpl; [|lia..]. }
    rewrite (st_bind_eq _ _ _ _ _ Hs3), ALLOCATE_BLOCK_run by (subst s3 s2 s1; simpl; done || lia).
    eexists. split; [reflexivity|]. subst s3 s2 s1. split; [solve_writes|].
    simpl. fold m. unfold tagged. simpl. rewrite header_word_free. split_all; try done; try lia; solve_words.
  - apply Z.leb_gt in E. rewrite (st_bind_eq _ _ s tt s), (st_bind_eq _ _ _ _ _ Hsz) by done.
    rewrite ALLOCATE_BLOCK_run by (done || lia).
    eexists. split; [reflexivity|]. split; [solve_writes|].
    simpl. unfold tagged. simpl. split_all; try done; try lia; solve_words.
Qed.

Lemma carve_facts n m :
  n <= m -> m mod 8 = 0 -> sized 16 (Block n true) ->
  total (Block (carved n m) true :: carve n m) = m ∧ all_free (carve n m) ∧ Forall (sized 16) (carve n m) ∧
  n <= carved n m ∧ sized 16 (Block (carved n m) true).
Proof.
  intros ? Hm [Hn ?]. unfold carved, carve. simpl in *. pose proof (mod_sub_8 _ _ Hm Hn).
  destruct (n + 24 <=? m) eqn:E; simpl.
  - apply Z.leb_le in E. unfold all_free, sized. rewrite !Forall_singleton. simpl. split_all; (done || lia).
  - unfold all_free, sized. rewrite !Forall_nil. simpl. split_all; (done || lia).
Qed.

Lemma boundary_grow_heap_run s bl n :
  arena_ok s -> fence s -> break_start s mod 8 = 0 -> seg_start s <= break_start s ->
  Forall (sized 16) bl -> tiles tagged s (break_start s) bl -> break_start s + total bl = brk s ->
  sized 16 (Block n true) -> brk s + n <= seg_limit s ->
  ∃ s', grow_heap n s = Some (brk s, s') ∧ heap_ok s' (bl ++ [Block n true]) ∧
    allocates s bl s' (bl ++ [Block n true]) (brk s) n ∧ brk s' = brk s + n.
Proof.
  intros Ha Hf ? ? Hs Ht Htot Hn ?. pose proof Ha as (?&?&?&?&?&?). pose proof Hn as [? ?]. simpl in *.
  unfold grow_heap. rewrite (st_bind_eq _ _ _ _ _ (sbrk_run s n ltac:(lia) ltac:(lia) ltac:(lia))).
  erewrite st_bind_eq; [|apply ALLOCATE_BLOCK_run; simpl; done || lia]. rewrite u64_id by lia.
  eexists. split; [reflexivity|]. set (s' := set_break_end _ _).
  set (w := header_word (Block n true)) in *.
  assert (∀ x, word s' x = word (set_word (brk s + n - 8) w (set_word (brk s) w s)) x) as Hs' by done.
  assert (∀ x, x < brk s -> word s' x = word s x) as Hw by (intros x ?; rewrite Hs'; solve_words).
  assert (tagged s' (brk s) (Block n true)) as Hnew.
  { unfold tagged. rewrite !Hs'. simpl. split_all; [lia|solve_words..]. }
  split_all; [|apply (allocates_grown 16); done || lia|done].
  by apply (heap_grow tagged 16 ltac:(lia) fence boundary_tagged_frame boundary_fence_frame s).
Qed.

(** The blocks after an allocation of [n] bytes. *)
Definition place (n : Z) (bl : list block) : list block :=
  match fit_list n bl with
  | (pre, Some (c, post)) => pre ++ (Block (carved n (bsize c)) true :: carve n (bsize c)) ++ post
  | (pre, None) => pre ++ [Block n true]
  end.

(** The state after the first call has written the prologue. *)
Definition started (s : arena) (bl : list block) : Prop :=
  arena_ok s ∧ fence s ∧ break_start s mod 8 = 0 ∧ seg_start s <= break_start s ∧
  Forall (sized 16) bl ∧ tiles tagged s (break_start s) bl ∧ break_start s + total bl = brk s ∧
  ((bl = [] ∧ break_end s = 0) ∨ (bl ≠ [] ∧ break_end s = brk s)).

(** The prologue is 16 bytes. *)
Definition prologue (s : arena) : Z := if break_start s =? 0 then 16 else 0.

Lemma boundary_init_heap_run s bl :
  heap_ok s bl -> brk s + prologue s <= seg_limit s ->
  ∃ s', init_heap s = Some (tt, s') ∧ started s' bl ∧ brk s' = brk s + prologue s ∧
    seg_start s' = seg_start s ∧ seg_limit s' = seg_limit s ∧
    live_blocks s' bl = live_blocks s bl ∧ (bl ≠ [] -> s' = s).
Proof.
  intros [Ha [(Hb & He & ->)|(Hne & Hf & He & Hr)]]; unfold init_heap, prologue;
    rewrite (st_bind_eq _ _ s s s) by done; pose proof Ha as (?&?&?&?&?&?).
  - rewrite Hb. simpl. intros ?. change (ALIGN (SIZE_T_SIZE + SIZE_T_SIZE)) with 16.
    rewrite (st_bind_eq _ _ _ _ _ (sbrk_run s 16 ltac:(lia) ltac:(lia) ltac:(lia))).
    set (b := brk s) in *. set (s1 := set_brk (b + 16) s). set (w := header_word (Block 16 true)).
    erewrite st_bind_eq; [|apply ALLOCATE_BLOCK_run; subst s1; simpl; done || lia].
    replace (b + 16 - 8) with (b + 8) by lia. fold w.
    set (s2 := set_word (b + 8) w (set_word b w s1)).
    assert (marked s2 b (Block 16 true)) as (_ & _ & _ & Hn & _)%marked_facts by (subst s2 s1; solve_marked).
    rewrite (st_bind_eq _ _ _ _ _ Hn). eexists. split; [reflexivity|].
    assert (word (set_break_start (b + 16) s2) (b + 16 - 8) = w) as Hw.
    { replace (b + 16 - 8) with (b + 8) by lia. apply word_set_eq. }
    unfold started, fence, arena_ok. simpl. fold b. rewrite mod_add_8 by done.
    split_all; try done; try lia. by left.
  - intros _. destruct Hf as [? Hf]. rewrite (proj2 (Z.eqb_neq _ _)) by lia. exists s. split; [done|].
    destruct Hr as (_&?&?&?&?&?&?). rewrite Z.add_0_r. split; [|done].
    unfold started, fence. split_all; try done; [lia|by right].
Qed.

(** A block that was found is taken. *)
Lemma boundary_take_found s pre c post n :
  region s (break_start s) (pre ++ c :: post) -> fence s -> break_end s = brk s ->
  busy c = false -> n <= bsize c -> sized 16 (Block n true) ->
  let bl' := pre ++ (Block (carved n (bsize c)) true :: carve n (bsize c)) ++ post in
  ∃ s', take_block (break_start s + total pre) n s = Some (tt, s') ∧ heap_ok s' bl' ∧
    allocates s (pre ++ c :: post) s' bl' (break_start s + total pre) (carved n (bsize c)) ∧ brk s' = brk s.
Proof.
  intros Hr Hf He Hc Hn Hs bl'. pose proof (region_app tagged 16 ltac:(lia) _ _ _ _ Hr) as Hrc.
  destruct (boundary_take_block_run _ _ _ _ n Hrc) as (s' & Hrun & Hw & Ht); [done..|].
  pose proof Hr as (Ha & _ & _ & _ & Hsz & _).
  destruct (carve_facts n (bsize c)) as (Htot & Hfree & Hnew & ? & ?);
    [done|by apply Forall_app in Hsz as [_ [[? ?] _]%Forall_cons]|done|].
  exists s'. assert (total [c] = bsize c) as Hc1 by (simpl; lia). rewrite <- Hc1 in Hw, Htot at 3.
  split_all; [done|..|apply Hw].
  - apply (heap_replace tagged 16 ltac:(lia) fence boundary_tagged_frame boundary_fence_frame s _ _ [c]); try done; [|by constructor].
    split; [done|]. right. split_all; try done. by destruct pre.
  - apply (allocates_hole 16 _ _ _ [c]); try done. by constructor.
Qed.

(** The first block that fits is taken, or the memory grows. *)
Lemma boundary_place_run s bl n :
  started s bl -> sized 16 (Block n true) -> brk s + n <= seg_limit s ->
  ∃ x s' m, (header ← find_fit n;
      if negb (header =? 0) then take_block header n;; mret header else grow_heap n) s = Some (x, s') ∧
    heap_ok s' (place n bl) ∧ allocates s bl s' (place n bl) x m ∧ n <= m ∧
    brk s' = if longest_run 0 bl <? n then brk s + n else brk s.
Proof.
  intros (Ha&Hf&?&?&Hs&Ht&Htot&Hcase) Hn ?. pose proof Ha as (?&?&?&?&?&?). pose proof Hn as [? ?]. simpl in *.
  destruct Hcase as [[-> He]|[Hne He]].
  { rewrite (st_bind_eq _ _ _ _ _ (boundary_find_fit_empty n s He ltac:(lia))). simpl.
    destruct (boundary_grow_heap_run s [] n) as (s' & -> & ? & ? & ?); [done..|].
    exists (brk s), s', n. split_all; try done; try lia. by rewrite (proj2 (Z.ltb_lt _ _)) by lia. }
  destruct bl as [|b bl]; [done|].
  assert (region s (break_start s) (b :: bl)) as Hr by (unfold WordHeap.region; split_all; (done || lia)).
  destruct (boundary_find_fit_run n _ _ _ Hr) as (s1 & Hrun & Ht1 & Hw1). rewrite (st_bind_eq _ _ _ _ _ Hrun).
  pose proof (fit_rearranged 16 n s s1 b bl ltac:(lia) Hs Hw1) as Hre.
  pose proof (fit_complete 16 ltac:(lia) n b bl ltac:(lia) Hs) as Hcomp.
  destruct (fit_blocks 16 ltac:(lia) n b bl) as (Htot1 & _ & Hs1). specialize (Hs1 Hs).
  assert (region s1 (break_start s) (blocks_of (fit n b bl))) as Hr1
    by by apply (region_writes tagged 16 _ _ _ _ _ _ Hr Hw1).
  pose proof (writes_in_arena_ok _ _ _ Hw1 Ha) as Ha1.
  assert (fence s1) as Hf1.
  { destruct Hw1 as (?&?&?&?&?&Hw1). apply (boundary_fence_frame s); [done..|]. intros x Hx. apply Hw1.
    intros Hfr%(free_at_bounds 16); [lia..|done]. }
  destruct Hw1 as (E1&E2&E3&E4&E5&_). unfold place. simpl fit_list.
  rewrite <- E4, <- E2, <- E3, <- E1 in *. pose proof Hf1 as [? _].
  destruct (fit n b bl) as [pre [[c post]|]]; simpl in *.
  - destruct Hcomp as (Hc & Hnc & Hlong).
    pose proof Hs1 as [Hpre _]%Forall_app. pose proof (total_nonneg 16 pre ltac:(lia) Hpre).
    rewrite (proj2 (Z.eqb_neq _ _)), (proj2 (Z.ltb_ge _ _)) by lia. simpl.
    destruct (boundary_take_found s1 pre c post n Hr1) as (s' & Hrun' & ? & ? & ?); [done|congruence|done..|].
    rewrite (st_bind_eq _ _ _ _ _ Hrun'). exists (break_start s1 + total pre), s', (carved n (bsize c)).
    split_all; try done; [by apply (allocates_rearranged s (b :: bl) s1 (pre ++ c :: post))|].
    unfold carved. destruct (_ <=? _); lia.
  - rewrite (proj2 (Z.ltb_lt _ _)) by lia. pose proof Hr1 as (_&_&_&?&_&?&_).
    destruct (boundary_grow_heap_run s1 pre n) as (s' & -> & ? & ? & ?); try done; [simpl in *; lia|].
    exists (brk s1), s', n. split_all; [done|done| |lia|done].
    by apply (allocates_rearranged s (b :: bl) s1 pre).
Qed.

Lemma boundary_mmalloc_ok s bl size :
  heap_ok s bl -> 0 <= size -> brk s + size + 39 <= seg_limit s ->
  ∃ p s' n, mmalloc size s = Some (p, s') ∧ heap_ok s' (place (ALIGN (size + 16)) bl) ∧
    allocates s bl s' (place (ALIGN (size + 16)) bl) (p - 8) n ∧ size + 16 <= n ∧
    brk s' = brk s + prologue s + (if longest_run 0 bl <? ALIGN (size + 16) then ALIGN (size + 16) else 0).
Proof.
  intros Hok ? ?. pose proof Hok as [(?&?&?&?&?&?) _].
  assert (prologue s <= 16) by (unfold prologue; destruct (_ =? _); lia).
  destruct (boundary_init_heap_run s bl Hok) as (s1 & Hrun & Hst & E1 & E2 & E3 & Hlive & Hsame); [lia|].
  unfold mmalloc. rewrite (st_bind_eq _ _ _ _ _ Hrun). rewrite SIZE_T_SIZE_eq, (u64_id (size + 8)) by lia.
  rewrite (u64_id (size + 8 + 8)) by lia. replace (size + 8 + 8) with (size + 16) by lia.
  destruct (ALIGN_bounds (size + 16)) as [? ?]; [lia..|].
  destruct (boundary_place_run s1 bl (ALIGN (size + 16)) Hst) as (x & s' & m & Hplace & Hok' & Hal & ? & Hbrk);
    [split; simpl; [done|lia]|lia|].
  unfold mbind, st_bind in Hplace |- *. destruct (find_fit _ s1) as [[h s2]|]; [|done].
  rewrite Hplace.
  destruct (heap_ok_live tagged 16 ltac:(lia) fence s' _ x m Hok') as (?&?&_); [by apply Hal; left|].
  assert (arena_ok s') as (?&?&?&?&?&?) by apply Hok'.
  exists (x + 8), s', m. replace (x + 8 - 8) with x by lia. split_all; [|done|..|lia|].
  - unfold mret, st_ret. rewrite u64_id by lia. done.
  - destruct bl as [|b bl]; [|by rewrite Hsame in Hal].
    destruct Hal as (Hl & _ & _ & ? & ?). unfold allocates. split_all; try congruence;
      [by rewrite Hlive in Hl|by intros ? ? ?%elem_of_nil|by intros ? ? ? ?%elem_of_nil].
  - rewrite Hbrk. destruct (_ <? _); lia.
Qed.

(** Without free neighbours before, there are none after an allocation. *)
Lemma place_coalesced n bl : coalesced bl -> coalesced (place n bl).
Proof.
  intros Hc. unfold place. destruct bl as [|b bl]; [done|]. simpl fit_list.
  pose proof (fit_coalesced n b bl Hc) as Hb. destruct (fit n b bl) as [pre [[c post]|]] eqn:Hfit; simpl in Hb |- *.
  - rewrite <- Hb in Hc. apply coalesced_app in Hc as [Hpre Hpost].
    assert (∀ k l, coalesced l -> coalesced (Block k true :: l)) as Hbusy
      by (intros k [|d l] ?; [done|split; [by left|done]]).
    apply coalesced_app. split; [by eapply coalesced_busy_last|]. apply Hbusy.
    assert (busy c = false) as Hcf by by apply (fit_free n b bl pre c post).
    unfold carve. destruct (_ <=? _); cbn [app]; [|by destruct post; [|destruct Hpost]].
    by apply (coalesced_resize [] c).
  - rewrite <- Hb in Hc. destruct (last_snoc_dec pre) as [->|(l & d & ->)]; [done|].
    rewrite <- app_assoc. apply coalesced_app. split; [done|]. split; [by right|done].
Qed.

(** * [mfree] *)

(** The block before a place in the heap, the prologue being before all. *)
Definition block_before (pre : list block) : block := default (Block 16 true) (last pre).
Definition block_behind (post : list block) : block := default (Block 16 true) (head post).

Lemma prev_block_run s pre b post :
  heap_ok s (pre ++ b :: post) ->
  let x := break_start s + total pre in let prev := x - bsize (block_before pre) in
  PREV_BLOCK x s = Some (prev, s) ∧
  (if prev <? break_start s then mret true else IS_BLOCK_ALLOCATED prev) s = Some (busy (block_before pre), s) ∧
  (pre ≠ [] -> marked s prev (block_before pre)).
Proof.
  intros Hok x prev. pose proof Hok as [Ha [(_&_&Hnil)|(_&[? Hf]&_&Hr)]]; [by destruct pre|].
  pose proof Hr as (_ & ? & ? & _ & Hs & Htot & ?). pose proof Hs as [Hpre Hbp]%Forall_app.
  pose proof (total_nonneg 16 _ ltac:(lia) Hpre). pose proof (total_mod 16 _ Hpre).
  pose proof (total_nonneg 16 _ ltac:(lia) Hbp). rewrite total_app in Htot.
  destruct Ha as (?&?&?&?&?&?).
  assert (load (x - 8) s = Some (header_word (block_before pre), s) ∧ sized 16 (block_before pre) ∧
    bsize (block_before pre) <= x ∧ (pre ≠ [] -> marked s prev (block_before pre)) ∧
    (pre = [] ∧ prev < break_start s ∨ pre ≠ [] ∧ break_start s <= prev)) as (Hl & Hsz & ? & Hm & Hcase).
  { unfold block_before in *. destruct (last_snoc_dec pre) as [->|(l & d & ->)].
    - subst x prev. simpl in *. rewrite Z.add_0_r. split_all; [|done|lia|done|left; split; [done|lia]].
      rewrite <- Hf. apply load_run; [|lia..]. apply mod_sub_8; [done|done].
    - rewrite last_snoc in *. simpl in *. rewrite <- app_assoc in Hr. simpl in Hr.
      pose proof (region_app tagged 16 ltac:(lia) _ _ _ _ Hr) as Hrd.
      pose proof Hpre as [Hl [Hd _]%Forall_cons]%Forall_app. pose proof (total_nonneg 16 _ ltac:(lia) Hl).
      assert (prev = break_start s + total l) as -> by (subst prev x; rewrite last_snoc, total_app; simpl; lia).
      pose proof (region_footer _ _ _ _ Hrd) as Hfoot.
      replace (break_start s + total l + bsize d - 8) with (x - 8) in Hfoot
        by (subst x; rewrite total_app; simpl; lia).
      split_all; [done|done| |by intros _; apply (region_marked _ _ _ _ Hrd)|right; split; [by destruct l|lia]].
      subst x. rewrite total_app. simpl. lia. }
  split_all; [| |done].
  - unfold PREV_BLOCK. rewrite SIZE_T_SIZE_eq, u64_id by lia. rewrite (st_bind_eq _ _ _ _ _ Hl).
    rewrite (header_word_untag 16) by (done || destruct Hsz; lia). rewrite u64_id by (destruct Hsz; lia). done.
  - destruct Hcase as [[-> ?]|[Hne ?]].
    + by rewrite (proj2 (Z.ltb_lt _ _)).
    + rewrite (proj2 (Z.ltb_ge _ _)) by lia. by destruct (marked_facts _ _ _ (Hm Hne)) as (_&_&?&_).
Qed.

Lemma next_block_run s x b post :
  region s x (b :: post) ->
  let next := x + bsize b in
  NEXT_BLOCK x s = Some (next, s) ∧
  (if break_end s <=? next then mret true else IS_BLOCK_ALLOCATED next) s = Some (busy (block_behind post), s) ∧
  (post ≠ [] -> marked s next (block_behind post)).
Proof.
  intros Hr next. destruct (marked_facts _ _ _ (region_marked _ _ _ _ Hr)) as (_ & _ & _ & Hn & _).
  pose proof (region_tail tagged 16 ltac:(lia) _ _ _ _ Hr) as Ht. split; [done|].
  unfold block_behind. destruct post as [|c post]; simpl.
  - pose proof Hr as (_&_&_&_&_&Htot&_). simpl in Htot. by rewrite (proj2 (Z.leb_le _ _)) by lia.
  - pose proof (region_marked _ _ _ _ Ht) as Hm. fold next in Hm.
    pose proof (region_head tagged 16 ltac:(lia) _ _ _ _ Ht) as (? & ? & _).
    rewrite (proj2 (Z.leb_gt _ _)) by lia. by destruct (marked_facts _ _ _ Hm) as (_&_&?&_).
Qed.

(** The header and footer of the merged block are all that counts. *)
Lemma merged_ok s s' pre old1 n old2 post :
  heap_ok s (pre ++ (old1 ++ Block n true :: old2) ++ post) -> all_free old1 -> all_free old2 ->
  let p := break_start s + total pre in let m := total (old1 ++ Block n true :: old2) in
  writes_in (λ y, p <= y < p + m) s s' -> word s' p = m -> word s' (p + m - 8) = m ->
  heap_ok s' (pre ++ [Block m false] ++ post) ∧
  releases s (pre ++ (old1 ++ Block n true :: old2) ++ post) s' (pre ++ [Block m false] ++ post)
    (p + total old1) n.
Proof.
  intros Hok H1 H2 p m Hw Hp Hf. pose proof (heap_ok_sized _ _ _ _ _ Hok) as Hs.
  pose proof Hs as [_ [Hold _]%Forall_app]%Forall_app. pose proof (total_mod 16 _ Hold) as Hm8. fold m in Hm8.
  assert (16 <= m) as ?.
  { subst m. pose proof Hold as [Ho1 [[_ ?] Ho2]%Forall_cons]%Forall_app. rewrite total_app. simpl in *.
    pose proof (total_nonneg 16 _ ltac:(lia) Ho1). pose proof (total_nonneg 16 _ ltac:(lia) Ho2). fold (total old2). lia. }
  assert (total [Block m false] = m) as Hm1 by (simpl; lia). split.
  - apply (heap_replace tagged 16 ltac:(lia) fence boundary_tagged_frame boundary_fence_frame s _ pre (old1 ++ Block n true :: old2));
      try done; [by destruct old1|by apply Forall_singleton|].
    split; [|done]. unfold tagged. rewrite header_word_free. by split_all.
  - apply (releases_hole 16 s s'); try done. by apply Forall_singleton.
Qed.

Section freeing.
Context (s : arena) (pre old1 : list block) (n : Z) (old2 post : list block).
Context (Hok : heap_ok s (pre ++ (old1 ++ Block n true :: old2) ++ post)).
Let p : Z := break_start s + total pre.
Let x : Z := p + total old1.
Let m : Z := total (old1 ++ Block n true :: old2).

(** The blocks around the one given back. *)
Lemma freeing_facts :
  region s p ((old1 ++ Block n true :: old2) ++ post) ∧ region s x (Block n true :: old2 ++ post) ∧
  brk s < 2 ^ 63 ∧ seg_start s <= p ∧ 0 < p ∧ p mod 8 = 0 ∧ p + m <= brk s ∧
  m = total old1 + n + total old2 ∧ 0 <= total old1 ∧ 16 <= n ∧ 0 <= total old2 ∧
  total old1 mod 8 = 0 ∧ n mod 8 = 0 ∧ total old2 mod 8 = 0.
Proof.
  pose proof Hok as [Ha [(_&_&Hnil)|(_&_&_&Hr)]]; [by destruct pre, old1|].
  apply (region_app tagged 16 ltac:(lia)) in Hr. fold p in Hr. pose proof Hr as Hr'.
  rewrite <- app_assoc in Hr'. apply (region_app tagged 16 ltac:(lia)) in Hr'. fold x in Hr'.
  pose proof Hr as (_&?&?&_&Hs&Htot&?). pose proof Hs as [[Ho1 [[Hn ?] Ho2]%Forall_cons]%Forall_app Hpost]%Forall_app.
  pose proof (total_nonneg 16 _ ltac:(lia) Ho1). pose proof (total_nonneg 16 _ ltac:(lia) Ho2).
  pose proof (total_nonneg 16 _ ltac:(lia) Hpost). pose proof (total_mod _ _ Ho1). pose proof (total_mod _ _ Ho2).
  rewrite total_app in Htot. fold m in Htot. destruct Ha as (?&?&?&?&?&?).
  assert (m = total old1 + n + total old2) by (subst m; rewrite total_app; simpl; fold (total old2); lia).
  simpl in *. split_all; try done; lia.
Qed.

(** [mfree] finds out about the neighbours. *)
Lemma mfree_enter :
  let before := block_before (pre ++ old1) in let behind := block_behind (old2 ++ post) in
  mfree (x + 8) s = coalesce x n (x - bsize before) (x + n) (busy before) (busy behind) s.
Proof.
  destruct freeing_facts as (Hrp & Hr & ? & ? & ? & ? & ? & ? & ? & ? & ? & _).
  destruct (prev_block_run s (pre ++ old1) (Block n true) (old2 ++ post)) as (Hp & Hpa & _).
  { by rewrite <- !app_assoc in *. }
  rewrite total_app, Z.add_assoc in Hp, Hpa. fold p in Hp, Hpa. fold x in Hp, Hpa.
  destruct (next_block_run s x (Block n true) (old2 ++ post) Hr) as (Hn & Hna & _).
  destruct (marked_facts _ _ _ (region_marked _ _ _ _ Hr)) as (_ & Hsz & _). simpl in Hn, Hna, Hsz.
  unfold mfree, HEADER_FROM_BLK_P. rewrite SIZE_T_SIZE_eq, u64_id by lia. replace (x + 8 - 8) with x by lia.
  rewrite (st_bind_eq _ _ _ _ _ Hsz), (st_bind_eq _ _ _ _ _ Hp), (st_bind_eq _ _ _ _ _ Hn).
  rewrite (st_bind_eq _ _ s s s) by done.
  by rewrite (st_bind_eq _ _ _ _ _ Hpa), (st_bind_eq _ _ _ _ _ Hna).
Qed.

Definition merged (s' : arena) : Prop :=
  writes_in (λ y, p <= y < p + m) s s' ∧ word s' p = m ∧ word s' (p + m - 8) = m.

Lemma coalesce_none :
  old1 = [] -> old2 = [] -> ∃ s', DEALLOCATE_BLOCK x s = Some (tt, s') ∧ merged s'.
Proof using Hok.
  intros H1 H2. destruct freeing_facts as (_ & Hr & ? & ? & ? & ? & ? & Hm & _ & ? & _).
  rewrite (DEALLOCATE_BLOCK_run _ _ _ _ Hr). unfold merged. rewrite H1, H2 in Hm. simpl in Hm.
  assert (x = p) as -> by (subst x; rewrite H1; simpl; lia). replace n with m by lia.
  eexists. split; [reflexivity|]. split_all; [solve_writes|solve_words..].
Qed.

Lemma coalesce_next k :
  old1 = [] -> old2 = [Block k false] ->
  ∃ s', coalesce x n (x - bsize (block_before (pre ++ old1))) (x + n) true false s = Some (tt, s') ∧ merged s'.
Proof using Hok.
  intros H1 H2. destruct freeing_facts as (_ & Hr & ? & ? & ? & ? & ? & Hm & _ & ? & ? & _ & Hn & Hk).
  assert (x = p) as Hx by (subst x; rewrite H1; simpl; lia).
  rewrite H1, H2 in Hm. rewrite H2 in Hk. simpl in Hm, Hk. rewrite Z.add_0_r in Hk.
  destruct (next_block_run s x (Block n true) (old2 ++ post) Hr) as (_ & _ & Hmk).
  rewrite H2 in Hmk. specialize (Hmk ltac:(done)). simpl in Hmk. rewrite Hx in Hmk.
  assert (16 <= k) as Hk16.
  { destruct Hr as (_&_&_&_&Hs&_). rewrite H2 in Hs. by apply Forall_cons in Hs as [_ [[_ ?] _]%Forall_cons]. }
  unfold coalesce. rewrite (st_bind_eq _ _ _ _ _ (DEALLOCATE_BLOCK_run _ _ _ _ Hr)), Hx.
  set (s1 := set_word (p + n - 8) n (set_word p n s)).
  assert (marked s1 (p + n) (Block k false)) as (_ & Hsz & _ & _ & Hf & _)%marked_facts.
  { apply (marked_frame s); [done..|]. subst s1. solve_words. }
  simpl in Hsz, Hf. rewrite (st_bind_eq _ _ _ _ _ Hsz), (st_bind_eq _ _ _ _ _ Hf), u64_id by lia.
  replace (n + k) with m by lia. replace (p + n + k - 8) with (p + m - 8) by lia.
  assert ((p + m - 8) mod 8 = 0) by (apply mod_sub_8; [apply mod_add_8; [done|]|done]; rewrite Hm;
    rewrite Z.add_0_r; by apply mod_add_8).
  run_store. rewrite store_run by (subst s1; simpl; done || lia). eexists. split; [reflexivity|].
  subst s1. unfold merged. split_all; [solve_writes|solve_words..].
Qed.

(** With a free block before, its header becomes the header of the whole. *)
Lemma coalesce_prev k :
  old1 = [Block k false] ->
  marked s p (Block k false) ∧ x = p + k ∧ block_before (pre ++ old1) = Block k false ∧ 16 <= k.
Proof using Hok.
  intros H1. destruct freeing_facts as (Hr & _). rewrite H1 in Hr. simpl in Hr.
  split_all.
  - apply (region_marked _ _ _ _ Hr).
  - subst x. rewrite H1. simpl. lia.
  - unfold block_before. by rewrite H1, last_snoc.
  - by destruct Hr as (_&_&_&_&[[_ ?] _]%Forall_cons&_).
Qed.

Lemma coalesce_prev_only k :
  old1 = [Block k false] -> old2 = [] ->
  ∃ s', coalesce x n (x - bsize (block_before (pre ++ old1))) (x + n) false true s = Some (tt, s') ∧ merged s'.
Proof using Hok.
  intros H1 H2. destruct (coalesce_prev k H1) as (Hmk & Hx & -> & ?).
  destruct freeing_facts as (_ & Hr & ? & ? & ? & Hp8 & ? & Hm & _ & ? & _ & Hk8 & Hn8 & _).
  rewrite H1, H2 in Hm. rewrite H1 in Hk8. simpl in Hm, Hk8 |- *. rewrite Z.add_0_r in Hk8.
  destruct (marked_facts _ _ _ Hmk) as (_ & Hsz & _).
  destruct (marked_facts _ _ _ (region_marked _ _ _ _ Hr)) as (_ & _ & _ & _ & Hf & _). simpl in Hsz, Hf.
  replace (x - k) with p by lia. rewrite (st_bind_eq _ _ _ _ _ Hsz), (st_bind_eq _ _ _ _ _ Hf), u64_id by lia.
  replace (n + k) with m by lia. replace (x + n - 8) with (p + m - 8) by lia.
  assert ((p + m - 8) mod 8 = 0) by (apply mod_sub_8; [apply mod_add_8; [done|]|done]; rewrite Hm;
    rewrite Z.add_0_r; apply mod_add_8; [by rewrite Z.add_0_r|done]).
  run_store. rewrite store_run by (simpl; done || lia). eexists. split; [reflexivity|].
  unfold merged. split_all; [solve_writes|solve_words..].
Qed.

Lemma coalesce_both k j :
  old1 = [Block k false] -> old2 = [Block j false] ->
  ∃ s', coalesce x n (x - bsize (block_before (pre ++ old1))) (x + n) false false s = Some (tt, s') ∧ merged s'.
Proof using Hok.
  intros H1 H2. destruct (coalesce_prev k H1) as (Hmk & Hx & -> & ?).
  destruct freeing_facts as (_ & Hr & ? & ? & ? & Hp8 & ? & Hm & _ & ? & _ & Hk8 & Hn8 & Hj8).
  rewrite H1, H2 in Hm. rewrite H1 in Hk8. rewrite H2 in Hj8. simpl in Hm, Hk8, Hj8 |- *.
  rewrite Z.add_0_r in Hk8, Hj8.
  destruct (next_block_run s x (Block n true) (old2 ++ post) Hr) as (_ & _ & Hmj).
  rewrite H2 in Hmj. specialize (Hmj ltac:(done)). simpl in Hmj.
  assert (16 <= j) as Hj16.
  { destruct Hr as (_&_&_&_&Hs&_). rewrite H2 in Hs. by apply Forall_cons in Hs as [_ [[_ ?] _]%Forall_cons]. }
  destruct (marked_facts _ _ _ Hmk) as (_ & Hsz & _).
  destruct (marked_facts _ _ _ Hmj) as (_ & Hsz' & _ & _ & Hf & _). simpl in Hsz, Hsz', Hf.
  replace (x - k) with p by lia.
  rewrite (st_bind_eq _ _ _ _ _ Hsz), (st_bind_eq _ _ _ _ _ Hsz'), (st_bind_eq _ _ _ _ _ Hf).
  rewrite (u64_id (k + j)), u64_id by lia.
  replace (n + (k + j)) with m by lia. replace (x + n + j - 8) with (p + m - 8) by lia.
  assert (m mod 8 = 0) by (rewrite Hm, !Z.add_0_r; apply mod_add_8; [by apply mod_add_8|done]).
  assert ((p + m - 8) mod 8 = 0) by (apply mod_sub_8; [by apply mod_add_8|done]).
  run_store. rewrite store_run by (simpl; done || lia). eexists. split; [reflexivity|].
  unfold merged. split_all; [solve_writes|solve_words..].
Qed.

(** [mfree] with the free neighbours on each side, at most one. *)
Lemma mfree_run :
  (old1 = [] ∧ busy (block_before pre) = true ∨ ∃ k, old1 = [Block k false]) ->
  (old2 = [] ∧ busy (block_behind post) = true ∨ ∃ k, old2 = [Block k false]) ->
  ∃ s', mfree (x + 8) s = Some (tt, s') ∧ heap_ok s' (pre ++ [Block m false] ++ post) ∧
    releases s (pre ++ (old1 ++ Block n true :: old2) ++ post) s' (pre ++ [Block m false] ++ post) x n.
Proof using Hok.
  intros Hb Ha.
  assert (∃ s', mfree (x + 8) s = Some (tt, s') ∧ merged s') as (s' & Hrun & Hw & Hp & Hf).
  { rewrite mfree_enter.
    assert (busy (block_before (pre ++ old1)) = bool_decide (old1 = [])) as ->.
    { destruct Hb as [[-> Hb]|[k H1]]; [by rewrite app_nil_r|].
      destruct (coalesce_prev k H1) as (_ & _ & -> & _). by rewrite H1. }
    assert (busy (block_behind (old2 ++ post)) = bool_decide (old2 = [])) as -> by by destruct Ha as [[-> Ha]|[k ->]].
    destruct Hb as [[H1 _]|[k H1]], Ha as [[H2 _]|[j H2]].
    - rewrite (bool_decide_true _ H1), (bool_decide_true _ H2). by apply coalesce_none.
    - rewrite (bool_decide_true _ H1), bool_decide_false by by rewrite H2. by apply (coalesce_next j).
    - rewrite (bool_decide_true _ H2), bool_decide_false by by rewrite H1. by apply (coalesce_prev_only k).
    - rewrite !bool_decide_false by (by rewrite H1 || by rewrite H2). by apply (coalesce_both k j). }
  exists s'. split; [done|]. apply (merged_ok s s'); try done.
  - destruct Hb as [[-> _]|[k ->]]; [by apply Forall_nil|by apply Forall_singleton].
  - destruct Ha as [[-> _]|[k ->]]; [by apply Forall_nil|by apply Forall_singleton].
Qed.
End freeing.

Lemma coalesced_join pre m post :
  coalesced pre -> coalesced post -> busy (block_before pre) = true -> busy (block_behind post) = true ->
  coalesced (pre ++ Block m false :: post).
Proof.
  intros Hpre Hpost Hb Ha.
  assert (coalesced (Block m false :: post)) as Hm by (destruct post; [done|split; [by right|done]]).
  destruct (last_snoc_dec pre) as [->|(l & d & ->)]; [done|].
  unfold block_before in Hb. rewrite last_snoc in Hb. simpl in Hb. rewrite <- app_assoc.
  apply coalesced_app. split; [done|]. split; [by left|done].
Qed.

(** The free blocks around an allocated one, in a heap without free neighbours. *)
Lemma split_before pre n post :
  coalesced (pre ++ Block n true :: post) ->
  ∃ pre' old1, pre = pre' ++ old1 ∧ coalesced pre' ∧ busy (block_before pre') = true ∧
    (old1 = [] ∨ ∃ k, old1 = [Block k false]).
Proof.
  intros Hc%coalesced_prefix. destruct (last_snoc_dec pre) as [->|(l & [k b] & ->)].
  { exists [], []. split_all; try done. by left. }
  destruct b.
  - exists (l ++ [Block k true]), []. rewrite app_nil_r. unfold block_before. rewrite last_snoc.
    split_all; try done. by left.
  - exists l, [Block k false]. split_all; [done|by apply coalesced_prefix in Hc| |right; eauto].
    unfold block_before. destruct (last_snoc_dec l) as [->|(l' & d & ->)]; [done|]. rewrite last_snoc. simpl.
    rewrite <- app_assoc in Hc. apply coalesced_app in Hc as [_ [[?|?] _]]; done.
Qed.

Lemma split_behind pre n post :
  coalesced (pre ++ Block n true :: post) ->
  ∃ old2 post', post = old2 ++ post' ∧ coalesced post' ∧ busy (block_behind post') = true ∧
    (old2 = [] ∨ ∃ k, old2 = [Block k false]).
Proof.
  intros [_ Hc]%coalesced_app. destruct post as [|[k b] post].
  { exists [], []. split_all; try done. by left. }
  destruct Hc as [_ Hc]. destruct b.
  - exists [], (Block k true :: post). split_all; try done. by left.
  - exists [Block k false], post. split_all; [done|by destruct post; [|destruct Hc]| |right; eauto].
    unfold block_behind. destruct post as [|d post]; [done|]. by destruct Hc as [[?|?] _].
Qed.

(** What holds between the calls: the blocks fill the heap, and no two free blocks are
    neighbours. *)
Definition boundary_heap (s : arena) (bl : list block) : Prop := heap_ok s bl ∧ coalesced bl.

Lemma boundary_mfree_ok s bl x n :
  boundary_heap s bl -> (x, n) ∈ live_blocks s bl ->
  ∃ s' bl', mfree (x + 8) s = Some (tt, s') ∧ boundary_heap s' bl' ∧ releases s bl s' bl' x n.
Proof.
  intros [Hok Hc] (pre & post & -> & ->)%live_split.
  destruct (split_before _ _ _ Hc) as (pre' & old1 & -> & Hpre & Hb & H1).
  destruct (split_behind _ _ _ Hc) as (old2 & post' & -> & Hpost & Ha & H2).
  assert ((pre' ++ old1) ++ Block n true :: old2 ++ post' = pre' ++ (old1 ++ Block n true :: old2) ++ post') as E
    by by rewrite <- !app_assoc.
  rewrite E in *. destruct (mfree_run s pre' old1 n old2 post' Hok) as (s' & Hrun & Hok' & Hrel);
    [destruct H1 as [?|?]; [by left|by right]|destruct H2 as [?|?]; [by left|by right]|].
  rewrite total_app, Z.add_assoc. exists s', (pre' ++ [Block (total (old1 ++ Block n true :: old2)) false] ++ post').
  split_all; [done| |done]. split; [done|]. by apply coalesced_join.
Qed.

(** * [walk_heap] *)

Lemma boundary_walk_from_run s h bl fuel :
  region s h bl -> (length bl < fuel)%nat -> walk_from fuel h s = Some (map (λ b, (bsize b, busy b)) bl, s).
Proof.
  revert h fuel. induction bl as [|b bl IH]; intros h fuel Hr Hfuel; (destruct fuel as [|fuel]; [lia|]); simpl;
    rewrite (st_bind_eq _ _ s s s) by done.
  - destruct Hr as (_&_&_&_&_&?&_). simpl in *. by rewrite (proj2 (Z.ltb_ge _ _)) by lia.
  - destruct (marked_facts _ _ _ (region_marked _ _ _ _ Hr)) as (Hl & Hs & Ha & Hn & Hf & _).
    pose proof (region_head tagged 16 ltac:(lia) _ _ _ _ Hr) as (? & ? & _).
    rewrite (proj2 (Z.ltb_lt _ _)), (st_bind_eq _ _ _ _ _ Hf), (st_bind_eq _ _ _ _ _ Hl) by lia.
    rewrite (st_bind_eq _ _ _ _ _ (region_footer _ _ _ _ Hr)).
    rewrite (st_bind_eq _ _ s tt s) by (unfold st_assert; by rewrite Z.eqb_refl).
    rewrite (st_bind_eq _ _ _ _ _ Hs), (st_bind_eq _ _ _ _ _ Ha), (st_bind_eq _ _ _ _ _ Hn).
    erewrite st_bind_eq; [|apply IH; [by apply (region_tail tagged 16)|simpl in Hfuel; lia]]. done.
Qed.

(** [walk_heap] ends, no assertion fails, and it prints every block in order. *)
Lemma boundary_walk_heap_spec s bl :
  heap_ok s bl -> bl ≠ [] -> walk_heap s = Some (map (λ b, (bsize b, busy b)) bl, s).
Proof.
  intros [Ha [(_&_&->)|(_&[Hf _]&_&Hr)]] Hne; [done|]. destruct Ha as (?&_). unfold walk_heap.
  rewrite (st_bind_eq _ _ s s s) by done.
  rewrite (st_bind_eq _ _ s tt s) by (unfold st_assert; by rewrite (proj2 (Z.eqb_neq _ _)) by lia).
  apply boundary_walk_from_run; [done|]. by apply (search_fuel_enough tagged 16).
Qed.

(** * The interface *)

(** Writing to the payload of an allocated block. *)
Lemma boundary_store_payload s bl x n a v :
  heap_ok s bl -> (x, n) ∈ live_blocks s bl -> x + 8 <= a -> a + 8 <= x + n - 8 -> heap_ok (set_word a v s) bl.
Proof.
  intros Hok (pre & post & -> & ->)%live_split ? ?.
  pose proof Hok as [_ [(_&_&Hnil)|(_&_&_&Hr)]]; [by destruct pre|].
  apply (region_app tagged 16 ltac:(lia)) in Hr.
  pose proof (heap_ok_sized _ _ _ _ _ Hok) as [_ [Hn _]%Forall_cons]%Forall_app.
  apply (heap_replace tagged 16 ltac:(lia) fence boundary_tagged_frame boundary_fence_frame s _ pre [Block n true] [Block n true]);
    try done; [apply writes_in_set; simpl; lia|by apply Forall_singleton|].
  destruct Hr as (_&_&_&[(? & Hw & Hw') _]&_). split; [|done]. simpl in *. unfold tagged. simpl.
  rewrite !word_set_ne by lia. done.
Qed.

#[export] Program Instance boundary_allocator : Allocator := {|
  al_malloc := mmalloc;
  al_free := mfree;
  al_tail := 8;
  al_cost size := size + 39;
  al_heap := boundary_heap
|}.
Next Obligation.
  intros s bl x n [Hok _] Hx. destruct (heap_ok_live tagged 16 ltac:(lia) fence _ _ _ _ Hok Hx) as (?&?&?&?&?).
  split_all; done.
Qed.
Next Obligation.
  intros s bl x n y m [Hok _]. apply (live_disjoint 16); [lia|]. by eapply heap_ok_sized.
Qed.
Next Obligation. simpl. lia. Qed.
Next Obligation.
  simpl. intros s bl size [Hok Hc] ? ?. pose proof Hok as [(?&?&?&?&?&?) _].
  destruct (boundary_mmalloc_ok s bl size Hok) as (p & s' & n & ? & ? & ? & ? & Hb); [lia..|].
  exists p, s', (place (ALIGN (size + 16)) bl), n. destruct (ALIGN_bounds (size + 16)) as [? _]; [lia..|].
  split_all; [done|split; [done|by apply place_coalesced]|done|lia|].
  assert (prologue s <= 16) by (unfold prologue; destruct (_ =? _); lia).
  rewrite Hb. destruct (_ <? _); lia.
Qed.
Next Obligation. simpl. intros s bl x n. apply boundary_mfree_ok. Qed.
Next Obligation.
  simpl. intros s bl x n a v [Hok Hc] Hx ? ?. split; [|done]. apply (boundary_store_payload _ _ x n); (done || lia).
Qed.
End BoundaryHeap.

(** * The properties *)

Import Boundary BoundaryHeap.

(** C19: Both calls keep the blocks adjacent, their two tags equal and free blocks apart.
    [mmalloc] returns a block of its own that is large enough, with two words to spare
    for the tags; [mfree] gives a block back, whatever its neighbours are; neither
    touches another allocated block. *)
Theorem boundary_calls s bl :
  boundary_heap s bl ->
  (∀ size, 0 <= size -> brk s + size + 39 <= seg_limit s ->
    ∃ p s' bl' n, mmalloc size s = Some (p, s') ∧ boundary_heap s' bl' ∧ allocates s bl s' bl' (p - 8) n ∧
      size + 16 <= n ∧ walk_heap s' = Some (map (λ b, (bsize b, busy b)) bl', s')) ∧
  (∀ x n, (x, n) ∈ live_blocks s bl ->
    ∃ s' bl', mfree (x + 8) s = Some (tt, s') ∧ boundary_heap s' bl' ∧ releases s bl s' bl' x n).
Proof.
  intros Hh. split; [|intros x n; by apply boundary_mfree_ok].
  intros size ? ?. destruct Hh as [Hok Hc].
  destruct (boundary_mmalloc_ok s bl size Hok) as (p & s' & n & ? & Hok' & Hal & ? & _); [done..|].
  exists p, s', (place (ALIGN (size + 16)) bl), n. split_all; try done.
  - split; [done|by apply place_coalesced].
  - apply boundary_walk_heap_spec; [done|]. intros Hnil. rewrite Hnil in Hal.
    assert ((p - 8, n) ∈ live_blocks s' []) as Hin by (apply Hal; by left). by apply elem_of_nil in Hin.
Qed.

(** [mrealloc] takes the first word of the payload for the size of the block: when it
    is large, the block is returned as it is, however small; when it is below 16 and
    the block moves, [memcpy] is asked for nearly [2^64] bytes. *)
Theorem mrealloc_reads_payload s pre n post size :
  heap_ok s (pre ++ Block n true :: post) -> 16 < n ->
  let ptr := break_start s + total pre + 8 in
  let new_size := ALIGN (u64 (u64 (size + SIZE_T_SIZE) + SIZE_T_SIZE)) in
  let old_size := untag (word s ptr) in
  (new_size <= old_size -> mrealloc ptr size s = Some (ptr, s)) ∧
  (0 <= old_size < 16 -> old_size < new_size ->
    ∀ s1 s2 newptr, mfree ptr s = Some (tt, s1) -> mmalloc new_size s1 = Some (newptr, s2) -> newptr ≠ ptr ->
      0 <= seg_start s2 -> brk s2 < 2 ^ 63 -> mrealloc ptr size s = None).
Proof.
  intros Hok Hn ptr new_size old_size.
  assert (load ptr s = Some (word s ptr, s)) as Hl.
  { destruct (heap_ok_live tagged 16 ltac:(lia) fence _ _ (break_start s + total pre) n Hok) as (?&?&?&?&_).
    { apply live_split. by exists pre, post. }
    apply load_run; [by apply mod_add_8|subst ptr; lia..]. }
  assert (BLOCK_SIZE ptr s = Some (old_size, s)) as Hsz by (unfold BLOCK_SIZE; by rewrite (st_bind_eq _ _ _ _ _ Hl)).
  unfold mrealloc. rewrite (st_bind_eq _ _ _ _ _ Hsz). fold new_size. split.
  - intros Hle. by rewrite (proj2 (Z.leb_le _ _)).
  - intros Hold Hlt s1 s2 newptr Hfree Hmalloc Hne ? ?. rewrite (proj2 (Z.leb_gt _ _)) by done.
    rewrite (st_bind_eq _ _ _ _ _ Hfree), (st_bind_eq _ _ _ _ _ Hmalloc), (proj2 (Z.eqb_neq _ _)) by done.
    unfold mbind at 1, st_bind at 1. unfold memcpy. rewrite (st_bind_eq _ _ s2 s2 s2) by done.
    assert (u64 (u64 (old_size - SIZE_T_SIZE) - SIZE_T_SIZE) = old_size - 16 + 2 ^ 64) as ->.
    { rewrite SIZE_T_SIZE_eq. unfold u64 at 1 2. replace (wrap 64 (old_size - 8) - 8) with (wrap 64 (old_size - 8) + -8) by lia.
      rewrite wrap_add_l by lia. unfold wrap. rewrite <- (Z_mod_plus_full _ 1), Z.mod_small; lia. }
    rewrite (proj2 (Z.leb_gt _ (brk s2 - seg_start s2))) by lia. done.
Qed.

(** ** Witnesses *)

Definition fresh_arena (start limit : Z) : arena := Arena ∅ start start limit 0 0.

Lemma fresh_boundary_heap start limit :
  0 < start -> start mod 8 = 0 -> start <= limit < 2 ^ 63 -> boundary_heap (fresh_arena start limit) [].
Proof. intros. split; [|done]. split; [unfold arena_ok; simpl; split_all; (done || lia)|by left]. Qed.

Example boundary_test_implementation :
  fst <$> test_implementation (fresh_arena 4096 65536) = Some [(32, true); (296, false)].
Proof. by vm_compute. Qed.

Lemma boundary_calls_witness :
  ∃ p s' bl' n, mmalloc 10 (fresh_arena 4096 65536) = Some (p, s') ∧ boundary_heap s' bl' ∧
    allocates (fresh_arena 4096 65536) [] s' bl' (p - 8) n ∧ 10 + 16 <= n ∧
    walk_heap s' = Some (map (λ b, (bsize b, busy b)) bl', s').
Proof.
  apply (proj1 (boundary_calls (fresh_arena 4096 65536) [] (fresh_boundary_heap 4096 65536 ltac:(lia) ltac:(done) ltac:(lia)))); simpl; lia.
Defined.

(** Two blocks of 32 bytes, the first with a payload word of its own. *)
Definition two_blocks (w : Z) : arena :=
  Arena (list_to_map [(4096, 17); (4104, 17); (4112, 33); (4120, w); (4136, 33); (4144, 33); (4168, 33)])
    4096 4176 65536 4112 4176.

Lemma two_blocks_ok w : heap_ok (two_blocks w) [Block 32 true; Block 32 true].
Proof.
  split; [unfold arena_ok; simpl; split_all; (done || lia)|]. right.
  unfold fence, WordHeap.region, tagged, sized, arena_ok, two_blocks, word, total, header_word. simpl.
  rewrite !Forall_cons, Forall_nil. simpl. split_all; try done; try lia; by vm_compute.
Qed.

(** A block of 32 bytes is returned for a request of 500, and with a zero in front a
    request of 20 bytes does not survive. *)
Lemma mrealloc_witness :
  mrealloc 4120 500 (two_blocks 1000) = Some (4120, two_blocks 1000) ∧
  mrealloc 4120 20 (two_blocks 0) = None.
Proof.
  split.
  - apply (proj1 (mrealloc_reads_payload (two_blocks 1000) [] 32 [Block 32 true] 500
      (two_blocks_ok 1000) ltac:(lia))). vm_compute. discriminate.
  - eapply (proj2 (mrealloc_reads_payload (two_blocks 0) [] 32 [Block 32 true] 20
      (two_blocks_ok 0) ltac:(lia))); [vm_compute; split; [discriminate|reflexivity]|by vm_compute|by vm_compute
      |by vm_compute|by vm_compute|by vm_compute|by vm_compute].
Defined.

(** The program of the client runs on both allocators. *)
Definition client : list cmd :=
  [Malloc 0 16; Malloc 1 24; Put 0 0 7; Put 0 1 8; Put 1 2 9; Free 0; Malloc 2 8; Put 2 0 5; Get 1 2; Get 2 0; Free 1].

