(* ===== verification/MemoryLatency.v ===== *)
(** The bump allocator and the list built in it by
    [src/books/head_first_DPDK/01_09_dpdk_basics/memory_latency.cpp].

    The memory that [posix_memalign] returns is the interval from [start_] to [end_]; an
    access outside it, or to it after [free], is undefined. The fields of a node are kept
    apart: the characters of the buffers by address, and the [next] pointer of the node at
    an address, which is 24 bytes further on. Addresses do not wrap, since the arena is one
    block of memory. Prefetching and time have no effect. *)

From S2P Require Import Prelude.
From Stdlib Require Import Ascii.

(** * Outcomes *)

Inductive outcome (A : Type) := Ret (a : A) | Exit (code : Z) | Undefined.
Arguments Ret {A}.
Arguments Exit {A}.
Arguments Undefined {A}.

Definition out_bind {A B} (m : outcome A) (f : A → outcome B) : outcome B :=
  match m with Ret a => f a | Exit c => Exit c | Undefined => Undefined end.
#[local] Notation "x <~ m ; k" := (out_bind m (λ x, k)) (at level 100, m at next level, right associativity).
#[local] Notation "' p <~ m ; k" := (out_bind m (λ x, match x with p => k end))
  (at level 100, p pattern, m at next level, right associativity).

(** * Program *)

(** [start_] is null, that is 0, before [init_alloc]; [live] is what is allocated. *)
Record arena := Arena {
  start_ : Z; cur_ : Z; end_ : Z; counter_ : Z; live : bool;
  chars : gmap Z Z; next : gmap Z Z
}.

Definition sizeof_node : Z := 32.
Definition NODENUM : nat := Z.to_nat 1000000.
Definition SIMPLE_ALLOCATOR_SIZE : Z := 100000000.
Definition PAYLOAD : string := "This is a text".
Definition static_arena : arena := Arena 0 0 0 0 false ∅ ∅.

(** [init_alloc], with what [posix_memalign] returns: an address or an error. After
    [memset] every byte is zero, which is what an absent entry stands for. *)
Definition init_alloc (memalign : option Z) (a : arena) : outcome arena :=
  if (start_ a =? 0)%Z then
    match memalign with
    | None => Exit 1
    | Some p => Ret (Arena p p (p + SIMPLE_ALLOCATOR_SIZE) (counter_ a) true ∅ ∅)
    end
  else Ret a.

Definition simple_alloc (size : Z) (a : arena) : Z * arena :=
  if (cur_ a + size <=? end_ a)%Z then
    (cur_ a, Arena (start_ a) (cur_ a + size) (end_ a) (u64 (counter_ a + 1)) (live a) (chars a) (next a))
  else (0%Z, a).

(** An access to [n] bytes. *)
Definition inside (p n : Z) (a : arena) : bool := live a && (start_ a <=? p)%Z && (p + n <=? end_ a)%Z.
Definition set_char (p c : Z) (a : arena) : outcome arena :=
  if inside p 1 a then Ret (Arena (start_ a) (cur_ a) (end_ a) (counter_ a) (live a) (<[p := c]> (chars a)) (next a))
  else Undefined.
Fixpoint memcpy (p : Z) (src : list Z) (a : arena) : outcome arena :=
  match src with [] => Ret a | c :: src => a <~ set_char p c a; memcpy (p + 1) src a end.
Definition set_next (n p : Z) (a : arena) : outcome arena :=
  if inside (n + 24) 8 a then Ret (Arena (start_ a) (cur_ a) (end_ a) (counter_ a) (live a) (chars a) (<[n := p]> (next a)))
  else Undefined.
Definition get_next (n : Z) (a : arena) : outcome Z :=
  if inside (n + 24) 8 a then Ret (default 0%Z (next a !! n)) else Undefined.
Definition free (p : Z) (a : arena) : outcome arena :=
  if (p =? 0)%Z then Ret a
  else if live a && (p =? start_ a)%Z
       then Ret (Arena (start_ a) (cur_ a) (end_ a) (counter_ a) false (chars a) (next a))
       else Undefined.

(** A payload longer than the buffer would run into [next]; [memcpy] of the first [size]
    characters of it. *)
Definition new_node (prev : Z) (payload : list Z) (size : nat) (a : arena) : outcome (Z * arena) :=
  let '(n, a) := simple_alloc sizeof_node a in
  if (n =? 0)%Z then Exit 1
  else
    a <~ memcpy n (take size payload) a;
    a <~ set_next n 0 a;
    a <~ (if (prev =? 0)%Z then Ret a else set_next prev n a);
    Ret (n, a).

Definition codes (s : string) : list Z := (λ c, Z.of_nat (nat_of_ascii c)) <$> String.list_ascii_of_string s.
Fixpoint append_nodes (i : nat) (node : Z) (a : arena) : outcome arena :=
  match i with
  | 0 => Ret a
  | S i => '(node, a) <~ new_node node (codes PAYLOAD) (String.length PAYLOAD) a; append_nodes i node a
  end.
Definition alloc_nodes (nodenum : nat) (a : arena) : outcome (Z * arena) :=
  '(head, a) <~ new_node 0 (codes PAYLOAD) (String.length PAYLOAD) a;
  a <~ append_nodes nodenum head a;
  Ret (head, a).

Fixpoint free_nodes (fuel : nat) (n : Z) (a : arena) : outcome arena :=
  match fuel with
  | 0 => Undefined
  | S fuel =>
      if (n =? 0)%Z then Ret a
      else
        nx <~ get_next n a;
        if (nx =? 0)%Z then Ret a
        else a <~ free n a; free_nodes fuel nx a
  end.

Definition main (memalign : option Z) (nodenum : nat) : outcome arena :=
  a <~ init_alloc memalign static_arena;
  '(node, a) <~ alloc_nodes nodenum a;
  free (start_ a) a.

(** * What is built *)

Section arena.
Context (p : Z) (Hp : (0 < p)%Z).

Definition node_at (i : nat) : Z := (p + sizeof_node * Z.of_nat i)%Z.

(** The first [k] nodes are there, in one list, and nothing else has been written. *)
Record built (k : nat) (a : arena) : Prop := {
  bu_start : start_ a = p;
  bu_end : end_ a = (p + SIMPLE_ALLOCATOR_SIZE)%Z;
  bu_cur : cur_ a = node_at k;
  bu_count : counter_ a = Z.of_nat k;
  bu_live : live a = true;
  bu_next i : i < k → next a !! node_at i = Some (if decide (S i = k) then 0%Z else node_at (S i));
  bu_chars i j c : i < k → codes PAYLOAD !! j = Some c → chars a !! (node_at i + Z.of_nat j)%Z = Some c;
  bu_rest q : is_Some (chars a !! q) → ∃ i j, i < k ∧ j < length (codes PAYLOAD) ∧ q = (node_at i + Z.of_nat j)%Z
}.

Definition room : nat := Z.to_nat (SIMPLE_ALLOCATOR_SIZE / sizeof_node).

Lemma room_eq : room = Z.to_nat 3125000.
Proof. unfold room. f_equal. Qed.

Lemma node_at_inj i j : node_at i = node_at j → i = j.
Proof. unfold node_at, sizeof_node. lia. Qed.
Lemma node_at_char i j i2 j2 :
  (node_at i + Z.of_nat j = node_at i2 + Z.of_nat j2)%Z → j < 32 → j2 < 32 → i = i2 ∧ j = j2.
Proof. unfold node_at, sizeof_node. lia. Qed.

(** ** Accesses *)

Lemma memcpy_run src q a :
  (∀ j, j < length src → inside (q + Z.of_nat j) 1 a = true) →
  ∃ m, memcpy q src a = Ret (Arena (start_ a) (cur_ a) (end_ a) (counter_ a) (live a) m (next a)) ∧
    (∀ j c, src !! j = Some c → m !! (q + Z.of_nat j)%Z = Some c) ∧
    (∀ x, (∀ j, j < length src → x ≠ (q + Z.of_nat j)%Z) → m !! x = chars a !! x).
Proof.
  revert q a. induction src as [|c src IH]; intros q a Hin; simpl.
  - exists (chars a). split; [by destruct a|]. done.
  - unfold set_char. assert (inside q 1 a = true) as -> by (specialize (Hin 0 ltac:(simpl; lia)); by rewrite Z.add_0_r in Hin).
    cbn [out_bind].
    destruct (IH (q + 1)%Z (Arena (start_ a) (cur_ a) (end_ a) (counter_ a) (live a) (<[q := c]> (chars a)) (next a)))
      as (m & Hm & Hnew & Hold).
    { intros j Hj. specialize (Hin (S j) ltac:(simpl; lia)). unfold inside in *. simpl in *.
      by replace (q + 1 + Z.of_nat j)%Z with (q + Z.of_nat (S j))%Z by lia. }
    exists m. split; [done|]. simpl in *. split.
    + intros [|j] c' Hj; simpl in Hj.
      * injection Hj as <-. rewrite Z.add_0_r, Hold; [apply lookup_insert_eq|]. intros j Hj. lia.
      * replace (q + Z.of_nat (S j))%Z with (q + 1 + Z.of_nat j)%Z by lia. by apply Hnew.
    + intros x Hx. rewrite Hold.
      * apply lookup_insert_ne. intros <-. apply (Hx 0); lia.
      * intros j Hj. specialize (Hx (S j) ltac:(lia)). lia.
Qed.

Lemma inside_node k a q n :
  start_ a = p → end_ a = (p + SIMPLE_ALLOCATOR_SIZE)%Z → live a = true → k < room →
  (node_at k ≤ q)%Z → (q + n ≤ node_at (S k))%Z → inside q n a = true.
Proof.
  intros Hs He Hl Hk H1 H2. unfold inside. rewrite Hs, He, Hl. unfold node_at, sizeof_node, room in *.
  assert (32 * (SIMPLE_ALLOCATOR_SIZE / sizeof_node) ≤ SIMPLE_ALLOCATOR_SIZE)%Z as Hd by (apply Z.mul_div_le; done).
  unfold sizeof_node in *. apply andb_true_iff. split; [apply andb_true_iff; split; [done|]|]; apply Z.leb_le; lia.
Qed.

Lemma payload_length : length (codes PAYLOAD) = 14.
Proof. done. Qed.
Lemma payload_whole : take (String.length PAYLOAD) (codes PAYLOAD) = codes PAYLOAD.
Proof. done. Qed.

(** The next node: what [prev] must be. *)
Definition last_node (k : nat) : Z := match k with 0 => 0%Z | S k => node_at k end.

Lemma node_at_pos k : (0 < node_at k)%Z.
Proof. unfold node_at, sizeof_node. lia. Qed.
Lemma node_at_S k : (node_at k + sizeof_node)%Z = node_at (S k).
Proof. unfold node_at, sizeof_node. lia. Qed.
Lemma node_fits k : k < room → (node_at (S k) ≤ p + SIMPLE_ALLOCATOR_SIZE)%Z.
Proof.
  unfold node_at, room. intros Hk.
  assert (sizeof_node * (SIMPLE_ALLOCATOR_SIZE / sizeof_node) ≤ SIMPLE_ALLOCATOR_SIZE)%Z as Hd by (apply Z.mul_div_le; done).
  unfold sizeof_node in *. lia.
Qed.

Lemma new_node_run k a :
  built k a → k < room →
  ∃ a', new_node (last_node k) (codes PAYLOAD) (String.length PAYLOAD) a = Ret (node_at k, a') ∧ built (S k) a'.
Proof.
  intros [Hst Hen Hcur Hcnt Hlive Hnext Hch Hrest] Hk. unfold new_node, simple_alloc.
  rewrite Hcur, Hen, node_at_S. rewrite (proj2 (Z.leb_le _ _)) by by apply node_fits.
  pose proof (node_at_pos k) as Hpos. rewrite (proj2 (Z.eqb_neq (node_at k) 0)) by lia. rewrite payload_whole.
  set (a1 := Arena _ _ _ _ _ _ _).
  destruct (memcpy_run (codes PAYLOAD) (node_at k) a1) as (m & -> & Hnew & Hold).
  { intros j Hj. rewrite payload_length in Hj. apply (inside_node k); try done; unfold node_at, sizeof_node; lia. }
  cbn [out_bind]. subst a1. cbn [start_ cur_ end_ counter_ live chars next] in *.
  unfold set_next at 1. rewrite (inside_node k) by (try done; unfold node_at, sizeof_node; lia). cbn [out_bind].
  cbn [start_ cur_ end_ counter_ live chars next].
  assert (∃ nx, (if (last_node k =? 0)%Z
    then Ret (Arena (start_ a) (node_at (S k)) (p + SIMPLE_ALLOCATOR_SIZE)%Z (u64 (counter_ a + 1)) (live a) m (<[node_at k := 0%Z]> (next a)))
    else set_next (last_node k) (node_at k) (Arena (start_ a) (node_at (S k)) (p + SIMPLE_ALLOCATOR_SIZE)%Z (u64 (counter_ a + 1)) (live a) m (<[node_at k := 0%Z]> (next a))))
    = Ret (Arena (start_ a) (node_at (S k)) (p + SIMPLE_ALLOCATOR_SIZE)%Z (u64 (counter_ a + 1)) (live a) m nx) ∧
    ∀ i, i < S k → nx !! node_at i = Some (if decide (S i = S k) then 0%Z else node_at (S i))) as (nx & -> & Hnx).
  { destruct k as [|k]; simpl last_node.
    - eexists. split; [done|]. intros i Hi. assert (i = 0) as -> by lia. by rewrite lookup_insert_eq.
    - pose proof (node_at_pos k). rewrite (proj2 (Z.eqb_neq (node_at k) 0)) by lia. unfold set_next.
      rewrite (inside_node k) by (try done; unfold node_at, sizeof_node; lia). eexists. split; [done|].
      cbn [next]. intros i Hi. destruct (decide (i = k)) as [->|Hne].
      + rewrite lookup_insert_eq. by rewrite decide_False by lia.
      + rewrite lookup_insert_ne by (by intros ?%node_at_inj). destruct (decide (i = S k)) as [->|Hne2].
        * rewrite lookup_insert_eq. by rewrite decide_True.
        * rewrite lookup_insert_ne by (by intros ?%node_at_inj). rewrite Hnext by lia.
          rewrite !decide_False by lia. done. }
  cbn [out_bind]. eexists. split; [done|]. constructor; cbn [start_ cur_ end_ counter_ live chars next]; try done.
  - rewrite Hcnt. unfold u64. rewrite wrap_id; [lia|]. rewrite room_eq in Hk. unfold in_unsigned. change (2 ^ 64)%Z with 18446744073709551616%Z. lia.
  - intros i j c Hi Hj. pose proof (lookup_lt_Some _ _ _ Hj) as Hlt. rewrite payload_length in Hlt.
    destruct (decide (i = k)) as [->|Hne]; [by apply Hnew|]. rewrite Hold; [apply Hch; [lia|done]|].
    intros j2 Hj2 He. rewrite payload_length in Hj2. apply node_at_char in He as [? _]; lia.
  - intros q Hq. destruct (decide (node_at k ≤ q < node_at k + 14)%Z) as [Hin|Hno].
    + exists k, (Z.to_nat (q - node_at k)). rewrite payload_length. split_all; lia.
    + rewrite Hold in Hq; [|intros j Hj ->; rewrite payload_length in Hj; lia]. destruct (Hrest q Hq) as (i & j & Hi & Hj & ->).
      exists i, j. split_all; [lia|done|done].
Qed.

(** The allocator says no when the arena is full. *)
Lemma new_node_full k a :
  built k a → k = room → new_node (last_node k) (codes PAYLOAD) (String.length PAYLOAD) a = Exit 1.
Proof.
  intros Hb ->. unfold new_node, simple_alloc. rewrite (bu_cur _ _ Hb), (bu_end _ _ Hb).
  rewrite (proj2 (Z.leb_gt _ _)); [done|]. rewrite room_eq. unfold node_at, sizeof_node, SIMPLE_ALLOCATOR_SIZE. lia.
Qed.

Lemma append_nodes_run i k a :
  built (S k) a → S k + i ≤ room → ∃ a', append_nodes i (node_at k) a = Ret a' ∧ built (S k + i) a'.
Proof.
  revert k a. induction i as [|i IH]; intros k a Hb Hi; [exists a; by rewrite Nat.add_0_r|]. cbn [append_nodes].
  destruct (new_node_run (S k) a Hb ltac:(lia)) as (a1 & Hn & Hb1). cbn [last_node] in Hn. rewrite Hn. cbn [out_bind].
  destruct (IH (S k) a1 Hb1 ltac:(lia)) as (a2 & Ha & Hb2). exists a2. split; [done|]. by replace (S k + S i) with (S (S k) + i) by lia.
Qed.
Lemma append_nodes_full i k a :
  built (S k) a → S k ≤ room → room < S k + i → append_nodes i (node_at k) a = Exit 1.
Proof.
  revert k a. induction i as [|i IH]; intros k a Hb Hk Hi; [lia|]. cbn [append_nodes].
  destruct (decide (S k = room)) as [He|Hne].
  - pose proof (new_node_full (S k) a Hb He) as Hn. cbn [last_node] in Hn. by rewrite Hn.
  - destruct (new_node_run (S k) a Hb ltac:(lia)) as (a1 & Hn & Hb1). cbn [last_node] in Hn. rewrite Hn. cbn [out_bind].
    apply (IH (S k) a1 Hb1); lia.
Qed.

Definition new_arena : arena := Arena p p (p + SIMPLE_ALLOCATOR_SIZE) 0 true ∅ ∅.
Lemma new_arena_built : built 0 new_arena.
Proof.
  constructor; try done; cbn [cur_ chars new_arena]; [unfold node_at, sizeof_node; lia|lia|lia|].
  intros q. rewrite lookup_empty. by intros [? ?].
Qed.

Lemma alloc_nodes_run n :
  S n ≤ room → ∃ a, alloc_nodes n new_arena = Ret (p, a) ∧ built (S n) a.
Proof.
  intros Hn. unfold alloc_nodes. destruct (new_node_run 0 new_arena new_arena_built ltac:(lia)) as (a1 & Hr & Hb1).
  cbn [last_node] in Hr. rewrite Hr. cbn [out_bind].
  destruct (append_nodes_run n 0 a1 Hb1 ltac:(lia)) as (a2 & -> & Hb2). exists a2. cbn [out_bind].
  split; [|done]. do 2 f_equal. unfold node_at, sizeof_node. lia.
Qed.
Lemma alloc_nodes_full n : room ≤ n → alloc_nodes n new_arena = Exit 1.
Proof.
  intros Hn. unfold alloc_nodes. rewrite room_eq in Hn.
  destruct (new_node_run 0 new_arena new_arena_built) as (a1 & Hr & Hb1); [rewrite room_eq; lia|].
  cbn [last_node] in Hr. rewrite Hr. cbn [out_bind].
  by rewrite (append_nodes_full n 0 a1 Hb1) by (rewrite room_eq; lia).
Qed.

(** Freeing the list node by node frees the whole arena first. *)
Lemma free_nodes_undefined n fuel a : built (S (S n)) a → free_nodes (S (S fuel)) p a = Undefined.
Proof.
  intros Hb. pose proof (node_at_pos 0). pose proof (node_at_pos 1). cbn [free_nodes].
  assert (p = node_at 0) as Hp0 by (unfold node_at, sizeof_node; lia).
  assert (0 < room) as Hroom by (rewrite room_eq; lia).
  rewrite (proj2 (Z.eqb_neq p 0)) by lia. unfold get_next at 1.
  rewrite (inside_node 0) by (try apply Hb; try done; unfold node_at, sizeof_node; lia).
  assert (next a !! p = Some (node_at 1)) as Hnx.
  { pose proof (bu_next _ _ Hb 0 ltac:(lia)) as Hnx. rewrite decide_False in Hnx by lia. by rewrite <- Hp0 in Hnx. }
  cbn [out_bind]. rewrite Hnx. change (default 0%Z (Some (node_at 1))) with (node_at 1).
  rewrite (proj2 (Z.eqb_neq (node_at 1) 0)) by lia. unfold free.
  rewrite (proj2 (Z.eqb_neq p 0)), (bu_live _ _ Hb), (bu_start _ _ Hb), Z.eqb_refl by lia. cbn [andb out_bind].
  unfold get_next, inside. cbn [live andb]. rewrite ?(proj2 (Z.eqb_neq (node_at 1) 0)) by lia. done.
Qed.

(** The benchmark's list. If the nodes fit into the arena, which they do, [alloc_nodes]
    returns the start of the arena; the nodes are one list, each 32 bytes behind the one
    before and inside one cache line, with the payload in its buffer; nothing else has been
    written, every node is counted, and [main] gives the whole arena back. If they do not
    fit, or there is no memory, the program exits. [free_nodes] is undefined on such a
    list. *)
Theorem memory_latency_list n :
  (p mod 64 = 0)%Z →
  (S n ≤ room →
     ∃ a, alloc_nodes n new_arena = Ret (p, a) ∧ built (S n) a ∧
       (∀ i, (node_at i / 64 = (node_at i + (sizeof_node - 1)) / 64)%Z) ∧
       (∃ a', main (Some p) n = Ret a' ∧ live a' = false) ∧
       (1 ≤ n → ∀ fuel, 2 ≤ fuel → free_nodes fuel p a = Undefined)) ∧
  (room ≤ n → main (Some p) n = Exit 1) ∧ main None n = Exit 1 ∧ S NODENUM ≤ room.
Proof.
  intros Hal. split_all; [| |done|unfold NODENUM; rewrite room_eq; lia].
  - intros Hn. destruct (alloc_nodes_run n Hn) as (a & Ha & Hb). exists a. split; [done|]. split; [done|]. split_all.
    + intros i. unfold node_at, sizeof_node. rewrite (Z.div_mod p 64) by lia. rewrite Hal.
      replace (64 * (p / 64) + 0 + 32 * Z.of_nat i)%Z with (32 * Z.of_nat i + (p / 64) * 64)%Z by lia.
      replace (32 * Z.of_nat i + p / 64 * 64 + (32 - 1))%Z with (32 * Z.of_nat i + 31 + (p / 64) * 64)%Z by lia.
      rewrite !Z.div_add by lia. apply Z.add_cancel_r. Z.to_euclidean_division_equations. lia.
    + unfold main. change (init_alloc (Some p) static_arena) with (Ret new_arena). cbn [out_bind]. rewrite Ha. cbn [out_bind].
      unfold free. rewrite (bu_start _ _ Hb), (bu_live _ _ Hb), Z.eqb_refl, (proj2 (Z.eqb_neq p 0)) by lia. by eexists.
    + intros Hn1 fuel Hf. destruct n as [|n]; [lia|]. destruct fuel as [|[|fuel]]; [lia|lia|]. by eapply free_nodes_undefined.
  - intros Hn. unfold main. change (init_alloc (Some p) static_arena) with (Ret new_arena). cbn [out_bind].
    by rewrite alloc_nodes_full.
Qed.
End arena.

(** For an arena at the address 4096, with five nodes and with the source's number. *)
Lemma memory_latency_list_witness :
  (∃ a, alloc_nodes 5 (new_arena 4096) = Ret (4096%Z, a) ∧ counter_ a = 6%Z) ∧
  (∃ a, main (Some 4096%Z) NODENUM = Ret a ∧ live a = false).
Proof.
  split.
  - destruct (memory_latency_list 4096 ltac:(lia) 5 eq_refl) as (H & _).
    destruct H as (a & Ha & Hb & _); [rewrite room_eq; lia|]. exists a. split; [exact Ha|]. by rewrite (bu_count _ _ _ Hb).
  - destruct (memory_latency_list 4096 ltac:(lia) NODENUM eq_refl) as (H & _ & _ & Hn).
    destruct (H Hn) as (_ & _ & _ & _ & Hm & _). exact Hm.
Defined.
