(* ===== verification/NewHandler.v ===== *)
(** Allocation functions of the C++ notes that retry with a new-handler:
    [src/cpp/custom_new.cpp] (an [operator new] of a class that puts signatures around the
    object) and [src/cpp/new_handler.cpp] (a handler per class, installed by an object that
    puts the old one back).

    [malloc] is an argument: an address for a size, or none, in a given state. A handler is
    a program of its own, which may return, throw or abort. *)

From S2P Require Import Prelude.

(** * State and outcomes *)

(** Blocks by address with their sizes, the [int]s that have been written, the installed
    handler and the handler of the class [Derived], by number, and the output. *)
Record world := World {
  blocks : gmap Z Z; ints : gmap Z Z; new_handler : option nat; curr_handler : option nat; out : list string
}.

Inductive outcome (A : Type) := Ret (a : A) (w : world) | Throw (w : world) | Abort (w : world).
Arguments Ret {A}.
Arguments Throw {A}.
Arguments Abort {A}.

Definition set_handler (h : option nat) (w : world) : world := World (blocks w) (ints w) h (curr_handler w) (out w).
(** [std::set_new_handler] returns the handler before. *)
Definition std_set_new_handler (h : option nat) (w : world) : option nat * world := (new_handler w, set_handler h w).
Definition print (line : string) (w : world) : world :=
  World (blocks w) (ints w) (new_handler w) (curr_handler w) (out w ++ [line]).
Definition allocate (p size : Z) (w : world) : world :=
  World (<[p := size]> (blocks w)) (ints w) (new_handler w) (curr_handler w) (out w).
(** [free] of what is not a block is undefined. *)
Definition free (p : Z) (w : world) : option world :=
  _ ← blocks w !! p; Some (World (delete p (blocks w)) (ints w) (new_handler w) (curr_handler w) (out w)).
(** Writing an [int] inside the block [b]. *)
Definition put_int (b p n : Z) (w : world) : option world :=
  size ← blocks w !! b;
  if decide (b ≤ p ∧ p + 4 ≤ b + size)%Z
  then Some (World (blocks w) (<[p := n]> (ints w)) (new_handler w) (curr_handler w) (out w)) else None.

Section programs.
Context (malloc : Z → world → option Z) (handler : nat → world → outcome ()).

(** * The loop *)

(** Try, call the handler, try again; [None] is undefined, or more rounds than [fuel]. *)
Fixpoint retry {A} (fuel : nat) (attempt : world → option (option (A * world))) (w : world) : option (outcome A) :=
  match fuel with
  | 0 => None
  | S fuel =>
      r ← attempt w;
      match r with
      | Some (a, w) => Some (Ret a w)
      | None =>
          let '(global_handler, w) := std_set_new_handler None w in
          let '(_, w) := std_set_new_handler global_handler w in
          match global_handler with
          | None => Some (Throw w)
          | Some h =>
              match handler h w with
              | Ret _ w => retry fuel attempt w
              | Throw w => Some (Throw w)
              | Abort w => Some (Abort w)
              end
          end
      end
  end.

(** The [::operator new] of the standard library. *)
Definition global_new (fuel : nat) (size : Z) (w : world) : option (outcome Z) :=
  retry fuel (λ w, Some (match malloc size w with Some p => Some (p, allocate p size w) | None => None end)) w.
Definition global_delete (p : Z) (w : world) : option world := free p w.

(** * custom_new.cpp *)

Definition signature : Z := i32 0xDEADBEEF.
Definition sizeof_int : Z := 4.
Definition sizeof_Base : Z := 4.
Definition sizeof_Derived : Z := 8.
Definition new_line : string := "void *Base::operator new(std::size_t size)".
Definition delete_line : string := "void Base::operator delete(void *, std::size_t)".

Definition base_attempt (size : Z) (w : world) : option (option (Z * world)) :=
  let real_size := (size + 2 * sizeof_int)%Z in
  match malloc real_size w with
  | None => Some None
  | Some mem =>
      let w := allocate mem real_size w in
      w ← put_int mem mem signature w;
      w ← put_int mem (mem + sizeof_int + size)%Z signature w;
      Some (Some ((mem + sizeof_int)%Z, w))
  end.
Definition Base_new (fuel : nat) (size : Z) (w : world) : option (outcome Z) :=
  if decide (size ≠ sizeof_Base) then global_new fuel size w
  else retry fuel (base_attempt size) (print new_line w).
Definition Base_delete (p size : Z) (w : world) : option world :=
  if decide (p = 0%Z) then Some w
  else if decide (size ≠ sizeof_Base) then global_delete p w
  else let w := print delete_line w in free (p - sizeof_int)%Z w.

(** [main]: a [Base] and a [Derived], which its size tells apart, made and deleted. *)
Definition custom_new_main (fuel : nat) (w : world) : option (outcome ()) :=
  r ← Base_new fuel sizeof_Base w;
  match r with
  | Throw w => Some (Throw w)
  | Abort w => Some (Abort w)
  | Ret bp w =>
      r ← Base_new fuel sizeof_Derived w;
      match r with
      | Throw w => Some (Throw w)
      | Abort w => Some (Abort w)
      | Ret dp w =>
          w ← Base_delete bp sizeof_Base w;
          w ← Base_delete dp sizeof_Derived w; Some (Ret () w)
      end
  end.

(** * new_handler.cpp *)

(** [NewHandlerHolder]: what is installed, and what its destructor installs again. *)
Definition NewHandlerHolder (curr_handler : option nat) (w : world) : option nat * world :=
  std_set_new_handler curr_handler w.
Definition NewHandlerHolder_destroy (prev_handler : option nat) (w : world) : world :=
  let '(_, w) := std_set_new_handler prev_handler w in w.

Definition class_set_new_handler (p : option nat) (w : world) : option nat * world :=
  (curr_handler w, World (blocks w) (ints w) (new_handler w) p (out w)).
Definition class_line : string := "PerClassHandler::operator new".
(** The holder is destroyed when the function returns and when an exception leaves it. *)
Definition class_new (fuel : nat) (size : Z) (w : world) : option (outcome Z) :=
  let w := print class_line w in
  let '(prev, w) := NewHandlerHolder (curr_handler w) w in
  r ← global_new fuel size w;
  Some match r with
       | Ret p w => Ret p (NewHandlerHolder_destroy prev w)
       | Throw w => Throw (NewHandlerHolder_destroy prev w)
       | Abort w => Abort w
       end.

Definition oom_line : string := "Unable to allocate memory.".
(** [out_of_mem]. *)
Definition out_of_mem (w : world) : outcome () := Abort (print oom_line w).
Definition sizeof_matrix : Z := 80000000000.
(** [main], with [out_of_mem] as handler number [h]. *)
Definition new_handler_main (fuel h : nat) (w : world) : option (outcome Z) :=
  let '(_, w) := class_set_new_handler (Some h) w in class_new fuel sizeof_matrix w.

(** * What they do *)

(** The states of the loop in which memory was short and the handler returned. *)
Inductive rounds {A} (attempt : world → option (option (A * world))) : nat → world → world → Prop :=
| RoundsNil w : rounds attempt 0 w w
| RoundsStep h n w w1 w2 :
    attempt w = Some None → new_handler w = Some h → handler h w = Ret () w1 →
    rounds attempt n w1 w2 → rounds attempt (S n) w w2.

Lemma handler_kept w : (let '(h, w) := std_set_new_handler None w in let '(_, w) := std_set_new_handler h w in w) = w.
Proof. by destruct w. Qed.

(** Enough fuel for the rounds leaves the loop where they lead. *)
Lemma retry_rounds {A} (attempt : world → option (option (A * world))) n w w' fuel :
  rounds attempt n w w' → retry (n + fuel) attempt w = retry fuel attempt w'.
Proof.
  induction 1 as [w|h n w w1 w2 Ha Hh Hrun _ IH]; [done|]. simpl. rewrite Ha. simpl. rewrite Hh.
  unfold set_handler. simpl. replace (World (blocks w) (ints w) (Some h) (curr_handler w) (out w)) with w
    by (destruct w; simpl in *; by subst).
  by rewrite Hrun.
Qed.
Lemma retry_done {A} (attempt : world → option (option (A * world))) fuel w a w' :
  attempt w = Some (Some (a, w')) → retry (S fuel) attempt w = Some (Ret a w').
Proof. intros Ha. simpl. by rewrite Ha. Qed.
Lemma retry_no_handler {A} (attempt : world → option (option (A * world))) fuel w :
  attempt w = Some None → new_handler w = None → retry (S fuel) attempt w = Some (Throw w).
Proof.
  intros Ha Hh. simpl. rewrite Ha. simpl. rewrite Hh. unfold set_handler. simpl. do 2 f_equal.
  destruct w. simpl in *. by subst.
Qed.

(** What [Base_new] leaves behind for the object at [p]. *)
Definition guarded (p size : Z) (w : world) : Prop :=
  blocks w !! (p - 4)%Z = Some (size + 8)%Z ∧
  ints w !! (p - 4)%Z = Some signature ∧ ints w !! (p + size)%Z = Some signature.

Lemma base_attempt_run w mem :
  malloc (sizeof_Base + 2 * sizeof_int) w = Some mem →
  base_attempt sizeof_Base w = Some (Some ((mem + 4)%Z,
    World (<[mem := 12%Z]> (blocks w)) (<[(mem + 8)%Z := signature]> (<[mem := signature]> (ints w)))
      (new_handler w) (curr_handler w) (out w))).
Proof.
  intros Hm. unfold base_attempt. rewrite Hm. unfold put_int. simpl blocks. rewrite lookup_insert_eq. cbn [mbind option_bind].
  unfold sizeof_int, sizeof_Base. rewrite decide_True by lia. cbn [mbind option_bind blocks]. rewrite lookup_insert_eq.
  cbn [mbind option_bind]. rewrite decide_True by lia. cbn [mbind option_bind]. do 3 f_equal.
  by replace (mem + 4 + 4)%Z with (mem + 8)%Z by lia.
Qed.

(** [Base::operator new] for a [Base]: after any number of rounds in which [malloc]
    fails and the handler returns, the object lies 4 bytes into a block that begins and
    ends with the signature, aligned for an [int], and nothing else has changed since the last
    round; when there
    is no handler, or it throws or aborts, so does the function. [Base::operator delete]
    of the object gives the block back. *)
Theorem custom_new n w w1 fuel :
  rounds (base_attempt sizeof_Base) n (print new_line w) w1 →
  (∀ mem, malloc (sizeof_Base + 2 * sizeof_int) w1 = Some mem → blocks w1 !! mem = None → (0 ≤ mem)%Z →
     ∃ w2, Base_new (n + S fuel) sizeof_Base w = Some (Ret (mem + 4)%Z w2) ∧ guarded (mem + 4) sizeof_Base w2 ∧
       delete mem (blocks w2) = blocks w1 ∧ new_handler w2 = new_handler w1 ∧ out w2 = out w1 ∧
       (∃ w3, Base_delete (mem + 4) sizeof_Base w2 = Some w3 ∧ blocks w3 = blocks w1) ∧
       ((4 | mem) → (4 | mem + 4))%Z) ∧
  (malloc (sizeof_Base + 2 * sizeof_int) w1 = None → new_handler w1 = None →
     Base_new (n + S fuel) sizeof_Base w = Some (Throw w1)) ∧
  (malloc (sizeof_Base + 2 * sizeof_int) w1 = None →
     ∀ h, new_handler w1 = Some h →
       (∀ w2, handler h w1 = Throw w2 → Base_new (n + S fuel) sizeof_Base w = Some (Throw w2)) ∧
       (∀ w2, handler h w1 = Abort w2 → Base_new (n + S fuel) sizeof_Base w = Some (Abort w2))).
Proof.
  intros Hr. unfold Base_new. rewrite decide_False by (by intros []). rewrite (retry_rounds _ _ _ _ _ Hr).
  assert (malloc (sizeof_Base + 2 * sizeof_int) w1 = None → base_attempt sizeof_Base w1 = Some None) as Hnone.
  { intros Hm. unfold base_attempt. by rewrite Hm. }
  split_all.
  - intros mem Hm Hfree Hpos. rewrite (retry_done _ _ _ _ _ (base_attempt_run w1 mem Hm)). eexists. split; [done|].
    cbn [blocks new_handler out]. split_all.
    + unfold guarded. cbn [blocks ints]. replace (mem + 4 - 4)%Z with mem by lia.
      replace (mem + 4 + sizeof_Base)%Z with (mem + 8)%Z by (unfold sizeof_Base; lia).
      rewrite !lookup_insert_eq, lookup_insert_ne, lookup_insert_eq by lia. done.
    + by rewrite delete_insert_id.
    + done.
    + done.
    + unfold Base_delete, free. rewrite decide_False by lia. rewrite decide_False by (by intros []).
      replace (mem + 4 - sizeof_int)%Z with mem by (unfold sizeof_int; lia). simpl blocks. rewrite lookup_insert_eq.
      eexists. split; [done|]. cbn [blocks]. by rewrite delete_insert_id.
    + intros [a ->]. exists (a + 1)%Z. lia.
  - intros Hm Hh. by apply retry_no_handler; [apply Hnone|].
  - intros Hm h Hh. split; intros w2 Hw; cbn [retry]; rewrite (Hnone Hm); cbn [mbind option_bind std_set_new_handler new_handler set_handler];
      rewrite Hh; replace (set_handler (Some h) (set_handler None w1)) with w1 by (destruct w1; simpl in *; by subst); by rewrite Hw.
Qed.

(** [PerClassHandlerMixIn::operator new] runs with the handler of the class, and the
    handler that was installed before is installed again whether it returns or throws. The
    program's [main] sets [out_of_mem] for the class; when [malloc] fails, the message is
    printed and the program aborts, without a second attempt. *)
Theorem per_class_handler fuel size w :
  (∀ p w', class_new fuel size w = Some (Ret p w') → new_handler w' = new_handler w) ∧
  (∀ w', class_new fuel size w = Some (Throw w') → new_handler w' = new_handler w) ∧
  (∀ p, malloc size (set_handler (curr_handler w) (print class_line w)) = Some p →
     class_new (S fuel) size w = Some (Ret p (allocate p size (print class_line w)))) ∧
  (∀ h, (∀ w, handler h w = out_of_mem w) → (∀ w, malloc sizeof_matrix w = None) →
     new_handler_main (S fuel) h w =
       Some (Abort (World (blocks w) (ints w) (Some h) (Some h) (out w ++ [class_line; oom_line])))).
Proof.
  unfold class_new. split_all.
  - intros p w'. destruct (NewHandlerHolder _ _) as [prev w1] eqn:Hh. injection Hh as <- <-.
    intros (r & _ & Hr)%bind_Some. destruct r as [q w2|w2|w2]; simplify_eq. done.
  - intros w'. destruct (NewHandlerHolder _ _) as [prev w1] eqn:Hh. injection Hh as <- <-.
    intros (r & _ & Hr)%bind_Some. destruct r as [q w2|w2|w2]; simplify_eq. done.
  - intros p Hm. unfold NewHandlerHolder, std_set_new_handler, global_new.
    change (curr_handler (print class_line w)) with (curr_handler w). cbn [retry]. rewrite Hm.
    simpl. unfold NewHandlerHolder_destroy. simpl. by destruct w.
  - intros h Hh Hm. unfold new_handler_main, class_new, global_new. cbn -[sizeof_matrix app]. rewrite Hm.
    cbn -[sizeof_matrix app]. rewrite Hh. unfold out_of_mem, print. cbn -[app]. by rewrite <- app_assoc.
Qed.
End programs.

(** ** A handler that gives memory back *)

(** Memory for two blocks; the handler frees the block at 4096. *)
Definition two_blocks (size : Z) (w : world) : option Z :=
  if decide (blocks w !! 4096%Z = None) then Some 4096%Z
  else if decide (blocks w !! 8192%Z = None) then Some 8192%Z else None.
Definition give_back (h : nat) (w : world) : outcome () :=
  match free 4096 w with Some w => Ret () w | None => Throw w end.
Definition full_world : world := World (<[4096%Z := 12%Z]> {[8192%Z := 12%Z]}) ∅ (Some 0) None [].

Lemma custom_new_witness :
  ∃ w2, Base_new two_blocks give_back 2 sizeof_Base full_world = Some (Ret 4100%Z w2) ∧ guarded 4100 sizeof_Base w2.
Proof.
  assert (rounds give_back (base_attempt two_blocks sizeof_Base) 1 (print new_line full_world)
    (World {[8192%Z := 12%Z]} ∅ (Some 0) None [new_line])) as Hr.
  { apply (RoundsStep _ _ 0 0 _ (World {[8192%Z := 12%Z]} ∅ (Some 0) None [new_line])); [by vm_compute..|constructor]. }
  destruct (custom_new two_blocks give_back 1 full_world _ 0 Hr) as (Hret & _).
  destruct (Hret 4096%Z) as (w2 & Hn & Hg & _); [by vm_compute..|]. exists w2. split; [exact Hn|exact Hg].
Defined.

Lemma per_class_handler_witness :
  new_handler_main (λ _ _, None) (λ _, out_of_mem) 1 7 (World ∅ ∅ (Some 3) None []) =
    Some (Abort (World ∅ ∅ (Some 7) (Some 7) [class_line; oom_line])).
Proof.
  apply (per_class_handler (λ _ _, None) (λ _, out_of_mem) 0 0 (World ∅ ∅ (Some 3) None [])); reflexivity.
Defined.

(** [main] leaves nothing, and only the [Base] goes through the functions of the class. *)
Lemma custom_new_main_run :
  (r ← custom_new_main two_blocks give_back 1 (World ∅ ∅ None None []);
   match r with Ret _ w => Some (blocks w, out w) | _ => None end) = Some (∅, [new_line; delete_line]).
Proof. vm_compute. reflexivity. Qed.
