(* ===== verification/AsyncTcpServer.v ===== *)
(** [src/boost/boost_asio/socket/dummy_application/async_tcp_server.cpp]: a server whose
    [Service] objects live exactly as long as their chain of asynchronous operations and
    delete themselves at its end.

    The operations that have been started and not completed are the list [ops]; which
    one completes next, and with what error code, is the network's choice. A handler
    runs on one of the threads of the pool; it touches its own [Service], the acceptor
    (only one handler at a time has it) and an atomic flag, so a handler is one step. *)

From S2P Require Import Prelude.

(** * The program *)

(** An asynchronous operation with the object its handler belongs to. *)
Inductive op : Type := OpAccept | OpRead (id : nat) | OpWrite (id : nat).
#[export] Instance op_eq_dec : EqDecision op.
Proof. solve_decision. Defined.

(** Where [main] is: serving, after [m_acc->stop()], after [m_ios.stop()], and after the
    destructor, which discards the handlers. *)
Inductive stage : Type := Serving | AccStopped | IosStopped | Destroyed.

(** [services] are the live [Service] objects, with their [m_response]. *)
Record server : Type := Server {
  services : gmap nat (option string);
  created : nat;
  deleted : list nat;
  ops : list op;
  acceptor_open : bool;
  m_isStopped : bool;
  main_at : stage;
  answered : list nat
}.

Definition set_ops (l : list op) (s : server) : server :=
  Server (services s) (created s) (deleted s) l (acceptor_open s) (m_isStopped s) (main_at s) (answered s).
Definition start_op (o : op) (s : server) : server := set_ops (ops s ++ [o]) s.

(** A member called through [this] needs the object. *)
Definition this (id : nat) (s : server) : option (option string) := services s !! id.

(** [Service::onFinish]: [delete this]. *)
Definition onFinish (id : nat) (s : server) : option server :=
  _ ← this id s;
  Some (Server (delete id (services s)) (created s) (deleted s ++ [id]) (ops s) (acceptor_open s)
    (m_isStopped s) (main_at s) (answered s)).

(** The answer, a line, is the same for every request. *)
Definition processRequest : string := "Response" +:+ String (Ascii.ascii_of_nat 10) "".

(** [Service::startHandling] and the handlers of its two operations; the error code is 0
    or not. *)
Definition startHandling (id : nat) (s : server) : option server :=
  _ ← this id s; Some (start_op (OpRead id) s).
Definition onRequestReceived (id : nat) (ok : bool) (s : server) : option server :=
  _ ← this id s;
  if ok then
    Some (start_op (OpWrite id)
      (Server (<[id := Some processRequest]> (services s)) (created s) (deleted s) (ops s) (acceptor_open s)
        (m_isStopped s) (main_at s) (answered s)))
  else onFinish id s.
Definition onResponseSent (id : nat) (ok : bool) (s : server) : option server :=
  _ ← this id s;
  onFinish id
    (if ok then Server (services s) (created s) (deleted s) (ops s) (acceptor_open s) (m_isStopped s)
                  (main_at s) (answered s ++ [id])
     else s).

(** [new Service(sock)]. *)
Definition new_Service (s : server) : nat * server :=
  (created s, Server (<[created s := None]> (services s)) (S (created s)) (deleted s) (ops s) (acceptor_open s)
    (m_isStopped s) (main_at s) (answered s)).

Definition initAccept (s : server) : server := start_op OpAccept s.
Definition close_acceptor (s : server) : server :=
  Server (services s) (created s) (deleted s) (ops s) false (m_isStopped s) (main_at s) (answered s).
Definition onAccept (ok : bool) (s : server) : option server :=
  s ← (if ok then let '(id, s) := new_Service s in startHandling id s else Some s);
  if m_isStopped s then Some (close_acceptor s) else Some (initAccept s).

(** The handler of an operation that has completed. *)
Definition handler (o : op) (ok : bool) (s : server) : option server :=
  match o with
  | OpAccept => onAccept ok s
  | OpRead id => onRequestReceived id ok s
  | OpWrite id => onResponseSent id ok s
  end.

Definition set_stage (st : stage) (stopped : bool) (s : server) : server :=
  Server (services s) (created s) (deleted s) (ops s) (acceptor_open s) stopped st (answered s).

Definition init (s : server) : Prop :=
  s = initAccept (Server ∅ 0 [] [] true false Serving []).

(** The operations left when one of them has completed. *)
Definition completes (o : op) (l l' : list op) : Prop := ∃ l1 l2, l = l1 ++ o :: l2 ∧ l' = l1 ++ l2.

Inductive step (s : server) : server → Prop :=
  | StepHandler o ok l s' :
      main_at s = Serving ∨ main_at s = AccStopped → completes o (ops s) l →
      handler o ok (set_ops l s) = Some s' → step s s'
  | StepAccStop : main_at s = Serving → step s (set_stage AccStopped true s)
  | StepIosStop : main_at s = AccStopped → step s (set_stage IosStopped (m_isStopped s) s)
  | StepDestroy : main_at s = IosStopped → step s (set_ops [] (set_stage Destroyed (m_isStopped s) s)).

(** * The invariant *)

Definition of_service (id : nat) (o : op) : bool :=
  match o with OpAccept => false | OpRead j | OpWrite j => bool_decide (j = id) end.
Definition is_accept (o : op) : bool := match o with OpAccept => true | _ => false end.
Definition count (f : op → bool) (l : list op) : nat := length (filter (λ o, f o = true) l).

Lemma count_app f l1 l2 : count f (l1 ++ l2) = count f l1 + count f l2.
Proof. unfold count. by rewrite filter_app, length_app. Qed.
Lemma count_cons f o l : count f (o :: l) = (if f o then 1 else 0) + count f l.
Proof. unfold count. rewrite filter_cons. by destruct (f o). Qed.
Lemma count_completes f o l l' : completes o l l' → count f l = (if f o then 1 else 0) + count f l'.
Proof. intros (l1 & l2 & -> & ->). rewrite !count_app, count_cons. lia. Qed.

Definition live (s : server) (id : nat) : bool := bool_decide (is_Some (services s !! id)).
Definition pending (s : server) (id : nat) : nat := count (of_service id) (ops s).

(** Each live object has exactly one operation under way, and no other object has one;
    the objects created are the live ones and those deleted, once each. *)
Definition server_ok (s : server) : Prop :=
  (∀ id, main_at s ≠ Destroyed → pending s id = if live s id then 1 else 0) ∧
  (main_at s ≠ Destroyed → count is_accept (ops s) = if acceptor_open s then 1 else 0) ∧
  (∀ id, id < created s ↔ is_Some (services s !! id) ∨ id ∈ deleted s) ∧
  NoDup (deleted s) ∧ (∀ id, id ∈ deleted s → services s !! id = None) ∧
  (∀ id, id ∈ answered s → id ∈ deleted s) ∧ NoDup (answered s).

(** The services, and what was counted about them; the operations are apart. *)
Definition objects_ok (s : server) : Prop :=
  (∀ id, id < created s ↔ is_Some (services s !! id) ∨ id ∈ deleted s) ∧
  NoDup (deleted s) ∧ (∀ id, id ∈ deleted s → services s !! id = None) ∧
  (∀ id, id ∈ answered s → id ∈ deleted s) ∧ NoDup (answered s).

Lemma live_true s id : live s id = true ↔ is_Some (services s !! id).
Proof. apply bool_decide_eq_true. Qed.

(** The object of an operation under way is alive. *)
Lemma op_live s o l id :
  server_ok s → main_at s ≠ Destroyed → completes o (ops s) l → of_service id o = true →
  is_Some (services s !! id) ∧ ∀ j, count (of_service j) l = if decide (j = id) then 0 else if live s j then 1 else 0.
Proof.
  intros (Hp & _) Hm Hc Ho. assert (∀ j, of_service j o = bool_decide (id = j)) as Hj.
  { intros j. destruct o as [|k|k]; simpl in *; [done|..]; apply bool_decide_eq_true in Ho; by subst. }
  split.
  - apply live_true. specialize (Hp id Hm). unfold pending in Hp.
    rewrite (count_completes _ _ _ _ Hc), Ho in Hp. destruct (live s id); [done|lia].
  - intros j. specialize (Hp j Hm). unfold pending in Hp. rewrite (count_completes _ _ _ _ Hc), Hj in Hp.
    destruct (decide (j = id)) as [->|Hne].
    + rewrite bool_decide_true in Hp by done. destruct (live s id); lia.
    + by rewrite bool_decide_false in Hp.
Qed.

Lemma objects_finish s id :
  objects_ok s → is_Some (services s !! id) → ∃ s', onFinish id s = Some s' ∧ objects_ok s' ∧
    services s' = delete id (services s) ∧ deleted s' = deleted s ++ [id] ∧ answered s' = answered s ∧
    ops s' = ops s ∧ acceptor_open s' = acceptor_open s ∧ main_at s' = main_at s.
Proof.
  intros (Hc & Hnd & Hd & Ha & Hna) [x Hx]. unfold onFinish, this. rewrite Hx. eexists. split; [reflexivity|].
  unfold objects_ok. simpl. split_all; try done.
  - intros j. rewrite Hc, elem_of_app, list_elem_of_singleton.
    destruct (decide (j = id)) as [->|Hne]; [rewrite Hx; naive_solver|rewrite lookup_delete_ne by done; naive_solver].
  - apply NoDup_snoc. split; [|done]. intros Hin%Hd. congruence.
  - intros j. rewrite elem_of_app, list_elem_of_singleton. intros [Hj| ->]; [|apply lookup_delete_eq].
    apply lookup_delete_None. right. by apply Hd.
  - intros j Hj%Ha. apply elem_of_app. by left.
Qed.

Lemma request_ok s id l ok :
  server_ok s → main_at s ≠ Destroyed → completes (OpRead id) (ops s) l →
  ∃ s', onRequestReceived id ok (set_ops l s) = Some s' ∧ server_ok s'.
Proof.
  intros Hs Hm Hc. destruct (op_live s (OpRead id) l id Hs Hm Hc) as [Hl Hcnt]; [by apply bool_decide_eq_true|].
  destruct Hs as (_ & Hacc & Hobj). rewrite (count_completes _ _ _ _ Hc) in Hacc. simpl in Hacc.
  unfold onRequestReceived, this. pose proof Hl as [x Hx]. simpl. rewrite Hx. simpl. destruct ok.
  - eexists. split; [reflexivity|]. unfold server_ok, pending, live. simpl. split_all; try apply Hobj.
    + intros j _. rewrite count_app, count_cons, Hcnt. unfold live. simpl.
      destruct (decide (j = id)) as [->|Hne].
      * rewrite lookup_insert_eq, !bool_decide_true by done. done.
      * rewrite lookup_insert_ne, (bool_decide_false (id = j)) by done. simpl. unfold count. simpl. lia.
    + rewrite count_app, count_cons. unfold count at 2. simpl. intros _. rewrite Hacc by done. lia.
    + intros j. destruct Hobj as (Hcr & _). rewrite Hcr. destruct (decide (j = id)) as [->|Hne].
      * rewrite lookup_insert_eq, Hx. naive_solver.
      * by rewrite lookup_insert_ne.
    + intros j Hj%Hobj. apply lookup_insert_None. split; [done|]. intros ->. congruence.
  - destruct (objects_finish (set_ops l s) id Hobj Hl) as (s' & -> & Hobj' & E1 & E2 & E3 & E4 & E5 & E6).
    exists s'. split; [done|]. split; [|split; [|exact Hobj']].
    + intros j _. unfold pending, live. rewrite E4, E1. simpl. rewrite Hcnt. unfold live.
      destruct (decide (j = id)) as [->|Hne]; [by rewrite lookup_delete_eq|by rewrite lookup_delete_ne].
    + intros _. rewrite E4, E5. simpl. by apply Hacc.
Qed.

Lemma sent_ok s id l ok :
  server_ok s → main_at s ≠ Destroyed → completes (OpWrite id) (ops s) l →
  ∃ s', onResponseSent id ok (set_ops l s) = Some s' ∧ server_ok s'.
Proof.
  intros Hs Hm Hc. destruct (op_live s (OpWrite id) l id Hs Hm Hc) as [Hl Hcnt]; [by apply bool_decide_eq_true|].
  destruct Hs as (_ & Hacc & Hobj). rewrite (count_completes _ _ _ _ Hc) in Hacc. simpl in Hacc.
  destruct (objects_finish (set_ops l s) id Hobj Hl) as (s' & Hrun & Hobj' & E1 & E2 & E3 & E4 & E5 & E6).
  assert (∀ s'', services s'' = services s' → ops s'' = ops s' → acceptor_open s'' = acceptor_open s' →
    objects_ok s'' → server_ok s'') as Hgoal.
  { intros s'' F1 F2 F3 Hobj''. split; [|split; [|exact Hobj'']].
    - intros j _. unfold pending, live. rewrite F2, F1, E4, E1. simpl. rewrite Hcnt. unfold live.
      destruct (decide (j = id)) as [->|Hne]; [by rewrite lookup_delete_eq|by rewrite lookup_delete_ne].
    - intros _. rewrite F2, F3, E4, E5. simpl. by apply Hacc. }
  unfold onResponseSent, this. pose proof Hl as [x Hx]. simpl. rewrite Hx. simpl. destruct ok.
  - unfold onFinish, this in *. simpl in *. rewrite Hx in *. simpl in *. injection Hrun as <-.
    eexists. split; [reflexivity|]. apply Hgoal; [done..|]. destruct Hobj' as (? & ? & ? & Ha & Hna).
    unfold objects_ok in *. simpl in *. split_all; try done.
    + intros j [Hj%Ha|Hj%list_elem_of_singleton]%elem_of_app; [done|]. subst j. apply elem_of_app. right. by left.
    + apply NoDup_snoc. split; [|done]. intros Hin. destruct Hobj as (_ & _ & Hd & Hans & _).
      apply Hans, Hd in Hin. simpl in Hin. congruence.
  - rewrite Hrun. exists s'. split; [done|]. by apply Hgoal.
Qed.

(** A connection that has been accepted, or an error, before the next accept. *)
Lemma accepted_ok s l ok :
  server_ok s → main_at s ≠ Destroyed → completes OpAccept (ops s) l →
  ∃ s1, (if ok : bool then let '(id, s0) := new_Service (set_ops l s) in startHandling id s0
         else Some (set_ops l s)) = Some s1 ∧
    (∀ id, pending s1 id = if live s1 id then 1 else 0) ∧ count is_accept (ops s1) = 0 ∧ objects_ok s1 ∧
    acceptor_open s1 = true.
Proof.
  intros (Hp & Hacc & Hobj) Hm Hc. specialize (Hacc Hm). rewrite (count_completes _ _ _ _ Hc) in Hacc. simpl in Hacc.
  assert (acceptor_open s = true ∧ count is_accept l = 0) as [Hopen Hl] by (by destruct (acceptor_open s); [split; [|lia]|lia]).
  assert (∀ j, count (of_service j) l = if live s j then 1 else 0) as Hcnt.
  { intros j. specialize (Hp j Hm). unfold pending in Hp. by rewrite (count_completes _ _ _ _ Hc) in Hp. }
  destruct ok; [|by eexists; split; [reflexivity|]].
  unfold new_Service, startHandling, this. simpl. rewrite lookup_insert_eq. simpl.
  assert (services s !! created s = None ∧ created s ∉ deleted s) as [Hnew Hnd].
  { destruct Hobj as (Hcr & _). split.
    - destruct (services s !! created s) as [x|] eqn:E; [|done].
      assert (created s < created s) as Hlt by (apply Hcr; left; eauto). lia.
    - intros Hin. assert (created s < created s) as Hlt by (apply Hcr; by right). lia. }
  eexists. split; [reflexivity|]. unfold pending, live, objects_ok. simpl. split_all; try apply Hobj; try done.
  - intros j. rewrite count_app, count_cons, Hcnt. unfold live. simpl. destruct (decide (j = created s)) as [->|Hne].
    + rewrite lookup_insert_eq, Hnew, (bool_decide_true (created s = created s)) by done. done.
    + rewrite lookup_insert_ne, (bool_decide_false (created s = j)) by done. unfold count. simpl. lia.
  - rewrite count_app, count_cons, Hl. done.
  - intros j. destruct Hobj as (Hcr & _). destruct (decide (j = created s)) as [->|Hne].
    + rewrite lookup_insert_eq. split; [intros _; left; eauto|lia].
    + rewrite lookup_insert_ne, <- Hcr by done. lia.
  - intros j Hj. apply lookup_insert_None. split; [by apply Hobj|]. by intros <-.
Qed.

Lemma accept_ok s l ok :
  server_ok s → main_at s ≠ Destroyed → completes OpAccept (ops s) l →
  ∃ s', onAccept ok (set_ops l s) = Some s' ∧ server_ok s'.
Proof.
  intros Hs Hm Hc. destruct (accepted_ok s l ok Hs Hm Hc) as (s1 & Hrun & Hp1 & Ha1 & Hobj1 & Hopen).
  unfold onAccept. rewrite Hrun. simpl. destruct (m_isStopped s1); (eexists; split; [reflexivity|]);
    (split; [|split; [|exact Hobj1]]); unfold pending, live; simpl.
  - intros j _. apply Hp1.
  - done.
  - intros j _. rewrite count_app. change (count (of_service j) [OpAccept]) with 0. rewrite Nat.add_0_r. apply Hp1.
  - intros _. by rewrite count_app, Ha1, Hopen.
Qed.

Lemma server_handler_ok s o l ok :
  server_ok s → main_at s ≠ Destroyed → completes o (ops s) l →
  ∃ s', handler o ok (set_ops l s) = Some s' ∧ server_ok s'.
Proof.
  intros Hs Hm Hc. destruct o as [|id|id]; [by apply accept_ok|by apply request_ok|by apply sent_ok].
Qed.

Lemma server_step_ok s s' : server_ok s → step s s' → server_ok s'.
Proof.
  intros Hs [o ok l s'' Hm Hc Hrun|Hm|Hm|Hm].
  - destruct (server_handler_ok s o l ok Hs) as (s3 & Hrun' & ?); [by destruct Hm as [->| ->]|done|].
    rewrite Hrun in Hrun'. by injection Hrun' as <-.
  - destruct Hs as (Hp & Ha & Ho). split; [|split; [|exact Ho]]; [intros id _; apply Hp|intros _; apply Ha]; by rewrite Hm.
  - destruct Hs as (Hp & Ha & Ho). split; [|split; [|exact Ho]]; [intros id _; apply Hp|intros _; apply Ha]; by rewrite Hm.
  - destruct Hs as (_ & _ & Ho). split; [|split; [|exact Ho]]; [by intros ? []|by intros []].
Qed.

Lemma server_init_ok s : init s → server_ok s.
Proof.
  intros ->. unfold server_ok, pending, live. simpl. split_all; try done; try (by apply NoDup_nil); try by intros ? ?%elem_of_nil.
  intros id. rewrite lookup_empty. split; [lia|]. intros [[? ?]|?%elem_of_nil]; done.
Qed.

Lemma server_reachable_ok s : reachable init step s → server_ok s.
Proof. apply invariant_reachable; [apply server_init_ok|apply server_step_ok]. Qed.

(** * The properties *)


(** [Server::stop] stops the event loop, so the handlers of the operations under way
    never run: the [Service] objects that are alive then are never deleted. *)
Theorem stop_leaks s s' :
  main_at s = IosStopped → rtc step s s' → services s' = services s ∧ deleted s' = deleted s.
Proof.
  intros Hm Hrtc.
  enough (∀ s, (main_at s = IosStopped ∨ main_at s = Destroyed) → rtc step s s' →
    services s' = services s ∧ deleted s' = deleted s) as H by (apply H; auto).
  clear. intros s Hm Hrtc. induction Hrtc as [|x y z Hxy _ IH]; [done|].
  assert (services y = services x ∧ deleted y = deleted x ∧ main_at y = Destroyed) as (E1 & E2 & E3).
  { destruct Hxy as [o ok l s' Hm' _ _|Hm'|Hm'|Hm']; [by destruct Hm as [Hm|Hm], Hm' as [Hm'|Hm']; rewrite Hm in Hm'..| | |];
      [by destruct Hm as [Hm|Hm]; rewrite Hm in Hm'..|done]. }
  destruct IH as [-> ->]; [by right|done].
Qed.

(** ** Witnesses *)

(** The [i]-th operation completes. *)
Definition fire (i : nat) (ok : bool) (s : server) : option server :=
  o ← ops s !! i; handler o ok (set_ops (take i (ops s) ++ drop (S i) (ops s)) s).

Lemma fire_reachable i ok s s' :
  fire i ok s = Some s' → main_at s = Serving → reachable init step s → reachable init step s'.
Proof.
  unfold fire. destruct (ops s !! i) as [o|] eqn:Ho; [|done]. intros Hrun Hm Hr.
  eapply reachable_step; [exact Hr|]. eapply StepHandler; [by left| |exact Hrun].
  exists (take i (ops s)), (drop (S i) (ops s)). split; [|done]. by rewrite take_drop_middle.
Qed.

(** Two connections are accepted and one of them is answered. *)
Definition serving : server := Server {[1 := None]} 2 [0] [OpRead 1; OpAccept] true false Serving [0].

Definition first : server := initAccept (Server ∅ 0 [] [] true false Serving []).

Lemma serving_reachable : reachable init step serving.
Proof.
  assert (∃ s1, fire 0 true first = Some s1 ∧ main_at s1 = Serving ∧
    ∃ s2, fire 1 true s1 = Some s2 ∧ main_at s2 = Serving ∧
    ∃ s3, fire 0 true s2 = Some s3 ∧ main_at s3 = Serving ∧ fire 2 true s3 = Some serving)
    as (s1 & H1 & M1 & s2 & H2 & M2 & s3 & H3 & M3 & H4).
  { do 3 (eexists; split; [vm_compute; reflexivity|split; [reflexivity|]]). vm_compute. reflexivity. }
  eapply fire_reachable; [exact H4|done|]. eapply fire_reachable; [exact H3|done|].
  eapply fire_reachable; [exact H2|done|]. eapply fire_reachable; [exact H1|done|]. by apply reachable_init.
Qed.


(** The second connection's object is still there when the program is over. *)
Lemma stop_leaks_witness :
  let s := set_stage IosStopped true serving in
  services (set_ops [] (set_stage Destroyed true s)) !! 1 = Some None.
Proof.
  intros s. assert (services (set_ops [] (set_stage Destroyed true s)) = services s) as ->; [|by vm_compute].
  apply (stop_leaks s (set_ops [] (set_stage Destroyed true s))); [done|]. apply rtc_once. by apply (StepDestroy s).
Defined.
