(* ===== verification/IoService.v ===== *)
(** Programs over an [io_service] of Boost.Asio with a pool of threads.

    A program gives a handler a list of actions. What the service does with the handlers is
    taken as [src/boost/boost_asio/strand_behavior.md] and the comments of
    [src/books/asio/chapter01_core_concepts_and_functionalities/cores/io_service_basics.cpp]
    and [src/boost/boost_asio/dispatch.cpp] give it: [post] queues, [dispatch] calls at once
    inside [run] and queues outside; of the handlers of a strand one runs at a time and the
    others wait in order; [run] returns when there is neither work nor a work guard.

    [service_sound] and the theorems of [Section static] hold of every program; the
    programs are in [Executors]. *)

From S2P Require Import Prelude.

(** * Weights of lists *)

Abbreviation sum := sum_list_with.

Lemma sum_insert {A} (f : A → nat) l i x y :
  l !! i = Some x → sum f (<[i := y]> l) + f x = sum f l + f y.
Proof.
  revert i. induction l as [|z l IH]; intros [|i]; simpl; try done.
  - intros [= ->]. lia.
  - intros Hi. specialize (IH i Hi). lia.
Qed.

Lemma sum_delete {A} (f : A → nat) l i x : l !! i = Some x → sum f (delete i l) + f x = sum f l.
Proof.
  revert i. induction l as [|z l IH]; intros [|i]; simpl; try done.
  - intros [= ->]. lia.
  - intros Hi. specialize (IH i Hi). lia.
Qed.

Lemma sum_zero {A} (f : A → nat) l : sum f l = 0 ↔ ∀ x, x ∈ l → f x = 0.
Proof.
  induction l as [|z l IH]; simpl; [set_solver|]. rewrite Nat.eq_add_0, IH. split.
  - intros [? ?] x [->|?]%elem_of_cons; auto.
  - intros Hl. split; [apply Hl; left|]. intros x ?. apply Hl. by right.
Qed.

(** Lists with the same weight under every weight are permutations. *)
Lemma sum_permutation {A} `{!EqDecision A} (l k : list A) : (∀ f, sum f l = sum f k) → l ≡ₚ k.
Proof.
  revert k. induction l as [|x l IH]; intros k Hs.
  - destruct k as [|y k]; [done|]. specialize (Hs (λ _, 1)). simpl in Hs. lia.
  - assert (x ∈ k) as Hin.
    { destruct (decide (x ∈ k)) as [|Hx]; [done|]. specialize (Hs (λ y, if decide (y = x) then 1 else 0)).
      simpl in Hs. rewrite decide_True in Hs by done. assert (sum (λ y, if decide (y = x) then 1 else 0) k = 0).
      { apply sum_zero. intros y Hy. apply decide_False. congruence. }
      lia. }
    apply list_elem_of_split in Hin as (k1 & k2 & ->).
    rewrite <- Permutation_middle. f_equiv. apply IH. intros f. specialize (Hs f).
    rewrite sum_list_with_app in *. simpl in *. lia.
Qed.

(** * The service *)

Section service.
Context {H L D : Type}.

(** What a handler, or [main], does: print a line, [post] a handler (through the strand or
    not), [dispatch] one, start an operation whose completion posts one, assign the data,
    create or reset the work guard, and join all threads. *)
Inductive action : Type :=
  | Print (l : L) | Post (s : bool) (h : H) | Dispatch (h : H) | Wait (s : bool) (h : H) | Put (d : D)
  | Guard | Reset | Join.

(** A thread of the pool: not yet in [run], waiting in it, in a handler (of the strand
    or not), or back from it. *)
Inductive thread : Type := Before | Idle | Busy (s : bool) (p : list action) | Gone.

(** The queue, the operations in progress, the strand (whether a handler of it runs, and
    those waiting), the guard, whether the service has stopped; the threads and [main]; the
    data; the lines printed, with the thread ([None] for [main]), and the handlers
    started, all and those of the strand. *)
Record service : Type := Service {
  queue : list (bool * H); timers : list (bool * H); locked : bool; waiting : list H;
  guard : bool; stopped : bool; threads : list thread; main : list action;
  data : D; out : list (option nat * L); ran : list H; serial : list H }.

(** The program: its handlers, which may look at the data when they start, and what a
    thread prints before and after [run]. *)
Context (body : D → H → list action) (hello bye : nat → list L).

Definition busy (t : thread) : bool := match t with Busy _ _ => true | _ => false end.
Definition gone (t : thread) : bool := match t with Gone => true | _ => false end.
Definition print (o : option nat) (ls : list L) (l : list (option nat * L)) : list (option nat * L) :=
  l ++ map (pair o) ls.
Definition set_thread (i : nat) (t : thread) (s : service) : service :=
  Service (queue s) (timers s) (locked s) (waiting s) (guard s) (stopped s) (<[i := t]> (threads s)) (main s)
    (data s) (out s) (ran s) (serial s).
Definition set_main (p : list action) (s : service) : service :=
  Service (queue s) (timers s) (locked s) (waiting s) (guard s) (stopped s) (threads s) p (data s) (out s) (ran s) (serial s).
Definition set_queue (q : list (bool * H)) (s : service) : service :=
  Service q (timers s) (locked s) (waiting s) (guard s) (stopped s) (threads s) (main s) (data s) (out s) (ran s) (serial s).
Definition set_timers (q : list (bool * H)) (s : service) : service :=
  Service (queue s) q (locked s) (waiting s) (guard s) (stopped s) (threads s) (main s) (data s) (out s) (ran s) (serial s).
Definition set_strand (b : bool) (w : list H) (s : service) : service :=
  Service (queue s) (timers s) b w (guard s) (stopped s) (threads s) (main s) (data s) (out s) (ran s) (serial s).
Definition set_guard (b : bool) (s : service) : service :=
  Service (queue s) (timers s) (locked s) (waiting s) b (stopped s) (threads s) (main s) (data s) (out s) (ran s) (serial s).
Definition set_stopped (s : service) : service :=
  Service (queue s) (timers s) (locked s) (waiting s) (guard s) true (threads s) (main s) (data s) (out s) (ran s) (serial s).
Definition set_data (d : D) (s : service) : service :=
  Service (queue s) (timers s) (locked s) (waiting s) (guard s) (stopped s) (threads s) (main s) d (out s) (ran s) (serial s).
Definition add_lines (o : option nat) (ls : list L) (s : service) : service :=
  Service (queue s) (timers s) (locked s) (waiting s) (guard s) (stopped s) (threads s) (main s) (data s)
    (print o ls (out s)) (ran s) (serial s).
(** A handler starts, as one of the strand or not. *)
Definition start (b : bool) (h : H) (s : service) : service :=
  Service (queue s) (timers s) (locked s) (waiting s) (guard s) (stopped s) (threads s) (main s) (data s) (out s)
    (ran s ++ [h]) (serial s ++ if b then [h] else []).

(** Nothing is left to do and no guard says that there will be. *)
Definition out_of_work (s : service) : bool :=
  negb (guard s) && bool_decide (queue s = []) && bool_decide (timers s = []) && negb (existsb busy (threads s)).

(** An action that a handler and [main] do alike. *)
Definition act (o : option nat) (a : action) (s : service) : option service :=
  match a with
  | Print l => Some (add_lines o [l] s)
  | Post b h => Some (set_queue (queue s ++ [(b, h)]) s)
  | Wait b h => Some (set_timers (timers s ++ [(b, h)]) s)
  | Put d => Some (set_data d s)
  | Guard => Some (set_guard true s)
  | Reset => Some (set_guard false s)
  | Dispatch _ | Join => None
  end.

(** [main]: outside [run], [dispatch] is [post]; [join] waits for every thread. *)
Definition main_step (s : service) : option service :=
  match main s with
  | [] => None
  | Dispatch h :: p => Some (set_main p (set_queue (queue s ++ [(false, h)]) s))
  | Join :: p => if forallb gone (threads s) then Some (set_main p s) else None
  | a :: p => set_main p <$> act None a s
  end.

(** Thread [i]: entering [run]; taking a handler from the queue, where one of the strand
    waits if another runs; returning when the service has stopped or is out of work; an
    action of its handler; and its end, which lets the next of the strand run. *)
Definition thread_step (i : nat) (s : service) : option service :=
  match threads s !! i with
  | None | Some Gone => None
  | Some Before => Some (set_thread i Idle (add_lines (Some i) (hello i) s))
  | Some Idle =>
      if stopped s then Some (set_thread i Gone (add_lines (Some i) (bye i) s))
      else
        match queue s with
        | (false, h) :: q => Some (set_thread i (Busy false (body (data s) h)) (start false h (set_queue q s)))
        | (true, h) :: q =>
            if locked s then Some (set_strand true (waiting s ++ [h]) (set_queue q s))
            else Some (set_thread i (Busy true (body (data s) h)) (start true h (set_strand true (waiting s) (set_queue q s))))
        | [] =>
            if out_of_work s then Some (set_stopped (set_thread i Gone (add_lines (Some i) (bye i) s))) else None
        end
  | Some (Busy b []) =>
      match b, waiting s with
      | true, h :: w => Some (set_thread i (Busy true (body (data s) h)) (start true h (set_strand true w s)))
      | true, [] => Some (set_thread i Idle (set_strand false [] s))
      | false, _ => Some (set_thread i Idle s)
      end
  | Some (Busy b (Dispatch h :: p)) => Some (set_thread i (Busy b (body (data s) h ++ p)) (start false h s))
  | Some (Busy b (a :: p)) => set_thread i (Busy b p) <$> act (Some i) a s
  end.

(** An operation completes: its handler is posted. *)
Definition fire (k : nat) (s : service) : option service :=
  match timers s !! k with
  | Some x => Some (set_queue (queue s ++ [x]) (set_timers (delete k (timers s)) s))
  | None => None
  end.

Inductive event : Type := Main | Thread (i : nat) | Fire (k : nat).
Definition react (e : event) (s : service) : option service :=
  match e with Main => main_step s | Thread i => thread_step i s | Fire k => fire k s end.
Definition service_step (s s' : service) : Prop := ∃ e, react e s = Some s'.

(** [n] threads created by a [main] that goes on with [p]. *)
Definition init (n : nat) (g : bool) (p : list action) (d : D) : service :=
  Service [] [] false [] g false (replicate n Before) p d [] [] [].

(** * What holds of every program *)

(** What a handler does: it leaves the guard alone and joins nobody. *)
Definition handler_action (a : action) : bool := match a with Guard | Reset | Join => false | _ => true end.
Definition handlers_ok : Prop := ∀ d h, forallb handler_action (body d h) = true.

(** [main] gives the service work, resets the guard and then only joins. *)
Definition giving (a : action) : bool := match a with Print _ | Post _ _ | Dispatch _ | Wait _ _ => true | _ => false end.
Definition main_ok (g : bool) (p : list action) : Prop :=
  if g then ∃ q, p = q ++ [Reset; Join] ∧ forallb giving q = true else p = [Join] ∨ p = [].

Definition in_strand (t : thread) : nat := match t with Busy true _ => 1 | _ => 0 end.

Record service_ok (s : service) : Prop := {
  ok_strand : sum in_strand (threads s) = if locked s then 1 else 0;
  ok_waiting : waiting s ≠ [] → locked s = true;
  ok_main : main_ok (guard s) (main s);
  ok_code b p : Busy b p ∈ threads s → forallb handler_action p = true;
  ok_stopped : stopped s = true → out_of_work s = true;
  ok_gone : Gone ∈ threads s → stopped s = true;
  ok_joined : main s = [] → ∀ t, t ∈ threads s → t = Gone
}.

Lemma out_of_work_spec s :
  out_of_work s = true ↔
  guard s = false ∧ queue s = [] ∧ timers s = [] ∧ ∀ t, t ∈ threads s → busy t = false.
Proof.
  unfold out_of_work. rewrite !andb_true_iff, !negb_true_iff, !bool_decide_eq_true. split.
  - intros [[[? ?] ?] Hb]. split_all; try done. intros t Ht. apply not_true_is_false. intros Hbt.
    apply (not_true_iff_false (existsb busy (threads s))) in Hb. apply Hb, existsb_exists.
    exists t. by rewrite <- list_elem_of_In.
  - intros (? & ? & ? & Hb). split_all; try done. apply not_true_is_false. intros [t [Ht Hbt]]%existsb_exists.
    rewrite <- list_elem_of_In in Ht. by rewrite (Hb t Ht) in Hbt.
Qed.

Lemma elem_insert {A} (l : list A) i x y : x ∈ <[i := y]> l → x = y ∨ x ∈ l.
Proof.
  revert i. induction l as [|z l IH]; intros [|i]; simpl; rewrite ?elem_of_cons; try tauto.
  intros [?|Hx]; [tauto|]. apply IH in Hx. tauto.
Qed.

Lemma service_init_ok n g p d : main_ok g p → p ≠ [] → service_ok (init n g p d).
Proof.
  intros Hp Hne. assert (∀ t, t ∈ replicate n Before → t = Before) as Hrep.
  { intros t Ht. by apply elem_of_replicate in Ht as [-> _]. }
  split; cbn; try done.
  - apply sum_zero. intros t Ht. by rewrite (Hrep t Ht).
  - intros b q Hq. by apply Hrep in Hq.
  - intros Hq. by apply Hrep in Hq.
Qed.

Section preserved.
Context (Hbody : handlers_ok).

(** A thread changes and the rest of the state only in ways that keep the facts about it. *)
Lemma thread_change s s' i t t' :
  service_ok s → threads s !! i = Some t → threads s' = <[i := t']> (threads s) →
  main s' = main s → guard s' = guard s → main s ≠ [] →
  sum in_strand (threads s') = (if locked s' then 1 else 0) → (waiting s' ≠ [] → locked s' = true) →
  (∀ b p, t' = Busy b p → forallb handler_action p = true) →
  (stopped s' = true → out_of_work s' = true) → (t' = Gone → stopped s' = true) →
  (stopped s = true → stopped s' = true) →
  service_ok s'.
Proof.
  intros Hok Ht Hth Hm Hg Hne Hs Hw Hc Hst Hgone Hmono. split; try done.
  - rewrite Hm, Hg. apply (ok_main _ Hok).
  - intros b p. rewrite Hth. intros [Heq|Hin]%elem_insert; [by apply (Hc b)|]. by apply (ok_code _ Hok b).
  - rewrite Hth. intros [Heq|Hin]%elem_insert; [by apply Hgone|]. by apply Hmono, (ok_gone _ Hok).
  - rewrite Hm. intros ?. done.
Qed.

Lemma in_strand_insert s i t t' :
  service_ok s → threads s !! i = Some t →
  sum in_strand (<[i := t']> (threads s)) + in_strand t = (if locked s then 1 else 0) + in_strand t'.
Proof. intros Hok Ht. rewrite <- (ok_strand _ Hok). by apply sum_insert. Qed.

Lemma not_gone_main s i t : service_ok s → threads s !! i = Some t → t ≠ Gone → main s ≠ [].
Proof. intros Hok Ht Hg Hm. apply Hg, (ok_joined _ Hok Hm). by apply list_elem_of_lookup_2 in Ht. Qed.

Lemma busy_not_stopped s i b p : service_ok s → threads s !! i = Some (Busy b p) → stopped s = false.
Proof.
  intros Hok Ht. apply not_true_is_false. intros Hs. apply (ok_stopped _ Hok) in Hs.
  apply out_of_work_spec in Hs as (_ & _ & _ & Hb). by specialize (Hb _ (list_elem_of_lookup_2 _ _ _ Ht)).
Qed.

Lemma thread_step_service_ok i s s' : service_ok s → thread_step i s = Some s' → service_ok s'.
Proof.
  intros Hok. unfold thread_step. destruct (threads s !! i) as [t|] eqn:Ht; [|done].
  pose proof (λ t', in_strand_insert s i t t' Hok Ht) as Hin.
  destruct t as [| |b p|]; [| | |done]; pose proof (not_gone_main s i _ Hok Ht ltac:(done)) as Hm.
  - intros [= <-]. apply (thread_change s _ i Before Idle Hok Ht); cbn; try done.
    + specialize (Hin Idle). cbn in Hin. lia.
    + apply (ok_waiting _ Hok).
    + intros Hs. apply (ok_stopped _ Hok) in Hs. rewrite out_of_work_spec in *. cbn.
      destruct Hs as (? & ? & ? & Hb). split_all; try done. intros t [->|?]%elem_insert; auto.
  - destruct (stopped s) eqn:Hs.
    + intros [= <-]. apply (thread_change s _ i Idle Gone Hok Ht); cbn; try done.
      * specialize (Hin Gone). cbn in Hin. lia.
      * apply (ok_waiting _ Hok).
      * intros _. apply (ok_stopped _ Hok) in Hs. rewrite out_of_work_spec in *. cbn.
        destruct Hs as (? & ? & ? & Hb). split_all; try done. intros t [->|?]%elem_insert; auto.
    + destruct (queue s) as [|[[] h] q] eqn:Hq.
      * destruct (out_of_work s) eqn:How; [|done]. intros [= <-].
        apply (thread_change s _ i Idle Gone Hok Ht); cbn; try done.
        -- specialize (Hin Gone). cbn in Hin. lia.
        -- apply (ok_waiting _ Hok).
        -- intros _. rewrite out_of_work_spec in *. cbn.
           destruct How as (? & ? & ? & Hb). split_all; try done. intros t [->|?]%elem_insert; auto.
      * destruct (locked s) eqn:Hl; intros [= <-].
        -- apply (thread_change s _ i Idle Idle Hok Ht); cbn; try done; [by rewrite list_insert_id|..].
           ++ rewrite (ok_strand _ Hok). by rewrite Hl.
           ++ by rewrite Hs.
        -- apply (thread_change s _ i Idle (Busy true (body (data s) h)) Hok Ht); cbn; try done.
           ++ specialize (Hin (Busy true (body (data s) h))). cbn in Hin. lia.
           ++ intros b p [= <- <-]. apply Hbody.
           ++ by rewrite Hs.
      * intros [= <-]. apply (thread_change s _ i Idle (Busy false (body (data s) h)) Hok Ht); cbn; try done.
        -- specialize (Hin (Busy false (body (data s) h))). cbn in Hin. lia.
        -- apply (ok_waiting _ Hok).
        -- intros b p [= <- <-]. apply Hbody.
        -- by rewrite Hs.
  - pose proof (busy_not_stopped s i b p Hok Ht) as Hs.
    pose proof (ok_code _ Hok b p (list_elem_of_lookup_2 _ _ _ Ht)) as Hc.
    destruct p as [|a p].
    { destruct b; [destruct (waiting s) as [|h w] eqn:Hw|]; intros [= <-].
      - apply (thread_change s _ i (Busy true []) Idle Hok Ht); cbn; try done; [|by rewrite Hs].
        specialize (Hin Idle). cbn in Hin. destruct (locked s); lia.
      - apply (thread_change s _ i (Busy true []) (Busy true (body (data s) h)) Hok Ht); cbn; try done.
        + specialize (Hin (Busy true (body (data s) h))). cbn in Hin.
          rewrite (ok_waiting _ Hok) in Hin by congruence. lia.
        + intros b p [= <- <-]. apply Hbody.
        + by rewrite Hs.
      - apply (thread_change s _ i (Busy false []) Idle Hok Ht); cbn; try done; [| |by rewrite Hs].
        + specialize (Hin Idle). cbn in Hin. lia.
        + apply (ok_waiting _ Hok). }
    cbn [forallb] in Hc. apply andb_true_iff in Hc as [Ha Hc].
    assert (∀ p' s', threads s' = <[i := Busy b p']> (threads s) → main s' = main s → guard s' = guard s →
      locked s' = locked s → waiting s' = waiting s → stopped s' = stopped s →
      forallb handler_action p' = true → service_ok s') as Hgo.
    { intros p' t' Hth Hm' Hg Hl Hw Hst Hp'. apply (thread_change s t' i (Busy b (a :: p)) (Busy b p') Hok Ht); try done.
      - specialize (Hin (Busy b p')). rewrite Hth, Hl. destruct b; cbn in Hin; lia.
      - rewrite Hw, Hl. apply (ok_waiting _ Hok).
      - by intros ? ? [= <- <-].
      - by rewrite Hst, Hs.
      - by rewrite Hst. }
    destruct a; try done; cbn; intros [= <-]; eapply Hgo; cbn; try reflexivity; try done.
    rewrite forallb_app. apply andb_true_iff. split; [apply Hbody|done].
Qed.

Lemma main_step_service_ok s s' : service_ok s → main_step s = Some s' → service_ok s'.
Proof.
  intros Hok. unfold main_step. destruct (main s) as [|a p] eqn:Hm; [done|].
  pose proof (ok_main _ Hok) as Hmain. rewrite Hm in Hmain.
  assert (∀ t, guard s = true → threads t = threads s → locked t = locked s → waiting t = waiting s →
    stopped t = stopped s → main t = p → guard t = guard s → giving a = true → service_ok t) as Hgo.
  { intros t Hg Hth Hl Hw Hst Hmt Hgt Ha. split.
    - rewrite Hth, Hl. apply (ok_strand _ Hok).
    - rewrite Hw, Hl. apply (ok_waiting _ Hok).
    - rewrite Hgt, Hmt, Hg in *. destruct Hmain as ([|a' q] & Heq & Hq); [by simplify_eq/=|].
      simplify_eq/=. apply andb_true_iff in Hq as [_ Hq]. by exists q.
    - rewrite Hth. apply (ok_code _ Hok).
    - rewrite Hst. intros Hs. apply (ok_stopped _ Hok), out_of_work_spec in Hs. destruct Hs as [? _]. congruence.
    - rewrite Hth, Hst. apply (ok_gone _ Hok).
    - rewrite Hmt, Hg in *. intros ->. by destruct Hmain as ([|a' [|]] & Heq & _). }
  destruct (guard s) eqn:Hg; cbn [main_ok] in Hmain.
  - destruct Hmain as ([|a' q] & Heq & Hq); simplify_eq/=.
    + intros [= <-]. split; cbn; try apply Hok; [by left| |done].
      intros Hs. apply (ok_stopped _ Hok) in Hs. rewrite out_of_work_spec, Hg in Hs. by destruct Hs.
    + apply andb_true_iff in Hq as [Ha' Hq].
      destruct a'; try done; cbn; intros [= <-]; eapply Hgo; cbn; try reflexivity; done.
  - destruct Hmain as [Heq|]; [|done]. simplify_eq/=. destruct (forallb gone (threads s)) eqn:Hj; [|done].
    intros [= <-]. rewrite forallb_forall in Hj. split; cbn; try apply Hok; [rewrite Hg; by right|].
    intros _ t Ht. apply list_elem_of_In, Hj in Ht. by destruct t as [| |? ?|].
Qed.

Lemma service_step_ok s s' : service_ok s → service_step s s' → service_ok s'.
Proof.
  intros Hok [[|i|k] He]; cbn in He.
  - by apply (main_step_service_ok s).
  - by apply (thread_step_service_ok i s).
  - unfold fire in He. destruct (timers s !! k) as [x|] eqn:Hk; [|done]. injection He as <-.
    split; cbn; try apply Hok. intros Hs. apply (ok_stopped _ Hok), out_of_work_spec in Hs.
    destruct Hs as (_ & _ & Ht & _). by rewrite Ht in Hk.
Qed.

Lemma reachable_service_ok n g p d s :
  main_ok g p → p ≠ [] → rtc service_step (init n g p d) s → service_ok s.
Proof.
  intros Hp Hne Hr. remember (init n g p d) as s0 eqn:Hs0.
  assert (service_ok s0) as Hok by (subst; by apply service_init_ok). clear Hs0.
  induction Hr as [|s1 s2 s3 Hs _ IH]; [done|]. apply IH. by apply (service_step_ok s1).
Qed.

Lemma threads_length s s' : service_step s s' → length (threads s') = length (threads s).
Proof.
  intros [[|i|k] He]; cbn in He.
  - unfold main_step in He. destruct (main s) as [|a p]; [done|].
    destruct a; try destruct (forallb gone (threads s)); try done; by injection He as <-.
  - unfold thread_step in He. destruct (threads s !! i) as [[| |b [|a p]|]|]; try done.
    + injection He as <-. apply length_insert.
    + destruct (stopped s); [injection He as <-; apply length_insert|].
      destruct (queue s) as [|[[] h] q]; [destruct (out_of_work s); [|done]|destruct (locked s)|]; injection He as <-;
        cbn; rewrite ?length_insert; done.
    + destruct b; [destruct (waiting s)|]; injection He as <-; apply length_insert.
    + destruct a; try done; injection He as <-; apply length_insert.
  - unfold fire in He. destruct (timers s !! k); [|done]. by injection He as <-.
Qed.

Lemma run_threads n g p d s : rtc service_step (init n g p d) s → length (threads s) = n.
Proof.
  intros Hr. remember (init n g p d) as s0. assert (length (threads s0) = n) as <- by (subst; by apply length_replicate).
  clear Heqs0. induction Hr as [|s0 s1 s2 Hs _ IH]; [done|]. rewrite IH. by apply threads_length.
Qed.

Definition stuck (s : service) : Prop := ∀ s', ¬ service_step s s'.

Lemma stuck_react s e : stuck s → react e s = None.
Proof. intros Hs. destruct (react e s) as [s'|] eqn:He; [|done]. destruct (Hs s'). by exists e. Qed.

(** Every thread that is not back from [run] can go on, or waits for work. *)
Lemma thread_goes_on s i t :
  service_ok s → threads s !! i = Some t → react (Thread i) s = None → t ≠ Gone →
  t = Idle ∧ stopped s = false ∧ queue s = [] ∧ out_of_work s = false.
Proof.
  intros Hok Ht Hr Hg. cbn in Hr. unfold thread_step in Hr. rewrite Ht in Hr.
  destruct t as [| |b p|]; [done| | |done].
  - split; [done|]. destruct (stopped s); [done|]. destruct (queue s) as [|[[] h] q]; [|by destruct (locked s)|done].
    by destruct (out_of_work s).
  - pose proof (ok_code _ Hok b p (list_elem_of_lookup_2 _ _ _ Ht)) as Hc.
    destruct p as [|a p]; [destruct b; [by destruct (waiting s)|done]|]. by destruct a.
Qed.

(** A run that cannot go on is at its end: [main] and all threads have returned. *)
Lemma stuck_finished s :
  service_ok s → stuck s → main s = [] ∧ ∀ t, t ∈ threads s → t = Gone.
Proof.
  intros Hok Hs. destruct (main s) as [|a p] eqn:Hm; [split; [done|by apply (ok_joined _ Hok)]|]. exfalso.
  pose proof (stuck_react _ Main Hs) as Hmain. cbn in Hmain. unfold main_step in Hmain. rewrite Hm in Hmain.
  destruct a; try done. destruct (forallb gone (threads s)) eqn:Hj; [done|].
  assert (guard s = false) as Hg.
  { pose proof (ok_main _ Hok) as Hmo. rewrite Hm in Hmo. destruct (guard s); [|done].
    destruct Hmo as ([|a q] & Heq & Hq); simplify_eq/=. }
  assert (timers s = []) as Htm.
  { destruct (timers s) as [|x l] eqn:Hl; [done|]. pose proof (stuck_react _ (Fire 0) Hs) as Hf.
    cbn in Hf. unfold fire in Hf. by rewrite Hl in Hf. }
  assert (∃ i t, threads s !! i = Some t ∧ t ≠ Gone) as (i & t & Ht & Hng).
  { apply forallb_false in Hj as (t & [i Hi]%list_elem_of_lookup & Hf). exists i, t. split; [done|]. by intros ->. }
  destruct (thread_goes_on s i t Hok Ht (stuck_react _ (Thread i) Hs) Hng) as (-> & _ & Hq & How).
  apply not_true_iff_false in How. apply How, out_of_work_spec. split_all; try done.
  intros t' Ht'. apply list_elem_of_lookup in Ht' as [j Hj']. destruct t' as [| |b q|]; try done. exfalso.
  by destruct (thread_goes_on s j _ Hok Hj' (stuck_react _ (Thread j) Hs)) as [? _].
Qed.

(** At the end nothing is left over. *)
Lemma finished_empty s :
  service_ok s → threads s ≠ [] → (∀ t, t ∈ threads s → t = Gone) →
  queue s = [] ∧ timers s = [] ∧ waiting s = [] ∧ locked s = false.
Proof.
  intros Hok Hne Hall. destruct (threads s) as [|t l] eqn:Ht; [done|].
  assert (stopped s = true) as Hs by (apply (ok_gone _ Hok); rewrite Ht, (Hall t); left).
  apply (ok_stopped _ Hok), out_of_work_spec in Hs as (_ & ? & ? & _).
  assert (locked s = false) as Hl.
  { pose proof (ok_strand _ Hok) as Hst. destruct (locked s); [|done].
    rewrite (proj2 (sum_zero in_strand _)) in Hst; [done|]. intros t' Ht'. rewrite Ht in Ht'. by rewrite (Hall t'). }
  split_all; try done. destruct (waiting s) as [|h w] eqn:Hw; [done|].
  assert (locked s = true) by (apply (ok_waiting _ Hok); by rewrite Hw). congruence.
Qed.
End preserved.

(** * The order of a strand *)

(** The handlers of the strand in their order: started, waiting, and in the queue. *)
Definition of_strand (q : list (bool * H)) : list H := omap (λ x, if x.1 : bool then Some x.2 else None) q.
Definition strand_line (s : service) : list H := serial s ++ waiting s ++ of_strand (queue s).
Definition strand_posts (p : list action) : list H :=
  omap (λ a, match a with Post true h => Some h | _ => None end) p.

(** Code that posts nothing to the strand and starts no operation. *)
Definition quiet (p : list action) : bool :=
  forallb (λ a, match a with Post true _ | Wait _ _ => false | _ => true end) p.
Definition no_wait (p : list action) : bool := forallb (λ a, match a with Wait _ _ => false | _ => true end) p.

Section order.
Context (Hquiet : ∀ d h, quiet (body d h) = true).

(** When only [main] posts to the strand, the order of its posts is kept. *)
Record in_order (l : list H) (s : service) : Prop := {
  order_line : strand_line s ++ strand_posts (main s) = l;
  order_code b p : Busy b p ∈ threads s → quiet p = true;
  order_timers : timers s = [];
  order_main : no_wait (main s) = true
}.

Lemma of_strand_app q q' : of_strand (q ++ q') = of_strand q ++ of_strand q'.
Proof. apply omap_app. Qed.

Lemma order_change l s s' i t t' :
  in_order l s → threads s !! i = Some t → threads s' = <[i := t']> (threads s) → main s' = main s →
  timers s' = timers s → strand_line s' = strand_line s → (∀ b p, t' = Busy b p → quiet p = true) → in_order l s'.
Proof.
  intros Ho Ht Hth Hm Htm Hl Hc. split.
  - rewrite Hl, Hm. apply (order_line _ _ Ho).
  - intros b p. rewrite Hth. intros [Heq|Hin]%elem_insert; [by apply (Hc b)|by apply (order_code _ _ Ho b)].
  - rewrite Htm. apply (order_timers _ _ Ho).
  - rewrite Hm. apply (order_main _ _ Ho).
Qed.

Lemma thread_step_order l i s s' : service_ok s → in_order l s → thread_step i s = Some s' → in_order l s'.
Proof.
  intros Hok Ho. unfold thread_step. destruct (threads s !! i) as [t|] eqn:Ht; [|done].
  pose proof (ok_waiting _ Hok) as Hw.
  destruct t as [| |b p|]; [| | |done].
  - intros [= <-]. by apply (order_change l s _ i Before Idle Ho Ht).
  - destruct (stopped s); [intros [= <-]; by apply (order_change l s _ i Idle Gone Ho Ht)|].
    destruct (queue s) as [|[[] h] q] eqn:Hq.
    + destruct (out_of_work s); [|done]. intros [= <-]. by apply (order_change l s _ i Idle Gone Ho Ht).
    + destruct (locked s) eqn:Hl; intros [= <-].
      * apply (order_change l s _ i Idle Idle Ho Ht); try done; cbn; [by rewrite list_insert_id|].
        unfold strand_line. cbn. rewrite Hq. cbn. by rewrite <- app_assoc.
      * apply (order_change l s _ i Idle (Busy true (body (data s) h)) Ho Ht); try done; cbn.
        -- assert (waiting s = []) as Hnil by (destruct (waiting s); [done|by specialize (Hw ltac:(done))]).
           unfold strand_line. cbn. rewrite Hq, Hnil. cbn. by rewrite <- app_assoc.
        -- by intros b p [= <- <-].
    + intros [= <-]. apply (order_change l s _ i Idle (Busy false (body (data s) h)) Ho Ht); try done; cbn.
      * unfold strand_line. cbn. rewrite Hq. cbn. by rewrite app_nil_r.
      * by intros b p [= <- <-].
  - pose proof (order_code _ _ Ho b p (list_elem_of_lookup_2 _ _ _ Ht)) as Hc. destruct p as [|a p].
    { destruct b; [destruct (waiting s) as [|h w] eqn:Hwt|]; intros [= <-].
      - apply (order_change l s _ i (Busy true []) Idle Ho Ht); try done. unfold strand_line. cbn. by rewrite Hwt.
      - apply (order_change l s _ i (Busy true []) (Busy true (body (data s) h)) Ho Ht); try done.
        + unfold strand_line. cbn. rewrite Hwt. cbn. by rewrite <- app_assoc.
        + by intros b p [= <- <-].
      - by apply (order_change l s _ i (Busy false []) Idle Ho Ht). }
    cbn [quiet forallb] in Hc. apply andb_true_iff in Hc as [Ha Hc].
    destruct a as [x|[] h|h|bb h|d| | |]; try done; intros [= <-].
    1, 4, 5, 6: apply (order_change l s _ i (Busy b (_ :: p)) (Busy b p) Ho Ht); try done; by intros ? ? [= <- <-].
    + apply (order_change l s _ i (Busy b (_ :: p)) (Busy b p) Ho Ht); try done; [|by intros ? ? [= <- <-]].
      unfold strand_line. cbn. rewrite of_strand_app. cbn. by rewrite app_nil_r.
    + apply (order_change l s _ i _ (Busy b (body (data s) h ++ p)) Ho Ht); try done.
      * unfold strand_line. cbn. by rewrite app_nil_r.
      * intros ? ? [= <- <-]. unfold quiet. rewrite forallb_app. apply andb_true_iff. split; [apply Hquiet|done].
Qed.

Lemma main_step_order l s s' : in_order l s → main_step s = Some s' → in_order l s'.
Proof.
  intros Ho. unfold main_step. destruct (main s) as [|a p] eqn:Hm; [done|].
  pose proof (order_line _ _ Ho) as Hl. pose proof (order_main _ _ Ho) as Hmain. rewrite Hm in Hl, Hmain.
  cbn [no_wait forallb] in Hmain. apply andb_true_iff in Hmain as [Ha Hp].
  destruct a as [x|b h|h|bb h|d| | |]; try done;
    [| | | | | |destruct (forallb gone (threads s)); [|done]]; intros [= <-]; split; cbn; try apply Ho; try done.
  - revert Hl. unfold strand_line. cbn. rewrite of_strand_app. destruct b; cbn; rewrite ?app_nil_r; [|done].
    intros <-. by rewrite <- !app_assoc.
  - revert Hl. unfold strand_line. cbn. rewrite of_strand_app. cbn. by rewrite app_nil_r.
Qed.

Lemma step_order l s s' : service_ok s → in_order l s → service_step s s' → in_order l s'.
Proof.
  intros Hok Ho [[|i|k] He]; cbn in He; [by apply (main_step_order l s)|by apply (thread_step_order l i s)|].
  unfold fire in He. by rewrite (order_timers _ _ Ho) in He.
Qed.

(** The handlers of the strand start in the order of their posts; at the end all have. *)
Lemma serial_order n p d s :
  handlers_ok → main_ok true p → no_wait p = true → rtc service_step (init n true p d) s →
  serial s `prefix_of` strand_posts p ∧
  (main s = [] → queue s = [] → waiting s = [] → serial s = strand_posts p).
Proof.
  intros Hb Hp Hw Hr.
  assert (service_ok s ∧ in_order (strand_posts p) s) as [_ Ho].
  { remember (init n true p d) as s0 eqn:Hs0.
    assert (service_ok s0 ∧ in_order (strand_posts p) s0) as [Hok Ho].
    { subst. split; [apply service_init_ok; [done|]; by destruct Hp as ([|] & -> & _)|].
      split; cbn; try done. by intros b q [Hq _]%elem_of_replicate. }
    clear Hs0. induction Hr as [|s0 s1 s2 Hs _ IH]; [done|].
    apply IH; [by apply (service_step_ok Hb s0)|by apply (step_order _ s0)]. }
  pose proof (order_line _ _ Ho) as Hl. unfold strand_line in Hl. split.
  - eexists. rewrite <- Hl, <- !app_assoc. done.
  - intros H1 H2 H3. rewrite H1, H2, H3 in Hl. cbn in Hl. by rewrite !app_nil_r in Hl.
Qed.
End order.

(** * Handlers called at once *)

(** A family of handlers that only [dispatch] each other stays in the thread that took the
    first of them, so that one thread prints all their lines. *)
Section inline.
Context (mine : H → bool) (my_line : L → bool).

Definition queues (a : action) : bool := match a with Post _ h | Wait _ h => mine h | _ => false end.
Definition mentions (a : action) : bool :=
  match a with Print l => my_line l | Post _ h | Dispatch h | Wait _ h => mine h | _ => false end.
Context (Hmine : ∀ d h, mine h = true → existsb queues (body d h) = false)
        (Hothers : ∀ d h, mine h = false → existsb mentions (body d h) = false)
        (Hhello : ∀ i, existsb my_line (hello i ++ bye i) = false).

(** How many of the family are still to be taken, or handed on by [main]. *)
Definition family (h : H) : nat := if mine h then 1 else 0.
Definition handed_on (a : action) : nat := match a with Post _ h | Dispatch h | Wait _ h => family h | _ => 0 end.
Definition untaken (s : service) : nat :=
  sum family (queue s).*2 + sum family (timers s).*2 + sum family (waiting s) + sum handed_on (main s).

(** [o] is the thread that has taken the first, if one has. *)
Record inlined (o : option nat) (s : service) : Prop := {
  inlined_out x l : (x, l) ∈ out s → my_line l = true → is_Some o ∧ x = o;
  inlined_code i b p : threads s !! i = Some (Busy b p) → existsb mentions p = true → o = Some i;
  inlined_queues i b p : threads s !! i = Some (Busy b p) → existsb queues p = false;
  inlined_untaken : untaken s ≤ if o then 0 else 1;
  inlined_main l : Print l ∈ main s → my_line l = false
}.

Lemma elem_print x l o ls ls' : (x, l) ∈ print o ls ls' → (x, l) ∈ ls' ∨ x = o ∧ l ∈ ls.
Proof.
  unfold print. intros [?|(y & Heq & Hy)%list_elem_of_fmap]%elem_of_app; [by left|].
  injection Heq as -> ->. by right.
Qed.

Lemma not_my_lines ls l : existsb my_line ls = false → l ∈ ls → my_line l = false.
Proof.
  intros Hls Hl. apply not_true_is_false. intros Hm. apply not_true_iff_false in Hls. apply Hls, existsb_exists.
  exists l. by rewrite <- list_elem_of_In.
Qed.

(** A thread's step that starts nothing of the family. *)
Lemma inlined_change o s s' i t t' :
  inlined o s → threads s !! i = Some t → threads s' = <[i := t']> (threads s) → main s' = main s →
  (∀ x l, (x, l) ∈ out s' → my_line l = true → (x, l) ∈ out s ∨ is_Some o ∧ x = o) →
  (∀ b p, t' = Busy b p → existsb queues p = false ∧ (existsb mentions p = true → o = Some i)) →
  untaken s' ≤ untaken s → inlined o s'.
Proof.
  intros Ho Ht Hth Hm Hout Hc Hu. split.
  - intros x l Hin Hl. destruct (Hout x l Hin Hl) as [?|?]; [by apply (inlined_out _ _ Ho x l)|done].
  - intros j b p. rewrite Hth. intros [(<- & Heq & _)|[_ Hj]]%list_lookup_insert_Some;
      [by apply (Hc b)|by apply (inlined_code _ _ Ho j b)].
  - intros j b p. rewrite Hth. intros [(<- & Heq & _)|[_ Hj]]%list_lookup_insert_Some;
      [by apply (Hc b)|by apply (inlined_queues _ _ Ho j b)].
  - pose proof (inlined_untaken _ _ Ho). lia.
  - rewrite Hm. apply (inlined_main _ _ Ho).
Qed.

(** A thread takes a handler, from the queue or from those waiting for the strand. *)
Lemma inlined_start o s s' i t b h :
  inlined o s → threads s !! i = Some t → threads s' = <[i := Busy b (body (data s) h)]> (threads s) →
  main s' = main s → out s' = out s → untaken s' + family h = untaken s → ∃ o', inlined o' s'.
Proof.
  intros Ho Ht Hth Hm Hout Hu. destruct (mine h) eqn:Hh.
  - unfold family in Hu. rewrite Hh in Hu. pose proof (inlined_untaken _ _ Ho) as Hun.
    destruct o as [j|]; [lia|]. exists (Some i). split.
    + intros x l. rewrite Hout. intros Hin Hl. by destruct (inlined_out _ _ Ho x l Hin Hl) as [[? ?] _].
    + intros j b' p. rewrite Hth. intros [(<- & Heq & _)|[_ Hj]]%list_lookup_insert_Some; [done|].
      intros Hp. by pose proof (inlined_code _ _ Ho j b' p Hj Hp).
    + intros j b' p. rewrite Hth. intros [(_ & Heq & _)|[_ Hj]]%list_lookup_insert_Some.
      * injection Heq as _ <-. by apply Hmine.
      * by apply (inlined_queues _ _ Ho j b').
    + lia.
    + rewrite Hm. apply (inlined_main _ _ Ho).
  - exists o. apply (inlined_change o s s' i t (Busy b (body (data s) h)) Ho Ht Hth Hm).
    + intros x l. rewrite Hout. by left.
    + intros b' p [= <- <-]. pose proof (Hothers (data s) h Hh) as Hno. rewrite Hno. split; [|done].
      apply not_true_is_false. intros (a & Ha & Hq)%existsb_exists. apply not_true_iff_false in Hno. apply Hno.
      apply existsb_exists. exists a. split; [done|]. by destruct a.
    + lia.
Qed.

Lemma thread_step_inlined o i s s' : inlined o s → thread_step i s = Some s' → ∃ o', inlined o' s'.
Proof.
  intros Ho. unfold thread_step. destruct (threads s !! i) as [t|] eqn:Ht; [|done].
  assert (∀ ls x l, existsb my_line ls = false → (x, l) ∈ print (Some i) ls (out s) → my_line l = true →
    (x, l) ∈ out s ∨ is_Some o ∧ x = o) as Hprint.
  { intros ls x l Hls [?|[_ Hin]]%elem_print Hl; [by left|]. by rewrite (not_my_lines ls l Hls Hin) in Hl. }
  pose proof (Hhello i) as Hhb. rewrite existsb_app in Hhb. apply orb_false_iff in Hhb as [Hhi Hby].
  assert (∀ s' t', threads s' = <[i := t']> (threads s) → main s' = main s → busy t' = false →
    (∀ x l, (x, l) ∈ out s' → my_line l = true → (x, l) ∈ out s ∨ is_Some o ∧ x = o) →
    untaken s' ≤ untaken s → ∃ o', inlined o' s') as Hrest.
  { intros s1 t' H1 H2 H3 H4 H5. exists o. apply (inlined_change o s s1 i t t' Ho Ht H1 H2 H4); [|done].
    intros b p ->. done. }
  destruct t as [| |b p|]; [| | |done].
  - intros [= <-]. apply (Hrest _ Idle); try done. intros x l. by apply (Hprint (hello i)).
  - destruct (stopped s); [intros [= <-]; apply (Hrest _ Gone); try done; intros x l; by apply (Hprint (bye i))|].
    destruct (queue s) as [|[[] h] q] eqn:Hq.
    + destruct (out_of_work s); [|done]. intros [= <-]. apply (Hrest _ Gone); try done. intros x l. by apply (Hprint (bye i)).
    + destruct (locked s); intros [= <-].
      * apply (Hrest _ Idle); cbn; try done; [by rewrite list_insert_id|by left|].
        unfold untaken. cbn. rewrite Hq, sum_list_with_app. cbn. lia.
      * apply (inlined_start o s _ i Idle true h Ho Ht); try done. unfold untaken. cbn. rewrite Hq. cbn. lia.
    + intros [= <-]. apply (inlined_start o s _ i Idle false h Ho Ht); try done. unfold untaken. cbn. rewrite Hq. cbn. lia.
  - pose proof (inlined_queues _ _ Ho i b p Ht) as Hqs. pose proof (inlined_code _ _ Ho i b p Ht) as Hc.
    destruct p as [|a p].
    { destruct b; [destruct (waiting s) as [|h w] eqn:Hw|]; intros [= <-].
      - apply (Hrest _ Idle); cbn; try done; [by left|]. unfold untaken. cbn. rewrite Hw. cbn. lia.
      - apply (inlined_start o s _ i (Busy true []) true h Ho Ht); try done. unfold untaken. cbn. rewrite Hw. cbn. lia.
      - apply (Hrest _ Idle); cbn; try done. by left. }
    cbn in Hqs, Hc. apply orb_false_iff in Hqs as [Hqa Hqp].
    assert (∀ s1, act (Some i) a s = Some s1 → ∃ o', inlined o' (set_thread i (Busy b p) s1)) as Hact.
    { intros s1 Ha. exists o. destruct a as [l|b' h|h|b' h|d| | |]; try done; injection Ha as <-;
        apply (inlined_change o s _ i _ (Busy b p) Ho Ht); try done; cbn;
        try (by intros x l; left); try (by intros ? ? [= <- <-]; split; [|intros Hp; apply Hc; rewrite Hp, ?orb_true_r]).
      - intros x l' [?|[-> Hl]]%elem_print Hmy; [by left|]. right. apply list_elem_of_singleton in Hl as ->.
        rewrite Hc; [by eauto|]. cbn. by rewrite Hmy.
      - unfold untaken. cbn. rewrite fmap_app, sum_list_with_app. cbn in *. unfold family. rewrite Hqa. cbn. lia.
      - unfold untaken. cbn. rewrite fmap_app, sum_list_with_app. cbn in *. unfold family. rewrite Hqa. cbn. lia. }
    destruct a as [l|b' h|h|b' h|d| | |]; try done; try (cbn [fmap option_fmap option_map act]; intros [= <-]; by apply Hact).
    intros [= <-]. exists o. apply (inlined_change o s _ i _ (Busy b (body (data s) h ++ p)) Ho Ht); try done; [by left|].
    intros ? ? [= <- <-]. rewrite !existsb_app, Hqp, orb_false_r. destruct (mine h) eqn:Hh.
    + split; [by apply Hmine|]. intros _. apply Hc. cbn. by rewrite Hh.
    + pose proof (Hothers (data s) h Hh) as Hno. rewrite Hno. cbn. split; [|intros Hp; apply Hc; by rewrite Hp, orb_true_r].
      apply not_true_is_false. intros (a & Ha & Hq)%existsb_exists. apply not_true_iff_false in Hno. apply Hno.
      apply existsb_exists. exists a. split; [done|]. by destruct a.
Qed.

Lemma step_inlined o s s' : inlined o s → service_step s s' → ∃ o', inlined o' s'.
Proof.
  intros Ho [[|i|k] He]; cbn in He; [|by apply (thread_step_inlined o i s)|].
  - unfold main_step in He. destruct (main s) as [|a p] eqn:Hm; [done|].
    pose proof (inlined_untaken _ _ Ho) as Hu. unfold untaken in Hu. rewrite Hm in Hu. cbn in Hu.
    assert (∀ s1, main s1 = p → threads s1 = threads s → untaken s1 ≤ untaken s →
      (∀ x l, (x, l) ∈ out s1 → (x, l) ∈ out s ∨ Print l ∈ main s) → ∃ o', inlined o' s1) as Hgo.
    { intros s1 H1 H2 H3 H4. exists o. split.
      - intros x l Hin Hl. destruct (H4 x l Hin) as [?|Hp]; [by apply (inlined_out _ _ Ho x l)|].
        by rewrite (inlined_main _ _ Ho l Hp) in Hl.
      - rewrite H2. apply (inlined_code _ _ Ho).
      - rewrite H2. apply (inlined_queues _ _ Ho).
      - pose proof (inlined_untaken _ _ Ho). lia.
      - intros l Hl. apply (inlined_main _ _ Ho). rewrite Hm, <- H1. by right. }
    destruct a as [l|b h|h|b h|d| | |]; cbn in He; [| | | | | | |destruct (forallb gone (threads s)); [|done]];
      injection He as <-; apply Hgo; cbn; try done; try (by left);
      try (unfold untaken; cbn; rewrite Hm, ?fmap_app, ?sum_list_with_app; cbn; lia).
    intros x l' [?|[_ Hl]]%elem_print; [by left|]. right. rewrite Hm.
    apply list_elem_of_singleton in Hl as ->. left.
  - unfold fire in He. destruct (timers s !! k) as [x|] eqn:Hk; [|done]. injection He as <-. exists o.
    split; try apply Ho. pose proof (inlined_untaken _ _ Ho) as Hu. unfold untaken in *. cbn.
    rewrite fmap_app, sum_list_with_app, list_fmap_delete. cbn.
    pose proof (sum_delete family (timers s).*2 k x.2) as Hd.
    rewrite list_lookup_fmap, Hk in Hd. specialize (Hd eq_refl). lia.
Qed.

(** One thread prints all the lines of the family. *)
Lemma one_thread n p d s :
  sum handed_on p ≤ 1 → (∀ l, Print l ∈ p → my_line l = false) → rtc service_step (init n true p d) s →
  ∃ i, ∀ x l, (x, l) ∈ out s → my_line l = true → x = Some i.
Proof.
  intros Hp Hl Hr. assert (∃ o, inlined o s) as [o Ho].
  { remember (init n true p d) as s0 eqn:Hs0.
    assert (∃ o, inlined o s0) as [o Ho].
    { exists None. subst. split; cbn; try done; [by intros x l ?%elem_of_nil|intros i b q Hq|intros i b q Hq];
        by apply lookup_replicate in Hq as [? _]. }
    clear Hs0. revert o Ho. induction Hr as [|s0 s1 s2 Hs _ IH]; intros o Ho; [by exists o|].
    destruct (step_inlined o s0 s1 Ho Hs) as [o' Ho']. by apply (IH o'). }
  exists (default 0 o). intros x l Hin Hm. by destruct (inlined_out _ _ Ho x l Hin Hm) as [[i ->] ->].
Qed.
End inline.

(** * Small programs, by enumeration *)

Section enumeration.
Context `{!EqDecision H, !EqDecision L, !EqDecision D}.
#[local] Instance action_eq_dec : EqDecision action. Proof. solve_decision. Defined.
#[local] Instance thread_eq_dec : EqDecision thread. Proof. solve_decision. Defined.
#[global] Instance service_eq_dec : EqDecision service. Proof. solve_decision. Defined.

Definition events (s : service) : list event :=
  Main :: map Thread (seq 0 (length (threads s))) ++ map Fire (seq 0 (length (timers s))).
Definition successors (s : service) : list service := omap (λ e, react e s) (events s).

Lemma step_successor s s' : service_step s s' → s' ∈ successors s.
Proof.
  intros [e He]. apply list_elem_of_omap. exists e. split; [|done]. unfold events.
  rewrite elem_of_cons, elem_of_app. destruct e as [|i|k]; [by left|right; left|right; right];
    apply list_elem_of_fmap; eexists; (split; [done|]); apply elem_of_seq; (split; [lia|]); cbn in *.
  - unfold thread_step in He. destruct (threads s !! i) as [t|] eqn:Ht; [|done]. by apply lookup_lt_Some in Ht.
  - unfold fire in He. destruct (timers s !! k) as [x|] eqn:Hx; [|done]. by apply lookup_lt_Some in Hx.
Qed.

(** All states within [n] rounds of steps. *)
Fixpoint states (n : nat) (new seen : list service) : list service :=
  match n with
  | O => seen
  | S n =>
      let next := foldr (λ s l, if decide (s ∈ l ∨ s ∈ seen) then l else s :: l) [] (new ≫= successors) in
      match next with [] => seen | _ => states n next (seen ++ next) end
  end.
Definition closed_set (l : list service) : bool :=
  forallb (λ s, forallb (λ s', bool_decide (s' ∈ l)) (successors s)) l.

(** A set that has the start and is closed has every state that is reached. *)
Lemma closed_set_sound l s0 s : closed_set l = true → s0 ∈ l → rtc service_step s0 s → s ∈ l.
Proof.
  intros Hl Hin Hr. induction Hr as [|s0 s1 s2 Hs _ IH]; [done|]. apply IH.
  unfold closed_set in Hl. rewrite forallb_forall in Hl. apply list_elem_of_In, Hl in Hin.
  rewrite forallb_forall in Hin. apply step_successor, list_elem_of_In, Hin in Hs. by apply bool_decide_eq_true in Hs.
Qed.
End enumeration.

(** * Programs whose handlers do not look at the data *)

Section static.
Context (code : H → list action) (Hcode : ∀ d h, body d h = code h).

(** The handlers that an action hands on, and all that come from a handler: itself and what
    its actions hand on, and so on. *)
Definition spawns (a : action) : list H :=
  match a with Post _ h | Dispatch h | Wait _ h => [h] | _ => [] end.
Context (tree : H → list H) (Htree : ∀ h, tree h = h :: ((code h ≫= spawns) ≫= tree)).

(** The weight of all handlers that are still to start. *)
Definition tree_weight (f : H → nat) (h : H) : nat := sum f (tree h).
Definition code_weight (f : H → nat) (p : list action) : nat := sum (tree_weight f) (p ≫= spawns).
Arguments code_weight : simpl never.
Definition thread_weight (f : H → nat) (t : thread) : nat :=
  match t with Busy _ p => code_weight f p | _ => 0 end.
Definition to_start (f : H → nat) (s : service) : nat :=
  sum (tree_weight f) (queue s).*2 + sum (tree_weight f) (timers s).*2 + sum (tree_weight f) (waiting s) +
  sum (thread_weight f) (threads s) + code_weight f (main s).

Lemma sum_bind {A B} (f : B → nat) (g : A → list B) l : sum f (l ≫= g) = sum (λ x, sum f (g x)) l.
Proof. induction l as [|x l IH]; [done|]. rewrite bind_cons, sum_list_with_app, IH. done. Qed.

Lemma tree_weight_eq f h : tree_weight f h = f h + code_weight f (code h).
Proof. unfold tree_weight at 1. rewrite Htree. cbn. by rewrite sum_bind. Qed.

Lemma code_weight_cons f a p : code_weight f (a :: p) = sum (tree_weight f) (spawns a) + code_weight f p.
Proof. unfold code_weight. by rewrite bind_cons, sum_list_with_app. Qed.
Lemma code_weight_app f p q : code_weight f (p ++ q) = code_weight f p + code_weight f q.
Proof. unfold code_weight. by rewrite bind_app, sum_list_with_app. Qed.

(** Where a handler or a thread is, as steps that are left for it: for the measure. *)
Definition steps_of (h : H) : nat := 4 * length (code h) + 4.
Definition thread_steps (t : thread) : nat :=
  match t with Before => 2 | Idle => 1 | Busy _ p => 2 + 4 * length p | Gone => 0 end.
Definition measure (s : service) : nat :=
  to_start steps_of s + length (queue s) + 2 * length (timers s) + sum thread_steps (threads s) + 4 * length (main s).

(** Every step starts what it takes from the handlers to start, and uses up some of the
    measure. *)
Definition accounts (s s' : service) : Prop :=
  (∀ f, sum f (ran s') + to_start f s' = sum f (ran s) + to_start f s) ∧ measure s' < measure s.

Lemma accounts_intro s s' k :
  (∀ f, sum f (ran s') + to_start f s' = sum f (ran s) + to_start f s) →
  sum steps_of (ran s') = sum steps_of (ran s) + k →
  length (queue s') + 2 * length (timers s') + sum thread_steps (threads s') + 4 * length (main s') <
  length (queue s) + 2 * length (timers s) + sum thread_steps (threads s) + 4 * length (main s) + k →
  accounts s s'.
Proof. intros Hf Hr Hlt. split; [done|]. unfold measure. specialize (Hf steps_of). lia. Qed.

(** A step of a thread that starts the handlers [h], by what it changes. *)
Lemma thread_accounts s s' i t t' h k :
  threads s !! i = Some t → threads s' = <[i := t']> (threads s) → main s' = main s → ran s' = ran s ++ h →
  (∀ f, sum f h + sum (tree_weight f) (queue s').*2 + sum (tree_weight f) (timers s').*2 +
        sum (tree_weight f) (waiting s') + thread_weight f t' =
        sum (tree_weight f) (queue s).*2 + sum (tree_weight f) (timers s).*2 +
        sum (tree_weight f) (waiting s) + thread_weight f t) →
  sum steps_of h = k →
  length (queue s') + 2 * length (timers s') + thread_steps t' <
  length (queue s) + 2 * length (timers s) + thread_steps t + k →
  accounts s s'.
Proof.
  intros Ht Hth Hm Hr Hf Hk Hlt. apply (accounts_intro s s' k).
  - intros f. unfold to_start. rewrite Hth, Hm, Hr, sum_list_with_app.
    pose proof (sum_insert (thread_weight f) (threads s) i t t' Ht). specialize (Hf f). lia.
  - rewrite Hr, sum_list_with_app. lia.
  - rewrite Hth, Hm. pose proof (sum_insert thread_steps (threads s) i t t' Ht). lia.
Qed.

(** What an action adds. *)
Lemma act_effect o a s s' :
  act o a s = Some s' →
  ∃ q tm, main s' = main s ∧ ran s' = ran s ∧ threads s' = threads s ∧ waiting s' = waiting s ∧
    queue s' = queue s ++ q ∧ timers s' = timers s ++ tm ∧
    (∀ f, sum (tree_weight f) q.*2 + sum (tree_weight f) tm.*2 = sum (tree_weight f) (spawns a)) ∧
    length q + 2 * length tm < 4.
Proof.
  intros Hs. destruct a as [l|b h|h|b h|d| | |]; try done; injection Hs as <-; cbn.
  2: exists [(b, h)], []. 3: exists [], [(b, h)].
  all: try exists [], [].
  all: cbn; rewrite ?app_nil_r; split_all; try done; lia.
Qed.

Lemma thread_step_accounts i s s' : thread_step i s = Some s' → accounts s s'.
Proof.
  unfold thread_step. destruct (threads s !! i) as [t|] eqn:Ht; [|done].
  destruct t as [| |b p|]; [| | |done].
  - intros [= <-]. apply (thread_accounts s _ i Before Idle [] 0 Ht); cbn; try done; [by rewrite app_nil_r|lia].
  - destruct (stopped s).
    { intros [= <-]. apply (thread_accounts s _ i Idle Gone [] 0 Ht); cbn; try done; [by rewrite app_nil_r|lia]. }
    destruct (queue s) as [|[[] h] q] eqn:Hq.
    + destruct (out_of_work s); [|done]. intros [= <-].
      apply (thread_accounts s _ i Idle Gone [] 0 Ht); cbn; try done; [by rewrite app_nil_r|lia].
    + destruct (locked s); intros [= <-].
      * apply (thread_accounts s _ i Idle Idle [] 0 Ht); cbn; try done.
        -- by rewrite list_insert_id.
        -- by rewrite app_nil_r.
        -- intros f. rewrite Hq, sum_list_with_app. cbn. lia.
        -- rewrite Hq. cbn. lia.
      * apply (thread_accounts s _ i Idle (Busy true (body (data s) h)) [h] (steps_of h) Ht); cbn; try done.
        -- intros f. rewrite Hq, Hcode. cbn. rewrite tree_weight_eq. lia.
        -- rewrite Hq, Hcode. unfold steps_of. cbn. lia.
    + intros [= <-].
      apply (thread_accounts s _ i Idle (Busy false (body (data s) h)) [h] (steps_of h) Ht); cbn; try done.
      * intros f. rewrite Hq, Hcode. cbn. rewrite tree_weight_eq. lia.
      * rewrite Hq, Hcode. unfold steps_of. cbn. lia.
  - destruct p as [|a p].
    { destruct b; [destruct (waiting s) as [|h w] eqn:Hw|]; intros [= <-].
      - apply (thread_accounts s _ i (Busy true []) Idle [] 0 Ht); cbn; try done; [by rewrite app_nil_r|by rewrite Hw|lia].
      - apply (thread_accounts s _ i (Busy true []) (Busy true (body (data s) h)) [h] (steps_of h) Ht); cbn; try done.
        + intros f. rewrite Hw, Hcode. cbn. rewrite tree_weight_eq. change (code_weight f []) with 0. lia.
        + rewrite Hcode. unfold steps_of. cbn. lia.
      - apply (thread_accounts s _ i (Busy false []) Idle [] 0 Ht); cbn; try done; [by rewrite app_nil_r|lia]. }
    assert (∀ s1, act (Some i) a s = Some s1 → accounts s (set_thread i (Busy b p) s1)) as Hact.
    { intros s1 (q & tm & H1 & H2 & H3 & H4 & H5 & H6 & H7 & H8)%act_effect.
      apply (thread_accounts s _ i _ (Busy b p) [] 0 Ht); cbn.
      - by rewrite H3.
      - done.
      - by rewrite H2, app_nil_r.
      - intros f. rewrite H4, H5, H6, !fmap_app, !sum_list_with_app, code_weight_cons. specialize (H7 f). lia.
      - done.
      - rewrite H5, H6, !length_app. lia. }
    destruct a; try done; try (cbn [fmap option_fmap option_map act]; intros [= <-]; by apply Hact).
    intros [= <-].
    apply (thread_accounts s _ i _ (Busy b (body (data s) h ++ p)) [h] (steps_of h) Ht); cbn; try done.
    + intros f. rewrite Hcode, code_weight_cons, code_weight_app. cbn. rewrite tree_weight_eq. lia.
    + rewrite Hcode, length_app. unfold steps_of. lia.
Qed.

Lemma main_step_accounts s s' : main_step s = Some s' → accounts s s'.
Proof.
  unfold main_step. destruct (main s) as [|a p] eqn:Hm; [done|].
  assert (∀ s1 q tm, main s1 = p → ran s1 = ran s → threads s1 = threads s → waiting s1 = waiting s →
    queue s1 = queue s ++ q → timers s1 = timers s ++ tm →
    (∀ f, sum (tree_weight f) q.*2 + sum (tree_weight f) tm.*2 = sum (tree_weight f) (spawns a)) →
    length q + 2 * length tm < 4 → accounts s s1) as Hgo.
  { intros s1 q tm H1 H2 H3 H4 H5 H6 H7 H8. apply (accounts_intro s s1 0).
    - intros f. unfold to_start. rewrite H1, H2, H3, H4, H5, H6, Hm, code_weight_cons, !fmap_app, !sum_list_with_app.
      specialize (H7 f). lia.
    - rewrite H2. lia.
    - rewrite H1, H3, H5, H6, Hm, !length_app. cbn. lia. }
  assert (∀ s1, act None a s = Some s1 → accounts s (set_main p s1)) as Hact.
  { intros s1 (q & tm & H1 & H2 & H3 & H4 & H5 & H6 & H7 & H8)%act_effect. by apply (Hgo _ q tm). }
  destruct a; try (cbn [fmap option_fmap option_map act]; intros [= <-]; by apply Hact).
  - intros [= <-]. apply (Hgo _ [(false, h)] []); cbn; rewrite ?app_nil_r; done || lia.
  - destruct (forallb gone (threads s)); [|done]. intros [= <-].
    apply (Hgo _ [] []); cbn; rewrite ?app_nil_r; done || lia.
Qed.

Lemma step_accounts s s' : service_step s s' → accounts s s'.
Proof.
  intros [[|i|k] He]; cbn in He; [by apply main_step_accounts|by apply (thread_step_accounts i)|].
  unfold fire in He. destruct (timers s !! k) as [x|] eqn:Hk; [|done]. injection He as <-.
  apply (accounts_intro _ _ 0); cbn; [|lia|].
  - intros f. unfold to_start. cbn. rewrite fmap_app, sum_list_with_app. cbn.
    assert (sum (tree_weight f) (delete k (timers s)).*2 + tree_weight f x.2 = sum (tree_weight f) (timers s).*2); [|lia].
    rewrite <- (sum_delete _ (timers s).*2 k x.2) by (by rewrite list_lookup_fmap, Hk).
    by rewrite list_fmap_delete.
  - rewrite length_app, length_delete by (by eexists). pose proof (lookup_lt_Some _ _ _ Hk). cbn. lia.
Qed.

(** ** What is printed *)

Definition prints (p : list action) : list L := omap (λ a, match a with Print l => Some l | _ => None end) p.
Arguments prints : simpl never.

Lemma prints_cons a p : prints (a :: p) = match a with Print l => l :: prints p | _ => prints p end.
Proof. by destruct a. Qed.
Lemma prints_app p q : prints (p ++ q) = prints p ++ prints q.
Proof. apply omap_app. Qed.

(** The lines that a thread has still to print by itself. *)
Definition lines_left (g : L → nat) (i : nat) (t : thread) : nat :=
  match t with
  | Before => sum g (hello i) + sum g (bye i)
  | Idle => sum g (bye i)
  | Busy _ p => sum g (bye i) + sum g (prints p)
  | Gone => 0
  end.
Fixpoint indexed_sum (f : nat → thread → nat) (k : nat) (l : list thread) : nat :=
  match l with [] => 0 | t :: l => f k t + indexed_sum f (S k) l end.

Lemma indexed_sum_insert f k l i t t' :
  l !! i = Some t → indexed_sum f k (<[i := t']> l) + f (k + i) t = indexed_sum f k l + f (k + i) t'.
Proof.
  revert k i. induction l as [|u l IH]; intros k [|i]; simpl; try done.
  - intros [= ->]. rewrite Nat.add_0_r. lia.
  - intros Hi. specialize (IH (S k) i Hi). rewrite Nat.add_succ_r. simpl in IH. lia.
Qed.

Definition to_print (g : L → nat) (s : service) : nat :=
  sum g (out s).*2 + indexed_sum (lines_left g) 0 (threads s) + sum g (prints (main s)).

(** What is printed and left to print grows by the lines of the handlers started. *)
Definition prints_account (s s' : service) : Prop :=
  ∃ h, ran s' = ran s ++ h ∧ ∀ g, to_print g s' = to_print g s + sum g (h ≫= λ h, prints (code h)).

Lemma print_weight g o ls l : sum g (print o ls l).*2 = sum g l.*2 + sum g ls.
Proof.
  unfold print. rewrite fmap_app, sum_list_with_app. f_equal. induction ls as [|x ls IH]; cbn; [done|by rewrite IH].
Qed.

Lemma thread_prints s s' i t t' o h :
  threads s !! i = Some t → threads s' = <[i := t']> (threads s) → main s' = main s → ran s' = ran s ++ h →
  out s' = print (Some i) o (out s) →
  (∀ g, sum g o + lines_left g i t' = lines_left g i t + sum g (h ≫= λ h, prints (code h))) →
  prints_account s s'.
Proof.
  intros Ht Hth Hm Hr Ho Hg. exists h. split; [done|]. intros g. unfold to_print.
  rewrite Hth, Hm, Ho, print_weight. pose proof (indexed_sum_insert (lines_left g) 0 _ _ _ t' Ht) as Hi.
  cbn in Hi. specialize (Hg g). lia.
Qed.

Lemma act_out o a s s' :
  act o a s = Some s' → out s' = print o (prints [a]) (out s).
Proof. destruct a; try done; intros [= <-]; cbn; unfold print; by rewrite ?app_nil_r. Qed.

Lemma print_nil o l : print o [] l = l.
Proof. apply app_nil_r. Qed.

Lemma thread_step_prints i s s' : thread_step i s = Some s' → prints_account s s'.
Proof.
  unfold thread_step. destruct (threads s !! i) as [t|] eqn:Ht; [|done].
  assert (∀ s' t', threads s' = <[i := t']> (threads s) → main s' = main s → ran s' = ran s → out s' = out s →
    (∀ g, lines_left g i t' = lines_left g i t) → prints_account s s') as Hsame.
  { intros s1 t' H1 H2 H3 H4 H5. apply (thread_prints s s1 i t t' [] [] Ht); cbn; try done.
    - by rewrite app_nil_r.
    - by rewrite print_nil.
    - intros g. by rewrite H5. }
  assert (∀ s' b p h, (∀ g, lines_left g i t = sum g (bye i) + sum g (prints p)) →
    threads s' = <[i := Busy b (body (data s) h ++ p)]> (threads s) →
    main s' = main s → ran s' = ran s ++ [h] → out s' = out s → prints_account s s') as Hstart.
  { intros s1 b p h Hl H1 H2 H3 H4.
    apply (thread_prints s s1 i t _ [] [h] Ht H1 H2 H3); [by rewrite print_nil|].
    intros g. rewrite Hl. cbn. rewrite app_nil_r, Hcode, prints_app, sum_list_with_app. lia. }
  destruct t as [| |b p|]; [| | |done].
  - intros [= <-]. apply (thread_prints s _ i Before Idle (hello i) [] Ht); cbn; try done.
    all: first [by rewrite app_nil_r|intros g; lia].
  - assert (∀ s', threads s' = <[i := Gone]> (threads s) → main s' = main s → ran s' = ran s →
      out s' = print (Some i) (bye i) (out s) → prints_account s s') as Hbye.
    { intros s1 H1 H2 H3 H4. apply (thread_prints s s1 i Idle Gone (bye i) [] Ht); cbn; try done. by rewrite app_nil_r. }
    destruct (stopped s); [by intros [= <-]; apply Hbye|].
    destruct (queue s) as [|[[] h] q].
    + destruct (out_of_work s); [|done]. intros [= <-]. by apply Hbye.
    + destruct (locked s); intros [= <-].
      * apply (Hsame _ Idle); cbn; try done. by rewrite list_insert_id.
      * apply (Hstart _ true [] h); cbn; rewrite ?app_nil_r; auto.
    + intros [= <-]. apply (Hstart _ false [] h); cbn; rewrite ?app_nil_r; auto.
  - destruct p as [|a p].
    { destruct b; [destruct (waiting s) as [|h w]|]; intros [= <-].
      - apply (Hsame _ Idle); cbn; try done; intros g; unfold prints; cbn; lia.
      - apply (Hstart _ true [] h); cbn; rewrite ?app_nil_r; auto.
      - apply (Hsame _ Idle); cbn; try done; intros g; unfold prints; cbn; lia. }
    assert (∀ s1, act (Some i) a s = Some s1 → prints_account s (set_thread i (Busy b p) s1)) as Hact.
    { intros s1 Ha. pose proof (act_out _ _ _ _ Ha) as Ho. apply act_effect in Ha as (q & tm & H1 & H2 & H3 & _).
      apply (thread_prints s _ i _ (Busy b p) (prints [a]) [] Ht).
      - cbn. by rewrite H3.
      - done.
      - cbn. by rewrite H2, app_nil_r.
      - done.
      - intros g. cbn [lines_left]. rewrite (prints_cons a p). unfold prints at 1. destruct a; cbn; lia. }
    destruct a; try done; try (cbn [fmap option_fmap option_map act]; intros [= <-]; by apply Hact).
    intros [= <-]. by apply (Hstart _ b p h).
Qed.

Lemma main_step_prints s s' : main_step s = Some s' → prints_account s s'.
Proof.
  unfold main_step. destruct (main s) as [|a p] eqn:Hm; [done|].
  assert (∀ s1, ran s1 = ran s → threads s1 = threads s → main s1 = p → out s1 = print None (prints [a]) (out s) →
    prints_account s s1) as Hgo.
  { intros s1 H1 H2 H3 H4. exists []. rewrite app_nil_r. split; [done|]. intros g. unfold to_print.
    rewrite H2, H3, H4, Hm, print_weight, (prints_cons a p). unfold prints at 1. destruct a; cbn; lia. }
  assert (∀ s1, act None a s = Some s1 → prints_account s (set_main p s1)) as Hact.
  { intros s1 Ha. pose proof (act_out _ _ _ _ Ha) as Ho. apply act_effect in Ha as (q & tm & H1 & H2 & H3 & _).
    by apply Hgo. }
  destruct a; try (cbn [fmap option_fmap option_map act]; intros [= <-]; by apply Hact).
  - intros [= <-]. apply Hgo; cbn; rewrite ?print_nil; done.
  - destruct (forallb gone (threads s)); [|done]. intros [= <-]. apply Hgo; cbn; rewrite ?print_nil; done.
Qed.

Lemma step_prints s s' : service_step s s' → prints_account s s'.
Proof.
  intros [[|i|k] He]; cbn in He; [by apply main_step_prints|by apply (thread_step_prints i)|].
  unfold fire in He. destruct (timers s !! k) as [x|]; [|done]. injection He as <-.
  exists []. rewrite app_nil_r. split; [done|]. intros g. change (sum g ([] ≫= λ h, prints (code h))) with 0.
  by rewrite Nat.add_0_r.
Qed.

Lemma run_accounts s s' :
  rtc service_step s s' →
  (∀ f, sum f (ran s') + to_start f s' = sum f (ran s) + to_start f s) ∧ measure s' ≤ measure s ∧
  ∃ h, ran s' = ran s ++ h ∧ ∀ g, to_print g s' = to_print g s + sum g (h ≫= λ h, prints (code h)).
Proof.
  induction 1 as [s|s s1 s' Hs _ (IH1 & IH2 & h & IH3 & IH4)].
  - split_all; [done|lia|]. exists []. rewrite app_nil_r. split; [done|]. intros g.
    change (sum g ([] ≫= λ h, prints (code h))) with 0. lia.
  - destruct (step_accounts s s1 Hs) as [Hf Hm]. destruct (step_prints s s1 Hs) as (h' & Hr & Hg).
    split_all.
    + intros f. by rewrite IH1, Hf.
    + lia.
    + exists (h' ++ h). rewrite IH3, Hr, app_assoc. split; [done|]. intros g.
      rewrite IH4, Hg, bind_app, sum_list_with_app. lia.
Qed.

(** Every run is finite: no run from [s] is longer than the measure of [s]. *)
Lemma runs_finite k s s' : nsteps service_step k s s' → k + measure s' ≤ measure s.
Proof.
  induction 1 as [s|k s s1 s' Hs _ IH]; [lia|]. destruct (step_accounts s s1 Hs) as [_ Hm]. lia.
Qed.

Lemma indexed_sum_replicate g n k :
  indexed_sum (lines_left g) k (replicate n Before) = sum g (seq k n ≫= λ i, hello i ++ bye i).
Proof.
  revert k. induction n as [|n IH]; intros k; cbn; [done|]. by rewrite IH, !sum_list_with_app.
Qed.
Lemma indexed_sum_gone g k l : (∀ t, t ∈ l → t = Gone) → indexed_sum (lines_left g) k l = 0.
Proof.
  revert k. induction l as [|t l IH]; intros k Hl; cbn; [done|]. rewrite (Hl t) by left. cbn.
  apply IH. intros u Hu. apply Hl. by right.
Qed.

(** What a run that is over has done: every handler that was handed on, and nothing else,
    has run, once each time; and what is printed is what [main], the threads and these
    handlers print. *)
Lemma run_over `{!EqDecision H, !EqDecision L} n p d s :
  handlers_ok → 0 < n → main_ok true p → rtc service_step (init n true p d) s → stuck s →
  (main s = [] ∧ ∀ t, t ∈ threads s → t = Gone) ∧
  ran s ≡ₚ (p ≫= spawns) ≫= tree ∧
  (out s).*2 ≡ₚ prints p ++ (seq 0 n ≫= λ i, hello i ++ bye i) ++ (ran s ≫= λ h, prints (code h)).
Proof.
  intros Hb Hn Hp Hr Hs.
  assert (service_ok s) as Hok.
  { apply (reachable_service_ok Hb n true p d); [done| |done]. by destruct Hp as ([|] & -> & _). }
  destruct (stuck_finished s Hok Hs) as [Hm Hall].
  destruct (run_accounts _ _ Hr) as (Hf & _ & h & Hh & Hg). cbn in Hh. subst h.
  assert (threads s ≠ []) as Hne.
  { intros Ht. pose proof (run_threads _ _ _ _ _ Hr) as Hl. rewrite Ht in Hl. cbn in Hl. lia. }
  destruct (finished_empty s Hok Hne Hall) as (Hq & Ht & Hw & _).
  split; [done|]. split.
  - apply sum_permutation. intros f. specialize (Hf f). unfold to_start in Hf.
    rewrite Hq, Ht, Hw, Hm in Hf. cbn in Hf.
    rewrite (proj2 (sum_zero (thread_weight f) (threads s))) in Hf by (intros t Hin; by rewrite (Hall t Hin)).
    rewrite (proj2 (sum_zero (thread_weight f) (replicate n Before))) in Hf
      by (intros t [-> _]%elem_of_replicate; done).
    rewrite sum_bind. unfold code_weight in Hf. cbn in Hf. unfold tree_weight in Hf. lia.
  - apply sum_permutation. intros g. specialize (Hg g). unfold to_print in Hg. rewrite Hm in Hg. cbn in Hg.
    rewrite indexed_sum_gone, indexed_sum_replicate in Hg by done.
    change (prints []) with (@nil L) in Hg. cbn in Hg. rewrite !sum_list_with_app. lia.
Qed.
End static.

End service.
Arguments action : clear implicits.
Arguments thread : clear implicits.
Arguments service : clear implicits.
