(* ===== verification/Executors.v ===== *)
(** The programs that show [post], [dispatch] and strands of Boost.Asio, over [IoService]:
    [post.cpp], [post2.cpp], [dispatch.cpp] and [strand.cpp] of [src/boost/boost_asio],
    [io_service_basics.cpp] and [strand_basics.cpp] of
    [src/books/asio/chapter01_core_concepts_and_functionalities/cores],
    [async_timer_with_stand.cpp] of [src/books/asio/chapter03_timer] and
    [src/boost/deadline_timer.cpp].

    A line is printed at once: the programs hold a lock, or the text is one insertion.
    Threads may enter [run] from the start. Sleeping has no effect on the state. *)

From S2P Require Import Prelude IoService.

(** A thread of a program without data. *)
Abbreviation steps code hello bye := (service_step (λ (_ : unit) h, code h) hello bye).

(** * post.cpp and post2.cpp *)

Module Post.
(** [fact] on [size_t]. *)
Fixpoint fact (n : nat) : Z :=
  match n with
  | O => 0
  | S O => 1
  | S m => u64 (Z.of_nat n * fact m)
  end.

(** What both programs print: [Number] is the counter of a thread, which [post2.cpp] follows
    with a dot; [End] is the last line of a thread there. *)
Inductive line : Type := Start | Number (counter : nat) | End | Calculating (n : nat) | Result (n : nat) (f : Z).
#[global] Instance line_eq_dec : EqDecision line. Proof. solve_decision. Defined.

(** [getFactorial], [CalculateFactorial]. *)
Definition getFactorial (n : nat) : list (action nat line unit) := [Print (Calculating n); Print (Result n (fact n))].
(** [workFunc] of [post.cpp], with the counters 0 to 4. *)
Definition workFunc_hello (i : nat) : list line := [Number i].
Definition workFunc_bye (i : nat) : list line := [Number i].
(** [WorkerThread] of [post2.cpp], with the counters 1 to 5. *)
Definition WorkerThread_hello (i : nat) : list line := [Number (S i)].
Definition WorkerThread_bye (i : nat) : list line := [End].

Definition main_code : list (action nat line unit) :=
  [Print Start; Post false 5; Post false 6; Post false 7; Reset; Join].

(** n! from 1 to 20, the last that fits. *)
Lemma fact_spec n : 1 ≤ n ≤ 20 → fact n = foldr Z.mul 1%Z (Z.of_nat <$> seq 1 n).
Proof. intros Hn. do 21 (destruct n as [|n]; [try lia; by vm_compute|]). lia. Qed.

Lemma post_main_ok : main_ok true main_code.
Proof. by exists [Print Start; Post false 5; Post false 6; Post false 7]. Qed.

Section runs.
Context (hello bye : nat → list line).

Lemma post_over s :
  rtc (steps getFactorial hello bye) (init 5 true main_code ()) s →
  (∀ k s', nsteps (steps getFactorial hello bye) k s s' → k ≤ measure getFactorial (λ h, [h]) s) ∧
  (stuck (λ _ h, getFactorial h) hello bye s →
   main s = [] ∧ ran s ≡ₚ [5; 6; 7] ∧
   (out s).*2 ≡ₚ Start :: (seq 0 5 ≫= λ i, hello i ++ bye i) ++
     [Calculating 5; Result 5 120; Calculating 6; Result 6 720; Calculating 7; Result 7 5040]).
Proof.
  intros Hr. split.
  - intros k s' Hk. pose proof (runs_finite (λ (_ : unit) h, getFactorial h) hello bye getFactorial
      (λ _ _, eq_refl) (λ h, [h]) (λ _, eq_refl) k s s' Hk). lia.
  - intros Hs. destruct (run_over (λ (_ : unit) h, getFactorial h) hello bye getFactorial (λ _ _, eq_refl)
      (λ h, [h]) (λ _, eq_refl) 5 main_code () s) as ((Hm & _) & Hran & Hout);
      [done|lia|apply post_main_ok|done|done|].
    cbn in Hran. split_all; [done|done|]. rewrite Hout. cbn [prints main_code omap list_omap app].
    f_equiv. f_equiv. by rewrite Hran.
Qed.
End runs.
End Post.

(** * io_service_basics.cpp *)

Module ServiceBasics.
(** [dispatch_handler] and [post_handler] with their count. A line is the number of the
    thread that prints it; here it is named by the handler that prints it. *)
Inductive handler : Type := DispatchHandler (count : nat) | PostHandler (count : nat).
#[global] Instance handler_eq_dec : EqDecision handler. Proof. solve_decision. Defined.
Inductive line : Type := ThreadId (h : handler) | MainThread | TimeWithDispatch | TimeWithPost.
#[global] Instance line_eq_dec : EqDecision line. Proof. solve_decision. Defined.

Definition code (h : handler) : list (action handler line unit) :=
  Print (ThreadId h) ::
  match h with
  | DispatchHandler (S count) => [Dispatch (DispatchHandler count); Dispatch (DispatchHandler count)]
  | PostHandler (S count) => [Post false (PostHandler count); Post false (PostHandler count)]
  | _ => []
  end.
Definition nothing (i : nat) : list line := [].

Definition main_code : list (action handler line unit) :=
  [Print MainThread; Dispatch (DispatchHandler 3); Print TimeWithDispatch;
   Post false (PostHandler 3); Print TimeWithPost; Reset; Join].

(** All calls that come from a handler. *)
Fixpoint calls (make : nat → handler) (count : nat) : list handler :=
  make count :: match count with S count => calls make count ++ calls make count | O => [] end.
Definition tree (h : handler) : list handler :=
  match h with DispatchHandler n => calls DispatchHandler n | PostHandler n => calls PostHandler n end.

Lemma basics_tree_eq h : tree h = h :: ((code h ≫= spawns) ≫= tree).
Proof. destruct h as [[|n]|[|n]]; cbn; rewrite ?app_nil_r; done. Qed.

Lemma length_calls make n : length (calls make n) = 2 ^ S n - 1.
Proof.
  induction n as [|n IH]; [done|]. cbn [calls length]. rewrite length_app, IH.
  cbn [Nat.pow]. pose proof (Nat.pow_nonzero 2 n). lia.
Qed.

Lemma basics_main_ok : main_ok true main_code.
Proof.
  by exists [Print MainThread; Dispatch (DispatchHandler 3); Print TimeWithDispatch;
    Post false (PostHandler 3); Print TimeWithPost].
Qed.

Definition is_dispatch (h : handler) : bool := match h with DispatchHandler _ => true | _ => false end.
Definition dispatch_line (l : line) : bool := match l with ThreadId h => is_dispatch h | _ => false end.

(** [io_service_basics.cpp] with any number of threads. Every run is finite and ends with
    [main] back from joining them; each of the two handlers has then run fifteen
    times; and while it runs, all the lines of the dispatched one come from one
    thread, since [dispatch] calls at once inside [run]. *)
Theorem service_basics n s :
  0 < n → rtc (steps code nothing nothing) (init n true main_code ()) s →
  (∀ k s', nsteps (steps code nothing nothing) k s s' → k ≤ measure code tree s) ∧
  (∃ i, ∀ x l, (x, l) ∈ out s → dispatch_line l = true → x = Some i) ∧
  (stuck (λ _ h, code h) nothing nothing s →
   main s = [] ∧ ran s ≡ₚ calls DispatchHandler 3 ++ calls PostHandler 3 ∧ length (ran s) = 30 ∧
   (out s).*2 ≡ₚ [MainThread; TimeWithDispatch; TimeWithPost] ++ (ThreadId <$> ran s)).
Proof.
  intros Hn Hr. split_all.
  - intros k s' Hk. pose proof (runs_finite (λ (_ : unit) h, code h) nothing nothing code
      (λ _ _, eq_refl) tree basics_tree_eq k s s' Hk). lia.
  - apply (one_thread (λ (_ : unit) h, code h) nothing nothing is_dispatch dispatch_line) with n main_code ();
      [by intros _ [[|?]|[|?]] ?|by intros _ [[|?]|[|?]] ?|done|cbn; lia| |done].
    intros l. cbn. set_solver.
  - intros Hs. destruct (run_over (λ (_ : unit) h, code h) nothing nothing code (λ _ _, eq_refl)
      tree basics_tree_eq n main_code () s) as ((Hm & _) & Hran & Hout);
      [by intros _ [[|?]|[|?]]|done|apply basics_main_ok|done|done|].
    cbn [main_code mbind list_bind spawns app] in Hran. rewrite app_nil_r in Hran.
    split_all; [done|done|by rewrite Hran|].
    rewrite Hout. cbn [prints main_code omap list_omap app]. do 3 f_equiv.
    replace (seq 0 n ≫= λ i, nothing i ++ nothing i) with (@nil line).
    + cbn. clear. induction (ran s) as [|h l IH]; [done|]. cbn [mbind list_bind fmap list_fmap].
      rewrite IH. by destruct h as [[|?]|[|?]].
    + clear. generalize 0. induction n as [|n IH]; intros k; [done|]. cbn. apply IH.
Qed.
End ServiceBasics.

(** * strand.cpp *)

Module StrandProgram.
(** [workFunc] and [print]. *)
Inductive line : Type := StartThread (counter : nat) | StopThread (counter : nat) | Number (n : nat).
#[global] Instance line_eq_dec : EqDecision line. Proof. solve_decision. Defined.
Definition print (number : nat) : list (action nat line unit) := [Print (Number number)].
Definition workFunc_hello (i : nat) : list line := [StartThread i].
Definition workFunc_bye (i : nat) : list line := [StopThread i].

(** [main]; what is wrapped by the strand is posted through it. *)
Definition main_code : list (action nat line unit) :=
  [Post true 1; Post true 2; Post false 3; Post false 4; Post false 5; Post false 6;
   Post true 7; Post true 8; Post true 9; Post true 10; Reset; Join].

Abbreviation strand_steps := (steps print workFunc_hello workFunc_bye).

Lemma strand_main_ok : main_ok true main_code.
Proof.
  by exists [Post true 1; Post true 2; Post false 3; Post false 4; Post false 5; Post false 6;
    Post true 7; Post true 8; Post true 9; Post true 10].
Qed.

(** [strand.cpp] with any number of threads. Of the numbers that go through the strand one
    is printed at a time, and they are taken in the order of their posts; every run is
    finite, and at its end each of the ten numbers has been printed once and every thread
    has said that it starts and stops. *)
Theorem strand_program n s :
  0 < n → rtc strand_steps (init n true main_code ()) s →
  sum in_strand (threads s) ≤ 1 ∧ serial s `prefix_of` [1; 2; 7; 8; 9; 10] ∧
  (∀ k s', nsteps strand_steps k s s' → k ≤ measure print (λ h, [h]) s) ∧
  (stuck (λ _ h, print h) workFunc_hello workFunc_bye s →
   main s = [] ∧ serial s = [1; 2; 7; 8; 9; 10] ∧
   (out s).*2 ≡ₚ (seq 0 n ≫= λ i, [StartThread i; StopThread i]) ++ (Number <$> seq 1 10)).
Proof.
  intros Hn Hr.
  assert (service_ok s) as Hok.
  { by apply (reachable_service_ok (λ (_ : unit) h, print h) workFunc_hello workFunc_bye) with n true main_code ();
      [|apply strand_main_ok|..]. }
  destruct (serial_order (λ (_ : unit) h, print h) workFunc_hello workFunc_bye (λ _ _, eq_refl) n main_code () s)
    as [Hpre Hend]; [done|apply strand_main_ok|done|done|].
  split_all; [|done| |].
  - rewrite (ok_strand _ Hok). destruct (locked s); lia.
  - intros k s' Hk. pose proof (runs_finite (λ (_ : unit) h, print h) workFunc_hello workFunc_bye print
      (λ _ _, eq_refl) (λ h, [h]) (λ _, eq_refl) k s s' Hk). lia.
  - intros Hs. destruct (run_over (λ (_ : unit) h, print h) workFunc_hello workFunc_bye print (λ _ _, eq_refl)
      (λ h, [h]) (λ _, eq_refl) n main_code () s) as ((Hm & Hall) & Hran & Hout);
      [done|done|apply strand_main_ok|done|done|].
    destruct (finished_empty s Hok) as (Hq & _ & Hw & _); [|done|].
    + intros Ht. assert (length (threads s) = n) as Hl by exact (run_threads _ _ _ _ _ _ _ _ Hr).
      rewrite Ht in Hl. cbn in Hl. lia.
    + split_all; [done|by apply Hend|]. rewrite Hout. cbn [prints main_code omap list_omap app].
      apply Permutation_app; [done|]. by rewrite Hran.
Qed.
End StrandProgram.

(** * strand_basics.cpp *)

Module StrandBasics.
(** [handler] with its count; it posts three of the next count through the strand. *)
Definition handler (count : nat) : list (action nat nat unit) :=
  Print count :: match count with S count => [Post true count; Post true count; Post true count] | O => [] end.
Definition nothing (i : nat) : list nat := [].
Definition main_code : list (action nat nat unit) := [Post false 3; Reset; Join].

Fixpoint tree (count : nat) : list nat :=
  count :: match count with S c => tree c ++ tree c ++ tree c | O => [] end.
Lemma strand_basics_tree_eq h : tree h = h :: ((handler h ≫= spawns) ≫= tree).
Proof. destruct h as [|n]; cbn; rewrite ?app_nil_r; done. Qed.
Lemma strand_basics_main_ok : main_ok true main_code.
Proof. by exists [Post false 3]. Qed.

(** The handler is called forty times, never twice at a time from the strand, and the
    program ends. *)
Lemma strand_basics n s :
  0 < n → rtc (steps handler nothing nothing) (init n true main_code ()) s →
  sum in_strand (threads s) ≤ 1 ∧
  (∀ k s', nsteps (steps handler nothing nothing) k s s' → k ≤ measure handler tree s) ∧
  (stuck (λ _ h, handler h) nothing nothing s → main s = [] ∧ ran s ≡ₚ tree 3 ∧ length (ran s) = 40).
Proof.
  intros Hn Hr. assert (handlers_ok (λ (_ : unit) h, handler h)) as Hb by (by intros _ [|?]).
  assert (service_ok s) as Hok.
  { by apply (reachable_service_ok (λ (_ : unit) h, handler h) nothing nothing) with n true main_code ();
      [|apply strand_basics_main_ok|..]. }
  split_all.
  - rewrite (ok_strand _ Hok). destruct (locked s); lia.
  - intros k s' Hk. pose proof (runs_finite (λ (_ : unit) h, handler h) nothing nothing handler
      (λ _ _, eq_refl) tree strand_basics_tree_eq k s s' Hk). lia.
  - intros Hs. destruct (run_over (λ (_ : unit) h, handler h) nothing nothing handler (λ _ _, eq_refl)
      tree strand_basics_tree_eq n main_code () s) as ((Hm & _) & Hran & _); [done|done|apply strand_basics_main_ok|done|done|].
    cbn [main_code mbind list_bind spawns app] in Hran. rewrite app_nil_r in Hran.
    split_all; [done|done|by rewrite Hran].
Qed.
End StrandBasics.

(** * dispatch.cpp *)

Module DispatchProgram.
(** [run], [dispatch] and [post]. *)
Inductive handler : Type := Run | DispatchI (i : nat) | PostI (i : nat).
#[global] Instance handler_eq_dec : EqDecision handler. Proof. solve_decision. Defined.
Inductive line : Type := StartThread | StopThread | Dispatched (i : nat) | Posted (i : nat).
#[global] Instance line_eq_dec : EqDecision line. Proof. solve_decision. Defined.

Definition code (h : handler) : list (action handler line unit) :=
  match h with
  | Run => seq 0 5 ≫= λ i, [Dispatch (DispatchI i); Post false (PostI i)]
  | DispatchI i => [Print (Dispatched i)]
  | PostI i => [Print (Posted i)]
  end.
Definition workFunc_hello (i : nat) : list line := [StartThread].
Definition workFunc_bye (i : nat) : list line := [StopThread].
Definition main_code : list (action handler line unit) := [Post false Run; Reset; Join].

Definition reach : list (service handler line unit) :=
  states (λ (_ : unit) h, code h) workFunc_hello workFunc_bye 60 [init 1 true main_code ()] [init 1 true main_code ()].

Definition expected : list line :=
  StartThread :: (Dispatched <$> seq 0 5) ++ (Posted <$> seq 0 5) ++ [StopThread].

Definition state_ok (s : service handler line unit) : bool :=
  bool_decide ((out s).*2 `prefix_of` expected) &&
  implb (forallb gone (threads s)) (bool_decide ((out s).*2 = expected)).

Lemma reach_ok :
  closed_set (λ (_ : unit) h, code h) workFunc_hello workFunc_bye reach && forallb state_ok reach = true.
Proof. vm_compute. reflexivity. Qed.

(** The output of [dispatch.cpp] is determined: whatever the timing of [main] and the thread,
    it is a prefix of one list, in which all five dispatched calls come before the five
    that were posted between them; when the thread is back, it is the whole list. *)
Theorem dispatch_before_post s :
  rtc (steps code workFunc_hello workFunc_bye) (init 1 true main_code ()) s →
  (out s).*2 `prefix_of` expected ∧ (forallb gone (threads s) = true → (out s).*2 = expected).
Proof.
  intros Hr. pose proof reach_ok as [Hc Hok]%andb_true_iff.
  assert (s ∈ reach) as Hin.
  { apply (closed_set_sound (λ (_ : unit) h, code h) workFunc_hello workFunc_bye reach) with (init 1 true main_code ());
      [done|by vm_compute; left|done]. }
  rewrite forallb_forall in Hok. apply list_elem_of_In, Hok, andb_true_iff in Hin as [Hp He].
  split; [by apply bool_decide_eq_true in Hp|]. intros Hg. rewrite Hg in He. by apply bool_decide_eq_true in He.
Qed.
End DispatchProgram.

(** * async_timer_with_stand.cpp *)

Module Printer.
(** [Printer::print] with the index of its timer; a line is "Timer index: count". The data
    are [count], which only the handlers, all of the strand, read and write. *)
Definition print (count index : nat) : list (action nat (nat * nat) nat) :=
  if count <? 10 then [Print (index, count); Put (S count); Wait true index] else [].
Definition nothing (i : nat) : list (nat * nat) := [].

(** The constructor starts each of the [timer_count] timers; then [main] of the program. *)
Definition main_code (timer_count : nat) : list (action nat (nat * nat) nat) :=
  map (Wait true) (seq 0 timer_count) ++ [Reset; Join].

Abbreviation printer_step := (service_step print nothing nothing).
Abbreviation printer := (service nat (nat * nat) nat).

(** Where a handler is in [print], with the count it has seen. *)
Inductive phase : Type := Printing | Counting | Waiting | Done.
Definition rest (ph : phase) (index count : nat) : list (action nat (nat * nat) nat) :=
  match ph with
  | Printing => [Print (index, count); Put (S count); Wait true index]
  | Counting => [Put (S count); Wait true index]
  | Waiting => [Wait true index]
  | Done => []
  end.

(** The data and the lines printed fit the place of the handler that runs, if one does. *)
Definition at_phase (s : printer) (p : list (action nat (nat * nat) nat)) : Prop :=
  ∃ ph index count, p = rest ph index count ∧ count < 10 ∧
    match ph with
    | Printing => data s = count ∧ length (out s) = count
    | Counting => data s = count ∧ length (out s) = S count
    | Waiting | Done => data s = length (out s)
    end.

(** A timer that goes on: its handler waits, is queued or has still to wait again. *)
Definition thread_token (t : thread nat (nat * nat) nat) : nat :=
  match t with Busy _ (_ :: _) => 1 | _ => 0 end.
Definition starts (p : list (action nat (nat * nat) nat)) : nat :=
  sum (λ a, match a with Wait _ _ => 1 | _ => 0 end) p.
Definition tokens (s : printer) : nat :=
  length (queue s) + length (timers s) + length (waiting s) + sum thread_token (threads s) + starts (main s).

(** The handlers that run, with whether they are of the strand. *)
Definition code_of (t : thread nat (nat * nat) nat) : list (bool * list (action nat (nat * nat) nat)) :=
  match t with Busy b p => [(b, p)] | _ => [] end.
Definition running (l : list (thread nat (nat * nat) nat)) := l ≫= code_of.

Record printer_ok (m : nat) (s : printer) : Prop := {
  printer_service : service_ok s;
  printer_counts : (out s).*2.*2 = seq 0 (length (out s));
  printer_most : length (out s) ≤ 10;
  printer_run :
    running (threads s) = [] ∧ data s = length (out s) ∨
    ∃ p, running (threads s) = [(true, p)] ∧ at_phase s p;
  printer_queue : Forall (λ x, x.1 = true) (queue s ++ timers s);
  printer_main : Forall (λ a, match a with Wait b _ => b = true | Reset | Join => True | _ => False end) (main s);
  printer_tokens : tokens s = m ∨ length (out s) = 10 }.

Lemma running_insert l i t t' :
  l !! i = Some t → ∃ r, running l ≡ₚ code_of t ++ r ∧ running (<[i := t']> l) ≡ₚ code_of t' ++ r.
Proof.
  intros Ht. exists (running (take i l) ++ running (drop (S i) l)). unfold running.
  pose proof (lookup_lt_Some _ _ _ Ht).
  rewrite insert_take_drop by done. rewrite <- (take_drop_middle l i t Ht) at 1.
  rewrite !bind_app, !bind_cons. split; solve_Permutation.
Qed.

Lemma running_at l i b p x :
  l !! i = Some (Busy b p) → running l = [x] → x = (b, p) ∧ ∀ t', running (<[i := t']> l) = code_of t'.
Proof.
  intros Ht Hx.
  assert (∀ t', ∃ r, running l ≡ₚ (b, p) :: r ∧ running (<[i := t']> l) ≡ₚ code_of t' ++ r) as H
    by (intros t'; apply (running_insert l i _ t' Ht)).
  assert (∀ r, [x] ≡ₚ (b, p) :: r → x = (b, p) ∧ r = []) as Hone.
  { intros r Hr%Permutation_length_1_inv. by simplify_eq. }
  rewrite Hx in H. split.
  - destruct (H Idle) as (r & Hr & _). by apply Hone in Hr as [-> _].
  - intros t'. destruct (H t') as (r & Hr & Hr'). apply Hone in Hr as [_ ->]. rewrite app_nil_r in Hr'.
    destruct t'; cbn in *; [by apply Permutation_nil_r in Hr'..|by apply Permutation_singleton_r in Hr'|by apply Permutation_nil_r in Hr'].
Qed.

Lemma running_none l i t t' :
  l !! i = Some t → code_of t = [] → running l = [] → running (<[i := t']> l) = code_of t'.
Proof.
  intros Ht Hc Hl. destruct (running_insert l i t t' Ht) as (r & Hr & Hr'). rewrite Hc, Hl in Hr.
  apply Permutation_nil_l in Hr. simpl in Hr. subst r. rewrite app_nil_r in Hr'.
  destruct t'; cbn in *; [by apply Permutation_nil_r in Hr'..|by apply Permutation_singleton_r in Hr'|by apply Permutation_nil_r in Hr'].
Qed.

Lemma running_same l i t t' x :
  l !! i = Some t → code_of t = [] → code_of t' = [] → running l = [x] → running (<[i := t']> l) = [x].
Proof.
  intros Ht Hc Hc' Hl. destruct (running_insert l i t t' Ht) as (r & Hr & Hr'). rewrite Hc, Hl in Hr.
  rewrite Hc' in Hr'. cbn in *. rewrite <- Hr in Hr'. by apply Permutation_singleton_r in Hr'.
Qed.

Lemma running_strand l : sum in_strand l = sum (λ x : bool * _, if x.1 then 1 else 0) (running l).
Proof.
  induction l as [|t l IH]; [done|]. unfold running in *. rewrite bind_cons, sum_list_with_app, <- IH.
  by destruct t as [| |[] p|].
Qed.

(** What is left to do: ten counts that are not yet begun, and the way of each handler. *)
Definition begun (t : thread nat (nat * nat) nat) : nat :=
  match t with Busy _ (Print _ :: _) => 1 | _ => 0 end.
Definition action_cost (a : action nat (nat * nat) nat) : nat := match a with Wait _ _ => 8 | _ => 1 end.
Definition thread_cost (t : thread nat (nat * nat) nat) : nat :=
  match t with Before => 2 | Idle => 1 | Busy _ p => 2 + sum action_cost p | Gone => 0 end.
Definition cost (s : printer) : nat :=
  20 * (10 - (length (out s) + sum begun (threads s))) +
  6 * length (queue s) + 7 * length (timers s) + 5 * length (waiting s) +
  sum thread_cost (threads s) + sum action_cost (main s).

Lemma print_body_ok : handlers_ok print.
Proof. intros d h. unfold print. by destruct (d <? 10). Qed.

(** The facts about a state that do not mention the pool as a whole. *)
Definition local_ok (m : nat) (s : printer) : Prop :=
  (out s).*2.*2 = seq 0 (length (out s)) ∧ length (out s) ≤ 10 ∧
  (running (threads s) = [] ∧ data s = length (out s) ∨
   ∃ p, running (threads s) = [(true, p)] ∧ at_phase s p) ∧
  Forall (λ x, x.1 = true) (queue s ++ timers s) ∧
  Forall (λ a, match a with Wait b _ => b = true | Reset | Join => True | _ => False end) (main s) ∧
  (tokens s = m ∨ length (out s) = 10).
Lemma printer_local m s : printer_ok m s ↔ service_ok s ∧ local_ok m s.
Proof. split; [by intros []|by intros (? & ? & ? & ? & ? & ? & ?)]. Qed.

(** A thread outside handlers changes, and a handler may move on to wait. *)
Lemma idle_change m s s' i t t' :
  printer_ok m s → threads s !! i = Some t → threads s' = <[i := t']> (threads s) →
  code_of t = [] → code_of t' = [] → thread_cost t' + 6 * length (queue s') + 5 * length (waiting s') <
    thread_cost t + 6 * length (queue s) + 5 * length (waiting s) →
  main s' = main s → out s' = out s → data s' = data s → timers s' = timers s →
  length (queue s') + length (waiting s') = length (queue s) + length (waiting s) →
  Forall (λ x, x.1 = true) (queue s') → local_ok m s' ∧ cost s' < cost s.
Proof.
  intros Hp Ht Hth Hc Hc' Hcost Hm Ho Hd Htm Hqw Hq.
  assert (thread_token t = 0 ∧ thread_token t' = 0 ∧ begun t = 0 ∧ begun t' = 0) as (? & ? & ? & ?)
    by (by destruct t, t').
  split.
  - unfold local_ok. rewrite Ho, Hm. split_all; try apply Hp.
    + destruct (printer_run _ _ Hp) as [[Hr ?]|(p & Hr & Hph)]; rewrite Hth; [left|right; exists p].
      * split; [|congruence]. by rewrite (running_none _ i t t' Ht Hc Hr).
      * split; [by apply (running_same _ i t t')|]. unfold at_phase in *. by rewrite Hd, Ho.
    + rewrite Htm. pose proof (printer_queue _ _ Hp) as HQ. rewrite Forall_app in *. by destruct HQ.
    + destruct (printer_tokens _ _ Hp) as [Htok|]; [left|by right]. unfold tokens in *. rewrite Hth, Hm, Htm.
      pose proof (sum_insert thread_token _ i t t' Ht). lia.
  - unfold cost. rewrite Hth, Hm, Ho, Htm. pose proof (sum_insert thread_cost _ i t t' Ht).
    pose proof (sum_insert begun _ i t t' Ht). lia.
Qed.

(** A thread begins [print], when no other is in it. *)
Lemma print_begins m s s' i t h :
  printer_ok m s → threads s !! i = Some t → threads s' = <[i := Busy true (print (data s) h)]> (threads s) →
  t = Idle ∨ t = Busy true [] → (t = Idle → running (threads s) = []) →
  main s' = main s → out s' = out s → data s' = data s → timers s' = timers s →
  S (length (queue s') + length (waiting s')) = length (queue s) + length (waiting s) →
  6 * length (queue s') + 5 * length (waiting s') + 5 ≤ 6 * length (queue s) + 5 * length (waiting s) →
  Forall (λ x, x.1 = true) (queue s') → (t = Idle → length (queue s') < length (queue s)) →
  local_ok m s' ∧ cost s' < cost s.
Proof.
  intros Hp Ht Hth Hcase Hidle Hm Ho Hd Htm Hqw Hw Hq Hlt.
  assert (running (threads s') = [(true, print (data s) h)] ∧ data s = length (out s)) as [Hrun Hdata].
  { rewrite Hth. destruct Hcase as [->| ->].
    - specialize (Hidle eq_refl). split; [by rewrite (running_none _ i Idle _ Ht eq_refl Hidle)|].
      destruct (printer_run _ _ Hp) as [[_ ?]|(p & Hr & _)]; [done|congruence].
    - destruct (printer_run _ _ Hp) as [[Hr _]|(p & Hr & ph & ix & c & -> & _ & Hph)].
      + apply list_elem_of_lookup_2 in Ht. exfalso. assert ((true, []) ∈ running (threads s)) as Hin; [|by rewrite Hr in Hin; apply elem_of_nil in Hin].
        apply list_elem_of_bind. exists (Busy true []). split; [by left|done].
      + destruct (running_at _ i true [] _ Ht Hr) as [Heq ->]. split; [done|]. by destruct ph. }
  pose proof (printer_most _ _ Hp) as Hmost.
  pose proof (sum_insert thread_token _ i t (Busy true (print (data s) h)) Ht) as H1.
  pose proof (sum_insert thread_cost _ i t (Busy true (print (data s) h)) Ht) as H2.
  pose proof (sum_insert begun _ i t (Busy true (print (data s) h)) Ht) as H3.
  assert (thread_token t = 0 ∧ begun t = 0 ∧ 1 ≤ thread_cost t) as (Ht1 & Ht2 & Ht3) by (by destruct Hcase as [->| ->]; cbn; split_all; lia).
  assert (∀ t', t' ∈ threads s → begun t' = 0) as Hbegun.
  { intros t' Hin. destruct t' as [| |b p|]; try done.
    assert ((b, p) ∈ running (threads s)) as Hrp by (apply list_elem_of_bind; exists (Busy b p); split; [by left|done]).
    destruct Hcase as [->| ->]; [by rewrite Hidle in Hrp; [apply elem_of_nil in Hrp|]|].
    destruct (printer_run _ _ Hp) as [[Hr _]|(p' & Hr & _)]; rewrite Hr in Hrp; [by apply elem_of_nil in Hrp|].
    apply list_elem_of_singleton in Hrp. destruct (running_at _ i true [] _ Ht Hr) as [Heq _]. by simplify_eq. }
  pose proof (proj2 (sum_zero begun (threads s)) Hbegun) as Hb0.
  split.
  - unfold local_ok. rewrite Ho, Hm. split_all; try apply Hp.
    + right. eexists. split; [done|]. unfold at_phase, print. rewrite Hd, Ho. destruct (Nat.ltb_spec (data s) 10).
      * by exists Printing, h, (data s).
      * exists Done, 0, 0. split_all; [done|lia|done].
    + rewrite Htm. pose proof (printer_queue _ _ Hp) as HQ. rewrite Forall_app in *. by destruct HQ.
    + destruct (printer_tokens _ _ Hp) as [Htok|]; [|by right]. unfold print in *.
      destruct (Nat.ltb_spec (data s) 10); [left|right; lia]. unfold tokens in *. rewrite Hth, Hm, Htm.
      cbn in H1. lia.
  - unfold cost. rewrite Hth, Hm, Ho, Htm. unfold print in *.
    destruct Hcase as [-> | ->]; (destruct (Nat.ltb_spec (data s) 10); cbn in *; [|try specialize (Hlt eq_refl)]); lia.
Qed.

(** An action of the handler that runs, or its end without another that waits. *)
Lemma running_change m s s' i b p t' :
  printer_ok m s → threads s !! i = Some (Busy b p) → threads s' = <[i := t']> (threads s) →
  main s' = main s → queue s' = queue s → waiting s' = waiting s →
  (match t' with Busy b' p' => b' = b ∧ at_phase s' p' | _ => p = [] ∧ data s' = length (out s') end) →
  (out s').*2.*2 = seq 0 (length (out s')) → length (out s') ≤ 10 →
  Forall (λ x, x.1 = true) (timers s') →
  length (timers s') + thread_token t' = length (timers s) + thread_token (Busy b p) →
  20 * (10 - (length (out s') + begun t')) + 7 * length (timers s') + thread_cost t' <
  20 * (10 - (length (out s) + begun (Busy b p))) + 7 * length (timers s) + thread_cost (Busy b p) →
  begun t' = 0 → length (out s') = length (out s) + begun (Busy b p) → local_ok m s' ∧ cost s' < cost s.
Proof.
  intros Hp Ht Hth Hm Hq Hw Ht' Hc Hmost Htm Htok Hcost Hb0 Hcommit.
  pose proof (sum_insert thread_token _ i _ t' Ht) as H1.
  pose proof (sum_insert thread_cost _ i _ t' Ht) as H2. pose proof (sum_insert begun _ i _ t' Ht) as H3.
  assert ((b, p) ∈ running (threads s)) as Hrp.
  { apply list_elem_of_bind. exists (Busy b p). split; [by left|]. by apply list_elem_of_lookup_2 in Ht. }
  destruct (printer_run _ _ Hp) as [[Hr _]|(p0 & Hr & Hph)]; [by rewrite Hr in Hrp; apply elem_of_nil in Hrp|].
  destruct (running_at _ i b p _ Ht Hr) as [Heq Hrun]. injection Heq as <- <-.
  assert (sum begun (threads s) = begun (Busy true p0)) as Hb.
  { assert (sum begun (<[i := Idle]> (threads s)) = 0) as H0.
    { apply sum_zero. intros u Hu. destruct u as [| |b q|]; try done.
      assert ((b, q) ∈ running (<[i := Idle]> (threads s))) as Hin
        by (apply list_elem_of_bind; exists (Busy b q); split; [by left|done]).
      rewrite Hrun in Hin. by apply elem_of_nil in Hin. }
    pose proof (sum_insert begun _ i _ Idle Ht). cbn in *. lia. }
  split.
  - unfold local_ok. rewrite Hm, Hq. split_all; try done; try apply Hp.
    + rewrite Hth, Hrun. destruct t' as [| |b' p'|]; [left; by destruct Ht'..| |left; by destruct Ht'].
      right. exists p'. by destruct Ht' as [-> ?].
    + pose proof (printer_queue _ _ Hp) as HQ. rewrite Forall_app in *. by destruct HQ.
    + destruct (printer_tokens _ _ Hp) as [Ht0|H10].
      * left. unfold tokens in *. rewrite Hth, Hm, Hq, Hw. lia.
      * right. destruct Hph as (ph & ix & c & -> & _ & Hph). destruct ph; cbn in *; lia.
  - unfold cost. rewrite Hth, Hm, Hq, Hw. lia.
Qed.

Lemma thread_step_printer m i s s' :
  printer_ok m s → thread_step print nothing nothing i s = Some s' → local_ok m s' ∧ cost s' < cost s.
Proof.
  intros Hp. unfold thread_step. destruct (threads s !! i) as [t|] eqn:Ht; [|done].
  pose proof (printer_queue _ _ Hp) as HQ. rewrite Forall_app in HQ. destruct HQ as [Hq Htm].
  pose proof (printer_service _ _ Hp) as Hok.
  destruct t as [| |b p|]; [| | |done].
  - intros [= <-]. apply (idle_change m s _ i Before Idle); try done; cbn; [lia|exact (app_nil_r _)].
  - destruct (stopped s).
    { intros [= <-]. apply (idle_change m s _ i Idle Gone); try done; cbn; [lia|exact (app_nil_r _)]. }
    destruct (queue s) as [|[b h] q] eqn:Hqs.
    + destruct (out_of_work s); [|done]. intros [= <-].
      apply (idle_change m s _ i Idle Gone); try done; cbn; rewrite ?Hqs; [cbn; lia|exact (app_nil_r _)|done].
    + apply Forall_cons in Hq as [Hb Hq]. cbn in Hb. subst b. destruct (locked s) eqn:Hl; intros [= <-].
      * apply (idle_change m s _ i Idle Idle); try done; cbn; rewrite ?Hqs, ?length_app; cbn; try lia.
        by rewrite list_insert_id.
      * apply (print_begins m s _ i Idle h); try done; cbn; rewrite ?Hqs; cbn; try lia; [by left|].
        intros _. pose proof (ok_strand _ Hok) as Hst. rewrite Hl, running_strand in Hst.
        destruct (printer_run _ _ Hp) as [[? _]|(p & Hr & _)]; [done|]. rewrite Hr in Hst. cbn in Hst. lia.
  - assert ((b, p) ∈ running (threads s)) as Hrp.
    { apply list_elem_of_bind. exists (Busy b p). split; [by left|]. by apply list_elem_of_lookup_2 in Ht. }
    destruct (printer_run _ _ Hp) as [[Hr _]|(p0 & Hr & Hph)]; [by rewrite Hr in Hrp; apply elem_of_nil in Hrp|].
    destruct (running_at _ i b p _ Ht Hr) as [Heq _]. injection Heq as <- <-.
    destruct Hph as (ph & ix & c & -> & Hc10 & Hph). destruct ph; cbn [rest] in *.
    + destruct Hph as [Hd Ho]. intros [= <-].
      apply (running_change m s _ i true _ (Busy true (rest Counting ix c)) Hp Ht); cbn; try done;
        unfold IoService.print; rewrite ?length_app; cbn; try lia; try apply Hp.
      * split; [done|]. exists Counting, ix, c. cbn. unfold IoService.print. rewrite length_app. cbn. split_all; try done. lia.
      * rewrite !fmap_app. cbn. rewrite (printer_counts _ _ Hp), seq_app, Ho. done.
    + destruct Hph as [Hd Ho]. intros [= <-].
      apply (running_change m s _ i true _ (Busy true (rest Waiting ix c)) Hp Ht); cbn; try done; try lia;
        try apply Hp.
      split; [done|]. exists Waiting, ix, c. cbn. by split_all.
    + intros [= <-].
      apply (running_change m s _ i true _ (Busy true (rest Done ix c)) Hp Ht); cbn; try done;
        rewrite ?length_app; cbn; try lia; try apply Hp.
      * split; [done|]. by exists Done, ix, c.
      * apply Forall_app. by split; [|apply Forall_singleton].
    + destruct (waiting s) as [|h w] eqn:Hw; intros [= <-].
      * apply (running_change m s _ i true _ Idle Hp Ht); cbn; try done; try lia; apply Hp.
      * apply (print_begins m s _ i (Busy true []) h); try done; cbn; rewrite ?Hw; cbn; try lia; by right.
Qed.

Lemma step_printer m s s' : printer_ok m s → printer_step s s' → printer_ok m s' ∧ cost s' < cost s.
Proof.
  intros Hp Hs. assert (service_ok s') as Hok by (apply (service_step_ok print nothing nothing print_body_ok s); [apply Hp|done]).
  rewrite printer_local. enough (local_ok m s' ∧ cost s' < cost s) by tauto.
  destruct Hs as [[|i|k] He]; cbn in He; [|by apply (thread_step_printer m i)|].
  - unfold main_step in He. destruct (main s) as [|a p] eqn:Hm; [done|].
    pose proof (printer_main _ _ Hp) as Hmain. rewrite Hm in Hmain. apply Forall_cons in Hmain as [Ha Hmain].
    assert (∀ s1 tm, main s1 = p → threads s1 = threads s → queue s1 = queue s → waiting s1 = waiting s →
      timers s1 = timers s ++ tm → out s1 = out s → data s1 = data s → Forall (λ x, x.1 = true) tm →
      length tm = starts [a] → local_ok m s1 ∧ cost s1 < cost s) as Hgo.
    { intros s1 tm H1 H2 H3 H4 H5 H6 H7 H8 H9. split.
      - unfold local_ok. rewrite H1, H2, H3, H5, H6, H7. split_all; try apply Hp; try done.
        + destruct (printer_run _ _ Hp) as [?|(q & ? & Hph)]; [by left|right; exists q]. split; [done|].
          unfold at_phase in *. by rewrite H6, H7.
        + pose proof (printer_queue _ _ Hp) as HQ. rewrite !Forall_app in *. tauto.
        + destruct (printer_tokens _ _ Hp) as [Htok|]; [left|by right]. unfold tokens in *.
          rewrite H1, H2, H3, H4, H5, length_app. rewrite Hm in Htok. unfold starts in *. cbn in *. lia.
      - unfold cost. rewrite H1, H2, H3, H4, H5, H6, Hm, length_app, H9. unfold starts. cbn. destruct a; cbn; lia. }
    destruct a as [l|b h|h|b h|d| | |]; try done; cbn in He.
    + injection He as <-. cbn in Ha. subst b. by apply (Hgo _ [(true, h)]); cbn; try done; apply Forall_singleton.
    + injection He as <-. apply (Hgo _ []); cbn; try done. by rewrite app_nil_r.
    + destruct (forallb gone (threads s)); [|done]. injection He as <-. apply (Hgo _ []); cbn; try done. by rewrite app_nil_r.
  - unfold fire in He. destruct (timers s !! k) as [x|] eqn:Hk; [|done]. injection He as <-.
    pose proof (printer_queue _ _ Hp) as HQ. rewrite Forall_app in HQ. destruct HQ as [Hq Htm].
    pose proof (lookup_lt_Some _ _ _ Hk). split.
    + unfold local_ok. cbn. split_all; try apply Hp.
      * rewrite !Forall_app. split_all; [done|apply Forall_singleton; by apply (Forall_lookup_1 _ _ _ _ Htm Hk)|].
        by apply Forall_delete.
      * destruct (printer_tokens _ _ Hp) as [Htok|]; [left|by right]. unfold tokens, starts in *. cbn.
        rewrite length_app, length_delete by (by eexists). cbn. lia.
    + unfold cost. cbn. rewrite length_app, length_delete by (by eexists). cbn. lia.
Qed.

Lemma printer_start n m : printer_ok m (init n true (main_code m) 0).
Proof.
  assert (∀ t : thread nat (nat * nat) nat, t ∈ replicate n Before → t = Before) as Hrep by (intros t Ht; by apply elem_of_replicate in Ht as [-> _]).
  split; cbn; try done.
  - apply service_init_ok; [|by destruct m].
    exists (map (Wait true) (seq 0 m)). split; [done|]. apply forallb_forall. intros a Ha.
    by apply in_map_iff in Ha as (i & <- & _).
  - lia.
  - left. split; [|done]. unfold running. induction n as [|n IH]; [done|]. cbn. apply IH.
    intros t Ht. apply Hrep. by right.
  - unfold main_code. apply Forall_app. split; [|by repeat constructor].
    apply Forall_forall. intros a Ha. apply list_elem_of_fmap in Ha as (i & -> & _). done.
  - left. unfold tokens. cbn. rewrite (proj2 (sum_zero thread_token (replicate n Before))) by (intros t Ht; by rewrite (Hrep t Ht)).
    assert (∀ k, starts (map (Wait true) (seq k m)) = m) as Hstarts.
    { clear. induction m as [|m IH]; intros k; [done|]. unfold starts in *. cbn. by rewrite IH. }
    specialize (Hstarts 0). unfold main_code, starts in *. rewrite sum_list_with_app, Hstarts. cbn. lia.
Qed.

(** [async_timer_with_stand.cpp], with any numbers of threads and timers: the counts printed are
    0, 1, 2, ... in order, whatever timer each line is of; every run is finite, and one
    that is over has [main] back and has printed ten lines, if there is a timer at all. *)
Theorem printer_counts_to_ten n m s :
  0 < n → 0 < m → rtc printer_step (init n true (main_code m) 0) s →
  (out s).*2.*2 = seq 0 (length (out s)) ∧
  (∀ k s', nsteps printer_step k s s' → k ≤ cost s) ∧
  (stuck print nothing nothing s → main s = [] ∧ (out s).*2.*2 = seq 0 10).
Proof.
  intros Hn Hm Hr. assert (printer_ok m s) as Hp.
  { remember (init n true (main_code m) 0) as s0 eqn:Hs0.
    assert (printer_ok m s0) as Hp by (subst; apply printer_start). clear Hs0.
    induction Hr as [|s0 s1 s2 Hs _ IH]; [done|]. by apply IH, (step_printer m s0). }
  split_all; [apply Hp| |].
  - intros k s' Hk. assert (k + cost s' ≤ cost s) as H; [|lia].
    clear Hr. induction Hk as [s|k s s1 s2 Hs _ IH]; [lia|]. destruct (step_printer m s s1 Hp Hs) as [Hp1 Hlt].
    specialize (IH Hp1). lia.
  - intros Hs. pose proof (printer_service _ _ Hp) as Hok.
    destruct (stuck_finished print nothing nothing s Hok Hs) as [Hmain Hall].
    destruct (finished_empty s Hok) as (Hq & Ht & Hw & _); [|done|].
    { intros Ht. pose proof (run_threads _ _ _ _ _ _ _ _ Hr) as Hl. rewrite Ht in Hl. cbn in Hl. lia. }
    split; [done|]. rewrite (printer_counts _ _ Hp). f_equal. destruct (printer_tokens _ _ Hp) as [Htok|]; [|done].
    unfold tokens in Htok. rewrite Hq, Ht, Hw, Hmain in Htok. cbn in Htok.
    rewrite (proj2 (sum_zero thread_token _)) in Htok by (intros t Hin; by rewrite (Hall t Hin)). lia.
Qed.
End Printer.

(** * deadline_timer.cpp *)

Module DeadlineTimer.
(** The handler of [nonblocking_wait]. The wait ends by the time or by [cancel], which
    comes first is not modelled. *)
Inductive handler : Type := TimerExpires.
Inductive line : Type := Time | TimerExpiresLine | CancelLine.
Definition code (h : handler) : list (action handler line unit) := [Print TimerExpiresLine].
Definition nothing (i : nat) : list line := [].

(** [main], after it has created the thread that calls [run]: only then comes the work
    guard; the blocking wait and the sleeps do not matter here. *)
Definition main_code : list (action handler line unit) :=
  [Guard; Print Time; Print Time; Wait false TimerExpires; Print Time; Print CancelLine; Reset; Join].

Fixpoint reacts (es : list event) (s : service handler line unit) : option (service handler line unit) :=
  match es with [] => Some s | e :: es => react (λ (_ : unit) h, code h) nothing nothing e s ≫= reacts es end.
Lemma reacts_steps es s s' : reacts es s = Some s' → rtc (steps code nothing nothing) s s'.
Proof.
  revert s. induction es as [|e es IH]; cbn; intros s; [by intros [= <-]; apply rtc_refl|].
  destruct (react _ _ _ e s) as [s1|] eqn:He; [|done]. intros Hs. apply (rtc_l _ _ s1); [by exists e|by apply IH].
Qed.

(** The thread may be back from [run] before there is any work or guard: then the program
    ends and the handler of the timer has never run. In other runs it runs. *)
Lemma deadline_timer_race :
  (∃ s, rtc (steps code nothing nothing) (init 1 false main_code ()) s ∧
     stuck (λ _ h, code h) nothing nothing s ∧ main s = [] ∧ queue s = [(false, TimerExpires)] ∧ ran s = []) ∧
  (∃ s, rtc (steps code nothing nothing) (init 1 false main_code ()) s ∧
     main s = [] ∧ queue s = [] ∧ ran s = [TimerExpires]).
Proof.
  split.
  - eexists. split.
    { apply (reacts_steps [Thread 0; Thread 0; Main; Main; Main; Main; Main; Main; Main; Main; Fire 0]).
      vm_compute. reflexivity. }
    split; [|done]. intros s' [[|[|i]|[|k]] He]; vm_compute in He; done.
  - eexists. split.
    { apply (reacts_steps [Main; Thread 0; Main; Main; Main; Fire 0; Thread 0; Thread 0; Thread 0; Main; Main; Main; Thread 0; Main]).
      vm_compute. reflexivity. }
    done.
Qed.
End DeadlineTimer.

(** * Witnesses *)

(** The start of each program is a state of it; one thread, or five. *)
Lemma service_basics_witness :
  let s := init 5 true ServiceBasics.main_code () in
  (∀ k s', nsteps (steps ServiceBasics.code ServiceBasics.nothing ServiceBasics.nothing) k s s' →
     k ≤ measure ServiceBasics.code ServiceBasics.tree s) ∧
  (∃ i, ∀ x l, (x, l) ∈ out s → ServiceBasics.dispatch_line l = true → x = Some i) ∧
  (stuck (λ _ h, ServiceBasics.code h) ServiceBasics.nothing ServiceBasics.nothing s →
   main s = [] ∧
   ran s ≡ₚ ServiceBasics.calls ServiceBasics.DispatchHandler 3 ++ ServiceBasics.calls ServiceBasics.PostHandler 3 ∧
   length (ran s) = 30 ∧
   (out s).*2 ≡ₚ [ServiceBasics.MainThread; ServiceBasics.TimeWithDispatch; ServiceBasics.TimeWithPost]
     ++ (ServiceBasics.ThreadId <$> ran s)).
Proof. apply (ServiceBasics.service_basics 5); [lia|apply rtc_refl]. Defined.

Lemma strand_program_witness :
  let s := init 5 true StrandProgram.main_code () in
  sum in_strand (threads s) ≤ 1 ∧ serial s `prefix_of` [1; 2; 7; 8; 9; 10] ∧
  (∀ k s', nsteps (steps StrandProgram.print StrandProgram.workFunc_hello StrandProgram.workFunc_bye) k s s' →
     k ≤ measure StrandProgram.print (λ h, [h]) s) ∧
  (stuck (λ _ h, StrandProgram.print h) StrandProgram.workFunc_hello StrandProgram.workFunc_bye s →
   main s = [] ∧ serial s = [1; 2; 7; 8; 9; 10] ∧
   (out s).*2 ≡ₚ (seq 0 5 ≫= λ i, [StrandProgram.StartThread i; StrandProgram.StopThread i])
     ++ (StrandProgram.Number <$> seq 1 10)).
Proof. apply (StrandProgram.strand_program 5); [lia|apply rtc_refl]. Defined.

Lemma printer_witness :
  let s := init 5 true (Printer.main_code 2) 0 in
  (out s).*2.*2 = seq 0 (length (out s)) ∧
  (∀ k s', nsteps (service_step Printer.print Printer.nothing Printer.nothing) k s s' → k ≤ Printer.cost s) ∧
  (stuck Printer.print Printer.nothing Printer.nothing s → main s = [] ∧ (out s).*2.*2 = seq 0 10).
Proof. apply (Printer.printer_counts_to_ten 5 2); [lia|lia|apply rtc_refl]. Defined.
