(* ===== verification/SyncServers.v ===== *)
(** The synchronous servers of
    [src/boost/boost_asio/socket/dummy_application/iter_tcp_server.cpp] ([Module Iter], one
    client after the other) and [.../sync_tcp_server_threaded.cpp] ([Module Threaded], one
    detached thread per client), and how they are stopped.

    [Server::stop] sets a flag, connects to the server itself, so that an [accept] that
    blocks returns, and joins the server thread. The network decides when clients connect
    and when their requests arrive; connections that are established and not accepted wait
    in a queue in order, and are reset when the acceptor is closed. An exception of Boost
    is a [system_error]; [send_dummy_request] catches [error_code], so that the exception
    leaves [stop], and the destructor of the thread that has not been joined ends the
    program: this is [MAborted]. *)

From S2P Require Import Prelude.

(** A connection: of a client, or of [send_dummy_request]. *)
Inductive conn : Type := Client (n : nat) | Dummy.
#[export] Instance conn_eq_dec : EqDecision conn.
Proof. solve_decision. Defined.

(** What has become of the dummy connection. *)
Inductive dummy_state : Type := NotSent | Pending | Answered | Reset.
#[export] Instance dummy_eq_dec : EqDecision dummy_state.
Proof. solve_decision. Defined.

(** The number of dummy connections in a queue. *)
Definition dummies (l : list conn) : nat := length (filter (.= Dummy) l).
Definition is_dummy (c : conn) : nat := match c with Dummy => 1 | Client _ => 0 end.

Lemma dummies_cons c l : dummies (c :: l) = is_dummy c + dummies l.
Proof. unfold dummies. by destruct c. Qed.
Lemma dummies_snoc l c : dummies (l ++ [c]) = dummies l + is_dummy c.
Proof. unfold dummies. rewrite filter_app, length_app. by destruct c. Qed.
Lemma dummies_zero l : Dummy ∉ l ↔ dummies l = 0.
Proof.
  induction l as [|c l IH]; [split; [done|intros _; apply not_elem_of_nil]|].
  rewrite not_elem_of_cons, dummies_cons, IH. destruct c; simpl; split; naive_solver lia.
Qed.

(** * iter_tcp_server.cpp *)

Module Iter.

(** The server thread: before the test of [m_stop], in [accept], in [handleClient], or
    ended, with the acceptor closed. *)
Inductive srv_at : Type := SLoop | SAccept | SServe (c : conn) | SDone.
(** [main]: sleeping; in [stop] behind the store, behind [connect], behind [write]; in
    [join]; behind [stop]; ended by [std::terminate]. *)
Inductive main_at : Type := MRun | MConnect | MWrite | MRead | MJoin | MStopped | MAborted.
#[export] Instance main_eq_dec : EqDecision main_at.
Proof. solve_decision. Defined.

Record server : Type := Server {
  m_stop : bool;
  backlog : list conn;
  srv : srv_at;
  main : main_at;
  dummy : dummy_state;
  handled : list conn
}.

(** [start]. *)
Definition start : server := Server false [] SLoop MRun NotSent [].

(** A client connects; that needs the acceptor. *)
Definition arrive (n : nat) (s : server) : option server :=
  match srv s with
  | SDone => None
  | _ => Some (Server (m_stop s) (backlog s ++ [Client n]) (srv s) (main s) (dummy s) (handled s))
  end.

(** Closing the acceptor resets what waits in its queue. *)
Definition close_acceptor (s : server) : server :=
  Server (m_stop s) [] SDone (main s)
    (if decide (Dummy ∈ backlog s) then Reset else dummy s) (handled s).

(** [Acceptor::accept]: the next connection is taken from the queue. *)
Definition accept (s : server) : option server :=
  match backlog s with
  | [] => None
  | c :: q => Some (Server (m_stop s) q (SServe c) (main s) (dummy s) (handled s))
  end.

(** The end of [handleClient]: its request has arrived and been answered, or the
    connection has failed, which is caught. The request of the dummy connection arrives
    when it has been written. *)
Definition handleClient (c : conn) (s : server) : option server :=
  let s' := Server (m_stop s) (backlog s) SLoop (main s)
              (match c with Dummy => Answered | _ => dummy s end) (handled s ++ [c]) in
  match c, main s with
  | Dummy, MRead => Some s'
  | Dummy, _ => None
  | Client _, _ => Some s'
  end.

(** [Server::run]. *)
Definition srv_step (s : server) : option server :=
  match srv s with
  | SLoop =>
      Some (if m_stop s then close_acceptor s
            else Server (m_stop s) (backlog s) SAccept (main s) (dummy s) (handled s))
  | SAccept => accept s
  | SServe c => handleClient c s
  | SDone => None
  end.

Definition set_main (p : main_at) (s : server) : server :=
  Server (m_stop s) (backlog s) (srv s) p (dummy s) (handled s).

(** [Server::stop], with [send_dummy_request]: connecting fails when the acceptor is
    closed, writing and reading when the connection has been reset; reading waits for the
    answer, and [join] for the server thread. *)
Definition main_step (s : server) : option server :=
  match main s with
  | MRun => Some (Server true (backlog s) (srv s) MConnect (dummy s) (handled s))
  | MConnect =>
      Some match srv s with
           | SDone => set_main MAborted s
           | _ => Server (m_stop s) (backlog s ++ [Dummy]) (srv s) MWrite Pending (handled s)
           end
  | MWrite => Some (set_main (if decide (dummy s = Reset) then MAborted else MRead) s)
  | MRead =>
      match dummy s with
      | Answered => Some (set_main MJoin s)
      | Reset => Some (set_main MAborted s)
      | _ => None
      end
  | MJoin => match srv s with SDone => Some (set_main MStopped s) | _ => None end
  | MStopped | MAborted => None
  end.

Inductive event : Type := EArrive (n : nat) | ESrv | EMain.
Definition react (e : event) (s : server) : option server :=
  match e with EArrive n => arrive n s | ESrv => srv_step s | EMain => main_step s end.
Fixpoint run (es : list event) (s : server) : option server :=
  match es with [] => Some s | e :: es => s ← react e s; run es s end.
Definition step (s s' : server) : Prop := ∃ e, react e s = Some s'.
(** The steps of the program, with the answers of the clients; and its runs. *)
Definition program (s s' : server) : Prop := srv_step s = Some s' ∨ main_step s = Some s'.

(** ** The invariant *)

(** Where the dummy connection is, by the place of [main]. *)
Definition dummy_ok (s : server) : Prop :=
  match main s with
  | MRun => m_stop s = false ∧ dummy s = NotSent ∧ dummies (backlog s) = 0 ∧ srv s ≠ SServe Dummy
  | MConnect => m_stop s = true ∧ dummy s = NotSent ∧ dummies (backlog s) = 0 ∧ srv s ≠ SServe Dummy
  | MWrite | MRead =>
      m_stop s = true ∧
      match dummy s with
      | NotSent => False
      | Pending => (dummies (backlog s) = 1 ∧ srv s ≠ SDone ∧ srv s ≠ SServe Dummy) ∨
                   (dummies (backlog s) = 0 ∧ srv s = SServe Dummy)
      | Answered => dummies (backlog s) = 0 ∧ (srv s = SLoop ∨ srv s = SDone) ∧ main s = MRead
      | Reset => srv s = SDone ∧ backlog s = []
      end
  | MJoin | MStopped =>
      m_stop s = true ∧ dummy s = Answered ∧ dummies (backlog s) = 0 ∧ (srv s = SLoop ∨ srv s = SDone) ∧
      (main s = MStopped → srv s = SDone)
  | MAborted => m_stop s = true ∧ dummy s ≠ Answered ∧ srv s = SDone
  end.
(** The acceptor is closed after [m_stop] was set, and has no queue then. *)
Record iter_ok (s : server) : Prop := {
  io_dummy : dummy_ok s;
  io_done : srv s = SDone → m_stop s = true ∧ backlog s = []
}.

Lemma start_iter_ok : iter_ok start.
Proof. constructor; [by unfold dummy_ok|done]. Qed.

Lemma iter_step_ok s s' : iter_ok s → step s s' → iter_ok s'.
Proof.
  intros [Hd Hc] [e He]. destruct s as [st q sv m d hd]. unfold dummy_ok in Hd.
  destruct e as [n| |]; simpl in *.
  - unfold arrive in He. simpl in He. destruct sv; simplify_eq; constructor; simpl; try done;
      unfold dummy_ok; simpl; rewrite ?dummies_snoc, ?Nat.add_0_r; destruct m, d; try done; naive_solver.
  - unfold srv_step in He. simpl in He. destruct sv as [| |c|]; simpl in He.
    + destruct st; simplify_eq; constructor; unfold dummy_ok; simpl; try done.
      * pose proof (dummies_zero q) as Hz.
        destruct m, d; simpl in *; try tauto; case_decide; intuition (congruence || lia).
      * destruct m; naive_solver.
    + unfold accept in He. simpl in He. destruct q as [|c q]; [done|]. simplify_eq.
      constructor; unfold dummy_ok; simpl; [|done]. rewrite dummies_cons in Hd.
      destruct m, c, d; simpl in *; naive_solver lia.
    + unfold handleClient in He. simpl in He.
      destruct c, m, d; simplify_eq; constructor; unfold dummy_ok in *; simpl in *; naive_solver.
    + done.
  - unfold main_step in He. simpl in He.
    destruct m; try (destruct d; try done); try (destruct sv; try done); simplify_eq/=; constructor;
      unfold dummy_ok; simpl; rewrite ?dummies_snoc; simpl; try done; try case_decide; naive_solver lia.
Qed.

Lemma reachable_iter_ok s : reachable (eq start) step s → iter_ok s.
Proof. apply invariant_reachable; [intros ? <-; apply start_iter_ok|apply iter_step_ok]. Qed.

(** ** What becomes of [stop] *)

(** The server thread will leave its loop without accepting the dummy connection. *)
Definition doomed (s : server) : Prop :=
  m_stop s = true ∧ dummy s ≠ Answered ∧ main s ≠ MJoin ∧ main s ≠ MStopped ∧
  match srv s with
  | SAccept => ∃ n q, backlog s = Client n :: q
  | SServe c => c ≠ Dummy
  | _ => True
  end.
Lemma doomed_step s s' : doomed s → step s s' → doomed s'.
Proof.
  intros (Hs & Hd & Hj & Hm & Hsrv) [e He]. destruct s as [st q sv m d hd]. unfold doomed. simpl in *. subst st.
  destruct e as [n| |]; simpl in He.
  - unfold arrive in He. destruct sv; simplify_eq/=; split_all; try done.
    destruct Hsrv as (k & q' & ->). by exists k, (q' ++ [Client n]).
  - unfold srv_step, accept, handleClient in He. simpl in He. destruct sv as [| |c|]; simplify_eq/=.
    + split_all; try done. by case_decide.
    + destruct Hsrv as (k & q' & ->). by simplify_eq/=.
    + destruct c; [|done]. by simplify_eq/=.
  - unfold main_step in He. simpl in He.
    destruct m; simplify_eq/=; try (destruct sv; simplify_eq/=); split_all; try done; try by case_decide.
    all: try (destruct d; simplify_eq/=; by split_all).
    destruct Hsrv as (k & q' & ->). by exists k, (q' ++ [Dummy]).
Qed.

(** The first connection that the server thread accepts is the dummy connection. *)
Definition heard (s : server) : Prop :=
  m_stop s = true ∧
  match main s with
  | MConnect => srv s = SAccept ∧ backlog s = [] ∧ dummy s = NotSent
  | MWrite => dummy s = Pending ∧
      ((srv s = SAccept ∧ backlog s = [Dummy]) ∨ (srv s = SServe Dummy ∧ backlog s = []))
  | MRead => backlog s = [] ∧ dummy s = Answered ∨ dummy s = Pending ∧
      ((srv s = SAccept ∧ backlog s = [Dummy]) ∨ (srv s = SServe Dummy ∧ backlog s = []))
  | MJoin | MStopped => True
  | MRun | MAborted => False
  end.
Lemma heard_step s s' : heard s → program s s' → heard s'.
Proof.
  intros [Hst Hm] He. destruct s as [st q sv m d hd]. unfold heard. simpl in *. subst st.
  destruct He as [He|He].
  - unfold srv_step, accept, handleClient, close_acceptor in He. simpl in He.
    destruct sv as [| |c|]; simplify_eq/=.
    + destruct m; simpl; try done; naive_solver.
    + destruct q as [|c q]; simplify_eq/=. destruct m; naive_solver.
    + destruct c, m; simplify_eq/=; naive_solver.
  - unfold main_step in He. simpl in He.
    destruct m; simplify_eq/=; try (destruct sv; simplify_eq/=); try naive_solver.
    all: destruct d; simplify_eq/=; naive_solver.
Qed.

Definition weight (s : server) : nat :=
  match srv s with SAccept => 3 | SServe _ => 2 | SLoop => 1 | SDone => 0 end +
  match main s with MConnect => 4 | MWrite => 3 | MRead => 2 | MJoin => 1 | _ => 0 end.
Lemma program_weight s s' :
  m_stop s = true → main s ≠ MRun → program s s' →
  weight s' < weight s ∧ m_stop s' = true ∧ main s' ≠ MRun.
Proof.
  intros Hst Hm He. destruct s as [st q sv m d hd]. simpl in *. subst st. unfold weight.
  destruct He as [He|He].
  - unfold srv_step, accept, handleClient, close_acceptor in He. simpl in He.
    destruct sv as [| |c|]; simplify_eq/=; [split_all; [lia|done..]| |].
    + destruct q; simplify_eq/=. split_all; [lia|done..].
    + destruct c, m; simplify_eq/=; split_all; first [lia|done].
  - unfold main_step in He. simpl in He.
    destruct m; simplify_eq/=; try (destruct sv; simplify_eq/=; split_all; first [lia|done]).
    + case_decide; simpl; split_all; first [lia|done].
    + destruct d; simplify_eq/=; split_all; first [lia|done].
Qed.

(** Behind the store of the flag somebody can make a step until [stop] has ended. *)
Lemma stop_progress s :
  iter_ok s → main s ≠ MRun → main s ≠ MStopped → main s ≠ MAborted → ∃ s', program s s'.
Proof.
  intros [Hd Hc] H1 H2 H3. destruct s as [st q sv m d hd]. unfold dummy_ok in Hd. simpl in *.
  assert (sv = SLoop → ∃ s', program (Server st q sv m d hd) s') as Hloop
    by (intros ->; eexists; by left).
  assert (∀ n, sv = SServe (Client n) → ∃ s', program (Server st q sv m d hd) s') as Hserve
    by (intros n ->; eexists; by left).
  destruct m; try done.
  - eexists; by right.
  - eexists; by right.
  - destruct Hd as [-> Hd]. destruct d; try done.
    + destruct sv as [| |[n|]|]; [by apply Hloop| |by apply (Hserve n)| |].
      * destruct Hd as [(Hq & _)|(_ & ?)]; [|done]. destruct q as [|c q]; [done|]. eexists; by left.
      * eexists; by left.
      * naive_solver.
    + eexists; by right.
    + eexists; by right.
  - destruct Hd as (_ & _ & _ & [->| ->] & _); [by apply Hloop|]. eexists; by right.
Qed.

(** How [stop] ends, from any reachable state of the server in which [main] calls it.
    It is decided after at most seven more steps of the program, the answers of the clients
    included. If the server thread is waiting in [accept] and no client is, or comes, before
    the dummy request, [stop] returns and the server thread has ended. If the server thread
    is anywhere else, or a client waits to be accepted, [stop] never returns: the thread
    leaves its loop, the dummy connection is refused or reset, and the exception ends the
    program. *)
Theorem iter_stop s s1 n s' :
  reachable (eq start) step s → main s = MRun → main_step s = Some s1 → nsteps program n s1 s' →
  n ≤ 7 ∧
  ((∀ s'', ¬ program s' s'') → main s' = MStopped ∧ srv s' = SDone ∧ dummy s' = Answered ∨ main s' = MAborted) ∧
  (srv s = SAccept ∧ backlog s = [] → main s' ≠ MAborted) ∧
  (srv s ≠ SAccept ∨ backlog s ≠ [] → main s' ≠ MStopped).
Proof.
  intros Hr Hm Hs1 Hsteps. apply reachable_iter_ok in Hr as Hok.
  assert (iter_ok s1) as Hok1 by (apply (iter_step_ok s); [done|by exists EMain]).
  assert (m_stop s1 = true ∧ main s1 = MConnect ∧ weight s1 ≤ 7 ∧ srv s1 = srv s ∧ backlog s1 = backlog s ∧
    dummy s1 = dummy s) as (Hst & Hm1 & Hw & Hsrv & Hq & Hd).
  { unfold main_step in Hs1. rewrite Hm in Hs1. simplify_eq/=. split_all; try done.
    unfold weight. simpl. destruct (srv s); lia. }
  assert (iter_ok s' ∧ n + weight s' ≤ weight s1 ∧ main s' ≠ MRun ∧ (heard s1 → heard s') ∧
    (doomed s1 → doomed s')) as (Hok' & Hle & Hm' & Hheard & Hdoom).
  { assert (main s1 ≠ MRun) as Hm1' by congruence. clear Hs1 Hm1 Hw Hsrv Hq Hd.
    induction Hsteps as [s1|n s1 s2 s' Hp _ IH]; [split_all; auto|].
    destruct (program_weight s1 s2 Hst Hm1' Hp) as (? & Hst2 & Hm2).
    assert (step s1 s2) as Hp' by (destruct Hp; [by exists ESrv|by exists EMain]).
    destruct (IH (iter_step_ok _ _ Hok1 Hp') Hst2 Hm2) as (? & ? & ? & Hh & Hdo).
    split_all; [done|lia|done| |].
    - intros Hx. by apply Hh, (heard_step s1).
    - intros Hx. by apply Hdo, (doomed_step s1). }
  pose proof (io_dummy _ Hok) as Hdm. unfold dummy_ok in Hdm. rewrite Hm in Hdm. destruct Hdm as (_ & Hns & Hz & Hsd).
  split_all.
  - lia.
  - intros Hend. destruct (decide (main s' = MAborted)) as [|Hna]; [by right|left].
    destruct (decide (main s' = MStopped)) as [Hstop|Hns'].
    + pose proof (io_dummy _ Hok') as H. unfold dummy_ok in H. rewrite Hstop in H. naive_solver.
    + destruct (stop_progress s' Hok' Hm' Hns' Hna) as [s'' Hp]. by destruct (Hend s'').
  - intros [Ha Hb]. assert (heard s') as [_ H]; [|by destruct (main s')].
    apply Hheard. split; [done|]. rewrite Hm1. split_all; congruence.
  - intros Hnot. assert (doomed s') as (_ & _ & _ & H & _); [|done].
    apply Hdoom. unfold doomed. split_all; [done|congruence|congruence|congruence|]. rewrite Hsrv, Hq.
    destruct (srv s) as [| |c|]; try done.
    + destruct Hnot as [?|Hb]; [done|]. destruct (backlog s) as [|[k|] q]; [done|by exists k, q|].
      by rewrite dummies_cons in Hz.
    + congruence.
Qed.
End Iter.

(** * sync_tcp_server_threaded.cpp *)

Module Threaded.

(** The server thread: before the test, in [accept], or ended. *)
Inductive srv_at : Type := SLoop | SAccept | SDone.
(** [main]: sleeping; in [stop] behind the store, and behind [connect]; in [join]; behind
    [stop]; behind the destructor of [Server]; ended by [std::terminate]. *)
Inductive main_at : Type := MRun | MConnect | MShutdown | MJoin | MStopped | MGone | MAborted.
#[export] Instance main_eq_dec : EqDecision main_at.
Proof. solve_decision. Defined.

(** [services] are the live [Service] objects with their connections, each with a thread of
    its own; [stale] says that such a thread has used the io_service of a [Server] that was
    destroyed. For the dummy connection, [Answered] means accepted. *)
Record server : Type := Server {
  m_stop : bool;
  backlog : list conn;
  srv : srv_at;
  main : main_at;
  dummy : dummy_state;
  services : gmap nat conn;
  created : nat;
  deleted : list nat;
  stale : bool
}.

(** [start]. *)
Definition start : server := Server false [] SLoop MRun NotSent ∅ 0 [] false.

Definition arrive (n : nat) (s : server) : option server :=
  match srv s with
  | SDone => None
  | _ => Some (Server (m_stop s) (backlog s ++ [Client n]) (srv s) (main s) (dummy s) (services s)
                 (created s) (deleted s) (stale s))
  end.

Definition close_acceptor (s : server) : server :=
  Server (m_stop s) [] SDone (main s) (if decide (Dummy ∈ backlog s) then Reset else dummy s)
    (services s) (created s) (deleted s) (stale s).

(** [Acceptor::accept]: [new Service] and [startHandlingClient], which starts the thread and
    detaches it. *)
Definition accept (s : server) : option server :=
  match backlog s with
  | [] => None
  | c :: q =>
      Some (Server (m_stop s) q SLoop (main s) (match c with Dummy => Answered | _ => dummy s end)
              (<[created s := c]> (services s)) (S (created s)) (deleted s) (stale s))
  end.

(** [Server::run]. *)
Definition srv_step (s : server) : option server :=
  match srv s with
  | SLoop =>
      Some (if m_stop s then close_acceptor s
            else Server (m_stop s) (backlog s) SAccept (main s) (dummy s) (services s) (created s)
                   (deleted s) (stale s))
  | SAccept => accept s
  | SDone => None
  end.

(** The end of [handleClient]: the request has been answered, or an exception has been
    caught; then [delete this]. The dummy connection fails when it is shut down, which ends
    [read_until]. *)
Definition handleClient (id : nat) (s : server) : option server :=
  c ← services s !! id;
  if decide (c = Dummy ∧ main s = MShutdown) then None
  else Some (Server (m_stop s) (backlog s) (srv s) (main s) (dummy s) (delete id (services s))
               (created s) (deleted s ++ [id])
               (stale s || bool_decide (main s = MGone))).

Definition set_main (p : main_at) (s : server) : server :=
  Server (m_stop s) (backlog s) (srv s) p (dummy s) (services s) (created s) (deleted s) (stale s).

(** [Server::stop]: connecting fails when the acceptor is closed, [shutdown] when the
    connection has been reset. Then the destructor of [Server]. *)
Definition main_step (s : server) : option server :=
  match main s with
  | MRun =>
      Some (Server true (backlog s) (srv s) MConnect (dummy s) (services s) (created s) (deleted s) (stale s))
  | MConnect =>
      Some match srv s with
           | SDone => set_main MAborted s
           | _ => Server (m_stop s) (backlog s ++ [Dummy]) (srv s) MShutdown Pending (services s)
                    (created s) (deleted s) (stale s)
           end
  | MShutdown => Some (set_main (if decide (dummy s = Reset) then MAborted else MJoin) s)
  | MJoin => match srv s with SDone => Some (set_main MStopped s) | _ => None end
  | MStopped => Some (set_main MGone s)
  | MGone | MAborted => None
  end.

Inductive event : Type := EArrive (n : nat) | ESrv | EService (id : nat) | EMain.
Definition react (e : event) (s : server) : option server :=
  match e with
  | EArrive n => arrive n s | ESrv => srv_step s | EService id => handleClient id s | EMain => main_step s
  end.
Fixpoint run (es : list event) (s : server) : option server :=
  match es with [] => Some s | e :: es => s ← react e s; run es s end.
Definition step (s s' : server) : Prop := ∃ e, react e s = Some s'.

Lemma threaded_run_reachable es s : run es start = Some s → reachable (eq start) step s.
Proof.
  intros H. exists start. split; [done|]. revert H. generalize start.
  induction es as [|e es IH]; intros s0 H; simpl in H; [by simplify_eq|].
  apply bind_Some in H as (s1 & He & H). eapply rtc_l; [by exists e|by apply IH].
Qed.

(** ** The Service objects *)

(** Every object that was created is alive or has been deleted once. *)
Definition services_ok (s : server) : Prop :=
  NoDup (deleted s) ∧
  ∀ id, (id < created s ↔ is_Some (services s !! id) ∨ id ∈ deleted s) ∧
        (id ∈ deleted s → services s !! id = None).

Lemma services_step_ok s s' : services_ok s → step s s' → services_ok s'.
Proof.
  intros [Hnd Hid] [e He]. destruct s as [st q sv m d ss n dl b]. unfold services_ok. simpl in *.
  destruct e as [k| |id|]; simpl in He.
  - unfold arrive in He. simpl in He. by destruct sv; simplify_eq/=.
  - unfold srv_step, accept in He. simpl in He. destruct sv; simplify_eq/=; [by destruct st|].
    destruct q as [|c q]; simplify_eq/=. split; [done|]. intros id. destruct (Hid id) as [Hlt Hdel].
    destruct (decide (id = n)) as [->|Hne].
    + rewrite lookup_insert_eq. assert (n ∉ dl) as Hn by (intros Hin; assert (n < n) by tauto; lia).
      split; [|done]. split; [left; by eexists|lia].
    + rewrite lookup_insert_ne by done. split; [|done]. rewrite <- Hlt. lia.
  - unfold handleClient in He. simpl in He. apply bind_Some in He as (c & Hc & He).
    case_decide; simplify_eq/=. split.
    + apply NoDup_snoc. split; [|done]. intros Hin. destruct (Hid id) as [_ Hdel].
      rewrite Hdel in Hc by done. done.
    + intros i. destruct (Hid i) as [Hlt Hdel]. rewrite elem_of_app, list_elem_of_singleton.
      destruct (decide (i = id)) as [->|Hne].
      * rewrite lookup_delete_eq. split; [|done]. split; [by auto|intros _].
        apply Hlt. left. by eexists.
      * rewrite lookup_delete_ne by done. split; [|naive_solver]. rewrite Hlt. naive_solver.
  - unfold main_step in He. simpl in He. destruct m, sv; simplify_eq/=; done.
Qed.

(** ** [stop] *)

(** The server thread waits in [accept] for the dummy connection, or has accepted it. *)
Definition heard (s : server) : Prop :=
  m_stop s = true ∧ stale s = false ∧
  match main s with
  | MConnect => srv s = SAccept ∧ backlog s = [] ∧ dummy s = NotSent
  | MShutdown | MJoin =>
      (srv s = SAccept ∧ backlog s = [Dummy] ∧ dummy s = Pending) ∨
      ((srv s = SLoop ∨ srv s = SDone) ∧ backlog s = [] ∧ dummy s = Answered)
  | MStopped => srv s = SDone ∧ dummy s = Answered
  | _ => False
  end.
(** The steps of the program up to the return from [stop]. *)
Definition stopping (s s' : server) : Prop :=
  srv_step s = Some s' ∨ (∃ id, handleClient id s = Some s') ∨ (main s ≠ MStopped ∧ main_step s = Some s').

Lemma threaded_heard_step s s' : heard s → stopping s s' → heard s'.
Proof.
  intros (Hst & Hb & Hm) He. destruct s as [st q sv m d ss n dl b]. unfold heard. simpl in *. subst st b.
  destruct He as [He|[[id He]|[Hns He]]].
  - unfold srv_step, accept, close_acceptor in He. simpl in He. destruct sv; simplify_eq/=.
    + destruct m; try naive_solver; (destruct Hm as [Hm|(_ & -> & ->)]; [naive_solver|]);
        split_all; try done; right; split_all; auto.
    + destruct q as [|c q]; simplify_eq/=. destruct m, c; naive_solver.
  - unfold handleClient in He. simpl in He. apply bind_Some in He as (c & _ & He).
    case_decide; simplify_eq/=. split_all; [done| |done]. by destruct m.
  - unfold main_step in He. simpl in He.
    destruct m; simplify_eq/=; try done; try (destruct sv; simplify_eq/=); naive_solver.
Qed.

Definition weight (s : server) : nat :=
  match srv s with SAccept => 2 | SLoop => 1 | SDone => 0 end +
  match main s with MConnect => 3 | MShutdown => 2 | MJoin => 1 | _ => 0 end.

(** A thread that has not met the dummy connection may still end before it is asked to. *)
Lemma stopping_ends s : heard s → main s ≠ MStopped → ∃ s', stopping s s' ∧ (weight s' < weight s).
Proof.
  intros (Hst & Hb & Hm) Hns. destruct s as [st q sv m d ss n dl b]. simpl in *. subst st b.
  unfold stopping, srv_step, main_step, weight. simpl. destruct m; try done.
  - destruct Hm as (-> & _). eexists. split; [right; right; by split|]. simpl. lia.
  - eexists. split; [right; right; by split|]. simpl. case_decide; simpl; lia.
  - destruct Hm as [(-> & -> & _)|([->| ->] & -> & _)].
    + eexists. split; [by left|]. simpl. lia.
    + eexists. split; [by left|]. simpl. lia.
    + eexists. split; [right; right; by split|]. simpl. lia.
Qed.

(** Before [stop] there is no dummy connection. *)
Definition quiet (s : server) : Prop :=
  main s = MRun → dummies (backlog s) = 0 ∧ dummy s = NotSent ∧ stale s = false.
Lemma quiet_step s s' : quiet s → step s s' → quiet s'.
Proof.
  intros Hq [e He]. destruct s as [st q sv m d ss n dl b]. unfold quiet in *. simpl in *.
  destruct e as [k| |id|]; simpl in He.
  - unfold arrive in He. simpl in He. destruct sv; simplify_eq/=; rewrite dummies_snoc, Nat.add_0_r; done.
  - unfold srv_step, accept in He. simpl in He. destruct sv; simplify_eq/=.
    + destruct st; simpl; [|done]. intros Hm. destruct (Hq Hm) as (Hz & -> & ->).
      rewrite decide_False; [done|]. by apply dummies_zero.
    + destruct q as [|c q]; simplify_eq/=. rewrite dummies_cons in Hq. intros Hm. destruct (Hq Hm) as (Hz & -> & ->).
      destruct c; [done|simpl in Hz; lia].
  - unfold handleClient in He. simpl in He. apply bind_Some in He as (c & _ & He). case_decide; simplify_eq/=.
    intros Hm. destruct (Hq Hm) as (? & ? & ->). by rewrite Hm.
  - unfold main_step in He. simpl in He. destruct m, sv; simplify_eq/=; try done; by case_decide.
Qed.

(** Every [Service] object is used only while it is alive, by its own thread, and
    deleted exactly once. If [stop] is called while the server thread waits in [accept] and
    no client comes before the dummy request, then until [stop] returns no exception leaves
    it and no thread uses a destroyed server; some step is always left that brings the end
    nearer, and when [stop] has returned the server thread has ended. *)
Theorem threaded_stop s s1 s' :
  reachable (eq start) step s → main s = MRun → srv s = SAccept → backlog s = [] →
  main_step s = Some s1 → rtc stopping s1 s' →
  services_ok s' ∧ main s' ≠ MAborted ∧ stale s' = false ∧
  (main s' = MStopped ∧ srv s' = SDone ∧ dummy s' = Answered ∨
   main s' ≠ MStopped ∧ ∃ s'', stopping s' s'' ∧ weight s'' < weight s').
Proof.
  intros Hr Hm Ha Hq Hs1 Hrtc.
  assert (quiet s) as (_ & Hd & Hb); [|done|].
  { revert Hr. apply invariant_reachable; [by intros ? <-|apply quiet_step]. }
  assert (services_ok s) as Hok.
  { revert Hr. apply invariant_reachable; [intros ? <-|apply services_step_ok]. split; [apply NoDup_nil_2|].
    intros id. simpl. rewrite lookup_empty. split; [|done]. split; [lia|].
    intros [[? ?]|?%not_elem_of_nil]; done. }
  assert (heard s1 ∧ services_ok s1) as [Hh1 Hok1].
  { split; [|apply (services_step_ok s); [done|by exists EMain]].
    unfold main_step in Hs1. rewrite Hm in Hs1. simplify_eq/=. done. }
  assert (heard s' ∧ services_ok s') as [Hh Hok'].
  { clear Hs1. induction Hrtc as [|s1 s2 s' Hstep _ IH]; [done|]. apply IH.
    - by apply (threaded_heard_step s1).
    - apply (services_step_ok s1); [done|].
      destruct Hstep as [?|[[id ?]|[_ ?]]]; [by exists ESrv|by exists (EService id)|by exists EMain]. }
  pose proof Hh as (_ & Hst & Hcase). split_all; [done|by destruct (main s')|done|].
  destruct (decide (main s' = MStopped)) as [Hstop|Hns].
  - left. rewrite Hstop in Hcase. naive_solver.
  - right. split; [done|by apply stopping_ends].
Qed.

(** A client that has connected before [stop] is called, or a server thread that is between
    two clients, lets the thread leave its loop first; and a [Service] that is still at work
    when [stop] has returned uses the io_service of a destroyed [Server]. *)
Definition refused_events : list event := [EMain; ESrv; EMain].
Definition stale_events : list event :=
  [ESrv; EArrive 1; ESrv; ESrv; EMain; EMain; EMain; ESrv; ESrv; EMain; EMain; EService 0].

Theorem threaded_races :
  (∃ s, reachable (eq start) step s ∧ main s = MAborted) ∧
  (∃ s, reachable (eq start) step s ∧ main s = MGone ∧ stale s = true).
Proof.
  split.
  - exists (default start (run refused_events start)). split; [|by vm_compute].
    apply (threaded_run_reachable refused_events). by vm_compute.
  - exists (default start (run stale_events start)). split; [|by vm_compute].
    apply (threaded_run_reachable stale_events). by vm_compute.
Qed.
End Threaded.

(** * Witnesses *)

(** One client is served; then [stop] is called while the server waits for the next. *)
Definition iter_events : list Iter.event :=
  [Iter.ESrv; Iter.EArrive 1; Iter.ESrv; Iter.ESrv; Iter.ESrv].
Definition iter_before : Iter.server := default Iter.start (Iter.run iter_events Iter.start).
Definition iter_after : Iter.server := default Iter.start (Iter.main_step iter_before).
Definition iter_rest : list Iter.event :=
  [Iter.EMain; Iter.ESrv; Iter.EMain; Iter.ESrv; Iter.EMain; Iter.ESrv; Iter.EMain].
Definition iter_end : Iter.server := default Iter.start (Iter.run iter_rest iter_after).

Lemma iter_run_reachable es s : Iter.run es Iter.start = Some s → reachable (eq Iter.start) Iter.step s.
Proof.
  intros H. exists Iter.start. split; [done|]. revert H. generalize Iter.start.
  induction es as [|e es IH]; intros s0 H; simpl in H; [by simplify_eq|].
  apply bind_Some in H as (s1 & He & H). eapply rtc_l; [by exists e|by apply IH].
Qed.
Lemma iter_run_program es s s' :
  Forall (λ e, e = Iter.ESrv ∨ e = Iter.EMain) es → Iter.run es s = Some s' →
  nsteps Iter.program (length es) s s'.
Proof.
  revert s. induction es as [|e es IH]; intros s Hall H; simpl in *; [simplify_eq; constructor|].
  apply Forall_cons in Hall as [He Hall]. apply bind_Some in H as (s1 & H1 & H).
  eapply nsteps_l; [|by apply IH]. destruct He as [-> | ->]; [by left|by right].
Qed.

Lemma iter_stop_witness : Iter.main iter_end = Iter.MStopped ∧ Iter.main iter_end ≠ Iter.MAborted.
Proof.
  split; [vm_compute; reflexivity|].
  assert (reachable (eq Iter.start) Iter.step iter_before) as Hr
    by (apply (iter_run_reachable iter_events); vm_compute; reflexivity).
  assert (nsteps Iter.program (length iter_rest) iter_after iter_end) as Hs
    by (apply iter_run_program; [unfold iter_rest; repeat constructor; auto|vm_compute; reflexivity]).
  destruct (Iter.iter_stop iter_before iter_after (length iter_rest) iter_end Hr) as (_ & _ & H & _);
    [vm_compute; reflexivity..|exact Hs|]. apply H. vm_compute. by split.
Defined.

Definition threaded_events : list Threaded.event := [Threaded.ESrv].
Definition threaded_before : Threaded.server :=
  default Threaded.start (Threaded.run threaded_events Threaded.start).
Definition threaded_after : Threaded.server := default Threaded.start (Threaded.main_step threaded_before).

Lemma threaded_stop_witness : ∃ s, Threaded.stopping threaded_after s.
Proof.
  assert (reachable (eq Threaded.start) Threaded.step threaded_before) as Hr
    by (apply (Threaded.threaded_run_reachable threaded_events); vm_compute; reflexivity).
  destruct (Threaded.threaded_stop threaded_before threaded_after threaded_after Hr)
    as (_ & _ & _ & [(H & _)|(_ & s & Hs & _)]); [vm_compute; reflexivity..|apply rtc_refl|done|by exists s].
Defined.
