(* ===== verification/TcpPeers.v ===== *)
(** Two programs at the ends of a TCP connection.

    A program is a state machine whose actions are the blocking calls of Boost.Asio on its
    socket. [asio::write] and the reads that go on until a condition holds ([asio::read],
    [read_until], a [tcp::iostream]) are loops of [write_some] and [read_some], as the
    documentation of the library defines them. How much one of these transfers is the
    network's choice, within what has been sent and what the connection can hold.

    A program is proved correct by itself, by an invariant of its state and of what it has
    sent and received so far ([preserved]); [peers_invariant] puts two programs together. *)

From S2P Require Import Prelude.
From Stdlib Require Import Ascii.

(** * Programs *)

Abbreviation bytes := (list ascii).

Inductive error := Eof | Code (ec : Z).

(** [Read buf more k] reads on, as long as [more] of what is in the buffer gives a size,
    and at most that size at a time. *)
Inductive action (S : Type) :=
| Write (b : bytes) (k : option error → S)
| WriteSome (b : bytes) (k : nat + error → S)
| Read (buf : bytes) (more : bytes → option nat) (k : bytes → option error → S)
| Shutdown (k : S)
| Tick (k : S)
| Close.
Arguments Write {S}.
Arguments WriteSome {S}.
Arguments Read {S}.
Arguments Shutdown {S}.
Arguments Tick {S}.
Arguments Close {S}.

(** [asio::read] into a buffer of [n] bytes, and into a [streambuf]; [read_some]; and
    reading until [delim] is among the bytes. A [streambuf] asks for 512 bytes at a time. *)
Definition exactly (n : nat) (buf : bytes) : option nat :=
  if length buf <? n then Some (n - length buf) else None.
Definition to_the_end (buf : bytes) : option nat := Some 512.
Definition until (delim : ascii) (buf : bytes) : option nat :=
  if decide (delim ∈ buf) then None else Some 512.

(** A program between actions, inside one of the loops, or with its socket closed. *)
Inductive thread (S : Type) :=
| At (s : S)
| Sending (rest : bytes) (k : option error → S)
| Receiving (buf : bytes) (more : bytes → option nat) (k : bytes → option error → S)
| Closed (s : S).
Arguments At {S}.
Arguments Sending {S}.
Arguments Receiving {S}.
Arguments Closed {S}.

(** What one end has sent and received, whether it has seen the end of the other's stream,
    and whether it has ended its own. *)
Record hist := Hist { sent : bytes; got : bytes; eof : bool; shut : bool }.
Definition no_hist : hist := Hist [] [] false false.

Inductive event := Sent (b : bytes) | Got (b : bytes) | GotEof | Shut | Failed | Internal.

Definition note (ev : event) (h : hist) : hist :=
  match ev with
  | Sent b => Hist (sent h ++ b) (got h) (eof h) (shut h)
  | Got b => Hist (sent h) (got h ++ b) (eof h) (shut h)
  | GotEof => Hist (sent h) (got h) true (shut h)
  | Shut => Hist (sent h) (got h) (eof h) true
  | Failed | Internal => h
  end.

(** The steps of one program, whatever the network does. *)
Inductive moves {S} (act : S → action S) : thread S → event → thread S → Prop :=
| MWrite s b k : act s = Write b k → moves act (At s) Internal (Sending b k)
| MSend rest n k : 1 ≤ n ≤ length rest → moves act (Sending rest k) (Sent (take n rest)) (Sending (drop n rest) k)
| MSent k : moves act (Sending [] k) Internal (At (k None))
| MSendFails rest k c : rest ≠ [] → moves act (Sending rest k) Failed (At (k (Some (Code c))))
| MWriteSome s b k n :
    act s = WriteSome b k → 1 ≤ n ≤ length b → moves act (At s) (Sent (take n b)) (At (k (inl n)))
| MWriteNone s k : act s = WriteSome [] k → moves act (At s) Internal (At (k (inl 0)))
| MWriteFails s b k c : act s = WriteSome b k → moves act (At s) Failed (At (k (inr (Code c))))
| MRead s buf more k : act s = Read buf more k → moves act (At s) Internal (Receiving buf more k)
| MReceive buf more k m b :
    more buf = Some m → 1 ≤ length b ≤ m → moves act (Receiving buf more k) (Got b) (Receiving (buf ++ b) more k)
| MReceived buf more k : more buf = None → moves act (Receiving buf more k) Internal (At (k buf None))
| MEof buf more k m : more buf = Some m → moves act (Receiving buf more k) GotEof (At (k buf (Some Eof)))
| MReadFails buf more k m c :
    more buf = Some m → moves act (Receiving buf more k) Failed (At (k buf (Some (Code c))))
| MShutdown s k : act s = Shutdown k → moves act (At s) Shut (At k)
| MTick s k : act s = Tick k → moves act (At s) Internal (At k)
| MClose s : act s = Close → moves act (At s) Shut (Closed s).

(** * One program by itself *)

Section one.
Context {S : Type} (act : S → action S) (lossy : bool) (I : S → hist → Prop).

(** [reads more buf x]: pieces of the allowed sizes make [x]. *)
Inductive reads (more : bytes → option nat) : bytes → bytes → Prop :=
| ReadsNil buf : reads more buf []
| ReadsMore buf m b x :
    more buf = Some m → 1 ≤ length b ≤ m → reads more (buf ++ b) x → reads more buf (b ++ x).

(** The invariant between actions, and what it is inside a loop: what it must be when the
    loop is over. *)
Definition upto (t : thread S) (h : hist) : Prop :=
  match t with
  | At s | Closed s => I s h
  | Sending rest k =>
      I (k None) (note (Sent rest) h) ∧
      (lossy = true → ∀ c n, n < length rest → I (k (Some (Code c))) (note (Sent (take n rest)) h))
  | Receiving buf more k =>
      ∀ x, reads more buf x →
        (more (buf ++ x) = None → I (k (buf ++ x) None) (note (Got x) h)) ∧
        (∀ m, more (buf ++ x) = Some m →
           I (k (buf ++ x) (Some Eof)) (note GotEof (note (Got x) h)) ∧
           (lossy = true → ∀ c, I (k (buf ++ x) (Some (Code c))) (note (Got x) h)))
  end.

Definition wp (a : action S) (h : hist) : Prop :=
  match a with
  | Write b k => upto (Sending b k) h
  | WriteSome b k =>
      (∀ n, 1 ≤ n ≤ length b → I (k (inl n)) (note (Sent (take n b)) h)) ∧ (b = [] → I (k (inl 0)) h) ∧
      (lossy = true → ∀ c, I (k (inr (Code c))) h)
  | Read buf more k => upto (Receiving buf more k) h
  | Shutdown k => I k (note Shut h)
  | Tick k => I k h
  | Close => True
  end.

(** The program keeps its invariant, which does not look at whether the stream is ended
    when the program closes its socket. *)
Definition preserved : Prop :=
  ∀ s h, I s h → wp (act s) h ∧ (act s = Close → I s (note Shut h)).

Lemma upto_sending rest n k h :
  n ≤ length rest → upto (Sending rest k) h → upto (Sending (drop n rest) k) (note (Sent (take n rest)) h).
Proof.
  intros Hn [Hd Hf]. simpl in *. rewrite <- !app_assoc, take_drop. split; [done|].
  intros Hl c m Hm. rewrite length_drop in Hm. specialize (Hf Hl c (n + m)).
  rewrite <- take_take_drop in Hf. simpl in Hf. rewrite <- app_assoc. apply Hf. lia.
Qed.

Lemma upto_receiving buf more k m b h :
  more buf = Some m → 1 ≤ length b ≤ m → upto (Receiving buf more k) h →
  upto (Receiving (buf ++ b) more k) (note (Got b) h).
Proof.
  intros Hm Hb H x Hx. specialize (H (b ++ x) (ReadsMore _ _ _ _ _ Hm Hb Hx)).
  simpl in *. rewrite !(assoc_L (++)) in *. exact H.
Qed.

Lemma moves_upto t ev t' h :
  preserved → upto t h → moves act t ev t' → (ev = Failed → lossy = true) → upto t' (note ev h).
Proof.
  intros Hp Ht Hm Hl. destruct Hm as [s b k Ha|rest n k Hn|k|rest k c Hr|s b k n Ha Hn|s k Ha|s b k c Ha|s buf more k Ha|buf more k m b Hm Hb|buf more k Hm|buf more k m Hm|buf more k m c Hm|s k Ha|s k Ha|s Ha];
    try (destruct (Hp s h Ht) as [Hw Hc]; rewrite Ha in Hw).
  - exact Hw.
  - apply upto_sending; [lia|done].
  - destruct Ht as [Ht _]. simpl in *. rewrite app_nil_r in Ht. by destruct h.
  - destruct Ht as [_ Ht]. specialize (Ht (Hl eq_refl) c 0). rewrite take_0 in Ht. simpl in *.
    rewrite app_nil_r in Ht. destruct h. apply Ht. destruct rest; [done|]. simpl. lia.
  - by apply Hw.
  - by apply Hw.
  - destruct Hw as (_ & _ & Hw). by apply Hw, Hl.
  - exact Hw.
  - by eapply upto_receiving.
  - destruct (Ht [] (ReadsNil _ _)) as [Ht1 _]. rewrite app_nil_r in Ht1. simpl in *.
    rewrite app_nil_r in Ht1. destruct h. by apply Ht1.
  - destruct (Ht [] (ReadsNil _ _)) as [_ Ht2]. rewrite app_nil_r in Ht2. simpl in *.
    rewrite app_nil_r in Ht2. by eapply Ht2.
  - destruct (Ht [] (ReadsNil _ _)) as [_ Ht2]. rewrite app_nil_r in Ht2. simpl in *.
    rewrite app_nil_r in Ht2. destruct h. eapply Ht2; [done|]. by apply Hl.
  - exact Hw.
  - exact Hw.
  - simpl. by apply Hc.
Qed.

(** Inside a loop, the state and the history in which it was begun. *)
Definition inside (t : thread S) (h : hist) : Prop :=
  match t with
  | At s | Closed s => I s h
  | Sending rest k =>
      ∃ s h0 b, act s = Write (b ++ rest) k ∧ I s h0 ∧ h = note (Sent b) h0
  | Receiving buf more k =>
      ∃ s h0 b x, act s = Read b more k ∧ I s h0 ∧ reads more b x ∧ buf = b ++ x ∧ h = note (Got x) h0
  end.

Lemma reads_snoc more buf x m b :
  reads more buf x → more (buf ++ x) = Some m → 1 ≤ length b ≤ m → reads more buf (x ++ b).
Proof.
  induction 1 as [buf|buf m' y x Hm Hy _ IH]; intros Hmore Hb.
  - rewrite app_nil_r in Hmore. rewrite app_nil_l, <- (app_nil_r b). eapply ReadsMore; [done|done|constructor].
  - rewrite <- app_assoc. eapply ReadsMore; [done|done|]. apply IH; [|done]. by rewrite <- (assoc_L (++)).
Qed.

Lemma moves_inside t ev t' h :
  preserved → inside t h → upto t' (note ev h) → moves act t ev t' → inside t' (note ev h).
Proof.
  intros Hp Hi Hu Hm. destruct Hm as [s b k Ha|rest n k Hn|k|rest k c Hr|s b k n Ha Hn|s k Ha|s b k c Ha|s buf more k Ha|buf more k m b Hm Hb|buf more k Hm|buf more k m Hm|buf more k m c Hm|s k Ha|s k Ha|s Ha];
    try exact Hu; cbn [inside] in *.
  - exists s, h, []. split_all; [done|done|]. destruct h. simpl. by rewrite app_nil_r.
  - destruct Hi as (s & h0 & b & Ha & Hs & ->). exists s, h0, (b ++ take n rest). split_all; [|done|].
    + by rewrite <- app_assoc, take_drop.
    + simpl. by rewrite app_assoc.
  - exists s, h, buf, []. split_all; [done|done|constructor|by rewrite app_nil_r|]. destruct h. simpl. by rewrite app_nil_r.
  - destruct Hi as (s & h0 & b0 & x & Ha & Hs & Hr & -> & ->). exists s, h0, b0, (x ++ b).
    split_all; [done|done|by eapply reads_snoc|by rewrite app_assoc|]. simpl. by rewrite app_assoc.
Qed.
End one.

(** Reading a given number of bytes gives that number. *)
Lemma reads_exactly n buf x : reads (exactly n) buf x → length buf ≤ n → length (buf ++ x) ≤ n.
Proof.
  induction 1 as [buf|buf m b x Hm Hb _ IH]; intros Hl; [by rewrite app_nil_r|].
  rewrite (assoc_L (++)). apply IH. unfold exactly in Hm. case_match; simplify_eq.
  rewrite length_app. lia.
Qed.
Lemma exactly_None n buf : exactly n buf = None → n ≤ length buf.
Proof. unfold exactly. destruct (Nat.ltb_spec (length buf) n); done. Qed.
Lemma exactly_Some n buf m : exactly n buf = Some m → length buf < n.
Proof. unfold exactly. destruct (Nat.ltb_spec (length buf) n); done. Qed.
Lemma exactly_pos n buf m : exactly n buf = Some m → 0 < m.
Proof. unfold exactly. destruct (Nat.ltb_spec (length buf) n); [|done]. intros [= <-]. lia. Qed.
Lemma until_None d buf : until d buf = None → d ∈ buf.
Proof. unfold until. by case_decide. Qed.
Lemma until_Some d buf m : until d buf = Some m → d ∉ buf.
Proof. unfold until. by case_decide. Qed.

(** * Two programs *)

Section two.
Context {S1 S2 : Type} (act1 : S1 → action S1) (act2 : S2 → action S2).
(** How many bytes the connection holds in each direction, and whether it can fail. *)
Context (cap : nat) (lossy : bool).

Record system := System { t1 : thread S1; h1 : hist; t2 : thread S2; h2 : hist }.

(** What the connection allows the program with history [mine]: bytes arrive in order, none
    is made up, the end comes after the last of them. *)
Definition may (ev : event) (mine other : hist) : Prop :=
  match ev with
  | Sent b => shut mine = false ∧ length (sent mine) + length b ≤ cap + length (got other)
  | Got b => ∃ r, sent other = got mine ++ b ++ r
  | GotEof => sent other = got mine ∧ shut other = true
  | Failed => lossy = true
  | Shut | Internal => True
  end.

Inductive peers_step : system → system → Prop :=
| Left t h u k ev t' : moves act1 t ev t' → may ev h k → peers_step (System t h u k) (System t' (note ev h) u k)
| Right t h u k ev u' : moves act2 u ev u' → may ev k h → peers_step (System t h u k) (System t h u' (note ev k)).

Definition connect (s1 : S1) (s2 : S2) : system := System (At s1) no_hist (At s2) no_hist.
Definition running (s1 : S1) (s2 : S2) : system → Prop := reachable (λ σ, σ = connect s1 s2) peers_step.

Lemma running_ind (P : system → Prop) s1 s2 :
  P (connect s1 s2) → (∀ σ σ', running s1 s2 σ → P σ → running s1 s2 σ' → peers_step σ σ' → P σ') →
  ∀ σ, running s1 s2 σ → P σ.
Proof.
  intros H0 Hstep σ Hr. enough (running s1 s2 σ ∧ P σ) as [_ ?] by done. revert σ Hr.
  unfold running. apply invariant_reachable; [intros ? ->; split; [by apply reachable_init|done]|].
  intros σ σ' [Hr HP] Hs. pose proof (reachable_step _ _ _ _ Hr Hs). split; [done|]. by apply (Hstep σ).
Qed.

(** The stream [b] is what has arrived of the stream of [a]. *)
Definition stream (a b : hist) : Prop :=
  got b `prefix_of` sent a ∧ (eof b = true → got b = sent a ∧ shut a = true).

Lemma stream_out ev a b : stream a b → may ev a b → stream (note ev a) b.
Proof.
  intros [Hp He] Hm. destruct ev as [x|x| | | |]; simpl; try done.
  - destruct Hm as [Hs _]. split; [by apply prefix_app_r|]. intros Hb. destruct (He Hb). congruence.
  - split; [done|]. intros Hb. by destruct (He Hb).
Qed.
Lemma stream_in ev a b : stream a b → may ev b a → stream a (note ev b).
Proof.
  intros [Hp He] Hm. destruct ev as [x|x| | | |]; simpl; try done.
  - destruct Hm as [r Hr]. split; [exists r; by rewrite Hr, app_assoc|]. intros Hb. destruct (He Hb) as [Hg Hs].
    simpl in *. rewrite Hr in Hg. split; [|done]. assert (x ++ r = []) as Hnil.
    { apply (app_inv_head (got b)). by rewrite app_nil_r. }
    apply app_nil in Hnil as [-> ->]. by rewrite Hr.
  - destruct Hm as [Hs Hsh]. split; [done|]. by rewrite Hs.
Qed.

Lemma peers_invariant (I1 : S1 → hist → Prop) (I2 : S2 → hist → Prop) s1 s2 σ :
  preserved act1 lossy I1 → preserved act2 lossy I2 → I1 s1 no_hist → I2 s2 no_hist →
  running s1 s2 σ →
  upto lossy I1 (t1 σ) (h1 σ) ∧ upto lossy I2 (t2 σ) (h2 σ) ∧ stream (h1 σ) (h2 σ) ∧ stream (h2 σ) (h1 σ).
Proof.
  intros Hp1 Hp2 Hs1 Hs2. revert σ. unfold running. apply invariant_reachable.
  - intros ? ->. simpl. split_all; [done|done| |]; split; try done; apply prefix_nil.
  - intros σ1 σ2 (H1 & H2 & H12 & H21) Hstep. destruct Hstep as [t h u k ev t' Hm Hmay|t h u k ev u' Hm Hmay]; simpl in *.
    + split_all; [|done|by apply stream_out|by apply stream_in].
      apply (moves_upto act1 lossy I1 t); [done|done|done|]. by intros ->.
    + split_all; [done| |by apply stream_in|by apply stream_out].
      apply (moves_upto act2 lossy I2 u); [done|done|done|]. by intros ->.
Qed.

Lemma peers_inside (I1 : S1 → hist → Prop) (I2 : S2 → hist → Prop) s1 s2 σ :
  preserved act1 lossy I1 → preserved act2 lossy I2 → I1 s1 no_hist → I2 s2 no_hist →
  running s1 s2 σ →
  inside act1 I1 (t1 σ) (h1 σ) ∧ inside act2 I2 (t2 σ) (h2 σ) ∧ stream (h1 σ) (h2 σ) ∧ stream (h2 σ) (h1 σ).
Proof.
  intros Hp1 Hp2 Hs1 Hs2 Hr. pose proof (peers_invariant I1 I2 s1 s2 σ Hp1 Hp2 Hs1 Hs2 Hr) as (_ & _ & H12 & H21).
  enough (inside act1 I1 (t1 σ) (h1 σ) ∧ inside act2 I2 (t2 σ) (h2 σ)) by tauto. clear H12 H21.
  revert σ Hr. apply running_ind; [done|]. intros σ1 σ2 _ [I1' I2'] Hrun Hstep.
  destruct (peers_invariant I1 I2 s1 s2 σ2 Hp1 Hp2 Hs1 Hs2 Hrun) as (U1 & U2 & _ & _).
  destruct Hstep as [t h u k ev t' Hm Hmay|t h u k ev u' Hm Hmay]; simpl in *.
  - split; [by eapply moves_inside|done].
  - split; [done|by eapply moves_inside].
Qed.

(** A closed socket has ended its stream. *)
Definition closed_shut {S} (t : thread S) (h : hist) : Prop :=
  match t with Closed _ => shut h = true | _ => True end.
Lemma moves_closed_shut {S} (act : S → action S) t ev t' h :
  moves act t ev t' → closed_shut t' (note ev h).
Proof. by destruct 1. Qed.
Lemma peers_closed_shut s1 s2 σ : running s1 s2 σ → closed_shut (t1 σ) (h1 σ) ∧ closed_shut (t2 σ) (h2 σ).
Proof.
  revert σ. unfold running. apply invariant_reachable; [by intros ? ->|].
  intros σ1 σ2 [H1 H2] Hstep. destruct Hstep as [t h u k ev t' Hm Hmay|t h u k ev u' Hm Hmay]; simpl in *.
  - split; [by eapply moves_closed_shut|done].
  - split; [done|by eapply moves_closed_shut].
Qed.

(** A loop is the loop of an action of the program, and it closes its socket itself. *)
Definition from {S} (act : S → action S) (t : thread S) : Prop :=
  match t with
  | At _ => True
  | Closed s => act s = Close
  | Sending _ k => ∃ s b, act s = Write b k
  | Receiving _ more k => ∃ s b, act s = Read b more k
  end.
Lemma moves_from {S} (act : S → action S) t ev t' : moves act t ev t' → from act t → from act t'.
Proof. destruct 1; simpl; eauto. Qed.
Lemma peers_from s1 s2 σ : running s1 s2 σ → from act1 (t1 σ) ∧ from act2 (t2 σ).
Proof.
  revert σ. unfold running. apply invariant_reachable; [by intros ? ->|].
  intros σ1 σ2 [H1 H2] Hstep. destruct Hstep as [t h u k ev t' Hm Hmay|t h u k ev u' Hm Hmay]; simpl in *.
  - split; [by eapply moves_from|done].
  - split; [done|by eapply moves_from].
Qed.

(** As long as neither stream is ended, neither is, if no program then comes to end it. *)
Definition ending {S} (act : S → action S) (t : thread S) : Prop :=
  ∃ s, t = At s ∧ (act s = Close ∨ ∃ k, act s = Shutdown k).
Lemma moves_ending {S} (act : S → action S) t ev t' h :
  moves act t ev t' → ¬ ending act t → shut (note ev h) = shut h.
Proof.
  destruct 1; intros Hn; try done; destruct Hn; unfold ending; eauto.
Qed.
Lemma peers_never_end s1 s2 σ :
  (∀ σ, running s1 s2 σ → shut (h1 σ) = false → shut (h2 σ) = false → ¬ ending act1 (t1 σ) ∧ ¬ ending act2 (t2 σ)) →
  running s1 s2 σ → shut (h1 σ) = false ∧ shut (h2 σ) = false.
Proof.
  intros Hne. revert σ. apply running_ind; [done|]. intros σ1 σ2 Hr [IH1 IH2] _ Hstep.
  destruct (Hne σ1 Hr IH1 IH2) as [E1 E2].
  destruct Hstep as [t h u k ev t' Hm Hmay|t h u k ev u' Hm Hmay]; simpl in *.
  - split; [|done]. by rewrite (moves_ending act1 t ev t').
  - split; [done|]. by rewrite (moves_ending act2 u ev u').
Qed.

(** ** When nothing moves *)

Definition stuck (σ : system) : Prop := ∀ σ', ¬ peers_step σ σ'.

(** What a program waits for. *)
Definition waits {S} (act : S → action S) (t : thread S) (mine other : hist) : Prop :=
  match t with
  | Closed _ => True
  | At s => ∃ b k, act s = WriteSome b k ∧ b ≠ [] ∧ (shut mine = true ∨ cap + length (got other) ≤ length (sent mine))
  | Sending rest _ => rest ≠ [] ∧ (shut mine = true ∨ cap + length (got other) ≤ length (sent mine))
  | Receiving buf more _ =>
      ∃ m, more buf = Some m ∧ (0 < m → got mine = sent other ∧ shut other = false)
  end.

Lemma cannot_send b mine other :
  (¬ may (Sent (take 1 b)) mine other) → b ≠ [] →
  shut mine = true ∨ cap + length (got other) ≤ length (sent mine).
Proof.
  intros Hn Hb. destruct (shut mine) eqn:Hs; [by left|]. right. apply not_gt. intros Hlt. apply Hn.
  split; [done|]. destruct b; [done|]. simpl. lia.
Qed.

Lemma no_moves_waits {S} (act : S → action S) t mine other :
  stream other mine → (∀ ev t', moves act t ev t' → ¬ may ev mine other) → waits act t mine other.
Proof.
  intros [[r Hr] _] Hn. destruct t as [s|rest k|buf more k|s]; simpl; [| | |done].
  - destruct (act s) as [b k|b k|buf more k|k|k|] eqn:Ha.
    + by destruct (Hn _ _ (MWrite act _ _ _ Ha)).
    + destruct b as [|c b]; [by destruct (Hn _ _ (MWriteNone act _ _ Ha))|]. exists (c :: b), k.
      split; [done|]. split; [done|]. apply (cannot_send (c :: b)); [|done].
      apply (Hn _ _ (MWriteSome act _ (c :: b) k 1 Ha ltac:(simpl; lia))).
    + by destruct (Hn _ _ (MRead act _ _ _ _ Ha)).
    + by destruct (Hn _ _ (MShutdown act _ _ Ha)).
    + by destruct (Hn _ _ (MTick act _ _ Ha)).
    + by destruct (Hn _ _ (MClose act _ Ha)).
  - destruct rest as [|c rest]; [by destruct (Hn _ _ (MSent act k))|]. split; [done|].
    apply (cannot_send (c :: rest)); [|done]. apply (Hn _ _ (MSend act (c :: rest) 1 k ltac:(simpl; lia))).
  - destruct (more buf) as [m|] eqn:Hm; [|by destruct (Hn _ _ (MReceived act _ _ _ Hm))].
    exists m. split; [done|]. intros Hpos.
    destruct r as [|c r].
    + rewrite app_nil_r in Hr. split; [done|]. destruct (shut other) eqn:Hs; [|done].
      by destruct (Hn _ _ (MEof act _ _ k _ Hm)).
    + destruct (Hn _ _ (MReceive act _ _ k _ [c] Hm ltac:(simpl; lia))). by exists r.
Qed.

Lemma stuck_waits σ :
  stream (h1 σ) (h2 σ) → stream (h2 σ) (h1 σ) → stuck σ →
  waits act1 (t1 σ) (h1 σ) (h2 σ) ∧ waits act2 (t2 σ) (h2 σ) (h1 σ).
Proof.
  destruct σ as [t h u k]. intros H12 H21 Hs. split; (apply no_moves_waits; [done|]).
  - intros ev t' Hm Hmay. by apply (Hs (System t' (note ev h) u k)), Left.
  - intros ev u' Hm Hmay. by apply (Hs (System t h u' (note ev k))), Right.
Qed.

(** Nothing moves when both programs wait. *)
Lemma waits_no_move {S} (act : S → action S) t mine other ev t' :
  lossy = false → waits act t mine other →
  match t with Receiving buf more _ => more buf ≠ Some 0 | _ => True end →
  moves act t ev t' → ¬ may ev mine other.
Proof.
  intros Hl Hw H0 Hm Hmay. destruct Hm as [s b k Ha|rest n k Hn|k|rest k c Hr|s b k n Ha Hn|s k Ha|s b k c Ha|s buf more k Ha|buf more k m b Hm Hb|buf more k Hm|buf more k m Hm|buf more k m c Hm|s k Ha|s k Ha|s Ha];
    simpl in *; try congruence;
    try (destruct Hw as (b2 & k2 & Ha2 & Hb2 & Hs); congruence);
    try (destruct Hw as (m2 & Hm2 & Hw); assert (m2 = m) as -> by congruence;
         destruct Hw as [Hg Hsh]; [destruct m; [done|lia]|]).
  - destruct Hw as [_ [Hs|Hs]]; destruct Hmay as [Hsh Hlen]; [congruence|].
    rewrite length_take in Hlen. lia.
  - by destruct Hw.
  - destruct Hw as (b2 & k2 & Ha2 & _ & Hs). assert (b2 = b) as -> by congruence.
    destruct Hmay as [Hsh Hlen]. rewrite length_take in Hlen. destruct Hs; [congruence|lia].
  - destruct Hmay as [r Hr]. rewrite <- Hg in Hr. apply (f_equal length) in Hr.
    rewrite !length_app in Hr. lia.
  - destruct Hw as (m2 & Hm2 & _). congruence.
  - destruct Hmay. congruence.
Qed.

(** ** Runs are finite

    [done s] counts the actions a program has completed, at least; when it and the bytes
    that are sent have bounds, so has the length of a run. *)

Definition counts {S} (act : S → action S) (I : S → hist → Prop) (done : S → nat) : Prop :=
  ∀ s h, I s h →
       match act s with
       | Write _ k => ∀ r, done s < done (k r)
       | WriteSome b k =>
           (∀ n, 1 ≤ n ≤ length b → done s < done (k (inl n))) ∧ (b = [] → done s < done (k (inl 0))) ∧
           ∀ e, done s < done (k (inr e))
       | Read _ _ k => ∀ b r, done s < done (k b r)
       | Shutdown k | Tick k => done s < done k
       | Close => True
       end.
Definition counted {S} (done : S → nat) (t : thread S) (d : nat) : Prop :=
  match t with
  | At s => d ≤ done s
  | Sending _ k => ∀ r, d < done (k r)
  | Receiving _ _ k => ∀ b r, d < done (k b r)
  | Closed s => d ≤ done s
  end.
Definition begun {S} (t : thread S) : nat := match t with At _ => 0 | _ => 1 end.
Definition moved (h : hist) : nat := length (sent h) + length (got h).

Lemma moves_counted {S} (act : S → action S) I done t ev t' d h :
  counts act I done → upto lossy I t h → counted done t d → moves act t ev t' →
  ∃ d', counted done t' d' ∧ 1 + moved h + 2 * d + begun t ≤ moved (note ev h) + 2 * d' + begun t'.
Proof.
  intros Hc Hu Ht Hm. unfold moved. destruct Hm as [s b k Ha|rest n k Hn|k|rest k c Hr|s b k n Ha Hn|s k Ha|s b k c Ha|s buf more k Ha|buf more k m b Hm Hb|buf more k Hm|buf more k m Hm|buf more k m c Hm|s k Ha|s k Ha|s Ha];
    try (pose proof (Hc s h Hu) as Hs; rewrite Ha in Hs); cbn [begun note sent got counted] in *;
    try (exists (1 + d); split; [first [done | destruct Hs as (Hs & _); specialize (Hs n Hn); lia | destruct Hs as (_ & Hs & _); specialize (Hs eq_refl); lia | destruct Hs as (_ & _ & Hs); specialize (Hs (Code c)); lia | apply Ht | lia]|]; rewrite ?length_app, ?length_take; lia).
  - exists d. split; [|lia]. intros r. specialize (Hs r). lia.
  - exists d. split; [done|]. rewrite length_app, length_take. lia.
  - exists d. split; [|lia]. intros b r. specialize (Hs b r). lia.
  - exists d. split; [done|]. rewrite length_app. lia.
  - exists d. split; [done|lia].
Qed.

Lemma upto_counted {S} (I : S → hist → Prop) done (f : bytes → nat) t h d :
  (∀ s h, I s h → done s ≤ f (got h)) → upto lossy I t h → counted done t d → d ≤ f (got h).
Proof.
  intros Hf Hu Hd. destruct t as [s|rest k|buf more k|s]; simpl in *.
  - specialize (Hf _ _ Hu). lia.
  - destruct Hu as [Hu _]. specialize (Hf _ _ Hu). specialize (Hd None). simpl in Hf. lia.
  - destruct (Hu [] (ReadsNil _ _)) as [H1 H2]. rewrite app_nil_r in H1, H2. simpl in H1, H2. rewrite app_nil_r in H1, H2.
    destruct (more buf) as [m|] eqn:Hm.
    + destruct (H2 m eq_refl) as [H3 _]. specialize (Hf _ _ H3). specialize (Hd buf (Some Eof)). simpl in Hf. lia.
    + specialize (Hf _ _ (H1 eq_refl)). specialize (Hd buf None). simpl in Hf. lia.
  - specialize (Hf _ _ Hu). lia.
Qed.

(** Facts about what is sent carry over into the loops. *)
Lemma upto_sent {S} (I : S → hist → Prop) text t h :
  (∀ s h, I s h → sent h `prefix_of` text) → upto lossy I t h → sent h `prefix_of` text.
Proof.
  intros Hf Hu. destruct t as [s|rest k|buf more k|s]; simpl in *; [by apply (Hf s)| | |by apply (Hf s)].
  - destruct Hu as [Hu _]. apply Hf in Hu. simpl in Hu. by apply prefix_app_l in Hu.
  - destruct (Hu [] (ReadsNil _ _)) as [H1 H2]. rewrite app_nil_r in H1, H2.
    destruct (more buf) as [m|] eqn:Hm.
    + destruct (H2 m eq_refl) as [H3 _]. by apply Hf in H3.
    + specialize (H1 eq_refl). by apply Hf in H1.
Qed.

Lemma peers_finite (I1 : S1 → hist → Prop) (I2 : S2 → hist → Prop) s1 s2 done1 done2 f1 f2 n σ :
  counts act1 I1 done1 → counts act2 I2 done2 →
  (∀ σ, running s1 s2 σ → upto lossy I1 (t1 σ) (h1 σ) ∧ upto lossy I2 (t2 σ) (h2 σ)) →
  (∀ s h, I1 s h → done1 s ≤ f1 (got h)) → (∀ s h, I2 s h → done2 s ≤ f2 (got h)) →
  nsteps peers_step n (connect s1 s2) σ →
  n ≤ moved (h1 σ) + moved (h2 σ) + 2 * (f1 (got (h1 σ)) + f2 (got (h2 σ))) + 2.
Proof.
  intros Hc1 Hc2 Hinv Hf1 Hf2 Hn.
  assert (∃ d1 d2, counted done1 (t1 σ) d1 ∧ counted done2 (t2 σ) d2 ∧
    n ≤ moved (h1 σ) + moved (h2 σ) + 2 * (d1 + d2) + begun (t1 σ) + begun (t2 σ)) as (d1 & d2 & H1 & H2 & Hle).
  { revert σ Hn. induction n as [|n IH]; intros σ Hn.
    - inversion Hn; subst. exists 0, 0. simpl. split_all; lia.
    - apply nsteps_inv_r in Hn as (σ' & Hn & Hstep). destruct (IH σ' Hn) as (d1 & d2 & H1 & H2 & Hle).
      assert (running s1 s2 σ') as Hrun by (exists (connect s1 s2); split; [done|by eapply rtc_nsteps_2]).
      destruct (Hinv σ' Hrun) as [Hu1 Hu2].
      destruct Hstep as [t h u k ev t' Hm Hmay|t h u k ev u' Hm Hmay]; simpl in *.
      + destruct (moves_counted act1 I1 done1 t ev t' d1 h Hc1 Hu1 H1 Hm) as (d & Hd & ?). exists d, d2. split_all; [done|done|lia].
      + destruct (moves_counted act2 I2 done2 u ev u' d2 k Hc2 Hu2 H2 Hm) as (d & Hd & ?). exists d1, d. split_all; [done|done|lia]. }
  assert (running s1 s2 σ) as Hrun by (exists (connect s1 s2); split; [done|by eapply rtc_nsteps_2]).
  destruct (Hinv σ Hrun) as [Hu1 Hu2].
  pose proof (upto_counted I1 done1 f1 _ _ _ Hf1 Hu1 H1). pose proof (upto_counted I2 done2 f2 _ _ _ Hf2 Hu2 H2).
  assert (∀ P (t : thread P), begun t ≤ 1) as Hb by (intros P []; simpl; lia).
  pose proof (Hb _ (t1 σ)). pose proof (Hb _ (t2 σ)). lia.
Qed.

(** ** A run that is written out *)

(** What a program does when [n] bytes can be moved; none of a read is the end. *)
Definition advance {S} (act : S → action S) (n : nat) (t : thread S) (mine other : hist) : option (event * thread S) :=
  match t with
  | At s =>
      match act s with
      | Write b k => Some (Internal, Sending b k)
      | WriteSome [] k => Some (Internal, At (k (inl 0)))
      | WriteSome b k => if decide (1 ≤ n ≤ length b) then Some (Sent (take n b), At (k (inl n))) else None
      | Read buf more k => Some (Internal, Receiving buf more k)
      | Shutdown k => Some (Shut, At k)
      | Tick k => Some (Internal, At k)
      | Close => Some (Shut, Closed s)
      end
  | Sending [] k => Some (Internal, At (k None))
  | Sending rest k => if decide (1 ≤ n ≤ length rest) then Some (Sent (take n rest), Sending (drop n rest) k) else None
  | Receiving buf more k =>
      match more buf with
      | None => Some (Internal, At (k buf None))
      | Some m =>
          let b := take n (drop (length (got mine)) (sent other)) in
          if decide (n = 0) then Some (GotEof, At (k buf (Some Eof)))
          else if decide (1 ≤ length b ≤ m) then Some (Got b, Receiving (buf ++ b) more k) else None
      end
  | Closed _ => None
  end.
Definition allowed (ev : event) (mine other : hist) : bool :=
  match ev with
  | Sent b => bool_decide (shut mine = false ∧ length (sent mine) + length b ≤ cap + length (got other))
  | Got b => bool_decide (sent other = got mine ++ b ++ drop (length (got mine ++ b)) (sent other))
  | GotEof => bool_decide (sent other = got mine ∧ shut other = true)
  | Failed => false
  | Shut | Internal => true
  end.
Definition turn (left_one : bool) (n : nat) (σ : system) : option system :=
  let '(System t h u k) := σ in
  if left_one then
    '(ev, t) ← advance act1 n t h k; if allowed ev h k then Some (System t (note ev h) u k) else None
  else
    '(ev, u) ← advance act2 n u k h; if allowed ev k h then Some (System t h u (note ev k)) else None.
Fixpoint turns (l : list (bool * nat)) (σ : system) : option system :=
  match l with [] => Some σ | (b, n) :: l => σ ← turn b n σ; turns l σ end.

Lemma advance_moves {S} (act : S → action S) n t mine other ev t' :
  advance act n t mine other = Some (ev, t') → moves act t ev t'.
Proof.
  destruct t as [s|[|c rest] k|buf more k|s]; simpl; intros H; [destruct (act s) as [b k|[|c b] k|buf more k|k|k|] eqn:Ha| | | |done].
  all: try (simplify_eq; by econstructor).
  - case_decide; simplify_eq. by apply (MWriteSome act s (c :: b) k n).
  - case_decide; simplify_eq. by apply (MSend act (c :: rest) n k).
  - destruct (more buf) as [m|] eqn:Hm; [|simplify_eq; by constructor].
    case_decide; [simplify_eq; by eapply MEof|]. case_decide; simplify_eq. by eapply MReceive.
Qed.
Lemma allowed_may ev mine other : allowed ev mine other → may ev mine other.
Proof.
  destruct ev; simpl; [|intros H%bool_decide_unpack; eauto| |done|done|done]; by intros H%bool_decide_unpack.
Qed.
Lemma turns_running l s1 s2 σ σ' : turns l σ = Some σ' → running s1 s2 σ → running s1 s2 σ'.
Proof.
  revert σ. induction l as [|[b n] l IH]; intros σ; simpl; [by intros [= ->]|].
  intros (σ1 & Ht & Hl)%bind_Some Hr. apply (IH σ1 Hl). apply (reachable_step _ _ σ); [done|].
  destruct σ as [t h u k], b; simpl in Ht.
  - apply bind_Some in Ht as ([ev t'] & Ha & Ht). case_match eqn:Hal; simplify_eq.
    apply Left; [by eapply advance_moves|]. apply allowed_may. by rewrite Hal.
  - apply bind_Some in Ht as ([ev u'] & Ha & Ht). case_match eqn:Hal; simplify_eq.
    apply Right; [by eapply advance_moves|]. apply allowed_may. by rewrite Hal.
Qed.
(** A schedule that ends in a deadlock, by evaluation. *)
Definition full (mine other : hist) : bool := shut mine || (cap + length (got other) <=? length (sent mine)).
Definition waiting {S} (act : S → action S) (t : thread S) (mine other : hist) : bool :=
  match t with
  | Closed _ => true
  | At s => match act s with WriteSome (_ :: _) _ => full mine other | _ => false end
  | Sending (_ :: _) _ => full mine other
  | Sending [] _ => false
  | Receiving buf more _ =>
      match more buf with Some (S _) => bool_decide (got mine = sent other) && negb (shut other) | _ => false end
  end.
Definition deadlocks (l : list (bool * nat)) (s1 : S1) (s2 : S2) : bool :=
  match turns l (connect s1 s2) with
  | Some (System t h u k) => waiting act1 t h k && waiting act2 u k h
  | None => false
  end.

Lemma full_spec mine other : full mine other → shut mine = true ∨ cap + length (got other) ≤ length (sent mine).
Proof. unfold full. destruct (shut mine); [by left|]. simpl. intros H%Is_true_true%Nat.leb_le. by right. Qed.
Lemma waiting_waits {S} (act : S → action S) t mine other :
  waiting act t mine other →
  waits act t mine other ∧ match t with Receiving buf more _ => more buf ≠ Some 0 | _ => True end.
Proof.
  destruct t as [s|[|c rest] k|buf more k|s]; simpl; [| | | |done].
  - destruct (act s) as [b k|[|c b] k|buf more k|k|k|] eqn:Ha; try done. intros H%full_spec.
    split; [|done]. by exists (c :: b), k.
  - done.
  - intros H%full_spec. done.
  - destruct (more buf) as [[|m]|] eqn:Hm; try done. intros [H1%bool_decide_unpack H2]%andb_prop_elim.
    split; [|done]. eexists. split; [done|]. intros _. split; [done|]. by destruct (shut other).
Qed.

Lemma turns_start l s1 s2 σ : turns l (connect s1 s2) = Some σ → running s1 s2 σ.
Proof. intros H. apply (turns_running l s1 s2 _ _ H). by apply reachable_init. Qed.

Lemma waiting_stuck t h u k :
  lossy = false → waiting act1 t h k → waiting act2 u k h → stuck (System t h u k).
Proof.
  intros Hl [W1 N1]%waiting_waits [W2 N2]%waiting_waits σ' Hs. inversion Hs; subst.
  - by eapply (waits_no_move act1 t h k).
  - by eapply (waits_no_move act2 u k h).
Qed.
Lemma deadlocks_stuck l s1 s2 : lossy = false → deadlocks l s1 s2 → ∃ σ, running s1 s2 σ ∧ stuck σ.
Proof.
  intros Hl. unfold deadlocks. destruct (turns l (connect s1 s2)) as [[t h u k]|] eqn:Ht; [|done].
  intros [W1 W2]%andb_prop_elim. exists (System t h u k).
  split; [by eapply turns_start|by apply waiting_stuck].
Qed.
End two.
