(* ===== verification/SocketPrograms.v ===== *)
(** Programs that use a socket with blocking calls, two at a time over a connection of
    [TcpPeers]: [write_socket.cpp] with [read_socket.cpp]
    ([src/boost/boost_asio/socket]), and [sync_tcp_client.cpp] with the service of
    [iter_tcp_server.cpp] ([.../dummy_application]). The echo programs are in
    [EchoPrograms].

    A function of the source that does something with the socket is an [action] with the
    states to go on with; a [catch] block is a state. Sleeping is left out, and addresses
    are the connection's business. *)

From S2P Require Import Prelude CppHeap TcpPeers.
From stdpp Require Import pretty.
From Stdlib Require Import Ascii.

Abbreviation lit := String.list_ascii_of_string.
Definition nl : ascii := "010".

(** [std::getline]: the characters before the first newline, which is taken too, and what
    stays. *)
Fixpoint getline (b : bytes) : bytes * bytes :=
  match b with
  | [] => ([], [])
  | c :: b => if decide (c = nl) then ([], b) else let '(line, rest) := getline b in (c :: line, rest)
  end.
Definition lines_text (ls : list bytes) : bytes := concat ((λ l, l ++ [nl]) <$> ls).
Definition line_ok (l : bytes) : Prop := nl ∉ l.

Lemma getline_found b :
  nl ∈ b → ∃ line rest, getline b = (line, rest) ∧ line_ok line ∧ b = line ++ [nl] ++ rest.
Proof.
  unfold line_ok. induction b as [|c b IH]; [by intros ?%not_elem_of_nil|]. simpl. case_decide as Hc.
  - intros _. subst. exists [], b. split_all; [done|apply not_elem_of_nil|done].
  - intros [Heq|Hb]%elem_of_cons; [congruence|]. destruct (IH Hb) as (line & rest & -> & Hl & ->).
    exists (c :: line), rest. split_all; [done| |done]. rewrite not_elem_of_cons. split; [congruence|done].
Qed.

Lemma lines_text_snoc ls l : lines_text (ls ++ [l]) = lines_text ls ++ l ++ [nl].
Proof. unfold lines_text. rewrite fmap_app, concat_app. simpl. by rewrite app_nil_r. Qed.

(** A text has only one division into lines. *)
Lemma line_unique l l2 r r2 :
  line_ok l → line_ok l2 → l ++ [nl] ++ r = l2 ++ [nl] ++ r2 → l = l2 ∧ r = r2.
Proof.
  unfold line_ok. revert l2. induction l as [|c l IH]; intros [|d l2] Hl Hl2 Heq; simplify_eq/=; try done.
  - destruct Hl2. left.
  - destruct Hl. left.
  - rewrite not_elem_of_cons in Hl, Hl2. destruct (IH l2) as [-> ->]; tauto.
Qed.
Lemma lines_unique ls ms r :
  Forall line_ok ls → Forall line_ok ms → lines_text ls ++ r = lines_text ms → ∃ k, ms = ls ++ k ∧ r = lines_text k.
Proof.
  intros Hls. revert ms. induction Hls as [|l ls Hl _ IH]; intros ms Hms Heq; [by exists ms|].
  destruct Hms as [|m ms Hm Hms].
  - unfold lines_text in Heq. simpl in Heq. destruct l; done.
  - unfold lines_text in Heq. simpl in Heq. rewrite <- !app_assoc in Heq.
    apply line_unique in Heq as [-> Heq]; [|done|done]. destruct (IH ms Hms Heq) as (k & -> & Hr). by exists k.
Qed.
Lemma no_newline_no_lines r ls : nl ∉ r → r = lines_text ls → ls = [].
Proof.
  destruct ls as [|l ls]; [done|]. intros Hr ->. destruct Hr. unfold lines_text. simpl.
  rewrite !elem_of_app. left. right. left.
Qed.

(** * write_socket.cpp *)

Module WriteSocket.
Definition writeToSocket {S} (msg : bytes) (total_written : nat) (again : nat → S) (ret : S) (throw : error → S) : action S :=
  if total_written <? length msg then
    WriteSome (drop total_written msg)
      (λ r, match r with inl n => again (total_written + n) | inr e => throw e end)
  else Tick ret.
Definition writeToSocketAsioWrite {S} (msg : bytes) (ret : S) (throw : error → S) : action S :=
  Write msg (λ r, match r with None => ret | Some e => throw e end).

(** The calls of [main] that are left, [true] for [writeToSocket] with its counter. *)
Inductive state := Calls (todo : list bool) (total_written : nat) | Returned | Caught (e : error).
Definition main_act (message : bytes) (s : state) : action state :=
  match s with
  | Calls (true :: todo) n => writeToSocket message n (Calls (true :: todo)) (Calls todo 0) Caught
  | Calls (false :: todo) _ => writeToSocketAsioWrite message (Calls todo 0) Caught
  | Calls [] _ => Tick Returned
  | Returned | Caught _ => Close
  end.
Definition main_start : state := Calls [true; false; true; false] 0.

(** What is still to be written. *)
Definition rest (message : bytes) (todo : list bool) (n : nat) : bytes := drop n (concat ((λ _, message) <$> todo)).
Definition writer_ok (message text : bytes) (lossy : bool) (s : state) (h : hist) : Prop :=
  match s with
  | Calls todo n =>
      shut h = false ∧ length todo ≤ 4 ∧ sent h ++ rest message todo n = text ∧
      match todo with true :: _ => n ≤ length message | _ => n = 0 end
  | Returned => sent h = text
  | Caught _ => lossy = true ∧ sent h `prefix_of` text
  end.

Lemma rest_call message todo b n : n ≤ length message →
  rest message (b :: todo) n = drop n message ++ rest message todo 0.
Proof. intros Hn. unfold rest. simpl. by rewrite drop_app_le, drop_0. Qed.

Lemma rest_zero (b : bool) todo :
  match todo with true :: _ => 0 ≤ length (@nil ascii) | _ => 0 = 0 end.
Proof. by destruct todo as [|[]]. Qed.

Lemma writer_preserved message text lossy : preserved (main_act message) lossy (writer_ok message text lossy).
Proof.
  intros s h Hs. split; [|by destruct s as [[|[] ?]| |]; simpl; [| unfold writeToSocket; case_match| | |]].
  assert (∀ todo : list bool, match todo with true :: _ => 0 ≤ length message | _ => 0 = 0 end) as Hz.
  { intros [|[] ?]; [done|lia|done]. }
  destruct s as [[|[] todo] n| |e]; simpl in Hs |- *; try done.
  - destruct Hs as (_ & _ & Hs & ->). unfold rest in Hs. simpl in Hs. by rewrite app_nil_r in Hs.
  - destruct Hs as (Hsh & H4 & Hs & Hn). simpl in H4. rewrite rest_call in Hs by done.
    unfold writeToSocket. destruct (Nat.ltb_spec n (length message)); simpl.
    + split_all.
      * intros k. rewrite length_drop. intros Hk. split_all; [done|simpl; lia| |lia]. rewrite rest_call by lia.
        rewrite <- Hs, <- drop_drop, <- !app_assoc. f_equal. by rewrite (assoc_L (++)), take_drop.
      * intros Hnil%(f_equal length). rewrite length_drop in Hnil. simpl in Hnil. lia.
      * intros Hl _. split; [done|]. by exists (drop n message ++ rest message todo 0).
    + split_all; [done|lia| |apply Hz]. rewrite <- Hs, drop_ge by lia. done.
  - destruct Hs as (Hsh & H4 & Hs & ->). simpl in H4. rewrite rest_call in Hs by lia. rewrite drop_0 in Hs. split.
    + split_all; [done|lia| |apply Hz]. by rewrite <- Hs, <- app_assoc.
    + intros Hl _ k Hk. split; [done|]. exists (drop k message ++ rest message todo 0).
      rewrite <- Hs, <- !app_assoc. f_equal. by rewrite (assoc_L (++)), take_drop.
Qed.
End WriteSocket.

(** * read_socket.cpp *)

Module ReadSocket.
Definition readFromSocket {S} (read_size : nat) (ret : bytes → S) (throw : error → S) : action S :=
  Read [] (λ b, if decide (b = []) then Some read_size else None)
    (λ input r, match r with None => ret input | Some e => throw e end).
Definition readFromSocketAsioRead {S} (read_size : nat) (ret : bytes → S) (throw : error → S) : action S :=
  Read [] (exactly read_size) (λ input r, match r with None => ret input | Some e => throw e end).

(** What is printed: the size of the buffer before and after the read, and the line. *)
Inductive report := Before (n : nat) | After (n : nat) | Line (l : bytes).

(** The buffer is static: what is in it after the line is there for the next call. *)
Definition readFromSocketDelim {S} (delim : ascii) (buffer : bytes) (out : list report)
    (ret : bytes → list report → bytes → S) (throw : list report → error → S) : action S :=
  let out := out ++ [Before (length buffer)] in
  Read buffer (until delim) (λ buffer r,
    match r with
    | None => let out := out ++ [After (length buffer)] in
              let '(line, buffer) := getline buffer in ret buffer out line
    | Some e => throw out e
    end).

Inductive state := Loop (buffer : bytes) (out : list report) | Caught (e : error) (out : list report).
Definition main_act (s : state) : action state :=
  match s with
  | Loop buffer out =>
      readFromSocketDelim nl buffer out (λ buffer out line, Loop buffer (out ++ [Line line])) (λ out e, Caught e out)
  | Caught _ _ => Close
  end.
Definition main_start : state := Loop [] [].

Definition output (s : state) : list report := match s with Loop _ out | Caught _ out => out end.
Definition lines (out : list report) : list bytes :=
  omap (λ r, match r with Line l => Some l | _ => None end) out.

Definition reader_ok (lossy : bool) (s : state) (h : hist) : Prop :=
  Forall line_ok (lines (output s)) ∧ sent h = [] ∧
  match s with
  | Loop buffer out =>
      got h = lines_text (lines out) ++ buffer ∧ shut h = false ∧ length out = 3 * length (lines out)
  | Caught e out =>
      ∃ buffer, got h = lines_text (lines out) ++ buffer ∧ nl ∉ buffer ∧ length out = 1 + 3 * length (lines out) ∧
      match e with Eof => eof h = true | Code _ => lossy = true end
  end.

Lemma lines_app out out2 : lines (out ++ out2) = lines out ++ lines out2.
Proof. apply omap_app. Qed.

Lemma reader_preserved lossy : preserved main_act lossy (reader_ok lossy).
Proof.
  intros s h (Hl & Hsent & Hs). destruct s as [buffer out|e out]; [|done]. split; [|done].
  destruct Hs as (Hg & Hsh & Hlen). intros x _. split.
  - intros Hn%until_None. destruct (getline_found _ Hn) as (line & rest & Hget & Hok & Heq).
    rewrite Hget. unfold reader_ok. cbn [output]. rewrite !lines_app. cbn [lines omap list_omap].
    rewrite !app_nil_r. split_all; [|done|simpl; rewrite lines_text_snoc, Hg, <- !app_assoc, Heq; done|done|rewrite !length_app; simpl; lia].
    apply Forall_app. split; [done|by constructor].
  - intros m Hn%until_Some. unfold reader_ok. cbn [output]. rewrite !lines_app. cbn [lines omap list_omap].
    rewrite app_nil_r. split; [|intros Hlossy c]; (split; [done|]); (split; [done|]); exists (buffer ++ x);
      (split; [simpl; by rewrite Hg, <- app_assoc|]); (split; [done|]); (split; [rewrite length_app; simpl; lia|done]).
Qed.

(** A completed read into an array fills it. *)
Lemma asio_read_fills n x : reads (exactly n) [] x → exactly n x = None → length x = n.
Proof.
  intros Hr Hn%exactly_None. pose proof (reads_exactly n [] x Hr). simpl in *. lia.
Qed.
End ReadSocket.

(** The reader at the other end of the writer: the lines it prints are the lines written,
    however the bytes are cut up, and it does not stop before the end. *)
Section write_read.
Context (cap : nat) (Hcap : 1 ≤ cap) (line : bytes) (Hline : line_ok line).

Abbreviation write_read :=
  (running (WriteSocket.main_act (line ++ [nl])) ReadSocket.main_act cap false WriteSocket.main_start ReadSocket.main_start).
Definition all_lines : list bytes := replicate 4 line.

Lemma writer_text : WriteSocket.rest (line ++ [nl]) [true; false; true; false] 0 = lines_text all_lines.
Proof. done. Qed.

Lemma write_read_facts σ :
  write_read σ →
  upto false (WriteSocket.writer_ok (line ++ [nl]) (lines_text all_lines) false) (t1 σ) (h1 σ) ∧
  upto false (ReadSocket.reader_ok false) (t2 σ) (h2 σ) ∧ stream (h1 σ) (h2 σ) ∧ stream (h2 σ) (h1 σ).
Proof.
  apply (peers_invariant _ _ _ _ _ _ _ _ _ (WriteSocket.writer_preserved _ _ _) (ReadSocket.reader_preserved _)).
  - unfold WriteSocket.main_start. simpl. split_all; [done|lia| |lia]. by rewrite writer_text.
  - done.
Qed.

Lemma writer_sends s h : WriteSocket.writer_ok (line ++ [nl]) (lines_text all_lines) false s h →
  sent h `prefix_of` lines_text all_lines.
Proof.
  destruct s as [todo n| |e]; simpl; [|by intros ->|by intros [? _]]. intros (_ & _ & <- & _). by eexists.
Qed.

Lemma all_lines_ok : Forall line_ok all_lines.
Proof. by repeat constructor. Qed.

(** The lines in a prefix of the text, with what is left of it. *)
Lemma printed_lines ls buf r :
  Forall line_ok ls → lines_text ls ++ buf ++ r = lines_text all_lines → ∃ n, n ≤ 4 ∧ ls = replicate n line.
Proof.
  intros Hls Heq. destruct (lines_unique ls all_lines (buf ++ r) Hls all_lines_ok Heq) as (k & Hk & _).
  exists (length ls). assert (length all_lines = length ls + length k) as Hlen by (by rewrite Hk, length_app).
  split; [simpl in Hlen; lia|]. unfold all_lines in Hk. rewrite <- (take_app_length ls k), <- Hk, length_take, length_replicate.
  simpl in Hlen. rewrite Nat.min_l by lia. by rewrite take_replicate, Nat.min_l by lia.
Qed.

Lemma printed_so_far σ s :
  write_read σ → (t2 σ = At s ∨ t2 σ = Closed s) → ∃ n, n ≤ 4 ∧ ReadSocket.lines (ReadSocket.output s) = replicate n line.
Proof.
  intros Hr Ht. destruct (write_read_facts σ Hr) as (H1 & H2 & [[r Hgot] _] & _).
  assert (ReadSocket.reader_ok false s (h2 σ)) as (Hls & _ & Hs) by (destruct Ht as [Ht|Ht]; rewrite Ht in H2; exact H2).
  destruct (upto_sent false _ _ _ _ writer_sends H1) as [r2 Htext].
  assert (∃ buf, got (h2 σ) = lines_text (ReadSocket.lines (ReadSocket.output s)) ++ buf) as [buf Hbuf].
  { destruct s as [buf out|e out]; [by exists buf; apply Hs|]. destruct Hs as (buf & Hbuf & _). by exists buf. }
  apply (printed_lines _ buf (r ++ r2) Hls). by rewrite Htext, Hgot, Hbuf, <- !app_assoc.
Qed.

Lemma write_read_stuck σ :
  write_read σ → stuck (WriteSocket.main_act (line ++ [nl])) ReadSocket.main_act cap false σ →
  t1 σ = Closed WriteSocket.Returned ∧
  ∃ out, t2 σ = Closed (ReadSocket.Caught Eof out) ∧ ReadSocket.lines out = all_lines.
Proof.
  intros Hr Hst. destruct (write_read_facts σ Hr) as (H1 & H2 & H12 & H21).
  destruct (peers_closed_shut _ _ _ _ _ _ _ Hr) as [C1 C2]. destruct (peers_from _ _ _ _ _ _ _ Hr) as [F1 F2].
  destruct (stuck_waits _ _ _ _ σ H12 H21 Hst) as [W1 W2].
  destruct (t2 σ) as [s|rest k|buf more k|s].
  - destruct W2 as (b & k & Ha & _). by destruct s.
  - destruct F2 as (s & b & Ha). by destruct s.
  - destruct F2 as (s & b & Ha). destruct W2 as (m & Hm & Hw).
    assert (more = until nl) as -> by (destruct s; simpl in Ha; unfold ReadSocket.readFromSocketDelim in Ha; congruence).
    assert (m = 512) as -> by (unfold until in Hm; case_decide; congruence). destruct Hw as [Hg Hsh]; [lia|].
    assert (length (got (h2 σ)) = length (sent (h1 σ))) by by rewrite Hg.
    destruct (t1 σ) as [s1|rest1 k1|? ? ?|s1].
    + destruct W1 as (? & ? & _ & _ & [?|?]); [congruence|lia].
    + destruct W1 as (_ & [?|?]); [congruence|lia].
    + destruct F1 as (s1 & ? & Ha1). destruct s1 as [[|[] ?] ?| |]; simpl in Ha1; try done.
      unfold WriteSocket.writeToSocket in Ha1. by case_match.
    + simpl in C1. congruence.
  - destruct H2 as (Hls & _ & H2). destruct s as [buf out|e out]; [destruct H2 as (_ & Hsh & _); simpl in C2; congruence|].
    destruct H2 as (buf & Hg & Hnl & _ & He). destruct e as [|c]; [|done]. destruct H12 as [_ H12].
    destruct (H12 He) as [Hall Hsh].
    assert (t1 σ = Closed WriteSocket.Returned ∧ sent (h1 σ) = lines_text all_lines) as [-> Hsent].
    { destruct (t1 σ) as [s1|rest1 k1|? ? ?|s1].
      - destruct W1 as (? & ? & Ha1 & _). destruct s1 as [[|[] todo] n| |]; simpl in Ha1; try done.
        destruct H1 as [? _]. congruence.
      - destruct F1 as (s1 & b & Ha1). destruct s1 as [[|[] todo] n| |]; simpl in Ha1; try done.
        { unfold WriteSocket.writeToSocket in Ha1. by case_match. }
        unfold WriteSocket.writeToSocketAsioWrite in Ha1. injection Ha1 as _ <-. destruct H1 as [[? _] _].
        simpl in *. congruence.
      - destruct F1 as (s1 & ? & Ha1). destruct s1 as [[|[] ?] ?| |]; simpl in Ha1; try done.
        unfold WriteSocket.writeToSocket in Ha1. by case_match.
      - destruct s1 as [todo n| |e]; [destruct H1; congruence|done|by destruct H1]. }
    split; [done|]. exists out. split; [done|]. rewrite Hsent, Hg in Hall.
    destruct (lines_unique _ _ _ Hls all_lines_ok Hall) as (k & Hk & Hb).
    apply no_newline_no_lines in Hb; [|done]. by rewrite Hk, Hb, app_nil_r.
Qed.

(** The actions both programs complete. *)
Definition writes_done (s : WriteSocket.state) : nat :=
  match s with
  | WriteSocket.Calls todo n => (4 - length todo) * (length line + 3) + n
  | _ => 4 * (length line + 3) + 1
  end.
Lemma writer_counts : counts (WriteSocket.main_act (line ++ [nl]))
  (WriteSocket.writer_ok (line ++ [nl]) (lines_text all_lines) false) writes_done.
Proof.
  intros [[|[] todo] n| |e] h; simpl; try done; try lia.
  - intros (_ & H4 & _ & Hn). unfold WriteSocket.writeToSocket.
    assert (length (line ++ [nl]) = length line + 1) as Hm by by rewrite length_app. simpl in H4.
    destruct (Nat.ltb_spec n (length (line ++ [nl]))); simpl.
    + split_all; [intros k; lia| |].
      * intros Hnil%(f_equal length). rewrite length_drop in Hnil. simpl in Hnil. lia.
      * intros e. nia.
    + nia.
  - intros (_ & H4 & _ & ->) [e|]; simpl; nia.
Qed.
Lemma reader_counts : counts ReadSocket.main_act (ReadSocket.reader_ok false)
  (λ s, length (ReadSocket.output s)).
Proof.
  intros [buf out|e out] h _; simpl; [|done]. intros b [e|]; simpl; [rewrite length_app; simpl; lia|].
  destruct (getline b). simpl. rewrite !length_app. simpl. lia.
Qed.

Lemma lines_text_length ls : length ls ≤ length (lines_text ls).
Proof.
  unfold lines_text. induction ls as [|l ls IH]; [done|]. rewrite fmap_cons. cbn [concat length].
  rewrite !length_app. cbn [length]. lia.
Qed.

(** C29: the lines [read_socket.cpp] prints are, at any time, some of the four lines
    [write_socket.cpp] writes, however the connection cuts them up and whatever it can
    hold; there is no deadlock, every run is finite, and at its end the writer has
    returned and the reader has printed all four lines and seen the end of the stream. *)
Theorem write_read_socket σ :
  write_read σ →
  (∀ s, t2 σ = At s ∨ t2 σ = Closed s → ∃ n, n ≤ 4 ∧ ReadSocket.lines (ReadSocket.output s) = replicate n line) ∧
  (stuck (WriteSocket.main_act (line ++ [nl])) ReadSocket.main_act cap false σ →
     t1 σ = Closed WriteSocket.Returned ∧
     ∃ out, t2 σ = Closed (ReadSocket.Caught Eof out) ∧ ReadSocket.lines out = all_lines) ∧
  (∀ n, nsteps (peers_step (WriteSocket.main_act (line ++ [nl])) ReadSocket.main_act cap false) n
     (connect WriteSocket.main_start ReadSocket.main_start) σ → n ≤ 64 * (length line + 1) + 30).
Proof.
  intros Hr. split_all; [intros s; by apply printed_so_far|by apply write_read_stuck|]. intros n Hn.
  assert (n ≤ moved (h1 σ) + moved (h2 σ) + 2 * ((4 * (length line + 3) + 1) + (3 * length (got (h2 σ)) + 1)) + 2) as Hle.
  { eapply (peers_finite _ _ cap false _ _ WriteSocket.main_start ReadSocket.main_start _ _
      (λ _, 4 * (length line + 3) + 1) (λ g, 3 * length g + 1) n σ writer_counts reader_counts); [|  | |exact Hn].
    - intros σ' Hr'. by destruct (write_read_facts σ' Hr') as (? & ? & _).
    - intros [todo k| |e] h; simpl; [|lia|lia]. intros (_ & H4 & _ & Hk). rewrite length_app in Hk. simpl in Hk.
      destruct todo as [|[] todo]; simpl in *; nia.
    - intros s h (_ & _ & Hs). destruct s as [buf out|e out]; simpl.
      + destruct Hs as (Hg & _ & ->). rewrite Hg, length_app. pose proof (lines_text_length (ReadSocket.lines out)). lia.
      + destruct Hs as (buf & Hg & _ & -> & _). rewrite Hg, length_app. pose proof (lines_text_length (ReadSocket.lines out)). lia. }
  destruct (write_read_facts σ Hr) as (H1 & H2 & [Hp1 _] & [Hp2 _]).
  apply prefix_length in Hp1, Hp2. pose proof (upto_sent false _ _ _ _ writer_sends H1) as Hs1%prefix_length.
  assert (length (lines_text all_lines) = 4 * (length line + 1)) as Hlen.
  { unfold lines_text, all_lines. simpl. rewrite !length_app. simpl. lia. }
  assert (sent (h2 σ) `prefix_of` []) as Hs2%prefix_length.
  { apply (upto_sent false (ReadSocket.reader_ok false) [] (t2 σ)); [|done]. by intros s h (_ & -> & _). }
  unfold moved in Hle. simpl in *. lia.
Qed.
End write_read.

(** * sync_tcp_client.cpp, and handleClient of iter_tcp_server.cpp *)

Module Request.
(** ** Client *)

Inductive client :=
| Send (request : bytes) | Receive | Show (response : bytes) | CloseSock (out : list string)
| Ended (out : list string) | Caught (e : error).

Definition emulateLongComputationOp (duration_sec : nat) : bytes :=
  lit "EMULATE_LONG_COMP_OP " ++ lit (pretty duration_sec) ++ [nl].
Definition sendRequest (request : bytes) : action client :=
  Write request (λ r, match r with None => Receive | Some e => Caught e end).
Definition receiveResponse : action client :=
  Read [] (until nl) (λ buf r, match r with None => Show (getline buf).1 | Some e => Caught e end).
Definition response_line (response : bytes) : string := "Response received: " +:+ String.string_of_list_ascii response.
Definition sending_line : string := "Sending request to the server...".

(** [main]; an exception leaves it with the socket's destructor. *)
Definition client_act (s : client) : action client :=
  match s with
  | Send request => sendRequest request
  | Receive => receiveResponse
  | Show response => Tick (CloseSock [sending_line; response_line response])
  | CloseSock out => Shutdown (Ended out)
  | Ended _ | Caught _ => Close
  end.
Definition client_start : client := Send (emulateLongComputationOp 10).

(** ** Server *)

Inductive service := Wait | Compute (message : bytes) | Respond (message : bytes) | Done (message : option bytes).

Definition response : bytes := lit "Response" ++ [nl].
Definition handleClient (s : service) : action service :=
  match s with
  | Wait =>
      Read [] (until nl) (λ buf r,
        match r with None => Compute (getline buf).1 | Some e => Done None end)
  | Compute message => Tick (Respond message)
  | Respond message => Write response (λ r, match r with None => Done (Some message) | Some e => Done None end)
  | Done _ => Close
  end.
End Request.

Section request.
Import Request.
Context (cap : nat) (Hcap : 1 ≤ cap).

Definition request_text : bytes := emulateLongComputationOp 10.
Definition message_text : bytes := (getline request_text).1.
Definition response_text : bytes := lit "Response".

Definition client_ok (s : client) (h : hist) : Prop :=
  match s with
  | Send request => request = request_text ∧ sent h = [] ∧ got h = [] ∧ shut h = false
  | Receive => sent h = request_text ∧ got h = [] ∧ shut h = false
  | Show resp => sent h = request_text ∧ nl ∈ got h ∧ resp = (getline (got h)).1 ∧ shut h = false
  | CloseSock out =>
      sent h = request_text ∧ nl ∈ got h ∧ out = [sending_line; response_line (getline (got h)).1] ∧ shut h = false
  | Ended out => sent h = request_text ∧ nl ∈ got h ∧ out = [sending_line; response_line (getline (got h)).1]
  | Caught e => eof h = true ∧ nl ∉ got h ∧ sent h = request_text
  end.
Definition service_ok (s : service) (h : hist) : Prop :=
  match s with
  | Wait => sent h = [] ∧ got h = [] ∧ shut h = false
  | Compute m | Respond m => sent h = [] ∧ nl ∈ got h ∧ m = (getline (got h)).1 ∧ shut h = false
  | Done (Some m) => sent h = response ∧ nl ∈ got h ∧ m = (getline (got h)).1
  | Done None => sent h = [] ∧ eof h = true ∧ nl ∉ got h
  end.

Lemma request_client_preserved : preserved client_act false client_ok.
Proof.
  intros s h Hs. split; [|by destruct s]. destruct s as [r| |resp|out|out|e]; simpl in *; try tauto.
  - destruct Hs as (-> & Hsent & Hgot & Hsh). split; [|done]. by rewrite Hsent.
  - destruct Hs as (Hsent & Hgot & Hsh). intros x _. rewrite Hgot. split.
    + intros Hn%until_None. done.
    + intros m Hn%until_Some. done.
  - destruct Hs as (Hsent & Hgot & -> & Hsh). done.
Qed.
Lemma request_service_preserved : preserved handleClient false service_ok.
Proof.
  intros s h Hs. split; [|by destruct s as [| | |[]]]. destruct s as [|m|m|[m|]]; simpl in *; try tauto.
  - destruct Hs as (Hsent & Hgot & Hsh). intros x _. rewrite Hgot. split.
    + intros Hn%until_None. done.
    + intros m Hn%until_Some. done.
  - destruct Hs as (Hsent & Hgot & -> & Hsh). split; [|done]. by rewrite Hsent.
Qed.

Abbreviation requesting := (running client_act handleClient cap false client_start Wait).

Lemma newline_prefix l p : line_ok l → p `prefix_of` l ++ [nl] → nl ∈ p → p = l ++ [nl].
Proof.
  intros Hl [r Hr] Hp. destruct r as [|c r _] using rev_ind; [by rewrite app_nil_r in Hr|].
  rewrite (assoc_L (++)) in Hr. apply app_inj_tail in Hr as [-> _]. destruct Hl. apply elem_of_app. by left.
Qed.
Lemma newline_part l b rest : line_ok l → b ++ rest = l ++ [nl] → rest ≠ [] → nl ∉ b.
Proof.
  intros Hl Hb Hr Hin. assert (b = l ++ [nl]) as Hall by (apply newline_prefix; [done|by exists rest|done]).
  rewrite Hall in Hb. destruct Hr. apply (app_inv_head (l ++ [nl])). by rewrite app_nil_r.
Qed.
Lemma request_line : request_text = message_text ++ [nl] ∧ line_ok message_text.
Proof. split; [vm_compute; done|]. unfold line_ok. by_computation. Qed.
Lemma response_is_line : line_ok response_text.
Proof. unfold line_ok. by_computation. Qed.

Lemma requesting_facts σ :
  requesting σ →
  inside client_act client_ok (t1 σ) (h1 σ) ∧ inside handleClient service_ok (t2 σ) (h2 σ) ∧
  stream (h1 σ) (h2 σ) ∧ stream (h2 σ) (h1 σ).
Proof. by apply (peers_inside _ _ _ _ _ _ _ _ _ request_client_preserved request_service_preserved). Qed.

(** A program that has ended its stream is at its end. *)
Lemma client_shut t h : inside client_act client_ok t h → shut h = true →
  ∃ s, (t = At s ∨ t = Closed s) ∧ client_ok s h ∧ match s with Ended _ | Caught _ => True | _ => False end.
Proof.
  intros I Hs. destruct t as [s|rest k|buf more k|s]; simpl in I.
  - exists s. split; [by left|]. split; [done|]. destruct s; simpl in I; try done; destruct_and!; congruence.
  - destruct I as (s & h0 & b & Ha & Is & ->). destruct s; simpl in *; try done. destruct_and!; congruence.
  - destruct I as (s & h0 & b & x & Ha & Is & _ & _ & ->). destruct s; simpl in *; try done. destruct_and!; congruence.
  - exists s. split; [by right|]. split; [done|]. destruct s; simpl in I; try done; destruct_and!; congruence.
Qed.
Lemma service_shut t h : inside handleClient service_ok t h → shut h = true →
  ∃ m, (t = At (Done m) ∨ t = Closed (Done m)) ∧ service_ok (Done m) h.
Proof.
  intros I Hs. destruct t as [s|rest k|buf more k|s]; simpl in I.
  - destruct s as [| | |m]; simpl in I; [destruct_and!; congruence..|]. exists m. by auto.
  - destruct I as (s & h0 & b & Ha & Is & ->). destruct s; simpl in *; try done. destruct_and!; congruence.
  - destruct I as (s & h0 & b & x & Ha & Is & _ & _ & ->). destruct s; simpl in *; try done. destruct_and!; congruence.
  - destruct s as [| | |m]; simpl in I; [destruct_and!; congruence..|]. exists m. by auto.
Qed.

(** The client that has failed would have lost an answer that cannot be lost. *)
Lemma request_not_lost σ e : requesting σ → inside client_act client_ok (At (Caught e)) (h1 σ) → False.
Proof.
  intros Hr (He & Hnl & Hsent). destruct (requesting_facts σ Hr) as (_ & I2 & [Hp12 E12] & [Hp21 E21]).
  destruct (E21 He) as [Hg Hs2]. destruct request_line as [Hreq Hml].
  destruct (service_shut _ _ I2 Hs2) as ([m|] & _ & Hm).
  - destruct Hm as (Hresp & _). rewrite Hg, Hresp in Hnl. apply Hnl. unfold response. apply elem_of_app. right. left.
  - destruct Hm as (_ & He2 & Hn2). destruct (E12 He2) as [Hg2 _]. rewrite Hg2, Hsent, Hreq in Hn2.
    apply Hn2, elem_of_app. right. left.
Qed.

Lemma request_client_waits σ :
  requesting σ → waits cap client_act (t1 σ) (h1 σ) (h2 σ) → waits cap handleClient (t2 σ) (h2 σ) (h1 σ) →
  ∃ out, t1 σ = Closed (Ended out).
Proof.
  intros Hr W1 W2. destruct (requesting_facts σ Hr) as (I1 & I2 & H12 & H21). destruct request_line as [Hreq Hml].
  destruct (peers_closed_shut _ _ _ _ _ _ _ Hr) as [C1 C2].
  destruct (t1 σ) as [s1|rest1 k1|buf1 more1 k1|s1].
  - destruct W1 as (? & ? & Ha & _). by destruct s1.
  - exfalso. destruct I1 as (s & h0 & b & Ha & Is & Hh1). destruct s as [r| | | | | ]; simpl in Ha; try done.
    injection Ha as Hb _. destruct Is as (-> & Hsent & Hgot & Hsh). destruct W1 as [Hrest W1].
    assert (shut (h1 σ) = false ∧ sent (h1 σ) = b) as [Hs1 Hb1] by (rewrite Hh1; simpl; by rewrite Hsent).
    destruct W1 as [?|W1]; [congruence|].
    assert (nl ∉ b) as Hnl by (eapply newline_part; [exact Hml|by rewrite <- Hreq|done]).
    assert (nl ∉ got (h2 σ)) as Hnl2.
    { destruct H12 as [[r Hr1] _]. intros Hin. apply Hnl. rewrite <- Hb1, Hr1. apply elem_of_app. by left. }
    destruct (t2 σ) as [s2|rest2 k2|buf2 more2 k2|s2].
    + destruct W2 as (? & ? & Ha2 & _). by destruct s2.
    + destruct I2 as (s & h0' & b2 & Ha2 & Is2 & Hh2). destruct s as [| |m|]; simpl in Ha2; try done.
      destruct Is2 as (_ & Hin & _). apply Hnl2. by rewrite Hh2.
    + destruct I2 as (s & h0' & b2 & x & Ha2 & _). destruct s as [| |m|]; simpl in Ha2; try done.
      injection Ha2 as _ <- _. destruct W2 as (m & Hm & W2). unfold until in Hm. case_decide; [done|].
      injection Hm as <-. destruct W2 as [Hg _]; [lia|]. rewrite Hg in W1. lia.
    + destruct s2 as [| |m|[m|]]; try (destruct I2; destruct_and!; simpl in C2; congruence).
      destruct I2 as (_ & He & _). destruct H12 as [_ H12]. destruct (H12 He). congruence.
  - exfalso. destruct I1 as (s & h0 & b & x & Ha & Is & _ & -> & Hh1). destruct s as [r| | | | | ]; simpl in Ha; try done.
    injection Ha as <- <- _. destruct Is as (Hsent & Hgot & Hsh). destruct W1 as (m & Hm & W1).
    unfold until in Hm. case_decide as Hnl; [done|]. injection Hm as <-. destruct W1 as [Hg1 Hs2]; [lia|].
    assert (sent (h1 σ) = request_text ∧ got (h1 σ) = x) as [Hs1 Hx] by (rewrite Hh1; simpl; by rewrite Hgot).
    destruct (t2 σ) as [s2|rest2 k2|buf2 more2 k2|s2].
    + destruct W2 as (? & ? & Ha2 & _). by destruct s2.
    + destruct W2 as [_ [?|W2]]; [congruence|]. rewrite Hg1 in W2. lia.
    + destruct I2 as (s & h0' & b2 & y & Ha2 & Is2 & _ & -> & Hh2). destruct s as [| |m|]; simpl in Ha2; try done.
      injection Ha2 as <- <- _. destruct W2 as (m & Hm & W2). unfold until in Hm. case_decide as Hny; [done|].
      injection Hm as <-. destruct W2 as [Hg _]; [lia|]. destruct Is2 as (_ & Hgot2 & _). apply Hny. simpl.
      rewrite Hs1, Hh2 in Hg. simpl in Hg. rewrite Hgot2 in Hg. simpl in Hg. rewrite Hg, Hreq. apply elem_of_app. right. left.
    + simpl in C2. congruence.
  - destruct (client_shut _ _ I1 C1) as (s & [?|Hs] & _ & Hend); [done|]. injection Hs as ->.
    destruct s; try done; [by eexists|]. destruct (request_not_lost σ e Hr I1).
Qed.

Lemma request_stuck σ :
  requesting σ → stuck client_act handleClient cap false σ →
  t1 σ = Closed (Ended [sending_line; response_line response_text]) ∧ t2 σ = Closed (Done (Some message_text)).
Proof.
  intros Hr Hst. destruct (requesting_facts σ Hr) as (I1 & I2 & H12 & H21).
  destruct (stuck_waits _ _ _ _ σ H12 H21 Hst) as [W1 W2].
  destruct (request_client_waits σ Hr W1 W2) as [out Ht1]. rewrite Ht1 in I1. destruct I1 as (Hsent & Hin & Hout).
  destruct (peers_closed_shut _ _ _ _ _ _ _ Hr) as [C1 C2]. rewrite Ht1 in C1. simpl in C1.
  destruct request_line as [Hreq Hml]. destruct H21 as [Hp21 _], H12 as [Hp12 _].
  assert (nl ∈ sent (h2 σ)) as Hin2 by (destruct Hp21 as [r ->]; apply elem_of_app; by left).
  destruct (t2 σ) as [s2|rest2 k2|buf2 more2 k2|s2].
  - destruct W2 as (? & ? & Ha2 & _). by destruct s2.
  - exfalso. destruct I2 as (s & h0 & b & Ha & Is & Hh2). destruct s as [| |m|]; simpl in Ha; try done.
    injection Ha as Hb _. destruct Is as (Hs2 & _). destruct W2 as [Hrest _].
    apply (newline_part response_text b rest2 response_is_line); [by rewrite <- Hb|done|].
    rewrite Hh2 in Hin2. simpl in Hin2. by rewrite Hs2 in Hin2.
  - exfalso. destruct I2 as (s & h0 & b & x & Ha & Is & _ & _ & Hh2). destruct s as [| |m|]; simpl in Ha; try done.
    destruct Is as (Hs2 & _). rewrite Hh2 in Hin2. simpl in Hin2. rewrite Hs2 in Hin2. by apply not_elem_of_nil in Hin2.
  - destruct (service_shut _ _ I2 C2) as (m & [?|Hs] & Hm); [done|]. injection Hs as ->.
    destruct m as [m|]; [|destruct Hm as [Hs2 _]; rewrite Hs2 in Hin2; by apply not_elem_of_nil in Hin2].
    destruct Hm as (Hs2 & Hin3 & ->). rewrite Hs2 in Hp21. rewrite Hsent, Hreq in Hp12.
    pose proof (newline_prefix response_text _ response_is_line Hp21 Hin) as Hg1.
    pose proof (newline_prefix _ _ Hml Hp12 Hin3) as Hg2. rewrite Ht1, Hout, Hg1, Hg2. by rewrite <- Hreq.
Qed.

Definition client_done (s : client) : nat :=
  match s with Send _ => 0 | Receive => 1 | Show _ => 2 | CloseSock _ => 3 | _ => 4 end.
Definition service_done (s : service) : nat := match s with Wait => 0 | Compute _ => 1 | Respond _ => 2 | _ => 3 end.

(** [SyncTCPClient] and the service of the iterative server: every run is finite, it is
    never in deadlock, and at its end the client has printed the response and closed its
    socket, and the server has read the client's request and closed its own. *)
Theorem request_response σ :
  requesting σ →
  (stuck client_act handleClient cap false σ →
     t1 σ = Closed (Ended [sending_line; response_line response_text]) ∧ t2 σ = Closed (Done (Some message_text))) ∧
  (∀ n, nsteps (peers_step client_act handleClient cap false) n (connect client_start Wait) σ → n ≤ 82).
Proof.
  intros Hr. split; [by apply request_stuck|]. intros n Hn.
  assert (n ≤ moved (h1 σ) + moved (h2 σ) + 2 * (4 + 3) + 2) as Hle.
  { eapply (peers_finite _ _ cap false client_ok service_ok client_start Wait client_done service_done
      (λ _, 4) (λ _, 3)); [| | | | |exact Hn].
    - intros s h _. destruct s; simpl; try done; try lia; [intros []; simpl; lia|intros ? []; simpl; lia].
    - intros s h _. destruct s; simpl; try done; try lia; [intros ? []; simpl; lia|intros []; simpl; lia].
    - intros σ' Hr'.
      destruct (peers_invariant _ _ cap false client_ok service_ok client_start Wait σ' request_client_preserved
        request_service_preserved) as (? & ? & _); done.
    - intros s h _. destruct s; simpl; lia.
    - intros s h _. destruct s; simpl; lia. }
  destruct (peers_invariant _ _ cap false client_ok service_ok client_start Wait σ request_client_preserved
        request_service_preserved) as (U1 & U2 & [Hp1%prefix_length _] & [Hp2%prefix_length _]); [done|done|done|].
  assert (sent (h1 σ) `prefix_of` request_text) as Hs1%prefix_length.
  { apply (upto_sent false client_ok _ (t1 σ)); [|done].
    intros [| | | | | ] h; simpl; [intros (_ & -> & _)|intros (-> & _)..|intros (_ & _ & ->)]; try done. by eexists. }
  assert (sent (h2 σ) `prefix_of` response) as Hs2%prefix_length.
  { apply (upto_sent false service_ok _ (t2 σ)); [|done].
    intros [| | |[m|]] h; simpl; intros (-> & _); try done; by eexists. }
  unfold moved in Hle. change (length request_text) with 24 in Hs1. change (length response) with 9 in Hs2. lia.
Qed.
End request.

(** A run in pieces of a few bytes. *)
Definition request_schedule : list (bool * nat) :=
  [(true, 0); (true, 20); (false, 0); (false, 5); (true, 4); (true, 0); (false, 19); (false, 0); (false, 0);
   (false, 0); (false, 3); (true, 0); (true, 2); (false, 6); (false, 0); (false, 0); (true, 7); (true, 0);
   (true, 0); (true, 0); (true, 0)].
Definition request_end : option system :=
  turns Request.client_act Request.handleClient 64 request_schedule (connect Request.client_start Request.Wait).

Lemma request_response_witness :
  ∃ σ, request_end = Some σ ∧ t2 σ = Closed (Request.Done (Some message_text)).
Proof.
  destruct request_end as [σ|] eqn:Hσ; [|by vm_compute in Hσ]. exists σ. split; [done|].
  assert (deadlocks Request.client_act Request.handleClient 64 request_schedule Request.client_start Request.Wait = true)
    as Hd by (vm_compute; reflexivity).
  apply (request_response 64 ltac:(lia) σ (turns_start _ _ 64 false _ _ _ _ Hσ)).
  unfold deadlocks in Hd. unfold request_end in Hσ. rewrite Hσ in Hd. destruct σ as [t h u k].
  apply andb_true_iff in Hd as [Hd1 Hd2]. apply waiting_stuck; [reflexivity| |]; by apply Is_true_true.
Defined.

(** The program's message, read in pieces. *)
Definition hello : bytes := lit "helloworld".
Definition write_schedule : list (bool * nat) :=
  [(true, 5); (false, 0); (false, 5); (true, 6); (true, 0); (false, 6); (false, 0); (true, 0); (true, 11); (true, 0);
   (true, 4); (false, 0); (false, 13); (false, 0); (true, 7); (true, 0); (true, 0); (true, 11); (true, 0); (true, 0);
   (true, 0); (false, 0); (false, 20); (false, 0); (false, 0); (false, 0); (false, 0); (false, 0); (false, 0)].
Definition write_end : option system :=
  turns (WriteSocket.main_act (hello ++ [nl])) ReadSocket.main_act 64 write_schedule
    (connect WriteSocket.main_start ReadSocket.main_start).
Lemma write_read_socket_witness :
  ∃ σ out, write_end = Some σ ∧ t2 σ = Closed (ReadSocket.Caught Eof out) ∧
    ReadSocket.lines out = replicate 4 hello.
Proof.
  destruct write_end as [σ|] eqn:Hσ; [|by vm_compute in Hσ].
  assert (deadlocks (WriteSocket.main_act (hello ++ [nl])) ReadSocket.main_act 64 write_schedule
    WriteSocket.main_start ReadSocket.main_start = true) as Hd by (vm_compute; reflexivity).
  destruct (write_read_socket 64 ltac:(lia) hello ltac:(unfold line_ok; by_computation) σ
    (turns_start _ _ 64 false _ _ _ _ Hσ)) as (_ & Hst & _).
  destruct Hst as (_ & out & Hout & Hlines); [|by exists σ, out].
  unfold deadlocks in Hd. unfold write_end in Hσ. rewrite Hσ in Hd. destruct σ as [t h u k].
  apply andb_true_iff in Hd as [Hd1 Hd2]. apply waiting_stuck; [reflexivity| |]; by apply Is_true_true.
Defined.
