(* ===== verification/EchoPrograms.v ===== *)
(** Echo clients and servers with blocking sockets, over a connection of [TcpPeers]: the
    programs of [src/boost/boost_asio/socket/simple_echo], the two [shutdown_socket]
    programs beside them, and [blocking_tcp_echo_client.cpp] and
    [blocking_tcp_echo_server.cpp] of
    [src/books/asio/chapter01_core_concepts_and_functionalities/cores/tcp]. The conventions
    are those of [SocketPrograms]. *)

From S2P Require Import Prelude CppHeap TcpPeers SocketPrograms.
From Stdlib Require Import Ascii.

(** * simple_echo_client.cpp, simple_echo_server.cpp *)

Module SimpleEcho.
(** The size of the buffers on either side, which is 16 in the sources. *)
Definition BUF_SIZE : nat := 16.

(** An array of characters after [b] has been read into it, and what [operator<<] prints
    of it. *)
Abbreviation array := (list (option ascii)).
Definition fill (b : bytes) (buf : array) : array := (Some <$> b) ++ drop (length b) buf.
Definition show (buf : array) : option string := String.string_of_list_ascii <$> c_scan buf.

(** ** Client *)

Inductive client :=
| CTop (receive_data : array) (out : list string) | CRead (receive_data : array) (out : list string)
| CBreak (out : list string) | CThrow (e : error) (out : list string)
| CUndefined (out : list string).

Definition send_line (s : string) : string := "Send message: " +:+ s.
Definition receive_line (s : string) : string := "Receive message: " +:+ s.
Definition eof_line : string := "Received EOF, exiting...".

(** [communicate]; the socket stays open until it returns. [send_text] is what
    [operator<<] prints of [send_data]. *)
Definition communicate (buf_size : nat) (send_data : bytes) (send_text : string) (s : client) : action client :=
  match s with
  | CTop receive_data out =>
      let out := out ++ [send_line send_text] in
      Write send_data (λ r, match r with None => CRead receive_data out | Some e => CThrow e out end)
  | CRead receive_data out =>
      Read [] (exactly buf_size) (λ b ec,
        let receive_data := fill b receive_data in
        match show receive_data with
        | None => CUndefined out
        | Some t =>
            let out := out ++ [receive_line t] in
            match ec with
            | None => CTop receive_data out
            | Some Eof => CBreak (out ++ [eof_line])
            | Some (Code c) => CThrow (Code c) out
            end
        end)
  | CBreak _ | CThrow _ _ | CUndefined _ => Close
  end.
Definition client_start (buf_size : nat) : client := CTop (replicate buf_size None) [].

(** ** Server *)

Inductive server :=
| STop (received_data : array) (out : list string) | SEcho (received_data : array) (data : bytes) (out : list string)
| SBreak (out : list string) | SThrow (e : error) (out : list string)
| SUndefined (out : list string).
Definition echo_line (s : string) : string := "Echo received message: " +:+ s.

Definition processRequest (buf_size : nat) (s : server) : action server :=
  match s with
  | STop received_data out =>
      Read [] (exactly buf_size) (λ b ec,
        let received_data := fill b received_data in
        match ec with
        | Some Eof => SBreak out
        | Some e => SThrow e out
        | None =>
            match show received_data, mapM id (take buf_size received_data) with
            | Some t, Some data => SEcho received_data data (out ++ [echo_line t])
            | _, _ => SUndefined out
            end
        end)
  | SEcho received_data data out =>
      Write data (λ r, match r with None => STop received_data out | Some e => SThrow e out end)
  | SBreak _ | SThrow _ _ | SUndefined _ => Close
  end.
Definition server_start (buf_size : nat) : server := STop (replicate buf_size None) [].

(** The source's constants. *)
Definition send_data : bytes := lit "HELLOWORLD" ++ replicate 6 NUL.
Definition send_text : string := "HELLOWORLD".
Lemma send_data_size : length send_data = BUF_SIZE.
Proof. done. Qed.
Lemma send_data_text : show (Some <$> send_data) = Some send_text.
Proof. done. Qed.
End SimpleEcho.

(** Both sides with buffers of [n] bytes, for a message of this size with a zero in it. *)
Section simple_echo.
Import SimpleEcho.
Context (n cap : nat) (msg : bytes) (text : string).
Context (Hn : 0 < n) (Hcap : 1 ≤ cap) (Hmsg : length msg = n) (Htext : show (Some <$> msg) = Some text).

Abbreviation client_act := (communicate n msg text).
Abbreviation server_act := (processRequest n).
Abbreviation echoing := (running client_act server_act cap false (client_start n) (server_start n)).

Definition copies (k : nat) : bytes := concat (replicate k msg).
Lemma copies_length k : length (copies k) = k * n.
Proof. unfold copies. induction k as [|k IH]; [done|]. simpl. rewrite length_app. lia. Qed.
Lemma copies_S k : copies (S k) = copies k ++ msg.
Proof. unfold copies. by rewrite replicate_S_end, concat_app, concat_cons, app_nil_r. Qed.

(** [k] blocks of the size of the buffer. *)
Definition blocks (k : nat) (b : bytes) : Prop := length b = k * n.
Lemma blocks_prefix k b j r : blocks k b → copies j = b ++ r → k ≤ j ∧ b = copies k ∧ r = copies (j - k).
Proof.
  intros Hb He. pose proof (f_equal length He) as Hl. rewrite copies_length, length_app, Hb in Hl.
  assert (k ≤ j) as Hkj by nia. split; [done|].
  assert (copies j = copies k ++ copies (j - k)) as Hs.
  { unfold copies. by rewrite <- concat_app, <- replicate_add, Nat.add_sub_assoc, Nat.add_comm, Nat.add_sub by done. }
  rewrite Hs in He. apply app_inj_1 in He as [-> ->]; [done|]. by rewrite copies_length, Hb.
Qed.

Definition round_lines : list string := [send_line text; receive_line text].

(** What is read in a round is the message, or else the state is [CUndefined] or the line
    is another. *)
Definition client_ok (s : client) (h : hist) : Prop :=
  (∃ j, sent h = copies j) ∧
  match s with
  | CTop buf out =>
      ∃ k, sent h = copies k ∧ blocks k (got h) ∧ length buf = n ∧ shut h = false ∧
      (got h = copies k → out = concat (replicate k round_lines))
  | CRead buf out =>
      ∃ k, sent h = copies (S k) ∧ blocks k (got h) ∧ length buf = n ∧ shut h = false ∧
      (got h = copies k → out = concat (replicate k round_lines) ++ [send_line text])
  | CUndefined _ => eof h = true ∨ ∃ k, sent h = copies (S k) ∧ blocks (S k) (got h) ∧ got h ≠ copies (S k)
  | CBreak _ => eof h = true
  | CThrow _ _ => False
  end.
Definition server_ok (s : server) (h : hist) : Prop :=
  sent h `prefix_of` got h ∧
  match s with
  | STop buf _ => ∃ k, sent h = got h ∧ blocks k (got h) ∧ length buf = n ∧ shut h = false
  | SEcho buf data _ => ∃ k, got h = sent h ++ data ∧ blocks k (sent h) ∧ blocks 1 data ∧ length buf = n ∧ shut h = false
  | SUndefined _ => ∃ k, blocks k (got h) ∧ got h ≠ copies k
  | SBreak _ => eof h = true
  | SThrow _ _ => False
  end.

Lemma fill_full b buf : length b = n → length buf = n → fill b buf = Some <$> b.
Proof. intros Hb Hl. unfold fill. by rewrite drop_ge, app_nil_r by lia. Qed.

Lemma client_preserved : preserved client_act false client_ok.
Proof.
  intros s h [Hj Hs]. split; [|by destruct s].
  destruct s as [buf out|buf out|out|e out|out]; simpl in *; try done.
  - destruct Hs as (k & Hsent & Hgot & Hbuf & Hsh & Hout). split; [|done].
    assert (sent h ++ msg = copies (S k)) as Hnew by by rewrite copies_S, Hsent.
    split; [by exists (S k)|]. exists k. split_all; [|done|done|done|].
    + done.
    + intros Hg. by rewrite Hout.
  - destruct Hs as (k & Hsent & Hgot & Hbuf & Hsh & Hout). intros x Hx. split.
    + intros Hnone%exactly_None. pose proof (reads_exactly _ _ _ Hx) as Hle. simpl in Hnone, Hle.
      assert (length x = n) as Hlx by lia. split; [done|]. rewrite fill_full by done. destruct (show (Some <$> x)) as [t|] eqn:Ht; simpl.
      * exists (S k). split_all; [done| |by rewrite length_fmap|done|].
        { unfold blocks in *. rewrite length_app, Hgot. simpl. lia. }
        intros Hg. rewrite copies_S in Hg. apply app_inj_2 in Hg as [Hg ->]; [|by rewrite Hmsg].
        rewrite Htext in Ht. injection Ht as <-. rewrite Hout by done.
        rewrite replicate_S_end, concat_app, concat_cons, app_nil_r. unfold round_lines. by rewrite <- app_assoc.
      * right. exists k. split_all; [done| |].
        { unfold blocks in *. rewrite length_app, Hgot. simpl. lia. }
        intros Hg. rewrite copies_S in Hg. apply app_inj_2 in Hg as [Hg ->]; [|by rewrite Hmsg]. congruence.
    + intros m _. split; [|done]. split; [done|]. destruct (show (fill x buf)); [done|]. by left.
Qed.

Lemma mapM_id_Some (b : bytes) : mapM id (Some <$> b) = Some b.
Proof. by apply mapM_fmap_Some. Qed.

Lemma server_preserved : preserved server_act false server_ok.
Proof.
  intros s h [Hp Hs]. split; [|by destruct s].
  destruct s as [buf out|buf data out|out|e out|out]; simpl in *; try done.
  - destruct Hs as (k & Hsent & Hgot & Hbuf & Hsh). intros x Hx. split.
    + intros Hnone%exactly_None. pose proof (reads_exactly _ _ _ Hx) as Hle. simpl in Hnone, Hle.
      assert (length x = n) as Hlx by lia. split; [by apply prefix_app_r|]. rewrite fill_full by done.
      rewrite take_ge, mapM_id_Some by (rewrite length_fmap; lia).
      destruct (show (Some <$> x)) as [t|] eqn:Ht; simpl.
      * exists k. unfold blocks in *. rewrite length_fmap. split_all; [by rewrite Hsent|by rewrite Hsent|lia|done|done].
      * exists (S k). split.
        { unfold blocks in *. rewrite length_app, Hgot. simpl. lia. }
        intros Hg. rewrite copies_S in Hg. apply app_inj_2 in Hg as [Hg ->]; [|by rewrite Hmsg]. congruence.
    + intros m _. split; [|done]. split; [by apply prefix_app_r|done].
  - destruct Hs as (k & Hgot & Hsent & Hdata & Hbuf & Hsh). split; [|done].
    split; [by rewrite <- Hgot|]. exists (S k).
    split_all; [done| |done|done]. unfold blocks in *. simpl. rewrite Hgot, length_app, Hsent, Hdata. lia.
Qed.

Lemma client_sends t h : inside client_act client_ok t h → ∃ j, sent h `prefix_of` copies j.
Proof.
  destruct t as [s|rest k|buf more k|s]; simpl.
  - intros [[j ->] _]. by exists j.
  - intros (s & h0 & b & Ha & [_ Hs] & ->). destruct s as [buf out|? ?|?|? ?|?]; simpl in Ha; try done.
    injection Ha as Hb _. destruct Hs as (j & Hsent & _). exists (S j). simpl. rewrite copies_S, Hsent, Hb.
    apply prefix_app, prefix_app_r. done.
  - intros (s & h0 & b & x & _ & [[j Hj] _] & _ & _ & ->). exists j. simpl. by rewrite Hj.
  - intros [[j ->] _]. by exists j.
Qed.
Lemma server_sends t h : inside server_act server_ok t h → sent h `prefix_of` got h.
Proof.
  destruct t as [s|rest k|buf more k|s]; simpl; [by intros [? _]| | |by intros [? _]].
  - intros (s & h0 & b & Ha & [_ Hs] & ->). destruct s as [? ?|buf data out|?|? ?|?]; simpl in Ha; try done.
    injection Ha as Hb _. destruct Hs as (j & Hg & _). simpl. rewrite Hg, Hb. apply prefix_app, prefix_app_r. done.
  - intros (s & h0 & b & x & _ & [Hp _] & _ & _ & ->). simpl. by apply prefix_app_r.
Qed.

Lemma echo_facts σ :
  echoing σ →
  inside client_act client_ok (t1 σ) (h1 σ) ∧ inside server_act server_ok (t2 σ) (h2 σ) ∧
  stream (h1 σ) (h2 σ) ∧ stream (h2 σ) (h1 σ).
Proof.
  apply (peers_inside _ _ _ _ _ _ _ _ _ client_preserved server_preserved).
  - split; [by exists 0|]. exists 0. split_all; try done. by apply length_replicate.
  - split; [done|]. exists 0. split_all; try done. by apply length_replicate.
Qed.

Lemma echo_prefixes σ :
  echoing σ → ∃ j r1 r2 r3 r4, sent (h2 σ) = got (h1 σ) ++ r1 ∧ got (h2 σ) = sent (h2 σ) ++ r2 ∧
    sent (h1 σ) = got (h2 σ) ++ r3 ∧ copies j = sent (h1 σ) ++ r4.
Proof.
  intros (I1 & I2 & [[r3 H3] _] & [[r1 H1] _])%echo_facts.
  destruct (client_sends _ _ I1) as [j [r4 H4]]. destruct (server_sends _ _ I2) as [r2 H2].
  by exists j, r1, r2, r3, r4.
Qed.

Lemma echo_got_copies σ k : echoing σ → blocks k (got (h1 σ)) → got (h1 σ) = copies k.
Proof.
  intros (j & r1 & r2 & r3 & r4 & H1 & H2 & H3 & H4)%echo_prefixes Hb.
  rewrite H3, H2, H1, <- !app_assoc in H4. by destruct (blocks_prefix k _ j _ Hb H4) as (_ & ? & _).
Qed.
Lemma echo_heard_copies σ k : echoing σ → blocks k (got (h2 σ)) → got (h2 σ) = copies k.
Proof.
  intros (j & r1 & r2 & r3 & r4 & H1 & H2 & H3 & H4)%echo_prefixes Hb.
  rewrite H3, <- !app_assoc in H4. by destruct (blocks_prefix k _ j _ Hb H4) as (_ & ? & _).
Qed.

Lemma echo_goes_on σ : echoing σ → shut (h1 σ) = false ∧ shut (h2 σ) = false.
Proof.
  apply peers_never_end. clear σ. intros σ Hr S1 S2. pose proof (echo_facts σ Hr) as (I1 & I2 & [_ E1] & [_ E2]).
  assert (eof (h1 σ) = false) as He1 by (destruct (eof (h1 σ)); [destruct (E2 eq_refl); congruence|done]).
  assert (eof (h2 σ) = false) as He2 by (destruct (eof (h2 σ)); [destruct (E1 eq_refl); congruence|done]).
  split; intros (s & Ht & Hend).
  - rewrite Ht in I1. destruct I1 as [_ I1]. destruct s as [? ?|? ?|?|? ?|?]; simpl in I1, Hend; try congruence.
    + by destruct Hend as [?|[? ?]].
    + by destruct Hend as [?|[? ?]].
    + destruct I1 as [?|(k & _ & Hb & Hne)]; [congruence|]. by apply Hne, echo_got_copies.
  - rewrite Ht in I2. destruct I2 as [_ I2]. destruct s as [? ?|? ? ?|?|? ?|?]; simpl in I2, Hend; try congruence.
    + by destruct Hend as [?|[? ?]].
    + by destruct Hend as [?|[? ?]].
    + destruct I2 as (k & Hb & Hne). by apply Hne, echo_heard_copies.
Qed.

Lemma echo_not_stuck σ : echoing σ → ¬ stuck client_act server_act cap false σ.
Proof.
  intros Hr Hst. destruct (echo_goes_on σ Hr) as [S1 S2]. destruct (echo_facts σ Hr) as (I1 & I2 & H12 & H21).
  destruct (peers_closed_shut _ _ _ _ _ _ _ Hr) as [C1 C2].
  destruct (stuck_waits _ _ _ _ σ H12 H21 Hst) as [W1 W2].
  assert (length (got (h2 σ)) ≤ length (sent (h1 σ)) ∧ length (got (h1 σ)) ≤ length (sent (h2 σ))) as [L12 L21].
  { destruct H12 as [Hp1%prefix_length _], H21 as [Hp2%prefix_length _]. done. }
  destruct (t1 σ) as [s1|rest1 k1|buf1 more1 k1|s1]; [| | |simpl in C1; congruence].
  { destruct W1 as (? & ? & Ha & _). by destruct s1. }
  - destruct W1 as [Hrest [?|W1]]; [congruence|].
    destruct I1 as (s & h0 & b & Ha & [_ Is] & Hh1). destruct s as [buf out|? ?|?|? ?|?]; simpl in Ha; try done.
    injection Ha as Hb _. destruct Is as (j & Hsent & Hgot & _).
    assert (length (sent (h1 σ)) < (j + 1) * n ∧ length (got (h1 σ)) = j * n) as [N1 N2].
    { rewrite Hh1. simpl. rewrite length_app, Hsent, copies_length, Hgot. split; [|done].
      apply (f_equal length) in Hb. rewrite length_app in Hb. destruct rest1; [done|]. simpl in Hb. lia. }
    destruct (t2 σ) as [s2|rest2 k2|buf2 more2 k2|s2]; [| | |simpl in C2; congruence].
    { destruct W2 as (? & ? & Ha2 & _). by destruct s2. }
    + destruct W2 as [Hrest2 [?|W2]]; [congruence|].
      destruct I2 as (s & h0' & b2 & Ha2 & [_ Is2] & Hh2). destruct s as [? ?|buf2 data out2|?|? ?|?]; simpl in Ha2; try done.
      injection Ha2 as Hb2 _. destruct Is2 as (i & Hg2 & Hs2 & Hd2 & _).
      assert (length (sent (h2 σ)) < (i + 1) * n ∧ length (got (h2 σ)) = (i + 1) * n) as [N3 N4].
      { rewrite Hh2. simpl. unfold blocks in *. rewrite length_app, Hg2, length_app, Hs2, Hd2. split; [|lia].
        apply (f_equal length) in Hb2. rewrite length_app in Hb2. destruct rest2; [done|]. simpl in Hb2. lia. }
      assert ((i + 1) * n < (j + 1) * n) as Hij by lia. apply Nat.mul_lt_mono_pos_r in Hij; [|done].
      assert ((i + 1) * n ≤ j * n) by (apply Nat.mul_le_mono_r; lia). lia.
    + destruct I2 as (s & h0' & b2 & x & Ha2 & _). destruct W2 as (m & Hm & W2).
      destruct s as [? ?|? ? ?|?|? ?|?]; simpl in Ha2; try done. injection Ha2 as _ <- _.
      destruct W2 as [Hg _]; [by eapply exactly_pos|]. rewrite Hg in *. lia.
  - destruct I1 as (s & h0 & b & x & Ha & [_ Is] & Hx & -> & Hh1). destruct s as [? ?|buf out|?|? ?|?]; simpl in Ha; try done.
    injection Ha as <- <- _. destruct W1 as (m & Hm & W1). apply exactly_Some in Hm as Hlt.
    destruct W1 as [Hg1 _]; [by eapply exactly_pos|].
    destruct Is as (j & Hsent & Hgot & _). simpl in Hlt.
    assert (length (sent (h1 σ)) = (j + 1) * n ∧ length (got (h1 σ)) = j * n + length x) as [N1 N2].
    { rewrite Hh1. simpl. rewrite length_app, Hsent, copies_length, Hgot. lia. }
    destruct (t2 σ) as [s2|rest2 k2|buf2 more2 k2|s2]; [| | |simpl in C2; congruence].
    { destruct W2 as (? & ? & Ha2 & _). by destruct s2. }
    + destruct W2 as [_ [?|W2]]; [congruence|]. rewrite Hg1 in *. lia.
    + destruct I2 as (s & h0' & b2 & y & Ha2 & [_ Is2] & _ & -> & Hh2). destruct W2 as (m2 & Hm2 & W2).
      destruct s as [buf2 out2|? ? ?|?|? ?|?]; simpl in Ha2; try done. injection Ha2 as <- <- _.
      apply exactly_Some in Hm2 as Hlt2. simpl in Hlt2.
      destruct W2 as [Hg2 _]; [by eapply exactly_pos|].
      destruct Is2 as (i & Hs2 & Hb2 & _).
      assert (length (sent (h2 σ)) = i * n ∧ length (got (h2 σ)) = i * n + length y) as [N3 N4].
      { rewrite Hh2. simpl. rewrite length_app, Hs2, Hb2. lia. }
      rewrite Hg1, N3 in N2. rewrite Hg2, N1 in N4.
      assert (i * n < (j + 1) * n) as Hij by lia. apply Nat.mul_lt_mono_pos_r in Hij; [|done].
      assert (i * n ≤ j * n) by (apply Nat.mul_le_mono_r; lia). lia.
Qed.

(** With buffers of one size on both sides, the echo client and the echo server go on
    for ever: neither ends the connection or comes to print an array that is not text, they
    are never in deadlock, and between two rounds the client has got back, in every round,
    the message it sent. *)
Theorem simple_echo_rounds σ :
  echoing σ →
  ¬ stuck client_act server_act cap false σ ∧
  (∀ s, t1 σ = At s → ∃ buf out, s = CTop buf out ∨ s = CRead buf out) ∧
  (∀ buf out, t1 σ = At (CTop buf out) →
     ∃ k, sent (h1 σ) = copies k ∧ got (h1 σ) = copies k ∧ out = concat (replicate k round_lines)).
Proof.
  intros Hr. destruct (echo_goes_on σ Hr) as [S1 S2]. destruct (echo_facts σ Hr) as (I1 & _ & _ & [_ E1]).
  split; [by apply echo_not_stuck|]. split.
  - intros s Ht. rewrite Ht in I1. destruct I1 as [_ I1].
    assert (eof (h1 σ) = false) as He by (destruct (eof (h1 σ)); [destruct (E1 eq_refl); congruence|done]).
    destruct s as [buf out|buf out|?|? ?|?]; [by eauto|by eauto|simpl in I1; congruence|done|].
    destruct I1 as [?|(k & _ & Hb & Hne)]; [congruence|]. by destruct Hne; apply echo_got_copies.
  - intros buf out Ht. rewrite Ht in I1. destruct I1 as [_ (k & Hs & Hb & _ & _ & Hout)].
    pose proof (echo_got_copies σ k Hr Hb) as Hg. exists k. by split_all; [|done|apply Hout].
Qed.
End simple_echo.

(** With the sizes of the sources it applies. *)
Lemma simple_echo_rounds_witness :
  ∃ σ, running (SimpleEcho.communicate 16 SimpleEcho.send_data SimpleEcho.send_text) (SimpleEcho.processRequest 16)
    8 false (SimpleEcho.client_start 16) (SimpleEcho.server_start 16) σ ∧
  ¬ stuck (SimpleEcho.communicate 16 SimpleEcho.send_data SimpleEcho.send_text) (SimpleEcho.processRequest 16) 8 false σ.
Proof.
  exists (connect (SimpleEcho.client_start 16) (SimpleEcho.server_start 16)).
  assert (running (SimpleEcho.communicate 16 SimpleEcho.send_data SimpleEcho.send_text) (SimpleEcho.processRequest 16)
    8 false (SimpleEcho.client_start 16) (SimpleEcho.server_start 16)
    (connect (SimpleEcho.client_start 16) (SimpleEcho.server_start 16))) as Hr by by apply reachable_init.
  split; [exact Hr|].
  apply (simple_echo_rounds 16 8 SimpleEcho.send_data SimpleEcho.send_text ltac:(lia) ltac:(lia) eq_refl eq_refl _ Hr).
Defined.

(** A schedule in which both sides do as much as they can. *)
Abbreviation client16 := (SimpleEcho.communicate 16 SimpleEcho.send_data SimpleEcho.send_text).

(** "simple echo client/server must agree on the buffer size": a server that reads more at
    a time than the client sends waits for ever, and so does the client. *)
Lemma simple_echo_deadlock :
  ∃ σ, running client16 (SimpleEcho.processRequest 32) 64 false (SimpleEcho.client_start 16) (SimpleEcho.server_start 32) σ ∧
    stuck client16 (SimpleEcho.processRequest 32) 64 false σ.
Proof.
  apply (deadlocks_stuck _ _ 64 false [(true, 0); (true, 16); (true, 0); (true, 0); (false, 0); (false, 16)]); [done|].
  by_computation.
Qed.

(** A server that reads less prints the array beyond its end. *)
Lemma simple_echo_short :
  ∃ σ out, running client16 (SimpleEcho.processRequest 8) 64 false (SimpleEcho.client_start 16) (SimpleEcho.server_start 8) σ ∧
    t2 σ = At (SimpleEcho.SUndefined out).
Proof.
  destruct (turns client16 (SimpleEcho.processRequest 8) 64
    [(true, 0); (true, 16); (false, 0); (false, 8); (false, 0)]
    (connect (SimpleEcho.client_start 16) (SimpleEcho.server_start 8))) as [σ|] eqn:Hσ; [|by vm_compute in Hσ].
  exists σ, []. split; [by eapply turns_start|]. vm_compute in Hσ. by injection Hσ as <-.
Qed.

(** A client that loses the connection prints what it has not read. *)
Lemma simple_echo_lost :
  ∃ σ out, running client16 (SimpleEcho.processRequest 16) 64 true (SimpleEcho.client_start 16) (SimpleEcho.server_start 16) σ ∧
    t1 σ = At (SimpleEcho.CUndefined out).
Proof.
  destruct (turns client16 (SimpleEcho.processRequest 16) 64 [(true, 0); (true, 16); (true, 0); (true, 0)]
    (connect (SimpleEcho.client_start 16) (SimpleEcho.server_start 16))) as [σ|] eqn:Hσ; [|by vm_compute in Hσ].
  pose proof (turns_start _ _ 64 true _ _ _ _ Hσ) as Hr. vm_compute in Hσ. injection Hσ as <-.
  eexists _, _. split; [eapply (reachable_step _ _ _ _ Hr), Left; [by apply (MReadFails _ _ _ _ 16 0)|done]|done].
Qed.

(** * shutdown_socket_client.cpp, shutdown_socket_server.cpp *)

Module ShutdownDemo.
Definition received_line (b : bytes) : string := "Received message: " +:+ String.string_of_list_ascii b.
Definition eof_line : string := "Received EOF, exiting...".

Inductive client :=
| CSend | CShutdown | CRead | CDone (out : list string) | CThrow (e : error) (out : list string).

(** [communicate]. The array has the terminating zero. The call of [shutdown] is a comment
    in the source, so that [half_close] is [false] there. *)
Definition message : bytes := lit "HELLOWORLD" ++ [NUL].
Definition communicate (half_close : bool) (s : client) : action client :=
  match s with
  | CSend =>
      Write message (λ r, match r with
        | None => if half_close then CShutdown else CRead
        | Some e => CThrow e []
        end)
  | CShutdown => Shutdown CRead
  | CRead =>
      Read [] to_the_end (λ msg ec,
        let out := [received_line msg] in
        match ec with
        | Some Eof => CDone (out ++ [eof_line])
        | Some e => CThrow e out
        | None => CThrow (Code 0) out
        end)
  | CDone _ | CThrow _ _ => Close
  end.

Inductive server :=
| SRead (out : list string) | SWrite (msg : bytes) (ec : option error) (out : list string)
| SBreak (out : list string) | SThrow (e : error) (out : list string).

Definition processRequest (s : server) : action server :=
  match s with
  | SRead out => Read [] to_the_end (λ msg ec, SWrite msg ec (out ++ [received_line msg]))
  | SWrite msg ec out =>
      Write msg (λ r, match r, ec with
        | Some e, _ => SThrow e out
        | None, Some Eof => SBreak out
        | None, Some e => SThrow e out
        | None, None => SThrow (Code 0) out
        end)
  | SBreak _ | SThrow _ _ => Close
  end.
End ShutdownDemo.

Section shutdown_demo.
Import ShutdownDemo.
Context (cap : nat) (Hcap : 1 ≤ cap) (half : bool).

Definition shut_client_ok (s : client) (h : hist) : Prop :=
  match s with
  | CSend => sent h = [] ∧ got h = [] ∧ shut h = false
  | CShutdown => half = true ∧ sent h = message ∧ got h = [] ∧ shut h = false
  | CRead => sent h = message ∧ got h = [] ∧ shut h = half
  | CDone out => sent h = message ∧ eof h = true ∧ out = [received_line (got h); eof_line]
  | CThrow _ _ => False
  end.
Definition shut_server_ok (s : server) (h : hist) : Prop :=
  match s with
  | SRead out => sent h = [] ∧ got h = [] ∧ out = [] ∧ shut h = false
  | SWrite msg ec out => sent h = [] ∧ msg = got h ∧ ec = Some Eof ∧ eof h = true ∧ out = [received_line (got h)] ∧ shut h = false
  | SBreak out => sent h = got h ∧ eof h = true ∧ out = [received_line (got h)]
  | SThrow _ _ => False
  end.

Lemma shut_client_preserved : preserved (communicate half) false shut_client_ok.
Proof.
  intros s h Hs. split; [|by destruct s]. destruct s as [| | |out|e out]; simpl in *; try done.
  - destruct Hs as (Hsent & Hgot & Hsh). split; [|done]. unfold shut_client_ok. destruct half eqn:Hh; simpl; by rewrite Hsent.
  - destruct Hs as (Hh & Hsent & Hgot & Hsh). by rewrite Hh.
  - destruct Hs as (Hsent & Hgot & Hsh). intros x _. split; [done|]. intros m _. split; [|done]. by rewrite Hgot.
Qed.
Lemma shut_server_preserved : preserved processRequest false shut_server_ok.
Proof.
  intros s h Hs. split; [|by destruct s]. destruct s as [out|msg ec out|out|e out]; simpl in *; try done.
  - destruct Hs as (Hsent & Hgot & -> & Hsh). intros x _. split; [done|]. intros m _. split; [|done]. by rewrite Hgot.
  - destruct Hs as (Hsent & -> & -> & He & -> & Hsh). split; [|done]. by rewrite Hsent.
Qed.

Abbreviation shutting := (running (communicate half) processRequest cap false CSend (SRead [])).

Lemma shutting_facts σ :
  shutting σ →
  inside (communicate half) shut_client_ok (t1 σ) (h1 σ) ∧ inside processRequest shut_server_ok (t2 σ) (h2 σ) ∧
  stream (h1 σ) (h2 σ) ∧ stream (h2 σ) (h1 σ).
Proof. by apply (peers_inside _ _ _ _ _ _ _ _ _ shut_client_preserved shut_server_preserved). Qed.

(** Without the half-close neither side ever sees an end. *)
Lemma never_shut σ : half = false → shutting σ → shut (h1 σ) = false ∧ shut (h2 σ) = false.
Proof.
  intros Hh. apply peers_never_end. clear σ. intros σ Hr S1 S2.
  pose proof (shutting_facts σ Hr) as (I1 & I2 & [_ E1] & [_ E2]).
  split; intros (s & Ht & Hend).
  - rewrite Ht in I1. destruct s as [| | |out|? ?]; simpl in I1, Hend; try done.
    + by destruct Hend as [?|[? ?]].
    + destruct I1 as [? _]. congruence.
    + by destruct Hend as [?|[? ?]].
    + destruct I1 as (_ & He & _). destruct (E2 He). congruence.
  - rewrite Ht in I2. destruct s as [?|? ? ?|out|? ?]; simpl in I2, Hend; try done.
    + by destruct Hend as [?|[? ?]].
    + by destruct Hend as [?|[? ?]].
    + destruct I2 as (_ & He & _). destruct (E1 He). congruence.
Qed.

(** With it, the server has ended its stream only when it has sent everything back. *)
Lemma shut_server_end t h :
  inside processRequest shut_server_ok t h → shut h = true → ∃ out, (t = At (SBreak out) ∨ t = Closed (SBreak out)) ∧ shut_server_ok (SBreak out) h.
Proof.
  intros I Hs. destruct t as [s|rest k|buf more k|s]; simpl in I.
  - destruct s; simpl in I; try done; [destruct_and!; congruence..|]. eauto.
  - destruct I as (s & h0 & b & Ha & Is & ->). destruct s; simpl in *; try done. destruct_and!; congruence.
  - destruct I as (s & h0 & b & x & Ha & Is & _ & _ & ->). destruct s; simpl in *; try done. destruct_and!; congruence.
  - destruct s; simpl in I; try done; [destruct_and!; congruence..|]. eauto.
Qed.

Lemma shutting_stuck σ :
  half = true → shutting σ → stuck (communicate half) processRequest cap false σ →
  t1 σ = Closed (CDone [received_line message; eof_line]) ∧ t2 σ = Closed (SBreak [received_line message]).
Proof.
  intros Hh Hr Hst. destruct (shutting_facts σ Hr) as (I1 & I2 & H12 & H21).
  destruct (peers_closed_shut _ _ _ _ _ _ _ Hr) as [C1 C2].
  destruct (peers_from _ _ _ _ _ _ _ Hr) as [F1 _].
  destruct (stuck_waits _ _ _ _ σ H12 H21 Hst) as [W1 W2]. destruct H12 as [Hp12 E12], H21 as [Hp21 E21].
  destruct (t1 σ) as [s1|rest1 k1|buf1 more1 k1|s1].
  - destruct W1 as (? & ? & Ha & _). by destruct s1.
  - exfalso. destruct I1 as (s & h0 & b & Ha & Is & Hh1). destruct s as [| | |?|? ?]; simpl in Ha; try done.
    destruct Is as (Hsent & Hgot & Hsh). assert (shut (h1 σ) = false) as Hs1 by by rewrite Hh1.
    assert (eof (h2 σ) = false) as He2 by (destruct (eof (h2 σ)); [destruct (E12 eq_refl); congruence|done]).
    destruct W1 as [_ [?|W1]]; [congruence|]. destruct (t2 σ) as [s2|rest2 k2|buf2 more2 k2|s2].
    + destruct W2 as (? & ? & Ha2 & _). by destruct s2.
    + destruct I2 as (s & h0' & b2 & Ha2 & Is2 & Hh2). destruct s; simpl in Ha2; try done.
      destruct Is2 as (_ & _ & _ & He & _). rewrite Hh2 in He2. simpl in He2. congruence.
    + destruct I2 as (s & h0' & b2 & x & Ha2 & _). destruct s; simpl in Ha2; try done. injection Ha2 as _ <- _.
      destruct W2 as (m & Hm & W2). injection Hm as <-. destruct W2 as [Hg _]; [lia|]. rewrite Hg in W1. lia.
    + destruct (shut_server_end _ _ I2 C2) as (out & _ & _ & He & _). congruence.
  - exfalso. destruct I1 as (s & h0 & b & x & Ha & Is & _ & _ & Hh1). destruct s as [| | |?|? ?]; simpl in Ha; try done.
    injection Ha as _ <- _. destruct Is as (Hsent & Hgot & Hsh). destruct W1 as (m & Hm & W1). injection Hm as <-.
    destruct W1 as [Hg1 Hs2]; [lia|]. assert (shut (h1 σ) = true) as Hs1 by (rewrite Hh1; simpl; congruence).
    destruct (t2 σ) as [s2|rest2 k2|buf2 more2 k2|s2].
    + destruct W2 as (? & ? & Ha2 & _). by destruct s2.
    + destruct W2 as [_ [?|W2]]; [congruence|]. rewrite Hg1 in W2. lia.
    + destruct I2 as (s & h0' & b2 & y & Ha2 & _). destruct s; simpl in Ha2; try done. injection Ha2 as _ <- _.
      destruct W2 as (m & Hm & W2). injection Hm as <-. destruct W2; [lia|congruence].
    + simpl in C2. congruence.
  - destruct s1 as [| | |out|? ?]; simpl in F1, I1; try done.
    destruct I1 as (Hsent & He & ->). destruct (E21 He) as [Hg1 Hs2].
    destruct (shut_server_end _ _ I2 Hs2) as (out2 & [Ht2|Ht2] & Hs & He2 & ->); rewrite Ht2 in W2 |- *.
    { destruct W2 as (? & ? & ? & _). done. }
    destruct (E12 He2) as [Hg2 _]. by rewrite Hg1, Hs, Hg2, Hsent.
Qed.

Definition shut_client_done (s : client) : nat :=
  match s with CSend => 0 | CShutdown => 1 | CRead => 2 | _ => 3 end.
Definition shut_server_done (s : server) : nat := match s with SRead _ => 0 | SWrite _ _ _ => 1 | _ => 2 end.

Lemma shutting_finite σ n :
  nsteps (peers_step (communicate half) processRequest cap false) n (connect CSend (SRead [])) σ → n ≤ 56.
Proof.
  intros Hn. assert (shutting σ) as Hr by (eexists; split; [done|by eapply rtc_nsteps_2]).
  assert (n ≤ moved (h1 σ) + moved (h2 σ) + 2 * (3 + 2) + 2) as Hle.
  { eapply (peers_finite _ _ cap false shut_client_ok shut_server_ok CSend (SRead []) shut_client_done shut_server_done
      (λ _, 3) (λ _, 2)); [| | | | |exact Hn].
    - intros s h _. destruct s; simpl; try done; try lia.
      + intros []; simpl; [lia|]. destruct half; simpl; lia.
      + intros b [[]|]; simpl; lia.
    - intros s h _. destruct s as [|? ec|?|? ?]; simpl; try done; try lia. intros []; simpl; [lia|]. destruct ec as [[]|]; simpl; lia.
    - intros σ' Hr'.
      destruct (peers_invariant _ _ cap false shut_client_ok shut_server_ok CSend (SRead []) σ' shut_client_preserved
        shut_server_preserved) as (? & ? & _); done.
    - intros s h _. destruct s; simpl; lia.
    - intros s h _. destruct s; simpl; lia. }
  destruct (peers_invariant _ _ cap false shut_client_ok shut_server_ok CSend (SRead []) σ shut_client_preserved
        shut_server_preserved) as (U1 & _ & [Hp1%prefix_length _] & [Hp2%prefix_length _]); [done|done|done|].
  destruct (shutting_facts σ Hr) as (_ & I2 & _).
  assert (sent (h1 σ) `prefix_of` message) as Hs1%prefix_length.
  { apply (upto_sent false shut_client_ok _ (t1 σ)); [|done].
    intros [| | |out|? ?] h; simpl; [intros (-> & _)|intros (_ & -> & _)|intros (-> & _)|intros (-> & _)|done]; try done. by eexists. }
  assert (sent (h2 σ) `prefix_of` got (h2 σ)) as Hs2%prefix_length.
  { destruct (t2 σ) as [s|rest k|buf more k|s]; simpl in I2.
    - destruct s; simpl in I2; try done; destruct I2 as (-> & _); try done; by eexists.
    - destruct I2 as (s & h0 & b & Ha & Is & ->). destruct s; simpl in *; try done. injection Ha as Hb _.
      destruct Is as (-> & <- & _). by exists rest.
    - destruct I2 as (s & h0 & b & x & Ha & Is & _ & _ & ->). destruct s; simpl in *; try done.
      destruct Is as (-> & _). by eexists.
    - destruct s; simpl in I2; try done; destruct I2 as (-> & _); try done; by eexists. }
  unfold moved in Hle. change (length message) with 11 in Hs1. lia.
Qed.

(** C30: the client and the server of the shutdown demo, which both read to the end of the
    stream: every run is finite; as the code is, without the call of [shutdown], it ends in
    a deadlock, neither side having ended its stream or printed anything; with it, it ends
    when the client has got its message back, and both have seen the end. *)
Theorem shutdown_needed σ :
  shutting σ →
  (∀ n, nsteps (peers_step (communicate half) processRequest cap false) n (connect CSend (SRead [])) σ → n ≤ 56) ∧
  (half = false → shut (h1 σ) = false ∧ shut (h2 σ) = false) ∧
  (half = true → stuck (communicate half) processRequest cap false σ →
     t1 σ = Closed (CDone [received_line message; eof_line]) ∧ t2 σ = Closed (SBreak [received_line message])).
Proof.
  intros Hr. split; [apply shutting_finite|]. split; [intros Hh; by apply never_shut|intros Hh; by apply shutting_stuck].
Qed.
End shutdown_demo.

(** Both outcomes are reached: a run of the code as it is ends in a deadlock, and one with
    the half-close ends as it should. *)
Definition shutdown_schedule : list (bool * nat) :=
  [(true, 0); (true, 6); (true, 5); (true, 0); (true, 0); (false, 0); (false, 11)].
Definition half_close_schedule : list (bool * nat) :=
  [(true, 0); (true, 11); (true, 0); (true, 0); (true, 0); (false, 0); (false, 4); (false, 7); (false, 0);
   (false, 0); (false, 11); (false, 0); (false, 0); (true, 11); (true, 0); (true, 0)].

Lemma shutdown_needed_witness :
  (∃ σ, turns (ShutdownDemo.communicate false) ShutdownDemo.processRequest 16 shutdown_schedule
      (connect ShutdownDemo.CSend (ShutdownDemo.SRead [])) = Some σ ∧
    stuck (ShutdownDemo.communicate false) ShutdownDemo.processRequest 16 false σ ∧
    shut (h1 σ) = false ∧ shut (h2 σ) = false) ∧
  deadlocks (ShutdownDemo.communicate true) ShutdownDemo.processRequest 16 half_close_schedule
    ShutdownDemo.CSend (ShutdownDemo.SRead []) = true.
Proof.
  split; [|vm_compute; reflexivity].
  destruct (turns (ShutdownDemo.communicate false) ShutdownDemo.processRequest 16 shutdown_schedule
      (connect ShutdownDemo.CSend (ShutdownDemo.SRead []))) as [σ|] eqn:Hσ; [|by vm_compute in Hσ].
  exists σ. split; [done|]. split; [|apply (shutdown_needed 16 ltac:(lia) false σ (turns_start _ _ 16 false _ _ _ _ Hσ)); done].
  vm_compute in Hσ. injection Hσ as <-. by apply waiting_stuck.
Defined.

(** * blocking_tcp_echo_client.cpp, blocking_tcp_echo_server.cpp *)

Module BlockingEcho.
Definition max_length : nat := 1024.

(** [handle_conn]: reading a line, writing it back, and the loop after the stream has
    failed, whose condition [is_open] stays true. A line that the end of the stream cuts
    off is printed and not sent. *)
Inductive conn := Top (buf : bytes) (out : list bytes) | Echo (line buf : bytes) (out : list bytes) | Lost (out : list bytes).
Definition handle_conn (s : conn) : action conn :=
  match s with
  | Top buf out =>
      Read buf (until nl) (λ buf r,
        match r with
        | None => let '(line, rest) := getline buf in Echo line rest (out ++ [line])
        | Some _ => Lost (out ++ [buf])
        end)
  | Echo line buf out => Write (line ++ [nl]) (λ r, match r with None => Top buf out | Some _ => Lost out end)
  | Lost out => Tick (Lost (out ++ [[]]))
  end.

(** [main] of the client, from where it has connected; it prints before it sends. *)
Inductive client := Reply (input : bytes) | Quit (out : list string) | Failure (out : list string) (e : error).
Definition reply_line (input : bytes) : string := "Reply is: " +:+ String.string_of_list_ascii input.
Definition truncated (input : bytes) : bytes :=
  if max_length <? length input then take max_length input else input.
Definition client_act (s : client) : action client :=
  match s with
  | Reply input =>
      let input := truncated input in
      let out := [reply_line input] in
      WriteSome input (λ r, match r with inl _ => Quit out | inr e => Failure out e end)
  | Quit _ | Failure _ _ => Close
  end.

(** The server sends back whole lines of what it has read, each once and in order. *)
Definition conn_ok (s : conn) (h : hist) : Prop :=
  shut h = false ∧
  match s with
  | Top buf out => Forall line_ok out ∧ got h = lines_text out ++ buf ∧ sent h = lines_text out
  | Echo line buf out =>
      ∃ ls, out = ls ++ [line] ∧ Forall line_ok out ∧ got h = lines_text out ++ buf ∧ sent h = lines_text ls
  | Lost _ => ∃ ls r, Forall line_ok ls ∧ got h = lines_text ls ++ r ∧ sent h `prefix_of` lines_text ls
  end.

Lemma conn_preserved lossy : preserved handle_conn lossy conn_ok.
Proof.
  intros s h [Hsh Hs]. split; [|by destruct s]. destruct s as [buf out|line buf out|out]; simpl.
  - destruct Hs as (Hok & Hg & Hsent). intros x _. split.
    + intros Hn%until_None. destruct (getline_found _ Hn) as (line & rest & -> & Hl & Heq).
      split; [done|]. exists out. split_all; [done| | |done].
      * apply Forall_app. split; [done|by constructor].
      * simpl. by rewrite Hg, lines_text_snoc, <- !app_assoc, Heq.
    + intros m _. split; [|intros _ c]; (split; [done|]); exists out, (buf ++ x); simpl;
        (split; [done|]); (split; [by rewrite Hg, <- app_assoc|]); by rewrite Hsent.
  - destruct Hs as (ls & -> & Hok & Hg & Hsent). split.
    + split; [done|]. simpl. split_all; [done|done|]. by rewrite Hsent, lines_text_snoc.
    + intros _ c n Hn. split; [done|]. exists (ls ++ [line]), buf. simpl. split_all; [done|done|].
      rewrite Hsent, lines_text_snoc. apply prefix_app. exists (drop n (line ++ [nl])). by rewrite take_drop.
  - done.
Qed.

Lemma conn_sends s h :
  conn_ok s h → ∃ ls r, got h = lines_text ls ++ r ∧ sent h `prefix_of` lines_text ls.
Proof.
  intros [_ Hs]. destruct s as [buf out|line buf out|out].
  - destruct Hs as (_ & Hg & Hs). exists out, buf. by rewrite Hs.
  - destruct Hs as (ls & -> & _ & Hg & Hs). exists (ls ++ [line]), buf. split; [done|].
    rewrite Hs, lines_text_snoc. by apply prefix_app_r.
  - destruct Hs as (ls & r & _ & ? & ?). eauto.
Qed.
End BlockingEcho.

Section blocking_echo.
Import BlockingEcho.
Context (cap : nat) (Hcap : 1 ≤ cap) (input : bytes) (Hinput : nl ∉ input).

Definition speaker_ok (s : client) (h : hist) : Prop :=
  sent h `prefix_of` truncated input ∧
  match s with
  | Reply i => i = input ∧ sent h = [] ∧ shut h = false
  | Quit out => out = [reply_line (truncated input)]
  | Failure _ _ => False
  end.
Lemma speaker_preserved : preserved client_act false speaker_ok.
Proof.
  intros s h [Hp Hs]. split; [|by destruct s]. destruct s as [i|out|? ?]; simpl in *; try done.
  destruct Hs as (-> & Hsent & Hsh). split_all; [|done|done]. intros n Hn. split; [|done].
  rewrite Hsent. exists (drop n (truncated input)). simpl. by rewrite take_drop.
Qed.

Abbreviation blocking := (running client_act handle_conn cap false (Reply input) (Top [] [])).

Lemma truncated_prefix : truncated input `prefix_of` input.
Proof. unfold truncated. case_match; [|done]. exists (drop max_length input). by rewrite take_drop. Qed.

Lemma blocking_facts σ :
  blocking σ →
  inside client_act speaker_ok (t1 σ) (h1 σ) ∧ inside handle_conn conn_ok (t2 σ) (h2 σ) ∧
  stream (h1 σ) (h2 σ) ∧ stream (h2 σ) (h1 σ).
Proof.
  apply (peers_inside _ _ _ _ _ _ _ _ _ speaker_preserved (conn_preserved false)).
  - split; [apply prefix_nil|done].
  - by repeat constructor.
Qed.

Lemma no_line_yet σ : blocking σ → nl ∉ got (h2 σ).
Proof.
  intros Hr Hin. destruct (peers_invariant _ _ cap false speaker_ok conn_ok (Reply input) (Top [] []) σ speaker_preserved
    (conn_preserved false)) as (U1 & _ & [[r Hp] _] & _); [split; [apply prefix_nil|done]|by repeat constructor|done|].
  destruct (upto_sent false speaker_ok (truncated input) (t1 σ) (h1 σ)) as [r2 Hr2]; [by intros s h [? _]|done|].
  destruct truncated_prefix as [r3 Hr3]. apply Hinput. rewrite Hr3, Hr2, Hp, !elem_of_app. tauto.
Qed.

Lemma nothing_sent σ : blocking σ → sent (h2 σ) = [] ∧ shut (h2 σ) = false.
Proof.
  intros Hr. pose proof (no_line_yet σ Hr) as Hnl. destruct (blocking_facts σ Hr) as (_ & I2 & _).
  assert (∀ ls r, got (h2 σ) = lines_text ls ++ r → ls = []) as Hls.
  { intros ls r Hg. apply (no_newline_no_lines (lines_text ls)); [|done]. intros Hin. apply Hnl. rewrite Hg.
    apply elem_of_app. by left. }
  assert (∀ s, conn_ok s (h2 σ) → sent (h2 σ) = [] ∧ shut (h2 σ) = false) as Hok.
  { intros s Hs. split; [|apply Hs]. destruct (conn_sends s _ Hs) as (ls & r & Hg & Hp). rewrite (Hls ls r Hg) in Hp.
    by apply prefix_nil_inv in Hp. }
  destruct (t2 σ) as [s|rest k|buf more k|s]; simpl in I2; [by apply (Hok s)| | |by apply (Hok s)].
  - destruct I2 as (s & h0 & b & Ha & [_ Is] & Hh). destruct s as [|line buf out|]; simpl in Ha; try done.
    destruct Is as (ls & -> & _ & Hg & _). rewrite Hh in Hls. by destruct (app_nil ls [line]) as [[_ ?] _]; [apply (Hls _ buf)|].
  - destruct I2 as (s & h0 & b & x & Ha & [Hsh Is] & _ & _ & Hh). destruct s as [buf2 out| |]; simpl in Ha; try done.
    destruct Is as (_ & Hg & Hs). rewrite Hh in Hls |- *. simpl in *. split; [|done].
    rewrite Hs, (Hls out (buf2 ++ x)); [done|]. by rewrite Hg, <- app_assoc.
Qed.

Lemma blocking_not_stuck σ : blocking σ → ¬ stuck client_act handle_conn cap false σ.
Proof.
  intros Hr Hst. destruct (blocking_facts σ Hr) as (_ & _ & H12 & H21). destruct (nothing_sent σ Hr) as [_ Hs2].
  destruct (peers_closed_shut _ _ _ _ _ _ _ Hr) as [C1 _]. destruct (peers_from _ _ _ _ _ _ _ Hr) as [F1 F2].
  destruct (stuck_waits _ _ _ _ σ H12 H21 Hst) as [W1 W2].
  destruct (t2 σ) as [s|rest k|buf more k|s].
  - destruct W2 as (? & ? & Ha & _). by destruct s.
  - destruct W2 as [_ [?|W2]]; [congruence|]. destruct (nothing_sent σ Hr) as [Hs _]. rewrite Hs in W2. simpl in W2. lia.
  - destruct F2 as (s & b & Ha). destruct s; simpl in Ha; try done. injection Ha as _ <- _.
    destruct W2 as (m & Hm & W2). unfold until in Hm. case_decide; [done|]. injection Hm as <-.
    destruct W2 as [Hg Hsh]; [lia|]. destruct (t1 σ) as [s1|rest1 k1|buf1 more1 k1|s1].
    + destruct W1 as (? & ? & _ & _ & [?|W1]); [congruence|]. rewrite Hg in W1. lia.
    + destruct F1 as (s1 & ? & Ha1). by destruct s1.
    + destruct F1 as (s1 & ? & Ha1). by destruct s1.
    + simpl in C1. congruence.
  - by destruct s.
Qed.

(** The loop after the end. *)
Lemma lost_for_ever (σ σ' : @system client conn) out :
  t2 σ = At (Lost out) → rtc (peers_step client_act handle_conn cap false) σ σ' → ∃ n, t2 σ' = At (Lost (out ++ replicate n [])).
Proof.
  intros Ht Hr. revert out Ht. induction Hr as [σ|σ σ1 σ' Hs _ IH]; intros out Ht; [exists 0; by rewrite app_nil_r|].
  destruct Hs as [t h u k ev t' Hm _|t h u k ev u' Hm _]; simpl in *; [by apply IH|]. subst u.
  assert (u' = At (Lost (out ++ [[]]))) as ->.
  { inversion Hm as [s b k0 Ha|rest n0 k0 Hn|k0|rest k0 c0 Hr0|s b k0 n0 Ha Hn|s k0 Ha|s b k0 c0 Ha|s buf more k0 Ha|buf more k0 m b Hmm Hb|buf more k0 Hmm|buf more k0 m Hmm|buf more k0 m c0 Hmm|s k0 Ha|s k0 Ha|s Ha];
      subst; simpl in Ha; try done. by injection Ha as <-. }
  destruct (IH _ eq_refl) as [n Hn]. exists (S n). by rewrite Hn, <- app_assoc.
Qed.

(** The blocking echo client sends a word without a newline, reads nothing, and prints
    its own input as the reply; the server never sends anything back and never ends its
    side of the connection. The two are never stuck: when the client is gone, the server's
    loop goes on for ever, printing empty lines. *)
Theorem blocking_echo_no_reply σ :
  blocking σ →
  sent (h2 σ) = [] ∧ shut (h2 σ) = false ∧ sent (h1 σ) `prefix_of` truncated input ∧
  (∀ s, t1 σ = Closed s → s = Quit [reply_line (truncated input)]) ∧
  ¬ stuck client_act handle_conn cap false σ ∧
  (∀ out σ', t2 σ = At (Lost out) → rtc (peers_step client_act handle_conn cap false) σ σ' →
     ∃ n, t2 σ' = At (Lost (out ++ replicate n []))).
Proof.
  intros Hr. destruct (nothing_sent σ Hr) as [Hs2 Hsh]. split; [done|]. split; [done|]. split; [|split_all].
  - destruct (peers_invariant _ _ cap false speaker_ok conn_ok (Reply input) (Top [] []) σ speaker_preserved
      (conn_preserved false)) as (U1 & _); [split; [apply prefix_nil|done]|by repeat constructor|done|].
    apply (upto_sent false speaker_ok (truncated input) (t1 σ)); [by intros s h [? _]|done].
  - intros s Ht. destruct (blocking_facts σ Hr) as (I1 & _). destruct (peers_from _ _ _ _ _ _ _ Hr) as [F1 _].
    rewrite Ht in I1, F1. destruct I1 as [_ I1]. destruct s; simpl in *; try done. by rewrite I1.
  - by apply blocking_not_stuck.
  - intros out σ' Ht Hrtc. by apply (lost_for_ever σ).
Qed.
End blocking_echo.

Definition hello : bytes := lit "hello".
Definition lost_schedule : list (bool * nat) := [(true, 3); (true, 0); (false, 0); (false, 2); (false, 1); (false, 0); (false, 0)].
Lemma blocking_echo_no_reply_witness :
  ∃ σ, turns BlockingEcho.client_act BlockingEcho.handle_conn 64 lost_schedule
      (connect (BlockingEcho.Reply hello) (BlockingEcho.Top [] [])) = Some σ ∧
    t2 σ = At (BlockingEcho.Lost [lit "hel"; []]) ∧ sent (h2 σ) = [].
Proof.
  destruct (turns BlockingEcho.client_act BlockingEcho.handle_conn 64 lost_schedule
      (connect (BlockingEcho.Reply hello) (BlockingEcho.Top [] []))) as [σ|] eqn:Hσ; [|by vm_compute in Hσ].
  exists σ. split; [done|]. split; [vm_compute in Hσ; by injection Hσ as <-|].
  apply (blocking_echo_no_reply 64 ltac:(lia) hello ltac:(by_computation) σ (turns_start _ _ 64 false _ _ _ _ Hσ)).
Defined.
