(* ===== verification/AsyncSocket.v ===== *)
(** The asynchronous reading and writing programs of [src/boost/boost_asio/socket]:
    [async_write_socket.cpp], whose [main] starts several writes on one socket at once, and
    [async_write_socket_1.cpp] with [async_read_socket.cpp], which have one operation
    outstanding at a time and are therefore programs of [TcpPeers].

    A [Session] is owned by the handler of its pending operation; which operation completes
    next, and how many bytes it has transferred, is up to the network. *)

From S2P Require Import Prelude TcpPeers SocketPrograms.
From Stdlib Require Import Ascii.

(** * async_write_socket.cpp *)

Module AsyncWrite.
Record Session := mk_Session { buf : bytes; total_bytes_written : nat }.

(** The sessions with a pending [async_write_some], the bytes on the wire, which session
    has written each piece of them, and the sessions whose last callback had an error. *)
Record state := State {
  pending : gmap nat Session; wire : bytes; pieces : list (nat * bytes); failed : list nat
}.

(** Start the operation again, or let the session go. *)
Definition async_write_some (id : nat) (s : Session) (st : state) : state :=
  State (<[id := s]> (pending st)) (wire st) (pieces st) (failed st).
Definition release (id : nat) (st : state) : state :=
  State (delete id (pending st)) (wire st) (pieces st) (failed st).

Definition callback (ec : Z) (bytes_transferred : nat) (id : nat) (s : Session) (st : state) : state :=
  if decide (ec ≠ 0%Z) then
    let st := release id st in State (pending st) (wire st) (pieces st) (failed st ++ [id])
  else
    let s := mk_Session (buf s) (total_bytes_written s + bytes_transferred) in
    if total_bytes_written s =? length (buf s) then release id st
    else async_write_some id s st.

Definition writeToSockAsync (id : nat) (message : bytes) (st : state) : state :=
  async_write_some id (mk_Session message 0) st.

(** [main] starts one write per message; the programs's own has two, of the same message. *)
Definition empty : state := State ∅ [] [] [].
Fixpoint start_all (id : nat) (messages : list bytes) (st : state) : state :=
  match messages with
  | [] => st
  | m :: messages => start_all (S id) messages (writeToSockAsync id m st)
  end.
Definition main (messages : list bytes) : state := start_all 0 messages empty.
Definition message : bytes := lit "HELLOWORLD" ++ [nl].

(** The pending bytes of a session. *)
Definition left_over (s : Session) : bytes := drop (total_bytes_written s) (buf s).

Definition put (id : nat) (b : bytes) (st : state) : state :=
  State (pending st) (wire st ++ b) (pieces st ++ [(id, b)]) (failed st).

(** An operation completes: with some of its bytes transferred, all of them being none
    when the message is empty, or with an error. *)
Inductive step (st : state) : state → Prop :=
| Written id s n :
    pending st !! id = Some s → n ≤ length (left_over s) → (left_over s ≠ [] → 1 ≤ n) →
    step st (callback 0 n id s (put id (take n (left_over s)) st))
| NotWritten id s ec :
    pending st !! id = Some s → ec ≠ 0%Z → step st (callback ec 0 id s st).

(** [run] returns when nothing is pending. *)
Definition run_returns (st : state) : Prop := pending st = ∅.

(** What session [id] has put on the wire. *)
Definition written (id : nat) (ps : list (nat * bytes)) : bytes :=
  concat (snd <$> filter (λ p, p.1 = id) ps).

(** The number of bytes and callbacks still to come. *)
Definition session_weight (s : Session) : nat := S (length (left_over s)).
Definition weights (m : gmap nat Session) : nat := map_fold (λ _ s n, session_weight s + n) 0 m.
Definition weight (st : state) : nat := weights (pending st).

Record async_ok (messages : list bytes) (st : state) : Prop := {
  ao_wire : wire st = concat (snd <$> pieces st);
  ao_pending id s : pending st !! id = Some s →
    messages !! id = Some (buf s) ∧ written id (pieces st) = take (total_bytes_written s) (buf s) ∧
    total_bytes_written s ≤ length (buf s);
  ao_finished id m : messages !! id = Some m → pending st !! id = None → id ∉ failed st →
    written id (pieces st) = m;
  ao_prefix id m : messages !! id = Some m → written id (pieces st) `prefix_of` m;
  ao_ids p : p ∈ pieces st → p.1 < length messages
}.

Lemma written_app id ps qs : written id (ps ++ qs) = written id ps ++ written id qs.
Proof. unfold written. by rewrite filter_app, fmap_app, concat_app. Qed.
Lemma written_one id id2 b : written id [(id2, b)] = if decide (id2 = id) then b else [].
Proof.
  unfold written. rewrite filter_cons. simpl. case_decide; simpl; [|done]. by rewrite app_nil_r.
Qed.

Lemma start_all_pending id messages st i :
  pending (start_all id messages st) !! i =
    if decide (id ≤ i) then match messages !! (i - id) with Some m => Some (mk_Session m 0) | None => pending st !! i end
    else pending st !! i.
Proof.
  revert id st. induction messages as [|m messages IH]; intros id st; simpl; [by case_decide|].
  rewrite IH. simpl. destruct (decide (i = id)) as [->|Hne].
  - rewrite decide_False by lia. rewrite decide_True, Nat.sub_diag by lia. simpl. by rewrite lookup_insert_eq.
  - rewrite lookup_insert_ne by done. repeat case_decide; try lia; [|done].
    destruct (i - id) as [|k] eqn:Hk; [lia|]. by replace (i - S id) with k by lia.
Qed.
Lemma start_all_rest id messages st :
  wire (start_all id messages st) = wire st ∧ pieces (start_all id messages st) = pieces st ∧
  failed (start_all id messages st) = failed st.
Proof. revert id st. induction messages as [|m messages IH]; intros id st; [done|]. simpl. by rewrite !(proj1 (IH _ _)), (proj1 (proj2 (IH _ _))), (proj2 (proj2 (IH _ _))). Qed.

Lemma main_ok messages : async_ok messages (main messages).
Proof.
  destruct (start_all_rest 0 messages empty) as (Hw & Hp & Hf). unfold main. constructor.
  - by rewrite Hw, Hp.
  - intros id s. rewrite start_all_pending, decide_True, Nat.sub_0_r by lia. simpl. rewrite lookup_empty.
    destruct (messages !! id) as [m|] eqn:Hm; [|done]. intros [= <-]. simpl. rewrite Hp. split_all; [done|done|lia].
  - intros id m Hm. rewrite start_all_pending, decide_True, Nat.sub_0_r, Hm by lia. done.
  - intros id m _. rewrite Hp. apply prefix_nil.
  - intros p. rewrite Hp. by intros ?%not_elem_of_nil.
Qed.

(** The next state of a session whose bytes have been transferred. *)
Lemma callback_ok_pending n id s st :
  pending (callback 0 n id s st) =
    if total_bytes_written s + n =? length (buf s) then delete id (pending st)
    else <[id := mk_Session (buf s) (total_bytes_written s + n)]> (pending st).
Proof.
  unfold callback. rewrite decide_False by (intros H; by apply H). simpl.
  by destruct (total_bytes_written s + n =? length (buf s)).
Qed.
Lemma callback_ok_rest n id s st :
  wire (callback 0 n id s st) = wire st ∧ pieces (callback 0 n id s st) = pieces st ∧
  failed (callback 0 n id s st) = failed st.
Proof.
  unfold callback. rewrite decide_False by (intros H; by apply H). simpl.
  by destruct (total_bytes_written s + n =? length (buf s)).
Qed.

Lemma written_ok messages st id s n :
  async_ok messages st → pending st !! id = Some s → n ≤ length (left_over s) →
  async_ok messages (callback 0 n id s (put id (take n (left_over s)) st)).
Proof.
  intros [Hw Hpend Hfin Hpre Hids] Hid Hn.
  destruct (callback_ok_rest n id s (put id (take n (left_over s)) st)) as (Cw & Cp & Cf).
  pose proof (callback_ok_pending n id s (put id (take n (left_over s)) st)) as Cpend. simpl in *.
  destruct (Hpend id s Hid) as (Hm & Hwr & Htot). unfold left_over in *. rewrite length_drop in Hn.
  assert (∀ i, written i (pieces st ++ [(id, take n (drop (total_bytes_written s) (buf s)))]) =
    if decide (i = id) then take (total_bytes_written s + n) (buf s) else written i (pieces st)) as Hall.
  { intros i. rewrite written_app, written_one. destruct (decide (i = id)) as [->|Hne].
    - rewrite decide_True by done. by rewrite Hwr, take_take_drop.
    - rewrite decide_False by done. by rewrite app_nil_r. }
  constructor.
  - rewrite Cw, Cp, Hw, fmap_app, concat_app. simpl. by rewrite app_nil_r.
  - intros i s'. rewrite Cpend, Cp, Hall. destruct (decide (i = id)) as [->|Hne].
    + case_match; [by rewrite lookup_delete_eq|]. rewrite lookup_insert_eq. intros [= <-]. simpl. split_all; [done|done|lia].
    + case_match; [rewrite lookup_delete_ne by done|rewrite lookup_insert_ne by done]; apply Hpend.
  - intros i m Hi. rewrite Cpend, Cp, Hall, Cf. destruct (decide (i = id)) as [->|Hne].
    + case_match eqn:E; [|by rewrite lookup_insert_eq]. apply Nat.eqb_eq in E. intros _ _.
      rewrite E, firstn_all. congruence.
    + case_match; [rewrite lookup_delete_ne by done|rewrite lookup_insert_ne by done]; by apply Hfin.
  - intros i m Hi. rewrite Cp, Hall. destruct (decide (i = id)) as [->|Hne]; [|by apply Hpre].
    assert (m = buf s) as -> by congruence. exists (drop (total_bytes_written s + n) (buf s)). by rewrite take_drop.
  - intros p. rewrite Cp, elem_of_app, list_elem_of_singleton. intros [Hp| ->]; [by apply Hids|].
    by eapply lookup_lt_Some.
Qed.

Lemma not_written_ok messages st id s ec :
  async_ok messages st → pending st !! id = Some s → ec ≠ 0%Z → async_ok messages (callback ec 0 id s st).
Proof.
  intros [Hw Hpend Hfin Hpre Hids] Hid Hec. unfold callback. rewrite decide_True by done.
  constructor; simpl; [done| | |done|done].
  - intros i s' [_ Hi]%lookup_delete_Some. by apply Hpend.
  - intros i m Hi Hnone Hf. rewrite elem_of_app, list_elem_of_singleton in Hf.
    apply Hfin; [done| |tauto]. rewrite lookup_delete_ne in Hnone; [done|]. intros ->. tauto.
Qed.

Abbreviation running messages := (reachable (λ st, st = main messages) step).
Lemma running_async_ok messages st : running messages st → async_ok messages st.
Proof.
  revert st. apply invariant_reachable; [intros ? ->; apply main_ok|].
  intros st st' Hok Hstep. destruct Hstep as [id s n Hid Hn _|id s ec Hid Hec]; [by apply written_ok|by apply not_written_ok].
Qed.

(** Every step uses up a byte or a callback. *)
Lemma weights_delete id s m : m !! id = Some s → weights m = session_weight s + weights (delete id m).
Proof. intros Hid. unfold weights. rewrite (map_fold_delete_L _ _ id s m); [done| |done]. intros. lia. Qed.
Lemma weights_insert id s m : weights (<[id := s]> m) = session_weight s + weights (delete id m).
Proof.
  rewrite (weights_delete id s) by apply lookup_insert_eq. by rewrite delete_insert_eq.
Qed.
Lemma step_weight messages st st' : async_ok messages st → step st st' → weight st' < weight st.
Proof.
  intros Hok Hstep. unfold weight. destruct Hstep as [id s n Hid Hn H1|id s ec Hid Hec].
  - rewrite callback_ok_pending, (weights_delete id s (pending st) Hid).
    case_match eqn:E; [unfold session_weight, put; simpl; lia|]. apply Nat.eqb_neq in E.
    destruct (ao_pending _ _ Hok id s Hid) as (_ & _ & Ht).
    rewrite weights_insert. unfold session_weight, left_over in *. simpl. rewrite !length_drop in *.
    assert (drop (total_bytes_written s) (buf s) ≠ []) as Hne.
    { intros Hnil%(f_equal length). rewrite length_drop in Hnil. simpl in Hnil. lia. }
    specialize (H1 Hne). lia.
  - unfold callback. rewrite decide_True by done. rewrite (weights_delete id s (pending st) Hid).
    unfold session_weight. simpl. lia.
Qed.
Lemma start_all_weight id messages st :
  (∀ i, id ≤ i → pending st !! i = None) →
  weight (start_all id messages st) = weight st + length (concat messages) + length messages.
Proof.
  revert id st. induction messages as [|m messages IH]; intros id st Hst; simpl; [lia|].
  rewrite IH; [|intros i Hi; simpl; rewrite lookup_insert_ne by lia; apply Hst; lia].
  unfold weight at 1. simpl. rewrite weights_insert, delete_id by (apply Hst; lia).
  unfold session_weight, left_over, weight. simpl. rewrite drop_0, length_app. lia.
Qed.
Lemma run_length messages n st :
  nsteps step n (main messages) st → n + weight st ≤ length (concat messages) + length messages.
Proof.
  revert st. induction n as [|n IH]; intros st Hn.
  - inversion Hn; subst. unfold main. rewrite start_all_weight by (intros; apply lookup_empty). simpl. unfold weight, weights. simpl. 
    rewrite map_fold_empty. lia.
  - apply nsteps_inv_r in Hn as (st1 & Hn & Hstep). specialize (IH st1 Hn).
    assert (async_ok messages st1) as Hok.
    { apply running_async_ok. exists (main messages). split; [done|by eapply rtc_nsteps_2]. }
    pose proof (step_weight messages st1 st Hok Hstep). lia.
Qed.

(** Something pending can complete. *)
Lemma pending_moves st : pending st ≠ ∅ → ∃ st', step st st'.
Proof.
  intros (id & s & Hid)%map_choose. eexists.
  apply (Written st id s (length (left_over s)) Hid); [done|].
  destruct (left_over s); [done|]. simpl. lia.
Qed.

(** C31: the sessions of [async_write_socket.cpp], any number of them on one socket: the
    program ends after a bounded number of callbacks; each session has at any time written
    a prefix of its message, in order, and all of it when it ends without an error; the
    bytes on the wire are these pieces in the order of completion. *)
Theorem async_writes messages st :
  running messages st →
  (∀ n, nsteps step n (main messages) st → n ≤ length (concat messages) + length messages) ∧
  (pending st ≠ ∅ → ∃ st', step st st') ∧
  wire st = concat (snd <$> pieces st) ∧
  (∀ id m, messages !! id = Some m → written id (pieces st) `prefix_of` m) ∧
  (run_returns st → failed st = [] → ∀ id m, messages !! id = Some m → written id (pieces st) = m).
Proof.
  intros Hr. pose proof (running_async_ok messages st Hr) as Hok. split.
  { intros n Hn. pose proof (run_length messages n st Hn). lia. }
  split; [apply pending_moves|]. split; [apply Hok|]. split; [apply Hok|].
  intros Hret Hf id m Hm. apply (ao_finished _ _ Hok id m Hm); [by rewrite Hret|rewrite Hf; apply not_elem_of_nil].
Qed.

(** One message arrives as it is. *)
Lemma one_session ps : (∀ p, p ∈ ps → p.1 < 1) → written 0 ps = concat (snd <$> ps).
Proof.
  unfold written. induction ps as [|p ps IH]; intros Hps; [done|]. rewrite filter_cons.
  rewrite decide_True by (specialize (Hps p ltac:(left)); lia).
  rewrite !fmap_cons. cbn [concat]. f_equal. apply IH. intros q Hq. apply Hps. by right.
Qed.
Lemma one_message m st : running [m] st → run_returns st → failed st = [] → wire st = m.
Proof.
  intros Hr Hret Hf. pose proof (running_async_ok [m] st Hr) as Hok.
  assert (written 0 (pieces st) = m) as <-.
  { apply (ao_finished _ _ Hok 0 m eq_refl); [by rewrite Hret|rewrite Hf; apply not_elem_of_nil]. }
  rewrite (ao_wire _ _ Hok), one_session; [done|apply Hok].
Qed.

(** The program's two messages need not: a first write that transfers a part lets the
    second message in between. *)
Definition complete (id n : nat) (st : state) : option state :=
  s ← pending st !! id;
  if decide (1 ≤ n ≤ length (left_over s)) then Some (callback 0 n id s (put id (take n (left_over s)) st)) else None.
Fixpoint completes (l : list (nat * nat)) (st : state) : option state :=
  match l with [] => Some st | (id, n) :: l => st ← complete id n st; completes l st end.
Lemma completes_running l messages st st' : completes l st = Some st' → running messages st → running messages st'.
Proof.
  revert st. induction l as [|[id n] l IH]; intros st; simpl; [by intros [= ->]|].
  intros (st1 & Hc & Hl)%bind_Some Hr. apply (IH st1 Hl). apply (reachable_step _ _ st); [done|].
  unfold complete in Hc. apply bind_Some in Hc as (s & Hs & Hc). case_decide as Hn; [|done].
  injection Hc as <-. apply Written; [done|lia|lia].
Qed.
Lemma messages_mixed :
  ∃ st, running [message; message] st ∧ run_returns st ∧ failed st = [] ∧
    wire st = lit "HELLO" ++ message ++ lit "WORLD" ++ [nl] ∧ wire st ≠ message ++ message.
Proof.
  destruct (completes [(0, 5); (1, 11); (0, 6)] (main [message; message])) as [st|] eqn:Hst; [|by vm_compute in Hst].
  exists st. split.
  - apply (completes_running _ _ _ _ Hst). by apply reachable_init.
  - vm_compute in Hst. injection Hst as <-. by vm_compute.
Qed.

(** With their two messages, and nothing lost. *)
Lemma async_writes_witness :
  ∃ st, completes [(0, 5); (1, 11); (0, 6)] (main [message; message]) = Some st ∧
    written 0 (pieces st) = message ∧ written 1 (pieces st) = message.
Proof.
  destruct (completes [(0, 5); (1, 11); (0, 6)] (main [message; message])) as [st|] eqn:Hst; [|by vm_compute in Hst].
  exists st. split; [done|].
  assert (running [message; message] st) as Hr.
  { apply (completes_running _ _ _ _ Hst). by apply reachable_init. }
  destruct (async_writes [message; message] st Hr) as (_ & _ & _ & _ & Hall).
  assert (run_returns st ∧ failed st = []) as [H1 H2] by (vm_compute in Hst; by injection Hst as <-).
  split; by apply Hall.
Defined.
End AsyncWrite.

(** * async_write_socket_1.cpp and async_read_socket.cpp *)

Module AsyncRead.
(** ** Writer: [async_write] of one message, whose callback does nothing. *)
Inductive writer := WStart | WRan (ec : option error).
Definition writer_act (message : bytes) (s : writer) : action writer :=
  match s with WStart => Write message WRan | WRan _ => Close end.

(** ** Reader *)

(** [Session]: what the buffer has received, its size, and the counter; the operation that
    is outstanding, or what [main] prints when [run] has returned. *)
Record Session := mk_Session { buf : bytes; total_bytes_read : nat; buf_size : nat }.
Inductive reader :=
| ReadingAll (s : Session) | ReadingSome (s : Session) | Ran (ec : option error) (text : bytes).

Definition callback (ec : option error) (b : bytes) (s : Session) : reader :=
  let s := mk_Session (buf s ++ b) (total_bytes_read s + length b) (buf_size s) in
  match ec with
  | Some _ => Ran ec (take (total_bytes_read s) (buf s))
  | None =>
      if total_bytes_read s <? buf_size s then ReadingSome s
      else Ran ec (take (total_bytes_read s) (buf s))
  end.
(** [async_read] into the whole buffer, and [async_read_some] into what is left of it. *)
Definition reader_act (r : reader) : action reader :=
  match r with
  | ReadingAll s => Read [] (exactly (buf_size s)) (λ b ec, callback ec b s)
  | ReadingSome s =>
      Read [] (λ b, if decide (b = []) then Some (buf_size s - total_bytes_read s) else None)
        (λ b ec, callback ec b s)
  | Ran _ _ => Close
  end.

Definition BUF_SIZE : nat := 1024.
Definition session (size : nat) : Session := mk_Session [] 0 size.
(** [main] calls [async_read]; the call of [readFromSocket] is a comment. *)
Definition main_start (size : nat) : reader := ReadingAll (session size).
Definition readFromSocket (s : Session) : reader := ReadingSome s.
End AsyncRead.

Section async_read.
Import AsyncRead.
Context (cap size : nat) (message : bytes) (Hcap : 1 ≤ cap) (Hsize : 0 < size) (Hlen : length message ≤ size).

Definition aw_ok (s : writer) (h : hist) : Prop :=
  match s with
  | WStart => sent h = [] ∧ shut h = false
  | WRan ec => sent h = message ∧ ec = None
  end.
Definition ar_ok (r : reader) (h : hist) : Prop :=
  sent h = [] ∧ length (got h) ≤ size ∧
  match r with
  | ReadingAll s => s = session size ∧ got h = [] ∧ shut h = false
  | ReadingSome s =>
      buf s = got h ∧ total_bytes_read s = length (got h) ∧ buf_size s = size ∧ length (got h) < size ∧ shut h = false
  | Ran ec text => text = got h ∧ match ec with Some _ => eof h = true | None => length (got h) = size end
  end.

Lemma aw_preserved : preserved (writer_act message) false aw_ok.
Proof.
  intros s h Hs. split; [|by destruct s]. destruct s as [|ec]; simpl in *; [|done].
  destruct Hs as [Hs Hsh]. split; [|done]. by rewrite Hs.
Qed.
Lemma ar_preserved : preserved reader_act false ar_ok.
Proof.
  intros r h (Hsent & Hl & Hr). split; [|by destruct r]. destruct r as [s|s|ec text]; simpl; [| |done].
  - destruct Hr as (-> & Hg & Hsh). intros x Hx. simpl in Hx. pose proof (reads_exactly _ _ _ Hx) as Hle. simpl in Hle. split.
    + intros Hn%exactly_None. simpl in Hn. unfold callback. simpl. rewrite (proj2 (Nat.ltb_ge _ _)) by lia.
      unfold ar_ok. simpl. rewrite Hg, take_ge by (simpl; lia). split_all; [done|simpl; lia|done|simpl; lia].
    + intros m _. split; [|done]. unfold callback, ar_ok. simpl. rewrite Hg, take_ge by (simpl; lia). split_all; [done|simpl; lia|done|done].
  - destruct Hr as (Hb & Ht & Hbs & Hlt & Hsh). intros x Hx.
    assert (length (got h ++ x) ≤ size) as Hle.
    { rewrite length_app. inversion Hx as [|? m b y Hm Hbm Hy]; subst; [simpl; lia|]. simpl in Hm. injection Hm as <-.
      inversion Hy as [|? m' b' ? Hm' Hb']; subst; [rewrite app_nil_r; lia|]. simpl in Hm'.
      destruct b; [simpl in Hbm; lia|done]. }
    split.
    + intros Hn. unfold callback. simpl. rewrite Hb, Ht, Hbs. rewrite length_app in Hle.
      destruct (Nat.ltb_spec (length (got h) + length x) size).
      * unfold ar_ok. simpl. split_all; rewrite ?length_app; try done; lia.
      * unfold ar_ok. simpl. split_all; rewrite ?length_app; try done; [|lia]. rewrite take_ge; [done|]. rewrite length_app. lia.
    + intros m _. split; [|done]. unfold callback, ar_ok. simpl. rewrite Hb, Ht.
      split_all; [done|done| |done]. rewrite take_ge; [done|]. rewrite length_app. lia.
Qed.

Abbreviation reading r := (running (writer_act message) reader_act cap false WStart r).

Lemma reading_facts r σ :
  r = main_start size ∨ r = readFromSocket (session size) → reading r σ →
  inside (writer_act message) aw_ok (t1 σ) (h1 σ) ∧ inside reader_act ar_ok (t2 σ) (h2 σ) ∧
  stream (h1 σ) (h2 σ) ∧ stream (h2 σ) (h1 σ).
Proof.
  intros Hr. apply (peers_inside _ _ _ _ _ _ _ _ _ aw_preserved ar_preserved); [done|].
  destruct Hr as [->| ->]; unfold ar_ok, main_start, readFromSocket, session; simpl; split_all; try done; lia.
Qed.

Lemma reading_stuck r σ :
  r = main_start size ∨ r = readFromSocket (session size) → reading r σ →
  stuck (writer_act message) reader_act cap false σ →
  t1 σ = Closed (WRan None) ∧ ∃ ec, t2 σ = Closed (Ran ec message).
Proof.
  intros H0 Hr Hst. destruct (reading_facts r σ H0 Hr) as (I1 & I2 & H12 & H21).
  destruct (peers_closed_shut _ _ _ _ _ _ _ Hr) as [C1 C2]. destruct (peers_from _ _ _ _ _ _ _ Hr) as [F1 F2].
  destruct (stuck_waits _ _ _ _ σ H12 H21 Hst) as [W1 W2]. destruct H12 as [[q Hp12] E12].
  assert (∃ ec, t1 σ = Closed (WRan ec) ∨ (∃ rest k, t1 σ = Sending rest k) ∧ shut (h1 σ) = false ∧
    length (sent (h1 σ)) < size) as (ec & Ht1).
  { destruct (t1 σ) as [s|rest k|buf more k|s].
    - destruct W1 as (? & ? & Ha & _). by destruct s.
    - exists None. right. destruct I1 as (s & h0 & b & Ha & Is & Hh). destruct s; simpl in Ha; [|done].
      injection Ha as Hb _. destruct Is as [Hs Hsh]. rewrite Hh. simpl. rewrite Hs. split; [eauto|]. split; [done|].
      destruct W1 as [Hrest _]. apply (f_equal length) in Hb. rewrite length_app in Hb.
      destruct rest; [done|]. simpl in Hb |- *. lia.
    - destruct F1 as (s & ? & Ha). by destruct s.
    - simpl in F1. destruct s as [|ec]; [done|]. exists ec. by left. }
  assert (∃ ec2 text, t2 σ = Closed (Ran ec2 text)) as (ec2 & text & Ht2).
  { destruct (t2 σ) as [s|rest k|buf more k|s].
    - destruct W2 as (? & ? & Ha & _). by destruct s.
    - destruct F2 as (s & ? & Ha). by destruct s.
    - exfalso. assert (got (h2 σ) = sent (h1 σ) ∧ shut (h1 σ) = false) as [Hg Hsh].
      { destruct I2 as (s & h0 & b & x & Ha & Is & Hx & -> & Hh). destruct W2 as (m & Hm & W2). apply W2.
        destruct s as [s|s|]; simpl in Ha; try done; injection Ha as <- <- _; simpl in Hm.
        - by eapply exactly_pos.
        - case_decide; [|done]. injection Hm as <-. destruct Is as (_ & _ & _ & Ht & Hbs & Hlt & _). lia. }
      destruct Ht1 as [Ht1|((rest & k' & Ht1) & _ & _)].
      + rewrite Ht1 in C1. simpl in C1. congruence.
      + rewrite Ht1 in W1. destruct W1 as [_ [?|W1]]; [congruence|]. rewrite Hg in W1. lia.
    - simpl in F2. destruct s as [| |ec2 text]; try done. eauto. }
  rewrite Ht2 in I2 |- *. destruct I2 as (_ & _ & -> & Hec).
  destruct Ht1 as [Ht1|(_ & Hsh & Hlt)].
  - rewrite Ht1 in I1 |- *. destruct I1 as [Hs ->]. split; [done|]. exists ec2. do 2 f_equal.
    destruct ec2; [destruct (E12 Hec); congruence|]. rewrite Hp12 in Hs.
    assert (q = []) as ->; [|by rewrite app_nil_r in Hs].
    apply (f_equal length) in Hs. rewrite length_app in Hs. destruct q; [done|]. simpl in Hs. lia.
  - exfalso. destruct ec2; [destruct (E12 Hec); congruence|].
    rewrite Hp12, length_app in Hlt. lia.
Qed.

(** [async_read_socket.cpp] prints exactly the message [async_write_socket_1.cpp]
    writes, if it fits into the buffer, whether it reads with one [async_read] or with
    [async_read_some] again and again, and however the message is cut up: when nothing can
    happen any more, both have returned from [run], and the text is the message. *)
Theorem async_read_message r σ :
  r = main_start size ∨ r = readFromSocket (session size) → reading r σ →
  (stuck (writer_act message) reader_act cap false σ →
     t1 σ = Closed (WRan None) ∧ ∃ ec, t2 σ = Closed (Ran ec message)) ∧
  (∀ ec text, t2 σ = At (Ran ec text) → text `prefix_of` message).
Proof.
  intros H0 Hr. split; [by apply (reading_stuck r)|]. intros ec text Ht.
  destruct (reading_facts r σ H0 Hr) as (I1 & I2 & [Hp _] & _). rewrite Ht in I2. destruct I2 as (_ & _ & -> & _).
  etrans; [exact Hp|]. destruct (t1 σ) as [s|rest k|buf more k|s]; simpl in I1.
  - destruct s; simpl in I1; destruct I1 as [-> _]; [apply prefix_nil|done].
  - destruct I1 as (s & h0 & b & Ha & Is & ->). destruct s; simpl in Ha; [|done]. injection Ha as Hb _.
    destruct Is as [Hs _]. simpl. rewrite Hs, Hb. by exists rest.
  - destruct I1 as (s & h0 & b & x & Ha & _). by destruct s.
  - destruct s; simpl in I1; destruct I1 as [-> _]; [apply prefix_nil|done].
Qed.
End async_read.

Definition helloworld : bytes := lit "HELLOWORLD".
Definition read_schedule : list (bool * nat) :=
  [(true, 0); (false, 0); (true, 4); (false, 3); (true, 6); (true, 0); (false, 7); (true, 0); (false, 0); (false, 0)].
Lemma async_read_message_witness :
  ∃ σ, turns (AsyncRead.writer_act helloworld) AsyncRead.reader_act 64 read_schedule
      (connect AsyncRead.WStart (AsyncRead.main_start AsyncRead.BUF_SIZE)) = Some σ ∧
    ∃ ec, t2 σ = Closed (AsyncRead.Ran ec helloworld).
Proof.
  destruct (turns (AsyncRead.writer_act helloworld) AsyncRead.reader_act 64 read_schedule
      (connect AsyncRead.WStart (AsyncRead.main_start AsyncRead.BUF_SIZE))) as [σ|] eqn:Hσ; [|by vm_compute in Hσ].
  exists σ. split; [done|].
  assert (deadlocks (AsyncRead.writer_act helloworld) AsyncRead.reader_act 64 read_schedule
    AsyncRead.WStart (AsyncRead.main_start AsyncRead.BUF_SIZE) = true) as Hd by (vm_compute; reflexivity).
  assert (length helloworld ≤ AsyncRead.BUF_SIZE) as Hlen by by_computation.
  assert (0 < AsyncRead.BUF_SIZE) as Hpos by by_computation.
  destruct (async_read_message 64 AsyncRead.BUF_SIZE helloworld ltac:(lia) Hpos Hlen
    (AsyncRead.main_start AsyncRead.BUF_SIZE) σ (or_introl eq_refl) (turns_start _ _ 64 false _ _ _ _ Hσ)) as [Hst _].
  apply Hst. unfold deadlocks in Hd. rewrite Hσ in Hd. destruct σ as [t h u k].
  apply andb_true_iff in Hd as [Hd1 Hd2]. apply waiting_stuck; [reflexivity| |]; by apply Is_true_true.
Defined.
