(* ===== verification/AsyncEcho.v ===== *)
(** [src/books/asio/chapter01_core_concepts_and_functionalities/cores/tcp/async_tcp_echo_server.cpp]:
    sessions that read a piece of the stream, write it back and read on, each kept alive
    by the handler of the operation it has started.

    Which operation completes next, with what error, and how many bytes a read or a
    [write_some] transfers, is the network's choice. The handlers of one session never
    overlap, because each operation is started in the handler of the one before. *)

From S2P Require Import Prelude.

Section echo.
Context {byte : Type} (zero : byte).

(** * The program *)

Definition max_length : nat := 1024.

(** The operation a session has started: [do_read], or [do_write] of the first bytes. *)
Inductive pending : Type := Reading | Writing (bytes_transferred : nat).

(** A session with its buffer; beside it, what its client has sent and got back, and the
    pieces read with the number of bytes written of each. *)
Record session : Type := Session {
  data : list byte;
  op : pending;
  received : list byte;
  echoed : list byte;
  pieces : list (list byte * nat)
}.

(** The sessions by number. A [shared_ptr] to a session is in the handler of its pending
    operation and nowhere else, so that the session is gone when a handler ends without
    starting another. *)
Record server : Type := Server { sessions : gmap nat session; accepted : nat; accepting : bool }.

Definition set_session (id : nat) (x : session) (s : server) : server :=
  Server (<[id := x]> (sessions s)) (accepted s) (accepting s).
Definition drop_session (id : nat) (s : server) : server :=
  Server (delete id (sessions s)) (accepted s) (accepting s).

Definition do_accept (s : server) : server := Server (sessions s) (accepted s) true.
Definition do_read (x : session) : session := Session (data x) Reading (received x) (echoed x) (pieces x).
Definition do_write (n : nat) (x : session) : session := Session (data x) (Writing n) (received x) (echoed x) (pieces x).

(** The handler of [async_accept]: a new session, and in any case the next accept. *)
Definition on_accept (ok : bool) (s : server) : server :=
  let s := Server (sessions s) (accepted s) false in
  do_accept
    (if ok then
       Server (<[accepted s := do_read (Session (replicate max_length zero) Reading [] [] [])]> (sessions s))
         (S (accepted s)) (accepting s)
     else s).

(** The handler of [async_read_some], after the bytes have been put into the buffer. *)
Definition on_read (id : nat) (x : session) (bytes : option (list byte)) (s : server) : server :=
  match bytes with
  | Some bs =>
      set_session id (do_write (length bs)
        (Session (bs ++ drop (length bs) (data x)) Reading (received x ++ bs) (echoed x) (pieces x))) s
  | None => drop_session id s
  end.

(** The handler of [async_write_some]: the number of bytes written is not looked at. *)
Definition on_write (id : nat) (x : session) (n : nat) (written : option nat) (s : server) : server :=
  match written with
  | Some k =>
      set_session id (do_read
        (Session (data x) (op x) (received x) (echoed x ++ take k (data x)) (pieces x ++ [(take n (data x), k)]))) s
  | None => drop_session id s
  end.

Definition init : server := do_accept (Server ∅ 0 false).

(** A read transfers at most what the buffer holds, and a write at most what it was given;
    [full] says that the writes of a run are complete. *)
Inductive step (full : bool) (s : server) : server → Prop :=
  | Accepted ok : accepting s = true → step full s (on_accept ok s)
  | ReadDone id x bs :
      sessions s !! id = Some x → op x = Reading → from_option (λ l, length l ≤ max_length) True bs →
      step full s (on_read id x bs s)
  | WriteDone id x n k :
      sessions s !! id = Some x → op x = Writing n → from_option (λ k, if full then k = n else k ≤ n) True k →
      step full s (on_write id x n k s).

(** * The echo *)

Definition session_ok (full : bool) (x : session) : Prop :=
  length (data x) = max_length ∧
  received x = concat (map fst (pieces x)) ++ match op x with Reading => [] | Writing n => take n (data x) end ∧
  echoed x = concat (map (λ p, take p.2 p.1) (pieces x)) ∧
  (full = true → Forall (λ p, p.2 = length p.1) (pieces x)) ∧
  match op x with Reading => True | Writing n => n ≤ max_length end.

Definition echo_ok (full : bool) (s : server) : Prop :=
  map_Forall (λ _ x, session_ok full x) (sessions s) ∧ (∀ id, is_Some (sessions s !! id) → id < accepted s) ∧
  accepting s = true.

Lemma read_session full x bs :
  session_ok full x → op x = Reading → length bs ≤ max_length →
  session_ok full (do_write (length bs)
    (Session (bs ++ drop (length bs) (data x)) Reading (received x ++ bs) (echoed x) (pieces x))).
Proof.
  intros (Hd & Hr & He & Hf & _) Hop Hbs. unfold session_ok, do_write. cbn [data op received echoed pieces].
  rewrite Hop, app_nil_r in Hr. split_all; [|by rewrite Hr, take_app_length|done|done|done].
  rewrite length_app, length_drop. lia.
Qed.

Lemma write_session full x n k :
  session_ok full x → op x = Writing n → (if full then k = n else k ≤ n) →
  session_ok full (do_read
    (Session (data x) (op x) (received x) (echoed x ++ take k (data x)) (pieces x ++ [(take n (data x), k)]))).
Proof.
  intros (Hd & Hr & He & Hf & Hn) Hop Hk. rewrite Hop in Hr, Hn. unfold session_ok, do_read. cbn [data op received echoed pieces].
  assert (k ≤ n) as Hkn by (destruct full; lia). rewrite !map_app, !concat_app. cbn. rewrite !app_nil_r. split_all; try done.
  - rewrite He. rewrite take_take, Nat.min_l by done. done.
  - intros Hfull. rewrite Hfull in Hk. apply Forall_app. split; [by apply Hf|]. constructor; [|done].
    cbn [fst snd]. rewrite length_take. lia.
Qed.

Lemma echo_step full s s' : echo_ok full s → step full s s' → echo_ok full s'.
Proof.
  intros (Hs & Hid & Hacc) [ok _|id x bs Hx Hop Hbs|id x n k Hx Hop Hk].
  - unfold on_accept. destruct ok; [|done]. split; [|split; [|done]]; cbn [sessions accepted do_accept].
    + apply map_Forall_insert_2; [|done]. unfold session_ok. cbn [data op received echoed pieces do_read]. rewrite length_replicate. by split_all.
    + intros id. destruct (decide (id = accepted s)) as [->|Hne]; [lia|]. rewrite lookup_insert_ne by done. intros ?%Hid. lia.
  - destruct bs as [bs|]; cbn [on_read]; (split; [|split; [|done]]); cbn [sessions accepted set_session drop_session].
    + apply map_Forall_insert_2; [|done]. apply read_session; [by apply (Hs id)|done..].
    + intros j. destruct (decide (j = id)) as [->|Hne]; [intros _; by apply Hid|]. rewrite lookup_insert_ne by done. apply Hid.
    + by apply map_Forall_delete.
    + intros j [y Hy]. apply lookup_delete_Some in Hy as [_ Hy]. by apply Hid.
  - destruct k as [k|]; cbn [on_write]; (split; [|split; [|done]]); cbn [sessions accepted set_session drop_session].
    + apply map_Forall_insert_2; [|done]. apply write_session; [by apply (Hs id)|done..].
    + intros j. destruct (decide (j = id)) as [->|Hne]; [intros _; by apply Hid|]. rewrite lookup_insert_ne by done. apply Hid.
    + by apply map_Forall_delete.
    + intros j [y Hy]. apply lookup_delete_Some in Hy as [_ Hy]. by apply Hid.
Qed.

Lemma echo_reachable full s : reachable (eq init) (step full) s → echo_ok full s.
Proof.
  apply invariant_reachable; [intros ? <-|intros; by eapply echo_step].
  split; [apply map_Forall_empty|split; [|done]]. intros id. cbn. rewrite lookup_empty. by intros [].
Qed.

Lemma concat_taken (l : list (list byte * nat)) :
  Forall (λ p, p.2 = length p.1) l → concat (map (λ p, take p.2 p.1) l) = concat (map fst l).
Proof. induction 1 as [|[bs k] l Hk _ IH]; [done|]. cbn in *. by rewrite IH, Hk, take_ge. Qed.

(** The server goes on accepting. A session never writes bytes that it has not just read,
    and has echoed the written part of each piece, in order; when all writes are
    complete, a session that reads again has echoed exactly what it received. *)
Theorem async_echo full s id x :
  reachable (eq init) (step full) s → sessions s !! id = Some x →
  accepting s = true ∧ id < accepted s ∧ length (data x) = max_length ∧
  echoed x = concat (map (λ p, take p.2 p.1) (pieces x)) ∧
  (op x = Reading → received x = concat (map fst (pieces x)) ∧ (full = true → echoed x = received x)).
Proof.
  intros (Hs & Hid & Hacc)%echo_reachable Hx. destruct (Hs id x Hx) as (Hd & Hr & He & Hf & _).
  split_all; [done|apply Hid; eauto|done|done|]. intros Hop. rewrite Hop, app_nil_r in Hr.
  split; [done|]. intros Hfull. by rewrite He, Hr, concat_taken by auto.
Qed.
End echo.

(** A [write_some] that writes less than it was given loses the rest: the session reads
    on, and the client never gets it. *)
Theorem partial_write_loses :
  ∃ x, reachable (eq (init (byte := nat))) (step 0 false) (set_session 0 x (on_accept 0 true init)) ∧
    op x = Reading ∧ received x = [1; 2; 3] ∧ echoed x = [1].
Proof.
  exists (Session ([1; 2; 3] ++ replicate 1021 0) Reading [1; 2; 3] [1] [([1; 2; 3], 1)]).
  split; [|by split_all].
  set (x0 := Session (replicate max_length 0) Reading [] [] []).
  set (x1 := Session ([1; 2; 3] ++ replicate 1021 0) (Writing 3) [1; 2; 3] [] []).
  assert (reachable (eq init) (step 0 false) (set_session 0 x1 (on_accept 0 true init))) as Hr.
  { eapply reachable_step; [eapply reachable_step; [by apply reachable_init|by apply (Accepted 0 false init true)]|].
    apply (ReadDone 0 false (on_accept 0 true init) 0 x0 (Some [1; 2; 3])); [done..|]. cbn. unfold max_length. lia. }
  eapply reachable_step; [exact Hr|].
  apply (WriteDone 0 false (set_session 0 x1 (on_accept 0 true init)) 0 x1 3 (Some 1)); [done..|]. cbn. lia.
Qed.

(** ** Witness *)

Lemma async_echo_witness :
  let s := on_write 0 (Session ([1; 2; 3] ++ replicate 1021 0) (Writing 3) [1; 2; 3] [] []) 3 (Some 3)
    (set_session 0 (Session ([1; 2; 3] ++ replicate 1021 0) (Writing 3) [1; 2; 3] [] []) (on_accept 0 true init)) in
  ∃ x, sessions s !! 0 = Some x ∧ echoed x = received x ∧ received x = [1; 2; 3].
Proof.
  intros s. set (x0 := Session (replicate max_length 0) Reading [] [] []).
  set (x1 := Session ([1; 2; 3] ++ replicate 1021 0) (Writing 3) [1; 2; 3] [] []) in *.
  assert (reachable (eq init) (step 0 true) s) as Hr.
  { eapply reachable_step.
    - eapply reachable_step; [eapply reachable_step; [by apply reachable_init|by apply (Accepted 0 true init true)]|].
      apply (ReadDone 0 true (on_accept 0 true init) 0 x0 (Some [1; 2; 3])); [done..|]. cbn. unfold max_length. lia.
    - by apply (WriteDone 0 true (set_session 0 x1 (on_accept 0 true init)) 0 x1 3 (Some 3)). }
  eexists. split; [reflexivity|]. split; [|reflexivity].
  destruct (async_echo 0 true s 0 _ Hr eq_refl) as (_ & _ & _ & _ & H). by apply H.
Defined.
