(* ===== verification/SelectEcho.v ===== *)
(** [src/sonic/sonic-swss-common/codes/tcp_echo_server_with_selectable_demo.cpp]: an echo
    server whose connections are selectable objects of the SONiC library.

    [swss::Select] is taken as [src/sonic/sonic-swss-common/swss_common_select.md] gives it:
    a poll calls [readData] of every registered object that is reported readable and puts
    it among the ready ones, then takes one ready object out and returns it. Which objects
    are reported, what the reads and writes return and which ready object comes first is
    decided outside; connections are named by their descriptors. *)

From S2P Require Import Prelude.
Open Scope Z_scope.

(** * The program *)

Definition BUFSIZE : nat := 4096.

(** A [Client]: the buffer, where [None] is a byte that was never written, and the last
    result of [read]; beside it, all bytes read and all bytes written. *)
Record client : Type := Client {
  buffer : list (option Z);
  lastReadResult : Z;
  received : list Z;
  echoed : list Z
}.
Definition new_Client : client := Client (replicate (S BUFSIZE) None) 0 [] [].

(** The objects registered with the selector, those that are ready, and the map
    [Acceptor::clients], whose [shared_ptr]s alone keep the clients alive. *)
Record server : Type := Server {
  serverfd : nat;
  m_objects : gset nat;
  m_ready : gset nat;
  clients : gmap nat client
}.

Definition addSelectable (fd : nat) (s : server) : server :=
  Server (serverfd s) ({[fd]} ∪ m_objects s) (m_ready s) (clients s).
Definition removeSelectable (fd : nat) (s : server) : server :=
  Server (serverfd s) (m_objects s ∖ {[fd]}) (m_ready s ∖ {[fd]}) (clients s).
Definition set_clients (m : gmap nat client) (s : server) : server :=
  Server (serverfd s) (m_objects s) (m_ready s) m.
Definition set_ready (r : gset nat) (s : server) : server :=
  Server (serverfd s) (m_objects s) r (clients s).
Definition addClient (fd : nat) (c : client) (s : server) : server := set_clients (<[fd := c]> (clients s)) s.
Definition removeClient (fd : nat) (s : server) : server := set_clients (delete fd (clients s)) s.

(** What [read] gives: bytes, or 0 or -1 without any. *)
Inductive read_result : Type := Bytes (bs : list Z) | Nothing (ret : Z).

(** [Client::readData]. *)
Definition readData (r : read_result) (c : client) : client :=
  match r with
  | Bytes bs => Client (map Some bs ++ drop (length bs) (buffer c)) (Z.of_nat (length bs)) (received c ++ bs) (echoed c)
  | Nothing ret => Client (buffer c) ret (received c) (echoed c)
  end.

(** [std::string(buffer.data())]: up to the first zero; [None] reads a byte that was never
    written, or leaves the buffer. *)
Fixpoint c_string (l : list (option Z)) : option (list Z) :=
  match l with
  | Some b :: l => if b =? 0 then Some [] else cons b <$> c_string l
  | _ => None
  end.

(** [Client::doTask], with the number of bytes that [write] writes. *)
Definition client_doTask (fd written : nat) (c : client) (s : server) : server :=
  if 0 <? lastReadResult c then
    set_clients (<[fd := Client (buffer c) (lastReadResult c) (received c)
      (echoed c ++ omap id (take written (buffer c)))]> (clients s)) s
  else removeClient fd (removeSelectable fd s).

(** [Acceptor::doTask], with the descriptor [accept4] gives; its exception ends the program. *)
Definition acceptor_doTask (clientfd : option nat) (s : server) : option server :=
  match clientfd with
  | Some fd => Some (addClient fd new_Client (addSelectable fd s))
  | None => None
  end.

(** One object of a poll: [m_objects[fd]->readData()] and its place among the ready. The
    acceptor has nothing to read. [None] is a dangling pointer. *)
Definition poll_one (fd : nat) (r : read_result) (s : server) : option server :=
  if decide (fd = serverfd s) then Some (set_ready ({[fd]} ∪ m_ready s) s)
  else
    c ← clients s !! fd;
    Some (set_ready ({[fd]} ∪ m_ready s) (addClient fd (readData r c) s)).
Fixpoint poll_all (reports : list (nat * read_result)) (s : server) : option server :=
  match reports with
  | [] => Some s
  | (fd, r) :: reports => poll_one fd r s ≫= poll_all reports
  end.

(** What the chosen object's [doTask] meets: a new descriptor or a failure of [accept4],
    or the number of bytes written. *)
Inductive answer : Type := Accepted (fd : option nat) | Written (n : nat).

(** [conn->doTask()] of the object that [select] returned. *)
Definition doTask (fd : nat) (a : answer) (s : server) : option server :=
  if decide (fd = serverfd s) then
    match a with Accepted o => acceptor_doTask o s | Written _ => None end
  else
    c ← clients s !! fd;
    match a with Written n => Some (client_doTask fd n c s) | Accepted _ => None end.

Definition init (fd : nat) : server := addSelectable fd (Server fd ∅ ∅ ∅).

(** The two look-ups of [Acceptor], which nothing calls: on the map itself, where a pointer can
    be null, because [operator[]] puts one where it finds none. *)
Abbreviation registry := (gmap nat (option client)).
Definition registry_of (s : server) : registry := Some <$> clients s.
Definition hasClient (fd : nat) (r : registry) : bool := bool_decide (is_Some (r !! fd)).
Definition getClient (fd : nat) (r : registry) : option client * registry :=
  match r !! fd with Some c => (c, r) | None => (None, <[fd := None]> r) end.

(** A report names a registered object, and a read gives between one and [BUFSIZE] bytes,
    or none. *)
Definition report_ok (s : server) (p : nat * read_result) : Prop :=
  p.1 ∈ m_objects s ∧ match p.2 with Bytes bs => bs ≠ [] ∧ (length bs ≤ BUFSIZE)%nat | Nothing r => r ≤ 0 end.

(** A descriptor that [accept4] gives is not in use; [write] writes no more than it was
    given, and all of it when [full]. *)
Definition answer_ok (full : bool) (s : server) (fd : nat) (a : answer) : Prop :=
  match a with
  | Accepted o => fd = serverfd s ∧ from_option (λ n, n ∉ m_objects s) False o
  | Written n =>
      fd ≠ serverfd s ∧
      from_option (λ c, if full then Z.of_nat n = Z.max 0 (lastReadResult c) else Z.of_nat n ≤ Z.max 0 (lastReadResult c))
        True (clients s !! fd)
  end.

(** One turn of the loop of [main]: the poll, and the object chosen, or a time-out. With
    [calm], no object that is ready already is reported again. *)
Inductive step (calm full : bool) (s : server) : server → Prop :=
  | Turn reports s1 fd a s2 :
      Forall (report_ok s) reports → NoDup reports.*1 → (calm = true → Forall (λ p, p.1 ∉ m_ready s) reports) →
      poll_all reports s = Some s1 → fd ∈ m_ready s1 → answer_ok full s1 fd a →
      doTask fd a (set_ready (m_ready s1 ∖ {[fd]}) s1) = Some s2 → step calm full s s2
  | Timeout s1 : poll_all [] s = Some s1 → m_ready s1 = ∅ → step calm full s s1.

(** * The objects *)

(** Exactly the acceptor and the live clients are registered, and what is ready is
    registered: no pointer the selector holds dangles. *)
Definition pointers_ok (s : server) : Prop :=
  m_objects s = {[serverfd s]} ∪ dom (clients s) ∧ serverfd s ∉ dom (clients s) ∧ m_ready s ⊆ m_objects s.

(** A client's buffer begins with the last bytes read; what is ready has not been echoed. *)
Definition pending (ready : bool) (c : client) : list Z :=
  if ready then omap id (take (Z.to_nat (lastReadResult c)) (buffer c)) else [].
Definition buffer_ok (c : client) : Prop :=
  length (buffer c) = S BUFSIZE ∧ lastReadResult c ≤ Z.of_nat BUFSIZE ∧
  Forall is_Some (take (Z.to_nat (lastReadResult c)) (buffer c)).
Definition echo_ok (s : server) : Prop :=
  map_Forall (λ fd c, received c = echoed c ++ pending (bool_decide (fd ∈ m_ready s)) c) (clients s).
Definition server_ok (s : server) : Prop := pointers_ok s ∧ map_Forall (λ _ c, buffer_ok c) (clients s).

Lemma omap_some (bs : list Z) l : omap id (map Some bs ++ l) = bs ++ omap id l.
Proof. induction bs as [|b bs IH]; [done|]. cbn. by rewrite IH. Qed.
Lemma all_some (bs : list Z) : Forall is_Some (map Some bs).
Proof. rewrite Forall_map. by apply Forall_true. Qed.

(** What a read puts into the buffer is what is pending. *)
Lemma readData_ok r c :
  buffer_ok c → match r with Bytes bs => (length bs ≤ BUFSIZE)%nat | Nothing r => r ≤ 0 end →
  buffer_ok (readData r c) ∧ received (readData r c) = received c ++ pending true (readData r c) ∧
  echoed (readData r c) = echoed c.
Proof.
  intros (Hb & Hl & Hs) Hr. unfold buffer_ok, pending. destruct r as [bs|r]; cbn [readData buffer lastReadResult received echoed].
  - rewrite Nat2Z.id, take_app_length' by (by rewrite length_map). split_all; [|lia|apply all_some| |done].
    + rewrite length_app, length_map, length_drop. lia.
    + rewrite <- (app_nil_r (map Some bs)), omap_some. by rewrite app_nil_r.
  - rewrite Z2Nat.nonpos by done. rewrite take_0. split_all; [done|lia|constructor|by rewrite app_nil_r|done].
Qed.

Lemma poll_one_ok s fd r :
  server_ok s → report_ok s (fd, r) →
  ∃ s', poll_one fd r s = Some s' ∧ server_ok s' ∧ m_objects s' = m_objects s ∧ m_ready s' = {[fd]} ∪ m_ready s ∧
    (echo_ok s → fd ∉ m_ready s → echo_ok s').
Proof.
  intros [(Ho & Hsf & Hr) Hb] [Hfd Hres]. cbn [fst snd] in *. unfold poll_one. destruct (decide (fd = serverfd s)) as [->|Hne].
  - eexists. split; [reflexivity|]. split; [|split_all; try done].
    + split; [|done]. unfold pointers_ok. cbn. split_all; [done|done|]. set_solver.
    + intros He _ fd c Hc. rewrite (He fd c Hc). do 2 f_equal. cbn. apply bool_decide_ext.
      assert (fd ≠ serverfd s) by (intros ->; apply Hsf; by apply elem_of_dom_2 in Hc). set_solver.
  - assert (is_Some (clients s !! fd)) as [c Hc] by (apply elem_of_dom; set_solver). rewrite Hc. simpl.
    eexists. split; [reflexivity|]. destruct (readData_ok r c (Hb fd c Hc)) as (Hb' & Hrec & Hech); [by destruct r; [apply Hres|]|].
    split; [|split_all; try done].
    + split; cbn.
      * assert (dom (<[fd := readData r c]> (clients s)) = dom (clients s)) as Hd
          by (rewrite dom_insert_L; apply elem_of_dom_2 in Hc; set_solver).
        unfold pointers_ok. cbn. rewrite Hd. split_all; [done|done|]. set_solver.
      * by apply map_Forall_insert_2.
    + intros He Hn j cj Hj. cbn in Hj |- *. destruct (decide (j = fd)) as [->|Hjf].
      * rewrite lookup_insert_eq in Hj. injection Hj as <-. rewrite bool_decide_true by set_solver.
        rewrite Hrec, Hech, (He fd c Hc), bool_decide_false by done. cbn [pending]. by rewrite app_nil_r.
      * rewrite lookup_insert_ne in Hj by done. rewrite (He j cj Hj). do 2 f_equal. apply bool_decide_ext. set_solver.
Qed.

(** A poll meets no dangling pointer. *)
Lemma poll_all_ok reports s :
  server_ok s → Forall (report_ok s) reports →
  ∃ s', poll_all reports s = Some s' ∧ server_ok s' ∧ m_objects s' = m_objects s ∧
    (echo_ok s → NoDup reports.*1 → Forall (λ p, p.1 ∉ m_ready s) reports → echo_ok s').
Proof.
  revert s. induction reports as [|[fd r] reports IH]; intros s Hs Hrep; [by exists s|].
  apply Forall_cons in Hrep as [Hr Hrep]. destruct (poll_one_ok s fd r Hs Hr) as (s1 & Hp & Hs1 & Ho & Hready & He).
  destruct (IH s1 Hs1) as (s2 & Hp2 & Hs2 & Ho2 & He2).
  { eapply Forall_impl; [exact Hrep|]. intros p. unfold report_ok. by rewrite Ho. }
  exists s2. cbn [poll_all]. rewrite Hp. cbn. split_all; [done|done|congruence|].
  intros Hecho [Hfd Hnd]%NoDup_cons [Hn Hcalm]%Forall_cons. apply He2; [by apply He|done|].
  rewrite Forall_forall in Hcalm |- *. intros p Hin. rewrite Hready, not_elem_of_union, not_elem_of_singleton.
  split; [|by apply Hcalm]. intros <-. apply Hfd. by apply (list_elem_of_fmap_2 fst).
Qed.

(** The ready object is there, and its task keeps the selector and the map in step. *)
Lemma doTask_ok full s fd a :
  server_ok s → fd ∈ m_ready s → answer_ok full s fd a →
  ∃ s', doTask fd a (set_ready (m_ready s ∖ {[fd]}) s) = Some s' ∧ server_ok s' ∧
    (full = true → echo_ok s → echo_ok s').
Proof.
  intros [(Ho & Hsf & Hr) Hb] Hfd Ha. unfold doTask. cbn [serverfd set_ready clients].
  destruct (decide (fd = serverfd s)) as [->|Hne].
  - destruct a as [[n|]|n]; cbn in Ha; [|by destruct Ha|by destruct Ha as [[] _]]. destruct Ha as [_ Hn].
    eexists. split; [reflexivity|]. assert (n ∉ dom (clients s) ∧ n ≠ serverfd s) as [Hnew Hns] by set_solver.
    split; [split|].
    + unfold pointers_ok. cbn. rewrite dom_insert_L. split_all; set_solver.
    + apply map_Forall_insert_2; [|done]. unfold buffer_ok, new_Client. cbn [buffer lastReadResult]. rewrite length_replicate. split_all; [done|lia|constructor].
    + intros _ He j c Hj. cbn in Hj |- *. destruct (decide (j = n)) as [->|Hjn].
      * rewrite lookup_insert_eq in Hj. injection Hj as <-. unfold new_Client, pending. cbn [received echoed lastReadResult buffer]. by destruct (bool_decide _).
      * rewrite lookup_insert_ne in Hj by done. rewrite (He j c Hj). do 2 f_equal. apply bool_decide_ext.
        apply elem_of_dom_2 in Hj. set_solver.
  - assert (is_Some (clients s !! fd)) as [c Hc] by (apply elem_of_dom; set_solver). rewrite Hc. cbn.
    destruct a as [o|n]; [by destruct o, Ha|]. destruct Ha as [_ Hn]. rewrite Hc in Hn. cbn in Hn.
    eexists. split; [reflexivity|]. pose proof (Hb fd c Hc) as (Hbl & Hbr & Hbs). unfold client_doTask.
    destruct (Z.ltb_spec 0 (lastReadResult c)) as [Hpos|Hneg].
    + split; [split|].
      * assert (∀ x, dom (<[fd := x]> (clients s)) = dom (clients s)) as Hd
          by (intros x; rewrite dom_insert_L; apply elem_of_dom_2 in Hc; set_solver).
        unfold pointers_ok. cbn. rewrite Hd. split_all; [done|done|]. set_solver.
      * by apply map_Forall_insert_2.
      * intros -> He j cj Hj. cbn in Hj |- *. destruct (decide (j = fd)) as [->|Hjf].
        -- rewrite lookup_insert_eq in Hj. injection Hj as <-. cbn. rewrite (He fd c Hc), bool_decide_true by done.
           rewrite bool_decide_false by set_solver. unfold pending. rewrite app_nil_r. do 3 f_equal. lia.
        -- rewrite lookup_insert_ne in Hj by done. rewrite (He j cj Hj). do 2 f_equal. apply bool_decide_ext. set_solver.
    + split; [split|].
      * unfold pointers_ok. cbn. rewrite dom_delete_L. split_all; set_solver.
      * by apply map_Forall_delete.
      * intros _ He j cj Hj. cbn in Hj |- *. apply lookup_delete_Some in Hj as [Hjf Hj]. rewrite (He j cj Hj).
        do 2 f_equal. apply bool_decide_ext. set_solver.
Qed.

Lemma select_step_ok calm full s s' :
  server_ok s → (calm = true → full = true → echo_ok s) → step calm full s s' →
  server_ok s' ∧ (calm = true → full = true → echo_ok s').
Proof.
  intros Hs He [reports s1 fd a s2 Hrep Hnd Hcalm Hp Hfd Ha Hrun|s1 Hp _]; [|by injection Hp as <-].
  destruct (poll_all_ok reports s Hs Hrep) as (s1' & Hp' & Hs1 & _ & He1). rewrite Hp in Hp'. injection Hp' as <-.
  destruct (doTask_ok full s1 fd a Hs1 Hfd Ha) as (s2' & Hrun' & Hs2 & He2). rewrite Hrun in Hrun'. injection Hrun' as <-.
  split; [done|]. intros -> ->. apply He2, He1; auto.
Qed.

Lemma select_reachable calm full fd s :
  reachable (eq (init fd)) (step calm full) s → server_ok s ∧ (calm = true → full = true → echo_ok s).
Proof.
  apply (invariant_reachable _ _ (λ s, server_ok s ∧ (calm = true → full = true → echo_ok s))).
  - intros ? <-. split; [split; [|apply map_Forall_empty]|intros _ _; apply map_Forall_empty].
    unfold pointers_ok. cbn. rewrite dom_empty_L. set_solver.
  - intros s1 s2 [Hs He] Hstep. by eapply select_step_ok.
Qed.


(** The text printed for the first message of a connection: the buffer holds no zero, and
    behind the message nothing was ever written. *)
Theorem print_reads_unwritten bs :
  (length bs ≤ BUFSIZE)%nat → 0 ∉ bs → c_string (buffer (readData (Bytes bs) new_Client)) = None.
Proof.
  intros Hbs H0. cbn [readData buffer]. assert (∃ n, drop (length bs) (buffer new_Client) = replicate (S n) None) as [n ->].
  { exists (BUFSIZE - length bs)%nat. unfold new_Client. cbn [buffer]. rewrite drop_replicate. f_equal. lia. }
  clear Hbs. induction bs as [|b bs IH]; [done|]. apply not_elem_of_cons in H0 as [Hb H0].
  cbn [map app c_string]. rewrite (proj2 (Z.eqb_neq _ _)) by done. by rewrite (IH H0).
Qed.

(** ** Examples *)

Definition turn (reports : list (nat * read_result)) (fd : nat) (a : answer) (s : server) : option server :=
  s1 ← poll_all reports s; doTask fd a (set_ready (m_ready s1 ∖ {[fd]}) s1).

Lemma turn_step calm full reports fd a s s1 s2 :
  Forall (report_ok s) reports → NoDup reports.*1 → (calm = true → Forall (λ p, p.1 ∉ m_ready s) reports) →
  poll_all reports s = Some s1 → fd ∈ m_ready s1 → answer_ok full s1 fd a → turn reports fd a s = Some s2 →
  step calm full s s2.
Proof. intros H1 H2 H3 H4 H5 H6 H7. unfold turn in H7. rewrite H4 in H7. by eapply Turn. Qed.

(** The acceptor and one client, which has sent a byte. *)
Definition one_byte (b : Z) (rec ech : list Z) : client := Client (Some b :: drop 1 (buffer new_Client)) 1 rec ech.
Definition connected : server := Server 3 {[3; 4]}%nat ∅ {[4%nat := new_Client]}.
Definition waiting : server := Server 3 {[3; 4; 5]}%nat {[4%nat]} (<[5%nat := new_Client]> {[4%nat := one_byte 65 [65] []]}).

Ltac each_report := repeat (apply Forall_cons; split); [split; cbn; by_computation..|by apply Forall_nil].

Lemma connected_reachable calm : reachable (eq (init 3)) (step calm true) connected.
Proof.
  eapply reachable_step; [by apply reachable_init|].
  eapply (turn_step calm true [(3%nat, Nothing 0)] 3 (Accepted (Some 4%nat)) (init 3)).
  - each_report.
  - by_computation.
  - intros _. repeat constructor; by_computation.
  - reflexivity.
  - by_computation.
  - split; [done|]. by_computation.
  - by vm_compute.
Qed.

(** The client is ready, but the selector has given the acceptor first. *)
Lemma waiting_reachable calm : reachable (eq (init 3)) (step calm true) waiting.
Proof.
  eapply reachable_step; [apply connected_reachable|].
  eapply (turn_step calm true [(3%nat, Nothing 0); (4%nat, Bytes [65])] 3 (Accepted (Some 5%nat)) connected).
  - each_report.
  - by_computation.
  - intros _. repeat constructor; by_computation.
  - reflexivity.
  - by_computation.
  - split; [done|]. by_computation.
  - by vm_compute.
Qed.

(** A connection that is waiting for its turn and has sent more is read again by the next
    poll, into the same buffer: what was read before is never echoed. *)
Theorem second_read_loses :
  ∃ s c, reachable (eq (init 3)) (step false true) s ∧ clients s !! 4%nat = Some c ∧ m_ready s = ∅ ∧
    received c = [65; 66] ∧ echoed c = [66].
Proof.
  exists (Server 3 {[3; 4; 5]}%nat ∅ (<[5%nat := new_Client]> {[4%nat := one_byte 66 [65; 66] [66]]})), (one_byte 66 [65; 66] [66]).
  split_all; [|done..]. eapply reachable_step; [apply waiting_reachable|].
  eapply (turn_step false true [(4%nat, Bytes [66])] 4 (Written 1) waiting).
  - each_report.
  - by_computation.
  - done.
  - reflexivity.
  - by_computation.
  - split; [done|]. by vm_compute.
  - by vm_compute.
Qed.

(** ** Witness *)


(** * The look-ups *)

(** [hasClient] tells the live clients, and [getClient] gives them; asked for another it gives
    null and leaves an entry, after which [hasClient] tells it too. *)
Lemma getClient_inserts fd s :
  let r := registry_of s in
  match clients s !! fd with
  | Some c => hasClient fd r = true ∧ getClient fd r = (Some c, r)
  | None => hasClient fd r = false ∧ (getClient fd r).1 = None ∧ hasClient fd (getClient fd r).2 = true
  end.
Proof.
  cbn. unfold hasClient, getClient, registry_of. rewrite lookup_fmap. destruct (clients s !! fd); cbn.
  - done.
  - split; [done|]. split; [done|]. by rewrite lookup_insert_eq.
Qed.
