(* ===== verification/NewsFeed.v ===== *)
(** [src/books/system_design_interview/chapter11_news_feed_system/tweeter.cpp]: the posts
    and followees of a [Twitter], and the news feed that merges the tables of the
    followees with a priority queue.

    [std::priority_queue] is used by its contract: which of several equally new entries
    it gives first is left open. A reverse iterator is the list of the posts from the one
    it points at back to the oldest; [rend] is the empty list. *)

From stdpp Require Import sorting gmap.
From S2P Require Import Prelude.
Open Scope Z_scope.

(** * The program *)

(** A time point and the id of a tweet. *)
Definition TweetPost : Type := Z * Z.
Definition TweetTimelineEntry : Type := Z * list TweetPost.

(** [mComp]: the comparison of two entries needs both iterators to point at a post. *)
Definition mComp (lhs rhs : TweetTimelineEntry) : Prop :=
  match lhs.2, rhs.2 with p :: _, q :: _ => p.1 < q.1 | _, _ => False end.

(** [top] and [pop], while the comparison is defined: an entry with none above it, and
    the others. *)
Class PriorityQueue : Type := {
  pq_top : list TweetTimelineEntry → option (TweetTimelineEntry * list TweetTimelineEntry);
  pq_empty : ∀ pq, pq_top pq = None ↔ pq = [];
  pq_max : ∀ pq x pq', Forall (λ y, y.2 ≠ []) pq → pq_top pq = Some (x, pq') → pq ≡ₚ x :: pq' ∧ Forall (λ y, ¬ mComp x y) pq'
}.

Record Twitter : Type := mk_Twitter {
  mFollowees : gmap Z (gset Z);
  mTweets : gmap Z (list TweetPost)
}.

Definition NewsFeedMaxSize : nat := 10.

(** [operator[]] of the two maps, which makes a missing entry. *)
Definition followees (u : Z) (t : Twitter) : gset Z := default ∅ (mFollowees t !! u).
Definition tweets (u : Z) (t : Twitter) : list TweetPost := default [] (mTweets t !! u).
Definition insert_followee (u v : Z) (t : Twitter) : Twitter :=
  mk_Twitter (<[u := {[v]} ∪ followees u t]> (mFollowees t)) (mTweets t).

Definition postTweet (now userId tweetId : Z) (t : Twitter) : Twitter :=
  insert_followee userId userId
    (mk_Twitter (mFollowees t) (<[userId := tweets userId t ++ [(now, tweetId)]]> (mTweets t))).

Definition follow (followerId followeeId : Z) (t : Twitter) : Twitter :=
  insert_followee followeeId followeeId
    (insert_followee followerId followerId (insert_followee followerId followeeId t)).

Definition unfollow (followerId followeeId : Z) (t : Twitter) : Twitter :=
  mk_Twitter (<[followerId := followees followerId t ∖ {[followeeId]}]> (mFollowees t)) (mTweets t).

Section feed.
Context `{PriorityQueue}.

(** The loop of [getNewsFeed], which fills the free places; [None] would be the
    dereference of [rend]. *)
Fixpoint fill (places : nat) (pq : list TweetTimelineEntry) : option (list TweetPost) :=
  match places with
  | O => Some []
  | S places =>
      match pq_top pq with
      | None => Some []
      | Some ((follower, it), pq) =>
          match it with
          | [] => None
          | post :: it => cons post <$> fill places (match it with [] => pq | _ => (follower, it) :: pq end)
          end
      end
  end.

(** A [std::set] is walked in ascending order. *)
Definition ascending (s : gset Z) : list Z := merge_sort Z.le (elements s).

(** The first loop: the followees that have posts; [mTweets[follower]] makes the table. *)
Definition touch (fs : list Z) (t : Twitter) : Twitter :=
  foldl (λ t f, mk_Twitter (mFollowees t) (<[f := tweets f t]> (mTweets t))) t fs.
Definition timelines (fs : list Z) (t : Twitter) : list TweetTimelineEntry :=
  omap (λ f, match reverse (tweets f t) with [] => None | l => Some (f, l) end) fs.

Definition getNewsFeed (userId : Z) (t : Twitter) : option (list Z * Twitter) :=
  let t := mk_Twitter (<[userId := followees userId t]> (mFollowees t)) (mTweets t) in
  let fs := ascending (followees userId t) in
  newsFeed ← fill NewsFeedMaxSize (timelines fs t);
  Some (map snd newsFeed, touch fs t).

(** The calls of a client, with the clock where it is read. *)
Inductive call : Type :=
  | PostTweet (now userId tweetId : Z)
  | Follow (followerId followeeId : Z)
  | Unfollow (followerId followeeId : Z)
  | GetNewsFeed (userId : Z).

Definition exec (c : call) (t : Twitter) : option Twitter :=
  match c with
  | PostTweet now u i => Some (postTweet now u i t)
  | Follow u v => Some (follow u v t)
  | Unfollow u v => Some (unfollow u v t)
  | GetNewsFeed u => snd <$> getNewsFeed u t
  end.
Fixpoint run (cs : list call) (t : Twitter) : option Twitter :=
  match cs with
  | [] => Some t
  | c :: cs => exec c t ≫= run cs
  end.

(** * The merge *)

Definition newer_first : list TweetPost → Prop := StronglySorted (λ p q, q.1 ≤ p.1).

(** The posts in the queue. *)
Definition queued (pq : list TweetTimelineEntry) : list TweetPost := concat (map snd pq).

(** The entries point at posts, newest first. *)
Definition queue_ok (pq : list TweetTimelineEntry) : Prop :=
  Forall (λ x, x.2 ≠ [] ∧ newer_first x.2) pq.

Lemma queued_perm pq pq' : pq ≡ₚ pq' → queued pq ≡ₚ queued pq'.
Proof. unfold queued. intros Hp. by rewrite Hp. Qed.

(** Nothing in the queue is newer than the post of an entry that none is above. *)
Lemma top_newest f post it pq :
  queue_ok ((f, post :: it) :: pq) → Forall (λ y, ¬ mComp (f, post :: it) y) pq →
  Forall (λ q, q.1 ≤ post.1) (it ++ queued pq).
Proof.
  intros [[_ Hs] Hok]%Forall_cons Hmax. apply Forall_app. split; [by apply StronglySorted_inv in Hs as [_ Hs]|].
  unfold queued. apply Forall_concat, Forall_map. rewrite Forall_forall in Hmax, Hok |- *.
  intros [g [|q l]] Hy; [by constructor|]. specialize (Hmax _ Hy). destruct (Hok _ Hy) as [_ Hl].
  unfold mComp in Hmax. cbn [snd] in *. apply StronglySorted_inv in Hl as [_ Hl].
  constructor; [lia|]. eapply Forall_impl; [exact Hl|]. simpl. intros; lia.
Qed.

(** The loop takes the newest posts in order, as many as there are places, and never
    dereferences [rend]. *)
Lemma fill_spec places pq :
  queue_ok pq → ∃ l rest, fill places pq = Some l ∧ queued pq ≡ₚ l ++ rest ∧ newer_first l ∧
    length l = (places `min` length (queued pq))%nat ∧ ∀ p q, p ∈ l → q ∈ rest → q.1 ≤ p.1.
Proof.
  revert pq. induction places as [|places IH]; intros pq Hok.
  { exists [], (queued pq). split_all; try done; [constructor|]. by intros p q ?%elem_of_nil. }
  cbn [fill]. destruct (pq_top pq) as [[[f it] pq']|] eqn:Htop.
  - apply pq_max in Htop as [Hperm Hmax]; [|by eapply Forall_impl; [exact Hok|intros ? []]]. unfold queue_ok in Hok. rewrite Hperm in Hok.
    pose proof Hok as [[Hne Hs] Hok']%Forall_cons. cbn [snd] in Hne, Hs.
    destruct it as [|post it]; [done|]. pose proof (top_newest _ _ _ _ Hok Hmax) as Hnew.
    set (pq2 := match it with [] => pq' | _ => (f, it) :: pq' end).
    assert (queue_ok pq2 ∧ queued pq2 = it ++ queued pq') as [Hok2 Hq2].
    { subst pq2. destruct it as [|p it]; [by split|]. split; [|done]. apply Forall_cons. split; [|done].
      split; [done|]. by apply StronglySorted_inv in Hs as [Hs _]. }
    destruct (IH pq2 Hok2) as (l & rest & -> & Hp & Hl & Hlen & Hle). exists (post :: l), rest.
    assert (queued pq ≡ₚ post :: queued pq2) as Hq by (rewrite (queued_perm _ _ Hperm), Hq2; done).
    rewrite <- Hq2, Hp in Hnew. apply Forall_app in Hnew as [Hnl Hnr]. split_all.
    + done.
    + by rewrite Hq, Hp.
    + by apply SSorted_cons.
    + rewrite Hq. simpl. by rewrite Hlen.
    + intros p q [->|Hp']%elem_of_cons Hin; [|by eapply Hle]. rewrite Forall_forall in Hnr. by apply Hnr.
  - apply pq_empty in Htop as ->. exists [], []. split_all; try done; [constructor|]. by intros p q ?%elem_of_nil.
Qed.

(** * The abstract news feed: all posts in order, and who follows whom *)

Record network : Type := Network { posts : list (Z * TweetPost); edges : gset (Z * Z) }.

Definition network_exec (c : call) (n : network) : network :=
  match c with
  | PostTweet now u i => Network (posts n ++ [(u, (now, i))]) ({[(u, u)]} ∪ edges n)
  | Follow u v => Network (posts n) ({[(v, v)]} ∪ ({[(u, u)]} ∪ ({[(u, v)]} ∪ edges n)))
  | Unfollow u v => Network (posts n) (edges n ∖ {[(u, v)]})
  | GetNewsFeed _ => n
  end.
Definition network_run (cs : list call) : network := foldl (flip network_exec) (Network [] ∅) cs.

(** The clock does not go back. *)
Definition in_time (n : network) : Prop := StronglySorted (λ p q, p.2.1 ≤ q.2.1) (posts n).

(** What a user's feed is made from. *)
Definition visible (u : Z) (n : network) : list TweetPost :=
  map snd (filter (λ x, (u, x.1) ∈ edges n) (posts n)).

Definition represents (n : network) (t : Twitter) : Prop :=
  (∀ u, tweets u t = map snd (filter (λ x, x.1 = u) (posts n))) ∧
  (∀ u v, v ∈ followees u t ↔ (u, v) ∈ edges n).

Lemma followees_insert u v s t m :
  followees u (mk_Twitter (<[v := s]> (mFollowees t)) m) = if decide (u = v) then s else followees u t.
Proof.
  unfold followees. cbn [mFollowees]. destruct (decide (u = v)) as [->|Hne]; [by rewrite lookup_insert_eq|].
  by rewrite lookup_insert_ne.
Qed.
Lemma tweets_insert u v l t m :
  tweets u (mk_Twitter m (<[v := l]> (mTweets t))) = if decide (u = v) then l else tweets u t.
Proof.
  unfold tweets. cbn [mTweets]. destruct (decide (u = v)) as [->|Hne]; [by rewrite lookup_insert_eq|].
  by rewrite lookup_insert_ne.
Qed.

Lemma insert_followee_represents n t u v :
  represents n t → represents (Network (posts n) ({[(u, v)]} ∪ edges n)) (insert_followee u v t).
Proof.
  intros [Ht Hf]. split; [exact Ht|]. intros x y. unfold insert_followee. rewrite followees_insert.
  cbn [edges]. rewrite elem_of_union, elem_of_singleton, <- Hf.
  destruct (decide (x = u)) as [->|Hne]; [rewrite elem_of_union, elem_of_singleton|]; naive_solver.
Qed.

Lemma touch_represents n fs t : represents n t → represents n (touch fs t).
Proof.
  revert t. induction fs as [|f fs IH]; intros t Hr; [done|]. simpl. apply IH. destruct Hr as [Ht Hf].
  split; [|exact Hf]. intros u. rewrite tweets_insert. destruct (decide (u = f)) as [->|]; apply Ht.
Qed.

(** The walk over a set of followees meets each visible post once. *)
Lemma filter_split (f : Z) (s : list Z) (l : list (Z * TweetPost)) :
  f ∉ s → filter (λ x, x.1 ∈ f :: s) l ≡ₚ filter (λ x, x.1 = f) l ++ filter (λ x, x.1 ∈ s) l.
Proof.
  intros Hf. induction l as [|x l IH]; [done|]. rewrite !filter_cons.
  destruct (decide (x.1 = f)) as [E|E].
  - rewrite (decide_True (P := x.1 ∈ f :: s)), (decide_False (P := x.1 ∈ s)) by (rewrite E; set_solver).
    by rewrite IH.
  - destruct (decide (x.1 ∈ s)) as [Hs|Hs].
    + rewrite decide_True by set_solver. by rewrite IH, Permutation_middle.
    + by rewrite decide_False by (by intros [?|?]%elem_of_cons).
Qed.

Lemma concat_filter (s : list Z) (l : list (Z * TweetPost)) :
  NoDup s → concat (map (λ f, filter (λ x, x.1 = f) l) s) ≡ₚ filter (λ x, x.1 ∈ s) l.
Proof.
  intros Hs. induction Hs as [|f s Hf Hs IH].
  - simpl. induction l as [|x l IHl]; [done|]. rewrite filter_cons, decide_False by (apply not_elem_of_nil). done.
  - simpl. by rewrite IH, filter_split.
Qed.

Lemma queued_timelines fs t : queued (timelines fs t) ≡ₚ concat (map (λ f, tweets f t) fs).
Proof.
  unfold queued, timelines. induction fs as [|f fs IH]; [done|]. simpl.
  destruct (reverse (tweets f t)) as [|p l] eqn:E.
  - by rewrite <- (reverse_involutive (tweets f t)), E.
  - simpl. rewrite IH, app_comm_cons, <- E. by rewrite reverse_Permutation.
Qed.

(** The end of a table in time order is newest first. *)
Lemma newer_first_reverse (l : list TweetPost) : StronglySorted (λ p q, p.1 ≤ q.1) l → newer_first (reverse l).
Proof.
  induction 1 as [|p l Hl IH Hp]; [constructor|]. rewrite reverse_cons. apply StronglySorted_app_2; [|done|repeat constructor].
  intros x y Hx ->%list_elem_of_singleton. rewrite elem_of_reverse in Hx. rewrite Forall_forall in Hp. by apply Hp.
Qed.

Lemma sorted_filter_map (P : Z * TweetPost → Prop) `{!∀ x, Decision (P x)} l :
  StronglySorted (λ p q, p.2.1 ≤ q.2.1) l → StronglySorted (λ p q, p.1 ≤ q.1) (map snd (filter P l)).
Proof.
  induction 1 as [|x l Hl IH Hx]; [constructor|]. rewrite filter_cons. destruct (decide (P x)); [|done].
  simpl. constructor; [done|]. rewrite Forall_map, Forall_forall. intros y [_ Hy]%list_elem_of_filter.
  rewrite Forall_forall in Hx. by apply Hx.
Qed.

Lemma timelines_ok n t fs : in_time n → represents n t → queue_ok (timelines fs t).
Proof.
  intros Hn [Ht _]. unfold queue_ok. rewrite Forall_forall. intros x [f [_ Hx]]%list_elem_of_omap.
  destruct (reverse (tweets f t)) as [|p l] eqn:E; [done|]. injection Hx as <-. cbn [snd]. split; [done|].
  rewrite <- E, Ht. by apply newer_first_reverse, sorted_filter_map.
Qed.

Lemma ascending_perm s : ascending s ≡ₚ elements s.
Proof. apply merge_sort_Permutation. Qed.

(** The queue starts with every visible post, each once. *)
Lemma queued_visible n t u : represents n t → queued (timelines (ascending (followees u t)) t) ≡ₚ visible u n.
Proof.
  intros [Ht Hf]. rewrite queued_timelines, ascending_perm. unfold visible.
  assert (map (λ f, tweets f t) (elements (followees u t))
    = map (map snd) (map (λ f, filter (λ x, x.1 = f) (posts n)) (elements (followees u t)))) as ->.
  { rewrite map_map. apply map_ext. intros f. by rewrite Ht. }
  rewrite <- concat_map. f_equiv. rewrite concat_filter by apply NoDup_elements.
  erewrite list_filter_iff; [reflexivity|]. intros x. cbn. by rewrite elem_of_elements, Hf.
Qed.

Lemma getNewsFeed_spec n t u :
  in_time n → represents n t → ∃ l rest t', getNewsFeed u t = Some (map snd l, t') ∧ represents n t' ∧
    visible u n ≡ₚ l ++ rest ∧ newer_first l ∧ length l = (NewsFeedMaxSize `min` length (visible u n))%nat ∧
    ∀ p q, p ∈ l → q ∈ rest → q.1 ≤ p.1.
Proof.
  intros Hn Hr. set (t0 := mk_Twitter (<[u := followees u t]> (mFollowees t)) (mTweets t)).
  assert (followees u t0 = followees u t) as Hfu by (unfold t0; rewrite followees_insert; by rewrite decide_True).
  assert (represents n t0) as Hr0.
  { destruct Hr as [Ht Hf]. split; [exact Ht|]. intros x y. unfold t0. rewrite followees_insert.
    destruct (decide (x = u)) as [->|]; apply Hf. }
  destruct (fill_spec NewsFeedMaxSize (timelines (ascending (followees u t0)) t0)) as (l & rest & Hfill & Hp & Hl & Hlen & Hle);
    [by eapply timelines_ok|]. pose proof (queued_visible n t0 u Hr0) as Hq.
  exists l, rest, (touch (ascending (followees u t0)) t0). unfold getNewsFeed. fold t0. rewrite Hfill.
  split_all; try done.
  - by apply touch_represents.
  - by rewrite <- Hq.
  - etrans; [exact Hlen|]. by rewrite Hq.
Qed.

Lemma exec_represents c n t :
  in_time n → represents n t → ∃ t', exec c t = Some t' ∧ represents (network_exec c n) t'.
Proof.
  intros Hn Hr. destruct c as [now u i|u v|u v|u]; simpl.
  - eexists. split; [reflexivity|]. apply (insert_followee_represents (Network (posts n ++ [(u, (now, i))]) (edges n))).
    destruct Hr as [Ht Hf]. split; [|exact Hf]. intros x. rewrite tweets_insert. cbn [posts].
    rewrite filter_app, map_app, <- Ht. destruct (decide (x = u)) as [->|Hne].
    + by rewrite filter_cons_True.
    + rewrite (filter_cons_False _ _ []) by (simpl; congruence). by rewrite app_nil_r.
  - eexists. split; [reflexivity|].
    by apply (insert_followee_represents (Network _ _)), (insert_followee_represents (Network _ _)), insert_followee_represents.
  - eexists. split; [reflexivity|]. destruct Hr as [Ht Hf]. split; [exact Ht|]. intros x y.
    unfold unfollow. rewrite followees_insert. cbn [edges]. rewrite elem_of_difference, elem_of_singleton, <- Hf.
    destruct (decide (x = u)) as [->|]; [rewrite elem_of_difference, elem_of_singleton|]; naive_solver.
  - destruct (getNewsFeed_spec n t u Hn Hr) as (l & rest & t' & -> & Hr' & _). by exists t'.
Qed.

(** At every moment of the calls the clock has not gone back. *)
Definition clock_ok (cs : list call) : Prop := ∀ k, in_time (network_run (take k cs)).

Lemma run_represents cs :
  clock_ok cs → ∃ t, run cs (mk_Twitter ∅ ∅) = Some t ∧ represents (network_run cs) t.
Proof.
  intros Hc.
  assert (∀ cs' n t, (∀ k, in_time (foldl (flip network_exec) n (take k cs'))) → represents n t →
    ∃ t', run cs' t = Some t' ∧ represents (foldl (flip network_exec) n cs') t') as Hgen.
  { clear. intros cs'. induction cs' as [|c cs' IH]; intros n t Hc Hr; [by exists t|]. simpl.
    destruct (exec_represents c n t (Hc 0%nat) Hr) as (t1 & -> & Hr1). apply IH; [|done].
    intros k. apply (Hc (S k)). }
  apply Hgen; [exact Hc|]. split; [intros u; by unfold tweets|]. intros u v. unfold followees. cbn. set_solver.
Qed.

(** C24: Whatever was posted, followed, unfollowed and asked for before, with a clock that does
    not go back: [getNewsFeed] succeeds, and gives the newest of the posts of the users
    followed then, newest first, ten of them or all when there are fewer. *)
Theorem news_feed_newest cs u :
  clock_ok cs →
  ∃ t l rest t', run cs (mk_Twitter ∅ ∅) = Some t ∧ getNewsFeed u t = Some (map snd l, t') ∧
    visible u (network_run cs) ≡ₚ l ++ rest ∧ newer_first l ∧
    length l = (10 `min` length (visible u (network_run cs)))%nat ∧
    ∀ p q, p ∈ l → q ∈ rest → q.1 ≤ p.1.
Proof.
  intros Hc. destruct (run_represents cs Hc) as (t & Hrun & Hr).
  destruct (getNewsFeed_spec _ t u (eq_ind _ in_time (Hc (length cs)) _ (f_equal network_run (firstn_all cs))) Hr)
    as (l & rest & t' & Hg & _ & Hv & Hl & Hlen & Hle).
  by exists t, l, rest, t'.
Qed.
End feed.

(** ** Witness *)

(** A queue that gives the first of the newest entries. *)
#[export] Instance mComp_dec x y : Decision (mComp x y).
Proof. unfold mComp. destruct x.2, y.2; apply _. Defined.

Fixpoint first_newest (pq : list TweetTimelineEntry) : option (TweetTimelineEntry * list TweetTimelineEntry) :=
  match pq with
  | [] => None
  | x :: pq =>
      match first_newest pq with
      | None => Some (x, [])
      | Some (y, pq') => Some (if decide (mComp x y) then (y, x :: pq') else (x, y :: pq'))
      end
  end.

Lemma first_newest_empty pq : first_newest pq = None ↔ pq = [].
Proof. destruct pq as [|x pq]; [done|]. simpl. by destruct (first_newest pq) as [[]|]. Qed.

Lemma first_newest_max pq x pq' :
  Forall (λ y, y.2 ≠ []) pq → first_newest pq = Some (x, pq') → pq ≡ₚ x :: pq' ∧ Forall (λ y, ¬ mComp x y) pq'.
Proof.
  intros Hok. revert x pq'. induction Hok as [|z pq Hz Hok IH]; intros x pq' Hpick; [done|]. simpl in Hpick.
  destruct (first_newest pq) as [[y r]|] eqn:E; [|apply first_newest_empty in E; by simplify_eq].
  destruct (IH y r eq_refl) as [Hp Hmax]. rewrite Hp in Hok. apply Forall_cons in Hok as [Hy Hr].
  destruct (decide (mComp z y)) as [Hzy|Hzy]; injection Hpick as <- <-.
  - split; [rewrite Hp; by apply Permutation_swap|]. constructor; [|done].
    unfold mComp in *. destruct y.2, z.2; naive_solver lia.
  - split; [by rewrite Hp|]. constructor; [done|]. rewrite Forall_forall in Hmax, Hr |- *. intros w Hw.
    specialize (Hmax w Hw). specialize (Hr w Hw). unfold mComp in *. destruct y.2, z.2, w.2; naive_solver lia.
Qed.

#[export] Instance first_newest_queue : PriorityQueue :=
  {| pq_top := first_newest; pq_empty := first_newest_empty; pq_max := first_newest_max |}.

(** Two users post, one follows the other. *)
Definition demo_calls : list call :=
  [PostTweet 10 1 100; PostTweet 11 2 200; Follow 1 2; PostTweet 12 1 101; PostTweet 13 3 300].

Lemma demo_clock : clock_ok demo_calls.
Proof.
  intros k. destruct (decide (k < 5)%nat) as [Hk|Hk].
  - do 5 (destruct k as [|k]; [unfold in_time; simpl; repeat constructor; simpl; lia|]). lia.
  - rewrite take_ge by (simpl; lia). unfold in_time. simpl. repeat constructor; simpl; lia.
Qed.

Lemma news_feed_witness :
  ∃ t l t', run demo_calls (mk_Twitter ∅ ∅) = Some t ∧ getNewsFeed 1 t = Some (map snd l, t') ∧
    l ≡ₚ [(10, 100); (11, 200); (12, 101)].
Proof.
  destruct (news_feed_newest demo_calls 1 demo_clock) as (t & l & rest & t' & H1 & H2 & Hv & _ & Hlen & _).
  exists t, l, t'. split_all; [done|done|].
  assert (visible 1 (network_run demo_calls) = [(10, 100); (11, 200); (12, 101)]) as E by (by vm_compute).
  rewrite E in Hv, Hlen. pose proof (Permutation_length Hv) as Hl. rewrite length_app, Hlen in Hl. simpl in Hl.
  destruct rest; [|simpl in Hl; lia]. by rewrite app_nil_r in Hv.
Defined.
