(* ===== verification/VppClient.v ===== *)
(** [src/VPP/examples]: the three clients of the VPP binary API, [vpp_client_connect.c],
    [vpp_list_interfaces.c] and [vpp_ipip_tunnel.c].

    What VPP's client library does is an interface here: the generated constants and
    byte-swap functions, the connection and the answers of the other side. The macros
    [M], [S], [PING] and [W] are the ones [src/VPP/vpp_msg.md] and the comments of
    [vpp_client_connect.c] give. [None] is a failed [assert], or a call the programs
    have not prepared for (a message without a handler, the shared-memory transport).

    Multi-byte fields are written and read in network byte order; the host is taken
    to be little endian. *)

From stdpp Require Import pretty.
From S2P Require Import Prelude ByteOrder.
Open Scope Z_scope.

(** A signed result on the wire. *)
Definition wire (r : Z) : Z := htonl (u32 r).
Lemma i32_wire r : in_signed 32 r → i32 (htonl (wire r)) = r.
Proof.
  unfold wire, in_signed. intros Hr. rewrite htonl_htonl by (apply wrap_range; lia).
  unfold i32, swrap, u32, wrap. rewrite Z.mod_mod by lia. cbv zeta.
  destruct (Z.ltb_spec (r mod 2 ^ 32) (2 ^ (32 - 1))); Z.to_euclidean_division_equations; lia.
Qed.

(** * Messages *)

(** The replies, with the fields the programs read, as the wire or the host has them. *)
Inductive body : Type :=
  | sw_interface_details (interface_name : string) (sw_if_index : Z)
  | control_ping_reply (retval : Z)
  | get_first_msg_id_reply
  | ipip_add_tunnel_reply (retval sw_if_index : Z)
  | sw_interface_set_flags_reply (retval : Z)
  | sw_interface_set_table_reply (retval : Z)
  | sw_interface_set_unnumbered_reply (retval : Z).

(** The requests, with the fields the programs write. *)
Inductive request : Type :=
  | sw_interface_dump (sw_if_index : Z)
  | control_ping
  | ipip_add_tunnel (instance mode table_id flags dscp src_af : Z) (src : list Z) (dst_af : Z) (dst : list Z)
  | sw_interface_set_flags (sw_if_index flags : Z)
  | sw_interface_set_table (sw_if_index is_ipv6 vrf_id : Z)
  | sw_interface_set_unnumbered (sw_if_index unnumbered_sw_if_index is_add : Z).

(** The generated [vl_api_*_t_endian] swap every multi-byte field. *)
Definition swap_fields (b : body) : body :=
  match b with
  | sw_interface_details n i => sw_interface_details n (htonl i)
  | control_ping_reply r => control_ping_reply (htonl r)
  | get_first_msg_id_reply => get_first_msg_id_reply
  | ipip_add_tunnel_reply r i => ipip_add_tunnel_reply (htonl r) (htonl i)
  | sw_interface_set_flags_reply r => sw_interface_set_flags_reply (htonl r)
  | sw_interface_set_table_reply r => sw_interface_set_table_reply (htonl r)
  | sw_interface_set_unnumbered_reply r => sw_interface_set_unnumbered_reply (htonl r)
  end.

(** What VPP reads in a request. *)
Definition host (r : request) : request :=
  match r with
  | sw_interface_dump i => sw_interface_dump (htonl i)
  | control_ping => control_ping
  | ipip_add_tunnel i m t f d sa s da d' => ipip_add_tunnel (htonl i) m (htonl t) f d sa s da d'
  | sw_interface_set_flags i f => sw_interface_set_flags (htonl i) (htonl f)
  | sw_interface_set_table i v t => sw_interface_set_table (htonl i) v (htonl t)
  | sw_interface_set_unnumbered i u a => sw_interface_set_unnumbered (htonl i) (htonl u) a
  end.

(** The callbacks the programs register. *)
Inductive callback : Type :=
  | on_get_first_msg_id | on_control_ping | on_sw_interface_details | on_ipip_add_tunnel
  | on_set_flags | on_set_table | on_set_unnumbered.

(** [vl_msg_api_msg_config_t], the fields that matter here. *)
Record config : Type := Config {
  cfg_name : string; cfg_handler : callback; traced : Z; replay : Z; is_autoendian : bool
}.

(** The generated headers and the library: the numbers of the messages and constants,
    the versions the programs were compiled against, the byte-swap functions, the order
    in which a hash table is walked, and [inet_pton] for IPv4. *)
Class VppApi : Type := {
  VL_API_GET_FIRST_MSG_ID_REPLY : Z;
  VL_API_CONTROL_PING : Z;
  VL_API_CONTROL_PING_REPLY : Z;
  VL_MSG_MEMCLNT_LAST : Z;
  VL_API_SW_INTERFACE_DUMP : Z;
  VL_API_SW_INTERFACE_DETAILS : Z;
  VL_API_SW_INTERFACE_SET_FLAGS : Z;
  VL_API_SW_INTERFACE_SET_FLAGS_REPLY : Z;
  VL_API_SW_INTERFACE_SET_TABLE : Z;
  VL_API_SW_INTERFACE_SET_TABLE_REPLY : Z;
  VL_API_SW_INTERFACE_SET_UNNUMBERED : Z;
  VL_API_SW_INTERFACE_SET_UNNUMBERED_REPLY : Z;
  VL_API_IPIP_ADD_TUNNEL : Z;
  VL_API_IPIP_ADD_TUNNEL_REPLY : Z;
  TUNNEL_API_MODE_MP : Z;
  ADDRESS_IP4 : Z;
  IF_STATUS_API_FLAG_ADMIN_UP : Z;
  interface_api_version : Z;
  ipip_api_version : Z;
  endian : body → body;
  endian_swaps : ∀ b, endian b = swap_fields b;
  hash_pairs : gmap string Z → list (string * Z);
  hash_pairs_perm : ∀ m, hash_pairs m ≡ₚ map_to_list m;
  inet_pton : string → option (list Z);
  inet_pton_local : inet_pton "192.168.0.1" = Some [192; 168; 0; 1];
  admin_up_range : in_unsigned 32 IF_STATUS_API_FLAG_ADMIN_UP
}.

(** A message as it is sent: the id on the wire, the client index, the payload. *)
Record message : Type := Message { _vl_msg_id : Z; client_index : Z; payload : request }.

(** The other side of one run: [vl_socket_client_connect] with the client index it
    gives, [vl_client_get_first_plugin_msg_id], the messages that the next read delivers
    after what has been sent, and the clock without the time slept. *)
Record env : Type := Env {
  connect : string → string → option Z;
  first_id : string → Z;
  peer : list message → list (Z * body);
  clib_time : nat → Z
}.

(** * State *)

Record ids : Type := Ids {
  interface_msg_id_base : Z; ipip_msg_id_base : Z; memclnt_msg_id_base : Z; __plugin_msg_base : Z
}.

(** The globals: [vat_main] with its two hash tables, the id bases, the registered
    messages; then what was sent, the clock readings, the nanoseconds slept and the
    lines printed. [socket] is the client index of an enabled socket; [pings] is
    [control_pings_outstanding] once [socket_client_main] is set. *)
Record vat : Type := Vat {
  retval : Z;
  result_ready : bool;
  sw_if_index_by_interface_name : gmap string Z;
  interface_name_by_sw_index : gmap Z string;
  socket : option Z;
  my_client_index : Z;
  pings : option Z;
  bases : ids;
  configs : gmap Z config;
  first_available : Z;
  ipip_tunnel_sw_if_index : Z;
  sent : list message;
  readings : nat;
  slept : Z;
  lines : output
}.

(** The globals before [main]; [ipip_tunnel_sw_if_index] starts as [~0]. *)
Definition vat0 : vat :=
  Vat 0 false ∅ ∅ None 0 None (Ids 0 0 0 0) ∅ 0 (2 ^ 32 - 1) [] 0 0 [].

Definition set_status (r : Z) (b : bool) (v : vat) : vat :=
  Vat r b (sw_if_index_by_interface_name v) (interface_name_by_sw_index v) (socket v) (my_client_index v)
    (pings v) (bases v) (configs v) (first_available v) (ipip_tunnel_sw_if_index v) (sent v) (readings v) (slept v) (lines v).
Definition set_tables (m : gmap string Z) (m' : gmap Z string) (v : vat) : vat :=
  Vat (retval v) (result_ready v) m m' (socket v) (my_client_index v)
    (pings v) (bases v) (configs v) (first_available v) (ipip_tunnel_sw_if_index v) (sent v) (readings v) (slept v) (lines v).
Definition set_socket (c : option Z) (i : Z) (p : option Z) (v : vat) : vat :=
  Vat (retval v) (result_ready v) (sw_if_index_by_interface_name v) (interface_name_by_sw_index v) c i
    p (bases v) (configs v) (first_available v) (ipip_tunnel_sw_if_index v) (sent v) (readings v) (slept v) (lines v).
Definition set_bases (b : ids) (v : vat) : vat :=
  Vat (retval v) (result_ready v) (sw_if_index_by_interface_name v) (interface_name_by_sw_index v) (socket v)
    (my_client_index v) (pings v) b (configs v) (first_available v) (ipip_tunnel_sw_if_index v) (sent v) (readings v)
    (slept v) (lines v).
Definition set_configs (c : gmap Z config) (n : Z) (v : vat) : vat :=
  Vat (retval v) (result_ready v) (sw_if_index_by_interface_name v) (interface_name_by_sw_index v) (socket v)
    (my_client_index v) (pings v) (bases v) c n (ipip_tunnel_sw_if_index v) (sent v) (readings v) (slept v) (lines v).
Definition set_tunnel (i : Z) (v : vat) : vat :=
  Vat (retval v) (result_ready v) (sw_if_index_by_interface_name v) (interface_name_by_sw_index v) (socket v)
    (my_client_index v) (pings v) (bases v) (configs v) (first_available v) i (sent v) (readings v) (slept v) (lines v).
Definition set_sent (l : list message) (v : vat) : vat :=
  Vat (retval v) (result_ready v) (sw_if_index_by_interface_name v) (interface_name_by_sw_index v) (socket v)
    (my_client_index v) (pings v) (bases v) (configs v) (first_available v) (ipip_tunnel_sw_if_index v) l (readings v)
    (slept v) (lines v).
Definition set_clock (n : nat) (t : Z) (v : vat) : vat :=
  Vat (retval v) (result_ready v) (sw_if_index_by_interface_name v) (interface_name_by_sw_index v) (socket v)
    (my_client_index v) (pings v) (bases v) (configs v) (first_available v) (ipip_tunnel_sw_if_index v) (sent v) n t (lines v).
Definition set_lines (l : output) (v : vat) : vat :=
  Vat (retval v) (result_ready v) (sw_if_index_by_interface_name v) (interface_name_by_sw_index v) (socket v)
    (my_client_index v) (pings v) (bases v) (configs v) (first_available v) (ipip_tunnel_sw_if_index v) (sent v)
    (readings v) (slept v) l.

(** [__plugin_msg_base = b]. *)
Definition set_plugin_msg_base (b : Z) (v : vat) : vat :=
  set_bases (Ids (interface_msg_id_base (bases v)) (ipip_msg_id_base (bases v)) (memclnt_msg_id_base (bases v)) b) v.

(** * The library's part: requests out, replies in *)

Section library.
Context `{VppApi} (e : env) (call : callback → body → ST vat unit).

(** [M(T, mp)]: the number of the message on the wire; it needs the socket, because the
    programs never set up the shared-memory transport. [PING] has a number of its own. *)
Definition M (T : Z) : ST vat Z := λ v,
  match socket v with
  | Some _ => Some (htons (u16 (T + __plugin_msg_base (bases v))), set_status (retval v) false v)
  | None => None
  end.
Definition PING : ST vat Z := λ v,
  match socket v with
  | Some _ => Some (htons (u16 (VL_API_CONTROL_PING + 1)), v)
  | None => None
  end.

(** [S(mp)]. *)
Definition S_ (id : Z) (r : request) : ST vat unit :=
  st_modify (λ v, set_sent (sent v ++ [Message id (my_client_index v) r]) v).

(** The dispatch of one message that has arrived. *)
Definition dispatch (m : Z * body) : ST vat unit := λ v,
  match configs v !! m.1 with
  | Some c => call (cfg_handler c) (if is_autoendian c then endian m.2 else m.2) v
  | None => None
  end.
Fixpoint dispatch_all (l : list (Z * body)) : ST vat unit :=
  match l with
  | [] => mret tt
  | m :: l => dispatch m;; dispatch_all l
  end.
Definition vl_socket_client_read : ST vat unit := λ v, dispatch_all (peer e (sent v)) v.

Definition vat_time_now : ST vat Z := λ v,
  Some (clib_time e (readings v) + slept v, set_clock (S (readings v)) (slept v) v).
(** A sleep of 100 ms, whatever [interval] says. *)
Definition vat_suspend : ST vat unit :=
  st_modify (λ v, set_clock (readings v) (slept v + 100000000) v).

Fixpoint poll (fuel : nat) (timeout : Z) : ST vat Z :=
  match fuel with
  | O => st_fail
  | S fuel =>
      t ← vat_time_now;
      if t <? timeout then
        v ← st_get;
        if result_ready v then mret (retval v) else vat_suspend;; poll fuel timeout
      else mret (-99)
  end.

(** Ten sleeps use up the second that [W] waits. *)
Definition W : ST vat Z :=
  t ← vat_time_now;
  v ← st_get;
  (if socket v then vl_socket_client_read else mret tt);;
  poll 11 (t + 1000000000).
End library.

(** * What the programs share, as in [vpp_client_connect.c] *)

Definition hex_digit (d : Z) : Ascii.ascii :=
  Ascii.ascii_of_N (Z.to_N (if d <? 10 then 48 + d else 87 + d)).
Fixpoint hex (digits : nat) (n : Z) (acc : string) : string :=
  match digits with
  | O => acc
  | S k => hex k (n / 16) (String (hex_digit (n mod 16)) acc)
  end.
(** [format(0, "..._%08x%c", version, 0)]. *)
Definition plugin_name (name : string) (version : Z) : string := name +:+ "_" +:+ hex 8 version "".

Section common.
Context `{VppApi} (e : env).

Definition set_reply_status (r : Z) : ST vat unit := st_modify (set_status (i32 r) true).

(** [hash_set_mem] and [hash_set] with the name and index of an interface. *)
Definition record_interface (name : string) (i : Z) : ST vat unit :=
  st_modify (λ v, set_tables (<[name := i]> (sw_if_index_by_interface_name v))
                             (<[i := name]> (interface_name_by_sw_index v)) v).

(** [if (vam->socket_client_main) control_pings_outstanding--]. *)
Definition ping_answered : ST vat unit :=
  st_modify (λ v, set_socket (socket v) (my_client_index v) ((λ n, i32 (n - 1)) <$> pings v) v).

Definition vl_msg_api_set_handlers (id : Z) (name : string) (h : callback) (traced : Z) (autoendian : bool)
    : ST vat unit :=
  st_modify (λ v, set_configs (<[id := Config name h traced 1 autoendian]> (configs v)) (first_available v) v).

(** [get_first_plugin_msg_id] with the assertion on its result. *)
Definition plugin_base (name : string) (version : Z) : ST vat Z :=
  let b := u16 (first_id e (plugin_name name version)) in
  st_assert (negb (b =? 65535));; mret b.

Definition clear_tables : ST vat unit := st_modify (set_tables ∅ ∅).
Definition set_first_available (n : Z) : ST vat unit := st_modify (λ v, set_configs (configs v) n v).

(** [vam->socket_client_main = &socket_client_main], whose counter is zero. *)
Definition set_socket_client_main : ST vat unit :=
  st_modify (λ v, set_socket (socket v) (my_client_index v) (Some 0) v).
(** [vl_socket_client_connect], and the client index it leaves. *)
Definition socket_connect (path name : string) : ST vat bool := λ v,
  match connect e path name with
  | Some c => Some (true, set_socket (Some c) (htonl c) (pings v) v)
  | None => Some (false, v)
  end.

(** [printf("%-30s  %u\n", name, idx)] for each entry of the table, under a heading. *)
Definition pad30 (s : string) : string := s +:+ String.concat "" (replicate (30 - String.length s) " ").
Definition row (p : string * Z) : string := pad30 p.1 +:+ "  " +:+ pretty (u32 p.2).
Definition heading : output :=
  [""; pad30 "Interface" +:+ "  sw_if_index"; "─────────────────────────────  ───────────"].
Definition print_interfaces : ST vat unit :=
  st_modify (λ v, set_lines (lines v ++ heading ++ map row (hash_pairs (sw_if_index_by_interface_name v))) v).
End common.

(** * [vpp_client_connect.c] *)

Module ClientConnect.
Section program.
Context `{VppApi} (e : env).

(** The handlers: the library has put the fields in host order. *)
Definition call (h : callback) (b : body) : ST vat unit :=
  match h, b with
  | on_get_first_msg_id, _ => mret tt
  | on_control_ping, control_ping_reply r => set_reply_status r;; ping_answered
  | on_sw_interface_details, sw_interface_details n i => record_interface n i
  | _, _ => st_fail
  end.

Definition get_msg_id_bases : ST vat unit :=
  b ← plugin_base e "interface" interface_api_version;
  st_modify (λ v, set_bases (Ids b (ipip_msg_id_base (bases v)) 0 (__plugin_msg_base (bases v))) v).

Definition register_base_handlers : ST vat unit :=
  vl_msg_api_set_handlers (VL_API_GET_FIRST_MSG_ID_REPLY + 1) "get_first_msg_id_reply" on_get_first_msg_id 1 false;;
  vl_msg_api_set_handlers (VL_API_CONTROL_PING_REPLY + 1) "control_ping_reply" on_control_ping 1 true.

Definition register_interface_handlers : ST vat unit :=
  v ← st_get;
  vl_msg_api_set_handlers (VL_API_SW_INTERFACE_DETAILS + interface_msg_id_base (bases v)) "sw_interface_details"
    on_sw_interface_details 1 true.

Definition connect_to_vpp (client_name : string) : ST vat Z :=
  set_first_available (VL_MSG_MEMCLNT_LAST + 1);;
  register_base_handlers;;
  set_socket_client_main;;
  clear_tables;;
  ok ← socket_connect e "/run/vpp/api.sock" client_name;
  if ok : bool then get_msg_id_bases;; register_interface_handlers;; mret 0 else mret (-1).

Definition dump_interfaces : ST vat Z :=
  st_modify (λ v, set_plugin_msg_base (interface_msg_id_base (bases v)) v);;
  mp ← M VL_API_SW_INTERFACE_DUMP;
  S_ mp (sw_interface_dump 0);;
  st_modify (λ v, set_plugin_msg_base (memclnt_msg_id_base (bases v)) v);;
  mp_ping ← PING;
  S_ mp_ping control_ping;;
  W e call.

(** The result of [connect_to_vpp] is not looked at. *)
Definition main : ST vat Z :=
  connect_to_vpp "demo";;
  ret ← dump_interfaces;
  if negb (ret =? 0) then mret 1 else print_interfaces;; mret 0.
End program.
End ClientConnect.

(** * [vpp_list_interfaces.c] *)

Module ListInterfaces.
Section program.
Context `{VppApi} (e : env).

(** The handlers: the fields are in network order, and the handlers convert. *)
Definition call (h : callback) (b : body) : ST vat unit :=
  match h, b with
  | on_get_first_msg_id, _ => mret tt
  | on_control_ping, control_ping_reply r => set_reply_status (htonl r);; ping_answered
  | on_sw_interface_details, sw_interface_details n i => record_interface n (htonl i)
  | _, _ => st_fail
  end.

(** [is_autoendian] stays 0. *)
Definition vl_msg_api_set_handlers (id : Z) (name : string) (h : callback) (traced : Z) : ST vat unit :=
  VppClient.vl_msg_api_set_handlers id name h traced false.

Definition register_base_handlers : ST vat unit :=
  vl_msg_api_set_handlers (VL_API_GET_FIRST_MSG_ID_REPLY + 1) "get_first_msg_id_reply" on_get_first_msg_id 1;;
  vl_msg_api_set_handlers (VL_API_CONTROL_PING_REPLY + 1) "control_ping_reply" on_control_ping 1.

Definition register_interface_handlers : ST vat unit :=
  v ← st_get;
  vl_msg_api_set_handlers (VL_API_SW_INTERFACE_DETAILS + interface_msg_id_base (bases v)) "sw_interface_details"
    on_sw_interface_details 1.

Definition get_msg_id_bases : ST vat unit :=
  b ← plugin_base e "interface" interface_api_version;
  st_modify (λ v, set_bases (Ids b (ipip_msg_id_base (bases v)) 0 (__plugin_msg_base (bases v))) v).

Definition connect_to_vpp (client_name : string) : ST vat Z :=
  set_socket_client_main;;
  ok ← socket_connect e "/run/vpp/api.sock" client_name;
  if ok : bool then mret 0 else mret (-1).

Definition init : ST vat Z :=
  set_first_available (VL_MSG_MEMCLNT_LAST + 1);;
  register_base_handlers;;
  clear_tables;;
  ret ← connect_to_vpp "list_interfaces_demo";
  if negb (ret =? 0) then mret (-1)
  else get_msg_id_bases;; register_interface_handlers;; mret 0.

Definition dump_interfaces : ST vat Z :=
  st_modify (λ v, set_plugin_msg_base (interface_msg_id_base (bases v)) v);;
  mp ← M VL_API_SW_INTERFACE_DUMP;
  S_ mp (sw_interface_dump 0);;
  st_modify (λ v, set_plugin_msg_base (memclnt_msg_id_base (bases v)) v);;
  mp_ping ← PING;
  S_ mp_ping control_ping;;
  W e call.

Definition main : ST vat Z :=
  ret ← init;
  if negb (ret =? 0) then mret 1
  else
    ret ← dump_interfaces;
    if negb (ret =? 0) then mret 1 else print_interfaces;; mret 0.
End program.
End ListInterfaces.

(** * [vpp_ipip_tunnel.c] *)

Module IpipTunnel.
Section program.
Context `{VppApi} (e : env).

Definition call (h : callback) (b : body) : ST vat unit :=
  match h, b with
  | on_get_first_msg_id, _ => mret tt
  | on_control_ping, control_ping_reply r => set_reply_status r;; ping_answered
  | on_sw_interface_details, sw_interface_details n i => record_interface n i
  | on_ipip_add_tunnel, ipip_add_tunnel_reply r i =>
      (if i32 r =? 0 then st_modify (set_tunnel i) else mret tt);; set_reply_status r
  | on_set_flags, sw_interface_set_flags_reply r => set_reply_status r
  | on_set_table, sw_interface_set_table_reply r => set_reply_status r
  | on_set_unnumbered, sw_interface_set_unnumbered_reply r => set_reply_status r
  | _, _ => st_fail
  end.

Definition get_msg_id_bases : ST vat unit :=
  b ← plugin_base e "interface" interface_api_version;
  st_modify (λ v, set_bases (Ids b (ipip_msg_id_base (bases v)) (memclnt_msg_id_base (bases v)) (__plugin_msg_base (bases v))) v);;
  b' ← plugin_base e "ipip" ipip_api_version;
  st_modify (λ v, set_bases (Ids (interface_msg_id_base (bases v)) b' 0 (__plugin_msg_base (bases v))) v).

Definition register_base_handlers : ST vat unit :=
  vl_msg_api_set_handlers (VL_API_GET_FIRST_MSG_ID_REPLY + 1) "get_first_msg_id_reply" on_get_first_msg_id 1 false;;
  vl_msg_api_set_handlers (VL_API_CONTROL_PING_REPLY + 1) "control_ping_reply" on_control_ping 1 true.

Definition register_interface_handlers : ST vat unit :=
  v ← st_get;
  let base := interface_msg_id_base (bases v) in
  vl_msg_api_set_handlers (VL_API_SW_INTERFACE_DETAILS + base) "sw_interface_details" on_sw_interface_details 1 true;;
  vl_msg_api_set_handlers (VL_API_SW_INTERFACE_SET_FLAGS_REPLY + base) "sw_interface_set_flags_reply" on_set_flags 1 true;;
  vl_msg_api_set_handlers (VL_API_SW_INTERFACE_SET_TABLE_REPLY + base) "sw_interface_set_table_reply" on_set_table 1 true;;
  vl_msg_api_set_handlers (VL_API_SW_INTERFACE_SET_UNNUMBERED_REPLY + base) "sw_interface_set_unnumbered_reply"
    on_set_unnumbered 1 true.

Definition register_ipip_handlers : ST vat unit :=
  v ← st_get;
  vl_msg_api_set_handlers (VL_API_IPIP_ADD_TUNNEL_REPLY + ipip_msg_id_base (bases v)) "ipip_add_tunnel_reply"
    on_ipip_add_tunnel 1 true.

Definition connect_to_vpp (client_name : string) : ST vat Z :=
  set_first_available (VL_MSG_MEMCLNT_LAST + 1);;
  register_base_handlers;;
  set_socket_client_main;;
  clear_tables;;
  ok ← socket_connect e "/run/vpp/api.sock" client_name;
  if ok : bool then get_msg_id_bases;; register_interface_handlers;; register_ipip_handlers;; mret 0 else mret (-1).

Definition dump_interfaces : ST vat Z :=
  st_modify (λ v, set_plugin_msg_base (interface_msg_id_base (bases v)) v);;
  mp ← M VL_API_SW_INTERFACE_DUMP;
  S_ mp (sw_interface_dump 0);;
  st_modify (λ v, set_plugin_msg_base (memclnt_msg_id_base (bases v)) v);;
  mp_ping ← PING;
  S_ mp_ping control_ping;;
  W e call.

(** One request for the interface plug-in, and its answer. *)
Definition interface_call (T : Z) (r : request) : ST vat Z :=
  st_modify (λ v, set_plugin_msg_base (interface_msg_id_base (bases v)) v);;
  mp ← M T;
  S_ mp r;;
  W e call.

Definition create_ipip_p2mp_tunnel (src_addr : string) (outer_table_id : Z) : ST vat Z :=
  st_modify (λ v, set_plugin_msg_base (ipip_msg_id_base (bases v)) v);;
  mp ← M VL_API_IPIP_ADD_TUNNEL;
  S_ mp (ipip_add_tunnel (htonl (2 ^ 32 - 1)) TUNNEL_API_MODE_MP (htonl outer_table_id) 0 0
           ADDRESS_IP4 (default [0; 0; 0; 0] (inet_pton src_addr)) ADDRESS_IP4 [0; 0; 0; 0]);;
  W e call.

Definition set_interface_up (sw_if_index : Z) : ST vat Z :=
  interface_call VL_API_SW_INTERFACE_SET_FLAGS
    (sw_interface_set_flags (htonl sw_if_index) (htonl IF_STATUS_API_FLAG_ADMIN_UP)).
Definition set_interface_ip_table (sw_if_index vrf_id : Z) : ST vat Z :=
  interface_call VL_API_SW_INTERFACE_SET_TABLE (sw_interface_set_table (htonl sw_if_index) 0 (htonl vrf_id)).
Definition set_interface_unnumbered (borrower donor : Z) : ST vat Z :=
  interface_call VL_API_SW_INTERFACE_SET_UNNUMBERED
    (sw_interface_set_unnumbered (htonl donor) (htonl borrower) 1).

(** [if (m != 0) return 1;]. *)
Definition unless_zero (m : ST vat Z) (k : ST vat Z) : ST vat Z :=
  ret ← m; if negb (ret =? 0) then mret 1 else k.

(** The global [ipip_tunnel_sw_if_index], read at each use. *)
Definition tunnel : ST vat Z := v ← st_get; mret (ipip_tunnel_sw_if_index v).

Definition main : ST vat Z :=
  unless_zero (connect_to_vpp "ipip-tunnel-demo") $
  unless_zero dump_interfaces $
  v ← st_get;
  match sw_if_index_by_interface_name v !! "bvi1000" with
  | None => mret 1
  | Some p =>
      let bvi1000_sw_if_index := u32 p in
      unless_zero (create_ipip_p2mp_tunnel "192.168.0.1" 0) $
      unless_zero (tunnel ≫= set_interface_up) $
      unless_zero (tunnel ≫= λ i, set_interface_ip_table i 0) $
      unless_zero (tunnel ≫= λ i, set_interface_unnumbered i bvi1000_sw_if_index) $
      mret 0
  end.
End program.
End IpipTunnel.

(** * The library's part, run *)

(** Time does not go back. *)
Definition monotone (e : env) : Prop := ∀ k, clib_time e k ≤ clib_time e (S k).
(** Reading the answers takes less than the second that [W] allows. *)
Definition prompt (e : env) : Prop := ∀ k, clib_time e (S k) < clib_time e k + 1000000000.

Section library_runs.
Context `{VppApi} (e : env) (call : callback → body → ST vat unit).

(** Without a result the loop sleeps until the time is up, with one test left. *)
Lemma poll_unready fuel timeout v :
  monotone e → result_ready v = false →
  timeout ≤ clib_time e (readings v) + slept v + 100000000 * (Z.of_nat fuel - 1) → (0 < fuel)%nat →
  ∃ n t, poll e fuel timeout v = Some (-99, set_clock n t v) ∧ t ≤ slept v + 100000000 * (Z.of_nat fuel - 1).
Proof.
  intros Hmono. revert v. induction fuel as [|fuel IH]; intros v Hready Htime Hfuel; [lia|]. cbn [poll].
  rewrite (st_bind_eq _ _ _ _ _ eq_refl). destruct (Z.ltb_spec (clib_time e (readings v) + slept v) timeout) as [Hlt|Hge].
  - rewrite (st_bind_eq _ _ _ _ _ eq_refl). cbn [result_ready set_clock]. rewrite Hready.
    rewrite (st_bind_eq _ _ _ tt (set_clock (S (readings v)) (slept v + 100000000) v)) by done. cbv beta.
    destruct fuel as [|fuel]; [lia|].
    destruct (IH (set_clock (S (readings v)) (slept v + 100000000) v)) as (n & t & -> & Ht); [done| |lia|].
    + cbn [readings slept set_clock]. specialize (Hmono (readings v)). lia.
    + exists n, t. split; [done|]. cbn [slept set_clock] in Ht. lia.
  - eexists _, (slept v). split; [reflexivity|lia].
Qed.

Lemma poll_ready fuel timeout v :
  result_ready v = true → (0 < fuel)%nat →
  poll e fuel timeout v =
    Some (if clib_time e (readings v) + slept v <? timeout then retval v else -99,
          set_clock (S (readings v)) (slept v) v).
Proof.
  intros Hready Hfuel. destruct fuel as [|fuel]; [lia|]. cbn [poll]. rewrite (st_bind_eq _ _ _ _ _ eq_refl).
  destruct (_ <? _); [|done]. rewrite (st_bind_eq _ _ _ _ _ eq_refl). cbn [result_ready set_clock]. by rewrite Hready.
Qed.

(** The handlers leave the clock alone. *)
Definition keeps_clock (v v' : vat) : Prop := readings v' = readings v ∧ slept v' = slept v.

Lemma dispatch_all_clock l v v' :
  (∀ h b v v', call h b v = Some (tt, v') → keeps_clock v v') →
  dispatch_all call l v = Some (tt, v') → keeps_clock v v'.
Proof.
  intros Hcall. revert v. induction l as [|m l IH]; intros v Hrun; [by injection Hrun as <-|].
  simpl in Hrun. apply st_bind_Some in Hrun as ([] & v1 & Hd & Hrun). apply IH in Hrun as [E1 E2].
  unfold dispatch in Hd. destruct (configs v !! m.1) as [c|]; [|done]. apply Hcall in Hd as [E3 E4].
  split; congruence.
Qed.

(** When the dispatch of what arrives succeeds, [W] ends: with the result, or with -99. *)
Lemma W_run v v1 :
  monotone e →
  (∀ h b v v', call h b v = Some (tt, v') → keeps_clock v v') →
  (if socket v then vl_socket_client_read e call else mret tt) (set_clock (S (readings v)) (slept v) v) = Some (tt, v1) →
  ∃ n t, t ≤ slept v + 1000000000 ∧
    W e call v = Some (if result_ready v1 && (clib_time e (S (readings v)) <? clib_time e (readings v) + 1000000000)
                       then retval v1 else -99, set_clock n t v1).
Proof.
  intros Hmono Hcall Hread.
  assert (keeps_clock (set_clock (S (readings v)) (slept v) v) v1) as [E1 E2].
  { destruct (socket v); [by eapply dispatch_all_clock|by injection Hread as <-]. }
  cbn [readings slept set_clock] in E1, E2. unfold W.
  rewrite (st_bind_eq _ _ _ _ _ eq_refl), (st_bind_eq _ _ _ _ _ eq_refl). cbv beta.
  cbn [socket set_clock]. rewrite (st_bind_eq _ _ _ _ _ Hread). cbv beta.
  destruct (result_ready v1) eqn:Hready.
  - rewrite poll_ready by (done || lia). rewrite E1, E2. eexists _, _. split; [|cbn [andb]; f_equal; f_equal].
    + lia.
    + replace (_ <? _) with (clib_time e (S (readings v)) <? clib_time e (readings v) + 1000000000); [done|].
      apply eq_true_iff_eq. rewrite !Z.ltb_lt. lia.
  - destruct (poll_unready 11 (clib_time e (readings v) + slept v + 1000000000) v1) as (n & t & -> & Ht);
      [done..| |lia|].
    + rewrite E1, E2. specialize (Hmono (readings v)). lia.
    + exists n, t. split; [lia|done].
Qed.
End library_runs.

(** ** A request and its answer *)

Section exchange.
Context `{VppApi} (e : env) (call : callback → body → ST vat unit).
Hypothesis Hmono : monotone e.
Hypothesis Hprompt : prompt e.
Hypothesis Hclock : ∀ h b v v', call h b v = Some (tt, v') → keeps_clock v v'.

(** What has arrived when [W] begins to test. *)
Lemma W_prompt v v1 c :
  socket v = Some c →
  dispatch_all call (peer e (sent v)) (set_clock (S (readings v)) (slept v) v) = Some (tt, v1) →
  ∃ n t, W e call v = Some (if result_ready v1 then retval v1 else -99, set_clock n t v1).
Proof.
  intros Hs Hread. destruct (W_run e call v v1 Hmono Hclock) as (n & t & _ & ->); [by rewrite Hs|].
  exists n, t. specialize (Hprompt (readings v)). rewrite (proj2 (Z.ltb_lt _ _)) by lia. by rewrite andb_true_r.
Qed.

Definition sending (b id : Z) (r : request) (v : vat) : vat :=
  set_sent (sent v ++ [Message id (my_client_index v) r]) (set_status (retval v) false (set_plugin_msg_base b v)).

(** The state when the answers are read. *)
Definition reading (v : vat) : vat := set_clock (S (readings v)) (slept v) v.

Lemma request_run (g : vat → Z) T r v v1 c :
  socket v = Some c →
  let v0 := sending (g v) (htons (u16 (T + g v))) r v in
  dispatch_all call (peer e (sent v0)) (reading v0) = Some (tt, v1) →
  ∃ n t, (st_modify (λ v, set_plugin_msg_base (g v) v);; mp ← M T; S_ mp r;; W e call) v
    = Some (if result_ready v1 then retval v1 else -99, set_clock n t v1).
Proof.
  intros Hs v0 Hread. destruct (W_prompt v0 v1 c Hs Hread) as (n & t & Hw). exists n, t. rewrite <- Hw.
  rewrite (st_bind_eq _ _ _ _ _ eq_refl). cbv beta.
  erewrite st_bind_eq by (unfold M; cbn [socket set_plugin_msg_base set_bases]; by rewrite Hs).
  cbv beta. by rewrite (st_bind_eq _ _ _ _ _ eq_refl).
Qed.

(** The dump is two messages, and one wait. *)
Definition pinging (v : vat) : vat :=
  let v0 := sending (interface_msg_id_base (bases v))
              (htons (u16 (VL_API_SW_INTERFACE_DUMP + interface_msg_id_base (bases v)))) (sw_interface_dump 0) v in
  let v1 := set_plugin_msg_base (memclnt_msg_id_base (bases v)) v0 in
  set_sent (sent v1 ++ [Message (htons (u16 (VL_API_CONTROL_PING + 1))) (my_client_index v1) control_ping]) v1.

Lemma dump_run v v1 c :
  socket v = Some c →
  dispatch_all call (peer e (sent (pinging v))) (reading (pinging v)) = Some (tt, v1) →
  ∃ n t, (st_modify (λ v, set_plugin_msg_base (interface_msg_id_base (bases v)) v);;
          mp ← M VL_API_SW_INTERFACE_DUMP;
          S_ mp (sw_interface_dump 0);;
          st_modify (λ v, set_plugin_msg_base (memclnt_msg_id_base (bases v)) v);;
          mp_ping ← PING;
          S_ mp_ping control_ping;;
          W e call) v
    = Some (if result_ready v1 then retval v1 else -99, set_clock n t v1).
Proof.
  intros Hs Hread. destruct (W_prompt (pinging v) v1 c Hs Hread) as (n & t & Hw). exists n, t. rewrite <- Hw.
  rewrite (st_bind_eq _ _ _ _ _ eq_refl). cbv beta.
  erewrite st_bind_eq by (unfold M; cbn [socket set_plugin_msg_base set_bases]; by rewrite Hs). cbv beta.
  rewrite (st_bind_eq _ _ _ _ _ eq_refl). cbv beta. rewrite (st_bind_eq _ _ _ _ _ eq_refl). cbv beta.
  erewrite st_bind_eq by (unfold PING; cbn [socket set_plugin_msg_base set_bases set_sent set_status]; by rewrite Hs).
  cbv beta. by rewrite (st_bind_eq _ _ _ _ _ eq_refl).
Qed.
End exchange.

(** * A conforming server *)

(** What VPP says: its interfaces, and the result of each request, or no answer. *)
Record answers : Type := Answers {
  interfaces : list (string * Z);
  ping_r : option Z;
  tunnel_r : option (Z * Z);
  flags_r : option Z;
  table_r : option Z;
  unnumbered_r : option Z
}.

Definition in_range (o : option Z) : Prop := from_option (in_signed 32) True o.
Definition answers_ok (a : answers) : Prop :=
  Forall (λ p, in_unsigned 32 p.2) (interfaces a) ∧ in_range (ping_r a) ∧
  from_option (λ p, in_signed 32 p.1 ∧ in_unsigned 32 p.2) True (tunnel_r a) ∧
  in_range (flags_r a) ∧ in_range (table_r a) ∧ in_range (unnumbered_r a).

(** The tables after the details of a list of interfaces. *)
Definition names (l : list (string * Z)) (m : gmap string Z) : gmap string Z :=
  foldl (λ m p, <[p.1 := p.2]> m) m l.
Definition indices (l : list (string * Z)) (m : gmap Z string) : gmap Z string :=
  foldl (λ m p, <[p.2 := p.1]> m) m l.

Section server.
Context `{VppApi} (ib pb : Z) (a : answers).

Definition reply (id : Z) (f : Z → body) (o : option Z) : list (Z * body) :=
  match o with Some r => [(id, f (wire r))] | None => [] end.

Definition details : list (Z * body) :=
  map (λ p, (VL_API_SW_INTERFACE_DETAILS + ib, sw_interface_details p.1 (htonl p.2))) (interfaces a).

(** What arrives after a request, in network byte order. *)
Definition answer (r : request) : list (Z * body) :=
  match r with
  | sw_interface_dump _ => []
  | control_ping => details ++ reply (VL_API_CONTROL_PING_REPLY + 1) control_ping_reply (ping_r a)
  | ipip_add_tunnel _ _ _ _ _ _ _ _ _ =>
      match tunnel_r a with
      | Some (r, i) => [(VL_API_IPIP_ADD_TUNNEL_REPLY + pb, ipip_add_tunnel_reply (wire r) (htonl i))]
      | None => []
      end
  | sw_interface_set_flags _ _ =>
      reply (VL_API_SW_INTERFACE_SET_FLAGS_REPLY + ib) sw_interface_set_flags_reply (flags_r a)
  | sw_interface_set_table _ _ _ =>
      reply (VL_API_SW_INTERFACE_SET_TABLE_REPLY + ib) sw_interface_set_table_reply (table_r a)
  | sw_interface_set_unnumbered _ _ _ =>
      reply (VL_API_SW_INTERFACE_SET_UNNUMBERED_REPLY + ib) sw_interface_set_unnumbered_reply (unnumbered_r a)
  end.

Definition conforms (e : env) : Prop := ∀ l m, peer e (l ++ [m]) = answer (payload m).
End server.

(** The dump under either convention for the byte order. *)
Section dump.
Context `{VppApi} (e : env) (call : callback → body → ST vat unit) (ib pb : Z) (a : answers)
  (cs : gmap Z config).
Hypothesis Ha : answers_ok a.
Hypothesis Hconf : conforms ib pb a e.
Hypothesis Hdetails : ∀ n i v, in_unsigned 32 i → configs v = cs →
  dispatch call (VL_API_SW_INTERFACE_DETAILS + ib, sw_interface_details n (htonl i)) v = record_interface n i v.
Hypothesis Hping : ∀ r v, in_signed 32 r → configs v = cs →
  dispatch call (VL_API_CONTROL_PING_REPLY + 1, control_ping_reply (wire r)) v
  = (st_modify (set_status r true);; ping_answered) v.

Lemma details_run l rest v :
  configs v = cs → Forall (λ p, in_unsigned 32 p.2) l →
  dispatch_all call (map (λ p, (VL_API_SW_INTERFACE_DETAILS + ib, sw_interface_details p.1 (htonl p.2))) l ++ rest) v
  = dispatch_all call rest
      (set_tables (names l (sw_if_index_by_interface_name v)) (indices l (interface_name_by_sw_index v)) v).
Proof.
  intros Hcs Hl. revert v Hcs. induction Hl as [|[n i] l Hi _ IH]; intros v Hcs; [by destruct v|].
  cbn [map app dispatch_all]. erewrite st_bind_eq by (rewrite Hdetails by done; reflexivity). cbv beta.
  rewrite IH by done. by destruct v.
Qed.

(** The state after the answers to the dump. *)
Definition dumped (v : vat) : vat :=
  let v1 := set_tables (names (interfaces a) (sw_if_index_by_interface_name v))
              (indices (interfaces a) (interface_name_by_sw_index v)) v in
  match ping_r a with
  | Some r => set_socket (socket v1) (my_client_index v1) ((λ n, i32 (n - 1)) <$> pings v1) (set_status r true v1)
  | None => v1
  end.

Lemma dump_answers v :
  configs v = cs →
  dispatch_all call (peer e (sent (pinging v))) (reading (pinging v)) = Some (tt, dumped (reading (pinging v))).
Proof.
  intros Hcs. cbn [sent pinging set_sent]. rewrite Hconf. cbn [answer payload]. unfold details.
  assert (configs (reading (pinging v)) = cs) as Hw by done. revert Hw. generalize (reading (pinging v)). intros w Hw.
  rewrite details_run by (done || apply Ha). unfold dumped. destruct Ha as (_ & Hr & _).
  destruct (ping_r a) as [r|]; [|done]. cbn [reply dispatch_all].
  by erewrite st_bind_eq by (rewrite Hping by done; reflexivity).
Qed.
End dump.

(** * The programs that list the interfaces *)

Definition zero (o : option Z) : bool := bool_decide (o = Some 0).

Ltac clock_untouched h b :=
  destruct h, b; intros Hrun;
  cbv [ClientConnect.call ListInterfaces.call IpipTunnel.call set_reply_status ping_answered record_interface
       mbind st_bind mret st_ret st_modify st_fail] in Hrun;
  first [done | by injection Hrun as <- | destruct (i32 _ =? 0); by injection Hrun as <-].

Section listing.
Context `{VppApi} (e : env) (a : answers).

Definition interface_base : Z := u16 (first_id e (plugin_name "interface" interface_api_version)).

(** The registered messages, with or without conversion by the library. *)
Definition client_configs (autoendian : bool) : gmap Z config :=
  <[VL_API_SW_INTERFACE_DETAILS + interface_base := Config "sw_interface_details" on_sw_interface_details 1 1 autoendian]>
  (<[VL_API_CONTROL_PING_REPLY + 1 := Config "control_ping_reply" on_control_ping 1 1 autoendian]>
   (<[VL_API_GET_FIRST_MSG_ID_REPLY + 1 := Config "get_first_msg_id_reply" on_get_first_msg_id 1 1 false]> ∅)).

(** The replies have numbers of their own. *)
Definition client_ids : Prop :=
  VL_API_SW_INTERFACE_DETAILS + interface_base ≠ VL_API_CONTROL_PING_REPLY + 1.

Definition connected (c : Z) (bs : ids) (cs : gmap Z config) : vat :=
  Vat 0 false ∅ ∅ (Some c) (htonl c) (Some 0) bs cs (VL_MSG_MEMCLNT_LAST + 1) (2 ^ 32 - 1) [] 0 0 [].

Lemma plugin_base_run name version v :
  u16 (first_id e (plugin_name name version)) ≠ 65535 →
  plugin_base e name version v = Some (u16 (first_id e (plugin_name name version)), v).
Proof. intros Hb. unfold plugin_base, st_assert, mbind, st_bind. by rewrite (proj2 (Z.eqb_neq _ _) Hb). Qed.

Lemma client_bases v :
  interface_base ≠ 65535 →
  ClientConnect.get_msg_id_bases e v
  = Some (tt, set_bases (Ids interface_base (ipip_msg_id_base (bases v)) 0 (__plugin_msg_base (bases v))) v).
Proof. intros Hb. unfold ClientConnect.get_msg_id_bases. by rewrite (st_bind_eq _ _ _ _ _ (plugin_base_run _ _ _ Hb)). Qed.

Lemma client_connected c name :
  connect e "/run/vpp/api.sock" name = Some c → interface_base ≠ 65535 →
  ClientConnect.connect_to_vpp e name vat0 = Some (0, connected c (Ids interface_base 0 0 0) (client_configs true)).
Proof.
  intros Hc Hb. unfold ClientConnect.connect_to_vpp, ClientConnect.register_base_handlers.
  rewrite !(st_bind_eq _ _ _ _ _ eq_refl). cbv beta.
  erewrite st_bind_eq by (unfold socket_connect; by rewrite Hc). cbv beta iota.
  by rewrite (st_bind_eq _ _ _ _ _ (client_bases _ Hb)).
Qed.

Lemma list_connected c :
  connect e "/run/vpp/api.sock" "list_interfaces_demo" = Some c → interface_base ≠ 65535 →
  ListInterfaces.init e vat0 = Some (0, connected c (Ids interface_base 0 0 0) (client_configs false)).
Proof.
  intros Hc Hb. unfold ListInterfaces.init, ListInterfaces.register_base_handlers, ListInterfaces.connect_to_vpp.
  rewrite !(st_bind_eq _ _ _ _ _ eq_refl). cbv beta.
  erewrite st_bind_eq by (rewrite (st_bind_eq _ _ _ _ _ eq_refl); cbv beta;
    erewrite st_bind_eq by (unfold socket_connect; by rewrite Hc); reflexivity).
  cbn [negb Z.eqb]. by rewrite (st_bind_eq _ _ _ _ _ (client_bases _ Hb)).
Qed.

Lemma client_details n i v :
  in_unsigned 32 i → configs v = client_configs true →
  dispatch ClientConnect.call (VL_API_SW_INTERFACE_DETAILS + interface_base, sw_interface_details n (htonl i)) v
  = record_interface n i v.
Proof.
  intros Hi Hv. unfold dispatch. rewrite Hv. unfold client_configs. cbn [fst snd].
  rewrite lookup_insert_eq. cbn [cfg_handler is_autoendian]. rewrite endian_swaps. simpl. by rewrite htonl_htonl.
Qed.
Lemma client_ping r v :
  client_ids → in_signed 32 r → configs v = client_configs true →
  dispatch ClientConnect.call (VL_API_CONTROL_PING_REPLY + 1, control_ping_reply (wire r)) v
  = (st_modify (set_status r true);; ping_answered) v.
Proof.
  intros Hids Hr Hv. unfold dispatch. rewrite Hv. unfold client_configs. cbn [fst snd].
  rewrite lookup_insert_ne, lookup_insert_eq by done. cbn [cfg_handler is_autoendian]. rewrite endian_swaps. simpl.
  unfold set_reply_status. by rewrite i32_wire.
Qed.
Lemma list_details n i v :
  in_unsigned 32 i → configs v = client_configs false →
  dispatch ListInterfaces.call (VL_API_SW_INTERFACE_DETAILS + interface_base, sw_interface_details n (htonl i)) v
  = record_interface n i v.
Proof.
  intros Hi Hv. unfold dispatch. rewrite Hv. unfold client_configs. cbn [fst snd].
  rewrite lookup_insert_eq. simpl. by rewrite htonl_htonl.
Qed.
Lemma list_ping r v :
  client_ids → in_signed 32 r → configs v = client_configs false →
  dispatch ListInterfaces.call (VL_API_CONTROL_PING_REPLY + 1, control_ping_reply (wire r)) v
  = (st_modify (set_status r true);; ping_answered) v.
Proof.
  intros Hids Hr Hv. unfold dispatch. rewrite Hv. unfold client_configs. cbn [fst snd].
  rewrite lookup_insert_ne, lookup_insert_eq by done. simpl. unfold set_reply_status. by rewrite i32_wire.
Qed.

Lemma client_clock h b v v' : ClientConnect.call h b v = Some (tt, v') → keeps_clock v v'.
Proof. clock_untouched h b. Qed.
Lemma list_clock h b v v' : ListInterfaces.call h b v = Some (tt, v') → keeps_clock v v'.
Proof. clock_untouched h b. Qed.
End listing.

(** * The programs that list the interfaces agree *)

Section agreement.
Context `{VppApi} (e : env) (a : answers) (pb : Z).
Hypothesis Hmono : monotone e.
Hypothesis Hprompt : prompt e.
Hypothesis Ha : answers_ok a.
Hypothesis Hbase : interface_base e ≠ 65535.
Hypothesis Hids : client_ids e.
Hypothesis Hconf : conforms (interface_base e) pb a e.

(** What [main] does with the result of the dump. *)
Lemma listing_run dump v v' n t :
  dump v = Some (if result_ready v' then retval v' else -99, set_clock n t v') →
  v' = dumped a (reading (pinging v)) → lines v = [] → sw_if_index_by_interface_name v = ∅ →
  interface_name_by_sw_index v = ∅ →
  ∃ v'', (ret ← dump; if negb (ret =? 0) then mret 1 else print_interfaces;; mret 0) v = Some (if zero (ping_r a) then 0 else 1, v'') ∧
    sw_if_index_by_interface_name v'' = names (interfaces a) ∅ ∧
    interface_name_by_sw_index v'' = indices (interfaces a) ∅ ∧
    lines v'' = if zero (ping_r a) then heading ++ map row (hash_pairs (names (interfaces a) ∅)) else [].
Proof.
  intros Hdump -> Hl Ht Ht'. rewrite (st_bind_eq _ _ _ _ _ Hdump). cbv beta.
  unfold dumped, zero. destruct (ping_r a) as [r|].
  - cbn [result_ready set_socket set_status retval]. destruct (Z.eqb_spec r 0) as [->|Hr]; cbn [negb].
    + eexists. split; [reflexivity|]. simpl. by rewrite Ht, Ht', Hl.
    + rewrite bool_decide_false by congruence. eexists. split; [reflexivity|]. simpl. by rewrite Ht, Ht', Hl.
  - eexists. split; [reflexivity|]. simpl. by rewrite Ht, Ht', Hl.
Qed.

(** The dump of either program. *)
Lemma client_dump v c :
  configs v = client_configs e true → socket v = Some c →
  ∃ n t, let v' := dumped a (reading (pinging v)) in
    ClientConnect.dump_interfaces e v = Some (if result_ready v' then retval v' else -99, set_clock n t v').
Proof.
  intros Hcs Hs. unfold ClientConnect.dump_interfaces. apply (dump_run e _ Hmono Hprompt client_clock v _ c Hs).
  eapply dump_answers; eauto using client_details, client_ping.
Qed.
Lemma list_dump v c :
  configs v = client_configs e false → socket v = Some c →
  ∃ n t, let v' := dumped a (reading (pinging v)) in
    ListInterfaces.dump_interfaces e v = Some (if result_ready v' then retval v' else -99, set_clock n t v').
Proof.
  intros Hcs Hs. unfold ListInterfaces.dump_interfaces. apply (dump_run e _ Hmono Hprompt list_clock v _ c Hs).
  eapply dump_answers; eauto using list_details, list_ping.
Qed.

(** What a program that lists the interfaces leaves. *)
Definition listed (r : option (Z * vat)) : Prop :=
  ∃ v, r = Some (if zero (ping_r a) then 0 else 1, v) ∧
    sw_if_index_by_interface_name v = names (interfaces a) ∅ ∧
    interface_name_by_sw_index v = indices (interfaces a) ∅ ∧
    lines v = if zero (ping_r a) then heading ++ map row (hash_pairs (names (interfaces a) ∅)) else [].

Lemma client_lists c :
  connect e "/run/vpp/api.sock" "demo" = Some c → listed (ClientConnect.main e vat0).
Proof.
  intros Hc. unfold ClientConnect.main. rewrite (st_bind_eq _ _ _ _ _ (client_connected e c _ Hc Hbase)).
  cbv beta.
  edestruct (client_dump (connected c (Ids (interface_base e) 0 0 0) (client_configs e true)) c) as (n & t & Hd); [done..|].
  exact (listing_run _ _ _ n t Hd eq_refl eq_refl eq_refl eq_refl).
Qed.
Lemma list_lists c :
  connect e "/run/vpp/api.sock" "list_interfaces_demo" = Some c → listed (ListInterfaces.main e vat0).
Proof.
  intros Hc. unfold ListInterfaces.main. rewrite (st_bind_eq _ _ _ _ _ (list_connected e c Hc Hbase)).
  cbn [negb Z.eqb].
  edestruct (list_dump (connected c (Ids (interface_base e) 0 0 0) (client_configs e false)) c) as (n & t & Hd); [done..|].
  exact (listing_run _ _ _ n t Hd eq_refl eq_refl eq_refl eq_refl).
Qed.

(** The two programs convert the byte order in different places, the handlers of one and
    the library of the other: from the same server they fill the same tables, print the
    same lines, which are the heading and each interface once, and end alike: with 0
    exactly when the ping was answered with 0, and else with 1 and nothing printed. *)
Theorem listing_programs_agree c1 c2 :
  connect e "/run/vpp/api.sock" "demo" = Some c1 →
  connect e "/run/vpp/api.sock" "list_interfaces_demo" = Some c2 →
  ∃ v1 v2,
    ClientConnect.main e vat0 = Some (if zero (ping_r a) then 0 else 1, v1) ∧
    ListInterfaces.main e vat0 = Some (if zero (ping_r a) then 0 else 1, v2) ∧
    sw_if_index_by_interface_name v1 = names (interfaces a) ∅ ∧
    sw_if_index_by_interface_name v2 = names (interfaces a) ∅ ∧
    interface_name_by_sw_index v1 = interface_name_by_sw_index v2 ∧ lines v1 = lines v2 ∧
    lines v1 ≡ₚ if zero (ping_r a) then heading ++ map row (map_to_list (names (interfaces a) ∅)) else [].
Proof.
  intros Hc1 Hc2.
  destruct (client_lists c1 Hc1) as (v1 & R1 & T1 & I1 & L1). destruct (list_lists c2 Hc2) as (v2 & R2 & T2 & I2 & L2).
  exists v1, v2. split_all; try congruence.
  rewrite L1. destruct (zero (ping_r a)); [|done]. by rewrite hash_pairs_perm.
Qed.
End agreement.

(** [vpp_client_connect.c] does not look at the result of [connect_to_vpp]: without a
    connection it goes on to write to a transport it never set up, where
    [vpp_list_interfaces.c] ends with 1. *)
Theorem connect_failure_ignored `{VppApi} e :
  (∀ path name, connect e path name = None) →
  ClientConnect.main e vat0 = None ∧ ∃ v, ListInterfaces.main e vat0 = Some (1, v) ∧ sent v = [].
Proof.
  intros Hc. split.
  - unfold ClientConnect.main, ClientConnect.connect_to_vpp, socket_connect, mbind, st_bind. simpl. by rewrite Hc.
  - eexists. unfold ListInterfaces.main, ListInterfaces.init, ListInterfaces.connect_to_vpp, socket_connect, mbind, st_bind.
    simpl. rewrite Hc. by split.
Qed.

(** [vpp_msg.md] registers with [is_autoendian = 1] a handler that calls [ntohl]: the two
    conversions cancel, and the index goes into the table in network byte order. *)
Theorem documented_handler_swaps_twice `{VppApi} n i c v :
  cfg_handler c = on_sw_interface_details → is_autoendian c = true → in_unsigned 32 i →
  dispatch ListInterfaces.call (n, sw_interface_details "eth0" (htonl i)) (set_configs {[n := c]} 0 v)
  = record_interface "eth0" (htonl i) (set_configs {[n := c]} 0 v).
Proof.
  intros Hh Hc Hi. unfold dispatch. cbn [configs set_configs fst snd]. rewrite lookup_singleton_eq, Hh, Hc, endian_swaps.
  simpl. by rewrite (htonl_htonl i).
Qed.

(** * The tunnel program *)

(** A message as VPP reads it. *)
Definition seen (m : message) : Z * request := (htons (_vl_msg_id m), host (payload m)).

Lemma seen_message x i r : seen (Message (htons (u16 x)) i r) = (u16 x, host r).
Proof. unfold seen. cbn [_vl_msg_id payload]. rewrite htons_htons; [done|apply wrap_range; lia]. Qed.

Section tunnel.
Context `{VppApi} (e : env) (a : answers) (c : Z).
Hypothesis Hmono : monotone e.
Hypothesis Hprompt : prompt e.
Hypothesis Ha : answers_ok a.

Definition ipip_base : Z := u16 (first_id e (plugin_name "ipip" ipip_api_version)).
Abbreviation ib := (interface_base e).
Abbreviation pb := ipip_base.
Hypothesis Hconf : conforms ib pb a e.

(** The numbers of the replies. *)
Definition tunnel_ids : list Z :=
  [VL_API_CONTROL_PING_REPLY + 1; VL_API_SW_INTERFACE_DETAILS + ib; VL_API_SW_INTERFACE_SET_FLAGS_REPLY + ib;
   VL_API_SW_INTERFACE_SET_TABLE_REPLY + ib; VL_API_SW_INTERFACE_SET_UNNUMBERED_REPLY + ib;
   VL_API_IPIP_ADD_TUNNEL_REPLY + pb].
Hypothesis Hids : NoDup tunnel_ids.

Definition tunnel_configs : gmap Z config :=
  <[VL_API_IPIP_ADD_TUNNEL_REPLY + pb := Config "ipip_add_tunnel_reply" on_ipip_add_tunnel 1 1 true]>
  (<[VL_API_SW_INTERFACE_SET_UNNUMBERED_REPLY + ib := Config "sw_interface_set_unnumbered_reply" on_set_unnumbered 1 1 true]>
  (<[VL_API_SW_INTERFACE_SET_TABLE_REPLY + ib := Config "sw_interface_set_table_reply" on_set_table 1 1 true]>
  (<[VL_API_SW_INTERFACE_SET_FLAGS_REPLY + ib := Config "sw_interface_set_flags_reply" on_set_flags 1 1 true]>
  (<[VL_API_SW_INTERFACE_DETAILS + ib := Config "sw_interface_details" on_sw_interface_details 1 1 true]>
  (<[VL_API_CONTROL_PING_REPLY + 1 := Config "control_ping_reply" on_control_ping 1 1 true]>
  (<[VL_API_GET_FIRST_MSG_ID_REPLY + 1 := Config "get_first_msg_id_reply" on_get_first_msg_id 1 1 false]> ∅)))))).

(** Each reply reaches its handler. *)
Lemma tunnel_handlers :
  Forall2 (λ id h, ∃ n, tunnel_configs !! id = Some (Config n h 1 1 true)) tunnel_ids
    [on_control_ping; on_sw_interface_details; on_set_flags; on_set_table; on_set_unnumbered; on_ipip_add_tunnel].
Proof.
  pose proof Hids as Hn. unfold tunnel_ids in *. rewrite !NoDup_cons, !not_elem_of_cons in Hn.
  destruct Hn as ((?&?&?&?&?&_)&(?&?&?&?&_)&(?&?&?&_)&(?&?&_)&(?&_)&_).
  repeat (apply Forall2_cons; split); [..|apply Forall2_nil; done]; eexists; unfold tunnel_configs;
    by repeat (first [rewrite lookup_insert_eq; reflexivity | rewrite lookup_insert_ne by done]).
Qed.

Lemma tunnel_dispatch id h b v n :
  configs v = tunnel_configs → tunnel_configs !! id = Some (Config n h 1 1 true) →
  dispatch IpipTunnel.call (id, b) v = IpipTunnel.call h (swap_fields b) v.
Proof. intros Hv Hn. unfold dispatch. rewrite Hv. cbn [fst snd]. rewrite Hn. cbn. by rewrite endian_swaps. Qed.

Lemma tunnel_clock h b v v' : IpipTunnel.call h b v = Some (tt, v') → keeps_clock v v'.
Proof. clock_untouched h b. Qed.

(** Connected, with every reply registered. *)
Definition online (v : vat) : Prop :=
  socket v = Some c ∧ configs v = tunnel_configs ∧ interface_msg_id_base (bases v) = ib ∧
  ipip_msg_id_base (bases v) = pb.

(** What a request adds to the log, and the tunnel's index afterwards. *)
Definition moves (v v' : vat) (new : list (Z * request)) (t : Z) : Prop :=
  online v' ∧ map seen (sent v') = map seen (sent v) ++ new ∧ ipip_tunnel_sw_if_index v' = t.

Lemma tunnel_dump v :
  online v → ∃ v', IpipTunnel.dump_interfaces e v = Some (default (-99) (ping_r a), v') ∧
    moves v v' [(u16 (VL_API_SW_INTERFACE_DUMP + ib), sw_interface_dump 0); (u16 (VL_API_CONTROL_PING + 1), control_ping)]
      (ipip_tunnel_sw_if_index v) ∧
    sw_if_index_by_interface_name v' = names (interfaces a) (sw_if_index_by_interface_name v).
Proof.
  intros (Hs & Hcs & Hb & Hp). pose proof tunnel_handlers as Hh. unfold tunnel_ids in Hh.
  apply Forall2_cons in Hh as [[n1 Hping] Hh]. apply Forall2_cons in Hh as [[n2 Hdet] _].
  destruct (dump_run e IpipTunnel.call Hmono Hprompt tunnel_clock v (dumped a (reading (pinging v))) c Hs) as (n & t & Hrun).
  { eapply dump_answers; [done|done| | |done].
    - intros name i w Hi Hw. rewrite (tunnel_dispatch _ _ _ _ _ Hw Hdet). simpl. by rewrite htonl_htonl.
    - intros r w Hr Hw. rewrite (tunnel_dispatch _ _ _ _ _ Hw Hping). simpl. unfold set_reply_status. by rewrite i32_wire. }
  eexists. split; [etrans; [exact Hrun|]; f_equal; f_equal|].
  - unfold dumped. by destruct (ping_r a).
  - assert (∀ w, sent (dumped a w) = sent w ∧ socket (dumped a w) = socket w ∧ configs (dumped a w) = configs w ∧
      bases (dumped a w) = bases w ∧ ipip_tunnel_sw_if_index (dumped a w) = ipip_tunnel_sw_if_index w ∧
      sw_if_index_by_interface_name (dumped a w) = names (interfaces a) (sw_if_index_by_interface_name w))
      as Hd by (intros w; unfold dumped; by destruct (ping_r a)).
    destruct (Hd (reading (pinging v))) as (E1 & E2 & E3 & E4 & E5 & E6).
    unfold moves, online. cbn [sent socket configs bases ipip_tunnel_sw_if_index sw_if_index_by_interface_name set_clock].
    rewrite E1, E2, E3, E4, E5, E6. split_all; try done.
    cbn [sent reading pinging sending set_clock set_sent set_plugin_msg_base set_bases]. rewrite Hb.
    rewrite !map_app, <- app_assoc. cbn [map app]. by rewrite !seen_message.
Qed.

(** The answer to a request for the interface plug-in, or the time-out. *)
Lemma interface_call_run T r id n h f o v :
  online v → (∀ l i, peer e (l ++ [Message i (my_client_index v) r]) = reply id f o) → in_range o →
  tunnel_configs !! id = Some (Config n h 1 1 true) →
  (∀ x w, in_signed 32 x → IpipTunnel.call h (swap_fields (f (wire x))) w = st_modify (set_status x true) w) →
  ∃ v', IpipTunnel.interface_call e T r v = Some (default (-99) o, v') ∧
    moves v v' [(u16 (T + ib), host r)] (ipip_tunnel_sw_if_index v).
Proof.
  intros (Hs & Hcs & Hb & Hp) Hpeer Ho Hn Hcall.
  set (v0 := sending (interface_msg_id_base (bases v)) (htons (u16 (T + interface_msg_id_base (bases v)))) r v).
  set (v1 := match o with Some x => set_status x true (reading v0) | None => reading v0 end).
  destruct (request_run e IpipTunnel.call Hmono Hprompt tunnel_clock (λ v, interface_msg_id_base (bases v)) T r v v1 c Hs)
    as (k & t & Hrun).
  { cbn [sent sending set_sent]. rewrite Hpeer. subst v1. fold v0. assert (configs (reading v0) = tunnel_configs) as Hw by done.
    clearbody v0. destruct o as [x|]; [|done]. cbn [reply dispatch_all].
    by rewrite (st_bind_eq _ _ _ tt (set_status x true (reading v0))) by (by rewrite (tunnel_dispatch _ _ _ _ _ Hw Hn), Hcall). }
  eexists. split; [etrans; [exact Hrun|]; f_equal; f_equal; subst v1; by destruct o|].
  assert (sent v1 = sent v0 ∧ socket v1 = socket v ∧ configs v1 = configs v ∧
    ipip_tunnel_sw_if_index v1 = ipip_tunnel_sw_if_index v ∧ interface_msg_id_base (bases v1) = interface_msg_id_base (bases v) ∧
    ipip_msg_id_base (bases v1) = ipip_msg_id_base (bases v)) as (E1 & E2 & E3 & E4 & E5 & E6) by (subst v1; by destruct o).
  unfold moves, online. cbn [sent socket configs bases ipip_tunnel_sw_if_index set_clock]. rewrite E1, E2, E3, E4, E5, E6.
  split_all; try done. subst v0. cbn [sent sending set_sent]. rewrite map_app, Hb. cbn [map]. by rewrite seen_message.
Qed.

Lemma create_run v :
  online v → ∃ v', IpipTunnel.create_ipip_p2mp_tunnel e "192.168.0.1" 0 v = Some (default (-99) (fst <$> tunnel_r a), v') ∧
    moves v v' [(u16 (VL_API_IPIP_ADD_TUNNEL + pb),
                 ipip_add_tunnel (2 ^ 32 - 1) TUNNEL_API_MODE_MP 0 0 0 ADDRESS_IP4 [192; 168; 0; 1] ADDRESS_IP4 [0; 0; 0; 0])]
      (match tunnel_r a with Some (0, i) => i | _ => ipip_tunnel_sw_if_index v end).
Proof.
  intros (Hs & Hcs & Hb & Hp). pose proof tunnel_handlers as Hh. unfold tunnel_ids in Hh.
  do 5 apply Forall2_cons in Hh as [_ Hh]. apply Forall2_cons in Hh as [[n Hadd] _].
  set (r := ipip_add_tunnel (htonl (2 ^ 32 - 1)) TUNNEL_API_MODE_MP (htonl 0) 0 0 ADDRESS_IP4
    (default [0; 0; 0; 0] (inet_pton "192.168.0.1")) ADDRESS_IP4 [0; 0; 0; 0]).
  set (v0 := sending (ipip_msg_id_base (bases v)) (htons (u16 (VL_API_IPIP_ADD_TUNNEL + ipip_msg_id_base (bases v)))) r v).
  set (v1 := match tunnel_r a with
             | Some (x, i) => set_status x true (if x =? 0 then set_tunnel i (reading v0) else reading v0)
             | None => reading v0 end).
  destruct (request_run e IpipTunnel.call Hmono Hprompt tunnel_clock (λ v, ipip_msg_id_base (bases v)) VL_API_IPIP_ADD_TUNNEL
    r v v1 c Hs) as (k & t & Hrun).
  { cbn [sent sending set_sent]. rewrite Hconf. subst v1. fold v0. cbn [payload answer]. subst r. cbn [answer].
    assert (configs (reading v0) = tunnel_configs) as Hw by done. clearbody v0. destruct Ha as (_ & _ & Ht & _).
    destruct (tunnel_r a) as [[x i]|]; [|done]. destruct Ht as [Hx Hi]. cbn [fst snd] in Hx, Hi. cbn [dispatch_all].
    erewrite st_bind_eq; [reflexivity|]. rewrite (tunnel_dispatch _ _ _ _ _ Hw Hadd). cbn [swap_fields].
    rewrite (htonl_htonl i Hi). unfold IpipTunnel.call, set_reply_status. rewrite i32_wire by done. by destruct (x =? 0). }
  eexists. split; [etrans; [exact Hrun|]; f_equal; f_equal; subst v1; by destruct (tunnel_r a) as [[]|]|].
  assert (sent v1 = sent v0 ∧ socket v1 = socket v ∧ configs v1 = configs v ∧
    ipip_tunnel_sw_if_index v1 = match tunnel_r a with Some (0, i) => i | _ => ipip_tunnel_sw_if_index v end ∧
    interface_msg_id_base (bases v1) = interface_msg_id_base (bases v) ∧
    ipip_msg_id_base (bases v1) = ipip_msg_id_base (bases v)) as (E1 & E2 & E3 & E4 & E5 & E6)
    by (subst v1; by destruct (tunnel_r a) as [[[] i]|]).
  unfold moves, online. cbn [sent socket configs bases ipip_tunnel_sw_if_index set_clock]. rewrite E1, E2, E3, E4, E5, E6.
  split_all; try done. subst v0. cbn [sent sending set_sent]. rewrite map_app, Hp. cbn [map]. rewrite seen_message.
  subst r. cbn [host]. by rewrite inet_pton_local, htonl_htonl by done.
Qed.

Lemma ipip_bases v :
  ib ≠ 65535 → pb ≠ 65535 →
  IpipTunnel.get_msg_id_bases e v = Some (tt, set_bases (Ids ib pb 0 (__plugin_msg_base (bases v))) v).
Proof.
  intros Hb Hb'. unfold IpipTunnel.get_msg_id_bases. rewrite (st_bind_eq _ _ _ _ _ (plugin_base_run _ _ _ _ Hb)).
  rewrite (st_bind_eq _ _ _ _ _ eq_refl). by rewrite (st_bind_eq _ _ _ _ _ (plugin_base_run _ _ _ _ Hb')).
Qed.

Lemma tunnel_connected :
  connect e "/run/vpp/api.sock" "ipip-tunnel-demo" = Some c → ib ≠ 65535 → pb ≠ 65535 →
  IpipTunnel.connect_to_vpp e "ipip-tunnel-demo" vat0 = Some (0, connected c (Ids ib pb 0 0) tunnel_configs).
Proof.
  intros Hc Hb Hb'. unfold IpipTunnel.connect_to_vpp, IpipTunnel.register_base_handlers.
  rewrite !(st_bind_eq _ _ _ _ _ eq_refl). cbv beta.
  erewrite st_bind_eq by (unfold socket_connect; by rewrite Hc). cbv beta iota.
  by rewrite (st_bind_eq _ _ _ _ _ (ipip_bases _ Hb Hb')).
Qed.

Lemma unless_zero_run m k v r v' :
  m v = Some (r, v') → IpipTunnel.unless_zero m k v = if r =? 0 then k v' else Some (1, v').
Proof. intros Hm. unfold IpipTunnel.unless_zero. rewrite (st_bind_eq _ _ _ _ _ Hm). by destruct (r =? 0). Qed.

Lemma zero_default o : (default (-99) o =? 0) = zero o.
Proof.
  unfold zero. destruct o as [r|]; [|done]. simpl. destruct (Z.eqb_spec r 0) as [->|]; [done|].
  by rewrite bool_decide_false by congruence.
Qed.

(** The interfaces that VPP lists have 32-bit indices. *)
Lemma names_range l m k i :
  Forall (λ p, in_unsigned 32 p.2) l → map_Forall (λ _ i, in_unsigned 32 i) m → names l m !! k = Some i → in_unsigned 32 i.
Proof.
  intros Hl. revert m. induction Hl as [|p l Hp _ IH]; intros m Hm Hi; [by apply (Hm k)|].
  eapply IH; [|exact Hi]. by apply map_Forall_insert_2.
Qed.

(** ** What is asked of VPP, and when *)

Definition bvi1000 : option Z := names (interfaces a) ∅ !! "bvi1000".

Definition configure_requests (d i : Z) : list (Z * request) :=
  (u16 (VL_API_SW_INTERFACE_SET_FLAGS + ib), sw_interface_set_flags i IF_STATUS_API_FLAG_ADMIN_UP) ::
  if zero (flags_r a) then
    (u16 (VL_API_SW_INTERFACE_SET_TABLE + ib), sw_interface_set_table i 0 0) ::
    if zero (table_r a) then
      [(u16 (VL_API_SW_INTERFACE_SET_UNNUMBERED + ib), sw_interface_set_unnumbered d i 1)]
    else []
  else [].

Definition tunnel_requests : list (Z * request) :=
  [(u16 (VL_API_SW_INTERFACE_DUMP + ib), sw_interface_dump 0); (u16 (VL_API_CONTROL_PING + 1), control_ping)] ++
  match (if zero (ping_r a) then bvi1000 else None) with
  | Some d =>
      (u16 (VL_API_IPIP_ADD_TUNNEL + pb),
       ipip_add_tunnel (2 ^ 32 - 1) TUNNEL_API_MODE_MP 0 0 0 ADDRESS_IP4 [192; 168; 0; 1] ADDRESS_IP4 [0; 0; 0; 0]) ::
      match tunnel_r a with Some (0, i) => configure_requests d i | _ => [] end
  | None => []
  end.

(** Every request was answered with 0, and there is an interface [bvi1000]. *)
Definition tunnel_ok : bool :=
  zero (ping_r a) && bool_decide (is_Some bvi1000) && zero (fst <$> tunnel_r a) &&
  zero (flags_r a) && zero (table_r a) && zero (unnumbered_r a).

(** The last three requests, for a tunnel that has been created. *)
Lemma configure_run d i v :
  online v → ipip_tunnel_sw_if_index v = i → in_unsigned 32 i → in_unsigned 32 d →
  ∃ v', (IpipTunnel.unless_zero (IpipTunnel.tunnel ≫= IpipTunnel.set_interface_up e) $
         IpipTunnel.unless_zero (IpipTunnel.tunnel ≫= λ i, IpipTunnel.set_interface_ip_table e i 0) $
         IpipTunnel.unless_zero (IpipTunnel.tunnel ≫= λ i, IpipTunnel.set_interface_unnumbered e i d) $ mret 0) v
    = Some (if zero (flags_r a) && zero (table_r a) && zero (unnumbered_r a) then 0 else 1, v') ∧
    map seen (sent v') = map seen (sent v) ++ configure_requests d i.
Proof.
  intros Hv Ht Hi Hd. pose proof tunnel_handlers as Hh. unfold tunnel_ids in Hh.
  do 2 apply Forall2_cons in Hh as [_ Hh]. apply Forall2_cons in Hh as [[n1 H1] Hh].
  apply Forall2_cons in Hh as [[n2 H2] Hh]. apply Forall2_cons in Hh as [[n3 H3] _].
  destruct Ha as (_ & _ & _ & Hf & Htb & Hu). unfold configure_requests, IpipTunnel.tunnel.
  assert (∀ (f : Z → ST vat Z) w, ((v ← st_get; mret (ipip_tunnel_sw_if_index v)) ≫= f) w = f (ipip_tunnel_sw_if_index w) w)
    as Htun by done.
  destruct (interface_call_run VL_API_SW_INTERFACE_SET_FLAGS (sw_interface_set_flags (htonl i) (htonl IF_STATUS_API_FLAG_ADMIN_UP))
    _ n1 _ _ _ v Hv (λ l j, Hconf _ _) Hf H1) as (v1 & R1 & Hv1 & S1 & T1).
  { intros x w Hx. simpl. unfold set_reply_status. by rewrite i32_wire. }
  rewrite (unless_zero_run _ _ _ (default (-99) (flags_r a)) v1) by (rewrite Htun, Ht; exact R1). rewrite zero_default.
  cbn [host] in S1. rewrite !htonl_htonl in S1 by (done || apply admin_up_range).
  destruct (zero (flags_r a)); [|by exists v1]. cbn [andb].
  destruct (interface_call_run VL_API_SW_INTERFACE_SET_TABLE (sw_interface_set_table (htonl i) 0 (htonl 0))
    _ n2 _ _ _ v1 Hv1 (λ l j, Hconf _ _) Htb H2) as (v2 & R2 & Hv2 & S2 & T2).
  { intros x w Hx. simpl. unfold set_reply_status. by rewrite i32_wire. }
  rewrite (unless_zero_run _ _ _ (default (-99) (table_r a)) v2) by (rewrite Htun, T1, Ht; exact R2). rewrite zero_default.
  cbn [host] in S2. rewrite !htonl_htonl, S1, <- app_assoc in S2 by done.
  destruct (zero (table_r a)); [|by exists v2]. cbn [andb].
  destruct (interface_call_run VL_API_SW_INTERFACE_SET_UNNUMBERED (sw_interface_set_unnumbered (htonl d) (htonl i) 1)
    _ n3 _ _ _ v2 Hv2 (λ l j, Hconf _ _) Hu H3) as (v3 & R3 & _ & S3 & _).
  { intros x w Hx. simpl. unfold set_reply_status. by rewrite i32_wire. }
  rewrite (unless_zero_run _ _ _ (default (-99) (unnumbered_r a)) v3) by (rewrite Htun, T2, T1, Ht; exact R3).
  rewrite zero_default. cbn [host] in S3. rewrite !htonl_htonl, S2, <- app_assoc in S3 by done.
  exists v3. split; [by destruct (zero (unnumbered_r a))|done].
Qed.


End tunnel.

(** Without a connection nothing is sent and the program ends with 1; when VPP was built
    from other message definitions, the first lookup of a base fails the assertion. *)
Theorem ipip_tunnel_refused `{VppApi} e :
  (connect e "/run/vpp/api.sock" "ipip-tunnel-demo" = None →
   ∃ v, IpipTunnel.main e vat0 = Some (1, v) ∧ sent v = []) ∧
  (∀ c, connect e "/run/vpp/api.sock" "ipip-tunnel-demo" = Some c → interface_base e = 65535 →
   IpipTunnel.main e vat0 = None).
Proof.
  split.
  - intros Hc. eexists. unfold IpipTunnel.main, IpipTunnel.unless_zero, IpipTunnel.connect_to_vpp, socket_connect, mbind, st_bind.
    simpl. rewrite Hc. by split.
  - intros c Hc Hb. unfold IpipTunnel.main, IpipTunnel.unless_zero, IpipTunnel.connect_to_vpp, socket_connect, mbind, st_bind.
    simpl. rewrite Hc. simpl. unfold IpipTunnel.get_msg_id_bases, plugin_base, st_assert, mbind, st_bind.
    unfold interface_base in Hb. by rewrite Hb.
Qed.

(** ** Witnesses *)

(** An installation with the numbers of [vpp_msg.md], and a server with two interfaces. *)
#[export] Instance demo_api : VppApi := {
  VL_API_GET_FIRST_MSG_ID_REPLY := 10; VL_API_CONTROL_PING := 22; VL_API_CONTROL_PING_REPLY := 23;
  VL_MSG_MEMCLNT_LAST := 28; VL_API_SW_INTERFACE_DUMP := 2; VL_API_SW_INTERFACE_DETAILS := 3;
  VL_API_SW_INTERFACE_SET_FLAGS := 0; VL_API_SW_INTERFACE_SET_FLAGS_REPLY := 1;
  VL_API_SW_INTERFACE_SET_TABLE := 8; VL_API_SW_INTERFACE_SET_TABLE_REPLY := 9;
  VL_API_SW_INTERFACE_SET_UNNUMBERED := 12; VL_API_SW_INTERFACE_SET_UNNUMBERED_REPLY := 13;
  VL_API_IPIP_ADD_TUNNEL := 0; VL_API_IPIP_ADD_TUNNEL_REPLY := 1;
  TUNNEL_API_MODE_MP := 1; ADDRESS_IP4 := 0; IF_STATUS_API_FLAG_ADMIN_UP := 1;
  interface_api_version := 0xf29d6f21; ipip_api_version := 0x12345678;
  endian := swap_fields; endian_swaps := λ _, eq_refl;
  hash_pairs := map_to_list; hash_pairs_perm := λ _, Permutation_refl _;
  inet_pton _ := Some [192; 168; 0; 1]; inet_pton_local := eq_refl;
  admin_up_range := conj (Zle_0_pos 1) eq_refl
}.

Definition demo_answers : answers :=
  Answers [("local0", 0); ("bvi1000", 5)] (Some 0) (Some (0, 9)) (Some 0) (Some 0) (Some (-5)).
Definition demo_env : env :=
  Env (λ _ _, Some 7)
    (λ n, if String.eqb n "interface_f29d6f21" then 200 else 300)
    (λ l, match last l with Some m => answer 200 300 demo_answers (payload m) | None => [] end)
    (λ k, 1000 * Z.of_nat k).

Lemma demo_monotone : monotone demo_env.
Proof. intros k. cbn [clib_time demo_env]. lia. Qed.
Lemma demo_prompt : prompt demo_env.
Proof. intros k. cbn [clib_time demo_env]. lia. Qed.
Lemma demo_answers_ok : answers_ok demo_answers.
Proof. unfold answers_ok, in_range, in_unsigned, in_signed. simpl. split_all; try lia. repeat constructor; simpl; lia. Qed.
Lemma demo_bases : interface_base demo_env = 200 ∧ ipip_base demo_env = 300.
Proof. by vm_compute. Qed.
Lemma demo_conforms : conforms (interface_base demo_env) (ipip_base demo_env) demo_answers demo_env.
Proof. destruct demo_bases as [-> ->]. intros l m. cbn [peer demo_env]. by rewrite last_snoc. Qed.



(** The listing programs on the same server. *)
Lemma listing_witness :
  ∃ v1 v2, ClientConnect.main demo_env vat0 = Some (0, v1) ∧ ListInterfaces.main demo_env vat0 = Some (0, v2) ∧
    lines v1 = lines v2.
Proof.
  destruct (listing_programs_agree demo_env demo_answers (ipip_base demo_env) demo_monotone demo_prompt demo_answers_ok)
    with (c1 := 7) (c2 := 7) as (v1 & v2 & H1 & H2 & _ & _ & _ & Hl & _);
    [by_computation|unfold client_ids; by_computation|exact demo_conforms|reflexivity|reflexivity|].
  exists v1, v2. by split_all.
Defined.
