(* ===== verification/SaiVpp.v ===== *)
(** The SAI adapter of the VPP data plane: [src/VPP/sai_vpp.cpp].

    The file exposes the C function tables of the Switch Abstraction Interface
    and forwards every entry to one C++ object, [stub], of the interface
    [sairedis::SaiInterface].  That class, the SAI headers (enumerators, status
    codes) and the logger are not in the repository: [stub] is a parameter that
    maps a request ([call], one constructor per method and overload) and the
    state of the world to a result and a new state, the enumerators and status
    codes are parameters too.  Pointers, object ids, counts and enumerators are
    integers; an object type is named by its enumerator without the
    [SAI_OBJECT_TYPE_] prefix, an overload taking an entry by the entry's C type
    without [sai_] and [_t].  There is one definition per C function and one per
    table, in the order of the file; [sai_api_query] selects a table. *)

From S2P Require Import Prelude.

Local Open Scope Z_scope.

(** The requests made to [sairedis::SaiInterface]: the methods on objects, their
    overloads on entries, and the others. *)
Inductive call : Type :=
| create (ot : string) (oid switch_id attr_count attr_list : Z)
| create_e (et : string) (entry attr_count attr_list : Z)
| remove (ot : string) (oid : Z)
| remove_e (et : string) (entry : Z)
| set (ot : string) (oid attr : Z)
| set_e (et : string) (entry attr : Z)
| get (ot : string) (oid attr_count attr_list : Z)
| get_e (et : string) (entry attr_count attr_list : Z)
| getStats (ot : string) (oid number_of_counters counter_ids counters : Z)
| getStats_e (et : string) (entry number_of_counters counter_ids counters : Z)
| getStatsExt (ot : string) (oid number_of_counters counter_ids mode counters : Z)
| getStatsExt_e (et : string) (entry number_of_counters counter_ids mode counters : Z)
| clearStats (ot : string) (oid number_of_counters counter_ids : Z)
| clearStats_e (et : string) (entry number_of_counters counter_ids : Z)
| bulkCreate (ot : string) (switch_id object_count attr_count attr_list mode object_id object_statuses : Z)
| bulkCreate_e (et : string) (object_count entry attr_count attr_list mode object_statuses : Z)
| bulkRemove (ot : string) (object_count object_id mode object_statuses : Z)
| bulkRemove_e (et : string) (object_count entry mode object_statuses : Z)
| bulkSet (ot : string) (object_count object_id attr_list mode object_statuses : Z)
| bulkSet_e (et : string) (object_count entry attr_list mode object_statuses : Z)
| bulkGet (ot : string) (object_count object_id attr_count attr_list mode object_statuses : Z)
| bulkGet_e (et : string) (object_count entry attr_count attr_list mode object_statuses : Z)
| flushFdbEntries (switch_id attr_count attr_list : Z)
| switchMdioRead (switch_id device_addr start_reg_addr number_of_registers reg_val : Z)
| switchMdioWrite (switch_id device_addr start_reg_addr number_of_registers reg_val : Z)
| switchMdioCl22Read (switch_id device_addr start_reg_addr number_of_registers reg_val : Z)
| switchMdioCl22Write (switch_id device_addr start_reg_addr number_of_registers reg_val : Z)
| switchIdQuery (object_id : Z)
| objectTypeQuery (object_id : Z)
| apiInitialize (flags services : Z)
| apiUninitialize
| logSet (api log_level : Z)
| objectTypeGetAvailability (switch_id object_type attr_count attr_list count : Z)
| queryApiVersion (version : Z)
| queryAttributeCapability (switch_id object_type attr_id attr_capability : Z)
| queryAttributeEnumValuesCapability (switch_id object_type attr_id enum_values_capability : Z)
| queryStatsCapability (switch_id object_type stats_capability : Z)
| queryStatsStCapability (switch_id object_type stats_capability : Z).

Section adapter.
(** The state of the world behind [stub], caller's memory included. *)
Context {W : Type}.
Context (stub : call → W → Z * W).
Context (SAI_NULL_OBJECT_ID SAI_STATUS_SUCCESS SAI_STATUS_NOT_IMPLEMENTED
         SAI_STATUS_INVALID_PARAMETER : Z).
(** [SAI_API_<name>] *)
Context (SAI_API : string → Z).

(** A C function of the tables, by its number of parameters. *)
Inductive slot : Type :=
| F1 (f : Z → W → Z * W)
| F2 (f : Z → Z → W → Z * W)
| F3 (f : Z → Z → Z → W → Z * W)
| F4 (f : Z → Z → Z → Z → W → Z * W)
| F5 (f : Z → Z → Z → Z → Z → W → Z * W)
| F6 (f : Z → Z → Z → Z → Z → Z → W → Z * W)
| F7 (f : Z → Z → Z → Z → Z → Z → Z → W → Z * W).

(** A table of function pointers: the designated initialisers, in order. *)
Definition api_table : Type := list (string * slot).

(** [return SAI_STATUS_NOT_IMPLEMENTED] after logging an error. *)
Definition not_implemented : W → Z * W := λ w, (SAI_STATUS_NOT_IMPLEMENTED, w).

Definition stub_create_switch (switch_id attr_count attr_list : Z) : W → Z * W :=
  stub (create "SWITCH" switch_id SAI_NULL_OBJECT_ID attr_count attr_list).
Definition stub_remove_switch (switch_id : Z) : W → Z * W := stub (remove "SWITCH" switch_id).
Definition stub_set_switch_attribute (switch_id attr : Z) : W → Z * W := stub (set "SWITCH" switch_id attr).
Definition stub_get_switch_attribute (switch_id attr_count attr_list : Z) : W → Z * W :=
  stub (get "SWITCH" switch_id attr_count attr_list).
Definition stub_get_switch_stats (switch_id number_of_counters counter_ids counters : Z) : W → Z * W :=
  stub (getStats "SWITCH" switch_id number_of_counters counter_ids counters).
Definition stub_get_switch_stats_ext (switch_id number_of_counters counter_ids mode counters : Z) : W → Z * W :=
  stub (getStatsExt "SWITCH" switch_id number_of_counters counter_ids mode counters).
Definition stub_clear_switch_stats (switch_id number_of_counters counter_ids : Z) : W → Z * W :=
  stub (clearStats "SWITCH" switch_id number_of_counters counter_ids).
Definition stub_switch_mdio_read (switch_id device_addr start_reg_addr number_of_registers reg_val : Z) : W → Z * W :=
  stub (switchMdioRead switch_id device_addr start_reg_addr number_of_registers reg_val).
Definition stub_switch_mdio_write (switch_id device_addr start_reg_addr number_of_registers reg_val : Z) : W → Z * W :=
  stub (switchMdioWrite switch_id device_addr start_reg_addr number_of_registers reg_val).
Definition stub_create_switch_tunnel (switch_tunnel_id switch_id attr_count attr_list : Z) : W → Z * W :=
  stub (create "SWITCH_TUNNEL" switch_tunnel_id switch_id attr_count attr_list).
Definition stub_remove_switch_tunnel (switch_tunnel_id : Z) : W → Z * W :=
  stub (remove "SWITCH_TUNNEL" switch_tunnel_id).
Definition stub_set_switch_tunnel_attribute (switch_tunnel_id attr : Z) : W → Z * W :=
  stub (set "SWITCH_TUNNEL" switch_tunnel_id attr).
Definition stub_get_switch_tunnel_attribute (switch_tunnel_id attr_count attr_list : Z) : W → Z * W :=
  stub (get "SWITCH_TUNNEL" switch_tunnel_id attr_count attr_list).
Definition stub_switch_mdio_cl22_read (switch_id device_addr start_reg_addr number_of_registers reg_val : Z) : W → Z * W :=
  stub (switchMdioCl22Read switch_id device_addr start_reg_addr number_of_registers reg_val).
Definition stub_switch_mdio_cl22_write (switch_id device_addr start_reg_addr number_of_registers reg_val : Z) : W → Z * W :=
  stub (switchMdioCl22Write switch_id device_addr start_reg_addr number_of_registers reg_val).

Definition stub_switch : api_table := [
  ("create_switch", F3 stub_create_switch);
  ("remove_switch", F1 stub_remove_switch);
  ("set_switch_attribute", F2 stub_set_switch_attribute);
  ("get_switch_attribute", F3 stub_get_switch_attribute);
  ("get_switch_stats", F4 stub_get_switch_stats);
  ("get_switch_stats_ext", F5 stub_get_switch_stats_ext);
  ("clear_switch_stats", F3 stub_clear_switch_stats);
  ("switch_mdio_read", F5 stub_switch_mdio_read);
  ("switch_mdio_write", F5 stub_switch_mdio_write);
  ("create_switch_tunnel", F4 stub_create_switch_tunnel);
  ("remove_switch_tunnel", F1 stub_remove_switch_tunnel);
  ("set_switch_tunnel_attribute", F2 stub_set_switch_tunnel_attribute);
  ("get_switch_tunnel_attribute", F3 stub_get_switch_tunnel_attribute);
  ("switch_mdio_cl22_read", F5 stub_switch_mdio_cl22_read);
  ("switch_mdio_cl22_write", F5 stub_switch_mdio_cl22_write)].

Definition stub_create_port (port_id switch_id attr_count attr_list : Z) : W → Z * W :=
  stub (create "PORT" port_id switch_id attr_count attr_list).
Definition stub_remove_port (port_id : Z) : W → Z * W := stub (remove "PORT" port_id).
Definition stub_set_port_attribute (port_id attr : Z) : W → Z * W := stub (set "PORT" port_id attr).
Definition stub_get_port_attribute (port_id attr_count attr_list : Z) : W → Z * W :=
  stub (get "PORT" port_id attr_count attr_list).
Definition stub_get_port_stats (port_id number_of_counters counter_ids counters : Z) : W → Z * W :=
  stub (getStats "PORT" port_id number_of_counters counter_ids counters).
Definition stub_get_port_stats_ext (port_id number_of_counters counter_ids mode counters : Z) : W → Z * W :=
  stub (getStatsExt "PORT" port_id number_of_counters counter_ids mode counters).
Definition stub_clear_port_stats (port_id number_of_counters counter_ids : Z) : W → Z * W :=
  stub (clearStats "PORT" port_id number_of_counters counter_ids).
Definition stub_clear_port_all_stats (port_id : Z) : W → Z * W := not_implemented.
Definition stub_create_port_pool (port_pool_id switch_id attr_count attr_list : Z) : W → Z * W :=
  stub (create "PORT_POOL" port_pool_id switch_id attr_count attr_list).
Definition stub_remove_port_pool (port_pool_id : Z) : W → Z * W := stub (remove "PORT_POOL" port_pool_id).
Definition stub_set_port_pool_attribute (port_pool_id attr : Z) : W → Z * W :=
  stub (set "PORT_POOL" port_pool_id attr).
Definition stub_get_port_pool_attribute (port_pool_id attr_count attr_list : Z) : W → Z * W :=
  stub (get "PORT_POOL" port_pool_id attr_count attr_list).
Definition stub_get_port_pool_stats (port_pool_id number_of_counters counter_ids counters : Z) : W → Z * W :=
  stub (getStats "PORT_POOL" port_pool_id number_of_counters counter_ids counters).
Definition stub_get_port_pool_stats_ext (port_pool_id number_of_counters counter_ids mode counters : Z) : W → Z * W :=
  stub (getStatsExt "PORT_POOL" port_pool_id number_of_counters counter_ids mode counters).
Definition stub_clear_port_pool_stats (port_pool_id number_of_counters counter_ids : Z) : W → Z * W :=
  stub (clearStats "PORT_POOL" port_pool_id number_of_counters counter_ids).
Definition stub_create_port_connector (port_connector_id switch_id attr_count attr_list : Z) : W → Z * W :=
  stub (create "PORT_CONNECTOR" port_connector_id switch_id attr_count attr_list).
Definition stub_remove_port_connector (port_connector_id : Z) : W → Z * W :=
  stub (remove "PORT_CONNECTOR" port_connector_id).
Definition stub_set_port_connector_attribute (port_connector_id attr : Z) : W → Z * W :=
  stub (set "PORT_CONNECTOR" port_connector_id attr).
Definition stub_get_port_connector_attribute (port_connector_id attr_count attr_list : Z) : W → Z * W :=
  stub (get "PORT_CONNECTOR" port_connector_id attr_count attr_list).
Definition stub_create_port_serdes (port_serdes_id switch_id attr_count attr_list : Z) : W → Z * W :=
  stub (create "PORT_SERDES" port_serdes_id switch_id attr_count attr_list).
Definition stub_remove_port_serdes (port_serdes_id : Z) : W → Z * W :=
  stub (remove "PORT_SERDES" port_serdes_id).
Definition stub_set_port_serdes_attribute (port_serdes_id attr : Z) : W → Z * W :=
  stub (set "PORT_SERDES" port_serdes_id attr).
Definition stub_get_port_serdes_attribute (port_serdes_id attr_count attr_list : Z) : W → Z * W :=
  stub (get "PORT_SERDES" port_serdes_id attr_count attr_list).
Definition stub_create_ports (switch_id object_count attr_count attr_list mode object_id object_statuses : Z) : W → Z * W :=
  stub (bulkCreate "PORT" switch_id object_count attr_count attr_list mode object_id object_statuses).
Definition stub_remove_ports (object_count object_id mode object_statuses : Z) : W → Z * W :=
  stub (bulkRemove "PORT" object_count object_id mode object_statuses).
Definition stub_set_ports_attribute (object_count object_id attr_list mode object_statuses : Z) : W → Z * W :=
  stub (bulkSet "PORT" object_count object_id attr_list mode object_statuses).
Definition stub_get_ports_attribute (object_count object_id attr_count attr_list mode object_statuses : Z) : W → Z * W :=
  stub (bulkGet "PORT" object_count object_id attr_count attr_list mode object_statuses).
Definition stub_create_port_serdess (switch_id object_count attr_count attr_list mode object_id object_statuses : Z) : W → Z * W :=
  stub (bulkCreate "PORT_SERDES" switch_id object_count attr_count attr_list mode object_id object_statuses).
Definition stub_remove_port_serdess (object_count object_id mode object_statuses : Z) : W → Z * W :=
  stub (bulkRemove "PORT_SERDES" object_count object_id mode object_statuses).
Definition stub_set_port_serdess_attribute (object_count object_id attr_list mode object_statuses : Z) : W → Z * W :=
  stub (bulkSet "PORT_SERDES" object_count object_id attr_list mode object_statuses).
Definition stub_get_port_serdess_attribute (object_count object_id attr_count attr_list mode object_statuses : Z) : W → Z * W :=
  stub (bulkGet "PORT_SERDES" object_count object_id attr_count attr_list mode object_statuses).
Definition stub_create_port_llr_profile (port_llr_profile_id switch_id attr_count attr_list : Z) : W → Z * W :=
  stub (create "PORT_LLR_PROFILE" port_llr_profile_id switch_id attr_count attr_list).
Definition stub_remove_port_llr_profile (port_llr_profile_id : Z) : W → Z * W :=
  stub (remove "PORT_LLR_PROFILE" port_llr_profile_id).
Definition stub_set_port_llr_profile_attribute (port_llr_profile_id attr : Z) : W → Z * W :=
  stub (set "PORT_LLR_PROFILE" port_llr_profile_id attr).
Definition stub_get_port_llr_profile_attribute (port_llr_profile_id attr_count attr_list : Z) : W → Z * W :=
  stub (get "PORT_LLR_PROFILE" port_llr_profile_id attr_count attr_list).

Definition stub_port : api_table := [
  ("create_port", F4 stub_create_port);
  ("remove_port", F1 stub_remove_port);
  ("set_port_attribute", F2 stub_set_port_attribute);
  ("get_port_attribute", F3 stub_get_port_attribute);
  ("get_port_stats", F4 stub_get_port_stats);
  ("get_port_stats_ext", F5 stub_get_port_stats_ext);
  ("clear_port_stats", F3 stub_clear_port_stats);
  ("clear_port_all_stats", F1 stub_clear_port_all_stats);
  ("create_port_pool", F4 stub_create_port_pool);
  ("remove_port_pool", F1 stub_remove_port_pool);
  ("set_port_pool_attribute", F2 stub_set_port_pool_attribute);
  ("get_port_pool_attribute", F3 stub_get_port_pool_attribute);
  ("get_port_pool_stats", F4 stub_get_port_pool_stats);
  ("get_port_pool_stats_ext", F5 stub_get_port_pool_stats_ext);
  ("clear_port_pool_stats", F3 stub_clear_port_pool_stats);
  ("create_port_connector", F4 stub_create_port_connector);
  ("remove_port_connector", F1 stub_remove_port_connector);
  ("set_port_connector_attribute", F2 stub_set_port_connector_attribute);
  ("get_port_connector_attribute", F3 stub_get_port_connector_attribute);
  ("create_port_serdes", F4 stub_create_port_serdes);
  ("remove_port_serdes", F1 stub_remove_port_serdes);
  ("set_port_serdes_attribute", F2 stub_set_port_serdes_attribute);
  ("get_port_serdes_attribute", F3 stub_get_port_serdes_attribute);
  ("create_ports", F7 stub_create_ports);
  ("remove_ports", F4 stub_remove_ports);
  ("set_ports_attribute", F5 stub_set_ports_attribute);
  ("get_ports_attribute", F6 stub_get_ports_attribute);
  ("create_port_serdess", F7 stub_create_port_serdess);
  ("remove_port_serdess", F4 stub_remove_port_serdess);
  ("set_port_serdess_attribute", F5 stub_set_port_serdess_attribute);
  ("get_port_serdess_attribute", F6 stub_get_port_serdess_attribute);
  ("create_port_llr_profile", F4 stub_create_port_llr_profile);
  ("remove_port_llr_profile", F1 stub_remove_port_llr_profile);
  ("set_port_llr_profile_attribute", F2 stub_set_port_llr_profile_attribute);
  ("get_port_llr_profile_attribute", F3 stub_get_port_llr_profile_attribute)].

Definition stub_create_fdb_entry (fdb_entry attr_count attr_list : Z) : W → Z * W :=
  stub (create_e "fdb_entry" fdb_entry attr_count attr_list).
Definition stub_remove_fdb_entry (fdb_entry : Z) : W → Z * W := stub (remove_e "fdb_entry" fdb_entry).
Definition stub_set_fdb_entry_attribute (fdb_entry attr : Z) : W → Z * W :=
  stub (set_e "fdb_entry" fdb_entry attr).
Definition stub_get_fdb_entry_attribute (fdb_entry attr_count attr_list : Z) : W → Z * W :=
  stub (get_e "fdb_entry" fdb_entry attr_count attr_list).
Definition stub_flush_fdb_entries (switch_id attr_count attr_list : Z) : W → Z * W :=
  stub (flushFdbEntries switch_id attr_count attr_list).
Definition stub_create_fdb_entries (object_count fdb_entry attr_count attr_list mode object_statuses : Z) : W → Z * W :=
  stub (bulkCreate_e "fdb_entry" object_count fdb_entry attr_count attr_list mode object_statuses).
Definition stub_remove_fdb_entries (object_count fdb_entry mode object_statuses : Z) : W → Z * W :=
  stub (bulkRemove_e "fdb_entry" object_count fdb_entry mode object_statuses).
Definition stub_set_fdb_entries_attribute (object_count fdb_entry attr_list mode object_statuses : Z) : W → Z * W :=
  stub (bulkSet_e "fdb_entry" object_count fdb_entry attr_list mode object_statuses).
Definition stub_get_fdb_entries_attribute (object_count fdb_entry attr_count attr_list mode object_statuses : Z) : W → Z * W :=
  stub (bulkGet_e "fdb_entry" object_count fdb_entry attr_count attr_list mode object_statuses).

Definition stub_fdb : api_table := [
  ("create_fdb_entry", F3 stub_create_fdb_entry);
  ("remove_fdb_entry", F1 stub_remove_fdb_entry);
  ("set_fdb_entry_attribute", F2 stub_set_fdb_entry_attribute);
  ("get_fdb_entry_attribute", F3 stub_get_fdb_entry_attribute);
  ("flush_fdb_entries", F3 stub_flush_fdb_entries);
  ("create_fdb_entries", F6 stub_create_fdb_entries);
  ("remove_fdb_entries", F4 stub_remove_fdb_entries);
  ("set_fdb_entries_attribute", F5 stub_set_fdb_entries_attribute);
  ("get_fdb_entries_attribute", F6 stub_get_fdb_entries_attribute)].

Definition stub_create_vlan (vlan_id switch_id attr_count attr_list : Z) : W → Z * W :=
  stub (create "VLAN" vlan_id switch_id attr_count attr_list).
Definition stub_remove_vlan (vlan_id : Z) : W → Z * W := stub (remove "VLAN" vlan_id).
Definition stub_set_vlan_attribute (vlan_id attr : Z) : W → Z * W := stub (set "VLAN" vlan_id attr).
Definition stub_get_vlan_attribute (vlan_id attr_count attr_list : Z) : W → Z * W :=
  stub (get "VLAN" vlan_id attr_count attr_list).
Definition stub_create_vlan_member (vlan_member_id switch_id attr_count attr_list : Z) : W → Z * W :=
  stub (create "VLAN_MEMBER" vlan_member_id switch_id attr_count attr_list).
Definition stub_remove_vlan_member (vlan_member_id : Z) : W → Z * W :=
  stub (remove "VLAN_MEMBER" vlan_member_id).
Definition stub_set_vlan_member_attribute (vlan_member_id attr : Z) : W → Z * W :=
  stub (set "VLAN_MEMBER" vlan_member_id attr).
Definition stub_get_vlan_member_attribute (vlan_member_id attr_count attr_list : Z) : W → Z * W :=
  stub (get "VLAN_MEMBER" vlan_member_id attr_count attr_list).
Definition stub_create_vlan_members (switch_id object_count attr_count attr_list mode object_id object_statuses : Z) : W → Z * W :=
  stub (bulkCreate "VLAN_MEMBER" switch_id object_count attr_count attr_list mode object_id object_statuses).
Definition stub_remove_vlan_members (object_count object_id mode object_statuses : Z) : W → Z * W :=
  stub (bulkRemove "VLAN_MEMBER" object_count object_id mode object_statuses).
Definition stub_get_vlan_stats (vlan_id number_of_counters counter_ids counters : Z) : W → Z * W :=
  stub (getStats "VLAN" vlan_id number_of_counters counter_ids counters).
Definition stub_get_vlan_stats_ext (vlan_id number_of_counters counter_ids mode counters : Z) : W → Z * W :=
  stub (getStatsExt "VLAN" vlan_id number_of_counters counter_ids mode counters).
Definition stub_clear_vlan_stats (vlan_id number_of_counters counter_ids : Z) : W → Z * W :=
  stub (clearStats "VLAN" vlan_id number_of_counters counter_ids).

Definition stub_vlan : api_table := [
  ("create_vlan", F4 stub_create_vlan);
  ("remove_vlan", F1 stub_remove_vlan);
  ("set_vlan_attribute", F2 stub_set_vlan_attribute);
  ("get_vlan_attribute", F3 stub_get_vlan_attribute);
  ("create_vlan_member", F4 stub_create_vlan_member);
  ("remove_vlan_member", F1 stub_remove_vlan_member);
  ("set_vlan_member_attribute", F2 stub_set_vlan_member_attribute);
  ("get_vlan_member_attribute", F3 stub_get_vlan_member_attribute);
  ("create_vlan_members", F7 stub_create_vlan_members);
  ("remove_vlan_members", F4 stub_remove_vlan_members);
  ("get_vlan_stats", F4 stub_get_vlan_stats);
  ("get_vlan_stats_ext", F5 stub_get_vlan_stats_ext);
  ("clear_vlan_stats", F3 stub_clear_vlan_stats)].

Definition stub_create_virtual_router (virtual_router_id switch_id attr_count attr_list : Z) : W → Z * W :=
  stub (create "VIRTUAL_ROUTER" virtual_router_id switch_id attr_count attr_list).
Definition stub_remove_virtual_router (virtual_router_id : Z) : W → Z * W :=
  stub (remove "VIRTUAL_ROUTER" virtual_router_id).
Definition stub_set_virtual_router_attribute (virtual_router_id attr : Z) : W → Z * W :=
  stub (set "VIRTUAL_ROUTER" virtual_router_id attr).
Definition stub_get_virtual_router_attribute (virtual_router_id attr_count attr_list : Z) : W → Z * W :=
  stub (get "VIRTUAL_ROUTER" virtual_router_id attr_count attr_list).

Definition stub_virtual_router : api_table := [
  ("create_virtual_router", F4 stub_create_virtual_router);
  ("remove_virtual_router", F1 stub_remove_virtual_router);
  ("set_virtual_router_attribute", F2 stub_set_virtual_router_attribute);
  ("get_virtual_router_attribute", F3 stub_get_virtual_router_attribute)].

Definition stub_create_route_entry (route_entry attr_count attr_list : Z) : W → Z * W :=
  stub (create_e "route_entry" route_entry attr_count attr_list).
Definition stub_remove_route_entry (route_entry : Z) : W → Z * W :=
  stub (remove_e "route_entry" route_entry).
Definition stub_set_route_entry_attribute (route_entry attr : Z) : W → Z * W :=
  stub (set_e "route_entry" route_entry attr).
Definition stub_get_route_entry_attribute (route_entry attr_count attr_list : Z) : W → Z * W :=
  stub (get_e "route_entry" route_entry attr_count attr_list).
Definition stub_create_route_entries (object_count route_entry attr_count attr_list mode object_statuses : Z) : W → Z * W :=
  stub (bulkCreate_e "route_entry" object_count route_entry attr_count attr_list mode object_statuses).
Definition stub_remove_route_entries (object_count route_entry mode object_statuses : Z) : W → Z * W :=
  stub (bulkRemove_e "route_entry" object_count route_entry mode object_statuses).
Definition stub_set_route_entries_attribute (object_count route_entry attr_list mode object_statuses : Z) : W → Z * W :=
  stub (bulkSet_e "route_entry" object_count route_entry attr_list mode object_statuses).
Definition stub_get_route_entries_attribute (object_count route_entry attr_count attr_list mode object_statuses : Z) : W → Z * W :=
  stub (bulkGet_e "route_entry" object_count route_entry attr_count attr_list mode object_statuses).

Definition stub_route : api_table := [
  ("create_route_entry", F3 stub_create_route_entry);
  ("remove_route_entry", F1 stub_remove_route_entry);
  ("set_route_entry_attribute", F2 stub_set_route_entry_attribute);
  ("get_route_entry_attribute", F3 stub_get_route_entry_attribute);
  ("create_route_entries", F6 stub_create_route_entries);
  ("remove_route_entries", F4 stub_remove_route_entries);
  ("set_route_entries_attribute", F5 stub_set_route_entries_attribute);
  ("get_route_entries_attribute", F6 stub_get_route_entries_attribute)].

Definition stub_create_next_hop (next_hop_id switch_id attr_count attr_list : Z) : W → Z * W :=
  stub (create "NEXT_HOP" next_hop_id switch_id attr_count attr_list).
Definition stub_remove_next_hop (next_hop_id : Z) : W → Z * W := stub (remove "NEXT_HOP" next_hop_id).
Definition stub_set_next_hop_attribute (next_hop_id attr : Z) : W → Z * W :=
  stub (set "NEXT_HOP" next_hop_id attr).
Definition stub_get_next_hop_attribute (next_hop_id attr_count attr_list : Z) : W → Z * W :=
  stub (get "NEXT_HOP" next_hop_id attr_count attr_list).
Definition stub_create_next_hops (switch_id object_count attr_count attr_list mode object_id object_statuses : Z) : W → Z * W :=
  stub (bulkCreate "NEXT_HOP" switch_id object_count attr_count attr_list mode object_id object_statuses).
Definition stub_remove_next_hops (object_count object_id mode object_statuses : Z) : W → Z * W :=
  stub (bulkRemove "NEXT_HOP" object_count object_id mode object_statuses).
Definition stub_set_next_hops_attribute (object_count object_id attr_list mode object_statuses : Z) : W → Z * W :=
  stub (bulkSet "NEXT_HOP" object_count object_id attr_list mode object_statuses).
Definition stub_get_next_hops_attribute (object_count object_id attr_count attr_list mode object_statuses : Z) : W → Z * W :=
  stub (bulkGet "NEXT_HOP" object_count object_id attr_count attr_list mode object_statuses).

Definition stub_next_hop : api_table := [
  ("create_next_hop", F4 stub_create_next_hop);
  ("remove_next_hop", F1 stub_remove_next_hop);
  ("set_next_hop_attribute", F2 stub_set_next_hop_attribute);
  ("get_next_hop_attribute", F3 stub_get_next_hop_attribute);
  ("create_next_hops", F7 stub_create_next_hops);
  ("remove_next_hops", F4 stub_remove_next_hops);
  ("set_next_hops_attribute", F5 stub_set_next_hops_attribute);
  ("get_next_hops_attribute", F6 stub_get_next_hops_attribute)].

Definition stub_create_next_hop_group (next_hop_group_id switch_id attr_count attr_list : Z) : W → Z * W :=
  stub (create "NEXT_HOP_GROUP" next_hop_group_id switch_id attr_count attr_list).
Definition stub_remove_next_hop_group (next_hop_group_id : Z) : W → Z * W :=
  stub (remove "NEXT_HOP_GROUP" next_hop_group_id).
Definition stub_set_next_hop_group_attribute (next_hop_group_id attr : Z) : W → Z * W :=
  stub (set "NEXT_HOP_GROUP" next_hop_group_id attr).
Definition stub_get_next_hop_group_attribute (next_hop_group_id attr_count attr_list : Z) : W → Z * W :=
  stub (get "NEXT_HOP_GROUP" next_hop_group_id attr_count attr_list).
Definition stub_create_next_hop_group_member (next_hop_group_member_id switch_id attr_count attr_list : Z) : W → Z * W :=
  stub (create "NEXT_HOP_GROUP_MEMBER" next_hop_group_member_id switch_id attr_count attr_list).
Definition stub_remove_next_hop_group_member (next_hop_group_member_id : Z) : W → Z * W :=
  stub (remove "NEXT_HOP_GROUP_MEMBER" next_hop_group_member_id).
Definition stub_set_next_hop_group_member_attribute (next_hop_group_member_id attr : Z) : W → Z * W :=
  stub (set "NEXT_HOP_GROUP_MEMBER" next_hop_group_member_id attr).
Definition stub_get_next_hop_group_member_attribute (next_hop_group_member_id attr_count attr_list : Z) : W → Z * W :=
  stub (get "NEXT_HOP_GROUP_MEMBER" next_hop_group_member_id attr_count attr_list).
Definition stub_create_next_hop_group_members (switch_id object_count attr_count attr_list mode object_id object_statuses : Z) : W → Z * W :=
  stub (bulkCreate "NEXT_HOP_GROUP_MEMBER" switch_id object_count attr_count attr_list mode object_id object_statuses).
Definition stub_remove_next_hop_group_members (object_count object_id mode object_statuses : Z) : W → Z * W :=
  stub (bulkRemove "NEXT_HOP_GROUP_MEMBER" object_count object_id mode object_statuses).
Definition stub_create_next_hop_group_map (next_hop_group_map_id switch_id attr_count attr_list : Z) : W → Z * W :=
  stub (create "NEXT_HOP_GROUP_MAP" next_hop_group_map_id switch_id attr_count attr_list).
Definition stub_remove_next_hop_group_map (next_hop_group_map_id : Z) : W → Z * W :=
  stub (remove "NEXT_HOP_GROUP_MAP" next_hop_group_map_id).
Definition stub_set_next_hop_group_map_attribute (next_hop_group_map_id attr : Z) : W → Z * W :=
  stub (set "NEXT_HOP_GROUP_MAP" next_hop_group_map_id attr).
Definition stub_get_next_hop_group_map_attribute (next_hop_group_map_id attr_count attr_list : Z) : W → Z * W :=
  stub (get "NEXT_HOP_GROUP_MAP" next_hop_group_map_id attr_count attr_list).
Definition stub_set_next_hop_group_members_attribute (object_count object_id attr_list mode object_statuses : Z) : W → Z * W :=
  stub (bulkSet "NEXT_HOP_GROUP_MEMBER" object_count object_id attr_list mode object_statuses).
Definition stub_get_next_hop_group_members_attribute (object_count object_id attr_count attr_list mode object_statuses : Z) : W → Z * W :=
  stub (bulkGet "NEXT_HOP_GROUP_MEMBER" object_count object_id attr_count attr_list mode object_statuses).
Definition stub_create_next_hop_groups (switch_id object_count attr_count attr_list mode object_id object_statuses : Z) : W → Z * W :=
  stub (bulkCreate "NEXT_HOP_GROUP" switch_id object_count attr_count attr_list mode object_id object_statuses).
Definition stub_remove_next_hop_groups (object_count object_id mode object_statuses : Z) : W → Z * W :=
  stub (bulkRemove "NEXT_HOP_GROUP" object_count object_id mode object_statuses).
Definition stub_set_next_hop_groups_attribute (object_count object_id attr_list mode object_statuses : Z) : W → Z * W :=
  stub (bulkSet "NEXT_HOP_GROUP" object_count object_id attr_list mode object_statuses).
Definition stub_get_next_hop_groups_attribute (object_count object_id attr_count attr_list mode object_statuses : Z) : W → Z * W :=
  stub (bulkGet "NEXT_HOP_GROUP" object_count object_id attr_count attr_list mode object_statuses).

Definition stub_next_hop_group : api_table := [
  ("create_next_hop_group", F4 stub_create_next_hop_group);
  ("remove_next_hop_group", F1 stub_remove_next_hop_group);
  ("set_next_hop_group_attribute", F2 stub_set_next_hop_group_attribute);
  ("get_next_hop_group_attribute", F3 stub_get_next_hop_group_attribute);
  ("create_next_hop_group_member", F4 stub_create_next_hop_group_member);
  ("remove_next_hop_group_member", F1 stub_remove_next_hop_group_member);
  ("set_next_hop_group_member_attribute", F2 stub_set_next_hop_group_member_attribute);
  ("get_next_hop_group_member_attribute", F3 stub_get_next_hop_group_member_attribute);
  ("create_next_hop_group_members", F7 stub_create_next_hop_group_members);
  ("remove_next_hop_group_members", F4 stub_remove_next_hop_group_members);
  ("create_next_hop_group_map", F4 stub_create_next_hop_group_map);
  ("remove_next_hop_group_map", F1 stub_remove_next_hop_group_map);
  ("set_next_hop_group_map_attribute", F2 stub_set_next_hop_group_map_attribute);
  ("get_next_hop_group_map_attribute", F3 stub_get_next_hop_group_map_attribute);
  ("set_next_hop_group_members_attribute", F5 stub_set_next_hop_group_members_attribute);
  ("get_next_hop_group_members_attribute", F6 stub_get_next_hop_group_members_attribute);
  ("create_next_hop_groups", F7 stub_create_next_hop_groups);
  ("remove_next_hop_groups", F4 stub_remove_next_hop_groups);
  ("set_next_hop_groups_attribute", F5 stub_set_next_hop_groups_attribute);
  ("get_next_hop_groups_attribute", F6 stub_get_next_hop_groups_attribute)].

Definition stub_create_router_interface (router_interface_id switch_id attr_count attr_list : Z) : W → Z * W :=
  stub (create "ROUTER_INTERFACE" router_interface_id switch_id attr_count attr_list).
Definition stub_remove_router_interface (router_interface_id : Z) : W → Z * W :=
  stub (remove "ROUTER_INTERFACE" router_interface_id).
Definition stub_set_router_interface_attribute (router_interface_id attr : Z) : W → Z * W :=
  stub (set "ROUTER_INTERFACE" router_interface_id attr).
Definition stub_get_router_interface_attribute (router_interface_id attr_count attr_list : Z) : W → Z * W :=
  stub (get "ROUTER_INTERFACE" router_interface_id attr_count attr_list).
Definition stub_get_router_interface_stats (router_interface_id number_of_counters counter_ids counters : Z) : W → Z * W :=
  stub (getStats "ROUTER_INTERFACE" router_interface_id number_of_counters counter_ids counters).
Definition stub_get_router_interface_stats_ext (router_interface_id number_of_counters counter_ids mode counters : Z) : W → Z * W :=
  stub (getStatsExt "ROUTER_INTERFACE" router_interface_id number_of_counters counter_ids mode counters).
Definition stub_clear_router_interface_stats (router_interface_id number_of_counters counter_ids : Z) : W → Z * W :=
  stub (clearStats "ROUTER_INTERFACE" router_interface_id number_of_counters counter_ids).
Definition stub_create_router_interfaces (switch_id object_count attr_count attr_list mode object_id object_statuses : Z) : W → Z * W :=
  stub (bulkCreate "ROUTER_INTERFACE" switch_id object_count attr_count attr_list mode object_id object_statuses).
Definition stub_remove_router_interfaces (object_count object_id mode object_statuses : Z) : W → Z * W :=
  stub (bulkRemove "ROUTER_INTERFACE" object_count object_id mode object_statuses).
Definition stub_set_router_interfaces_attribute (object_count object_id attr_list mode object_statuses : Z) : W → Z * W :=
  stub (bulkSet "ROUTER_INTERFACE" object_count object_id attr_list mode object_statuses).
Definition stub_get_router_interfaces_attribute (object_count object_id attr_count attr_list mode object_statuses : Z) : W → Z * W :=
  stub (bulkGet "ROUTER_INTERFACE" object_count object_id attr_count attr_list mode object_statuses).

Definition stub_router_interface : api_table := [
  ("create_router_interface", F4 stub_create_router_interface);
  ("remove_router_interface", F1 stub_remove_router_interface);
  ("set_router_interface_attribute", F2 stub_set_router_interface_attribute);
  ("get_router_interface_attribute", F3 stub_get_router_interface_attribute);
  ("get_router_interface_stats", F4 stub_get_router_interface_stats);
  ("get_router_interface_stats_ext", F5 stub_get_router_interface_stats_ext);
  ("clear_router_interface_stats", F3 stub_clear_router_interface_stats);
  ("create_router_interfaces", F7 stub_create_router_interfaces);
  ("remove_router_interfaces", F4 stub_remove_router_interfaces);
  ("set_router_interfaces_attribute", F5 stub_set_router_interfaces_attribute);
  ("get_router_interfaces_attribute", F6 stub_get_router_interfaces_attribute)].

Definition stub_create_neighbor_entry (neighbor_entry attr_count attr_list : Z) : W → Z * W :=
  stub (create_e "neighbor_entry" neighbor_entry attr_count attr_list).
Definition stub_remove_neighbor_entry (neighbor_entry : Z) : W → Z * W :=
  stub (remove_e "neighbor_entry" neighbor_entry).
Definition stub_set_neighbor_entry_attribute (neighbor_entry attr : Z) : W → Z * W :=
  stub (set_e "neighbor_entry" neighbor_entry attr).
Definition stub_get_neighbor_entry_attribute (neighbor_entry attr_count attr_list : Z) : W → Z * W :=
  stub (get_e "neighbor_entry" neighbor_entry attr_count attr_list).
Definition stub_remove_all_neighbor_entries (switch_id : Z) : W → Z * W := not_implemented.
Definition stub_create_neighbor_entries (object_count neighbor_entry attr_count attr_list mode object_statuses : Z) : W → Z * W :=
  stub (bulkCreate_e "neighbor_entry" object_count neighbor_entry attr_count attr_list mode object_statuses).
Definition stub_remove_neighbor_entries (object_count neighbor_entry mode object_statuses : Z) : W → Z * W :=
  stub (bulkRemove_e "neighbor_entry" object_count neighbor_entry mode object_statuses).
Definition stub_set_neighbor_entries_attribute (object_count neighbor_entry attr_list mode object_statuses : Z) : W → Z * W :=
  stub (bulkSet_e "neighbor_entry" object_count neighbor_entry attr_list mode object_statuses).
Definition stub_get_neighbor_entries_attribute (object_count neighbor_entry attr_count attr_list mode object_statuses : Z) : W → Z * W :=
  stub (bulkGet_e "neighbor_entry" object_count neighbor_entry attr_count attr_list mode object_statuses).

Definition stub_neighbor : api_table := [
  ("create_neighbor_entry", F3 stub_create_neighbor_entry);
  ("remove_neighbor_entry", F1 stub_remove_neighbor_entry);
  ("set_neighbor_entry_attribute", F2 stub_set_neighbor_entry_attribute);
  ("get_neighbor_entry_attribute", F3 stub_get_neighbor_entry_attribute);
  ("remove_all_neighbor_entries", F1 stub_remove_all_neighbor_entries);
  ("create_neighbor_entries", F6 stub_create_neighbor_entries);
  ("remove_neighbor_entries", F4 stub_remove_neighbor_entries);
  ("set_neighbor_entries_attribute", F5 stub_set_neighbor_entries_attribute);
  ("get_neighbor_entries_attribute", F6 stub_get_neighbor_entries_attribute)].

Definition stub_create_acl_table (acl_table_id switch_id attr_count attr_list : Z) : W → Z * W :=
  stub (create "ACL_TABLE" acl_table_id switch_id attr_count attr_list).
Definition stub_remove_acl_table (acl_table_id : Z) : W → Z * W := stub (remove "ACL_TABLE" acl_table_id).
Definition stub_set_acl_table_attribute (acl_table_id attr : Z) : W → Z * W :=
  stub (set "ACL_TABLE" acl_table_id attr).
Definition stub_get_acl_table_attribute (acl_table_id attr_count attr_list : Z) : W → Z * W :=
  stub (get "ACL_TABLE" acl_table_id attr_count attr_list).
Definition stub_create_acl_entry (acl_entry_id switch_id attr_count attr_list : Z) : W → Z * W :=
  stub (create "ACL_ENTRY" acl_entry_id switch_id attr_count attr_list).
Definition stub_remove_acl_entry (acl_entry_id : Z) : W → Z * W := stub (remove "ACL_ENTRY" acl_entry_id).
Definition stub_set_acl_entry_attribute (acl_entry_id attr : Z) : W → Z * W :=
  stub (set "ACL_ENTRY" acl_entry_id attr).
Definition stub_get_acl_entry_attribute (acl_entry_id attr_count attr_list : Z) : W → Z * W :=
  stub (get "ACL_ENTRY" acl_entry_id attr_count attr_list).
Definition stub_create_acl_counter (acl_counter_id switch_id attr_count attr_list : Z) : W → Z * W :=
  stub (create "ACL_COUNTER" acl_counter_id switch_id attr_count attr_list).
Definition stub_remove_acl_counter (acl_counter_id : Z) : W → Z * W :=
  stub (remove "ACL_COUNTER" acl_counter_id).
Definition stub_set_acl_counter_attribute (acl_counter_id attr : Z) : W → Z * W :=
  stub (set "ACL_COUNTER" acl_counter_id attr).
Definition stub_get_acl_counter_attribute (acl_counter_id attr_count attr_list : Z) : W → Z * W :=
  stub (get "ACL_COUNTER" acl_counter_id attr_count attr_list).
Definition stub_create_acl_range (acl_range_id switch_id attr_count attr_list : Z) : W → Z * W :=
  stub (create "ACL_RANGE" acl_range_id switch_id attr_count attr_list).
Definition stub_remove_acl_range (acl_range_id : Z) : W → Z * W := stub (remove "ACL_RANGE" acl_range_id).
Definition stub_set_acl_range_attribute (acl_range_id attr : Z) : W → Z * W :=
  stub (set "ACL_RANGE" acl_range_id attr).
Definition stub_get_acl_range_attribute (acl_range_id attr_count attr_list : Z) : W → Z * W :=
  stub (get "ACL_RANGE" acl_range_id attr_count attr_list).
Definition stub_create_acl_table_group (acl_table_group_id switch_id attr_count attr_list : Z) : W → Z * W :=
  stub (create "ACL_TABLE_GROUP" acl_table_group_id switch_id attr_count attr_list).
Definition stub_remove_acl_table_group (acl_table_group_id : Z) : W → Z * W :=
  stub (remove "ACL_TABLE_GROUP" acl_table_group_id).
Definition stub_set_acl_table_group_attribute (acl_table_group_id attr : Z) : W → Z * W :=
  stub (set "ACL_TABLE_GROUP" acl_table_group_id attr).
Definition stub_get_acl_table_group_attribute (acl_table_group_id attr_count attr_list : Z) : W → Z * W :=
  stub (get "ACL_TABLE_GROUP" acl_table_group_id attr_count attr_list).
Definition stub_create_acl_table_group_member (acl_table_group_member_id switch_id attr_count attr_list : Z) : W → Z * W :=
  stub (create "ACL_TABLE_GROUP_MEMBER" acl_table_group_member_id switch_id attr_count attr_list).
Definition stub_remove_acl_table_group_member (acl_table_group_member_id : Z) : W → Z * W :=
  stub (remove "ACL_TABLE_GROUP_MEMBER" acl_table_group_member_id).
Definition stub_set_acl_table_group_member_attribute (acl_table_group_member_id attr : Z) : W → Z * W :=
  stub (set "ACL_TABLE_GROUP_MEMBER" acl_table_group_member_id attr).
Definition stub_get_acl_table_group_member_attribute (acl_table_group_member_id attr_count attr_list : Z) : W → Z * W :=
  stub (get "ACL_TABLE_GROUP_MEMBER" acl_table_group_member_id attr_count attr_list).
Definition stub_create_acl_table_chain_group (acl_table_chain_group_id switch_id attr_count attr_list : Z) : W → Z * W :=
  stub (create "ACL_TABLE_CHAIN_GROUP" acl_table_chain_group_id switch_id attr_count attr_list).
Definition stub_remove_acl_table_chain_group (acl_table_chain_group_id : Z) : W → Z * W :=
  stub (remove "ACL_TABLE_CHAIN_GROUP" acl_table_chain_group_id).
Definition stub_set_acl_table_chain_group_attribute (acl_table_chain_group_id attr : Z) : W → Z * W :=
  stub (set "ACL_TABLE_CHAIN_GROUP" acl_table_chain_group_id attr).
Definition stub_get_acl_table_chain_group_attribute (acl_table_chain_group_id attr_count attr_list : Z) : W → Z * W :=
  stub (get "ACL_TABLE_CHAIN_GROUP" acl_table_chain_group_id attr_count attr_list).

Definition stub_acl : api_table := [
  ("create_acl_table", F4 stub_create_acl_table);
  ("remove_acl_table", F1 stub_remove_acl_table);
  ("set_acl_table_attribute", F2 stub_set_acl_table_attribute);
  ("get_acl_table_attribute", F3 stub_get_acl_table_attribute);
  ("create_acl_entry", F4 stub_create_acl_entry);
  ("remove_acl_entry", F1 stub_remove_acl_entry);
  ("set_acl_entry_attribute", F2 stub_set_acl_entry_attribute);
  ("get_acl_entry_attribute", F3 stub_get_acl_entry_attribute);
  ("create_acl_counter", F4 stub_create_acl_counter);
  ("remove_acl_counter", F1 stub_remove_acl_counter);
  ("set_acl_counter_attribute", F2 stub_set_acl_counter_attribute);
  ("get_acl_counter_attribute", F3 stub_get_acl_counter_attribute);
  ("create_acl_range", F4 stub_create_acl_range);
  ("remove_acl_range", F1 stub_remove_acl_range);
  ("set_acl_range_attribute", F2 stub_set_acl_range_attribute);
  ("get_acl_range_attribute", F3 stub_get_acl_range_attribute);
  ("create_acl_table_group", F4 stub_create_acl_table_group);
  ("remove_acl_table_group", F1 stub_remove_acl_table_group);
  ("set_acl_table_group_attribute", F2 stub_set_acl_table_group_attribute);
  ("get_acl_table_group_attribute", F3 stub_get_acl_table_group_attribute);
  ("create_acl_table_group_member", F4 stub_create_acl_table_group_member);
  ("remove_acl_table_group_member", F1 stub_remove_acl_table_group_member);
  ("set_acl_table_group_member_attribute", F2 stub_set_acl_table_group_member_attribute);
  ("get_acl_table_group_member_attribute", F3 stub_get_acl_table_group_member_attribute);
  ("create_acl_table_chain_group", F4 stub_create_acl_table_chain_group);
  ("remove_acl_table_chain_group", F1 stub_remove_acl_table_chain_group);
  ("set_acl_table_chain_group_attribute", F2 stub_set_acl_table_chain_group_attribute);
  ("get_acl_table_chain_group_attribute", F3 stub_get_acl_table_chain_group_attribute)].

Definition stub_create_hostif (hostif_id switch_id attr_count attr_list : Z) : W → Z * W :=
  stub (create "HOSTIF" hostif_id switch_id attr_count attr_list).
Definition stub_remove_hostif (hostif_id : Z) : W → Z * W := stub (remove "HOSTIF" hostif_id).
Definition stub_set_hostif_attribute (hostif_id attr : Z) : W → Z * W := stub (set "HOSTIF" hostif_id attr).
Definition stub_get_hostif_attribute (hostif_id attr_count attr_list : Z) : W → Z * W :=
  stub (get "HOSTIF" hostif_id attr_count attr_list).
Definition stub_create_hostif_table_entry (hostif_table_entry_id switch_id attr_count attr_list : Z) : W → Z * W :=
  stub (create "HOSTIF_TABLE_ENTRY" hostif_table_entry_id switch_id attr_count attr_list).
Definition stub_remove_hostif_table_entry (hostif_table_entry_id : Z) : W → Z * W :=
  stub (remove "HOSTIF_TABLE_ENTRY" hostif_table_entry_id).
Definition stub_set_hostif_table_entry_attribute (hostif_table_entry_id attr : Z) : W → Z * W :=
  stub (set "HOSTIF_TABLE_ENTRY" hostif_table_entry_id attr).
Definition stub_get_hostif_table_entry_attribute (hostif_table_entry_id attr_count attr_list : Z) : W → Z * W :=
  stub (get "HOSTIF_TABLE_ENTRY" hostif_table_entry_id attr_count attr_list).
Definition stub_create_hostif_trap_group (hostif_trap_group_id switch_id attr_count attr_list : Z) : W → Z * W :=
  stub (create "HOSTIF_TRAP_GROUP" hostif_trap_group_id switch_id attr_count attr_list).
Definition stub_remove_hostif_trap_group (hostif_trap_group_id : Z) : W → Z * W :=
  stub (remove "HOSTIF_TRAP_GROUP" hostif_trap_group_id).
Definition stub_set_hostif_trap_group_attribute (hostif_trap_group_id attr : Z) : W → Z * W :=
  stub (set "HOSTIF_TRAP_GROUP" hostif_trap_group_id attr).
Definition stub_get_hostif_trap_group_attribute (hostif_trap_group_id attr_count attr_list : Z) : W → Z * W :=
  stub (get "HOSTIF_TRAP_GROUP" hostif_trap_group_id attr_count attr_list).
Definition stub_create_hostif_trap (hostif_trap_id switch_id attr_count attr_list : Z) : W → Z * W :=
  stub (create "HOSTIF_TRAP" hostif_trap_id switch_id attr_count attr_list).
Definition stub_remove_hostif_trap (hostif_trap_id : Z) : W → Z * W :=
  stub (remove "HOSTIF_TRAP" hostif_trap_id).
Definition stub_set_hostif_trap_attribute (hostif_trap_id attr : Z) : W → Z * W :=
  stub (set "HOSTIF_TRAP" hostif_trap_id attr).
Definition stub_get_hostif_trap_attribute (hostif_trap_id attr_count attr_list : Z) : W → Z * W :=
  stub (get "HOSTIF_TRAP" hostif_trap_id attr_count attr_list).
Definition stub_create_hostif_user_defined_trap (hostif_user_defined_trap_id switch_id attr_count attr_list : Z) : W → Z * W :=
  stub (create "HOSTIF_USER_DEFINED_TRAP" hostif_user_defined_trap_id switch_id attr_count attr_list).
Definition stub_remove_hostif_user_defined_trap (hostif_user_defined_trap_id : Z) : W → Z * W :=
  stub (remove "HOSTIF_USER_DEFINED_TRAP" hostif_user_defined_trap_id).
Definition stub_set_hostif_user_defined_trap_attribute (hostif_user_defined_trap_id attr : Z) : W → Z * W :=
  stub (set "HOSTIF_USER_DEFINED_TRAP" hostif_user_defined_trap_id attr).
Definition stub_get_hostif_user_defined_trap_attribute (hostif_user_defined_trap_id attr_count attr_list : Z) : W → Z * W :=
  stub (get "HOSTIF_USER_DEFINED_TRAP" hostif_user_defined_trap_id attr_count attr_list).
Definition stub_recv_hostif_packet (hostif_id buffer_size buffer attr_count attr_list : Z) : W → Z * W :=
  not_implemented.
Definition stub_send_hostif_packet (hostif_id buffer_size buffer attr_count attr_list : Z) : W → Z * W :=
  not_implemented.
Definition stub_allocate_hostif_packet (hostif_id buffer_size buffer attr_count attr_list : Z) : W → Z * W :=
  not_implemented.
Definition stub_free_hostif_packet (hostif_id buffer : Z) : W → Z * W := not_implemented.

Definition stub_hostif : api_table := [
  ("create_hostif", F4 stub_create_hostif);
  ("remove_hostif", F1 stub_remove_hostif);
  ("set_hostif_attribute", F2 stub_set_hostif_attribute);
  ("get_hostif_attribute", F3 stub_get_hostif_attribute);
  ("create_hostif_table_entry", F4 stub_create_hostif_table_entry);
  ("remove_hostif_table_entry", F1 stub_remove_hostif_table_entry);
  ("set_hostif_table_entry_attribute", F2 stub_set_hostif_table_entry_attribute);
  ("get_hostif_table_entry_attribute", F3 stub_get_hostif_table_entry_attribute);
  ("create_hostif_trap_group", F4 stub_create_hostif_trap_group);
  ("remove_hostif_trap_group", F1 stub_remove_hostif_trap_group);
  ("set_hostif_trap_group_attribute", F2 stub_set_hostif_trap_group_attribute);
  ("get_hostif_trap_group_attribute", F3 stub_get_hostif_trap_group_attribute);
  ("create_hostif_trap", F4 stub_create_hostif_trap);
  ("remove_hostif_trap", F1 stub_remove_hostif_trap);
  ("set_hostif_trap_attribute", F2 stub_set_hostif_trap_attribute);
  ("get_hostif_trap_attribute", F3 stub_get_hostif_trap_attribute);
  ("create_hostif_user_defined_trap", F4 stub_create_hostif_user_defined_trap);
  ("remove_hostif_user_defined_trap", F1 stub_remove_hostif_user_defined_trap);
  ("set_hostif_user_defined_trap_attribute", F2 stub_set_hostif_user_defined_trap_attribute);
  ("get_hostif_user_defined_trap_attribute", F3 stub_get_hostif_user_defined_trap_attribute);
  ("recv_hostif_packet", F5 stub_recv_hostif_packet);
  ("send_hostif_packet", F5 stub_send_hostif_packet);
  ("allocate_hostif_packet", F5 stub_allocate_hostif_packet);
  ("free_hostif_packet", F2 stub_free_hostif_packet)].

Definition stub_create_mirror_session (mirror_session_id switch_id attr_count attr_list : Z) : W → Z * W :=
  stub (create "MIRROR_SESSION" mirror_session_id switch_id attr_count attr_list).
Definition stub_remove_mirror_session (mirror_session_id : Z) : W → Z * W :=
  stub (remove "MIRROR_SESSION" mirror_session_id).
Definition stub_set_mirror_session_attribute (mirror_session_id attr : Z) : W → Z * W :=
  stub (set "MIRROR_SESSION" mirror_session_id attr).
Definition stub_get_mirror_session_attribute (mirror_session_id attr_count attr_list : Z) : W → Z * W :=
  stub (get "MIRROR_SESSION" mirror_session_id attr_count attr_list).

Definition stub_mirror : api_table := [
  ("create_mirror_session", F4 stub_create_mirror_session);
  ("remove_mirror_session", F1 stub_remove_mirror_session);
  ("set_mirror_session_attribute", F2 stub_set_mirror_session_attribute);
  ("get_mirror_session_attribute", F3 stub_get_mirror_session_attribute)].

Definition stub_create_samplepacket (samplepacket_id switch_id attr_count attr_list : Z) : W → Z * W :=
  stub (create "SAMPLEPACKET" samplepacket_id switch_id attr_count attr_list).
Definition stub_remove_samplepacket (samplepacket_id : Z) : W → Z * W :=
  stub (remove "SAMPLEPACKET" samplepacket_id).
Definition stub_set_samplepacket_attribute (samplepacket_id attr : Z) : W → Z * W :=
  stub (set "SAMPLEPACKET" samplepacket_id attr).
Definition stub_get_samplepacket_attribute (samplepacket_id attr_count attr_list : Z) : W → Z * W :=
  stub (get "SAMPLEPACKET" samplepacket_id attr_count attr_list).

Definition stub_samplepacket : api_table := [
  ("create_samplepacket", F4 stub_create_samplepacket);
  ("remove_samplepacket", F1 stub_remove_samplepacket);
  ("set_samplepacket_attribute", F2 stub_set_samplepacket_attribute);
  ("get_samplepacket_attribute", F3 stub_get_samplepacket_attribute)].

Definition stub_create_stp (stp_id switch_id attr_count attr_list : Z) : W → Z * W :=
  stub (create "STP" stp_id switch_id attr_count attr_list).
Definition stub_remove_stp (stp_id : Z) : W → Z * W := stub (remove "STP" stp_id).
Definition stub_set_stp_attribute (stp_id attr : Z) : W → Z * W := stub (set "STP" stp_id attr).
Definition stub_get_stp_attribute (stp_id attr_count attr_list : Z) : W → Z * W :=
  stub (get "STP" stp_id attr_count attr_list).
Definition stub_create_stp_port (stp_port_id switch_id attr_count attr_list : Z) : W → Z * W :=
  stub (create "STP_PORT" stp_port_id switch_id attr_count attr_list).
Definition stub_remove_stp_port (stp_port_id : Z) : W → Z * W := stub (remove "STP_PORT" stp_port_id).
Definition stub_set_stp_port_attribute (stp_port_id attr : Z) : W → Z * W :=
  stub (set "STP_PORT" stp_port_id attr).
Definition stub_get_stp_port_attribute (stp_port_id attr_count attr_list : Z) : W → Z * W :=
  stub (get "STP_PORT" stp_port_id attr_count attr_list).
Definition stub_create_stp_ports (switch_id object_count attr_count attr_list mode object_id object_statuses : Z) : W → Z * W :=
  stub (bulkCreate "STP_PORT" switch_id object_count attr_count attr_list mode object_id object_statuses).
Definition stub_remove_stp_ports (object_count object_id mode object_statuses : Z) : W → Z * W :=
  stub (bulkRemove "STP_PORT" object_count object_id mode object_statuses).

Definition stub_stp : api_table := [
  ("create_stp", F4 stub_create_stp);
  ("remove_stp", F1 stub_remove_stp);
  ("set_stp_attribute", F2 stub_set_stp_attribute);
  ("get_stp_attribute", F3 stub_get_stp_attribute);
  ("create_stp_port", F4 stub_create_stp_port);
  ("remove_stp_port", F1 stub_remove_stp_port);
  ("set_stp_port_attribute", F2 stub_set_stp_port_attribute);
  ("get_stp_port_attribute", F3 stub_get_stp_port_attribute);
  ("create_stp_ports", F7 stub_create_stp_ports);
  ("remove_stp_ports", F4 stub_remove_stp_ports)].

Definition stub_create_lag (lag_id switch_id attr_count attr_list : Z) : W → Z * W :=
  stub (create "LAG" lag_id switch_id attr_count attr_list).
Definition stub_remove_lag (lag_id : Z) : W → Z * W := stub (remove "LAG" lag_id).
Definition stub_set_lag_attribute (lag_id attr : Z) : W → Z * W := stub (set "LAG" lag_id attr).
Definition stub_get_lag_attribute (lag_id attr_count attr_list : Z) : W → Z * W :=
  stub (get "LAG" lag_id attr_count attr_list).
Definition stub_create_lag_member (lag_member_id switch_id attr_count attr_list : Z) : W → Z * W :=
  stub (create "LAG_MEMBER" lag_member_id switch_id attr_count attr_list).
Definition stub_remove_lag_member (lag_member_id : Z) : W → Z * W :=
  stub (remove "LAG_MEMBER" lag_member_id).
Definition stub_set_lag_member_attribute (lag_member_id attr : Z) : W → Z * W :=
  stub (set "LAG_MEMBER" lag_member_id attr).
Definition stub_get_lag_member_attribute (lag_member_id attr_count attr_list : Z) : W → Z * W :=
  stub (get "LAG_MEMBER" lag_member_id attr_count attr_list).
Definition stub_create_lag_members (switch_id object_count attr_count attr_list mode object_id object_statuses : Z) : W → Z * W :=
  stub (bulkCreate "LAG_MEMBER" switch_id object_count attr_count attr_list mode object_id object_statuses).
Definition stub_remove_lag_members (object_count object_id mode object_statuses : Z) : W → Z * W :=
  stub (bulkRemove "LAG_MEMBER" object_count object_id mode object_statuses).

Definition stub_lag : api_table := [
  ("create_lag", F4 stub_create_lag);
  ("remove_lag", F1 stub_remove_lag);
  ("set_lag_attribute", F2 stub_set_lag_attribute);
  ("get_lag_attribute", F3 stub_get_lag_attribute);
  ("create_lag_member", F4 stub_create_lag_member);
  ("remove_lag_member", F1 stub_remove_lag_member);
  ("set_lag_member_attribute", F2 stub_set_lag_member_attribute);
  ("get_lag_member_attribute", F3 stub_get_lag_member_attribute);
  ("create_lag_members", F7 stub_create_lag_members);
  ("remove_lag_members", F4 stub_remove_lag_members)].

Definition stub_create_policer (policer_id switch_id attr_count attr_list : Z) : W → Z * W :=
  stub (create "POLICER" policer_id switch_id attr_count attr_list).
Definition stub_remove_policer (policer_id : Z) : W → Z * W := stub (remove "POLICER" policer_id).
Definition stub_set_policer_attribute (policer_id attr : Z) : W → Z * W :=
  stub (set "POLICER" policer_id attr).
Definition stub_get_policer_attribute (policer_id attr_count attr_list : Z) : W → Z * W :=
  stub (get "POLICER" policer_id attr_count attr_list).
Definition stub_get_policer_stats (policer_id number_of_counters counter_ids counters : Z) : W → Z * W :=
  stub (getStats "POLICER" policer_id number_of_counters counter_ids counters).
Definition stub_get_policer_stats_ext (policer_id number_of_counters counter_ids mode counters : Z) : W → Z * W :=
  stub (getStatsExt "POLICER" policer_id number_of_counters counter_ids mode counters).
Definition stub_clear_policer_stats (policer_id number_of_counters counter_ids : Z) : W → Z * W :=
  stub (clearStats "POLICER" policer_id number_of_counters counter_ids).

Definition stub_policer : api_table := [
  ("create_policer", F4 stub_create_policer);
  ("remove_policer", F1 stub_remove_policer);
  ("set_policer_attribute", F2 stub_set_policer_attribute);
  ("get_policer_attribute", F3 stub_get_policer_attribute);
  ("get_policer_stats", F4 stub_get_policer_stats);
  ("get_policer_stats_ext", F5 stub_get_policer_stats_ext);
  ("clear_policer_stats", F3 stub_clear_policer_stats)].

Definition stub_create_wred (wred_id switch_id attr_count attr_list : Z) : W → Z * W :=
  stub (create "WRED" wred_id switch_id attr_count attr_list).
Definition stub_remove_wred (wred_id : Z) : W → Z * W := stub (remove "WRED" wred_id).
Definition stub_set_wred_attribute (wred_id attr : Z) : W → Z * W := stub (set "WRED" wred_id attr).
Definition stub_get_wred_attribute (wred_id attr_count attr_list : Z) : W → Z * W :=
  stub (get "WRED" wred_id attr_count attr_list).

Definition stub_wred : api_table := [
  ("create_wred", F4 stub_create_wred);
  ("remove_wred", F1 stub_remove_wred);
  ("set_wred_attribute", F2 stub_set_wred_attribute);
  ("get_wred_attribute", F3 stub_get_wred_attribute)].

Definition stub_create_qos_map (qos_map_id switch_id attr_count attr_list : Z) : W → Z * W :=
  stub (create "QOS_MAP" qos_map_id switch_id attr_count attr_list).
Definition stub_remove_qos_map (qos_map_id : Z) : W → Z * W := stub (remove "QOS_MAP" qos_map_id).
Definition stub_set_qos_map_attribute (qos_map_id attr : Z) : W → Z * W :=
  stub (set "QOS_MAP" qos_map_id attr).
Definition stub_get_qos_map_attribute (qos_map_id attr_count attr_list : Z) : W → Z * W :=
  stub (get "QOS_MAP" qos_map_id attr_count attr_list).

Definition stub_qos_map : api_table := [
  ("create_qos_map", F4 stub_create_qos_map);
  ("remove_qos_map", F1 stub_remove_qos_map);
  ("set_qos_map_attribute", F2 stub_set_qos_map_attribute);
  ("get_qos_map_attribute", F3 stub_get_qos_map_attribute)].

Definition stub_create_queue (queue_id switch_id attr_count attr_list : Z) : W → Z * W :=
  stub (create "QUEUE" queue_id switch_id attr_count attr_list).
Definition stub_remove_queue (queue_id : Z) : W → Z * W := stub (remove "QUEUE" queue_id).
Definition stub_set_queue_attribute (queue_id attr : Z) : W → Z * W := stub (set "QUEUE" queue_id attr).
Definition stub_get_queue_attribute (queue_id attr_count attr_list : Z) : W → Z * W :=
  stub (get "QUEUE" queue_id attr_count attr_list).
Definition stub_get_queue_stats (queue_id number_of_counters counter_ids counters : Z) : W → Z * W :=
  stub (getStats "QUEUE" queue_id number_of_counters counter_ids counters).
Definition stub_get_queue_stats_ext (queue_id number_of_counters counter_ids mode counters : Z) : W → Z * W :=
  stub (getStatsExt "QUEUE" queue_id number_of_counters counter_ids mode counters).
Definition stub_clear_queue_stats (queue_id number_of_counters counter_ids : Z) : W → Z * W :=
  stub (clearStats "QUEUE" queue_id number_of_counters counter_ids).
Definition stub_set_queues_attribute (object_count object_id attr_list mode object_statuses : Z) : W → Z * W :=
  stub (bulkSet "QUEUE" object_count object_id attr_list mode object_statuses).
Definition stub_get_queues_attribute (object_count object_id attr_count attr_list mode object_statuses : Z) : W → Z * W :=
  stub (bulkGet "QUEUE" object_count object_id attr_count attr_list mode object_statuses).

Definition stub_queue : api_table := [
  ("create_queue", F4 stub_create_queue);
  ("remove_queue", F1 stub_remove_queue);
  ("set_queue_attribute", F2 stub_set_queue_attribute);
  ("get_queue_attribute", F3 stub_get_queue_attribute);
  ("get_queue_stats", F4 stub_get_queue_stats);
  ("get_queue_stats_ext", F5 stub_get_queue_stats_ext);
  ("clear_queue_stats", F3 stub_clear_queue_stats);
  ("set_queues_attribute", F5 stub_set_queues_attribute);
  ("get_queues_attribute", F6 stub_get_queues_attribute)].

Definition stub_create_scheduler (scheduler_id switch_id attr_count attr_list : Z) : W → Z * W :=
  stub (create "SCHEDULER" scheduler_id switch_id attr_count attr_list).
Definition stub_remove_scheduler (scheduler_id : Z) : W → Z * W := stub (remove "SCHEDULER" scheduler_id).
Definition stub_set_scheduler_attribute (scheduler_id attr : Z) : W → Z * W :=
  stub (set "SCHEDULER" scheduler_id attr).
Definition stub_get_scheduler_attribute (scheduler_id attr_count attr_list : Z) : W → Z * W :=
  stub (get "SCHEDULER" scheduler_id attr_count attr_list).

Definition stub_scheduler : api_table := [
  ("create_scheduler", F4 stub_create_scheduler);
  ("remove_scheduler", F1 stub_remove_scheduler);
  ("set_scheduler_attribute", F2 stub_set_scheduler_attribute);
  ("get_scheduler_attribute", F3 stub_get_scheduler_attribute)].

Definition stub_create_scheduler_group (scheduler_group_id switch_id attr_count attr_list : Z) : W → Z * W :=
  stub (create "SCHEDULER_GROUP" scheduler_group_id switch_id attr_count attr_list).
Definition stub_remove_scheduler_group (scheduler_group_id : Z) : W → Z * W :=
  stub (remove "SCHEDULER_GROUP" scheduler_group_id).
Definition stub_set_scheduler_group_attribute (scheduler_group_id attr : Z) : W → Z * W :=
  stub (set "SCHEDULER_GROUP" scheduler_group_id attr).
Definition stub_get_scheduler_group_attribute (scheduler_group_id attr_count attr_list : Z) : W → Z * W :=
  stub (get "SCHEDULER_GROUP" scheduler_group_id attr_count attr_list).

Definition stub_scheduler_group : api_table := [
  ("create_scheduler_group", F4 stub_create_scheduler_group);
  ("remove_scheduler_group", F1 stub_remove_scheduler_group);
  ("set_scheduler_group_attribute", F2 stub_set_scheduler_group_attribute);
  ("get_scheduler_group_attribute", F3 stub_get_scheduler_group_attribute)].

Definition stub_create_buffer_pool (buffer_pool_id switch_id attr_count attr_list : Z) : W → Z * W :=
  stub (create "BUFFER_POOL" buffer_pool_id switch_id attr_count attr_list).
Definition stub_remove_buffer_pool (buffer_pool_id : Z) : W → Z * W :=
  stub (remove "BUFFER_POOL" buffer_pool_id).
Definition stub_set_buffer_pool_attribute (buffer_pool_id attr : Z) : W → Z * W :=
  stub (set "BUFFER_POOL" buffer_pool_id attr).
Definition stub_get_buffer_pool_attribute (buffer_pool_id attr_count attr_list : Z) : W → Z * W :=
  stub (get "BUFFER_POOL" buffer_pool_id attr_count attr_list).
Definition stub_get_buffer_pool_stats (buffer_pool_id number_of_counters counter_ids counters : Z) : W → Z * W :=
  stub (getStats "BUFFER_POOL" buffer_pool_id number_of_counters counter_ids counters).
Definition stub_get_buffer_pool_stats_ext (buffer_pool_id number_of_counters counter_ids mode counters : Z) : W → Z * W :=
  stub (getStatsExt "BUFFER_POOL" buffer_pool_id number_of_counters counter_ids mode counters).
Definition stub_clear_buffer_pool_stats (buffer_pool_id number_of_counters counter_ids : Z) : W → Z * W :=
  stub (clearStats "BUFFER_POOL" buffer_pool_id number_of_counters counter_ids).
Definition stub_create_ingress_priority_group (ingress_priority_group_id switch_id attr_count attr_list : Z) : W → Z * W :=
  stub (create "INGRESS_PRIORITY_GROUP" ingress_priority_group_id switch_id attr_count attr_list).
Definition stub_remove_ingress_priority_group (ingress_priority_group_id : Z) : W → Z * W :=
  stub (remove "INGRESS_PRIORITY_GROUP" ingress_priority_group_id).
Definition stub_set_ingress_priority_group_attribute (ingress_priority_group_id attr : Z) : W → Z * W :=
  stub (set "INGRESS_PRIORITY_GROUP" ingress_priority_group_id attr).
Definition stub_get_ingress_priority_group_attribute (ingress_priority_group_id attr_count attr_list : Z) : W → Z * W :=
  stub (get "INGRESS_PRIORITY_GROUP" ingress_priority_group_id attr_count attr_list).
Definition stub_get_ingress_priority_group_stats (ingress_priority_group_id number_of_counters counter_ids counters : Z) : W → Z * W :=
  stub (getStats "INGRESS_PRIORITY_GROUP" ingress_priority_group_id number_of_counters counter_ids counters).
Definition stub_get_ingress_priority_group_stats_ext (ingress_priority_group_id number_of_counters counter_ids mode counters : Z) : W → Z * W :=
  stub (getStatsExt "INGRESS_PRIORITY_GROUP" ingress_priority_group_id number_of_counters counter_ids mode counters).
Definition stub_clear_ingress_priority_group_stats (ingress_priority_group_id number_of_counters counter_ids : Z) : W → Z * W :=
  stub (clearStats "INGRESS_PRIORITY_GROUP" ingress_priority_group_id number_of_counters counter_ids).
Definition stub_create_buffer_profile (buffer_profile_id switch_id attr_count attr_list : Z) : W → Z * W :=
  stub (create "BUFFER_PROFILE" buffer_profile_id switch_id attr_count attr_list).
Definition stub_remove_buffer_profile (buffer_profile_id : Z) : W → Z * W :=
  stub (remove "BUFFER_PROFILE" buffer_profile_id).
Definition stub_set_buffer_profile_attribute (buffer_profile_id attr : Z) : W → Z * W :=
  stub (set "BUFFER_PROFILE" buffer_profile_id attr).
Definition stub_get_buffer_profile_attribute (buffer_profile_id attr_count attr_list : Z) : W → Z * W :=
  stub (get "BUFFER_PROFILE" buffer_profile_id attr_count attr_list).
Definition stub_set_ingress_priority_groups_attribute (object_count object_id attr_list mode object_statuses : Z) : W → Z * W :=
  stub (bulkSet "INGRESS_PRIORITY_GROUP" object_count object_id attr_list mode object_statuses).
Definition stub_get_ingress_priority_groups_attribute (object_count object_id attr_count attr_list mode object_statuses : Z) : W → Z * W :=
  stub (bulkGet "INGRESS_PRIORITY_GROUP" object_count object_id attr_count attr_list mode object_statuses).

Definition stub_buffer : api_table := [
  ("create_buffer_pool", F4 stub_create_buffer_pool);
  ("remove_buffer_pool", F1 stub_remove_buffer_pool);
  ("set_buffer_pool_attribute", F2 stub_set_buffer_pool_attribute);
  ("get_buffer_pool_attribute", F3 stub_get_buffer_pool_attribute);
  ("get_buffer_pool_stats", F4 stub_get_buffer_pool_stats);
  ("get_buffer_pool_stats_ext", F5 stub_get_buffer_pool_stats_ext);
  ("clear_buffer_pool_stats", F3 stub_clear_buffer_pool_stats);
  ("create_ingress_priority_group", F4 stub_create_ingress_priority_group);
  ("remove_ingress_priority_group", F1 stub_remove_ingress_priority_group);
  ("set_ingress_priority_group_attribute", F2 stub_set_ingress_priority_group_attribute);
  ("get_ingress_priority_group_attribute", F3 stub_get_ingress_priority_group_attribute);
  ("get_ingress_priority_group_stats", F4 stub_get_ingress_priority_group_stats);
  ("get_ingress_priority_group_stats_ext", F5 stub_get_ingress_priority_group_stats_ext);
  ("clear_ingress_priority_group_stats", F3 stub_clear_ingress_priority_group_stats);
  ("create_buffer_profile", F4 stub_create_buffer_profile);
  ("remove_buffer_profile", F1 stub_remove_buffer_profile);
  ("set_buffer_profile_attribute", F2 stub_set_buffer_profile_attribute);
  ("get_buffer_profile_attribute", F3 stub_get_buffer_profile_attribute);
  ("set_ingress_priority_groups_attribute", F5 stub_set_ingress_priority_groups_attribute);
  ("get_ingress_priority_groups_attribute", F6 stub_get_ingress_priority_groups_attribute)].

Definition stub_create_hash (hash_id switch_id attr_count attr_list : Z) : W → Z * W :=
  stub (create "HASH" hash_id switch_id attr_count attr_list).
Definition stub_remove_hash (hash_id : Z) : W → Z * W := stub (remove "HASH" hash_id).
Definition stub_set_hash_attribute (hash_id attr : Z) : W → Z * W := stub (set "HASH" hash_id attr).
Definition stub_get_hash_attribute (hash_id attr_count attr_list : Z) : W → Z * W :=
  stub (get "HASH" hash_id attr_count attr_list).
Definition stub_create_fine_grained_hash_field (fine_grained_hash_field_id switch_id attr_count attr_list : Z) : W → Z * W :=
  stub (create "FINE_GRAINED_HASH_FIELD" fine_grained_hash_field_id switch_id attr_count attr_list).
Definition stub_remove_fine_grained_hash_field (fine_grained_hash_field_id : Z) : W → Z * W :=
  stub (remove "FINE_GRAINED_HASH_FIELD" fine_grained_hash_field_id).
Definition stub_set_fine_grained_hash_field_attribute (fine_grained_hash_field_id attr : Z) : W → Z * W :=
  stub (set "FINE_GRAINED_HASH_FIELD" fine_grained_hash_field_id attr).
Definition stub_get_fine_grained_hash_field_attribute (fine_grained_hash_field_id attr_count attr_list : Z) : W → Z * W :=
  stub (get "FINE_GRAINED_HASH_FIELD" fine_grained_hash_field_id attr_count attr_list).

Definition stub_hash : api_table := [
  ("create_hash", F4 stub_create_hash);
  ("remove_hash", F1 stub_remove_hash);
  ("set_hash_attribute", F2 stub_set_hash_attribute);
  ("get_hash_attribute", F3 stub_get_hash_attribute);
  ("create_fine_grained_hash_field", F4 stub_create_fine_grained_hash_field);
  ("remove_fine_grained_hash_field", F1 stub_remove_fine_grained_hash_field);
  ("set_fine_grained_hash_field_attribute", F2 stub_set_fine_grained_hash_field_attribute);
  ("get_fine_grained_hash_field_attribute", F3 stub_get_fine_grained_hash_field_attribute)].

Definition stub_create_udf (udf_id switch_id attr_count attr_list : Z) : W → Z * W :=
  stub (create "UDF" udf_id switch_id attr_count attr_list).
Definition stub_remove_udf (udf_id : Z) : W → Z * W := stub (remove "UDF" udf_id).
Definition stub_set_udf_attribute (udf_id attr : Z) : W → Z * W := stub (set "UDF" udf_id attr).
Definition stub_get_udf_attribute (udf_id attr_count attr_list : Z) : W → Z * W :=
  stub (get "UDF" udf_id attr_count attr_list).
Definition stub_create_udf_match (udf_match_id switch_id attr_count attr_list : Z) : W → Z * W :=
  stub (create "UDF_MATCH" udf_match_id switch_id attr_count attr_list).
Definition stub_remove_udf_match (udf_match_id : Z) : W → Z * W := stub (remove "UDF_MATCH" udf_match_id).
Definition stub_set_udf_match_attribute (udf_match_id attr : Z) : W → Z * W :=
  stub (set "UDF_MATCH" udf_match_id attr).
Definition stub_get_udf_match_attribute (udf_match_id attr_count attr_list : Z) : W → Z * W :=
  stub (get "UDF_MATCH" udf_match_id attr_count attr_list).
Definition stub_create_udf_group (udf_group_id switch_id attr_count attr_list : Z) : W → Z * W :=
  stub (create "UDF_GROUP" udf_group_id switch_id attr_count attr_list).
Definition stub_remove_udf_group (udf_group_id : Z) : W → Z * W := stub (remove "UDF_GROUP" udf_group_id).
Definition stub_set_udf_group_attribute (udf_group_id attr : Z) : W → Z * W :=
  stub (set "UDF_GROUP" udf_group_id attr).
Definition stub_get_udf_group_attribute (udf_group_id attr_count attr_list : Z) : W → Z * W :=
  stub (get "UDF_GROUP" udf_group_id attr_count attr_list).

Definition stub_udf : api_table := [
  ("create_udf", F4 stub_create_udf);
  ("remove_udf", F1 stub_remove_udf);
  ("set_udf_attribute", F2 stub_set_udf_attribute);
  ("get_udf_attribute", F3 stub_get_udf_attribute);
  ("create_udf_match", F4 stub_create_udf_match);
  ("remove_udf_match", F1 stub_remove_udf_match);
  ("set_udf_match_attribute", F2 stub_set_udf_match_attribute);
  ("get_udf_match_attribute", F3 stub_get_udf_match_attribute);
  ("create_udf_group", F4 stub_create_udf_group);
  ("remove_udf_group", F1 stub_remove_udf_group);
  ("set_udf_group_attribute", F2 stub_set_udf_group_attribute);
  ("get_udf_group_attribute", F3 stub_get_udf_group_attribute)].

Definition stub_create_tunnel_map (tunnel_map_id switch_id attr_count attr_list : Z) : W → Z * W :=
  stub (create "TUNNEL_MAP" tunnel_map_id switch_id attr_count attr_list).
Definition stub_remove_tunnel_map (tunnel_map_id : Z) : W → Z * W :=
  stub (remove "TUNNEL_MAP" tunnel_map_id).
Definition stub_set_tunnel_map_attribute (tunnel_map_id attr : Z) : W → Z * W :=
  stub (set "TUNNEL_MAP" tunnel_map_id attr).
Definition stub_get_tunnel_map_attribute (tunnel_map_id attr_count attr_list : Z) : W → Z * W :=
  stub (get "TUNNEL_MAP" tunnel_map_id attr_count attr_list).
Definition stub_create_tunnel (tunnel_id switch_id attr_count attr_list : Z) : W → Z * W :=
  stub (create "TUNNEL" tunnel_id switch_id attr_count attr_list).
Definition stub_remove_tunnel (tunnel_id : Z) : W → Z * W := stub (remove "TUNNEL" tunnel_id).
Definition stub_set_tunnel_attribute (tunnel_id attr : Z) : W → Z * W := stub (set "TUNNEL" tunnel_id attr).
Definition stub_get_tunnel_attribute (tunnel_id attr_count attr_list : Z) : W → Z * W :=
  stub (get "TUNNEL" tunnel_id attr_count attr_list).
Definition stub_get_tunnel_stats (tunnel_id number_of_counters counter_ids counters : Z) : W → Z * W :=
  stub (getStats "TUNNEL" tunnel_id number_of_counters counter_ids counters).
Definition stub_get_tunnel_stats_ext (tunnel_id number_of_counters counter_ids mode counters : Z) : W → Z * W :=
  stub (getStatsExt "TUNNEL" tunnel_id number_of_counters counter_ids mode counters).
Definition stub_clear_tunnel_stats (tunnel_id number_of_counters counter_ids : Z) : W → Z * W :=
  stub (clearStats "TUNNEL" tunnel_id number_of_counters counter_ids).
Definition stub_create_tunnel_term_table_entry (tunnel_term_table_entry_id switch_id attr_count attr_list : Z) : W → Z * W :=
  stub (create "TUNNEL_TERM_TABLE_ENTRY" tunnel_term_table_entry_id switch_id attr_count attr_list).
Definition stub_remove_tunnel_term_table_entry (tunnel_term_table_entry_id : Z) : W → Z * W :=
  stub (remove "TUNNEL_TERM_TABLE_ENTRY" tunnel_term_table_entry_id).
Definition stub_set_tunnel_term_table_entry_attribute (tunnel_term_table_entry_id attr : Z) : W → Z * W :=
  stub (set "TUNNEL_TERM_TABLE_ENTRY" tunnel_term_table_entry_id attr).
Definition stub_get_tunnel_term_table_entry_attribute (tunnel_term_table_entry_id attr_count attr_list : Z) : W → Z * W :=
  stub (get "TUNNEL_TERM_TABLE_ENTRY" tunnel_term_table_entry_id attr_count attr_list).
Definition stub_create_tunnel_map_entry (tunnel_map_entry_id switch_id attr_count attr_list : Z) : W → Z * W :=
  stub (create "TUNNEL_MAP_ENTRY" tunnel_map_entry_id switch_id attr_count attr_list).
Definition stub_remove_tunnel_map_entry (tunnel_map_entry_id : Z) : W → Z * W :=
  stub (remove "TUNNEL_MAP_ENTRY" tunnel_map_entry_id).
Definition stub_set_tunnel_map_entry_attribute (tunnel_map_entry_id attr : Z) : W → Z * W :=
  stub (set "TUNNEL_MAP_ENTRY" tunnel_map_entry_id attr).
Definition stub_get_tunnel_map_entry_attribute (tunnel_map_entry_id attr_count attr_list : Z) : W → Z * W :=
  stub (get "TUNNEL_MAP_ENTRY" tunnel_map_entry_id attr_count attr_list).
Definition stub_create_tunnels (switch_id object_count attr_count attr_list mode object_id object_statuses : Z) : W → Z * W :=
  stub (bulkCreate "TUNNEL" switch_id object_count attr_count attr_list mode object_id object_statuses).
Definition stub_remove_tunnels (object_count object_id mode object_statuses : Z) : W → Z * W :=
  stub (bulkRemove "TUNNEL" object_count object_id mode object_statuses).
Definition stub_set_tunnels_attribute (object_count object_id attr_list mode object_statuses : Z) : W → Z * W :=
  stub (bulkSet "TUNNEL" object_count object_id attr_list mode object_statuses).
Definition stub_get_tunnels_attribute (object_count object_id attr_count attr_list mode object_statuses : Z) : W → Z * W :=
  stub (bulkGet "TUNNEL" object_count object_id attr_count attr_list mode object_statuses).

Definition stub_tunnel : api_table := [
  ("create_tunnel_map", F4 stub_create_tunnel_map);
  ("remove_tunnel_map", F1 stub_remove_tunnel_map);
  ("set_tunnel_map_attribute", F2 stub_set_tunnel_map_attribute);
  ("get_tunnel_map_attribute", F3 stub_get_tunnel_map_attribute);
  ("create_tunnel", F4 stub_create_tunnel);
  ("remove_tunnel", F1 stub_remove_tunnel);
  ("set_tunnel_attribute", F2 stub_set_tunnel_attribute);
  ("get_tunnel_attribute", F3 stub_get_tunnel_attribute);
  ("get_tunnel_stats", F4 stub_get_tunnel_stats);
  ("get_tunnel_stats_ext", F5 stub_get_tunnel_stats_ext);
  ("clear_tunnel_stats", F3 stub_clear_tunnel_stats);
  ("create_tunnel_term_table_entry", F4 stub_create_tunnel_term_table_entry);
  ("remove_tunnel_term_table_entry", F1 stub_remove_tunnel_term_table_entry);
  ("set_tunnel_term_table_entry_attribute", F2 stub_set_tunnel_term_table_entry_attribute);
  ("get_tunnel_term_table_entry_attribute", F3 stub_get_tunnel_term_table_entry_attribute);
  ("create_tunnel_map_entry", F4 stub_create_tunnel_map_entry);
  ("remove_tunnel_map_entry", F1 stub_remove_tunnel_map_entry);
  ("set_tunnel_map_entry_attribute", F2 stub_set_tunnel_map_entry_attribute);
  ("get_tunnel_map_entry_attribute", F3 stub_get_tunnel_map_entry_attribute);
  ("create_tunnels", F7 stub_create_tunnels);
  ("remove_tunnels", F4 stub_remove_tunnels);
  ("set_tunnels_attribute", F5 stub_set_tunnels_attribute);
  ("get_tunnels_attribute", F6 stub_get_tunnels_attribute)].

Definition stub_create_l2mc_entry (l2mc_entry attr_count attr_list : Z) : W → Z * W :=
  stub (create_e "l2mc_entry" l2mc_entry attr_count attr_list).
Definition stub_remove_l2mc_entry (l2mc_entry : Z) : W → Z * W := stub (remove_e "l2mc_entry" l2mc_entry).
Definition stub_set_l2mc_entry_attribute (l2mc_entry attr : Z) : W → Z * W :=
  stub (set_e "l2mc_entry" l2mc_entry attr).
Definition stub_get_l2mc_entry_attribute (l2mc_entry attr_count attr_list : Z) : W → Z * W :=
  stub (get_e "l2mc_entry" l2mc_entry attr_count attr_list).

Definition stub_l2mc : api_table := [
  ("create_l2mc_entry", F3 stub_create_l2mc_entry);
  ("remove_l2mc_entry", F1 stub_remove_l2mc_entry);
  ("set_l2mc_entry_attribute", F2 stub_set_l2mc_entry_attribute);
  ("get_l2mc_entry_attribute", F3 stub_get_l2mc_entry_attribute)].

Definition stub_create_ipmc_entry (ipmc_entry attr_count attr_list : Z) : W → Z * W :=
  stub (create_e "ipmc_entry" ipmc_entry attr_count attr_list).
Definition stub_remove_ipmc_entry (ipmc_entry : Z) : W → Z * W := stub (remove_e "ipmc_entry" ipmc_entry).
Definition stub_set_ipmc_entry_attribute (ipmc_entry attr : Z) : W → Z * W :=
  stub (set_e "ipmc_entry" ipmc_entry attr).
Definition stub_get_ipmc_entry_attribute (ipmc_entry attr_count attr_list : Z) : W → Z * W :=
  stub (get_e "ipmc_entry" ipmc_entry attr_count attr_list).

Definition stub_ipmc : api_table := [
  ("create_ipmc_entry", F3 stub_create_ipmc_entry);
  ("remove_ipmc_entry", F1 stub_remove_ipmc_entry);
  ("set_ipmc_entry_attribute", F2 stub_set_ipmc_entry_attribute);
  ("get_ipmc_entry_attribute", F3 stub_get_ipmc_entry_attribute)].

Definition stub_create_rpf_group (rpf_group_id switch_id attr_count attr_list : Z) : W → Z * W :=
  stub (create "RPF_GROUP" rpf_group_id switch_id attr_count attr_list).
Definition stub_remove_rpf_group (rpf_group_id : Z) : W → Z * W := stub (remove "RPF_GROUP" rpf_group_id).
Definition stub_set_rpf_group_attribute (rpf_group_id attr : Z) : W → Z * W :=
  stub (set "RPF_GROUP" rpf_group_id attr).
Definition stub_get_rpf_group_attribute (rpf_group_id attr_count attr_list : Z) : W → Z * W :=
  stub (get "RPF_GROUP" rpf_group_id attr_count attr_list).
Definition stub_create_rpf_group_member (rpf_group_member_id switch_id attr_count attr_list : Z) : W → Z * W :=
  stub (create "RPF_GROUP_MEMBER" rpf_group_member_id switch_id attr_count attr_list).
Definition stub_remove_rpf_group_member (rpf_group_member_id : Z) : W → Z * W :=
  stub (remove "RPF_GROUP_MEMBER" rpf_group_member_id).
Definition stub_set_rpf_group_member_attribute (rpf_group_member_id attr : Z) : W → Z * W :=
  stub (set "RPF_GROUP_MEMBER" rpf_group_member_id attr).
Definition stub_get_rpf_group_member_attribute (rpf_group_member_id attr_count attr_list : Z) : W → Z * W :=
  stub (get "RPF_GROUP_MEMBER" rpf_group_member_id attr_count attr_list).

Definition stub_rpf_group : api_table := [
  ("create_rpf_group", F4 stub_create_rpf_group);
  ("remove_rpf_group", F1 stub_remove_rpf_group);
  ("set_rpf_group_attribute", F2 stub_set_rpf_group_attribute);
  ("get_rpf_group_attribute", F3 stub_get_rpf_group_attribute);
  ("create_rpf_group_member", F4 stub_create_rpf_group_member);
  ("remove_rpf_group_member", F1 stub_remove_rpf_group_member);
  ("set_rpf_group_member_attribute", F2 stub_set_rpf_group_member_attribute);
  ("get_rpf_group_member_attribute", F3 stub_get_rpf_group_member_attribute)].

Definition stub_create_l2mc_group (l2mc_group_id switch_id attr_count attr_list : Z) : W → Z * W :=
  stub (create "L2MC_GROUP" l2mc_group_id switch_id attr_count attr_list).
Definition stub_remove_l2mc_group (l2mc_group_id : Z) : W → Z * W :=
  stub (remove "L2MC_GROUP" l2mc_group_id).
Definition stub_set_l2mc_group_attribute (l2mc_group_id attr : Z) : W → Z * W :=
  stub (set "L2MC_GROUP" l2mc_group_id attr).
Definition stub_get_l2mc_group_attribute (l2mc_group_id attr_count attr_list : Z) : W → Z * W :=
  stub (get "L2MC_GROUP" l2mc_group_id attr_count attr_list).
Definition stub_create_l2mc_group_member (l2mc_group_member_id switch_id attr_count attr_list : Z) : W → Z * W :=
  stub (create "L2MC_GROUP_MEMBER" l2mc_group_member_id switch_id attr_count attr_list).
Definition stub_remove_l2mc_group_member (l2mc_group_member_id : Z) : W → Z * W :=
  stub (remove "L2MC_GROUP_MEMBER" l2mc_group_member_id).
Definition stub_set_l2mc_group_member_attribute (l2mc_group_member_id attr : Z) : W → Z * W :=
  stub (set "L2MC_GROUP_MEMBER" l2mc_group_member_id attr).
Definition stub_get_l2mc_group_member_attribute (l2mc_group_member_id attr_count attr_list : Z) : W → Z * W :=
  stub (get "L2MC_GROUP_MEMBER" l2mc_group_member_id attr_count attr_list).

Definition stub_l2mc_group : api_table := [
  ("create_l2mc_group", F4 stub_create_l2mc_group);
  ("remove_l2mc_group", F1 stub_remove_l2mc_group);
  ("set_l2mc_group_attribute", F2 stub_set_l2mc_group_attribute);
  ("get_l2mc_group_attribute", F3 stub_get_l2mc_group_attribute);
  ("create_l2mc_group_member", F4 stub_create_l2mc_group_member);
  ("remove_l2mc_group_member", F1 stub_remove_l2mc_group_member);
  ("set_l2mc_group_member_attribute", F2 stub_set_l2mc_group_member_attribute);
  ("get_l2mc_group_member_attribute", F3 stub_get_l2mc_group_member_attribute)].

Definition stub_create_ipmc_group (ipmc_group_id switch_id attr_count attr_list : Z) : W → Z * W :=
  stub (create "IPMC_GROUP" ipmc_group_id switch_id attr_count attr_list).
Definition stub_remove_ipmc_group (ipmc_group_id : Z) : W → Z * W :=
  stub (remove "IPMC_GROUP" ipmc_group_id).
Definition stub_set_ipmc_group_attribute (ipmc_group_id attr : Z) : W → Z * W :=
  stub (set "IPMC_GROUP" ipmc_group_id attr).
Definition stub_get_ipmc_group_attribute (ipmc_group_id attr_count attr_list : Z) : W → Z * W :=
  stub (get "IPMC_GROUP" ipmc_group_id attr_count attr_list).
Definition stub_create_ipmc_group_member (ipmc_group_member_id switch_id attr_count attr_list : Z) : W → Z * W :=
  stub (create "IPMC_GROUP_MEMBER" ipmc_group_member_id switch_id attr_count attr_list).
Definition stub_remove_ipmc_group_member (ipmc_group_member_id : Z) : W → Z * W :=
  stub (remove "IPMC_GROUP_MEMBER" ipmc_group_member_id).
Definition stub_set_ipmc_group_member_attribute (ipmc_group_member_id attr : Z) : W → Z * W :=
  stub (set "IPMC_GROUP_MEMBER" ipmc_group_member_id attr).
Definition stub_get_ipmc_group_member_attribute (ipmc_group_member_id attr_count attr_list : Z) : W → Z * W :=
  stub (get "IPMC_GROUP_MEMBER" ipmc_group_member_id attr_count attr_list).
Definition stub_create_ipmc_groups (switch_id object_count attr_count attr_list mode object_id object_statuses : Z) : W → Z * W :=
  stub (bulkCreate "IPMC_GROUP" switch_id object_count attr_count attr_list mode object_id object_statuses).
Definition stub_remove_ipmc_groups (object_count object_id mode object_statuses : Z) : W → Z * W :=
  stub (bulkRemove "IPMC_GROUP" object_count object_id mode object_statuses).
Definition stub_set_ipmc_groups_attribute (object_count object_id attr_list mode object_statuses : Z) : W → Z * W :=
  stub (bulkSet "IPMC_GROUP" object_count object_id attr_list mode object_statuses).
Definition stub_get_ipmc_groups_attribute (object_count object_id attr_count attr_list mode object_statuses : Z) : W → Z * W :=
  stub (bulkGet "IPMC_GROUP" object_count object_id attr_count attr_list mode object_statuses).

Definition stub_ipmc_group : api_table := [
  ("create_ipmc_group", F4 stub_create_ipmc_group);
  ("remove_ipmc_group", F1 stub_remove_ipmc_group);
  ("set_ipmc_group_attribute", F2 stub_set_ipmc_group_attribute);
  ("get_ipmc_group_attribute", F3 stub_get_ipmc_group_attribute);
  ("create_ipmc_group_member", F4 stub_create_ipmc_group_member);
  ("remove_ipmc_group_member", F1 stub_remove_ipmc_group_member);
  ("set_ipmc_group_member_attribute", F2 stub_set_ipmc_group_member_attribute);
  ("get_ipmc_group_member_attribute", F3 stub_get_ipmc_group_member_attribute);
  ("create_ipmc_groups", F7 stub_create_ipmc_groups);
  ("remove_ipmc_groups", F4 stub_remove_ipmc_groups);
  ("set_ipmc_groups_attribute", F5 stub_set_ipmc_groups_attribute);
  ("get_ipmc_groups_attribute", F6 stub_get_ipmc_groups_attribute)].

Definition stub_create_mcast_fdb_entry (mcast_fdb_entry attr_count attr_list : Z) : W → Z * W :=
  stub (create_e "mcast_fdb_entry" mcast_fdb_entry attr_count attr_list).
Definition stub_remove_mcast_fdb_entry (mcast_fdb_entry : Z) : W → Z * W :=
  stub (remove_e "mcast_fdb_entry" mcast_fdb_entry).
Definition stub_set_mcast_fdb_entry_attribute (mcast_fdb_entry attr : Z) : W → Z * W :=
  stub (set_e "mcast_fdb_entry" mcast_fdb_entry attr).
Definition stub_get_mcast_fdb_entry_attribute (mcast_fdb_entry attr_count attr_list : Z) : W → Z * W :=
  stub (get_e "mcast_fdb_entry" mcast_fdb_entry attr_count attr_list).

Definition stub_mcast_fdb : api_table := [
  ("create_mcast_fdb_entry", F3 stub_create_mcast_fdb_entry);
  ("remove_mcast_fdb_entry", F1 stub_remove_mcast_fdb_entry);
  ("set_mcast_fdb_entry_attribute", F2 stub_set_mcast_fdb_entry_attribute);
  ("get_mcast_fdb_entry_attribute", F3 stub_get_mcast_fdb_entry_attribute)].

Definition stub_create_bridge (bridge_id switch_id attr_count attr_list : Z) : W → Z * W :=
  stub (create "BRIDGE" bridge_id switch_id attr_count attr_list).
Definition stub_remove_bridge (bridge_id : Z) : W → Z * W := stub (remove "BRIDGE" bridge_id).
Definition stub_set_bridge_attribute (bridge_id attr : Z) : W → Z * W := stub (set "BRIDGE" bridge_id attr).
Definition stub_get_bridge_attribute (bridge_id attr_count attr_list : Z) : W → Z * W :=
  stub (get "BRIDGE" bridge_id attr_count attr_list).
Definition stub_get_bridge_stats (bridge_id number_of_counters counter_ids counters : Z) : W → Z * W :=
  stub (getStats "BRIDGE" bridge_id number_of_counters counter_ids counters).
Definition stub_get_bridge_stats_ext (bridge_id number_of_counters counter_ids mode counters : Z) : W → Z * W :=
  stub (getStatsExt "BRIDGE" bridge_id number_of_counters counter_ids mode counters).
Definition stub_clear_bridge_stats (bridge_id number_of_counters counter_ids : Z) : W → Z * W :=
  stub (clearStats "BRIDGE" bridge_id number_of_counters counter_ids).
Definition stub_create_bridge_port (bridge_port_id switch_id attr_count attr_list : Z) : W → Z * W :=
  stub (create "BRIDGE_PORT" bridge_port_id switch_id attr_count attr_list).
Definition stub_remove_bridge_port (bridge_port_id : Z) : W → Z * W :=
  stub (remove "BRIDGE_PORT" bridge_port_id).
Definition stub_set_bridge_port_attribute (bridge_port_id attr : Z) : W → Z * W :=
  stub (set "BRIDGE_PORT" bridge_port_id attr).
Definition stub_get_bridge_port_attribute (bridge_port_id attr_count attr_list : Z) : W → Z * W :=
  stub (get "BRIDGE_PORT" bridge_port_id attr_count attr_list).
Definition stub_get_bridge_port_stats (bridge_port_id number_of_counters counter_ids counters : Z) : W → Z * W :=
  stub (getStats "BRIDGE_PORT" bridge_port_id number_of_counters counter_ids counters).
Definition stub_get_bridge_port_stats_ext (bridge_port_id number_of_counters counter_ids mode counters : Z) : W → Z * W :=
  stub (getStatsExt "BRIDGE_PORT" bridge_port_id number_of_counters counter_ids mode counters).
Definition stub_clear_bridge_port_stats (bridge_port_id number_of_counters counter_ids : Z) : W → Z * W :=
  stub (clearStats "BRIDGE_PORT" bridge_port_id number_of_counters counter_ids).

Definition stub_bridge : api_table := [
  ("create_bridge", F4 stub_create_bridge);
  ("remove_bridge", F1 stub_remove_bridge);
  ("set_bridge_attribute", F2 stub_set_bridge_attribute);
  ("get_bridge_attribute", F3 stub_get_bridge_attribute);
  ("get_bridge_stats", F4 stub_get_bridge_stats);
  ("get_bridge_stats_ext", F5 stub_get_bridge_stats_ext);
  ("clear_bridge_stats", F3 stub_clear_bridge_stats);
  ("create_bridge_port", F4 stub_create_bridge_port);
  ("remove_bridge_port", F1 stub_remove_bridge_port);
  ("set_bridge_port_attribute", F2 stub_set_bridge_port_attribute);
  ("get_bridge_port_attribute", F3 stub_get_bridge_port_attribute);
  ("get_bridge_port_stats", F4 stub_get_bridge_port_stats);
  ("get_bridge_port_stats_ext", F5 stub_get_bridge_port_stats_ext);
  ("clear_bridge_port_stats", F3 stub_clear_bridge_port_stats)].

Definition stub_create_tam (tam_id switch_id attr_count attr_list : Z) : W → Z * W :=
  stub (create "TAM" tam_id switch_id attr_count attr_list).
Definition stub_remove_tam (tam_id : Z) : W → Z * W := stub (remove "TAM" tam_id).
Definition stub_set_tam_attribute (tam_id attr : Z) : W → Z * W := stub (set "TAM" tam_id attr).
Definition stub_get_tam_attribute (tam_id attr_count attr_list : Z) : W → Z * W :=
  stub (get "TAM" tam_id attr_count attr_list).
Definition stub_create_tam_math_func (tam_math_func_id switch_id attr_count attr_list : Z) : W → Z * W :=
  stub (create "TAM_MATH_FUNC" tam_math_func_id switch_id attr_count attr_list).
Definition stub_remove_tam_math_func (tam_math_func_id : Z) : W → Z * W :=
  stub (remove "TAM_MATH_FUNC" tam_math_func_id).
Definition stub_set_tam_math_func_attribute (tam_math_func_id attr : Z) : W → Z * W :=
  stub (set "TAM_MATH_FUNC" tam_math_func_id attr).
Definition stub_get_tam_math_func_attribute (tam_math_func_id attr_count attr_list : Z) : W → Z * W :=
  stub (get "TAM_MATH_FUNC" tam_math_func_id attr_count attr_list).
Definition stub_create_tam_report (tam_report_id switch_id attr_count attr_list : Z) : W → Z * W :=
  stub (create "TAM_REPORT" tam_report_id switch_id attr_count attr_list).
Definition stub_remove_tam_report (tam_report_id : Z) : W → Z * W :=
  stub (remove "TAM_REPORT" tam_report_id).
Definition stub_set_tam_report_attribute (tam_report_id attr : Z) : W → Z * W :=
  stub (set "TAM_REPORT" tam_report_id attr).
Definition stub_get_tam_report_attribute (tam_report_id attr_count attr_list : Z) : W → Z * W :=
  stub (get "TAM_REPORT" tam_report_id attr_count attr_list).
Definition stub_create_tam_event_threshold (tam_event_threshold_id switch_id attr_count attr_list : Z) : W → Z * W :=
  stub (create "TAM_EVENT_THRESHOLD" tam_event_threshold_id switch_id attr_count attr_list).
Definition stub_remove_tam_event_threshold (tam_event_threshold_id : Z) : W → Z * W :=
  stub (remove "TAM_EVENT_THRESHOLD" tam_event_threshold_id).
Definition stub_set_tam_event_threshold_attribute (tam_event_threshold_id attr : Z) : W → Z * W :=
  stub (set "TAM_EVENT_THRESHOLD" tam_event_threshold_id attr).
Definition stub_get_tam_event_threshold_attribute (tam_event_threshold_id attr_count attr_list : Z) : W → Z * W :=
  stub (get "TAM_EVENT_THRESHOLD" tam_event_threshold_id attr_count attr_list).
Definition stub_create_tam_int (tam_int_id switch_id attr_count attr_list : Z) : W → Z * W :=
  stub (create "TAM_INT" tam_int_id switch_id attr_count attr_list).
Definition stub_remove_tam_int (tam_int_id : Z) : W → Z * W := stub (remove "TAM_INT" tam_int_id).
Definition stub_set_tam_int_attribute (tam_int_id attr : Z) : W → Z * W :=
  stub (set "TAM_INT" tam_int_id attr).
Definition stub_get_tam_int_attribute (tam_int_id attr_count attr_list : Z) : W → Z * W :=
  stub (get "TAM_INT" tam_int_id attr_count attr_list).
Definition stub_create_tam_tel_type (tam_tel_type_id switch_id attr_count attr_list : Z) : W → Z * W :=
  stub (create "TAM_TEL_TYPE" tam_tel_type_id switch_id attr_count attr_list).
Definition stub_remove_tam_tel_type (tam_tel_type_id : Z) : W → Z * W :=
  stub (remove "TAM_TEL_TYPE" tam_tel_type_id).
Definition stub_set_tam_tel_type_attribute (tam_tel_type_id attr : Z) : W → Z * W :=
  stub (set "TAM_TEL_TYPE" tam_tel_type_id attr).
Definition stub_get_tam_tel_type_attribute (tam_tel_type_id attr_count attr_list : Z) : W → Z * W :=
  stub (get "TAM_TEL_TYPE" tam_tel_type_id attr_count attr_list).
Definition stub_create_tam_transport (tam_transport_id switch_id attr_count attr_list : Z) : W → Z * W :=
  stub (create "TAM_TRANSPORT" tam_transport_id switch_id attr_count attr_list).
Definition stub_remove_tam_transport (tam_transport_id : Z) : W → Z * W :=
  stub (remove "TAM_TRANSPORT" tam_transport_id).
Definition stub_set_tam_transport_attribute (tam_transport_id attr : Z) : W → Z * W :=
  stub (set "TAM_TRANSPORT" tam_transport_id attr).
Definition stub_get_tam_transport_attribute (tam_transport_id attr_count attr_list : Z) : W → Z * W :=
  stub (get "TAM_TRANSPORT" tam_transport_id attr_count attr_list).
Definition stub_create_tam_telemetry (tam_telemetry_id switch_id attr_count attr_list : Z) : W → Z * W :=
  stub (create "TAM_TELEMETRY" tam_telemetry_id switch_id attr_count attr_list).
Definition stub_remove_tam_telemetry (tam_telemetry_id : Z) : W → Z * W :=
  stub (remove "TAM_TELEMETRY" tam_telemetry_id).
Definition stub_set_tam_telemetry_attribute (tam_telemetry_id attr : Z) : W → Z * W :=
  stub (set "TAM_TELEMETRY" tam_telemetry_id attr).
Definition stub_get_tam_telemetry_attribute (tam_telemetry_id attr_count attr_list : Z) : W → Z * W :=
  stub (get "TAM_TELEMETRY" tam_telemetry_id attr_count attr_list).
Definition stub_create_tam_collector (tam_collector_id switch_id attr_count attr_list : Z) : W → Z * W :=
  stub (create "TAM_COLLECTOR" tam_collector_id switch_id attr_count attr_list).
Definition stub_remove_tam_collector (tam_collector_id : Z) : W → Z * W :=
  stub (remove "TAM_COLLECTOR" tam_collector_id).
Definition stub_set_tam_collector_attribute (tam_collector_id attr : Z) : W → Z * W :=
  stub (set "TAM_COLLECTOR" tam_collector_id attr).
Definition stub_get_tam_collector_attribute (tam_collector_id attr_count attr_list : Z) : W → Z * W :=
  stub (get "TAM_COLLECTOR" tam_collector_id attr_count attr_list).
Definition stub_create_tam_event_action (tam_event_action_id switch_id attr_count attr_list : Z) : W → Z * W :=
  stub (create "TAM_EVENT_ACTION" tam_event_action_id switch_id attr_count attr_list).
Definition stub_remove_tam_event_action (tam_event_action_id : Z) : W → Z * W :=
  stub (remove "TAM_EVENT_ACTION" tam_event_action_id).
Definition stub_set_tam_event_action_attribute (tam_event_action_id attr : Z) : W → Z * W :=
  stub (set "TAM_EVENT_ACTION" tam_event_action_id attr).
Definition stub_get_tam_event_action_attribute (tam_event_action_id attr_count attr_list : Z) : W → Z * W :=
  stub (get "TAM_EVENT_ACTION" tam_event_action_id attr_count attr_list).
Definition stub_create_tam_event (tam_event_id switch_id attr_count attr_list : Z) : W → Z * W :=
  stub (create "TAM_EVENT" tam_event_id switch_id attr_count attr_list).
Definition stub_remove_tam_event (tam_event_id : Z) : W → Z * W := stub (remove "TAM_EVENT" tam_event_id).
Definition stub_set_tam_event_attribute (tam_event_id attr : Z) : W → Z * W :=
  stub (set "TAM_EVENT" tam_event_id attr).
Definition stub_get_tam_event_attribute (tam_event_id attr_count attr_list : Z) : W → Z * W :=
  stub (get "TAM_EVENT" tam_event_id attr_count attr_list).
Definition stub_create_tam_counter_subscription (tam_counter_subscription_id switch_id attr_count attr_list : Z) : W → Z * W :=
  stub (create "TAM_COUNTER_SUBSCRIPTION" tam_counter_subscription_id switch_id attr_count attr_list).
Definition stub_remove_tam_counter_subscription (tam_counter_subscription_id : Z) : W → Z * W :=
  stub (remove "TAM_COUNTER_SUBSCRIPTION" tam_counter_subscription_id).
Definition stub_set_tam_counter_subscription_attribute (tam_counter_subscription_id attr : Z) : W → Z * W :=
  stub (set "TAM_COUNTER_SUBSCRIPTION" tam_counter_subscription_id attr).
Definition stub_get_tam_counter_subscription_attribute (tam_counter_subscription_id attr_count attr_list : Z) : W → Z * W :=
  stub (get "TAM_COUNTER_SUBSCRIPTION" tam_counter_subscription_id attr_count attr_list).
Definition stub_create_tam_counter_subscriptions (switch_id object_count attr_count attr_list mode object_id object_statuses : Z) : W → Z * W :=
  stub (bulkCreate "TAM_COUNTER_SUBSCRIPTION" switch_id object_count attr_count attr_list mode object_id object_statuses).
Definition stub_remove_tam_counter_subscriptions (object_count object_id mode object_statuses : Z) : W → Z * W :=
  stub (bulkRemove "TAM_COUNTER_SUBSCRIPTION" object_count object_id mode object_statuses).

Definition stub_tam : api_table := [
  ("create_tam", F4 stub_create_tam);
  ("remove_tam", F1 stub_remove_tam);
  ("set_tam_attribute", F2 stub_set_tam_attribute);
  ("get_tam_attribute", F3 stub_get_tam_attribute);
  ("create_tam_math_func", F4 stub_create_tam_math_func);
  ("remove_tam_math_func", F1 stub_remove_tam_math_func);
  ("set_tam_math_func_attribute", F2 stub_set_tam_math_func_attribute);
  ("get_tam_math_func_attribute", F3 stub_get_tam_math_func_attribute);
  ("create_tam_report", F4 stub_create_tam_report);
  ("remove_tam_report", F1 stub_remove_tam_report);
  ("set_tam_report_attribute", F2 stub_set_tam_report_attribute);
  ("get_tam_report_attribute", F3 stub_get_tam_report_attribute);
  ("create_tam_event_threshold", F4 stub_create_tam_event_threshold);
  ("remove_tam_event_threshold", F1 stub_remove_tam_event_threshold);
  ("set_tam_event_threshold_attribute", F2 stub_set_tam_event_threshold_attribute);
  ("get_tam_event_threshold_attribute", F3 stub_get_tam_event_threshold_attribute);
  ("create_tam_int", F4 stub_create_tam_int);
  ("remove_tam_int", F1 stub_remove_tam_int);
  ("set_tam_int_attribute", F2 stub_set_tam_int_attribute);
  ("get_tam_int_attribute", F3 stub_get_tam_int_attribute);
  ("create_tam_tel_type", F4 stub_create_tam_tel_type);
  ("remove_tam_tel_type", F1 stub_remove_tam_tel_type);
  ("set_tam_tel_type_attribute", F2 stub_set_tam_tel_type_attribute);
  ("get_tam_tel_type_attribute", F3 stub_get_tam_tel_type_attribute);
  ("create_tam_transport", F4 stub_create_tam_transport);
  ("remove_tam_transport", F1 stub_remove_tam_transport);
  ("set_tam_transport_attribute", F2 stub_set_tam_transport_attribute);
  ("get_tam_transport_attribute", F3 stub_get_tam_transport_attribute);
  ("create_tam_telemetry", F4 stub_create_tam_telemetry);
  ("remove_tam_telemetry", F1 stub_remove_tam_telemetry);
  ("set_tam_telemetry_attribute", F2 stub_set_tam_telemetry_attribute);
  ("get_tam_telemetry_attribute", F3 stub_get_tam_telemetry_attribute);
  ("create_tam_collector", F4 stub_create_tam_collector);
  ("remove_tam_collector", F1 stub_remove_tam_collector);
  ("set_tam_collector_attribute", F2 stub_set_tam_collector_attribute);
  ("get_tam_collector_attribute", F3 stub_get_tam_collector_attribute);
  ("create_tam_event_action", F4 stub_create_tam_event_action);
  ("remove_tam_event_action", F1 stub_remove_tam_event_action);
  ("set_tam_event_action_attribute", F2 stub_set_tam_event_action_attribute);
  ("get_tam_event_action_attribute", F3 stub_get_tam_event_action_attribute);
  ("create_tam_event", F4 stub_create_tam_event);
  ("remove_tam_event", F1 stub_remove_tam_event);
  ("set_tam_event_attribute", F2 stub_set_tam_event_attribute);
  ("get_tam_event_attribute", F3 stub_get_tam_event_attribute);
  ("create_tam_counter_subscription", F4 stub_create_tam_counter_subscription);
  ("remove_tam_counter_subscription", F1 stub_remove_tam_counter_subscription);
  ("set_tam_counter_subscription_attribute", F2 stub_set_tam_counter_subscription_attribute);
  ("get_tam_counter_subscription_attribute", F3 stub_get_tam_counter_subscription_attribute);
  ("create_tam_counter_subscriptions", F7 stub_create_tam_counter_subscriptions);
  ("remove_tam_counter_subscriptions", F4 stub_remove_tam_counter_subscriptions)].

Definition stub_create_srv6_sidlist (srv6_sidlist_id switch_id attr_count attr_list : Z) : W → Z * W :=
  stub (create "SRV6_SIDLIST" srv6_sidlist_id switch_id attr_count attr_list).
Definition stub_remove_srv6_sidlist (srv6_sidlist_id : Z) : W → Z * W :=
  stub (remove "SRV6_SIDLIST" srv6_sidlist_id).
Definition stub_set_srv6_sidlist_attribute (srv6_sidlist_id attr : Z) : W → Z * W :=
  stub (set "SRV6_SIDLIST" srv6_sidlist_id attr).
Definition stub_get_srv6_sidlist_attribute (srv6_sidlist_id attr_count attr_list : Z) : W → Z * W :=
  stub (get "SRV6_SIDLIST" srv6_sidlist_id attr_count attr_list).
Definition stub_create_srv6_sidlists (switch_id object_count attr_count attr_list mode object_id object_statuses : Z) : W → Z * W :=
  stub (bulkCreate "SRV6_SIDLIST" switch_id object_count attr_count attr_list mode object_id object_statuses).
Definition stub_remove_srv6_sidlists (object_count object_id mode object_statuses : Z) : W → Z * W :=
  stub (bulkRemove "SRV6_SIDLIST" object_count object_id mode object_statuses).
Definition stub_get_srv6_sidlist_stats (srv6_sidlist_id number_of_counters counter_ids counters : Z) : W → Z * W :=
  stub (getStats "SRV6_SIDLIST" srv6_sidlist_id number_of_counters counter_ids counters).
Definition stub_get_srv6_sidlist_stats_ext (srv6_sidlist_id number_of_counters counter_ids mode counters : Z) : W → Z * W :=
  stub (getStatsExt "SRV6_SIDLIST" srv6_sidlist_id number_of_counters counter_ids mode counters).
Definition stub_clear_srv6_sidlist_stats (srv6_sidlist_id number_of_counters counter_ids : Z) : W → Z * W :=
  stub (clearStats "SRV6_SIDLIST" srv6_sidlist_id number_of_counters counter_ids).
Definition stub_create_my_sid_entry (my_sid_entry attr_count attr_list : Z) : W → Z * W :=
  stub (create_e "my_sid_entry" my_sid_entry attr_count attr_list).
Definition stub_remove_my_sid_entry (my_sid_entry : Z) : W → Z * W :=
  stub (remove_e "my_sid_entry" my_sid_entry).
Definition stub_set_my_sid_entry_attribute (my_sid_entry attr : Z) : W → Z * W :=
  stub (set_e "my_sid_entry" my_sid_entry attr).
Definition stub_get_my_sid_entry_attribute (my_sid_entry attr_count attr_list : Z) : W → Z * W :=
  stub (get_e "my_sid_entry" my_sid_entry attr_count attr_list).
Definition stub_create_my_sid_entries (object_count my_sid_entry attr_count attr_list mode object_statuses : Z) : W → Z * W :=
  stub (bulkCreate_e "my_sid_entry" object_count my_sid_entry attr_count attr_list mode object_statuses).
Definition stub_remove_my_sid_entries (object_count my_sid_entry mode object_statuses : Z) : W → Z * W :=
  stub (bulkRemove_e "my_sid_entry" object_count my_sid_entry mode object_statuses).
Definition stub_set_my_sid_entries_attribute (object_count my_sid_entry attr_list mode object_statuses : Z) : W → Z * W :=
  stub (bulkSet_e "my_sid_entry" object_count my_sid_entry attr_list mode object_statuses).
Definition stub_get_my_sid_entries_attribute (object_count my_sid_entry attr_count attr_list mode object_statuses : Z) : W → Z * W :=
  stub (bulkGet_e "my_sid_entry" object_count my_sid_entry attr_count attr_list mode object_statuses).

Definition stub_srv6 : api_table := [
  ("create_srv6_sidlist", F4 stub_create_srv6_sidlist);
  ("remove_srv6_sidlist", F1 stub_remove_srv6_sidlist);
  ("set_srv6_sidlist_attribute", F2 stub_set_srv6_sidlist_attribute);
  ("get_srv6_sidlist_attribute", F3 stub_get_srv6_sidlist_attribute);
  ("create_srv6_sidlists", F7 stub_create_srv6_sidlists);
  ("remove_srv6_sidlists", F4 stub_remove_srv6_sidlists);
  ("get_srv6_sidlist_stats", F4 stub_get_srv6_sidlist_stats);
  ("get_srv6_sidlist_stats_ext", F5 stub_get_srv6_sidlist_stats_ext);
  ("clear_srv6_sidlist_stats", F3 stub_clear_srv6_sidlist_stats);
  ("create_my_sid_entry", F3 stub_create_my_sid_entry);
  ("remove_my_sid_entry", F1 stub_remove_my_sid_entry);
  ("set_my_sid_entry_attribute", F2 stub_set_my_sid_entry_attribute);
  ("get_my_sid_entry_attribute", F3 stub_get_my_sid_entry_attribute);
  ("create_my_sid_entries", F6 stub_create_my_sid_entries);
  ("remove_my_sid_entries", F4 stub_remove_my_sid_entries);
  ("set_my_sid_entries_attribute", F5 stub_set_my_sid_entries_attribute);
  ("get_my_sid_entries_attribute", F6 stub_get_my_sid_entries_attribute)].

Definition stub_create_inseg_entry (inseg_entry attr_count attr_list : Z) : W → Z * W :=
  stub (create_e "inseg_entry" inseg_entry attr_count attr_list).
Definition stub_remove_inseg_entry (inseg_entry : Z) : W → Z * W :=
  stub (remove_e "inseg_entry" inseg_entry).
Definition stub_set_inseg_entry_attribute (inseg_entry attr : Z) : W → Z * W :=
  stub (set_e "inseg_entry" inseg_entry attr).
Definition stub_get_inseg_entry_attribute (inseg_entry attr_count attr_list : Z) : W → Z * W :=
  stub (get_e "inseg_entry" inseg_entry attr_count attr_list).
Definition stub_create_inseg_entries (object_count inseg_entry attr_count attr_list mode object_statuses : Z) : W → Z * W :=
  stub (bulkCreate_e "inseg_entry" object_count inseg_entry attr_count attr_list mode object_statuses).
Definition stub_remove_inseg_entries (object_count inseg_entry mode object_statuses : Z) : W → Z * W :=
  stub (bulkRemove_e "inseg_entry" object_count inseg_entry mode object_statuses).
Definition stub_set_inseg_entries_attribute (object_count inseg_entry attr_list mode object_statuses : Z) : W → Z * W :=
  stub (bulkSet_e "inseg_entry" object_count inseg_entry attr_list mode object_statuses).
Definition stub_get_inseg_entries_attribute (object_count inseg_entry attr_count attr_list mode object_statuses : Z) : W → Z * W :=
  stub (bulkGet_e "inseg_entry" object_count inseg_entry attr_count attr_list mode object_statuses).

Definition stub_mpls : api_table := [
  ("create_inseg_entry", F3 stub_create_inseg_entry);
  ("remove_inseg_entry", F1 stub_remove_inseg_entry);
  ("set_inseg_entry_attribute", F2 stub_set_inseg_entry_attribute);
  ("get_inseg_entry_attribute", F3 stub_get_inseg_entry_attribute);
  ("create_inseg_entries", F6 stub_create_inseg_entries);
  ("remove_inseg_entries", F4 stub_remove_inseg_entries);
  ("set_inseg_entries_attribute", F5 stub_set_inseg_entries_attribute);
  ("get_inseg_entries_attribute", F6 stub_get_inseg_entries_attribute)].

Definition stub_create_dtel (dtel_id switch_id attr_count attr_list : Z) : W → Z * W :=
  stub (create "DTEL" dtel_id switch_id attr_count attr_list).
Definition stub_remove_dtel (dtel_id : Z) : W → Z * W := stub (remove "DTEL" dtel_id).
Definition stub_set_dtel_attribute (dtel_id attr : Z) : W → Z * W := stub (set "DTEL" dtel_id attr).
Definition stub_get_dtel_attribute (dtel_id attr_count attr_list : Z) : W → Z * W :=
  stub (get "DTEL" dtel_id attr_count attr_list).
Definition stub_create_dtel_queue_report (dtel_queue_report_id switch_id attr_count attr_list : Z) : W → Z * W :=
  stub (create "DTEL_QUEUE_REPORT" dtel_queue_report_id switch_id attr_count attr_list).
Definition stub_remove_dtel_queue_report (dtel_queue_report_id : Z) : W → Z * W :=
  stub (remove "DTEL_QUEUE_REPORT" dtel_queue_report_id).
Definition stub_set_dtel_queue_report_attribute (dtel_queue_report_id attr : Z) : W → Z * W :=
  stub (set "DTEL_QUEUE_REPORT" dtel_queue_report_id attr).
Definition stub_get_dtel_queue_report_attribute (dtel_queue_report_id attr_count attr_list : Z) : W → Z * W :=
  stub (get "DTEL_QUEUE_REPORT" dtel_queue_report_id attr_count attr_list).
Definition stub_create_dtel_int_session (dtel_int_session_id switch_id attr_count attr_list : Z) : W → Z * W :=
  stub (create "DTEL_INT_SESSION" dtel_int_session_id switch_id attr_count attr_list).
Definition stub_remove_dtel_int_session (dtel_int_session_id : Z) : W → Z * W :=
  stub (remove "DTEL_INT_SESSION" dtel_int_session_id).
Definition stub_set_dtel_int_session_attribute (dtel_int_session_id attr : Z) : W → Z * W :=
  stub (set "DTEL_INT_SESSION" dtel_int_session_id attr).
Definition stub_get_dtel_int_session_attribute (dtel_int_session_id attr_count attr_list : Z) : W → Z * W :=
  stub (get "DTEL_INT_SESSION" dtel_int_session_id attr_count attr_list).
Definition stub_create_dtel_report_session (dtel_report_session_id switch_id attr_count attr_list : Z) : W → Z * W :=
  stub (create "DTEL_REPORT_SESSION" dtel_report_session_id switch_id attr_count attr_list).
Definition stub_remove_dtel_report_session (dtel_report_session_id : Z) : W → Z * W :=
  stub (remove "DTEL_REPORT_SESSION" dtel_report_session_id).
Definition stub_set_dtel_report_session_attribute (dtel_report_session_id attr : Z) : W → Z * W :=
  stub (set "DTEL_REPORT_SESSION" dtel_report_session_id attr).
Definition stub_get_dtel_report_session_attribute (dtel_report_session_id attr_count attr_list : Z) : W → Z * W :=
  stub (get "DTEL_REPORT_SESSION" dtel_report_session_id attr_count attr_list).
Definition stub_create_dtel_event (dtel_event_id switch_id attr_count attr_list : Z) : W → Z * W :=
  stub (create "DTEL_EVENT" dtel_event_id switch_id attr_count attr_list).
Definition stub_remove_dtel_event (dtel_event_id : Z) : W → Z * W :=
  stub (remove "DTEL_EVENT" dtel_event_id).
Definition stub_set_dtel_event_attribute (dtel_event_id attr : Z) : W → Z * W :=
  stub (set "DTEL_EVENT" dtel_event_id attr).
Definition stub_get_dtel_event_attribute (dtel_event_id attr_count attr_list : Z) : W → Z * W :=
  stub (get "DTEL_EVENT" dtel_event_id attr_count attr_list).

Definition stub_dtel : api_table := [
  ("create_dtel", F4 stub_create_dtel);
  ("remove_dtel", F1 stub_remove_dtel);
  ("set_dtel_attribute", F2 stub_set_dtel_attribute);
  ("get_dtel_attribute", F3 stub_get_dtel_attribute);
  ("create_dtel_queue_report", F4 stub_create_dtel_queue_report);
  ("remove_dtel_queue_report", F1 stub_remove_dtel_queue_report);
  ("set_dtel_queue_report_attribute", F2 stub_set_dtel_queue_report_attribute);
  ("get_dtel_queue_report_attribute", F3 stub_get_dtel_queue_report_attribute);
  ("create_dtel_int_session", F4 stub_create_dtel_int_session);
  ("remove_dtel_int_session", F1 stub_remove_dtel_int_session);
  ("set_dtel_int_session_attribute", F2 stub_set_dtel_int_session_attribute);
  ("get_dtel_int_session_attribute", F3 stub_get_dtel_int_session_attribute);
  ("create_dtel_report_session", F4 stub_create_dtel_report_session);
  ("remove_dtel_report_session", F1 stub_remove_dtel_report_session);
  ("set_dtel_report_session_attribute", F2 stub_set_dtel_report_session_attribute);
  ("get_dtel_report_session_attribute", F3 stub_get_dtel_report_session_attribute);
  ("create_dtel_event", F4 stub_create_dtel_event);
  ("remove_dtel_event", F1 stub_remove_dtel_event);
  ("set_dtel_event_attribute", F2 stub_set_dtel_event_attribute);
  ("get_dtel_event_attribute", F3 stub_get_dtel_event_attribute)].

Definition stub_create_bfd_session (bfd_session_id switch_id attr_count attr_list : Z) : W → Z * W :=
  stub (create "BFD_SESSION" bfd_session_id switch_id attr_count attr_list).
Definition stub_remove_bfd_session (bfd_session_id : Z) : W → Z * W :=
  stub (remove "BFD_SESSION" bfd_session_id).
Definition stub_set_bfd_session_attribute (bfd_session_id attr : Z) : W → Z * W :=
  stub (set "BFD_SESSION" bfd_session_id attr).
Definition stub_get_bfd_session_attribute (bfd_session_id attr_count attr_list : Z) : W → Z * W :=
  stub (get "BFD_SESSION" bfd_session_id attr_count attr_list).
Definition stub_get_bfd_session_stats (bfd_session_id number_of_counters counter_ids counters : Z) : W → Z * W :=
  stub (getStats "BFD_SESSION" bfd_session_id number_of_counters counter_ids counters).
Definition stub_get_bfd_session_stats_ext (bfd_session_id number_of_counters counter_ids mode counters : Z) : W → Z * W :=
  stub (getStatsExt "BFD_SESSION" bfd_session_id number_of_counters counter_ids mode counters).
Definition stub_clear_bfd_session_stats (bfd_session_id number_of_counters counter_ids : Z) : W → Z * W :=
  stub (clearStats "BFD_SESSION" bfd_session_id number_of_counters counter_ids).

Definition stub_bfd : api_table := [
  ("create_bfd_session", F4 stub_create_bfd_session);
  ("remove_bfd_session", F1 stub_remove_bfd_session);
  ("set_bfd_session_attribute", F2 stub_set_bfd_session_attribute);
  ("get_bfd_session_attribute", F3 stub_get_bfd_session_attribute);
  ("get_bfd_session_stats", F4 stub_get_bfd_session_stats);
  ("get_bfd_session_stats_ext", F5 stub_get_bfd_session_stats_ext);
  ("clear_bfd_session_stats", F3 stub_clear_bfd_session_stats)].

Definition stub_create_isolation_group (isolation_group_id switch_id attr_count attr_list : Z) : W → Z * W :=
  stub (create "ISOLATION_GROUP" isolation_group_id switch_id attr_count attr_list).
Definition stub_remove_isolation_group (isolation_group_id : Z) : W → Z * W :=
  stub (remove "ISOLATION_GROUP" isolation_group_id).
Definition stub_set_isolation_group_attribute (isolation_group_id attr : Z) : W → Z * W :=
  stub (set "ISOLATION_GROUP" isolation_group_id attr).
Definition stub_get_isolation_group_attribute (isolation_group_id attr_count attr_list : Z) : W → Z * W :=
  stub (get "ISOLATION_GROUP" isolation_group_id attr_count attr_list).
Definition stub_create_isolation_group_member (isolation_group_member_id switch_id attr_count attr_list : Z) : W → Z * W :=
  stub (create "ISOLATION_GROUP_MEMBER" isolation_group_member_id switch_id attr_count attr_list).
Definition stub_remove_isolation_group_member (isolation_group_member_id : Z) : W → Z * W :=
  stub (remove "ISOLATION_GROUP_MEMBER" isolation_group_member_id).
Definition stub_set_isolation_group_member_attribute (isolation_group_member_id attr : Z) : W → Z * W :=
  stub (set "ISOLATION_GROUP_MEMBER" isolation_group_member_id attr).
Definition stub_get_isolation_group_member_attribute (isolation_group_member_id attr_count attr_list : Z) : W → Z * W :=
  stub (get "ISOLATION_GROUP_MEMBER" isolation_group_member_id attr_count attr_list).

Definition stub_isolation_group : api_table := [
  ("create_isolation_group", F4 stub_create_isolation_group);
  ("remove_isolation_group", F1 stub_remove_isolation_group);
  ("set_isolation_group_attribute", F2 stub_set_isolation_group_attribute);
  ("get_isolation_group_attribute", F3 stub_get_isolation_group_attribute);
  ("create_isolation_group_member", F4 stub_create_isolation_group_member);
  ("remove_isolation_group_member", F1 stub_remove_isolation_group_member);
  ("set_isolation_group_member_attribute", F2 stub_set_isolation_group_member_attribute);
  ("get_isolation_group_member_attribute", F3 stub_get_isolation_group_member_attribute)].

Definition stub_create_nat_entry (nat_entry attr_count attr_list : Z) : W → Z * W :=
  stub (create_e "nat_entry" nat_entry attr_count attr_list).
Definition stub_remove_nat_entry (nat_entry : Z) : W → Z * W := stub (remove_e "nat_entry" nat_entry).
Definition stub_set_nat_entry_attribute (nat_entry attr : Z) : W → Z * W :=
  stub (set_e "nat_entry" nat_entry attr).
Definition stub_get_nat_entry_attribute (nat_entry attr_count attr_list : Z) : W → Z * W :=
  stub (get_e "nat_entry" nat_entry attr_count attr_list).
Definition stub_create_nat_entries (object_count nat_entry attr_count attr_list mode object_statuses : Z) : W → Z * W :=
  stub (bulkCreate_e "nat_entry" object_count nat_entry attr_count attr_list mode object_statuses).
Definition stub_remove_nat_entries (object_count nat_entry mode object_statuses : Z) : W → Z * W :=
  stub (bulkRemove_e "nat_entry" object_count nat_entry mode object_statuses).
Definition stub_set_nat_entries_attribute (object_count nat_entry attr_list mode object_statuses : Z) : W → Z * W :=
  stub (bulkSet_e "nat_entry" object_count nat_entry attr_list mode object_statuses).
Definition stub_get_nat_entries_attribute (object_count nat_entry attr_count attr_list mode object_statuses : Z) : W → Z * W :=
  stub (bulkGet_e "nat_entry" object_count nat_entry attr_count attr_list mode object_statuses).
Definition stub_create_nat_zone_counter (nat_zone_counter_id switch_id attr_count attr_list : Z) : W → Z * W :=
  stub (create "NAT_ZONE_COUNTER" nat_zone_counter_id switch_id attr_count attr_list).
Definition stub_remove_nat_zone_counter (nat_zone_counter_id : Z) : W → Z * W :=
  stub (remove "NAT_ZONE_COUNTER" nat_zone_counter_id).
Definition stub_set_nat_zone_counter_attribute (nat_zone_counter_id attr : Z) : W → Z * W :=
  stub (set "NAT_ZONE_COUNTER" nat_zone_counter_id attr).
Definition stub_get_nat_zone_counter_attribute (nat_zone_counter_id attr_count attr_list : Z) : W → Z * W :=
  stub (get "NAT_ZONE_COUNTER" nat_zone_counter_id attr_count attr_list).

Definition stub_nat : api_table := [
  ("create_nat_entry", F3 stub_create_nat_entry);
  ("remove_nat_entry", F1 stub_remove_nat_entry);
  ("set_nat_entry_attribute", F2 stub_set_nat_entry_attribute);
  ("get_nat_entry_attribute", F3 stub_get_nat_entry_attribute);
  ("create_nat_entries", F6 stub_create_nat_entries);
  ("remove_nat_entries", F4 stub_remove_nat_entries);
  ("set_nat_entries_attribute", F5 stub_set_nat_entries_attribute);
  ("get_nat_entries_attribute", F6 stub_get_nat_entries_attribute);
  ("create_nat_zone_counter", F4 stub_create_nat_zone_counter);
  ("remove_nat_zone_counter", F1 stub_remove_nat_zone_counter);
  ("set_nat_zone_counter_attribute", F2 stub_set_nat_zone_counter_attribute);
  ("get_nat_zone_counter_attribute", F3 stub_get_nat_zone_counter_attribute)].

Definition stub_create_counter (counter_id switch_id attr_count attr_list : Z) : W → Z * W :=
  stub (create "COUNTER" counter_id switch_id attr_count attr_list).
Definition stub_remove_counter (counter_id : Z) : W → Z * W := stub (remove "COUNTER" counter_id).
Definition stub_set_counter_attribute (counter_id attr : Z) : W → Z * W :=
  stub (set "COUNTER" counter_id attr).
Definition stub_get_counter_attribute (counter_id attr_count attr_list : Z) : W → Z * W :=
  stub (get "COUNTER" counter_id attr_count attr_list).
Definition stub_get_counter_stats (counter_id number_of_counters counter_ids counters : Z) : W → Z * W :=
  stub (getStats "COUNTER" counter_id number_of_counters counter_ids counters).
Definition stub_get_counter_stats_ext (counter_id number_of_counters counter_ids mode counters : Z) : W → Z * W :=
  stub (getStatsExt "COUNTER" counter_id number_of_counters counter_ids mode counters).
Definition stub_clear_counter_stats (counter_id number_of_counters counter_ids : Z) : W → Z * W :=
  stub (clearStats "COUNTER" counter_id number_of_counters counter_ids).

Definition stub_counter : api_table := [
  ("create_counter", F4 stub_create_counter);
  ("remove_counter", F1 stub_remove_counter);
  ("set_counter_attribute", F2 stub_set_counter_attribute);
  ("get_counter_attribute", F3 stub_get_counter_attribute);
  ("get_counter_stats", F4 stub_get_counter_stats);
  ("get_counter_stats_ext", F5 stub_get_counter_stats_ext);
  ("clear_counter_stats", F3 stub_clear_counter_stats)].

Definition stub_create_debug_counter (debug_counter_id switch_id attr_count attr_list : Z) : W → Z * W :=
  stub (create "DEBUG_COUNTER" debug_counter_id switch_id attr_count attr_list).
Definition stub_remove_debug_counter (debug_counter_id : Z) : W → Z * W :=
  stub (remove "DEBUG_COUNTER" debug_counter_id).
Definition stub_set_debug_counter_attribute (debug_counter_id attr : Z) : W → Z * W :=
  stub (set "DEBUG_COUNTER" debug_counter_id attr).
Definition stub_get_debug_counter_attribute (debug_counter_id attr_count attr_list : Z) : W → Z * W :=
  stub (get "DEBUG_COUNTER" debug_counter_id attr_count attr_list).

Definition stub_debug_counter : api_table := [
  ("create_debug_counter", F4 stub_create_debug_counter);
  ("remove_debug_counter", F1 stub_remove_debug_counter);
  ("set_debug_counter_attribute", F2 stub_set_debug_counter_attribute);
  ("get_debug_counter_attribute", F3 stub_get_debug_counter_attribute)].

Definition stub_create_macsec (macsec_id switch_id attr_count attr_list : Z) : W → Z * W :=
  stub (create "MACSEC" macsec_id switch_id attr_count attr_list).
Definition stub_remove_macsec (macsec_id : Z) : W → Z * W := stub (remove "MACSEC" macsec_id).
Definition stub_set_macsec_attribute (macsec_id attr : Z) : W → Z * W := stub (set "MACSEC" macsec_id attr).
Definition stub_get_macsec_attribute (macsec_id attr_count attr_list : Z) : W → Z * W :=
  stub (get "MACSEC" macsec_id attr_count attr_list).
Definition stub_create_macsec_port (macsec_port_id switch_id attr_count attr_list : Z) : W → Z * W :=
  stub (create "MACSEC_PORT" macsec_port_id switch_id attr_count attr_list).
Definition stub_remove_macsec_port (macsec_port_id : Z) : W → Z * W :=
  stub (remove "MACSEC_PORT" macsec_port_id).
Definition stub_set_macsec_port_attribute (macsec_port_id attr : Z) : W → Z * W :=
  stub (set "MACSEC_PORT" macsec_port_id attr).
Definition stub_get_macsec_port_attribute (macsec_port_id attr_count attr_list : Z) : W → Z * W :=
  stub (get "MACSEC_PORT" macsec_port_id attr_count attr_list).
Definition stub_get_macsec_port_stats (macsec_port_id number_of_counters counter_ids counters : Z) : W → Z * W :=
  stub (getStats "MACSEC_PORT" macsec_port_id number_of_counters counter_ids counters).
Definition stub_get_macsec_port_stats_ext (macsec_port_id number_of_counters counter_ids mode counters : Z) : W → Z * W :=
  stub (getStatsExt "MACSEC_PORT" macsec_port_id number_of_counters counter_ids mode counters).
Definition stub_clear_macsec_port_stats (macsec_port_id number_of_counters counter_ids : Z) : W → Z * W :=
  stub (clearStats "MACSEC_PORT" macsec_port_id number_of_counters counter_ids).
Definition stub_create_macsec_flow (macsec_flow_id switch_id attr_count attr_list : Z) : W → Z * W :=
  stub (create "MACSEC_FLOW" macsec_flow_id switch_id attr_count attr_list).
Definition stub_remove_macsec_flow (macsec_flow_id : Z) : W → Z * W :=
  stub (remove "MACSEC_FLOW" macsec_flow_id).
Definition stub_set_macsec_flow_attribute (macsec_flow_id attr : Z) : W → Z * W :=
  stub (set "MACSEC_FLOW" macsec_flow_id attr).
Definition stub_get_macsec_flow_attribute (macsec_flow_id attr_count attr_list : Z) : W → Z * W :=
  stub (get "MACSEC_FLOW" macsec_flow_id attr_count attr_list).
Definition stub_get_macsec_flow_stats (macsec_flow_id number_of_counters counter_ids counters : Z) : W → Z * W :=
  stub (getStats "MACSEC_FLOW" macsec_flow_id number_of_counters counter_ids counters).
Definition stub_get_macsec_flow_stats_ext (macsec_flow_id number_of_counters counter_ids mode counters : Z) : W → Z * W :=
  stub (getStatsExt "MACSEC_FLOW" macsec_flow_id number_of_counters counter_ids mode counters).
Definition stub_clear_macsec_flow_stats (macsec_flow_id number_of_counters counter_ids : Z) : W → Z * W :=
  stub (clearStats "MACSEC_FLOW" macsec_flow_id number_of_counters counter_ids).
Definition stub_create_macsec_sc (macsec_sc_id switch_id attr_count attr_list : Z) : W → Z * W :=
  stub (create "MACSEC_SC" macsec_sc_id switch_id attr_count attr_list).
Definition stub_remove_macsec_sc (macsec_sc_id : Z) : W → Z * W := stub (remove "MACSEC_SC" macsec_sc_id).
Definition stub_set_macsec_sc_attribute (macsec_sc_id attr : Z) : W → Z * W :=
  stub (set "MACSEC_SC" macsec_sc_id attr).
Definition stub_get_macsec_sc_attribute (macsec_sc_id attr_count attr_list : Z) : W → Z * W :=
  stub (get "MACSEC_SC" macsec_sc_id attr_count attr_list).
Definition stub_get_macsec_sc_stats (macsec_sc_id number_of_counters counter_ids counters : Z) : W → Z * W :=
  stub (getStats "MACSEC_SC" macsec_sc_id number_of_counters counter_ids counters).
Definition stub_get_macsec_sc_stats_ext (macsec_sc_id number_of_counters counter_ids mode counters : Z) : W → Z * W :=
  stub (getStatsExt "MACSEC_SC" macsec_sc_id number_of_counters counter_ids mode counters).
Definition stub_clear_macsec_sc_stats (macsec_sc_id number_of_counters counter_ids : Z) : W → Z * W :=
  stub (clearStats "MACSEC_SC" macsec_sc_id number_of_counters counter_ids).
Definition stub_create_macsec_sa (macsec_sa_id switch_id attr_count attr_list : Z) : W → Z * W :=
  stub (create "MACSEC_SA" macsec_sa_id switch_id attr_count attr_list).
Definition stub_remove_macsec_sa (macsec_sa_id : Z) : W → Z * W := stub (remove "MACSEC_SA" macsec_sa_id).
Definition stub_set_macsec_sa_attribute (macsec_sa_id attr : Z) : W → Z * W :=
  stub (set "MACSEC_SA" macsec_sa_id attr).
Definition stub_get_macsec_sa_attribute (macsec_sa_id attr_count attr_list : Z) : W → Z * W :=
  stub (get "MACSEC_SA" macsec_sa_id attr_count attr_list).
Definition stub_get_macsec_sa_stats (macsec_sa_id number_of_counters counter_ids counters : Z) : W → Z * W :=
  stub (getStats "MACSEC_SA" macsec_sa_id number_of_counters counter_ids counters).
Definition stub_get_macsec_sa_stats_ext (macsec_sa_id number_of_counters counter_ids mode counters : Z) : W → Z * W :=
  stub (getStatsExt "MACSEC_SA" macsec_sa_id number_of_counters counter_ids mode counters).
Definition stub_clear_macsec_sa_stats (macsec_sa_id number_of_counters counter_ids : Z) : W → Z * W :=
  stub (clearStats "MACSEC_SA" macsec_sa_id number_of_counters counter_ids).

Definition stub_macsec : api_table := [
  ("create_macsec", F4 stub_create_macsec);
  ("remove_macsec", F1 stub_remove_macsec);
  ("set_macsec_attribute", F2 stub_set_macsec_attribute);
  ("get_macsec_attribute", F3 stub_get_macsec_attribute);
  ("create_macsec_port", F4 stub_create_macsec_port);
  ("remove_macsec_port", F1 stub_remove_macsec_port);
  ("set_macsec_port_attribute", F2 stub_set_macsec_port_attribute);
  ("get_macsec_port_attribute", F3 stub_get_macsec_port_attribute);
  ("get_macsec_port_stats", F4 stub_get_macsec_port_stats);
  ("get_macsec_port_stats_ext", F5 stub_get_macsec_port_stats_ext);
  ("clear_macsec_port_stats", F3 stub_clear_macsec_port_stats);
  ("create_macsec_flow", F4 stub_create_macsec_flow);
  ("remove_macsec_flow", F1 stub_remove_macsec_flow);
  ("set_macsec_flow_attribute", F2 stub_set_macsec_flow_attribute);
  ("get_macsec_flow_attribute", F3 stub_get_macsec_flow_attribute);
  ("get_macsec_flow_stats", F4 stub_get_macsec_flow_stats);
  ("get_macsec_flow_stats_ext", F5 stub_get_macsec_flow_stats_ext);
  ("clear_macsec_flow_stats", F3 stub_clear_macsec_flow_stats);
  ("create_macsec_sc", F4 stub_create_macsec_sc);
  ("remove_macsec_sc", F1 stub_remove_macsec_sc);
  ("set_macsec_sc_attribute", F2 stub_set_macsec_sc_attribute);
  ("get_macsec_sc_attribute", F3 stub_get_macsec_sc_attribute);
  ("get_macsec_sc_stats", F4 stub_get_macsec_sc_stats);
  ("get_macsec_sc_stats_ext", F5 stub_get_macsec_sc_stats_ext);
  ("clear_macsec_sc_stats", F3 stub_clear_macsec_sc_stats);
  ("create_macsec_sa", F4 stub_create_macsec_sa);
  ("remove_macsec_sa", F1 stub_remove_macsec_sa);
  ("set_macsec_sa_attribute", F2 stub_set_macsec_sa_attribute);
  ("get_macsec_sa_attribute", F3 stub_get_macsec_sa_attribute);
  ("get_macsec_sa_stats", F4 stub_get_macsec_sa_stats);
  ("get_macsec_sa_stats_ext", F5 stub_get_macsec_sa_stats_ext);
  ("clear_macsec_sa_stats", F3 stub_clear_macsec_sa_stats)].

Definition stub_create_system_port (system_port_id switch_id attr_count attr_list : Z) : W → Z * W :=
  stub (create "SYSTEM_PORT" system_port_id switch_id attr_count attr_list).
Definition stub_remove_system_port (system_port_id : Z) : W → Z * W :=
  stub (remove "SYSTEM_PORT" system_port_id).
Definition stub_set_system_port_attribute (system_port_id attr : Z) : W → Z * W :=
  stub (set "SYSTEM_PORT" system_port_id attr).
Definition stub_get_system_port_attribute (system_port_id attr_count attr_list : Z) : W → Z * W :=
  stub (get "SYSTEM_PORT" system_port_id attr_count attr_list).

Definition stub_system_port : api_table := [
  ("create_system_port", F4 stub_create_system_port);
  ("remove_system_port", F1 stub_remove_system_port);
  ("set_system_port_attribute", F2 stub_set_system_port_attribute);
  ("get_system_port_attribute", F3 stub_get_system_port_attribute)].

Definition stub_create_my_mac (my_mac_id switch_id attr_count attr_list : Z) : W → Z * W :=
  stub (create "MY_MAC" my_mac_id switch_id attr_count attr_list).
Definition stub_remove_my_mac (my_mac_id : Z) : W → Z * W := stub (remove "MY_MAC" my_mac_id).
Definition stub_set_my_mac_attribute (my_mac_id attr : Z) : W → Z * W := stub (set "MY_MAC" my_mac_id attr).
Definition stub_get_my_mac_attribute (my_mac_id attr_count attr_list : Z) : W → Z * W :=
  stub (get "MY_MAC" my_mac_id attr_count attr_list).

Definition stub_my_mac : api_table := [
  ("create_my_mac", F4 stub_create_my_mac);
  ("remove_my_mac", F1 stub_remove_my_mac);
  ("set_my_mac_attribute", F2 stub_set_my_mac_attribute);
  ("get_my_mac_attribute", F3 stub_get_my_mac_attribute)].

Definition stub_create_ipsec (ipsec_id switch_id attr_count attr_list : Z) : W → Z * W :=
  stub (create "IPSEC" ipsec_id switch_id attr_count attr_list).
Definition stub_remove_ipsec (ipsec_id : Z) : W → Z * W := stub (remove "IPSEC" ipsec_id).
Definition stub_set_ipsec_attribute (ipsec_id attr : Z) : W → Z * W := stub (set "IPSEC" ipsec_id attr).
Definition stub_get_ipsec_attribute (ipsec_id attr_count attr_list : Z) : W → Z * W :=
  stub (get "IPSEC" ipsec_id attr_count attr_list).
Definition stub_create_ipsec_port (ipsec_port_id switch_id attr_count attr_list : Z) : W → Z * W :=
  stub (create "IPSEC_PORT" ipsec_port_id switch_id attr_count attr_list).
Definition stub_remove_ipsec_port (ipsec_port_id : Z) : W → Z * W :=
  stub (remove "IPSEC_PORT" ipsec_port_id).
Definition stub_set_ipsec_port_attribute (ipsec_port_id attr : Z) : W → Z * W :=
  stub (set "IPSEC_PORT" ipsec_port_id attr).
Definition stub_get_ipsec_port_attribute (ipsec_port_id attr_count attr_list : Z) : W → Z * W :=
  stub (get "IPSEC_PORT" ipsec_port_id attr_count attr_list).
Definition stub_get_ipsec_port_stats (ipsec_port_id number_of_counters counter_ids counters : Z) : W → Z * W :=
  stub (getStats "IPSEC_PORT" ipsec_port_id number_of_counters counter_ids counters).
Definition stub_get_ipsec_port_stats_ext (ipsec_port_id number_of_counters counter_ids mode counters : Z) : W → Z * W :=
  stub (getStatsExt "IPSEC_PORT" ipsec_port_id number_of_counters counter_ids mode counters).
Definition stub_clear_ipsec_port_stats (ipsec_port_id number_of_counters counter_ids : Z) : W → Z * W :=
  stub (clearStats "IPSEC_PORT" ipsec_port_id number_of_counters counter_ids).
Definition stub_create_ipsec_sa (ipsec_sa_id switch_id attr_count attr_list : Z) : W → Z * W :=
  stub (create "IPSEC_SA" ipsec_sa_id switch_id attr_count attr_list).
Definition stub_remove_ipsec_sa (ipsec_sa_id : Z) : W → Z * W := stub (remove "IPSEC_SA" ipsec_sa_id).
Definition stub_set_ipsec_sa_attribute (ipsec_sa_id attr : Z) : W → Z * W :=
  stub (set "IPSEC_SA" ipsec_sa_id attr).
Definition stub_get_ipsec_sa_attribute (ipsec_sa_id attr_count attr_list : Z) : W → Z * W :=
  stub (get "IPSEC_SA" ipsec_sa_id attr_count attr_list).
Definition stub_get_ipsec_sa_stats (ipsec_sa_id number_of_counters counter_ids counters : Z) : W → Z * W :=
  stub (getStats "IPSEC_SA" ipsec_sa_id number_of_counters counter_ids counters).
Definition stub_get_ipsec_sa_stats_ext (ipsec_sa_id number_of_counters counter_ids mode counters : Z) : W → Z * W :=
  stub (getStatsExt "IPSEC_SA" ipsec_sa_id number_of_counters counter_ids mode counters).
Definition stub_clear_ipsec_sa_stats (ipsec_sa_id number_of_counters counter_ids : Z) : W → Z * W :=
  stub (clearStats "IPSEC_SA" ipsec_sa_id number_of_counters counter_ids).

Definition stub_ipsec : api_table := [
  ("create_ipsec", F4 stub_create_ipsec);
  ("remove_ipsec", F1 stub_remove_ipsec);
  ("set_ipsec_attribute", F2 stub_set_ipsec_attribute);
  ("get_ipsec_attribute", F3 stub_get_ipsec_attribute);
  ("create_ipsec_port", F4 stub_create_ipsec_port);
  ("remove_ipsec_port", F1 stub_remove_ipsec_port);
  ("set_ipsec_port_attribute", F2 stub_set_ipsec_port_attribute);
  ("get_ipsec_port_attribute", F3 stub_get_ipsec_port_attribute);
  ("get_ipsec_port_stats", F4 stub_get_ipsec_port_stats);
  ("get_ipsec_port_stats_ext", F5 stub_get_ipsec_port_stats_ext);
  ("clear_ipsec_port_stats", F3 stub_clear_ipsec_port_stats);
  ("create_ipsec_sa", F4 stub_create_ipsec_sa);
  ("remove_ipsec_sa", F1 stub_remove_ipsec_sa);
  ("set_ipsec_sa_attribute", F2 stub_set_ipsec_sa_attribute);
  ("get_ipsec_sa_attribute", F3 stub_get_ipsec_sa_attribute);
  ("get_ipsec_sa_stats", F4 stub_get_ipsec_sa_stats);
  ("get_ipsec_sa_stats_ext", F5 stub_get_ipsec_sa_stats_ext);
  ("clear_ipsec_sa_stats", F3 stub_clear_ipsec_sa_stats)].

Definition stub_create_generic_programmable (generic_programmable_id switch_id attr_count attr_list : Z) : W → Z * W :=
  stub (create "GENERIC_PROGRAMMABLE" generic_programmable_id switch_id attr_count attr_list).
Definition stub_remove_generic_programmable (generic_programmable_id : Z) : W → Z * W :=
  stub (remove "GENERIC_PROGRAMMABLE" generic_programmable_id).
Definition stub_set_generic_programmable_attribute (generic_programmable_id attr : Z) : W → Z * W :=
  stub (set "GENERIC_PROGRAMMABLE" generic_programmable_id attr).
Definition stub_get_generic_programmable_attribute (generic_programmable_id attr_count attr_list : Z) : W → Z * W :=
  stub (get "GENERIC_PROGRAMMABLE" generic_programmable_id attr_count attr_list).

Definition stub_generic_programmable : api_table := [
  ("create_generic_programmable", F4 stub_create_generic_programmable);
  ("remove_generic_programmable", F1 stub_remove_generic_programmable);
  ("set_generic_programmable_attribute", F2 stub_set_generic_programmable_attribute);
  ("get_generic_programmable_attribute", F3 stub_get_generic_programmable_attribute)].

Definition stub_create_ars (ars_id switch_id attr_count attr_list : Z) : W → Z * W :=
  stub (create "ARS" ars_id switch_id attr_count attr_list).
Definition stub_remove_ars (ars_id : Z) : W → Z * W := stub (remove "ARS" ars_id).
Definition stub_set_ars_attribute (ars_id attr : Z) : W → Z * W := stub (set "ARS" ars_id attr).
Definition stub_get_ars_attribute (ars_id attr_count attr_list : Z) : W → Z * W :=
  stub (get "ARS" ars_id attr_count attr_list).

Definition stub_ars : api_table := [
  ("create_ars", F4 stub_create_ars);
  ("remove_ars", F1 stub_remove_ars);
  ("set_ars_attribute", F2 stub_set_ars_attribute);
  ("get_ars_attribute", F3 stub_get_ars_attribute)].

Definition stub_create_ars_profile (ars_profile_id switch_id attr_count attr_list : Z) : W → Z * W :=
  stub (create "ARS_PROFILE" ars_profile_id switch_id attr_count attr_list).
Definition stub_remove_ars_profile (ars_profile_id : Z) : W → Z * W :=
  stub (remove "ARS_PROFILE" ars_profile_id).
Definition stub_set_ars_profile_attribute (ars_profile_id attr : Z) : W → Z * W :=
  stub (set "ARS_PROFILE" ars_profile_id attr).
Definition stub_get_ars_profile_attribute (ars_profile_id attr_count attr_list : Z) : W → Z * W :=
  stub (get "ARS_PROFILE" ars_profile_id attr_count attr_list).

Definition stub_ars_profile : api_table := [
  ("create_ars_profile", F4 stub_create_ars_profile);
  ("remove_ars_profile", F1 stub_remove_ars_profile);
  ("set_ars_profile_attribute", F2 stub_set_ars_profile_attribute);
  ("get_ars_profile_attribute", F3 stub_get_ars_profile_attribute)].

Definition stub_create_twamp_session (twamp_session_id switch_id attr_count attr_list : Z) : W → Z * W :=
  stub (create "TWAMP_SESSION" twamp_session_id switch_id attr_count attr_list).
Definition stub_remove_twamp_session (twamp_session_id : Z) : W → Z * W :=
  stub (remove "TWAMP_SESSION" twamp_session_id).
Definition stub_set_twamp_session_attribute (twamp_session_id attr : Z) : W → Z * W :=
  stub (set "TWAMP_SESSION" twamp_session_id attr).
Definition stub_get_twamp_session_attribute (twamp_session_id attr_count attr_list : Z) : W → Z * W :=
  stub (get "TWAMP_SESSION" twamp_session_id attr_count attr_list).
Definition stub_get_twamp_session_stats (twamp_session_id number_of_counters counter_ids counters : Z) : W → Z * W :=
  stub (getStats "TWAMP_SESSION" twamp_session_id number_of_counters counter_ids counters).
Definition stub_get_twamp_session_stats_ext (twamp_session_id number_of_counters counter_ids mode counters : Z) : W → Z * W :=
  stub (getStatsExt "TWAMP_SESSION" twamp_session_id number_of_counters counter_ids mode counters).
Definition stub_clear_twamp_session_stats (twamp_session_id number_of_counters counter_ids : Z) : W → Z * W :=
  stub (clearStats "TWAMP_SESSION" twamp_session_id number_of_counters counter_ids).

Definition stub_twamp : api_table := [
  ("create_twamp_session", F4 stub_create_twamp_session);
  ("remove_twamp_session", F1 stub_remove_twamp_session);
  ("set_twamp_session_attribute", F2 stub_set_twamp_session_attribute);
  ("get_twamp_session_attribute", F3 stub_get_twamp_session_attribute);
  ("get_twamp_session_stats", F4 stub_get_twamp_session_stats);
  ("get_twamp_session_stats_ext", F5 stub_get_twamp_session_stats_ext);
  ("clear_twamp_session_stats", F3 stub_clear_twamp_session_stats)].

Definition stub_create_poe_device (poe_device_id switch_id attr_count attr_list : Z) : W → Z * W :=
  stub (create "POE_DEVICE" poe_device_id switch_id attr_count attr_list).
Definition stub_remove_poe_device (poe_device_id : Z) : W → Z * W :=
  stub (remove "POE_DEVICE" poe_device_id).
Definition stub_set_poe_device_attribute (poe_device_id attr : Z) : W → Z * W :=
  stub (set "POE_DEVICE" poe_device_id attr).
Definition stub_get_poe_device_attribute (poe_device_id attr_count attr_list : Z) : W → Z * W :=
  stub (get "POE_DEVICE" poe_device_id attr_count attr_list).
Definition stub_create_poe_pse (poe_pse_id switch_id attr_count attr_list : Z) : W → Z * W :=
  stub (create "POE_PSE" poe_pse_id switch_id attr_count attr_list).
Definition stub_remove_poe_pse (poe_pse_id : Z) : W → Z * W := stub (remove "POE_PSE" poe_pse_id).
Definition stub_set_poe_pse_attribute (poe_pse_id attr : Z) : W → Z * W :=
  stub (set "POE_PSE" poe_pse_id attr).
Definition stub_get_poe_pse_attribute (poe_pse_id attr_count attr_list : Z) : W → Z * W :=
  stub (get "POE_PSE" poe_pse_id attr_count attr_list).
Definition stub_create_poe_port (poe_port_id switch_id attr_count attr_list : Z) : W → Z * W :=
  stub (create "POE_PORT" poe_port_id switch_id attr_count attr_list).
Definition stub_remove_poe_port (poe_port_id : Z) : W → Z * W := stub (remove "POE_PORT" poe_port_id).
Definition stub_set_poe_port_attribute (poe_port_id attr : Z) : W → Z * W :=
  stub (set "POE_PORT" poe_port_id attr).
Definition stub_get_poe_port_attribute (poe_port_id attr_count attr_list : Z) : W → Z * W :=
  stub (get "POE_PORT" poe_port_id attr_count attr_list).

Definition stub_poe : api_table := [
  ("create_poe_device", F4 stub_create_poe_device);
  ("remove_poe_device", F1 stub_remove_poe_device);
  ("set_poe_device_attribute", F2 stub_set_poe_device_attribute);
  ("get_poe_device_attribute", F3 stub_get_poe_device_attribute);
  ("create_poe_pse", F4 stub_create_poe_pse);
  ("remove_poe_pse", F1 stub_remove_poe_pse);
  ("set_poe_pse_attribute", F2 stub_set_poe_pse_attribute);
  ("get_poe_pse_attribute", F3 stub_get_poe_pse_attribute);
  ("create_poe_port", F4 stub_create_poe_port);
  ("remove_poe_port", F1 stub_remove_poe_port);
  ("set_poe_port_attribute", F2 stub_set_poe_port_attribute);
  ("get_poe_port_attribute", F3 stub_get_poe_port_attribute)].

Definition stub_create_icmp_echo_session (icmp_echo_session_id switch_id attr_count attr_list : Z) : W → Z * W :=
  stub (create "ICMP_ECHO_SESSION" icmp_echo_session_id switch_id attr_count attr_list).
Definition stub_remove_icmp_echo_session (icmp_echo_session_id : Z) : W → Z * W :=
  stub (remove "ICMP_ECHO_SESSION" icmp_echo_session_id).
Definition stub_set_icmp_echo_session_attribute (icmp_echo_session_id attr : Z) : W → Z * W :=
  stub (set "ICMP_ECHO_SESSION" icmp_echo_session_id attr).
Definition stub_get_icmp_echo_session_attribute (icmp_echo_session_id attr_count attr_list : Z) : W → Z * W :=
  stub (get "ICMP_ECHO_SESSION" icmp_echo_session_id attr_count attr_list).
Definition stub_get_icmp_echo_session_stats (icmp_echo_session_id number_of_counters counter_ids counters : Z) : W → Z * W :=
  stub (getStats "ICMP_ECHO_SESSION" icmp_echo_session_id number_of_counters counter_ids counters).
Definition stub_get_icmp_echo_session_stats_ext (icmp_echo_session_id number_of_counters counter_ids mode counters : Z) : W → Z * W :=
  stub (getStatsExt "ICMP_ECHO_SESSION" icmp_echo_session_id number_of_counters counter_ids mode counters).
Definition stub_clear_icmp_echo_session_stats (icmp_echo_session_id number_of_counters counter_ids : Z) : W → Z * W :=
  stub (clearStats "ICMP_ECHO_SESSION" icmp_echo_session_id number_of_counters counter_ids).

Definition stub_icmp_echo : api_table := [
  ("create_icmp_echo_session", F4 stub_create_icmp_echo_session);
  ("remove_icmp_echo_session", F1 stub_remove_icmp_echo_session);
  ("set_icmp_echo_session_attribute", F2 stub_set_icmp_echo_session_attribute);
  ("get_icmp_echo_session_attribute", F3 stub_get_icmp_echo_session_attribute);
  ("get_icmp_echo_session_stats", F4 stub_get_icmp_echo_session_stats);
  ("get_icmp_echo_session_stats_ext", F5 stub_get_icmp_echo_session_stats_ext);
  ("clear_icmp_echo_session_stats", F3 stub_clear_icmp_echo_session_stats)].

Definition stub_create_prefix_compression_table (prefix_compression_table_id switch_id attr_count attr_list : Z) : W → Z * W :=
  stub (create "PREFIX_COMPRESSION_TABLE" prefix_compression_table_id switch_id attr_count attr_list).
Definition stub_remove_prefix_compression_table (prefix_compression_table_id : Z) : W → Z * W :=
  stub (remove "PREFIX_COMPRESSION_TABLE" prefix_compression_table_id).
Definition stub_set_prefix_compression_table_attribute (prefix_compression_table_id attr : Z) : W → Z * W :=
  stub (set "PREFIX_COMPRESSION_TABLE" prefix_compression_table_id attr).
Definition stub_get_prefix_compression_table_attribute (prefix_compression_table_id attr_count attr_list : Z) : W → Z * W :=
  stub (get "PREFIX_COMPRESSION_TABLE" prefix_compression_table_id attr_count attr_list).
Definition stub_create_prefix_compression_entry (prefix_compression_entry attr_count attr_list : Z) : W → Z * W :=
  stub (create_e "prefix_compression_entry" prefix_compression_entry attr_count attr_list).
Definition stub_remove_prefix_compression_entry (prefix_compression_entry : Z) : W → Z * W :=
  stub (remove_e "prefix_compression_entry" prefix_compression_entry).
Definition stub_set_prefix_compression_entry_attribute (prefix_compression_entry attr : Z) : W → Z * W :=
  stub (set_e "prefix_compression_entry" prefix_compression_entry attr).
Definition stub_get_prefix_compression_entry_attribute (prefix_compression_entry attr_count attr_list : Z) : W → Z * W :=
  stub (get_e "prefix_compression_entry" prefix_compression_entry attr_count attr_list).
Definition stub_create_prefix_compression_entries (object_count prefix_compression_entry attr_count attr_list mode object_statuses : Z) : W → Z * W :=
  stub (bulkCreate_e "prefix_compression_entry" object_count prefix_compression_entry attr_count attr_list mode object_statuses).
Definition stub_remove_prefix_compression_entries (object_count prefix_compression_entry mode object_statuses : Z) : W → Z * W :=
  stub (bulkRemove_e "prefix_compression_entry" object_count prefix_compression_entry mode object_statuses).

Definition stub_prefix_compression : api_table := [
  ("create_prefix_compression_table", F4 stub_create_prefix_compression_table);
  ("remove_prefix_compression_table", F1 stub_remove_prefix_compression_table);
  ("set_prefix_compression_table_attribute", F2 stub_set_prefix_compression_table_attribute);
  ("get_prefix_compression_table_attribute", F3 stub_get_prefix_compression_table_attribute);
  ("create_prefix_compression_entry", F3 stub_create_prefix_compression_entry);
  ("remove_prefix_compression_entry", F1 stub_remove_prefix_compression_entry);
  ("set_prefix_compression_entry_attribute", F2 stub_set_prefix_compression_entry_attribute);
  ("get_prefix_compression_entry_attribute", F3 stub_get_prefix_compression_entry_attribute);
  ("create_prefix_compression_entries", F6 stub_create_prefix_compression_entries);
  ("remove_prefix_compression_entries", F4 stub_remove_prefix_compression_entries)].

Definition stub_create_synce_clock (synce_clock_id switch_id attr_count attr_list : Z) : W → Z * W :=
  stub (create "SYNCE_CLOCK" synce_clock_id switch_id attr_count attr_list).
Definition stub_remove_synce_clock (synce_clock_id : Z) : W → Z * W :=
  stub (remove "SYNCE_CLOCK" synce_clock_id).
Definition stub_set_synce_clock_attribute (synce_clock_id attr : Z) : W → Z * W :=
  stub (set "SYNCE_CLOCK" synce_clock_id attr).
Definition stub_get_synce_clock_attribute (synce_clock_id attr_count attr_list : Z) : W → Z * W :=
  stub (get "SYNCE_CLOCK" synce_clock_id attr_count attr_list).

Definition stub_synce : api_table := [
  ("create_synce_clock", F4 stub_create_synce_clock);
  ("remove_synce_clock", F1 stub_remove_synce_clock);
  ("set_synce_clock_attribute", F2 stub_set_synce_clock_attribute);
  ("get_synce_clock_attribute", F3 stub_get_synce_clock_attribute)].

Definition stub_create_table_bitmap_classification_entry (table_bitmap_classification_entry_id switch_id attr_count attr_list : Z) : W → Z * W :=
  stub (create "TABLE_BITMAP_CLASSIFICATION_ENTRY" table_bitmap_classification_entry_id switch_id attr_count attr_list).
Definition stub_remove_table_bitmap_classification_entry (table_bitmap_classification_entry_id : Z) : W → Z * W :=
  stub (remove "TABLE_BITMAP_CLASSIFICATION_ENTRY" table_bitmap_classification_entry_id).
Definition stub_set_table_bitmap_classification_entry_attribute (table_bitmap_classification_entry_id attr : Z) : W → Z * W :=
  stub (set "TABLE_BITMAP_CLASSIFICATION_ENTRY" table_bitmap_classification_entry_id attr).
Definition stub_get_table_bitmap_classification_entry_attribute (table_bitmap_classification_entry_id attr_count attr_list : Z) : W → Z * W :=
  stub (get "TABLE_BITMAP_CLASSIFICATION_ENTRY" table_bitmap_classification_entry_id attr_count attr_list).
Definition stub_get_table_bitmap_classification_entry_stats (table_bitmap_classification_entry_id number_of_counters counter_ids counters : Z) : W → Z * W :=
  stub (getStats "TABLE_BITMAP_CLASSIFICATION_ENTRY" table_bitmap_classification_entry_id number_of_counters counter_ids counters).
Definition stub_get_table_bitmap_classification_entry_stats_ext (table_bitmap_classification_entry_id number_of_counters counter_ids mode counters : Z) : W → Z * W :=
  stub (getStatsExt "TABLE_BITMAP_CLASSIFICATION_ENTRY" table_bitmap_classification_entry_id number_of_counters counter_ids mode counters).
Definition stub_clear_table_bitmap_classification_entry_stats (table_bitmap_classification_entry_id number_of_counters counter_ids : Z) : W → Z * W :=
  stub (clearStats "TABLE_BITMAP_CLASSIFICATION_ENTRY" table_bitmap_classification_entry_id number_of_counters counter_ids).
Definition stub_create_table_bitmap_router_entry (table_bitmap_router_entry_id switch_id attr_count attr_list : Z) : W → Z * W :=
  stub (create "TABLE_BITMAP_ROUTER_ENTRY" table_bitmap_router_entry_id switch_id attr_count attr_list).
Definition stub_remove_table_bitmap_router_entry (table_bitmap_router_entry_id : Z) : W → Z * W :=
  stub (remove "TABLE_BITMAP_ROUTER_ENTRY" table_bitmap_router_entry_id).
Definition stub_set_table_bitmap_router_entry_attribute (table_bitmap_router_entry_id attr : Z) : W → Z * W :=
  stub (set "TABLE_BITMAP_ROUTER_ENTRY" table_bitmap_router_entry_id attr).
Definition stub_get_table_bitmap_router_entry_attribute (table_bitmap_router_entry_id attr_count attr_list : Z) : W → Z * W :=
  stub (get "TABLE_BITMAP_ROUTER_ENTRY" table_bitmap_router_entry_id attr_count attr_list).
Definition stub_get_table_bitmap_router_entry_stats (table_bitmap_router_entry_id number_of_counters counter_ids counters : Z) : W → Z * W :=
  stub (getStats "TABLE_BITMAP_ROUTER_ENTRY" table_bitmap_router_entry_id number_of_counters counter_ids counters).
Definition stub_get_table_bitmap_router_entry_stats_ext (table_bitmap_router_entry_id number_of_counters counter_ids mode counters : Z) : W → Z * W :=
  stub (getStatsExt "TABLE_BITMAP_ROUTER_ENTRY" table_bitmap_router_entry_id number_of_counters counter_ids mode counters).
Definition stub_clear_table_bitmap_router_entry_stats (table_bitmap_router_entry_id number_of_counters counter_ids : Z) : W → Z * W :=
  stub (clearStats "TABLE_BITMAP_ROUTER_ENTRY" table_bitmap_router_entry_id number_of_counters counter_ids).
Definition stub_create_table_meta_tunnel_entry (table_meta_tunnel_entry_id switch_id attr_count attr_list : Z) : W → Z * W :=
  stub (create "TABLE_META_TUNNEL_ENTRY" table_meta_tunnel_entry_id switch_id attr_count attr_list).
Definition stub_remove_table_meta_tunnel_entry (table_meta_tunnel_entry_id : Z) : W → Z * W :=
  stub (remove "TABLE_META_TUNNEL_ENTRY" table_meta_tunnel_entry_id).
Definition stub_set_table_meta_tunnel_entry_attribute (table_meta_tunnel_entry_id attr : Z) : W → Z * W :=
  stub (set "TABLE_META_TUNNEL_ENTRY" table_meta_tunnel_entry_id attr).
Definition stub_get_table_meta_tunnel_entry_attribute (table_meta_tunnel_entry_id attr_count attr_list : Z) : W → Z * W :=
  stub (get "TABLE_META_TUNNEL_ENTRY" table_meta_tunnel_entry_id attr_count attr_list).
Definition stub_get_table_meta_tunnel_entry_stats (table_meta_tunnel_entry_id number_of_counters counter_ids counters : Z) : W → Z * W :=
  stub (getStats "TABLE_META_TUNNEL_ENTRY" table_meta_tunnel_entry_id number_of_counters counter_ids counters).
Definition stub_get_table_meta_tunnel_entry_stats_ext (table_meta_tunnel_entry_id number_of_counters counter_ids mode counters : Z) : W → Z * W :=
  stub (getStatsExt "TABLE_META_TUNNEL_ENTRY" table_meta_tunnel_entry_id number_of_counters counter_ids mode counters).
Definition stub_clear_table_meta_tunnel_entry_stats (table_meta_tunnel_entry_id number_of_counters counter_ids : Z) : W → Z * W :=
  stub (clearStats "TABLE_META_TUNNEL_ENTRY" table_meta_tunnel_entry_id number_of_counters counter_ids).

Definition stub_bmtor : api_table := [
  ("create_table_bitmap_classification_entry", F4 stub_create_table_bitmap_classification_entry);
  ("remove_table_bitmap_classification_entry", F1 stub_remove_table_bitmap_classification_entry);
  ("set_table_bitmap_classification_entry_attribute", F2 stub_set_table_bitmap_classification_entry_attribute);
  ("get_table_bitmap_classification_entry_attribute", F3 stub_get_table_bitmap_classification_entry_attribute);
  ("get_table_bitmap_classification_entry_stats", F4 stub_get_table_bitmap_classification_entry_stats);
  ("get_table_bitmap_classification_entry_stats_ext", F5 stub_get_table_bitmap_classification_entry_stats_ext);
  ("clear_table_bitmap_classification_entry_stats", F3 stub_clear_table_bitmap_classification_entry_stats);
  ("create_table_bitmap_router_entry", F4 stub_create_table_bitmap_router_entry);
  ("remove_table_bitmap_router_entry", F1 stub_remove_table_bitmap_router_entry);
  ("set_table_bitmap_router_entry_attribute", F2 stub_set_table_bitmap_router_entry_attribute);
  ("get_table_bitmap_router_entry_attribute", F3 stub_get_table_bitmap_router_entry_attribute);
  ("get_table_bitmap_router_entry_stats", F4 stub_get_table_bitmap_router_entry_stats);
  ("get_table_bitmap_router_entry_stats_ext", F5 stub_get_table_bitmap_router_entry_stats_ext);
  ("clear_table_bitmap_router_entry_stats", F3 stub_clear_table_bitmap_router_entry_stats);
  ("create_table_meta_tunnel_entry", F4 stub_create_table_meta_tunnel_entry);
  ("remove_table_meta_tunnel_entry", F1 stub_remove_table_meta_tunnel_entry);
  ("set_table_meta_tunnel_entry_attribute", F2 stub_set_table_meta_tunnel_entry_attribute);
  ("get_table_meta_tunnel_entry_attribute", F3 stub_get_table_meta_tunnel_entry_attribute);
  ("get_table_meta_tunnel_entry_stats", F4 stub_get_table_meta_tunnel_entry_stats);
  ("get_table_meta_tunnel_entry_stats_ext", F5 stub_get_table_meta_tunnel_entry_stats_ext);
  ("clear_table_meta_tunnel_entry_stats", F3 stub_clear_table_meta_tunnel_entry_stats)].

Definition stub_create_dash_acl_group (dash_acl_group_id switch_id attr_count attr_list : Z) : W → Z * W :=
  stub (create "DASH_ACL_GROUP" dash_acl_group_id switch_id attr_count attr_list).
Definition stub_remove_dash_acl_group (dash_acl_group_id : Z) : W → Z * W :=
  stub (remove "DASH_ACL_GROUP" dash_acl_group_id).
Definition stub_set_dash_acl_group_attribute (dash_acl_group_id attr : Z) : W → Z * W :=
  stub (set "DASH_ACL_GROUP" dash_acl_group_id attr).
Definition stub_get_dash_acl_group_attribute (dash_acl_group_id attr_count attr_list : Z) : W → Z * W :=
  stub (get "DASH_ACL_GROUP" dash_acl_group_id attr_count attr_list).
Definition stub_create_dash_acl_groups (switch_id object_count attr_count attr_list mode object_id object_statuses : Z) : W → Z * W :=
  stub (bulkCreate "DASH_ACL_GROUP" switch_id object_count attr_count attr_list mode object_id object_statuses).
Definition stub_remove_dash_acl_groups (object_count object_id mode object_statuses : Z) : W → Z * W :=
  stub (bulkRemove "DASH_ACL_GROUP" object_count object_id mode object_statuses).
Definition stub_create_dash_acl_rule (dash_acl_rule_id switch_id attr_count attr_list : Z) : W → Z * W :=
  stub (create "DASH_ACL_RULE" dash_acl_rule_id switch_id attr_count attr_list).
Definition stub_remove_dash_acl_rule (dash_acl_rule_id : Z) : W → Z * W :=
  stub (remove "DASH_ACL_RULE" dash_acl_rule_id).
Definition stub_set_dash_acl_rule_attribute (dash_acl_rule_id attr : Z) : W → Z * W :=
  stub (set "DASH_ACL_RULE" dash_acl_rule_id attr).
Definition stub_get_dash_acl_rule_attribute (dash_acl_rule_id attr_count attr_list : Z) : W → Z * W :=
  stub (get "DASH_ACL_RULE" dash_acl_rule_id attr_count attr_list).
Definition stub_create_dash_acl_rules (switch_id object_count attr_count attr_list mode object_id object_statuses : Z) : W → Z * W :=
  stub (bulkCreate "DASH_ACL_RULE" switch_id object_count attr_count attr_list mode object_id object_statuses).
Definition stub_remove_dash_acl_rules (object_count object_id mode object_statuses : Z) : W → Z * W :=
  stub (bulkRemove "DASH_ACL_RULE" object_count object_id mode object_statuses).

Definition stub_dash_acl : api_table := [
  ("create_dash_acl_group", F4 stub_create_dash_acl_group);
  ("remove_dash_acl_group", F1 stub_remove_dash_acl_group);
  ("set_dash_acl_group_attribute", F2 stub_set_dash_acl_group_attribute);
  ("get_dash_acl_group_attribute", F3 stub_get_dash_acl_group_attribute);
  ("create_dash_acl_groups", F7 stub_create_dash_acl_groups);
  ("remove_dash_acl_groups", F4 stub_remove_dash_acl_groups);
  ("create_dash_acl_rule", F4 stub_create_dash_acl_rule);
  ("remove_dash_acl_rule", F1 stub_remove_dash_acl_rule);
  ("set_dash_acl_rule_attribute", F2 stub_set_dash_acl_rule_attribute);
  ("get_dash_acl_rule_attribute", F3 stub_get_dash_acl_rule_attribute);
  ("create_dash_acl_rules", F7 stub_create_dash_acl_rules);
  ("remove_dash_acl_rules", F4 stub_remove_dash_acl_rules)].

Definition stub_create_direction_lookup_entry (direction_lookup_entry attr_count attr_list : Z) : W → Z * W :=
  stub (create_e "direction_lookup_entry" direction_lookup_entry attr_count attr_list).
Definition stub_remove_direction_lookup_entry (direction_lookup_entry : Z) : W → Z * W :=
  stub (remove_e "direction_lookup_entry" direction_lookup_entry).
Definition stub_set_direction_lookup_entry_attribute (direction_lookup_entry attr : Z) : W → Z * W :=
  stub (set_e "direction_lookup_entry" direction_lookup_entry attr).
Definition stub_get_direction_lookup_entry_attribute (direction_lookup_entry attr_count attr_list : Z) : W → Z * W :=
  stub (get_e "direction_lookup_entry" direction_lookup_entry attr_count attr_list).
Definition stub_create_direction_lookup_entries (object_count direction_lookup_entry attr_count attr_list mode object_statuses : Z) : W → Z * W :=
  stub (bulkCreate_e "direction_lookup_entry" object_count direction_lookup_entry attr_count attr_list mode object_statuses).
Definition stub_remove_direction_lookup_entries (object_count direction_lookup_entry mode object_statuses : Z) : W → Z * W :=
  stub (bulkRemove_e "direction_lookup_entry" object_count direction_lookup_entry mode object_statuses).

Definition stub_dash_direction_lookup : api_table := [
  ("create_direction_lookup_entry", F3 stub_create_direction_lookup_entry);
  ("remove_direction_lookup_entry", F1 stub_remove_direction_lookup_entry);
  ("set_direction_lookup_entry_attribute", F2 stub_set_direction_lookup_entry_attribute);
  ("get_direction_lookup_entry_attribute", F3 stub_get_direction_lookup_entry_attribute);
  ("create_direction_lookup_entries", F6 stub_create_direction_lookup_entries);
  ("remove_direction_lookup_entries", F4 stub_remove_direction_lookup_entries)].

Definition stub_create_eni_ether_address_map_entry (eni_ether_address_map_entry attr_count attr_list : Z) : W → Z * W :=
  stub (create_e "eni_ether_address_map_entry" eni_ether_address_map_entry attr_count attr_list).
Definition stub_remove_eni_ether_address_map_entry (eni_ether_address_map_entry : Z) : W → Z * W :=
  stub (remove_e "eni_ether_address_map_entry" eni_ether_address_map_entry).
Definition stub_set_eni_ether_address_map_entry_attribute (eni_ether_address_map_entry attr : Z) : W → Z * W :=
  stub (set_e "eni_ether_address_map_entry" eni_ether_address_map_entry attr).
Definition stub_get_eni_ether_address_map_entry_attribute (eni_ether_address_map_entry attr_count attr_list : Z) : W → Z * W :=
  stub (get_e "eni_ether_address_map_entry" eni_ether_address_map_entry attr_count attr_list).
Definition stub_create_eni_ether_address_map_entries (object_count eni_ether_address_map_entry attr_count attr_list mode object_statuses : Z) : W → Z * W :=
  stub (bulkCreate_e "eni_ether_address_map_entry" object_count eni_ether_address_map_entry attr_count attr_list mode object_statuses).
Definition stub_remove_eni_ether_address_map_entries (object_count eni_ether_address_map_entry mode object_statuses : Z) : W → Z * W :=
  stub (bulkRemove_e "eni_ether_address_map_entry" object_count eni_ether_address_map_entry mode object_statuses).
Definition stub_create_eni (eni_id switch_id attr_count attr_list : Z) : W → Z * W :=
  stub (create "ENI" eni_id switch_id attr_count attr_list).
Definition stub_remove_eni (eni_id : Z) : W → Z * W := stub (remove "ENI" eni_id).
Definition stub_set_eni_attribute (eni_id attr : Z) : W → Z * W := stub (set "ENI" eni_id attr).
Definition stub_get_eni_attribute (eni_id attr_count attr_list : Z) : W → Z * W :=
  stub (get "ENI" eni_id attr_count attr_list).
Definition stub_get_eni_stats (eni_id number_of_counters counter_ids counters : Z) : W → Z * W :=
  stub (getStats "ENI" eni_id number_of_counters counter_ids counters).
Definition stub_get_eni_stats_ext (eni_id number_of_counters counter_ids mode counters : Z) : W → Z * W :=
  stub (getStatsExt "ENI" eni_id number_of_counters counter_ids mode counters).
Definition stub_clear_eni_stats (eni_id number_of_counters counter_ids : Z) : W → Z * W :=
  stub (clearStats "ENI" eni_id number_of_counters counter_ids).
Definition stub_create_enis (switch_id object_count attr_count attr_list mode object_id object_statuses : Z) : W → Z * W :=
  stub (bulkCreate "ENI" switch_id object_count attr_count attr_list mode object_id object_statuses).
Definition stub_remove_enis (object_count object_id mode object_statuses : Z) : W → Z * W :=
  stub (bulkRemove "ENI" object_count object_id mode object_statuses).

Definition stub_dash_eni : api_table := [
  ("create_eni_ether_address_map_entry", F3 stub_create_eni_ether_address_map_entry);
  ("remove_eni_ether_address_map_entry", F1 stub_remove_eni_ether_address_map_entry);
  ("set_eni_ether_address_map_entry_attribute", F2 stub_set_eni_ether_address_map_entry_attribute);
  ("get_eni_ether_address_map_entry_attribute", F3 stub_get_eni_ether_address_map_entry_attribute);
  ("create_eni_ether_address_map_entries", F6 stub_create_eni_ether_address_map_entries);
  ("remove_eni_ether_address_map_entries", F4 stub_remove_eni_ether_address_map_entries);
  ("create_eni", F4 stub_create_eni);
  ("remove_eni", F1 stub_remove_eni);
  ("set_eni_attribute", F2 stub_set_eni_attribute);
  ("get_eni_attribute", F3 stub_get_eni_attribute);
  ("get_eni_stats", F4 stub_get_eni_stats);
  ("get_eni_stats_ext", F5 stub_get_eni_stats_ext);
  ("clear_eni_stats", F3 stub_clear_eni_stats);
  ("create_enis", F7 stub_create_enis);
  ("remove_enis", F4 stub_remove_enis)].

Definition stub_create_inbound_routing_entry (inbound_routing_entry attr_count attr_list : Z) : W → Z * W :=
  stub (create_e "inbound_routing_entry" inbound_routing_entry attr_count attr_list).
Definition stub_remove_inbound_routing_entry (inbound_routing_entry : Z) : W → Z * W :=
  stub (remove_e "inbound_routing_entry" inbound_routing_entry).
Definition stub_set_inbound_routing_entry_attribute (inbound_routing_entry attr : Z) : W → Z * W :=
  stub (set_e "inbound_routing_entry" inbound_routing_entry attr).
Definition stub_get_inbound_routing_entry_attribute (inbound_routing_entry attr_count attr_list : Z) : W → Z * W :=
  stub (get_e "inbound_routing_entry" inbound_routing_entry attr_count attr_list).
Definition stub_create_inbound_routing_entries (object_count inbound_routing_entry attr_count attr_list mode object_statuses : Z) : W → Z * W :=
  stub (bulkCreate_e "inbound_routing_entry" object_count inbound_routing_entry attr_count attr_list mode object_statuses).
Definition stub_remove_inbound_routing_entries (object_count inbound_routing_entry mode object_statuses : Z) : W → Z * W :=
  stub (bulkRemove_e "inbound_routing_entry" object_count inbound_routing_entry mode object_statuses).

Definition stub_dash_inbound_routing : api_table := [
  ("create_inbound_routing_entry", F3 stub_create_inbound_routing_entry);
  ("remove_inbound_routing_entry", F1 stub_remove_inbound_routing_entry);
  ("set_inbound_routing_entry_attribute", F2 stub_set_inbound_routing_entry_attribute);
  ("get_inbound_routing_entry_attribute", F3 stub_get_inbound_routing_entry_attribute);
  ("create_inbound_routing_entries", F6 stub_create_inbound_routing_entries);
  ("remove_inbound_routing_entries", F4 stub_remove_inbound_routing_entries)].

Definition stub_create_meter_bucket_entry (meter_bucket_entry attr_count attr_list : Z) : W → Z * W :=
  stub (create_e "meter_bucket_entry" meter_bucket_entry attr_count attr_list).
Definition stub_remove_meter_bucket_entry (meter_bucket_entry : Z) : W → Z * W :=
  stub (remove_e "meter_bucket_entry" meter_bucket_entry).
Definition stub_set_meter_bucket_entry_attribute (meter_bucket_entry attr : Z) : W → Z * W :=
  stub (set_e "meter_bucket_entry" meter_bucket_entry attr).
Definition stub_get_meter_bucket_entry_attribute (meter_bucket_entry attr_count attr_list : Z) : W → Z * W :=
  stub (get_e "meter_bucket_entry" meter_bucket_entry attr_count attr_list).
Definition stub_get_meter_bucket_entry_stats (meter_bucket_entry number_of_counters counter_ids counters : Z) : W → Z * W :=
  stub (getStats_e "meter_bucket_entry" meter_bucket_entry number_of_counters counter_ids counters).
Definition stub_get_meter_bucket_entry_stats_ext (meter_bucket_entry number_of_counters counter_ids mode counters : Z) : W → Z * W :=
  stub (getStatsExt_e "meter_bucket_entry" meter_bucket_entry number_of_counters counter_ids mode counters).
Definition stub_clear_meter_bucket_entry_stats (meter_bucket_entry number_of_counters counter_ids : Z) : W → Z * W :=
  stub (clearStats_e "meter_bucket_entry" meter_bucket_entry number_of_counters counter_ids).
Definition stub_create_meter_bucket_entries (object_count meter_bucket_entry attr_count attr_list mode object_statuses : Z) : W → Z * W :=
  stub (bulkCreate_e "meter_bucket_entry" object_count meter_bucket_entry attr_count attr_list mode object_statuses).
Definition stub_remove_meter_bucket_entries (object_count meter_bucket_entry mode object_statuses : Z) : W → Z * W :=
  stub (bulkRemove_e "meter_bucket_entry" object_count meter_bucket_entry mode object_statuses).
Definition stub_create_meter_policy (meter_policy_id switch_id attr_count attr_list : Z) : W → Z * W :=
  stub (create "METER_POLICY" meter_policy_id switch_id attr_count attr_list).
Definition stub_remove_meter_policy (meter_policy_id : Z) : W → Z * W :=
  stub (remove "METER_POLICY" meter_policy_id).
Definition stub_set_meter_policy_attribute (meter_policy_id attr : Z) : W → Z * W :=
  stub (set "METER_POLICY" meter_policy_id attr).
Definition stub_get_meter_policy_attribute (meter_policy_id attr_count attr_list : Z) : W → Z * W :=
  stub (get "METER_POLICY" meter_policy_id attr_count attr_list).
Definition stub_create_meter_policys (switch_id object_count attr_count attr_list mode object_id object_statuses : Z) : W → Z * W :=
  stub (bulkCreate "METER_POLICY" switch_id object_count attr_count attr_list mode object_id object_statuses).
Definition stub_remove_meter_policys (object_count object_id mode object_statuses : Z) : W → Z * W :=
  stub (bulkRemove "METER_POLICY" object_count object_id mode object_statuses).
Definition stub_create_meter_rule (meter_rule_id switch_id attr_count attr_list : Z) : W → Z * W :=
  stub (create "METER_RULE" meter_rule_id switch_id attr_count attr_list).
Definition stub_remove_meter_rule (meter_rule_id : Z) : W → Z * W :=
  stub (remove "METER_RULE" meter_rule_id).
Definition stub_set_meter_rule_attribute (meter_rule_id attr : Z) : W → Z * W :=
  stub (set "METER_RULE" meter_rule_id attr).
Definition stub_get_meter_rule_attribute (meter_rule_id attr_count attr_list : Z) : W → Z * W :=
  stub (get "METER_RULE" meter_rule_id attr_count attr_list).
Definition stub_create_meter_rules (switch_id object_count attr_count attr_list mode object_id object_statuses : Z) : W → Z * W :=
  stub (bulkCreate "METER_RULE" switch_id object_count attr_count attr_list mode object_id object_statuses).
Definition stub_remove_meter_rules (object_count object_id mode object_statuses : Z) : W → Z * W :=
  stub (bulkRemove "METER_RULE" object_count object_id mode object_statuses).

Definition stub_dash_meter : api_table := [
  ("create_meter_bucket_entry", F3 stub_create_meter_bucket_entry);
  ("remove_meter_bucket_entry", F1 stub_remove_meter_bucket_entry);
  ("set_meter_bucket_entry_attribute", F2 stub_set_meter_bucket_entry_attribute);
  ("get_meter_bucket_entry_attribute", F3 stub_get_meter_bucket_entry_attribute);
  ("get_meter_bucket_entry_stats", F4 stub_get_meter_bucket_entry_stats);
  ("get_meter_bucket_entry_stats_ext", F5 stub_get_meter_bucket_entry_stats_ext);
  ("clear_meter_bucket_entry_stats", F3 stub_clear_meter_bucket_entry_stats);
  ("create_meter_bucket_entries", F6 stub_create_meter_bucket_entries);
  ("remove_meter_bucket_entries", F4 stub_remove_meter_bucket_entries);
  ("create_meter_policy", F4 stub_create_meter_policy);
  ("remove_meter_policy", F1 stub_remove_meter_policy);
  ("set_meter_policy_attribute", F2 stub_set_meter_policy_attribute);
  ("get_meter_policy_attribute", F3 stub_get_meter_policy_attribute);
  ("create_meter_policys", F7 stub_create_meter_policys);
  ("remove_meter_policys", F4 stub_remove_meter_policys);
  ("create_meter_rule", F4 stub_create_meter_rule);
  ("remove_meter_rule", F1 stub_remove_meter_rule);
  ("set_meter_rule_attribute", F2 stub_set_meter_rule_attribute);
  ("get_meter_rule_attribute", F3 stub_get_meter_rule_attribute);
  ("create_meter_rules", F7 stub_create_meter_rules);
  ("remove_meter_rules", F4 stub_remove_meter_rules)].

Definition stub_create_outbound_ca_to_pa_entry (outbound_ca_to_pa_entry attr_count attr_list : Z) : W → Z * W :=
  stub (create_e "outbound_ca_to_pa_entry" outbound_ca_to_pa_entry attr_count attr_list).
Definition stub_remove_outbound_ca_to_pa_entry (outbound_ca_to_pa_entry : Z) : W → Z * W :=
  stub (remove_e "outbound_ca_to_pa_entry" outbound_ca_to_pa_entry).
Definition stub_set_outbound_ca_to_pa_entry_attribute (outbound_ca_to_pa_entry attr : Z) : W → Z * W :=
  stub (set_e "outbound_ca_to_pa_entry" outbound_ca_to_pa_entry attr).
Definition stub_get_outbound_ca_to_pa_entry_attribute (outbound_ca_to_pa_entry attr_count attr_list : Z) : W → Z * W :=
  stub (get_e "outbound_ca_to_pa_entry" outbound_ca_to_pa_entry attr_count attr_list).
Definition stub_create_outbound_ca_to_pa_entries (object_count outbound_ca_to_pa_entry attr_count attr_list mode object_statuses : Z) : W → Z * W :=
  stub (bulkCreate_e "outbound_ca_to_pa_entry" object_count outbound_ca_to_pa_entry attr_count attr_list mode object_statuses).
Definition stub_remove_outbound_ca_to_pa_entries (object_count outbound_ca_to_pa_entry mode object_statuses : Z) : W → Z * W :=
  stub (bulkRemove_e "outbound_ca_to_pa_entry" object_count outbound_ca_to_pa_entry mode object_statuses).

Definition stub_dash_outbound_ca_to_pa : api_table := [
  ("create_outbound_ca_to_pa_entry", F3 stub_create_outbound_ca_to_pa_entry);
  ("remove_outbound_ca_to_pa_entry", F1 stub_remove_outbound_ca_to_pa_entry);
  ("set_outbound_ca_to_pa_entry_attribute", F2 stub_set_outbound_ca_to_pa_entry_attribute);
  ("get_outbound_ca_to_pa_entry_attribute", F3 stub_get_outbound_ca_to_pa_entry_attribute);
  ("create_outbound_ca_to_pa_entries", F6 stub_create_outbound_ca_to_pa_entries);
  ("remove_outbound_ca_to_pa_entries", F4 stub_remove_outbound_ca_to_pa_entries)].

Definition stub_create_outbound_routing_entry (outbound_routing_entry attr_count attr_list : Z) : W → Z * W :=
  stub (create_e "outbound_routing_entry" outbound_routing_entry attr_count attr_list).
Definition stub_remove_outbound_routing_entry (outbound_routing_entry : Z) : W → Z * W :=
  stub (remove_e "outbound_routing_entry" outbound_routing_entry).
Definition stub_set_outbound_routing_entry_attribute (outbound_routing_entry attr : Z) : W → Z * W :=
  stub (set_e "outbound_routing_entry" outbound_routing_entry attr).
Definition stub_get_outbound_routing_entry_attribute (outbound_routing_entry attr_count attr_list : Z) : W → Z * W :=
  stub (get_e "outbound_routing_entry" outbound_routing_entry attr_count attr_list).
Definition stub_create_outbound_routing_entries (object_count outbound_routing_entry attr_count attr_list mode object_statuses : Z) : W → Z * W :=
  stub (bulkCreate_e "outbound_routing_entry" object_count outbound_routing_entry attr_count attr_list mode object_statuses).
Definition stub_remove_outbound_routing_entries (object_count outbound_routing_entry mode object_statuses : Z) : W → Z * W :=
  stub (bulkRemove_e "outbound_routing_entry" object_count outbound_routing_entry mode object_statuses).
Definition stub_create_outbound_routing_group (outbound_routing_group_id switch_id attr_count attr_list : Z) : W → Z * W :=
  stub (create "OUTBOUND_ROUTING_GROUP" outbound_routing_group_id switch_id attr_count attr_list).
Definition stub_remove_outbound_routing_group (outbound_routing_group_id : Z) : W → Z * W :=
  stub (remove "OUTBOUND_ROUTING_GROUP" outbound_routing_group_id).
Definition stub_set_outbound_routing_group_attribute (outbound_routing_group_id attr : Z) : W → Z * W :=
  stub (set "OUTBOUND_ROUTING_GROUP" outbound_routing_group_id attr).
Definition stub_get_outbound_routing_group_attribute (outbound_routing_group_id attr_count attr_list : Z) : W → Z * W :=
  stub (get "OUTBOUND_ROUTING_GROUP" outbound_routing_group_id attr_count attr_list).
Definition stub_create_outbound_routing_groups (switch_id object_count attr_count attr_list mode object_id object_statuses : Z) : W → Z * W :=
  stub (bulkCreate "OUTBOUND_ROUTING_GROUP" switch_id object_count attr_count attr_list mode object_id object_statuses).
Definition stub_remove_outbound_routing_groups (object_count object_id mode object_statuses : Z) : W → Z * W :=
  stub (bulkRemove "OUTBOUND_ROUTING_GROUP" object_count object_id mode object_statuses).

Definition stub_dash_outbound_routing : api_table := [
  ("create_outbound_routing_entry", F3 stub_create_outbound_routing_entry);
  ("remove_outbound_routing_entry", F1 stub_remove_outbound_routing_entry);
  ("set_outbound_routing_entry_attribute", F2 stub_set_outbound_routing_entry_attribute);
  ("get_outbound_routing_entry_attribute", F3 stub_get_outbound_routing_entry_attribute);
  ("create_outbound_routing_entries", F6 stub_create_outbound_routing_entries);
  ("remove_outbound_routing_entries", F4 stub_remove_outbound_routing_entries);
  ("create_outbound_routing_group", F4 stub_create_outbound_routing_group);
  ("remove_outbound_routing_group", F1 stub_remove_outbound_routing_group);
  ("set_outbound_routing_group_attribute", F2 stub_set_outbound_routing_group_attribute);
  ("get_outbound_routing_group_attribute", F3 stub_get_outbound_routing_group_attribute);
  ("create_outbound_routing_groups", F7 stub_create_outbound_routing_groups);
  ("remove_outbound_routing_groups", F4 stub_remove_outbound_routing_groups)].

Definition stub_create_vnet (vnet_id switch_id attr_count attr_list : Z) : W → Z * W :=
  stub (create "VNET" vnet_id switch_id attr_count attr_list).
Definition stub_remove_vnet (vnet_id : Z) : W → Z * W := stub (remove "VNET" vnet_id).
Definition stub_set_vnet_attribute (vnet_id attr : Z) : W → Z * W := stub (set "VNET" vnet_id attr).
Definition stub_get_vnet_attribute (vnet_id attr_count attr_list : Z) : W → Z * W :=
  stub (get "VNET" vnet_id attr_count attr_list).
Definition stub_create_vnets (switch_id object_count attr_count attr_list mode object_id object_statuses : Z) : W → Z * W :=
  stub (bulkCreate "VNET" switch_id object_count attr_count attr_list mode object_id object_statuses).
Definition stub_remove_vnets (object_count object_id mode object_statuses : Z) : W → Z * W :=
  stub (bulkRemove "VNET" object_count object_id mode object_statuses).

Definition stub_dash_vnet : api_table := [
  ("create_vnet", F4 stub_create_vnet);
  ("remove_vnet", F1 stub_remove_vnet);
  ("set_vnet_attribute", F2 stub_set_vnet_attribute);
  ("get_vnet_attribute", F3 stub_get_vnet_attribute);
  ("create_vnets", F7 stub_create_vnets);
  ("remove_vnets", F4 stub_remove_vnets)].

Definition stub_create_pa_validation_entry (pa_validation_entry attr_count attr_list : Z) : W → Z * W :=
  stub (create_e "pa_validation_entry" pa_validation_entry attr_count attr_list).
Definition stub_remove_pa_validation_entry (pa_validation_entry : Z) : W → Z * W :=
  stub (remove_e "pa_validation_entry" pa_validation_entry).
Definition stub_set_pa_validation_entry_attribute (pa_validation_entry attr : Z) : W → Z * W :=
  stub (set_e "pa_validation_entry" pa_validation_entry attr).
Definition stub_get_pa_validation_entry_attribute (pa_validation_entry attr_count attr_list : Z) : W → Z * W :=
  stub (get_e "pa_validation_entry" pa_validation_entry attr_count attr_list).
Definition stub_create_pa_validation_entries (object_count pa_validation_entry attr_count attr_list mode object_statuses : Z) : W → Z * W :=
  stub (bulkCreate_e "pa_validation_entry" object_count pa_validation_entry attr_count attr_list mode object_statuses).
Definition stub_remove_pa_validation_entries (object_count pa_validation_entry mode object_statuses : Z) : W → Z * W :=
  stub (bulkRemove_e "pa_validation_entry" object_count pa_validation_entry mode object_statuses).

Definition stub_dash_pa_validation : api_table := [
  ("create_pa_validation_entry", F3 stub_create_pa_validation_entry);
  ("remove_pa_validation_entry", F1 stub_remove_pa_validation_entry);
  ("set_pa_validation_entry_attribute", F2 stub_set_pa_validation_entry_attribute);
  ("get_pa_validation_entry_attribute", F3 stub_get_pa_validation_entry_attribute);
  ("create_pa_validation_entries", F6 stub_create_pa_validation_entries);
  ("remove_pa_validation_entries", F4 stub_remove_pa_validation_entries)].

Definition stub_create_vip_entry (vip_entry attr_count attr_list : Z) : W → Z * W :=
  stub (create_e "vip_entry" vip_entry attr_count attr_list).
Definition stub_remove_vip_entry (vip_entry : Z) : W → Z * W := stub (remove_e "vip_entry" vip_entry).
Definition stub_set_vip_entry_attribute (vip_entry attr : Z) : W → Z * W :=
  stub (set_e "vip_entry" vip_entry attr).
Definition stub_get_vip_entry_attribute (vip_entry attr_count attr_list : Z) : W → Z * W :=
  stub (get_e "vip_entry" vip_entry attr_count attr_list).
Definition stub_create_vip_entries (object_count vip_entry attr_count attr_list mode object_statuses : Z) : W → Z * W :=
  stub (bulkCreate_e "vip_entry" object_count vip_entry attr_count attr_list mode object_statuses).
Definition stub_remove_vip_entries (object_count vip_entry mode object_statuses : Z) : W → Z * W :=
  stub (bulkRemove_e "vip_entry" object_count vip_entry mode object_statuses).

Definition stub_dash_vip : api_table := [
  ("create_vip_entry", F3 stub_create_vip_entry);
  ("remove_vip_entry", F1 stub_remove_vip_entry);
  ("set_vip_entry_attribute", F2 stub_set_vip_entry_attribute);
  ("get_vip_entry_attribute", F3 stub_get_vip_entry_attribute);
  ("create_vip_entries", F6 stub_create_vip_entries);
  ("remove_vip_entries", F4 stub_remove_vip_entries)].

Definition stub_create_ha_set (ha_set_id switch_id attr_count attr_list : Z) : W → Z * W :=
  stub (create "HA_SET" ha_set_id switch_id attr_count attr_list).
Definition stub_remove_ha_set (ha_set_id : Z) : W → Z * W := stub (remove "HA_SET" ha_set_id).
Definition stub_set_ha_set_attribute (ha_set_id attr : Z) : W → Z * W := stub (set "HA_SET" ha_set_id attr).
Definition stub_get_ha_set_attribute (ha_set_id attr_count attr_list : Z) : W → Z * W :=
  stub (get "HA_SET" ha_set_id attr_count attr_list).
Definition stub_get_ha_set_stats (ha_set_id number_of_counters counter_ids counters : Z) : W → Z * W :=
  stub (getStats "HA_SET" ha_set_id number_of_counters counter_ids counters).
Definition stub_get_ha_set_stats_ext (ha_set_id number_of_counters counter_ids mode counters : Z) : W → Z * W :=
  stub (getStatsExt "HA_SET" ha_set_id number_of_counters counter_ids mode counters).
Definition stub_clear_ha_set_stats (ha_set_id number_of_counters counter_ids : Z) : W → Z * W :=
  stub (clearStats "HA_SET" ha_set_id number_of_counters counter_ids).
Definition stub_create_ha_sets (switch_id object_count attr_count attr_list mode object_id object_statuses : Z) : W → Z * W :=
  stub (bulkCreate "HA_SET" switch_id object_count attr_count attr_list mode object_id object_statuses).
Definition stub_remove_ha_sets (object_count object_id mode object_statuses : Z) : W → Z * W :=
  stub (bulkRemove "HA_SET" object_count object_id mode object_statuses).
Definition stub_create_ha_scope (ha_scope_id switch_id attr_count attr_list : Z) : W → Z * W :=
  stub (create "HA_SCOPE" ha_scope_id switch_id attr_count attr_list).
Definition stub_remove_ha_scope (ha_scope_id : Z) : W → Z * W := stub (remove "HA_SCOPE" ha_scope_id).
Definition stub_set_ha_scope_attribute (ha_scope_id attr : Z) : W → Z * W :=
  stub (set "HA_SCOPE" ha_scope_id attr).
Definition stub_get_ha_scope_attribute (ha_scope_id attr_count attr_list : Z) : W → Z * W :=
  stub (get "HA_SCOPE" ha_scope_id attr_count attr_list).
Definition stub_create_ha_scopes (switch_id object_count attr_count attr_list mode object_id object_statuses : Z) : W → Z * W :=
  stub (bulkCreate "HA_SCOPE" switch_id object_count attr_count attr_list mode object_id object_statuses).
Definition stub_remove_ha_scopes (object_count object_id mode object_statuses : Z) : W → Z * W :=
  stub (bulkRemove "HA_SCOPE" object_count object_id mode object_statuses).

Definition stub_dash_ha : api_table := [
  ("create_ha_set", F4 stub_create_ha_set);
  ("remove_ha_set", F1 stub_remove_ha_set);
  ("set_ha_set_attribute", F2 stub_set_ha_set_attribute);
  ("get_ha_set_attribute", F3 stub_get_ha_set_attribute);
  ("get_ha_set_stats", F4 stub_get_ha_set_stats);
  ("get_ha_set_stats_ext", F5 stub_get_ha_set_stats_ext);
  ("clear_ha_set_stats", F3 stub_clear_ha_set_stats);
  ("create_ha_sets", F7 stub_create_ha_sets);
  ("remove_ha_sets", F4 stub_remove_ha_sets);
  ("create_ha_scope", F4 stub_create_ha_scope);
  ("remove_ha_scope", F1 stub_remove_ha_scope);
  ("set_ha_scope_attribute", F2 stub_set_ha_scope_attribute);
  ("get_ha_scope_attribute", F3 stub_get_ha_scope_attribute);
  ("create_ha_scopes", F7 stub_create_ha_scopes);
  ("remove_ha_scopes", F4 stub_remove_ha_scopes)].

Definition stub_create_dash_tunnel (dash_tunnel_id switch_id attr_count attr_list : Z) : W → Z * W :=
  stub (create "DASH_TUNNEL" dash_tunnel_id switch_id attr_count attr_list).
Definition stub_remove_dash_tunnel (dash_tunnel_id : Z) : W → Z * W :=
  stub (remove "DASH_TUNNEL" dash_tunnel_id).
Definition stub_set_dash_tunnel_attribute (dash_tunnel_id attr : Z) : W → Z * W :=
  stub (set "DASH_TUNNEL" dash_tunnel_id attr).
Definition stub_get_dash_tunnel_attribute (dash_tunnel_id attr_count attr_list : Z) : W → Z * W :=
  stub (get "DASH_TUNNEL" dash_tunnel_id attr_count attr_list).
Definition stub_create_dash_tunnels (switch_id object_count attr_count attr_list mode object_id object_statuses : Z) : W → Z * W :=
  stub (bulkCreate "DASH_TUNNEL" switch_id object_count attr_count attr_list mode object_id object_statuses).
Definition stub_remove_dash_tunnels (object_count object_id mode object_statuses : Z) : W → Z * W :=
  stub (bulkRemove "DASH_TUNNEL" object_count object_id mode object_statuses).
Definition stub_create_dash_tunnel_member (dash_tunnel_member_id switch_id attr_count attr_list : Z) : W → Z * W :=
  stub (create "DASH_TUNNEL_MEMBER" dash_tunnel_member_id switch_id attr_count attr_list).
Definition stub_remove_dash_tunnel_member (dash_tunnel_member_id : Z) : W → Z * W :=
  stub (remove "DASH_TUNNEL_MEMBER" dash_tunnel_member_id).
Definition stub_set_dash_tunnel_member_attribute (dash_tunnel_member_id attr : Z) : W → Z * W :=
  stub (set "DASH_TUNNEL_MEMBER" dash_tunnel_member_id attr).
Definition stub_get_dash_tunnel_member_attribute (dash_tunnel_member_id attr_count attr_list : Z) : W → Z * W :=
  stub (get "DASH_TUNNEL_MEMBER" dash_tunnel_member_id attr_count attr_list).
Definition stub_create_dash_tunnel_members (switch_id object_count attr_count attr_list mode object_id object_statuses : Z) : W → Z * W :=
  stub (bulkCreate "DASH_TUNNEL_MEMBER" switch_id object_count attr_count attr_list mode object_id object_statuses).
Definition stub_remove_dash_tunnel_members (object_count object_id mode object_statuses : Z) : W → Z * W :=
  stub (bulkRemove "DASH_TUNNEL_MEMBER" object_count object_id mode object_statuses).
Definition stub_create_dash_tunnel_next_hop (dash_tunnel_next_hop_id switch_id attr_count attr_list : Z) : W → Z * W :=
  stub (create "DASH_TUNNEL_NEXT_HOP" dash_tunnel_next_hop_id switch_id attr_count attr_list).
Definition stub_remove_dash_tunnel_next_hop (dash_tunnel_next_hop_id : Z) : W → Z * W :=
  stub (remove "DASH_TUNNEL_NEXT_HOP" dash_tunnel_next_hop_id).
Definition stub_set_dash_tunnel_next_hop_attribute (dash_tunnel_next_hop_id attr : Z) : W → Z * W :=
  stub (set "DASH_TUNNEL_NEXT_HOP" dash_tunnel_next_hop_id attr).
Definition stub_get_dash_tunnel_next_hop_attribute (dash_tunnel_next_hop_id attr_count attr_list : Z) : W → Z * W :=
  stub (get "DASH_TUNNEL_NEXT_HOP" dash_tunnel_next_hop_id attr_count attr_list).
Definition stub_create_dash_tunnel_next_hops (switch_id object_count attr_count attr_list mode object_id object_statuses : Z) : W → Z * W :=
  stub (bulkCreate "DASH_TUNNEL_NEXT_HOP" switch_id object_count attr_count attr_list mode object_id object_statuses).
Definition stub_remove_dash_tunnel_next_hops (object_count object_id mode object_statuses : Z) : W → Z * W :=
  stub (bulkRemove "DASH_TUNNEL_NEXT_HOP" object_count object_id mode object_statuses).

Definition stub_dash_tunnel : api_table := [
  ("create_dash_tunnel", F4 stub_create_dash_tunnel);
  ("remove_dash_tunnel", F1 stub_remove_dash_tunnel);
  ("set_dash_tunnel_attribute", F2 stub_set_dash_tunnel_attribute);
  ("get_dash_tunnel_attribute", F3 stub_get_dash_tunnel_attribute);
  ("create_dash_tunnels", F7 stub_create_dash_tunnels);
  ("remove_dash_tunnels", F4 stub_remove_dash_tunnels);
  ("create_dash_tunnel_member", F4 stub_create_dash_tunnel_member);
  ("remove_dash_tunnel_member", F1 stub_remove_dash_tunnel_member);
  ("set_dash_tunnel_member_attribute", F2 stub_set_dash_tunnel_member_attribute);
  ("get_dash_tunnel_member_attribute", F3 stub_get_dash_tunnel_member_attribute);
  ("create_dash_tunnel_members", F7 stub_create_dash_tunnel_members);
  ("remove_dash_tunnel_members", F4 stub_remove_dash_tunnel_members);
  ("create_dash_tunnel_next_hop", F4 stub_create_dash_tunnel_next_hop);
  ("remove_dash_tunnel_next_hop", F1 stub_remove_dash_tunnel_next_hop);
  ("set_dash_tunnel_next_hop_attribute", F2 stub_set_dash_tunnel_next_hop_attribute);
  ("get_dash_tunnel_next_hop_attribute", F3 stub_get_dash_tunnel_next_hop_attribute);
  ("create_dash_tunnel_next_hops", F7 stub_create_dash_tunnel_next_hops);
  ("remove_dash_tunnel_next_hops", F4 stub_remove_dash_tunnel_next_hops)].

Definition stub_create_flow_table (flow_table_id switch_id attr_count attr_list : Z) : W → Z * W :=
  stub (create "FLOW_TABLE" flow_table_id switch_id attr_count attr_list).
Definition stub_remove_flow_table (flow_table_id : Z) : W → Z * W :=
  stub (remove "FLOW_TABLE" flow_table_id).
Definition stub_set_flow_table_attribute (flow_table_id attr : Z) : W → Z * W :=
  stub (set "FLOW_TABLE" flow_table_id attr).
Definition stub_get_flow_table_attribute (flow_table_id attr_count attr_list : Z) : W → Z * W :=
  stub (get "FLOW_TABLE" flow_table_id attr_count attr_list).
Definition stub_create_flow_tables (switch_id object_count attr_count attr_list mode object_id object_statuses : Z) : W → Z * W :=
  stub (bulkCreate "FLOW_TABLE" switch_id object_count attr_count attr_list mode object_id object_statuses).
Definition stub_remove_flow_tables (object_count object_id mode object_statuses : Z) : W → Z * W :=
  stub (bulkRemove "FLOW_TABLE" object_count object_id mode object_statuses).
Definition stub_create_flow_entry (flow_entry attr_count attr_list : Z) : W → Z * W :=
  stub (create_e "flow_entry" flow_entry attr_count attr_list).
Definition stub_remove_flow_entry (flow_entry : Z) : W → Z * W := stub (remove_e "flow_entry" flow_entry).
Definition stub_set_flow_entry_attribute (flow_entry attr : Z) : W → Z * W :=
  stub (set_e "flow_entry" flow_entry attr).
Definition stub_get_flow_entry_attribute (flow_entry attr_count attr_list : Z) : W → Z * W :=
  stub (get_e "flow_entry" flow_entry attr_count attr_list).
Definition stub_create_flow_entries (object_count flow_entry attr_count attr_list mode object_statuses : Z) : W → Z * W :=
  stub (bulkCreate_e "flow_entry" object_count flow_entry attr_count attr_list mode object_statuses).
Definition stub_remove_flow_entries (object_count flow_entry mode object_statuses : Z) : W → Z * W :=
  stub (bulkRemove_e "flow_entry" object_count flow_entry mode object_statuses).
Definition stub_create_flow_entry_bulk_get_session_filter (flow_entry_bulk_get_session_filter_id switch_id attr_count attr_list : Z) : W → Z * W :=
  stub (create "FLOW_ENTRY_BULK_GET_SESSION_FILTER" flow_entry_bulk_get_session_filter_id switch_id attr_count attr_list).
Definition stub_remove_flow_entry_bulk_get_session_filter (flow_entry_bulk_get_session_filter_id : Z) : W → Z * W :=
  stub (remove "FLOW_ENTRY_BULK_GET_SESSION_FILTER" flow_entry_bulk_get_session_filter_id).
Definition stub_set_flow_entry_bulk_get_session_filter_attribute (flow_entry_bulk_get_session_filter_id attr : Z) : W → Z * W :=
  stub (set "FLOW_ENTRY_BULK_GET_SESSION_FILTER" flow_entry_bulk_get_session_filter_id attr).
Definition stub_get_flow_entry_bulk_get_session_filter_attribute (flow_entry_bulk_get_session_filter_id attr_count attr_list : Z) : W → Z * W :=
  stub (get "FLOW_ENTRY_BULK_GET_SESSION_FILTER" flow_entry_bulk_get_session_filter_id attr_count attr_list).
Definition stub_create_flow_entry_bulk_get_session_filters (switch_id object_count attr_count attr_list mode object_id object_statuses : Z) : W → Z * W :=
  stub (bulkCreate "FLOW_ENTRY_BULK_GET_SESSION_FILTER" switch_id object_count attr_count attr_list mode object_id object_statuses).
Definition stub_remove_flow_entry_bulk_get_session_filters (object_count object_id mode object_statuses : Z) : W → Z * W :=
  stub (bulkRemove "FLOW_ENTRY_BULK_GET_SESSION_FILTER" object_count object_id mode object_statuses).
Definition stub_create_flow_entry_bulk_get_session (flow_entry_bulk_get_session_id switch_id attr_count attr_list : Z) : W → Z * W :=
  stub (create "FLOW_ENTRY_BULK_GET_SESSION" flow_entry_bulk_get_session_id switch_id attr_count attr_list).
Definition stub_remove_flow_entry_bulk_get_session (flow_entry_bulk_get_session_id : Z) : W → Z * W :=
  stub (remove "FLOW_ENTRY_BULK_GET_SESSION" flow_entry_bulk_get_session_id).
Definition stub_set_flow_entry_bulk_get_session_attribute (flow_entry_bulk_get_session_id attr : Z) : W → Z * W :=
  stub (set "FLOW_ENTRY_BULK_GET_SESSION" flow_entry_bulk_get_session_id attr).
Definition stub_get_flow_entry_bulk_get_session_attribute (flow_entry_bulk_get_session_id attr_count attr_list : Z) : W → Z * W :=
  stub (get "FLOW_ENTRY_BULK_GET_SESSION" flow_entry_bulk_get_session_id attr_count attr_list).
Definition stub_create_flow_entry_bulk_get_sessions (switch_id object_count attr_count attr_list mode object_id object_statuses : Z) : W → Z * W :=
  stub (bulkCreate "FLOW_ENTRY_BULK_GET_SESSION" switch_id object_count attr_count attr_list mode object_id object_statuses).
Definition stub_remove_flow_entry_bulk_get_sessions (object_count object_id mode object_statuses : Z) : W → Z * W :=
  stub (bulkRemove "FLOW_ENTRY_BULK_GET_SESSION" object_count object_id mode object_statuses).

Definition stub_dash_flow : api_table := [
  ("create_flow_table", F4 stub_create_flow_table);
  ("remove_flow_table", F1 stub_remove_flow_table);
  ("set_flow_table_attribute", F2 stub_set_flow_table_attribute);
  ("get_flow_table_attribute", F3 stub_get_flow_table_attribute);
  ("create_flow_tables", F7 stub_create_flow_tables);
  ("remove_flow_tables", F4 stub_remove_flow_tables);
  ("create_flow_entry", F3 stub_create_flow_entry);
  ("remove_flow_entry", F1 stub_remove_flow_entry);
  ("set_flow_entry_attribute", F2 stub_set_flow_entry_attribute);
  ("get_flow_entry_attribute", F3 stub_get_flow_entry_attribute);
  ("create_flow_entries", F6 stub_create_flow_entries);
  ("remove_flow_entries", F4 stub_remove_flow_entries);
  ("create_flow_entry_bulk_get_session_filter", F4 stub_create_flow_entry_bulk_get_session_filter);
  ("remove_flow_entry_bulk_get_session_filter", F1 stub_remove_flow_entry_bulk_get_session_filter);
  ("set_flow_entry_bulk_get_session_filter_attribute", F2 stub_set_flow_entry_bulk_get_session_filter_attribute);
  ("get_flow_entry_bulk_get_session_filter_attribute", F3 stub_get_flow_entry_bulk_get_session_filter_attribute);
  ("create_flow_entry_bulk_get_session_filters", F7 stub_create_flow_entry_bulk_get_session_filters);
  ("remove_flow_entry_bulk_get_session_filters", F4 stub_remove_flow_entry_bulk_get_session_filters);
  ("create_flow_entry_bulk_get_session", F4 stub_create_flow_entry_bulk_get_session);
  ("remove_flow_entry_bulk_get_session", F1 stub_remove_flow_entry_bulk_get_session);
  ("set_flow_entry_bulk_get_session_attribute", F2 stub_set_flow_entry_bulk_get_session_attribute);
  ("get_flow_entry_bulk_get_session_attribute", F3 stub_get_flow_entry_bulk_get_session_attribute);
  ("create_flow_entry_bulk_get_sessions", F7 stub_create_flow_entry_bulk_get_sessions);
  ("remove_flow_entry_bulk_get_sessions", F4 stub_remove_flow_entry_bulk_get_sessions)].

Definition stub_create_dash_appliance (dash_appliance_id switch_id attr_count attr_list : Z) : W → Z * W :=
  stub (create "DASH_APPLIANCE" dash_appliance_id switch_id attr_count attr_list).
Definition stub_remove_dash_appliance (dash_appliance_id : Z) : W → Z * W :=
  stub (remove "DASH_APPLIANCE" dash_appliance_id).
Definition stub_set_dash_appliance_attribute (dash_appliance_id attr : Z) : W → Z * W :=
  stub (set "DASH_APPLIANCE" dash_appliance_id attr).
Definition stub_get_dash_appliance_attribute (dash_appliance_id attr_count attr_list : Z) : W → Z * W :=
  stub (get "DASH_APPLIANCE" dash_appliance_id attr_count attr_list).
Definition stub_create_dash_appliances (switch_id object_count attr_count attr_list mode object_id object_statuses : Z) : W → Z * W :=
  stub (bulkCreate "DASH_APPLIANCE" switch_id object_count attr_count attr_list mode object_id object_statuses).
Definition stub_remove_dash_appliances (object_count object_id mode object_statuses : Z) : W → Z * W :=
  stub (bulkRemove "DASH_APPLIANCE" object_count object_id mode object_statuses).

Definition stub_dash_appliance : api_table := [
  ("create_dash_appliance", F4 stub_create_dash_appliance);
  ("remove_dash_appliance", F1 stub_remove_dash_appliance);
  ("set_dash_appliance_attribute", F2 stub_set_dash_appliance_attribute);
  ("get_dash_appliance_attribute", F3 stub_get_dash_appliance_attribute);
  ("create_dash_appliances", F7 stub_create_dash_appliances);
  ("remove_dash_appliances", F4 stub_remove_dash_appliances)].

Definition stub_create_outbound_port_map (outbound_port_map_id switch_id attr_count attr_list : Z) : W → Z * W :=
  stub (create "OUTBOUND_PORT_MAP" outbound_port_map_id switch_id attr_count attr_list).
Definition stub_remove_outbound_port_map (outbound_port_map_id : Z) : W → Z * W :=
  stub (remove "OUTBOUND_PORT_MAP" outbound_port_map_id).
Definition stub_set_outbound_port_map_attribute (outbound_port_map_id attr : Z) : W → Z * W :=
  stub (set "OUTBOUND_PORT_MAP" outbound_port_map_id attr).
Definition stub_get_outbound_port_map_attribute (outbound_port_map_id attr_count attr_list : Z) : W → Z * W :=
  stub (get "OUTBOUND_PORT_MAP" outbound_port_map_id attr_count attr_list).
Definition stub_create_outbound_port_maps (switch_id object_count attr_count attr_list mode object_id object_statuses : Z) : W → Z * W :=
  stub (bulkCreate "OUTBOUND_PORT_MAP" switch_id object_count attr_count attr_list mode object_id object_statuses).
Definition stub_remove_outbound_port_maps (object_count object_id mode object_statuses : Z) : W → Z * W :=
  stub (bulkRemove "OUTBOUND_PORT_MAP" object_count object_id mode object_statuses).
Definition stub_create_outbound_port_map_port_range_entry (outbound_port_map_port_range_entry attr_count attr_list : Z) : W → Z * W :=
  stub (create_e "outbound_port_map_port_range_entry" outbound_port_map_port_range_entry attr_count attr_list).
Definition stub_remove_outbound_port_map_port_range_entry (outbound_port_map_port_range_entry : Z) : W → Z * W :=
  stub (remove_e "outbound_port_map_port_range_entry" outbound_port_map_port_range_entry).
Definition stub_set_outbound_port_map_port_range_entry_attribute (outbound_port_map_port_range_entry attr : Z) : W → Z * W :=
  stub (set_e "outbound_port_map_port_range_entry" outbound_port_map_port_range_entry attr).
Definition stub_get_outbound_port_map_port_range_entry_attribute (outbound_port_map_port_range_entry attr_count attr_list : Z) : W → Z * W :=
  stub (get_e "outbound_port_map_port_range_entry" outbound_port_map_port_range_entry attr_count attr_list).
Definition stub_create_outbound_port_map_port_range_entries (object_count outbound_port_map_port_range_entry attr_count attr_list mode object_statuses : Z) : W → Z * W :=
  stub (bulkCreate_e "outbound_port_map_port_range_entry" object_count outbound_port_map_port_range_entry attr_count attr_list mode object_statuses).
Definition stub_remove_outbound_port_map_port_range_entries (object_count outbound_port_map_port_range_entry mode object_statuses : Z) : W → Z * W :=
  stub (bulkRemove_e "outbound_port_map_port_range_entry" object_count outbound_port_map_port_range_entry mode object_statuses).

Definition stub_dash_outbound_port_map : api_table := [
  ("create_outbound_port_map", F4 stub_create_outbound_port_map);
  ("remove_outbound_port_map", F1 stub_remove_outbound_port_map);
  ("set_outbound_port_map_attribute", F2 stub_set_outbound_port_map_attribute);
  ("get_outbound_port_map_attribute", F3 stub_get_outbound_port_map_attribute);
  ("create_outbound_port_maps", F7 stub_create_outbound_port_maps);
  ("remove_outbound_port_maps", F4 stub_remove_outbound_port_maps);
  ("create_outbound_port_map_port_range_entry", F3 stub_create_outbound_port_map_port_range_entry);
  ("remove_outbound_port_map_port_range_entry", F1 stub_remove_outbound_port_map_port_range_entry);
  ("set_outbound_port_map_port_range_entry_attribute", F2 stub_set_outbound_port_map_port_range_entry_attribute);
  ("get_outbound_port_map_port_range_entry_attribute", F3 stub_get_outbound_port_map_port_range_entry_attribute);
  ("create_outbound_port_map_port_range_entries", F6 stub_create_outbound_port_map_port_range_entries);
  ("remove_outbound_port_map_port_range_entries", F4 stub_remove_outbound_port_map_port_range_entries)].

Definition stub_create_global_trusted_vni_entry (global_trusted_vni_entry attr_count attr_list : Z) : W → Z * W :=
  stub (create_e "global_trusted_vni_entry" global_trusted_vni_entry attr_count attr_list).
Definition stub_remove_global_trusted_vni_entry (global_trusted_vni_entry : Z) : W → Z * W :=
  stub (remove_e "global_trusted_vni_entry" global_trusted_vni_entry).
Definition stub_set_global_trusted_vni_entry_attribute (global_trusted_vni_entry attr : Z) : W → Z * W :=
  stub (set_e "global_trusted_vni_entry" global_trusted_vni_entry attr).
Definition stub_get_global_trusted_vni_entry_attribute (global_trusted_vni_entry attr_count attr_list : Z) : W → Z * W :=
  stub (get_e "global_trusted_vni_entry" global_trusted_vni_entry attr_count attr_list).
Definition stub_create_global_trusted_vni_entries (object_count global_trusted_vni_entry attr_count attr_list mode object_statuses : Z) : W → Z * W :=
  stub (bulkCreate_e "global_trusted_vni_entry" object_count global_trusted_vni_entry attr_count attr_list mode object_statuses).
Definition stub_remove_global_trusted_vni_entries (object_count global_trusted_vni_entry mode object_statuses : Z) : W → Z * W :=
  stub (bulkRemove_e "global_trusted_vni_entry" object_count global_trusted_vni_entry mode object_statuses).
Definition stub_create_eni_trusted_vni_entry (eni_trusted_vni_entry attr_count attr_list : Z) : W → Z * W :=
  stub (create_e "eni_trusted_vni_entry" eni_trusted_vni_entry attr_count attr_list).
Definition stub_remove_eni_trusted_vni_entry (eni_trusted_vni_entry : Z) : W → Z * W :=
  stub (remove_e "eni_trusted_vni_entry" eni_trusted_vni_entry).
Definition stub_set_eni_trusted_vni_entry_attribute (eni_trusted_vni_entry attr : Z) : W → Z * W :=
  stub (set_e "eni_trusted_vni_entry" eni_trusted_vni_entry attr).
Definition stub_get_eni_trusted_vni_entry_attribute (eni_trusted_vni_entry attr_count attr_list : Z) : W → Z * W :=
  stub (get_e "eni_trusted_vni_entry" eni_trusted_vni_entry attr_count attr_list).
Definition stub_create_eni_trusted_vni_entries (object_count eni_trusted_vni_entry attr_count attr_list mode object_statuses : Z) : W → Z * W :=
  stub (bulkCreate_e "eni_trusted_vni_entry" object_count eni_trusted_vni_entry attr_count attr_list mode object_statuses).
Definition stub_remove_eni_trusted_vni_entries (object_count eni_trusted_vni_entry mode object_statuses : Z) : W → Z * W :=
  stub (bulkRemove_e "eni_trusted_vni_entry" object_count eni_trusted_vni_entry mode object_statuses).

Definition stub_dash_trusted_vni : api_table := [
  ("create_global_trusted_vni_entry", F3 stub_create_global_trusted_vni_entry);
  ("remove_global_trusted_vni_entry", F1 stub_remove_global_trusted_vni_entry);
  ("set_global_trusted_vni_entry_attribute", F2 stub_set_global_trusted_vni_entry_attribute);
  ("get_global_trusted_vni_entry_attribute", F3 stub_get_global_trusted_vni_entry_attribute);
  ("create_global_trusted_vni_entries", F6 stub_create_global_trusted_vni_entries);
  ("remove_global_trusted_vni_entries", F4 stub_remove_global_trusted_vni_entries);
  ("create_eni_trusted_vni_entry", F3 stub_create_eni_trusted_vni_entry);
  ("remove_eni_trusted_vni_entry", F1 stub_remove_eni_trusted_vni_entry);
  ("set_eni_trusted_vni_entry_attribute", F2 stub_set_eni_trusted_vni_entry_attribute);
  ("get_eni_trusted_vni_entry_attribute", F3 stub_get_eni_trusted_vni_entry_attribute);
  ("create_eni_trusted_vni_entries", F6 stub_create_eni_trusted_vni_entries);
  ("remove_eni_trusted_vni_entries", F4 stub_remove_eni_trusted_vni_entries)].


(** The pointer handed back: [None] when [*api_method_table] is not written. *)
Definition sai_api_query (api api_method_table : Z) : Z * option api_table :=
  if api_method_table =? 0 then (SAI_STATUS_INVALID_PARAMETER, None)
  else if api =? SAI_API "UNSPECIFIED" then (SAI_STATUS_INVALID_PARAMETER, None)
  else if api =? SAI_API "SWITCH" then (SAI_STATUS_SUCCESS, Some stub_switch)
  else if api =? SAI_API "PORT" then (SAI_STATUS_SUCCESS, Some stub_port)
  else if api =? SAI_API "FDB" then (SAI_STATUS_SUCCESS, Some stub_fdb)
  else if api =? SAI_API "VLAN" then (SAI_STATUS_SUCCESS, Some stub_vlan)
  else if api =? SAI_API "VIRTUAL_ROUTER" then (SAI_STATUS_SUCCESS, Some stub_virtual_router)
  else if api =? SAI_API "ROUTE" then (SAI_STATUS_SUCCESS, Some stub_route)
  else if api =? SAI_API "NEXT_HOP" then (SAI_STATUS_SUCCESS, Some stub_next_hop)
  else if api =? SAI_API "NEXT_HOP_GROUP" then (SAI_STATUS_SUCCESS, Some stub_next_hop_group)
  else if api =? SAI_API "ROUTER_INTERFACE" then (SAI_STATUS_SUCCESS, Some stub_router_interface)
  else if api =? SAI_API "NEIGHBOR" then (SAI_STATUS_SUCCESS, Some stub_neighbor)
  else if api =? SAI_API "ACL" then (SAI_STATUS_SUCCESS, Some stub_acl)
  else if api =? SAI_API "HOSTIF" then (SAI_STATUS_SUCCESS, Some stub_hostif)
  else if api =? SAI_API "MIRROR" then (SAI_STATUS_SUCCESS, Some stub_mirror)
  else if api =? SAI_API "SAMPLEPACKET" then (SAI_STATUS_SUCCESS, Some stub_samplepacket)
  else if api =? SAI_API "STP" then (SAI_STATUS_SUCCESS, Some stub_stp)
  else if api =? SAI_API "LAG" then (SAI_STATUS_SUCCESS, Some stub_lag)
  else if api =? SAI_API "POLICER" then (SAI_STATUS_SUCCESS, Some stub_policer)
  else if api =? SAI_API "WRED" then (SAI_STATUS_SUCCESS, Some stub_wred)
  else if api =? SAI_API "QOS_MAP" then (SAI_STATUS_SUCCESS, Some stub_qos_map)
  else if api =? SAI_API "QUEUE" then (SAI_STATUS_SUCCESS, Some stub_queue)
  else if api =? SAI_API "SCHEDULER" then (SAI_STATUS_SUCCESS, Some stub_scheduler)
  else if api =? SAI_API "SCHEDULER_GROUP" then (SAI_STATUS_SUCCESS, Some stub_scheduler_group)
  else if api =? SAI_API "BUFFER" then (SAI_STATUS_SUCCESS, Some stub_buffer)
  else if api =? SAI_API "HASH" then (SAI_STATUS_SUCCESS, Some stub_hash)
  else if api =? SAI_API "UDF" then (SAI_STATUS_SUCCESS, Some stub_udf)
  else if api =? SAI_API "TUNNEL" then (SAI_STATUS_SUCCESS, Some stub_tunnel)
  else if api =? SAI_API "L2MC" then (SAI_STATUS_SUCCESS, Some stub_l2mc)
  else if api =? SAI_API "IPMC" then (SAI_STATUS_SUCCESS, Some stub_ipmc)
  else if api =? SAI_API "RPF_GROUP" then (SAI_STATUS_SUCCESS, Some stub_rpf_group)
  else if api =? SAI_API "L2MC_GROUP" then (SAI_STATUS_SUCCESS, Some stub_l2mc_group)
  else if api =? SAI_API "IPMC_GROUP" then (SAI_STATUS_SUCCESS, Some stub_ipmc_group)
  else if api =? SAI_API "MCAST_FDB" then (SAI_STATUS_SUCCESS, Some stub_mcast_fdb)
  else if api =? SAI_API "BRIDGE" then (SAI_STATUS_SUCCESS, Some stub_bridge)
  else if api =? SAI_API "TAM" then (SAI_STATUS_SUCCESS, Some stub_tam)
  else if api =? SAI_API "SRV6" then (SAI_STATUS_SUCCESS, Some stub_srv6)
  else if api =? SAI_API "MPLS" then (SAI_STATUS_SUCCESS, Some stub_mpls)
  else if api =? SAI_API "DTEL" then (SAI_STATUS_SUCCESS, Some stub_dtel)
  else if api =? SAI_API "BFD" then (SAI_STATUS_SUCCESS, Some stub_bfd)
  else if api =? SAI_API "ISOLATION_GROUP" then (SAI_STATUS_SUCCESS, Some stub_isolation_group)
  else if api =? SAI_API "NAT" then (SAI_STATUS_SUCCESS, Some stub_nat)
  else if api =? SAI_API "COUNTER" then (SAI_STATUS_SUCCESS, Some stub_counter)
  else if api =? SAI_API "DEBUG_COUNTER" then (SAI_STATUS_SUCCESS, Some stub_debug_counter)
  else if api =? SAI_API "MACSEC" then (SAI_STATUS_SUCCESS, Some stub_macsec)
  else if api =? SAI_API "SYSTEM_PORT" then (SAI_STATUS_SUCCESS, Some stub_system_port)
  else if api =? SAI_API "MY_MAC" then (SAI_STATUS_SUCCESS, Some stub_my_mac)
  else if api =? SAI_API "IPSEC" then (SAI_STATUS_SUCCESS, Some stub_ipsec)
  else if api =? SAI_API "GENERIC_PROGRAMMABLE" then (SAI_STATUS_SUCCESS, Some stub_generic_programmable)
  else if api =? SAI_API "ARS" then (SAI_STATUS_SUCCESS, Some stub_ars)
  else if api =? SAI_API "ARS_PROFILE" then (SAI_STATUS_SUCCESS, Some stub_ars_profile)
  else if api =? SAI_API "TWAMP" then (SAI_STATUS_SUCCESS, Some stub_twamp)
  else if api =? SAI_API "POE" then (SAI_STATUS_SUCCESS, Some stub_poe)
  else if api =? SAI_API "ICMP_ECHO" then (SAI_STATUS_SUCCESS, Some stub_icmp_echo)
  else if api =? SAI_API "PREFIX_COMPRESSION" then (SAI_STATUS_SUCCESS, Some stub_prefix_compression)
  else if api =? SAI_API "SYNCE" then (SAI_STATUS_SUCCESS, Some stub_synce)
  else if api =? SAI_API "BMTOR" then (SAI_STATUS_SUCCESS, Some stub_bmtor)
  else if api =? SAI_API "DASH_ACL" then (SAI_STATUS_SUCCESS, Some stub_dash_acl)
  else if api =? SAI_API "DASH_DIRECTION_LOOKUP" then (SAI_STATUS_SUCCESS, Some stub_dash_direction_lookup)
  else if api =? SAI_API "DASH_ENI" then (SAI_STATUS_SUCCESS, Some stub_dash_eni)
  else if api =? SAI_API "DASH_INBOUND_ROUTING" then (SAI_STATUS_SUCCESS, Some stub_dash_inbound_routing)
  else if api =? SAI_API "DASH_METER" then (SAI_STATUS_SUCCESS, Some stub_dash_meter)
  else if api =? SAI_API "DASH_OUTBOUND_CA_TO_PA" then (SAI_STATUS_SUCCESS, Some stub_dash_outbound_ca_to_pa)
  else if api =? SAI_API "DASH_OUTBOUND_ROUTING" then (SAI_STATUS_SUCCESS, Some stub_dash_outbound_routing)
  else if api =? SAI_API "DASH_VNET" then (SAI_STATUS_SUCCESS, Some stub_dash_vnet)
  else if api =? SAI_API "DASH_PA_VALIDATION" then (SAI_STATUS_SUCCESS, Some stub_dash_pa_validation)
  else if api =? SAI_API "DASH_VIP" then (SAI_STATUS_SUCCESS, Some stub_dash_vip)
  else if api =? SAI_API "DASH_HA" then (SAI_STATUS_SUCCESS, Some stub_dash_ha)
  else if api =? SAI_API "DASH_TUNNEL" then (SAI_STATUS_SUCCESS, Some stub_dash_tunnel)
  else if api =? SAI_API "DASH_FLOW" then (SAI_STATUS_SUCCESS, Some stub_dash_flow)
  else if api =? SAI_API "DASH_APPLIANCE" then (SAI_STATUS_SUCCESS, Some stub_dash_appliance)
  else if api =? SAI_API "DASH_OUTBOUND_PORT_MAP" then (SAI_STATUS_SUCCESS, Some stub_dash_outbound_port_map)
  else if api =? SAI_API "DASH_TRUSTED_VNI" then (SAI_STATUS_SUCCESS, Some stub_dash_trusted_vni)
  else (SAI_STATUS_INVALID_PARAMETER, None).

Definition sai_switch_id_query (object_id : Z) : W → Z * W := stub (switchIdQuery object_id).
Definition sai_object_type_query (object_id : Z) : W → Z * W := stub (objectTypeQuery object_id).
Definition sai_api_initialize (flags services : Z) : W → Z * W := stub (apiInitialize flags services).
Definition sai_api_uninitialize : W → Z * W := stub apiUninitialize.
Definition sai_bulk_get_attribute (switch_id object_type object_count object_key attr_count attr_list object_statuses : Z) : W → Z * W :=
  not_implemented.
Definition sai_bulk_object_clear_stats (switch_id object_type object_count object_key number_of_counters counter_ids mode object_statuses : Z) : W → Z * W :=
  not_implemented.
Definition sai_bulk_object_get_stats (switch_id object_type object_count object_key number_of_counters counter_ids mode object_statuses counters : Z) : W → Z * W :=
  not_implemented.
Definition sai_dbg_generate_dump (dump_file_name : Z) : W → Z * W := not_implemented.
Definition sai_get_maximum_attribute_count (switch_id object_type count : Z) : W → Z * W := not_implemented.
Definition sai_get_object_count (switch_id object_type count : Z) : W → Z * W := not_implemented.
Definition sai_get_object_key (switch_id object_type object_count object_list : Z) : W → Z * W :=
  not_implemented.
Definition sai_log_set (api log_level : Z) : W → Z * W := stub (logSet api log_level).
Definition sai_object_type_get_availability (switch_id object_type attr_count attr_list count : Z) : W → Z * W :=
  stub (objectTypeGetAvailability switch_id object_type attr_count attr_list count).
Definition sai_query_api_version (version : Z) : W → Z * W := stub (queryApiVersion version).
Definition sai_query_attribute_capability (switch_id object_type attr_id attr_capability : Z) : W → Z * W :=
  stub (queryAttributeCapability switch_id object_type attr_id attr_capability).
Definition sai_query_attribute_enum_values_capability (switch_id object_type attr_id enum_values_capability : Z) : W → Z * W :=
  stub (queryAttributeEnumValuesCapability switch_id object_type attr_id enum_values_capability).
Definition sai_query_object_stage (switch_id object_type attr_count attr_list stage : Z) : W → Z * W :=
  not_implemented.
Definition sai_query_stats_capability (switch_id object_type stats_capability : Z) : W → Z * W :=
  stub (queryStatsCapability switch_id object_type stats_capability).
Definition sai_query_stats_st_capability (switch_id object_type stats_capability : Z) : W → Z * W :=
  stub (queryStatsStCapability switch_id object_type stats_capability).
Definition sai_tam_telemetry_get_data (switch_id obj_list clear_on_read buffer_size buffer : Z) : W → Z * W :=
  not_implemented.
(** Every table of the file, with its [SAI_API_] name. *)
Definition api_tables : list (string * api_table) := [
  ("SWITCH", stub_switch);
  ("PORT", stub_port);
  ("FDB", stub_fdb);
  ("VLAN", stub_vlan);
  ("VIRTUAL_ROUTER", stub_virtual_router);
  ("ROUTE", stub_route);
  ("NEXT_HOP", stub_next_hop);
  ("NEXT_HOP_GROUP", stub_next_hop_group);
  ("ROUTER_INTERFACE", stub_router_interface);
  ("NEIGHBOR", stub_neighbor);
  ("ACL", stub_acl);
  ("HOSTIF", stub_hostif);
  ("MIRROR", stub_mirror);
  ("SAMPLEPACKET", stub_samplepacket);
  ("STP", stub_stp);
  ("LAG", stub_lag);
  ("POLICER", stub_policer);
  ("WRED", stub_wred);
  ("QOS_MAP", stub_qos_map);
  ("QUEUE", stub_queue);
  ("SCHEDULER", stub_scheduler);
  ("SCHEDULER_GROUP", stub_scheduler_group);
  ("BUFFER", stub_buffer);
  ("HASH", stub_hash);
  ("UDF", stub_udf);
  ("TUNNEL", stub_tunnel);
  ("L2MC", stub_l2mc);
  ("IPMC", stub_ipmc);
  ("RPF_GROUP", stub_rpf_group);
  ("L2MC_GROUP", stub_l2mc_group);
  ("IPMC_GROUP", stub_ipmc_group);
  ("MCAST_FDB", stub_mcast_fdb);
  ("BRIDGE", stub_bridge);
  ("TAM", stub_tam);
  ("SRV6", stub_srv6);
  ("MPLS", stub_mpls);
  ("DTEL", stub_dtel);
  ("BFD", stub_bfd);
  ("ISOLATION_GROUP", stub_isolation_group);
  ("NAT", stub_nat);
  ("COUNTER", stub_counter);
  ("DEBUG_COUNTER", stub_debug_counter);
  ("MACSEC", stub_macsec);
  ("SYSTEM_PORT", stub_system_port);
  ("MY_MAC", stub_my_mac);
  ("IPSEC", stub_ipsec);
  ("GENERIC_PROGRAMMABLE", stub_generic_programmable);
  ("ARS", stub_ars);
  ("ARS_PROFILE", stub_ars_profile);
  ("TWAMP", stub_twamp);
  ("POE", stub_poe);
  ("ICMP_ECHO", stub_icmp_echo);
  ("PREFIX_COMPRESSION", stub_prefix_compression);
  ("SYNCE", stub_synce);
  ("BMTOR", stub_bmtor);
  ("DASH_ACL", stub_dash_acl);
  ("DASH_DIRECTION_LOOKUP", stub_dash_direction_lookup);
  ("DASH_ENI", stub_dash_eni);
  ("DASH_INBOUND_ROUTING", stub_dash_inbound_routing);
  ("DASH_METER", stub_dash_meter);
  ("DASH_OUTBOUND_CA_TO_PA", stub_dash_outbound_ca_to_pa);
  ("DASH_OUTBOUND_ROUTING", stub_dash_outbound_routing);
  ("DASH_VNET", stub_dash_vnet);
  ("DASH_PA_VALIDATION", stub_dash_pa_validation);
  ("DASH_VIP", stub_dash_vip);
  ("DASH_HA", stub_dash_ha);
  ("DASH_TUNNEL", stub_dash_tunnel);
  ("DASH_FLOW", stub_dash_flow);
  ("DASH_APPLIANCE", stub_dash_appliance);
  ("DASH_OUTBOUND_PORT_MAP", stub_dash_outbound_port_map);
  ("DASH_TRUSTED_VNI", stub_dash_trusted_vni)].
End adapter.

(** * The naming convention of the tables

    An independent reading of a slot's name and number of parameters: the
    request it has to make. *)

Definition upper_ascii (c : Ascii.ascii) : Ascii.ascii :=
  let n := Ascii.nat_of_ascii c in
  if (Nat.leb 97 n && Nat.leb n 122)%bool then Ascii.ascii_of_nat (n - 32) else c.
Fixpoint upper (s : string) : string :=
  match s with EmptyString => EmptyString
  | String c s => String (upper_ascii c) (upper s) end.

Fixpoint strip (p s : string) : option string :=
  match p, s with
  | EmptyString, _ => Some s
  | String a p, String b s => if Ascii.eqb a b then strip p s else None
  | _, _ => None
  end.
Definition strip_suffix (p s : string) : option string :=
  String.rev <$> strip (String.rev p) (String.rev s).
Definition between (p q s : string) : option string :=
  strip p s ≫= strip_suffix q.
(** "entries" is the plural of "entry", "ports" of "port". *)
Definition singular (s : string) : option string :=
  match strip_suffix "ies" s with
  | Some r => Some (r +:+ "y")
  | None => strip_suffix "s" s
  end.

(** The slots that do not follow the convention: register access on the switch,
    the FDB flush, and the entry points without an implementation. *)
Definition special_slots : list string := [
  "switch_mdio_read"; "switch_mdio_write"; "switch_mdio_cl22_read";
  "switch_mdio_cl22_write"; "flush_fdb_entries"; "clear_port_all_stats";
  "remove_all_neighbor_entries"; "recv_hostif_packet"; "send_hostif_packet";
  "allocate_hostif_packet"; "free_hostif_packet"].

Section convention.
Context {W : Type} (stub : call → W → Z * W).
Context (SAI_NULL_OBJECT_ID SAI_STATUS_NOT_IMPLEMENTED : Z).

Abbreviation table := (@api_table W).
Abbreviation tables :=
  (api_tables stub SAI_NULL_OBJECT_ID SAI_STATUS_NOT_IMPLEMENTED).

Fixpoint find_slot (name : string) (t : table) : option (@slot W) :=
  match t with
  | [] => None
  | (n, f) :: t => if String.eqb n name then Some f else find_slot name t
  end.

(** An entry is created without an object id for its result: its
    [create_<x>] takes three parameters (the switch aside). *)
Definition is_entry (t : table) (x : string) : bool :=
  match find_slot ("create_" +:+ x) t with
  | Some (F3 _) => negb (String.eqb x "switch")
  | _ => false
  end.

Definition expected (t : table) (name : string) (f : @slot W) : option (@slot W) :=
  match f with
  | F1 _ => x ← strip "remove_" name;
      Some (F1 (λ a, stub (if is_entry t x then remove_e x a else remove (upper x) a)))
  | F2 _ => x ← between "set_" "_attribute" name;
      Some (F2 (λ a b, stub (if is_entry t x then set_e x a b else set (upper x) a b)))
  | F3 _ =>
      match strip "create_" name, between "get_" "_attribute" name,
            between "clear_" "_stats" name with
      | Some x, _, _ => Some (F3 (λ a b c, stub
          (if is_entry t x then create_e x a b c
           else create (upper x) a SAI_NULL_OBJECT_ID b c)))
      | _, Some x, _ => Some (F3 (λ a b c, stub
          (if is_entry t x then get_e x a b c else get (upper x) a b c)))
      | _, _, Some x => Some (F3 (λ a b c, stub
          (if is_entry t x then clearStats_e x a b c else clearStats (upper x) a b c)))
      | _, _, _ => None
      end
  | F4 _ =>
      match strip "create_" name, between "get_" "_stats" name,
            strip "remove_" name ≫= singular with
      | Some x, _, _ => Some (F4 (λ a b c d, stub (create (upper x) a b c d)))
      | _, Some x, _ => Some (F4 (λ a b c d, stub
          (if is_entry t x then getStats_e x a b c d else getStats (upper x) a b c d)))
      | _, _, Some x => Some (F4 (λ a b c d, stub
          (if is_entry t x then bulkRemove_e x a b c d
           else bulkRemove (upper x) a b c d)))
      | _, _, _ => None
      end
  | F5 _ =>
      match between "get_" "_stats_ext" name,
            between "set_" "_attribute" name ≫= singular with
      | Some x, _ => Some (F5 (λ a b c d e, stub
          (if is_entry t x then getStatsExt_e x a b c d e
           else getStatsExt (upper x) a b c d e)))
      | _, Some x => Some (F5 (λ a b c d e, stub
          (if is_entry t x then bulkSet_e x a b c d e
           else bulkSet (upper x) a b c d e)))
      | _, _ => None
      end
  | F6 _ =>
      match strip "create_" name ≫= singular,
            between "get_" "_attribute" name ≫= singular with
      | Some x, _ => Some (F6 (λ a b c d e g, stub (bulkCreate_e x a b c d e g)))
      | _, Some x => Some (F6 (λ a b c d e g, stub
          (if is_entry t x then bulkGet_e x a b c d e g
           else bulkGet (upper x) a b c d e g)))
      | _, _ => None
      end
  | F7 _ => x ← strip "create_" name ≫= singular;
      Some (F7 (λ a b c d e g h, stub (bulkCreate (upper x) a b c d e g h)))
  end.

(** The slot makes the request its name announces. *)
Definition wired (t : table) (name : string) (f : @slot W) : Prop :=
  if existsb (String.eqb name) special_slots then True else expected t name f = Some f.

Fixpoint all_slots (P : string → @slot W → Prop) (t : table) : Prop :=
  match t with [] => True | (n, f) :: t => P n f ∧ all_slots P t end.
Fixpoint all_tables (P : table → Prop) (ts : list (string * table)) : Prop :=
  match ts with [] => True | (_, t) :: ts => P t ∧ all_tables P ts end.

Lemma all_slots_elem P t n f : all_slots P t → (n, f) ∈ t → P n f.
Proof. induction t as [|[n' f'] t IH]; simpl; set_solver. Qed.
Lemma all_tables_elem P ts n t : all_tables P ts → (n, t) ∈ ts → P t.
Proof. induction ts as [|[n' t'] ts IH]; simpl; set_solver. Qed.

Lemma all_wired : all_tables (λ t, all_slots (wired t) t) tables.
Proof. vm_compute. repeat split. Qed.
End convention.

(** * Properties *)

(** C11: in every function table of the adapter, every slot whose name follows
    the SAI naming convention ([create_port], [get_fdb_entries_attribute], ...)
    makes exactly one request to the backend: the operation its name announces,
    on the object or entry type its name announces, with the caller's arguments
    in order.  In particular the create, remove, set and get slots of one object
    all use that object's type. *)
Theorem sai_tables_wired {W} (stub : call → W → Z * W) null ni api t name f :
  (api, t) ∈ api_tables stub null ni → (name, f) ∈ t → name ∉ special_slots →
  expected stub null t name f = Some f.
Proof.
  intros Ht Hf Hs.
  pose proof (all_wired stub null ni) as Hw.
  eapply all_tables_elem in Hw; [|exact Ht].
  eapply all_slots_elem in Hw; [|exact Hf]. rename Hw into Hn. unfold wired in Hn.
  destruct (existsb (String.eqb name) special_slots) eqn:E; [|done].
  apply existsb_exists in E as (x & Hx & ->%String.eqb_eq).
  by apply list_elem_of_In in Hx.
Qed.

(** A backend that records the requests it gets. *)
Definition recorder : call → list call → Z * list call := λ c w, (0, w ++ [c]).

Lemma sai_tables_wired_witness :
  expected recorder 7 (stub_lag recorder) "create_lag_members"
    (F7 (stub_create_lag_members recorder))
  = Some (F7 (λ a b c d e g h, recorder (bulkCreate "LAG_MEMBER" a b c d e g h))).
Proof.
  rewrite (sai_tables_wired recorder 7 9 "LAG" (stub_lag recorder)
             "create_lag_members").
  - reflexivity.
  - apply (list_elem_of_lookup_2 _ 15). reflexivity.
  - apply (list_elem_of_lookup_2 _ 8). reflexivity.
  - apply (bool_decide_unpack _). vm_compute. exact I.
Defined.

(** The slot names of all tables, in order. *)
Definition slot_names {W} (ts : list (string * @api_table W)) : list string :=
  concat (map (λ t, map fst (snd t)) ts).

Fixpoint nodupb (l : list string) : bool :=
  match l with [] => true | x :: l => negb (existsb (String.eqb x) l) && nodupb l end.

Lemma nodupb_NoDup l : nodupb l = true → NoDup l.
Proof.
  induction l as [|x l IH]; simpl; [constructor|].
  intros [Hx Hl]%andb_true_iff. constructor; [|auto].
  intros Hin%list_elem_of_In. apply negb_true_iff in Hx.
  assert (existsb (String.eqb x) l = true) as E; [|congruence].
  apply existsb_exists. exists x. by rewrite String.eqb_refl.
Qed.

(** The slots outside the convention are exactly eleven: the four MDIO
    accesses and the FDB flush forward to their own backend method, and the
    other six, like the nine global entry points without an implementation,
    return [SAI_STATUS_NOT_IMPLEMENTED] without making any request, so that the
    world is unchanged; no slot name occurs twice in the tables. *)
Theorem sai_special_slots {W} (stub : call → W → Z * W) null ni :
  NoDup (slot_names (api_tables stub null ni)) ∧
  (∀ (w : W) a b c d e,
     stub_switch_mdio_read stub a b c d e w = stub (switchMdioRead a b c d e) w ∧
     stub_switch_mdio_write stub a b c d e w = stub (switchMdioWrite a b c d e) w ∧
     stub_switch_mdio_cl22_read stub a b c d e w = stub (switchMdioCl22Read a b c d e) w ∧
     stub_switch_mdio_cl22_write stub a b c d e w = stub (switchMdioCl22Write a b c d e) w ∧
     stub_flush_fdb_entries stub a b c w = stub (flushFdbEntries a b c) w ∧
     stub_clear_port_all_stats ni a w = (ni, w) ∧
     stub_remove_all_neighbor_entries ni a w = (ni, w) ∧
     stub_recv_hostif_packet ni a b c d e w = (ni, w) ∧
     stub_send_hostif_packet ni a b c d e w = (ni, w) ∧
     stub_allocate_hostif_packet ni a b c d e w = (ni, w) ∧
     stub_free_hostif_packet ni a b w = (ni, w)) ∧
  (∀ (w : W) a b c d e f g h i,
     sai_bulk_get_attribute ni a b c d e f g w = (ni, w) ∧
     sai_bulk_object_clear_stats ni a b c d e f g h w = (ni, w) ∧
     sai_bulk_object_get_stats ni a b c d e f g h i w = (ni, w) ∧
     sai_dbg_generate_dump ni a w = (ni, w) ∧
     sai_get_maximum_attribute_count ni a b c w = (ni, w) ∧
     sai_get_object_count ni a b c w = (ni, w) ∧
     sai_get_object_key ni a b c d w = (ni, w) ∧
     sai_query_object_stage ni a b c d e w = (ni, w) ∧
     sai_tam_telemetry_get_data ni a b c d e w = (ni, w)).
Proof.
  split; [apply nodupb_NoDup; vm_compute; reflexivity|].
  split; intros; repeat split.
Qed.

(** Selecting a table by the numeric value of its enumerator. *)
Fixpoint select_api {W} (SAI_API : string → Z) (ok bad api : Z)
    (ts : list (string * @api_table W)) : Z * option (@api_table W) :=
  match ts with
  | [] => (bad, None)
  | (n, t) :: ts =>
      if api =? SAI_API n then (ok, Some t) else select_api SAI_API ok bad api ts
  end.

Lemma select_api_None {W} A ok bad api (ts : list (string * @api_table W)) :
  (∀ n t, (n, t) ∈ ts → api ≠ A n) → select_api A ok bad api ts = (bad, None).
Proof.
  induction ts as [|[n t] ts IH]; intros H; simpl; [done|].
  rewrite (proj2 (Z.eqb_neq _ _)) by (eapply H; left).
  apply IH. intros n' t' ?. apply (H n' t'). by right.
Qed.

Lemma select_api_Some {W} A ok bad n t (ts : list (string * @api_table W)) :
  NoDup (A <$> (fst <$> ts)) → (n, t) ∈ ts →
  select_api A ok bad (A n) ts = (ok, Some t).
Proof.
  induction ts as [|[n' t'] ts IH]; [by intros _ ?%not_elem_of_nil|].
  simpl. intros [Hn Hd]%NoDup_cons [[= <- <-]|Hin]%elem_of_cons.
  - by rewrite Z.eqb_refl.
  - rewrite (proj2 (Z.eqb_neq _ _)); [auto|].
    intros E. apply Hn. rewrite <- E. apply list_elem_of_fmap. exists n.
    split; [done|]. apply list_elem_of_fmap. by exists (n, t).
Qed.

Lemma sai_api_query_select {W} (stub : call → W → Z * W) null ok ni bad A api p :
  sai_api_query stub null ok ni bad A api p =
  if p =? 0 then (bad, None) else if api =? A "UNSPECIFIED" then (bad, None)
  else select_api A ok bad api (api_tables stub null ni).
Proof. reflexivity. Qed.

(** [sai_api_query] rejects a null result pointer, the unspecified API and
    every API without a table, writing nothing; for each of the 71 APIs it
    returns success and that API's own table. *)
Theorem sai_api_query_spec {W} (stub : call → W → Z * W) null ok ni bad
    (A : string → Z) p :
  let ts := api_tables stub null ni in
  NoDup (A <$> "UNSPECIFIED" :: (fst <$> ts)) →
  (∀ api, sai_api_query stub null ok ni bad A api 0 = (bad, None)) ∧
  sai_api_query stub null ok ni bad A (A "UNSPECIFIED") p = (bad, None) ∧
  (∀ api, (∀ n t, (n, t) ∈ ts → api ≠ A n) →
     sai_api_query stub null ok ni bad A api p = (bad, None)) ∧
  (∀ n t, p ≠ 0 → (n, t) ∈ ts →
     sai_api_query stub null ok ni bad A (A n) p = (ok, Some t)).
Proof.
  intros ts Hnd. rewrite fmap_cons in Hnd. apply NoDup_cons in Hnd as [Hu Hnd].
  split_all.
  - done.
  - rewrite sai_api_query_select, Z.eqb_refl. by destruct (p =? 0).
  - intros api Hapi. rewrite sai_api_query_select, select_api_None by done.
    by destruct (p =? 0), (api =? A "UNSPECIFIED").
  - intros n t Hp Hin. rewrite sai_api_query_select.
    rewrite (proj2 (Z.eqb_neq _ _) Hp).
    destruct (Z.eqb_spec (A n) (A "UNSPECIFIED")) as [E|]; [|by apply select_api_Some].
    destruct Hu. rewrite <- E. apply list_elem_of_fmap. exists n.
    split; [done|]. apply list_elem_of_fmap. by exists (n, t).
Qed.

(** Enumerators numbered by their position, as in sai.h. *)
Definition enum_of (names : list string) (n : string) : Z :=
  (fix go k l := match l with
   | [] => k | x :: l => if String.eqb x n then k else go (k + 1) l end) 0 names.

Lemma sai_api_query_witness :
  let names := "UNSPECIFIED" :: (fst <$> api_tables recorder 7 9) in
  sai_api_query recorder 7 0 9 5 (enum_of names) (enum_of names "ROUTE") 4096
    = (0, Some (stub_route recorder)).
Proof.
  intros names. apply (sai_api_query_spec recorder 7 0 9 5 (enum_of names) 4096).
  - apply (bool_decide_unpack _). vm_compute. exact I.
  - lia.
  - apply (list_elem_of_lookup_2 _ 5). reflexivity.
Defined.
