(* ===== verification/Redis.v ===== *)
(** The store that the programs of [src/sonic/sonic-swss-common/codes] work on, as the notes
    beside them describe it: the keys of one Redis database, and the control flow of the
    quoted Lua scripts.

    A script is atomic. An error inside it (a command on a key of another type, a missing
    argument) ends it and keeps what it has done. The commands that the scripts call are an
    interface, [RedisServer], with their documented behaviour as its laws; [Executable] is
    a server that meets it and records every command in the way [MONITOR] shows it. *)

From S2P Require Import Prelude.
From Stdlib Require Import DecimalString Decimal DecimalNat.

(** * The store *)

Abbreviation hash := (gmap string string).

Inductive value : Type := Hash (h : hash) | Members (s : gset string) | Queue (l : list string).

Record redis : Type := Redis {
  store : gmap string value;
  monitor : list (list string)
}.

(** * Scripts *)

Definition script (A : Type) : Type := redis → option A * redis.

#[export] Instance script_ret : MRet script := λ A a r, (Some a, r).
#[export] Instance script_bind : MBind script := λ A B f m r,
  match m r with (Some a, r) => f a r | (None, r) => (None, r) end.

(** [error(...)]. *)
Definition lua_error {A} : script A := λ r, (None, r).

(** [KEYS[i]] and [ARGV[i]], which count from one; a command does not take [nil]. *)
Definition at_ (l : list string) (i : nat) : script string :=
  match i with 0 => lua_error | S i => λ r, (l !! i, r) end.

(** A number is sent, and read back by [tonumber], in decimal. *)
Definition tostring (n : nat) : string := NilEmpty.string_of_uint (Nat.to_uint n).
Definition tonumber (s : string) : script nat := λ r, (Nat.of_uint <$> NilEmpty.uint_of_string s, r).

(** [for i = i0, i0 + n - 1 do body end]. *)
Fixpoint lua_for (i0 n : nat) (body : nat → script unit) : script unit :=
  match n with 0 => mret () | S n => body i0;; lua_for (S i0) n body end.
(** The same loop with a local that the body changes. *)
Fixpoint lua_for_with {A} (i0 n : nat) (body : nat → A → script A) (a : A) : script A :=
  match n with 0 => mret a | S n => a ← body i0 a; lua_for_with (S i0) n body a end.

Definition hash_at (st : gmap string value) (k : string) : option hash :=
  match st !! k with None => Some ∅ | Some (Hash h) => Some h | Some _ => None end.
Definition set_at (st : gmap string value) (k : string) : option (gset string) :=
  match st !! k with None => Some ∅ | Some (Members s) => Some s | Some _ => None end.
Definition queue_at (st : gmap string value) (k : string) : option (list string) :=
  match st !! k with None => Some [] | Some (Queue l) => Some l | Some _ => None end.

(** A set without members, or a list without elements, is not there. *)
Definition put_set (k : string) (s : gset string) (st : gmap string value) : gmap string value :=
  if decide (s = ∅) then delete k st else <[k := Members s]> st.
Definition put_queue (k : string) (l : list string) (st : gmap string value) : gmap string value :=
  match l with [] => delete k st | _ => <[k := Queue l]> st end.

(** How often something was published. *)
Definition is_publish (words : list string) : bool :=
  match words with "PUBLISH"%string :: _ => true | _ => false end.
Definition published (r : redis) : nat := length (filter is_publish (monitor r)).

(** * What a key holds *)

Definition fields (st : gmap string value) (k : string) : hash :=
  match st !! k with Some (Hash h) => h | _ => ∅ end.
Definition members (st : gmap string value) (k : string) : gset string :=
  match st !! k with Some (Members s) => s | _ => ∅ end.
Definition entries (st : gmap string value) (k : string) : list string :=
  match st !! k with Some (Queue l) => l | _ => [] end.
Definition holds_hash (st : gmap string value) (k : string) : Prop :=
  match st !! k with None | Some (Hash _) => True | _ => False end.
Definition holds_set (st : gmap string value) (k : string) : Prop :=
  match st !! k with None | Some (Members _) => True | _ => False end.
Definition holds_queue (st : gmap string value) (k : string) : Prop :=
  match st !! k with None | Some (Queue _) => True | _ => False end.

(** [HSET] of several fields, one after the other. *)
Definition hset_all (fvs : list (string * string)) (h : hash) : hash :=
  foldl (λ h fv, <[fv.1 := fv.2]> h) h fvs.
Definition hset_store (k : string) (fvs : list (string * string)) (st : gmap string value) : gmap string value :=
  foldl (λ st fv, <[k := Hash (<[fv.1 := fv.2]> (fields st k))]> st) st fvs.

(** [st'] differs from [st] at most at the names [ks]. *)
Definition only_at (ks : gset string) (st st' : gmap string value) : Prop :=
  ∀ k, k ∉ ks → st' !! k = st !! k.

(** * Lemmas *)

Lemma tonumber_tostring n r : tonumber (tostring n) r = (Some n, r).
Proof.
  unfold tonumber, tostring. rewrite NilEmpty.usu. simpl. by rewrite DecimalNat.Unsigned.of_to.
Qed.

Lemma script_bind_eq {A B} (m : script A) (f : A → script B) r a r' :
  m r = (Some a, r') → (m ≫= f) r = f a r'.
Proof. intros Hm. unfold mbind, script_bind. by rewrite Hm. Qed.

Lemma script_bind_err {A B} (m : script A) (f : A → script B) r r' :
  m r = (None, r') → (m ≫= f) r = (None, r').
Proof. intros Hm. unfold mbind, script_bind. by rewrite Hm. Qed.

Lemma at_eq l i x r : l !! i = Some x → at_ l (S i) r = (Some x, r).
Proof. simpl. by intros ->. Qed.

Lemma hash_at_holds st k : holds_hash st k → hash_at st k = Some (fields st k).
Proof. unfold holds_hash, hash_at, fields. by destruct (st !! k) as [[| |]|]. Qed.
Lemma set_at_holds st k : holds_set st k → set_at st k = Some (members st k).
Proof. unfold holds_set, set_at, members. by destruct (st !! k) as [[| |]|]. Qed.
Lemma queue_at_holds st k : holds_queue st k → queue_at st k = Some (entries st k).
Proof. unfold holds_queue, queue_at, entries. by destruct (st !! k) as [[| |]|]. Qed.

(** What a key holds depends on that key only. *)
Lemma fields_lookup st st' k : st' !! k = st !! k → fields st' k = fields st k.
Proof. unfold fields. by intros ->. Qed.
Lemma members_lookup st st' k : st' !! k = st !! k → members st' k = members st k.
Proof. unfold members. by intros ->. Qed.
Lemma entries_lookup st st' k : st' !! k = st !! k → entries st' k = entries st k.
Proof. unfold entries. by intros ->. Qed.
Lemma holds_hash_lookup st st' k : st' !! k = st !! k → holds_hash st k → holds_hash st' k.
Proof. unfold holds_hash. by intros ->. Qed.
Lemma holds_set_lookup st st' k : st' !! k = st !! k → holds_set st k → holds_set st' k.
Proof. unfold holds_set. by intros ->. Qed.
Lemma holds_queue_lookup st st' k : st' !! k = st !! k → holds_queue st k → holds_queue st' k.
Proof. unfold holds_queue. by intros ->. Qed.

Lemma put_set_ne k s st k' : k ≠ k' → put_set k s st !! k' = st !! k'.
Proof. intros ?. unfold put_set. case_decide; [by apply lookup_delete_ne|by apply lookup_insert_ne]. Qed.
Lemma put_set_eq k s st : members (put_set k s st) k = s.
Proof.
  unfold members, put_set. case_decide as Hs; [by rewrite lookup_delete_eq, Hs|by rewrite lookup_insert_eq].
Qed.
Lemma put_set_holds k s st : holds_set (put_set k s st) k.
Proof. unfold holds_set, put_set. case_decide; [by rewrite lookup_delete_eq|by rewrite lookup_insert_eq]. Qed.

Lemma put_queue_ne k s st k' : k ≠ k' → put_queue k s st !! k' = st !! k'.
Proof. intros ?. unfold put_queue. destruct s; [by apply lookup_delete_ne|by apply lookup_insert_ne]. Qed.
Lemma put_queue_eq k s st : entries (put_queue k s st) k = s.
Proof. unfold entries, put_queue. destruct s; [by rewrite lookup_delete_eq|by rewrite lookup_insert_eq]. Qed.
Lemma put_queue_holds k s st : holds_queue (put_queue k s st) k.
Proof. unfold holds_queue, put_queue. destruct s; [by rewrite lookup_delete_eq|by rewrite lookup_insert_eq]. Qed.

Lemma delete_fields k st : fields (delete k st) k = ∅.
Proof. unfold fields. by rewrite lookup_delete_eq. Qed.
Lemma delete_members k st : members (delete k st) k = ∅.
Proof. unfold members. by rewrite lookup_delete_eq. Qed.
Lemma delete_holds_hash k st : holds_hash (delete k st) k.
Proof. unfold holds_hash. by rewrite lookup_delete_eq. Qed.
Lemma delete_holds_set k st : holds_set (delete k st) k.
Proof. unfold holds_set. by rewrite lookup_delete_eq. Qed.

Lemma hset_all_app a b h : hset_all (a ++ b) h = hset_all b (hset_all a h).
Proof. apply foldl_app. Qed.
Lemma hset_all_snoc a fv h : hset_all (a ++ [fv]) h = <[fv.1 := fv.2]> (hset_all a h).
Proof. unfold hset_all. by rewrite foldl_app. Qed.

(** The last value of a field counts; other fields keep their value. *)
Lemma hset_all_union fvs h : hset_all fvs h = hset_all fvs ∅ ∪ h.
Proof.
  induction fvs as [|[f v] fvs IH] using rev_ind; [symmetry; apply (left_id_L ∅ (∪))|].
  rewrite !hset_all_snoc. cbn. by rewrite IH, insert_union_l.
Qed.

Lemma hset_all_listing l h : l ≡ₚ map_to_list h → hset_all l ∅ = h.
Proof.
  intros Hl. assert (Hgen : ∀ l, NoDup l.*1 → hset_all l ∅ = list_to_map l).
  { clear. induction l as [|[f v] l IH]; intros Hnd; [done|]. inversion_clear Hnd.
    cbn. fold (hset_all l (<[f := v]> ∅)). rewrite hset_all_union, IH by done.
    rewrite insert_empty, <- insert_union_singleton_r; [done|]. by apply not_elem_of_list_to_map_1. }
  rewrite Hgen by (rewrite Hl; apply NoDup_fst_map_to_list).
  rewrite <- (list_to_map_to_list h). apply list_to_map_proper; [|done].
  rewrite Hl. apply NoDup_fst_map_to_list.
Qed.

Lemma hset_store_ne k fvs st k' : k ≠ k' → hset_store k fvs st !! k' = st !! k'.
Proof.
  intros Hk. revert st. induction fvs as [|fv fvs IH]; intros st; [done|]. cbn.
  change (hset_store k fvs (<[k := Hash (<[fv.1 := fv.2]> (fields st k))]> st) !! k' = st !! k').
  by rewrite IH, lookup_insert_ne.
Qed.
Lemma hset_store_eq k fvs st : fields (hset_store k fvs st) k = hset_all fvs (fields st k).
Proof.
  revert st. induction fvs as [|fv fvs IH]; intros st; [done|]. cbn.
  change (fields (hset_store k fvs (<[k := Hash (<[fv.1 := fv.2]> (fields st k))]> st)) k = hset_all fvs (<[fv.1 := fv.2]> (fields st k))).
  rewrite IH. f_equal. unfold fields at 1. by rewrite lookup_insert_eq.
Qed.
Lemma hset_store_holds k fvs st : holds_hash st k → holds_hash (hset_store k fvs st) k.
Proof.
  revert st. induction fvs as [|fv fvs IH]; intros st Hst; [done|]. cbn.
  apply (IH (<[k := Hash (<[fv.1 := fv.2]> (fields st k))]> st)). unfold holds_hash. by rewrite lookup_insert_eq.
Qed.

(** * Runs of scripts *)

(** [m], started on [st], ends without an error with the value [a] and the store [st'],
    and publishes [n] messages. *)
Definition runs {A} (m : script A) (st : gmap string value) (a : A) (st' : gmap string value) (n : nat) : Prop :=
  ∀ log, ∃ log', m (Redis st log) = (Some a, Redis st' (log ++ log')) ∧ length (filter is_publish log') = n.

Lemma runs_ret {A} (a : A) st : runs (mret a) st a st 0.
Proof. intros log. exists []. by rewrite (right_id_L [] (++)). Qed.

Lemma runs_bind {A B} (m : script A) (f : A → script B) st a st1 n1 b st2 n2 :
  runs m st a st1 n1 → runs (f a) st1 b st2 n2 → runs (m ≫= f) st b st2 (n1 + n2).
Proof.
  intros Hm Hf log. destruct (Hm log) as (l1 & H1 & Hn1). destruct (Hf (log ++ l1)) as (l2 & H2 & Hn2).
  exists (l1 ++ l2). rewrite (script_bind_eq _ _ _ _ _ H1), H2, (assoc_L (++)). split; [done|].
  by rewrite filter_app, length_app, Hn1, Hn2.
Qed.

Lemma runs_eq {A} (m : script A) st a a' st' st'' n n' :
  runs m st a st' n → a = a' → st' = st'' → n = n' → runs m st a' st'' n'.
Proof. by intros ? <- <- <-. Qed.

Lemma runs_at l i x st : l !! i = Some x → runs (at_ l (S i)) st x st 0.
Proof. intros Hx log. exists []. rewrite (at_eq _ _ _ _ Hx), (right_id_L [] (++)). done. Qed.

Lemma runs_at' l i x st : 0 < i → l !! pred i = Some x → runs (at_ l i) st x st 0.
Proof. destruct i; [lia|]. intros _. apply runs_at. Qed.

Lemma runs_tonumber n st : runs (tonumber (tostring n)) st n st 0.
Proof. intros log. exists []. by rewrite tonumber_tostring, (right_id_L [] (++)). Qed.

(** [m] ends with an error, and leaves the store [st']. *)
Definition fails {A} (m : script A) (st st' : gmap string value) : Prop :=
  ∀ log, ∃ log', m (Redis st log) = (None, Redis st' (log ++ log')).
Lemma fails_error {A} st : fails (lua_error (A := A)) st st.
Proof. intros log. exists []. by rewrite (right_id_L [] (++)). Qed.
Lemma fails_here {A B} (m : script A) (f : A → script B) st st' : fails m st st' → fails (m ≫= f) st st'.
Proof. intros Hm log. destruct (Hm log) as [l Hl]. exists l. by apply script_bind_err. Qed.
Lemma fails_later {A B} (m : script A) (f : A → script B) st a st1 n st2 :
  runs m st a st1 n → fails (f a) st1 st2 → fails (m ≫= f) st st2.
Proof.
  intros Hm Hf log. destruct (Hm log) as (l1 & H1 & _). destruct (Hf (log ++ l1)) as [l2 H2].
  exists (l1 ++ l2). by rewrite (script_bind_eq _ _ _ _ _ H1), H2, (assoc_L (++)).
Qed.


(** * The server *)

(** What the scripts call, with the documented behaviour of every command; and the listing
    orders that are left open. [SPOP] is told which members it takes. *)
Class RedisServer : Type := {
  fields_of : hash → list (string * string);
  names_of : gset string → list string;
  SADD : string → string → script nat;
  SREM : string → string → script nat;
  SCARD : string → script nat;
  SPOP : list string → string → string → script (list string);
  HSET : string → string → string → script unit;
  HGETALL : string → script (list (string * string));
  DEL : string → script unit;
  KEYS_star : string → script (list string);
  PUBLISH : string → string → script unit;
  LPUSH3 : string → string → string → string → script unit;
  LRANGE_last : string → nat → script (list string);
  LTRIM_last : string → nat → script unit;
  fields_of_perm h : fields_of h ≡ₚ map_to_list h;
  names_of_perm s : names_of s ≡ₚ elements s;
  runs_SADD st k m : holds_set st k →
    runs (SADD k m) st (if decide (m ∈ members st k) then 0 else 1) (put_set k ({[m]} ∪ members st k) st) 0;
  runs_SREM st k m : holds_set st k →
    runs (SREM k m) st (if decide (m ∈ members st k) then 1 else 0) (put_set k (members st k ∖ {[m]}) st) 0;
  runs_SCARD st k : holds_set st k → runs (SCARD k) st (size (members st k)) st 0;
  runs_SPOP st ks k n : holds_set st k →
    runs (SPOP ks k n) st ks (put_set k (members st k ∖ list_to_set ks) st) 0;
  runs_HSET st k f v : holds_hash st k → runs (HSET k f v) st () (hset_store k [(f, v)] st) 0;
  runs_HGETALL st k : holds_hash st k → runs (HGETALL k) st (fields_of (fields st k)) st 0;
  runs_DEL st k : runs (DEL k) st () (delete k st) 0;
  runs_KEYS st p : runs (KEYS_star p) st (names_of (filter (λ k, String.prefix p k = true) (dom st))) st 0;
  runs_PUBLISH st c m : runs (PUBLISH c m) st () st 1;
  runs_LPUSH st k a b c : holds_queue st k →
    runs (LPUSH3 k a b c) st () (put_queue k (c :: b :: a :: entries st k) st) 0;
  runs_LRANGE st k n : holds_queue st k →
    runs (LRANGE_last k n) st (drop (length (entries st k) - n) (entries st k)) st 0;
  runs_LTRIM st k n : holds_queue st k →
    runs (LTRIM_last k n) st () (put_queue k (take (length (entries st k) - n) (entries st k)) st) 0
}.

(** A server with this behaviour, which records its commands in the words of the protocol. A
    command on a key of another type fails. *)
Module Executable.
(** [redis.call(...)]. *)
Definition call {A} (words : list string) (f : gmap string value → option (A * gmap string value)) : script A := λ r,
  let log := monitor r ++ [words] in
  match f (store r) with
  | Some (a, st) => (Some a, Redis st log)
  | None => (None, Redis (store r) log)
  end.

Definition do_SADD (k m : string) : script nat := call ["SADD"; k; m]%string (λ st,
  s ← set_at st k; Some (if decide (m ∈ s) then 0 else 1, put_set k ({[m]} ∪ s) st)).
Definition do_SREM (k m : string) : script nat := call ["SREM"; k; m]%string (λ st,
  s ← set_at st k; Some (if decide (m ∈ s) then 1 else 0, put_set k (s ∖ {[m]}) st)).
Definition do_SCARD (k : string) : script nat := call ["SCARD"; k]%string (λ st,
  s ← set_at st k; Some (size s, st)).
(** [chosen]: the members that Redis takes. *)
Definition do_SPOP (chosen : list string) (k n : string) : script (list string) := call ["SPOP"; k; n]%string (λ st,
  s ← set_at st k; Some (chosen, put_set k (s ∖ list_to_set chosen) st)).
Definition do_HSET (k f v : string) : script unit := call ["HSET"; k; f; v]%string (λ st,
  h ← hash_at st k; Some ((), <[k := Hash (<[f := v]> h)]> st)).
Definition do_HGETALL (k : string) : script (list (string * string)) := call ["HGETALL"; k]%string (λ st,
  h ← hash_at st k; Some (map_to_list h, st)).
Definition do_DEL (k : string) : script unit := call ["DEL"; k]%string (λ st, Some ((), delete k st)).
(** [KEYS pattern*], for a pattern without wildcards of its own. *)
Definition do_KEYS_star (pattern : string) : script (list string) :=
  call ["KEYS"; pattern +:+ "*"]%string (λ st,
    Some (elements (filter (λ k, String.prefix pattern k = true) (dom st)), st)).
Definition do_PUBLISH (channel message : string) : script unit :=
  call ["PUBLISH"; channel; message]%string (λ st, Some ((), st)).

(** [LPUSH] with three elements: the last one ends up first. *)
Definition do_LPUSH3 (k a b c : string) : script unit := call ["LPUSH"; k; a; b; c]%string (λ st,
  l ← queue_at st k; Some ((), put_queue k (c :: b :: a :: l) st)).
(** [LRANGE k -n -1] and [LTRIM k 0 -n-1]: the last [n] elements, and all but those. *)
Definition do_LRANGE_last (k : string) (n : nat) : script (list string) := call ["LRANGE"; k; "-" +:+ tostring n; "-1"]%string (λ st,
  l ← queue_at st k; Some (drop (length l - n) l, st)).
Definition do_LTRIM_last (k : string) (n : nat) : script unit := call ["LTRIM"; k; "0"; "-" +:+ tostring (S n)]%string (λ st,
  l ← queue_at st k; Some ((), put_queue k (take (length l - n) l) st)).

Lemma runs_call {A} words (f : gmap string value → option (A * gmap string value)) st a st' :
  f st = Some (a, st') → runs (call words f) st a st' (if is_publish words then 1 else 0).
Proof.
  intros Hf log. exists [words]. unfold call. cbn. rewrite Hf. split; [done|].
  unfold filter. cbn. by destruct (is_publish words).
Qed.

Definition server : RedisServer.
Proof.
  refine {| fields_of := map_to_list; names_of := elements; SADD := do_SADD; SREM := do_SREM; SCARD := do_SCARD;
    SPOP := do_SPOP; HSET := do_HSET; HGETALL := do_HGETALL; DEL := do_DEL; KEYS_star := do_KEYS_star;
    PUBLISH := do_PUBLISH; LPUSH3 := do_LPUSH3; LRANGE_last := do_LRANGE_last; LTRIM_last := do_LTRIM_last |};
    try done; intros;
    (eapply runs_call || eapply (runs_call ["PUBLISH"; c; m]%string));
    rewrite ?set_at_holds, ?hash_at_holds, ?queue_at_holds by done; done.
Defined.
End Executable.
