(* ===== verification/RedisTable.v ===== *)
(** What the tables of swss-common share ([src/sonic/sonic-swss-common/swss_common_table.md]):
    the names of a table in the database ([TableBase], [TableName_KeySet],
    [TableName_KeyValueOpQueues]), the plain [Table], and how a script is run and shown to
    end without an error. *)

From S2P Require Import Prelude Redis.
From Stdlib Require Import Ascii.

(** * Names *)

Record table : Type := Table {
  m_tableName : string;
  m_tableSeparator : Ascii.ascii;
  m_dbId : string
}.

Section names.
Context (t : table).

Definition table_prefix : string := m_tableName t +:+ String (m_tableSeparator t) "".
Definition getKeyName (key : string) : string := m_tableName t +:+ String (m_tableSeparator t) key.
Definition getChannelName : string := m_tableName t +:+ "_CHANNEL".
Definition getChannelName_tag (tag : string) : string := getChannelName +:+ "@" +:+ tag.
Definition getKeySetName : string := m_tableName t +:+ "_KEY_SET".
Definition getDelKeySetName : string := m_tableName t +:+ "_DEL_SET".
Definition getStateHashPrefix : string := "_".
Definition getKeyValueOpQueueTableName : string := m_tableName t +:+ "_KEY_VALUE_OP_QUEUE".
(** The temporary entry of a key. *)
Definition getStateName (key : string) : string := getStateHashPrefix +:+ getKeyName key.
End names.

(** The separators in use, [:] and [|], begin none of the suffixes. *)
Definition separator_ok (t : table) : bool :=
  negb (existsb (Ascii.eqb (m_tableSeparator t)) ["_"; "K"; "D"]%char).

(** ** No two of them are the same *)

Lemma underscore_shift T s1 s2 : "_" +:+ (T +:+ s1) = T +:+ s2 → s2 = "_" +:+ s1.
Proof.
  induction T as [|a T IH]; cbn; [done|]. intros [= <- Heq]. by apply IH.
Qed.

Section distinct.
Context (t : table) (Hsep : separator_ok t).

Lemma separator_ne : m_tableSeparator t ≠ "_"%char ∧ m_tableSeparator t ≠ "K"%char ∧ m_tableSeparator t ≠ "D"%char.
Proof.
  split_all; intros Hs; revert Hsep; unfold separator_ok; rewrite Hs; by intros [].
Qed.

Lemma keyset_delset : getKeySetName t ≠ getDelKeySetName t.
Proof. unfold getKeySetName, getDelKeySetName. by intros H%(inj _). Qed.
Lemma keyname_keyset k : getKeyName t k ≠ getKeySetName t.
Proof. unfold getKeySetName, getKeyName. intros [= Hs _]%(inj _). by destruct separator_ne as (? & ? & ?). Qed.
Lemma keyname_delset k : getKeyName t k ≠ getDelKeySetName t.
Proof. unfold getDelKeySetName, getKeyName. intros [= Hs _]%(inj _). by destruct separator_ne as (? & ? & ?). Qed.
Lemma statename_keyname k k' : getStateName t k ≠ getKeyName t k'.
Proof.
  unfold getStateName, getKeyName, getStateHashPrefix. intros [= Hs _]%underscore_shift. by destruct separator_ne as (? & ? & ?).
Qed.
Lemma statename_keyset k : getStateName t k ≠ getKeySetName t.
Proof.
  unfold getStateName, getKeyName, getKeySetName, getStateHashPrefix. intros [= Hs _]%underscore_shift.
  by destruct separator_ne as (? & ? & ?).
Qed.
Lemma statename_delset k : getStateName t k ≠ getDelKeySetName t.
Proof.
  unfold getStateName, getKeyName, getDelKeySetName, getStateHashPrefix. intros [= Hs _]%underscore_shift.
  by destruct separator_ne as (? & ? & ?).
Qed.
End distinct.

(** No entry of a table begins like its temporary entries. *)
Lemma prefix_inv p s : String.prefix p s = true → ∃ s', s = p +:+ s'.
Proof.
  revert s. induction p as [|a p IH]; intros [|b s]; cbn; try done; [by exists ""%string|by exists (String b s)|].
  destruct (Ascii.ascii_dec a b) as [->|]; [|done]. intros (s' & ->)%IH. by exists s'.
Qed.
Lemma prefix_app p s : String.prefix p (p +:+ s) = true.
Proof.
  induction p as [|a p IH]; [by destruct s|]. change (String a p +:+ s) with (String a (p +:+ s)). cbn.
  by destruct (Ascii.ascii_dec a a).
Qed.
Lemma entry_no_state_prefix t k : separator_ok t →
  String.prefix (getStateHashPrefix +:+ m_tableName t) (getKeyName t k) = false.
Proof.
  intros Hsep. apply not_true_iff_false. intros (s' & Hs)%prefix_inv. symmetry in Hs.
  change ("_" +:+ (m_tableName t +:+ s') = m_tableName t +:+ String (m_tableSeparator t) k) in Hs.
  apply underscore_shift in Hs. injection Hs as Hs _. by destruct (separator_ne t Hsep).
Qed.
Lemma state_prefix t k : String.prefix (getStateHashPrefix +:+ m_tableName t) (getStateName t k) = true.
Proof.
  change (getStateName t k) with ((getStateHashPrefix +:+ m_tableName t) +:+ String (m_tableSeparator t) k).
  apply prefix_app.
Qed.

#[export] Instance getKeyName_inj t : Inj (=) (=) (getKeyName t).
Proof. unfold getKeyName. by intros k k' [= ->]%(inj _). Qed.
#[export] Instance getStateName_inj t : Inj (=) (=) (getStateName t).
Proof. unfold getStateName, getStateHashPrefix. by intros k k' ?%(inj _)%(inj _). Qed.

#[export] Hint Resolve keyset_delset keyname_keyset keyname_delset statename_keyname statename_keyset
  statename_delset : aoi.

Lemma string_app_assoc a b c : a +:+ (b +:+ c) = (a +:+ b) +:+ c.
Proof. induction a as [|x a IH]; [done|]. change (String x (a +:+ (b +:+ c)) = String x ((a +:+ b) +:+ c)). by rewrite IH. Qed.

(** The scripts put names together from the prefix. *)
Lemma prefix_key t k : table_prefix t +:+ k = getKeyName t k.
Proof. unfold table_prefix, getKeyName. by rewrite <- string_app_assoc. Qed.
Lemma prefix_state t k : (getStateHashPrefix +:+ table_prefix t) +:+ k = getStateName t k.
Proof. by rewrite <- string_app_assoc, prefix_key. Qed.

(** * [Table] *)

Definition Table_set (t : table) (key : string) (values : list (string * string)) (st : gmap string value) :
    gmap string value := hset_store (getKeyName t key) values st.
Definition Table_del (t : table) (key : string) (st : gmap string value) : gmap string value :=
  delete (getKeyName t key) st.
(** [None]: the entry does not exist. *)
Definition Table_get `{RedisServer} (t : table) (key : string) (st : gmap string value) : option (list (string * string)) :=
  let h := fields st (getKeyName t key) in if decide (h = ∅) then None else Some (fields_of h).
(** All keys of the table, without the name of the table and the separator. *)
Definition Table_getKeys `{RedisServer} (t : table) (st : gmap string value) : list string :=
  omap (λ k, if String.prefix (table_prefix t) k
             then Some (String.substring (String.length (table_prefix t)) (String.length k) k) else None)
    (names_of (dom st)).

Lemma Table_get_set `{RedisServer} t k vs st :
  vs ≠ [] → ∃ l, Table_get t k (Table_set t k vs st) = Some l ∧ hset_all l ∅ = hset_all vs (fields st (getKeyName t k)).
Proof.
  intros Hvs. unfold Table_get, Table_set. rewrite hset_store_eq. case_decide as He; [|eexists; split; [done|apply hset_all_listing, fields_of_perm]].
  destruct vs as [|[f v] vs _] using rev_ind; [done|]. rewrite hset_all_snoc in He.
  by apply insert_non_empty in He.
Qed.
Lemma Table_get_del `{RedisServer} t k st : Table_get t k (Table_del t k st) = None.
Proof. unfold Table_get, Table_del. rewrite delete_fields. by case_decide. Qed.

(** * Runs of scripts *)

Create HintDb scripts.
#[export] Hint Resolve runs_ret runs_tonumber runs_SADD runs_SREM runs_SPOP runs_SCARD runs_HSET runs_HGETALL runs_DEL
  runs_PUBLISH runs_KEYS : scripts.

(** The listing of a sequence of fields in [ARGV]. *)
Definition flat_values (fvs : list (string * string)) : list string := fvs ≫= λ fv, [fv.1; fv.2].

Lemma flat_values_lookup fvs i fv :
  fvs !! i = Some fv → flat_values fvs !! (i * 2) = Some fv.1 ∧ flat_values fvs !! S (i * 2) = Some fv.2.
Proof.
  revert i. induction fvs as [|p fvs IH]; intros [|i] Hi; simplify_eq/=; [done|]. by apply IH.
Qed.
Lemma flat_values_length fvs : length (flat_values fvs) = length fvs * 2.
Proof. induction fvs as [|p fvs IH]; [done|]. cbn. fold (flat_values fvs). lia. Qed.

(** A loop that sets one field after the other. *)
Lemma runs_hset_loop `{RedisServer} body k fvs j st :
  holds_hash st k →
  (∀ i fv st, fvs !! i = Some fv → holds_hash st k → runs (body (j + i)) st () (hset_store k [fv] st) 0) →
  runs (lua_for j (length fvs) body) st () (hset_store k fvs st) 0.
Proof.
  revert j st. induction fvs as [|fv fvs IH]; intros j st Hk Hbody; [apply runs_ret|]. cbn [length lua_for].
  eapply runs_eq; [|done|done|apply (Nat.add_0_l 0)]. eapply runs_bind.
  - rewrite <- (Nat.add_0_r j). by apply (Hbody 0).
  - change (hset_store k (fv :: fvs) st) with (hset_store k fvs (hset_store k [fv] st)).
    apply IH; [by apply hset_store_holds|]. intros i fv' st' Hi Hst'. rewrite Nat.add_succ_comm. by apply (Hbody (S i)).
Qed.

(** A loop that deletes one key after the other. *)
Definition delete_all (ks : list string) (st : gmap string value) : gmap string value :=
  foldl (λ st k, delete k st) st ks.
Lemma delete_all_lookup ks st k : delete_all ks st !! k = if decide (k ∈ ks) then None else st !! k.
Proof.
  revert st. induction ks as [|k' ks IH]; intros st; [by rewrite decide_False by apply not_elem_of_nil|].
  change (delete_all (k' :: ks) st) with (delete_all ks (delete k' st)). rewrite IH.
  destruct (decide (k = k')) as [->|Hk].
  - rewrite lookup_delete_eq, (decide_True (P := k' ∈ k' :: ks)) by left. by case_decide.
  - rewrite lookup_delete_ne by done. do 2 case_decide; try done; set_solver.
Qed.
Lemma runs_delete_loop `{RedisServer} keys st :
  runs (lua_for 1 (length keys) (λ i, k ← at_ keys i; DEL k)) st () (delete_all keys st) 0.
Proof.
  assert (Hgen : ∀ ks done st, keys = done ++ ks →
    runs (lua_for (S (length done)) (length ks) (λ i, k ← at_ keys i; DEL k)) st () (delete_all ks st) 0).
  { induction ks as [|k ks IH]; intros done st' Hk; [apply runs_ret|]. cbn [length lua_for].
    eapply runs_eq; [|done|done|apply (Nat.add_0_l 0)]. eapply runs_bind.
    - eapply runs_eq; [|done|done|apply (Nat.add_0_l 0)].
      eapply runs_bind; [apply runs_at; by rewrite Hk, list_lookup_middle|apply runs_DEL].
    - change (delete_all (k :: ks) st') with (delete_all ks (delete k st')).
      replace (S (S (length done))) with (S (length (done ++ [k]))) by (rewrite length_app; cbn; lia).
      apply IH. by rewrite <- (assoc_L (++)). }
  by apply (Hgen keys []).
Qed.
