(* ===== verification/StateTables.v ===== *)
(** [ProducerStateTable] and [ConsumerStateTable] of SONiC, from the scripts that
    [src/sonic/sonic-swss-common/producerstatetable_and_consumerstatetable.md] quotes, and
    the demo programs [producerstatetable_demo.cpp] and [consumerstatetable_demo.cpp].

    The scripts work on [KEYS] and [ARGV] as they are quoted; [..._keys] and [..._argv] are
    the arguments that the notes list for each. Which members [SPOP] takes is an argument
    of [pops]; what [apply_temp_view] sets and deletes is an argument too, since the notes
    show its script and not how it is computed. *)

From S2P Require Import Prelude Redis RedisTable.

Local Abbreviation values := (list (string * string)).

Section server.
Context `{RedisServer}.

(** * The scripts *)

(** The message: [G]. *)
Definition G : string := "G".

Definition set_lua (KEYS ARGV : list string) : script unit :=
  k2 ← at_ KEYS 2; a2 ← at_ ARGV 2;
  added ← SADD k2 a2;
  lua_for 0 (length KEYS - 2) (λ i,
    k ← at_ KEYS (3 + i); f ← at_ ARGV (3 + i * 2); v ← at_ ARGV (4 + i * 2); HSET k f v);;
  if 0 <? added then k1 ← at_ KEYS 1; a1 ← at_ ARGV 1; PUBLISH k1 a1 else mret ().

Definition batched_set_lua (KEYS ARGV : list string) : script unit :=
  r ← lua_for_with 0 (length KEYS - 3) (λ i '(added, idx),
    k2 ← at_ KEYS 2; e ← at_ KEYS (4 + i);
    a ← SADD k2 e;
    n ← at_ ARGV idx ≫= tonumber;
    lua_for 0 n (λ j,
      attr ← at_ ARGV (idx + j * 2 + 1); val ← at_ ARGV (idx + j * 2 + 2);
      k3 ← at_ KEYS 3; HSET (k3 +:+ e) attr val);;
    mret (added + a, idx + n * 2 + 1)) (0, 2);
  if 0 <? r.1 then k1 ← at_ KEYS 1; a1 ← at_ ARGV 1; PUBLISH k1 a1 else mret ().

Definition del_lua (KEYS ARGV : list string) : script unit :=
  k2 ← at_ KEYS 2; a2 ← at_ ARGV 2;
  added ← SADD k2 a2;
  k4 ← at_ KEYS 4; SADD k4 a2;;
  k3 ← at_ KEYS 3; DEL k3;;
  if 0 <? added then k1 ← at_ KEYS 1; a1 ← at_ ARGV 1; PUBLISH k1 a1 else mret ().

Definition batched_del_lua (KEYS ARGV : list string) : script unit :=
  added ← lua_for_with 0 (length KEYS - 4) (λ i added,
    k2 ← at_ KEYS 2; e ← at_ KEYS (5 + i);
    a ← SADD k2 e;
    k3 ← at_ KEYS 3; SADD k3 e;;
    k4 ← at_ KEYS 4; DEL (k4 +:+ e);;
    mret (added + a)) 0;
  if 0 <? added then k1 ← at_ KEYS 1; a1 ← at_ ARGV 1; PUBLISH k1 a1 else mret ().

Definition clear_lua (KEYS : list string) : script unit :=
  k1 ← at_ KEYS 1; DEL k1;;
  k2 ← at_ KEYS 2; keys ← KEYS_star k2;
  lua_for 1 (length keys) (λ i, k ← at_ keys i; DEL k);;
  k3 ← at_ KEYS 3; DEL k3.

Definition apply_view_lua (KEYS ARGV : list string) : script unit :=
  let arg_start := 2 in
  n ← at_ ARGV arg_start ≫= tonumber;
  lua_for 1 n (λ i, k2 ← at_ KEYS 2; a ← at_ ARGV (arg_start + i); _ ← SADD k2 a; mret ());;
  let arg_start := arg_start + n + 1 in
  n ← at_ ARGV arg_start ≫= tonumber;
  lua_for 1 n (λ i, k3 ← at_ KEYS 3; a ← at_ ARGV (arg_start + i); _ ← SADD k3 a; mret ());;
  let arg_start := arg_start + n + 1 in
  _ ← lua_for_with 4 (length KEYS - 3) (λ j arg_start,
    n ← at_ ARGV arg_start ≫= tonumber;
    lua_for 1 n (λ i,
      k ← at_ KEYS j; f ← at_ ARGV (arg_start + i * 2 - 1); v ← at_ ARGV (arg_start + i * 2); HSET k f v);;
    mret (arg_start + 2 * n + 1)) arg_start;
  k1 ← at_ KEYS 1; a1 ← at_ ARGV 1; PUBLISH k1 a1.

(** The reply: for every key its temporary entry. *)
Definition pops_lua (chosen : list string) (KEYS ARGV : list string) : script (list (string * values)) :=
  tablename ← at_ KEYS 2; stateprefix ← at_ ARGV 2;
  k1 ← at_ KEYS 1; a1 ← at_ ARGV 1;
  keys ← SPOP chosen k1 a1;
  lua_for_with 1 (length keys) (λ i ret,
    key ← at_ keys i;
    k3 ← at_ KEYS 3; num ← SREM k3 key;
    (if num =? 1 then DEL (tablename +:+ key) else mret ());;
    fieldvalues ← HGETALL (stateprefix +:+ tablename +:+ key);
    lua_for 0 (length fieldvalues) (λ i,
      match fieldvalues !! i with Some (f, v) => HSET (tablename +:+ key) f v | None => lua_error end);;
    DEL (stateprefix +:+ tablename +:+ key);;
    mret (ret ++ [(key, fieldvalues)])) [].

(** * The operations *)

Section operations.
Context (t : table).

(** The channel of the producer carries the number of the database. *)
Definition channel : string := getChannelName_tag t (m_dbId t).

(** [ProducerStateTable::set(key, values)]. *)
Definition set_keys (key : string) (fvs : values) : list string :=
  channel :: getKeySetName t :: replicate (length fvs) (getStateName t key).
Definition set_argv (key : string) (fvs : values) : list string := G :: key :: flat_values fvs.
Definition pst_set (key : string) (fvs : values) : script unit := set_lua (set_keys key fvs) (set_argv key fvs).

(** [ProducerStateTable::set(values)]. *)
Definition batched_set_keys (vs : list (string * values)) : list string :=
  channel :: getKeySetName t :: (getStateHashPrefix +:+ table_prefix t) :: vs.*1.
Definition packed (fvs : values) : list string := tostring (length fvs) :: flat_values fvs.
Definition batched_set_argv (vs : list (string * values)) : list string := G :: (vs ≫= λ p, packed p.2).
Definition pst_set_all (vs : list (string * values)) : script unit :=
  batched_set_lua (batched_set_keys vs) (batched_set_argv vs).

(** [ProducerStateTable::del(key)] and [del(keys)]. *)
Definition del_keys (key : string) : list string := [channel; getKeySetName t; getStateName t key; getDelKeySetName t].
Definition del_argv (key : string) : list string := [G; key; "''"; "''"].
Definition pst_del (key : string) : script unit := del_lua (del_keys key) (del_argv key).
Definition batched_del_keys (keys : list string) : list string :=
  channel :: getKeySetName t :: getDelKeySetName t :: (getStateHashPrefix +:+ table_prefix t) :: keys.
Definition pst_del_all (keys : list string) : script unit := batched_del_lua (batched_del_keys keys) [G].

(** [ProducerStateTable::clear]: the prefix is that of the table's name, without the separator. *)
Definition clear_keys : list string :=
  [getKeySetName t; getStateHashPrefix +:+ m_tableName t; getDelKeySetName t].
Definition pst_clear : script unit := clear_lua clear_keys.

(** [ProducerStateTable::apply_temp_view]: the keys to set, those to delete and the entries. *)
Definition apply_keys (entries : list (string * values)) : list string :=
  channel :: getKeySetName t :: getDelKeySetName t :: (getStateName t <$> entries.*1).
Definition apply_argv (to_set to_del : list string) (entries : list (string * values)) : list string :=
  G :: tostring (length to_set) :: to_set ++ tostring (length to_del) :: to_del ++ (entries ≫= λ p, packed p.2).
Definition pst_apply (to_set to_del : list string) (entries : list (string * values)) : script unit :=
  apply_view_lua (apply_keys entries) (apply_argv to_set to_del entries).

(** [ConsumerStateTable::pops] with the batch size that it asks for. *)
Definition cst_pops (chosen : list string) (batch : nat) : script (list (string * values)) :=
  pops_lua chosen [getKeySetName t; table_prefix t; getDelKeySetName t] [tostring batch; getStateHashPrefix].

(** The constructor of [ConsumerStateTable]: the queue length that it starts with; what is
    published from then on reaches it. *)
Definition ConsumerStateTable_ctor : script nat := SCARD (getKeySetName t).
End operations.

End server.

(** What a program does to a table, one script at a time. *)
Inductive action : Type :=
  | Set_one (key : string) (fvs : values)
  | Set_all (vs : list (string * values))
  | Del_one (key : string)
  | Del_all (keys : list string)
  | Clear
  | Pops (chosen : list string) (batch : nat).
#[export] Instance action_eq_dec : EqDecision action.
Proof. solve_decision. Defined.

Section performing.
Context `{RedisServer}.

Definition perform (t : table) (x : action) : script (list (string * values)) :=
  match x with
  | Set_one k fvs => pst_set t k fvs;; mret []
  | Set_all vs => pst_set_all t vs;; mret []
  | Del_one k => pst_del t k;; mret []
  | Del_all ks => pst_del_all t ks;; mret []
  | Clear => pst_clear t;; mret []
  | Pops ks n => cst_pops t ks n
  end.
Fixpoint perform_all (t : table) (xs : list action) : script (list (list (string * values))) :=
  match xs with
  | [] => mret []
  | x :: xs => r ← perform t x; rs ← perform_all t xs; mret (r :: rs)
  end.

End performing.

(** * What the tables promise *)

(** A table and the changes that were asked for and not yet taken, in order; and how often
    the consumers were told. *)
Inductive change : Type := Put (fvs : values) | Remove.
#[export] Instance change_eq_dec : EqDecision change.
Proof. solve_decision. Defined.

Record spec : Type := Spec {
  base : string → gmap string string;
  pend : list (string * change);
  notes : nat
}.

Definition apply_change (c : change) (h : gmap string string) : gmap string string :=
  match c with Put fvs => hset_all fvs h | Remove => ∅ end.
Definition replay (cs : list change) (h : gmap string string) : gmap string string :=
  foldl (λ h c, apply_change c h) h cs.

(** The changes to one key. *)
Definition of_key (k : string) (l : list (string * change)) : list change :=
  omap (λ p, if decide (p.1 = k) then Some p.2 else None) l.
Definition keys_of (l : list (string * change)) : gset string := list_to_set l.*1.

Definition changes (x : action) : list (string * change) :=
  match x with
  | Set_one k fvs => [(k, Put fvs)]
  | Set_all vs => (λ p, (p.1, Put p.2)) <$> vs
  | Del_one k => [(k, Remove)]
  | Del_all ks => (λ k, (k, Remove)) <$> ks
  | Clear | Pops _ _ => []
  end.

(** A message is due when a key changes that no change is waiting for. *)
Definition due (l : list (string * change)) (cs : list (string * change)) : nat :=
  if existsb (λ k, bool_decide (k ∉ keys_of l)) cs.*1 then 1 else 0.

Definition spec_change (cs : list (string * change)) (a : spec) : spec :=
  Spec (base a) (pend a ++ cs) (notes a + due (pend a) cs).

(** Taking the changes of one key: its entry becomes what they make of it. *)
Definition spec_pop (k : string) (a : spec) : spec :=
  Spec (λ k', if decide (k' = k) then replay (of_key k (pend a)) (base a k) else base a k')
    (filter (λ p, p.1 ≠ k) (pend a)) (notes a).
Fixpoint spec_pops `{RedisServer} (ks : list string) (a : spec) : list (string * values) * spec :=
  match ks with
  | [] => ([], a)
  | k :: ks =>
      let '(r, a') := spec_pops ks (spec_pop k a) in
      ((k, fields_of (replay (of_key k (pend a)) ∅)) :: r, a')
  end.

Definition spec_step `{RedisServer} (x : action) (a : spec) : list (string * values) * spec :=
  match x with
  | Clear => ([], Spec (base a) [] (notes a))
  | Pops ks _ => spec_pops ks a
  | _ => ([], spec_change (changes x) a)
  end.
Fixpoint spec_steps `{RedisServer} (xs : list action) (a : spec) : list (list (string * values)) * spec :=
  match xs with
  | [] => ([], a)
  | x :: xs =>
      let '(r, a) := spec_step x a in let '(rs, a) := spec_steps xs a in (r :: rs, a)
  end.

(** ** Coalescing *)

(** What a sequence of changes makes of an entry, from what it makes of nothing and whether
    it removes the entry somewhere: all that the two sets and the temporary entry keep. *)
Lemma replay_coalesced cs h :
  replay cs h = replay cs ∅ ∪ (if decide (Remove ∈ cs) then ∅ else h).
Proof.
  induction cs as [|c cs IH] using rev_ind.
  { case_decide as Hin; [by apply not_elem_of_nil in Hin|]. symmetry. apply (left_id_L ∅ (∪)). }
  unfold replay in *. rewrite !foldl_app. cbn. destruct c as [fvs|]; cbn.
  - rewrite hset_all_union, IH, (assoc_L (∪)), <- hset_all_union. f_equal.
    destruct (decide (Remove ∈ cs)), (decide (Remove ∈ cs ++ [Put fvs])) as [Hin|Hin]; try done.
    + destruct Hin. by apply elem_of_app; left.
    + by apply elem_of_app in Hin as [|Hin%list_elem_of_singleton].
  - rewrite decide_True by (apply elem_of_app; right; by left). done.
Qed.

Lemma replay_app a b h : replay (a ++ b) h = replay b (replay a h).
Proof. apply foldl_app. Qed.
Lemma of_key_app k a b : of_key k (a ++ b) = of_key k a ++ of_key k b.
Proof. apply omap_app. Qed.
Lemma keys_of_app a b : keys_of (a ++ b) = keys_of a ∪ keys_of b.
Proof. unfold keys_of. by rewrite fmap_app, list_to_set_app_L. Qed.
Lemma of_key_eq k c : of_key k [(k, c)] = [c].
Proof. unfold of_key. cbn. by rewrite decide_True. Qed.
Lemma of_key_ne k k' c : k' ≠ k → of_key k [(k', c)] = [].
Proof. intros ?. unfold of_key. cbn. by rewrite decide_False. Qed.

Lemma of_key_filter_eq k l : of_key k (filter (λ p, p.1 ≠ k) l) = [].
Proof.
  induction l as [|[k' c] l IH]; [done|]. rewrite filter_cons. cbn. case_decide; [|done].
  change ((k', c) :: ?x) with ([(k', c)] ++ x). by rewrite of_key_app, of_key_ne, IH.
Qed.
Lemma of_key_filter_ne k k' l : k' ≠ k → of_key k (filter (λ p, p.1 ≠ k') l) = of_key k l.
Proof.
  intros Hk. induction l as [|[k1 c] l IH]; [done|]. rewrite filter_cons. unfold of_key in *. cbn. case_decide; cbn.
  - by rewrite IH.
  - rewrite IH, (decide_False (P := k1 = k)); [done|]. intros ->. naive_solver.
Qed.
Lemma keys_of_filter k l : keys_of (filter (λ p, p.1 ≠ k) l) = keys_of l ∖ {[k]}.
Proof.
  apply set_eq. intros x. unfold keys_of. rewrite elem_of_difference, !elem_of_list_to_set, !list_elem_of_fmap, elem_of_singleton.
  setoid_rewrite list_elem_of_filter. naive_solver.
Qed.

(** ** The keys of a table against its specification *)

Section refinement.
Context (t : table) (Hsep : separator_ok t).

(** The two sets and the temporary entries are the coalesced form of the pending changes;
    [K] is the set of keys with a change. *)
Record refines (K : gset string) (st : gmap string value) (a : spec) : Prop := {
  keyset_holds : holds_set st (getKeySetName t);
  delset_holds : holds_set st (getDelKeySetName t);
  state_holds k : holds_hash st (getStateName t k);
  entry_holds k : holds_hash st (getKeyName t k);
  keyset_is : members st (getKeySetName t) = K;
  delset_is k : k ∈ members st (getDelKeySetName t) ↔ Remove ∈ of_key k (pend a);
  state_is k : fields st (getStateName t k) = replay (of_key k (pend a)) ∅;
  entry_is k : fields st (getKeyName t k) = base a k
}.

Ltac name_ne := first [done | by auto with aoi | by (apply not_eq_sym; auto with aoi)
  | by (intros ?%(inj _); congruence)].
Ltac lookups := repeat first
  [ rewrite put_set_ne by name_ne | rewrite hset_store_ne by name_ne | rewrite lookup_delete_ne by name_ne ];
  reflexivity.
(** What a name holds after changes elsewhere, and after the last change to it. *)
Ltac observe st0 := first
  [ eapply (holds_set_lookup st0); [lookups|] | eapply (holds_hash_lookup st0); [lookups|]
  | rewrite (members_lookup st0) by lookups | rewrite (fields_lookup st0) by lookups ].

Local Abbreviation ksn := (getKeySetName t).
Local Abbreviation dsn := (getDelKeySetName t).

Definition add_key (k : string) (st : gmap string value) : gmap string value := put_set ksn ({[k]} ∪ members st ksn) st.
Definition put_store (k : string) (fvs : values) (st : gmap string value) : gmap string value :=
  hset_store (getStateName t k) fvs (add_key k st).
Definition remove_store (k : string) (st : gmap string value) : gmap string value :=
  delete (getStateName t k) (put_set dsn ({[k]} ∪ members st dsn) (add_key k st)).

Lemma refines_add K st a k : refines K st a →
  ∀ l, (∀ k', of_key k' l = of_key k' (pend a)) → ∀ n, refines ({[k]} ∪ K) (add_key k st) (Spec (base a) l n).
Proof.
  intros R l Hl n. unfold add_key. rewrite (keyset_is _ _ _ R). constructor; cbn [base pend notes]; intros.
  - apply put_set_holds.
  - observe st. apply R.
  - observe st. apply R.
  - observe st. apply R.
  - apply put_set_eq.
  - observe st. rewrite Hl. apply R.
  - observe st. rewrite Hl. apply R.
  - observe st. apply R.
Qed.

(** A put on an entry whose key is in the set already. *)
Lemma refines_hset K st a k fvs : refines K st a →
  ∀ n, refines K (hset_store (getStateName t k) fvs st) (Spec (base a) (pend a ++ [(k, Put fvs)]) n).
Proof.
  intros R n. constructor; cbn [base pend notes].
  - observe st. apply R.
  - observe st. apply R.
  - intros k'. destruct (decide (k' = k)) as [->|Hk]; [apply hset_store_holds, R|]. observe st. apply R.
  - intros k'. observe st. apply R.
  - observe st. apply R.
  - intros k'. observe st. rewrite (delset_is _ _ _ R), of_key_app, elem_of_app.
    destruct (decide (k = k')) as [->|Hk]; [rewrite of_key_eq, list_elem_of_singleton|rewrite of_key_ne, elem_of_nil by done]; naive_solver.
  - intros k'. rewrite of_key_app, replay_app. destruct (decide (k = k')) as [->|Hk].
    + by rewrite hset_store_eq, (state_is _ _ _ R), of_key_eq.
    + observe st. by rewrite (state_is _ _ _ R), of_key_ne.
  - intros k'. observe st. apply R.
Qed.

Lemma refines_put_key K st a k fvs : refines K st a →
  ∀ n, refines ({[k]} ∪ K) (put_store k fvs st) (Spec (base a) (pend a ++ [(k, Put fvs)]) n).
Proof.
  intros R n. unfold put_store.
  apply (refines_hset _ _ (Spec (base a) (pend a) n)). by apply (refines_add _ _ a).
Qed.

Lemma refines_remove K st a k : refines K st a →
  ∀ n, refines ({[k]} ∪ K) (remove_store k st) (Spec (base a) (pend a ++ [(k, Remove)]) n).
Proof.
  intros R0 n. unfold remove_store.
  pose proof (refines_add _ _ _ k R0 (pend a) (λ _, eq_refl) n) as R.
  assert (Hd : members st dsn = members (add_key k st) dsn) by (symmetry; apply members_lookup; unfold add_key; lookups).
  rewrite Hd. clear Hd. set (st1 := add_key k st) in *. clearbody st1. clear R0. constructor; cbn [base pend notes].
  - observe st1. apply R.
  - observe (put_set dsn ({[k]} ∪ members st1 dsn) st1). apply put_set_holds.
  - intros k'. destruct (decide (k = k')) as [->|Hk]; [apply delete_holds_hash|]. observe st1. apply R.
  - intros k'. observe st1. apply R.
  - observe st1. apply R.
  - intros k'. observe (put_set dsn ({[k]} ∪ members st1 dsn) st1).
    rewrite put_set_eq, elem_of_union, elem_of_singleton, (delset_is _ _ _ R), of_key_app, elem_of_app.
    destruct (decide (k = k')) as [->|Hk]; [rewrite of_key_eq, list_elem_of_singleton|rewrite of_key_ne, elem_of_nil by done]; naive_solver.
  - intros k'. rewrite of_key_app, replay_app. destruct (decide (k = k')) as [->|Hk].
    + by rewrite delete_fields, of_key_eq.
    + observe st1. by rewrite (state_is _ _ _ R), of_key_ne.
  - intros k'. observe st1. apply R.
Qed.

(** *** Taking one key *)

Definition take_mark (k : string) (st : gmap string value) : gmap string value :=
  let st1 := put_set dsn (members st dsn ∖ {[k]}) st in
  if decide (k ∈ members st dsn) then delete (getKeyName t k) st1 else st1.
Definition pop_store `{RedisServer} (k : string) (st : gmap string value) : gmap string value :=
  let st2 := take_mark k st in
  delete (getStateName t k) (hset_store (getKeyName t k) (fields_of (fields st2 (getStateName t k))) st2).

Lemma take_mark_ne k st k' : k' ≠ dsn → k' ≠ getKeyName t k → take_mark k st !! k' = st !! k'.
Proof.
  intros ??. unfold take_mark. case_decide; [rewrite lookup_delete_ne by done|]; by rewrite put_set_ne.
Qed.
Lemma take_mark_dsn k st : holds_set (take_mark k st) dsn ∧ members (take_mark k st) dsn = members st dsn ∖ {[k]}.
Proof.
  unfold take_mark. case_decide; [|split; [apply put_set_holds|apply put_set_eq]].
  set (st1 := put_set _ _ _). split.
  - observe st1. apply put_set_holds.
  - rewrite (members_lookup st1) by lookups. apply put_set_eq.
Qed.
Lemma take_mark_entry K k st a : refines K st a →
  holds_hash (take_mark k st) (getKeyName t k) ∧
  fields (take_mark k st) (getKeyName t k) = if decide (Remove ∈ of_key k (pend a)) then ∅ else base a k.
Proof.
  intros R. unfold take_mark.
  rewrite (decide_ext _ (Remove ∈ of_key k (pend a))) by apply R.
  destruct (decide (Remove ∈ _)).
  - split; [apply delete_holds_hash|apply delete_fields].
  - split; [observe st; apply R|]. observe st. apply R.
Qed.

Lemma refines_pop `{RedisServer} K st a k : refines K st a → refines K (pop_store k st) (spec_pop k a).
Proof.
  intros R. unfold pop_store.
  destruct (take_mark_entry _ k _ _ R) as [Hh He]. destruct (take_mark_dsn k st) as [Hd Hm].
  assert (Hf : fields (take_mark k st) (getStateName t k) = replay (of_key k (pend a)) ∅).
  { rewrite (fields_lookup st) by (apply take_mark_ne; name_ne). apply R. }
  rewrite Hf. clear Hf.
  assert (Hne : ∀ k', k' ≠ dsn → k' ≠ getKeyName t k → take_mark k st !! k' = st !! k') by apply take_mark_ne.
  set (st2 := take_mark k st) in *. clearbody st2.
  constructor; cbn [base pend notes spec_pop].
  - observe st2. eapply (holds_set_lookup st); [apply Hne; name_ne|apply R].
  - by observe st2.
  - intros k'. destruct (decide (k = k')) as [->|Hk]; [apply delete_holds_hash|].
    observe st2. eapply (holds_hash_lookup st); [apply Hne; name_ne|apply R].
  - intros k'. destruct (decide (k = k')) as [->|Hk].
    + observe (hset_store (getKeyName t k') (fields_of (replay (of_key k' (pend a)) ∅)) st2). by apply hset_store_holds.
    + observe st2. eapply (holds_hash_lookup st); [apply Hne; name_ne|apply R].
  - observe st2. rewrite (members_lookup st) by (apply Hne; name_ne). apply R.
  - intros k'. observe st2. rewrite Hm, elem_of_difference, elem_of_singleton, (delset_is _ _ _ R).
    destruct (decide (k' = k)) as [->|Hk].
    + rewrite of_key_filter_eq, elem_of_nil. tauto.
    + rewrite of_key_filter_ne by done. tauto.
  - intros k'. destruct (decide (k = k')) as [->|Hk]; [by rewrite delete_fields, of_key_filter_eq|].
    rewrite of_key_filter_ne by done. observe st2.
    rewrite (fields_lookup st) by (apply Hne; name_ne). apply R.
  - intros k'. destruct (decide (k' = k)) as [->|Hk].
    + rewrite (fields_lookup (hset_store (getKeyName t k) (fields_of (replay (of_key k (pend a)) ∅)) st2)) by lookups.
      by rewrite hset_store_eq, hset_all_union, (hset_all_listing (fields_of _) _ (fields_of_perm _)), He, <- replay_coalesced.
    + observe st2. rewrite (fields_lookup st) by (apply Hne; name_ne). apply R.
Qed.
End refinement.

(** ** The scripts run, and do what is promised *)

Section scripts.
Context `{RedisServer} (t : table) (Hsep : separator_ok t).

(** [a] is what the keys of the table stand for. *)
Definition tracks (st : gmap string value) (a : spec) : Prop := refines t (keys_of (pend a)) st a.

Lemma tracks_put st a k fvs n :
  tracks st a → tracks (put_store t k fvs st) (Spec (base a) (pend a ++ [(k, Put fvs)]) n).
Proof.
  intros R. unfold tracks. cbn [pend]. rewrite keys_of_app, (comm_L (∪)). unfold keys_of at 1. cbn.
  rewrite (right_id_L ∅ (∪)). by apply refines_put_key.
Qed.
Lemma tracks_remove st a k n :
  tracks st a → tracks (remove_store t k st) (Spec (base a) (pend a ++ [(k, Remove)]) n).
Proof.
  intros R. unfold tracks. cbn [pend]. rewrite keys_of_app, (comm_L (∪)). unfold keys_of at 1. cbn.
  rewrite (right_id_L ∅ (∪)). by apply refines_remove.
Qed.

(** [SADD] to the key set tells whether the key is new there. *)
Definition fresh (k : string) (a : spec) : nat := if decide (k ∈ keys_of (pend a)) then 0 else 1.
Lemma runs_add_key st a k : tracks st a → runs (SADD (getKeySetName t) k) st (fresh k a) (add_key t k st) 0.
Proof.
  intros R. eapply runs_eq; [apply runs_SADD, R| |done|done]. unfold fresh. by rewrite (keyset_is _ _ _ _ R).
Qed.
Lemma due_one a k c : due (pend a) [(k, c)] = fresh k a.
Proof.
  unfold due, fresh. cbn. destruct (decide _); [rewrite bool_decide_false by tauto|rewrite bool_decide_true by done]; done.
Qed.

Lemma runs_publish (c : nat) KEYS ARGV ch m st : KEYS !! 0 = Some ch → ARGV !! 0 = Some m →
  runs (if 0 <? c then k1 ← at_ KEYS 1; a1 ← at_ ARGV 1; PUBLISH k1 a1 else mret ()) st () st (if 0 <? c then 1 else 0).
Proof.
  intros Hk Ha. destruct (0 <? c); [|apply runs_ret].
  eapply runs_eq; [|done..|apply (Nat.add_0_l 1)]. eapply runs_bind; [by apply runs_at|].
  eapply runs_eq; [|done..|apply (Nat.add_0_l 1)]. eapply runs_bind; [by apply runs_at|]. apply runs_PUBLISH.
Qed.
Lemma fresh_if k a : (if 0 <? fresh k a then 1 else 0) = fresh k a.
Proof. unfold fresh. by case_decide. Qed.

Ltac get := eapply runs_bind; [by apply runs_at|].

Lemma pst_set_runs st a k fvs : tracks st a →
  runs (pst_set t k fvs) st () (put_store t k fvs st) (fresh k a).
Proof.
  intros R. unfold pst_set, set_lua. eapply runs_eq; [|done|done|].
  - get. get. eapply runs_bind; [by apply runs_add_key|].
    eapply runs_bind; [|by eapply runs_publish].
    cbn [length set_keys Nat.sub]. rewrite Nat.sub_0_r, length_replicate. apply runs_hset_loop.
    + apply (refines_add t Hsep _ _ a _ R (pend a) (λ _, eq_refl) 0).
    + intros i fv st' Hi Hst'. destruct (flat_values_lookup _ _ _ Hi) as [Hf Hv].
      eapply runs_eq; [|done|done|].
      * eapply runs_bind; [apply runs_at; cbn; apply lookup_replicate_2; by eapply lookup_lt_Some|].
        eapply runs_bind; [apply runs_at; cbn; exact Hf|].
        eapply runs_bind; [apply runs_at; cbn; exact Hv|]. destruct fv. by apply runs_HSET.
      * done.
  - cbn. apply fresh_if.
Qed.

Lemma pst_del_runs st a k : tracks st a →
  runs (pst_del t k) st () (remove_store t k st) (fresh k a).
Proof.
  intros R. unfold pst_del, del_lua.
  pose proof (refines_add t Hsep _ _ a k R (pend a) (λ _, eq_refl) 0) as R1.
  eapply runs_eq; [|done| |].
  - get. get. eapply runs_bind; [by apply runs_add_key|].
    get. eapply runs_bind; [apply runs_SADD, R1|]. get. eapply runs_bind; [apply runs_DEL|]. by eapply runs_publish.
  - unfold remove_store. do 3 f_equal. apply members_lookup. unfold add_key. apply put_set_ne. auto with aoi.
  - cbn. apply fresh_if.
Qed.

(** *** The batched scripts *)

(** How many of the keys the script finds new, one after the other. *)
Fixpoint fresh_all (ks : list string) (K : gset string) : nat :=
  match ks with [] => 0 | k :: ks => (if decide (k ∈ K) then 0 else 1) + fresh_all ks ({[k]} ∪ K) end.

Lemma fresh_all_due ks K :
  (if 0 <? fresh_all ks K then 1 else 0) = if existsb (λ k, bool_decide (k ∉ K)) ks then 1 else 0.
Proof.
  revert K. induction ks as [|k ks IH]; intros K; [done|]. cbn. destruct (decide (k ∈ K)) as [Hk|Hk]; cbn.
  - rewrite bool_decide_false by tauto. cbn. rewrite <- IH. by replace ({[k]} ∪ K) with K by set_solver.
  - by rewrite bool_decide_true.
Qed.

Lemma tracks_notes st a n : tracks st a → tracks st (Spec (base a) (pend a) n).
Proof. intros R. destruct R. by constructor. Qed.
Lemma keys_of_snoc l k c : keys_of (l ++ [(k, c)]) = {[k]} ∪ keys_of l.
Proof. rewrite keys_of_app, (comm_L (∪)). unfold keys_of at 1. cbn. by rewrite (right_id_L ∅ (∪)). Qed.

Local Abbreviation set_body KEYS ARGV := (λ i '(added, idx),
    k2 ← at_ KEYS 2; e ← at_ KEYS (4 + i);
    a ← SADD k2 e;
    n ← at_ ARGV idx ≫= tonumber;
    lua_for 0 n (λ j,
      attr ← at_ ARGV (idx + j * 2 + 1); val ← at_ ARGV (idx + j * 2 + 2);
      k3 ← at_ KEYS 3; HSET (k3 +:+ e) attr val);;
    mret (added + a, idx + n * 2 + 1)).

(** The fields of one entry, somewhere in [ARGV]. *)
Lemma packed_lookup apre fvs rest i fv : fvs !! i = Some fv →
  (apre ++ packed fvs ++ rest) !! (length apre + (1 + i * 2)) = Some fv.1 ∧
  (apre ++ packed fvs ++ rest) !! (length apre + (2 + i * 2)) = Some fv.2.
Proof.
  intros Hi. destruct (flat_values_lookup _ _ _ Hi) as [Hf Hv].
  rewrite !(lookup_app_r apre) by lia. rewrite !Nat.add_sub', !lookup_app_l; [done|..];
    apply lookup_lt_Some in Hi; unfold packed; cbn; rewrite flat_values_length; lia.
Qed.

Lemma set_body_runs KEYS ARGV i apre fvs rest k st a added :
  tracks st a → KEYS !! 1 = Some (getKeySetName t) → KEYS !! 2 = Some (getStateHashPrefix +:+ table_prefix t) →
  KEYS !! (3 + i) = Some k → ARGV = apre ++ packed fvs ++ rest →
  runs (set_body KEYS ARGV i (added, S (length apre))) st
    (added + fresh k a, S (length (apre ++ packed fvs))) (put_store t k fvs st) 0.
Proof.
  intros R Hks Hp Hk ->. eapply runs_eq; [| |done|].
  - get. get. eapply runs_bind; [by apply runs_add_key|].
    eapply runs_bind.
    { eapply runs_bind; [apply runs_at; by rewrite lookup_app_r, Nat.sub_diag by lia|apply runs_tonumber]. }
    eapply runs_bind; [|apply runs_ret]. apply runs_hset_loop.
    + apply (refines_add t Hsep _ _ a _ R (pend a) (λ _, eq_refl) 0).
    + intros j fv st' Hj Hst'. destruct (packed_lookup apre fvs rest j fv Hj) as [Hf Hv].
      eapply runs_eq; [|done|done|].
      * eapply runs_bind; [apply runs_at'; [lia|]; rewrite <- Hf; f_equal; lia|].
        eapply runs_bind; [apply runs_at'; [lia|]; rewrite <- Hv; f_equal; lia|].
        get. rewrite prefix_state. destruct fv. by apply runs_HSET.
      * done.
  - f_equal. rewrite length_app. unfold packed. cbn. rewrite flat_values_length. lia.
  - done.
Qed.

Lemma set_loop_runs KEYS ARGV vs : ∀ i kpre apre added st a,
  tracks st a → KEYS !! 1 = Some (getKeySetName t) → KEYS !! 2 = Some (getStateHashPrefix +:+ table_prefix t) →
  KEYS = kpre ++ vs.*1 → length kpre = 3 + i → ARGV = apre ++ (vs ≫= λ p, packed p.2) →
  ∃ st' idx, runs (lua_for_with i (length vs) (set_body KEYS ARGV) (added, S (length apre))) st
      (added + fresh_all vs.*1 (keys_of (pend a)), idx) st' 0 ∧
    tracks st' (Spec (base a) (pend a ++ ((λ p, (p.1, Put p.2)) <$> vs)) (notes a)).
Proof.
  induction vs as [|[k fvs] vs IH]; intros i kpre apre added st a R Hks Hp HK Hl HA.
  { exists st, (S (length apre)). cbn. rewrite Nat.add_0_r, (right_id_L [] (++)). split; [apply runs_ret|]. by apply tracks_notes. }
  pose proof (set_body_runs KEYS ARGV i apre fvs (vs ≫= λ p, packed p.2) k st a added R Hks Hp) as Hbody.
  destruct (IH (S i) (kpre ++ [k]) (apre ++ packed fvs) (added + fresh k a) (put_store t k fvs st)
    (Spec (base a) (pend a ++ [(k, Put fvs)]) (notes a))) as (st' & idx & Hrun & R'); [by apply tracks_put|done..| | | |].
  { rewrite HK. cbn. by rewrite <- (assoc_L (++)). }
  { rewrite length_app. cbn. lia. }
  { rewrite HA. cbn. by rewrite <- (assoc_L (++)). }
  exists st', idx. cbn [base pend notes] in R'. rewrite <- (assoc_L (++)) in R'. split; [|done]. cbn [length lua_for_with].
  eapply runs_eq; [|done|done|apply (Nat.add_0_l 0)]. eapply runs_bind.
  - apply Hbody; [|by rewrite HA]. rewrite HK, lookup_app_r by lia. by replace (3 + i - length kpre) with 0 by lia.
  - eapply runs_eq; [exact Hrun| |done|done]. f_equal. cbn [pend]. rewrite keys_of_snoc.
    cbn [fmap list_fmap fst fresh_all]. unfold fresh. lia.
Qed.

Lemma pst_set_all_runs st a vs : tracks st a →
  ∃ st', runs (pst_set_all t vs) st () st' (due (pend a) (changes (Set_all vs))) ∧
    tracks st' (spec_change (changes (Set_all vs)) a).
Proof.
  intros R. destruct (set_loop_runs (batched_set_keys t vs) (batched_set_argv vs) vs 0
    [channel t; getKeySetName t; getStateHashPrefix +:+ table_prefix t] [G] 0 st a) as (st' & idx & Hrun & R'); [done..|].
  exists st'. split; [|by apply (tracks_notes _ _ _ R')]. unfold pst_set_all, batched_set_lua.
  eapply runs_eq; [|done|done|].
  - eapply runs_bind; [|by eapply runs_publish].
    replace (length (batched_set_keys t vs) - 3) with (length vs); [exact Hrun|].
    cbn. by rewrite length_fmap, Nat.sub_0_r.
  - cbn [fst Nat.add]. rewrite fresh_all_due. unfold due. cbn [changes]. by rewrite <- list_fmap_compose.
Qed.

Lemma del_loop_runs KEYS keys : ∀ i kpre added st a,
  tracks st a → KEYS !! 1 = Some (getKeySetName t) → KEYS !! 2 = Some (getDelKeySetName t) →
  KEYS !! 3 = Some (getStateHashPrefix +:+ table_prefix t) → KEYS = kpre ++ keys → length kpre = 4 + i →
  ∃ st', runs (lua_for_with i (length keys) (λ i added,
      k2 ← at_ KEYS 2; e ← at_ KEYS (5 + i);
      a ← SADD k2 e;
      k3 ← at_ KEYS 3; SADD k3 e;;
      k4 ← at_ KEYS 4; DEL (k4 +:+ e);;
      mret (added + a)) added) st (added + fresh_all keys (keys_of (pend a))) st' 0 ∧
    tracks st' (Spec (base a) (pend a ++ ((λ k, (k, Remove)) <$> keys)) (notes a)).
Proof.
  induction keys as [|k keys IH]; intros i kpre added st a R Hks Hds Hp HK Hl.
  { exists st. cbn. rewrite Nat.add_0_r, (right_id_L [] (++)). split; [apply runs_ret|]. by apply tracks_notes. }
  pose proof (refines_add t Hsep _ _ a k R (pend a) (λ _, eq_refl) 0) as R1.
  destruct (IH (S i) (kpre ++ [k]) (added + fresh k a) (remove_store t k st)
    (Spec (base a) (pend a ++ [(k, Remove)]) (notes a))) as (st' & Hrun & R'); [by apply tracks_remove|done..| | |].
  { rewrite HK. by rewrite <- (assoc_L (++)). }
  { rewrite length_app. cbn. lia. }
  assert (Hk : KEYS !! (4 + i) = Some k) by (by rewrite HK, <- Hl, list_lookup_middle).
  exists st'. cbn [base pend notes] in R'. rewrite <- (assoc_L (++)) in R'. split; [|done]. cbn [length lua_for_with].
  eapply runs_eq; [|done|done|apply (Nat.add_0_l 0)].
  eapply (runs_bind _ _ _ (added + fresh k a) (remove_store t k st)).
  - eapply runs_eq; [|reflexivity| |].
    + get. eapply runs_bind; [apply runs_at; exact Hk|].
      eapply runs_bind; [by apply runs_add_key|].
      get. eapply runs_bind; [apply runs_SADD, R1|].
      get. rewrite prefix_state. eapply runs_bind; [apply runs_DEL|apply runs_ret].
    + unfold remove_store. do 3 f_equal. apply members_lookup. unfold add_key. apply put_set_ne. auto with aoi.
    + done.
  - eapply runs_eq; [exact Hrun| |done|done]. cbn [pend]. rewrite keys_of_snoc.
    cbn [fresh_all]. unfold fresh. lia.
Qed.

Lemma pst_del_all_runs st a keys : tracks st a →
  ∃ st', runs (pst_del_all t keys) st () st' (due (pend a) (changes (Del_all keys))) ∧
    tracks st' (spec_change (changes (Del_all keys)) a).
Proof.
  intros R. destruct (del_loop_runs (batched_del_keys t keys) keys 0
    [channel t; getKeySetName t; getDelKeySetName t; getStateHashPrefix +:+ table_prefix t] 0 st a) as (st' & Hrun & R'); [done..|].
  exists st'. split; [|by apply (tracks_notes _ _ _ R')]. unfold pst_del_all, batched_del_lua.
  eapply runs_eq; [|done|done|].
  - eapply runs_bind; [|by eapply runs_publish].
    replace (length (batched_del_keys t keys) - 4) with (length keys); [exact Hrun|].
    cbn. by rewrite Nat.sub_0_r.
  - cbn [Nat.add]. rewrite fresh_all_due. unfold due. cbn [changes]. by rewrite <- list_fmap_compose, list_fmap_id.
Qed.

(** *** [clear] *)

Definition clear_store (st : gmap string value) : gmap string value :=
  let st1 := delete (getKeySetName t) st in
  delete (getDelKeySetName t) (delete_all
    (names_of (filter (λ k, String.prefix (getStateHashPrefix +:+ m_tableName t) k = true) (dom st1))) st1).

(** Of the entries nothing is lost; what was pending is. *)
Lemma clear_store_lookup st k : clear_store st !! k =
  if decide (k = getKeySetName t ∨ k = getDelKeySetName t ∨ String.prefix (getStateHashPrefix +:+ m_tableName t) k = true)
  then None else st !! k.
Proof.
  unfold clear_store. set (ns := names_of _).
  assert (Hns : k ∈ ns ↔ String.prefix (getStateHashPrefix +:+ m_tableName t) k = true ∧ is_Some (delete (getKeySetName t) st !! k)).
  { unfold ns. by rewrite names_of_perm, elem_of_elements, elem_of_filter, elem_of_dom. }
  destruct (decide (k = getDelKeySetName t)) as [->|Hd]; [rewrite lookup_delete_eq, decide_True by tauto; done|].
  rewrite lookup_delete_ne, delete_all_lookup by done.
  destruct (decide (k = getKeySetName t)) as [->|Hk].
  { rewrite lookup_delete_eq. rewrite (decide_True (P := _ ∨ _ ∨ _)) by tauto. by case_decide. }
  rewrite lookup_delete_ne in * by done.
  destruct (decide (String.prefix (getStateHashPrefix +:+ m_tableName t) k = true)) as [Hp|Hp].
  - rewrite (decide_True (P := _ ∨ _ ∨ _)) by tauto. case_decide as Hin; [done|].
    apply eq_None_not_Some. tauto.
  - rewrite !decide_False by tauto. done.
Qed.

Lemma pst_clear_runs st a : tracks st a →
  runs (pst_clear t) st () (clear_store st) 0 ∧ tracks (clear_store st) (Spec (base a) [] (notes a)).
Proof.
  intros R. split.
  - unfold pst_clear, clear_lua. eapply runs_eq; [|done|done|].
    + get. eapply runs_bind; [apply runs_DEL|]. get. eapply runs_bind; [apply runs_KEYS|].
      eapply runs_bind; [apply runs_delete_loop|]. get. apply runs_DEL.
    + done.
  - assert (Hgone : ∀ k, k = getKeySetName t ∨ k = getDelKeySetName t ∨ (∃ x, k = getStateName t x) → clear_store st !! k = None).
    { intros k Hk. rewrite clear_store_lookup, decide_True; [done|].
      destruct Hk as [?|[?|[x ->]]]; [tauto..|]. right; right. apply state_prefix. }
    assert (Hkeep : ∀ k, clear_store st !! getKeyName t k = st !! getKeyName t k).
    { intros k. rewrite clear_store_lookup, decide_False; [done|]. rewrite entry_no_state_prefix by done.
      intros [Heq|[Heq|Heq]]; [by apply keyname_keyset in Heq|by apply keyname_delset in Heq|done]. }
    constructor; cbn [base pend notes].
    + unfold holds_set. by rewrite Hgone by tauto.
    + unfold holds_set. by rewrite Hgone by tauto.
    + intros k. unfold holds_hash. by rewrite Hgone by eauto.
    + intros k. eapply holds_hash_lookup; [apply Hkeep|apply R].
    + unfold members. by rewrite Hgone by tauto.
    + intros k. unfold members. rewrite Hgone by tauto. cbn. rewrite elem_of_nil. set_solver.
    + intros k. unfold fields. by rewrite Hgone by eauto.
    + intros k. rewrite (fields_lookup st) by apply Hkeep. apply R.
Qed.

(** *** [pops] *)

Local Abbreviation pop_body KEYS tablename stateprefix keys := (λ i ret,
    key ← at_ keys i;
    k3 ← at_ KEYS 3; num ← SREM k3 key;
    (if num =? 1 then DEL (tablename +:+ key) else mret ());;
    fieldvalues ← HGETALL (stateprefix +:+ tablename +:+ key);
    lua_for 0 (length fieldvalues) (λ i,
      match fieldvalues !! i with Some (f, v) => HSET (tablename +:+ key) f v | None => lua_error end);;
    DEL (stateprefix +:+ tablename +:+ key);;
    mret (ret ++ [(key, fieldvalues)])).

Lemma pop_body_runs K KEYS keys i ret k st a :
  refines t K st a → KEYS !! 2 = Some (getDelKeySetName t) → keys !! i = Some k →
  runs (pop_body KEYS (table_prefix t) getStateHashPrefix keys (S i) ret) st
    (ret ++ [(k, fields_of (replay (of_key k (pend a)) ∅))]) (pop_store t k st) 0.
Proof.
  intros R Hd Hk. destruct (take_mark_entry t Hsep _ k _ _ R) as [Hh _].
  assert (Hl : take_mark t k st !! getStateName t k = st !! getStateName t k).
  { apply take_mark_ne; [auto with aoi|]. apply statename_keyname, Hsep. }
  assert (Hf : fields (take_mark t k st) (getStateName t k) = replay (of_key k (pend a)) ∅).
  { rewrite (fields_lookup st) by done. apply R. }
  rewrite <- Hf. eapply runs_eq; [|reflexivity|reflexivity|].
  - get. get. eapply runs_bind; [apply runs_SREM, R|].
    eapply (runs_bind _ _ _ () (take_mark t k st) 0).
    { unfold take_mark. case_decide; cbn; [|apply runs_ret]. rewrite prefix_key. apply runs_DEL. }
    change (getStateHashPrefix +:+ table_prefix t +:+ k) with ((getStateHashPrefix +:+ table_prefix t) +:+ k).
    rewrite prefix_state. eapply runs_bind; [apply runs_HGETALL; by eapply holds_hash_lookup; [|apply R]|].
    rewrite prefix_key. eapply runs_bind.
    { apply runs_hset_loop; [done|]. intros j [f v] st' Hj Hst'. cbn [Nat.add]. rewrite Hj. by apply runs_HSET. }
    eapply runs_bind; [apply runs_DEL|]. apply runs_ret.
  - done.
Qed.

Lemma pop_loop_runs K KEYS keys ks : ∀ pre ret st a,
  refines t K st a → KEYS !! 2 = Some (getDelKeySetName t) → keys = pre ++ ks →
  ∃ st', runs (lua_for_with (S (length pre)) (length ks) (pop_body KEYS (table_prefix t) getStateHashPrefix keys) ret) st
      (ret ++ (spec_pops ks a).1) st' 0 ∧
    refines t K st' (spec_pops ks a).2.
Proof.
  induction ks as [|k ks IH]; intros pre ret st a R Hd Hk.
  { exists st. cbn. rewrite (right_id_L [] (++)). by split; [apply runs_ret|]. }
  destruct (IH (pre ++ [k]) (ret ++ [(k, fields_of (replay (of_key k (pend a)) ∅))]) (pop_store t k st) (spec_pop k a))
    as (st' & Hrun & R'); [by apply refines_pop|done|by rewrite <- (assoc_L (++))|].
  exists st'. cbn [spec_pops]. destruct (spec_pops ks (spec_pop k a)) as [r a']. split; [|done].
  cbn [length lua_for_with fst]. eapply runs_eq; [|done|done|apply (Nat.add_0_l 0)].
  eapply runs_bind.
  - eapply pop_body_runs; [done..|]. rewrite Hk. by apply list_lookup_middle.
  - replace (S (S (length pre))) with (S (length (pre ++ [k]))) by (rewrite length_app; cbn; lia).
    eapply runs_eq; [exact Hrun| |done|done]. by rewrite <- (assoc_L (++)).
Qed.

Lemma keys_of_pops ks a : keys_of (pend (spec_pops ks a).2) = keys_of (pend a) ∖ list_to_set ks.
Proof.
  revert a. induction ks as [|k ks IH]; intros a; [cbn; by rewrite difference_empty_L|]. cbn [spec_pops].
  specialize (IH (spec_pop k a)). destruct (spec_pops ks (spec_pop k a)) as [r a']. cbn [fst snd] in *.
  rewrite IH. cbn [spec_pop pend]. rewrite keys_of_filter. cbn. by rewrite difference_difference_l_L.
Qed.
Lemma notes_pops ks a : notes (spec_pops ks a).2 = notes a.
Proof.
  revert a. induction ks as [|k ks IH]; intros a; cbn; [done|].
  specialize (IH (spec_pop k a)). by destruct (spec_pops ks (spec_pop k a)) as [r a'].
Qed.

Lemma refines_keyset K st a K' : refines t K st a → refines t K' (put_set (getKeySetName t) K' st) a.
Proof.
  intros R. constructor.
  - apply put_set_holds.
  - eapply holds_set_lookup; [apply put_set_ne; auto with aoi|apply R].
  - intros k. eapply holds_hash_lookup; [apply put_set_ne, not_eq_sym, statename_keyset, Hsep|apply R].
  - intros k. eapply holds_hash_lookup; [apply put_set_ne, not_eq_sym, keyname_keyset, Hsep|apply R].
  - apply put_set_eq.
  - intros k. rewrite (members_lookup st) by (apply put_set_ne; auto with aoi). apply R.
  - intros k. rewrite (fields_lookup st) by apply put_set_ne, not_eq_sym, statename_keyset, Hsep. apply R.
  - intros k. rewrite (fields_lookup st) by apply put_set_ne, not_eq_sym, keyname_keyset, Hsep. apply R.
Qed.

Lemma cst_pops_runs st a ks batch : tracks st a →
  ∃ st', runs (cst_pops t ks batch) st (spec_pops ks a).1 st' 0 ∧ tracks st' (spec_pops ks a).2.
Proof.
  intros R.
  destruct (pop_loop_runs (keys_of (pend a) ∖ list_to_set ks) [getKeySetName t; table_prefix t; getDelKeySetName t]
    ks ks [] [] (put_set (getKeySetName t) (keys_of (pend a) ∖ list_to_set ks) st) a)
    as (st' & Hrun & R'); [by eapply refines_keyset|done..|].
  exists st'. split; [|unfold tracks; by rewrite keys_of_pops].
  unfold cst_pops, pops_lua. eapply runs_eq; [|done|done|].
  - get. get. get. get. eapply runs_bind; [apply runs_SPOP, R|].
    rewrite (keyset_is _ _ _ _ R). exact Hrun.
  - done.
Qed.

(** *** Any sequence of scripts *)

Lemma perform_runs st a x : tracks st a →
  ∃ st', runs (perform t x) st (spec_step x a).1 st' (due (pend a) (changes x)) ∧ tracks st' (spec_step x a).2.
Proof.
  intros R. assert (Hone : ∀ (m : script ()) st' n,
    runs m st () st' n → runs (m;; mret ([] : list (string * values))) st [] st' n).
  { intros m st' n Hm. eapply runs_eq; [eapply runs_bind; [exact Hm|apply runs_ret]|done|done|lia]. }
  destruct x as [k fvs|vs|k|ks| |ks n]; cbn [perform spec_step fst snd].
  - exists (put_store t k fvs st). split; [|by apply tracks_put].
    apply Hone. cbn [changes]. rewrite due_one. by apply pst_set_runs.
  - destruct (pst_set_all_runs st a vs R) as (st' & Hrun & R'). exists st'. split; [|done]. by apply Hone.
  - exists (remove_store t k st). split; [|by apply tracks_remove].
    apply Hone. cbn [changes]. rewrite due_one. by apply pst_del_runs.
  - destruct (pst_del_all_runs st a ks R) as (st' & Hrun & R'). exists st'. split; [|done]. by apply Hone.
  - destruct (pst_clear_runs st a R) as [Hrun R']. exists (clear_store st). split; [|done]. by apply Hone.
  - by apply cst_pops_runs.
Qed.

Lemma notes_step x a : notes (spec_step x a).2 = notes a + due (pend a) (changes x).
Proof. destruct x; cbn; try done. by rewrite notes_pops, Nat.add_0_r. Qed.

Lemma perform_all_runs xs st a : tracks st a →
  ∃ st' n, runs (perform_all t xs) st (spec_steps xs a).1 st' n ∧ tracks st' (spec_steps xs a).2 ∧
    notes (spec_steps xs a).2 = notes a + n.
Proof.
  revert st a. induction xs as [|x xs IH]; intros st a R.
  { exists st, 0. split_all; [apply runs_ret|done|cbn; lia]. }
  destruct (perform_runs st a x R) as (st1 & Hrun & R1).
  pose proof (notes_step x a) as Hn. cbn [perform_all spec_steps].
  destruct (spec_step x a) as [r a1]. cbn [fst snd] in *.
  destruct (IH st1 a1 R1) as (st2 & n & Hrun2 & R2 & Hn2).
  destruct (spec_steps xs a1) as [rs a2]. cbn [fst snd] in *.
  exists st2, (due (pend a) (changes x) + n). split_all; [|done|lia].
  eapply runs_eq; [|done|done|].
  - eapply runs_bind; [exact Hrun|]. eapply runs_bind; [exact Hrun2|apply runs_ret].
  - lia.
Qed.

(** *** [apply_temp_view] *)

Lemma refines_mark K st a k n : refines t K st a → replay (of_key k (pend a)) ∅ = ∅ →
  refines t K (put_set (getDelKeySetName t) ({[k]} ∪ members st (getDelKeySetName t)) st)
    (Spec (base a) (pend a ++ [(k, Remove)]) n).
Proof.
  intros R Hk. set (st1 := put_set _ _ st).
  assert (Hne : ∀ k', k' ≠ getDelKeySetName t → st1 !! k' = st !! k') by (intros; by apply put_set_ne).
  constructor; cbn [base pend notes].
  - eapply holds_set_lookup; [apply Hne; auto with aoi|apply R].
  - apply put_set_holds.
  - intros k'. eapply holds_hash_lookup; [apply Hne, statename_delset, Hsep|apply R].
  - intros k'. eapply holds_hash_lookup; [apply Hne, keyname_delset, Hsep|apply R].
  - rewrite (members_lookup st) by (apply Hne; auto with aoi). apply R.
  - intros k'. unfold st1. rewrite put_set_eq, elem_of_union, elem_of_singleton, (delset_is _ _ _ _ R), of_key_app, elem_of_app.
    destruct (decide (k = k')) as [->|Hkk]; [rewrite of_key_eq, list_elem_of_singleton|rewrite of_key_ne, elem_of_nil by done]; naive_solver.
  - intros k'. rewrite (fields_lookup st) by apply Hne, statename_delset, Hsep.
    rewrite of_key_app, replay_app, (state_is _ _ _ _ R).
    destruct (decide (k = k')) as [->|Hkk]; [by rewrite of_key_eq|by rewrite of_key_ne].
  - intros k'. rewrite (fields_lookup st) by apply Hne, keyname_delset, Hsep. apply R.
Qed.

(** A loop over some of the arguments that adds each to a set. *)
Lemma sadd_loop_runs (P : gmap string value → list string → Prop) s (get_key : script string) ARGV n xs st :
  (∀ st, runs get_key st s st 0) →
  (∀ st done x, P st done → ∃ r st', runs (SADD s x) st r st' 0 ∧ P st' (done ++ [x])) →
  P st [] → (∀ i x, xs !! i = Some x → ARGV !! (n + i) = Some x) →
  ∃ st', runs (lua_for 1 (length xs) (λ i, k ← get_key; a ← at_ ARGV (n + i); _ ← SADD k a; mret ())) st () st' 0 ∧ P st' xs.
Proof.
  intros Hg Hadd HP Hx.
  assert (Hgen : ∀ ys done st, xs = done ++ ys → P st done → ∃ st',
    runs (lua_for (S (length done)) (length ys) (λ i, k ← get_key; a ← at_ ARGV (n + i); _ ← SADD k a; mret ())) st () st' 0 ∧ P st' xs).
  { induction ys as [|y ys IH]; intros dn st' Hxs HP'.
    - exists st'. rewrite (right_id_L [] (++)) in Hxs. subst. by split; [apply runs_ret|].
    - destruct (Hadd st' dn y HP') as (r & st1 & H1 & HP1).
      destruct (IH (dn ++ [y]) st1) as (st2 & H2 & HP2); [by rewrite <- (assoc_L (++))|done|].
      exists st2. split; [|done]. cbn [length lua_for].
      eapply runs_eq; [|done|done|apply (Nat.add_0_l 0)]. eapply runs_bind.
      + eapply runs_eq; [|done|done|].
        * eapply runs_bind; [apply Hg|]. eapply runs_bind.
          { rewrite Nat.add_succ_r. apply runs_at. apply Hx. rewrite Hxs. by apply list_lookup_middle. }
          eapply runs_bind; [exact H1|apply runs_ret].
        * done.
      + by replace (S (S (length dn))) with (S (length (dn ++ [y]))) by (rewrite length_app; cbn; lia). }
  by apply (Hgen xs []).
Qed.

Local Abbreviation view_body KEYS ARGV := (λ j arg_start,
    n ← at_ ARGV arg_start ≫= tonumber;
    lua_for 1 n (λ i,
      k ← at_ KEYS j; f ← at_ ARGV (arg_start + i * 2 - 1); v ← at_ ARGV (arg_start + i * 2); HSET k f v);;
    mret (arg_start + 2 * n + 1)).

Lemma runs_lua_for_shift body n j st st' m :
  runs (lua_for j n (λ i, body (S i))) st () st' m → runs (lua_for (S j) n body) st () st' m.
Proof.
  assert (Heq : ∀ r, lua_for (S j) n body r = lua_for j n (λ i, body (S i)) r).
  { revert j. induction n as [|n IH]; intros j r; [done|]. cbn. unfold mbind, script_bind.
    destruct (body (S j) r) as [[[]|] r']; [apply IH|done]. }
  intros Hr log. destruct (Hr log) as (l & H1 & H2). exists l. by rewrite Heq.
Qed.

Lemma view_loop_runs KEYS ARGV K es : ∀ j kpre apre st a,
  refines t K st a → KEYS = kpre ++ (getStateName t <$> es.*1) → length kpre = 3 + j →
  ARGV = apre ++ (es ≫= λ p, packed p.2) →
  ∃ st' idx, runs (lua_for_with (4 + j) (length es) (view_body KEYS ARGV) (S (length apre))) st idx st' 0 ∧
    refines t K st' (Spec (base a) (pend a ++ ((λ p, (p.1, Put p.2)) <$> es)) (notes a)).
Proof.
  induction es as [|[k fvs] es IH]; intros j kpre apre st a R HK Hl HA.
  { exists st, (S (length apre)). cbn. rewrite (right_id_L [] (++)). split; [apply runs_ret|]. destruct R; by constructor. }
  destruct (IH (S j) (kpre ++ [getStateName t k]) (apre ++ packed fvs) (hset_store (getStateName t k) fvs st)
    (Spec (base a) (pend a ++ [(k, Put fvs)]) (notes a))) as (st' & idx & Hrun & R'); [by apply refines_hset|..].
  { rewrite HK. cbn. by rewrite <- (assoc_L (++)). }
  { rewrite length_app. cbn. lia. }
  { rewrite HA. cbn. by rewrite <- (assoc_L (++)). }
  exists st', idx. cbn [base pend notes] in R'. rewrite <- (assoc_L (++)) in R'. split; [|done].
  cbn [length lua_for_with]. eapply runs_eq; [|done|done|apply (Nat.add_0_l 0)].
  assert (Hk : KEYS !! (3 + j) = Some (getStateName t k)) by (by rewrite HK, <- Hl; cbn; rewrite list_lookup_middle).
  eapply (runs_bind _ _ _ (S (length (apre ++ packed fvs))) (hset_store (getStateName t k) fvs st)).
  - subst ARGV. cbn [mbind list_bind snd]. eapply runs_eq; [|reflexivity|reflexivity|].
    + eapply runs_bind.
      { eapply runs_bind; [apply runs_at; by rewrite lookup_app_r, Nat.sub_diag by lia|apply runs_tonumber]. }
      eapply runs_bind; [apply runs_lua_for_shift, runs_hset_loop; [apply R|]|].
      * intros i fv st1 Hi Hst1. destruct (packed_lookup apre fvs (es ≫= λ p, packed p.2) i fv Hi) as [Hf Hv].
        eapply runs_eq; [|done|done|].
        -- get. eapply runs_bind; [apply runs_at'; [lia|]; rewrite <- Hf; f_equal; lia|].
           eapply runs_bind; [apply runs_at'; [lia|]; rewrite <- Hv; f_equal; lia|]. destruct fv. by apply runs_HSET.
        -- done.
      * replace (S (length apre) + 2 * length fvs + 1) with (S (length (apre ++ packed fvs))); [apply runs_ret|].
        rewrite length_app. unfold packed. cbn. rewrite flat_values_length. lia.
    + done.
  - exact Hrun.
Qed.

(** Removals leave nothing. *)
Lemma replay_removes k ks : replay (of_key k ((λ k, (k, Remove)) <$> ks)) ∅ = ∅.
Proof.
  induction ks as [|x ks IH] using rev_ind; [done|]. rewrite fmap_app, of_key_app, replay_app, IH.
  change ((λ k, (k, Remove)) <$> [x]) with [(x, Remove)].
  destruct (decide (x = k)) as [->|?]; [by rewrite of_key_eq|by rewrite of_key_ne].
Qed.

Lemma middle_lookup (l rest pre : list string) i x : l !! i = Some x → (pre ++ l ++ rest) !! (length pre + i) = Some x.
Proof.
  intros Hi. rewrite lookup_app_r, Nat.add_sub' by lia. apply lookup_app_l_Some. done.
Qed.

(** Its first loop, and its second. *)
Lemma apply_add_runs KEYS ARGV n to_set rest st b m : refines t ∅ st (Spec b [] m) →
  KEYS !! 1 = Some (getKeySetName t) → ARGV = [G; n] ++ to_set ++ rest →
  ∃ st', runs (lua_for 1 (length to_set) (λ i, k2 ← at_ KEYS 2; a ← at_ ARGV (2 + i); _ ← SADD k2 a; mret ())) st () st' 0 ∧
    refines t (list_to_set to_set) st' (Spec b [] m).
Proof.
  intros R Hk ->. apply (sadd_loop_runs (λ st d, refines t (list_to_set d) st (Spec b [] m)) (getKeySetName t)).
  - intros st'. by apply runs_at.
  - intros st' d x Rd. eexists _, _. split; [apply runs_SADD, Rd|].
    rewrite (keyset_is _ _ _ _ Rd), list_to_set_app_L, (comm_L (∪)). cbn. rewrite (right_id_L ∅ (∪)).
    by eapply refines_keyset.
  - done.
  - intros i x Hi. by apply (middle_lookup to_set rest [G; n]).
Qed.
Lemma apply_mark_runs KEYS ARGV K pre to_del rest st b m : refines t K st (Spec b [] m) →
  KEYS !! 2 = Some (getDelKeySetName t) → ARGV = pre ++ to_del ++ rest →
  ∃ st', runs (lua_for 1 (length to_del) (λ i, k3 ← at_ KEYS 3; a ← at_ ARGV (length pre + i); _ ← SADD k3 a; mret ())) st () st' 0 ∧
    refines t K st' (Spec b ((λ k, (k, Remove)) <$> to_del) m).
Proof.
  intros R Hk ->.
  apply (sadd_loop_runs (λ st d, refines t K st (Spec b ((λ k, (k, Remove)) <$> d) m)) (getDelKeySetName t)).
  - intros st'. by apply runs_at.
  - intros st' d x Rd. eexists _, _. split; [apply runs_SADD, Rd|]. rewrite fmap_app.
    apply (refines_mark _ _ _ x m Rd). apply replay_removes.
  - done.
  - intros i x Hi. by apply middle_lookup.
Qed.

(** Applying a view when nothing is pending: every key named is removed or set, or both in
    this order. *)
Lemma pst_apply_runs st a to_set to_del es : tracks st a → pend a = [] →
  (∀ k, k ∈ to_set ↔ k ∈ to_del ∨ k ∈ es.*1) →
  ∃ st', runs (pst_apply t to_set to_del es) st () st' 1 ∧
    tracks st' (Spec (base a) (((λ k, (k, Remove)) <$> to_del) ++ ((λ p, (p.1, Put p.2)) <$> es)) (notes a)).
Proof.
  intros R Hp Hcover. unfold tracks in R. destruct a as [b l m]. cbn [pend base notes] in *. subst l.
  set (KEYS := apply_keys t es). set (ARGV := apply_argv to_set to_del es).
  set (entries := es ≫= λ p, packed p.2).
  set (pre := G :: tostring (length to_set) :: to_set ++ [tostring (length to_del)]).
  assert (HA : ARGV = pre ++ to_del ++ entries) by (unfold pre; cbn; by rewrite <- (assoc_L (++))).
  assert (Hpre : length pre = 2 + length to_set + 1) by (unfold pre; cbn; rewrite length_app; cbn; lia).
  destruct (apply_add_runs KEYS ARGV (tostring (length to_set)) to_set (tostring (length to_del) :: to_del ++ entries)
    st b m R) as (st1 & H1 & R1); [done..|].
  destruct (apply_mark_runs KEYS ARGV _ pre to_del entries st1 b m R1) as (st2 & H2 & R2); [done..|].
  destruct (view_loop_runs KEYS ARGV (list_to_set to_set) es 0 [channel t; getKeySetName t; getDelKeySetName t]
    (pre ++ to_del) st2 _ R2) as (st3 & idx & H3 & R3); [done|done|by rewrite HA, <- (assoc_L (++))|].
  exists st3. split.
  - unfold pst_apply, apply_view_lua. fold KEYS ARGV. eapply runs_eq; [|reflexivity|reflexivity|].
    + eapply runs_bind; [eapply runs_bind; [by apply runs_at|apply runs_tonumber]|].
      eapply runs_bind; [exact H1|]. rewrite <- Hpre. eapply runs_bind.
      { eapply runs_bind; [|apply runs_tonumber]. apply runs_at'; [lia|].
        replace (pred (length pre)) with (length (G :: tostring (length to_set) :: to_set)) by (rewrite Hpre; cbn; lia).
        by apply (list_lookup_middle (G :: tostring (length to_set) :: to_set)). }
      eapply runs_bind; [exact H2|].
      eapply (runs_bind _ _ _ idx st3); [|get; get; apply runs_PUBLISH].
      replace (length pre + length to_del + 1) with (S (length (pre ++ to_del))) by (rewrite length_app; lia).
      replace (length KEYS - 3) with (length es); [exact H3|].
      unfold KEYS, apply_keys. cbn. by rewrite !length_fmap, Nat.sub_0_r.
    + done.
  - unfold tracks. cbn [base pend notes] in *. replace (keys_of _) with (list_to_set to_set : gset string); [exact R3|].
    apply set_eq. intros k. rewrite keys_of_app. unfold keys_of. rewrite elem_of_union, !elem_of_list_to_set, Hcover.
    by rewrite <- !list_fmap_compose, list_fmap_id.
Qed.
End scripts.

(** * What a consumer sees *)

(** A table nobody has asked a change of. *)
Definition idle (t : table) (st : gmap string value) : Prop := refines t ∅ st (Spec (λ k, fields st (getKeyName t k)) [] 0).

(** What the entry of a key will be when nothing is pending any more. *)
Definition view (a : spec) (k : string) : gmap string string := replay (of_key k (pend a)) (base a k).

Section consumer.
Context `{RedisServer} (t : table) (Hsep : separator_ok t).

Lemma view_pop k a k' : view (spec_pop k a) k' = view a k'.
Proof.
  unfold view, spec_pop. cbn [pend base]. destruct (decide (k' = k)) as [->|Hk].
  - by rewrite of_key_filter_eq.
  - by rewrite of_key_filter_ne.
Qed.
Lemma view_pops ks a k' : view (spec_pops ks a).2 k' = view a k'.
Proof.
  revert a. induction ks as [|k ks IH]; intros a; [done|]. cbn [spec_pops].
  specialize (IH (spec_pop k a)). destruct (spec_pops ks (spec_pop k a)) as [r a']. cbn [fst snd] in *.
  by rewrite IH, view_pop.
Qed.
Lemma view_step x a k : x ≠ Clear → view (spec_step x a).2 k = replay (of_key k (changes x)) (view a k).
Proof.
  intros Hx. destruct x; try done; cbn [spec_step snd]; [..|by rewrite view_pops];
    unfold view, spec_change; cbn [pend base]; by rewrite of_key_app, replay_app.
Qed.
Lemma view_steps xs a k : Clear ∉ xs →
  view (spec_steps xs a).2 k = replay (of_key k (xs ≫= changes)) (view a k).
Proof.
  revert a. induction xs as [|x xs IH]; intros a Hx; [done|]. cbn [spec_steps].
  apply not_elem_of_cons in Hx as [Hx Hxs]. pose proof (view_step x a k (not_eq_sym Hx)) as Hv.
  destruct (spec_step x a) as [r a1]. specialize (IH a1 Hxs). destruct (spec_steps xs a1) as [rs a2]. cbn [fst snd] in *.
  rewrite IH, Hv. change ((x :: xs) ≫= changes) with (changes x ++ (xs ≫= changes)). by rewrite of_key_app, replay_app.
Qed.

Lemma keys_of_nil l : keys_of l = ∅ → l = [].
Proof. destruct l as [|[k c] l]; [done|]. unfold keys_of. cbn. set_solver. Qed.


Lemma silent_step x a : pend a = [] → notes (spec_step x a).2 = notes a → pend (spec_step x a).2 = [].
Proof.
  intros Hp Hn. rewrite notes_step, Hp in Hn. assert (Hd : due [] (changes x) = 0) by lia.
  assert (Hc : changes x = []) by (by destruct (changes x) as [|[k c] l]). clear Hd Hn.
  destruct x as [| | | | |ks batch]; cbn [spec_step snd spec_change pend]; rewrite ?Hp, ?Hc; [done..|].
  apply keys_of_nil. rewrite keys_of_pops, Hp. unfold keys_of. cbn. set_solver.
Qed.
Lemma notes_steps_mono xs a : notes a ≤ notes (spec_steps xs a).2.
Proof.
  revert a. induction xs as [|x xs IH]; intros a; [done|]. cbn [spec_steps].
  pose proof (notes_step x a). destruct (spec_step x a) as [r a1]. specialize (IH a1).
  destruct (spec_steps xs a1) as [rs a2]. cbn [fst snd] in *. lia.
Qed.
Lemma silent_steps xs a : pend a = [] → notes (spec_steps xs a).2 = notes a → pend (spec_steps xs a).2 = [].
Proof.
  revert a. induction xs as [|x xs IH]; intros a Hp; [done|]. cbn [spec_steps].
  pose proof (silent_step x a Hp) as Hq. pose proof (notes_step x a) as Hs.
  destruct (spec_step x a) as [r a1]. pose proof (notes_steps_mono xs a1) as Hm. specialize (IH a1).
  destruct (spec_steps xs a1) as [rs a2]. cbn [fst snd] in *. intros Hn. apply IH; [apply Hq; lia|lia].
Qed.


(** Only the first consumer that takes a key gets its changes. *)
Lemma second_pops_empty st a ks batch : tracks t st a → keys_of (pend a) ⊆ list_to_set ks →
  ∃ replies st' n, runs (perform_all t [Pops ks batch; Pops [] batch]) st [replies; []] st' n ∧
    members st' (getKeySetName t) = ∅.
Proof.
  intros R Hks. destruct (perform_all_runs t Hsep [Pops ks batch; Pops [] batch] st a R) as (st' & n & Hrun & R' & _).
  cbn [spec_steps spec_step spec_pops] in *. pose proof (keys_of_pops ks a) as Hk.
  destruct (spec_pops ks a) as [r a']. cbn [fst snd] in *.
  exists r, st', n. split; [exact Hrun|]. rewrite (keyset_is _ _ _ _ R'), Hk. set_solver.
Qed.
End consumer.
