(* ===== verification/StateTableDemos.v ===== *)
(** The demo programs [producerstatetable_demo.cpp] and [consumerstatetable_demo.cpp] of
    [src/sonic/sonic-swss-common/codes] on the scripts of [StateTables], the traces that the
    notes show of them, and what [clear] does to a table with a longer name. *)

From S2P Require Import Prelude Redis RedisTable StateTables.
From Stdlib Require Import Ascii.

Local Abbreviation values := (list (string * string)).

Definition table_of (name : string) : table := Table name ":"%char "0".
Definition t : table := table_of "PSEUDOTABLE".

(** A command of [Table], which is no script. *)
Definition direct (f : gmap string value → gmap string value) : script unit :=
  λ r, (Some (), Redis (f (store r)) (monitor r)).
Definition for_each {A} (f : A → script unit) (l : list A) : script unit := foldr (λ x m, f x;; m) (mret ()) l.

(** * The producer *)

Definition k0 : string * string := ("key0", "value0").
Definition k1 : string * string := ("key1", "value1").
Definition k2 : string * string := ("key2", "value2").
Definition two_entries : list (string * values) := [("ENTRY1", [k0; k1]); ("ENTRY2", [k0; k1])].
Definition three_entries : list (string * values) := ("ENTRY0", [k0; k1; k2]) :: two_entries.

(** The temporary view of the demo: what [set] leaves in [m_tempViewState], and the keys that
    [apply_temp_view] sets and deletes there, as the notes show. *)
Definition temp_view : list (string * values) :=
  [("ENTRY0", [k0; ("key1", "value11"); ("key3", "value3")]); ("ENTRY3", [k0; k1])].
Definition view_to_set : list string := ["ENTRY0"; "ENTRY1"; "ENTRY2"; "ENTRY3"].
Definition view_to_del : list string := ["ENTRY0"; "ENTRY1"; "ENTRY2"].

Section programs.
Context `{RedisServer}.

Definition producer_part1 : script unit :=
  pst_set t "ENTRY0" [k0; k1];;
  pst_del t "ENTRY0".
Definition producer_part2 : script unit :=
  pst_set_all t two_entries;;
  pst_del_all t ["ENTRY1"; "ENTRY2"].
Definition producer_part3 : script unit :=
  pst_set_all t two_entries;;
  pst_clear t.
Definition producer_part4 : script unit :=
  for_each (λ p, direct (Table_set t p.1 p.2)) three_entries;;
  pst_apply t view_to_set view_to_del temp_view.
Definition producer_part5 : script unit :=
  pst_clear t;;
  for_each (λ k, direct (Table_del t k)) ["ENTRY1"; "ENTRY2"; "ENTRY0"].
Definition producer_main : script unit :=
  producer_part1;; producer_part2;; producer_part3;; producer_part4;; producer_part5.

(** * The consumer *)

Definition line : string := "----------------------------".
Definition field_line (fv : string * string) : string := String "009"%char fv.1 +:+ ": " +:+ fv.2.

(** [op_of]: the operation that [pops] puts beside the fields. *)
Definition print_vkco (op_of : values → string) (index : nat) (vkco : list (string * values)) : list string :=
  [""; line; tostring (S index) +:+ "th pop..."]%string ++
  (vkco ≫= λ kco, [kco.1; op_of kco.2] ++ (field_line <$> kco.2) ++ [""%string]) ++
  [""; line]%string.

Definition print_table_entry (entry : string) (st : gmap string value) : list string :=
  ["The table content for " +:+ getKeyName t entry +:+ ":"; ""; line; entry]%string ++
  match Table_get t entry st with
  | Some values => field_line <$> values
  | None => ["NOT EXIST..."]%string
  end ++ [""; line]%string.

Definition print_entry (entry : string) : script (list string) :=
  λ r, (Some (print_table_entry entry (store r)), r).

Definition first_input : values := [k0; k1; k2].
Definition second_input : values := [k0; ("key1", "value111"); ("key3", "value3")].

(** [pops] puts its result in place of what [vkco_output] held; the empty lines in front of
    the titles are left out. *)
Definition consumer_main (op_of : values → string) : script (list string) :=
  direct (Table_set t "ENTRY0" first_input);;
  o1 ← print_entry "ENTRY0";
  pst_set_all t [("ENTRY0", second_input)];;
  v1 ← cst_pops t ["ENTRY0"] 128; o2 ← print_entry "ENTRY0";
  pst_del_all t ["ENTRY0"];;
  v2 ← cst_pops t ["ENTRY0"] 128; o3 ← print_entry "ENTRY0";
  pst_set_all t [("ENTRY0", second_input)];;
  v3 ← cst_pops t ["ENTRY0"] 128;
  v4 ← cst_pops t [] 128;
  (λ r, for_each (λ k, direct (Table_del t k)) (Table_getKeys t (store r)) r);;
  pst_clear t;;
  mret (o1 ++
    ["After first set: "%string] ++ print_vkco op_of 0 v1 ++ o2 ++
    ["After first del: "%string] ++ print_vkco op_of 1 v2 ++ o3 ++
    ["After second set: "%string] ++ print_vkco op_of 2 v3 ++ print_vkco op_of 3 v4).

End programs.

(** ** Runs on a server that records its commands *)

#[local] Existing Instance Executable.server.

Definition empty_db : redis := Redis ∅ [].
Definition demo_op (fvs : values) : string := match fvs with [] => "DEL" | _ => "SET" end.

(** * The traces of the notes *)

Definition log_of (m : script unit) (r : redis) : list (list string) := drop (length (monitor r)) (monitor (m r).2).

(** The second script publishes nothing: [ENTRY0] is in the key set already. *)
Example set_del_trace : log_of producer_part1 empty_db =
  [["SADD"; "PSEUDOTABLE_KEY_SET"; "ENTRY0"];
   ["HSET"; "_PSEUDOTABLE:ENTRY0"; "key0"; "value0"];
   ["HSET"; "_PSEUDOTABLE:ENTRY0"; "key1"; "value1"];
   ["PUBLISH"; "PSEUDOTABLE_CHANNEL@0"; "G"];
   ["SADD"; "PSEUDOTABLE_KEY_SET"; "ENTRY0"];
   ["SADD"; "PSEUDOTABLE_DEL_SET"; "ENTRY0"];
   ["DEL"; "_PSEUDOTABLE:ENTRY0"]]%string.
Proof. vm_compute. reflexivity. Qed.

Definition after_part1 : redis := (producer_part1 empty_db).2.
Definition after_part2 : redis := (producer_part2 after_part1).2.

Example batched_trace : log_of producer_part2 after_part1 =
  [["SADD"; "PSEUDOTABLE_KEY_SET"; "ENTRY1"];
   ["HSET"; "_PSEUDOTABLE:ENTRY1"; "key0"; "value0"];
   ["HSET"; "_PSEUDOTABLE:ENTRY1"; "key1"; "value1"];
   ["SADD"; "PSEUDOTABLE_KEY_SET"; "ENTRY2"];
   ["HSET"; "_PSEUDOTABLE:ENTRY2"; "key0"; "value0"];
   ["HSET"; "_PSEUDOTABLE:ENTRY2"; "key1"; "value1"];
   ["PUBLISH"; "PSEUDOTABLE_CHANNEL@0"; "G"];
   ["SADD"; "PSEUDOTABLE_KEY_SET"; "ENTRY1"];
   ["SADD"; "PSEUDOTABLE_DEL_SET"; "ENTRY1"];
   ["DEL"; "_PSEUDOTABLE:ENTRY1"];
   ["SADD"; "PSEUDOTABLE_KEY_SET"; "ENTRY2"];
   ["SADD"; "PSEUDOTABLE_DEL_SET"; "ENTRY2"];
   ["DEL"; "_PSEUDOTABLE:ENTRY2"]]%string.
Proof. vm_compute. reflexivity. Qed.

Example apply_trace : log_of producer_part4 (producer_part3 after_part2).2 =
  [["SADD"; "PSEUDOTABLE_KEY_SET"; "ENTRY0"];
   ["SADD"; "PSEUDOTABLE_KEY_SET"; "ENTRY1"];
   ["SADD"; "PSEUDOTABLE_KEY_SET"; "ENTRY2"];
   ["SADD"; "PSEUDOTABLE_KEY_SET"; "ENTRY3"];
   ["SADD"; "PSEUDOTABLE_DEL_SET"; "ENTRY0"];
   ["SADD"; "PSEUDOTABLE_DEL_SET"; "ENTRY1"];
   ["SADD"; "PSEUDOTABLE_DEL_SET"; "ENTRY2"];
   ["HSET"; "_PSEUDOTABLE:ENTRY0"; "key0"; "value0"];
   ["HSET"; "_PSEUDOTABLE:ENTRY0"; "key1"; "value11"];
   ["HSET"; "_PSEUDOTABLE:ENTRY0"; "key3"; "value3"];
   ["HSET"; "_PSEUDOTABLE:ENTRY3"; "key0"; "value0"];
   ["HSET"; "_PSEUDOTABLE:ENTRY3"; "key1"; "value1"];
   ["PUBLISH"; "PSEUDOTABLE_CHANNEL@0"; "G"]]%string.
Proof. vm_compute. reflexivity. Qed.

(** The producer leaves the database as it was: empty. *)
Example producer_main_clean : (producer_main empty_db).1 = Some () ∧ store (producer_main empty_db).2 = ∅.
Proof. vm_compute. done. Qed.

(** The consumer: the fields set are merged into the entry, only they are returned, and the
    second consumer gets nothing. *)
Example consumer_main_output : (consumer_main demo_op empty_db).1 = Some
  ["The table content for PSEUDOTABLE:ENTRY0:"; ""; line; "ENTRY0"; "	key1: value1"; "	key2: value2"; "	key0: value0"; ""; line;
   "After first set: "; ""; line; "1th pop..."; "ENTRY0"; "SET"; "	key3: value3"; "	key1: value111"; "	key0: value0"; ""; ""; line;
   "The table content for PSEUDOTABLE:ENTRY0:"; ""; line; "ENTRY0";
   "	key3: value3"; "	key1: value111"; "	key2: value2"; "	key0: value0"; ""; line;
   "After first del: "; ""; line; "2th pop..."; "ENTRY0"; "DEL"; ""; ""; line;
   "The table content for PSEUDOTABLE:ENTRY0:"; ""; line; "ENTRY0"; "NOT EXIST..."; ""; line;
   "After second set: "; ""; line; "3th pop..."; "ENTRY0"; "SET"; "	key3: value3"; "	key1: value111"; "	key0: value0"; ""; ""; line;
   ""; line; "4th pop..."; ""; line]%string ∧ store (consumer_main demo_op empty_db).2 = ∅.
Proof. vm_compute. done. Qed.

(** * [clear] and a table with a longer name *)

(** [clear] deletes every key that begins with [_] and the name of its table. That takes the
    temporary entries of any table whose name begins with the same letters. *)
Lemma clear_takes_longer_names `{RedisServer} t1 t2 s k st :
  m_tableName t2 = m_tableName t1 +:+ s → clear_store t1 st !! getStateName t2 k = None.
Proof.
  intros Hname. rewrite clear_store_lookup, decide_True; [done|]. right; right.
  unfold getStateName, getKeyName. rewrite Hname, <- string_app_assoc, string_app_assoc. apply prefix_app.
Qed.

(** So a change of [PORT_TABLE] that waits is lost when [PORT] is cleared: the consumer takes
    the key, and the entry is not there. *)
Definition port_main `{RedisServer} : script (list (string * values)) :=
  pst_set (table_of "PORT_TABLE") "Ethernet0" [k0];;
  pst_clear (table_of "PORT");;
  cst_pops (table_of "PORT_TABLE") ["Ethernet0"]%string 128.
Example clear_loses_change :
  (port_main empty_db).1 = Some [("Ethernet0", [])]%string ∧ store (port_main empty_db).2 = ∅.
Proof. vm_compute. done. Qed.

(** * The theorems on the demo's table *)

Lemma idle_empty t : idle t ∅.
Proof. constructor; try done. intros k. cbn. rewrite elem_of_nil. set_solver. Qed.

(** [set, set, del] and [del, set, set] of one key: the same two sets, different results. *)
Definition two_orders : list action :=
  [Set_one "A" [k0]; Set_one "A" [k1]; Del_one "A"; Del_one "B"; Set_one "B" [k0]; Set_one "B" [k1];
   Pops ["B"; "A"] 128]%string.


