(* ===== verification/QueueTables.v ===== *)
(** [ProducerTable] and [ConsumerTable] of SONiC, from the scripts that
    [src/sonic/sonic-swss-common/produertable_and_consumertable.md] quotes, with
    [producertable_demo.cpp]; and [NotificationProducer] and [NotificationConsumer], from the
    code in [notificationproducer_and_notificationconsumer.md], with
    [notificationproducer_demo.cpp].

    JSON text is left to [Json]: what is built is what is read back. The branch of the bulk
    operations, which the notes leave out, is an argument. *)

From S2P Require Import Prelude Redis RedisTable.
From Stdlib Require Import Ascii.

Local Abbreviation values := (list (string * string)).

(** * JSON *)

Class Json {A B : Type} (as_read : A → B) (none : B) : Type := {
  buildJson : A → string;
  decodeJson : string → B;
  decode_build a : decodeJson (buildJson a) = as_read a;
  decode_empty : decodeJson "{}" = none
}.

(** An encoding with these laws, for closed examples: the digits of a number. *)
Fixpoint digits (p : positive) : string :=
  match p with xH => "" | xO p => String "0" (digits p) | xI p => String "1" (digits p) end.
Fixpoint number (s : string) : positive :=
  match s with
  | "" => 1
  | String c s => if Ascii.eqb c "0" then (number s)~0 else (number s)~1
  end%string%positive.
Lemma number_digits p : number (digits p) = p.
Proof. induction p as [p IH|p IH|]; cbn; by rewrite ?IH. Qed.
Lemma digits_not_braces p : digits p ≠ "{}".
Proof. by destruct p. Qed.
Definition digits_json {A B} `{Countable A} (f : A → B) (none : B) : Json f none.
Proof.
  refine {| buildJson a := digits (encode a);
    decodeJson s := if decide (s = "{}"%string) then none else from_option f none (decode (number s)) |}.
  - intros a. rewrite decide_False by apply digits_not_braces. by rewrite number_digits, decode_encode.
  - by rewrite decide_True.
Defined.

Section queue.
Context `{RedisServer}.

(** * The scripts of the queue *)

Definition enqueue_lua (KEYS ARGV : list string) : script unit :=
  k1 ← at_ KEYS 1; a1 ← at_ ARGV 1; a2 ← at_ ARGV 2; a3 ← at_ ARGV 3;
  LPUSH3 k1 a1 a2 a3;;
  k2 ← at_ KEYS 2; a4 ← at_ ARGV 4; PUBLISH k2 a4.

(** [op:sub(1,1)] and [op:sub(2)]. *)
Definition first_char (s : string) : string := match s with String c _ => String c "" | "" => "" end%string.
Definition but_first (s : string) : string := match s with String _ s => s | "" => "" end%string.

(** The operations that change the table, and those that the notes leave out. *)
Definition plain_op (op : string) : bool := bool_decide (op ∈ ["set"; "SET"; "create"; "remove"; "DEL"]%string).
Definition bulk_op (op : string) : bool := bool_decide (op ∈ ["bulkset"; "bulkcreate"; "bulkremove"]%string).

Section scripts.
Context {json : Json flat_values (@nil string)} (bulk : list string → script unit).

(** What one message does to the database. [ret] is the key, the operation and the fields. *)
Definition modify_lua (table dbop op key : string) (ret : list string) : script unit :=
  if bulk_op op then bulk ret
  else if plain_op op then
    let keyname := if String.eqb key "" then table else (table +:+ ":" +:+ key) in
    if String.eqb dbop "D" then DEL keyname
    else lua_for 0 (Nat.div2 (length ret - 1)) (λ j,
      f ← at_ ret (3 + j * 2); v ← at_ ret (4 + j * 2); HSET keyname f v)
  else lua_error.

Definition queue_pops_lua (KEYS ARGV : list string) : script (list (list string)) :=
  a1 ← at_ ARGV 1; size ← tonumber a1;
  let popsize := size * 3 in
  k1 ← at_ KEYS 1;
  keys ← LRANGE_last k1 popsize;
  LTRIM_last k1 popsize;;
  let n := length keys in
  lua_for_with 0 ((n + 2) / 3) (λ j rets,
    let i := n - 3 * j in
    op ← at_ keys (i - 2); value ← at_ keys (i - 1); key ← at_ keys i;
    let dbop := first_char op in let op := but_first op in
    let ret := key :: op :: decodeJson value in
    a2 ← at_ ARGV 2; k2 ← at_ KEYS 2;
    (if String.eqb a2 "0" then mret () else modify_lua k2 dbop op key ret);;
    mret (rets ++ [ret])) [].

(** * The operations *)

Context (t : table).

(** A message: [set] with the operation and the fields, or [del] with the operation. *)
Inductive message : Type := MSet (key : string) (fvs : values) (op : string) | MDel (key op : string).

Definition enqueueDbChange (key value op : string) : script unit :=
  enqueue_lua [getKeyValueOpQueueTableName t; getChannelName t] [key; value; op; "G"%string].
Definition pt_send (m : message) : script unit :=
  match m with
  | MSet key fvs op => enqueueDbChange key (buildJson fvs) ("S" +:+ op)
  | MDel key op => enqueueDbChange key "{}" ("D" +:+ op)
  end.
(** [ConsumerTable::pops]. *)
Definition ct_pops (modifyRedis : bool) (batch : nat) : script (list (list string)) :=
  queue_pops_lua [getKeyValueOpQueueTableName t; m_tableName t] [tostring batch; if modifyRedis then "1" else "0"]%string.

(** What a program does to the queue. *)
Inductive queue_action : Type := Send (m : message) | Pop (batch : nat).
Definition queue_perform (x : queue_action) : script (list (list string)) :=
  match x with Send m => pt_send m;; mret [] | Pop n => ct_pops true n end.
Fixpoint queue_perform_all (xs : list queue_action) : script (list (list string)) :=
  match xs with
  | [] => mret []
  | x :: xs => r ← queue_perform x; rs ← queue_perform_all xs; mret (r ++ rs)
  end.

(** * What they promise *)

(** The three elements of a message, the newest message first in the list. *)
Definition triple (m : message) : string * string * string :=
  match m with
  | MSet key fvs op => (key, buildJson fvs, "S" +:+ op)
  | MDel key op => (key, "{}", "D" +:+ op)
  end%string.
Fixpoint queue_of (q : list message) : list string :=
  match q with [] => [] | m :: q => queue_of q ++ [(triple m).2; (triple m).1.2; (triple m).1.1] end.

(** What [pops] returns of a message. *)
Definition answer (m : message) : list string :=
  match m with MSet key fvs op => key :: op :: flat_values fvs | MDel key op => [key; op] end.
Definition op_of (m : message) : string := match m with MSet _ _ op | MDel _ op => op end.
Definition key_of (m : message) : string := match m with MSet k _ _ | MDel k _ => k end.

(** The name of the hash that a message changes: the separator is a colon. *)
Definition entry_name (key : string) : string :=
  if String.eqb key "" then m_tableName t else (m_tableName t +:+ ":" +:+ key).
Definition effect (m : message) (h : gmap string string) : gmap string string :=
  match m with MSet _ fvs _ => hset_all fvs h | MDel _ _ => ∅ end.
Definition effects (k : string) (ms : list message) (h : gmap string string) : gmap string string :=
  foldl (λ h m, if decide (key_of m = k) then effect m h else h) h ms.
Definition effect_store (m : message) (st : gmap string value) : gmap string value :=
  match m with
  | MSet k fvs _ => hset_store (entry_name k) fvs st
  | MDel k _ => delete (entry_name k) st
  end.

Definition sent (xs : list queue_action) : list message := omap (λ x, match x with Send m => Some m | Pop _ => None end) xs.
(** How many of the pending messages are popped. *)
Fixpoint popped (pending : nat) (xs : list queue_action) : nat :=
  match xs with
  | [] => 0
  | Send _ :: xs => popped (S pending) xs
  | Pop n :: xs => Nat.min n pending + popped (pending - n) xs
  end.

Lemma queue_of_app a b : queue_of (a ++ b) = queue_of b ++ queue_of a.
Proof. induction a as [|m a IH]; cbn; [by rewrite (right_id_L [] (++))|]. by rewrite IH, (assoc_L (++)). Qed.
Lemma queue_of_length q : length (queue_of q) = length q * 3.
Proof. induction q as [|m q IH]; cbn; [done|]. rewrite length_app, IH. cbn. lia. Qed.
Lemma queue_of_split q n :
  queue_of q = queue_of (drop n q) ++ queue_of (take n q) ∧
  length (queue_of q) - n * 3 = length (queue_of (drop n q)).
Proof.
  split; [by rewrite <- queue_of_app, take_drop|]. rewrite !queue_of_length, length_drop. lia.
Qed.
Lemma queue_of_last q n : drop (length (queue_of q) - n * 3) (queue_of q) = queue_of (take n q).
Proof. destruct (queue_of_split q n) as [Heq ->]. rewrite Heq at 1. apply drop_app_length. Qed.
Lemma queue_of_rest q n : take (length (queue_of q) - n * 3) (queue_of q) = queue_of (drop n q).
Proof. destruct (queue_of_split q n) as [Heq ->]. rewrite Heq at 1. apply take_app_length. Qed.

Lemma string_app_nil s : s +:+ "" = s.
Proof. induction s as [|c s IH]; [done|]. change (String c (s +:+ "") = String c s). by rewrite IH. Qed.
Lemma queue_name_entry k : getKeyValueOpQueueTableName t ≠ entry_name k.
Proof.
  unfold getKeyValueOpQueueTableName, entry_name. destruct (String.eqb k ""); [|by intros [=]%(inj _)].
  rewrite <- (string_app_nil (m_tableName t)) at 2. by intros [=]%(inj _).
Qed.
#[local] Instance entry_name_inj : Inj (=) (=) entry_name.
Proof.
  intros k k'. unfold entry_name. destruct (String.eqb_spec k ""), (String.eqb_spec k' ""); try congruence.
  - rewrite <- (string_app_nil (m_tableName t)) at 1. by intros [=]%(inj _).
  - rewrite <- (string_app_nil (m_tableName t)) at 2. by intros [=]%(inj _).
  - by intros [= ?]%(inj _).
Qed.

Lemma plain_not_bulk op : plain_op op = true → bulk_op op = false.
Proof.
  unfold plain_op, bulk_op. intros Hop%bool_decide_eq_true. apply bool_decide_eq_false.
  intros Hb. set_unfold in Hop. set_unfold in Hb. naive_solver.
Qed.

(** ** Runs *)

(** The database holds the queue [q] and hashes as entries. *)
Record queue_ok (st : gmap string value) (q : list message) : Prop := {
  queue_holds : holds_queue st (getKeyValueOpQueueTableName t);
  queue_is : entries st (getKeyValueOpQueueTableName t) = queue_of q;
  hashes_hold k : holds_hash st (entry_name k)
}.

Ltac get := eapply runs_bind; [by apply runs_at|].

Definition send_store (m : message) (st : gmap string value) : gmap string value :=
  put_queue (getKeyValueOpQueueTableName t)
    ((triple m).2 :: (triple m).1.2 :: (triple m).1.1 :: entries st (getKeyValueOpQueueTableName t)) st.

Lemma send_runs st q m : queue_ok st q →
  runs (pt_send m) st () (send_store m st) 1 ∧ queue_ok (send_store m st) (q ++ [m]) ∧
  ∀ k, fields (send_store m st) (entry_name k) = fields st (entry_name k).
Proof.
  intros Q. assert (Hne : ∀ k, send_store m st !! entry_name k = st !! entry_name k).
  { intros k. apply put_queue_ne, queue_name_entry. }
  split_all.
  - destruct m as [k fvs op|k op]; cbn [pt_send]; unfold enqueueDbChange, enqueue_lua;
      (eapply runs_eq; [do 4 get; (eapply runs_bind; [apply runs_LPUSH, Q|]); do 2 get; apply runs_PUBLISH|done..]).
  - constructor.
    + apply put_queue_holds.
    + unfold send_store. rewrite put_queue_eq, (queue_is _ _ Q), queue_of_app. done.
    + intros k. eapply holds_hash_lookup; [apply Hne|apply Q].
  - intros k. apply fields_lookup, Hne.
Qed.

Lemma effect_store_ne m st k : k ≠ entry_name (key_of m) → effect_store m st !! k = st !! k.
Proof. intros Hk. destruct m; cbn; [by apply hset_store_ne, not_eq_sym|by apply lookup_delete_ne, not_eq_sym]. Qed.
Lemma effect_store_ok m st q : queue_ok st q → queue_ok (effect_store m st) q.
Proof.
  intros Q. assert (Hq : effect_store m st !! getKeyValueOpQueueTableName t = st !! getKeyValueOpQueueTableName t).
  { apply effect_store_ne, queue_name_entry. }
  constructor.
  - eapply holds_queue_lookup; [exact Hq|apply Q].
  - rewrite (entries_lookup _ _ _ Hq). apply Q.
  - intros k. destruct (decide (k = key_of m)) as [->|Hk].
    + destruct m; cbn; [apply hset_store_holds, Q|apply delete_holds_hash].
    + eapply holds_hash_lookup; [apply effect_store_ne; by intros ?%(inj _)|apply Q].
Qed.
Lemma effect_store_fields m st k :
  fields (effect_store m st) (entry_name k) = if decide (key_of m = k) then effect m (fields st (entry_name k)) else fields st (entry_name k).
Proof.
  case_decide as Hk.
  - subst k. destruct m; cbn; [apply hset_store_eq|apply delete_fields].
  - apply fields_lookup, effect_store_ne. by intros ?%(inj _).
Qed.

Lemma modify_runs st q m table : queue_ok st q → plain_op (op_of m) = true → table = m_tableName t →
  runs (modify_lua table (first_char (triple m).2) (op_of m) (key_of m) (answer m)) st () (effect_store m st) 0.
Proof.
  intros Q Hop ->. unfold modify_lua. rewrite (plain_not_bulk _ Hop), Hop.
  fold (entry_name (key_of m)). destruct m as [k fvs op|k op]; cbn [triple snd]; [|apply runs_DEL].
  change (String.eqb (first_char ("S" +:+ op)) "D") with false. cbn iota.
  replace (Nat.div2 (length (answer (MSet k fvs op)) - 1)) with (length fvs).
  2:{ cbn [answer length]. rewrite flat_values_length.
      replace (S (S (length fvs * 2)) - 1) with (S (2 * length fvs)) by lia. by rewrite Nat.div2_succ_double. }
  apply runs_hset_loop; [apply Q|]. intros i fv st' Hi Hst'. destruct (flat_values_lookup _ _ _ Hi) as [Hf Hv].
  eapply runs_eq; [|done|done|].
  - eapply runs_bind; [apply runs_at; exact Hf|].
    eapply runs_bind; [apply runs_at; exact Hv|]. destruct fv. by apply runs_HSET.
  - done.
Qed.

(** The elements of one message in the list that [LRANGE] gives. *)
Lemma queue_of_lookup dn m rest :
  let l := queue_of (dn ++ m :: rest) in let i := length l - 3 * length dn in
  3 ≤ i ∧ l !! pred (i - 2) = Some (triple m).2 ∧ l !! pred (i - 1) = Some (triple m).1.2 ∧ l !! pred i = Some (triple m).1.1.
Proof.
  cbn zeta. rewrite queue_of_length, length_app. cbn [length].
  replace ((length dn + S (length rest)) * 3 - 3 * length dn) with (3 + length (queue_of rest)) by (rewrite queue_of_length; lia).
  replace (queue_of (dn ++ m :: rest)) with (queue_of rest ++ [(triple m).2; (triple m).1.2; (triple m).1.1] ++ queue_of dn).
  2:{ rewrite queue_of_app. cbn [queue_of]. by rewrite <- (assoc_L (++)). }
  split_all; [lia|..].
  - by rewrite lookup_app_r; replace (pred (3 + length (queue_of rest) - 2)) with (length (queue_of rest)) by lia; [rewrite Nat.sub_diag|].
  - replace (pred (3 + length (queue_of rest) - 1)) with (length (queue_of rest) + 1) by lia.
    by rewrite lookup_app_r, Nat.add_sub' by lia.
  - replace (pred (3 + length (queue_of rest))) with (length (queue_of rest) + 2) by lia.
    by rewrite lookup_app_r, Nat.add_sub' by lia.
Qed.

Lemma triple_read m : first_char (triple m).2 +:+ op_of m = (triple m).2 ∧ but_first (triple m).2 = op_of m ∧
  key_of m :: op_of m :: decodeJson (triple m).1.2 = answer m ∧ (triple m).1.1 = key_of m.
Proof. destruct m; cbn; by rewrite ?decode_build, ?decode_empty. Qed.

Local Abbreviation pop_body ARGV KEYS keys n := (λ j rets,
    let i := n - 3 * j in
    op ← at_ keys (i - 2); value ← at_ keys (i - 1); key ← at_ keys i;
    let dbop := first_char op in let op := but_first op in
    let ret := key :: op :: decodeJson value in
    a2 ← at_ ARGV 2; k2 ← at_ KEYS 2;
    (if String.eqb a2 "0" then mret () else modify_lua k2 dbop op key ret);;
    mret (rets ++ [ret])).

Lemma queue_pop_body_runs KEYS ARGV dn m rest rets st q :
  queue_ok st q → plain_op (op_of m) = true → KEYS !! 1 = Some (m_tableName t) → ARGV !! 1 = Some "1"%string →
  let keys := queue_of (dn ++ m :: rest) in
  runs (pop_body ARGV KEYS keys (length keys) (length dn) rets) st (rets ++ [answer m]) (effect_store m st) 0.
Proof.
  intros Q Hop Hk Ha keys. destruct (queue_of_lookup dn m rest) as (Hi & H1 & H2 & H3). fold keys in Hi, H1, H2, H3.
  destruct (triple_read m) as (_ & Hb & Hret & Hkey). cbn zeta.
  eapply runs_eq; [|reflexivity|reflexivity|].
  - eapply runs_bind; [apply runs_at'; [lia|exact H1]|].
    eapply runs_bind; [apply runs_at'; [lia|exact H2]|].
    eapply runs_bind; [apply runs_at'; [lia|exact H3]|].
    get. get. rewrite Hb, Hkey, Hret. eapply runs_bind; [|apply runs_ret]. by eapply modify_runs.
  - done.
Qed.

Lemma queue_pop_loop_runs KEYS ARGV ms : ∀ dn rets st q,
  queue_ok st q → Forall (λ m, plain_op (op_of m) = true) ms → KEYS !! 1 = Some (m_tableName t) → ARGV !! 1 = Some "1"%string →
  let keys := queue_of (dn ++ ms) in
  ∃ st', runs (lua_for_with (length dn) (length ms) (pop_body ARGV KEYS keys (length keys)) rets) st
      (rets ++ (answer <$> ms)) st' 0 ∧
    queue_ok st' q ∧ ∀ k, fields st' (entry_name k) = effects k ms (fields st (entry_name k)).
Proof.
  induction ms as [|m ms IH]; intros dn rets st q Q Hops Hk Ha keys.
  { exists st. cbn. rewrite (right_id_L [] (++)). split_all; [apply runs_ret|done|done]. }
  apply Forall_cons in Hops as [Hop Hops].
  destruct (IH (dn ++ [m]) (rets ++ [answer m]) (effect_store m st) q) as (st' & Hrun & Q' & Hf); [by apply effect_store_ok|done..|].
  rewrite <- (assoc_L (++)) in Hrun. change ([m] ++ ms) with (m :: ms) in Hrun. fold keys in Hrun.
  exists st'. split_all; [|done|].
  - cbn [length lua_for_with fmap list_fmap]. eapply runs_eq; [|done|done|apply (Nat.add_0_l 0)].
    eapply runs_bind; [by eapply queue_pop_body_runs|].
    replace (S (length dn)) with (length (dn ++ [m])) by (rewrite length_app; cbn; lia).
    eapply runs_eq; [exact Hrun| |done|done]. by rewrite <- (assoc_L (++)).
  - intros k. rewrite Hf, effect_store_fields. cbn. done.
Qed.

Lemma ct_pops_runs st q n : queue_ok st q → Forall (λ m, plain_op (op_of m) = true) q →
  ∃ st', runs (ct_pops true n) st (answer <$> take n q) st' 0 ∧ queue_ok st' (drop n q) ∧
    ∀ k, fields st' (entry_name k) = effects k (take n q) (fields st (entry_name k)).
Proof.
  intros Q Hops.
  set (st1 := put_queue (getKeyValueOpQueueTableName t) (queue_of (drop n q)) st).
  assert (Hne : ∀ k, st1 !! entry_name k = st !! entry_name k) by (intros k; apply put_queue_ne, queue_name_entry).
  assert (Q1 : queue_ok st1 (drop n q)).
  { constructor; [apply put_queue_holds|apply put_queue_eq|].
    intros k. eapply holds_hash_lookup; [apply Hne|apply Q]. }
  set (KEYS := [getKeyValueOpQueueTableName t; m_tableName t]). set (ARGV := [tostring n; "1"%string]).
  destruct (queue_pop_loop_runs KEYS ARGV (take n q) [] [] st1 _ Q1) as (st' & Hrun & Q' & Hf); [by apply Forall_take|done..|].
  exists st'. split_all; [|done|].
  - unfold ct_pops, queue_pops_lua. eapply runs_eq; [|reflexivity|reflexivity|].
    + get. eapply runs_bind; [apply runs_tonumber|]. get.
      eapply runs_bind; [apply runs_LRANGE, Q|]. rewrite (queue_is _ _ Q), queue_of_last.
      eapply runs_bind; [eapply runs_eq; [apply runs_LTRIM, Q|reflexivity| |reflexivity]; by rewrite (queue_is _ _ Q), queue_of_rest|].
      replace ((length (queue_of (take n q)) + 2) / 3) with (length (take n q)); [exact Hrun|].
      rewrite queue_of_length. apply (Nat.div_unique _ _ _ 2); lia.
    + done.
  - intros k. rewrite Hf. f_equal. apply fields_lookup, Hne.
Qed.

Lemma effects_app k a b h : effects k (a ++ b) h = effects k b (effects k a h).
Proof. apply foldl_app. Qed.

Lemma queue_perform_all_runs xs : ∀ st q,
  queue_ok st q → Forall (λ m, plain_op (op_of m) = true) (q ++ sent xs) →
  let n := popped (length q) xs in
  ∃ st', runs (queue_perform_all xs) st (answer <$> take n (q ++ sent xs)) st' (length (sent xs)) ∧
    queue_ok st' (drop n (q ++ sent xs)) ∧
    ∀ k, fields st' (entry_name k) = effects k (take n (q ++ sent xs)) (fields st (entry_name k)).
Proof.
  induction xs as [|x xs IH]; intros st q Q Hops; cbn zeta.
  { exists st. cbn [popped sent omap list_omap]. rewrite (right_id_L [] (++)), drop_0.
    split_all; [apply runs_ret|done|done]. }
  destruct x as [m|n].
  - destruct (send_runs st q m Q) as (Hrun & Q1 & Hf1).
    destruct (IH _ _ Q1) as (st' & Hrun2 & Q2 & Hf2); [by rewrite <- (assoc_L (++))|].
    rewrite length_app, Nat.add_1_r, <- (assoc_L (++)) in Hrun2, Q2, Hf2. exists st'. split_all; [|done|].
    + cbn [queue_perform_all queue_perform]. eapply runs_eq; [|reflexivity|reflexivity|].
      * eapply runs_bind; [eapply runs_bind; [exact Hrun|apply runs_ret]|].
        eapply runs_bind; [exact Hrun2|apply runs_ret].
      * change (sent (Send m :: xs)) with (m :: sent xs). cbn [length]. lia.
    + intros k. rewrite Hf2, Hf1. done.
  - change (sent (Pop n :: xs)) with (sent xs) in *. cbn [popped].
    destruct (ct_pops_runs st q n Q) as (st1 & Hrun & Q1 & Hf1); [by apply Forall_app in Hops as [? _]|].
    destruct (IH _ _ Q1) as (st' & Hrun2 & Q2 & Hf2).
    { apply Forall_app in Hops as [??]. apply Forall_app. split; [by apply Forall_drop|done]. }
    rewrite length_drop in Hrun2, Q2, Hf2. set (p := popped (length q - n) xs) in *.
    assert (Ht : take (Nat.min n (length q) + p) (q ++ sent xs) = take n q ++ take p (drop n q ++ sent xs) ∧
                 drop (Nat.min n (length q) + p) (q ++ sent xs) = drop p (drop n q ++ sent xs)).
    { assert (Hq : q ++ sent xs = take n q ++ (drop n q ++ sent xs)) by (by rewrite (assoc_L (++)), take_drop).
      rewrite Hq. replace (Nat.min n (length q)) with (length (take n q)) by apply length_take.
      split; [apply take_app_add|apply drop_app_add]. }
    destruct Ht as [-> ->]. exists st'. split_all; [|done|].
    + cbn [queue_perform_all queue_perform]. rewrite fmap_app. eapply runs_eq; [|reflexivity|reflexivity|].
      * eapply runs_bind; [exact Hrun|]. eapply runs_bind; [exact Hrun2|apply runs_ret].
      * cbn. lia.
    + intros k. by rewrite Hf2, Hf1, effects_app.
Qed.


(** An operation that is not supported ends the script after the queue was trimmed: its
    message and those behind it in the batch are gone, and nobody has got them. *)
Lemma unsupported_loses_batch st m rest q :
  queue_ok st ((m :: rest) ++ q) → plain_op (op_of m) = false → bulk_op (op_of m) = false →
  fails (ct_pops true (S (length rest))) st (put_queue (getKeyValueOpQueueTableName t) (queue_of q) st).
Proof.
  intros Q Hop Hbulk. set (ms := m :: rest) in *. change (S (length rest)) with (length ms).
  destruct (queue_of_lookup [] m rest) as (Hi & H1 & H2 & H3). change ([] ++ m :: rest) with ms in Hi, H1, H2, H3.
  destruct (triple_read m) as (_ & Hb & Hret & Hkey).
  unfold ct_pops, queue_pops_lua.
  eapply fails_later; [by apply runs_at|]. eapply fails_later; [apply runs_tonumber|].
  eapply fails_later; [by apply runs_at|]. eapply fails_later; [apply runs_LRANGE, Q|].
  rewrite (queue_is _ _ Q), queue_of_last, take_app_length.
  eapply fails_later; [apply runs_LTRIM, Q|]. rewrite (queue_is _ _ Q), queue_of_rest, drop_app_length.
  replace ((length (queue_of ms) + 2) / 3) with (length ms) by (rewrite queue_of_length; apply (Nat.div_unique _ _ _ 2); lia).
  change (length ms) with (S (length rest)). cbn [lua_for_with]. apply fails_here. cbn zeta.
  eapply fails_later; [apply runs_at'; [lia|exact H1]|].
  eapply fails_later; [apply runs_at'; [lia|exact H2]|].
  eapply fails_later; [apply runs_at'; [lia|exact H3]|].
  do 2 (eapply fails_later; [by apply runs_at|]). apply fails_here.
  change (String.eqb "1" "0") with false. cbn iota. unfold modify_lua. rewrite Hb, Hop, Hbulk. apply fails_error.
Qed.

(** The entries are stored under a colon, whatever the separator of the table is. *)
Lemma entry_name_colon k : k ≠ ""%string → m_tableSeparator t = ":"%char → entry_name k = getKeyName t k.
Proof. intros Hk Hs. unfold entry_name, getKeyName. rewrite Hs. by destruct (String.eqb_spec k ""). Qed.
Lemma entry_name_other k k' : k ≠ ""%string → m_tableSeparator t ≠ ":"%char → entry_name k ≠ getKeyName t k'.
Proof.
  intros Hk Hs. unfold entry_name, getKeyName. destruct (String.eqb_spec k ""); [done|]. by intros [=]%(inj _).
Qed.
End scripts.

End queue.

Arguments entry_name : simpl never.

(** * [producertable_demo.cpp] *)

Section demo.
Context `{RedisServer} {json : Json flat_values (@nil string)} (bulk : list string → script unit).

Definition demo_table : table := Table "PSEUDOTABLE" ":"%char "0".
Definition demo_sends : list queue_action :=
  [Send (MSet "ENTRY0" [("key0", "value0"); ("key1", "value1")] "SET");
   Send (MSet "ENTRY0" [("key1", "value11"); ("key2", "value2")] "SET"); Pop 128]%string.

Definition delete_entries : script unit :=
  λ r, (Some (), Redis (foldr (Table_del demo_table) (store r) (Table_getKeys demo_table (store r))) (monitor r)).

(** Both operations are popped, one after the other; the entry has the fields of both, and
    is deleted at the end. *)
Definition producertable_main : script (list (list string)) :=
  r ← queue_perform_all bulk demo_table demo_sends;
  delete_entries;;
  mret r.
End demo.

#[local] Existing Instance Executable.server.
#[local] Instance closed_json : Json flat_values (@nil string) := digits_json flat_values [].

Example producertable_main_pops :
  let r := producertable_main (λ _, lua_error) (Redis ∅ []) in
  r.1 = Some [["ENTRY0"; "SET"; "key0"; "value0"; "key1"; "value1"]; ["ENTRY0"; "SET"; "key1"; "value11"; "key2"; "value2"]]%string ∧
  store r.2 = ∅.
Proof. vm_compute. done. Qed.

Lemma queue_ok_empty t : queue_ok t ∅ [].
Proof. done. Qed.


(** * Notifications *)

(** The consumer: the messages it holds, and those that its socket has not given it yet. *)
Record notification : Type := Notification { n_op : string; n_data : string; n_values : values }.
#[export] Instance notification_eq_dec : EqDecision notification.
Proof. solve_decision. Defined.

Record consumer : Type := Consumer { m_queue : list string; socket : list string }.

Section notifications.
Context {json : Json (λ m : notification, m) (Notification "" "" [])} (POP_BATCH_SIZE : nat).

(** [NotificationProducer::send]: the message is published as JSON. *)
Definition send (m : notification) (c : consumer) : consumer := Consumer (m_queue c) (socket c ++ [buildJson m]).

(** [readData]: one message of the socket. *)
Definition readData (c : consumer) : consumer :=
  match socket c with
  | [] => c
  | m :: s => Consumer (m_queue c ++ [m]) s
  end.

(** [pops]. [peeks] tells of every peek whether something has arrived; only then is there
    something to read. *)
Fixpoint notification_pops (peeks : list bool) (vkco : list notification) (c : consumer) : list notification * consumer :=
  match m_queue c with
  | [] => (vkco, c)
  | q =>
      let vkco := vkco ++ (decodeJson <$> q) in
      let c := Consumer [] (socket c) in
      if POP_BATCH_SIZE <=? length vkco then (vkco, c)
      else match peeks with
           | true :: peeks => notification_pops peeks vkco (readData c)
           | _ => (vkco, c)
           end
  end.

(** Whatever the peeks find: what is popped and what is left on the socket are the messages
    sent, in their order, and the consumer holds none back. (When it holds none to begin
    with, it does not look at the socket at all: [readData] has to come first.) *)
Lemma notification_order peeks vkco c : ∀ r c', notification_pops peeks vkco c = (r, c') →
  r ++ (decodeJson <$> (m_queue c' ++ socket c')) = vkco ++ (decodeJson <$> (m_queue c ++ socket c)) ∧
  (m_queue c' = []).
Proof.
  revert vkco c. induction peeks as [|p peeks IH]; intros vkco [q s] r c' Hp.
  - cbn in Hp. destruct q as [|x q]; [by simplify_eq|].
    rewrite if_same in Hp. simplify_eq. cbn. by rewrite <- (assoc_L (++)), fmap_app.
  - cbn in Hp. destruct q as [|x q]; [by simplify_eq|]. case_match.
    { simplify_eq. cbn. by rewrite <- (assoc_L (++)), fmap_app. }
    destruct p; [|simplify_eq; cbn; by rewrite <- (assoc_L (++)), fmap_app].
    apply IH in Hp as [-> ->]. split; [|done]. rewrite <- (assoc_L (++)). f_equal.
    destruct s as [|y s]; cbn; by rewrite !fmap_app.
Qed.

(** Sent and read: the consumer pops them as they were sent. *)
Lemma notification_roundtrip ms peeks : length ms <= length peeks → Forall (eq true) peeks → length ms < POP_BATCH_SIZE → ms ≠ [] →
  ∃ c', notification_pops peeks [] (readData (foldl (flip send) (Consumer [] []) ms)) = (ms, c').
Proof.
  intros Hl Hpeeks Hb Hne.
  assert (Hs : ∀ ms c, foldl (flip send) c ms = Consumer (m_queue c) (socket c ++ (buildJson <$> ms))).
  { clear. induction ms as [|m ms IH]; intros [q s]; cbn; [by rewrite (right_id_L [] (++))|].
    rewrite IH. cbn. by rewrite <- (assoc_L (++)). }
  rewrite Hs. cbn. clear Hs. destruct ms as [|m ms]; [done|]. clear Hne. cbn.
  assert (Hgen : ∀ ms m peeks vkco, length ms < length peeks → Forall (eq true) peeks → length vkco + S (length ms) < POP_BATCH_SIZE →
    ∃ c', notification_pops peeks vkco (Consumer [buildJson m] (buildJson <$> ms)) = (vkco ++ m :: ms, c')).
  { clear -json. induction ms as [|m' ms IH]; intros m peeks vkco Hl Hp Hb; destruct peeks as [|p peeks]; cbn in Hl; try lia;
      apply Forall_cons in Hp as [<- Hp]; cbn; rewrite decode_build;
      destruct (Nat.leb_spec POP_BATCH_SIZE (length (vkco ++ [m]))) as [Hle|_]; [rewrite length_app in Hle; cbn in *; lia| |rewrite length_app in Hle; cbn in *; lia|].
    - eexists. by destruct peeks.
    - cbn. destruct (IH m' peeks (vkco ++ [m])) as [c' Hc]; [lia|done|rewrite length_app; cbn in *; lia|].
      exists c'. by rewrite Hc, <- (assoc_L (++)). }
  apply (Hgen ms m peeks []); cbn in *; [lia|done|lia].
Qed.
End notifications.

(** [notificationproducer_demo.cpp]: two sends, one [readData], one [pops]. *)
#[local] Instance notification_countable : Countable notification.
Proof.
  refine (inj_countable' (λ m, (n_op m, n_data m, n_values m)) (λ '(o, d, v), Notification o d v) _). by intros [].
Defined.
#[local] Instance closed_notification_json : Json (λ m : notification, m) (Notification "" "" []) := digits_json _ _.

Definition hello : notification := Notification "hello" "world" [("key0", "value0"); ("key1", "value1")]%string.
Definition notification_main (POP_BATCH_SIZE : nat) (peeks : list bool) : list notification :=
  (notification_pops POP_BATCH_SIZE peeks [] (readData (send hello (send hello (Consumer [] []))))).1.
Example notification_main_pops : notification_main 128 [true; false] = [hello; hello].
Proof. vm_compute. reflexivity. Qed.
