(* ===== verification/SubscriberTable.v ===== *)
(** [SubscriberStateTable] of SONiC behind [Select], from
    [src/sonic/sonic-swss-common/swss_common_subscriberstatetable.md] and the code of
    [Select] in [swss_common_select.md], with [subscriberstatetable_demo.cpp].

    The loop around [epoll_wait] is read as ending when the call succeeds (as it is quoted,
    the [else] that leaves it belongs to the inner [if]). The selector of the demo has one
    object. A keyspace event is on its way until it has
    [arrived]; how many of those that have arrived [readData] takes at once is an argument
    ([reads]). What the notes leave open is an argument too: what the constructor puts into
    [m_buffer], and what is returned for a key that is gone when its event is looked at. *)

From S2P Require Import Prelude Redis RedisTable.
From Stdlib Require Import Ascii.

Local Abbreviation values := (list (string * string)).

(** A key, what happened to it, and its fields. *)
Record kco : Type := Kco { kfvKey : string; kfvOp : string; kfvFieldsValues : values }.
#[export] Instance kco_eq_dec : EqDecision kco.
Proof. solve_decision. Defined.

(** A keyspace event: the command and the key of the table. *)
Record event : Type := Event { command : string; key : string }.
#[export] Instance event_eq_dec : EqDecision event.
Proof. solve_decision. Defined.

(** The subscriber and its place in the selector. *)
Record subscriber : Type := Subscriber {
  m_buffer : list kco;
  m_keyspace_event_buffer : list event;
  arrived : list event;
  m_ready : bool
}.

Definition hasData (s : subscriber) : bool := 0 <? length (m_buffer s) + length (m_keyspace_event_buffer s).
Definition hasCachedData (s : subscriber) : bool := 1 <? length (m_buffer s) + length (m_keyspace_event_buffer s).
Definition initializedWithData (s : subscriber) : bool := negb (bool_decide (m_buffer s = [])).

(** [readData] takes what one read gives, at least one event. *)
Definition readData (n : nat) (s : subscriber) : subscriber :=
  Subscriber (m_buffer s) (m_keyspace_event_buffer s ++ take (S n) (arrived s)) (drop (S n) (arrived s)) (m_ready s).
Definition set_ready (b : bool) (s : subscriber) : subscriber :=
  Subscriber (m_buffer s) (m_keyspace_event_buffer s) (arrived s) b.

(** [Select::poll_descriptors]: [true] for [OBJECT], [false] for [TIMEOUT]. *)
Definition poll_descriptors (n : nat) (s : subscriber) : bool * subscriber :=
  let s := match arrived s with [] => s | _ => set_ready true (readData n s) end in
  if m_ready s then
    let s := set_ready false s in
    if hasData s then (true, if hasCachedData s then set_ready true s else s) else (false, s)
  else (false, s).

(** [Select::select]: what is there now, and otherwise what arrives before the time-out. *)
Definition select (reads : nat * nat) (later : list event) (s : subscriber) : bool * subscriber :=
  match poll_descriptors reads.1 s with
  | (true, s) => (true, Subscriber (m_buffer s) (m_keyspace_event_buffer s) (arrived s ++ later) (m_ready s))
  | (false, s) =>
      poll_descriptors reads.2 (Subscriber (m_buffer s) (m_keyspace_event_buffer s) (arrived s ++ later) (m_ready s))
  end.

(** ** [pops] *)

Section pops.
Context `{RedisServer} (t : table) (gone : string → list kco).

(** Every command other than [del] counts as a set. *)
Definition parse_event (st : gmap string value) (e : event) : list kco :=
  if String.eqb (command e) "del" then [Kco (key e) "DEL" []]
  else match Table_get t (key e) st with
       | Some fvs => [Kco (key e) "SET" fvs]
       | None => gone (key e)
       end.

Definition pops (st : gmap string value) (s : subscriber) : list kco * subscriber :=
  match m_buffer s with
  | [] => (m_keyspace_event_buffer s ≫= parse_event st, Subscriber [] [] (arrived s) (m_ready s))
  | buffer => (buffer, Subscriber [] (m_keyspace_event_buffer s) (arrived s) (m_ready s))
  end.

(** The events of a change: one for every [set], and one for the [del] of an entry that is
    there. *)
Definition set_events (k : string) : list event := [Event "hset" k].
Definition del_events (k : string) (st : gmap string value) : list event :=
  if decide (is_Some (st !! getKeyName t k)) then [Event "del" k] else [].

(** One turn of a loop: events arrive, [select], and [pops] when it returned the object. *)
Record turn : Type := Turn { before : list event; reads : nat * nat; during : list event }.
Definition arrive (es : list event) (s : subscriber) : subscriber :=
  Subscriber (m_buffer s) (m_keyspace_event_buffer s) (arrived s ++ es) (m_ready s).
Definition run_turn (st : gmap string value) (x : turn) (s : subscriber) : list kco * subscriber :=
  let '(b, s) := select (reads x) (during x) (arrive (before x) s) in
  if b then pops st s else ([], s).

(** ** What the loop keeps *)

(** Whatever the object holds, the selector will come back to it. *)
Definition attended (s : subscriber) : Prop := hasData s = true → m_ready s = true.

Lemma hasData_false s : hasData s = false ↔ m_buffer s = [] ∧ m_keyspace_event_buffer s = [].
Proof.
  unfold hasData. rewrite Nat.ltb_ge. destruct (m_buffer s), (m_keyspace_event_buffer s); cbn; naive_solver lia.
Qed.
Lemma hasData_cached s : hasCachedData s = true → hasData s = true.
Proof. unfold hasCachedData, hasData. rewrite !Nat.ltb_lt. lia. Qed.

(** What a poll does: it returns the object if it has data and was ready or something has
    arrived, and then it stays ready if it has more than one item. *)
Lemma poll_spec n s b s' : poll_descriptors n s = (b, s') → attended s →
  b = hasData s' ∧ (m_ready s' = b && hasCachedData s') ∧
  (b = false → arrived s = [] ∧ arrived s' = [] ∧ m_buffer s' = [] ∧ m_keyspace_event_buffer s' = []).
Proof.
  unfold poll_descriptors. intros Hp Ha. destruct (arrived s) as [|e es] eqn:Harr.
  - destruct (m_ready s) eqn:Hr.
    + change (hasData (set_ready false s)) with (hasData s) in Hp. change (hasCachedData (set_ready false s)) with (hasCachedData s) in Hp.
      destruct (hasData s) eqn:Hd; simplify_eq.
      * destruct (hasCachedData s) eqn:Hc; split_all; try done; by rewrite ?Hd, ?Hc.
      * split_all; [by rewrite <- Hd|done|]. intros _. apply hasData_false in Hd. cbn. naive_solver.
    + simplify_eq. assert (Hd : hasData s' = false) by (destruct (hasData s') eqn:Hd; [|done]; apply Ha in Hd; congruence).
      split_all; [done|by rewrite Hr|]. intros _. apply hasData_false in Hd. naive_solver.
  - cbn [m_ready set_ready readData] in Hp.
    set (s1 := set_ready false (set_ready true (readData n s))) in *.
    assert (Hd : hasData s1 = true).
    { unfold hasData. rewrite Nat.ltb_lt. subst s1. cbn. rewrite Harr, length_app. cbn. lia. }
    rewrite Hd in Hp. destruct (hasCachedData s1) eqn:Hc; simplify_eq; split_all; try done.
Qed.

Lemma select_attended r l s b s' : select r l s = (b, s') → attended s →
  b = hasData s' ∧ m_ready s' = b && hasCachedData s'.
Proof.
  unfold select. intros Hs Ha. destruct (poll_descriptors r.1 s) as [b1 s1] eqn:H1.
  destruct (poll_spec _ _ _ _ H1 Ha) as (Hb & Hr & Hempty). destruct b1.
  - simplify_eq. by rewrite Hr.
  - destruct Hempty as (_ & _ & Hm & Hk); [done|].
    destruct (poll_spec _ _ _ _ Hs) as (? & ? & _); [|done].
    intros Hd. exfalso. revert Hd. apply not_true_iff_false, hasData_false. cbn. done.
Qed.

(** The keys of what waits, in the order in which it will be popped. *)
Definition waiting (s : subscriber) : list string :=
  (kfvKey <$> m_buffer s) ++ (key <$> m_keyspace_event_buffer s) ++ (key <$> arrived s).

Lemma poll_waiting n s b s' : poll_descriptors n s = (b, s') → waiting s' = waiting s.
Proof.
  unfold poll_descriptors. intros Hp.
  set (s1 := match arrived s with [] => s | _ => set_ready true (readData n s) end) in *.
  assert (H1 : waiting s1 = waiting s).
  { subst s1. destruct (arrived s) as [|e es] eqn:Harr; [done|]. unfold waiting. cbn [m_buffer m_keyspace_event_buffer arrived set_ready readData].
    by rewrite fmap_app, <- (assoc_L (++)), <- fmap_app, take_drop. }
  rewrite <- H1. clearbody s1. clear H1. by repeat case_match; simplify_eq.
Qed.
Lemma select_waiting r l s b s' : select r l s = (b, s') → waiting s' = waiting s ++ (key <$> l).
Proof.
  unfold select. destruct (poll_descriptors r.1 s) as [b1 s1] eqn:H1. apply poll_waiting in H1. intros Hs.
  assert (H2 : waiting (Subscriber (m_buffer s1) (m_keyspace_event_buffer s1) (arrived s1 ++ l) (m_ready s1)) = waiting s ++ (key <$> l)).
  { rewrite <- H1. unfold waiting. cbn. by rewrite fmap_app, !(assoc_L (++)). }
  destruct b1; [by simplify_eq|]. by rewrite (poll_waiting _ _ _ _ Hs).
Qed.
Lemma select_returns r l s b s' : select r l s = (b, s') → attended s → waiting s ++ (key <$> l) ≠ [] → b = true.
Proof.
  unfold select. destruct (poll_descriptors r.1 s) as [b1 s1] eqn:H1. intros Hs Ha Hw.
  pose proof (poll_waiting _ _ _ _ H1) as Hw1. destruct (poll_spec _ _ _ _ H1 Ha) as (_ & _ & He).
  destruct b1; [by simplify_eq|]. destruct He as (_ & He & Hm & Hk); [done|]. rewrite He in Hs.
  assert (Ha2 : attended (Subscriber (m_buffer s1) (m_keyspace_event_buffer s1) ([] ++ l) (m_ready s1))).
  { intros Hd. exfalso. revert Hd. apply not_true_iff_false, hasData_false. done. }
  destruct (poll_spec _ _ _ _ Hs Ha2) as (_ & _ & He2). destruct b; [done|]. destruct He2 as (He2 & _ & _); [done|].
  cbn in He2. subst l. destruct Hw. rewrite <- Hw1. unfold waiting. by rewrite He, Hm, Hk.
Qed.

Context (Hgone : ∀ k, kfvKey <$> gone k = [k]).

Lemma parse_keys st es : kfvKey <$> (es ≫= parse_event st) = key <$> es.
Proof.
  induction es as [|e es IH]; [done|]. cbn. fold (es ≫= parse_event st). rewrite fmap_app.
  change (list_fmap _ _ kfvKey (es ≫= parse_event st)) with (kfvKey <$> (es ≫= parse_event st)). rewrite IH.
  replace (kfvKey <$> parse_event st e) with [key e]; [done|].
  unfold parse_event. destruct (String.eqb _ _); [done|]. by destruct (Table_get _ _ _).
Qed.
Lemma pops_waiting st s r s' : pops st s = (r, s') → (kfvKey <$> r) ++ waiting s' = waiting s.
Proof.
  unfold pops, waiting. destruct (m_buffer s) as [|v vs] eqn:Hm; intros Hp; simplify_eq; cbn [m_buffer m_keyspace_event_buffer arrived].
  - cbn [fmap list_fmap app]. by rewrite parse_keys.
  - done.
Qed.

End pops.

(** When the object was returned and [pops] is not called, a single event waits: the next
    [select] does not return the object. *)
Lemma single_event_waits e r n : let s1 := (select r [] (Subscriber [] [] [e] false)).2 in
  (select r [] (Subscriber [] [] [e] false)).1 = true ∧ hasData s1 = true ∧ (select n [] s1).1 = false.
Proof. by destruct r as [[|r1] r2]. Qed.

(** * [subscriberstatetable_demo.cpp] *)

Section demo.
Context `{RedisServer}.

Definition t : table := Table "PSEUDOTABLE" "|"%char "4".
Definition fvs : values := [("key0", "value0"); ("key1", "value1")]%string.

(** The store, the subscriber, and what is printed; [true] in front: the object that [select]
    left in [sel]. *)
Record demo : Type := Demo { db : gmap string value; st : subscriber; sel : bool; printed : list string }.

Definition table_set (k : string) (d : demo) : demo :=
  Demo (Table_set t k fvs (db d)) (arrive (set_events k) (st d)) (sel d) (printed d).
Definition table_del (k : string) (d : demo) : demo :=
  Demo (Table_del t k (db d)) (arrive (del_events t k (db d)) (st d)) (sel d) (printed d).
Definition demo_select (d : demo) : demo :=
  let '(b, s) := select (1000, 1000) [] (st d) in Demo (db d) s b (printed d).

Definition print_vkco (index : nat) (vkco : list kco) : list string :=
  ["----------------------------"; tostring index +:+ "th pop..."]%string ++
  (vkco ≫= λ k, [kfvKey k; kfvOp k] ++
     ((λ fv, String "009"%char fv.1 +:+ ": " +:+ fv.2) <$> kfvFieldsValues k) ++ [""%string]) ++
  ["----------------------------"]%string.

(** [if (sel) { st.pops(vkco); print_vkco(vkco, index); }] *)
Definition pop_and_print (gone : string → list kco) (index : nat) (d : demo) : demo :=
  if sel d then
    let '(vkco, s) := pops t gone (db d) (st d) in Demo (db d) s (sel d) (printed d ++ print_vkco index vkco)
  else d.
Definition print_sel (d : demo) : demo := Demo (db d) (st d) (sel d) (printed d ++ [if sel d then "1" else "0"]%string).

(** [main]. The constructor leaves [initial] in [m_buffer], and [addSelectable] makes the
    object ready when there is something in it. *)
Definition demo_main (gone : string → list kco) (initial : list kco) (db0 : gmap string value) : demo :=
  let steps := [
    demo_select; pop_and_print gone 0;
    table_set "ENTRY0"; demo_select; pop_and_print gone 1;
    table_set "ENTRY1"; table_set "ENTRY2"; table_set "ENTRY3"; table_del "ENTRY0"; demo_select; pop_and_print gone 2;
    table_del "ENTRY0"; demo_select; pop_and_print gone 3;
    table_del "ENTRY1"; table_del "ENTRY2"; demo_select; demo_select; pop_and_print gone 4;
    table_del "ENTRY3"; demo_select; print_sel; demo_select; print_sel]%string in
  let s0 := Subscriber initial [] [] false in
  foldl (λ d f, f d) (Demo (Table_set t "ENTRY0" fvs db0) (set_ready (initializedWithData s0) s0) false []) steps.
End demo.

#[local] Existing Instance Executable.server.

(** The keys and operations of the pops, and the two values at the end, for a constructor
    that finds the entry: the second [del] of [ENTRY0] pops nothing. *)
Definition pops_of (l : list string) : list string :=
  filter (λ s, negb (String.prefix (String "009" "") s || String.eqb s "" || String.prefix "-" s)) l.
Example demo_output :
  pops_of (printed (demo_main (λ k, [Kco k "SET" []]) [Kco "ENTRY0" "SET" fvs] ∅)) =
  ["0th pop..."; "ENTRY0"; "SET"; "1th pop..."; "ENTRY0"; "SET";
   "2th pop..."; "ENTRY1"; "SET"; "ENTRY2"; "SET"; "ENTRY3"; "SET"; "ENTRY0"; "DEL";
   "4th pop..."; "ENTRY1"; "DEL"; "ENTRY2"; "DEL"; "1"; "0"]%string.
Proof. vm_compute. reflexivity. Qed.

