(* ===== verification/Double.v ===== *)
(** The [double] of C++ as IEEE 754 binary64, on the executable specification that comes with
    the Standard Library ([SpecFloat]), and what the classes with floating-point state
    need of it: the operations give values of the format, and signs come out as they
    should. *)

From S2P Require Import Prelude.
From Stdlib Require Export SpecFloat.
#[local] Open Scope Z_scope.

(** * Values and operations *)

Definition double : Type := spec_float.
Definition prec : Z := 53.
Definition emax : Z := 1024.

Definition dadd : double → double → double := SFadd prec emax.
Definition dsub : double → double → double := SFsub prec emax.
Definition dmul : double → double → double := SFmul prec emax.
Definition ddiv : double → double → double := SFdiv prec emax.
Definition dlt : double → double → bool := SFltb.
Definition dle : double → double → bool := SFleb.
Definition dzero : double := S754_zero false.
(** An integer, rounded; and a decimal literal with [n] digits after the point. *)
Definition of_Z (z : Z) : double := binary_normalize prec emax z 0 false.
Definition literal (z : Z) (n : nat) : double := ddiv (of_Z z) (of_Z (10 ^ Z.of_nat n)).

(** A decimal number with a sign, [m] times ten to the [k], rounded to the nearest. *)
Definition decimal (s : bool) (m : Z) (k : Z) : double :=
  match m with
  | Zpos p =>
      if 0 <=? k then binary_normalize prec emax (cond_Zopp s (m * 10 ^ k)) 0 s
      else let '(q, e, l) := SFdiv_core_binary prec emax m 0 (10 ^ (- k)) 0 in binary_round_aux prec emax s q e l
  | _ => S754_zero s
  end.
(** The largest number, with a sign. *)
Definition max_double (s : bool) : double := S754_finite s 9007199254740991 971.

Definition is_valid (x : double) : bool := valid_binary prec emax x.
Definition is_finite (x : double) : bool :=
  match x with S754_zero _ | S754_finite _ _ _ => true | _ => false end.

(** [static_cast<int>]: towards zero; out of the range of [int] it is undefined. *)
Definition to_int (x : double) : option Z :=
  match x with
  | S754_zero _ => Some 0
  | S754_finite s m e =>
      let z := if 0 <=? e then Z.shiftl (Zpos m) e else Z.shiftr (Zpos m) (- e) in
      let z := if s then - z else z in
      if decide (in_signed 32 z) then Some z else None
  | _ => None
  end.

Lemma to_int_range x z : to_int x = Some z → in_signed 32 z.
Proof.
  unfold to_int. destruct x as [s|s| |s m e]; try done; [intros [= <-]; unfold in_signed; lia|].
  destruct (decide (in_signed 32 _)); [|done]. by intros [= <-].
Qed.
Lemma to_int_nonneg x z : dle dzero x = true → to_int x = Some z → 0 ≤ z.
Proof.
  intros Hx. unfold to_int. destruct x as [s|s| |[] m e]; try done; [by intros [= <-]|].
  destruct (decide _); [|done]. intros [= <-]. destruct (0 <=? e); [by apply Z.shiftl_nonneg|by apply Z.shiftr_nonneg].
Qed.

#[export] Instance spec_float_eq_dec : EqDecision spec_float.
Proof. solve_decision. Defined.

Example literal_tenth : literal 1 1 = S754_finite false 7205759403792794 (-56).
Proof. vm_compute. reflexivity. Qed.
Example decimal_literal : decimal false 11125 (-5) = literal 11125 5 ∧ decimal true 5 2 = of_Z (-500).
Proof. vm_compute. done. Qed.

(** * Digits and shifts *)

Definition digits (m : Z) : Z := Zdigits2 m.

Lemma digits_pos p : 1 ≤ Zpos (digits2_pos p) ∧ 2 ^ (Zpos (digits2_pos p) - 1) ≤ Zpos p < 2 ^ Zpos (digits2_pos p).
Proof.
  induction p as [p IH|p IH|]; cbn [digits2_pos]; [..|cbn; lia];
    rewrite Pos2Z.inj_succ; (replace (Z.succ (Z.pos (digits2_pos p)) - 1) with (Z.succ (Zpos (digits2_pos p) - 1)) by lia);
    rewrite !Z.pow_succ_r by lia; lia.
Qed.
Lemma digits_spec m : 0 < m → 1 ≤ digits m ∧ 2 ^ (digits m - 1) ≤ m < 2 ^ digits m.
Proof. destruct m as [|p|p]; [lia| |lia]. intros _. apply digits_pos. Qed.
Lemma digits_unique m d : 0 ≤ d - 1 → 2 ^ (d - 1) ≤ m < 2 ^ d → digits m = d.
Proof.
  intros Hd [H1 H2]. assert (Hm : 0 < m) by (pose proof (Z.pow_pos_nonneg 2 (d - 1)); lia).
  destruct (digits_spec m Hm) as (H0 & H3 & H4).
  assert (d - 1 < digits m) by (apply (Z.pow_lt_mono_r_iff 2); lia).
  assert (digits m - 1 < d) by (apply (Z.pow_lt_mono_r_iff 2); lia). lia.
Qed.
Lemma digits_div m n : 0 ≤ n < digits m → 0 < m → digits (m / 2 ^ n) = digits m - n.
Proof.
  intros Hn Hm. destruct (digits_spec m Hm) as (H0 & H1 & H2). apply digits_unique; [lia|].
  assert (Hp : 0 < 2 ^ n) by (apply Z.pow_pos_nonneg; lia). split.
  - apply Z.div_le_lower_bound; [done|]. rewrite <- Z.pow_add_r by lia. by replace (n + (digits m - n - 1)) with (digits m - 1) by lia.
  - apply Z.div_lt_upper_bound; [done|]. rewrite <- Z.pow_add_r by lia. by replace (n + (digits m - n)) with (digits m) by lia.
Qed.
Lemma digits_small m n : digits m ≤ n → 0 < m → m / 2 ^ n = 0.
Proof.
  intros Hn Hm. destruct (digits_spec m Hm) as (H0 & H1 & H2). apply Z.div_small. split; [lia|].
  eapply Z.lt_le_trans; [exact H2|]. apply Z.pow_le_mono_r; lia.
Qed.
Lemma digits_shift m n : 0 ≤ n → 0 < m → digits (m * 2 ^ n) = digits m + n.
Proof.
  intros Hn Hm. destruct (digits_spec m Hm) as (H0 & H1 & H2). apply digits_unique; [lia|].
  assert (Hp : 0 < 2 ^ n) by (apply Z.pow_pos_nonneg; lia).
  replace (digits m + n - 1) with ((digits m - 1) + n) by lia. rewrite !Z.pow_add_r by lia. nia.
Qed.
Lemma digits_succ m : 0 < m → digits m ≤ digits (m + 1).
Proof.
  intros Hm. destruct (digits_spec m Hm) as (H0 & H1 & H2). destruct (digits_spec (m + 1)) as (H3 & H4 & H5); [lia|].
  assert (digits m - 1 < digits (m + 1)) by (apply (Z.pow_lt_mono_r_iff 2); lia). lia.
Qed.

Lemma iter_pos_nat {A} (f : A → A) p x : iter_pos f p x = Nat.iter (Pos.to_nat p) f x.
Proof.
  revert x. induction p as [p IH|p IH|]; intros x; cbn [iter_pos]; [..|done]; rewrite !IH, <- Nat.iter_add.
  - change (f x) with (Nat.iter 1 f x). rewrite <- Nat.iter_add. f_equal. lia.
  - f_equal. lia.
Qed.
Lemma shr_1_m mrs : 0 ≤ shr_m mrs → shr_m (shr_1 mrs) = shr_m mrs / 2.
Proof.
  destruct mrs as [[|p|p] r s]; cbn; [done| |lia]. intros _.
  destruct p as [p|p|]; cbn [shr_m]; [|by rewrite (Pos2Z.inj_xO p), Z.mul_comm, Z.div_mul|done].
  rewrite (Pos2Z.inj_xI p). symmetry. rewrite Z.mul_comm, Z.div_add_l by lia. by rewrite Z.add_0_r.
Qed.
Lemma shr_iter_m k mrs : 0 ≤ shr_m mrs → shr_m (Nat.iter k shr_1 mrs) = shr_m mrs / 2 ^ Z.of_nat k.
Proof.
  intros Hm. induction k as [|k IH]; [by rewrite Z.div_1_r|].
  change (Nat.iter (S k) shr_1 mrs) with (shr_1 (Nat.iter k shr_1 mrs)).
  assert (Hp : 0 < 2 ^ Z.of_nat k) by (apply Z.pow_pos_nonneg; lia).
  rewrite shr_1_m, IH by (rewrite IH; by apply Z.div_pos).
  by rewrite Z.div_div, Nat2Z.inj_succ, Z.pow_succ_r, Z.mul_comm by lia.
Qed.

Lemma record_m m l : shr_m (shr_record_of_loc m l) = m.
Proof. by destruct l as [|[| |]]. Qed.

(** [shr_fexp] divides the mantissa, and moves the exponent to where it belongs. *)
Lemma shr_fexp_spec m e l : 0 ≤ m →
  let r := shr_fexp prec emax m e l in let e' := fexp prec emax (digits m + e) in
  (e' ≤ e → shr_m r.1 = m ∧ r.2 = e) ∧ (e < e' → shr_m r.1 = m / 2 ^ (e' - e) ∧ r.2 = e').
Proof.
  intros Hm. cbn zeta. unfold shr_fexp, shr. change (Zdigits2 m) with (digits m).
  set (e' := fexp prec emax (digits m + e)). destruct (e' - e) as [|n|n] eqn:Hn; cbn [fst snd]; rewrite ?record_m; split; intros; try lia; try done.
  rewrite iter_pos_nat, shr_iter_m by by rewrite record_m. rewrite record_m, positive_nat_Z. split; [done|lia].
Qed.

Lemma fexp_max x : fexp prec emax x = Z.max (x - 53) (- 1074).
Proof. done. Qed.

(** What is aligned comes out in the format, or as zero. *)
Definition aligned (m e : Z) : Prop := 0 ≤ m ∧ (0 < m → e ≤ fexp prec emax (digits m + e)).
Lemma shr_fexp_canonical m e l : aligned m e →
  let r := shr_fexp prec emax m e l in
  0 ≤ shr_m r.1 ∧ (0 < shr_m r.1 → fexp prec emax (digits (shr_m r.1) + r.2) = r.2) ∧
  (0 < m → r.2 = fexp prec emax (digits m + e) ∧ (shr_m r.1 = 0 → r.2 = - 1074)).
Proof.
  intros [Hm Ha]. cbn zeta. destruct (shr_fexp_spec m e l Hm) as [H1 H2].
  destruct (decide (m = 0)) as [->|Hm0].
  { assert (Hz : shr_m (shr_fexp prec emax 0 e l).1 = 0).
    { destruct (decide (fexp prec emax (digits 0 + e) ≤ e)); [by apply H1|]. destruct H2 as [-> _]; [lia|]. apply Z.div_0_l.
      pose proof (Z.pow_pos_nonneg 2 (fexp prec emax (digits 0 + e) - e)). lia. }
    rewrite Hz. split_all; lia. }
  assert (Hpos : 0 < m) by lia. specialize (Ha Hpos). rewrite !fexp_max in *.
  destruct (decide (Z.max (digits m + e - 53) (-1074) ≤ e)) as [Hle|Hlt].
  - destruct (H1 Hle) as [-> ->]. split_all; [lia|intros; lia|]. intros _. split; lia.
  - destruct H2 as [Hq Hr]; [lia|]. rewrite Hq, Hr. set (n := Z.max (digits m + e - 53) (-1074) - e) in *.
    destruct (digits_spec m Hpos) as (H0 & _ & _). split_all.
    + apply Z.div_pos; [done|]. apply Z.pow_pos_nonneg; lia.
    + intros Hp. destruct (decide (n < digits m)) as [Hn|Hn].
      * rewrite digits_div by lia. lia.
      * rewrite digits_small in Hp by lia. lia.
    + intros _. split; [lia|]. intros Hz. destruct (decide (n < digits m)) as [Hn|Hn]; [|lia].
      pose proof (digits_div m n) as Hd. rewrite Hz in Hd. cbn in Hd. lia.
Qed.

Lemma round_even_cases m l : round_nearest_even m l = m ∨ round_nearest_even m l = m + 1.
Proof. destruct l as [|[| |]]; cbn; try tauto. destruct (Z.even m); tauto. Qed.

Lemma round_aligned m e l :
  0 ≤ m → (0 < m → fexp prec emax (digits m + e) = e) → (m = 0 → e = - 1074) → aligned (round_nearest_even m l) e.
Proof.
  intros Hm Hc Hz. pose proof (round_even_cases m l) as Hr. set (m' := round_nearest_even m l) in *.
  split; [destruct Hr; lia|]. intros Hp. destruct Hr as [Heq|Heq]; rewrite Heq in *.
  - rewrite Hc by done. lia.
  - destruct (decide (m = 0)) as [Hm0|Hm0]; [rewrite Hz, Hm0 by done; by vm_compute|].
    pose proof (digits_succ m ltac:(lia)). specialize (Hc ltac:(lia)). rewrite fexp_max in *. lia.
Qed.

(** Rounding an aligned mantissa gives a value of the format, with the sign asked for, and
    not a NaN. *)
Definition signed (s : bool) (x : double) : bool :=
  match x with S754_zero s' | S754_infinity s' | S754_finite s' _ _ => Bool.eqb s s' | S754_nan => false end.
Lemma round_aux_spec s m e l : 0 < m → aligned m e →
  let x := binary_round_aux prec emax s m e l in is_valid x = true ∧ signed s x = true.
Proof.
  intros Hm Ha. cbn zeta. unfold binary_round_aux.
  pose proof (shr_fexp_canonical m e l Ha) as H1. destruct (shr_fexp prec emax m e l) as [r1 e1]. cbn [fst snd] in H1.
  destruct H1 as (Hp1 & Hc1 & Hz1). destruct (Hz1 Hm) as [_ Hz].
  pose proof (round_aligned _ _ (loc_of_shr_record r1) Hp1 Hc1 Hz) as Ha2.
  pose proof (shr_fexp_canonical _ _ loc_Exact Ha2) as H2.
  destruct (shr_fexp prec emax (round_nearest_even _ _) e1 loc_Exact) as [r2 e2]. cbn [fst snd] in H2.
  destruct H2 as (Hp2 & Hc2 & _). destruct (shr_m r2) as [|p|p]; [by destruct s| |lia].
  destruct (Z.leb_spec e2 (emax - prec)) as [Hle|]; [|by destruct s]. cbn. split; [|by destruct s].
  unfold bounded, canonical_mantissa. rewrite andb_true_iff, Z.eqb_eq, Z.leb_le. split; [|done]. apply Hc2. lia.
Qed.

Lemma iter_xO m d : Zpos (Pos.iter xO m d) = Zpos m * 2 ^ Zpos d.
Proof.
  induction d as [|d IH] using Pos.peano_ind; [cbn; lia|].
  rewrite Pos.iter_succ, Pos2Z.inj_succ, Z.pow_succ_r by lia. rewrite (Pos2Z.inj_xO (Pos.iter xO m d)), IH. lia.
Qed.
Lemma shl_align_spec m e e' :
  let r := shl_align m e e' in
  (e' < e → Zpos r.1 = Zpos m * 2 ^ (e - e') ∧ r.2 = e') ∧ (e ≤ e' → r = (m, e)).
Proof.
  cbn zeta. unfold shl_align. destruct (e' - e) as [|d|d] eqn:Hd; cbn [fst snd]; split; intros; try lia; try done.
  rewrite iter_xO. split; [|done]. by replace (e - e') with (Zpos d) by lia.
Qed.
Lemma round_spec s m e : let x := binary_round prec emax s m e in is_valid x = true ∧ signed s x = true.
Proof.
  cbn zeta. unfold binary_round. change (Zpos (digits2_pos m)) with (digits (Zpos m)).
  set (e' := fexp prec emax (digits (Zpos m) + e)). destruct (shl_align_spec m e e') as [H1 H2].
  destruct (shl_align m e e') as [mz ez]. cbn [fst snd] in *. apply round_aux_spec; [lia|]. split; [lia|]. intros _.
  destruct (decide (e' < e)) as [Hlt|Hge].
  - destruct (H1 Hlt) as [-> ->]. rewrite digits_shift by lia. subst e'.
    replace (digits (Zpos m) + (e - fexp prec emax (digits (Zpos m) + e)) + fexp prec emax (digits (Zpos m) + e)) with (digits (Zpos m) + e) by lia.
    lia.
  - specialize (H2 ltac:(lia)). injection H2 as -> ->. subst e'. lia.
Qed.
Lemma normalize_spec z e : is_valid (binary_normalize prec emax z e false) = true ∧
  (0 ≤ z → dle dzero (binary_normalize prec emax z e false) = true).
Proof.
  destruct z as [|p|p]; cbn [binary_normalize]; [done|..].
  - destruct (round_spec false p e) as [Hv Hs]. split; [done|]. intros _. by destruct (binary_round _ _ _ _ _) as [[]|[]| |[]].
  - destruct (round_spec true p e) as [Hv _]. split; [done|lia].
Qed.

(** * Sums and differences *)

Lemma dadd_valid x y : is_valid x = true → is_valid y = true → is_valid (dadd x y) = true.
Proof.
  intros Hx Hy. destruct x as [[]|[]| |sx mx ex], y as [[]|[]| |sy my ey]; try done. apply normalize_spec.
Qed.
Lemma dsub_valid x y : is_valid x = true → is_valid y = true → is_valid (dsub x y) = true.
Proof.
  intros Hx Hy. destruct x as [[]|[]| |sx mx ex], y as [[]|[]| |sy my ey]; try done. apply normalize_spec.
Qed.

(** The sum of two numbers that are not negative is not negative. *)
Lemma dadd_nonneg x y : dle dzero x = true → dle dzero y = true → dle dzero (dadd x y) = true.
Proof.
  intros Hx Hy. destruct x as [[]|[]| |[] mx ex], y as [[]|[]| |[] my ey]; try done.
  apply normalize_spec. cbn [cond_Zopp]. lia.
Qed.

Lemma align_value m e ez : ez ≤ e → Zpos (shl_align m e ez).1 = Zpos m * 2 ^ (e - ez).
Proof.
  intros He. destruct (shl_align_spec m e ez) as [H1 H2]. destruct (decide (ez < e)) as [Hlt|Hge]; [by apply H1|].
  rewrite H2 by lia. replace (e - ez) with 0 by lia. cbn. lia.
Qed.

Lemma valid_finite s m e : is_valid (S754_finite s m e) = true → digits (Zpos m) ≤ 53 ∧ -1074 ≤ e ∧ (-1074 < e → digits (Zpos m) = 53).
Proof.
  cbn. unfold bounded, canonical_mantissa. rewrite andb_true_iff, Z.eqb_eq, Z.leb_le.
  change (Zpos (digits2_pos m)) with (digits (Zpos m)). rewrite fexp_max. lia.
Qed.

(** In the format a larger exponent means a larger number. *)
Lemma exponent_order s1 m1 e1 s2 m2 e2 :
  is_valid (S754_finite s1 m1 e1) = true → is_valid (S754_finite s2 m2 e2) = true → e1 < e2 →
  Zpos m1 < Zpos m2 * 2 ^ (e2 - e1).
Proof.
  intros (H1 & H2 & _)%valid_finite (_ & _ & H3)%valid_finite He. specialize (H3 ltac:(lia)).
  destruct (digits_pos m1) as (_ & _ & Hm1). destruct (digits_pos m2) as (_ & Hm2 & _).
  change (Zpos (digits2_pos m1)) with (digits (Zpos m1)) in Hm1.
  change (Zpos (digits2_pos m2)) with (digits (Zpos m2)) in Hm2. rewrite H3 in Hm2.
  assert (2 ^ digits (Zpos m1) ≤ 2 ^ 53) by (apply Z.pow_le_mono_r; lia).
  assert (2 ^ 1 ≤ 2 ^ (e2 - e1)) by (apply Z.pow_le_mono_r; lia).
  change (2 ^ 1) with 2 in *. replace (2 ^ 53) with (2 ^ (53 - 1) * 2) in * by lia. nia.
Qed.

(** Two positive numbers, brought to one exponent, compare as their mantissas. *)
Lemma aligned_compare m1 e1 m2 e2 : let ez := Z.min e1 e2 in
  is_valid (S754_finite false m1 e1) = true → is_valid (S754_finite false m2 e2) = true →
  match (e1 ?= e2) with Lt => Lt | Gt => Gt | Eq => Pos.compare_cont Eq m1 m2 end =
  (Zpos (shl_align m1 e1 ez).1 ?= Zpos (shl_align m2 e2 ez).1).
Proof.
  cbn zeta. intros H1 H2. rewrite !align_value by lia.
  destruct (Z.compare_spec e1 e2) as [He|He|He].
  - subst e2. by rewrite Z.min_id, Z.sub_diag, Z.pow_0_r, !Z.mul_1_r.
  - rewrite Z.min_l, Z.sub_diag, Z.pow_0_r, Z.mul_1_r by lia. symmetry. apply Z.compare_lt_iff.
    by eapply exponent_order.
  - rewrite Z.min_r, Z.sub_diag, Z.pow_0_r, Z.mul_1_r by lia. symmetry. apply Z.compare_gt_iff.
    by eapply exponent_order.
Qed.
Lemma aligned_order m1 e1 m2 e2 : let ez := Z.min e1 e2 in
  is_valid (S754_finite false m1 e1) = true → is_valid (S754_finite false m2 e2) = true →
  match (e1 ?= e2) with Lt => Lt | Gt => Gt | Eq => Pos.compare_cont Eq m1 m2 end ≠ Gt →
  Zpos (shl_align m1 e1 ez).1 ≤ Zpos (shl_align m2 e2 ez).1.
Proof. cbn zeta. intros H1 H2 Hc. rewrite aligned_compare in Hc by done. exact Hc. Qed.

(** A number, less one that is not greater and finite, is not negative. *)
Lemma dsub_nonneg x y :
  is_valid x = true → is_valid y = true → is_finite y = true → dle y x = true → dle dzero (dsub x y) = true.
Proof.
  intros Hx Hy Hfin Hle. destruct x as [[]|[]| |sx mx ex], y as [[]|[]| |sy my ey]; try done;
    try discriminate Hle; try (by destruct sy); try (by destruct sx; first [done|discriminate Hle]).
  - apply normalize_spec. unfold dle, SFleb, SFcompare in Hle. destruct sx, sy; cbn [cond_Zopp]; try done; try lia.
    + pose proof (aligned_order mx ex my ey Hx Hy) as Ho. rewrite Z.sub_opp_r. cbn zeta in Ho.
      enough (Z.pos (shl_align mx ex (Z.min ex ey)).1 ≤ Z.pos (shl_align my ey (Z.min ex ey)).1) by lia.
      apply Ho. rewrite (Z.compare_antisym ey ex). pose proof (Pos.compare_cont_antisym my mx Eq) as Ha. cbn [CompOpp] in Ha.
      rewrite <- Ha. by destruct (ey ?= ex), (Pos.compare_cont Eq my mx).
    + pose proof (aligned_order my ey mx ex Hy Hx) as Ho. rewrite Z.min_comm in Ho. cbn zeta in Ho.
      enough (Z.pos (shl_align my ey (Z.min ex ey)).1 ≤ Z.pos (shl_align mx ex (Z.min ex ey)).1) by lia.
      apply Ho. by destruct (ey ?= ex), (Pos.compare_cont Eq my mx).
Qed.

(** What is compared is a number. *)
Lemma dle_number x y : dle x y = true → x ≠ S754_nan ∧ y ≠ S754_nan.
Proof. by destruct x as [[]|[]| |[]], y as [[]|[]| |[]]. Qed.
(** Among numbers, not less is greater or equal. *)
Lemma dlt_dle x y : x ≠ S754_nan → y ≠ S754_nan → dlt x y = negb (dle y x).
Proof.
  intros Hx Hy. unfold dlt, dle, SFltb, SFleb. destruct x as [[]|[]| |[] mx ex], y as [[]|[]| |[] my ey]; try done; cbn [SFcompare];
    rewrite (Z.compare_antisym ex ey); destruct (ex ?= ey); try done; cbn [CompOpp];
    pose proof (Pos.compare_cont_antisym mx my Eq) as Ha; cbn [CompOpp] in Ha; rewrite <- Ha; by destruct (Pos.compare_cont Eq mx my).
Qed.

(** Products commute. *)
Lemma dmul_comm x y : dmul x y = dmul y x.
Proof.
  destruct x as [[]|[]| |[] mx ex], y as [[]|[]| |[] my ey]; try done; unfold dmul, SFmul;
    by rewrite Pos.mul_comm, Z.add_comm.
Qed.

(** * Whole numbers *)

(** A whole number of at most 53 bits is a [double], and is computed with as such. *)
Definition whole (s : bool) (m : positive) : double :=
  S754_finite s (Z.to_pos (Zpos m * 2 ^ (53 - digits (Zpos m)))) (digits (Zpos m) - 53).

Lemma shr_1_even m : shr_1 (Build_shr_record (Zpos m~0) false false) = Build_shr_record (Zpos m) false false.
Proof. done. Qed.
Lemma shr_iter_exact k m : 0 < m →
  Nat.iter k shr_1 (Build_shr_record (m * 2 ^ Z.of_nat k) false false) = Build_shr_record m false false.
Proof.
  intros Hm. revert m Hm. induction k as [|k IH]; intros m Hm; [cbn; f_equal; lia|].
  change (Nat.iter (S k) shr_1 ?x) with (shr_1 (Nat.iter k shr_1 x)).
  rewrite Nat2Z.inj_succ, Z.pow_succ_r, Z.mul_assoc by lia. rewrite IH by lia.
  destruct m as [|m|m]; try lia. by rewrite Z.mul_comm.
Qed.
(** Nothing is lost when only zeros are shifted out. *)
Lemma shr_fexp_exact m e n : 0 < m → 0 ≤ n → fexp prec emax (digits m + n + e) = e + n →
  shr_fexp prec emax (m * 2 ^ n) e loc_Exact = (Build_shr_record m false false, e + n).
Proof.
  intros Hm Hn He. unfold shr_fexp, shr. change (Zdigits2 (m * 2 ^ n)) with (digits (m * 2 ^ n)).
  rewrite digits_shift, He by lia. replace (e + n - e) with n by lia. destruct n as [|n|n]; [..|lia].
  - cbn. f_equal; [f_equal; lia|lia].
  - rewrite iter_pos_nat. change (Z.pos n) with (Z.pos n) at 1. rewrite <- (positive_nat_Z n). cbn [shr_record_of_loc].
    by rewrite shr_iter_exact.
Qed.

Lemma round_aux_whole s m M e n : digits (Zpos m) ≤ 53 → 0 ≤ n →
  e + n = digits (Zpos m) - 53 → M = Zpos m * 2 ^ (53 - digits (Zpos m)) * 2 ^ n →
  binary_round_aux prec emax s M e loc_Exact = whole s m.
Proof.
  intros Hd Hn He ->. destruct (digits_pos m) as (H0 & _ & _). change (Zpos (digits2_pos m)) with (digits (Zpos m)) in H0.
  set (m1 := Zpos m * 2 ^ (53 - digits (Zpos m))).
  assert (Hm1 : 0 < m1) by (apply Z.mul_pos_pos; [lia|]; apply Z.pow_pos_nonneg; lia).
  assert (Hd1 : digits m1 = 53) by (unfold m1; rewrite digits_shift; lia).
  unfold binary_round_aux. rewrite shr_fexp_exact by (rewrite ?fexp_max; lia). cbn [loc_of_shr_record shr_m round_nearest_even].
  rewrite <- (Z.mul_1_r m1) at 1. change 1 with (2 ^ 0) at 1. rewrite shr_fexp_exact by (rewrite ?fexp_max; lia).
  cbn [shr_m]. unfold whole. fold m1. destruct m1 as [|p|p]; try lia. rewrite He, Z.add_0_r.
  destruct (Z.leb_spec (digits (Zpos m) - 53) (emax - prec)); [done|]. unfold emax, prec in *. lia.
Qed.
Lemma round_whole s m p n : digits (Zpos m) ≤ 53 → 0 ≤ n → Zpos p = Zpos m * 2 ^ n →
  binary_round prec emax s p (- n) = whole s m.
Proof.
  intros Hd Hn Hp. destruct (digits_pos m) as (H0 & _ & _). change (Zpos (digits2_pos m)) with (digits (Zpos m)) in H0.
  unfold binary_round. change (Zpos (digits2_pos p)) with (digits (Zpos p)). rewrite Hp, digits_shift by lia.
  rewrite fexp_max. set (e' := Z.max _ _). assert (He' : e' = digits (Zpos m) - 53) by lia. clearbody e'.
  destruct (shl_align_spec p (- n) e') as [H1 H2]. destruct (shl_align p (- n) e') as [mz ez]. cbn [fst snd] in *.
  destruct (decide (e' < - n)) as [Hlt|Hge].
  - destruct (H1 Hlt) as [-> ->]. apply (round_aux_whole _ _ _ _ 0); try lia.
    rewrite Hp. rewrite <- Z.mul_assoc, <- Z.pow_add_r by lia. replace (n + (- n - e')) with (53 - digits (Zpos m)) by lia. lia.
  - specialize (H2 ltac:(lia)). injection H2 as -> ->. apply (round_aux_whole _ _ _ _ (e' + n)); try lia.
    rewrite Hp. rewrite <- Z.mul_assoc, <- Z.pow_add_r by lia. f_equal. f_equal. lia.
Qed.

(** The [double] of an integer. *)
Definition exact (z : Z) : Prop := Z.abs z < 2 ^ 53.
Lemma exact_digits p : Z.pos p < 2 ^ 53 → digits (Zpos p) ≤ 53.
Proof.
  intros H. destruct (digits_spec (Zpos p)) as (H0 & H1 & H2); [lia|].
  assert (digits (Zpos p) - 1 < 53) by (apply (Z.pow_lt_mono_r_iff 2); lia). lia.
Qed.
Lemma of_Z_pos p : Z.pos p < 2 ^ 53 → of_Z (Zpos p) = whole false p.
Proof. intros H. apply (round_whole false p p 0); [by apply exact_digits|lia|lia]. Qed.
Lemma of_Z_neg p : Z.pos p < 2 ^ 53 → of_Z (Zneg p) = whole true p.
Proof. intros H. apply (round_whole true p p 0); [by apply exact_digits|lia|lia]. Qed.

(** Rounding gives an integer back, whatever zeros it carries. *)
Lemma normalize_exact z n : exact z → 0 ≤ n → binary_normalize prec emax (z * 2 ^ n) (- n) false = of_Z z.
Proof.
  intros Hz Hn. unfold exact in Hz. assert (Hp : 0 < 2 ^ n) by (apply Z.pow_pos_nonneg; lia).
  destruct z as [|p|p]; [done|..].
  - rewrite of_Z_pos by lia. destruct (Z.pos p * 2 ^ n) as [|q|q] eqn:Hq; try lia. cbn [binary_normalize].
    apply round_whole; [apply exact_digits; lia|lia|done].
  - rewrite of_Z_neg by lia. destruct (Z.neg p * 2 ^ n) as [|q|q] eqn:Hq; try lia. cbn [binary_normalize].
    apply round_whole; [apply exact_digits; lia|lia|lia].
Qed.

Lemma of_Z_finite z : exact z → z ≠ 0 → ∃ s m e, of_Z z = S754_finite s m e ∧ is_valid (S754_finite s m e) = true ∧
  s = (z <? 0) ∧ -53 ≤ e ≤ 0 ∧ ∀ n, - n ≤ e → Zpos (shl_align m e (- n)).1 = Z.abs z * 2 ^ n.
Proof.
  intros Hz Hz0. unfold exact in Hz.
  assert (Hw : ∀ s p, Z.pos p < 2 ^ 53 → ∃ m e, whole s p = S754_finite s m e ∧ is_valid (S754_finite s m e) = true ∧
    -53 ≤ e ≤ 0 ∧ ∀ n, - n ≤ e → Zpos (shl_align m e (- n)).1 = Zpos p * 2 ^ n).
  { intros s p Hp. pose proof (exact_digits p Hp) as Hd. destruct (digits_pos p) as (H0 & _ & _).
    change (Zpos (digits2_pos p)) with (digits (Zpos p)) in H0. eexists _, _. split; [reflexivity|].
    assert (Hm : 0 < Zpos p * 2 ^ (53 - digits (Zpos p))) by (apply Z.mul_pos_pos; [lia|]; apply Z.pow_pos_nonneg; lia).
    split_all; [|lia|lia|].
    - unfold is_valid, valid_binary, bounded, canonical_mantissa. rewrite andb_true_iff, Z.eqb_eq, Z.leb_le.
      change (Zpos (digits2_pos ?q)) with (digits (Zpos q)). rewrite Z2Pos.id, digits_shift, fexp_max by lia. unfold emax, prec. lia.
    - intros n Hn. rewrite align_value, Z2Pos.id, <- Z.mul_assoc, <- Z.pow_add_r by lia. f_equal. f_equal. lia. }
  destruct z as [|p|p]; [done|..].
  - rewrite of_Z_pos by lia. destruct (Hw false p) as (m & e & H1 & H2 & H3 & H4); [lia|]. by eexists _, m, e.
  - rewrite of_Z_neg by lia. destruct (Hw true p) as (m & e & H1 & H2 & H3 & H4); [lia|]. by eexists _, m, e.
Qed.

Lemma of_Z_valid z : is_valid (of_Z z) = true.
Proof. apply normalize_spec. Qed.
Lemma of_Z_is_finite z : exact z → is_finite (of_Z z) = true.
Proof.
  intros Hz. destruct (decide (z = 0)) as [->|Hz0]; [done|]. destruct (of_Z_finite z Hz Hz0) as (s & m & e & -> & _). done.
Qed.

Lemma signed_abs z n : cond_Zopp (z <? 0) (Z.abs z * 2 ^ n) = z * 2 ^ n.
Proof. destruct (Z.ltb_spec z 0); cbn [cond_Zopp]; lia. Qed.

(** Sums and differences of whole numbers are exact. *)
Lemma dadd_whole a b : exact a → exact b → exact (a + b) → dadd (of_Z a) (of_Z b) = of_Z (a + b).
Proof.
  intros Ha Hb Hab. destruct (decide (a = 0)) as [->|Ha0].
  { rewrite Z.add_0_l. destruct (decide (b = 0)) as [->|Hb0]; [done|].
    by destruct (of_Z_finite b Hb Hb0) as (s & m & e & -> & _). }
  destruct (of_Z_finite a Ha Ha0) as (s & m & e & Heq & _ & Hs & He & Hv).
  destruct (decide (b = 0)) as [->|Hb0]; [by rewrite Z.add_0_r, Heq|].
  destruct (of_Z_finite b Hb Hb0) as (s' & m' & e' & Heq' & _ & Hs' & He' & Hv').
  rewrite Heq, Heq'. unfold dadd, SFadd. cbn zeta. rewrite <- (Z.opp_involutive (Z.min e e')).
  rewrite Hv, Hv', Hs, Hs', !signed_abs, <- Z.mul_add_distr_r by lia. apply normalize_exact; [done|lia].
Qed.
Lemma dsub_whole a b : exact a → exact b → exact (a - b) → dsub (of_Z a) (of_Z b) = of_Z (a - b).
Proof.
  intros Ha Hb Hab. destruct (decide (b = 0)) as [->|Hb0].
  { rewrite Z.sub_0_r. destruct (decide (a = 0)) as [->|Ha0]; [done|].
    by destruct (of_Z_finite a Ha Ha0) as (s & m & e & -> & _). }
  destruct (of_Z_finite b Hb Hb0) as (s' & m' & e' & Heq' & _ & Hs' & He' & Hv').
  destruct (decide (a = 0)) as [->|Ha0].
  { rewrite Heq'. change (of_Z 0) with dzero. cbn [dsub SFsub]. rewrite Hs'. destruct b as [|p|p]; [done|..]; unfold exact in *.
    - change (0 - Z.pos p) with (Z.neg p). rewrite of_Z_pos in Heq' by lia. rewrite of_Z_neg by lia. unfold whole in *. by simplify_eq.
    - change (0 - Z.neg p) with (Z.pos p). rewrite of_Z_neg in Heq' by lia. rewrite of_Z_pos by lia. unfold whole in *. by simplify_eq. }
  destruct (of_Z_finite a Ha Ha0) as (s & m & e & Heq & _ & Hs & He & Hv).
  rewrite Heq, Heq'. unfold dsub, SFsub. cbn zeta. rewrite <- (Z.opp_involutive (Z.min e e')).
  rewrite Hv, Hv', Hs, Hs', !signed_abs, <- Z.mul_sub_distr_r by lia. apply normalize_exact; [done|lia].
Qed.

(** Whole numbers compare as integers. *)
Lemma compare_whole a b : exact a → exact b → SFcompare (of_Z a) (of_Z b) = Some (a ?= b).
Proof.
  intros Ha Hb. destruct (decide (a = 0)) as [->|Ha0]; destruct (decide (b = 0)) as [->|Hb0]; [done|..].
  - destruct (of_Z_finite b Hb Hb0) as (s & m & e & -> & _ & -> & _). change (of_Z 0) with (S754_zero false). cbn [SFcompare]. destruct (Z.ltb_spec b 0), (Z.compare_spec 0 b); first [done|lia].
  - destruct (of_Z_finite a Ha Ha0) as (s & m & e & -> & _ & -> & _). change (of_Z 0) with (S754_zero false). cbn [SFcompare]. destruct (Z.ltb_spec a 0), (Z.compare_spec a 0); first [done|lia].
  - destruct (of_Z_finite a Ha Ha0) as (s & m & e & -> & V & -> & He & Hv).
    destruct (of_Z_finite b Hb Hb0) as (s' & m' & e' & -> & V' & -> & He' & Hv').
    pose proof (aligned_compare m e m' e' V V') as Hc. cbn zeta in Hc. rewrite <- (Z.opp_involutive (Z.min e e')) in Hc.
    rewrite Hv, Hv', <- Zmult_compare_compat_r in Hc by first [lia|apply Z.lt_gt, Z.pow_pos_nonneg; lia]. cbn [SFcompare].
    destruct (Z.ltb_spec a 0), (Z.ltb_spec b 0).
    + rewrite !Z.abs_neq in Hc by lia. transitivity (Some (CompOpp (- a ?= - b))); [|by rewrite Z.compare_opp, <- (Z.compare_antisym b a)].
      rewrite <- Hc. by destruct (e ?= e').
    + f_equal. symmetry. apply Z.compare_lt_iff. lia.
    + f_equal. symmetry. apply Z.compare_gt_iff. lia.
    + rewrite !Z.abs_eq in Hc by lia. rewrite <- Hc. by destruct (e ?= e').
Qed.
Lemma dle_whole a b : exact a → exact b → dle (of_Z a) (of_Z b) = (a <=? b).
Proof. intros Ha Hb. unfold dle, SFleb, Z.leb. rewrite compare_whole by done. by destruct (a ?= b). Qed.
Lemma dlt_whole a b : exact a → exact b → dlt (of_Z a) (of_Z b) = (a <? b).
Proof. intros Ha Hb. unfold dlt, SFltb, Z.ltb. rewrite compare_whole by done. by destruct (a ?= b). Qed.

(** [static_cast<int>] of a whole number. *)
Lemma to_int_whole z : in_signed 32 z → to_int (of_Z z) = Some z.
Proof.
  intros Hz. destruct (decide (z = 0)) as [->|Hz0]; [done|].
  assert (He : exact z) by (unfold in_signed in Hz; unfold exact; lia).
  destruct (of_Z_finite z He Hz0) as (s & m & e & -> & _ & -> & He1 & Hv). cbn [to_int].
  specialize (Hv (- e) ltac:(lia)). rewrite align_value, Z.opp_involutive, Z.sub_diag, Z.pow_0_r, Z.mul_1_r in Hv by lia.
  assert (Hm : (if 0 <=? e then Z.shiftl (Zpos m) e else Z.shiftr (Zpos m) (- e)) = Z.abs z).
  { destruct (Z.leb_spec 0 e).
    - assert (e = 0) as -> by lia. rewrite Z.shiftl_0_r. rewrite Hv. lia.
    - rewrite Z.shiftr_div_pow2, Hv by lia. apply Z.div_mul. pose proof (Z.pow_pos_nonneg 2 (- e)). lia. }
  rewrite Hm. replace (if z <? 0 then - Z.abs z else Z.abs z) with z by (destruct (Z.ltb_spec z 0); lia). by rewrite decide_True.
Qed.

(** A whole number that is not more than the truncation is not more than the number. *)
Lemma to_int_le x z k : is_valid x = true → dle dzero x = true → to_int x = Some z → 0 ≤ k ≤ z → dle (of_Z k) x = true.
Proof.
  intros Hv Hx Ht Hk. destruct (decide (k = 0)) as [->|Hk0]; [done|].
  destruct x as [s|s| |s m e]; [cbn in Ht; simplify_eq; lia|done|done|].
  assert (s = false) as -> by by destruct s. cbn [to_int] in Ht.
  set (t := if 0 <=? e then Z.shiftl (Zpos m) e else Z.shiftr (Zpos m) (- e)) in *. destruct (decide (in_signed 32 t)) as [Hr|]; [|done].
  injection Ht as Ht. rewrite <- Ht in Hk. clear Ht. assert (Hke : exact k) by (unfold in_signed, exact in *; lia).
  destruct (of_Z_finite k Hke Hk0) as (s & mk & ek & -> & Vk & -> & Hek & Hal). destruct (Z.ltb_spec k 0); [lia|].
  unfold dle, SFleb, SFcompare. pose proof (aligned_compare mk ek m e Vk Hv) as Hc. cbn zeta in Hc. rewrite Hc.
  enough (Hle : Zpos (shl_align mk ek (Z.min ek e)).1 ≤ Zpos (shl_align m e (Z.min ek e)).1).
  { destruct (Z.compare_spec (Zpos (shl_align mk ek (Z.min ek e)).1) (Zpos (shl_align m e (Z.min ek e)).1)); done || lia. }
  rewrite <- (Z.opp_involutive (Z.min ek e)) at 1. rewrite Hal, align_value, Z.abs_eq by lia.
  assert (Hp : 0 < 2 ^ (- Z.min ek e)) by (apply Z.pow_pos_nonneg; lia).
  subst t. destruct (Z.leb_spec 0 e) as [He|He].
  - rewrite Z.shiftl_mul_pow2 in Hk by done. replace (e - Z.min ek e) with (e + - Z.min ek e) by lia.
    rewrite Z.pow_add_r by lia. nia.
  - rewrite Z.shiftr_div_pow2 in Hk by lia. assert (Hq : 0 < 2 ^ (- e)) by (apply Z.pow_pos_nonneg; lia).
    pose proof (Z.mul_div_le (Zpos m) (2 ^ (- e)) Hq).
    replace (- Z.min ek e) with ((e - Z.min ek e) + - e) by lia. rewrite Z.pow_add_r by lia.
    assert (0 ≤ 2 ^ (e - Z.min ek e)) by (apply Z.pow_nonneg; lia).
    assert (k * 2 ^ (- e) ≤ Zpos m) by nia. rewrite (Z.mul_comm (2 ^ (e - _))), Z.mul_assoc. by apply Z.mul_le_mono_nonneg_r.
Qed.
