(* ===== verification/IStream.v ===== *)
(** [std::cin] as the programs with formatted input use it: the characters that are left and
    the two state bits; and the two loops with which they skip the rest of a line. *)

From S2P Require Import Prelude Double.
From Stdlib Require Import Ascii.

(** * The stream *)

Record istream : Type := IStream { rest : list ascii; failbit : bool; eofbit : bool }.
Definition good (s : istream) : bool := negb (failbit s) && negb (eofbit s).
(** [if (cin)]. *)
Definition ok (s : istream) : bool := negb (failbit s).
Definition open (text : list ascii) : istream := IStream text false false.

Definition newline : ascii := "010"%char.
(** [isspace] in the C locale. *)
Definition is_space (c : ascii) : bool :=
  let n := nat_of_ascii c in (n =? 32) || ((9 <=? n) && (n <=? 13)).
Definition is_digit (c : ascii) : bool :=
  let n := nat_of_ascii c in (48 <=? n) && (n <=? 57).

Fixpoint skip_spaces (l : list ascii) : list ascii :=
  match l with c :: l' => if is_space c then skip_spaces l' else l | [] => [] end.

(** The sentry of a formatted input: without it nothing is read. *)
Definition sentry (s : istream) : bool * istream :=
  if good s then
    match skip_spaces (rest s) with
    | [] => (false, IStream [] true true)
    | l => (true, IStream l false false)
    end
  else (false, IStream (rest s) true (eofbit s)).

(** [cin.get()]; [None] is [EOF]. *)
Definition get (s : istream) : option ascii * istream :=
  if good s then
    match rest s with
    | [] => (None, IStream [] true true)
    | c :: l => (Some c, IStream l false false)
    end
  else (None, IStream (rest s) true (eofbit s)).

(** [getline(cin, str)]; [None] leaves the string alone. *)
Fixpoint line_of (l : list ascii) : list ascii * option (list ascii) :=
  match l with
  | [] => ([], None)
  | c :: l =>
      if Ascii.eqb c newline then ([], Some l)
      else let '(a, r) := line_of l in (c :: a, r)
  end.
Definition getline (s : istream) : option (list ascii) * istream :=
  if good s then
    match line_of (rest s) with
    | (a, Some r) => (Some a, IStream r false false)
    | (a, None) => (Some a, IStream [] (bool_decide (a = [])) true)
    end
  else (None, IStream (rest s) true (eofbit s)).

(** [cin >> c] for a [char], and for a [uint8_t], which is one. *)
Definition read_char (s : istream) : option ascii * istream :=
  match sentry s with (true, s) => get s | (false, s) => (None, s) end.

(** [cin >> n] for an integer of [w] bits: an optional sign and digits; without digits 0 and
    a failure, out of range the nearest value and a failure. [None] leaves [n] alone. *)
Fixpoint take_digits (l : list ascii) : list ascii * list ascii :=
  match l with
  | c :: l' => if is_digit c then let '(a, r) := take_digits l' in (c :: a, r) else ([], l)
  | [] => ([], [])
  end.
(** A sign that may be there. *)
Definition take_sign (l : list ascii) : bool * list ascii :=
  match l with
  | c :: l' => if Ascii.eqb c "-" then (true, l') else if Ascii.eqb c "+" then (false, l') else (false, l)
  | [] => (false, l)
  end.
Definition digits_value (ds : list ascii) : Z :=
  foldl (λ z c, (z * 10 + (Z.of_nat (nat_of_ascii c) - 48))%Z) 0%Z ds.
Definition read_int (w : Z) (s : istream) : option Z * istream :=
  match sentry s with
  | (false, s) => (None, s)
  | (true, s) =>
      let '(neg, l) := take_sign (rest s) in
      let '(ds, r) := take_digits l in
      let eof := bool_decide (r = []) in
      match ds with
      | [] => (Some 0%Z, IStream r true eof)
      | _ =>
          let z := if neg then (- digits_value ds)%Z else digits_value ds in
          if (z <? - 2 ^ (w - 1))%Z then (Some (- 2 ^ (w - 1))%Z, IStream r true eof)
          else if (2 ^ (w - 1) <=? z)%Z then (Some (2 ^ (w - 1) - 1)%Z, IStream r true eof)
          else (Some z, IStream r false eof)
      end
  end.

(** [cin >> x] for a [double]: a sign, digits with or without a point, and an exponent.
    What is not a number reads as 0 and a failure, what is too large as the largest
    number and a failure. *)
Definition take_fraction (l : list ascii) : list ascii * list ascii :=
  match l with
  | c :: l' => if Ascii.eqb c "." then take_digits l' else ([], l)
  | [] => ([], l)
  end.
(** The exponent; [None] is an exponent without digits. *)
Definition take_exponent (l : list ascii) : option Z * list ascii :=
  match l with
  | c :: l' =>
      if Ascii.eqb c "e" || Ascii.eqb c "E" then
        let '(neg, l) := take_sign l' in
        let '(ds, r) := take_digits l in
        (match ds with [] => None | _ => Some (if neg then (- digits_value ds)%Z else digits_value ds) end, r)
      else (Some 0%Z, l)
  | [] => (Some 0%Z, l)
  end.
Definition read_double (s : istream) : option double * istream :=
  match sentry s with
  | (false, s) => (None, s)
  | (true, s) =>
      let '(neg, l) := take_sign (rest s) in
      let '(whole, l) := take_digits l in
      let '(fraction, l) := take_fraction l in
      match whole ++ fraction with
      | [] => (Some dzero, IStream l true (bool_decide (l = [])))
      | ds =>
          let '(e, r) := take_exponent l in
          let eof := bool_decide (r = []) in
          match e with
          | None => (Some dzero, IStream r true eof)
          | Some k =>
              let x := decimal neg (digits_value ds) (k - Z.of_nat (length fraction)) in
              if is_finite x then (Some x, IStream r false eof) else (Some (max_double neg), IStream r true eof)
          end
      end
  end.

(** [cin >> str] for a [std::string]: a word; [None] leaves the string alone. *)
Fixpoint take_word (l : list ascii) : list ascii * list ascii :=
  match l with
  | c :: l' => if is_space c then ([], l) else let '(a, r) := take_word l' in (c :: a, r)
  | [] => ([], [])
  end.
Definition read_word (s : istream) : option (list ascii) * istream :=
  match sentry s with
  | (true, s) => let '(w, r) := take_word (rest s) in (Some w, IStream r false (bool_decide (r = [])))
  | (false, s) => (None, s)
  end.

(** [while (cin && cin.get() != '\n') continue;] *)
Fixpoint skip_line_checked (fuel : nat) (s : istream) : option istream :=
  match fuel with
  | 0 => None
  | S fuel =>
      if ok s then
        match get s with
        | (Some c, s) => if Ascii.eqb c newline then Some s else skip_line_checked fuel s
        | (None, s) => skip_line_checked fuel s
        end
      else Some s
  end.
(** [while (cin.get() != '\n') continue;] *)
Fixpoint skip_line (fuel : nat) (s : istream) : option istream :=
  match fuel with
  | 0 => None
  | S fuel =>
      match get s with
      | (Some c, s) => if Ascii.eqb c newline then Some s else skip_line fuel s
      | (None, s) => skip_line fuel s
      end
  end.

(** * Lemmas *)

Lemma get_bad s : good s = false → get s = (None, IStream (rest s) true (eofbit s)).
Proof. unfold get. by intros ->. Qed.
Lemma good_fresh l : good (IStream l false false) = true.
Proof. done. Qed.

(** The checked loop always ends: with the line behind it, or with the stream failed. *)
Lemma skip_line_checked_ends s fuel : length (rest s) + 2 < fuel →
  ∃ s', skip_line_checked fuel s = Some s' ∧ length (rest s') <= length (rest s).
Proof.
  revert s. induction fuel as [|fuel IH]; intros s Hf; [lia|]. cbn [skip_line_checked].
  destruct (ok s) eqn:Hok; [|by exists s]. destruct (good s) eqn:Hg.
  - unfold get. rewrite Hg. destruct (rest s) as [|c l] eqn:Hr.
    + destruct fuel as [|fuel]; [cbn in Hf; lia|]. exists (IStream [] true true). by split.
    + destruct (Ascii.eqb c newline); [exists (IStream l false false); split; [done|cbn; lia]|].
      destruct (IH (IStream l false false)) as (s' & Hs & Hl); [cbn in *; lia|]. exists s'. split; [done|]. cbn in *. lia.
  - rewrite get_bad by done. destruct fuel as [|fuel]; [lia|]. eexists. by split.
Qed.

(** The other one ends exactly when the stream is good and there is an end of line in it. *)
Lemma skip_line_bad s fuel : good s = false → skip_line fuel s = None.
Proof.
  revert s. induction fuel as [|fuel IH]; intros s Hg; [done|]. cbn [skip_line]. rewrite get_bad by done. by apply IH.
Qed.
Lemma skip_line_none l fuel : newline ∉ l → skip_line fuel (open l) = None.
Proof.
  revert l. induction fuel as [|fuel IH]; intros l Hl; [done|]. cbn. destruct l as [|c l]; cbn.
  - by apply skip_line_bad.
  - apply not_elem_of_cons in Hl as [Hc Hl]. destruct (Ascii.eqb_spec c newline) as [->|]; [done|]. by apply IH.
Qed.
Lemma skip_line_some l r fuel : newline ∉ l → length l < fuel → skip_line fuel (open (l ++ newline :: r)) = Some (open r).
Proof.
  revert fuel. induction l as [|c l IH]; intros [|fuel] Hl Hf; cbn in *; try lia; [done|].
  apply not_elem_of_cons in Hl as [Hc Hl]. destruct (Ascii.eqb_spec c newline) as [->|]; [done|]. apply IH; [done|lia].
Qed.

Lemma skip_line_checked_some l r fuel : newline ∉ l → length l < fuel →
  skip_line_checked fuel (open (l ++ newline :: r)) = Some (open r).
Proof.
  revert fuel. induction l as [|c l IH]; intros [|fuel] Hl Hf; cbn in *; try lia; [done|].
  apply not_elem_of_cons in Hl as [Hc Hl]. destruct (Ascii.eqb_spec c newline) as [->|]; [done|]. apply IH; [done|lia].
Qed.
Lemma getline_some l r : newline ∉ l → getline (open (l ++ newline :: r)) = (Some l, open r).
Proof.
  intros Hl. unfold getline. cbn [good open failbit eofbit negb andb rest].
  assert (Hline : line_of (l ++ newline :: r) = (l, Some r)).
  { induction l as [|c l IH]; cbn; [done|]. apply not_elem_of_cons in Hl as [Hc Hl].
    destruct (Ascii.eqb_spec c newline) as [->|]; [done|]. by rewrite IH. }
  by rewrite Hline.
Qed.

(** ** What reading does to the stream *)

(** A later state of the stream: what is left is the end of what was left, and a stream that
    was not good has not become so. *)
Definition later (s s' : istream) : Prop :=
  rest s' `suffix_of` rest s ∧ (good s = false → good s' = false).
#[export] Instance later_preorder : PreOrder later.
Proof.
  split; [intros s; by split|]. intros a b c [H1 H2] [H3 H4]. split; [by etransitivity|]. auto.
Qed.

Definition lines_left (s : istream) : nat := length (filter (eq newline) (rest s)).
Lemma later_lines s s' : later s s' → lines_left s' <= lines_left s.
Proof. intros [[k Hk] _]. unfold lines_left. rewrite Hk, filter_app, length_app. lia. Qed.

Lemma skip_spaces_suffix l : skip_spaces l `suffix_of` l.
Proof. induction l as [|c l IH]; cbn; [done|]. destruct (is_space c); [by apply suffix_cons_r|done]. Qed.
Lemma take_digits_suffix l : (take_digits l).2 `suffix_of` l.
Proof.
  induction l as [|c l IH]; cbn; [done|]. destruct (is_digit c); [|done].
  destruct (take_digits l). by apply suffix_cons_r.
Qed.
Lemma take_sign_suffix l : (take_sign l).2 `suffix_of` l.
Proof. destruct l as [|c l]; cbn; [done|]. repeat case_match; first [done|by apply suffix_cons_r]. Qed.
Lemma take_fraction_suffix l : (take_fraction l).2 `suffix_of` l.
Proof.
  destruct l as [|c l]; cbn; [done|]. destruct (Ascii.eqb c "."); [|done]. apply suffix_cons_r, take_digits_suffix.
Qed.
Lemma take_exponent_suffix l : (take_exponent l).2 `suffix_of` l.
Proof.
  destruct l as [|c l]; cbn; [done|]. destruct (_ || _); [|done].
  pose proof (take_sign_suffix l) as H1. destruct (take_sign l) as [neg l1].
  pose proof (take_digits_suffix l1) as H2. destruct (take_digits l1) as [ds r]. cbn in *.
  apply suffix_cons_r. by etransitivity.
Qed.

Lemma sentry_later s : later s (sentry s).2.
Proof.
  unfold sentry. destruct (good s) eqn:Hg; [|split; [done|by cbn]].
  pose proof (skip_spaces_suffix (rest s)) as H. destruct (skip_spaces (rest s)); split; try done; cbn; congruence.
Qed.
Lemma sentry_true s s' : sentry s = (true, s') → good s = true.
Proof. unfold sentry. by destruct (good s). Qed.
Lemma get_later s : later s (get s).2.
Proof.
  unfold get. destruct (good s) eqn:Hg; [|split; [done|by cbn]].
  destruct (rest s) as [|c l] eqn:Hr; split; cbn; rewrite ?Hr; try congruence; [done|by apply suffix_cons_r].
Qed.
Lemma read_char_later s : later s (read_char s).2.
Proof.
  unfold read_char. pose proof (sentry_later s) as H. destruct (sentry s) as [[] s1]; cbn in *; [|done].
  etransitivity; [exact H|apply get_later].
Qed.
(** After the sentry the stream was good: only the suffix counts. *)
Lemma parsed_later s s1 l f e : sentry s = (true, s1) → l `suffix_of` rest s1 → later s (IStream l f e).
Proof.
  intros Hs Hl. split; [|by rewrite (sentry_true _ _ Hs)].
  pose proof (sentry_later s) as [H _]. rewrite Hs in H. cbn in *. by etransitivity.
Qed.
Lemma read_int_later w s : later s (read_int w s).2.
Proof.
  unfold read_int. pose proof (sentry_later s) as H. destruct (sentry s) as [[] s1] eqn:Hs; [|done].
  pose proof (take_sign_suffix (rest s1)) as H1. destruct (take_sign (rest s1)) as [neg l1].
  pose proof (take_digits_suffix l1) as H2. destruct (take_digits l1) as [ds r]. cbn in *.
  destruct ds; [|destruct (_ <? _)%Z; [|destruct (_ <=? _)%Z]]; (eapply parsed_later; [exact Hs|by etransitivity]).
Qed.
Lemma read_double_later s : later s (read_double s).2.
Proof.
  unfold read_double. pose proof (sentry_later s) as H. destruct (sentry s) as [[] s1] eqn:Hs; [|done].
  pose proof (take_sign_suffix (rest s1)) as H1. destruct (take_sign (rest s1)) as [neg l1].
  pose proof (take_digits_suffix l1) as H2. destruct (take_digits l1) as [ds l2].
  pose proof (take_fraction_suffix l2) as H3. destruct (take_fraction l2) as [fs l3].
  pose proof (take_exponent_suffix l3) as H4. destruct (take_exponent l3) as [e r]. cbn in *.
  assert (H5 : l3 `suffix_of` rest s1) by (do 2 (etransitivity; [eassumption|]); done).
  assert (H6 : r `suffix_of` rest s1) by by etransitivity.
  destruct (ds ++ fs); [by eapply parsed_later|]. destruct e; [|by eapply parsed_later].
  destruct (is_finite _); by eapply parsed_later.
Qed.
(** A line that was read has taken its end with it, or the stream is no longer good. *)
Lemma line_of_lines l : match line_of l with (_, Some r) => ∃ a, l = a ++ newline :: r | (_, None) => True end.
Proof.
  induction l as [|c l IH]; cbn; [done|]. destruct (Ascii.eqb_spec c newline) as [->|]; [by exists []|].
  destruct (line_of l) as [a [r|]]; [|done]. destruct IH as [b ->]. by exists (c :: b).
Qed.
Lemma getline_later s : later s (getline s).2 ∧
  (good (getline s).2 = true → lines_left (getline s).2 < lines_left s).
Proof.
  unfold getline. destruct (good s) eqn:Hg; [|split; [split; [done|by cbn]|by cbn]].
  pose proof (line_of_lines (rest s)) as H. destruct (line_of (rest s)) as [a [r|]].
  - destruct H as [b Hb]. split; [split; [rewrite Hb; exists (b ++ [newline]); cbn; by rewrite <- (assoc_L (++))|congruence]|].
    intros _. unfold lines_left. rewrite Hb, filter_app, length_app. cbn [rest].
    rewrite filter_cons_True by done. cbn. lia.
  - split; [split; [apply suffix_nil|congruence]|]. unfold good. cbn. rewrite andb_false_r. done.
Qed.
(** The loop that ends was on a good stream, and has taken an end of line. *)
Lemma skip_line_ends fuel s s' : skip_line fuel s = Some s' →
  good s = true ∧ good s' = true ∧ later s s' ∧ lines_left s' < lines_left s.
Proof.
  revert s. induction fuel as [|fuel IH]; intros s H; [done|].
  destruct (good s) eqn:Hg; [|by rewrite skip_line_bad in H]. split; [done|]. cbn [skip_line] in H.
  pose proof (get_later s) as Hl. unfold get in *. rewrite Hg in *. destruct (rest s) as [|c l] eqn:Hr.
  - by rewrite skip_line_bad in H.
  - cbn [snd] in Hl. destruct (Ascii.eqb_spec c newline) as [->|Hc].
    + simplify_eq. split; [done|]. split; [done|]. unfold lines_left. rewrite Hr. cbn [rest]. rewrite filter_cons_True by done. cbn. lia.
    + apply IH in H as (_ & H0 & H1 & H2). apply later_lines in Hl as Hn. split; [done|]. split; [by etransitivity|lia].
Qed.

(** ** A whole number among others *)

Lemma take_digits_app ds c r : Forall (λ d, is_digit d = true) ds → is_digit c = false →
  take_digits (ds ++ c :: r) = (ds, c :: r).
Proof.
  intros Hds Hc. induction Hds as [|d ds Hd _ IH]; cbn; [by rewrite Hc|]. by rewrite Hd, IH.
Qed.
Lemma digit_facts d : is_digit d = true →
  is_space d = false ∧ Ascii.eqb d "-" = false ∧ Ascii.eqb d "+" = false.
Proof. destruct d as [[] [] [] [] [] [] [] []]; cbn; done. Qed.
Lemma space_facts c : is_space c = true →
  is_digit c = false ∧ Ascii.eqb c "." = false ∧ Ascii.eqb c "e" = false ∧ Ascii.eqb c "E" = false.
Proof. destruct c as [[] [] [] [] [] [] [] []]; cbn; done. Qed.
Lemma skip_spaces_app sp l : Forall (λ c, is_space c = true) sp → skip_spaces (sp ++ l) = skip_spaces l.
Proof. induction 1 as [|c sp Hc _ IH]; cbn; [done|]. by rewrite Hc. Qed.

(** Digits between spaces are read as the number they write. *)
Lemma read_double_digits sp ds c r :
  Forall (λ c, is_space c = true) sp → ds ≠ [] → Forall (λ d, is_digit d = true) ds → is_space c = true →
  is_finite (decimal false (digits_value ds) 0) = true →
  read_double (open (sp ++ ds ++ c :: r)) = (Some (decimal false (digits_value ds) 0), open (c :: r)).
Proof.
  intros Hsp Hne Hds Hc Hfin. unfold read_double, sentry. cbn [good open failbit eofbit negb andb rest].
  rewrite skip_spaces_app by done. destruct ds as [|d ds]; [done|]. pose proof Hds as Hds'.
  apply Forall_cons in Hds as [Hd Hds]. destruct (digit_facts d Hd) as (H1 & H2 & H3).
  destruct (space_facts c Hc) as (H4 & H5 & H6 & H7). cbn [app skip_spaces]. rewrite H1. cbn [rest].
  cbn [take_sign]. rewrite H2, H3. change (d :: ds ++ c :: r) with ((d :: ds) ++ c :: r).
  rewrite take_digits_app by done. cbn [take_fraction]. rewrite H5. cbn [app]. rewrite app_nil_r. cbn [take_exponent]. rewrite H6, H7.
  cbn [orb length]. change (0 - Z.of_nat 0)%Z with 0%Z. by rewrite Hfin.
Qed.
