(* ===== verification/Console.v ===== *)
(** [std::cout] with its format, and a program that uses it and [std::cin]. A number that is
    printed stands in the output with the format it is printed in; how it is written down
    is the library's. *)

From S2P Require Import Prelude Double IStream.
From Stdlib Require Import Ascii.

Inductive floatfield : Type := Default | Fixed | Scientific.
Inductive item : Type :=
  | Text (s : string)
  | Name (n : list ascii)
  | Long (n : Z)
  | Dbl (f : floatfield) (precision width : Z) (x : double)
  | Endl.
Definition is_number (i : item) : bool := match i with Dbl _ _ _ _ => true | _ => false end.
Record ostream : Type := OStream { field : floatfield; precision : Z; out : list item }.

Definition put (l : list item) (s : ostream) : ostream := OStream (field s) (precision s) (out s ++ l).
(** A number with the format of the moment. *)
Definition put_double (width : Z) (x : double) (s : ostream) : ostream := put [Dbl (field s) (precision s) width x] s.
Definition say (l : string) : ostream → ostream := put [Text l; Endl].
(** [cout.setf(f, floatfield)] and [cout.precision(p)] give the former value back. *)
Definition setf (f : floatfield) (s : ostream) : floatfield * ostream := (field s, OStream f (precision s) (out s)).
Definition set_precision (p : Z) (s : ostream) : Z * ostream := (precision s, OStream (field s) p (out s)).


(** * A program with both *)

Record io : Type := Io { cin : istream; cout : ostream }.
Definition print (l : list item) : ST io () := st_modify (λ s, Io (cin s) (put l (cout s))).
Definition input {A} (f : istream → A * istream) : ST io A := λ s,
  let '(a, c) := f (cin s) in Some (a, Io c (cout s)).
(** [cin >> x]: a failure before the first character leaves [x] as it was. *)
Definition read_into {A} (f : istream → option A * istream) (x : option A) : ST io (option A) :=
  a ← input f; mret (match a with Some _ => a | None => x end).

(** [while (cin.get() != '\n') continue;] *)
Definition skip_rest (fuel : nat) : ST io () := λ s,
  (λ c, ((), Io c (cout s))) <$> skip_line fuel (cin s).

(** * The lines a program needs *)

(** A part of the program that has taken [n] ends of line when it leaves the stream good. *)
Definition takes {A} (n : nat) (m : ST io A) : Prop := ∀ s a s', m s = Some (a, s') →
  later (cin s) (cin s') ∧ (good (cin s') = true → n + lines_left (cin s') <= lines_left (cin s)).
Lemma takes_bind {A B} n1 n2 n (m : ST io A) (f : A → ST io B) :
  takes n1 m → (∀ a, takes n2 (f a)) → n = n1 + n2 → takes n (m ≫= f).
Proof.
  intros Hm Hf -> s b s' (a & s1 & H1 & H2)%st_bind_Some.
  destruct (Hm _ _ _ H1) as [L1 N1]. destruct (Hf _ _ _ _ H2) as [L2 N2]. split; [by etransitivity|].
  intros Hg. specialize (N2 Hg). enough (good (cin s1) = true) by (specialize (N1 ltac:(done)); lia).
  destruct (good (cin s1)) eqn:Hg1; [done|]. destruct L2 as [_ L2]. by rewrite L2 in Hg.
Qed.
Lemma takes_ret {A} (a : A) : takes 0 (mret a).
Proof. intros s b s' H. unfold mret, st_ret in H. simplify_eq. split; [done|lia]. Qed.
Lemma takes_lift {A} (o : option A) : takes 0 (st_lift o).
Proof. intros s b s' H. unfold st_lift in H. destruct o; simplify_eq. split; [done|lia]. Qed.
Lemma takes_print l : takes 0 (print l).
Proof. intros s b s' H. unfold print, st_modify in H. simplify_eq. split; [done|cbn; lia]. Qed.
Lemma takes_input {A} (f : istream → A * istream) : (∀ s, later s (f s).2) → takes 0 (input f).
Proof.
  intros Hf s a s' H. unfold input in H. specialize (Hf (cin s)). destruct (f (cin s)) as [b c]. simplify_eq.
  split; [done|]. intros _. by apply later_lines.
Qed.
Lemma takes_getline : takes 1 (input getline).
Proof.
  intros s a s' H. unfold input in H. pose proof (getline_later (cin s)) as [H1 H2]. destruct (getline (cin s)).
  simplify_eq. split; [done|exact H2].
Qed.
Lemma takes_skip fuel : takes 1 (skip_rest fuel).
Proof.
  intros s a s' H. unfold skip_rest in H. destruct (skip_line fuel (cin s)) as [c|] eqn:Hc; [|done]. cbn in H. simplify_eq.
  apply skip_line_ends in Hc as (_ & _ & H1 & H2). split; [done|cbn; lia].
Qed.
(** What follows the loop starts on a good stream. *)
Lemma skip_rest_good fuel s s' : skip_rest fuel s = Some ((), s') → good (cin s') = true.
Proof.
  unfold skip_rest. destruct (skip_line fuel (cin s)) eqn:Hc; [|done]. intros H. cbn in H. simplify_eq.
  by apply skip_line_ends in Hc as (_ & Hg & _).
Qed.
Lemma takes_read_into {A} (f : istream → option A * istream) x : (∀ s, later s (f s).2) → takes 0 (read_into f x).
Proof. intros Hf. eapply takes_bind; [by apply takes_input|intros a; apply takes_ret|done]. Qed.
#[export] Hint Resolve takes_ret takes_lift takes_print takes_getline takes_skip takes_read_into takes_input
  read_int_later read_double_later read_char_later : aoi.
(** A chain of parts that take nothing. *)
Ltac takes0 := repeat (eapply (takes_bind 0 0); [by auto with aoi|intros ?|done]); auto with aoi.
