(* ===== verification/Workers.v ===== *)
(** [src/cpp/cpp_class/class_inheritance/virtual_base/workermi.h] and [workermi.cpp]: waiters,
    singers and singing waiters with one virtual base, and their input and output.

    A singer's voice is a [uint8_t], which [operator>>] reads as a character: the number
    that the menu asks for becomes the code of its digit, and an index outside [pv]. *)

From S2P Require Import Prelude IStream Console.
From Stdlib Require Import Ascii.

(** * Data *)

Record worker : Type := Worker { fullname : list ascii; id : Z }.

(** The objects: the virtual base once, and the members of the classes between. *)
Inductive employee : Type :=
  | Waiter (w : worker) (panache : Z)
  | Singer (w : worker) (voice : nat)
  | SingingWaiter (w : worker) (panache : Z) (voice : nat).

Definition base (e : employee) : worker := match e with Waiter w _ | Singer w _ | SingingWaiter w _ _ => w end.

Definition other : nat := 0.
Definition pv : list string := ["other"; "alto"; "contralto"; "soprano"; "bass"; "baritone"; "tenor"]%string.
Definition vtypes : nat := 7.

(** The constructors. A most derived object initialises the virtual base itself. *)
Definition no_worker : worker := Worker (String.list_ascii_of_string "NONE") 0.
Definition new_Waiter : employee := Waiter no_worker 0.
Definition Waiter_of (wk : worker) (p : Z) : employee := Waiter wk p.
Definition new_Singer : employee := Singer no_worker other.
Definition Singer_of (wk : worker) (v : nat) : employee := Singer wk v.
Definition new_SingingWaiter : employee := SingingWaiter no_worker 0 other.
Definition SingingWaiter_of (wk : worker) (p : Z) (v : nat) : employee := SingingWaiter wk p v.
Definition SingingWaiter_panache (wk : worker) (p : Z) : employee := SingingWaiter wk p other.
Definition SingingWaiter_voice (wk : worker) (v : nat) : employee := SingingWaiter wk 0 v.

(** [while (cin && cin.get() != '\n') continue;] The fuel is more than the loop can take. *)
Definition skip_checked : ST io () := λ s,
  (λ c, ((), Io c (cout s))) <$> skip_line_checked (length (rest (cin s)) + 3) (cin s).

(** * [Get] *)

Definition Worker_Get (w : worker) : ST io worker :=
  n ← input getline;
  print [Text "Enter worker's ID: "];;
  i ← input (read_int 64);
  skip_checked;;
  mret (Worker (default (fullname w) n) (default (id w) i)).

Definition Waiter_Get (panache : Z) : ST io Z :=
  print [Text "Enter waiter's panache rating: "];;
  p ← input (read_int 32);
  skip_checked;;
  mret (default panache p).

(** The numbers and the names, four on a line. *)
Definition menu : list item :=
  concat (imap (λ i v, [Long (Z.of_nat i); Text ": "; Text v; Text " "] ++ (if i mod 4 =? 3 then [Endl] else [])) pv) ++
  (if vtypes mod 4 =? 0 then [] else [Endl]).
Definition Singer_Get (voice : nat) : ST io nat :=
  print [Text "Enter number for singer's vocal range: "; Endl];;
  print menu;;
  v ← input read_char;
  skip_checked;;
  mret (default voice (nat_of_ascii <$> v)).

(** * [Data] *)

Definition Worker_Data (w : worker) : ST io () :=
  print [Text "Name: "; Name (fullname w); Endl];; print [Text "Employee ID: "; Long (id w); Endl].
Definition Waiter_Data (panache : Z) : ST io () := print [Text "Panache rating"; Long panache; Endl].
(** [pv[voice]] *)
Definition Singer_Data (voice : nat) : ST io () :=
  v ← st_lift (pv !! voice); print [Text "Vocal range: "; Text v; Endl].

Definition SingingWaiter_Get (panache : Z) (voice : nat) : ST io (Z * nat) :=
  p ← Waiter_Get panache; v ← Singer_Get voice; mret (p, v).
Definition SingingWaiter_Data (panache : Z) (voice : nat) : ST io () := Waiter_Data panache;; Singer_Data voice.

(** * [Set] and [Show], by the class of the object *)

Definition Waiter_Set (w : worker) (p : Z) : ST io (worker * Z) :=
  print [Text "Enter waiter's name: "];; w ← Worker_Get w; p ← Waiter_Get p; mret (w, p).
Definition Singer_Set (w : worker) (v : nat) : ST io (worker * nat) :=
  print [Text "Enter singer's name: "];; w ← Worker_Get w; v ← Singer_Get v; mret (w, v).
Definition SingingWaiter_Set (w : worker) (p : Z) (v : nat) : ST io (worker * (Z * nat)) :=
  print [Text "Enter singer waiter's name: "];; w ← Worker_Get w; pv ← SingingWaiter_Get p v; mret (w, pv).
Definition Set_ (e : employee) : ST io employee :=
  match e with
  | Waiter w p => r ← Waiter_Set w p; mret (Waiter r.1 r.2)
  | Singer w v => r ← Singer_Set w v; mret (Singer r.1 r.2)
  | SingingWaiter w p v => r ← SingingWaiter_Set w p v; mret (SingingWaiter r.1 r.2.1 r.2.2)
  end.

Definition Waiter_Show (w : worker) (p : Z) : ST io () :=
  print [Text "Category: waiter"; Endl];; Worker_Data w;; Waiter_Data p.
Definition Singer_Show (w : worker) (v : nat) : ST io () :=
  print [Text "Category: singer"; Endl];; Worker_Data w;; Singer_Data v.
Definition SingingWaiter_Show (w : worker) (p : Z) (v : nat) : ST io () :=
  print [Text "Category: singing waiter"; Endl];; Worker_Data w;; SingingWaiter_Data p v.
Definition Show (e : employee) : ST io () :=
  match e with
  | Waiter w p => Waiter_Show w p
  | Singer w v => Singer_Show w v
  | SingingWaiter w p v => SingingWaiter_Show w p v
  end.

(** * What they do *)

(** A part that always has a result, and prints [ls]. *)
Definition adds {A} (m : ST io A) (ls : list item) : Prop := ∀ s, ∃ a c, m s = Some (a, Io c (put ls (cout s))).
Lemma put_put l1 l2 s : put l2 (put l1 s) = put (l1 ++ l2) s.
Proof. unfold put. cbn. by rewrite (assoc_L (++)). Qed.
Lemma put_nil s : put [] s = s.
Proof. unfold put. rewrite (right_id_L [] (++)). by destruct s. Qed.
Lemma adds_bind {A B} (m : ST io A) (f : A → ST io B) l1 l2 : adds m l1 → (∀ a, adds (f a) l2) → adds (m ≫= f) (l1 ++ l2).
Proof.
  intros Hm Hf s. destruct (Hm s) as (a & c & H1). destruct (Hf a (Io c (put l1 (cout s)))) as (b & c2 & H2).
  exists b, c2. rewrite (st_bind_eq _ _ _ _ _ H1), H2. cbn [cout]. by rewrite put_put.
Qed.
Lemma adds_print l : adds (print l) l.
Proof. intros s. by exists (), (cin s). Qed.
Lemma adds_ret {A} (a : A) : adds (mret a) [].
Proof. intros s. exists a, (cin s). rewrite put_nil. by destruct s. Qed.
Lemma adds_cin {A} (f : istream → A * istream) : adds (input f) [].
Proof. intros s. rewrite put_nil. unfold input. destruct (f (cin s)) as [a c]. by exists a, c. Qed.
Lemma adds_skip : adds skip_checked [].
Proof.
  intros s. rewrite put_nil. destruct (skip_line_checked_ends (cin s) (length (rest (cin s)) + 3)) as (c & Hc & _); [lia|].
  exists (), c. unfold skip_checked. by rewrite Hc.
Qed.
#[local] Hint Resolve adds_print adds_ret adds_cin adds_skip : aoi.
(** A chain whose parts after the first print nothing. *)
Ltac adds_tail := repeat (apply (adds_bind _ _ [] []); [by auto with aoi|intros ?]); auto with aoi.

Definition ask_id : list item := [Text "Enter worker's ID: "].
Definition ask_panache : list item := [Text "Enter waiter's panache rating: "].
Definition ask_voice : list item := [Text "Enter number for singer's vocal range: "; Endl] ++ menu.
Lemma adds_Worker_Get w : adds (Worker_Get w) ask_id.
Proof. apply (adds_bind _ _ [] ask_id); [auto with aoi|intros n]. apply (adds_bind _ _ ask_id []); [auto with aoi|intros []]. adds_tail. Qed.
Lemma adds_Waiter_Get p : adds (Waiter_Get p) ask_panache.
Proof. apply (adds_bind _ _ ask_panache []); [auto with aoi|intros []]. adds_tail. Qed.
Lemma adds_Singer_Get v : adds (Singer_Get v) ask_voice.
Proof.
  apply (adds_bind _ _ [_; _] menu); [auto with aoi|]. intros []. rewrite <- (right_id_L [] (++) menu).
  apply adds_bind; [auto with aoi|]. intros []. adds_tail.
Qed.
#[local] Hint Resolve adds_Worker_Get adds_Waiter_Get adds_Singer_Get : aoi.

Lemma adds_SingingWaiter_Get p v : adds (SingingWaiter_Get p v) (ask_panache ++ ask_voice ++ []).
Proof. unfold SingingWaiter_Get. repeat (apply adds_bind; [by auto with aoi|intros ?]). auto with aoi. Qed.
#[local] Hint Resolve adds_SingingWaiter_Get : aoi.
Definition prompts (e : employee) : list item :=
  match e with
  | Waiter _ _ => [Text "Enter waiter's name: "] ++ ask_id ++ ask_panache
  | Singer _ _ => [Text "Enter singer's name: "] ++ ask_id ++ ask_voice
  | SingingWaiter _ _ _ => [Text "Enter singer waiter's name: "] ++ ask_id ++ ask_panache ++ ask_voice
  end.
Lemma adds_done {A B} (m : ST io A) (f : A → B) l : adds m l → adds (r ← m; mret (f r)) l.
Proof. intros Hm. rewrite <- (right_id_L [] (++) l). apply adds_bind; [done|auto with aoi]. Qed.

(** Whatever the input is, even none, [Set] ends and is defined; it asks for the data of
    the virtual base once. *)
Lemma set_total e : adds (Set_ e) (prompts e).
Proof.
  destruct e as [w p|w v|w p v]; cbn [Set_]; unfold prompts; apply adds_done;
    (apply adds_bind; [by auto with aoi|intros []]); (apply adds_bind; [by auto with aoi|intros w']); apply adds_done; auto with aoi.
Qed.

(** [Show] is defined exactly when the voice is one of the seven. *)
Definition voice_ok (e : employee) : bool :=
  match e with Waiter _ _ => true | Singer _ v | SingingWaiter _ _ v => v <? vtypes end.
Lemma Singer_Data_run v s :
  Singer_Data v s = (λ x, ((), Io (cin s) (put [Text "Vocal range: "; Text x; Endl] (cout s)))) <$> pv !! v.
Proof. unfold Singer_Data, mbind, st_bind, st_lift. by destruct (pv !! v). Qed.
Lemma show_defined e s : is_Some (Show e s) ↔ voice_ok e = true.
Proof.
  assert (Hv : ∀ v s, is_Some (Singer_Data v s) ↔ (v <? vtypes) = true).
  { intros v s'. rewrite Singer_Data_run, fmap_is_Some, Nat.ltb_lt. apply lookup_lt_is_Some. }
  destruct e as [w p|w v|w p v]; cbn [voice_ok Show]; [split; [done|intros _; by eexists]|..];
    unfold Singer_Show, SingingWaiter_Show, SingingWaiter_Data, Worker_Data, Waiter_Data; apply Hv.
Qed.

(** ** The number of the menu *)

Definition text (l : list string) : list ascii := concat ((λ s, String.list_ascii_of_string s ++ [newline]) <$> l).
Definition singer_input (n : nat) : list ascii :=
  text ["Maria Callas"; "42"]%string ++ [ascii_of_nat (48 + n); newline].

