(* ===== verification/Accounts.v ===== *)
(** Bank accounts: [src/cpp/cpp_class/class_inheritance/brass.h], [brass.cpp] and
    [usebrass.cpp] ([Module BrassCpp]), and the version with an abstract base class,
    [acctabc.h] and [acctabc.cpp] ([Module AcctAbc]). Balances are [double]s.. *)

From S2P Require Import Prelude Double IStream Console.
From Stdlib Require Import Ascii.

(** * Amounts *)

(** An amount that can be asked for: finite, so a number. *)
Definition amount_ok (x : double) : Prop := is_valid x = true ∧ is_finite x = true.
(** A balance that is a number and not negative. *)
Definition solvent (x : double) : Prop := is_valid x = true ∧ dle dzero x = true.

Lemma solvent_number x : solvent x → x ≠ S754_nan.
Proof. intros [_ H]. apply (dle_number _ _ H). Qed.
Lemma amount_number x : amount_ok x → x ≠ S754_nan.
Proof. by intros [_ H] ->. Qed.
Lemma solvent_sub bal amt : solvent bal → amount_ok amt → dle amt bal = true → solvent (dsub bal amt).
Proof. intros [Hv Hb] [Ha Hf] Hle. split; [by apply dsub_valid|by apply dsub_nonneg]. Qed.
Lemma solvent_add bal amt : solvent bal → amount_ok amt → dlt amt dzero = false → solvent (dadd bal amt).
Proof.
  intros [Hv Hb] Ha Hlt. split; [by apply dadd_valid; [|apply Ha]|]. apply dadd_nonneg; [done|].
  rewrite dlt_dle in Hlt by first [done|by apply amount_number]. by apply negb_false_iff.
Qed.

(** An amount that is more than a balance leaves no infinite balance. *)
Lemma exceeded_finite bal amt : solvent bal → amount_ok amt → dle amt bal = false → amount_ok bal.
Proof.
  intros [Hv Hb] [Ha Hf] Hle. split; [done|]. destruct bal as [[]|[]| |[] m e]; try done.
  by destruct amt as [[]|[]| |[] ma ea].
Qed.

Record brass : Type := Brass { mFullName : list ascii; mAccountNumber : Z; mBalance : double }.
Definition set_balance (x : double) (b : brass) : brass := Brass (mFullName b) (mAccountNumber b) x.
Definition Balance (b : brass) : double := mBalance b.

Record brass_plus : Type := BrassPlus { account : brass; mMaxLoan : double; mRate : double; mOwesBank : double }.
Definition set_account (b : brass) (p : brass_plus) : brass_plus := BrassPlus b (mMaxLoan p) (mRate p) (mOwesBank p).
Definition ResetMax (m : double) (p : brass_plus) : brass_plus := BrassPlus (account p) m (mRate p) (mOwesBank p).
Definition ResetRate (r : double) (p : brass_plus) : brass_plus := BrassPlus (account p) (mMaxLoan p) r (mOwesBank p).
Definition ResetOwes (p : brass_plus) : brass_plus := BrassPlus (account p) (mMaxLoan p) (mRate p) dzero.

(** The constructors; the second account starts from the first without a debt. *)
Definition new_Brass (s : list ascii) (an : Z) (bal : double) : brass := Brass s an bal.
Definition default_Brass : brass := new_Brass (String.list_ascii_of_string "NONE") (-1) dzero.
Definition new_BrassPlus (s : list ascii) (an : Z) (bal ml r : double) : brass_plus := BrassPlus (new_Brass s an bal) ml r dzero.
Definition BrassPlus_of (ba : brass) (ml r : double) : brass_plus := BrassPlus ba ml r dzero.
Definition default_max : double := of_Z 500.

(** An account behind a pointer to the base class. *)
Inductive client : Type := ABrass (b : brass) | ABrassPlus (p : brass_plus).
Definition balance_of (c : client) : double :=
  match c with ABrass b => Balance b | ABrassPlus p => Balance (account p) end.

Definition negative_deposit : string := "Negative deposit not allowed; deposit is cancelled.".
Definition negative_withdrawal : string := "Withdrawal amount must be positive; withdrawal canceled.".
Definition over_limit : string := "Credit limit exceeded. Transaction cancelled.".

(** What a program does to an account. *)
Inductive operation : Type := Deposit_ (amt : double) | Withdraw_ (amt : double).
Definition operation_amount (x : operation) : double := match x with Deposit_ a | Withdraw_ a => a end.

(** * [brass.cpp] *)

Module BrassCpp.

Definition default_rate : double := literal 11125 5.

Definition setFormat (s : ostream) : floatfield * ostream := setf Fixed s.
Definition restore (f : floatfield) (p : Z) (s : ostream) : ostream := (set_precision p (setf f s).2).2.
(** Both lines with which a function begins: the values to restore, and the stream. *)
Definition set_both (s : ostream) : floatfield * Z * ostream :=
  let '(f, s) := setFormat s in let '(p, s) := set_precision 2 s in (f, p, s).

Definition Deposit (amt : double) (b : brass) (s : ostream) : brass * ostream :=
  if dlt amt dzero then (b, say negative_deposit s) else (set_balance (dadd (mBalance b) amt) b, s).

Definition Withdraw (amt : double) (b : brass) (s : ostream) : brass * ostream :=
  if dlt amt dzero then (b, say negative_withdrawal s)
  else if dlt (mBalance b) amt then
    let '(f, p, s) := set_both s in
    let s := put [Text "Withdrawal amount of $"] s in
    let s := put_double 0 amt s in
    let s := put [Text " exceeds your balance."; Endl; Text "Withdrawal cancelled."; Endl] s in
    (b, restore f p s)
  else (set_balance (dsub (mBalance b) amt) b, s).

Definition ViewAccount (b : brass) (s : ostream) : ostream :=
  let '(f, p, s) := set_both s in
  let s := put [Text "Client: "; Name (mFullName b); Endl] s in
  let s := put [Text "Account Number: "; Long (mAccountNumber b); Endl] s in
  let s := put [Endl] (put_double 0 (mBalance b) (put [Text "Balance: $"] s)) in
  restore f p s.

(** The outer pair of saved values is not used: the inner ones hide it. *)
Definition Withdraw_plus (amt : double) (a : brass_plus) (s : ostream) : brass_plus * ostream :=
  let '(_, _, s) := set_both s in
  let bal := Balance (account a) in
  if dle amt bal then
    let '(b, s) := Withdraw amt (account a) s in (set_account b a, s)
  else if dle amt (dsub (dadd bal (mMaxLoan a)) (mOwesBank a)) then
    let '(f, p, s) := set_both s in
    let advance := dsub amt bal in
    let owes := dadd (mOwesBank a) (dmul (dadd (of_Z 1) (mRate a)) advance) in
    let s := put [Endl] (put_double 0 advance (put [Text "Bank advance: $"] s)) in
    let s := put [Endl] (put_double 0 (dmul advance (mRate a)) (put [Text "Finance charge: $"] s)) in
    let '(b, s) := Withdraw bal (account a) s in
    (BrassPlus b (mMaxLoan a) (mRate a) owes, restore f p s)
  else (a, say over_limit s).

Definition ViewAccount_plus (a : brass_plus) (s : ostream) : ostream :=
  let '(f, p, s) := set_both s in
  let s := ViewAccount (account a) s in
  let s := put [Endl] (put_double 0 (mMaxLoan a) (put [Text "Maximum loan: $"] s)) in
  let s := put [Endl] (put_double 0 (mOwesBank a) (put [Text "Owed to bank: $"] s)) in
  let s := (set_precision 3 s).2 in
  let s := put [Text "%"; Endl] (put_double 4 (dmul (of_Z 100) (mRate a)) (put [Text "Loan rate: "] s)) in
  restore f p s.

(** The virtual functions, by the class of the object. *)
Definition deposit (amt : double) (c : client) (s : ostream) : client * ostream :=
  match c with
  | ABrass b => let '(b, s) := Deposit amt b s in (ABrass b, s)
  | ABrassPlus p => let '(b, s) := Deposit amt (account p) s in (ABrassPlus (set_account b p), s)
  end.
Definition withdraw (amt : double) (c : client) (s : ostream) : client * ostream :=
  match c with
  | ABrass b => let '(b, s) := Withdraw amt b s in (ABrass b, s)
  | ABrassPlus p => let '(p, s) := Withdraw_plus amt p s in (ABrassPlus p, s)
  end.
Definition view (c : client) (s : ostream) : ostream :=
  match c with ABrass b => ViewAccount b s | ABrassPlus p => ViewAccount_plus p s end.

Definition apply (x : operation) (st : client * ostream) : client * ostream :=
  match x with Deposit_ a => deposit a st.1 st.2 | Withdraw_ a => withdraw a st.1 st.2 end.

(** ** The balance *)

Lemma Withdraw_balance amt b s : solvent (mBalance b) → amount_ok amt → solvent (mBalance (Withdraw amt b s).1).
Proof.
  intros Hb Ha. unfold Withdraw. destruct (dlt amt dzero) eqn:Hn; [done|]. destruct (dlt (mBalance b) amt) eqn:Hlt; [done|].
  apply solvent_sub; [done..|]. rewrite dlt_dle in Hlt by first [by apply solvent_number|by apply amount_number].
  by apply negb_false_iff.
Qed.

(** No overdraft of the books. Whatever is deposited and withdrawn, in amounts that are
    finite numbers, the balance of either kind of account stays a number that is not
    negative, once it is one. *)
Theorem never_negative xs c s :
  solvent (balance_of c) → Forall (λ x, amount_ok (operation_amount x)) xs →
  solvent (balance_of (foldl (λ st x, apply x st) (c, s) xs).1).
Proof.
  revert c s. induction xs as [|x xs IH]; intros c s Hc Hxs; [done|].
  apply Forall_cons in Hxs as [Hx Hxs]. cbn [foldl].
  enough (Hone : solvent (balance_of (apply x (c, s)).1)) by (destruct (apply x (c, s)); by apply IH).
  destruct x as [amt|amt], c as [b|p]; cbn in Hx, Hc; cbn [apply fst snd deposit withdraw].
  - unfold Deposit. destruct (dlt amt dzero) eqn:Hn; [done|]. cbn. by apply solvent_add.
  - unfold Deposit. destruct (dlt amt dzero) eqn:Hn; [done|]. cbn. by apply solvent_add.
  - pose proof (Withdraw_balance amt b s Hc Hx). by destruct (Withdraw amt b s).
  - unfold Withdraw_plus. destruct (set_both s) as [[f p0] s1]. unfold Balance in *. destruct (dle amt (mBalance (account p))) eqn:Hle.
    + pose proof (Withdraw_balance amt (account p) s1 Hc Hx). by destruct (Withdraw amt (account p) s1).
    + destruct (dle amt (dsub (dadd _ _) _)); [|exact Hc]. destruct (set_both s1) as [[f' p'] s2].
      pose proof (Withdraw_balance (mBalance (account p)) (account p)) as Hw.
      specialize (Hw (put [Endl] (put_double 0 (dmul (dsub amt (mBalance (account p))) (mRate p)) (put [Text "Finance charge: $"]
        (put [Endl] (put_double 0 (dsub amt (mBalance (account p))) (put [Text "Bank advance: $"] s2)))))) Hc).
      destruct (Withdraw (mBalance (account p)) (account p) _) as [b s3]. apply Hw. by eapply exceeded_finite.
Qed.

Lemma never_negative_witness :
  solvent (balance_of (foldl (λ st x, apply x st) (ABrassPlus (BrassPlus (Brass [] 1 (of_Z 100)) (of_Z 500) (literal 11125 5) dzero), OStream Default 6 [])
    [Deposit_ (literal 1 1); Withdraw_ (of_Z 150); Withdraw_ (literal 5 1)]).1).
Proof. apply never_negative; [done|]. repeat constructor. Defined.

(** ** Whole amounts *)

(** The account as a ledger of integers. *)
Inductive entry : Type := Paid (n : Z) | Drawn (n : Z).
Definition ledger (bal : Z) (x : entry) : Z :=
  match x with
  | Paid n => if n <? 0 then bal else bal + n
  | Drawn n => if (n <? 0) || (bal <? n) then bal else bal - n
  end%Z.
Definition entry_amount (x : entry) : Z := match x with Paid n | Drawn n => n end.
Definition to_operation (x : entry) : operation :=
  match x with Paid n => Deposit_ (of_Z n) | Drawn n => Withdraw_ (of_Z n) end.
(** What can be paid in at most. *)
Fixpoint paid_in (xs : list entry) : Z :=
  match xs with [] => 0 | Paid n :: xs => Z.max 0 n + paid_in xs | Drawn _ :: xs => paid_in xs end%Z.
Lemma paid_in_nonneg xs : (0 ≤ paid_in xs)%Z.
Proof. induction xs as [|[n|n] xs IH]; cbn [paid_in]; lia. Qed.

Lemma entry_exact bal x b s :
  exact bal → (0 ≤ bal)%Z → exact (entry_amount x) → exact (ledger bal x) → mBalance b = of_Z bal →
  ∃ b' s', apply (to_operation x) (ABrass b, s) = (ABrass b', s') ∧ mBalance b' = of_Z (ledger bal x).
Proof.
  intros Hbal Hpos Hx Hl Hb. destruct x as [n|n]; cbn [to_operation apply fst snd deposit withdraw entry_amount] in *.
  - unfold Deposit. change dzero with (of_Z 0). rewrite dlt_whole by done. cbn [ledger] in *. destruct (n <? 0)%Z; [by eexists _, _|].
    eexists _, _. split; [done|]. cbn. by rewrite Hb, dadd_whole.
  - unfold Withdraw. change dzero with (of_Z 0). rewrite dlt_whole by done. cbn [ledger] in *. destruct (n <? 0)%Z; [by eexists _, _|].
    rewrite Hb, dlt_whole by done. cbn [orb] in *. destruct (bal <? n)%Z; [by eexists _, _|].
    eexists _, _. split; [done|]. cbn. by rewrite dsub_whole.
Qed.
Lemma ledger_bounds bal x : (0 ≤ bal → 0 ≤ ledger bal x ≤ bal + paid_in [x])%Z.
Proof.
  intros H. destruct x as [n|n]; cbn [paid_in ledger].
  - destruct (Z.ltb_spec n 0); lia.
  - destruct (Z.ltb_spec n 0), (Z.ltb_spec bal n); cbn; lia.
Qed.

(** C32: In whole amounts a [Brass] account refines a ledger of integers: as long as the
    balance and everything paid in stay below 2^53, the [double] that the account keeps is
    exactly the balance of the ledger, after any deposits and withdrawals. *)
Theorem whole_amounts_exact xs b s bal :
  (0 ≤ bal)%Z → mBalance b = of_Z bal → (bal + paid_in xs < 2 ^ 53)%Z → Forall (λ x, exact (entry_amount x)) xs →
  ∃ b' s', foldl (λ st x, apply x st) (ABrass b, s) (to_operation <$> xs) = (ABrass b', s') ∧
    mBalance b' = of_Z (foldl ledger bal xs).
Proof.
  revert b s bal. induction xs as [|x xs IH]; intros b s bal Hpos Hb Hsum Hxs; [by exists b, s|].
  apply Forall_cons in Hxs as [Hx Hxs]. pose proof (ledger_bounds bal x Hpos) as Hl.
  assert (Hcons : paid_in (x :: xs) = (paid_in [x] + paid_in xs)%Z) by (destruct x; cbn [paid_in]; lia).
  pose proof (paid_in_nonneg xs). pose proof (paid_in_nonneg [x]).
  destruct (entry_exact bal x b s) as (b1 & s1 & H1 & H2); [unfold exact; lia|done|done|unfold exact; lia|done|].
  cbn [fmap list_fmap foldl]. rewrite H1. apply IH; [lia|done|lia|done].
Qed.

Lemma whole_amounts_exact_witness : ∃ b' s',
  foldl (λ st x, apply x st) (ABrass (Brass [] 1 (of_Z 100)), OStream Default 6 [])
    (to_operation <$> [Paid 50; Drawn 70; Drawn 90; Drawn (-1)]) = (ABrass b', s') ∧ mBalance b' = of_Z 80.
Proof. apply (whole_amounts_exact [Paid 50; Drawn 70; Drawn 90; Drawn (-1)]%Z _ _ 100); [lia|done|done|]. repeat constructor. Defined.

(** ** The format of the stream *)

Lemma restore_format f p s : field (restore f p s) = f ∧ precision (restore f p s) = p.
Proof. done. Qed.
Lemma view_keeps_format c s : field (view c s) = field s ∧ precision (view c s) = precision s.
Proof. by destruct c. Qed.
Lemma Withdraw_keeps_format amt b s : field (Withdraw amt b s).2 = field s ∧ precision (Withdraw amt b s).2 = precision s.
Proof. unfold Withdraw. destruct (dlt amt dzero); [done|]. by destruct (dlt (mBalance b) amt). Qed.

(** [BrassPlus::Withdraw] leaves the stream with two fixed digits on every path. *)
Lemma Withdraw_plus_leaks_format amt a s :
  field (Withdraw_plus amt a s).2 = Fixed ∧ precision (Withdraw_plus amt a s).2 = 2%Z.
Proof.
  unfold Withdraw_plus. cbn [set_both setFormat setf set_precision field precision out]. set (s1 := OStream Fixed 2 (out s)).
  destruct (dle amt (Balance (account a))).
  - pose proof (Withdraw_keeps_format amt (account a) s1) as H. destruct (Withdraw amt (account a) s1). exact H.
  - destruct (dle amt (dsub (dadd _ _) _)); [|done]. by destruct (Withdraw _ _ _).
Qed.

(** ** A NaN *)

(** A withdrawal of NaN from a [Brass] account is not refused and leaves no balance; a
    [BrassPlus] account refuses it. *)
Lemma nan_withdrawal b s : mBalance (Withdraw S754_nan b s).1 = S754_nan.
Proof. unfold Withdraw. destruct (mBalance b) as [[]|[]| |[]] eqn:Hb; cbn; rewrite ?Hb; done. Qed.
Lemma nan_refused a s : (Withdraw_plus S754_nan a s).1 = a.
Proof.
  unfold Withdraw_plus. destruct (set_both s) as [[f p] s1].
  by destruct (Balance (account a)) as [[]|[]| |[]], (dsub _ _) as [[]|[]| |[]].
Qed.

(** ** A negative balance *)

(** On an account that was opened with a negative balance, an advance is charged and the
    debt stays: [Brass::Withdraw] refuses the negative amount. *)
Definition in_debt : brass_plus := new_BrassPlus [] 1 (of_Z (-100)) default_max default_rate.
Example debt_charged_twice :
  let a := (Withdraw_plus (of_Z 50) in_debt (OStream Default 6 [])).1 in
  mBalance (account a) = of_Z (-100) ∧ dle (of_Z 150) (mOwesBank a) = true.
Proof. vm_compute. done. Qed.
End BrassCpp.

(** * [acctabc.cpp] *)

Module AcctAbc.

Definition default_rate : double := literal 1 1.

(** [AcctABC::SetFormat] and [AcctABC::Restore]. *)
Definition SetFormat (s : ostream) : floatfield * Z * ostream :=
  let '(f, s) := setf Fixed s in let '(p, s) := set_precision 2 s in (f, p, s).
Definition Restore (f : floatfield) (p : Z) (s : ostream) : ostream := (set_precision p (setf f s).2).2.

Definition Deposit (amt : double) (b : brass) (s : ostream) : brass * ostream :=
  if dlt amt dzero then (b, say negative_deposit s) else (set_balance (dadd (mBalance b) amt) b, s).
(** [AcctABC::Withdraw], which the derived classes call when they have checked. *)
Definition Withdraw_base (amt : double) (b : brass) : brass := set_balance (dsub (mBalance b) amt) b.

Definition Withdraw (amt : double) (b : brass) (s : ostream) : brass * ostream :=
  if dlt amt dzero then (b, say negative_withdrawal s)
  else if dlt (Balance b) amt then
    let '(f, p, s) := SetFormat s in
    let s := put [Text "Withdrawal amount of $"] s in
    let s := put_double 0 amt s in
    let s := put [Text " exceeds your balance."; Endl; Text "Withdrawal cancelled."; Endl] s in
    (b, Restore f p s)
  else (Withdraw_base amt b, s).

Definition ViewAccount (b : brass) (s : ostream) : ostream :=
  let '(f, p, s) := SetFormat s in
  let s := put [Text "Client: "; Name (mFullName b); Endl] s in
  let s := put [Text "Account Number: "; Long (mAccountNumber b); Endl] s in
  let s := put [Endl] (put_double 0 (Balance b) (put [Text "Balance: $"] s)) in
  Restore f p s.

Definition ViewAccount_plus (a : brass_plus) (s : ostream) : ostream :=
  let '(f, p, s) := SetFormat s in
  let s := put [Text "BrassPlus Client: "; Name (mFullName (account a)); Endl] s in
  let s := put [Text "Account Number: "; Long (mAccountNumber (account a)); Endl] s in
  let s := put [Endl] (put_double 0 (Balance (account a)) (put [Text "Balance: $"] s)) in
  let s := put [Endl] (put_double 0 (mMaxLoan a) (put [Text "Maximum loan: $"] s)) in
  let s := put [Endl] (put_double 0 (mOwesBank a) (put [Text "Owed to bank: $"] s)) in
  let s := (set_precision 3 s).2 in
  let s := put [Text "%"; Endl] (put_double 4 (dmul (of_Z 100) (mRate a)) (put [Text "Loan rate: "] s)) in
  Restore f p s.

Definition Withdraw_plus (amt : double) (a : brass_plus) (s : ostream) : brass_plus * ostream :=
  let '(f, p, s) := SetFormat s in
  let bal := Balance (account a) in
  let '(a, s) :=
    if dlt amt dzero then (a, say negative_withdrawal s)
    else if dle amt bal then (set_account (Withdraw_base amt (account a)) a, s)
    else if dle amt (dsub (dadd bal (mMaxLoan a)) (mOwesBank a)) then
      let advance := dsub amt bal in
      let charge := dmul (mRate a) advance in
      let owes := dadd (mOwesBank a) (dadd advance charge) in
      let s := put [Endl] (put_double 0 advance (put [Text "Bank advance: $"] s)) in
      let s := put [Endl] (put_double 0 charge (put [Text "Finance charge: $"] s)) in
      (BrassPlus (Withdraw_base bal (account a)) (mMaxLoan a) (mRate a) owes, s)
    else (a, say over_limit s) in
  (a, Restore f p s).

(** ** Against [brass.cpp] *)

Lemma Withdraw_same amt b s : Withdraw amt b s = BrassCpp.Withdraw amt b s.
Proof. done. Qed.

(** This version gives the stream back as it was, on every path. *)
Lemma Withdraw_plus_keeps_format amt a s :
  field (Withdraw_plus amt a s).2 = field s ∧ precision (Withdraw_plus amt a s).2 = precision s.
Proof.
  unfold Withdraw_plus. cbn [SetFormat setf set_precision field precision out].
  destruct (dlt amt dzero); [done|]. destruct (dle amt _); [done|]. by destruct (dle amt _).
Qed.

(** A balance that is taken out in full is not exceeded. *)
Lemma withdraw_all b s : solvent (mBalance b) → BrassCpp.Withdraw (mBalance b) b s = (Withdraw_base (mBalance b) b, s).
Proof.
  intros Hb. pose proof (solvent_number _ Hb) as Hn. destruct Hb as [_ Hb]. unfold BrassCpp.Withdraw.
  rewrite (dlt_dle (mBalance b) dzero), Hb by done. cbn [negb].
  assert (Hr : dle (mBalance b) (mBalance b) = true).
  { destruct (mBalance b) as [[]|[]| |[] m e]; try done; unfold dle, SFleb, SFcompare; rewrite Z.compare_refl;
      by change (Pos.compare_cont Eq m m) with (m ?= m)%positive; rewrite Pos.compare_refl. }
  by rewrite dlt_dle, Hr by done.
Qed.
(** What is not more than a balance that is not negative is a number, and what is less than
    nothing is not more than that balance. *)
Lemma negative_covered amt bal : solvent bal → dlt amt dzero = true → dle amt bal = true.
Proof. intros [_ Hb] Ha. by destruct amt as [[]|[]| |[]], bal as [[]|[]| |[]]. Qed.

(** The account with the abstract base class refines the first one: as long as the
    balance is a number that is not negative, a withdrawal from either kind of
    [BrassPlus] leaves the same balance and the same terms and prints the same lines, and
    only the debt of an advance may be rounded differently. *)
Theorem brass_versions_agree amt a s : solvent (Balance (account a)) → amt ≠ S754_nan →
  let r := BrassCpp.Withdraw_plus amt a s in let r' := Withdraw_plus amt a s in
  account r'.1 = account r.1 ∧ mMaxLoan r'.1 = mMaxLoan r.1 ∧ mRate r'.1 = mRate r.1 ∧ out r'.2 = out r.2 ∧
  let bal := Balance (account a) in let advance := dsub amt bal in
  if dle amt bal || negb (dle amt (dsub (dadd bal (mMaxLoan a)) (mOwesBank a))) then mOwesBank r'.1 = mOwesBank a ∧ mOwesBank r.1 = mOwesBank a
  else mOwesBank r.1 = dadd (mOwesBank a) (dmul (dadd (of_Z 1) (mRate a)) advance) ∧
       mOwesBank r'.1 = dadd (mOwesBank a) (dadd advance (dmul (mRate a) advance)).
Proof.
  intros Hb Ha. cbn zeta. unfold BrassCpp.Withdraw_plus, Withdraw_plus, Balance in *.
  cbn [BrassCpp.set_both BrassCpp.setFormat SetFormat setf set_precision field precision out].
  destruct (dlt amt dzero) eqn:Hneg; [|destruct (dle amt (mBalance (account a))) eqn:Hle].
  - rewrite (negative_covered _ _ Hb Hneg). unfold BrassCpp.Withdraw. rewrite Hneg. by destruct a.
  - unfold BrassCpp.Withdraw. rewrite Hneg. rewrite (dlt_dle (mBalance _)), Hle by first [done|by apply solvent_number]. by destruct a.
  - destruct (dle amt (dsub _ _)); cbn [orb negb]; [|done].
    rewrite withdraw_all by done. cbn. by rewrite (dmul_comm (dsub amt _) (mRate a)).
Qed.

Lemma brass_versions_agree_witness :
  let a := BrassPlus (Brass [] 1 (of_Z 100)) (of_Z 500) (literal 1 1) dzero in let s := OStream Default 6 [] in
  out (Withdraw_plus (of_Z 150) a s).2 = out (BrassCpp.Withdraw_plus (of_Z 150) a s).2.
Proof. by apply brass_versions_agree. Defined.

(** The debts do differ: with the rate that [acctabc.h] sets, an advance of 3. *)
Example debts_differ :
  let a := BrassPlus_of default_Brass default_max default_rate in let s := OStream Default 6 [] in
  mOwesBank (Withdraw_plus (of_Z 3) a s).1 ≠ mOwesBank (BrassCpp.Withdraw_plus (of_Z 3) a s).1.
Proof. vm_compute. done. Qed.

(** On a negative balance the versions part: [AcctABC::Withdraw] takes the negative balance
    away, and the account is even again. *)
Example debt_cleared :
  let a := (Withdraw_plus (of_Z 50) BrassCpp.in_debt (OStream Default 6 [])).1 in
  mBalance (account a) = dzero ∧ dle (of_Z 150) (mOwesBank a) = true.
Proof. vm_compute. done. Qed.
End AcctAbc.

(** * [usebrass.cpp] *)

Module UseBrass.

(** What [main] keeps between two clients; a number or a character that was never read has
    no value. *)
Record locals : Type := Locals { temp : list ascii; tempnum : option Z; tempbal : option double; kind : option ascii }.

(** [while (cin >> kind && (kind != '1' && kind != '2'))] *)
Fixpoint read_kind (fuel : nat) (k : option ascii) : ST io (option ascii) :=
  match fuel with
  | 0 => st_fail
  | S fuel =>
      a ← input read_char;
      match a with
      | Some c =>
          if Ascii.eqb c "1" || Ascii.eqb c "2" then mret (Some c)
          else print [Text "Enter either 1 or 2: "];; read_kind fuel (Some c)
      | None => mret k
      end
  end.

(** One turn of the first loop. A variable without a value that is used stops the run. *)
Definition read_client (fuel : nat) (v : locals) : ST io (client * locals) :=
  print [Text "Enter client's name: "];;
  n ← input getline;
  let name := default (temp v) n in
  print [Text "Enter client's account number: "];;
  num ← read_into (read_int 64) (tempnum v);
  print [Text "Enter opening balance: $"];;
  bal ← read_into read_double (tempbal v);
  print [Text "Enter 1 for Brass account or 2 for BrassPlus Account: "];;
  k ← read_kind fuel (kind v);
  c ← st_lift k;
  acc ← (if Ascii.eqb c "1" then
           num ← st_lift num; bal ← st_lift bal; mret (ABrass (new_Brass name num bal))
         else
           print [Text "Enter the overdraft limit: $"];;
           tmax ← read_into read_double None;
           print [Text "Enter the interest rate as a decimal fraction: "];;
           trate ← read_into read_double None;
           num ← st_lift num; bal ← st_lift bal; tmax ← st_lift tmax; trate ← st_lift trate;
           mret (ABrassPlus (new_BrassPlus name num bal tmax trate)));
  skip_rest fuel;;
  mret (acc, Locals name num bal k).

Definition CLIENTS : nat := 4.
Fixpoint read_clients (fuel n : nat) (v : locals) : ST io (list client) :=
  match n with
  | 0 => mret []
  | S n => '(c, v) ← read_client fuel v; cs ← read_clients fuel n v; mret (c :: cs)
  end.
Definition view_all (cs : list client) (s : ostream) : ostream :=
  foldl (λ s c, put [Endl] (BrassCpp.view c s)) s cs.
Definition main (fuel : nat) : ST io () :=
  cs ← read_clients fuel CLIENTS (Locals [] None None None);
  print [Endl];;
  st_modify (λ s, Io (cin s) (view_all cs (cout s)));;
  print [Text "Done."; Endl].

(** ** The lines it needs *)

Lemma takes_read_kind fuel k : takes 0 (read_kind fuel k).
Proof.
  revert k. induction fuel as [|fuel IH]; intros k; [done|]. cbn [read_kind].
  eapply takes_bind; [auto with aoi| |done]. intros [c|]; [|apply takes_ret]. destruct (_ || _); [apply takes_ret|].
  eapply takes_bind; [apply takes_print|intros _; apply IH|done].
Qed.
#[local] Hint Resolve takes_read_kind : aoi.
Lemma takes_read_client fuel v : takes 2 (read_client fuel v).
Proof.
  unfold read_client. eapply (takes_bind 0 2); [auto with aoi|intros _|done].
  eapply (takes_bind 1 1); [auto with aoi|intros n|done].
  do 6 (eapply (takes_bind 0 1); [by auto with aoi|intros ?|done]).
  eapply (takes_bind 0 1); [auto with aoi|intros c|done].
  eapply (takes_bind 0 1); [destruct (Ascii.eqb c "1"); takes0|intros acc|done].
  eapply (takes_bind 1 0); [auto with aoi|intros _; auto with aoi|done].
Qed.
(** What follows a client starts on a good stream: the last loop has ended. *)
Lemma read_client_good fuel v s r s' : read_client fuel v s = Some (r, s') → good (cin s') = true.
Proof.
  intros H. unfold read_client in H. do 10 (apply st_bind_Some in H as (? & ? & _ & H)).
  apply st_bind_Some in H as ([] & s1 & H1 & H). apply skip_rest_good in H1. unfold mret, st_ret in H. by simplify_eq.
Qed.
Lemma takes_read_clients fuel n v : takes (2 * n) (read_clients fuel n v).
Proof.
  revert v. induction n as [|n IH]; intros v; [apply takes_ret|]. cbn [read_clients].
  eapply (takes_bind 2 (2 * n)); [apply takes_read_client|intros [c v']|lia].
  eapply (takes_bind _ 0); [apply IH|intros cs; apply takes_ret|lia].
Qed.
Lemma read_clients_good fuel n v s r s' : 0 < n → read_clients fuel n v s = Some (r, s') → good (cin s') = true.
Proof.
  revert v s r. induction n as [|n IH]; intros v s r Hn H; [lia|]. cbn [read_clients] in H.
  apply st_bind_Some in H as ([c v'] & s1 & H1 & H). apply st_bind_Some in H as (cs & s2 & H2 & H).
  unfold mret, st_ret in H. simplify_eq. destruct n as [|n]; [|eapply IH; [lia|exact H2]].
  cbn in H2. unfold mret, st_ret in H2. simplify_eq. by eapply read_client_good.
Qed.

(** Two lines for each client, with their ends: on less than eight the program never comes
    to its list, however long it runs, because the loop that skips the rest of a line does
    not look at the stream. *)
Lemma main_needs_lines fuel s : is_Some (main fuel s) → 8 <= lines_left (cin s).
Proof.
  intros [[[] s'] H]. unfold main in H. apply st_bind_Some in H as (cs & s1 & H1 & _).
  apply read_clients_good in H1 as Hg; [|unfold CLIENTS; lia]. apply takes_read_clients in H1 as [_ H1].
  specialize (H1 Hg). unfold CLIENTS in H1. lia.
Qed.

Definition text (l : list string) : list ascii := concat ((λ s, String.list_ascii_of_string s ++ [newline]) <$> l).
Definition session : list string :=
  ["Harry Fishsong"; "112233 1500"; "1"; "Dinah Otternoe"; "121213 1800"; "2 350 0.12";
   "Brenda Birdherd"; "212118"; "5200"; "x1"; "Tim Turtletop"; "233255"; "688"; "2"; "600"; "0.1"]%string.
(** With four clients that are typed in in full, in any layout, it lists them; the wrong
    kind [x] has asked again. *)
Example session_lists :
  (λ r, (List.filter is_number (out (cout r.2)), rest (cin r.2)))
    <$> main 100 (Io (open (text session)) (OStream Default 6 [])) =
  Some ([Dbl Fixed 2 0 (of_Z 1500);
         Dbl Fixed 2 0 (of_Z 1800); Dbl Fixed 2 0 (of_Z 350); Dbl Fixed 2 0 dzero; Dbl Fixed 3 4 (of_Z 12);
         Dbl Fixed 2 0 (of_Z 5200);
         Dbl Fixed 2 0 (of_Z 688); Dbl Fixed 2 0 (of_Z 600); Dbl Fixed 2 0 dzero; Dbl Fixed 3 4 (of_Z 10)], []).
Proof. vm_compute. reflexivity. Qed.
(** After an account number that is not a number [kind] is not read: it keeps the value of
    the client before, and for the first client it has none. *)
Lemma kind_kept fuel k s : good (cin s) = false → ∃ s', read_kind (S fuel) k s = Some (k, s').
Proof.
  intros Hg. eexists. cbn [read_kind]. unfold mbind, st_bind, input, read_char, sentry. rewrite Hg. cbn. reflexivity.
Qed.
End UseBrass.
