(* ===== verification/Students.v ===== *)
(** [src/cpp/cpp_class/student.h], [student.cpp] and [use_student.cpp]: a student with a
    [valarray] of scores, as a member ([Module Contained]) and as a private base class
    ([Module Inherited]), and the program that reads three of them ([Module UseStudent]). *)

From S2P Require Import Prelude Double IStream Console.
From Stdlib Require Import Ascii.

(** * [std::valarray<double>] *)

Abbreviation valarray := (list double).
(** [sum]: from the first element on; of nothing it is not defined. *)
Definition sum (a : valarray) : option double :=
  match a with [] => None | x :: a => Some (foldl dadd x a) end.
(** [ArrayDb(n)]: a negative [n] becomes a size that cannot be had. *)
Definition zeros (n : Z) : option valarray :=
  if (n <? 0)%Z then None else Some (replicate (Z.to_nat n) dzero).
(** [ArrayDb(pd, n)] copies [n] elements. *)
Definition copied (pd : list double) (n : Z) : option valarray :=
  if ((n <? 0) || (Z.of_nat (length pd) <? n))%Z then None else Some (take (Z.to_nat n) pd).
(** [a[i]] with an [int]. *)
Definition at_ (i : Z) (a : valarray) : option double := if (i <? 0)%Z then None else a !! Z.to_nat i.
Definition set_at (i : Z) (x : double) (a : valarray) : option valarray :=
  if ((i <? 0) || (Z.of_nat (length a) <=? i))%Z then None else Some (<[Z.to_nat i := x]> a).

(** [arr_out]: the scores, five on a line. *)
Definition arr_out (a : valarray) (s : ostream) : ostream :=
  match a with
  | [] => put [Text " empty array "] s
  | _ =>
      foldl (λ s p, let '(i, x) := p in
        let s := put [Text " "] (put_double 0 x s) in
        if i mod 5 =? 4 then put [Endl] s else s) s (imap pair a)
  end.

(** * The scores as a member *)

Module Contained.

Record student : Type := Student { mName : list ascii; mScores : valarray }.
Definition none : list ascii := String.list_ascii_of_string "NONE".
Definition new : student := Student none [].
Definition of_name (s : list ascii) : student := Student s [].
Definition of_size (n : Z) : option student := Student none <$> zeros n.
Definition of_name_size (s : list ascii) (n : Z) : option student := Student s <$> zeros n.
Definition of_array (s : list ascii) (a : valarray) : student := Student s a.
Definition of_pointer (s : list ascii) (pd : list double) (n : Z) : option student := Student s <$> copied pd n.

Definition Name (x : student) : list ascii := mName x.
Definition get (i : Z) (x : student) : option double := at_ i (mScores x).
Definition set (i : Z) (v : double) (x : student) : option student := Student (mName x) <$> set_at i v (mScores x).
(** The number of scores is converted to [double]. *)
Definition Average (x : student) : double :=
  match sum (mScores x) with
  | None => dzero
  | Some t => ddiv t (of_Z (Z.of_nat (length (mScores x))))
  end.

Definition extract (x : student) (s : istream) : student * istream :=
  let '(w, s) := read_word s in (Student (default (mName x) w) (mScores x), s).
Definition getline (x : student) (s : istream) : student * istream :=
  let '(l, s) := getline s in (Student (default (mName x) l) (mScores x), s).
Definition insert (x : student) (s : ostream) : ostream :=
  arr_out (mScores x) (put [Text "Scores for "; Console.Name (mName x); Text ":"; Endl] s).

Lemma Average_empty x : mScores x = [] → Average x = dzero.
Proof. unfold Average. by intros ->. Qed.

(** The sum of whole scores is exact as long as it is below 2^53. *)
Lemma sum_whole zs : zs ≠ [] → Forall (λ z, (0 ≤ z)%Z) zs → (foldr Z.add 0 zs < 2 ^ 53)%Z →
  sum (of_Z <$> zs) = Some (of_Z (foldr Z.add 0%Z zs)).
Proof.
  destruct zs as [|z zs]; intros Hne Hzs Hs; [done|]. apply Forall_cons in Hzs as [Hz Hzs].
  cbn [fmap list_fmap sum foldr] in *. f_equal. clear Hne. revert z Hz Hs. induction Hzs as [|y zs Hy Hzs IH]; intros z Hz Hs; cbn [foldr foldl fmap list_fmap] in *.
  - by rewrite Z.add_0_r.
  - assert (Hn : (0 ≤ foldr Z.add 0 zs)%Z) by (clear -Hzs; induction Hzs; cbn; lia).
    rewrite dadd_whole by (unfold exact; lia). rewrite (IH (z + y)%Z) by lia. f_equal. lia.
Qed.
Lemma Average_whole name zs : zs ≠ [] → Forall (λ z, (0 ≤ z)%Z) zs → (foldr Z.add 0 zs < 2 ^ 53)%Z →
  Average (Student name (of_Z <$> zs)) = ddiv (of_Z (foldr Z.add 0%Z zs)) (of_Z (Z.of_nat (length zs))).
Proof. intros H1 H2 H3. unfold Average. cbn [mScores]. by rewrite sum_whole, length_fmap. Qed.
End Contained.

(** * The name and the scores as private base classes *)

Module Inherited.

(** The two base-class parts of the object. *)
Record student_priv : Type := StudentPriv { as_string : list ascii; as_array : valarray }.
Definition none : list ascii := String.list_ascii_of_string "NONE".
Definition new : student_priv := StudentPriv none [].
Definition of_name (s : list ascii) : student_priv := StudentPriv s [].
Definition of_size (n : Z) : option student_priv := StudentPriv none <$> zeros n.
Definition of_name_size (s : list ascii) (n : Z) : option student_priv := StudentPriv s <$> zeros n.
Definition of_array (s : list ascii) (a : valarray) : student_priv := StudentPriv s a.
Definition of_pointer (s : list ascii) (pd : list double) (n : Z) : option student_priv := StudentPriv s <$> copied pd n.

Definition Name (x : student_priv) : list ascii := as_string x.
Definition Average (x : student_priv) : option double :=
  if length (as_array x) =? 0 then Some dzero
  else (λ t, ddiv t (of_Z (Z.of_nat (length (as_array x))))) <$> sum (as_array x).
Definition get (i : Z) (x : student_priv) : option double := at_ i (as_array x).
Definition set (i : Z) (v : double) (x : student_priv) : option student_priv := StudentPriv (as_string x) <$> set_at i v (as_array x).
(** [using ArrayDb::max] and [using ArrayDb::size]; of nothing there is no largest. *)
Definition max (x : student_priv) : option double :=
  match as_array x with [] => None | v :: a => Some (foldl (λ m v, if dlt m v then v else m) v a) end.
Definition size (x : student_priv) : nat := length (as_array x).
Definition arr_out_priv (x : student_priv) (s : ostream) : ostream := arr_out (as_array x) s.
Definition extract (x : student_priv) (s : istream) : student_priv * istream :=
  let '(w, s) := read_word s in (StudentPriv (default (as_string x) w) (as_array x), s).
Definition getline (x : student_priv) (s : istream) : student_priv * istream :=
  let '(l, s) := getline s in (StudentPriv (default (as_string x) l) (as_array x), s).
Definition insert (x : student_priv) (s : ostream) : ostream :=
  arr_out_priv x (put [Text "Scores for "; Console.Name (as_string x); Text ":"; Endl] s).

(** Both classes are one student. *)
Definition contained (x : student_priv) : Contained.student := Contained.Student (as_string x) (as_array x).
Lemma Average_same x : Average x = Some (Contained.Average (contained x)).
Proof. unfold Average, Contained.Average. by destruct x as [s [|v a]]. Qed.
Lemma set_same i v x : contained <$> set i v x = Contained.set i v (contained x).
Proof. unfold set, Contained.set. cbn. by destruct (set_at i v (as_array x)). Qed.
Lemma getline_same x s : (contained (getline x s).1, (getline x s).2) = Contained.getline (contained x) s.
Proof. unfold getline, Contained.getline. cbn. by destruct (IStream.getline s). Qed.
Lemma extract_same x s : (contained (extract x s).1, (extract x s).2) = Contained.extract (contained x) s.
Proof. unfold extract, Contained.extract. cbn. by destruct (read_word s). Qed.
Lemma insert_same x s : insert x s = Contained.insert (contained x) s.
Proof. done. Qed.
End Inherited.

(** * [use_student.cpp] *)

Module UseStudent.
Import Contained.

Definition pupils : nat := 3.
Definition quizzes : nat := 5.

(** [for (i = 0; i < n; ++i) cin >> sa[i];] *)
Fixpoint read_scores (n : nat) (i : Z) (sa : student) : ST io student :=
  match n with
  | 0 => mret sa
  | S n =>
      v ← st_lift (get i sa);
      v ← read_into read_double (Some v);
      v ← st_lift v;
      sa ← st_lift (Contained.set i v sa);
      read_scores n (i + 1) sa
  end.
Definition set (fuel : nat) (sa : student) (n : nat) : ST io student :=
  print [Text "Please enter student name: "];;
  sa ← input (Contained.getline sa);
  print [Text "Please enter "; Long (Z.of_nat n); Text " quiz scores:"; Endl];;
  sa ← read_scores n 0 sa;
  skip_rest fuel;;
  mret sa.

Fixpoint set_all (fuel : nat) (l : list student) : ST io (list student) :=
  match l with
  | [] => mret []
  | sa :: l => sa ← set fuel sa quizzes; l ← set_all fuel l; mret (sa :: l)
  end.
Definition results (sa : student) : ST io () :=
  print [Endl];;
  st_modify (λ s, Io (cin s) (insert sa (cout s)));;
  st_modify (λ s, Io (cin s) (put [Endl] (put_double 0 (Average sa) (put [Text "Average: "] (cout s))))).
Definition main (fuel : nat) : ST io () :=
  ada ← st_lift (mapM (λ _, of_size (Z.of_nat quizzes)) (seq 0 pupils));
  ada ← set_all fuel ada;
  print [Endl; Text "Student List:"; Endl];;
  mapM (λ sa, print [Console.Name (Name sa); Endl]) ada;;
  print [Endl; Text "Results:"];;
  mapM results ada;;
  print [Text "Done."; Endl].

(** ** A record that is typed in in full *)

(** A whole number in digits, and the scores of a student on one line. *)
Definition score_text (scores : list (list ascii)) : list ascii := concat ((λ ds, ds ++ [" "%char]) <$> scores).
Definition score_ok (ds : list ascii) : Prop :=
  ds ≠ [] ∧ Forall (λ d, is_digit d = true) ds ∧ (digits_value ds < 2 ^ 53)%Z.
Definition score (ds : list ascii) : double := of_Z (digits_value ds).

Lemma digits_value_nonneg ds : Forall (λ d, is_digit d = true) ds → (0 ≤ digits_value ds)%Z.
Proof.
  unfold digits_value. intros Hds. enough (H : ∀ z, (0 ≤ z)%Z → (0 ≤ foldl (λ z c, (z * 10 + (Z.of_nat (nat_of_ascii c) - 48))%Z) z ds)%Z) by by apply H.
  induction Hds as [|d ds Hd _ IH]; intros z Hz; [done|]. cbn. apply IH.
  unfold is_digit in Hd. apply andb_true_iff in Hd as [Hd _]. apply Nat.leb_le in Hd. lia.
Qed.
Lemma decimal_score ds : score_ok ds → decimal false (digits_value ds) 0 = score ds ∧ is_finite (score ds) = true.
Proof.
  intros (_ & Hds & Hlt). pose proof (digits_value_nonneg ds Hds). split; [|apply of_Z_is_finite; unfold exact; lia].
  unfold score, decimal, of_Z. destruct (digits_value ds) as [|p|p]; [done| |lia]. cbn [Z.leb Z.compare cond_Zopp Z.opp].
  by rewrite Z.pow_0_r, Z.mul_1_r.
Qed.
Lemma read_score sp ds r : Forall (λ c, is_space c = true) sp → score_ok ds →
  read_double (open (sp ++ ds ++ " "%char :: r)) = (Some (score ds), open (" "%char :: r)).
Proof.
  intros Hsp Hds. destruct (decimal_score ds Hds) as [H1 H2]. destruct Hds as (Hne & Hd & _).
  rewrite read_double_digits by (rewrite ?H1; done). by rewrite H1.
Qed.

Lemma get_place name a x b : get (Z.of_nat (length a)) (Student name (a ++ x :: b)) = Some x.
Proof.
  unfold get, at_. cbn [mScores]. destruct (Z.ltb_spec (Z.of_nat (length a)) 0); [lia|].
  rewrite Nat2Z.id. apply list_lookup_middle. done.
Qed.
Lemma set_place name a x b v :
  Contained.set (Z.of_nat (length a)) v (Student name (a ++ x :: b)) = Some (Student name (a ++ v :: b)).
Proof.
  unfold Contained.set, set_at. cbn [mScores mName]. rewrite length_app. cbn [length].
  destruct (Z.ltb_spec (Z.of_nat (length a)) 0); [lia|].
  destruct (Z.leb_spec (Z.of_nat (length a + S (length b))) (Z.of_nat (length a))); [lia|].
  cbn. do 2 f_equal. rewrite Nat2Z.id. rewrite insert_app_r_alt, Nat.sub_diag by lia. done.
Qed.

(** The loop fills the array from the place it stands at, and stops before the end of the
    line. *)
Lemma read_scores_run name scores a old sp r o :
  Forall (λ c, is_space c = true) sp → newline ∉ sp → Forall score_ok scores → length old = length scores →
  ∃ sp', newline ∉ sp' ∧ length sp' <= Nat.max (length sp) 1 ∧
    read_scores (length scores) (Z.of_nat (length a)) (Student name (a ++ old)) (Io (open (sp ++ score_text scores ++ newline :: r)) o) =
      Some (Student name (a ++ (score <$> scores)), Io (open (sp' ++ newline :: r)) o).
Proof.
  intros Hsp Hn Hs. revert a old sp Hsp Hn. induction Hs as [|ds scores Hds Hs IH]; intros a old sp Hsp Hn Hl.
  - apply nil_length_inv in Hl as ->. exists sp. split_and!; [done|lia|done].
  - destruct old as [|x old]; [done|]. injection Hl as Hl.
    destruct (IH (a ++ [score ds]) old [" "%char]) as (sp' & H1 & H2 & H3); [by repeat constructor|set_solver|done|].
    exists sp'. split_and!; [done|cbn in *; lia|]. cbn [length read_scores].
    rewrite (st_bind_eq _ _ _ x (Io (open (sp ++ score_text (ds :: scores) ++ newline :: r)) o)) by (unfold st_lift; by rewrite get_place).
    assert (Hread : read_into read_double (Some x) (Io (open (sp ++ score_text (ds :: scores) ++ newline :: r)) o) =
      Some (Some (score ds), Io (open (" "%char :: score_text scores ++ newline :: r)) o)).
    { unfold read_into, mbind, st_bind, input. cbn [cin].
      unfold score_text. cbn [fmap list_fmap concat]. rewrite <- !(assoc_L (++)). cbn [app].
      by rewrite read_score. }
    rewrite (st_bind_eq _ _ _ _ _ Hread).
    rewrite (st_bind_eq _ _ _ (score ds) (Io (open (" "%char :: score_text scores ++ newline :: r)) o)) by done.
    rewrite (st_bind_eq _ _ _ (Student name (a ++ score ds :: old)) (Io (open (" "%char :: score_text scores ++ newline :: r)) o))
      by (unfold st_lift; by rewrite set_place).
    replace (Z.of_nat (length a) + 1)%Z with (Z.of_nat (length (a ++ [score ds]))) by (rewrite length_app; cbn; lia).
    rewrite <- (assoc_L (++)) in H3. cbn [app] in H3. rewrite H3. by rewrite <- (assoc_L (++)).
Qed.

(** A name and the scores, typed in as the program asks for them. *)
Definition record_text (name : list ascii) (scores : list (list ascii)) : list ascii :=
  name ++ newline :: score_text scores ++ [newline].

(** A record that is typed in in full is read in full: the name, and every score as the
    [double] that is this whole number; nothing of the record is left, whatever follows. *)
Theorem set_reads fuel name scores old r o :
  newline ∉ name → Forall score_ok scores → length (mScores old) = length scores → 2 <= fuel →
  ∃ o', set fuel old (length scores) (Io (open (record_text name scores ++ r)) o) =
    Some (Student name (score <$> scores), Io (open r) o').
Proof.
  intros Hname Hs Hl Hf. unfold set.
  destruct (read_scores_run name scores [] (mScores old) [] r
    (put [Text "Please enter "; Long (Z.of_nat (length scores)); Text " quiz scores:"; Endl] (put [Text "Please enter student name: "] o)))
    as (sp & H1 & H2 & H3); [done|set_solver|done|done|].
  eexists. unfold record_text. rewrite <- (assoc_L (++)). cbn [app]. rewrite <- (assoc_L (++)). cbn [app].
  rewrite (st_bind_eq _ _ _ () (Io (open (name ++ newline :: score_text scores ++ newline :: r)) (put [Text "Please enter student name: "] o))) by done.
  rewrite (st_bind_eq _ _ _ (Student name (mScores old)) (Io (open (score_text scores ++ newline :: r)) (put [Text "Please enter student name: "] o)))
    by (unfold input, Contained.getline; cbn [cin cout]; by rewrite getline_some).
  erewrite (st_bind_eq _ _ _ ()) by reflexivity. rewrite (st_bind_eq _ _ _ _ _ H3).
  erewrite (st_bind_eq _ _ _ ()); [reflexivity|]. unfold skip_rest. cbn [cin cout].
  rewrite skip_line_some by (first [done|cbn in *; lia]). reflexivity.
Qed.
Lemma set_reads_witness :
  let gil := String.list_ascii_of_string "Gil Bayts" in let scores := String.list_ascii_of_string <$> ["92"; "94"]%string in
  ∃ o', set 9 (Student none [dzero; dzero]) 2 (Io (open (record_text gil scores ++ [])) (OStream Default 6 [])) =
    Some (Student gil [of_Z 92; of_Z 94], Io (open []) o').
Proof.
  intros gil scores. apply (set_reads 9 gil scores (Student none [dzero; dzero]) []);
    [apply (bool_decide_unpack (newline ∉ gil)); vm_compute; done| |done|lia].
  repeat constructor; done.
Defined.

Definition session : list string :=
  ["Gil Bayts"; "92 94 96 93 95"; "Pat Roone"; "83 89 72 78 95"; "Fleur O'Day"; "92 89 96 74 64"]%string.
Definition typed (l : list string) : list ascii := concat ((λ s, String.list_ascii_of_string s ++ [newline]) <$> l).
(** Three students: the averages that the program ends with. *)
Example session_averages :
  (λ r, (List.filter is_number (drop 26 (out (cout r.2))), rest (cin r.2))) <$>
    main 100 (Io (open (typed session)) (OStream Default 6 [])) =
  Some ((λ x, Dbl Default 6 0 x) <$>
    ((of_Z <$> [92; 94; 96; 93; 95])%Z ++ [of_Z 94] ++ (of_Z <$> [83; 89; 72; 78; 95])%Z ++ [literal 834 1] ++
     (of_Z <$> [92; 89; 96; 74; 64])%Z ++ [of_Z 83]), []).
Proof. vm_compute. reflexivity. Qed.

(** ** The lines it needs *)

Lemma takes_read_scores n i sa : takes 0 (read_scores n i sa).
Proof.
  revert i sa. induction n as [|n IH]; intros i sa; cbn [read_scores]; [apply takes_ret|].
  do 4 (eapply (takes_bind 0 0); [by auto with aoi|intros ?|done]). apply IH.
Qed.
Lemma takes_set fuel sa n : takes 2 (set fuel sa n).
Proof.
  unfold set. eapply (takes_bind 0 2); [auto with aoi|intros _|done].
  eapply (takes_bind 1 1); [|intros sa'|done].
  { intros s a s' H. unfold input, Contained.getline in H. pose proof (getline_later (cin s)) as [H1 H2].
    destruct (IStream.getline (cin s)). simplify_eq. split; [done|exact H2]. }
  eapply (takes_bind 0 1); [auto with aoi|intros _|done].
  eapply (takes_bind 0 1); [apply takes_read_scores|intros sa''|done].
  eapply (takes_bind 1 0); [auto with aoi|intros _; auto with aoi|done].
Qed.
Lemma takes_set_all fuel l : takes (2 * length l) (set_all fuel l).
Proof.
  induction l as [|sa l IH]; [apply takes_ret|]. cbn [set_all length].
  eapply (takes_bind 2 (2 * length l)); [apply takes_set|intros sa'|lia].
  eapply (takes_bind _ 0); [apply IH|intros l'; apply takes_ret|lia].
Qed.
Lemma set_good fuel sa n s sa' s' : set fuel sa n s = Some (sa', s') → good (cin s') = true.
Proof.
  intros H. unfold set in H. do 4 (apply st_bind_Some in H as (? & ? & _ & H)).
  apply st_bind_Some in H as ([] & s1 & H1 & H). apply skip_rest_good in H1. unfold mret, st_ret in H. by simplify_eq.
Qed.
Lemma set_all_good fuel l s l' s' : l ≠ [] → set_all fuel l s = Some (l', s') → good (cin s') = true.
Proof.
  revert s l'. induction l as [|sa l IH]; intros s l' Hne H; [done|]. cbn [set_all] in H.
  apply st_bind_Some in H as (sa' & s1 & H1 & H). apply st_bind_Some in H as (l1 & s2 & H2 & H).
  unfold mret, st_ret in H. simplify_eq. destruct l as [|sb l]; [|by eapply IH].
  cbn in H2. unfold mret, st_ret in H2. simplify_eq. by eapply set_good.
Qed.

(** Two lines for each student with their ends: with less than six the program never ends. *)
Lemma students_need_lines fuel s : is_Some (main fuel s) → 6 <= lines_left (cin s).
Proof.
  intros [[[] s'] H]. unfold main in H. apply st_bind_Some in H as (ada & s0 & H0 & H).
  apply st_bind_Some in H as (ada' & s1 & H1 & _). unfold st_lift in H0. vm_compute in H0. simplify_eq.
  apply set_all_good in H1 as Hg; [|done]. apply takes_set_all in H1 as [_ H1]. specialize (H1 Hg). cbn [length] in H1. lia.
Qed.
End UseStudent.
