(* ===== verification/Stonewt.v ===== *)
(** [src/cpp/cpp_class/stonewt.h], [stonewt.cpp] and [stone.cpp]: a weight in stones and
    pounds. An operation whose conversion to [int], or whose product of [int]s, is out of
    range has no result. *)

From S2P Require Import Prelude Double IStream Console.
#[local] Open Scope Z_scope.

(** * [class Stonewt] *)

Definition Lbs_per_stn : Z := 14.
Record stonewt : Type := Stonewt { stone : Z; pds_left : double; pounds : double }.

Definition int_mul (a b : Z) : option Z := if decide (in_signed 32 (a * b)) then Some (a * b) else None.
Definition Stonewt_default : stonewt := Stonewt 0 dzero dzero.
Definition Stonewt_lbs (lbs : double) : option stonewt :=
  z ← to_int lbs;
  let stone := Z.quot z Lbs_per_stn in
  n ← int_mul stone Lbs_per_stn;
  Some (Stonewt stone (dsub lbs (of_Z n)) lbs).
Definition Stonewt_stn (stn : Z) (lbs : double) : option stonewt :=
  n ← int_mul stn Lbs_per_stn; Some (Stonewt stn lbs (dadd (of_Z n) lbs)).

Definition show_stn (w : stonewt) : ostream → ostream := λ s,
  put [Text " pounds."; Endl] (put_double 0 (pds_left w) (put [Long (stone w); Text " stone, "] s)).
Definition show_lbs (w : stonewt) : ostream → ostream := λ s,
  put [Text " pounds."; Endl] (put_double 0 (pounds w) s).
Definition operator_int (w : stonewt) : option Z := to_int (dadd (pounds w) (literal 5 1)).
Definition operator_double (w : stonewt) : double := pounds w.
Definition operator_add (w rs : stonewt) (s : ostream) : option stonewt * ostream :=
  (Stonewt_lbs (dadd (pounds w) (pounds rs)), say "Using Stonewt::operator+" s).

(** * [stone.cpp] *)

Fixpoint display (st : stonewt) (n : nat) (s : ostream) : ostream :=
  match n with 0%nat => s | S n => display st n (show_stn st (put [Text "Wow! "] s)) end.
Definition sum (a b : double) : double := dadd a b.
Definition main (s : ostream) : option ostream :=
  incognito ← Stonewt_lbs (of_Z 275);
  wolfe ← Stonewt_lbs (literal 2857 1);
  taft ← Stonewt_stn 21 (of_Z 8);
  let s := show_lbs taft (show_stn wolfe (show_stn incognito s)) in
  incognito ← Stonewt_lbs (literal 2768 1);
  taft ← Stonewt_lbs (of_Z 325);
  let s := show_lbs taft (show_stn incognito s) in
  let s := display taft 2 s in
  st ← Stonewt_lbs (of_Z 422);
  let s := display st 2 s in
  let _ := sum (operator_double taft) (of_Z 200) in
  let res0 := dadd (literal 20020 2) (operator_double taft) in
  Some (put [Endl] (put_double 0 res0 s)).

(** * What a weight is *)

Lemma stone_range z : in_signed 32 z → int_mul (Z.quot z Lbs_per_stn) Lbs_per_stn = Some (Z.quot z Lbs_per_stn * Lbs_per_stn) ∧
  in_signed 32 (Z.quot z Lbs_per_stn * Lbs_per_stn).
Proof.
  intros Hz. assert (H : in_signed 32 (Z.quot z Lbs_per_stn * Lbs_per_stn)).
  { unfold in_signed, Lbs_per_stn in *. pose proof (Z.quot_rem' z 14). pose proof (Z.rem_bound_abs z 14 ltac:(lia)).
    pose proof (Z.rem_sign_mul z 14 ltac:(lia)). destruct (Z.leb_spec 0 z); nia. }
  split; [|done]. unfold int_mul. by rewrite decide_True.
Qed.

(** Whole pounds are divided exactly: the stones are the quotient, and the pounds that are
    left the remainder, with the sign of the weight. *)
Lemma Stonewt_whole z : in_signed 32 z →
  Stonewt_lbs (of_Z z) = Some (Stonewt (Z.quot z 14) (of_Z (Z.rem z 14)) (of_Z z)).
Proof.
  intros Hz. unfold Stonewt_lbs. rewrite to_int_whole by done. cbn [mbind option_bind].
  destruct (stone_range z Hz) as [Hm Hr]. rewrite Hm. cbn [mbind option_bind]. do 2 f_equal.
  pose proof (Z.quot_rem' z 14) as Hq. pose proof (Z.rem_bound_abs z 14 ltac:(lia)). unfold in_signed, Lbs_per_stn in *.
  rewrite dsub_whole by (unfold exact; lia). f_equal. lia.
Qed.
(** Both constructors agree on whole weights: stones and pounds come back. *)
Lemma Stonewt_roundtrip z : in_signed 32 z →
  (w ← Stonewt_lbs (of_Z z); Stonewt_stn (stone w) (pds_left w)) = Stonewt_lbs (of_Z z).
Proof.
  intros Hz. rewrite Stonewt_whole by done. cbn [mbind option_bind stone pds_left]. unfold Stonewt_stn.
  destruct (stone_range z Hz) as [Hm Hr]. unfold Lbs_per_stn in *. rewrite Hm. cbn [mbind option_bind]. do 2 f_equal.
  pose proof (Z.quot_rem' z 14) as Hq. pose proof (Z.rem_bound_abs z 14 ltac:(lia)). unfold in_signed in *.
  rewrite dadd_whole by (unfold exact; lia). f_equal. lia.
Qed.

(** The pounds that are left of any weight that is not negative are not negative. *)
Lemma pds_left_nonneg lbs w : is_valid lbs = true → dle dzero lbs = true → Stonewt_lbs lbs = Some w →
  0 ≤ stone w ∧ is_valid (pds_left w) = true ∧ dle dzero (pds_left w) = true.
Proof.
  intros Hv Hx H. unfold Stonewt_lbs in H. destruct (to_int lbs) as [z|] eqn:Hz; [|done]. cbn [mbind option_bind] in H.
  assert (Hpos : 0 ≤ z) by (by eapply to_int_nonneg). assert (Hr : in_signed 32 z) by (by eapply to_int_range).
  destruct (stone_range z Hr) as [Hm Hm']. rewrite Hm in H. cbn [mbind option_bind] in H. simplify_eq. cbn [stone pds_left].
  pose proof (Z.quot_pos z Lbs_per_stn Hpos ltac:(done)). pose proof (Z.mul_quot_le z Lbs_per_stn Hpos ltac:(done)).
  assert (He : exact (Z.quot z Lbs_per_stn * Lbs_per_stn)) by (unfold in_signed, exact in *; lia).
  split_all; [done|apply dsub_valid; [done|apply of_Z_valid]|].
  apply dsub_nonneg; [done|apply of_Z_valid|by apply of_Z_is_finite|]. eapply to_int_le; [done..|lia].
Qed.

(** [operator int] rounds to the nearest above zero only: -5 pounds are -4. *)
Example negative_rounds_up : (w ← Stonewt_lbs (of_Z (-5)); operator_int w) = Some (-4) ∧ (w ← Stonewt_lbs (of_Z 5); operator_int w) = Some 5.
Proof. vm_compute. done. Qed.
Example main_output : out <$> main (OStream Default 6 []) = Some (
  let stn n x := [Long n; Text " stone, "; Dbl Default 6 0 x; Text " pounds."; Endl] in
  let lbs x := [Dbl Default 6 0 x; Text " pounds."; Endl] in let wow := [Text "Wow! "] in
  stn 19 (of_Z 9) ++ stn 20 (dsub (literal 2857 1) (of_Z 280)) ++ lbs (of_Z 302) ++
  stn 19 (dsub (literal 2768 1) (of_Z 266)) ++ lbs (of_Z 325) ++
  wow ++ stn 23 (of_Z 3) ++ wow ++ stn 23 (of_Z 3) ++ wow ++ stn 30 (of_Z 2) ++ wow ++ stn 30 (of_Z 2) ++
  [Dbl Default 6 0 (literal 52520 2); Endl]).
Proof. vm_compute. reflexivity. Qed.
