(* ===== verification/SpmcQueue.v ===== *)
(** [SPMCBlockingQueue] of [src/cpp/cpp_coding/thread_pool/thread_pool.cpp], which the pool
    of that file does not use: one mutex for all. Any number of threads run any commands
    [push], [pop] and [cancel] on it, as programs of Monitor.v. Unlike [MPMCBlockingQUeue]
    (ThreadPool.v) it loses no wake-up. *)

From S2P Require Import Prelude Monitor.

Section queue.
Context {T : Type}.

(** [_queue] and [_nonblock]; the logs record what was pushed and popped so far, and how
    often [pop] returned [false]. *)
Record state := mk_state {
  queue : list T; nonblock : bool; put_log : list T; got_log : list T; refused : nat
}.

Inductive command : Type := Push (x : T) | Pop | Cancel.

Inductive label : Type :=
| Do (cmds : list command)
| PushPush (x : T) (rest : list command)
| PushNotify (rest : list command)
| PushUnlock (rest : list command)
| CancelStore (rest : list command)
| CancelNotify (rest : list command)
| CancelUnlock (rest : list command)
| PopTest (rest : list command)          (* the predicate: [!_queue.empty()] *)
| PopTestNonblock (rest : list command)
| PopWait (rest : list command)
| PopCheck (rest : list command)
| PopFront (rest : list command)
| PopPop (t : T) (rest : list command)
| PopUnlock (rest : list command).

Definition push (x : T) (s : state) : state :=
  mk_state (queue s ++ [x]) (nonblock s) (put_log s ++ [x]) (got_log s) (refused s).
Definition store_nonblock (s : state) : state :=
  mk_state (queue s) true (put_log s) (got_log s) (refused s).
Definition refuse (s : state) : state :=
  mk_state (queue s) (nonblock s) (put_log s) (got_log s) (S (refused s)).
Definition pop_front (t : T) (s : state) : option state :=
  match queue s with
  | [] => None
  | _ :: xs => Some (mk_state xs (nonblock s) (put_log s) (got_log s ++ [t]) (refused s))
  end.

(** Mutex 0 is [_mutex] and condition variable 0 is [_not_empty]. *)
Definition code (_ : nat) (l : label) : instr state label :=
  match l with
  | Do [] => Halt
  | Do (Push x :: rest) => Lock 0 (PushPush x rest)
  | PushPush x rest => Act (λ s, Some (push x s, PushNotify rest))
  | PushNotify rest => NotifyOne 0 (PushUnlock rest)
  | PushUnlock rest => Unlock 0 (Do rest)
  | Do (Cancel :: rest) => Lock 0 (CancelStore rest)
  | CancelStore rest => Act (λ s, Some (store_nonblock s, CancelNotify rest))
  | CancelNotify rest => NotifyAll 0 (CancelUnlock rest)
  | CancelUnlock rest => Unlock 0 (Do rest)
  | Do (Pop :: rest) => Lock 0 (PopTest rest)
  | PopTest rest => Act (λ s, Some (s, match queue s with [] => PopTestNonblock rest | _ => PopCheck rest end))
  | PopTestNonblock rest => Act (λ s, Some (s, if nonblock s then PopCheck rest else PopWait rest))
  | PopWait rest => WaitOn 0 0 (PopTest rest)
  | PopCheck rest =>
      Act (λ s, match queue s with [] => Some (refuse s, PopUnlock rest) | _ => Some (s, PopFront rest) end)
  | PopFront rest => Act (λ s, match queue s with [] => None | x :: _ => Some (s, PopPop x rest) end)
  | PopPop t rest => Act (λ s, (λ s', (s', PopUnlock rest)) <$> pop_front t s)
  | PopUnlock rest => Unlock 0 (Do rest)
  end.

(** [SPMCBlockingQueue(nonblock)] and the threads. *)
Definition start (nb : bool) (threads : list (list command)) : config state label :=
  started (mk_state [] nb [] [] 0) 1 (Do <$> threads).

(** * The outline *)

Definition holds (_ : nat) (l : label) (m : nat) : bool :=
  (m =? 0) && match l with Do _ => false | _ => true end.

(** What a thread may rely on at a label. *)
Definition fact (s : state) (l : label) : Prop :=
  match l with
  | PopTestNonblock _ => queue s = []
  | PopWait _ => queue s = [] ∧ nonblock s = false
  | PopCheck _ => queue s = [] → nonblock s = true
  | PopFront _ => queue s ≠ []
  | PopPop t _ => head (queue s) = Some t
  | CancelNotify _ => nonblock s = true
  | _ => True
  end.
(** First-in first-out, and only a cancelled queue refuses. *)
Definition inv (s : state) : Prop :=
  put_log s = got_log s ++ queue s ∧ (0 < refused s → nonblock s = true).

Lemma spmc_annotated : annotated code holds 1.
Proof.
  intros i l. unfold holds.
  destruct l as [[|[]]| | | | | | | | | | | | |]; cbn; split_all; try done; try lia; try (intros [|m]; done);
    intros s s' k H m; unfold pop_front in H; simpl in H; repeat case_match; by simplify_eq/=.
Qed.

Lemma spmc_outline : outline code holds fact inv 1.
Proof.
  constructor; [apply spmc_annotated| | |].
  - intros i l f s s' k Hc Hf [Hq Hr] He. unfold inv.
    destruct l as [[|[]]| | | | | | | | | | | | |]; simpl in Hc; simplify_eq;
      unfold pop_front in *; simpl in *; repeat case_match; simplify_eq/=; split_all; try done; try tauto; try lia.
    all: try (by rewrite Hq, <- ?app_assoc). all: try (intros _; by apply Hf). all: try congruence.
    all: by match goal with H : queue _ = _ |- _ => rewrite H end.
  - intros i j l lj f s s' k Hne Hc Hf Hi He Hfj Hm. specialize (Hm 0).
    destruct lj; try done; destruct l as [[|[]]| | | | | | | | | | | | |]; done.
  - intros i l s Hf Hi. destruct l as [[|[]]| | | | | | | | | | | | |]; simpl in *; done.
Qed.

(** * Wake-ups *)

(** Threads sleep only in [pop]. *)
Definition sleeps_in_pop (_ : nat) (st : status label) : Prop :=
  match st with
  | Run _ => True
  | Waiting c m l => c = 0 ∧ m = 0 ∧ ∃ rest, l = PopTest rest
  | Relock m l => m = 0 ∧ ∃ rest, l = PopTest rest
  end.
Lemma sleeps_in_pop_closed : status_closed code sleeps_in_pop.
Proof.
  split; [|split; [naive_solver|done]].
  intros i l _. destruct l as [[|[]]| | | | | | | | | | | | |]; cbn; eauto 6.
Qed.

Definition sleeping (st : status label) : bool := match st with Waiting _ _ _ => true | _ => false end.
(** Threads that are awake and will look at the queue, or will wake one that does. *)
Definition coming (st : status label) : bool :=
  match st with
  | Run (PushNotify _) | Run (PopTest _) | Run (PopCheck _) | Run (PopFront _) | Run (PopPop _ _) | Relock _ _ => true
  | _ => false
  end.
Definition cancelling (st : status label) : bool := match st with Run (CancelNotify _) => true | _ => false end.
Definition awake (s : config state label) : Prop :=
  count sleeping (threads s) = 0 ∨
  (length (queue (shared s)) <= count coming (threads s) ∧ (nonblock (shared s) = true → 0 < count cancelling (threads s))).

(** Everything that is known of a state that can be reached. *)
Record spmc_ok (s : config state label) : Prop := {
  so_outline : outline_ok holds fact inv 1 s;
  so_sleep : all_in sleeps_in_pop (threads s);
  so_awake : awake s
}.

(** One thread moves from a status to another: the counts follow. *)
Ltac counts Hi st' :=
  let H1 := fresh in let H2 := fresh in let H3 := fresh in
  pose proof (count_insert sleeping _ _ _ st' Hi) as H1; pose proof (count_insert coming _ _ _ st' Hi) as H2;
  pose proof (count_insert cancelling _ _ _ st' Hi) as H3; simpl in H1, H2, H3.

Lemma act_awake s i l f sh k : spmc_ok s → threads s !! i = Some (Run l) → code i l = Act f →
  f (shared s) = Some (sh, k) → awake (mk_config sh (owner s) (<[i := Run k]> (threads s))).
Proof.
  intros Hok Hi Hc Hf. pose proof (so_awake _ Hok) as Ha. pose proof (oo_fact _ _ _ _ _ (so_outline _ Hok) i l Hi) as Hfact.
  unfold awake in *. cbn [threads shared].
  destruct l as [[|[]]| | | | | | | | | | | | |]; simpl in Hc; simplify_eq; unfold pop_front in *; simpl in *;
    try (destruct (queue (shared s)) eqn:Hq); simplify_eq/=; try done;
    try (destruct (nonblock (shared s)) eqn:Hn);
    match goal with |- context [<[i := ?st']> _] => counts Hi st' end; rewrite ?length_app; simpl; try rewrite Hq in *; simpl in *;
    try (by left; lia); destruct Ha as [Ha|[Ha1 Ha2]]; try (by left; lia); right; split; try lia; try tauto;
    try (intros HH; specialize (Ha2 HH); lia); try (intros HH; congruence); try naive_solver.
Qed.

(** A thread moves on without touching the queue, from a status that was not counted as
    coming or cancelling. *)
Lemma goto_awake s s' i st st' : awake s → threads s !! i = Some st → threads s' = <[i := st']> (threads s) →
  shared s' = shared s → coming st = false → cancelling st = false → sleeping st' = false → awake s'.
Proof.
  intros Ha Hi Eth Esh H1 H2 H3. unfold awake in *. rewrite Eth, Esh. counts Hi st'. rewrite H1, H2, H3 in *.
  destruct Ha as [Ha|[Ha1 Ha2]]; [left; lia|right]. split; [lia|]. intros Hn. specialize (Ha2 Hn). lia.
Qed.

Lemma nobody_sleeps s : spmc_ok s → existsb (sleeps_on 0) (threads s) = false → count sleeping (threads s) = 0.
Proof.
  intros Hok Hex. apply count_zero. intros k st Hk. destruct st as [|c m l|]; try done.
  destruct (so_sleep _ Hok _ _ Hk) as (-> & -> & rest & ->).
  assert (existsb (sleeps_on 0) (threads s) = true); [|congruence].
  apply existsb_exists. exists (Waiting 0 0 (PopTest rest)). split; [|done].
  apply list_elem_of_In. by eapply list_elem_of_lookup_2.
Qed.

(** [notify_one]: the element announced is for the thread it wakes. *)
Lemma notify_awake s s' i rest sl : spmc_ok s → threads s !! i = Some (Run (PushNotify rest)) →
  exec_instr code i (PushNotify rest) sl s = Next s' → awake s'.
Proof.
  intros Hok Hi He. pose proof (so_awake _ Hok) as Ha. unfold exec_instr in He. cbn in He. destruct sl as [j|].
  - destruct (threads s !! j) as [st|] eqn:Hj; [|done]. destruct (sleeps_on 0 st) eqn:Hs; [|done]. simplify_eq.
    destruct st as [|c m l|]; try done. assert (Hne : j ≠ i) by congruence.
    counts Hj (Relock m l). set (ths := <[j := Relock m l]> (threads s)) in *.
    assert (Hi' : ths !! i = Some (Run (PushNotify rest))) by (unfold ths; by rewrite list_lookup_insert_ne).
    counts Hi' (Run (PushUnlock rest)). unfold awake in *. cbn [goto threads shared wake]. fold ths.
    destruct Ha as [Ha|[Ha1 Ha2]]; [left; lia|right; split; [lia|intros Hn; specialize (Ha2 Hn); lia]].
  - destruct (existsb (sleeps_on 0) (threads s)) eqn:Hex; [done|]. simplify_eq. left. cbn [goto threads].
    apply nobody_sleeps in Hex; [|done]. counts Hi (Run (PushUnlock rest)). lia.
Qed.
(** [notify_all] wakes all. *)
Lemma notify_all_awake s s' i rest sl : spmc_ok s → threads s !! i = Some (Run (CancelNotify rest)) →
  exec_instr code i (CancelNotify rest) sl s = Next s' → awake s'.
Proof.
  intros Hok Hi He. unfold exec_instr in He. cbn in He. simplify_eq. left. cbn [goto threads].
  apply count_zero. intros k st. rewrite list_lookup_insert. case_decide; [by intros [= <-]|].
  rewrite list_lookup_fmap. destruct (threads s !! k) as [st0|] eqn:Hk; [|done]. cbn [fmap option_fmap option_map]. intros [= <-].
  destruct st0 as [|c m l|]; try done. by destruct (so_sleep _ Hok _ _ Hk) as (-> & -> & rest' & ->).
Qed.

Lemma instr_awake s s' i l sl : spmc_ok s → threads s !! i = Some (Run l) →
  exec_instr code i l sl s = Next s' → awake s'.
Proof.
  intros Hok Hi He. destruct (code i l) as [f|m k|m k|c m k|c k|c k|t k|] eqn:Hc.
  - unfold exec_instr in He. rewrite Hc in He. destruct (f (shared s)) as [[sh k]|] eqn:Hf; [|done]. simplify_eq.
    by eapply act_awake.
  - unfold exec_instr in He. rewrite Hc in He. repeat case_match; simplify_eq.
    eapply (goto_awake s _ i (Run l) (Run k)); [apply (so_awake _ Hok)|done|done|done|..]; by destruct l as [[|[]]| | | | | | | | | | | | |]; simplify_eq/=.
  - unfold exec_instr in He. rewrite Hc in He. repeat case_match; simplify_eq.
    eapply (goto_awake s _ i (Run l) (Run k)); [apply (so_awake _ Hok)|done|done|done|..]; by destruct l as [[|[]]| | | | | | | | | | | | |]; simplify_eq/=.
  - pose proof (oo_fact _ _ _ _ _ (so_outline _ Hok) i l Hi) as Hf.
    unfold exec_instr in He. rewrite Hc in He. repeat case_match; simplify_eq.
    destruct l as [[|[]]| | | | | | | | | | | | |]; simplify_eq/=. destruct Hf as [Hq Hn].
    right. cbn [set_owner shared threads]. rewrite Hq, Hn. split; [cbn; lia|done].
  - destruct l as [[|[]]| | | | | | | | | | | | |]; simplify_eq/=. by eapply notify_awake.
  - destruct l as [[|[]]| | | | | | | | | | | | |]; simplify_eq/=. by eapply notify_all_awake.
  - by destruct l as [[|[]]| | | | | | | | | | | | |].
  - unfold exec_instr in He. by rewrite Hc in He.
Qed.

Lemma spmc_step s s' : spmc_ok s → mon_step code s s' → spmc_ok s'.
Proof.
  intros Hok Hst. constructor.
  - eapply outline_step; [apply spmc_outline|apply Hok|done].
  - eapply all_in_step; [apply sleeps_in_pop_closed|apply Hok|done].
  - destruct Hst as [[i sl|i] He]; simpl in He; destruct (threads s !! i) as [[l|c m l|m l]|] eqn:Hi; try done.
    + by eapply instr_awake.
    + destruct (so_sleep _ Hok _ _ Hi) as (-> & rest & ->). repeat case_match; simplify_eq.
      pose proof (so_awake _ Hok) as Ha. unfold awake in *. cbn [set_owner goto threads shared]. counts Hi (Run (PopTest rest)).
      destruct Ha as [Ha|[Ha1 Ha2]]; [left; lia|right; split; [lia|intros Hn; specialize (Ha2 Hn); lia]].
    + simplify_eq. pose proof (so_awake _ Hok) as Ha. unfold awake in *. cbn [threads shared]. counts Hi (Relock m l).
      destruct Ha as [Ha|[Ha1 Ha2]]; [left; lia|right; split; [lia|intros Hn; specialize (Ha2 Hn); lia]].
Qed.

Lemma spmc_reachable nb ths s : rtc (mon_step code) (start nb ths) s → spmc_ok s.
Proof.
  intros Hr. assert (H0 : spmc_ok (start nb ths)).
  { constructor.
    - eapply (outline_sound code holds fact inv 1 (mk_state [] nb [] [] 0) (Do <$> ths)); [apply spmc_outline|split; [reflexivity|cbn; lia]| |reflexivity].
      intros i l (cmds & -> & _)%list_lookup_fmap_Some. split; [exact I|]. intros m. apply andb_false_r.
    - intros i st Hi. cbn [start started threads] in Hi. rewrite list_lookup_fmap in Hi. by apply fmap_Some in Hi as (l & _ & ->).
    - left. apply count_zero. intros i st Hi. cbn [start started threads] in Hi. rewrite list_lookup_fmap in Hi.
      by apply fmap_Some in Hi as (l & _ & ->). }
  induction Hr; eauto using spmc_step.
Qed.

(** Nothing will happen in this thread unless another one acts. *)
Definition at_rest (st : status label) : Prop :=
  match st with Waiting _ _ _ | Run (Do []) => True | _ => False end.
End queue.
Arguments state : clear implicits.
Arguments label : clear implicits.
Arguments command : clear implicits.

(** For any number of threads with any commands and any schedule, [SPMCBlockingQueue]
    is first-in first-out, [pop] finds the element it was woken for and returns [false]
    only after [cancel]; and no wake-up is lost: when every thread is at rest and one
    still sleeps in [pop], the queue is empty, was not cancelled, and everything pushed
    has been popped. *)
Theorem spmc_queue {T} nb (ths : list (list (command T))) s :
  rtc (mon_step code) (start nb ths) s →
  put_log (shared s) = got_log (shared s) ++ queue (shared s) ∧
  (0 < refused (shared s) → nonblock (shared s) = true) ∧
  (∀ i l f, threads s !! i = Some (Run l) → code i l = Act f → is_Some (f (shared s))) ∧
  (∀ i c m l, (∀ j st, threads s !! j = Some st → at_rest st) → threads s !! i = Some (Waiting c m l) →
     nonblock (shared s) = false ∧ got_log (shared s) = put_log (shared s)).
Proof.
  intros Hr. apply spmc_reachable in Hr as Hok. destruct (so_outline _ Hok) as [_ [Hq Hn] Hf _]. split_all; [done|done|..].
  - intros i l f Hi Hc. specialize (Hf i l Hi).
    destruct l as [[|[]]| | | | | | | | | | | | |]; simpl in *; simplify_eq; unfold pop_front; repeat case_match; naive_solver.
  - intros i c m l Hrest Hi. destruct (so_awake _ Hok) as [Hz|[H1 H2]].
    { pose proof (count_pos sleeping _ _ _ Hi eq_refl). lia. }
    assert (Hnone : ∀ f, (∀ st, at_rest st → f st = false) → count f (threads s) = 0).
    { intros f Hff. apply count_zero. intros j st Hj. by apply Hff, (Hrest j). }
    rewrite (Hnone coming), (Hnone cancelling) in * by (by intros [[[]| | | | | | | | | | | | |]| |]).
    split; [destruct (nonblock (shared s)); [exfalso; specialize (H2 eq_refl); lia|done]|].
    rewrite Hq. destruct (queue (shared s)); [by rewrite app_nil_r|cbn in H1; lia].
Qed.

(** Two threads pop, one finds an element and the other sleeps. *)
Definition demo_sched : list choice :=
  replicate 4 (Go 1 None) ++ replicate 4 (Go 2 None) ++ replicate 2 (Go 0 None) ++ [Go 0 (Some 1); Go 0 None] ++ replicate 6 (Go 1 None).
Lemma spmc_queue_witness : ∃ s, run code demo_sched (start false [[Push 7]; [Pop]; [Pop]]) = Some s ∧
  got_log (shared s) = put_log (shared s) ∧ nonblock (shared s) = false.
Proof.
  destruct (run code demo_sched (start false [[Push 7]; [Pop]; [Pop]])) as [s|] eqn:E; [|by vm_compute in E].
  exists s. split; [done|].
  assert (Et : threads s = [Run (Do []); Run (Do []); Waiting 0 0 (PopTest [])]) by (vm_compute in E; by injection E as <-).
  destruct (spmc_queue false [[Push 7]; [Pop]; [Pop]] s) as (_ & _ & _ & H); [by apply (run_rtc _ demo_sched)|].
  destruct (H 2 0 0 (PopTest [])) as [H1 H2]; [|by rewrite Et|by split].
  intros [|[|[|j]]] st; rewrite Et; by intros [= <-].
Defined.
