(* ===== verification/Exceptions.v ===== *)
(** Exceptions, automatic objects and stack unwinding, as the programs of
    [src/cpp/exception], [cpp/cpp_class/cyclic_reference.cpp] and
    [cpp/cpp_class/rtti/rtti_test.cpp] use them.

    A computation is run with what the enclosing handlers catch, because the search for a
    handler comes before the unwinding: where no handler is found the program terminates,
    and the standard leaves it open whether the stack is unwound first. Both choices are
    covered. *)

From S2P Require Import Prelude.

(** * Computations *)

Inductive exn : Type :=
  | CustomException (message : string)
  | RuntimeError (what : string)
  | CharPtr (s : string)
  | BadCast
  | BadWeakPtr.
(** What [catch (const std::exception &)] catches. *)
Definition is_std (e : exn) : bool :=
  match e with RuntimeError _ | BadCast | BadWeakPtr => true | _ => false end.

(** Output, and the life of automatic objects. *)
Inductive event : Type := Say (l : string) | Born (x : string) | Died (x : string).
Inductive outcome (A : Type) : Type := Returned (a : A) | Thrown (e : exn) | Terminated.
Arguments Returned {A}.
Arguments Thrown {A}.
Arguments Terminated {A}.

Definition comp (A : Type) : Type := (exn → bool) → list event * outcome A.

Section machine.
(** Whether the program terminates where it throws, without unwinding, when there is no
    handler. *)
Context (at_throw : bool).

#[export] Instance comp_ret : MRet comp := λ A a _, ([], Returned a).
#[export] Instance comp_bind : MBind comp := λ A B f m h,
  let '(l, o) := m h in
  match o with
  | Returned a => let '(l', o') := f a h in (l ++ l', o')
  | Thrown e => (l, Thrown e)
  | Terminated => (l, Terminated)
  end.
Definition say (l : string) : comp () := λ _, ([Say l], Returned ()).
Definition throw {A} (e : exn) : comp A := λ h,
  ([], if at_throw && negb (h e) then Terminated else Thrown e).
(** A block with one automatic object: its destructor runs on every way out but one. *)
Definition with_object {A} (x : string) (body : comp A) : comp A := λ h,
  let '(l, o) := body h in
  match o with
  | Terminated => (Born x :: l, Terminated)
  | _ => (Born x :: l ++ [Died x], o)
  end.
Definition try_catch {A} (c : exn → bool) (body : comp A) (handler : exn → comp A) : comp A := λ h,
  let '(l, o) := body (λ e, c e || h e) in
  match o with
  | Thrown e => if c e then let '(l', o') := handler e h in (l ++ l', o') else (l, Thrown e)
  | _ => (l, o)
  end.
(** [noexcept]; the edge of [main] is one too. *)
Definition no_except {A} (body : comp A) : comp A := λ _,
  let '(l, o) := body (λ _, false) in
  (l, match o with Thrown _ => Terminated | _ => o end).
Definition run {A} (body : comp A) : list event * outcome A := no_except body (λ _, false).
End machine.

(** * Objects die in the reverse order of their birth *)

(** The objects alive after a trace; none when the wrong one dies. *)
Fixpoint alive (st : list string) (l : list event) : option (list string) :=
  match l with
  | [] => Some st
  | Say _ :: l => alive st l
  | Born x :: l => alive (x :: st) l
  | Died x :: l => match st with y :: st => if String.eqb x y then alive st l else None | [] => None end
  end.
(** On every way out that is not a termination, what was born in the computation has died;
    where the program terminates some may be left. *)
Definition tidy {A} (m : comp A) : Prop := ∀ h st,
  match m h with
  | (l, Terminated) => ∃ left, alive st l = Some (left ++ st)
  | (l, _) => alive st l = Some st
  end.

Lemma alive_app st l l' : alive st (l ++ l') = alive st l ≫= λ st', alive st' l'.
Proof. revert st. induction l as [|[x|x|x] l IH]; intros st; cbn; [done|..]; try apply IH. destruct st as [|y st]; [done|]. by case_match. Qed.

Lemma tidy_ret {A} (a : A) : tidy (mret a).
Proof. done. Qed.
Lemma tidy_say l : tidy (say l).
Proof. done. Qed.
Lemma tidy_throw {A} at_throw e : tidy (throw at_throw e : comp A).
Proof. intros h st. unfold throw. destruct (at_throw && negb (h e)); [by exists []|done]. Qed.
Lemma tidy_bind {A B} (m : comp A) (f : A → comp B) : tidy m → (∀ a, tidy (f a)) → tidy (m ≫= f).
Proof.
  intros Hm Hf h st. unfold mbind, comp_bind. specialize (Hm h st). destruct (m h) as [l [a|e|]]; [|done|done].
  specialize (Hf a h st). destruct (f a h) as [l' [b|e|]].
  - by rewrite alive_app, Hm.
  - by rewrite alive_app, Hm.
  - destruct Hf as [left Hf]. exists left. by rewrite alive_app, Hm.
Qed.
Lemma tidy_object {A} x (body : comp A) : tidy body → tidy (with_object x body).
Proof.
  intros Hb h st. unfold with_object. specialize (Hb h (x :: st)). destruct (body h) as [l [a|e|]]; cbn.
  - rewrite alive_app, Hb. cbn. by rewrite String.eqb_refl.
  - rewrite alive_app, Hb. cbn. by rewrite String.eqb_refl.
  - destruct Hb as [left Hb]. exists (left ++ [x]). by rewrite Hb, <- (assoc_L (++)).
Qed.
Lemma tidy_try {A} c (body : comp A) handler : tidy body → (∀ e, tidy (handler e)) → tidy (try_catch c body handler).
Proof.
  intros Hb Hh h st. unfold try_catch. specialize (Hb (λ e, c e || h e) st). destruct (body _) as [l [a|e|]]; [done| |done].
  destruct (c e); [|done]. specialize (Hh e h st). destruct (handler e h) as [l' [b|e'|]].
  - by rewrite alive_app, Hb.
  - by rewrite alive_app, Hb.
  - destruct Hh as [left Hh]. exists left. by rewrite alive_app, Hb.
Qed.
Lemma tidy_no_except {A} (body : comp A) : tidy body → tidy (no_except body).
Proof.
  intros Hb h st. unfold no_except. specialize (Hb (λ _, false) st). destruct (body _) as [l [a|e|]]; [done| |done].
  by exists [].
Qed.
Lemma tidy_run {A} (m : comp A) : tidy m → ∃ left, alive [] (run m).1 = Some left ∧ ((run m).2 ≠ Terminated → left = []).
Proof.
  intros Hm%tidy_no_except. specialize (Hm (λ _, false) []). unfold run. destruct (no_except m _) as [l [a|e|]]; cbn [fst snd].
  - by exists [].
  - by exists [].
  - destruct Hm as [left Hl]. exists (left ++ []). by split.
Qed.
#[export] Hint Resolve tidy_ret tidy_say tidy_throw tidy_bind tidy_object tidy_try tidy_no_except : aoi.

(** ** [noexcept] and handlers *)

Lemma no_except_never_throws {A} (m : comp A) h e : (no_except m h).2 ≠ Thrown e.
Proof. unfold no_except. by destruct (m _) as [l [a|e'|]]. Qed.
(** What is thrown is thrown to a handler, when the program terminates at the throw. *)
Definition answered {A} (m : comp A) : Prop := ∀ h l e, m h = (l, Thrown e) → h e = true.
Lemma answered_throw {A} e : answered (throw true e : comp A).
Proof. intros h l e' H. unfold throw in H. cbn in H. destruct (h e) eqn:He; by simplify_eq/=. Qed.
Lemma answered_bind {A B} (m : comp A) (f : A → comp B) : answered m → (∀ a, answered (f a)) → answered (m ≫= f).
Proof.
  intros Hm Hf h l e H. unfold mbind, comp_bind in H. destruct (m h) as [l1 [a|e1|]] eqn:E; simplify_eq; [|by eapply Hm].
  destruct (f a h) as [l2 o2] eqn:E2. simplify_eq. by eapply Hf.
Qed.
Lemma answered_object {A} x (body : comp A) : answered body → answered (with_object x body).
Proof. intros Hb h l e H. unfold with_object in H. destruct (body h) as [l1 [a|e1|]] eqn:E; simplify_eq. by eapply Hb. Qed.
Lemma answered_try {A} c (body : comp A) handler : answered body → (∀ e, answered (handler e)) → answered (try_catch c body handler).
Proof.
  intros Hb Hh h l e H. unfold try_catch in H. destruct (body _) as [l1 [a|e1|]] eqn:E; simplify_eq.
  destruct (c e1) eqn:Hc.
  - destruct (handler e1 h) as [l2 o2] eqn:E2. simplify_eq. by eapply Hh.
  - simplify_eq. apply Hb in E. by rewrite Hc in E.
Qed.

(** * [exception/unwinding_the_stack.cpp] *)

Module Unwinding.
Section program.
Context (at_throw : bool) (type_name : exn → string).

(** The lines that the class [Demo] prints for the life of its objects. *)
Definition line (e : event) : string :=
  match e with
  | Say l => l
  | Born x => "Demo::Demo[" +:+ x +:+ "]"
  | Died x => "Demo::~Demo[" +:+ x +:+ "]"
  end.
Definition is_custom (e : exn) : bool := match e with CustomException _ => true | _ => false end.
Definition msg (e : exn) : string := match e with CustomException m => m | _ => "" end.

Definition f3 : comp () :=
  with_object "f3" (
    throw (A := ()) at_throw (CustomException "HelloWorld");;
    say "f3 ends").
Definition f2 : comp () :=
  with_object "f2" (
    try_catch is_custom f3 (λ e, say (msg e);; throw at_throw e);;
    say "f2 ends").
Definition f1 : comp () := with_object "f1" (f2;; say "f1 ends").
Definition f0 : comp () := with_object "f0" (f1;; say "f0 ends").
(** The name of the type that is caught is the implementation's. *)
Definition main : comp () :=
  try_catch (λ _, true) f0 (λ e, say (type_name e));;
  f0.

Lemma f0_tidy : tidy f0.
Proof. unfold f0, f1, f2, f3. eauto 20 with aoi. Qed.
Lemma main_tidy : tidy main.
Proof. unfold main. eauto using f0_tidy with aoi. Qed.
End program.

Definition down : list event := [Born "f0"; Born "f1"; Born "f2"; Born "f3"; Died "f3"; Say "HelloWorld"].
Definition up : list event := [Died "f2"; Died "f1"; Died "f0"].

(** The first call unwinds the stack, the second one finds no handler: its exception is
    caught and thrown again in [f2], so [f3]'s object has died before the program
    terminates, and the others have not, or have, as the implementation likes. No line
    behind a throw is printed. *)
Theorem unwinding_main at_throw type_name :
  run (main at_throw type_name) =
    (down ++ up ++ [Say (type_name (CustomException "HelloWorld"))] ++ down ++ (if at_throw then [] else up), Terminated) ∧
  alive [] (run (main at_throw type_name)).1 = Some (if at_throw then ["f2"; "f1"; "f0"] else [])%string.
Proof. by destruct at_throw. Qed.
End Unwinding.

(** * [exception/exception_specification.cpp] and [raise.cpp] *)

Module Specification.
Section program.
Context (at_throw : bool).

Definition func2 : comp () :=
  say "func2: START";; throw (A := ()) at_throw (RuntimeError "in func2");; say "func2: END".
Definition func1 : comp () := no_except (say "func1: START";; func2;; say "func1: END").
Definition func0 : comp () := say "func0: START";; func1;; say "func0: END".
Definition what (e : exn) : string := match e with RuntimeError w => w | _ => "" end.
Definition main : comp () := try_catch is_std func0 (λ e, say (what e)).

Definition raise_main : comp () :=
  try_catch (λ e, match e with CharPtr _ => true | _ => false end)
    (throw at_throw (CharPtr "divided by zero")) (λ e, say (match e with CharPtr s => s | _ => "" end)).
End program.

(** The handler of [main] is never reached, although it catches what is thrown. *)
Lemma specification_main at_throw :
  run (main at_throw) = ([Say "func0: START"; Say "func1: START"; Say "func2: START"], Terminated).
Proof. by destruct at_throw. Qed.
Lemma raise_main_run at_throw : run (raise_main at_throw) = ([Say "divided by zero"], Returned ()).
Proof. by destruct at_throw. Qed.
End Specification.

(** * [exception/exception_practices.cpp] *)

Module Practices.
(** The text of [logic_error] and [msg], which the derived class builds anew from it. *)
Record base_exception : Type := BaseException { logic_what : string; msg : string }.
Definition new_base (s : string) : base_exception := BaseException s ("base_exception: " +:+ s).
Definition new_derived (s : string) : base_exception :=
  let b := new_base s in BaseException (logic_what b) ("derived_exception: " +:+ logic_what b).
Definition what (e : base_exception) : string := msg e.
Definition main : list string := [what (new_derived "hello_exception"); what (new_base "hello_exception")].
Lemma practices_main : main = ["derived_exception: hello_exception"; "base_exception: hello_exception"]%string.
Proof. done. Qed.
End Practices.

(** * [cpp/cpp_class/cyclic_reference.cpp] *)

Module Cyclic.
Section program.
Context (at_throw : bool).

(** The destructor of a class runs before those of its members. *)
Definition delete_A0 : comp () := say "Destroy A0";; say "Destroy B0".
Definition delete_B1 : comp () := say "Destroy B1".
Definition delete_A1 : comp () := delete_B1;; say "Destroy A1".
(** [shared_from_this]: the weak pointer in the object is set when the first [shared_ptr]
    takes the object, after its constructor. *)
Definition shared_from_this (owned : bool) : comp () :=
  if owned then mret () else throw at_throw BadWeakPtr.
Definition new_A3 : comp () := shared_from_this false.
Definition delete_A3 : comp () := say "Destroy A3";; say "Destroy B3".
Definition main : comp () :=
  delete_A0;; delete_A1;; new_A3;; delete_A3.
End program.

(** The third pair is never made: the constructor throws. *)
Lemma cyclic_main at_throw : run (main at_throw) = ([Say "Destroy A0"; Say "Destroy B0"; Say "Destroy B1"; Say "Destroy A1"], Terminated).
Proof. by destruct at_throw. Qed.
End Cyclic.

(** * [cpp/cpp_class/rtti/rtti_test.cpp] *)

Module Rtti.
Section program.
(** The numbers that [rand] gives, whether the left argument of a constructor is evaluated
    first, and what [bad_cast] says. *)
Context (at_throw : bool) (rand : nat → Z) (left_first : bool) (bad_cast_what : string).

Inductive grand : Type :=
  | Grand (hold : Z)
  | Superb (hold : Z)
  | Magnificent (hold : Z) (ch : Z).
Definition Value (g : grand) : Z := match g with Grand h | Superb h | Magnificent h _ => h end.
Definition Speak (g : grand) : comp () :=
  match g with
  | Grand _ => say "I'm a grand class"
  | Superb _ => say "I'm a superb class"
  | Magnificent _ _ => say "I'm a magnificent class"
  end.
(** The characters of the [string] that stands for a number. *)
Definition number (z : Z) : string := pretty.pretty z.
Definition character (z : Z) : string := String (Ascii.ascii_of_nat (Z.to_nat z)) EmptyString.
(** [Say], by the class of the object; a [Grand] has none. *)
Definition say_value (g : grand) : comp () :=
  match g with
  | Grand _ => mret ()
  | Superb _ => say ("I'm hold the superb value of " +:+ number (Value g))
  | Magnificent _ ch => say ("I hold the character " +:+ character ch +:+ " and the integer " +:+ number (Value g))
  end.

(** The object, and how many numbers have been drawn. *)
Definition GetOne (n : nat) : grand * nat :=
  match Z.rem (rand n) 3 with
  | 0%Z => (Grand (Z.rem (rand (1 + n)) 100), 2 + n)
  | 1%Z => (Superb (Z.rem (rand (1 + n)) 100), 2 + n)
  | _ =>
      let '(a, b) := if left_first then (1 + n, 2 + n) else (2 + n, 1 + n) in
      (Magnificent (Z.rem (rand a) 100) (65 + Z.rem (rand b) 26), 3 + n)
  end.

Inductive class : Type := CGrand | CSuperb | CMagnificent.
#[export] Instance class_eq_dec : EqDecision class.
Proof. solve_decision. Defined.
Definition typeid (g : grand) : class :=
  match g with Grand _ => CGrand | Superb _ => CSuperb | Magnificent _ _ => CMagnificent end.
(** [dynamic_cast<Superb *>] and [dynamic_cast<Superb &>]. *)
Definition cast_pointer (g : grand) : option grand := match g with Grand _ => None | _ => Some g end.
Definition cast_reference (g : grand) : comp grand :=
  match cast_pointer g with Some s => mret s | None => throw at_throw BadCast end.

Definition class_line (g : grand) : string :=
  if decide (typeid g = CGrand) then "Class Grand"
  else if decide (typeid g = CSuperb) then "Class Superb"
  else if decide (typeid g = CMagnificent) then "Class Magnificent"
  else "Class unknown!!!".
Definition show_one (pg : grand) : comp () :=
  say (class_line pg);;
  Speak pg;;
  (match cast_pointer pg with Some ps => say_value ps | None => mret () end);;
  try_catch (λ e, match e with BadCast => true | _ => false end)
    (sprb ← cast_reference pg; say_value sprb)
    (λ _, say bad_cast_what);;
  say "".
Fixpoint main_loop (k n : nat) : comp () :=
  match k with
  | 0 => mret ()
  | S k => let '(pg, n) := GetOne n in show_one pg;; main_loop k n
  end.
End program.

(** What one object should print: its class, its line, and twice what only a [Superb] can
    say, or that the cast failed. *)
Definition lines (bad_cast_what : string) (g : grand) : list event :=
  match g with
  | Grand _ => [Say "Class Grand"; Say "I'm a grand class"; Say bad_cast_what; Say ""]
  | Superb h =>
      let v := Say ("I'm hold the superb value of " +:+ number h) in [Say "Class Superb"; Say "I'm a superb class"; v; v; Say ""]
  | Magnificent h ch =>
      let v := Say ("I hold the character " +:+ character ch +:+ " and the integer " +:+ number h) in
      [Say "Class Magnificent"; Say "I'm a magnificent class"; v; v; Say ""]
  end%string.
(** The objects that [GetOne] makes. *)
Definition drawn (g : grand) : Prop :=
  (0 ≤ Value g < 100)%Z ∧ match g with Magnificent _ ch => (65 ≤ ch < 91)%Z | _ => True end.

Lemma GetOne_drawn rand lf n : (∀ i, 0 ≤ rand i)%Z → drawn (GetOne rand lf n).1.
Proof.
  intros Hr. assert (Hm : ∀ i m, (0 < m → 0 ≤ Z.rem (rand i) m < m)%Z) by (intros i m Hm; by apply Z.rem_bound_pos).
  unfold GetOne, drawn. pose proof (Hm n 3%Z ltac:(lia)). destruct (Z.rem (rand n) 3) as [|[p|p|]|p]; destruct lf; cbn;
    (split; [apply Hm; lia|]); try done; match goal with |- context [rand ?i] => pose proof (Hm i 26%Z ltac:(lia)) end; lia.
Qed.
Lemma show_one_run at_throw what g h : show_one at_throw what g h = (lines what g, Returned ()).
Proof. destruct g; try done. by destruct at_throw. Qed.

(** Both casts agree with the class: whatever [rand] gives, the loop makes five objects
    of the three classes, prints for each the lines of its class and never an unknown
    one, and the exception of a cast that fails never leaves the loop. *)
Theorem rtti_loop at_throw rand lf what k n h : (∀ i, 0 ≤ rand i)%Z →
  ∃ gs, length gs = k ∧ Forall drawn gs ∧ main_loop at_throw rand lf what k n h = (concat (lines what <$> gs), Returned ()).
Proof.
  intros Hr. revert n. induction k as [|k IH]; intros n; [by exists []|].
  cbn [main_loop]. pose proof (GetOne_drawn rand lf n Hr) as Hd. destruct (GetOne rand lf n) as [g n'].
  destruct (IH n') as (gs & Hl & Hf & Hrun). exists (g :: gs). split_and!; [cbn; lia|by constructor|].
  unfold mbind, comp_bind. by rewrite show_one_run, Hrun.
Qed.
End Rtti.
