(* ===== verification/Asm386.v ===== *)
(** The subset of the 80386 that the repository's assembly uses, and two pieces of it:
    [strncmp] as inline assembly in
    [src/books/a_heavily_commented_linux_kernel_source_code/chapter03_kernel_programming_language_and_env/strncpy.c]
    ([Module Strncmp]), and the routines of [callee.s] with the program [caller.c] that
    calls them ([Module Callee]).

    Registers are 32-bit numbers, of the flags only those that the code looks at, memory is
    bytes; an access to an address that is not mapped has no result. *)

From S2P Require Import Prelude.
#[local] Open Scope Z_scope.

(** * The machine *)

Inductive reg : Type := EAX | EBX | ECX | EDX | ESP | EBP | ESI | EDI.
Record machine : Type := Machine {
  eax : Z; ebx : Z; ecx : Z; edx : Z; esp : Z; ebp : Z; esi : Z; edi : Z;
  zf : bool; sf : bool; of_ : bool;
  mem : Z → option Z
}.

Definition u32 (z : Z) : Z := z mod 2 ^ 32.
Definition u8 (z : Z) : Z := z mod 2 ^ 8.
(** A number read as signed. *)
Definition s32 (z : Z) : Z := if z <? 2 ^ 31 then z else z - 2 ^ 32.
Definition s8 (z : Z) : Z := if z <? 2 ^ 7 then z else z - 2 ^ 8.

Definition get (r : reg) (m : machine) : Z :=
  match r with
  | EAX => eax m | EBX => ebx m | ECX => ecx m | EDX => edx m
  | ESP => esp m | EBP => ebp m | ESI => esi m | EDI => edi m
  end.
Definition set (r : reg) (v : Z) (m : machine) : machine :=
  let 'Machine a b c d sp bp si di z s o me := m in
  match r with
  | EAX => Machine v b c d sp bp si di z s o me
  | EBX => Machine a v c d sp bp si di z s o me
  | ECX => Machine a b v d sp bp si di z s o me
  | EDX => Machine a b c v sp bp si di z s o me
  | ESP => Machine a b c d v bp si di z s o me
  | EBP => Machine a b c d sp v si di z s o me
  | ESI => Machine a b c d sp bp v di z s o me
  | EDI => Machine a b c d sp bp si v z s o me
  end.
Definition set_flags (z s o : bool) (m : machine) : machine :=
  Machine (eax m) (ebx m) (ecx m) (edx m) (esp m) (ebp m) (esi m) (edi m) z s o (mem m).
Definition set_mem (me : Z → option Z) (m : machine) : machine :=
  Machine (eax m) (ebx m) (ecx m) (edx m) (esp m) (ebp m) (esi m) (edi m) (zf m) (sf m) (of_ m) me.

(** Words of four bytes, the low one first. *)
Definition load32 (me : Z → option Z) (a : Z) : option Z :=
  b0 ← me a; b1 ← me (a + 1); b2 ← me (a + 2); b3 ← me (a + 3);
  Some (b0 + 2 ^ 8 * b1 + 2 ^ 16 * b2 + 2 ^ 24 * b3).
Definition mapped (me : Z → option Z) (a : Z) : bool :=
  match load32 me a with Some _ => true | None => false end.
Definition store32 (me : Z → option Z) (a v : Z) : option (Z → option Z) :=
  if mapped me a then
    Some (λ x, if (a <=? x) && (x <? a + 4) then Some (u8 (Z.shiftr v (8 * (x - a)))) else me x)
  else None.

Inductive instr : Type :=
  | Cld
  | Decl (r : reg)
  | Incl (r : reg)
  | Negl (r : reg)
  | Lodsb
  | Scasb
  | Testb_al
  | Xorl (src dst : reg)
  | Addl (src dst : reg)
  | MovImm (v : Z) (dst : reg)
  | Mov (src dst : reg)
  | Load (disp : Z) (base dst : reg)
  | Store (src : reg) (disp : Z) (base : reg)
  | Push (r : reg)
  | Pop (r : reg)
  | Jmp (l : nat) | Js (l : nat) | Jne (l : nat) | Jl (l : nat) | Jo (l : nat)
  | Int80
  | Ret.

(** The flags of a result of 32 bits. *)
Definition flags32 (v : Z) (o : bool) (m : machine) : machine := set_flags (v =? 0) (2 ^ 31 <=? v) o m.
Definition in_s32 (z : Z) : bool := (- 2 ^ 31 <=? z) && (z <? 2 ^ 31).

(** One instruction: the next place, or the return address. The kernel is an argument. *)
Inductive control : Type := Fall | Goto (l : nat) | Return (a : Z).
Definition when (b : bool) (l : nat) : control := if b then Goto l else Fall.

Section step.
Context (kernel : machine → machine).

Definition exec (i : instr) (m : machine) : option (machine * control) :=
  match i with
  | Cld => Some (m, Fall)
  | Decl r =>
      let v := u32 (get r m - 1) in
      Some (flags32 v (negb (in_s32 (s32 (get r m) - 1))) (set r v m), Fall)
  | Incl r =>
      let v := u32 (get r m + 1) in
      Some (flags32 v (negb (in_s32 (s32 (get r m) + 1))) (set r v m), Fall)
  | Negl r =>
      let v := u32 (- get r m) in
      Some (flags32 v (negb (in_s32 (- s32 (get r m)))) (set r v m), Fall)
  | Lodsb =>
      b ← mem m (esi m);
      Some (set ESI (u32 (esi m + 1)) (set EAX (eax m - u8 (eax m) + b) m), Fall)
  | Scasb =>
      b ← mem m (edi m);
      let al := u8 (eax m) in let v := u8 (al - b) in let d := s8 al - s8 b in
      Some (set EDI (u32 (edi m + 1)) (set_flags (v =? 0) (2 ^ 7 <=? v) ((d <? - 2 ^ 7) || (2 ^ 7 <=? d)) m), Fall)
  | Testb_al => let al := u8 (eax m) in Some (set_flags (al =? 0) (2 ^ 7 <=? al) false m, Fall)
  | Xorl src dst => let v := Z.lxor (get src m) (get dst m) in Some (flags32 v false (set dst v m), Fall)
  | Addl src dst =>
      let v := u32 (get src m + get dst m) in
      Some (flags32 v (negb (in_s32 (s32 (get src m) + s32 (get dst m)))) (set dst v m), Fall)
  | MovImm v dst => Some (set dst v m, Fall)
  | Mov src dst => Some (set dst (get src m) m, Fall)
  | Load disp base dst => v ← load32 (mem m) (u32 (get base m + disp)); Some (set dst v m, Fall)
  | Store src disp base =>
      me ← store32 (mem m) (u32 (get base m + disp)) (get src m); Some (set_mem me m, Fall)
  | Push r =>
      let a := u32 (esp m - 4) in
      me ← store32 (mem m) a (get r m); Some (set ESP a (set_mem me m), Fall)
  | Pop r =>
      v ← load32 (mem m) (esp m); Some (set r v (set ESP (u32 (esp m + 4)) m), Fall)
  | Jmp l => Some (m, Goto l)
  | Js l => Some (m, when (sf m) l)
  | Jne l => Some (m, when (negb (zf m)) l)
  | Jl l => Some (m, when (xorb (sf m) (of_ m)) l)
  | Jo l => Some (m, when (of_ m) l)
  | Int80 => Some (kernel m, Fall)
  | Ret => a ← load32 (mem m) (esp m); Some (set ESP (u32 (esp m + 4)) m, Return a)
  end.

(** A run ends behind the last instruction, or with [ret] and the address it returns to. *)
Fixpoint run (fuel : nat) (code : list instr) (pc : nat) (m : machine) : option (machine * option Z) :=
  match fuel with
  | O => None
  | S fuel =>
      match code !! pc with
      | None => Some (m, None)
      | Some i =>
          '(m, c) ← exec i m;
          match c with
          | Fall => run fuel code (S pc) m
          | Goto l => run fuel code l m
          | Return a => Some (m, Some a)
          end
      end
  end.
End step.

Lemma run_S kernel f c pc m i m' ct : c !! pc = Some i → exec kernel i m = Some (m', ct) →
  run kernel (S f) c pc m =
    match ct with Fall => run kernel f c (S pc) m' | Goto l => run kernel f c l m' | Return a => Some (m', Some a) end.
Proof. intros Hi He. cbn [run]. by rewrite Hi, He. Qed.
Lemma run_end kernel f c pc m : c !! pc = None → run kernel (S f) c pc m = Some (m, None).
Proof. intros Hi. cbn [run]. by rewrite Hi. Qed.
(** One instruction that is known, or a jump whose condition is. *)
Ltac istep := erewrite run_S; [|reflexivity|reflexivity]; cbn beta iota.
Ltac ijump H := erewrite run_S; [|reflexivity|cbn [exec sf zf of_ flags32 set_flags set get eax ebx ecx edx esp ebp esi edi mem]; rewrite H; reflexivity]; cbn [when negb].

(** * [strncpy.c] *)

Module Strncmp.

(** The labels [1] to [4] are the places 1, 8, 10 and 13. *)
Definition code : list instr := [
  Cld;
  Decl ECX;             (* 1: *)
  Js 8;
  Lodsb;
  Scasb;
  Jne 10;
  Testb_al;
  Jne 1;
  Xorl EAX EAX;         (* 2: *)
  Jmp 13;
  MovImm 1 EAX;         (* 3: *)
  Jl 13;
  Negl EAX              (* 4: *)
].
(** The operands: [cs] in [edi], [ct] in [esi], [count] in [ecx]; nothing else is known of
    the machine. *)
Definition called_with (cs ct count : Z) (m : machine) : Prop :=
  edi m = cs ∧ esi m = ct ∧ ecx m = count.
Definition strncmp (kernel : machine → machine) (fuel : nat) (m : machine) : option Z :=
  '(m, _) ← run kernel fuel code 0 m; Some (s32 (eax m)).

(** ** The specification *)

(** Two zero-terminated strings, compared for at most [n] characters as signed bytes. *)
Fixpoint compare (n : nat) (s t : list Z) : Z :=
  match n, s, t with
  | S n, a :: s, b :: t => if a =? b then if a =? 0 then 0 else compare n s t else if s8 b <? s8 a then 1 else -1
  | _, _, _ => 0
  end.
(** A string in memory, with its zero. *)
Definition string_at (me : Z → option Z) (a : Z) (s : list Z) : Prop :=
  0 ≤ a ∧ a + Z.of_nat (length s) < 2 ^ 32 ∧ Forall (λ b, 0 < b < 2 ^ 8) s ∧
  ∀ i b, (s ++ [0]) !! i = Some b → me (a + Z.of_nat i) = Some b.

Lemma string_at_head me a s : string_at me a s → me a = Some (default 0 (head s)).
Proof.
  intros (_ & _ & _ & H). destruct s as [|b s]; [specialize (H 0%nat 0 eq_refl)|specialize (H 0%nat b eq_refl)]; by rewrite Z.add_0_r in H.
Qed.
Lemma string_at_tail me a b s : string_at me a (b :: s) → string_at me (a + 1) s ∧ u32 (a + 1) = a + 1 ∧ 0 < b < 2 ^ 8.
Proof.
  intros (H1 & H2 & H3 & H4). apply Forall_cons in H3 as [Hb H3]. cbn [length] in H2. split; [|split; [|done]].
  - split; [lia|split; [lia|split; [done|]]]. intros i b' Hi. rewrite <- Z.add_assoc. replace (1 + Z.of_nat i) with (Z.of_nat (S i)) by lia. by apply H4.
  - apply Z.mod_small. lia.
Qed.
Lemma head_range me a s : string_at me a s → 0 ≤ default 0 (head s) < 2 ^ 8.
Proof. intros (_ & _ & H & _). destruct s; [done|]. apply Forall_cons in H as [H _]. cbn. lia. Qed.

(** The flags of a comparison of bytes, as [jl] reads them. *)
Lemma jl_signed a b : 0 ≤ a < 2 ^ 8 → 0 ≤ b < 2 ^ 8 →
  xorb (2 ^ 7 <=? u8 (b - a)) ((s8 b - s8 a <? - 2 ^ 7) || (2 ^ 7 <=? s8 b - s8 a)) = (s8 b <? s8 a).
Proof.
  intros Ha Hb. unfold s8, u8. change (2 ^ 7) with 128 in *. change (2 ^ 8) with 256 in *.
  assert (Hm : (b - a) mod 256 = if b <? a then b - a + 256 else b - a).
  { destruct (Z.ltb_spec b a); [|by apply Z.mod_small; lia]. symmetry. apply (Z.mod_unique _ _ (-1)); lia. }
  rewrite Hm. destruct (Z.ltb_spec a 128), (Z.ltb_spec b 128), (Z.ltb_spec b a);
    repeat (match goal with |- context [?x <=? ?y] => destruct (Z.leb_spec x y) end); try lia;
    repeat (match goal with |- context [?x <? ?y] => destruct (Z.ltb_spec x y) end); try lia; done.
Qed.
Lemma byte_eq a b : 0 ≤ a < 2 ^ 8 → 0 ≤ b < 2 ^ 8 → (u8 (b - a) =? 0) = (a =? b).
Proof.
  intros Ha Hb. unfold u8. change (2 ^ 8) with 256 in *. destruct (Z.eqb_spec a b) as [->|Hne].
  - by rewrite Z.sub_diag.
  - apply Z.eqb_neq. intros H. apply Z.mod_divide in H as [k Hk]; [|lia]. assert (k = 0) by lia. lia.
Qed.
Lemma u8_low x b : 0 ≤ b < 2 ^ 8 → u8 (x - u8 x + b) = b.
Proof.
  intros Hb. unfold u8. change (2 ^ 8) with 256 in *. rewrite Zminus_mod_idemp_r || idtac.
  replace (x - x mod 256 + b) with (b + (x / 256) * 256) by (pose proof (Z.div_mod x 256); lia).
  rewrite Z.mod_add by lia. by apply Z.mod_small.
Qed.

(** ** The code *)

Lemma strncmp_zero kernel f m : ecx m = 0 ∨ 2 ^ 31 < ecx m < 2 ^ 32 →
  ∃ m', run kernel (5 + f) code 1 m = Some (m', None) ∧ eax m' = 0.
Proof.
  intros Hc. assert (Hs : (2 ^ 31 <=? u32 (ecx m - 1)) = true).
  { apply Z.leb_le. unfold u32. destruct Hc as [->|Hc]; [vm_compute; congruence|]. rewrite Z.mod_small; lia. }
  eexists. cbn [Nat.add]. istep. ijump Hs. istep. istep. rewrite run_end by done. split; [reflexivity|]. apply Z.lxor_nilpotent.
Qed.

(** One turn of the loop, with two characters. *)
Lemma turn kernel f m a b : 0 < ecx m ≤ 2 ^ 31 → mem m (edi m) = Some a → mem m (esi m) = Some b →
  0 ≤ a < 2 ^ 8 → 0 ≤ b < 2 ^ 8 →
  if a =? b then
    if a =? 0 then ∃ m', run kernel (16 + f) code 1 m = Some (m', None) ∧ eax m' = 0
    else ∃ m', run kernel (16 + f) code 1 m = run kernel (9 + f) code 1 m' ∧
      ecx m' = ecx m - 1 ∧ edi m' = u32 (edi m + 1) ∧ esi m' = u32 (esi m + 1) ∧ mem m' = mem m
  else ∃ m', run kernel (16 + f) code 1 m = Some (m', None) ∧ s32 (eax m') = if s8 b <? s8 a then 1 else -1.
Proof.
  intros Hc Ha Hb Ra Rb. destruct m as [ea eb ec ed sp bp si di z sfl o me]. cbn [ecx edi esi mem] in *.
  assert (Hn : u32 (ec - 1) = ec - 1) by (apply Z.mod_small; lia).
  assert (Hs : (2 ^ 31 <=? u32 (ec - 1)) = false) by (rewrite Hn; apply Z.leb_gt; lia).
  cbn [Nat.add]. istep. ijump Hs.
  erewrite run_S; [|reflexivity|cbn [exec mem esi eax flags32 set_flags set get]; rewrite Hb; reflexivity]; cbn beta iota.
  erewrite run_S; [|reflexivity|cbn [exec mem edi eax flags32 set_flags set get]; rewrite Ha, u8_low by done; reflexivity]; cbn beta iota.
  pose proof (byte_eq a b Ra Rb) as Heq. pose proof (jl_signed a b Ra Rb) as Hjl.
  destruct (Z.eqb_spec a b) as [->|Hne].
  - ijump Heq. istep. destruct (Z.eqb_spec b 0) as [->|H0].
    + erewrite run_S; [|reflexivity|cbn [exec sf zf of_ flags32 set_flags set eax]; rewrite u8_low by done; reflexivity].
      cbn [when negb Z.eqb]. istep. istep. rewrite run_end by done. eexists. split; [reflexivity|]. apply Z.lxor_nilpotent.
    + erewrite run_S; [|reflexivity|cbn [exec sf zf of_ flags32 set_flags set eax]; rewrite u8_low by done; reflexivity].
      rewrite (proj2 (Z.eqb_neq b 0) H0). cbn [when negb]. eexists. split; [reflexivity|].
      cbn [ecx edi esi mem set set_flags flags32 get]. by rewrite Hn.
  - ijump Heq. istep. ijump Hjl. destruct (s8 b <? s8 a); cbn [when].
    + rewrite run_end by done. eexists. by split.
    + istep. rewrite run_end by done. eexists. by split.
Qed.

Lemma loop kernel s t m : 0 ≤ ecx m ≤ 2 ^ 31 → string_at (mem m) (edi m) s → string_at (mem m) (esi m) t →
  ∃ m', run kernel (16 + length s * 7) code 1 m = Some (m', None) ∧
    s32 (eax m') = compare (Z.to_nat (ecx m)) (s ++ [0]) (t ++ [0]).
Proof.
  revert t m. induction s as [|a s IH]; intros t m Hn Hs Ht.
  all: match goal with |- context [(16 + ?k)%nat] => destruct (decide (ecx m = 0)) as [Hz|Hz];
    [destruct (strncmp_zero kernel (11 + k) m (or_introl Hz)) as (m' & Hrun & He);
     exists m'; split; [exact Hrun|]; by rewrite He, Hz|] end.
  all: destruct (Z.to_nat (ecx m)) as [|n] eqn:En; [lia|].
  all: pose proof (string_at_head _ _ _ Hs) as Ha; pose proof (head_range _ _ _ Hs) as Ra;
    pose proof (string_at_head _ _ _ Ht) as Hb; pose proof (head_range _ _ _ Ht) as Rb;
    assert (Ht1 : ∃ t1, t ++ [0] = default 0 (head t) :: t1) by (destruct t; by eexists);
    destruct Ht1 as [t1 Et1]; set (b := default 0 (head t)) in *; cbn in Ha, Ra.
  - pose proof (turn kernel 0 m 0 b ltac:(lia) Ha Hb ltac:(lia) Rb) as Hturn.
    rewrite Et1. cbn [app compare length Nat.mul]. destruct (Z.eqb_spec 0 b) as [<-|Hne]; cbn [Z.eqb] in *.
    + destruct Hturn as (m' & Hrun & He). exists m'. split; [exact Hrun|by rewrite He].
    + exact Hturn.
  - pose proof (turn kernel (length (a :: s) * 7) m a b ltac:(lia) Ha Hb Ra Rb) as Hturn.
    rewrite Et1. cbn [app compare]. destruct (Z.eqb_spec a b) as [Eab|Hne]; [|exact Hturn].
    destruct (string_at_tail _ _ _ _ Hs) as (Hs' & Hi & Rng). destruct (Z.eqb_spec a 0); [lia|].
    destruct t as [|b' t]; [cbn in b; lia|]. cbn in b, Et1. injection Et1 as <-.
    destruct (string_at_tail _ _ _ _ Ht) as (Ht' & Hj & _).
    destruct Hturn as (m' & Hrun & H1 & H2 & H3 & H4). destruct (IH t m') as (m'' & Hrun' & He).
    + lia.
    + by rewrite H4, H2, Hi.
    + by rewrite H4, H3, Hj.
    + exists m''. split; [by rewrite Hrun|]. rewrite He. f_equal. lia.
Qed.

(** C35: The assembly ends and compares: for any two strings in memory and any count up to
    2^31 it returns 0 when they agree in the first [count] characters or both end there,
    and otherwise 1 or -1 as the first characters that differ compare as signed bytes,
    whatever the registers and flags held before. *)
Theorem strncmp_compares kernel s t cs ct count m :
  called_with cs ct count m → 0 ≤ count ≤ 2 ^ 31 → string_at (mem m) cs s → string_at (mem m) ct t →
  strncmp kernel (17 + length s * 7) m = Some (compare (Z.to_nat count) (s ++ [0]) (t ++ [0])).
Proof.
  intros (<- & <- & <-) Hc Hs Ht. destruct (loop kernel s t m Hc Hs Ht) as (m' & Hrun & He).
  unfold strncmp. change (17 + length s * 7)%nat with (S (16 + length s * 7)). istep. rewrite Hrun. cbn. by rewrite He.
Qed.

(** Two strings next to each other in memory. *)
Definition demo_memory (s t : list Z) : Z → option Z := λ x, if x <? 0 then None else (s ++ [0] ++ t ++ [0]) !! Z.to_nat x.
Definition demo_machine (s t : list Z) (count : Z) : machine :=
  Machine 99 0 count 0 0 0 (Z.of_nat (length s) + 1) 0 true true true (demo_memory s t).
(** [strncmp("helloworld", "hellowerld", 9)] *)
Definition helloworld : list Z := [104; 101; 108; 108; 111; 119; 111; 114; 108; 100].
Definition hellowerld : list Z := [104; 101; 108; 108; 111; 119; 101; 114; 108; 100].
Lemma strncmp_compares_witness : strncmp id 87 (demo_machine helloworld hellowerld 9) = Some 1.
Proof.
  assert (Hin : ∀ l b i, (l ++ [0]) !! i = Some b → (i < length l + 1)%nat).
  { intros l b i H%lookup_lt_Some. by rewrite length_app in H. }
  apply (strncmp_compares id helloworld hellowerld 0 11 9); [done|lia|..];
    (split; [done|split; [done|split; [repeat constructor|]]]);
    intros i b Hi; pose proof (Hin _ _ _ Hi) as Hlt; cbn in Hlt;
    do 11 (destruct i as [|i]; [exact Hi|]); lia.
Defined.

(** A count above 2^31 is taken for a negative one: the strings are equal unseen. *)
Lemma strncmp_large kernel f m : 2 ^ 31 < ecx m < 2 ^ 32 → strncmp kernel (6 + f) m = Some 0.
Proof.
  intros Hc. destruct (strncmp_zero kernel f m (or_intror Hc)) as (m' & Hrun & He). unfold strncmp.
  change (6 + f)%nat with (S (5 + f)). istep. rewrite Hrun. cbn. by rewrite He.
Qed.

(** The standard compares the characters as unsigned bytes. *)
Fixpoint standard (n : nat) (s t : list Z) : Z :=
  match n, s, t with
  | S n, a :: s, b :: t => if a =? b then if a =? 0 then 0 else standard n s t else if b <? a then 1 else -1
  | _, _, _ => 0
  end.
Lemma compare_ascii n s t : Forall (λ b, 0 ≤ b < 2 ^ 7) s → Forall (λ b, 0 ≤ b < 2 ^ 7) t → compare n s t = standard n s t.
Proof.
  revert s t. induction n as [|n IH]; intros [|a s] [|b t] Hs Ht; try done.
  apply Forall_cons in Hs as [Ha Hs]. apply Forall_cons in Ht as [Hb Ht]. cbn [compare standard]. rewrite IH by done.
  unfold s8. rewrite (proj2 (Z.ltb_lt a (2 ^ 7))), (proj2 (Z.ltb_lt b (2 ^ 7))) by lia. done.
Qed.
Example compare_not_standard : compare 1 [128; 0] [97; 0] = -1 ∧ standard 1 [128; 0] [97; 0] = 1.
Proof. done. Qed.
End Strncmp.

(** * Words in memory *)

(** Bytes are bytes. *)
Definition bytes (me : Z → option Z) : Prop := ∀ x b, me x = Some b → 0 ≤ b < 2 ^ 8.

Lemma load32_range me a v : bytes me → load32 me a = Some v → 0 ≤ v < 2 ^ 32.
Proof.
  intros Hb H. unfold load32 in H. destruct (me a) as [b0|] eqn:E0; [|done]. destruct (me (a + 1)) as [b1|] eqn:E1; [|done].
  destruct (me (a + 2)) as [b2|] eqn:E2; [|done]. destruct (me (a + 3)) as [b3|] eqn:E3; [|done].
  pose proof (Hb _ _ E0). pose proof (Hb _ _ E1). pose proof (Hb _ _ E2). pose proof (Hb _ _ E3).
  cbn [mbind option_bind] in H. injection H as <-. lia.
Qed.
Lemma store32_spec me a v : mapped me a = true → ∃ me', store32 me a v = Some me' ∧
  (∀ x, a ≤ x < a + 4 → me' x = Some (u8 (Z.shiftr v (8 * (x - a))))) ∧ (∀ x, ¬ a ≤ x < a + 4 → me' x = me x).
Proof.
  intros Hm. eexists. unfold store32. rewrite Hm. split; [done|]. cbn. split; intros x Hx;
    destruct (Z.leb_spec a x), (Z.ltb_spec x (a + 4)); try lia; done.
Qed.
Lemma word_of_bytes v : 0 ≤ v < 2 ^ 32 →
  u8 (Z.shiftr v (8 * 0)) + 2 ^ 8 * u8 (Z.shiftr v (8 * 1)) + 2 ^ 16 * u8 (Z.shiftr v (8 * 2)) + 2 ^ 24 * u8 (Z.shiftr v (8 * 3)) = v.
Proof.
  intros Hv. rewrite !Z.shiftr_div_pow2 by lia. unfold u8.
  change (8 * 0) with 0. change (8 * 1) with 8. change (8 * 2) with 16. change (8 * 3) with 24. rewrite Z.div_1_r.
  change (2 ^ 16) with (2 ^ 8 * 2 ^ 8). change (2 ^ 24) with (2 ^ 8 * 2 ^ 8 * 2 ^ 8). rewrite <- !Z.div_div by lia.
  pose proof (Z.div_mod v (2 ^ 8)). pose proof (Z.div_mod (v / 2 ^ 8) (2 ^ 8)). pose proof (Z.div_mod (v / 2 ^ 8 / 2 ^ 8) (2 ^ 8)).
  assert (v / 2 ^ 8 / 2 ^ 8 / 2 ^ 8 < 2 ^ 8) by (rewrite !Z.div_div by lia; apply Z.div_lt_upper_bound; lia).
  assert (0 ≤ v / 2 ^ 8 / 2 ^ 8 / 2 ^ 8) by (rewrite !Z.div_div by lia; apply Z.div_pos; lia).
  rewrite (Z.mod_small (v / 2 ^ 8 / 2 ^ 8 / 2 ^ 8)) by lia. lia.
Qed.
(** A word that was stored is loaded again, and the words beside it are as they were. *)
Lemma load_stored me a v me' : store32 me a v = Some me' → 0 ≤ v < 2 ^ 32 → load32 me' a = Some v.
Proof.
  intros Hs Hv. assert (Hm : mapped me a = true) by (unfold store32 in Hs; by destruct (mapped me a)).
  destruct (store32_spec me a v Hm) as (me1 & Hs1 & H1 & _). rewrite Hs in Hs1. simplify_eq.
  unfold load32. rewrite !H1 by lia. cbn [mbind option_bind]. f_equal.
  replace (a - a) with 0 by lia. replace (a + 1 - a) with 1 by lia. replace (a + 2 - a) with 2 by lia. replace (a + 3 - a) with 3 by lia.
  by apply word_of_bytes.
Qed.
Lemma load_beside me a v me' b : store32 me a v = Some me' → b + 4 ≤ a ∨ a + 4 ≤ b → load32 me' b = load32 me b.
Proof.
  intros Hs Hb. assert (Hm : mapped me a = true) by (unfold store32 in Hs; by destruct (mapped me a)).
  destruct (store32_spec me a v Hm) as (me1 & Hs1 & _ & H1). rewrite Hs in Hs1. simplify_eq.
  unfold load32. by rewrite !H1 by lia.
Qed.
Lemma mapped_load me a v : load32 me a = Some v → mapped me a = true.
Proof. unfold mapped. by intros ->. Qed.

(** * [callee.s] and [caller.c] *)

Module Callee.

Definition SYSWRITE : Z := 4.
Definition mywrite : list instr := [
  Push EBP; Mov ESP EBP; Push EBX;
  Load 8 EBP EBX; Load 12 EBP ECX; Load 16 EBP EDX;
  MovImm SYSWRITE EAX; Int80;
  Pop EBX; Mov EBP ESP; Pop EBP; Ret
].
(** The label [1] is the place 10. *)
Definition myadd : list instr := [
  Push EBP; Mov ESP EBP;
  Load 8 EBP EAX; Load 12 EBP EDX;
  Xorl ECX ECX; Addl EAX EDX; Jo 10;
  Load 16 EBP EAX; Store EDX 0 EAX;
  Incl ECX;
  Mov ECX EAX; Mov EBP ESP; Pop EBP; Ret   (* 1: *)
].

(** A call with three arguments: the return address and the arguments from [esp] up, and
    room for [n] words below. *)
Record called (n : Z) (m : machine) (ret a1 a2 a3 : Z) : Prop := Called {
  c_bytes : bytes (mem m);
  c_esp : 4 * n ≤ esp m ∧ esp m + 16 ≤ 2 ^ 32;
  c_ebp : 0 ≤ ebp m < 2 ^ 32;
  c_ret : load32 (mem m) (esp m) = Some ret;
  c_a1 : load32 (mem m) (esp m + 4) = Some a1;
  c_a2 : load32 (mem m) (esp m + 8) = Some a2;
  c_a3 : load32 (mem m) (esp m + 12) = Some a3;
  c_room : ∀ i, 1 ≤ i ≤ n → mapped (mem m) (esp m - 4 * i) = true
}.
(** What a function keeps for its caller: the stack pointer, past the return address, and
    the registers that the convention reserves. *)
Definition keeps (m m' : machine) : Prop :=
  esp m' = u32 (esp m + 4) ∧ ebp m' = ebp m ∧ ebx m' = ebx m ∧ esi m' = esi m ∧ edi m' = edi m.

Lemma u32_small z : 0 ≤ z < 2 ^ 32 → u32 z = z.
Proof. apply Z.mod_small. Qed.
(** A load whose address and value are known. *)
Ltac iload H := erewrite run_S; [|reflexivity|
  cbn [exec set_mem set_flags flags32 set get eax ebx ecx edx esp ebp esi edi mem]; rewrite H; reflexivity]; cbn [when negb].

(** C36: [myadd] adds: called with two numbers and a place that its stack frame does not
    cover, it returns to its caller with the registers it must keep; when the sum of the
    signed numbers is a signed number it returns 1 and the sum is at the place, else it
    returns 0 and the place is as it was. *)
Theorem myadd_adds kernel m ret a b p :
  called 1 m ret a b p → mapped (mem m) p = true → p + 4 ≤ esp m - 4 ∨ esp m + 4 ≤ p → 0 ≤ p →
  p + 4 ≤ 2 ^ 32 →
  ∃ m', run kernel 15 myadd 0 m = Some (m', Some ret) ∧ keeps m m' ∧
    if in_s32 (s32 a + s32 b) then eax m' = 1 ∧ load32 (mem m') p = Some (u32 (a + b))
    else eax m' = 0 ∧ load32 (mem m') p = load32 (mem m) p.
Proof.
  intros [Hby Hsp Hbp Hret H1 H2 H3 Hroom] Hp Hdis Hp0 Hp1. destruct m as [ea eb ec ed sp bp si di z sfl o me]. cbn [mem esp ebp] in *.
  specialize (Hroom 1 ltac:(lia)). assert (Esp : u32 (sp - 4) = sp - 4) by (apply u32_small; lia).
  destruct (store32_spec me (sp - 4) bp) as (me1 & Hst & _); [by replace (sp - 4) with (sp - 4 * 1) by lia|].
  pose proof (λ b, load_beside _ _ _ _ b Hst) as Hbes.
  assert (A1 : load32 me1 (u32 (sp - 4 + 8)) = Some a) by (rewrite u32_small, Hbes by lia; by replace (sp - 4 + 8) with (sp + 4) by lia).
  assert (A2 : load32 me1 (u32 (sp - 4 + 12)) = Some b) by (rewrite u32_small, Hbes by lia; by replace (sp - 4 + 12) with (sp + 8) by lia).
  assert (A3 : load32 me1 (u32 (sp - 4 + 16)) = Some p) by (rewrite u32_small, Hbes by lia; by replace (sp - 4 + 16) with (sp + 12) by lia).
  erewrite run_S; [|reflexivity|cbn [exec get esp ebp mem set_mem]; rewrite Esp, Hst; reflexivity]; cbn [when negb].
  assert (Hsave : load32 me1 (sp - 4) = Some bp) by by eapply load_stored.
  assert (Hback : load32 me1 sp = Some ret) by (by rewrite Hbes by lia).
  assert (E4 : u32 (sp - 4 + 4) = sp) by (rewrite u32_small; lia).
  istep. iload A1. iload A2. istep. istep. destruct (in_s32 (s32 a + s32 b)) eqn:Hin.
  - ijump Hin. iload A3.
    assert (Hp' : mapped me1 (u32 (p + 0)) = true) by (rewrite Z.add_0_r, u32_small by lia; unfold mapped in *; by rewrite Hbes by lia).
    destruct (store32_spec me1 (u32 (p + 0)) (u32 (a + b)) Hp') as (me2 & Hst2 & _). pose proof (λ b, load_beside _ _ _ _ b Hst2) as Hbes2.
    rewrite Z.add_0_r, u32_small in Hbes2 by lia.
    erewrite run_S; [|reflexivity|cbn [exec set_mem set_flags flags32 set get eax ebx ecx edx esp ebp esi edi mem]; rewrite Hst2; reflexivity]; cbn [when negb].
    istep. istep. istep.
    assert (Hsave2 : load32 me2 (sp - 4) = Some bp) by by rewrite Hbes2 by lia.
    assert (Hback2 : load32 me2 (u32 (sp - 4 + 4)) = Some ret) by by rewrite E4, Hbes2 by lia.
    iload Hsave2. iload Hback2. eexists. split; [reflexivity|]. split; [by unfold keeps; cbn; rewrite E4|].
    cbn [eax mem set set_mem set_flags flags32]. split; [by rewrite Z.lxor_nilpotent|].
    rewrite Z.add_0_r, u32_small in Hst2 by lia. eapply load_stored; [exact Hst2|]. apply Z.mod_pos_bound. lia.
  - ijump Hin. istep. istep.
    assert (Hback2 : load32 me1 (u32 (sp - 4 + 4)) = Some ret) by by rewrite E4.
    iload Hsave. iload Hback2. eexists. split; [reflexivity|]. split; [by unfold keeps; cbn; rewrite E4|].
    cbn [eax mem set set_mem set_flags flags32]. split; [by rewrite Z.lxor_nilpotent|]. by rewrite Hbes by lia.
Qed.

(** A stack at 32 with the arguments 5, 10 and the place 8. *)
Definition demo_bytes : list Z := replicate 32 0 ++ [7; 0; 0; 0; 5; 0; 0; 0; 10; 0; 0; 0; 8; 0; 0; 0].
Definition demo_machine : machine :=
  Machine 1 2 3 4 32 40 6 7 true true true (λ x, if x <? 0 then None else demo_bytes !! Z.to_nat x).
Lemma demo_called : called 1 demo_machine 7 5 10 8.
Proof.
  split; try reflexivity; try (cbn; lia).
  - intros x b H. cbn [mem demo_machine] in H. destruct (x <? 0); [done|].
    assert (Hall : Forall (λ b, 0 ≤ b < 2 ^ 8) demo_bytes) by (apply (bool_decide_unpack (Forall (λ b, 0 ≤ b < 2 ^ 8) demo_bytes)); vm_compute; done).
    exact (Forall_lookup_1 _ _ _ _ Hall H).
  - intros i Hi. assert (i = 1) as -> by lia. reflexivity.
Qed.
Lemma myadd_adds_witness : ∃ m', run id 15 myadd 0 demo_machine = Some (m', Some 7) ∧ keeps demo_machine m' ∧
  eax m' = 1 ∧ load32 (mem m') 8 = Some 15.
Proof. apply (myadd_adds id demo_machine 7 5 10 8); [exact demo_called|reflexivity|left; cbn; lia|lia..]. Defined.

(** The call of the kernel: what it is asked is in [eax] to [edx], it answers in [eax]. *)
Definition kernel_of (sys : Z → Z → Z → Z → Z) (m : machine) : machine :=
  set EAX (sys (eax m) (ebx m) (ecx m) (edx m)) m.

(** [mywrite] asks the kernel to write what it was called with, returns its answer, and keeps
    what it must. *)
Lemma mywrite_writes sys m ret fd buf n : called 2 m ret fd buf n → 0 ≤ ebx m < 2 ^ 32 →
  ∃ m', run (kernel_of sys) 13 mywrite 0 m = Some (m', Some ret) ∧ keeps m m' ∧ eax m' = sys SYSWRITE fd buf n.
Proof.
  intros [Hby Hsp Hbp Hret H1 H2 H3 Hroom] Hbx. destruct m as [ea eb ec ed sp bp si di z sfl o me]. cbn [mem esp ebp ebx] in *.
  pose proof (Hroom 1 ltac:(lia)) as R1. pose proof (Hroom 2 ltac:(lia)) as R2. rewrite Z.mul_1_r in R1. change (4 * 2) with 8 in R2.
  assert (Esp : u32 (sp - 4) = sp - 4) by (apply u32_small; lia).
  assert (Esp2 : u32 (sp - 4 - 4) = sp - 8) by (rewrite u32_small; lia).
  destruct (store32_spec me (sp - 4) bp R1) as (me1 & Hst & _). pose proof (λ b, load_beside _ _ _ _ b Hst) as Hbes.
  assert (R2' : mapped me1 (sp - 8) = true) by (unfold mapped in *; by rewrite Hbes by lia).
  destruct (store32_spec me1 (sp - 8) eb R2') as (me2 & Hst2 & _). pose proof (λ b, load_beside _ _ _ _ b Hst2) as Hbes2.
  assert (Hld : ∀ k v, 4 ≤ k → load32 me (sp + k) = Some v → load32 me2 (u32 (sp - 4 + (k + 4))) = Some v ∨ 2 ^ 32 ≤ sp + k).
  { intros k v Hk Hv. destruct (Z.leb_spec (2 ^ 32) (sp + k)); [by right|left].
    rewrite u32_small by lia. replace (sp - 4 + (k + 4)) with (sp + k) by lia. by rewrite Hbes2, Hbes by lia. }
  assert (A1 : load32 me2 (u32 (sp - 4 + 8)) = Some fd) by (destruct (Hld 4 fd); [lia|done|done|lia]).
  assert (A2 : load32 me2 (u32 (sp - 4 + 12)) = Some buf) by (destruct (Hld 8 buf); [lia|done|done|lia]).
  assert (A3 : load32 me2 (u32 (sp - 4 + 16)) = Some n) by (destruct (Hld 12 n); [lia|done|done|lia]).
  assert (B1 : load32 me2 (sp - 8) = Some eb) by by eapply load_stored.
  assert (B2 : load32 me2 (sp - 4) = Some bp) by (rewrite Hbes2 by lia; by eapply load_stored).
  assert (E4 : u32 (sp - 4 + 4) = sp) by (rewrite u32_small; lia).
  assert (B3 : load32 me2 (u32 (sp - 4 + 4)) = Some ret) by by rewrite E4, Hbes2, Hbes by lia.
  erewrite run_S; [|reflexivity|cbn [exec get esp ebp mem set_mem]; rewrite Esp, Hst; reflexivity]; cbn [when negb].
  istep.
  erewrite run_S; [|reflexivity|cbn [exec get esp ebp ebx mem set_mem set]; rewrite Esp2, Hst2; reflexivity]; cbn [when negb].
  iload A1. iload A2. iload A3. istep.
  erewrite run_S; [|reflexivity|cbn [exec]; unfold kernel_of; reflexivity]; cbn [when negb].
  iload B1. istep. iload B2. iload B3. eexists. split; [reflexivity|]. split; [by unfold keeps; cbn; rewrite E4|]. done.
Qed.

(** ** The program *)

(** The functions as C sees them: the sum when there is one. *)
Definition myadd_c (a b : Z) : option Z := if in_s32 (a + b) then Some (a + b) else None.
Definition message (a b : Z) : list string :=
  ["Calculating..."%string;
   match myadd_c a b with
   | Some res => "The result is " +:+ pretty.pretty res
   | None => "Error in adding"
   end].
Definition main : list string := message 5 10.
Lemma caller_output : main = ["Calculating..."; "The result is 15"]%string.
Proof. done. Qed.
End Callee.
