(* ===== verification/Bpf.v ===== *)
(** The packet filter of [src/linux/bpf.cpp]: the classic BPF instructions it uses, the
    array [ICMP_FILTER_CODE] as it stands there, and what the filter lets through. *)

From S2P Require Import Prelude.
#[local] Open Scope Z_scope.

(** * The filter machine *)

(** A packet is its bytes. *)
Definition byte_at (p : list Z) (o : Z) : option Z := if o <? 0 then None else p !! Z.to_nat o.
Definition half_at (p : list Z) (o : Z) : option Z :=
  a ← byte_at p o; b ← byte_at p (o + 1); Some (a * 2 ^ 8 + b).
Definition word_at (p : list Z) (o : Z) : option Z :=
  a ← half_at p o; b ← half_at p (o + 2); Some (a * 2 ^ 16 + b).

Record sock_filter : Type := Filter { code : Z; jt : nat; jf : nat; k : Z }.

(** A jump goes forward from the next instruction. A load outside of the packet ends the
    program with 0; [None] is a program that the kernel refuses. *)
Inductive effect : Type := Set_A (a : Z) | Set_X (x : Z) | Jump (n : nat) | Accept (n : Z).
Definition load (f : Z → effect) (o : option Z) : option effect :=
  Some (match o with Some v => f v | None => Accept 0 end).
Definition instruction (p : list Z) (a x : Z) (i : sock_filter) : option effect :=
  match code i with
  | 0x28 => load Set_A (half_at p (k i))                               (* ldh [k] *)
  | 0x20 => load Set_A (word_at p (k i))                               (* ld [k] *)
  | 0x30 => load Set_A (byte_at p (k i))                               (* ldb [k] *)
  | 0x50 => load Set_A (byte_at p (x + k i))                           (* ldb [x + k] *)
  | 0xb1 => load (λ b, Set_X (4 * Z.land b 0xf)) (byte_at p (k i))     (* ldx 4*([k]&0xf) *)
  | 0x15 => Some (Jump (if a =? k i then jt i else jf i))              (* jeq *)
  | 0x45 => Some (Jump (if Z.land a (k i) =? 0 then jf i else jt i))   (* jset *)
  | 0x06 => Some (Accept (k i))                                        (* ret *)
  | _ => None
  end.
Fixpoint run (fuel : nat) (prog : list sock_filter) (p : list Z) (pc : nat) (a x : Z) : option Z :=
  match fuel with
  | O => None
  | S fuel =>
      i ← prog !! pc;
      e ← instruction p a x i;
      match e with
      | Set_A a => run fuel prog p (S pc) a x
      | Set_X x => run fuel prog p (S pc) a x
      | Jump n => run fuel prog p (S pc + n) a x
      | Accept n => Some n
      end
  end.
(** The machine starts with zeros; every instruction runs at most once. *)
Definition filter (prog : list sock_filter) (p : list Z) : option Z := run (length prog) prog p 0 0 0.

(** * [ICMP_FILTER_CODE] *)

Definition ICMP_FILTER_CODE : list sock_filter := [
  Filter 0x28 0 0 0x0000000c;
  Filter 0x15 0 10 0x00000800;
  Filter 0x20 0 0 0x0000001a;
  Filter 0x15 0 8 0x00000000;
  Filter 0x30 0 0 0x00000017;
  Filter 0x15 0 6 0x00000001;
  Filter 0x28 0 0 0x00000014;
  Filter 0x45 4 0 0x00001fff;
  Filter 0xb1 0 0 0x0000000e;
  Filter 0x50 0 0 0x0000000e;
  Filter 0x15 0 1 0x00000000;
  Filter 0x6 0 0 0x00040000;
  Filter 0x6 0 0 0x00000000
].

(** [main]: the results of [socket], [bind] and [setsockopt]; the filter that is attached, or
    the exception. *)
Definition main (sock bound attached : Z) : option (list sock_filter) :=
  if sock <? 0 then None
  else if bound <? 0 then None
  else if attached <? 0 then None
  else Some ICMP_FILTER_CODE.

(** * What it lets through *)

Definition has (o : option Z) (v : Z) : bool := match o with Some w => w =? v | None => false end.

(** An Ethernet frame with an IPv4 packet from 0.0.0.0, of protocol ICMP, that is no later
    fragment, and whose ICMP type, behind a header of any length, is 0: an echo reply. *)
Definition echo_reply (p : list Z) : bool :=
  has (half_at p 12) 0x800 && has (word_at p 26) 0 && has (byte_at p 23) 1 &&
  has ((λ h, Z.land h 0x1fff) <$> half_at p 20) 0 &&
  has (b ← byte_at p 14; byte_at p (4 * Z.land b 0xf + 14)) 0.

Lemma filter_step fuel prog p pc a x i e : prog !! pc = Some i → instruction p a x i = Some e →
  run (S fuel) prog p pc a x =
    match e with
    | Set_A a => run fuel prog p (S pc) a x
    | Set_X x => run fuel prog p (S pc) a x
    | Jump n => run fuel prog p (S pc + n) a x
    | Accept n => Some n
    end.
Proof. intros Hi He. cbn [run]. rewrite Hi. cbn [mbind option_bind]. by rewrite He. Qed.
Ltac bstep := erewrite filter_step; [|reflexivity|reflexivity]; cbn [k jt jf Nat.add].
(** A load of which both outcomes are followed, and a jump. *)
Ltac bload := bstep; match goal with |- context [match ?o with Some _ => _ | None => Accept 0 end] => destruct o; [|by rewrite ?andb_false_r] end; cbn [has fmap option_fmap option_map mbind option_bind].
Ltac bjump := bstep; match goal with |- context [run _ _ _ ?pc _ _] => match pc with context [if ?b then _ else _] => destruct b end end; cbn [Nat.add].

(** C34: For every packet, of whatever length, the program is one that the kernel takes, ends
    within its thirteen instructions, and lets 0x40000 bytes through exactly when the packet
    is an unfragmented ICMP echo reply over IPv4 from the address 0.0.0.0, and else none. *)
Theorem icmp_filter p : filter ICMP_FILTER_CODE p = Some (if echo_reply p then 0x40000 else 0).
Proof.
  unfold filter, echo_reply. change (length ICMP_FILTER_CODE) with 13%nat.
  bload. bjump; [|by bstep].
  bload. bjump; [|by bstep].
  bload. bjump; [|by bstep].
  bload. bjump; [|by bstep].
  bload. bload. bjump; by bstep.
Qed.

(** An echo reply of 10.0.0.1 does not pass: the address that is compared is 0.0.0.0. *)
Definition reply_from (a b c d : Z) : list Z :=
  replicate 12 0 ++ [8; 0; 0x45; 0; 0; 28; 0; 0; 0; 0; 64; 1; 0; 0; a; b; c; d; 10; 0; 0; 2] ++ replicate 8 0.
Example host_reply_dropped : filter ICMP_FILTER_CODE (reply_from 10 0 0 1) = Some 0 ∧
  filter ICMP_FILTER_CODE (reply_from 0 0 0 0) = Some 0x40000.
Proof. by rewrite !icmp_filter. Qed.
