(* ===== verification/Stl.v ===== *)
(** What the programs under [src/cpp/stl] use of the containers and algorithms of the C++
    library: linked lists, sorted ranges and sets, multimaps and permutations, over any
    strict total order that can be decided. A sorted container is the list of what
    iterating over it gives. *)

From S2P Require Import Prelude.
From stdpp Require Import sorting.

Section order.
Context {A : Type} `{EqDecision A} (lt : relation A) `{!StrictOrder lt, !Trichotomy lt, !RelDecision lt}.
Local Infix "⊏" := lt (at level 70).

(** * Lists *)

(** [list::sort], which keeps the order of equal elements, and [list::merge], which takes from
    the argument only what is smaller. *)
Fixpoint sort_insert (x : A) (l : list A) : list A :=
  match l with
  | [] => [x]
  | y :: l' => if decide (y ⊏ x) then y :: sort_insert x l' else x :: l
  end.
Definition sort (l : list A) : list A := foldr sort_insert [] l.
Fixpoint merge (a : list A) : list A → list A :=
  fix go b :=
    match a, b with
    | [], _ => b
    | _, [] => a
    | x :: a', y :: b' => if decide (y ⊏ x) then y :: go b' else x :: merge a' b
    end.
(** [list::unique]: of neighbours that are equal one is left. *)
Definition unique (l : list A) : list A :=
  foldr (λ x r, match r with y :: _ => if decide (x = y) then r else x :: r | [] => [x] end) [] l.
(** [list::remove]. *)
Definition remove (v : A) (l : list A) : list A := filter (λ x, x ≠ v) l.

(** * Sorted ranges *)

(** [set::insert]. *)
Fixpoint set_insert (x : A) (l : list A) : list A :=
  match l with
  | [] => [x]
  | y :: l' => if decide (x ⊏ y) then x :: l else if decide (y ⊏ x) then y :: set_insert x l' else l
  end.
Definition set_of (l : list A) : list A := foldl (λ s x, set_insert x s) [] l.
(** [std::set_union], [set_difference] and [set_intersection] of sorted ranges. *)
Fixpoint set_union (a : list A) : list A → list A :=
  fix go b :=
    match a, b with
    | [], _ => b
    | _, [] => a
    | x :: a', y :: b' =>
        if decide (x ⊏ y) then x :: set_union a' b
        else if decide (y ⊏ x) then y :: go b' else x :: set_union a' b'
    end.
Fixpoint set_difference (a : list A) : list A → list A :=
  fix go b :=
    match a, b with
    | [], _ => []
    | _, [] => a
    | x :: a', y :: b' =>
        if decide (x ⊏ y) then x :: set_difference a' b
        else if decide (y ⊏ x) then go b' else set_difference a' b'
    end.
Fixpoint set_intersection (a : list A) : list A → list A :=
  fix go b :=
    match a, b with
    | [], _ | _, [] => []
    | x :: a', y :: b' =>
        if decide (x ⊏ y) then set_intersection a' b
        else if decide (y ⊏ x) then go b' else x :: set_intersection a' b'
    end.

(** A multimap with a key of its elements; [multi_insert id] is a multiset. An element goes
    behind those with its key. *)
Section multi.
Context {B : Type} (key : B → A).
Fixpoint multi_insert (x : B) (l : list B) : list B :=
  match l with
  | [] => [x]
  | y :: l' => if decide (key x ⊏ key y) then x :: l else y :: multi_insert x l'
  end.
Definition multi_of (l : list B) : list B := foldl (λ s x, multi_insert x s) [] l.
(** [lower_bound] and [upper_bound], as positions, and the elements from one to the other; a
    range whose end is before its begin is left. *)
Fixpoint lower_bound (k : A) (l : list B) : nat :=
  match l with y :: l' => if decide (key y ⊏ k) then S (lower_bound k l') else 0 | [] => 0 end.
Fixpoint upper_bound (k : A) (l : list B) : nat :=
  match l with y :: l' => if decide (k ⊏ key y) then 0 else S (upper_bound k l') | [] => 0 end.
Definition range (i j : nat) (l : list B) : option (list B) :=
  if decide (i <= j <= length l) then Some (take (j - i) (drop i l)) else None.
Definition equal_range (k : A) (l : list B) : option (list B) := range (lower_bound k l) (upper_bound k l) l.
End multi.

(** * Permutations *)

(** The lexicographic order. *)
Fixpoint lex (l k : list A) : Prop :=
  match l, k with
  | _, [] => False
  | [], _ :: _ => True
  | x :: l, y :: k => x ⊏ y ∨ x = y ∧ lex l k
  end.

(** [std::next_permutation]: the end of the range that does not ascend, and the element
    before it, which changes places with the last one there that is greater; then the end
    is reversed. [None] is the last permutation. *)
Fixpoint last_greater (x : A) (l : list A) : option (list A * A * list A) :=
  match l with
  | [] => None
  | y :: l' =>
      match last_greater x l' with
      | Some (h, z, t) => Some (y :: h, z, t)
      | None => if decide (x ⊏ y) then Some ([], y, l') else None
      end
  end.
Fixpoint next_permutation (l : list A) : option (list A) :=
  match l with
  | [] => None
  | x :: l' =>
      match next_permutation l' with
      | Some k => Some (x :: k)
      | None =>
          match last_greater x l' with
          | Some (h, y, t) => Some (y :: reverse (h ++ x :: t))
          | None => None
          end
      end
  end.

(** [do print while (next_permutation)]; [None] when it has not ended. *)
Fixpoint permutations_from (fuel : nat) (l : list A) : option (list (list A)) :=
  match fuel with
  | 0 => None
  | S fuel =>
      match next_permutation l with
      | None => Some [l]
      | Some k => cons l <$> permutations_from fuel k
      end
  end.

(** * The order *)

Lemma lt_irrefl x : ¬ x ⊏ x.
Proof. apply irreflexivity, _. Qed.
Lemma lt_asym x y : x ⊏ y → ¬ y ⊏ x.
Proof. intros H H'. apply (lt_irrefl x). by transitivity y. Qed.
Lemma lt_total x y : ¬ x ⊏ y → ¬ y ⊏ x → x = y.
Proof. destruct (trichotomy lt x y) as [|[|]]; naive_solver. Qed.
Lemma lt_trans_not x y z : x ⊏ y → ¬ z ⊏ y → x ⊏ z.
Proof. intros Hxy Hzy. destruct (trichotomy lt y z) as [Hyz|[<-|Hzy']]; [by transitivity y|done..]. Qed.
Lemma lt_not_trans x y z : ¬ y ⊏ x → y ⊏ z → x ⊏ z.
Proof. intros Hxy Hyz. destruct (trichotomy lt x y) as [H|[->|H]]; [by transitivity y|done..]. Qed.
Lemma not_lt_trans x y z : ¬ y ⊏ x → ¬ z ⊏ y → ¬ z ⊏ x.
Proof. intros H1 H2 H3. apply H2. by apply (lt_trans_not _ x). Qed.

(** A strictly ascending list, and one that does not descend. *)
Abbreviation ascending := (StronglySorted lt).
Abbreviation sorted := (StronglySorted (λ x y, ¬ y ⊏ x)).

Lemma ascending_inv x l : ascending (x :: l) ↔ ascending l ∧ ∀ y, y ∈ l → x ⊏ y.
Proof.
  split; [intros H; inversion H as [|? ? ? Hf]; by rewrite Forall_forall in Hf|].
  intros [H Hf]. constructor; [done|]. by apply Forall_forall.
Qed.
Lemma sorted_inv x l : sorted (x :: l) ↔ sorted l ∧ ∀ y, y ∈ l → ¬ y ⊏ x.
Proof.
  split; [intros H; inversion H as [|? ? ? Hf]; by rewrite Forall_forall in Hf|].
  intros [H Hf]. constructor; [done|]. by apply Forall_forall.
Qed.

(** Ascending lists with the same elements are the same. *)
Lemma ascending_eq l k : ascending l → ascending k → (∀ x, x ∈ l ↔ x ∈ k) → l = k.
Proof.
  revert k. induction l as [|x l IH]; intros [|y k] Hl Hk He; [done|..].
  1,2: exfalso; by (destruct (He y) as [_ H]; set_solver) || (destruct (He x) as [H _]; set_solver).
  apply ascending_inv in Hl as [Hl Hx]. apply ascending_inv in Hk as [Hk Hy].
  assert (x = y) as <-.
  { destruct (He x) as [H1 _], (He y) as [_ H2]. specialize (H1 ltac:(left)). specialize (H2 ltac:(left)).
    apply elem_of_cons in H1 as [?|H1]; [done|]. apply elem_of_cons in H2 as [?|H2]; [done|].
    exfalso. by apply (lt_asym x y); [apply Hx|apply Hy]. }
  f_equal. apply IH; [done..|]. intros z. specialize (He z). rewrite !elem_of_cons in He.
  split; intros Hz.
  - destruct (proj1 He (or_intror Hz)) as [->|]; [|done]. by apply Hx, lt_irrefl in Hz.
  - destruct (proj2 He (or_intror Hz)) as [->|]; [|done]. by apply Hy, lt_irrefl in Hz.
Qed.

(** * Sorted ranges *)

Lemma set_insert_elem x l z : z ∈ set_insert x l ↔ z = x ∨ z ∈ l.
Proof.
  induction l as [|y l IH]; cbn; [set_solver|]. case_decide; [set_solver|]. case_decide; [set_solver|].
  rewrite (lt_total x y) by done. set_solver.
Qed.
Lemma set_insert_ascending x l : ascending l → ascending (set_insert x l).
Proof.
  induction l as [|y l IH]; cbn; [repeat constructor|]. intros Hl.
  pose proof (proj1 (ascending_inv _ _) Hl) as [Hl' Hy]. case_decide as H1; [|case_decide as H2; [|done]].
  - apply ascending_inv. split; [done|]. intros z [->|Hz]%elem_of_cons; [done|]. transitivity y; naive_solver.
  - apply ascending_inv. split; [by apply IH|]. intros z [->|Hz]%set_insert_elem; naive_solver.
Qed.
(** The constructor of a set from a range: its elements, in order and once each. *)
Lemma set_of_spec l : ascending (set_of l) ∧ ∀ z, z ∈ set_of l ↔ z ∈ l.
Proof.
  assert (H : ∀ s, ascending s → ascending (foldl (λ s x, set_insert x s) s l) ∧
    ∀ z, z ∈ foldl (λ s x, set_insert x s) s l ↔ z ∈ s ∨ z ∈ l).
  { induction l as [|x l IH]; intros s Hs; cbn; [set_solver|].
    destruct (IH _ (set_insert_ascending x s Hs)) as [H1 H2]. split; [done|]. intros z.
    rewrite H2, set_insert_elem. set_solver. }
  destruct (H [] ltac:(constructor)) as [H1 H2]. split; [done|]. set_solver.
Qed.

(** The algorithms walk over both ranges; [both] is the induction for that. *)
Lemma both (P : list A → list A → Prop) :
  (∀ b, P [] b) → (∀ a, P a []) →
  (∀ x a y b, P a (y :: b) → P (x :: a) b → P a b → P (x :: a) (y :: b)) → ∀ a b, P a b.
Proof.
  intros H1 H2 H3 a. induction a as [|x a IHa]; [done|]. intros b. induction b as [|y b IHb]; [done|]. by apply H3.
Qed.

Ltac asc H := pose proof (proj1 (ascending_inv _ _) H) as [? ?].

Lemma set_union_spec a b : ascending a → ascending b →
  ascending (set_union a b) ∧ ∀ z, z ∈ set_union a b ↔ z ∈ a ∨ z ∈ b.
Proof.
  revert a b. apply (both (λ a b, ascending a → ascending b →
    ascending (set_union a b) ∧ ∀ z, z ∈ set_union a b ↔ z ∈ a ∨ z ∈ b)).
  { intros b _ Hb. cbn. destruct b; set_solver. }
  { intros a Ha _. destruct a; set_solver. }
  intros x a y b IH1 IH2 IH3 Ha Hb.
  asc Ha. asc Hb. specialize (IH1 ltac:(done) ltac:(done)) as [S1 E1].
  specialize (IH2 ltac:(done) ltac:(done)) as [S2 E2]. specialize (IH3 ltac:(done) ltac:(done)) as [S3 E3].
  cbn. case_decide as Hxy; [|case_decide as Hyx].
  - split; [|set_solver]. apply ascending_inv. split; [done|]. intros z [Hz|[->|Hz]%elem_of_cons]%E1; [by eauto|done|].
    transitivity y; eauto.
  - split; [|set_solver]. apply ascending_inv. split; [done|]. intros z [[->|Hz]%elem_of_cons|Hz]%E2; [done| |by eauto].
    transitivity x; eauto.
  - pose proof (lt_total x y Hxy Hyx) as <-. split; [|set_solver]. apply ascending_inv. split; [done|].
    intros z [Hz|Hz]%E3; eauto.
Qed.

Lemma set_difference_spec a b : ascending a → ascending b →
  ascending (set_difference a b) ∧ ∀ z, z ∈ set_difference a b ↔ z ∈ a ∧ z ∉ b.
Proof.
  revert a b. apply (both (λ a b, ascending a → ascending b →
    ascending (set_difference a b) ∧ ∀ z, z ∈ set_difference a b ↔ z ∈ a ∧ z ∉ b)).
  { intros b _ _. cbn. destruct b; (split; [constructor|set_solver]). }
  { intros a Ha _. destruct a; set_solver. }
  intros x a y b IH1 IH2 IH3 Ha Hb.
  asc Ha. asc Hb. specialize (IH1 ltac:(done) ltac:(done)) as [S1 E1].
  specialize (IH2 ltac:(done) ltac:(done)) as [S2 E2]. specialize (IH3 ltac:(done) ltac:(done)) as [S3 E3].
  cbn. case_decide as Hxy; [|case_decide as Hyx].
  - split.
    + apply ascending_inv. split; [done|]. intros z [Hz _]%E1. eauto.
    + assert (x ∉ y :: b) by (intros [->|Hx]%elem_of_cons; [by eapply lt_irrefl|]; eapply (lt_asym x y); eauto).
      intros z. rewrite elem_of_cons, E1. set_solver.
  - split; [done|]. intros z. rewrite E2, !elem_of_cons.
    enough (z = x ∨ z ∈ a → z ≠ y) by tauto. intros [->|Hz] ->; [by eapply lt_irrefl|]. eapply (lt_asym x y); eauto.
  - pose proof (lt_total x y Hxy Hyx) as <-. split; [done|]. intros z. rewrite E3, !elem_of_cons.
    enough (z ∈ a → z ≠ x) by naive_solver. intros Hz ->. by eapply lt_irrefl; eauto.
Qed.
Lemma set_intersection_spec a b : ascending a → ascending b →
  ascending (set_intersection a b) ∧ ∀ z, z ∈ set_intersection a b ↔ z ∈ a ∧ z ∈ b.
Proof.
  revert a b. apply (both (λ a b, ascending a → ascending b →
    ascending (set_intersection a b) ∧ ∀ z, z ∈ set_intersection a b ↔ z ∈ a ∧ z ∈ b)).
  { intros b _ _. cbn. destruct b; (split; [constructor|set_solver]). }
  { intros a _ _. cbn. destruct a; (split; [constructor|set_solver]). }
  intros x a y b IH1 IH2 IH3 Ha Hb.
  asc Ha. asc Hb. specialize (IH1 ltac:(done) ltac:(done)) as [S1 E1].
  specialize (IH2 ltac:(done) ltac:(done)) as [S2 E2]. specialize (IH3 ltac:(done) ltac:(done)) as [S3 E3].
  cbn. case_decide as Hxy; [|case_decide as Hyx].
  - split; [done|]. intros z. rewrite E1, !elem_of_cons.
    enough (z = y ∨ z ∈ b → z ≠ x) by tauto. intros [->|Hz] ->; [by eapply lt_irrefl|]. eapply (lt_asym x y); eauto.
  - split; [done|]. intros z. rewrite E2, !elem_of_cons.
    enough (z = x ∨ z ∈ a → z ≠ y) by tauto. intros [->|Hz] ->; [by eapply lt_irrefl|]. eapply (lt_asym x y); eauto.
  - pose proof (lt_total x y Hxy Hyx) as <-. split.
    + apply ascending_inv. split; [done|]. intros z [Hz _]%E3. eauto.
    + intros z. rewrite !elem_of_cons, E3. naive_solver.
Qed.

(** * Lists *)

Lemma sort_insert_perm x l : sort_insert x l ≡ₚ x :: l.
Proof. induction l as [|y l IH]; cbn; [done|]. case_decide; [|done]. rewrite IH. apply Permutation_swap. Qed.
Lemma sort_insert_sorted x l : sorted l → sorted (sort_insert x l).
Proof.
  induction l as [|y l IH]; cbn; [repeat constructor|]. intros Hl. pose proof (proj1 (sorted_inv _ _) Hl) as [Hl' Hy].
  case_decide as Hyx; apply sorted_inv.
  - split; [by apply IH|]. intros z. rewrite sort_insert_perm. intros [->|Hz]%elem_of_cons; [by apply lt_asym|by apply Hy].
  - split; [done|]. intros z [->|Hz]%elem_of_cons; [done|]. by apply (not_lt_trans _ y), Hy.
Qed.
Lemma sort_spec l : sort l ≡ₚ l ∧ sorted (sort l).
Proof.
  induction l as [|x l [IH1 IH2]]; cbn; [split; [done|constructor]|].
  split; [by rewrite sort_insert_perm; constructor|by apply sort_insert_sorted].
Qed.
Lemma merge_perm a b : merge a b ≡ₚ a ++ b.
Proof.
  revert a b. apply (both (λ a b, merge a b ≡ₚ a ++ b)).
  { by intros []. }
  { intros []; cbn; by rewrite ?app_nil_r. }
  intros x a y b IH1 IH2 IH3. cbn. case_decide.
  - etransitivity; [constructor; exact IH2|]. cbn.
    rewrite <-(Permutation_middle a b y). apply Permutation_swap.
  - by rewrite IH1.
Qed.
Lemma merge_sorted a b : sorted a → sorted b → sorted (merge a b).
Proof.
  revert a b. apply (both (λ a b, sorted a → sorted b → sorted (merge a b))).
  { by intros []. }
  { by intros []. }
  intros x a y b IH1 IH2 _ Ha Hb.
  pose proof (proj1 (sorted_inv _ _) Ha) as [Ha' Hx]. pose proof (proj1 (sorted_inv _ _) Hb) as [Hb' Hy].
  cbn. case_decide as Hyx; apply sorted_inv.
  - split; [by apply IH2|]. intros z. change (z ∈ merge (x :: a) b → ¬ z ⊏ y). rewrite merge_perm. cbn.
    intros [->|[Hz|Hz]%elem_of_app]%elem_of_cons; [by apply lt_asym| |by apply Hy].
    apply (not_lt_trans _ x); [by apply lt_asym|by apply Hx].
  - split; [by apply IH1|]. intros z. rewrite merge_perm. intros [Hz|[->|Hz]%elem_of_cons]%elem_of_app; [by apply Hx|done|].
    apply (not_lt_trans _ y); [done|by apply Hy].
Qed.
Lemma unique_elem l z : z ∈ unique l ↔ z ∈ l.
Proof.
  clear dependent lt. induction l as [|x l IH]; [done|]. cbn. fold (unique l). destruct (unique l) as [|y r]; [set_solver|].
  case_decide; set_solver.
Qed.
(** What is in order and unique ascends. *)
Lemma unique_sorted l : sorted l → ascending (unique l).
Proof.
  induction l as [|x l IH]; [constructor|]. intros [Hl Hx]%sorted_inv. cbn. fold (unique l). specialize (IH Hl).
  pose proof (unique_elem l) as He. destruct (unique l) as [|y r]; [repeat constructor|].
  case_decide as Hxy; [done|]. apply ascending_inv. split; [done|]. apply ascending_inv in IH as [_ Hr].
  assert (x ⊏ y).
  { destruct (trichotomy lt x y) as [|[|H]]; [done..|]. exfalso. by apply (Hx y); [apply He; left|]. }
  intros z [->|Hz]%elem_of_cons; [done|]. transitivity y; eauto.
Qed.
Lemma sorted_unique_sort l : ascending (unique (sort l)) ∧ ∀ z, z ∈ unique (sort l) ↔ z ∈ l.
Proof.
  destruct (sort_spec l) as [Hp Hs]. split; [by apply unique_sorted|]. intros z. by rewrite unique_elem, Hp.
Qed.
Lemma ascending_sorted l : ascending l → sorted l.
Proof. induction 1 as [|x l H IH Hx]; constructor; [done|]. eapply Forall_impl; [done|]. intros y. apply lt_asym. Qed.

(** * Multimaps *)

Section multi_lemmas.
Context {B : Type} (key : B → A).

(** In the order of the keys. *)
Abbreviation by_key := (StronglySorted (λ x y, ¬ key y ⊏ key x)).

Lemma multi_insert_perm x l : multi_insert key x l ≡ₚ x :: l.
Proof. induction l as [|y l IH]; cbn; [done|]. case_decide; [done|]. rewrite IH. apply Permutation_swap. Qed.
Lemma multi_insert_sorted x l : by_key l → by_key (multi_insert key x l).
Proof.
  induction l as [|y l IH]; cbn; [repeat constructor|]. intros Hl.
  pose proof (proj1 (StronglySorted_cons _ _ _) Hl) as [Hy Hl']. rewrite Forall_forall in Hy.
  case_decide as Hxy; apply StronglySorted_cons; (split; [apply Forall_forall|]); [|done| |by apply IH].
  - intros z [->|Hz]%elem_of_cons; [by apply lt_asym|]. by apply (not_lt_trans _ (key y)); [apply lt_asym|apply Hy].
  - intros z. rewrite multi_insert_perm. intros [->|Hz]%elem_of_cons; [done|by apply Hy].
Qed.
Lemma multi_insert_filter k x l : by_key l →
  filter (λ y, key y = k) (multi_insert key x l) = filter (λ y, key y = k) (l ++ [x]).
Proof.
  induction l as [|y l IH]; intros Hl; [done|]. cbn [multi_insert app].
  apply StronglySorted_cons in Hl as [Hy Hl]. rewrite Forall_forall in Hy. case_decide as Hxy.
  - destruct (decide (key x = k)) as [<-|Hk].
    + rewrite (filter_cons_True _ x) by done. rewrite app_comm_cons, filter_app.
      assert (filter (λ z, key z = key x) (y :: l) = []) as ->.
      { apply elem_of_nil_inv. intros z [He [->|Hz]%elem_of_cons]%list_elem_of_filter.
        - rewrite He in Hxy. by apply lt_irrefl in Hxy.
        - apply (Hy z Hz). by rewrite He. }
      by rewrite (filter_cons_True _ x).
    + rewrite (filter_cons_False _ x) by done. rewrite app_comm_cons, filter_app.
      rewrite (filter_cons_False _ x) by done. cbn. by rewrite app_nil_r.
  - rewrite !filter_cons. case_decide; by rewrite IH.
Qed.
(** What a multimap is after insertions: its elements in the order of the keys, and those
    with the same key in the order of the insertions. *)
Lemma multi_of_spec l : multi_of key l ≡ₚ l ∧ by_key (multi_of key l) ∧
  ∀ k, filter (λ y, key y = k) (multi_of key l) = filter (λ y, key y = k) l.
Proof.
  unfold multi_of. induction l as [|x l (IH1 & IH2 & IH3)] using rev_ind; [repeat constructor|].
  rewrite foldl_app. cbn. split; [rewrite multi_insert_perm, IH1; apply Permutation_cons_append|].
  split; [by apply multi_insert_sorted|]. intros k. rewrite multi_insert_filter by done. by rewrite !filter_app, IH3.
Qed.

Lemma bounds_spec k l : by_key l → lower_bound key k l <= upper_bound key k l <= length l ∧
  take (upper_bound key k l - lower_bound key k l) (drop (lower_bound key k l) l) = filter (λ y, key y = k) l.
Proof.
  induction l as [|y l IH]; intros Hl; [by split; [cbn; lia|]|].
  apply StronglySorted_cons in Hl as [Hy Hl]. rewrite Forall_forall in Hy. specialize (IH Hl) as [Hle IH].
  cbn [lower_bound upper_bound length]. destruct (decide (key y ⊏ k)) as [H1|H1].
  { rewrite decide_False by (by apply lt_asym). cbn [Nat.sub drop]. rewrite filter_cons_False by (intros <-; by apply lt_irrefl in H1).
    rewrite IH. split; [lia|done]. }
  assert (H0 : lower_bound key k l = 0).
  { destruct l as [|z l]; [done|]. cbn. rewrite decide_False; [done|]. apply (not_lt_trans _ (key y)); [done|].
    apply Hy. by left. }
  rewrite H0 in *. case_decide as H2.
  - split; [lia|]. cbn [Nat.sub take drop]. symmetry. apply elem_of_nil_inv. intros z [He [->|Hz]%elem_of_cons]%list_elem_of_filter.
    + subst. by apply lt_irrefl in H2.
    + apply (Hy z Hz). by subst.
  - split; [lia|]. rewrite Nat.sub_0_r in *. rewrite drop_0 in *. cbn [take]. rewrite filter_cons_True by (symmetry; by apply lt_total). by rewrite IH.
Qed.
Lemma equal_range_spec k l : by_key l → equal_range key k l = Some (filter (λ y, key y = k) l).
Proof.
  intros Hl. destruct (bounds_spec k l Hl) as [H1 H2]. unfold equal_range, range. by rewrite decide_True, H2.
Qed.
End multi_lemmas.

(** * Permutations *)

(** The last permutation: it does not ascend anywhere. *)
Abbreviation descending := (StronglySorted (λ x y, ¬ x ⊏ y)).

Lemma descending_inv x l : descending (x :: l) ↔ descending l ∧ ∀ y, y ∈ l → ¬ x ⊏ y.
Proof. rewrite StronglySorted_cons, Forall_forall. tauto. Qed.
Lemma descending_last l p : descending l → p ≡ₚ l → ¬ lex l p.
Proof.
  revert p. induction l as [|x l IH]; intros [|z p] Hl Hp; cbn; [tauto|by apply Permutation_nil_r in Hp|tauto|].
  apply descending_inv in Hl as [Hl Hx]. intros [H|[-> H]].
  - assert (Hz : z ∈ x :: l) by (rewrite <-Hp; left). apply elem_of_cons in Hz as [->|Hz]; [by apply lt_irrefl in H|by apply (Hx z)].
  - apply (IH p); [done| |done]. by eapply Permutation_cons_inv.
Qed.
Lemma sorted_first l p : sorted l → p ≡ₚ l → p = l ∨ lex l p.
Proof.
  revert p. induction l as [|x l IH]; intros [|z p] Hl Hp.
  { by left. }
  { by apply Permutation_nil_r in Hp. }
  { by symmetry in Hp; apply Permutation_nil_r in Hp. }
  apply sorted_inv in Hl as [Hl Hx]. destruct (decide (x = z)) as [<-|Hne].
  - destruct (IH p Hl) as [->|H]; [by eapply Permutation_cons_inv|by left|right; cbn; tauto].
  - right. left. assert (Hz : z ∈ x :: l) by (rewrite <-Hp; left). apply elem_of_cons in Hz as [->|Hz]; [done|].
    destruct (trichotomy lt x z) as [|[|H]]; [done..|]. by apply Hx in H.
Qed.
Lemma descending_reverse l : descending l → sorted (reverse l).
Proof.
  induction l as [|x l IH]; [constructor|]. intros [Hl Hx]%descending_inv. rewrite reverse_cons.
  apply StronglySorted_app. split; [|split; [by apply IH|repeat constructor]].
  intros y z Hy Hz. apply list_elem_of_singleton in Hz as ->. apply Hx. by rewrite elem_of_reverse in Hy.
Qed.

Lemma lex_irrefl l : ¬ lex l l.
Proof. induction l as [|x l IH]; cbn; [tauto|]. intros [H|[_ H]]; [by apply lt_irrefl in H|done]. Qed.
Lemma lex_trans l k m : lex l k → lex k m → lex l m.
Proof.
  revert k m. induction l as [|x l IH]; intros [|y k] [|z m]; cbn; try tauto.
  intros [H1|[-> H1]] [H2|[-> H2]]; [left; by transitivity y|by left|by left|right; by eauto].
Qed.

Lemma last_greater_None x l : last_greater x l = None → ∀ y, y ∈ l → ¬ x ⊏ y.
Proof.
  induction l as [|y l IH]; cbn; [set_solver|]. destruct (last_greater x l) as [[[]]|]; [done|].
  case_decide; [done|]. intros _ z [->|Hz]%elem_of_cons; [done|by apply IH].
Qed.
Lemma last_greater_Some x l h y t : last_greater x l = Some (h, y, t) →
  l = h ++ y :: t ∧ x ⊏ y ∧ ∀ z, z ∈ t → ¬ x ⊏ z.
Proof.
  revert h. induction l as [|z l IH]; cbn; [done|]. intros h. destruct (last_greater x l) as [[[h' y'] t']|] eqn:Hg.
  - intros [= <- -> ->]. destruct (IH h') as (-> & ? & ?); done.
  - case_decide; [|done]. intros [= <- <- <-]. split; [done|]. split; [done|]. by apply last_greater_None.
Qed.

Lemma next_None l : next_permutation l = None → descending l.
Proof.
  induction l as [|x l IH]; cbn; [constructor|]. destruct (next_permutation l); [done|].
  destruct (last_greater x l) as [[[]]|] eqn:Hg; [done|]. intros _. apply descending_inv.
  split; [by apply IH|]. by apply last_greater_None.
Qed.
(** The end of the range after the exchange, when it does not ascend before. *)
Lemma exchange_sorted x h y t : descending (h ++ y :: t) → x ⊏ y → (∀ z, z ∈ t → ¬ x ⊏ z) →
  sorted (reverse (h ++ x :: t)).
Proof.
  intros (H1 & H2 & H3)%StronglySorted_app Hxy Ht. apply descending_inv in H3 as [H3 H4].
  apply descending_reverse, StronglySorted_app. split; [|split; [done|by apply descending_inv]].
  intros a b Ha [->|Hb]%elem_of_cons; [|by apply H1; [|right]].
  intros H. apply (H1 a y Ha); [by left|]. by transitivity x.
Qed.
Lemma next_Some l k : next_permutation l = Some k → k ≡ₚ l ∧ lex l k ∧ ∀ p, p ≡ₚ l → lex l p → p = k ∨ lex k p.
Proof.
  revert k. induction l as [|x l IH]; cbn; [done|]. intros k. destruct (next_permutation l) as [k'|] eqn:Hn.
  - intros [= <-]. destruct (IH k' eq_refl) as (H1 & H2 & H3). split; [by rewrite H1|]. split; [by right|].
    intros [|z p] Hp; cbn; [tauto|]. intros [H|[<- H]]; [by right; left|].
    destruct (H3 p) as [->|]; [by eapply Permutation_cons_inv|done|by left|by right; right].
  - destruct (last_greater x l) as [[[h y] t]|] eqn:Hg; [|done]. intros [= <-].
    pose proof (next_None _ Hn) as Hd. apply last_greater_Some in Hg as (-> & Hxy & Ht).
    assert (Hperm : y :: reverse (h ++ x :: t) ≡ₚ x :: h ++ y :: t).
    { rewrite reverse_Permutation, <-!Permutation_middle. apply Permutation_swap. }
    split; [done|]. split; [by left|]. intros [|z p] Hp; cbn; [tauto|]. intros [H|[<- H]].
    + destruct (decide (z = y)) as [->|Hzy].
      * destruct (sorted_first (reverse (h ++ x :: t)) p) as [->|]; [by apply exchange_sorted with y| |by left|by right; right].
        rewrite <-Hperm in Hp. by eapply Permutation_cons_inv.
      * right. left. assert (Hz : z ∈ x :: h ++ y :: t) by (rewrite <-Hp; left).
        apply elem_of_cons in Hz as [->|[Hz|[->|Hz]%elem_of_cons]%elem_of_app]; [by apply lt_irrefl in H| |done|by apply Ht in H].
        apply StronglySorted_app in Hd as (H1 & _ & _). destruct (trichotomy lt y z) as [|[|H']]; [done..|].
        exfalso. by apply (H1 z y Hz); [left|].
    + exfalso. apply (descending_last _ p Hd); [|done]. by eapply Permutation_cons_inv.
Qed.

Lemma permutations_from_Some fuel l outs : permutations_from fuel l = Some outs →
  StronglySorted lex outs ∧ ∀ p, p ∈ outs ↔ p ≡ₚ l ∧ (p = l ∨ lex l p).
Proof.
  revert l outs. induction fuel as [|fuel IH]; intros l outs; cbn; [done|].
  destruct (next_permutation l) as [k|] eqn:Hn.
  - destruct (permutations_from fuel k) as [r|] eqn:Hr; cbn; [|done]. intros [= <-].
    apply IH in Hr as [H1 H2]. apply next_Some in Hn as (P & L & B). split.
    + apply StronglySorted_cons. split; [|done]. apply Forall_forall. intros p [_ [->|Hp]]%H2; [done|by eapply lex_trans].
    + intros p. rewrite elem_of_cons, H2. split.
      * intros [->|[Hp [->|Hk]]]; [by split; [|left]|by split; [|right]|]. split; [by rewrite Hp|right; by eapply lex_trans].
      * intros [Hp [->|Hl]]; [by left|right]. split; [by rewrite P|by apply B].
  - intros [= <-]. split; [repeat constructor|]. intros p. rewrite list_elem_of_singleton. split; [naive_solver|].
    intros [Hp [->|Hl]]; [done|]. by apply next_None, descending_last with (p := p) in Hn.
Qed.
(** A loop that has not ended has printed that many permutations, all of them different. *)
Lemma permutations_from_None fuel l : permutations_from fuel l = None →
  ∃ outs, length outs = fuel ∧ StronglySorted lex outs ∧ ∀ p, p ∈ outs → p ≡ₚ l ∧ (p = l ∨ lex l p).
Proof.
  revert l. induction fuel as [|fuel IH]; intros l; cbn; [intros _; exists []; repeat split; [constructor|set_solver..]|].
  destruct (next_permutation l) as [k|] eqn:Hn; [|done].
  destruct (permutations_from fuel k) as [r|] eqn:Hr; cbn; [done|]. intros _.
  destruct (IH k Hr) as (outs & <- & H1 & H2). apply next_Some in Hn as (P & L & _). exists (l :: outs).
  split; [done|]. split.
  - apply StronglySorted_cons. split; [|done]. apply Forall_forall. intros p [_ [->|Hp]]%H2; [done|by eapply lex_trans].
  - intros p [->|[Hp [->|Hk]]%H2]%elem_of_cons; [by split; [|left]|by split; [|right]|].
    split; [by rewrite Hp|right; by eapply lex_trans].
Qed.
Lemma lex_sorted_NoDup ls : StronglySorted lex ls → NoDup ls.
Proof.
  induction ls as [|l ls IH]; [constructor|]. intros [H1 H2]%StronglySorted_cons. constructor; [|by apply IH].
  intros H. rewrite Forall_forall in H1. by apply H1, lex_irrefl in H.
Qed.
Lemma permutations_from_ends fuel l : length (permutations l) < fuel → is_Some (permutations_from fuel l).
Proof.
  intros Hf. destruct (permutations_from fuel l) as [outs|] eqn:Ho; [by eexists|].
  apply permutations_from_None in Ho as (outs & Hl & H1 & H2).
  assert (Hsub : outs ⊆+ permutations l).
  { apply NoDup_submseteq; [by apply lex_sorted_NoDup|]. intros p [Hp _]%H2. by apply permutations_Permutation. }
  apply submseteq_length in Hsub. lia.
Qed.
End order.

(** * The orders of the programs *)

Section lex_order.
Context {A : Type} `{EqDecision A} (lt : relation A) `{!StrictOrder lt, !Trichotomy lt, !RelDecision lt}.

#[export] Instance lex_strict : StrictOrder (lex lt).
Proof. split; [exact (lex_irrefl lt)|exact (lex_trans lt)]. Qed.
#[export] Instance lex_trichotomy : Trichotomy (lex lt).
Proof.
  intros l. induction l as [|x l IH]; intros [|y k]; cbn; [tauto..|].
  destruct (trichotomy lt x y) as [|[->|]]; [tauto| |tauto].
  destruct (IH k) as [|[->|]]; tauto.
Qed.
#[export] Instance lex_dec : RelDecision (lex lt).
Proof. intros l. induction l as [|x l IH]; intros [|y k]; cbn; apply _. Defined.
End lex_order.

#[export] Instance Z_lt_trichotomy : Trichotomy Z.lt.
Proof. intros x y. lia. Qed.

(** Characters compare as unsigned bytes, strings lexicographically. *)
Definition char_lt (a b : Ascii.ascii) : Prop := (Ascii.N_of_ascii a < Ascii.N_of_ascii b)%N.
#[export] Instance char_lt_strict : StrictOrder char_lt.
Proof. unfold char_lt. split; [intros a; unfold complement; lia|intros a b c; lia]. Qed.
#[export] Instance char_lt_trichotomy : Trichotomy char_lt.
Proof.
  intros a b. unfold char_lt. destruct (N.lt_trichotomy (Ascii.N_of_ascii a) (Ascii.N_of_ascii b)) as [|[He|]]; [tauto| |tauto].
  right; left. rewrite <-(Ascii.ascii_N_embedding a), He. apply Ascii.ascii_N_embedding.
Qed.
#[export] Instance char_lt_dec : RelDecision char_lt.
Proof. intros a b. unfold char_lt. apply _. Defined.
