(* ===== verification/StlDemos.v ===== *)
(** The programs under [src/cpp/stl] that use containers, sorted ranges and algorithms: what they
    print, and what holds of their functions on any input. *)

From Stdlib Require Import Ascii.
From stdpp Require Import sorting.
From S2P Require Import Prelude IStream Stl.
#[local] Open Scope Z_scope.

Abbreviation str := (list ascii).
Definition chars : string → str := String.list_ascii_of_string.
Abbreviation str_lt := (lex char_lt).

(** * [containers/list_op.cpp] *)

Module ListOp.
(** The lists of [main], and what was printed. *)
Record lists : Type := Lists { one : list Z; two : list Z; three : list Z; out : list (list Z) }.
Definition three_ (f : list Z → list Z) (s : lists) : lists := Lists (one s) (two s) (f (three s)) (out s).
Definition show (l : lists → list Z) (s : lists) : lists := Lists (one s) (two s) (three s) (out s ++ [l s]).
(** [three.splice(three.begin(), one)] and [three.merge(two)] leave the other list empty. *)
Definition splice_one (s : lists) : lists := Lists [] (two s) (one s ++ three s) (out s).
Definition merge_two (s : lists) : lists := Lists (one s) [] (merge Z.lt (three s) (two s)) (out s).

(** The last loop: [before] is what the iterator has passed, [rest] begins where it stands;
    [splice(it, tmp)] puts [tmp] in front of it. *)
Fixpoint splice_tens (before rest : list Z) : list Z :=
  match rest with
  | [] => before
  | x :: rest => splice_tens (if Z.rem x 2 =? 0 then before ++ replicate 2 10 ++ [x] else before ++ [x]) rest
  end.

Definition start : lists :=
  let two := [1; 2; 4; 8; 6] in Lists (replicate 5 2) two (two ++ [6; 4; 2; 4; 6; 5]) [].
Definition main : list (list Z) :=
  let s := show three (show two (show one start)) in
  let s := show three (three_ (remove 2) s) in
  let s := show three (splice_one s) in
  let s := show three (three_ unique s) in
  let s := show three (three_ unique (three_ (sort Z.lt) s)) in
  let s := show three (merge_two (Lists (one s) (sort Z.lt (two s)) (three s) (out s))) in
  let s := show three (three_ unique s) in
  out (show three (three_ (splice_tens []) s)).

Example list_op_prints : main =
  [[2; 2; 2; 2; 2]; [1; 2; 4; 8; 6]; [1; 2; 4; 8; 6; 6; 4; 2; 4; 6; 5]; [1; 4; 8; 6; 6; 4; 4; 6; 5];
   [2; 2; 2; 2; 2; 1; 4; 8; 6; 6; 4; 4; 6; 5]; [2; 1; 4; 8; 6; 4; 6; 5]; [1; 2; 4; 5; 6; 8];
   [1; 1; 2; 2; 4; 4; 5; 6; 6; 8; 8]; [1; 2; 4; 5; 6; 8];
   [1; 10; 10; 2; 10; 10; 4; 5; 10; 10; 6; 10; 10; 8]].
Proof. reflexivity. Qed.

(** Sorting, merging and leaving one of each gives the union, in ascending order. *)
Lemma union_by_merge l k :
  let m := unique (merge Z.lt (unique (sort Z.lt l)) (sort Z.lt k)) in
  StronglySorted Z.lt m ∧ ∀ z, z ∈ m ↔ z ∈ l ∨ z ∈ k.
Proof.
  destruct (sorted_unique_sort Z.lt l) as [H1 H2]. destruct (sort_spec Z.lt k) as [H3 H4]. cbn. split.
  - apply (unique_sorted Z.lt), (merge_sorted Z.lt); [|done]. by apply (ascending_sorted Z.lt).
  - intros z. by rewrite unique_elem, (merge_perm Z.lt), elem_of_app, H2, H3.
Qed.
(** The loop ends although it adds to the list: what it adds is behind it. *)
Lemma splice_tens_spec before rest :
  splice_tens before rest = before ++ (rest ≫= λ x, if Z.rem x 2 =? 0 then [10; 10; x] else [x]).
Proof.
  revert before. induction rest as [|x rest IH]; intros before; cbn; [by rewrite app_nil_r|].
  rewrite IH. destruct (Z.rem x 2 =? 0); by rewrite <-!app_assoc.
Qed.
End ListOp.

(** * [containers/set_op.cpp] *)

Module SetOp.
Definition s1 : list str := chars <$> ["buffoon"; "thinkers"; "for"; "heavy"; "can"; "for"]%string.
Definition s2 : list str := chars <$> ["metal"; "any"; "food"; "elegant"; "deliver"; "for"]%string.
(** [std::copy(pos, C.end(), osi)] with the [pos] that [C.insert(x)] gives. *)
Definition from (x : str) (c : list str) : list str := drop (lower_bound str_lt id x c) c.
(** What [main] prints of the words in two arrays; the last range has no end when its bounds
    are in the wrong order. *)
Definition main (s1 s2 : list str) : list (list str) * option (list str) :=
  let A := set_of str_lt s1 in let B := set_of str_lt s2 in
  let C := set_of str_lt (set_union str_lt A B) in
  let C' := set_insert str_lt (chars "hello") C in
  ([A; B; set_union str_lt A B; set_difference str_lt A B; set_intersection str_lt A B; C; from (chars "hello") C'],
   range (lower_bound str_lt id (chars "can") C') (upper_bound str_lt id (chars "for") C') C').

Example set_op_prints : main s1 s2 = (
  map chars <$> [["buffoon"; "can"; "for"; "heavy"; "thinkers"]; ["any"; "deliver"; "elegant"; "food"; "for"; "metal"];
    ["any"; "buffoon"; "can"; "deliver"; "elegant"; "food"; "for"; "heavy"; "metal"; "thinkers"];
    ["buffoon"; "can"; "heavy"; "thinkers"]; ["for"];
    ["any"; "buffoon"; "can"; "deliver"; "elegant"; "food"; "for"; "heavy"; "metal"; "thinkers"];
    ["hello"; "metal"; "thinkers"]]%string,
  Some (chars <$> ["can"; "deliver"; "elegant"; "food"; "for"]%string)).
Proof. vm_compute. reflexivity. Qed.

(** For any two arrays of words, the algorithms on sorted ranges print the union, the
    difference and the intersection of the words, each word once and in order, and the set
    filled by [set_union] is the set of all of them. *)
Theorem set_algorithms s1 s2 :
  let A := set_of str_lt s1 in let B := set_of str_lt s2 in
  ((main s1 s2).1 !! 2%nat = Some (set_of str_lt (s1 ++ s2))) ∧
  ((main s1 s2).1 !! 3%nat = Some (set_of str_lt (filter (λ w, w ∉ s2) s1))) ∧
  ((main s1 s2).1 !! 4%nat = Some (set_of str_lt (filter (λ w, w ∈ s2) s1))) ∧
  ((main s1 s2).1 !! 5%nat = Some (set_of str_lt (s1 ++ s2))).
Proof.
  destruct (set_of_spec str_lt s1) as [A1 A2]. destruct (set_of_spec str_lt s2) as [B1 B2]. cbn [main fst lookup].
  assert (U : set_union str_lt (set_of str_lt s1) (set_of str_lt s2) = set_of str_lt (s1 ++ s2)).
  { destruct (set_union_spec str_lt _ _ A1 B1) as [U1 U2]. destruct (set_of_spec str_lt (s1 ++ s2)) as [V1 V2].
    apply (ascending_eq str_lt); [done..|]. intros z. by rewrite U2, V2, A2, B2, elem_of_app. }
  split_and!; cbn.
  - by rewrite U.
  - f_equal. destruct (set_difference_spec str_lt _ _ A1 B1) as [U1 U2].
    destruct (set_of_spec str_lt (filter (λ w, w ∉ s2) s1)) as [V1 V2].
    apply (ascending_eq str_lt); [done..|]. intros z. rewrite U2, V2, A2, B2, list_elem_of_filter. tauto.
  - f_equal. destruct (set_intersection_spec str_lt _ _ A1 B1) as [U1 U2].
    destruct (set_of_spec str_lt (filter (λ w, w ∈ s2) s1)) as [V1 V2].
    apply (ascending_eq str_lt); [done..|]. intros z. rewrite U2, V2, A2, B2, list_elem_of_filter. tauto.
  - rewrite U. f_equal. destruct (set_of_spec str_lt (s1 ++ s2)) as [V1 V2].
    destruct (set_of_spec str_lt (set_of str_lt (s1 ++ s2))) as [W1 W2].
    apply (ascending_eq str_lt); [done..|]. intros z. by rewrite W2, V2.
Qed.
End SetOp.

(** * [containers/multiset_op.cpp], [containers/multimap_op.cpp] and [map/multimap.cpp] *)

Module MultiOps.
Definition vi0 : list Z := [0; 1; 2; 3; 43; 5; 23; 13].
Definition vi1 : list Z := [1; 3; 4; 4; 5; 0; 0].
(** The multiset and its zeros. *)
Definition multiset_main (vi0 vi1 : list Z) : list Z * option (list Z) :=
  let ms := multi_of Z.lt id (vi0 ++ vi1) in (ms, equal_range Z.lt id 0 ms).
Example multiset_prints : multiset_main vi0 vi1 =
  ([0; 0; 0; 1; 1; 2; 3; 3; 4; 4; 5; 5; 13; 23; 43], Some [0; 0; 0]).
Proof. vm_compute. reflexivity. Qed.

(** Three pairs for each number; [num * 2] of an [int] must not overflow. *)
Definition pairs_of (num : Z) : list (Z * Z) := [(num, num); (num, num + 1); (num, num * 2)].
Definition multimap_main (numbers : list Z) : option (list (Z * Z) * list (Z * Z) * list (Z * Z)) :=
  if bool_decide (Forall (λ n, in_signed 32 (n + 1) ∧ in_signed 32 (n * 2)) numbers) then
    let mm := multi_of Z.lt fst (numbers ≫= pairs_of) in
    let mm' := multi_insert Z.lt fst (0, 100) mm in
    r ← equal_range Z.lt fst 0 mm'; Some (mm, mm', r)
  else None.
Definition dict : list (Z * ascii) :=
  [(1, "A"); (2, "B"); (2, "C"); (2, "D"); (4, "E"); (3, "F")]%char.
Definition dict_main : option (list (Z * ascii)) := equal_range Z.lt fst 2 (multi_of Z.lt fst dict).
Example dict_prints : dict_main = Some [(2, "B"); (2, "C"); (2, "D")]%char.
Proof. vm_compute. reflexivity. Qed.

(** "multimap keeps the order of values for the same key as the insertion order": for any
    numbers, what [main] prints for a key are its pairs in the order of the insertions, and
    the new pair of 0 comes last. *)
Theorem multimap_keeps_order numbers mm mm' r : multimap_main numbers = Some (mm, mm', r) →
  (∀ k, filter (λ p, p.1 = k) mm = filter (λ p, p.1 = k) (numbers ≫= pairs_of)) ∧
  r = filter (λ p, p.1 = 0) (numbers ≫= pairs_of) ++ [(0, 100)] ∧
  mm' ≡ₚ (0, 100) :: (numbers ≫= pairs_of) ∧ StronglySorted (λ p q, p.1 ≤ q.1) mm'.
Proof.
  unfold multimap_main. case_bool_decide; [|done]. intros (x & Hr & He)%bind_Some. simplify_eq.
  destruct (multi_of_spec Z.lt fst (numbers ≫= pairs_of)) as (H1 & H2 & H3).
  assert (S : StronglySorted (λ p q : Z * Z, ¬ q.1 < p.1) (multi_insert Z.lt fst (0, 100) (multi_of Z.lt fst (numbers ≫= pairs_of))))
    by (by apply (multi_insert_sorted Z.lt)).
  rewrite (equal_range_spec Z.lt) in Hr by done. injection Hr as <-.
  split; [exact H3|]. split; [by rewrite (multi_insert_filter Z.lt), filter_app, H3 by done|].
  split; [by rewrite multi_insert_perm, H1|].
  clear -S. induction S as [|p l _ IH Hp]; constructor; [done|]. eapply Forall_impl; [done|]. cbn. lia.
Qed.
Lemma multimap_keeps_order_witness :
  match multimap_main (seqZ 0 7) with
  | Some (_, _, r) => r = [(0, 0); (0, 1); (0, 0); (0, 100)]
  | None => False
  end.
Proof.
  destruct (multimap_main (seqZ 0 7)) as [[[mm mm'] r]|] eqn:H; [|by vm_compute in H].
  by rewrite (proj1 (proj2 (multimap_keeps_order _ _ _ _ H))).
Defined.
End MultiOps.

(** * [containers/queue_op.cpp] *)

Module QueueOp.
(** [while (q.empty()) print and pop]: the loop runs while there is nothing, and then takes
    the front of an empty queue. *)
Definition drain (q : list string) : option (list string) :=
  match q with [] => None | _ => Some [] end.
Definition main (strings : list string) : option (list string) := drain (foldl (λ q s, q ++ [s]) [] strings).
(** Nothing is printed, whatever was pushed. *)
Lemma prints_nothing strings : strings ≠ [] → main strings = Some [].
Proof.
  intros Hs. unfold main. enough (∀ l q, foldl (λ q s, q ++ [s]) q l = q ++ l) as -> by (by destruct strings).
  intros l. induction l as [|x l IH]; intros q; cbn; [by rewrite app_nil_r|]. by rewrite IH, <-app_assoc.
Qed.
Lemma prints_nothing_witness : main ["hello"; "world"; "myfriend"]%string = Some [].
Proof. by apply prints_nothing. Defined.
End QueueOp.

(** * [string/permutation.cpp] *)

Module Permute.
(** The characters are sorted and the loop prints one permutation after the other. *)
Definition main (fuel : nat) (s : str) : option (list str) :=
  permutations_from char_lt fuel (sort char_lt s).

(** For any string, the loop ends, and it prints exactly the permutations of its
    characters, in ascending order and each of them once. *)
Theorem permutations_printed s fuel : (length (permutations (sort char_lt s)) < fuel)%nat →
  ∃ outs, main fuel s = Some outs ∧ StronglySorted str_lt outs ∧ NoDup outs ∧ ∀ p, p ∈ outs ↔ p ≡ₚ s.
Proof.
  intros Hf. destruct (permutations_from_ends char_lt fuel _ Hf) as [outs Ho]. exists outs. split; [done|].
  apply (permutations_from_Some char_lt) in Ho as [H1 H2]. destruct (sort_spec char_lt s) as [Hp Hs].
  split; [done|]. split; [by apply (lex_sorted_NoDup char_lt)|].
  intros p. rewrite H2. split; [intros [He _]; by rewrite He|]. intros He. split; [by rewrite He, Hp|].
  apply (sorted_first char_lt); [done|by rewrite He, Hp].
Qed.
Lemma permutations_printed_witness :
  ∃ outs, main 121 (chars "hello") = Some outs ∧ chars "olleh" ∈ outs.
Proof.
  destruct (permutations_printed (chars "hello") 121 ltac:(vm_compute; lia)) as (outs & H & _ & _ & He).
  exists outs. split; [done|]. apply He. apply (bool_decide_unpack (chars "olleh" ≡ₚ chars "hello")). by vm_compute.
Defined.
End Permute.

(** * [string/word_counter.cpp] *)

Module WordCounter.
(** [tolower] in the C locale, and [str_to_lower]. *)
Definition tolower (c : ascii) : ascii :=
  let n := nat_of_ascii c in if ((65 <=? n) && (n <=? 90))%nat then ascii_of_nat (n + 32) else c.
Definition str_to_lower (s : str) : str := map tolower s.

(** [++wordmap[w]]: a new word starts with 0. An [int] does not go beyond its range. *)
Fixpoint increment (w : str) (m : list (str * Z)) : option (list (str * Z)) :=
  match m with
  | [] => Some [(w, 1)]
  | (v, n) :: m' =>
      if decide (str_lt w v) then Some ((w, 1) :: m)
      else if decide (str_lt v w) then cons (v, n) <$> increment w m'
      else if n + 1 <? 2 ^ 31 then Some ((v, n + 1) :: m') else None
  end.
Fixpoint count_words (words : list str) (m : list (str * Z)) : option (list (str * Z)) :=
  match words with
  | [] => Some m
  | w :: words => increment (str_to_lower w) m ≫= count_words words
  end.
(** The set, which is not printed, and the lines of the map. *)
Definition main (words : list str) : option (list str * list (str * Z)) :=
  m ← count_words words []; Some (set_of str_lt (map str_to_lower words), m).

Definition occurrences (w : str) (words : list str) : Z := Z.of_nat (length (filter (λ v, v = w) words)).
(** The map counts the words [ws]. *)
Definition counts (m : list (str * Z)) (ws : list str) : Prop :=
  StronglySorted str_lt m.*1 ∧ (∀ w, w ∈ m.*1 ↔ w ∈ ws) ∧ ∀ w n, (w, n) ∈ m → n = occurrences w ws.

Lemma occurrences_app w ws ws' : occurrences w (ws ++ ws') = occurrences w ws + occurrences w ws'.
Proof. unfold occurrences. rewrite filter_app, length_app. lia. Qed.
Lemma occurrences_one w v : occurrences w [v] = if decide (v = w) then 1 else 0.
Proof. unfold occurrences. rewrite filter_cons. by destruct (decide (v = w)). Qed.
Lemma occurrences_none w ws : w ∉ ws → occurrences w ws = 0.
Proof.
  intros Hw. unfold occurrences. induction ws as [|v ws IH]; [done|]. rewrite filter_cons_False; [|set_solver].
  apply IH. set_solver.
Qed.

Lemma increment_spec w m ws : counts m ws → occurrences w ws + 1 < 2 ^ 31 →
  ∃ m', increment w m = Some m' ∧ m'.*1 = set_insert str_lt w m.*1 ∧
    ∀ v n, (v, n) ∈ m' → (v ≠ w ∧ (v, n) ∈ m) ∨ (v = w ∧ n = occurrences w ws + 1).
Proof.
  intros (Hs & Hk & Hn) Hb. assert (Hnew : w ∉ m.*1 → occurrences w ws = 0) by (rewrite Hk; apply occurrences_none).
  clear Hk. induction m as [|[v n] m IH]; cbn in *.
  { eexists. split; [done|]. split; [done|]. intros u k [= -> ->]%list_elem_of_singleton. right. rewrite Hnew by set_solver. done. }
  apply (ascending_inv str_lt) in Hs as [Hs Hv]. case_decide as H1; [|case_decide as H2].
  - eexists. split; [done|]. split; [done|].
    assert (Hw : ∀ u, u ∈ v :: m.*1 → u ≠ w).
    { intros u [->|Hu]%elem_of_cons ->; [by apply (lt_irrefl str_lt) in H1|]. apply Hv in Hu. by apply (lt_asym str_lt) in H1. }
    intros u k [[= -> ->]|Hu]%elem_of_cons.
    + right. rewrite Hnew; [done|]. intros Hin. by apply (Hw w).
    + left. split; [|done]. apply Hw. apply elem_of_cons in Hu as [[= -> ->]|Hu]; [by left|right].
      apply list_elem_of_fmap. by exists (u, k).
  - destruct IH as (m' & -> & H3 & H4); [done| | |].
    + intros u k Hu. apply Hn. by right.
    + intros Hw. apply Hnew. apply not_elem_of_cons. split; [|done]. intros ->. by apply (lt_irrefl str_lt) in H2.
    + cbn. eexists. split; [done|]. cbn. rewrite H3. split; [done|]. intros u k [[= -> ->]|Hu]%elem_of_cons.
      * left. split; [|by left]. intros ->. by apply (lt_irrefl str_lt) in H2.
      * destruct (H4 u k Hu) as [[? ?]|?]; [left; split; [done|by right]|by right].
  - pose proof (lt_total str_lt _ _ H1 H2) as <-. rewrite (Hn w n) by left. rewrite (proj2 (Z.ltb_lt _ _) Hb).
    eexists. split; [done|]. split; [done|]. intros u k [[= -> ->]|Hu]%elem_of_cons; [by right|]. left. split; [|by right].
    intros ->. apply (lt_irrefl str_lt w), Hv, list_elem_of_fmap. by exists (w, k).
Qed.
Lemma occurrences_le w ws : occurrences w ws ≤ Z.of_nat (length ws).
Proof. unfold occurrences. pose proof (length_filter (λ v, v = w) ws). lia. Qed.
Lemma count_words_spec words m ws : counts m ws → Z.of_nat (length ws + length words) < 2 ^ 31 →
  ∃ m', count_words words m = Some m' ∧ counts m' (ws ++ map str_to_lower words).
Proof.
  revert m ws. induction words as [|w words IH]; intros m ws Hc Hl; cbn.
  { exists m. by rewrite app_nil_r. }
  set (v := str_to_lower w). pose proof (occurrences_le v ws).
  destruct (increment_spec v m ws Hc) as (m' & -> & H1 & H2); [cbn [length] in Hl; lia|].
  destruct Hc as (Hs & Hk & Hn). cbn.
  destruct (IH m' (ws ++ [v])) as (m'' & H3 & H4).
  - split; [rewrite H1; by apply (set_insert_ascending str_lt)|]. split.
    + intros u. rewrite H1, (set_insert_elem str_lt), Hk. set_solver.
    + intros u k Hu. rewrite occurrences_app, occurrences_one.
      destruct (H2 u k Hu) as [[? Hin]|[-> ->]]; [rewrite decide_False by done; rewrite (Hn u k Hin); lia|by rewrite decide_True].
  - rewrite length_app. cbn [length] in *. lia.
  - exists m''. by rewrite <-app_assoc in H4.
Qed.

(** For any words, fewer than 2^31: the map has a line for each word, upper and lower case
    being the same, in order, with the number of its occurrences. *)
Theorem words_counted words : Z.of_nat (length words) < 2 ^ 31 →
  ∃ m, main words = Some (set_of str_lt (map str_to_lower words), m) ∧
    m.*1 = set_of str_lt (map str_to_lower words) ∧
    ∀ w n, (w, n) ∈ m → n = occurrences w (map str_to_lower words).
Proof.
  intros Hl. destruct (count_words_spec words [] []) as (m & H1 & H2 & H3 & H4).
  { split; [constructor|]. split; [done|set_solver]. }
  { done. }
  exists m. unfold main. rewrite H1. split; [done|]. split; [|done].
  destruct (set_of_spec str_lt (map str_to_lower words)) as [H5 H6].
  apply (ascending_eq str_lt); [done..|]. intros w. by rewrite H3, H6.
Qed.
Definition words : list str :=
  chars <$> ["vector"; "string"; "set"; "string"; "sEt"; "string"; "Set"; "vector"]%string.
Lemma words_counted_witness : ∃ m, main words = Some (chars <$> ["set"; "string"; "vector"]%string, m).
Proof. destruct (words_counted words ltac:(vm_compute; done)) as (m & H & _). exists m. exact H. Defined.
Example word_counter_prints : main words = Some (chars <$> ["set"; "string"; "vector"]%string,
  [(chars "set", 3); (chars "string", 3); (chars "vector", 2)]).
Proof. vm_compute. reflexivity. Qed.
End WordCounter.
