(* ===== verification/StlIterators.v ===== *)
(** Vectors, iterators and adaptors in the programs under [src/cpp/stl]: positions outside a
    container, writes through iterators that overrun it, and insert iterators that make it
    grow. [None] is such an access, for which the standard promises nothing. *)

From Stdlib Require Import Ascii.
From S2P Require Import Prelude Double IStream.
#[local] Open Scope Z_scope.

Abbreviation str := (list ascii).
Definition chars : string → str := String.list_ascii_of_string.

(** * Vectors *)

Section vector.
Context {A : Type}.

(** [insert] and [erase] at positions; an [erase] of a range takes its end. *)
Definition insert_at (i : nat) (xs l : list A) : option (list A) :=
  if decide (i <= length l)%nat then Some (take i l ++ xs ++ drop i l) else None.
Definition erase (i j : nat) (l : list A) : option (list A) :=
  if decide (i <= j <= length l)%nat then Some (take i l ++ drop j l) else None.

(** [std::copy] through a plain iterator at position [i], which overwrites, and through
    the three insert iterators. An insert iterator moves on behind what it inserted. *)
Fixpoint copy_to (src : list A) (i : nat) (l : list A) : option (list A) :=
  match src with
  | [] => Some l
  | x :: src => if decide (i < length l)%nat then copy_to src (S i) (<[i := x]> l) else None
  end.
Definition copy_back (src l : list A) : list A := foldl (λ l x, l ++ [x]) l src.
Definition copy_front (src l : list A) : list A := foldl (λ l x, x :: l) l src.
Fixpoint copy_insert (src : list A) (i : nat) (l : list A) : option (list A) :=
  match src with
  | [] => Some l
  | x :: src => insert_at i [x] l ≫= copy_insert src (S i)
  end.

Lemma erase_insert i xs l : (i <= length l)%nat → insert_at i xs l ≫= erase i (i + length xs) = Some l.
Proof.
  intros Hi. unfold insert_at. rewrite decide_True by done. cbn. unfold erase.
  assert (Ht : length (take i l) = i) by (rewrite length_take; lia).
  rewrite decide_True by (rewrite !length_app, length_drop, Ht; lia).
  rewrite take_app_le by lia. rewrite take_ge by lia. rewrite drop_app_ge by lia. rewrite Ht.
  replace (i + length xs - i)%nat with (length xs) by lia. by rewrite drop_app_length, take_drop.
Qed.
(** A copy that fits overwrites what was there, one that does not has no result. *)
Lemma copy_to_spec src i l : copy_to src i l =
  if decide (i + length src <= length l)%nat then Some (take i l ++ src ++ drop (i + length src) l)
  else match src with [] => Some l | _ => None end.
Proof.
  revert i l. induction src as [|x src IH]; intros i l; cbn.
  { case_decide; [|done]. by rewrite Nat.add_0_r, take_drop. }
  destruct (decide (i < length l)%nat) as [Hi|Hi]; [|by rewrite decide_False by lia].
  rewrite IH, length_insert. destruct (decide (S i + length src <= length l)%nat) as [H|H].
  - rewrite decide_True by lia. f_equal. rewrite (take_S_r _ i x) by (by apply list_lookup_insert_eq).
    rewrite take_insert_ge by lia. rewrite drop_insert_lt by lia. rewrite <-app_assoc. cbn.
    by replace (i + S (length src))%nat with (S (i + length src)) by lia.
  - rewrite (decide_False (P := i + S (length src) <= length l)%nat) by lia. destruct src; [cbn in *; lia|done].
Qed.
Lemma copy_back_spec src l : copy_back src l = l ++ src.
Proof.
  unfold copy_back. revert l. induction src as [|x src IH]; intros l; cbn; [by rewrite app_nil_r|].
  by rewrite IH, <-app_assoc.
Qed.
Lemma copy_front_spec src l : copy_front src l = reverse src ++ l.
Proof.
  unfold copy_front. revert l. induction src as [|x src IH]; intros l; cbn [foldl]; [done|].
  by rewrite IH, reverse_cons, <-app_assoc.
Qed.
(** The elements stand in their order in front of the position. *)
Lemma copy_insert_spec src i l : (i <= length l)%nat → copy_insert src i l = Some (take i l ++ src ++ drop i l).
Proof.
  revert i l. induction src as [|x src IH]; intros i l Hi; cbn; [by rewrite take_drop|].
  unfold insert_at. rewrite decide_True by done. cbn.
  assert (Ht : length (take i l) = i) by (rewrite length_take; lia).
  rewrite IH by (rewrite length_app, Ht; cbn; rewrite length_drop; lia).
  rewrite take_app_ge, drop_app_ge by lia. rewrite Ht. replace (S i - i)%nat with 1%nat by lia. cbn.
  by rewrite <-app_assoc, take_0, drop_0.
Qed.
End vector.

(** * [containers/vector_ops.cpp] *)

Module VectorOps.
Definition list0 : list Z := [0; 1; 2; 3; 4; 5].
Definition list1 : list Z := replicate 10 100.
(** [list2] through [main], to its last print. *)
Definition list2 : option (list Z) :=
  x ← list1 !! 2%nat;
  l ← insert_at 0 [x] list0;
  l ← insert_at 0 [1; 1] l;
  insert_at (length l) list0 l.
Definition erased (l : list Z) : option (list Z) := l ← erase 2 3 l; erase 0 4 l.
(** What is printed before [list2[100]], and the value of that. *)
Definition main : option (list (list Z) * option Z) :=
  l ← list2; l' ← erased l;
  front ← head l'; back ← last l';
  let l'' := l' ++ [10000] in
  Some ([list0; list1; list0; l; l'; [front; back]; l''], l'' !! 100%nat).

(** [at(100)], which would throw, is not reached in a program with a meaning: the subscript
    before it is outside the vector. *)
Lemma vector_ops_prints : main = Some ([[0; 1; 2; 3; 4; 5]; replicate 10 100; [0; 1; 2; 3; 4; 5];
  [1; 1; 100; 0; 1; 2; 3; 4; 5; 0; 1; 2; 3; 4; 5]; [2; 3; 4; 5; 0; 1; 2; 3; 4; 5]; [2; 5];
  [2; 3; 4; 5; 0; 1; 2; 3; 4; 5; 10000]], None).
Proof. reflexivity. Qed.
End VectorOps.

(** * [algorithm/algorithm_ops.cpp] *)

Module AlgorithmOps.
(** [replace], [replace_copy] and [replace_if]. *)
Definition replace (old new : Z) : list Z → list Z := map (λ x, if x =? old then new else x).
Definition replace_if (p : Z → bool) (new : Z) : list Z → list Z := map (λ x, if p x then new else x).
(** [transform] with one range; with two the second must be as long as the first. *)
Fixpoint transform2 (f : double → Z → double) (a : list double) (b : list Z) : option (list double) :=
  match a, b with
  | [], _ => Some []
  | x :: a, y :: b => cons (f x y) <$> transform2 f a b
  | _ :: _, [] => None
  end.
Definition vi : list Z := [0; 1; 2; 3; 4; 5].
Definition vd : list double := (λ n, literal n 1) <$> [1; 11; 21; 31; 41; 51].
Definition main : option (list Z * list Z * list double * list Z * list Z) :=
  sums ← transform2 (λ d i, dadd d (of_Z i)) vd vi;
  let vi' := replace 2 200 vi in
  let vid := copy_back (replace 2 200 vi') [] in
  Some (vi, Z.opp <$> vi, sums, vid, replace_if (λ i, Z.rem i 2 =? 0) 100 vi').
Example algorithm_ops_prints : (λ '(a, b, c, d, e), (a, b, length c, d, e)) <$> main =
  Some ([0; 1; 2; 3; 4; 5], [0; -1; -2; -3; -4; -5], 6%nat, [0; 1; 200; 3; 4; 5], [100; 1; 100; 3; 100; 5]).
Proof. vm_compute. reflexivity. Qed.
(** [replace_copy] finds nothing to replace after [replace]. *)
Lemma replace_twice old new l : replace old new (replace old new l) = replace old new l.
Proof.
  unfold replace. rewrite map_map. apply map_ext. intros x. destruct (Z.eqb_spec x old) as [->|]; [by destruct (new =? old)|].
  by rewrite (proj2 (Z.eqb_neq _ _)).
Qed.
End AlgorithmOps.

(** * [iterator/iterator_inserter.cpp] and [iterator/other_iterators.cpp] *)

Module Inserters.
(** What the program prints of the words: copied over, at the end, and at the begin. *)
Definition words_main (s1 s2 s3 : list str) : option (list (list str)) :=
  words ← copy_to s1 0 (replicate 4 []);
  let words' := copy_back s2 words in
  words'' ← copy_insert s3 0 words';
  Some [words; words'; words''].
Lemma words_printed s1 s2 s3 : length s1 = 4%nat → words_main s1 s2 s3 = Some [s1; s1 ++ s2; s3 ++ s1 ++ s2].
Proof.
  intros H. unfold words_main. rewrite copy_to_spec, decide_True by (by rewrite H). cbn. rewrite H. cbn. rewrite app_nil_r.
  rewrite copy_insert_spec by lia. cbn. rewrite copy_back_spec. by rewrite drop_0.
Qed.
Lemma words_printed_witness :
  words_main (chars <$> ["fine"; "fish"; "fashion"; "fate"]%string) (chars <$> ["busy"; "bats"]%string)
    (chars <$> ["silly"; "singers"]%string) =
  Some (map chars <$> [["fine"; "fish"; "fashion"; "fate"]; ["fine"; "fish"; "fashion"; "fate"; "busy"; "bats"];
    ["silly"; "singers"; "fine"; "fish"; "fashion"; "fate"; "busy"; "bats"]]%string).
Proof. by apply words_printed. Defined.

(** The numbers backwards, then three vectors and a deque. *)
Definition numbers_main (vi : list Z) : option (list (list Z)) :=
  dvi0 ← copy_to vi 0 (replicate 10 0);
  let dvi1 := copy_back vi [] in
  dvi1' ← copy_insert vi 2 dvi1;
  Some [reverse vi; dvi0; dvi1; dvi1'; copy_front vi []].
Lemma numbers_printed vi : (2 <= length vi <= 10)%nat → numbers_main vi =
  Some [reverse vi; vi ++ replicate (10 - length vi) 0; vi; take 2 vi ++ vi ++ drop 2 vi; reverse vi].
Proof.
  intros H. unfold numbers_main. rewrite copy_to_spec, decide_True by (cbn; lia). cbn [mbind option_bind].
  rewrite copy_back_spec. cbn [app]. rewrite copy_insert_spec by lia. cbn [mbind option_bind]. rewrite copy_front_spec.
  rewrite app_nil_r, drop_replicate. by rewrite take_0.
Qed.
Lemma numbers_printed_witness : numbers_main [10; 20; 30; 40; 50] = Some [[50; 40; 30; 20; 10];
  [10; 20; 30; 40; 50; 0; 0; 0; 0; 0]; [10; 20; 30; 40; 50]; [10; 20; 10; 20; 30; 40; 50; 30; 40; 50]; [50; 40; 30; 20; 10]].
Proof. apply (numbers_printed [10; 20; 30; 40; 50]). cbn. lia. Defined.
End Inserters.

(** * [iterator/io_iterator.cpp] *)

Module IoIterator.
(** [istream_iterator<int>]: reads until a read fails; [None] when it has not ended. *)
Fixpoint read_ints (fuel : nat) (s : istream) : option (list Z) :=
  match fuel with
  | O => None
  | S fuel =>
      match read_int 32 s with
      | (Some z, s') => if ok s' then cons z <$> read_ints fuel s' else Some []
      | (None, s') => Some []
      end
  end.
(** [get_int_array_from_iss] writes them over the array. *)
Definition get_int_array_from_iss (fuel : nat) (a : list Z) (s : istream) : option (list Z) :=
  zs ← read_ints fuel s; copy_to zs 0 a.
(** The same from [cin]; nothing calls it. *)
Definition get_int_array (fuel : nat) (a : list Z) (cin : istream) : option (list Z) :=
  zs ← read_ints fuel cin; copy_to zs 0 a.
Definition print_int_array_to_oss (a : list Z) (backwards : bool) : list Z := if backwards then reverse a else a.
(** The four arrays that [main] prints. *)
Definition main (fuel : nat) (input : str) : option (list (list Z)) :=
  let a := [10; 20; 30; 40; 50] in
  c ← get_int_array_from_iss fuel (replicate 10 0) (open input);
  Some [a; a; print_int_array_to_oss c false; print_int_array_to_oss c true].
Example io_iterator_prints : main 14 (chars "20 30 40 50") = Some [[10; 20; 30; 40; 50]; [10; 20; 30; 40; 50];
  [20; 30; 40; 50; 0; 0; 0; 0; 0; 0]; [0; 0; 0; 0; 0; 0; 50; 40; 30; 20]].
Proof. vm_compute. reflexivity. Qed.

Lemma suffix_length {A} (l k : list A) : l `suffix_of` k → (length l <= length k)%nat.
Proof. intros [x ->]. rewrite length_app. lia. Qed.
(** A number that was read has taken a digit. *)
Lemma read_int_shorter w s z s' : read_int w s = (Some z, s') → ok s' = true →
  (length (rest s') < length (rest s))%nat.
Proof.
  unfold read_int. pose proof (sentry_later s) as [H _]. destruct (sentry s) as [[] s1]; [|done].
  pose proof (suffix_length _ _ (take_sign_suffix (rest s1))) as H1. destruct (take_sign (rest s1)) as [neg l].
  assert (H2 : let '(ds, r) := take_digits l in length l = (length ds + length r)%nat).
  { clear. induction l as [|c l IH]; cbn; [done|]. destruct (is_digit c); [|done]. destruct (take_digits l). cbn. lia. }
  destruct (take_digits l) as [[|d ds] r]; [by intros [= _ <-]|]. apply suffix_length in H. cbn in *.
  destruct (_ <? _); [by intros [= _ <-]|]. destruct (_ <=? _); [by intros [= _ <-]|].
  intros [= _ <-] _. cbn. lia.
Qed.
Lemma read_ints_ends fuel s : (length (rest s) < fuel)%nat → is_Some (read_ints fuel s).
Proof.
  revert s. induction fuel as [|fuel IH]; intros s Hf; cbn; [lia|].
  destruct (read_int 32 s) as [[z|] s'] eqn:Hr; [|by eexists]. destruct (ok s') eqn:Hok; [|by eexists].
  pose proof (read_int_shorter _ _ _ _ Hr Hok). destruct (IH s') as [zs ->]; [lia|]. by eexists.
Qed.
(** The reading ends on every text, and is undefined exactly when there are more numbers than
    the array has places; else they stand in front of what it had. *)
Theorem numbers_read a s : ∃ zs, read_ints (S (length (rest s))) s = Some zs ∧
  get_int_array_from_iss (S (length (rest s))) a s =
    if decide (length zs <= length a)%nat then Some (zs ++ drop (length zs) a) else None.
Proof.
  destruct (read_ints_ends (S (length (rest s))) s ltac:(lia)) as [zs Hz]. exists zs. split; [done|].
  unfold get_int_array_from_iss. rewrite Hz. cbn [mbind option_bind]. rewrite copy_to_spec. cbn.
  case_decide; [done|]. by destruct zs; [cbn in *; lia|].
Qed.
End IoIterator.

(** * [string/string_input.cpp] *)

Module StringInput.
(** [getline(fin, line, '.')]: [None] leaves [line] alone, which happens on a stream that is
    not good. *)
Fixpoint up_to_point (l : str) : str * option str :=
  match l with
  | [] => ([], None)
  | c :: l => if Ascii.eqb c "." then ([], Some l) else let '(a, r) := up_to_point l in (c :: a, r)
  end.
Definition getline_point (s : istream) : option str * istream :=
  if good s then
    match up_to_point (rest s) with
    | (a, Some r) => (Some a, IStream r false false)
    | (a, None) => (Some a, IStream [] (bool_decide (a = [])) true)
    end
  else (None, IStream (rest s) true (eofbit s)).
(** [while (fin) { getline; cout << ++count << line }]. *)
Fixpoint lines (fuel : nat) (count : Z) (line : str) (s : istream) : option (list (Z * str)) :=
  match fuel with
  | O => None
  | S fuel =>
      if ok s then
        let '(l, s) := getline_point s in
        let line := default line l in
        cons (count + 1, line) <$> lines fuel (count + 1) line s
      else Some []
  end.
(** [None] is a file that cannot be opened, with which the program exits. *)
Definition main (fuel : nat) (file : option str) : option (option (list (Z * str))) :=
  match file with None => Some None | Some text => Some <$> lines fuel 0 [] (open text) end.

(** The sentences, and what follows the last point. *)
Fixpoint sentences (l : str) : list str * str :=
  match l with
  | [] => ([], [])
  | c :: l =>
      let '(ss, r) := sentences l in
      if Ascii.eqb c "." then ([] :: ss, r)
      else match ss with [] => ([], c :: r) | x :: ss => ((c :: x) :: ss, r) end
  end.
Definition numbered (k : Z) (l : list str) : list (Z * str) := imap (λ i s, (k + 1 + Z.of_nat i, s)) l.

Lemma numbered_cons k x l : numbered k (x :: l) = (k + 1, x) :: numbered (k + 1) l.
Proof.
  unfold numbered. rewrite imap_cons. f_equal; [f_equal; lia|]. apply imap_ext. intros i y _. cbn. f_equal. lia.
Qed.
Lemma up_to_point_sentences l :
  match up_to_point l with
  | (a, Some r) => (sentences l).1 = a :: (sentences r).1 ∧ (sentences l).2 = (sentences r).2 ∧ (length r < length l)%nat
  | (a, None) => sentences l = ([], a)
  end.
Proof.
  induction l as [|c l IH]; cbn; [done|]. destruct (Ascii.eqb c ".").
  - destruct (sentences l) as [ss r]. cbn. split; [done|]. split; [done|lia].
  - destruct (up_to_point l) as [a [r|]].
    + destruct IH as (H1 & H2 & H3). destruct (sentences l) as [ss r']. cbn in *. subst. cbn. split; [done|]. split; [done|lia].
    + by rewrite IH.
Qed.
Lemma lines_spec fuel count line text : (length text + 3 <= fuel)%nat →
  lines fuel count line (open text) =
    let '(ss, r) := sentences text in Some (numbered count (ss ++ match r with [] => [[]] | _ => [r; r] end)).
Proof.
  revert count line text. induction fuel as [|fuel IH]; intros count line text Hf; [lia|].
  pose proof (up_to_point_sentences text) as H. cbn [lines]. unfold getline_point.
  change (ok (open text)) with true. change (good (open text)) with true. change (rest (open text)) with text. cbn match.
  destruct (up_to_point text) as [a [r|]].
  - destruct H as (H1 & H2 & H3). cbn [default]. change (IStream r false false) with (open r). rewrite IH by lia. destruct (sentences text), (sentences r). cbn in *. subst.
    cbn [app fmap option_fmap option_map]. by rewrite numbered_cons.
  - rewrite H. do 2 (destruct fuel as [|fuel]; [cbn in Hf; lia|]). destruct a as [|c a]; unfold numbered; cbn.
    + by rewrite Z.add_0_r.
    + by rewrite Z.add_0_r.
Qed.
(** The loop ends on every text; it asks for the state before it reads, and so prints once
    more: an empty line after a text that ends with a point, else the rest of the text twice. *)
Theorem reads_once_more text : main (length text + 3) (Some text) =
  let '(ss, r) := sentences text in Some (Some (numbered 0 (ss ++ match r with [] => [[]] | _ => [r; r] end))).
Proof. unfold main. rewrite lines_spec by lia. by destruct (sentences text). Qed.
Example twice : main 6 (Some (chars "a.b")) = Some (Some [(1, chars "a"); (2, chars "b"); (3, chars "b")]).
Proof. reflexivity. Qed.
End StringInput.

(** * [string/string_ops.cpp] *)

Module StringOps.
(** The searches of [std::string]; [None] is [npos]. *)
Definition occurs (sub s : str) (i : nat) : bool := bool_decide (take (length sub) (drop i s) = sub).
Definition find (sub : str) (pos : nat) (s : str) : option nat :=
  head (filter (λ i, occurs sub s i = true) (seq pos (S (length s) - pos))).
Definition rfind (sub s : str) : option nat := last (filter (λ i, occurs sub s i = true) (seq 0 (S (length s)))).
Definition places (p : ascii → bool) (s : str) : list nat :=
  filter (λ i, (p <$> s !! i) = Some true) (seq 0 (length s)).
Definition one_of (cs : str) (c : ascii) : bool := bool_decide (c ∈ cs).
Definition find_first_of (cs s : str) : option nat := head (places (one_of cs) s).
Definition find_last_of (cs s : str) : option nat := last (places (one_of cs) s).
Definition find_first_not_of (cs s : str) : option nat := head (places (λ c, negb (one_of cs c)) s).
Definition find_last_not_of (cs s : str) : option nat := last (places (λ c, negb (one_of cs c)) s).
(** What is printed: [npos] is the greatest [size_t]. *)
Definition position (o : option nat) : Z := match o with Some n => Z.of_nat n | None => 2 ^ 64 - 1 end.

Definition main : list Z :=
  let s := chars "elhelloworldhellojesuselloworld" in let substr := chars "ello" in
  position <$> [find substr 0 s; find substr 6 s; find (take 2 substr) 0 s; rfind substr s;
    find_first_of (chars "wz") s; find_last_of (chars "wz") s; find_first_not_of (chars "aoei") s;
    find_last_not_of (chars "wz") s; find (chars "zzz") 0 s].
Example string_ops_prints : main = [3; 13; 0; 22; 7; 26; 1; 30; 18446744073709551615].
Proof. vm_compute. reflexivity. Qed.

(** [find] gives the first place there is. *)
Lemma first_place (p : nat → bool) n k : match head (filter (λ i, p i = true) (seq n k)) with
  | Some i => (n <= i < n + k)%nat ∧ p i = true ∧ ∀ j, (n <= j < i)%nat → p j = false
  | None => ∀ j, (n <= j < n + k)%nat → p j = false
  end.
Proof.
  revert n. induction k as [|k IH]; intros n; [cbn; lia|]. cbn [seq]. rewrite filter_cons. case_decide as Hp.
  - cbn. split; [lia|]. split; [done|lia].
  - apply not_true_is_false in Hp. specialize (IH (S n)). destruct (head _) as [i|].
    + destruct IH as (H1 & H2 & H3). split; [lia|]. split; [done|]. intros j Hj.
      destruct (decide (j = n)) as [->|]; [done|apply H3; lia].
    + intros j Hj. destruct (decide (j = n)) as [->|]; [done|apply IH; lia].
Qed.
Lemma find_spec sub pos s : (pos <= length s)%nat → match find sub pos s with
  | Some i => (pos <= i)%nat ∧ occurs sub s i = true ∧ ∀ j, (pos <= j < i)%nat → occurs sub s j = false
  | None => ∀ j, (pos <= j <= length s)%nat → occurs sub s j = false
  end.
Proof.
  intros Hp. pose proof (first_place (occurs sub s) pos (S (length s) - pos)) as H. unfold find.
  destruct (head _); [naive_solver lia|]. intros j Hj. apply H. lia.
Qed.
Lemma find_spec_witness : find (chars "ello") 0 (chars "hello") = Some 1%nat ∧ occurs (chars "ello") (chars "hello") 0 = false.
Proof.
  split; [reflexivity|]. exact (proj2 (proj2 (find_spec (chars "ello") 0 (chars "hello") ltac:(cbn; lia))) 0%nat ltac:(lia)).
Defined.
End StringOps.

(** * [valarray/valarray_ops.cpp] *)

Module Valarray.
Definition SIZE : nat := 12.
(** [slice(start, size, stride)], and what it reads and writes; the array is not extended. *)
Definition slice (start size stride : nat) : list nat := (λ k, start + k * stride)%nat <$> seq 0 size.
Definition read (v : list Z) (sl : list nat) : option (list Z) := mapM (λ i, v !! i) sl.
Fixpoint write (v : list Z) (sl : list nat) (xs : list Z) : option (list Z) :=
  match sl, xs with
  | [], [] => Some v
  | i :: sl, x :: xs => if (i <? length v)%nat then write (<[i := x]> v) sl xs else None
  | _, _ => None
  end.
(** The sum of two arrays of the same size, of [int]s that do not overflow. *)
Fixpoint add (a b : list Z) : option (list Z) :=
  match a, b with
  | [], [] => Some []
  | x :: a, y :: b => if bool_decide (in_signed 32 (x + y)) then cons (x + y) <$> add a b else None
  | _, _ => None
  end.

(** [show]: a number and what follows it, a blank or the end of the line. *)
Definition show (v : list Z) (cols : nat) : list (Z * bool) * bool :=
  (imap (λ i x, (x, bool_decide (i mod cols = cols - 1)%nat)) v, bool_decide (length v mod cols ≠ 0)%nat).

(** [main] with what [rand() % 10] gave: the shown arrays, and the last. *)
Definition main (rands : list Z) : option (list (list (Z * bool) * bool) * list Z) :=
  let valint := take SIZE rands in
  vcol ← read valint (slice 1 4 3);
  vrow ← read valint (slice 3 3 1);
  v1 ← write valint (slice 2 4 3) (replicate 4 10);
  a ← read v1 (slice 1 4 3); b ← read v1 (slice 2 4 3);
  s ← add a b;
  v2 ← write v1 (slice 0 4 3) s;
  Some ([show valint 3; show vcol 1; show vrow 3; show v1 3; show v2 3], v2).

Lemma add_small a b : Forall2 (λ x y, in_signed 32 (x + y)) a b → add a b = Some (zip_with Z.add a b).
Proof. induction 1 as [|x y a b Hxy _ IH]; cbn [add zip_with]; [done|]. by rewrite bool_decide_true, IH by done. Qed.
(** Twelve digits are a matrix of four rows; at the end its last column is 10 and its first
    is the sum of the others. *)
Theorem columns rands : length rands = SIZE → Forall (λ x, 0 ≤ x < 10) rands →
  ∃ shown v, main rands = Some (shown, v) ∧ length v = SIZE ∧
    ∀ r, (r < 4)%nat → ∃ x, rands !! (3 * r + 1)%nat = Some x ∧
      v !! (3 * r)%nat = Some (x + 10) ∧ v !! (3 * r + 1)%nat = Some x ∧ v !! (3 * r + 2)%nat = Some 10.
Proof.
  intros Hl Hf. do 12 (destruct rands as [|? rands]; [done|]). destruct rands; [|done]. rewrite !Forall_cons in Hf.
  unfold main. cbn -[add show Z.add]. rewrite add_small by (repeat constructor; lia).
  cbn -[show Z.add]. eexists _, _. split; [reflexivity|]. split; [done|]. intros r Hr.
  do 4 (destruct r as [|r]; [eexists; split; [reflexivity|]; done|]). lia.
Qed.
Lemma columns_witness : ∃ shown v, main [3; 6; 7; 5; 3; 5; 6; 2; 9; 1; 2; 7] = Some (shown, v) ∧ v !! 0%nat = Some 16.
Proof.
  destruct (columns [3; 6; 7; 5; 3; 5; 6; 2; 9; 1; 2; 7] ltac:(done) ltac:(repeat constructor; lia)) as (sh & v & H & _ & H').
  exists sh, v. split; [done|]. destruct (H' 0%nat ltac:(lia)) as (x & [= <-] & H0 & _). exact H0.
Defined.
End Valarray.

(** * [initializer_list/ilist.cpp] *)

Module IList.
Definition sum (li : list double) : double := foldl dadd dzero li.
Definition average (li : list double) : double :=
  let total := sum li in if bool_decide (length li = 0)%nat then dzero else ddiv total (of_Z (Z.of_nat (length li))).
Definition main : double * double :=
  let dl := [literal 11 1; literal 22 1; literal 33 1; literal 44 1] in (sum dl, average dl).
(** Whole numbers are added exactly as long as no partial sum leaves 53 bits. *)
Lemma sum_of_whole zs : (∀ k, (k <= length zs)%nat → exact (foldl Z.add 0 (take k zs))) → Forall exact zs →
  sum (of_Z <$> zs) = of_Z (foldl Z.add 0 zs).
Proof.
  unfold sum. change dzero with (of_Z 0). generalize 0. induction zs as [|z zs IH]; intros a Hk Hf; [done|].
  apply Forall_cons in Hf as [Hz Hf]. cbn. rewrite dadd_whole.
  - apply IH; [|done]. intros k Hle. apply (Hk (S k)). cbn. lia.
  - apply (Hk 0%nat). lia.
  - done.
  - specialize (Hk 1%nat ltac:(cbn; lia)). cbn in Hk. by rewrite take_0 in Hk.
Qed.
Lemma sum_of_whole_witness : sum (of_Z <$> [1; 2; 3; 4]) = of_Z 10.
Proof.
  apply (sum_of_whole [1; 2; 3; 4]); [|by repeat constructor].
  intros k Hk. do 5 (destruct k as [|k]; [by vm_compute|]). cbn in Hk. lia.
Defined.
End IList.
