(* ===== verification/SmallPrograms.v ===== *)
(** Small programs about objects and calls: [src/cpp/crtp_counter.cpp] ([Module CrtpCounter]),
    [src/cpp/smart_pointer/unique.cpp] ([UniquePtr]), the table tennis players of
    [src/cpp/cpp_class/class_inheritance] ([TableTennis]) and the signals of
    [src/books/ldxcfwqbc/01_thread_safe_object_management/signal_slot.cpp] ([SignalSlot]). *)

From S2P Require Import Prelude.
#[local] Open Scope Z_scope.

(** * [crtp_counter.cpp] *)

Module CrtpCounter.
(** The static members of [Counter<T>], one pair for each class [T]. *)
Record counter : Type := Counter { mCreated : Z; mAlive : Z }.
Abbreviation statics := (gmap string counter).
Definition zero : counter := Counter 0 0.
Definition at_ (t : string) (m : statics) : counter := default zero (m !! t).

(** The constructor and the destructor; the copy constructor is the implicit one, which
    counts nothing. *)
Inductive event : Type := Construct (t : string) | CopyConstruct (t : string) | Destruct (t : string).
Definition run (e : event) (m : statics) : statics :=
  match e with
  | Construct t => <[t := Counter (u64 (mCreated (at_ t m) + 1)) (u64 (mAlive (at_ t m) + 1))]> m
  | CopyConstruct _ => m
  | Destruct t => <[t := Counter (mCreated (at_ t m)) (u64 (mAlive (at_ t m) - 1))]> m
  end.
Definition runs (es : list event) (m : statics) : statics := foldl (λ m e, run e m) m es.

(** [main]: three of [A], two of [B], a fourth [A] in a block; what is printed inside the
    block and after it. *)
Definition main : list Z :=
  let m := runs (replicate 3 (Construct "A") ++ replicate 2 (Construct "B") ++ [Construct "A"]) ∅ in
  let m' := run (Destruct "A") m in
  [mCreated (at_ "A" m); mAlive (at_ "A" m); mCreated (at_ "A" m'); mAlive (at_ "A" m');
   mCreated (at_ "B" m'); mAlive (at_ "B" m')].
Example crtp_counter_prints : main = [4; 4; 4; 3; 2; 2].
Proof. reflexivity. Qed.

(** How many objects of [t] the events make without copying, copy, and destroy. *)
Definition is_event (e e' : event) : bool :=
  match e, e' with
  | Construct t, Construct t' | CopyConstruct t, CopyConstruct t' | Destruct t, Destruct t' => bool_decide (t = t')
  | _, _ => false
  end.
Definition count (e : event) (es : list event) : Z := Z.of_nat (length (filter (λ e', is_event e e' = true) es)).
Lemma count_event_cons e e' es : count e (e' :: es) = (if is_event e e' then 1 else 0) + count e es.
Proof. unfold count. rewrite filter_cons. destruct (is_event e e'); [rewrite decide_True by done; cbn [length]; lia|by rewrite decide_False]. Qed.

Lemma at_insert t t' c m : at_ t (<[t' := c]> m) = if decide (t = t') then c else at_ t m.
Proof. unfold at_. case_decide; [subst; by rewrite lookup_insert_eq|by rewrite lookup_insert_ne]. Qed.
(** The counters are the numbers of the classes that derive from them, modulo 2^64, and
    those of one class do not change another's; but copies are not counted, so that with a
    copy [mAlive] falls short of the living objects by the number of copies. *)
Theorem counters es t : let m := runs es ∅ in
  mCreated (at_ t m) = u64 (count (Construct t) es) ∧
  mAlive (at_ t m) = u64 (count (Construct t) es - count (Destruct t) es).
Proof.
  enough (H : ∀ m c a, mCreated (at_ t m) = u64 c → mAlive (at_ t m) = u64 a →
    mCreated (at_ t (runs es m)) = u64 (c + count (Construct t) es) ∧
    mAlive (at_ t (runs es m)) = u64 (a + (count (Construct t) es - count (Destruct t) es))).
  { apply (H ∅ 0 0); unfold at_; by rewrite lookup_empty. }
  induction es as [|e es IH]; intros m c a Hc Ha.
  { cbn. by rewrite !Z.add_0_r. }
  cbn [runs foldl]. fold (runs es (run e m)). rewrite !count_event_cons.
  assert (H : mCreated (at_ t (run e m)) = u64 (c + (if is_event (Construct t) e then 1 else 0)) ∧
    mAlive (at_ t (run e m)) = u64 (a + ((if is_event (Construct t) e then 1 else 0) - (if is_event (Destruct t) e then 1 else 0)))).
  { destruct e as [t'|t'|t']; cbn [run is_event]; [|by rewrite Hc, Ha, !Z.add_0_r|];
      rewrite !at_insert; case_bool_decide as Heq.
    - subst t'. rewrite decide_True by done. cbn. rewrite Hc, Ha. unfold u64. by rewrite !wrap_add_l by lia.
    - rewrite decide_False by done. by rewrite Hc, Ha, !Z.add_0_r.
    - subst t'. rewrite decide_True by done. cbn. rewrite Hc, Ha, Z.add_0_r. split; [done|].
      unfold u64, wrap. by rewrite Zminus_mod_idemp_l.
    - rewrite decide_False by done. by rewrite Hc, Ha, !Z.add_0_r. }
  destruct H as [H1 H2]. destruct (IH _ _ _ H1 H2) as [-> ->]. split; f_equal; lia.
Qed.
(** One object and its copy, both destroyed: the counter of the living is not 0. *)
Lemma copies_not_counted : mAlive (at_ "A" (runs [Construct "A"; CopyConstruct "A"; Destruct "A"; Destruct "A"] ∅)) = 2 ^ 64 - 1.
Proof. reflexivity. Qed.
End CrtpCounter.

(** * [smart_pointer/unique.cpp] *)

Module UniquePtr.
(** The resources that live, the pointers, and what was printed. *)
Record world : Type := World { resources : gset nat; next : nat; ptrs : gmap string (option nat); out : list string }.
Definition say (l : string) (w : world) : world := World (resources w) (next w) (ptrs w) (out w ++ [l]).
Definition set_ptr (x : string) (p : option nat) (w : world) : world := World (resources w) (next w) (<[x := p]> (ptrs w)) (out w).
Definition new_Resource (w : world) : nat * world :=
  (next w, say "Allocated" (World ({[next w]} ∪ resources w) (S (next w)) (ptrs w) (out w))).
(** The deleter; an address that is not alive is deleted twice. *)
Definition delete_Resource (p : option nat) (w : world) : option world :=
  match p with
  | None => Some w
  | Some p => if decide (p ∈ resources w)
      then Some (say "Deallocated" (World (resources w ∖ {[p]}) (next w) (ptrs w) (out w))) else None
  end.

Inductive command : Type :=
  | Make (x : string) | Empty (x : string) | Move (x y : string) | Null (x : string) | IfNot (x : string) (l : string) | Drop (x : string).
Definition step (w : world) (c : command) : option world :=
  match c with
  | Make x => if ptrs w !! x then None else let '(p, w) := new_Resource w in Some (set_ptr x (Some p) w)
  | Empty x => if ptrs w !! x then None else Some (set_ptr x None w)
  | Move x y => (* [x = move(y)]: [reset(y.release())] *)
      p ← ptrs w !! y; let w := set_ptr y None w in
      old ← ptrs w !! x; delete_Resource old (set_ptr x p w)
  | Null x => p ← ptrs w !! x; Some (say (if p is Some _ then "not null" else "null") w)
  | IfNot x l => p ← ptrs w !! x; Some (if p is Some _ then say l w else w)
  | Drop x => p ← ptrs w !! x; delete_Resource p (World (resources w) (next w) (base.delete x (ptrs w)) (out w))
  end.
Fixpoint steps (w : world) (cs : list command) : option world :=
  match cs with [] => Some w | c :: cs => w ← step w c; steps w cs end.
Definition start : world := World ∅ 0 ∅ [].
Definition main : list command :=
  [Make "res0"; Empty "res1"; Null "res0"; Null "res1"; Move "res1" "res0"; Null "res0"; Null "res1";
   IfNot "res0" "res0 not null"; IfNot "res1" "res1 not null"; Make "res2"; Drop "res2"; Drop "res1"; Drop "res0"].
Lemma unique_ptr_prints : out <$> steps start main =
  Some ["Allocated"; "not null"; "null"; "null"; "not null"; "res1 not null"; "Allocated"; "Deallocated"; "Deallocated"]%string.
Proof. vm_compute. reflexivity. Qed.

(** Each resource has exactly one pointer that owns it. *)
Definition owned (w : world) : Prop :=
  (∀ p, p ∈ resources w ↔ ∃ x, ptrs w !! x = Some (Some p)) ∧
  (∀ x y p, ptrs w !! x = Some (Some p) → ptrs w !! y = Some (Some p) → x = y) ∧ ∀ p, p ∈ resources w → (p < next w)%nat.
(** The command names its variables as a program does. *)
Definition well_named (w : world) (c : command) : Prop :=
  match c with
  | Make x | Empty x => ptrs w !! x = None
  | Move x y => is_Some (ptrs w !! x) ∧ is_Some (ptrs w !! y)
  | Null x | IfNot x _ | Drop x => is_Some (ptrs w !! x)
  end.

Fixpoint program (w : world) (cs : list command) : Prop :=
  match cs with [] => True | c :: cs => well_named w c ∧ ∀ w1, step w c = Some w1 → program w1 cs end.

Lemma delete_owned p w : (∀ q, p = Some q → q ∈ resources w) → ∃ w', delete_Resource p w = Some w' ∧
  ptrs w' = ptrs w ∧ next w' = next w ∧ ∀ q, q ∈ resources w' ↔ q ∈ resources w ∧ p ≠ Some q.
Proof.
  intros Hp. unfold delete_Resource. destruct p as [p|]; [|by exists w; naive_solver].
  rewrite decide_True by by apply Hp. eexists. split; [done|]. split; [done|]. split; [done|].
  intros q. cbn. rewrite elem_of_difference, elem_of_singleton. naive_solver.
Qed.
Lemma step_owned w c : owned w → well_named w c → ∃ w', step w c = Some w' ∧ owned w'.
Proof.
  intros (H1 & H2 & H3) Hn. destruct c as [x|x|x y|x|x l|x]; cbn in *.
  - rewrite Hn. eexists. split; [done|]. unfold owned. cbn. setoid_rewrite lookup_insert_Some.
    assert (Hf : ∀ y, ptrs w !! y ≠ Some (Some (next w))) by (intros y Hy; assert (next w ∈ resources w) as ?%H3 by (apply H1; eauto); lia).
    split; [|split].
    + intros p. rewrite elem_of_union, elem_of_singleton, H1. split; [|naive_solver].
      intros [->|[y Hy]]; [naive_solver|]. exists y. right. split; [congruence|done].
    + intros y z p [[<- E]|[? Hy]] [[<- E']|[? Hz]]; simplify_eq; [done|by apply Hf in Hz|by apply Hf in Hy|by eapply H2].
    + intros p [->%elem_of_singleton|?%H3]%elem_of_union; lia.
  - rewrite Hn. eexists. split; [done|]. unfold owned. cbn. setoid_rewrite lookup_insert_Some.
    split; [|naive_solver]. intros p. rewrite H1. split; [|naive_solver]. intros [y Hy]. exists y. right. split; [congruence|done].
  - destruct Hn as [[o Hx] [p Hy]]. rewrite Hy. cbn.
    assert (Hd : ∃ old, <[y := None]> (ptrs w) !! x = Some old ∧ (old = None ∧ x = y ∨ old = o ∧ x ≠ y)).
    { destruct (decide (x = y)) as [->|]; [rewrite lookup_insert_eq|rewrite lookup_insert_ne by done]; naive_solver. }
    destruct Hd as (old & Hold & Hcase). rewrite Hold. cbn.
    destruct (delete_owned old (set_ptr x p (set_ptr y None w))) as (w' & Hw & Hp & Hnx & Hr).
    { intros q ->. cbn. apply H1. naive_solver. }
    exists w'. split; [done|]. unfold owned. rewrite Hp, Hnx. cbn. setoid_rewrite lookup_insert_Some. setoid_rewrite lookup_insert_Some.
    setoid_rewrite Hr. cbn. split; [|split].
    + intros q. rewrite H1. split.
      * intros [[z Hz] Hq]. destruct (decide (z = y)) as [->|].
        { exists x. left. split; [done|]. congruence. }
        exists z. right. destruct (decide (x = z)) as [->|]; [|naive_solver]. exfalso. destruct Hcase as [[? ?]|[-> ?]]; congruence.
      * intros [z [[<- ->]|[Hxz [[_ ?]|[Hyz Hz]]]]]; [|done|].
        { split; [by exists y|]. intros ->. destruct Hcase as [[? ?]|[<- Hne]]; [done|]. by apply Hne, (H2 x y q). }
        split; [by exists z|]. intros ->. destruct Hcase as [[? ?]|[<- Hne]]; [done|]. by apply Hxz, (H2 x z q).
    + intros z z' q [[<- ->]|[? [[_ ?]|[? Hz]]]] [[<- E]|[? [[_ ?]|[? Hz']]]]; try done; [|subst|by eapply H2].
      * by pose proof (H2 y z' q Hy Hz').
      * by pose proof (H2 y z q Hy Hz).
    + intros q [? _]. by apply H3.
  - destruct Hn as [p ->]. by eexists.
  - destruct Hn as [p ->]. eexists. split; [done|]. by destruct p.
  - destruct Hn as [p Hp]. rewrite Hp. cbn.
    destruct (delete_owned p (World (resources w) (next w) (base.delete x (ptrs w)) (out w))) as (w' & Hw & Hq & Hnx & Hr).
    { intros q ->. cbn. apply H1. eauto. }
    exists w'. split; [done|]. unfold owned. rewrite Hq, Hnx. cbn. setoid_rewrite lookup_delete_Some. setoid_rewrite Hr. cbn.
    split; [|naive_solver]. intros q. rewrite H1. split.
    + intros [[z Hz] Hne]. exists z. split; [congruence|done].
    + intros [z [Hne Hz]]. split; [by exists z|]. intros ->. by apply Hne, (H2 x z q).
Qed.
(** Whatever a program does with such pointers, nothing is deleted twice, and when the
    pointers are gone so are the resources. *)
Theorem unique_ownership cs w : owned w → program w cs →
  ∃ w', steps w cs = Some w' ∧ owned w' ∧ (ptrs w' = ∅ → resources w' ≡ ∅).
Proof.
  revert w. induction cs as [|c cs IH]; intros w Hw Hp; cbn in *.
  - exists w. split; [done|]. split; [done|]. intros He p. destruct Hw as [Hr _]. rewrite Hr, He. set_solver.
  - destruct Hp as [Hc Hp]. destruct (step_owned w c Hw Hc) as (w1 & H1 & Ho). rewrite H1. cbn. by apply IH; [|apply Hp].
Qed.
Lemma unique_ownership_witness : ∃ w', steps start [Make "x"; Empty "y"; Move "y" "x"] = Some w' ∧ owned w'.
Proof.
  assert (Hw : owned start) by (split; [|split]; cbn; set_solver).
  destruct (unique_ownership [Make "x"; Empty "y"; Move "y" "x"] start Hw) as (w' & H1 & H2 & _); [|by exists w'].
  cbn. split; [done|]. intros w1 [= <-]. split; [done|]. intros w2 [= <-]. split; [|done]. split; by eexists.
Defined.
End UniquePtr.

(** * [class_inheritance/tabtenn0.h], [tabtenn0.cpp] and [usett1.cpp] *)

Module TableTennis.
Record TableTennisPlayer : Type := Player { mFirstName : string; mLastName : string; mHasTable : bool }.
Record RatedPlayer : Type := Rated { player : TableTennisPlayer; mRating : Z }.

Definition Name (p : TableTennisPlayer) : string := mLastName p +:+ ", " +:+ mFirstName p.
Definition hasTable (p : TableTennisPlayer) : bool := mHasTable p.
Definition resetTable (v : bool) (p : TableTennisPlayer) : TableTennisPlayer := Player (mFirstName p) (mLastName p) v.
(** The two constructors of [RatedPlayer]; a rating is an [unsigned int]. *)
Definition rated (r : Z) (fn ln : string) (ht : bool) : RatedPlayer := Rated (Player fn ln ht) (u32 r).
Definition rated_of (r : Z) (tp : TableTennisPlayer) : RatedPlayer := Rated tp (u32 r).
Definition Rating (r : RatedPlayer) : Z := mRating r.
Definition ResetRating (n : Z) (r : RatedPlayer) : RatedPlayer := Rated (player r) (u32 n).

(** A reference to the base class, and the copy constructor from a derived object: both see
    the player in it. *)
Definition show (rt : TableTennisPlayer) : list string := ["Name: " +:+ Name rt].
Definition table_line (p : TableTennisPlayer) : list string :=
  [Name p +:+ (if hasTable p then ": has a table." else ": hasn't a table.")].
Inductive line : Type := Text (s : string) | Rating_of (s : string) (n : Z).
Definition main : list line :=
  let player1 := Player "Tara" "Boomdea" false in
  let rplayer1 := rated 1140 "Mallory" "Duck" true in
  let rplayer2 := rated_of 1212 player1 in
  let player2 := player rplayer1 in
  let player3 := player rplayer2 in
  (Text <$> table_line (player rplayer1) ++ table_line player1) ++
  [Rating_of ("Name: " +:+ Name (player rplayer1)) (Rating rplayer1);
   Rating_of ("Name: " +:+ Name (player rplayer2)) (Rating rplayer2)] ++
  (Text <$> show player1 ++ show (player rplayer1) ++ show player2 ++ show player3).
Example table_tennis_prints : main =
  [Text "Duck, Mallory: has a table."; Text "Boomdea, Tara: hasn't a table.";
   Rating_of "Name: Duck, Mallory" 1140; Rating_of "Name: Boomdea, Tara" 1212;
   Text "Name: Boomdea, Tara"; Text "Name: Duck, Mallory"; Text "Name: Duck, Mallory"; Text "Name: Boomdea, Tara"].
Proof. reflexivity. Qed.
(** A slice of a rated player is a player of its own: changing one leaves the other. *)
Lemma slice_is_a_copy v n r :
  player (ResetRating n r) = player r ∧ Name (resetTable v (player r)) = Name (player r) ∧
  player (rated_of n (player r)) = player r.
Proof. done. Qed.
End TableTennis.

(** * [signal_slot.cpp] *)

Module SignalSlot.
(** A [Signal<void(A)>]: the functors, each a program on the world [W], in the order in which
    they were connected. *)
Section signal.
Context {A W : Type}.
Abbreviation Functor := (A → W → W).
Definition connect (f : Functor) (fs : list Functor) : list Functor := fs ++ [f].
Definition call (a : A) (fs : list Functor) (w : W) : W := foldl (λ w f, f a w) w fs.
(** A call runs what was connected before as before, and then the new functor. *)
Lemma call_connect a f fs w : call a (connect f fs) w = f a (call a fs w).
Proof. unfold call, connect. by rewrite foldl_app. Qed.
End signal.

(** The three slots write a number; [std::bind(&f, i)] keeps its own copy of [i], which the
    slots get by value. *)
Definition print (i : Z) (out : list Z) : list Z := out ++ [i].
Definition inc_print (i : Z) (out : list Z) : list Z := out ++ [i + 1].
Definition dec_print (i : Z) (out : list Z) : list Z := out ++ [i - 1].
Definition bind (f : Z → list Z → list Z) (i : Z) : unit → list Z → list Z := λ _, f i.
Definition main_signal (i : Z) : list (unit → list Z → list Z) :=
  connect (bind dec_print i) (connect (bind inc_print i) (connect (bind print i) [])).
(** However often the signal is called, it prints the same three numbers. *)
Lemma calls_print n i : Nat.iter n (call tt (main_signal i)) [] = mjoin (replicate n [i; i + 1; i - 1]).
Proof.
  assert (H : ∀ out, call tt (main_signal i) out = out ++ [i; i + 1; i - 1]).
  { intros out. unfold main_signal. rewrite !call_connect. cbn. unfold dec_print, inc_print, print, call. cbn.
    by rewrite <-!app_assoc. }
  induction n as [|n IH]; [done|].
  change (call tt (main_signal i) (Nat.iter n (call tt (main_signal i)) []) = mjoin (replicate (S n) [i; i + 1; i - 1])).
  rewrite H, IH, replicate_S_end, join_app. cbn. done.
Qed.
Example signal_slot_prints : call tt (main_signal 10) [] = [10; 11; 9].
Proof. reflexivity. Qed.
End SignalSlot.
