(* ===== verification/Hiredis.v ===== *)
(** Programs that talk to a Redis server through hiredis: [src/redis/hiredis/redis_basics.cpp]
    ([Module RedisBasics]), [pipelining.cpp] ([Pipelining]) and
    [src/cpp/stl/iterator/inserters.cpp] ([Inserters]). What the library and the server
    give is an argument; [None] is a null pointer that is used, or a place outside an
    array. *)

From S2P Require Import Prelude.
#[local] Open Scope Z_scope.

(** A reply: its type, its string when it has one, its integer and the strings of its
    elements. *)
Record redisReply : Type := Reply { type : Z; str : option string; integer : Z; element : list (option string) }.

Inductive item : Type := Text (s : string) | Number (n : Z).

(** [redisConnect]: no context, or one with its [err]. All programs only report a failure,
    and go on. *)
Definition connected (context : option bool) : list item :=
  match context with
  | None => [Text "Can't allocate Redis context!"]
  | Some true => [Text "Error: "]
  | Some false => []
  end.

(** * [redis_basics.cpp] *)

Module RedisBasics.
(** What follows each command; the last two commands print the elements of the reply, whose
    strings must not be null. [err] is that of the context. *)
Definition report (with_elements : bool) (reply : option redisReply) (err : bool) : option (list item) :=
  if (if reply is Some _ then err else true) then
    Some [Text (if reply is Some _ then "Error: " else "Command Error!")]
  else
    r ← reply;
    strings ← (if with_elements then mapM id (element r) else Some []);
    Some ([Text "Reply type: "; Number (type r)] ++
      (if str r is Some s then [Text "Reply string: "; Text s] else []) ++ (Text <$> strings)).
Fixpoint reports (answers : list (bool * (option redisReply * bool))) : option (list item) :=
  match answers with
  | [] => Some []
  | (e, (reply, err)) :: answers => l ← report e reply err; l' ← reports answers; Some (l ++ l')
  end.
(** [main]: five commands; without a context the first of them is the end. *)
Definition main (context : option bool) (answers : list (option redisReply * bool)) : option (list item) :=
  _ ← context;
  l ← reports (zip [false; false; false; true; true] answers);
  Some (connected context ++ l ++ [Text "END~"]).

(** With a context the program comes to its end whatever the server and the connection do,
    as long as the elements of an array are strings. *)
Lemma comes_to_end err answers :
  Forall (λ p : option redisReply * bool, ∀ r, p.1 = Some r → Forall is_Some (element r)) answers →
  ∃ l, main (Some err) answers = Some (l ++ [Text "END~"]).
Proof.
  intros Hf. unfold main. cbn [mbind option_bind].
  enough (H : ∀ es, is_Some (reports (zip es answers))).
  { destruct (H [false; false; false; true; true]) as [l ->]. exists (connected (Some err) ++ l).
    cbn [mbind option_bind]. by rewrite <-(assoc_L (++)). }
  induction Hf as [|[reply e] answers Hr _ IH]; intros [|b es]; cbn [zip zip_with reports]; [by eexists..|].
  destruct (IH es) as [l' ->]. assert (is_Some (report b reply e)) as [l ->]; [|by eexists].
  unfold report. destruct reply as [r|]; [|by eexists]. destruct e; [by eexists|]. cbn [mbind option_bind].
  destruct b; [|by eexists]. specialize (Hr r eq_refl). assert (is_Some (mapM id (element r))) as [ss ->]; [|by eexists].
  by apply mapM_is_Some_2.
Qed.
Lemma comes_to_end_witness : ∃ l, main (Some true) [(None, true); (Some (Reply 6 (Some "ERR"%string) 0 []), false)] = Some (l ++ [Text "END~"]).
Proof. apply comes_to_end. repeat constructor; cbn; intros r [= <-]. constructor. Defined.
End RedisBasics.

(** * [pipelining.cpp] *)

Module Pipelining.
Inductive ending : Type := Blocked | Crashed | Ended.

(** The loop. The commands that were appended are sent by the first [redisGetReply], which
    like the others gives the next reply. When there is none to come, it waits, for ever
    on a connection that stays open; on a [closed] one it fails, with [err] set, and
    [left] is what it makes of the pointer. *)
Fixpoint loop (closed : bool) (left : option redisReply → option redisReply) (replies : list redisReply)
    (reply : option redisReply) : list Z * ending :=
  match replies with
  | r :: replies => let '(out, e) := loop closed left replies (Some r) in ([type r; integer r] ++ out, e)
  | [] =>
      if closed then
        match left reply with Some r => ([type r; integer r], Ended) | None => ([], Crashed) end
      else ([], Blocked)
  end.
(** [main]; appending a command to no context is a crash. *)
Definition main (context : option bool) (closed : bool) (left : option redisReply → option redisReply)
    (replies : list redisReply) : list Z * ending :=
  match context with None => ([], Crashed) | Some _ => loop closed left replies None end.

(** A server that answers the three commands and stays: the program prints three replies and
    never ends, for the loop asks for a fourth. *)
Theorem waits_for_ever err left r1 r2 r3 :
  main (Some err) false left [r1; r2; r3] = ([type r1; integer r1; type r2; integer r2; type r3; integer r3], Blocked).
Proof. done. Qed.
(** It ends only when the connection does, and then prints the last reply again, if the
    library left it. *)
Lemma ends_closed context closed left replies : (main context closed left replies).2 = Ended → closed = true.
Proof.
  unfold main. destruct context; [|done]. generalize (None : option redisReply) as o.
  induction replies as [|r replies IH]; intros o; cbn; [by destruct closed|].
  specialize (IH (Some r)). by destruct (loop closed left replies (Some r)).
Qed.
Lemma ends_closed_witness : (main (Some false) true id [Reply 3 None 1 []]).2 = Ended ∧ true = true.
Proof. split; [done|]. by apply (ends_closed (Some false) true id [Reply 3 None 1 []]). Defined.
End Pipelining.

(** * [inserters.cpp] *)

Module Inserters.
(** The loop of [hgetall] over the elements, two at a time. *)
Fixpoint pairs_of (l : list (option string)) : option (list (string * string)) :=
  match l with
  | [] => Some []
  | Some k :: Some v :: l => cons (k, v) <$> pairs_of l
  | _ => None
  end.
(** [hgetall] into an [unordered_map]: what is there already stays. *)
Definition insert_new (m : gmap string string) (p : string * string) : gmap string string :=
  match m !! p.1 with Some _ => m | None => <[p.1 := p.2]> m end.
Definition hgetall (reply : option redisReply) : option (gmap string string) :=
  r ← reply; ps ← pairs_of (element r); Some (foldl insert_new ∅ ps).
(** [main] after the connection: the map in the [order] of its buckets, the deque filled at its
    front, and then at its back. *)
Definition main (order : gmap string string → list (string * string)) (reply : option redisReply) :
    option (list (list (string * string))) :=
  fields ← hgetall reply;
  let l := order fields in
  let items := foldl (λ q x, x :: q) [] l in
  Some [l; items; items ++ l].

Definition flatten (ps : list (string * string)) : list (option string) := ps ≫= λ p, [Some p.1; Some p.2].
Lemma pairs_flatten ps : pairs_of (flatten ps) = Some ps.
Proof. induction ps as [|[k v] ps IH]; [done|]. cbn. fold (flatten ps). by rewrite IH. Qed.
Lemma insert_all ps m : NoDup ps.*1 → (∀ k, k ∈ ps.*1 → m !! k = None) →
  foldl insert_new m ps = list_to_map ps ∪ m.
Proof.
  revert m. induction ps as [|[k v] ps IH]; intros m Hd Hm; cbn; [by rewrite (left_id_L ∅ (∪))|].
  apply NoDup_cons in Hd as [Hk Hd]. unfold insert_new at 2. cbn. rewrite Hm by left. rewrite IH; [|done|].
  - rewrite <-insert_union_l. rewrite insert_union_r; [done|]. by apply not_elem_of_list_to_map_1.
  - intros k' Hk'. rewrite lookup_insert_ne by (intros ->; done). apply Hm. by right.
Qed.
(** The reply of a hash: the map has its fields and values, and the deque prints them
    backwards, and then forwards behind that. *)
Theorem hash_printed order t s n ps : NoDup ps.*1 → (∀ m, order m ≡ₚ map_to_list m) →
  ∃ l, l ≡ₚ ps ∧ main order (Some (Reply t s n (flatten ps))) = Some [l; reverse l; reverse l ++ l].
Proof.
  intros Hd Ho. exists (order (list_to_map ps)). split; [by rewrite Ho, map_to_list_to_map|].
  unfold main, hgetall. cbn. rewrite pairs_flatten. cbn. rewrite insert_all by (done || set_solver).
  rewrite (right_id_L ∅ (∪)).
  assert (H : ∀ l q : list (string * string), foldl (λ q x, x :: q) q l = reverse l ++ q).
  { intros l. induction l as [|x l IH]; intros q; cbn [foldl]; [done|]. by rewrite IH, reverse_cons, <-app_assoc. }
  by rewrite H, app_nil_r.
Qed.
Lemma hash_printed_witness : ∃ l, l ≡ₚ [("NAME", "ALICE"); ("AGE", "188")]%string ∧
  main map_to_list (Some (Reply 2 None 0 (flatten [("NAME", "ALICE"); ("AGE", "188")]%string))) = Some [l; reverse l; reverse l ++ l].
Proof. apply hash_printed; [|done]. apply (bool_decide_unpack (NoDup ["NAME"; "AGE"]%string)). by vm_compute. Defined.
(** No reply, as after a failed connection, is not looked for. *)
Lemma no_reply order : main order None = None.
Proof. done. Qed.
End Inserters.
